(* ===== verification/_CoqProject ===== *)
-Q . S2P
Prelude.v
CLib.v
FuseSlab.v
FuseSlabFacts.v
SlabProps.v
LittleEndian.v
FuseKernel.v
Buffer.v
Json.v
TgFile.v
TgStorage.v
TgApi.v
Telegram.v
FuseTypes.v
Hello.v
HelloFacts.v
FuseBuf.v
FuseBufFacts.v
FuseFs.v
FuseLocks.v
FuseLocksFacts.v
FuseOpt.v
FuseOptFacts.v
FuseOptSafe.v
FuseCmdline.v
FuseProcess.v
FuseMount.v
FuseSubdir.v
HelloOper.v
MemFs.v
Refine.v
Rmdir.v
Toy.v
NodeTable.v
NodeTableFacts.v
FuseNodes.v
FuseNodesFacts.v
FusePaths.v
FusePathsFacts.v
LockTable.v
FuseQueue.v
FuseDirents.v
FuseLib.v
FuseWire.v
FuseLowlevel.v
FuseSession.v
FuseNotify.v
FuseAnswers.v
FuseSessionFacts.v
FuseLoop.v
FuseLoopMt.v
FuseLoopMtFacts.v
FuseStart.v
StartProps.v
MtSession.v
FuseInit.v
FuseRequests.v
FuseDecode.v
FuseTree.v
FuseTreeOps.v
FuseQueueFacts.v
OperProps.v
LockProps.v
OptProps.v
SubdirProps.v
NodeProps.v
TreeProps.v
QueueProps.v
FuseLibFacts.v
FuseServe.v
KernelFs.v
KernelWire.v
FuseListing.v
KernelProps.v
MtProps.v
NotifyProps.v
WireProps.v
CompProps.v
FsProps.v
