(* ===== verification/Prelude.v ===== *)
(** * A verification of fuse_project

    The program mounts a file system whose files are documents in a Telegram
    chat.  src/main.c holds the FUSE handlers and the table of entries;
    src/src/tg_storage.c is the table, src/src/tg_file.c the entries and the
    requests to the Bot API, src/src/buffer.c a byte buffer and the search for
    fields in responses.  The program is linked with the copy of libfuse under
    src/fuse-3.17.2 and with the system's libcurl.

    ** Files

    - Prelude (this file): outcomes and faults of C code, the state monad [prog],
      machine integers, lists indexed by Z, bytes and memory cells.
    - CLib: the C library functions the sources call (str*, mem*, malloc,
      realloc, sprintf), on regions of cells.
    - Buffer, Json: src/src/buffer.c.
    - TgFile: src/src/tg_config.c, the structures and the path functions of
      src/src/tg_file.c.
    - TgStorage: src/src/tg_storage.c, with [rep st fs], "the table holds the
      list fs", and one lemma per operation that refines it to lists.
    - TgApi: the requests of src/src/tg_file.c, over the class [CurlEnv] that
      stands for libcurl and the network.
    - Telegram: the class [Telegram], what the program relies on of the Bot API,
      and what the requests do on a server that keeps it.
    - FuseTypes: the structures and helpers of fuse_common.h and fuse.h.
    - Hello: src/main.c, every handler, over [world] (the static data).
    - HelloFacts: one lemma per handler on tables that hold a list.
    - FuseBuf, FuseBufFacts: lib/buffer.c of libfuse, the vectors of buffers and
      copying between them, over the class [Syscalls] (read, write, splice).
    - FuseFs: the dispatchers fuse_fs_* of libfuse's lib/fuse.c over a table of
      operations, and the conversion of capabilities of lib/fuse_i.h.
    - HelloOper: the table hello_oper of src/main.c as such a table: the handlers
      of Hello on the state of the library.
    - FuseLocks, FuseLocksFacts: the record locks of lib/fuse.c.
    - FuseOpt, FuseOptFacts: the option parser, lib/fuse_opt.c.  FuseOptSafe: what makes a
      table of options fit the variables it sets ([table_ok], decided by computing), and
      that the parser never goes wrong with one.
    - FuseCmdline: the command line, lib/helper.c: the two tables of options, what is
      made of them, and the options of a connection.
    - FuseProcess: the process around the library: descriptors, handlers of signals,
      static variables, memory, and the system calls with their answers, which an
      environment chooses that knows all calls so far; Module FuseSignals:
      lib/fuse_signals.c and fuse_daemonize.
    - FuseMount: mounting and unmounting, lib/mount.c and lib/mount_util.c.
    - FuseSubdir: the module lib/modules/subdir.c, a file system on top of another.
    - NodeTable, NodeTableFacts: the hash tables of lib/fuse.c that grow and
      shrink by one bucket at a time, over the hash of a node, with the
      invariant [table_wf].
    - FuseNodes, FuseNodesFacts: the nodes of lib/fuse.c: finding them by number
      and by name, counting references, new numbers.
    - FusePaths, FusePathsFacts: the paths of lib/fuse.c, put together while the
      nodes on the way are locked; forgetting, unlinking and renaming nodes.
    - LockTable: what taking and giving back a path does to the counts of locks,
      apart from the nodes, with the invariant [counted] between counts and claims.
    - FuseQueue, FuseQueueFacts: the queue of lib/fuse.c for requests whose path is
      locked, and its refinement to LockTable on a tree that stays as it is.
    - FuseSlab: the memory of nodes (alloc_slab, alloc_node, free_node_mem of
      lib/fuse.c): pages, the lists linked through them in both directions.
      FuseSlabFacts: chains and rings of list heads; in Module FuseSlabPages the
      invariant [wf] of all pages and lists; in FuseSlabRun that every operation keeps it.
    - FuseTree, FuseTreeOps: the invariant [tree] of all nodes together (numbers,
      names, counts of references, ways to the root) and what each operation on
      nodes does to it.
    - FuseDirents: attributes, lookups, the records of directory
      listings (fuse_add_direntry... of lib/fuse_lowlevel.c) and the handles of
      open directories in lib/fuse.c.
    - FuseLib: the handlers fuse_lib_* of lib/fuse.c, one per request of the
      kernel, over the queue, the nodes and a table of operations.
    - LittleEndian: integers as bytes in memory; fields of structures.
    - FuseKernel: the opcodes, flags and sizes of include/fuse_kernel.h.
    - FuseWire: the replies of requests as the bytes written to the device
      (fuse_reply_... of lib/fuse_lowlevel.c).
    - FuseLowlevel: the handlers do_* of lib/fuse_lowlevel.c, which take the
      arguments of a request out of its bytes, over the table of operations
      [fuse_lowlevel_ops], and that table for lib/fuse.c ([fuse_path_ops]).
    - FuseSession: a session with the kernel (lib/fuse_lowlevel.c, lib/fuse_loop.c):
      INIT, the dispatch of requests, interrupts, the buffers and the loop.
    - FuseAnswers: every handler answers once: the class [answers_once] of tables of
      operations, and that fuse_path_ops is one.  FuseSessionFacts: what the
      session makes of that, for any table in the class.
    - FuseNotify: the messages a session sends on its own (fuse_lowlevel_notify_... of
      lib/fuse_lowlevel.c), and how a kernel reads them.
    - FuseLoop, FuseInit: the buffers and the loop; what INIT settles.
    - FuseLoopMt: lib/fuse_loop_mt.c, the threads and the main thread as a relation
      [step] over [fuse_mt], against the class [SessionOps] with its laws.
      FuseLoopMtFacts: the invariant [inv] of counts and channels, and in Module
      FuseLoopMtRuns what holds in every run; MtSession: FuseSession is an instance of the class.
    - FuseStart: fuse_new, fuse_destroy, the modules, the loop that forgets nodes, and
      fuse_main: from the command line to the exit code.
    - FuseRequests, FuseDecode: the requests a kernel sends, as data and as bytes,
      and that a session decodes what was encoded.
    - FuseLibFacts (with Module FuseDirsFacts on records of listings), FuseServe, FuseListing: what a handler does when it runs alone
      over hello_oper: the path it asks for, the locks it holds meanwhile, its
      call, its one reply, the pages of a listing.
    - MemFs: the abstract file system: a map from paths to nodes, with what a
      call may answer ([a_step]) and the kernel's side of the contract
      ([admissible]).
    - KernelFs: the file system as the kernel sees it: MemFs with a number for each
      path ([k_step], [k_admissible]), and the simulation of it by FuseLib.
    - KernelWire: the same for a kernel that sends bytes: the simulation
      through the session, and in Module KernelInit INIT of the program.
    - Refine, Rmdir: the program refines MemFs; removal of directories that are
      not empty.
    - Toy: a small server that keeps the contract and, in Module Samples, tables, on
      which the theorems are applied.
    - OperProps, LockProps, OptProps, SubdirProps, NodeProps, TreeProps, SlabProps, QueueProps,
      KernelProps, MtProps, StartProps, NotifyProps, WireProps, CompProps, FsProps: the
      properties.

    ** How state and operations correspond

    A C object is a region of cells, each a byte or [Poison] when it was never
    written; a decision on a poisoned cell, an access outside a region, a null
    dereference, a failed assert and signed overflow are faults, and the theorems
    that a call returns say that none occurs.  [size_t] and [int] values are
    integers with their wrap-around written out ([u64], [i32], ...).  A pointer
    into the table is the index of the slot.  Static variables are the fields of
    [world] and [api]; a handler is a function of them.

    ** What is shown

    FsProps: started by main on a server that keeps its contract, the program
    answers admissible calls as the in-memory map does (the refinement), what is
    written is read back, removal of a directory ends, takes it out of the table and
    touches nothing outside of it, listings are complete; and, outside the contract, what goes
    wrong: which file removal leaves behind, creation over a file, writes to
    unknown paths, writes after a failed download, long paths.
    CompProps: the table, the buffer, the response parser, the uploads, the path
    functions against plain descriptions, with the cases in which a
    response is misread.

    WireProps: the program behind the device: a kernel of version 7.12 or later that
    sends INIT and then requests as bytes is greeted and answered with the bytes
    that a file system in memory makes of the requests.  For every table of
    operations that answers once: a request in bytes is decoded to what it was
    encoded from, gets one message that is as long as it says and has its number (none
    when it is one the kernel waits for no answer to), and is refused before INIT, to strangers and without a handler; interrupts that
    come early are kept; INIT settles limits and flags that both sides know, or
    ends the session, and it is said when; the loop serves what it reads, in order, and ends.  And two places where bytes run
    out: the buffer of the loop, the number of pages of a write.

    KernelProps: libfuse and the program together: a kernel that sends lookup,
    getattr, mkdir, create, read and write, each as the replies so far make it, is
    answered as a file system in memory with numbered paths answers; a directory
    read page after page shows each name once; and two things that go wrong in
    listings with attributes.

    MtProps: the loop of several threads, whatever the order of their steps: its
    counts are right and everything is joined and closed when it returns; somebody
    listens; the end of the session is noticed; from then on it stops; and with one
    thread it is the loop of WireProps, which ends with a result exactly when some run of
    the threads does.  With max_idle_threads 0 two of these fail
    (idle_zero_starves, exit_lost).

    StartProps: no command line makes the parsers of libfuse go wrong, nor fuse_new
    up to the places where the model ends (numbers in some notations, modules but subdir),
    and neither does a shortage of memory; and how a run of fuse_main that ends leaves the
    handlers of signals, the modules and the key of the contexts, by its exit code.
    The tables of options enter by computing [table_ok] on them.

    NotifyProps: a kernel reads every notification as it was meant, none is sent to one
    that is too old nor, but for stored data, before INIT, and a request for data is
    answered once, under a number of its own.

    OperProps: what libfuse does between the kernel and the handlers: vectors of
    buffers are written as one block and reads come back in a block of the right
    length, copying moves exactly the bytes that fit, partial writes are
    retried, and the capability flags that init leaves.  LockProps: inserting a lock is an update of a map
    from owners and positions to lock types, conflicts are found exactly, memory
    shortage, the conversions.  OptProps: the parser's in-place loop against a
    splitting function, escaping, templates, and what a parse keeps.  SubdirProps: links
    are made relative without being led elsewhere, and every path that reaches the file
    system below lies under the base.  NodeProps:
    the two tables are maps through all resizing, new numbers are new, and the
    search for a path returns it with every node on the way locked, or an error
    with none.  TreeProps: the requests of the kernel about nodes keep the tree, but for
    a name taken from a node that is only remembered, where an assertion fails; a
    node that is forgotten goes with the directories only it kept, unless it has
    children, and a rename moves a node with all that is below it.  SlabProps: a node is
    handed out as long as there is one or mmap gives a page, is in no use, stays apart from every other and from the lists, and can be given
    back; at the end no page is left.  QueueProps: threads that wait for
    paths and give them back, one atomic step of the mutex at a time: write locks
    exclude, no wakeup is lost, and everybody who waits gets the path.

    ** Bounds and fuel

    The loops of rmdir and readdir get one more round than the table has
    entries; each round starts behind the previous index, so the lemmas prove
    that the fuel is never used up.  Searches run over the table's size.  A copy
    between vectors gets a round per buffer and one more, a retried write one per
    byte, an option group one per character, an argument vector one per argument,
    the insertion of a lock two more than there are locks (it may split one), the
    search for a number three more than there are nodes, the way to the root two
    more than there are nodes (the theorems prove it never meets a node twice).
    The kernel's reading of a directory gets a round more than there are entries.
    The loop of a session has the fuel of a caller: the theorem about it is that
    some fuel is enough for any sequence of reads that ends.  Runs of several
    threads have no fuel: they are sequences of steps of any length.

    ** Not modelled

    libcurl and the network (parameters); of libfuse interrupt
    signals, the uid, gid and pid of a request, pipes between
    the device and the session (splice: where the code would use one, the model
    fails with [Unmodelled], and the theorems say when it does not),
    custom input and output, modules in files of their own, the module iconv, the text
    of the help, cuse; other programs (mount, umount, fusermount3) and realpath are
    parameters; logging.  A step of the loop of several
    threads is a whole call of the session, so requests served at the same time do
    not interleave within it; the theorems on waiting threads
    do interleave, and hold while the tree stays as it is; changes of the tree and whole requests are
    taken one at a time, without waiting requests.
    The bot's token and the chat are parameters. *)
From stdpp Require Export base list list_numbers numbers strings gmap.
From Stdlib Require Export ZArith Lia.
From Stdlib Require Export Init.Byte.
From Stdlib Require Import Strings.Byte.

#[global] Set Default Goal Selector "!".
#[global] Open Scope Z_scope.

(** * Outcomes of C code *)

(** The ways a run of the C code leaves defined behaviour.  A run that ends in
    one of these has no result the program could rely on. *)
Inductive fault :=
  | NullDeref            (** a null pointer is read, written or offset *)
  | OutOfBounds          (** an access outside the object the pointer is into *)
  | UninitRead           (** a decision on memory that was never written *)
  | AssertFailed         (** an [assert] that fails: the process aborts *)
  | SignedOverflow       (** overflow of a signed integer *)
  | ProcessExit          (** the code ends the process *)
  | Blocked              (** the thread sleeps, and nobody runs who could wake it *)
  | Unmodelled           (** a library function is used in a way the model leaves out *)
  | OutOfFuel.           (** the bound given to a loop of the model is used up *)

#[global] Instance fault_eq_dec : EqDecision fault.
Proof. solve_decision. Defined.

(** The result of a piece of C code: a value, or a fault. *)
Inductive outcome (A : Type) :=
  | Ok (a : A)
  | Fail (f : fault).
Arguments Ok {A} a.
Arguments Fail {A} f.

Definition obind {A B} (m : outcome A) (k : A -> outcome B) : outcome B :=
  match m with Ok a => k a | Fail f => Fail f end.

Definition is_ok {A} (m : outcome A) : bool :=
  match m with Ok _ => true | Fail _ => false end.

(** [lift_fault f o]: the value of [o], or the fault [f]. *)
Definition lift_fault {A} (f : fault) (o : option A) : outcome A :=
  match o with Some a => Ok a | None => Fail f end.

(** [guard_c b f]: go on when [b], fault [f] otherwise. *)
Definition guard_c (b : bool) (f : fault) : outcome unit :=
  if b then Ok tt else Fail f.

Declare Scope c_scope.
Delimit Scope c_scope with c.
Notation "x <- m ;; k" := (obind m (fun x => k))
  (at level 100, m at next level, right associativity) : c_scope.
Notation "'let!' pat ':=' m 'in' k" := (obind m (fun x => match x with pat => k end))
  (at level 100, pat pattern, m at level 200, k at level 200, right associativity) : c_scope.
Notation "m ;; k" := (obind m (fun _ => k))
  (at level 100, right associativity) : c_scope.
#[global] Open Scope c_scope.

(** * State and faults *)

(** Code that reads and writes global variables: a function of the state that
    returns the new state, or faults. *)
Definition prog (S A : Type) : Type := S -> outcome (A * S).

Definition pret {S A} (a : A) : prog S A := fun s => Ok (a, s).
Definition pbind {S A B} (m : prog S A) (k : A -> prog S B) : prog S B :=
  fun s => let! (a, s') := m s in k a s'.
Definition pfail {S A} (f : fault) : prog S A := fun _ => Fail f.
Definition pget {S} : prog S S := fun s => Ok (s, s).
Definition pput {S} (s : S) : prog S unit := fun _ => Ok (tt, s).
Definition plift {S A} (m : outcome A) : prog S A := fun s => a <- m ;; Ok (a, s).

Declare Scope prog_scope.
Delimit Scope prog_scope with prog.
Notation "x <-- m ;; k" := (pbind m (fun x => k))
  (at level 100, m at next level, right associativity) : prog_scope.
Notation "'let?' pat ':=' m 'in' k" := (pbind m (fun x => match x with pat => k end))
  (at level 100, pat pattern, m at level 200, k at level 200, right associativity) : prog_scope.
Notation "m ;;; k" := (pbind m (fun _ => k))
  (at level 100, right associativity) : prog_scope.
#[global] Open Scope prog_scope.

Lemma obind_Ok_inv {A B} (m : outcome A) (k : A -> outcome B) b :
  obind m k = Ok b -> exists a, m = Ok a /\ k a = Ok b.
Proof. destruct m; simpl; [eauto | discriminate]. Qed.

Lemma obind_assoc {A B C} (m : outcome A) (f : A -> outcome B) (g : B -> outcome C) :
  obind (obind m f) g = obind m (fun a => obind (f a) g).
Proof. by destruct m. Qed.

Lemma obind_ret {A} (m : outcome A) : obind m Ok = m.
Proof. by destruct m. Qed.

(** Running one step of a program. *)
Lemma pbind_run {S A B} (m : prog S A) (k : A -> prog S B) s a s' :
  m s = Ok (a, s') -> pbind m k s = k a s'.
Proof. intros H. unfold pbind. by rewrite H. Qed.

Lemma pbind_Ok_inv {S A B} (m : prog S A) (f : A -> prog S B) s b s' : pbind m f s = Ok (b, s') ->
  exists a s1, m s = Ok (a, s1) /\ f a s1 = Ok (b, s').
Proof. unfold pbind. destruct (m s) as [[a s1]|]; [|done]. by exists a, s1. Qed.

Lemma pbind_assoc {S A B C} (m : prog S A) (f : A -> prog S B) (g : B -> prog S C) s :
  pbind (pbind m f) g s = pbind m (fun a => pbind (f a) g) s.
Proof. unfold pbind. by destruct (m s) as [[? ?]|]. Qed.

Lemma plift_run {S A} (m : outcome A) (s : S) a : m = Ok a -> plift m s = Ok (a, s).
Proof. by intros ->. Qed.

Lemma pget_run {S} (s : S) : pget s = Ok (s, s).
Proof. done. Qed.

Lemma pput_run {S} (s s' : S) : pput s' s = Ok (tt, s').
Proof. done. Qed.

Lemma lift_fault_Ok {A} f (o : option A) a : lift_fault f o = Ok a <-> o = Some a.
Proof. destruct o; simpl; split; congruence. Qed.

Lemma guard_c_Ok b f u : guard_c b f = Ok u <-> b = true.
Proof. destruct b, u; simpl; split; congruence. Qed.

Lemma is_ok_exists {A} (m : outcome A) : is_ok m = true <-> exists a, m = Ok a.
Proof. destruct m; simpl; split; [eauto | done | done | by intros [? ?]]. Qed.

(** [spec I E m Q]: from a state of [I], [m] ends with a result and a state of [Q], or
    with a fault of [E]. *)
Definition spec {S A} (I : S -> Prop) (E : fault -> Prop) (m : prog S A) (Q : A -> S -> Prop) : Prop :=
  forall s, I s -> match m s with Ok (a, s') => Q a s' | Fail f => E f end.

Section spec.
Context {S : Type} (E : fault -> Prop).

Lemma spec_bind {A B} (I : S -> Prop) (m : prog S A) (k : A -> prog S B) R Q :
  spec I E m R -> (forall a, spec (R a) E (k a) Q) -> spec I E (pbind m k) Q.
Proof.
  intros Hm Hk s Hs. specialize (Hm s Hs). unfold pbind. destruct (m s) as [[a s1]|f]; [|done]. exact (Hk a s1 Hm).
Qed.

Lemma spec_ret {A} (I : S -> Prop) (a : A) (Q : A -> S -> Prop) : (forall s, I s -> Q a s) -> spec I E (pret a) Q.
Proof. exact (fun H => H). Qed.

Lemma spec_ret_bind {A B} (I : S -> Prop) (a : A) (k : A -> prog S B) Q : spec I E (k a) Q -> spec I E (pbind (pret a) k) Q.
Proof. exact (fun H => H). Qed.

Lemma spec_get {B} (I : S -> Prop) (k : S -> prog S B) Q :
  (forall s, I s -> spec (fun s' => s' = s) E (k s) Q) -> spec I E (pbind pget k) Q.
Proof. intros Hk s Hs. exact (Hk s Hs s eq_refl). Qed.

Lemma spec_put (I : S -> Prop) (s1 : S) (Q : unit -> S -> Prop) : (forall s, I s -> Q tt s1) -> spec I E (pput s1) Q.
Proof. exact (fun H => H). Qed.

Lemma spec_lift {A} (I : S -> Prop) (m : outcome A) (Q : A -> S -> Prop) :
  (forall s, I s -> match m with Ok a => Q a s | Fail f => E f end) -> spec I E (plift m) Q.
Proof. intros H s Hs. specialize (H s Hs). unfold plift. by destruct m. Qed.

(** A computed step whose result is known. *)
Lemma spec_lift_bind {A B} (I : S -> Prop) (m : outcome A) (a : A) (k : A -> prog S B) Q :
  m = Ok a -> spec I E (k a) Q -> spec I E (pbind (plift m) k) Q.
Proof. intros -> Hk s Hs. exact (Hk s Hs). Qed.

Lemma spec_weaken {A} (I I' : S -> Prop) (m : prog S A) (Q Q' : A -> S -> Prop) :
  spec I' E m Q' -> (forall s, I s -> I' s) -> (forall a s, Q' a s -> Q a s) -> spec I E m Q.
Proof. intros Hm HI HQ s Hs. specialize (Hm s (HI s Hs)). destruct (m s) as [[a s1]|]; [by apply HQ | done]. Qed.

Lemma spec_pre {A} (I : S -> Prop) (m : prog S A) (Q : A -> S -> Prop) :
  (forall s, I s -> spec (fun s' => s' = s) E m Q) -> spec I E m Q.
Proof. intros H s Hs. exact (H s Hs s eq_refl). Qed.
End spec.

(** Takes a successful run apart into the successful runs of its steps. *)
Ltac inv_ok :=
  repeat match goal with
  | H : Ok _ = Ok _ |- _ => injection H as H; subst
  | H : Fail _ = Ok _ |- _ => discriminate H
  | H : Ok _ = Fail _ |- _ => discriminate H
  | H : lift_fault _ _ = Ok _ |- _ => apply lift_fault_Ok in H
  | H : guard_c _ _ = Ok _ |- _ => apply guard_c_Ok in H
  | H : _ && _ = true |- _ => apply andb_true_iff in H; destruct H
  | H : (_ <=? _) = true |- _ => apply Z.leb_le in H
  | H : (_ <? _) = true |- _ => apply Z.ltb_lt in H
  | H : obind _ _ = Ok _ |- _ =>
      let a := fresh "a" in let E := fresh "E" in
      apply obind_Ok_inv in H; destruct H as (a & E & H); cbn beta in H
  | H : (_, _) = (_, _) |- _ => injection H as H; subst
  | p : _ * _ |- _ => destruct p; cbn [fst snd] in *
  end.

(** [prun H] runs the next step of a program by the equation [H]. *)
Tactic Notation "prun" constr(H) := rewrite (pbind_run _ _ _ _ _ H).
(** The steps that only read the state, or lift a computed outcome. *)
Ltac prun_get := rewrite (pbind_run _ _ _ _ _ (pget_run _)).
Ltac prun_lift H := rewrite (pbind_run _ _ _ _ _ (plift_run _ _ _ H)).

(** * Machine integers *)

Definition SIZE_MAX : Z := 2 ^ 64 - 1.
Definition INT_MAX : Z := 2 ^ 31 - 1.

(** Conversion of an integer to an unsigned type of [w] bits. *)
Definition uwrap (w : Z) (z : Z) : Z := z mod 2 ^ w.
(** Conversion of an integer to a two's complement signed type of [w] bits. *)
Definition swrap (w : Z) (z : Z) : Z := (z + 2 ^ (w - 1)) mod 2 ^ w - 2 ^ (w - 1).

Abbreviation u64 := (uwrap 64).
Abbreviation u32 := (uwrap 32).
Abbreviation i32 := (swrap 32).
Abbreviation i64 := (swrap 64).

(** The largest object [malloc] and [realloc] return (PTRDIFF_MAX). *)
Definition malloc_max : Z := 2 ^ 63 - 1.

Lemma uwrap_small w z : 0 <= z < 2 ^ w -> uwrap w z = z.
Proof. apply Z.mod_small. Qed.

(** Masking the low [k] bits away. *)
Lemma land_high a k : 0 <= k -> 0 <= a < 2 ^ 64 -> Z.land a (u64 (Z.lnot (2 ^ k - 1))) = a / 2 ^ k * 2 ^ k.
Proof.
  intros Hk Ha. unfold uwrap. rewrite <- (Z.land_ones _ 64) by lia. rewrite (Z.land_comm (Z.lnot _)), Z.land_assoc.
  rewrite (Z.land_ones a 64), Z.mod_small by lia. change (2 ^ k - 1) with (Z.pred (2 ^ k)).
  rewrite <- Z.ones_equiv, <- Z.ldiff_land, Z.ldiff_ones_r by lia. by rewrite Z.shiftl_mul_pow2, Z.shiftr_div_pow2 by lia.
Qed.

Lemma uwrap_range w z : 0 <= w -> 0 <= uwrap w z < 2 ^ w.
Proof. intros. apply Z.mod_pos_bound. lia. Qed.

Lemma swrap_small w z : 0 < w -> - 2 ^ (w - 1) <= z < 2 ^ (w - 1) -> swrap w z = z.
Proof.
  intros Hw Hz. unfold swrap. rewrite Z.mod_small; [lia|].
  replace (2 ^ w) with (2 * 2 ^ (w - 1)); [lia|].
  rewrite <- Z.pow_succ_r by lia. f_equal; lia.
Qed.

Lemma u64_small z : 0 <= z <= SIZE_MAX -> u64 z = z.
Proof. intros. apply uwrap_small. unfold SIZE_MAX in *. lia. Qed.

Lemma i32_small z : 0 <= z <= INT_MAX -> i32 z = z.
Proof. intros. apply swrap_small; unfold INT_MAX in *; lia. Qed.

(** * Lists indexed by Z *)

Abbreviation zlen l := (Z.of_nat (length l)).

Definition ztake {A} (n : Z) (l : list A) : list A := take (Z.to_nat n) l.
Definition zdrop {A} (n : Z) (l : list A) : list A := drop (Z.to_nat n) l.

(** [zget l i] is the element at index [i], [None] outside the list. *)
Definition zget {A} (l : list A) (i : Z) : option A :=
  if 0 <=? i then l !! Z.to_nat i else None.

(** [splice l i xs] overwrites [l] with [xs] from index [i] on. *)
Definition splice {A} (l : list A) (i : Z) (xs : list A) : list A :=
  ztake i l ++ xs ++ zdrop (i + zlen xs) l.

Lemma zlen_ztake {A} n (l : list A) : 0 <= n <= zlen l -> zlen (ztake n l) = n.
Proof. intros. unfold ztake. rewrite length_take. lia. Qed.

Lemma zlen_zdrop {A} n (l : list A) : 0 <= n <= zlen l -> zlen (zdrop n l) = zlen l - n.
Proof. intros. unfold zdrop. rewrite length_drop. lia. Qed.

Lemma zlen_app {A} (l1 l2 : list A) : zlen (l1 ++ l2) = zlen l1 + zlen l2.
Proof. rewrite length_app. lia. Qed.

Lemma ztake_app_exact {A} n (l1 l2 : list A) : n = zlen l1 -> ztake n (l1 ++ l2) = l1.
Proof. intros ->. unfold ztake. rewrite Nat2Z.id. by apply take_app_length. Qed.

Lemma zdrop_app_exact {A} n (l1 l2 : list A) : n = zlen l1 -> zdrop n (l1 ++ l2) = l2.
Proof. intros ->. unfold zdrop. rewrite Nat2Z.id. by apply drop_app_length. Qed.

Lemma ztake_ge {A} n (l : list A) : zlen l <= n -> ztake n l = l.
Proof. intros. apply take_ge. lia. Qed.

Lemma zdrop_ge {A} n (l : list A) : zlen l <= n -> zdrop n l = [].
Proof. intros. apply drop_ge. lia. Qed.

Lemma ztake_0 {A} (l : list A) : ztake 0 l = [].
Proof. done. Qed.

Lemma zdrop_0 {A} (l : list A) : zdrop 0 l = l.
Proof. done. Qed.

Lemma ztake_zdrop {A} n (l : list A) : ztake n l ++ zdrop n l = l.
Proof. apply take_drop. Qed.

Lemma ztake_ztake {A} n m (l : list A) :
  0 <= n -> 0 <= m -> ztake n (ztake m l) = ztake (n `min` m) l.
Proof. intros. unfold ztake. rewrite take_take. f_equal. lia. Qed.

Lemma zdrop_zdrop {A} n m (l : list A) :
  0 <= n -> 0 <= m -> zdrop n (zdrop m l) = zdrop (m + n) l.
Proof. intros. unfold zdrop. rewrite drop_drop. f_equal. lia. Qed.

Lemma ztake_app_le {A} n (l1 l2 : list A) : n <= zlen l1 -> ztake n (l1 ++ l2) = ztake n l1.
Proof. intros. apply take_app_le. lia. Qed.

Lemma ztake_app_ge {A} n (l1 l2 : list A) :
  zlen l1 <= n -> ztake n (l1 ++ l2) = l1 ++ ztake (n - zlen l1) l2.
Proof. intros. unfold ztake. rewrite take_app_ge by lia. do 2 f_equal. lia. Qed.

Lemma zdrop_app_ge {A} n (l1 l2 : list A) :
  zlen l1 <= n -> zdrop n (l1 ++ l2) = zdrop (n - zlen l1) l2.
Proof. intros. unfold zdrop. rewrite drop_app_ge by lia. f_equal. lia. Qed.

Lemma zdrop_app_le {A} n (l1 l2 : list A) :
  n <= zlen l1 -> zdrop n (l1 ++ l2) = zdrop n l1 ++ l2.
Proof. intros. apply drop_app_le. lia. Qed.

Lemma zlen_splice {A} (l : list A) i xs :
  0 <= i -> i + zlen xs <= zlen l -> zlen (splice l i xs) = zlen l.
Proof.
  intros. unfold splice. rewrite !zlen_app, zlen_ztake, zlen_zdrop by lia. lia.
Qed.

(** A prefix that ends before the overwritten window is untouched. *)
Lemma ztake_splice_le {A} (l : list A) i xs n :
  0 <= n <= i -> i <= zlen l -> ztake n (splice l i xs) = ztake n l.
Proof.
  intros. unfold splice. rewrite ztake_app_le by (rewrite zlen_ztake; lia).
  rewrite ztake_ztake by lia. f_equal. lia.
Qed.

(** A prefix that covers the overwritten window. *)
Lemma ztake_splice_ge {A} (l : list A) i xs n :
  0 <= i -> i + zlen xs <= n <= zlen l ->
  ztake n (splice l i xs) = splice (ztake n l) i xs.
Proof.
  intros. unfold splice.
  rewrite ztake_app_ge by (rewrite zlen_ztake; lia). rewrite zlen_ztake by lia.
  rewrite ztake_app_ge by lia. rewrite ztake_ztake by lia.
  replace (i `min` n) with i by lia. do 2 f_equal.
  unfold ztake, zdrop. rewrite skipn_firstn_comm. f_equal. lia.
Qed.

Lemma zget_Some {A} (l : list A) i x :
  zget l i = Some x <-> 0 <= i /\ l !! Z.to_nat i = Some x.
Proof. unfold zget. destruct (Z.leb_spec 0 i); intuition (lia || done). Qed.

Lemma zget_is_Some {A} (l : list A) i : is_Some (zget l i) <-> 0 <= i < zlen l.
Proof.
  unfold zget. destruct (Z.leb_spec 0 i); [|split; [intros [? [=]] | lia]].
  rewrite lookup_lt_is_Some. lia.
Qed.

Lemma zget_nat {A} (l : list A) (i : nat) : zget l (Z.of_nat i) = l !! i.
Proof. unfold zget. rewrite Nat2Z.id. destruct (Z.leb_spec 0 (Z.of_nat i)); [done | lia]. Qed.

Lemma filter_none {A} (P : A -> Prop) `{forall x, Decision (P x)} (l : list A) :
  (forall x, x ∈ l -> ~ P x) -> filter P l = [].
Proof.
  intros Hl. induction l as [|x l IH]; [done|]. rewrite filter_cons_False.
  - apply IH. intros y Hy. apply Hl. apply elem_of_cons. by right.
  - apply Hl. apply elem_of_cons. by left.
Qed.

Create HintDb clib discriminated.
Create Rewrite HintDb clib.
#[export] Hint Rewrite @zlen_app @length_replicate @length_fmap @length_insert : clib.

(** * Bytes and byte strings *)

#[global] Instance byte_eq_dec : EqDecision byte := Byte.byte_eq_dec.

#[global] Instance byte_countable : Countable byte.
Proof.
  refine (inj_countable Byte.to_N Byte.of_N _). intros b. apply Byte.of_to_N.
Defined.

(** The value of an [unsigned char]. *)
Definition uchar (b : byte) : Z := Z.of_N (Byte.to_N b).

(** A character literal of the C source. *)
Definition ch (c : Ascii.ascii) : byte := Ascii.byte_of_ascii c.

(** A string literal of the C source, without its final NUL. *)
Definition lit (s : string) : list byte := String.list_byte_of_string s.

(** A string literal that contains double quotes, written here with single
    ones. *)
Definition qlit (s : string) : list byte :=
  map (fun b => if decide (b = x27) then x22 else b) (lit s).

Definition NUL : byte := x00.
Definition SLASH : byte := x2f.
Definition QUOTE : byte := x22.

(** A cell of memory: a byte that was written, or one that never was. *)
Inductive cell :=
  | Byte (b : byte)
  | Poison.

#[global] Instance cell_eq_dec : EqDecision cell.
Proof. solve_decision. Defined.

Definition cells (bs : list byte) : list cell := Byte <$> bs.

(** The bytes of a region all of whose cells were written. *)
Definition init_bytes (m : list cell) : option (list byte) :=
  mapM (fun c => match c with Byte b => Some b | Poison => None end) m.

Lemma zlen_cells bs : zlen (cells bs) = zlen bs.
Proof. unfold cells. by rewrite length_fmap. Qed.

Lemma init_bytes_cells bs : init_bytes (cells bs) = Some bs.
Proof.
  unfold init_bytes, cells. induction bs as [|b bs IH]; [done|].
  cbn. cbn in IH. by rewrite IH.
Qed.

Lemma cells_nil : cells [] = [].
Proof. done. Qed.

Lemma cells_cons b s : cells (b :: s) = Byte b :: cells s.
Proof. done. Qed.

Lemma cells_app a b : cells (a ++ b) = cells a ++ cells b.
Proof. apply fmap_app. Qed.

#[export] Instance cells_inj : Inj (=) (=) cells.
Proof. intros a b H. apply (f_equal init_bytes) in H. rewrite !init_bytes_cells in H. congruence. Qed.

#[export] Hint Rewrite zlen_cells cells_nil cells_cons cells_app : clib.
#[global] Arguments cells : simpl never.
