(* ===== verification/CLib.v ===== *)
(** * The C string functions the program calls

    Regions of memory are lists of cells, from the address a pointer holds to
    the end of the object it points into.  A read past the end of the region is
    [OutOfBounds]; a decision on a cell that was never written is [UninitRead].
    These are the functions of <string.h> and <stdio.h> the sources use, after
    their description in the C standard. *)
From S2P Require Import Prelude.

(** A NUL-terminated array that holds [s]. *)
Definition cstr (s : list byte) : list cell := cells s ++ [Byte NUL].

(** The string at the start of a region: its bytes up to the first NUL. *)
Fixpoint c_string (m : list cell) : outcome (list byte) :=
  match m with
  | [] => Fail OutOfBounds
  | Poison :: _ => Fail UninitRead
  | Byte b :: m' =>
      if decide (b = NUL) then Ok [] else s <- c_string m' ;; Ok (b :: s)
  end.

Definition strlen (m : list cell) : outcome Z := s <- c_string m ;; Ok (zlen s).

(** [strcmp] reads both strings only up to the first difference. *)
Fixpoint strcmp (a b : list cell) : outcome comparison :=
  match a, b with
  | Byte x :: a', Byte y :: b' =>
      if decide (x = y)
      then if decide (x = NUL) then Ok Eq else strcmp a' b'
      else Ok (uchar x ?= uchar y)
  | Poison :: _, _ | _, Poison :: _ => Fail UninitRead
  | _, _ => Fail OutOfBounds
  end.

(** The index of the first byte of [s] that satisfies [p]. *)
Fixpoint find_pos (p : byte -> bool) (s : list byte) : option Z :=
  match s with
  | [] => None
  | b :: s' => if p b then Some 0 else Z.succ <$> find_pos p s'
  end.

(** The index of the last one. *)
Fixpoint find_last (p : byte -> bool) (s : list byte) : option Z :=
  match s with
  | [] => None
  | b :: s' => match find_last p s' with
               | Some i => Some (Z.succ i)
               | None => if p b then Some 0 else None
               end
  end.

Fixpoint is_prefix (t s : list byte) : bool :=
  match t, s with
  | [], _ => true
  | x :: t', y :: s' => if decide (x = y) then is_prefix t' s' else false
  | _ :: _, [] => false
  end.

(** The index of the first occurrence of [t] in [s]. *)
Fixpoint find_sub (t s : list byte) : option Z :=
  if is_prefix t s then Some 0
  else match s with
       | [] => None
       | _ :: s' => Z.succ <$> find_sub t s'
       end.

(** The functions that return a pointer into the string return its offset. *)
Definition strchr (m : list cell) (c : byte) : outcome (option Z) :=
  s <- c_string m ;; Ok (find_pos (fun b => bool_decide (b = c)) s).
Definition strrchr (m : list cell) (c : byte) : outcome (option Z) :=
  s <- c_string m ;; Ok (find_last (fun b => bool_decide (b = c)) s).
Definition strpbrk (m : list cell) (accept : list byte) : outcome (option Z) :=
  s <- c_string m ;; Ok (find_pos (fun b => bool_decide (b ∈ accept)) s).
Definition strstr (m : list cell) (needle : list byte) : outcome (option Z) :=
  s <- c_string m ;; Ok (find_sub needle s).

(** Reads and writes of [n] cells at offset [off] of an object. *)
Definition mem_read (m : list cell) (off n : Z) : outcome (list cell) :=
  guard_c ((0 <=? off) && (0 <=? n) && (off + n <=? zlen m)) OutOfBounds ;;
  Ok (ztake n (zdrop off m)).
Definition mem_write (m : list cell) (off : Z) (xs : list cell) : outcome (list cell) :=
  guard_c ((0 <=? off) && (off + zlen xs <=? zlen m)) OutOfBounds ;;
  Ok (splice m off xs).

(** The byte at offset [off], read to decide something. *)
Definition load (m : list cell) (off : Z) : outcome byte :=
  match zget m off with
  | Some (Byte b) => Ok b
  | Some Poison => Fail UninitRead
  | None => Fail OutOfBounds
  end.

Definition strcpy (dst src : list cell) : outcome (list cell) :=
  s <- c_string src ;; mem_write dst 0 (cstr s).

(** What [strncpy] reads: at most [n] bytes, none after a NUL. *)
Fixpoint strn (m : list cell) (n : nat) : outcome (list byte) :=
  match n, m with
  | O, _ => Ok []
  | S _, [] => Fail OutOfBounds
  | S _, Poison :: _ => Fail UninitRead
  | S n', Byte b :: m' =>
      if decide (b = NUL) then Ok [] else s <- strn m' n' ;; Ok (b :: s)
  end.

(** [strncpy] writes exactly [n] bytes, padding with NULs. *)
Definition strncpy (dst src : list cell) (n : Z) : outcome (list cell) :=
  guard_c (n <=? zlen dst) OutOfBounds ;;
  s <- strn src (Z.to_nat n) ;;
  mem_write dst 0 (cells s ++ replicate (Z.to_nat n - length s) (Byte NUL)).

(** [memset(m, 0, n)] on a whole object. *)
Definition memset0 (n : Z) : list cell := replicate (Z.to_nat n) (Byte NUL).

(** A local array that was not initialised. *)
Definition uninit (n : Z) : list cell := replicate (Z.to_nat n) Poison.

(** [sprintf] of already formatted text into an array. *)
Definition sprintf (dst : list cell) (text : list byte) : outcome (list cell) :=
  mem_write dst 0 (cstr text).

(** Decides that a concrete string has no NUL. *)
Ltac no_NUL := refine (bool_decide_unpack _ _); vm_compute; exact I.

(** ** Strings in regions *)

Lemma c_string_app s rest :
  NUL ∉ s -> c_string (cells s ++ Byte NUL :: rest) = Ok s.
Proof.
  induction s as [|b s IH]; intros Hs; [done|].
  apply not_elem_of_cons in Hs as [Hb Hs]. rewrite cells_cons. simpl.
  destruct (decide (b = NUL)); [congruence|]. by rewrite IH.
Qed.

Lemma c_string_cstr s : NUL ∉ s -> c_string (cstr s) = Ok s.
Proof. apply c_string_app. Qed.

Lemma c_string_inv m s :
  c_string m = Ok s -> exists rest, m = cells s ++ Byte NUL :: rest /\ NUL ∉ s.
Proof.
  revert s. induction m as [|[b|] m IH]; simpl; intros s H; [done| |done].
  destruct (decide (b = NUL)) as [->|Hb].
  - inv_ok. exists m. split; [done | apply not_elem_of_nil].
  - inv_ok. destruct (IH _ E) as (rest & -> & Hn). exists rest. split; [done|].
    by apply not_elem_of_cons.
Qed.

Lemma c_string_no_NUL m s : c_string m = Ok s -> NUL ∉ s.
Proof. intros (? & _ & ?)%c_string_inv. done. Qed.

Lemma c_string_len m s : c_string m = Ok s -> zlen s + 1 <= zlen m.
Proof.
  intros (rest & -> & _)%c_string_inv.
  rewrite zlen_app, zlen_cells. simpl. lia.
Qed.

(** The verdict of [strcmp] on two strings is whether they are equal. *)
Lemma strcmp_strings a b s t :
  c_string a = Ok s -> c_string b = Ok t ->
  exists c, strcmp a b = Ok c /\ (c = Eq <-> s = t).
Proof.
  revert b s t. induction a as [|[x|] a IH]; simpl; intros b s t Ha Hb; [done| |done].
  destruct b as [|[y|] b]; simpl in Hb; [done| |done].
  destruct (decide (x = NUL)) as [->|Hx], (decide (y = NUL)) as [->|Hy]; inv_ok.
  - exists Eq. rewrite decide_True by done. done.
  - exists (uchar NUL ?= uchar y). rewrite decide_False by congruence. split; [done|].
    destruct y; split; done.
  - exists (uchar x ?= uchar NUL). rewrite decide_False by congruence. split; [done|].
    destruct x; split; done.
  - destruct (decide (x = y)) as [->|Hne].
    + destruct (IH b _ _ E0 E) as (c & -> & Hc). exists c. split; [done|].
      rewrite Hc. split; congruence.
    + exists (uchar x ?= uchar y). split; [done|]. split; [|congruence].
      intros Heq%Z.compare_eq. exfalso. apply Hne. unfold uchar in Heq.
      apply N2Z.inj in Heq.
      assert (Some x = Some y) as [= ->]; [|done].
      by rewrite <- (Byte.of_to_N x), <- (Byte.of_to_N y), Heq.
Qed.

Lemma strcmp_eqb a b s t :
  c_string a = Ok s -> c_string b = Ok t ->
  (c <- strcmp a b ;; Ok (bool_decide (c = Eq))) = Ok (bool_decide (s = t)).
Proof.
  intros Ha Hb. destruct (strcmp_strings a b s t Ha Hb) as (c & -> & Hc). simpl.
  f_equal. by apply bool_decide_ext.
Qed.

(** ** Searching *)

Lemma find_pos_Some p s i :
  find_pos p s = Some i ->
  0 <= i < zlen s /\ Forall (fun b => p b = false) (ztake i s) /\
  exists b, zget s i = Some b /\ p b = true.
Proof.
  revert i. induction s as [|b s IH]; simpl; intros i H; [done|].
  destruct (p b) eqn:Eb.
  - injection H as <-. split; [simpl; lia|]. split; [constructor | by exists b].
  - destruct (find_pos p s) as [j|] eqn:Ej; [|done]. injection H as <-.
    destruct (IH j eq_refl) as (Hj & Hall & c & Hc & Hp). split; [lia|]. split.
    + unfold ztake. rewrite Z2Nat.inj_succ by lia. simpl. by constructor.
    + exists c. split; [|done]. apply zget_Some in Hc as [_ Hc]. apply zget_Some.
      split; [lia|]. by rewrite Z2Nat.inj_succ by lia.
Qed.

Lemma find_pos_None p s : find_pos p s = None <-> Forall (fun b => p b = false) s.
Proof.
  induction s as [|b s IH]; simpl; [by split|].
  destruct (p b) eqn:Eb.
  - split; [done|]. inversion 1; congruence.
  - rewrite Forall_cons. destruct (find_pos p s); simpl.
    + split; [done|]. intros [_ H]. by apply IH in H.
    + split; [|done]. intros _. split; [done|]. by apply IH.
Qed.

Lemma find_pos_app p s b t :
  Forall (fun x => p x = false) s -> p b = true ->
  find_pos p (s ++ b :: t) = Some (zlen s).
Proof.
  intros Hs Hb. induction Hs as [|x s Hx Hs IH]; simpl; [by rewrite Hb|].
  rewrite Hx, IH. simpl. f_equal. lia.
Qed.

Lemma find_last_app p s b t :
  p b = true -> Forall (fun x => p x = false) t ->
  find_last p (s ++ b :: t) = Some (zlen s).
Proof.
  intros Hb Ht.
  assert (find_last p t = None) as Hn.
  { induction Ht as [|x t Hx Ht IH]; simpl; [done|]. by rewrite IH, Hx. }
  induction s as [|x s IH]; simpl; [by rewrite Hn, Hb|].
  rewrite IH. f_equal. lia.
Qed.

Lemma find_last_Some p s i :
  find_last p s = Some i ->
  exists a b c, s = a ++ b :: c /\ zlen a = i /\ p b = true /\
    Forall (fun x => p x = false) c.
Proof.
  revert i. induction s as [|b s IH]; simpl; intros i H; [done|].
  destruct (find_last p s) as [j|] eqn:Ej.
  - injection H as <-. destruct (IH j eq_refl) as (u & c & v & -> & Hj & Hp & Hv).
    exists (b :: u), c, v. simpl. repeat split; [lia | done | done].
  - destruct (p b) eqn:Eb; [|done]. injection H as <-. exists [], b, s.
    repeat split; [done|]. clear -Ej. induction s as [|x s IH]; [constructor|].
    simpl in Ej. destruct (find_last p s); [done|]. destruct (p x) eqn:Ex; [done|].
    constructor; [done | by apply IH].
Qed.

Lemma find_last_None p s : find_last p s = None <-> Forall (fun b => p b = false) s.
Proof.
  induction s as [|b s IH]; simpl; [by split|]. rewrite Forall_cons.
  destruct (find_last p s); [|destruct (p b) eqn:Eb].
  - split; [done|]. intros [_ H]. by apply IH in H.
  - split; [done|]. intros [? _]; congruence.
  - split; [|done]. intros _. split; [done | by apply IH].
Qed.

Lemma is_prefix_spec t s : is_prefix t s = true <-> exists u, s = t ++ u.
Proof.
  revert s. induction t as [|x t IH]; simpl; intros s; [split; eauto|].
  destruct s as [|y s].
  - split; [done|]. by intros [? ?].
  - destruct (decide (x = y)) as [->|Hne].
    + rewrite IH. split; intros [u H]; exists u; congruence.
    + split; [done|]. intros [? [= ? ?]]; congruence.
Qed.

Lemma find_sub_Some t s i :
  find_sub t s = Some i -> 0 <= i /\ exists u, zdrop i s = t ++ u /\ i + zlen t <= zlen s.
Proof.
  revert i. induction s as [|b s IH]; intros i.
  - cbn. destruct t; cbn; [|done]. intros [= <-]. split; [lia|]. by exists [].
  - cbn [find_sub]. destruct (is_prefix t (b :: s)) eqn:Ep.
    + intros [= <-]. apply is_prefix_spec in Ep as [u Hu]. split; [lia|].
      exists u. rewrite zdrop_0. split; [done|]. rewrite Hu, zlen_app. lia.
    + destruct (find_sub t s) as [j|]; [|done]. intros [= <-].
      destruct (IH j eq_refl) as (Hj & u & Hu & Hlen). split; [lia|].
      exists u. unfold zdrop in *. rewrite Z2Nat.inj_succ by lia. simpl. split; [done|].
      lia.
Qed.

(** The first occurrence is found where no earlier suffix starts with [t]. *)
Lemma find_sub_first t pre post :
  (forall k, (k < length pre)%nat -> is_prefix t (drop k (pre ++ t ++ post)) = false) ->
  find_sub t (pre ++ t ++ post) = Some (zlen pre).
Proof.
  induction pre as [|b pre IH]; intros H.
  - assert (is_prefix t (t ++ post) = true) as Hp by (apply is_prefix_spec; eauto).
    simpl. destruct (t ++ post); cbn [find_sub]; by rewrite Hp.
  - pose proof (H 0%nat ltac:(simpl; lia)) as H0. cbn [drop app] in H0.
    cbn [app find_sub]. rewrite H0, IH.
    + simpl. f_equal. lia.
    + intros k Hk. apply (H (S k)). simpl. lia.
Qed.

(** ** Reads and writes *)

Lemma mem_write_Ok m off xs m' :
  mem_write m off xs = Ok m' <->
  0 <= off /\ off + zlen xs <= zlen m /\ m' = splice m off xs.
Proof.
  unfold mem_write, guard_c.
  destruct (Z.leb_spec 0 off), (Z.leb_spec (off + zlen xs) (zlen m)); simpl;
    split; intros; inv_ok; intuition (lia || congruence).
Qed.

Lemma mem_write_in m off xs :
  0 <= off -> off + zlen xs <= zlen m -> mem_write m off xs = Ok (splice m off xs).
Proof. intros. by apply mem_write_Ok. Qed.

Lemma mem_read_in m off n :
  0 <= off -> 0 <= n -> off + n <= zlen m -> mem_read m off n = Ok (ztake n (zdrop off m)).
Proof.
  intros. unfold mem_read, guard_c.
  rewrite !(proj2 (Z.leb_le _ _)) by lia. done.
Qed.

Lemma mem_read_mid a b c off n :
  off = zlen a -> n = zlen b -> mem_read (a ++ b ++ c) off n = Ok b.
Proof.
  intros -> ->. rewrite mem_read_in by (rewrite ?zlen_app; lia).
  by rewrite zdrop_app_exact, ztake_app_exact.
Qed.

Lemma mem_read_Ok m off n xs :
  mem_read m off n = Ok xs ->
  0 <= off /\ 0 <= n /\ off + n <= zlen m /\ xs = ztake n (zdrop off m).
Proof. unfold mem_read. intros H. inv_ok. split_and!; (lia || done). Qed.

Lemma zlen_cstr s : zlen (cstr s) = zlen s + 1.
Proof. unfold cstr. rewrite zlen_app, zlen_cells. done. Qed.

Lemma strcpy_fits dst s :
  NUL ∉ s -> zlen s + 1 <= zlen dst ->
  strcpy dst (cstr s) = Ok (cstr s ++ zdrop (zlen s + 1) dst).
Proof.
  intros Hs Hlen. unfold strcpy. rewrite c_string_cstr by done. simpl.
  rewrite mem_write_in by (rewrite ?zlen_cstr; lia).
  unfold splice. rewrite zlen_cstr. done.
Qed.

(** [strcpy] faults exactly when the string and its NUL do not fit. *)
Lemma strcpy_overflow dst s :
  NUL ∉ s -> zlen dst < zlen s + 1 -> strcpy dst (cstr s) = Fail OutOfBounds.
Proof.
  intros Hs Hlen. unfold strcpy. rewrite c_string_cstr by done. simpl.
  unfold mem_write, guard_c. rewrite zlen_cstr.
  rewrite (proj2 (Z.leb_gt (0 + (zlen s + 1)) (zlen dst))) by lia. done.
Qed.

Lemma strn_exact s rest n :
  NUL ∉ s -> n = length s -> strn (cells s ++ rest) n = Ok s.
Proof.
  intros Hs ->. induction s as [|b s IH]; [by destruct rest|].
  apply not_elem_of_cons in Hs as [Hb Hs]. rewrite cells_cons. simpl.
  destruct (decide (b = NUL)); [congruence|]. by rewrite IH.
Qed.

Lemma strncpy_exact dst s rest :
  NUL ∉ s -> zlen s <= zlen dst ->
  strncpy dst (cells s ++ rest) (zlen s) = Ok (cells s ++ zdrop (zlen s) dst).
Proof.
  intros Hs Hlen. unfold strncpy, guard_c. rewrite (proj2 (Z.leb_le _ _)) by lia. simpl.
  rewrite (strn_exact s rest) by (done || lia). simpl.
  rewrite Nat2Z.id, Nat.sub_diag. simpl. rewrite app_nil_r.
  rewrite mem_write_in by (rewrite ?zlen_cells; lia). unfold splice.
  rewrite zlen_cells. done.
Qed.

Lemma strncpy_too_long dst src n : zlen dst < n -> strncpy dst src n = Fail OutOfBounds.
Proof.
  intros. unfold strncpy, guard_c. destruct (Z.leb_spec n (zlen dst)); [lia | done].
Qed.

#[export] Hint Rewrite zlen_cstr : clib.
#[export] Hint Resolve c_string_no_NUL : clib.

(** ** The heap *)

(** [malloc] and [realloc] return an object of the size asked for, whose new
    cells are not written, as long as the size is one an object can have; past
    that they return a null pointer. *)
Definition malloc (n : Z) : option (list cell) :=
  if n <=? malloc_max then Some (uninit n) else None.

Definition realloc (p : option (list cell)) (n : Z) : option (list cell) :=
  match p with
  | None => malloc n
  | Some m => if n =? 0 then None
              else if n <=? malloc_max then Some (resize (Z.to_nat n) Poison m)
              else None
  end.

(** Writes through a pointer to the start of a heap object. *)
Definition ptr_write (p : option (list cell)) (off : Z) (xs : list cell)
    : outcome (option (list cell)) :=
  m <- lift_fault NullDeref p ;; m' <- mem_write m off xs ;; Ok (Some m').

Definition ptr_read (p : option (list cell)) (off n : Z) : outcome (list cell) :=
  m <- lift_fault NullDeref p ;; mem_read m off n.

Lemma zlen_uninit n : 0 <= n -> zlen (uninit n) = n.
Proof. intros. unfold uninit. rewrite length_replicate. lia. Qed.

Lemma malloc_in n : 0 <= n <= malloc_max -> malloc n = Some (uninit n).
Proof. intros. unfold malloc. by rewrite (proj2 (Z.leb_le _ _)) by lia. Qed.

Lemma realloc_grow m n :
  zlen m <= n <= malloc_max -> 0 < n ->
  realloc (Some m) n = Some (m ++ uninit (n - zlen m)).
Proof.
  intros Hn Hpos. unfold realloc.
  rewrite (proj2 (Z.eqb_neq _ _)), (proj2 (Z.leb_le _ _)) by lia.
  rewrite resize_ge by lia. unfold uninit. do 3 f_equal. lia.
Qed.

Lemma ptr_write_in m off xs :
  0 <= off -> off + zlen xs <= zlen m ->
  ptr_write (Some m) off xs = Ok (Some (splice m off xs)).
Proof. intros. unfold ptr_write. simpl. by rewrite mem_write_in. Qed.

Lemma ptr_read_in m off n :
  0 <= off -> 0 <= n -> off + n <= zlen m ->
  ptr_read (Some m) off n = Ok (ztake n (zdrop off m)).
Proof. intros. unfold ptr_read. simpl. by apply mem_read_in. Qed.

#[export] Hint Rewrite zlen_uninit using lia : clib.
