(* ===== verification/FuseSlab.v ===== *)
(** The memory of nodes (src/fuse-3.17.2/lib/fuse.c, FUSE_NODE_SLAB): nodes are cut
    from pages, the free ones of a page are on a list of the page, and the pages are
    on two lists, by whether they have a free node.  The lists are linked through
    the memory itself, in both directions, and are modelled that way: an address
    holds a list head or it does not. *)
From S2P Require Import Prelude.
From S2P Require Import CLib.

Module FuseSlab.

(** ** Definitions *)

(** [struct list_head] *)
Record list_head := mk_head { next : Z; prev : Z }.

(** What the functions need of [struct fuse]: the size of a page and of a node, and
    the addresses of its two lists. *)
Record slab_conf := mk_slab_conf { pagesize : Z; node_size : Z; partial_slabs : Z; full_slabs : Z }.

(** [sizeof(struct node_slab)], and where its members are: [list] at its start,
    then [freelist]. *)
Definition SLAB_SIZE : Z := 40.
Definition freelist (slab : Z) : Z := slab + 16.

(** [get_node_size]: with option remember nodes have a list head and a time more. *)
Definition get_node_size (lru_enabled : bool) : Z := if lru_enabled then 184 else 152.

(** Memory: the pages that are mapped, the addresses that hold list heads, and the
    count of every slab. *)
Record slabs := mk_slabs { pages : gset Z; heads : gmap Z list_head; used : gmap Z Z }.

Section slab.
Context (f : slab_conf).
#[local] Abbreviation P := (prog slabs).

(** The start of the page an address is in. *)
Definition page_of (a : Z) : Z := Z.land a (u64 (Z.lnot (f.(pagesize) - 1))).

(** Where a list head may be written: in the struct or in a mapped page. *)
Definition writable (s : slabs) (a : Z) : bool :=
  (a =? f.(partial_slabs)) || (a =? f.(full_slabs)) || bool_decide (page_of a ∈ s.(pages)).

Definition set_heads (h : gmap Z list_head) (s : slabs) : slabs := mk_slabs s.(pages) h s.(used).

Definition load_head (a : Z) : P list_head := s <-- pget ;; plift (lift_fault OutOfBounds (s.(heads) !! a)).
(** Both pointers of a head are written. *)
Definition store_head (a : Z) (h : list_head) : P unit :=
  s <-- pget ;; plift (guard_c (writable s a) OutOfBounds) ;;; pput (set_heads (<[a := h]> s.(heads)) s).

(** One pointer of a head that is there. *)
Definition set_next (a v : Z) : P unit :=
  h <-- load_head a ;; s <-- pget ;; pput (set_heads (<[a := mk_head v h.(prev)]> s.(heads)) s).
Definition set_prev (a v : Z) : P unit :=
  h <-- load_head a ;; s <-- pget ;; pput (set_heads (<[a := mk_head h.(next) v]> s.(heads)) s).

Definition init_list_head (l : Z) : P unit := store_head l (mk_head l l).

Definition list_empty (l : Z) : P bool := h <-- load_head l ;; pret (h.(next) =? l).

Definition list_add (new prv nxt : Z) : P unit :=
  set_prev nxt new ;;; store_head new (mk_head nxt prv) ;;; set_next prv new.
Definition list_add_head (new l : Z) : P unit := h <-- load_head l ;; list_add new l h.(next).
Definition list_add_tail (new l : Z) : P unit := h <-- load_head l ;; list_add new h.(prev) l.

Definition list_del (entry : Z) : P unit :=
  h <-- load_head entry ;; set_prev h.(next) h.(prev) ;;; set_next h.(prev) h.(next).

(** The count of a slab. *)
Definition get_used (slab : Z) : P Z := s <-- pget ;; plift (lift_fault OutOfBounds (s.(used) !! slab)).
Definition set_used (slab v : Z) : P unit :=
  s <-- pget ;; plift (guard_c (bool_decide (slab ∈ s.(pages))) OutOfBounds) ;;;
  pput (mk_slabs s.(pages) s.(heads) (<[slab := v]> s.(used))).

(** [mmap] of a page of zeros; [munmap], after which nothing of it can be used. *)
Definition map_page (a : Z) : P unit :=
  s <-- pget ;; pput (mk_slabs ({[a]} ∪ s.(pages)) (filter (fun x => page_of x.1 <> a) s.(heads)) s.(used)).
Definition unmap_page (a : Z) : P unit :=
  s <-- pget ;;
  pput (mk_slabs (s.(pages) ∖ {[a]}) (filter (fun x => page_of x.1 <> a) s.(heads)) (delete a s.(used))).

(** The nodes of a new slab, from the [i]th on. *)
Fixpoint slab_loop (n : nat) (start i : Z) (l : Z) : P unit :=
  match n with
  | O => pret tt
  | S n => list_add_tail (start + i * f.(node_size)) l ;;; slab_loop n start (i + 1) l
  end.

Definition slab_nodes : Z := u64 (f.(pagesize) - SLAB_SIZE) / f.(node_size).

(** [mem] is what mmap returns. *)
Definition alloc_slab (mem : option Z) : P Z :=
  match mem with
  | None => pret (- 1)
  | Some mem =>
      map_page mem ;;;
      init_list_head (freelist mem) ;;;
      set_used mem 0 ;;;
      let start := mem + f.(pagesize) - slab_nodes * f.(node_size) in
      slab_loop (Z.to_nat slab_nodes) start 0 (freelist mem) ;;;
      list_add_tail mem f.(partial_slabs) ;;;
      pret 0
  end.

(** The memory of a node is no list head any more. *)
Definition clear_node (node : Z) : P unit := s <-- pget ;; pput (set_heads (delete node s.(heads)) s).

(** The first free node of the first page that has one. *)
Definition take_node : P Z :=
  h <-- load_head f.(partial_slabs) ;;
  let slab := h.(next) in
  u <-- get_used slab ;;
  set_used slab (u + 1) ;;;
  h <-- load_head (freelist slab) ;;
  let node := h.(next) in
  list_del node ;;;
  e <-- list_empty (freelist slab) ;;
  (if e : bool then list_del slab ;;; list_add_tail slab f.(full_slabs) else pret tt) ;;;
  clear_node node ;;;
  pret node.

(** A node, or NULL. *)
Definition alloc_node (mem : option Z) : P (option Z) :=
  e <-- list_empty f.(partial_slabs) ;;
  res <-- (if e : bool then alloc_slab mem else pret 0) ;;
  if negb (res =? 0) then pret None else node <-- take_node ;; pret (Some node).

(** [unmaps]: whether munmap succeeds; that it failed is logged. *)
Definition free_slab (slab : Z) (unmaps : bool) : P unit :=
  list_del slab ;;; if unmaps then unmap_page slab else pret tt.

Definition free_node_mem (node : Z) (unmaps : bool) : P unit :=
  let slab := page_of node in
  u <-- get_used slab ;;
  set_used slab (u - 1) ;;;
  if negb (u - 1 =? 0) then
    e <-- list_empty (freelist slab) ;;
    (if e : bool then list_del slab ;;; list_add_tail slab f.(partial_slabs) else pret tt) ;;;
    list_add_head node (freelist slab)
  else free_slab slab unmaps.

(** What fuse_new sets up, and what fuse_destroy asserts. *)
Definition slabs_new : P unit := init_list_head f.(partial_slabs) ;;; init_list_head f.(full_slabs).
Definition slabs_destroy : P unit :=
  e <-- list_empty f.(partial_slabs) ;; plift (guard_c e AssertFailed) ;;;
  e <-- list_empty f.(full_slabs) ;; plift (guard_c e AssertFailed).

Definition slabs_zero : slabs := mk_slabs ∅ ∅ ∅.
End slab.

(** A page of 4096 bytes at 65536. *)
Definition demo_conf : slab_conf := mk_slab_conf 4096 152 160 176.
Example slab_demo : obind ((slabs_new demo_conf ;;; a <-- alloc_node demo_conf (Some 65536) ;; b <-- alloc_node demo_conf None ;;
   free_node_mem demo_conf (default 0 a) true ;;; c <-- alloc_node demo_conf None ;; pret (a, b, c)) slabs_zero) (fun x => Ok x.1)
  = Ok (Some 65680, Some 65832, Some 65680).
Proof. vm_compute. reflexivity. Qed.
End FuseSlab.
