(* ===== verification/FuseSlabFacts.v ===== *)
(** Facts about the memory of nodes: rings of list heads, what adding to and taking
    out of one does to it and to the others, and the invariant of all slabs.

    The invariant of the memory of nodes: what the two lists of pages and the lists of
    free nodes hold, that they are apart, and that alloc_node and free_node_mem keep
    it.

    The operations on the memory of nodes, each from the invariant to the invariant:
    a page is added, nodes are taken and given back, a page goes. *)
From S2P Require Import Prelude.
From S2P Require Import CLib.
From S2P Require Import FuseSlab.

Module FuseSlabFacts.
Import FuseSlab.

(** ** Chains *)

(** From [a] through the nodes of [l] to [b], forwards by [nx], backwards by [pv]. *)
Fixpoint chain (nx pv : Z -> option Z) (a : Z) (l : list Z) (b : Z) : Prop :=
  match l with
  | [] => nx a = Some b /\ pv b = Some a
  | x :: l => nx a = Some x /\ pv x = Some a /\ chain nx pv x l b
  end.

(** Only the forward pointers up to the end and the backward pointers from behind
    the start count. *)
Lemma chain_ext nx pv nx' pv' a l b : chain nx pv a l b -> (forall k, k ∈ a :: l -> nx' k = nx k) ->
  (forall k, k ∈ l ++ [b] -> pv' k = pv k) -> chain nx' pv' a l b.
Proof.
  revert a. induction l as [|x l IH]; intros a Hc Hn Hp; cbn [chain] in *.
  - destruct Hc. rewrite Hn by left. rewrite Hp by by left. done.
  - destruct Hc as (H1 & H2 & Hc). rewrite Hn by left. rewrite Hp by by left. split_and!; [done | done |].
    apply IH; [done | |]; intros k Hk; [apply Hn | apply Hp]; by right.
Qed.

(** The last of the nodes before, the first of those behind. *)
Definition before (a : Z) (l : list Z) : Z := List.last l a.
Definition behind (l : list Z) (b : Z) : Z := hd b l.

Lemma before_cons a x l : before a (x :: l) = before x l.
Proof. unfold before. revert a x. induction l as [|y l IH]; intros a x; [done|]. cbn in *. destruct l; [done|]. apply IH. Qed.

Lemma before_in a l : before a l ∈ a :: l.
Proof. revert a. induction l as [|x l IH]; intros a; [left|]. rewrite before_cons. right. apply IH. Qed.

Lemma behind_in l b : behind l b ∈ l ++ [b].
Proof. destruct l; left. Qed.

Lemma chain_ends nx pv a l b : chain nx pv a l b -> nx a = Some (behind l b) /\ pv b = Some (before a l).
Proof.
  revert a. induction l as [|x l IH]; intros a Hc; [by destruct Hc|]. destruct Hc as (H1 & H2 & Hc).
  destruct (IH x Hc) as [_ H4]. by rewrite before_cons.
Qed.

Lemma chain_app nx pv a l1 x l2 b : chain nx pv a (l1 ++ x :: l2) b <-> chain nx pv a l1 x /\ chain nx pv x l2 b.
Proof. revert a. induction l1 as [|y l1 IH]; intros a; cbn [app chain]; [tauto | rewrite IH; tauto]. Qed.

(** One more. *)
Lemma chain_insert nx pv nx' pv' a l1 l2 b new : chain nx pv a (l1 ++ l2) b ->
  NoDup (a :: l1 ++ l2) -> (b ∉ l1 ++ l2) -> (new ∉ a :: l1 ++ l2) ->
  let p := before a l1 in let n := behind l2 b in
  nx' p = Some new -> nx' new = Some n -> pv' n = Some new -> pv' new = Some p ->
  (forall k, k <> p -> k <> new -> nx' k = nx k) -> (forall k, k <> n -> k <> new -> pv' k = pv k) -> new <> b ->
  chain nx' pv' a (l1 ++ new :: l2) b.
Proof.
  intros Hc Hnd Hb Hnew p n E1 E2 E3 E4 Hn Hp Hnb. revert a Hc Hnd Hnew p E1 E4 Hn. induction l1 as [|x l1 IH]; intros a Hc Hnd Hnew p E1 E4 Hn.
  - unfold p in *. cbn [before List.last] in *. cbn [app chain] in *. split_and!; [done | done |]. destruct l2 as [|y l2]; [by split|].
    destruct Hc as (_ & _ & Hc). cbn [behind hd] in *. unfold n in *. cbn [chain]. split_and!; [done | done |].
    assert (forall k, k ∈ y :: l2 -> k <> a) as Ha by (intros k Hk ->; by apply NoDup_cons in Hnd as [Hnd _]).
    apply (chain_ext nx pv); [done | |].
    + intros k Hk. apply Hn; [by apply Ha|]. intros ->. apply Hnew. by right.
    + intros k Hk. apply Hp.
      * intros ->. apply elem_of_app in Hk as [Hk|Hk%list_elem_of_singleton].
        -- apply NoDup_cons in Hnd as [_ Hnd]. by apply NoDup_cons in Hnd as [Hnd _].
        -- subst. apply Hb. left.
      * intros ->. apply elem_of_app in Hk as [Hk|Hk%list_elem_of_singleton]; [|done]. apply Hnew. right. by right.
  - unfold p in *. rewrite before_cons in *. cbn [app chain] in *. destruct Hc as (H1 & H2 & Hc).
    apply NoDup_cons in Hnd as [Ha Hnd]. apply not_elem_of_cons in Hnew as [Hna Hnew]. apply not_elem_of_cons in Hb as [Hbx Hb].
    assert (before x l1 ∈ x :: l1 ++ l2) as Hin.
    { pose proof (before_in x l1) as [->|Hi]%elem_of_cons; [left|]. right. apply elem_of_app. by left. }
    split_and!.
    + rewrite Hn; [done | intros ->; done | done].
    + rewrite Hp; [done | | intros ->; apply Hnew; left].
      intros ->. destruct l2 as [|y l2]; unfold n in *; cbn [behind hd] in *; [by apply Hbx|].
      apply NoDup_cons in Hnd as [Hx _]. apply Hx. apply elem_of_app. right. left.
    + by apply IH.
Qed.

(** One less. *)
Lemma chain_remove nx pv nx' pv' a l1 l2 b x : chain nx pv a (l1 ++ x :: l2) b ->
  NoDup (a :: l1 ++ x :: l2) -> (b ∉ l1 ++ x :: l2) ->
  let p := before a l1 in let n := behind l2 b in
  nx' p = Some n -> pv' n = Some p -> (forall k, k <> p -> nx' k = nx k) -> (forall k, k <> n -> pv' k = pv k) ->
  chain nx' pv' a (l1 ++ l2) b.
Proof.
  intros Hc Hnd Hb p n E1 E2 Hn Hp. revert a Hc Hnd p E1 E2 Hn. induction l1 as [|y l1 IH]; intros a Hc Hnd p E1 E2 Hn.
  - unfold p in *. cbn [before List.last] in *. cbn [app chain] in *. destruct Hc as (_ & _ & Hc).
    destruct l2 as [|y l2]; [by split|]. unfold n in *. cbn [behind hd] in *. destruct Hc as (_ & _ & Hc). cbn [chain]. split_and!; [done | done |].
    apply NoDup_cons in Hnd as [Ha Hnd]. apply NoDup_cons in Hnd as [_ Hnd].
    apply (chain_ext nx pv); [done | |].
    + intros k Hk. apply Hn. intros ->. apply Ha. by right.
    + intros k Hk. apply Hp. intros ->. apply elem_of_app in Hk as [Hk|Hk%list_elem_of_singleton].
      * by apply NoDup_cons in Hnd as [Hnd _].
      * subst. apply Hb. right. left.
  - unfold p in *. rewrite before_cons in *. cbn [app chain] in *. destruct Hc as (H1 & H2 & Hc).
    apply NoDup_cons in Hnd as [Ha Hnd]. apply not_elem_of_cons in Hb as [Hby Hb].
    assert (before y l1 ∈ y :: l1 ++ x :: l2) as Hin.
    { pose proof (before_in y l1) as [->|Hi]%elem_of_cons; [left|]. right. apply elem_of_app. by left. }
    split_and!.
    + rewrite Hn; [done | intros ->; done].
    + rewrite Hp; [done |]. intros ->. destruct l2 as [|z l2]; unfold n in *; cbn [behind hd] in *; [by apply Hby|].
      apply NoDup_cons in Hnd as [Hx _]. apply Hx. apply elem_of_app. right. right. left.
    + by apply IH.
Qed.

(** ** Rings *)

#[local] Abbreviation mem := (gmap Z list_head).
Implicit Types (M : mem) (s : slabs).

Definition nx M (k : Z) : option Z := next <$> M !! k.
Definition pv M (k : Z) : option Z := prev <$> M !! k.

(** The list at [h] has the nodes [l]. *)
Definition ring M (h : Z) (l : list Z) : Prop := NoDup (h :: l) /\ chain (nx M) (pv M) h l h.

Lemma ring_head M h l : ring M h l -> M !! h = Some (mk_head (behind l h) (before h l)).
Proof.
  intros [_ [Hn Hp]%chain_ends]. unfold nx, pv in *. destruct (M !! h) as [[n p]|]; [|done]. cbn in *. congruence.
Qed.

Lemma chain_nodes M a l b k : chain (nx M) (pv M) a l b -> k ∈ a :: l -> is_Some (M !! k).
Proof.
  revert a. induction l as [|x l IH]; intros a Hc Hk.
  - apply list_elem_of_singleton in Hk as ->. destruct Hc as [Hn _]. unfold nx in Hn. by destruct (M !! a).
  - destruct Hc as (Hn & _ & Hc). apply elem_of_cons in Hk as [->|Hk]; [unfold nx in Hn; by destruct (M !! a) | by apply (IH x)].
Qed.

Lemma ring_frame M M' h l : ring M h l -> (forall k, k ∈ h :: l -> M' !! k = M !! k) -> ring M' h l.
Proof.
  intros [Hnd Hc] He. split; [done|]. apply (chain_ext (nx M) (pv M)); [done | |]; intros k Hk; unfold nx, pv; rewrite He; try done.
  apply elem_of_app in Hk as [Hk|Hk%list_elem_of_singleton]; [by right | subst; left].
Qed.

(** What an operation on a list does to memory: [t] are the heads it may change. *)
Definition touches (t : list Z) M M' : Prop := forall k, k ∉ t -> M' !! k = M !! k.

Lemma load_head_run s a h : s.(heads) !! a = Some h -> load_head a s = Ok (h, s).
Proof. intros Ha. unfold load_head. prun_get. unfold plift. by rewrite Ha. Qed.

Lemma set_next_run s a v h : s.(heads) !! a = Some h -> set_next a v s = Ok (tt, set_heads (<[a := mk_head v h.(prev)]> s.(heads)) s).
Proof. intros Ha. unfold set_next. prun (load_head_run s a h Ha). by prun_get. Qed.

Lemma set_prev_run s a v h : s.(heads) !! a = Some h -> set_prev a v s = Ok (tt, set_heads (<[a := mk_head h.(next) v]> s.(heads)) s).
Proof. intros Ha. unfold set_prev. prun (load_head_run s a h Ha). by prun_get. Qed.

Section ops.
Context (f : slab_conf).

Lemma store_head_run s a h : writable f s a = true -> store_head f a h s = Ok (tt, set_heads (<[a := h]> s.(heads)) s).
Proof. intros Ha. unfold store_head. prun_get. rewrite Ha. by prun_lift (eq_refl : guard_c true OutOfBounds = Ok tt). Qed.

Lemma set_heads_twice M M' s : set_heads M' (set_heads M s) = set_heads M' s.
Proof. done. Qed.

(** The pointers after an insertion between [p] and [n], which may be the same. *)
Lemma list_add_run s new p n hp hn : s.(heads) !! p = Some hp -> s.(heads) !! n = Some hn -> new <> p -> new <> n ->
  writable f s new = true -> exists M', list_add f new p n s = Ok (tt, set_heads M' s) /\
    nx M' p = Some new /\ nx M' new = Some n /\ pv M' n = Some new /\ pv M' new = Some p /\
    (forall k, k <> p -> k <> new -> nx M' k = nx s.(heads) k) /\ (forall k, k <> n -> k <> new -> pv M' k = pv s.(heads) k) /\
    touches [new; p; n] s.(heads) M'.
Proof.
  intros Hp Hn Hnp Hnn Hw. unfold list_add. prun (set_prev_run s n new hn Hn).
  set (M1 := <[n := mk_head hn.(next) new]> s.(heads)). prun (store_head_run (set_heads M1 s) new (mk_head n p) Hw).
  rewrite set_heads_twice. cbn [heads set_heads]. set (M2 := <[new := mk_head n p]> M1).
  assert (exists h, M2 !! p = Some h /\ h.(prev) = (if decide (p = n) then new else hp.(prev))) as (h & Hh & Hprev).
  { unfold M2, M1. rewrite lookup_insert_ne by done. destruct (decide (p = n)) as [->|Hne].
    - rewrite lookup_insert_eq. by eexists.
    - rewrite lookup_insert_ne by done. by exists hp. }
  rewrite (set_next_run (set_heads M2 s) p new h Hh), set_heads_twice. cbn [heads set_heads]. eexists. split; [reflexivity|].
  unfold nx, pv, M2, M1. split_and!.
  - by rewrite lookup_insert_eq.
  - by rewrite lookup_insert_ne, lookup_insert_eq by done.
  - destruct (decide (p = n)) as [->|Hne]; [rewrite lookup_insert_eq; cbn; by rewrite Hprev|].
    by rewrite lookup_insert_ne, lookup_insert_ne, lookup_insert_eq by done.
  - by rewrite lookup_insert_ne, lookup_insert_eq by done.
  - intros k H1 H2. rewrite lookup_insert_ne, lookup_insert_ne by done.
    destruct (decide (k = n)) as [->|]; [by rewrite lookup_insert_eq, Hn | by rewrite lookup_insert_ne].
  - intros k H1 H2. destruct (decide (k = p)) as [->|]; [|by rewrite !lookup_insert_ne by done].
    rewrite lookup_insert_eq, Hp. cbn. by rewrite Hprev, decide_False.
  - intros k Hk. rewrite !not_elem_of_cons in Hk. destruct Hk as (? & ? & ? & _). by rewrite !lookup_insert_ne by done.
Qed.

Lemma list_del_run s x h hn hp : s.(heads) !! x = Some h -> s.(heads) !! h.(next) = Some hn -> s.(heads) !! h.(prev) = Some hp ->
  exists M', list_del x s = Ok (tt, set_heads M' s) /\ nx M' h.(prev) = Some h.(next) /\ pv M' h.(next) = Some h.(prev) /\
    (forall k, k <> h.(prev) -> nx M' k = nx s.(heads) k) /\ (forall k, k <> h.(next) -> pv M' k = pv s.(heads) k) /\
    touches [h.(prev); h.(next)] s.(heads) M'.
Proof.
  intros Hx Hn Hp. unfold list_del. prun (load_head_run s x h Hx). prun (set_prev_run s h.(next) h.(prev) hn Hn).
  set (n := h.(next)) in *. set (p := h.(prev)) in *. set (M1 := <[n := mk_head hn.(next) p]> s.(heads)).
  assert (exists h', M1 !! p = Some h' /\ h'.(prev) = (if decide (p = n) then p else hp.(prev))) as (h' & Hh & Hprev).
  { unfold M1. destruct (decide (p = n)) as [->|Hne]; [rewrite lookup_insert_eq; by eexists | rewrite lookup_insert_ne by done; by exists hp]. }
  rewrite (set_next_run (set_heads M1 s) p n h' Hh), set_heads_twice. cbn [heads set_heads]. eexists. split; [reflexivity|].
  unfold nx, pv, M1. split_and!.
  - by rewrite lookup_insert_eq.
  - destruct (decide (p = n)) as [->|Hne]; [rewrite lookup_insert_eq; cbn; by rewrite Hprev|].
    by rewrite lookup_insert_ne, lookup_insert_eq by done.
  - intros k H1. rewrite lookup_insert_ne by done. destruct (decide (k = n)) as [->|]; [by rewrite lookup_insert_eq, Hn | by rewrite lookup_insert_ne].
  - intros k H1. destruct (decide (k = p)) as [->|]; [|by rewrite !lookup_insert_ne by done].
    rewrite lookup_insert_eq, Hp. cbn. by rewrite Hprev, decide_False.
  - intros k Hk. rewrite !not_elem_of_cons in Hk. destruct Hk as (? & ? & _). by rewrite !lookup_insert_ne by done.
Qed.

(** *** On rings *)

Lemma ring_add s h l1 l2 new : ring s.(heads) h (l1 ++ l2) -> (new ∉ h :: l1 ++ l2) -> writable f s new = true ->
  exists M', list_add f new (before h l1) (behind l2 h) s = Ok (tt, set_heads M' s) /\ ring M' h (l1 ++ new :: l2) /\
    touches (new :: h :: l1 ++ l2) s.(heads) M'.
Proof.
  intros [Hnd Hc] Hnew Hw. set (p := before h l1). set (n := behind l2 h).
  assert (p ∈ h :: l1 ++ l2) as Hp.
  { pose proof (before_in h l1) as [Hi|Hi]%elem_of_cons; [rewrite <- Hi; left | right; apply elem_of_app; by left]. }
  assert (n ∈ h :: l1 ++ l2) as Hn.
  { pose proof (behind_in l2 h) as [Hi|Hi%list_elem_of_singleton]%elem_of_app; [right; apply elem_of_app; by right | fold n in Hi; rewrite Hi; left]. }
  destruct (chain_nodes _ _ _ _ _ Hc Hp) as [hp Hhp]. destruct (chain_nodes _ _ _ _ _ Hc Hn) as [hn Hhn].
  destruct (list_add_run s new p n hp hn Hhp Hhn) as (M' & Hrun & E1 & E2 & E3 & E4 & En & Ep & Ht); [by intros -> | by intros -> | done |].
  exists M'. split; [exact Hrun|]. split; [split|].
  - apply not_elem_of_cons in Hnew as [Hnh Hnew]. apply NoDup_cons in Hnd as [Hh Hnd]. apply NoDup_cons. split.
    + rewrite not_elem_of_app in Hh. destruct Hh. rewrite not_elem_of_app, not_elem_of_cons. split_and!; [done | by intros -> | done].
    + rewrite <- Permutation_middle. by apply NoDup_cons.
  - apply (chain_insert (nx s.(heads)) (pv s.(heads))); try done.
    + by apply NoDup_cons in Hnd as [Hh _].
    + intros ->. by apply Hnew; left.
  - intros k Hk. apply not_elem_of_cons in Hk as [Hk1 Hk2]. apply Ht. rewrite !not_elem_of_cons. split_and!; [done | by intros -> | by intros -> | apply not_elem_of_nil].
Qed.

Lemma ring_add_tail s h l new : ring s.(heads) h l -> (new ∉ h :: l) -> writable f s new = true ->
  exists M', list_add_tail f new h s = Ok (tt, set_heads M' s) /\ ring M' h (l ++ [new]) /\ touches (new :: h :: l) s.(heads) M'.
Proof.
  intros Hr Hnew Hw. unfold list_add_tail. prun (load_head_run s h _ (ring_head _ _ _ Hr)). cbn [prev].
  destruct (ring_add s h l [] new) as (M' & Hrun & Hr' & Ht); rewrite ?app_nil_r in *; try done. by exists M'.
Qed.

Lemma ring_add_head s h l new : ring s.(heads) h l -> (new ∉ h :: l) -> writable f s new = true ->
  exists M', list_add_head f new h s = Ok (tt, set_heads M' s) /\ ring M' h (new :: l) /\ touches (new :: h :: l) s.(heads) M'.
Proof.
  intros Hr Hnew Hw. unfold list_add_head. prun (load_head_run s h _ (ring_head _ _ _ Hr)). cbn [next].
  by apply (ring_add s h [] l new).
Qed.

Lemma ring_remove s h l1 x l2 : ring s.(heads) h (l1 ++ x :: l2) ->
  exists M', list_del x s = Ok (tt, set_heads M' s) /\ ring M' h (l1 ++ l2) /\ touches (h :: l1 ++ l2) s.(heads) M'.
Proof.
  intros [Hnd Hc]. pose proof Hc as Hc0. apply chain_app in Hc0 as [[_ Hpx]%chain_ends [Hnx _]%chain_ends].
  set (p := before h l1) in *. set (n := behind l2 h) in *.
  assert (s.(heads) !! x = Some (mk_head n p)) as Hx by (unfold nx, pv in *; destruct (s.(heads) !! x) as [[? ?]|]; [|done]; cbn in *; congruence).
  assert (p ∈ h :: l1 ++ l2) as Hp.
  { pose proof (before_in h l1) as [Hi|Hi]%elem_of_cons; [fold p in Hi; rewrite Hi; left | right; apply elem_of_app; by left]. }
  assert (n ∈ h :: l1 ++ l2) as Hn.
  { pose proof (behind_in l2 h) as [Hi|Hi%list_elem_of_singleton]%elem_of_app; [right; apply elem_of_app; by right | fold n in Hi; rewrite Hi; left]. }
  assert (forall k, k ∈ h :: l1 ++ l2 -> k ∈ h :: l1 ++ x :: l2) as Hsub.
  { intros k. rewrite !elem_of_cons, !elem_of_app, elem_of_cons. tauto. }
  destruct (chain_nodes _ _ _ _ _ Hc (Hsub _ Hp)) as [hp Hhp]. destruct (chain_nodes _ _ _ _ _ Hc (Hsub _ Hn)) as [hn Hhn].
  destruct (list_del_run s x (mk_head n p) hn hp Hx Hhn Hhp) as (M' & Hrun & E1 & E2 & En & Ep & Ht). cbn [next prev] in *.
  exists M'. split; [exact Hrun|]. split; [split|].
  - apply NoDup_cons in Hnd as [Hh Hnd]. rewrite <- Permutation_middle in Hnd. apply NoDup_cons in Hnd as [_ Hnd]. apply NoDup_cons. split; [|done].
    intros Hi. apply Hh. rewrite elem_of_app, elem_of_cons. apply elem_of_app in Hi. tauto.
  - apply (chain_remove (nx s.(heads)) (pv s.(heads)) _ _ h l1 l2 h x); try done. by apply NoDup_cons in Hnd as [Hh _].
  - intros k Hk. apply Ht. rewrite !not_elem_of_cons. split_and!; [by intros -> | by intros -> | apply not_elem_of_nil].
Qed.

Lemma touches_trans t1 t2 M1 M2 M3 : touches t1 M1 M2 -> touches t2 M2 M3 -> touches (t1 ++ t2) M1 M3.
Proof. intros H1 H2 k Hk. apply not_elem_of_app in Hk as [Hk1 Hk2]. by rewrite H2, H1. Qed.

Lemma touches_mono t t' M M' : touches t M M' -> (forall k, k ∈ t -> k ∈ t') -> touches t' M M'.
Proof. intros H Hs k Hk. apply H. intros Hk'. by apply Hk, Hs. Qed.

(** A node goes from one list to the end of another. *)
Lemma ring_move s h1 l1 x l2 h2 l : ring s.(heads) h1 (l1 ++ x :: l2) -> ring s.(heads) h2 l ->
  (forall k, k ∈ h1 :: l1 ++ x :: l2 -> k ∉ h2 :: l) -> writable f s x = true ->
  exists M', (list_del x ;;; list_add_tail f x h2) s = Ok (tt, set_heads M' s) /\ ring M' h1 (l1 ++ l2) /\ ring M' h2 (l ++ [x]) /\
    touches (x :: h1 :: h2 :: l1 ++ l2 ++ l) s.(heads) M'.
Proof.
  intros H1 H2 Hd Hw. destruct (ring_remove s h1 l1 x l2 H1) as (M1 & Hrun1 & Hr1 & Ht1).
  assert (forall k, k ∈ h1 :: l1 ++ l2 -> k ∈ h1 :: l1 ++ x :: l2) as Hsub by (intros k; rewrite !elem_of_cons, !elem_of_app, elem_of_cons; tauto).
  assert (ring M1 h2 l) as Hr2.
  { apply (ring_frame s.(heads)); [done|]. intros k Hk. apply Ht1. intros Hk1. by apply (Hd k); [apply Hsub|]. }
  assert (x ∈ h1 :: l1 ++ x :: l2) as Hx by (right; apply elem_of_app; right; left).
  destruct (ring_add_tail (set_heads M1 s) h2 l x Hr2 (Hd x Hx) Hw) as (M2 & Hrun2 & Hr3 & Ht2). rewrite set_heads_twice in Hrun2.
  exists M2. split; [by prun Hrun1|]. split_and!; [|done|].
  - apply (ring_frame M1); [done|]. intros k Hk. apply Ht2. intros [->|Hk2]%elem_of_cons; [|by apply (Hd k); [apply Hsub|]].
    destruct H1 as [Hnd _]. apply NoDup_cons in Hnd as [Hh Hnd]. rewrite <- Permutation_middle in Hnd. apply NoDup_cons in Hnd as [Hnd _].
    apply elem_of_cons in Hk as [->|Hk]; [|done]. apply Hh. apply elem_of_app. right. left.
  - eapply touches_mono; [by apply (touches_trans _ _ _ _ _ Ht1 Ht2)|]. intros k. rewrite !elem_of_app, !elem_of_cons, !elem_of_app. tauto.
Qed.

Lemma ring_empty s h l : ring s.(heads) h l -> list_empty h s = Ok (bool_decide (l = []), s).
Proof.
  intros Hr. unfold list_empty. prun (load_head_run s h _ (ring_head _ _ _ Hr)). cbn [next]. unfold pret. do 3 f_equal.
  destruct l as [|x l]; cbn [behind hd]; [by rewrite Z.eqb_refl, bool_decide_true|].
  rewrite bool_decide_false by done. apply Z.eqb_neq. intros ->. destruct Hr as [Hnd _]. apply NoDup_cons in Hnd as [Hnd _]. apply Hnd. left.
Qed.
End ops.
End FuseSlabFacts.

Module FuseSlabPages.
Import FuseSlab FuseSlabFacts.

(** Pages are a power of two and have room for a node; a node has room for a list
    head. *)
Record conf_ok (f : slab_conf) : Prop := mk_conf_ok {
  ok_page : exists k, f.(pagesize) = 2 ^ k /\ 6 <= k < 32;
  ok_node : 16 <= f.(node_size) <= f.(pagesize) - SLAB_SIZE;
  ok_lists : 0 <= f.(partial_slabs) /\ f.(partial_slabs) + 16 <= f.(full_slabs) < 2 ^ 64
}.

Section pages.
Context (f : slab_conf) (Hf : conf_ok f).
#[local] Abbreviation ps := f.(pagesize).
#[local] Abbreviation ns := f.(node_size).
#[local] Abbreviation PS := f.(partial_slabs).
#[local] Abbreviation FS := f.(full_slabs).
Implicit Types (s : slabs) (M : gmap Z list_head) (part full fr : list Z) (fl : Z -> list Z).

(** ** Addresses *)

(** A page that mmap may return: aligned, in the address space, apart from the
    structs. *)
Record page_ok (b : Z) : Prop := mk_page_ok {
  pg_align : b mod ps = 0;
  pg_range : 0 < b /\ b + ps <= 2 ^ 64;
  pg_partial : PS + 16 <= b \/ b + ps <= PS;
  pg_full : FS + 16 <= b \/ b + ps <= FS
}.

Lemma ps_pos : 64 <= ps < 2 ^ 32.
Proof.
  destruct (ok_page f Hf) as (k & -> & Hk). split; [|apply Z.pow_lt_mono_r; lia].
  change 64 with (2 ^ 6). apply Z.pow_le_mono_r; lia.
Qed.

(** Masking an address takes its offset in the page away. *)
Lemma page_of_div a : 0 <= a < 2 ^ 64 -> page_of f a = a / ps * ps.
Proof. intros Ha. unfold page_of. destruct (ok_page f Hf) as (k & -> & Hk). apply land_high; [lia | done]. Qed.

Lemma page_of_in b a : page_ok b -> b <= a < b + ps -> page_of f a = b.
Proof.
  intros [Hal Hr _ _] Ha. pose proof ps_pos. rewrite page_of_div by lia. pose proof (Z.div_mod b ps ltac:(lia)) as Hd.
  assert (a / ps = b / ps) as ->; [|lia]. symmetry. apply (Z.div_unique_pos _ _ _ (a - b)); lia.
Qed.

(** The two lists are in no page. *)
Lemma list_not_page b k : page_ok b -> k = PS \/ k = FS -> page_of f k <> b /\ k <> b.
Proof.
  intros [Hal Hr Hp Hq] Hk. pose proof ps_pos. pose proof (ok_lists f Hf). assert (0 <= k < 2 ^ 64) as Hb by lia.
  rewrite page_of_div by done. pose proof (Z.div_mod k ps ltac:(lia)). pose proof (Z.mod_pos_bound k ps ltac:(lia)). lia.
Qed.

(** ** The nodes of a page *)

#[local] Abbreviation n := (slab_nodes f).

Definition slot (b i : Z) : Z := b + ps - n * ns + i * ns.
Definition slots (b : Z) : list Z := slot b <$> seqZ 0 n.

Lemma nodes_bound : 1 <= n /\ n * ns <= ps - SLAB_SIZE.
Proof.
  pose proof ps_pos. pose proof (ok_node f Hf) as Hn. unfold slab_nodes, SLAB_SIZE in *. rewrite u64_small by (unfold SIZE_MAX; lia). split.
  - apply Z.div_le_lower_bound; lia.
  - pose proof (Z.mul_div_le (ps - 40) ns ltac:(lia)). lia.
Qed.

Lemma elem_of_slots b a : a ∈ slots b <-> exists i, 0 <= i < n /\ a = slot b i.
Proof.
  unfold slots. rewrite list_elem_of_fmap. split; intros (i & H1 & H2); exists i.
  - rewrite elem_of_seqZ in H2. split; [lia | done].
  - split; [done|]. apply elem_of_seqZ. lia.
Qed.

Lemma slots_length b : zlen (slots b) = n.
Proof. pose proof nodes_bound. unfold slots. rewrite length_fmap, length_seqZ. lia. Qed.

Lemma slots_NoDup b : NoDup (slots b).
Proof.
  apply NoDup_fmap_2_strong; [|apply NoDup_seqZ]. intros i j _ _ He. unfold slot in He. pose proof (ok_node f Hf). nia.
Qed.

(** A node lies behind the head of its page, within it. *)
Lemma slot_in b a : a ∈ slots b -> b + SLAB_SIZE <= a /\ a + ns <= b + ps.
Proof.
  intros (i & Hi & ->)%elem_of_slots. pose proof nodes_bound as [H1 H2]. pose proof (ok_node f Hf). unfold slot. split; nia.
Qed.

Lemma slots_apart b a a' : a ∈ slots b -> a' ∈ slots b -> a <> a' -> a + ns <= a' \/ a' + ns <= a.
Proof.
  intros (i & Hi & ->)%elem_of_slots (j & Hj & ->)%elem_of_slots Hne. pose proof (ok_node f Hf). unfold slot in *.
  destruct (Z.lt_total i j) as [?|[->|?]]; [left; nia | done | right; nia].
Qed.

(** ** The invariant *)

(** [part] are the pages with free nodes, [full] the others, [fl] has the free nodes
    of a page, [lost] the pages that munmap refused. *)
Record wf s part full fl (lost : gset Z) : Prop := mk_wf {
  wf_part : ring s.(heads) PS part;
  wf_full : ring s.(heads) FS full;
  wf_nodup : NoDup (part ++ full);
  wf_free : forall b, b ∈ part ++ full -> ring s.(heads) (freelist b) (fl b);
  wf_slots : forall b a, b ∈ part ++ full -> a ∈ fl b -> a ∈ slots b;
  wf_used : forall b, b ∈ part ++ full -> s.(used) !! b = Some (n - zlen (fl b));
  wf_some : forall b, b ∈ part -> fl b <> [];
  wf_none : forall b, b ∈ full -> fl b = [];
  wf_pages : forall b, b ∈ s.(pages) <-> b ∈ part ++ full \/ b ∈ lost;
  wf_lost : forall b, b ∈ lost -> b ∉ part ++ full;
  wf_ok : forall b, b ∈ s.(pages) -> page_ok b;
  wf_heads : forall b k, b ∈ part ++ full -> is_Some (s.(heads) !! k) -> page_of f k = b -> k = b \/ k = freelist b \/ k ∈ fl b
}.

(** The heads of the lists of pages, and those inside a page. *)
Definition outer s (k : Z) : Prop := k = PS \/ k = FS \/ (page_of f k = k /\ k ∈ s.(pages)).
Definition inner (b k : Z) : Prop := b + 16 <= k < b + ps.

Section inv.
Context s part full fl lost (Hwf : wf s part full fl lost).
#[local] Abbreviation bases := (part ++ full).

Lemma base_page b : b ∈ bases -> b ∈ s.(pages).
Proof. intros Hb. apply (wf_pages _ _ _ _ _ Hwf). by left. Qed.

Lemma base_ok b : b ∈ bases -> page_ok b.
Proof. intros Hb. by apply (wf_ok _ _ _ _ _ Hwf), base_page. Qed.

Lemma page_self b : b ∈ s.(pages) -> page_of f b = b.
Proof. intros Hb%(wf_ok _ _ _ _ _ Hwf). apply page_of_in; [done | pose proof ps_pos; lia]. Qed.

Lemma inner_page b k : b ∈ s.(pages) -> inner b k -> page_of f k = b.
Proof. intros Hb%(wf_ok _ _ _ _ _ Hwf) Hk. unfold inner in Hk. apply page_of_in; [done | lia]. Qed.

Lemma outer_inner b k : b ∈ s.(pages) -> outer s k -> inner b k -> False.
Proof.
  intros Hb Ho Hi. pose proof ps_pos. destruct (wf_ok _ _ _ _ _ Hwf b Hb) as [_ _ Hp Hq]. unfold inner in Hi.
  destruct Ho as [->|[->|[Hk _]]]; [lia..|]. rewrite (inner_page b k Hb Hi) in Hk. lia.
Qed.

Lemma inner_inner b b' k : b ∈ s.(pages) -> b' ∈ s.(pages) -> inner b k -> inner b' k -> b = b'.
Proof. intros Hb Hb' Hk Hk'. rewrite <- (inner_page b k Hb Hk). by apply inner_page. Qed.

Lemma base_outer b : b ∈ bases -> outer s b.
Proof. intros Hb%base_page. right. right. split; [by apply page_self | done]. Qed.

Lemma ring_outer h l k : h = PS \/ h = FS -> (forall b, b ∈ l -> b ∈ bases) -> k ∈ h :: l -> outer s k.
Proof. intros Hh Hl [->|Hk]%elem_of_cons; [destruct Hh as [->| ->]; [by left | right; by left] | by apply base_outer, Hl]. Qed.

Lemma slot_inner b a : a ∈ slots b -> inner b a.
Proof. intros Ha%slot_in. pose proof (ok_node f Hf). unfold SLAB_SIZE, inner in *. lia. Qed.

Lemma free_inner b k : b ∈ bases -> k ∈ freelist b :: fl b -> inner b k.
Proof.
  intros Hb. rewrite elem_of_cons. intros [->|Hk]; [|by apply slot_inner, (wf_slots _ _ _ _ _ Hwf)].
  pose proof ps_pos. unfold inner, freelist. lia.
Qed.

(** What a change at the outside, or inside one page, leaves alone. *)
Lemma free_kept M' t b : touches t s.(heads) M' -> (forall k, k ∈ t -> outer s k) -> b ∈ bases -> ring M' (freelist b) (fl b).
Proof.
  intros Ht Ho Hb. apply (ring_frame s.(heads)); [by apply Hwf|]. intros k Hk. apply Ht. intros Hkt.
  apply (outer_inner b k); [by apply base_page | by apply Ho | by apply free_inner].
Qed.

Lemma free_kept_inside M' t b b' : touches t s.(heads) M' -> b' ∈ s.(pages) -> (forall k, k ∈ t -> inner b' k) -> b ∈ bases -> b <> b' ->
  ring M' (freelist b) (fl b).
Proof.
  intros Ht Hb' Hi Hb Hne. apply (ring_frame s.(heads)); [by apply Hwf|]. intros k Hk. apply Ht. intros Hkt.
  apply Hne, (inner_inner b b' k); [by apply base_page | done | by apply free_inner | by apply Hi].
Qed.

Lemma outer_kept M' t h l b : touches t s.(heads) M' -> b ∈ s.(pages) -> (forall k, k ∈ t -> inner b k) -> ring s.(heads) h l ->
  (forall k, k ∈ h :: l -> outer s k) -> ring M' h l.
Proof.
  intros Ht Hb Hi Hr Ho. apply (ring_frame s.(heads)); [done|]. intros k Hk. apply Ht. intros Hkt.
  apply (outer_inner b k); [done | by apply Ho | by apply Hi].
Qed.

(** Inside a page the lists of pages have only its head. *)
Lemma outer_page k b : b ∈ s.(pages) -> outer s k -> page_of f k = b -> k = b.
Proof.
  intros Hb%(wf_ok _ _ _ _ _ Hwf) [->|[->|[Hk _]]] Hp; [| |congruence].
  - by destruct (list_not_page b PS Hb (or_introl eq_refl)).
  - by destruct (list_not_page b FS Hb (or_intror eq_refl)).
Qed.

Lemma lists_apart k : k ∈ PS :: part -> k ∉ FS :: full.
Proof.
  pose proof (ok_lists f Hf). pose proof (wf_nodup _ _ _ _ _ Hwf) as (_ & Hnd & _)%NoDup_app.
  rewrite !elem_of_cons. intros [->|Hk] [He|Hk2].
  - lia.
  - assert (PS ∈ bases) as Hb%base_ok by (apply elem_of_app; by right). by destruct (list_not_page PS PS Hb (or_introl eq_refl)).
  - subst k. assert (FS ∈ bases) as Hb%base_ok by (apply elem_of_app; by left). by destruct (list_not_page FS FS Hb (or_intror eq_refl)).
  - by apply (Hnd k).
Qed.

Lemma base_writable b : b ∈ bases -> writable f s b = true.
Proof.
  intros Hb. unfold writable. rewrite (page_self b), (bool_decide_true (b ∈ s.(pages))) by by apply base_page. apply orb_true_r.
Qed.

End inv.

(** ** Steps *)

Lemma get_used_run s b u : s.(used) !! b = Some u -> get_used b s = Ok (u, s).
Proof. intros Hu. unfold get_used. prun_get. unfold plift. by rewrite Hu. Qed.

Lemma set_used_run s b v : b ∈ s.(pages) -> set_used b v s = Ok (tt, mk_slabs s.(pages) s.(heads) (<[b := v]> s.(used))).
Proof. intros Hb. unfold set_used. prun_get. rewrite bool_decide_true by done. by prun_lift (eq_refl : guard_c true OutOfBounds = Ok tt). Qed.

(** The free nodes of one page change. *)
Definition freed fl (b : Z) (fr : list Z) : Z -> list Z := fun x => if decide (x = b) then fr else fl x.

Lemma freed_same fl b fr : freed fl b fr b = fr.
Proof. unfold freed. by rewrite decide_True. Qed.
Lemma freed_other fl b fr b' : b' <> b -> freed fl b fr b' = fl b'.
Proof. intros Hne. unfold freed. by rewrite decide_False. Qed.

(** What holds a head in a page after a change of the lists and inside it. *)
Lemma page_dom s part full fl lost b fr t M' : wf s part full fl lost -> b ∈ part ++ full ->
  touches t s.(heads) M' -> (forall k, k ∈ t -> outer s k \/ inner b k) ->
  (forall k, is_Some (M' !! k) -> inner b k -> k = freelist b \/ k ∈ fr) ->
  forall k, is_Some (M' !! k) -> page_of f k = b -> k = b \/ k = freelist b \/ k ∈ fr.
Proof.
  intros Hwf Hb Ht Hin Hdom k Hk Hp. pose proof (base_page _ _ _ _ _ Hwf b Hb) as Hbp. destruct (decide (k ∈ t)) as [Hkt|Hkt].
  - destruct (Hin k Hkt) as [Ho|Hi]; [left; by apply (outer_page s part full fl lost Hwf k b)|]. destruct (Hdom k Hk Hi) as [->|?]; auto.
  - pose proof Hk as Hk0. rewrite (Ht k Hkt) in Hk. destruct (wf_heads _ _ _ _ _ Hwf b k Hb Hk Hp) as [->|Hc]; [by left|].
    right. apply Hdom; [done|]. apply (free_inner s part full fl lost Hwf); [done|]. rewrite elem_of_cons. tauto.
Qed.

(** The free nodes of one page change, and its place in the lists. *)
Lemma page_changed s part full fl lost b fr part' full' t M' : wf s part full fl lost -> b ∈ s.(pages) ->
  (forall x, x ∈ part' ++ full' <-> x = b \/ x ∈ part ++ full) -> NoDup (part' ++ full') -> ring M' PS part' -> ring M' FS full' ->
  ring M' (freelist b) fr -> (forall a, a ∈ fr -> a ∈ slots b) ->
  (forall x, x ∈ part' -> freed fl b fr x <> []) -> (forall x, x ∈ full' -> freed fl b fr x = []) ->
  touches t s.(heads) M' -> (forall k, k ∈ t -> outer s k \/ inner b k) ->
  (forall k, is_Some (M' !! k) -> page_of f k = b -> k = b \/ k = freelist b \/ k ∈ fr) ->
  wf (mk_slabs s.(pages) M' (<[b := n - zlen fr]> s.(used))) part' full' (freed fl b fr) (lost ∖ {[b]}).
Proof.
  intros Hwf Hbp Hsame Hnd HP HF Hfr Hsl Hsome Hnone Ht Hin Hdom. pose proof (base_page _ _ _ _ _ Hwf) as Hpage.
  assert (forall x, x ∈ part' ++ full' -> x = b \/ x <> b /\ x ∈ part ++ full) as Hcase
    by (intros x Hx%Hsame; destruct (decide (x = b)); [by left | right; split; [done | by destruct Hx]]).
  split; cbn [heads pages used]; try done.
  - intros x [->|[Hne Hx]]%Hcase; [by rewrite freed_same|]. rewrite freed_other by done.
    apply (ring_frame s.(heads)); [by apply Hwf|]. intros k Hk. apply Ht. intros Hkt.
    pose proof (free_inner s part full fl lost Hwf x k Hx Hk) as Hi.
    destruct (Hin k Hkt) as [Ho|Hib]; [by apply (outer_inner s part full fl lost Hwf x k); [apply Hpage | |]|].
    apply Hne, (inner_inner s part full fl lost Hwf x b k); [by apply Hpage | done..].
  - intros x a [->|[Hne Hx]]%Hcase; [rewrite freed_same; apply Hsl | rewrite freed_other by done; by apply Hwf].
  - intros x [->|[Hne Hx]]%Hcase; [by rewrite lookup_insert_eq, freed_same|].
    rewrite lookup_insert_ne, freed_other by done. by apply Hwf.
  - intros x. rewrite Hsame, elem_of_difference, elem_of_singleton. pose proof (wf_pages _ _ _ _ _ Hwf x) as Hp.
    destruct (decide (x = b)) as [->|Hne]; [split; [intros _; left; by left | done] | tauto].
  - intros x [Hx Hne]%elem_of_difference. rewrite elem_of_singleton in Hne. rewrite Hsame. pose proof (wf_lost _ _ _ _ _ Hwf x Hx) as Hn. tauto.
  - apply Hwf.
  - intros x k [->|[Hne Hx]]%Hcase Hk Hp; [rewrite freed_same; by apply Hdom|].
    rewrite freed_other by done. destruct (decide (k ∈ t)) as [Hkt|Hkt].
    + left. destruct (Hin k Hkt) as [Ho|Hi]; [apply (outer_page s part full fl lost Hwf k x); [by apply Hpage | done | done]|].
      rewrite (inner_page s part full fl lost Hwf b k Hbp Hi) in Hp. congruence.
    + rewrite (Ht k Hkt) in Hk. by apply (wf_heads _ _ _ _ _ Hwf).
Qed.

Lemma page_kept s part full fl lost b fr part' full' t M' : wf s part full fl lost -> b ∈ part ++ full ->
  (forall x, x ∈ part' ++ full' <-> x ∈ part ++ full) -> NoDup (part' ++ full') -> ring M' PS part' -> ring M' FS full' ->
  ring M' (freelist b) fr -> (forall a, a ∈ fr -> a ∈ slots b) ->
  (forall x, x ∈ part' -> freed fl b fr x <> []) -> (forall x, x ∈ full' -> freed fl b fr x = []) ->
  touches t s.(heads) M' -> (forall k, k ∈ t -> outer s k \/ inner b k) ->
  (forall k, is_Some (M' !! k) -> inner b k -> k = freelist b \/ k ∈ fr) ->
  wf (mk_slabs s.(pages) M' (<[b := n - zlen fr]> s.(used))) part' full' (freed fl b fr) lost.
Proof.
  intros Hwf Hb Hsame Hnd HP HF Hfr Hsl Hsome Hnone Ht Hin Hdom.
  assert (lost = lost ∖ {[b]}) as ->.
  { symmetry. apply difference_disjoint_L. intros x Hx ->%elem_of_singleton. by apply (wf_lost _ _ _ _ _ Hwf b Hx). }
  apply (page_changed s part full fl lost b fr part' full' t M'); try done.
  - by apply (base_page _ _ _ _ _ Hwf).
  - intros x. rewrite Hsame. naive_solver.
  - by apply (page_dom s part full fl lost b fr t M').
Qed.

(** ** Taking a node *)

(** The page goes to the other list when it is full. *)
Lemma settle_run s b part full fl lost fr M1 U : wf s (b :: part) full fl lost ->
  ring M1 PS (b :: part) -> ring M1 FS full -> let s1 := mk_slabs s.(pages) M1 U in
  exists M2, (if bool_decide (fr = []) then list_del b ;;; list_add_tail f b FS else pret tt) s1 = Ok (tt, mk_slabs s.(pages) M2 U) /\
    ring M2 PS (if decide (fr = []) then part else b :: part) /\ ring M2 FS (if decide (fr = []) then full ++ [b] else full) /\
    touches (b :: PS :: FS :: part ++ full) M1 M2.
Proof.
  intros Hwf H1 H2 s1. destruct (decide (fr = [])) as [->|Hne].
  - destruct (ring_move f s1 PS [] b part FS full H1 H2) as (M2 & Hrun & Hr1 & Hr2 & Ht); [| |by exists M2].
    + intros k. apply (lists_apart s (b :: part) full fl lost Hwf).
    + change (writable f s b = true). apply (base_writable s (b :: part) full fl lost Hwf). left.
  - exists M1. rewrite bool_decide_false by done. by split_and!.
Qed.

Lemma take_run s b part full fl lost a fr : wf s (b :: part) full fl lost -> fl b = a :: fr ->
  exists M', let s' := mk_slabs s.(pages) M' (<[b := n - zlen fr]> s.(used)) in take_node f s = Ok (a, s') /\
    wf s' (if decide (fr = []) then part else b :: part) (if decide (fr = []) then full ++ [b] else full) (freed fl b fr) lost.
Proof.
  intros Hwf Hfl. assert (b ∈ (b :: part) ++ full) as Hb by left. pose proof (base_page _ _ _ _ _ Hwf b Hb) as Hbp.
  pose proof (wf_free _ _ _ _ _ Hwf b Hb) as Hfr. rewrite Hfl in Hfr. pose proof (wf_used _ _ _ _ _ Hwf b Hb) as Hu. rewrite Hfl in Hu.
  set (U := <[b := n - zlen fr]> s.(used)).
  destruct (ring_remove (mk_slabs s.(pages) s.(heads) U) (freelist b) [] a fr Hfr) as (M1 & Hdel & Hr1 & Ht1). cbn [app] in Hr1, Ht1.
  assert (forall k, k ∈ a :: freelist b :: fr -> inner b k) as Hin.
  { intros k Hk. apply (free_inner s (b :: part) full fl lost Hwf); [done|]. rewrite Hfl. rewrite !elem_of_cons in *. tauto. }
  assert (forall k, k ∈ freelist b :: fr -> inner b k) as Hin1 by (intros k Hk; apply Hin; by right).
  assert (forall h l, h = PS \/ h = FS -> (forall x, x ∈ l -> x ∈ (b :: part) ++ full) -> forall k, k ∈ h :: l -> outer s k) as Hout
    by (intros h l Hh Hl k; by apply (ring_outer s (b :: part) full fl lost Hwf)).
  assert (ring M1 PS (b :: part)) as HP1.
  { apply (outer_kept s (b :: part) full fl lost Hwf M1 (freelist b :: fr) PS (b :: part) b Ht1 Hbp Hin1); [apply Hwf|].
    apply Hout; [by left|]. intros x Hx. apply elem_of_app. by left. }
  assert (ring M1 FS full) as HF1.
  { apply (outer_kept s (b :: part) full fl lost Hwf M1 (freelist b :: fr) FS full b Ht1 Hbp Hin1); [apply Hwf|].
    apply Hout; [by right|]. intros x Hx. apply elem_of_app. by right. }
  destruct (settle_run s b part full fl lost fr M1 U Hwf HP1 HF1) as (M2 & Hset & HP2 & HF2 & Ht2).
  set (M3 := delete a M2). exists M3. split.
  - unfold take_node. prun (load_head_run s PS _ (ring_head _ _ _ (wf_part _ _ _ _ _ Hwf))). cbn [next behind hd].
    prun (get_used_run s b _ Hu). prun (set_used_run s b (n - zlen (a :: fr) + 1) Hbp).
    assert (n - zlen (a :: fr) + 1 = n - zlen fr) as -> by (cbn [length]; lia). fold U. set (s1 := mk_slabs s.(pages) s.(heads) U).
    prun (load_head_run s1 (freelist b) _ (ring_head _ _ _ Hfr)). cbn [next behind hd]. prun Hdel.
    prun (ring_empty (set_heads M1 s1) (freelist b) fr Hr1). prun Hset. unfold clear_node. rewrite pbind_assoc. prun_get. done.
  - assert (a ∉ freelist b :: fr) as Hna.
    { destruct Hfr as [Hnd _]. rewrite Permutation_swap in Hnd. by apply NoDup_cons in Hnd as [Hnd _]. }
    assert (touches [a] M2 M3) as Ht3 by (intros k Hk; unfold M3; rewrite lookup_delete_ne; [done|]; intros ->; apply Hk; left).
    assert (forall k, k ∈ b :: PS :: FS :: part ++ full -> outer s k) as Hout2.
    { intros k [->|[->|Hk]%elem_of_cons]%elem_of_cons; [by apply (base_outer s (b :: part) full fl lost Hwf) | by left|].
      apply (Hout FS (part ++ full)); [by right | intros x Hx; by right | done]. }
    set (part' := if decide _ then part else _) in *. set (full' := if decide _ then _ else full) in *.
    assert (forall x, x ∈ part' ++ full' <-> x ∈ (b :: part) ++ full) as Hsame
      by (intros x; unfold part', full'; destruct (decide _); [rewrite !elem_of_app, !elem_of_cons, elem_of_nil; tauto | done]).
    assert (forall l h, ring M2 h l -> (forall k, k ∈ h :: l -> outer s k) -> ring M3 h l) as Hkeep.
    { intros l h Hr Ho. apply (ring_frame M2); [done|]. intros k Hk. apply Ht3. intros ->%list_elem_of_singleton.
      apply (outer_inner s (b :: part) full fl lost Hwf b a); [done | by apply Ho | apply Hin; left]. }
    apply (page_kept s (b :: part) full fl lost b fr part' full' ((freelist b :: fr) ++ (b :: PS :: FS :: part ++ full) ++ [a])); try done.
    + pose proof (wf_nodup _ _ _ _ _ Hwf) as Hnd. cbn [app] in Hnd. unfold part', full'. destruct (decide _); [|done].
      by rewrite (assoc_L (++)), (Permutation_app_comm _ [b]).
    + apply Hkeep; [done|]. apply Hout; [by left|]. intros x Hx. apply Hsame, elem_of_app. by left.
    + apply Hkeep; [done|]. apply Hout; [by right|]. intros x Hx. apply Hsame, elem_of_app. by right.
    + apply (ring_frame M1); [done|]. intros k Hk. rewrite Ht3; [apply Ht2|].
      * intros Ho%Hout2. by apply (outer_inner s (b :: part) full fl lost Hwf b k); [| | apply Hin1].
      * intros ->%list_elem_of_singleton. done.
    + intros x Hx. apply (wf_slots _ _ _ _ _ Hwf); [done|]. rewrite Hfl. by right.
    + intros x Hx. unfold part', full' in *. destruct (decide (fr = [])) as [He|He].
      * rewrite freed_other; [apply (wf_some _ _ _ _ _ Hwf); by right|]. intros ->.
        pose proof (wf_nodup _ _ _ _ _ Hwf) as Hnd. apply NoDup_app in Hnd as (Hnd & _). by apply NoDup_cons in Hnd as [Hnd _].
      * destruct (decide (x = b)) as [->|Hne]; [by rewrite freed_same|]. rewrite freed_other by done. by apply (wf_some _ _ _ _ _ Hwf).
    + intros x Hx. unfold full' in *. destruct (decide (x = b)) as [->|Hne].
      * rewrite freed_same. destruct (decide (fr = [])); [done|]. pose proof (wf_none _ _ _ _ _ Hwf b Hx). congruence.
      * rewrite freed_other by done. apply (wf_none _ _ _ _ _ Hwf). destruct (decide _); [|done].
        apply elem_of_app in Hx as [Hx|Hx%list_elem_of_singleton]; [done | congruence].
    + apply (touches_trans _ _ _ M1); [exact Ht1|]. by apply (touches_trans _ _ _ M2).
    + intros k. rewrite !elem_of_app. intros [Hk|[Hk|Hk%list_elem_of_singleton]]; [right; by apply Hin1 | left; by apply Hout2 | subst; right; apply Hin; left].
    + intros k Hk Hi. destruct (decide (k = a)) as [->|Hne]; [unfold M3 in Hk; rewrite lookup_delete_eq in Hk; by destruct Hk|].
      destruct (decide (k ∈ freelist b :: fr)) as [Hk1|Hk1]; [rewrite elem_of_cons in Hk1; tauto|].
      rewrite Ht3, Ht2, (Ht1 k Hk1) in Hk.
      * destruct (wf_heads _ _ _ _ _ Hwf b k Hb Hk (inner_page s (b :: part) full fl lost Hwf b k Hbp Hi)) as [->|[->|Hc]].
        -- unfold inner in Hi. lia.
        -- by left.
        -- rewrite Hfl in Hc. apply elem_of_cons in Hc as [|]; [done | by right].
      * intros Ho%Hout2. by apply (outer_inner s (b :: part) full fl lost Hwf b k).
      * by intros ->%list_elem_of_singleton.
Qed.
End pages.
End FuseSlabPages.

Module FuseSlabRun.
Import FuseSlab FuseSlabFacts FuseSlabPages.

Section runs.
Context (f : slab_conf) (Hf : conf_ok f).
#[local] Abbreviation ps := f.(pagesize).
#[local] Abbreviation ns := f.(node_size).
#[local] Abbreviation PS := f.(partial_slabs).
#[local] Abbreviation FS := f.(full_slabs).
#[local] Abbreviation n := (slab_nodes f).
#[local] Abbreviation wf := (wf f).
#[local] Abbreviation slots := (slots f).
#[local] Abbreviation slot := (slot f).
Implicit Types (s : slabs) (M : gmap Z list_head) (part full fr : list Z) (fl : Z -> list Z) (lost : gset Z).

(** ** Giving a node back *)

(** A page is taken off the list it is on. *)
Lemma page_leaves s part full fl lost b : wf s part full fl lost -> b ∈ part ++ full ->
  exists part' full' M', list_del b s = Ok (tt, set_heads M' s) /\ ring M' PS part' /\ ring M' FS full' /\
    Permutation (b :: part' ++ full') (part ++ full) /\ (forall x, x ∈ part' -> x ∈ part) /\ (forall x, x ∈ full' -> x ∈ full) /\
    touches (PS :: FS :: part' ++ full') s.(heads) M'.
Proof.
  intros Hwf [Hb|Hb]%elem_of_app; apply list_elem_of_split in Hb as (l1 & l2 & ->).
  - destruct (ring_remove s PS l1 b l2 (wf_part _ _ _ _ _ _ Hwf)) as (M' & Hrun & Hr & Ht). exists (l1 ++ l2), full, M'.
    assert (forall x, x ∈ l1 ++ l2 -> x ∈ l1 ++ b :: l2) as Hsub by (intros x; rewrite !elem_of_app, elem_of_cons; tauto).
    assert (forall k, k ∈ PS :: l1 ++ l2 -> k ∉ FS :: full) as Hap.
    { intros k Hk. apply (lists_apart f Hf s (l1 ++ b :: l2) full fl lost Hwf). apply elem_of_cons in Hk as [->|Hk]; [left | right; by apply Hsub]. }
    split_and!; [done | done | | by rewrite <- Permutation_middle | done | done |].
    + apply (ring_frame s.(heads)); [apply Hwf|]. intros k Hk. apply Ht. intros Hk2. by apply (Hap k).
    + apply (touches_mono _ _ _ _ Ht). intros k. rewrite !elem_of_cons, !elem_of_app. tauto.
  - destruct (ring_remove s FS l1 b l2 (wf_full _ _ _ _ _ _ Hwf)) as (M' & Hrun & Hr & Ht). exists part, (l1 ++ l2), M'.
    assert (forall x, x ∈ l1 ++ l2 -> x ∈ l1 ++ b :: l2) as Hsub by (intros x; rewrite !elem_of_app, elem_of_cons; tauto).
    assert (forall k, k ∈ PS :: part -> k ∉ FS :: l1 ++ l2) as Hap.
    { intros k Hk Hk2. apply (lists_apart f Hf s part (l1 ++ b :: l2) fl lost Hwf k Hk). apply elem_of_cons in Hk2 as [->|Hk2]; [left | right; by apply Hsub]. }
    split_and!; [done | | done | by rewrite <- !Permutation_middle | done | done |].
    + apply (ring_frame s.(heads)); [apply Hwf|]. intros k Hk. apply Ht. by apply Hap.
    + apply (touches_mono _ _ _ _ Ht). intros k. rewrite !elem_of_cons, !elem_of_app. tauto.
Qed.

(** A page goes, or munmap refuses it. *)
Lemma page_gone s part full fl lost b part' full' M' U : wf s part full fl lost -> b ∈ part ++ full ->
  Permutation (b :: part' ++ full') (part ++ full) -> (forall x, x ∈ part' -> x ∈ part) -> (forall x, x ∈ full' -> x ∈ full) ->
  ring M' PS part' -> ring M' FS full' -> touches (PS :: FS :: part' ++ full') s.(heads) M' ->
  (forall x, x <> b -> U !! x = s.(used) !! x) ->
  wf (mk_slabs s.(pages) M' U) part' full' fl ({[b]} ∪ lost).
Proof.
  intros Hwf Hb Hperm Hp Hq HP HF Ht HU.
  assert (NoDup (b :: part' ++ full')) as Hnd by (rewrite Hperm; apply Hwf). apply NoDup_cons in Hnd as [Hbn Hnd].
  assert (forall x, x ∈ part' ++ full' -> x ∈ part ++ full) as Hsub by (intros x Hx; rewrite <- Hperm; by right).
  assert (forall k, k ∈ PS :: FS :: part' ++ full' -> outer f s k) as Ho.
  { intros k [->|[->|Hk]%elem_of_cons]%elem_of_cons; [by left | by right; left|]. by apply (base_outer f Hf s part full fl lost Hwf), Hsub. }
  split; cbn [heads pages used]; try done.
  - intros x Hx%Hsub. by apply (free_kept f Hf s part full fl lost Hwf M' _ x Ht).
  - intros x a Hx%Hsub. by apply Hwf.
  - intros x Hx. rewrite HU; [by apply (wf_used _ _ _ _ _ _ Hwf), Hsub | by intros ->].
  - intros x Hx%Hp. by apply (wf_some _ _ _ _ _ _ Hwf).
  - intros x Hx%Hq. by apply (wf_none _ _ _ _ _ _ Hwf).
  - intros x. rewrite (wf_pages _ _ _ _ _ _ Hwf x), <- Hperm, elem_of_cons, elem_of_union, elem_of_singleton. tauto.
  - intros x [->%elem_of_singleton|Hx]%elem_of_union; [done|]. intros Hx2%Hsub. by apply (wf_lost _ _ _ _ _ _ Hwf x Hx).
  - apply Hwf.
  - intros x k Hx%Hsub Hk Hpg. destruct (decide (k ∈ PS :: FS :: part' ++ full')) as [Hkt|Hkt].
    + left. by apply (outer_page f Hf s part full fl lost Hwf k x); [apply (base_page f s part full fl lost Hwf) | apply Ho |].
    + rewrite (Ht k Hkt) in Hk. by apply (wf_heads _ _ _ _ _ _ Hwf).
Qed.

(** What is in a page that is in use by no list does not matter. *)
Lemma page_unmapped s part full fl lost b : wf s part full fl lost -> b ∈ lost ->
  let s' := mk_slabs (s.(pages) ∖ {[b]}) (filter (fun x => page_of f x.1 <> b) s.(heads)) (delete b s.(used)) in
  wf s' part full fl (lost ∖ {[b]}).
Proof.
  intros Hwf Hb s'. assert (b ∈ s.(pages)) as Hbp by (apply (wf_pages _ _ _ _ _ _ Hwf); by right).
  pose proof (wf_ok _ _ _ _ _ _ Hwf b Hbp) as Hbok. pose proof (wf_lost _ _ _ _ _ _ Hwf b Hb) as Hnb.
  assert (forall k, page_of f k <> b -> s'.(heads) !! k = s.(heads) !! k) as Hsame.
  { intros k Hk. unfold s'. cbn [heads]. destruct (s.(heads) !! k) eqn:E; [by apply map_lookup_filter_Some|]. apply map_lookup_filter_None. by left. }
  assert (forall h l, h = PS \/ h = FS -> (forall x, x ∈ l -> x ∈ part ++ full) -> ring s.(heads) h l -> ring s'.(heads) h l) as Hlists.
  { intros h l Hh Hl Hr. apply (ring_frame s.(heads)); [done|]. intros k Hk. apply Hsame. apply elem_of_cons in Hk as [->|Hk].
    - by destruct (list_not_page f Hf b h Hbok Hh).
    - rewrite (page_self f Hf s part full fl lost Hwf); [intros ->; by apply Hnb, Hl | by apply (base_page f s part full fl lost Hwf), Hl]. }
  split; cbn [heads pages used]; try apply Hwf.
  - apply Hlists; [by left | | apply Hwf]. intros x Hx. apply elem_of_app. by left.
  - apply Hlists; [by right | | apply Hwf]. intros x Hx. apply elem_of_app. by right.
  - intros x Hx. apply (ring_frame s.(heads)); [by apply Hwf|]. intros k Hk. apply Hsame.
    rewrite (inner_page f Hf s part full fl lost Hwf x); [by intros -> | by apply (base_page f s part full fl lost Hwf) | by apply (free_inner f Hf s part full fl lost Hwf)].
  - intros x Hx. unfold s'. cbn [used]. rewrite lookup_delete_ne; [by apply Hwf | by intros ->].
  - intros x. unfold s'. cbn [pages]. rewrite !elem_of_difference, elem_of_singleton, (wf_pages _ _ _ _ _ _ Hwf x).
    destruct (decide (x = b)) as [->|]; tauto.
  - intros x [Hx _]%elem_of_difference. by apply Hwf.
  - intros x [Hx _]%elem_of_difference. by apply (wf_ok _ _ _ _ _ _ Hwf).
  - intros x k Hx [h Hk] Hp. apply map_lookup_filter_Some in Hk as [Hk _]. by apply (wf_heads _ _ _ _ _ _ Hwf).
Qed.
Lemma free_slab_run s part full fl lost b unmaps U : wf s part full fl lost -> b ∈ part ++ full ->
  (forall x, x <> b -> U !! x = s.(used) !! x) ->
  exists part' full' s', free_slab f b unmaps (mk_slabs s.(pages) s.(heads) U) = Ok (tt, s') /\
    Permutation (b :: part' ++ full') (part ++ full) /\ wf s' part' full' fl (if unmaps then lost else {[b]} ∪ lost).
Proof.
  intros Hwf Hb HU. destruct (page_leaves s part full fl lost b Hwf Hb) as (part' & full' & M' & Hdel & HP & HF & Hperm & Hp & Hq & Ht).
  pose proof (page_gone s part full fl lost b part' full' M' U Hwf Hb Hperm Hp Hq HP HF Ht HU) as Hwf'.
  exists part', full'. unfold free_slab. assert (list_del b (mk_slabs s.(pages) s.(heads) U) = Ok (tt, mk_slabs s.(pages) M' U)) as Hdel'.
  { revert Hdel. unfold list_del, set_next, set_prev, load_head. unfold pbind, pget, pput, plift, pret, set_heads. cbn [obind heads].
    destruct (s.(heads) !! b) as [h|]; [|done]. cbn. destruct (s.(heads) !! next h) as [hn|]; [|done]. cbn.
    destruct (<[next h:=_]> s.(heads) !! prev h) as [hp|]; [|done]. cbn. congruence. }
  destruct unmaps.
  - eexists. split_and!; [prun Hdel'; unfold unmap_page; prun_get; reflexivity | done |].
    assert (lost = ({[b]} ∪ lost) ∖ {[b]}) as ->.
    { apply leibniz_equiv. intros x. rewrite elem_of_difference, elem_of_union, elem_of_singleton. destruct (decide (x = b)) as [->|]; [|tauto].
      pose proof (wf_lost _ _ _ _ _ _ Hwf b) as Hn. tauto. }
    apply (page_unmapped _ part' full' fl ({[b]} ∪ lost) b Hwf'). apply elem_of_union. left. by apply elem_of_singleton.
  - exists (mk_slabs s.(pages) M' U). split_and!; [by prun Hdel' | done | done].
Qed.

(** The page moves to the list of those with free nodes when it was full. *)
Lemma unsettle_run s part full fl lost b U : wf s part full fl lost -> b ∈ part ++ full ->
  exists M1 part' full', (if bool_decide (fl b = []) then list_del b ;;; list_add_tail f b PS else pret tt) (mk_slabs s.(pages) s.(heads) U)
      = Ok (tt, mk_slabs s.(pages) M1 U) /\
    ring M1 PS part' /\ ring M1 FS full' /\ Permutation (part' ++ full') (part ++ full) /\ (b ∈ part') /\
    (forall x, x ∈ part' -> x = b \/ x ∈ part) /\ (forall x, x ∈ full' -> x ∈ full) /\ touches (PS :: FS :: part ++ full) s.(heads) M1.
Proof.
  intros Hwf Hb. destruct (decide (fl b = [])) as [He|He].
  - rewrite bool_decide_true by done. assert (b ∈ full) as Hbf.
    { apply elem_of_app in Hb as [Hb|Hb]; [|done]. by destruct (wf_some _ _ _ _ _ _ Hwf b Hb). }
    apply list_elem_of_split in Hbf as (l1 & l2 & ->). set (s1 := mk_slabs s.(pages) s.(heads) U).
    destruct (ring_move f s1 FS l1 b l2 PS part) as (M1 & Hrun & HF & HP & Ht); [apply Hwf | apply Hwf | | |].
    + intros k Hk Hk2. by apply (lists_apart f Hf s part (l1 ++ b :: l2) fl lost Hwf k).
    + change (writable f s b = true). by apply (base_writable f Hf s part (l1 ++ b :: l2) fl lost Hwf).
    + exists M1, (part ++ [b]), (l1 ++ l2). split_and!; try done.
      * rewrite <- (assoc_L (++)). cbn [app]. by rewrite Permutation_middle.
      * apply elem_of_app. right. left.
      * intros x [Hx|Hx%list_elem_of_singleton]%elem_of_app; [by right | by left].
      * intros x. rewrite !elem_of_app, elem_of_cons. tauto.
      * apply (touches_mono _ _ _ _ Ht). intros k. rewrite !elem_of_cons, !elem_of_app, elem_of_cons. tauto.
  - exists s.(heads), part, full. rewrite bool_decide_false by done. split_and!; try done; try apply Hwf.
    + apply elem_of_app in Hb as [Hb|Hb]; [done|]. by rewrite (wf_none _ _ _ _ _ _ Hwf b Hb) in He.
    + intros x Hx. by right.
Qed.

(** A node of a page that has others in use. *)
Lemma give_node_run s part full fl lost b a unmaps : wf s part full fl lost -> b ∈ part ++ full -> a ∈ slots b -> (a ∉ fl b) ->
  zlen (fl b) + 1 <> n -> exists part' full' s', free_node_mem f a unmaps s = Ok (tt, s') /\
    Permutation (part' ++ full') (part ++ full) /\ wf s' part' full' (freed fl b (a :: fl b)) lost /\ s'.(pages) = s.(pages).
Proof.
  intros Hwf Hb Ha Hna Hn. pose proof (base_page f s part full fl lost Hwf b Hb) as Hbp.
  pose proof (slot_inner f Hf b a Ha) as Hai. pose proof (wf_used _ _ _ _ _ _ Hwf b Hb) as Hu.
  assert (page_of f a = b) as Hpa by by apply (inner_page f Hf s part full fl lost Hwf).
  set (U := <[b := n - zlen (fl b) - 1]> s.(used)).
  destruct (unsettle_run s part full fl lost b U Hwf Hb) as (M1 & part' & full' & Hset & HP1 & HF1 & Hperm & Hbp' & Hp & Hq & Ht1).
  assert (forall k, k ∈ PS :: FS :: part ++ full -> outer f s k) as Ho.
  { intros k [->|[->|Hk]%elem_of_cons]%elem_of_cons; [by left | by right; left|]. by apply (base_outer f Hf s part full fl lost Hwf). }
  assert (ring M1 (freelist b) (fl b)) as Hr1 by by apply (free_kept f Hf s part full fl lost Hwf M1 _ b Ht1).
  assert (forall k, k ∈ freelist b :: fl b -> inner f b k) as Hin by (intros k; by apply (free_inner f Hf s part full fl lost Hwf)).
  assert (a <> freelist b) as Hne by (apply (slot_in f Hf) in Ha; unfold SLAB_SIZE, freelist in *; lia).
  set (s1 := mk_slabs s.(pages) M1 U).
  destruct (ring_add_head f s1 (freelist b) (fl b) a Hr1) as (M2 & Hadd & Hr2 & Ht2).
  { by rewrite not_elem_of_cons. }
  { unfold writable. rewrite Hpa, (bool_decide_true (b ∈ s1.(pages))) by done. apply orb_true_r. }
  exists part', full', (mk_slabs s.(pages) M2 U). split_and!; [| done | | done].
  - unfold free_node_mem. rewrite Hpa. prun (get_used_run s b _ Hu). prun (set_used_run s b (n - zlen (fl b) - 1) Hbp). fold U.
    rewrite (proj2 (Z.eqb_neq (n - zlen (fl b) - 1) 0)) by lia. cbn [negb].
    prun (ring_empty (mk_slabs s.(pages) s.(heads) U) (freelist b) (fl b) (wf_free _ _ _ _ _ _ Hwf b Hb)). by prun Hset.
  - assert (U = <[b := n - zlen (a :: fl b)]> s.(used)) as -> by (unfold U; f_equal; cbn [length]; lia).
    assert (forall h l, ring M1 h l -> (forall k, k ∈ h :: l -> outer f s k) -> ring M2 h l) as Hkeep.
    { intros h l Hr Hl. apply (ring_frame M1); [done|]. intros k Hk. apply Ht2. intros Hkt.
      apply (outer_inner f Hf s part full fl lost Hwf b k); [done | by apply Hl|].
      apply elem_of_cons in Hkt as [->|Hkt]; [done | by apply Hin]. }
    assert (forall x, x ∈ part' ++ full' <-> x ∈ part ++ full) as Hsame by (intros x; by rewrite Hperm).
    assert (NoDup (part' ++ full')) as Hnd by (rewrite Hperm; apply Hwf).
    apply (page_kept f Hf s part full fl lost b (a :: fl b) part' full' ((PS :: FS :: part ++ full) ++ (a :: freelist b :: fl b))); try done.
    + apply Hkeep; [done|]. intros k Hk. apply Ho. apply elem_of_cons in Hk as [->|Hk]; [left|]. do 2 right. apply Hsame, elem_of_app. by left.
    + apply Hkeep; [done|]. intros k Hk. apply Ho. apply elem_of_cons in Hk as [->|Hk]; [right; left|]. do 2 right. apply Hsame, elem_of_app. by right.
    + intros x [->|Hx]%elem_of_cons; [done|]. by apply (wf_slots _ _ _ _ _ _ Hwf).
    + intros x Hx. destruct (decide (x = b)) as [->|Hxb]; [by rewrite freed_same|]. rewrite freed_other by done.
      destruct (Hp x Hx) as [->|Hx']; [done | by apply (wf_some _ _ _ _ _ _ Hwf)].
    + intros x Hx. rewrite freed_other; [by apply (wf_none _ _ _ _ _ _ Hwf), Hq|]. intros ->.
      apply NoDup_app in Hnd as (_ & Hnd & _). by apply (Hnd b).
    + apply (touches_trans _ _ _ _ _ Ht1 Ht2).
    + intros k [Hk|[->|Hk]%elem_of_cons]%elem_of_app; [left; by apply Ho | by right | right; by apply Hin].
    + intros k Hk Hi. destruct (decide (k ∈ a :: freelist b :: fl b)) as [Hk2|Hk2]; [rewrite !elem_of_cons in *; tauto|].
      rewrite (Ht2 k Hk2) in Hk. change (heads s1) with M1 in Hk. rewrite Ht1 in Hk.
      * destruct (wf_heads _ _ _ _ _ _ Hwf b k Hb Hk (inner_page f Hf s part full fl lost Hwf b k Hbp Hi)) as [->|[->|Hc]].
        -- unfold inner in Hi. lia.
        -- by left.
        -- right. by right.
      * intros Hk3%Ho. by apply (outer_inner f Hf s part full fl lost Hwf b k).
Qed.
(** ** A new page *)

Lemma page_mapped s part full fl lost b : wf s part full fl lost -> page_ok f b -> (b ∉ s.(pages)) ->
  exists s', map_page f b s = Ok (tt, s') /\ s'.(pages) = {[b]} ∪ s.(pages) /\ s'.(used) = s.(used) /\
    wf s' part full fl ({[b]} ∪ lost) /\ (forall k, is_Some (s'.(heads) !! k) -> page_of f k <> b).
Proof.
  intros Hwf Hok Hb. eexists. split; [unfold map_page; prun_get; reflexivity|]. set (s' := mk_slabs _ _ _).
  assert (forall k, page_of f k <> b -> s'.(heads) !! k = s.(heads) !! k) as Hsame.
  { intros k Hk. unfold s'. cbn [heads]. destruct (s.(heads) !! k) eqn:E; [by apply map_lookup_filter_Some|]. apply map_lookup_filter_None. by left. }
  assert (forall h l, h = PS \/ h = FS -> (forall x, x ∈ l -> x ∈ part ++ full) -> ring s.(heads) h l -> ring s'.(heads) h l) as Hlists.
  { intros h l Hh Hl Hr. apply (ring_frame s.(heads)); [done|]. intros k Hk. apply Hsame. apply elem_of_cons in Hk as [->|Hk].
    - by destruct (list_not_page f Hf b h Hok Hh).
    - pose proof (base_page f s part full fl lost Hwf k (Hl k Hk)) as Hkp.
      rewrite (page_self f Hf s part full fl lost Hwf) by done. by intros ->. }
  split_and!; [done | done | | intros k [h Hk]; by apply map_lookup_filter_Some in Hk as [_ Hk]].
  split; cbn [heads pages used]; try apply Hwf.
  - apply Hlists; [by left | | apply Hwf]. intros x Hx. apply elem_of_app. by left.
  - apply Hlists; [by right | | apply Hwf]. intros x Hx. apply elem_of_app. by right.
  - intros x Hx. pose proof (base_page f s part full fl lost Hwf x Hx) as Hxp.
    apply (ring_frame s.(heads)); [by apply Hwf|]. intros k Hk. apply Hsame.
    rewrite (inner_page f Hf s part full fl lost Hwf x); [by intros -> | done | by apply (free_inner f Hf s part full fl lost Hwf)].
  - intros x. unfold s'. cbn [pages]. rewrite !elem_of_union, elem_of_singleton, (wf_pages _ _ _ _ _ _ Hwf x). tauto.
  - intros x [->%elem_of_singleton|Hx]%elem_of_union; [|by apply Hwf]. intros Hb2. by apply Hb, (base_page f s part full fl lost Hwf).
  - intros x [->%elem_of_singleton|Hx]%elem_of_union; [done|]. by apply (wf_ok _ _ _ _ _ _ Hwf).
  - intros x k Hx [h Hk] Hp. apply map_lookup_filter_Some in Hk as [Hk _]. by apply (wf_heads _ _ _ _ _ _ Hwf).
Qed.

(** Every node of the page is put on the list of free ones, in order. *)
Lemma slab_loop_run k b : forall i s, ring s.(heads) (freelist b) (slot b <$> seqZ 0 i) -> 0 <= i -> Z.of_nat k + i = n ->
  page_ok f b -> b ∈ s.(pages) ->
  exists M', slab_loop f k (b + ps - n * ns) i (freelist b) s = Ok (tt, set_heads M' s) /\ ring M' (freelist b) (slots b) /\
    touches (freelist b :: slots b) s.(heads) M'.
Proof.
  induction k as [|k IH]; intros i s Hr Hi Hn Hok Hb; cbn [slab_loop].
  - exists s.(heads). assert (i = n) as -> by lia. by destruct s.
  - change (b + ps - n * ns + i * ns) with (slot b i).
    assert (slot b i ∈ slots b) as Hin by (apply elem_of_slots; exists i; lia).
    pose proof (slot_in f Hf b _ Hin) as Hs. pose proof (ok_node f Hf) as Hns.
    assert (seqZ 0 (i + 1) = seqZ 0 i ++ [i]) as Hseq by (rewrite seqZ_app by lia; cbn; by rewrite Z.add_0_l).
    destruct (ring_add_tail f s (freelist b) (slot b <$> seqZ 0 i) (slot b i) Hr) as (M1 & Hrun & Hr1 & Ht1).
    { apply not_elem_of_cons. split; [unfold SLAB_SIZE, freelist in *; lia|]. intros (j & Hj & Hji)%list_elem_of_fmap. apply elem_of_seqZ in Hji.
      unfold FuseSlabPages.slot in Hj. nia. }
    { unfold writable. rewrite (page_of_in f Hf b) by (try done; unfold SLAB_SIZE in *; lia). rewrite (bool_decide_true (b ∈ s.(pages))) by done. apply orb_true_r. }
    destruct (IH (i + 1) (set_heads M1 s)) as (M2 & Hrun2 & Hr2 & Ht2); [by rewrite Hseq, fmap_app | lia | lia | done | done |].
    exists M2. split_and!; [by prun Hrun | done |]. intros x Hx. rewrite Ht2 by done. apply Ht1. intros Hx2. apply Hx.
    apply elem_of_cons in Hx2 as [->|[->|(j & -> & Hj)%list_elem_of_fmap]%elem_of_cons]; [by right | left | right].
    apply elem_of_seqZ in Hj. apply elem_of_slots. exists j. split; [lia | done].
Qed.

(** A page has all its nodes free. *)
Lemma alloc_slab_run s part full fl lost b : wf s part full fl lost -> page_ok f b -> (b ∉ s.(pages)) ->
  exists s', alloc_slab f (Some b) s = Ok (0, s') /\ wf s' (part ++ [b]) full (freed fl b (slots b)) lost /\ s'.(pages) = {[b]} ∪ s.(pages).
Proof.
  intros Hwf0 Hok Hb0. destruct (page_mapped s part full fl lost b Hwf0 Hok Hb0) as (s1 & Hmap & Hpg & Hus & Hwf & Hclean).
  assert (b ∈ s1.(pages)) as Hbp by (rewrite Hpg; apply elem_of_union; left; by apply elem_of_singleton).
  assert (b ∉ part ++ full) as Hnb by (intros Hx; by apply Hb0, (base_page f s part full fl lost Hwf0)).
  pose proof (ps_pos f Hf) as Hps. pose proof (nodes_bound f Hf) as [Hn1 _].
  assert (forall k, k ∈ freelist b :: slots b -> inner f b k) as Hin.
  { intros k [->|Hk]%elem_of_cons; [unfold inner, freelist; lia | by apply slot_inner]. }
  assert (forall k, inner f b k -> writable f s1 k = true) as Hw.
  { intros k Hk. unfold writable. rewrite (inner_page f Hf s1 part full fl _ Hwf b k Hbp Hk), (bool_decide_true (b ∈ s1.(pages))) by done. apply orb_true_r. }
  set (M1 := <[freelist b := mk_head (freelist b) (freelist b)]> s1.(heads)).
  assert (ring M1 (freelist b) []) as Hr1.
  { split; [by apply NoDup_singleton|]. unfold chain, nx, pv, M1. by rewrite lookup_insert_eq. }
  set (U := <[b := 0]> s1.(used)).
  destruct (slab_loop_run (Z.to_nat n) b 0 (mk_slabs s1.(pages) M1 U) Hr1) as (M2 & Hloop & Hr2 & Ht2); [done | lia | done | done |].
  assert (touches (freelist b :: slots b) s1.(heads) M2) as Ht12.
  { intros k Hk. rewrite Ht2 by done. cbn [heads]. unfold M1. rewrite lookup_insert_ne; [done|]. intros <-. apply Hk. left. }
  assert (forall h l, ring s1.(heads) h l -> (forall k, k ∈ h :: l -> outer f s1 k) -> ring M2 h l) as Hkeep.
  { intros h l Hr Hl. by apply (outer_kept f Hf s1 part full fl _ Hwf M2 _ h l b Ht12). }
  assert (forall k, k ∈ b :: PS :: FS :: part ++ full -> outer f s1 k) as Ho.
  { intros k [->|[->|[->|Hk]%elem_of_cons]%elem_of_cons]%elem_of_cons; [right; right; split; [by apply (page_self f Hf s1 part full fl _ Hwf) | done] | by left | by right; left|].
    by apply (base_outer f Hf s1 part full fl _ Hwf). }
  destruct (ring_add_tail f (mk_slabs s1.(pages) M2 U) PS part b) as (M3 & Hadd & Hr3 & Ht3).
  { apply Hkeep; [apply Hwf|]. intros k Hk. apply Ho. rewrite !elem_of_cons, elem_of_app in *. tauto. }
  { apply not_elem_of_cons. split; [by destruct (list_not_page f Hf b PS Hok (or_introl eq_refl)) as [_ Hne] | intros Hx; apply Hnb, elem_of_app; by left]. }
  { unfold writable. rewrite (page_self f Hf s1 part full fl _ Hwf b Hbp). rewrite (bool_decide_true (b ∈ pages _)) by done. apply orb_true_r. }
  exists (mk_slabs s1.(pages) M3 U). split_and!; [| |done].
  - unfold alloc_slab. prun Hmap. unfold init_list_head. prun (store_head_run f s1 (freelist b) (mk_head (freelist b) (freelist b)) (Hw _ (Hin _ (list_elem_of_here _ _)))).
    fold M1. prun (set_used_run (set_heads M1 s1) b 0 Hbp). cbn [set_heads pages heads used]. fold U. prun Hloop. by prun Hadd.
  - assert (U = <[b := n - zlen (slots b)]> s1.(used)) as -> by (unfold U; f_equal; rewrite (slots_length f Hf); lia).
    assert (lost = ({[b]} ∪ lost) ∖ {[b]}) as ->.
    { apply leibniz_equiv. intros x. rewrite elem_of_difference, elem_of_union, elem_of_singleton. destruct (decide (x = b)) as [->|]; [|tauto].
      pose proof (wf_pages _ _ _ _ _ _ Hwf0 b) as Hp. tauto. }
    assert (forall h l, ring M2 h l -> (forall k, k ∈ h :: l -> k ∉ b :: PS :: part) -> ring M3 h l) as Hkeep3.
    { intros h l Hr Hl. apply (ring_frame M2); [done|]. intros k Hk. by apply Ht3, Hl. }
    assert (forall x, x ∈ (part ++ [b]) ++ full <-> x = b \/ x ∈ part ++ full) as Hsame
      by (intros x; rewrite !elem_of_app, elem_of_cons, elem_of_nil; tauto).
    apply (page_changed f Hf s1 part full fl ({[b]} ∪ lost) b (slots b) (part ++ [b]) full ((freelist b :: slots b) ++ (b :: PS :: FS :: part ++ full))); try done.
    + rewrite <- (assoc_L (++)). cbn [app]. rewrite <- Permutation_middle. apply NoDup_cons. split; [done | apply Hwf].
    + apply Hkeep3.
      * apply Hkeep; [apply Hwf|]. intros k Hk. apply Ho. rewrite !elem_of_cons, elem_of_app in *. tauto.
      * intros k Hk [->|Hk2]%elem_of_cons; [|by apply (lists_apart f Hf s1 part full fl _ Hwf k)].
        apply elem_of_cons in Hk as [->|Hk]; [by destruct (list_not_page f Hf FS FS Hok (or_intror eq_refl))|].
        apply Hnb, elem_of_app. by right.
    + apply Hkeep3; [done|]. intros k Hk%Hin Hk2. apply (outer_inner f Hf s1 part full fl _ Hwf b k); [done | | done].
      apply Ho. rewrite !elem_of_cons, elem_of_app in *. tauto.
    + intros x Hx. destruct (decide (x = b)) as [->|Hxb].
      * rewrite freed_same. pose proof (slots_length f Hf b) as Hl. destruct (slots b); [cbn in Hl; lia | done].
      * rewrite freed_other by done. apply elem_of_app in Hx as [Hx|Hx%list_elem_of_singleton]; [by apply (wf_some _ _ _ _ _ _ Hwf) | done].
    + intros x Hx. rewrite freed_other; [by apply (wf_none _ _ _ _ _ _ Hwf)|]. intros ->. apply Hnb, elem_of_app. by right.
    + intros k Hk. rewrite not_elem_of_app in Hk. destruct Hk as [Hk1 Hk2]. rewrite Ht3; [by apply Ht12|].
      intros Hk3. apply Hk2. rewrite !elem_of_cons, elem_of_app in *. tauto.
    + intros k [Hk|Hk]%elem_of_app; [right; by apply Hin | left; by apply Ho].
    + intros k Hk Hpk. destruct (decide (k ∈ freelist b :: slots b)) as [Hk1|Hk1]; [rewrite elem_of_cons in Hk1; tauto|].
      destruct (decide (k ∈ b :: PS :: part)) as [Hk2|Hk2].
      * left. apply (outer_page f Hf s1 part full fl _ Hwf k b); [done | | done]. apply Ho. rewrite !elem_of_cons, elem_of_app in *. tauto.
      * rewrite Ht3 in Hk by done. cbn [heads] in Hk. rewrite Ht12 in Hk by done. by destruct (Hclean k Hk).
Qed.
End runs.
End FuseSlabRun.
