(* ===== verification/SlabProps.v ===== *)
(** What the memory of nodes promises: a node that is handed out is in no use and
    stays apart from all others and from the lists until it is given back, pages come
    and go unseen, and at the end nothing is left but what munmap refused:
    C28. *)
From S2P Require Import Prelude.
From S2P Require Import CLib.
From S2P Require Import FuseSlab.
From S2P Require Import FuseSlabFacts.

Module SlabProps.
Import FuseSlab FuseSlabFacts FuseSlabPages FuseSlabRun.

Section rest.
Context (f : slab_conf) (Hf : conf_ok f).
#[local] Abbreviation n := (slab_nodes f).
Implicit Types (s : slabs) (part full : list Z) (fl : Z -> list Z) (L lost : gset Z).

(** ** Nodes in use *)

Definition in_use part full fl (a : Z) : Prop := exists b, b ∈ part ++ full /\ a ∈ slots f b /\ a ∉ fl b.

(** Memory between operations: the nodes of [L] are in use, and no page is kept
    without one. *)
Definition rests s L lost : Prop := exists part full fl, wf f s part full fl lost /\ (forall a, a ∈ L <-> in_use part full fl a) /\
  (forall b, b ∈ part ++ full -> zlen (fl b) < n).

(** A node of a page that is kept is in no use. *)
Definition has_free s L lost : Prop := exists b a, b ∈ s.(pages) /\ (b ∉ lost) /\ a ∈ slots f b /\ (a ∉ L).

(** Free nodes are different ones, so their number says whether some other is in
    use. *)
Lemma free_count s part full fl lost b : wf f s part full fl lost -> b ∈ part ++ full -> forall l, NoDup l -> (forall a, a ∈ l -> a ∈ slots f b /\ a ∉ fl b) ->
  zlen (fl b) + zlen l <= n.
Proof.
  intros Hwf Hb l Hl Hin. pose proof (wf_free _ _ _ _ _ _ Hwf b Hb) as [[_ Hnd]%NoDup_cons _].
  assert (NoDup (fl b ++ l)) as Hall by (apply NoDup_app; split_and!; [done | intros a Ha Hal; by apply (Hin a) | done]).
  assert (fl b ++ l ⊆+ slots f b) as Hsub%submseteq_length.
  { apply NoDup_submseteq; [done|]. intros a [Ha|Ha]%elem_of_app; [by apply (wf_slots _ _ _ _ _ _ Hwf) | by apply Hin]. }
  pose proof (slots_length f Hf b). rewrite length_app in Hsub. lia.
Qed.

Lemma same_page s part full fl lost b b' a : wf f s part full fl lost -> b ∈ part ++ full -> b' ∈ part ++ full ->
  a ∈ slots f b -> a ∈ slots f b' -> b = b'.
Proof.
  intros Hwf Hb Hb' Ha Ha'. by apply (inner_inner f Hf s part full fl lost Hwf b b' a); try (by apply (base_page f s part full fl lost Hwf)); apply slot_inner.
Qed.

Lemma rests_use s L lost a : rests s L lost -> a ∈ L -> exists b, b ∈ s.(pages) /\ a ∈ slots f b.
Proof.
  intros (part & full & fl & Hwf & HL & _) (b & Hb & Ha & _)%HL. exists b. split; [by apply (base_page f s part full fl lost Hwf) | done].
Qed.

(** ** Operations *)

Lemma new_rests : exists s, slabs_new f slabs_zero = Ok (tt, s) /\ rests s ∅ ∅ /\ s.(pages) = ∅.
Proof.
  set (s1 := mk_slabs ∅ {[f.(partial_slabs) := mk_head f.(partial_slabs) f.(partial_slabs)]} ∅).
  pose proof (ok_lists f Hf) as Hl. assert (f.(partial_slabs) <> f.(full_slabs)) as Hne by lia.
  exists (set_heads (<[f.(full_slabs) := mk_head f.(full_slabs) f.(full_slabs)]> s1.(heads)) s1). split; [|split; [|done]].
  - unfold slabs_new, init_list_head. assert (writable f slabs_zero f.(partial_slabs) = true) as H1 by (unfold writable; by rewrite Z.eqb_refl).
    prun (store_head_run f slabs_zero _ (mk_head f.(partial_slabs) f.(partial_slabs)) H1). apply (store_head_run f s1).
    unfold writable. by rewrite Z.eqb_refl, orb_true_r.
  - exists [], [], (fun _ => []). split_and!.
    + split; cbn [set_heads pages heads used app]; try (by intros ? ?%not_elem_of_nil); try (by intros ? ? ?%not_elem_of_nil).
      * split; [by apply NoDup_singleton|]. unfold chain, nx, pv. rewrite lookup_insert_ne by done. unfold s1. cbn [heads]. by rewrite lookup_singleton_eq.
      * split; [by apply NoDup_singleton|]. unfold chain, nx, pv. by rewrite lookup_insert_eq.
      * by apply NoDup_nil.
      * intros b. split; [by intros ?%not_elem_of_empty | by intros [?%not_elem_of_nil|?%not_elem_of_empty]].
      * by intros ? ?%not_elem_of_empty.
    + intros a. split; [by intros ?%not_elem_of_empty|]. by intros (b & ?%not_elem_of_nil & _).
    + by intros b ?%not_elem_of_nil.
Qed.

(** A page that mmap may give: fresh, as [page_ok] says. *)
Definition mmaps s (mem : option Z) : Prop := match mem with Some b => page_ok f b /\ b ∉ s.(pages) | None => True end.

Lemma take_rests s b part full fl lost : wf f s (b :: part) full fl lost -> (forall x, x ∈ (b :: part) ++ full -> zlen (fl x) <= n) ->
  (forall x, x ∈ part ++ full -> zlen (fl x) < n) -> forall L, (forall a, a ∈ L <-> in_use (b :: part) full fl a) ->
  exists a s', take_node f s = Ok (a, s') /\ (a ∉ L) /\ rests s' ({[a]} ∪ L) lost /\ s'.(pages) = s.(pages).
Proof.
  intros Hwf Hle Hlt L HL. pose proof (wf_some _ _ _ _ _ _ Hwf b (list_elem_of_here _ _)) as Hne.
  destruct (fl b) as [|a fr] eqn:Hfl; [done|]. assert (b ∈ (b :: part) ++ full) as Hb by left.
  destruct (take_run f Hf s b part full fl lost a fr Hwf Hfl) as (M' & Hrun & Hwf'). cbn zeta in Hrun, Hwf'.
  set (part' := if decide _ then part else _) in *. set (full' := if decide _ then _ else full) in *.
  assert (forall x, x ∈ part' ++ full' <-> x ∈ (b :: part) ++ full) as Hsame
    by (intros x; unfold part', full'; destruct (decide _); [rewrite !elem_of_app, !elem_of_cons, elem_of_nil; tauto | done]).
  assert (a ∈ slots f b) as Ha by (apply (wf_slots _ _ _ _ _ _ Hwf); [done | rewrite Hfl; left]).
  pose proof (wf_free _ _ _ _ _ _ Hwf b Hb) as [Hnd _]. rewrite Hfl in Hnd. apply NoDup_cons in Hnd as [_ Hnd]. apply NoDup_cons in Hnd as [Hna Hnd].
  assert (a ∉ L) as HaL.
  { intros (b' & Hb' & Ha' & Hn)%HL. rewrite <- (same_page s (b :: part) full fl lost b b' a) in Hn by done. apply Hn. rewrite Hfl. left. }
  eexists a, _. split_and!; [exact Hrun | done | | done]. exists part', full', (freed fl b fr). split_and!; [done | |].
  - intros x. rewrite elem_of_union, elem_of_singleton, HL. unfold in_use. split.
    + intros [->|(b' & Hb' & Hx & Hn)]; [exists b; rewrite Hsame, freed_same; done|]. exists b'. rewrite Hsame. split_and!; [done | done|].
      destruct (decide (b' = b)) as [->|Hbb]; [rewrite freed_same; intros Hx2; apply Hn; rewrite Hfl; by right | by rewrite freed_other].
    + intros (b' & Hb'%Hsame & Hx & Hn). destruct (decide (x = a)) as [|Hxa]; [by left|]. right. exists b'. split_and!; [done | done|].
      destruct (decide (b' = b)) as [->|Hbb]; [|by rewrite freed_other in Hn]. rewrite freed_same in Hn. rewrite Hfl. by apply not_elem_of_cons.
  - intros x Hx%Hsame. destruct (decide (x = b)) as [->|Hxb].
    + rewrite freed_same. specialize (Hle b Hb). rewrite Hfl in Hle. cbn [length] in Hle. lia.
    + rewrite freed_other by done. apply Hlt. cbn [app] in Hx. by apply elem_of_cons in Hx as [|].
Qed.

(** There is a free node when there is a page on the list of those that have one. *)
Lemma free_partial s part full fl lost L : wf f s part full fl lost -> (forall a, a ∈ L <-> in_use part full fl a) -> has_free s L lost <-> part <> [].
Proof.
  intros Hwf HL. split.
  - intros (b & a & Hb & Hlost & Ha & HaL) ->. apply (wf_pages _ _ _ _ _ _ Hwf) in Hb as [Hb|]; [|done].
    apply HaL, HL. exists b. split_and!; [done | done |]. rewrite (wf_none _ _ _ _ _ _ Hwf) by done. apply not_elem_of_nil.
  - destruct part as [|b part]; [done|]. intros _. pose proof (wf_some _ _ _ _ _ _ Hwf b (list_elem_of_here _ _)) as Hne.
    destruct (fl b) as [|a fr] eqn:Hfl; [done|]. assert (b ∈ (b :: part) ++ full) as Hb by left.
    assert (a ∈ slots f b) as Ha by (apply (wf_slots _ _ _ _ _ _ Hwf); [done | rewrite Hfl; left]).
    exists b, a. split_and!; [by apply (base_page f s (b :: part) full fl lost Hwf) | by intros Hl; apply (wf_lost _ _ _ _ _ _ Hwf b Hl) | done |].
    intros (b' & Hb' & Ha' & Hn)%HL. rewrite <- (same_page s (b :: part) full fl lost b b' a) in Hn by done. apply Hn. rewrite Hfl. left.
Qed.

Lemma alloc_free s L lost mem : rests s L lost -> has_free s L lost ->
  exists a s', alloc_node f mem s = Ok (Some a, s') /\ (a ∉ L) /\ rests s' ({[a]} ∪ L) lost /\ s'.(pages) = s.(pages).
Proof.
  intros (part & full & fl & Hwf & HL & Hlt) Hfree%(free_partial _ _ _ _ _ _ Hwf HL). destruct part as [|b part]; [done|]. unfold alloc_node.
  destruct (take_rests s b part full fl lost Hwf) with (L := L) as (a & s' & Htake & Ha & Hr & Hpg').
  - intros x Hx. by apply Z.lt_le_incl, Hlt.
  - intros x Hx. apply Hlt. by right.
  - done.
  - exists a, s'. split_and!; [| done | done | done]. prun (ring_empty s _ _ (wf_part _ _ _ _ _ _ Hwf)). cbn. by prun Htake.
Qed.

Lemma alloc_page s L lost b : rests s L lost -> mmaps s (Some b) -> ~ has_free s L lost ->
  exists a s', alloc_node f (Some b) s = Ok (Some a, s') /\ (a ∉ L) /\ rests s' ({[a]} ∪ L) lost /\ s'.(pages) = {[b]} ∪ s.(pages).
Proof.
  intros (part & full & fl & Hwf & HL & Hlt) [Hok Hb] Hno. assert (part = []) as ->.
  { destruct part; [done|]. destruct Hno. by apply (free_partial _ _ _ _ _ _ Hwf HL). }
  unfold alloc_node. destruct (alloc_slab_run f Hf s [] full fl lost b Hwf Hok Hb) as (s1 & Hrun & Hwf1 & Hpg). cbn [app] in Hwf1.
  assert (b ∉ [] ++ full) as Hnb by (intros Hx; by apply Hb, (base_page f s [] full fl lost Hwf)).
  destruct (take_rests s1 b [] full (freed fl b (slots f b)) lost Hwf1) with (L := L) as (a & s' & Htake & Ha & Hr & Hpg').
  - intros x [->|Hx]%elem_of_cons; [rewrite freed_same, slots_length by done; lia|]. rewrite freed_other by (intros ->; done). by apply Z.lt_le_incl, Hlt.
  - intros x Hx. rewrite freed_other by (intros ->; done). by apply Hlt.
  - intros a. rewrite HL. split; intros (b' & Hb' & Ha & Hn).
    + exists b'. split_and!; [by right | done |]. rewrite freed_other by (intros ->; done). done.
    + destruct (decide (b' = b)) as [->|Hne]; [by rewrite freed_same in Hn|]. rewrite freed_other in Hn by done.
      exists b'. split_and!; [|done|done]. apply elem_of_cons in Hb' as [|]; done.
  - exists a, s'. split_and!; [| done | done | by rewrite Hpg'].
    prun (ring_empty s _ _ (wf_part _ _ _ _ _ _ Hwf)). cbn. prun Hrun. cbn. by prun Htake.
Qed.

Lemma alloc_null s L lost : rests s L lost -> ~ has_free s L lost -> alloc_node f None s = Ok (None, s).
Proof.
  intros (part & full & fl & Hwf & HL & Hlt) Hno. assert (part = []) as ->.
  { destruct part; [done|]. destruct Hno. by apply (free_partial _ _ _ _ _ _ Hwf HL). }
  unfold alloc_node. by prun (ring_empty s _ _ (wf_part _ _ _ _ _ _ Hwf)).
Qed.

(** The last node in use of a page takes the page with it. *)
Lemma last_rests s part full fl lost b a unmaps L : wf f s part full fl lost -> (forall x, x ∈ L <-> in_use part full fl x) ->
  (forall x, x ∈ part ++ full -> zlen (fl x) < n) -> b ∈ part ++ full -> a ∈ slots f b -> (a ∉ fl b) -> zlen (fl b) + 1 = n ->
  exists s', free_node_mem f a unmaps s = Ok (tt, s') /\ rests s' (L ∖ {[a]}) (if unmaps then lost else {[b]} ∪ lost).
Proof.
  intros Hwf HL Hlt Hb Ha Hna Hn. pose proof (base_page f s part full fl lost Hwf b Hb) as Hbp.
  destruct (free_slab_run f Hf s part full fl lost b unmaps (<[b := 0]> s.(used)) Hwf Hb) as (part' & full' & s' & Hrun & Hperm & Hwf').
  { intros x Hx. by rewrite lookup_insert_ne. }
  assert (b ∉ part' ++ full') as Hnb.
  { assert (NoDup (b :: part' ++ full')) as Hnd by (rewrite Hperm; apply Hwf). by apply NoDup_cons in Hnd as [Hnd _]. }
  assert (forall x, x ∈ part ++ full <-> x = b \/ x ∈ part' ++ full') as Hsame by (intros x; by rewrite <- Hperm, elem_of_cons).
  exists s'. split.
  - unfold free_node_mem. rewrite (inner_page f Hf s part full fl lost Hwf b a Hbp (slot_inner f Hf b a Ha)).
    prun (get_used_run s b _ (wf_used _ _ _ _ _ _ Hwf b Hb)). assert (n - zlen (fl b) - 1 = 0) as -> by lia.
    prun (set_used_run s b 0 Hbp). cbn. exact Hrun.
  - exists part', full', fl. split_and!; [done | |].
    + intros x. rewrite elem_of_difference, elem_of_singleton, HL. unfold in_use. split.
      * intros [(b' & [->|Hb']%Hsame & Hx & Hnx) Hxa]; [|by exists b']. exfalso.
        pose proof (free_count s part full fl lost b Hwf Hb [x; a]) as Hc. cbn [length] in Hc.
        assert (zlen (fl b) + 2 <= n); [|lia]. apply Hc.
        -- apply NoDup_cons. split; [by rewrite list_elem_of_singleton | apply NoDup_singleton].
        -- intros y [Hy|Hy%list_elem_of_singleton]%elem_of_cons; by subst y.
      * intros (b' & Hb' & Hx & Hnx). split; [exists b'; rewrite Hsame; auto|]. intros ->. apply Hnb.
        rewrite (same_page s part full fl lost b b' a Hwf); try done. apply Hsame. by right.
    + intros x Hx. apply Hlt, Hsame. by right.
Qed.

Lemma free_rests s L lost a unmaps : rests s L lost -> a ∈ L ->
  exists s' lost', free_node_mem f a unmaps s = Ok (tt, s') /\ rests s' (L ∖ {[a]}) lost' /\
    (lost' = lost \/ unmaps = false /\ lost' = {[page_of f a]} ∪ lost).
Proof.
  intros (part & full & fl & Hwf & HL & Hlt) HaL. pose proof HaL as (b & Hb & Ha & Hna)%HL.
  pose proof (base_page f s part full fl lost Hwf b Hb) as Hbp.
  destruct (decide (zlen (fl b) + 1 = n)) as [Hn|Hn].
  - destruct (last_rests s part full fl lost b a unmaps L Hwf HL Hlt Hb Ha Hna Hn) as (s' & Hrun & Hr). exists s'. eexists. split_and!; [done | done |].
    rewrite (inner_page f Hf s part full fl lost Hwf b a Hbp (slot_inner f Hf b a Ha)). destruct unmaps; auto.
  - destruct (give_node_run f Hf s part full fl lost b a unmaps Hwf Hb Ha Hna Hn) as (part' & full' & s' & Hrun & Hperm & Hwf' & _).
    exists s', lost. split_and!; [done | | by left]. exists part', full', (freed fl b (a :: fl b)). split_and!; [done | |].
    + intros x. rewrite elem_of_difference, elem_of_singleton, HL. unfold in_use. split.
      * intros [(b' & Hb' & Hx & Hnx) Hxa]. exists b'. rewrite Hperm. split_and!; [done | done |].
        destruct (decide (b' = b)) as [->|Hne]; [rewrite freed_same; by apply not_elem_of_cons | by rewrite freed_other].
      * intros (b' & Hb' & Hx & Hnx). rewrite Hperm in Hb'. destruct (decide (b' = b)) as [->|Hne].
        -- rewrite freed_same in Hnx. apply not_elem_of_cons in Hnx as [Hxa Hnx]. split; [by exists b | done].
        -- rewrite freed_other in Hnx by done. split; [by exists b'|]. intros ->. apply Hne. by apply (same_page s part full fl lost b' b a Hwf).
    + intros x Hx. rewrite Hperm in Hx. destruct (decide (x = b)) as [->|Hne]; [|rewrite freed_other by done; by apply Hlt].
      rewrite freed_same. specialize (Hlt b Hb). cbn [length]. lia.
Qed.

(** ** Where nodes are *)

Lemma use_apart s L lost a a' : rests s L lost -> a ∈ L -> a' ∈ L -> a <> a' -> a + f.(node_size) <= a' \/ a' + f.(node_size) <= a.
Proof.
  intros (part & full & fl & Hwf & HL & _) (b & Hb & Ha & _)%HL (b' & Hb' & Ha' & _)%HL Hne.
  pose proof (base_page f s part full fl lost Hwf b Hb) as Hbp. pose proof (base_page f s part full fl lost Hwf b' Hb') as Hbp'.
  destruct (decide (b = b')) as [->|Hbb]; [by apply (slots_apart f Hf b')|].
  pose proof (slot_in f Hf b a Ha) as H1. pose proof (slot_in f Hf b' a' Ha') as H2. unfold SLAB_SIZE in *.
  destruct (decide (a + f.(node_size) <= a')) as [|Hn1]; [by left|]. destruct (decide (a' + f.(node_size) <= a)) as [|Hn2]; [by right|]. exfalso. apply Hbb.
  pose proof (ok_node f Hf) as Hns. destruct (Z.le_gt_cases b b').
  - apply (inner_inner f Hf s part full fl lost Hwf b b' a'); [done | done | unfold inner; lia | by apply slot_inner].
  - apply (inner_inner f Hf s part full fl lost Hwf b b' a); [done | done | by apply slot_inner | unfold inner; lia].
Qed.

(** No list head lies in it. *)
Lemma use_no_head s L lost a k : rests s L lost -> a ∈ L -> is_Some (s.(heads) !! k) -> k + 16 <= a \/ a + f.(node_size) <= k.
Proof.
  intros (part & full & fl & Hwf & HL & _) (b & Hb & Ha & Hna)%HL Hk. pose proof (base_page f s part full fl lost Hwf b Hb) as Hbp.
  pose proof (slot_in f Hf b a Ha) as Hin. unfold SLAB_SIZE in Hin. pose proof (ok_node f Hf) as Hns.
  destruct (decide (page_of f k = b)) as [Hp|Hp].
  - destruct (wf_heads _ _ _ _ _ _ Hwf b k Hb Hk Hp) as [->|[->|Hf2]]; [lia | unfold freelist; lia|].
    destruct (slots_apart f Hf b k a); [by apply (wf_slots _ _ _ _ _ _ Hwf) | done | by intros -> | lia | lia].
  - destruct (decide (k < b)); [lia|]. destruct (decide (b + f.(pagesize) <= k)); [lia|]. destruct Hp.
    apply (page_of_in f Hf); [by apply (wf_ok _ _ _ _ _ _ Hwf) | lia].
Qed.

Lemma empty_rests s lost : rests s ∅ lost -> slabs_destroy f s = Ok (tt, s) /\ s.(pages) = lost.
Proof.
  intros (part & full & fl & Hwf & HL & Hlt).
  assert (part ++ full = []) as [-> ->]%app_nil.
  { destruct (part ++ full) as [|b l] eqn:E; [done|]. exfalso. assert (b ∈ part ++ full) as Hb by (rewrite E; left).
    assert (exists a, a ∈ slots f b /\ a ∉ fl b) as (a & Ha & Hna).
    { destruct (decide (Exists (fun a => a ∉ fl b) (slots f b))) as [He%Exists_exists|He]; [done|]. exfalso.
      apply Forall_Exists_neg in He. assert (slots f b ⊆+ fl b) as Hsub%submseteq_length.
      { apply NoDup_submseteq; [by apply slots_NoDup|]. intros a Ha. rewrite Forall_forall in He. by apply dec_stable, He. }
      pose proof (slots_length f Hf b). specialize (Hlt b (list_elem_of_here _ _)). lia. }
    apply (not_elem_of_empty (C := gset Z) a), HL. by exists b. }
  split.
  - unfold slabs_destroy. prun (ring_empty s _ _ (wf_part _ _ _ _ _ _ Hwf)). prun_lift (eq_refl : guard_c (bool_decide (@nil Z = [])) AssertFailed = Ok tt).
    prun (ring_empty s _ _ (wf_full _ _ _ _ _ _ Hwf)). done.
  - apply leibniz_equiv. intros b. rewrite (wf_pages _ _ _ _ _ _ Hwf b). cbn [app]. split; [intros [?%not_elem_of_nil|]; done | by right].
Qed.
End rest.

(** C28: memory of nodes never mixes: as long as every node given back was in use, no
    operation goes wrong. A node that alloc_node hands out was in no use. While a page
    that is kept has a free node, alloc_node hands one out, whatever mmap would do,
    and maps nothing; without one it maps one page and hands out a node, or, when mmap
    fails, and only then, returns NULL and changes nothing. Giving back any node
    works, whether munmap succeeds or not. Every node in use lies behind the head of
    a mapped page, apart from all others in use and from every list head; when the
    last is given back the assertions of fuse_destroy hold and the pages still mapped
    are those munmap refused. *)
Theorem node_memory f : conf_ok f ->
  (exists s, slabs_new f slabs_zero = Ok (tt, s) /\ rests f s ∅ ∅) /\
  (forall s L lost mem, rests f s L lost -> mmaps f s mem ->
     (has_free f s L lost ->
        exists a s', alloc_node f mem s = Ok (Some a, s') /\ (a ∉ L) /\ rests f s' ({[a]} ∪ L) lost /\ s'.(pages) = s.(pages)) /\
     (~ has_free f s L lost ->
        match mem with
        | Some b => exists a s', alloc_node f mem s = Ok (Some a, s') /\ (a ∉ L) /\ rests f s' ({[a]} ∪ L) lost /\ s'.(pages) = {[b]} ∪ s.(pages)
        | None => alloc_node f mem s = Ok (None, s)
        end)) /\
  (forall s L lost a unmaps, rests f s L lost -> a ∈ L ->
     exists s' lost', free_node_mem f a unmaps s = Ok (tt, s') /\ rests f s' (L ∖ {[a]}) lost' /\
       (lost' = lost \/ unmaps = false /\ lost' = {[page_of f a]} ∪ lost)) /\
  (forall s L lost a, rests f s L lost -> a ∈ L ->
     (exists b, b ∈ s.(pages) /\ b + SLAB_SIZE <= a /\ a + f.(node_size) <= b + f.(pagesize)) /\
     (forall a', a' ∈ L -> a <> a' -> a + f.(node_size) <= a' \/ a' + f.(node_size) <= a) /\
     (forall k, is_Some (s.(heads) !! k) -> k + 16 <= a \/ a + f.(node_size) <= k)) /\
  (forall s lost, rests f s ∅ lost -> slabs_destroy f s = Ok (tt, s) /\ s.(pages) = lost).
Proof.
  intros Hf. split_and!.
  - destruct (new_rests f Hf) as (s & Hs & Hr & _). by exists s.
  - intros s L lost mem Hr Hm. split; intros Hfree; [by apply alloc_free|]. destruct mem as [b|]; [by apply alloc_page | by apply (alloc_null f Hf s L lost)].
  - intros s L lost a unmaps. by apply free_rests.
  - intros s L lost a Hr Ha. split_and!.
    + destruct (rests_use f s L lost a Hr Ha) as (b & Hb & Hs). exists b. split; [done | by apply slot_in].
    + intros a'. by apply (use_apart f Hf s L lost).
    + intros k. by apply (use_no_head f Hf s L lost).
  - intros s lost. by apply empty_rests.
Qed.

Lemma demo_conf_ok : conf_ok demo_conf.
Proof. split; cbn; [by exists 12 | unfold SLAB_SIZE; lia | lia]. Qed.

Lemma demo_mmaps s : slabs_new demo_conf slabs_zero = Ok (tt, s) -> mmaps demo_conf s (Some 65536).
Proof.
  intros Hs. split; [split; cbn; [reflexivity | lia | left; lia | left; lia]|]. assert (s.(pages) = ∅) as ->; [|apply not_elem_of_empty].
  destruct (new_rests demo_conf demo_conf_ok) as (s' & Hs' & _ & Hp). congruence.
Qed.

Lemma node_memory_witness : exists s a s1 s2, slabs_new demo_conf slabs_zero = Ok (tt, s) /\
  alloc_node demo_conf (Some 65536) s = Ok (Some a, s1) /\ free_node_mem demo_conf a false s1 = Ok (tt, s2) /\
  slabs_destroy demo_conf s2 = Ok (tt, s2).
Proof.
  destruct (node_memory demo_conf demo_conf_ok) as ((s & Hs & Hr) & Ha & Hfree & _ & Hd).
  destruct (proj2 (Ha s ∅ ∅ (Some 65536) Hr (demo_mmaps s Hs))) as (a & s1 & H1 & _ & H2 & _).
  { destruct (new_rests demo_conf demo_conf_ok) as (s' & Hs' & _ & Hp). rewrite Hs in Hs'. injection Hs' as <-.
    intros (b & a & Hb & _). rewrite Hp in Hb. exact (not_elem_of_empty (C := gset Z) b Hb). }
  destruct (Hfree s1 _ ∅ a false H2) as (s2 & lost & H3 & H4 & _); [apply elem_of_union; left; by apply elem_of_singleton|].
  exists s, a, s1, s2. split_and!; [exact Hs | exact H1 | exact H3 |]. apply (Hd s2 lost).
  assert (({[a]} ∪ ∅) ∖ {[a]} = (∅ : gset Z)) as <- by (apply leibniz_equiv; intros x; rewrite elem_of_difference, elem_of_union, elem_of_empty; tauto).
  exact H4.
Defined.
End SlabProps.
