(* ===== verification/LittleEndian.v ===== *)
(** Unsigned integers as bytes, the lowest byte first, as the structures of
    src/fuse-3.17.2/include/fuse_kernel.h lie in memory; and how they are read from
    a region of cells. *)
From S2P Require Import Prelude.
From S2P Require Import CLib.

Module LittleEndian.

(** ** Definitions *)

(** [n] bytes of an unsigned integer. *)
Fixpoint le (n : nat) (z : Z) : list byte :=
  match n with
  | O => []
  | S n => default NUL (Byte.of_N (Z.to_N (z mod 256))) :: le n (z / 256)
  end.

(** The unsigned integer that the bytes stand for. *)
Fixpoint unle (l : list byte) : Z := match l with [] => 0 | b :: l => uchar b + 256 * unle l end.

(** A field of [n] bytes of a structure in memory. *)
Definition field (n : nat) (m : list cell) (off : Z) : outcome Z :=
  xs <- mem_read m off (Z.of_nat n) ;;
  l <- lift_fault UninitRead (init_bytes xs) ;;
  Ok (unle l).

Abbreviation u16_at := (field 2).
Abbreviation u32_at := (field 4).
Abbreviation u64_at := (field 8).

(** ** Lemmas *)

Lemma length_le n z : length (le n z) = n.
Proof. revert z. induction n as [|n IH]; intros z; cbn; [done | by rewrite IH]. Qed.

Lemma low_byte z : uchar (default NUL (Byte.of_N (Z.to_N (z mod 256)))) = z mod 256.
Proof.
  pose proof (Z.mod_pos_bound z 256 ltac:(lia)) as Hz. unfold uchar. destruct (Byte.of_N _) as [b|] eqn:Hb.
  - apply Byte.to_of_N in Hb. cbn. rewrite Hb. lia.
  - apply Byte.of_N_None_iff in Hb. lia.
Qed.

(** Read back, the integer is there modulo its width. *)
Lemma unle_le n : forall z, unle (le n z) = z mod 256 ^ Z.of_nat n.
Proof.
  induction n as [|n IH]; intros z; [by rewrite Z.mod_1_r|]. cbn [le unle]. rewrite low_byte, IH.
  rewrite Nat2Z.inj_succ, Z.pow_succ_r by lia. rewrite (Z.rem_mul_r z 256) by lia. done.
Qed.

Lemma unle_range l : 0 <= unle l < 256 ^ zlen l.
Proof.
  induction l as [|b l IH]; [by cbn|]. cbn [unle length]. rewrite Nat2Z.inj_succ, Z.pow_succ_r by lia.
  assert (0 <= uchar b < 256) as Hb by (by destruct b).
  lia.
Qed.

Lemma mem_read_init m off n xs l : mem_read m off n = Ok xs -> init_bytes xs = Some l -> zlen l = n.
Proof.
  intros Hm Hl. unfold mem_read in Hm. inv_ok. unfold init_bytes in Hl. apply length_mapM in Hl.
  rewrite <- Hl. rewrite zlen_ztake; [done|]. rewrite zlen_zdrop by lia. lia.
Qed.

(** A field holds a number of its width. *)
Lemma field_range n m off v : field n m off = Ok v -> 0 <= v < 256 ^ Z.of_nat n.
Proof.
  unfold field. intros H. inv_ok. pose proof (mem_read_init _ _ _ _ _ E E0) as Hl.
  rewrite <- Hl. apply unle_range.
Qed.

(** ** Structures *)

(** The fields of a structure one behind the other: the widths and the values. *)
Definition fields (l : list (nat * Z)) : list byte := concat ((fun '(n, v) => le n v) <$> l).

Lemma fields_cons n v l : fields ((n, v) :: l) = le n v ++ fields l.
Proof. done. Qed.

Lemma field_head n v l rest : field n (cells (fields ((n, v) :: l)) ++ rest) 0 = Ok (v mod 256 ^ Z.of_nat n).
Proof.
  rewrite fields_cons, cells_app, <- app_assoc. unfold field.
  rewrite mem_read_in by (rewrite ?zlen_app, ?zlen_cells, ?length_le; lia). cbn [obind].
  rewrite zdrop_0, ztake_app_exact by (by rewrite zlen_cells, length_le).
  rewrite init_bytes_cells. cbn [lift_fault obind]. by rewrite unle_le.
Qed.

Lemma field_skip n k v l rest off : Z.of_nat k <= off ->
  field n (cells (fields ((k, v) :: l)) ++ rest) off = field n (cells (fields l) ++ rest) (off - Z.of_nat k).
Proof.
  intros Ho. rewrite fields_cons, cells_app, <- app_assoc. unfold field, mem_read, guard_c.
  rewrite zlen_app, zlen_cells, length_le.
  replace (off + Z.of_nat n <=? Z.of_nat k + zlen (cells (fields l) ++ rest))
    with (off - Z.of_nat k + Z.of_nat n <=? zlen (cells (fields l) ++ rest)) by (apply eq_true_iff_eq; rewrite !Z.leb_le; lia).
  rewrite (proj2 (Z.leb_le 0 off)), (proj2 (Z.leb_le 0 (off - Z.of_nat k))) by lia.
  destruct (_ && _ && _); [|done]. cbn [obind]. rewrite zdrop_app_ge by (rewrite ?zlen_cells, ?length_le; lia).
  by rewrite zlen_cells, length_le.
Qed.

Lemma zlen_fields l : zlen (fields l) = Z.of_nat (sum_list (fst <$> l)).
Proof. induction l as [|[n v] l IH]; [done|]. rewrite fields_cons, zlen_app, length_le, IH. cbn. lia. Qed.

(** What lies behind a structure. *)
Lemma fields_behind l rest k : k = Z.of_nat (sum_list (fst <$> l)) -> zdrop k (cells (fields l) ++ rest) = rest.
Proof. intros ->. apply zdrop_app_exact. by rewrite zlen_cells, zlen_fields. Qed.

End LittleEndian.
