(* ===== verification/FuseKernel.v ===== *)
(** The constants of the kernel's protocol (src/fuse-3.17.2/include/fuse_kernel.h)
    that lib/fuse_lowlevel.c uses, and the header of a request. *)
From S2P Require Import Prelude.
From S2P Require Import CLib.
From S2P Require Import LittleEndian.

Module FuseKernel.
Import LittleEndian.

(** ** Definitions *)

Definition FUSE_KERNEL_VERSION : Z := 7.
Definition FUSE_KERNEL_MINOR_VERSION : Z := 40.

(** *** Opcodes *)
Definition FUSE_LOOKUP : Z := 1.
Definition FUSE_FORGET : Z := 2.
Definition FUSE_GETATTR : Z := 3.
Definition FUSE_SETATTR : Z := 4.
Definition FUSE_READLINK : Z := 5.
Definition FUSE_SYMLINK : Z := 6.
Definition FUSE_MKNOD : Z := 8.
Definition FUSE_MKDIR : Z := 9.
Definition FUSE_UNLINK : Z := 10.
Definition FUSE_RMDIR : Z := 11.
Definition FUSE_RENAME : Z := 12.
Definition FUSE_LINK : Z := 13.
Definition FUSE_OPEN : Z := 14.
Definition FUSE_READ : Z := 15.
Definition FUSE_WRITE : Z := 16.
Definition FUSE_STATFS : Z := 17.
Definition FUSE_RELEASE : Z := 18.
Definition FUSE_FSYNC : Z := 20.
Definition FUSE_SETXATTR : Z := 21.
Definition FUSE_GETXATTR : Z := 22.
Definition FUSE_LISTXATTR : Z := 23.
Definition FUSE_REMOVEXATTR : Z := 24.
Definition FUSE_FLUSH : Z := 25.
Definition FUSE_INIT : Z := 26.
Definition FUSE_OPENDIR : Z := 27.
Definition FUSE_READDIR : Z := 28.
Definition FUSE_RELEASEDIR : Z := 29.
Definition FUSE_FSYNCDIR : Z := 30.
Definition FUSE_GETLK : Z := 31.
Definition FUSE_SETLK : Z := 32.
Definition FUSE_SETLKW : Z := 33.
Definition FUSE_ACCESS : Z := 34.
Definition FUSE_CREATE : Z := 35.
Definition FUSE_INTERRUPT : Z := 36.
Definition FUSE_BMAP : Z := 37.
Definition FUSE_DESTROY : Z := 38.
Definition FUSE_IOCTL : Z := 39.
Definition FUSE_POLL : Z := 40.
Definition FUSE_NOTIFY_REPLY : Z := 41.
Definition FUSE_BATCH_FORGET : Z := 42.
Definition FUSE_FALLOCATE : Z := 43.
Definition FUSE_READDIRPLUS : Z := 44.
Definition FUSE_RENAME2 : Z := 45.
Definition FUSE_LSEEK : Z := 46.
Definition FUSE_COPY_FILE_RANGE : Z := 47.
Definition FUSE_TMPFILE : Z := 51.
Definition CUSE_INIT : Z := 4096.

(** *** Flags of INIT *)

Definition FUSE_ASYNC_READ : Z := Z.shiftl 1 0.
Definition FUSE_POSIX_LOCKS : Z := Z.shiftl 1 1.
Definition FUSE_ATOMIC_O_TRUNC : Z := Z.shiftl 1 3.
Definition FUSE_EXPORT_SUPPORT : Z := Z.shiftl 1 4.
Definition FUSE_BIG_WRITES : Z := Z.shiftl 1 5.
Definition FUSE_DONT_MASK : Z := Z.shiftl 1 6.
Definition FUSE_FLOCK_LOCKS : Z := Z.shiftl 1 10.
Definition FUSE_AUTO_INVAL_DATA : Z := Z.shiftl 1 12.
Definition FUSE_DO_READDIRPLUS : Z := Z.shiftl 1 13.
Definition FUSE_READDIRPLUS_AUTO : Z := Z.shiftl 1 14.
Definition FUSE_ASYNC_DIO : Z := Z.shiftl 1 15.
Definition FUSE_WRITEBACK_CACHE : Z := Z.shiftl 1 16.
Definition FUSE_NO_OPEN_SUPPORT : Z := Z.shiftl 1 17.
Definition FUSE_PARALLEL_DIROPS : Z := Z.shiftl 1 18.
Definition FUSE_HANDLE_KILLPRIV : Z := Z.shiftl 1 19.
Definition FUSE_POSIX_ACL : Z := Z.shiftl 1 20.
Definition FUSE_MAX_PAGES : Z := Z.shiftl 1 22.
Definition FUSE_CACHE_SYMLINKS : Z := Z.shiftl 1 23.
Definition FUSE_NO_OPENDIR_SUPPORT : Z := Z.shiftl 1 24.
Definition FUSE_EXPLICIT_INVAL_DATA : Z := Z.shiftl 1 25.
Definition FUSE_HANDLE_KILLPRIV_V2 : Z := Z.shiftl 1 28.
Definition FUSE_SETXATTR_EXT : Z := Z.shiftl 1 29.
Definition FUSE_INIT_EXT : Z := Z.shiftl 1 30.
Definition FUSE_HAS_EXPIRE_ONLY : Z := Z.shiftl 1 35.
Definition FUSE_DIRECT_IO_ALLOW_MMAP : Z := Z.shiftl 1 36.
Definition FUSE_PASSTHROUGH : Z := Z.shiftl 1 37.
Definition FUSE_NO_EXPORT_SUPPORT : Z := Z.shiftl 1 38.

(** *** Other flags *)

Definition FATTR_FH : Z := Z.shiftl 1 6.
Definition FOPEN_DIRECT_IO : Z := Z.shiftl 1 0.
Definition FOPEN_KEEP_CACHE : Z := Z.shiftl 1 1.
Definition FOPEN_NONSEEKABLE : Z := Z.shiftl 1 2.
Definition FOPEN_CACHE_DIR : Z := Z.shiftl 1 3.
Definition FOPEN_NOFLUSH : Z := Z.shiftl 1 5.
Definition FOPEN_PARALLEL_DIRECT_WRITES : Z := Z.shiftl 1 6.
Definition FOPEN_PASSTHROUGH : Z := Z.shiftl 1 7.
Definition FUSE_RELEASE_FLUSH : Z := Z.shiftl 1 0.
Definition FUSE_RELEASE_FLOCK_UNLOCK : Z := Z.shiftl 1 1.
Definition FUSE_GETATTR_FH : Z := Z.shiftl 1 0.
Definition FUSE_LK_FLOCK : Z := Z.shiftl 1 0.
Definition FUSE_WRITE_CACHE : Z := Z.shiftl 1 0.
Definition FUSE_POLL_SCHEDULE_NOTIFY : Z := Z.shiftl 1 0.

(** *** Sizes of structures *)

Definition FUSE_COMPAT_ENTRY_OUT_SIZE : Z := 120.
Definition FUSE_COMPAT_ATTR_OUT_SIZE : Z := 96.
Definition FUSE_COMPAT_MKNOD_IN_SIZE : Z := 8.
Definition FUSE_COMPAT_WRITE_IN_SIZE : Z := 24.
Definition FUSE_COMPAT_STATFS_SIZE : Z := 48.
Definition FUSE_COMPAT_SETXATTR_IN_SIZE : Z := 8.
Definition FUSE_COMPAT_INIT_OUT_SIZE : Z := 8.
Definition FUSE_COMPAT_22_INIT_OUT_SIZE : Z := 24.
Definition FUSE_MIN_READ_BUFFER : Z := 8192.

(** [sizeof(struct fuse_in_header)], [sizeof(struct fuse_out_header)] and
    [sizeof(struct fuse_write_in)] *)
Definition IN_HEADER_SIZE : Z := 40.
Definition OUT_HEADER_SIZE : Z := 16.
Definition WRITE_IN_SIZE : Z := 40.

(** *** The header of a request *)

Record fuse_in_header := mk_in_header {
  in_len : Z;
  opcode : Z;
  in_unique : Z;
  in_nodeid : Z;
  in_uid : Z;
  in_gid : Z;
  in_pid : Z;
}.

(** The structure at the start of a buffer; its last two fields are not read. *)
Definition read_in_header (m : list cell) : outcome fuse_in_header :=
  len <- u32_at m 0 ;;
  op <- u32_at m 4 ;;
  unique <- u64_at m 8 ;;
  nodeid <- u64_at m 16 ;;
  uid <- u32_at m 24 ;;
  gid <- u32_at m 28 ;;
  pid <- u32_at m 32 ;;
  Ok (mk_in_header len op unique nodeid uid gid pid).

End FuseKernel.
