(* ===== verification/Buffer.v ===== *)
(** * The growable byte buffer (src/src/buffer.c, include/buffer.h)

    [buffer] is the struct of include/buffer.h; the operations are the
    functions of src/buffer.c on it, with [size_t] arithmetic modulo 2^64 and
    the results of [malloc] and [realloc] used unchecked, as the source does.
    [buffer_wf] is the invariant the operations keep, [contents] what a buffer
    holds. *)
From S2P Require Import Prelude CLib.

Module Buffer.

Record buffer := mk_buffer {
  ptr : option (list cell);
  capacity : Z;
  size : Z;
}.

Definition buffer_new : buffer :=
  {| ptr := malloc 100; size := 0; capacity := 100 |}.

(** [free], then the struct is zeroed. *)
Definition buffer_free (buf : buffer) : buffer :=
  {| ptr := None; capacity := 0; size := 0 |}.

Definition buffer_push (st : buffer) (c : byte) : outcome buffer :=
  let st :=
    if st.(size) >=? st.(capacity)
    then let cap := u64 (u64 (st.(capacity) * 2) + 1) in
         {| ptr := realloc st.(ptr) cap; capacity := cap; size := st.(size) |}
    else st in
  p <- ptr_write st.(ptr) st.(size) [Byte c] ;;
  Ok {| ptr := p; capacity := st.(capacity); size := u64 (st.(size) + 1) |}.

Definition buffer_append (st : buffer) (data : list cell) (n : Z) : outcome buffer :=
  let st :=
    if u64 (st.(size) + n) >=? st.(capacity)
    then let cap := u64 (st.(capacity) + n) in
         {| ptr := realloc st.(ptr) cap; capacity := cap; size := st.(size) |}
    else st in
  xs <- mem_read data 0 n ;;
  p <- ptr_write st.(ptr) st.(size) xs ;;
  Ok {| ptr := p; capacity := st.(capacity); size := u64 (st.(size) + n) |}.

Definition buffer_insert (st : buffer) (pos : Z) (data : list cell) (n : Z)
    : outcome buffer :=
  let st :=
    if u64 (pos + n) >=? st.(capacity)
    then let cap := u64 (pos + n) in
         {| ptr := realloc st.(ptr) cap; capacity := cap; size := st.(size) |}
    else st in
  xs <- mem_read data 0 n ;;
  p <- ptr_write st.(ptr) pos xs ;;
  Ok {| ptr := p; capacity := st.(capacity);
        size := if st.(size) <? u64 (pos + n) then u64 (pos + n) else st.(size) |}.

(** A sequence of appends. *)
Fixpoint append_all (b : buffer) (chunks : list (list byte)) : outcome buffer :=
  match chunks with
  | [] => Ok b
  | c :: cs => b' <- buffer_append b (cells c) (zlen c) ;; append_all b' cs
  end.

(** ** Invariant and abstraction *)

(** The memory of a buffer is exactly its capacity, its size is within, and no
    cell past the size was ever written. *)
Definition buffer_wf (b : buffer) : Prop :=
  exists m, b.(ptr) = Some m /\ zlen m = b.(capacity) /\
    0 <= b.(size) <= b.(capacity) /\ 0 < b.(capacity) <= malloc_max /\
    zdrop b.(size) m = uninit (zlen m - b.(size)).

(** The cells a buffer holds. *)
Definition contents (b : buffer) : list cell :=
  match b.(ptr) with Some m => ztake b.(size) m | None => [] end.

(** What [buffer_insert] at [pos] does to contents: overwriting from [pos] on,
    after a gap of unwritten cells when [pos] is past the end. *)
Definition write_at (c : list cell) (pos : Z) (xs : list cell) : list cell :=
  ztake pos (c ++ uninit (pos - zlen c)) ++ xs ++ zdrop (pos + zlen xs) c.

Lemma zlen_contents b : buffer_wf b -> zlen (contents b) = b.(size).
Proof.
  intros (m & Hp & Hm & Hs & _). unfold contents. rewrite Hp.
  apply zlen_ztake. lia.
Qed.

Lemma buffer_new_wf : buffer_wf buffer_new.
Proof.
  exists (uninit 100). unfold malloc_max. simpl. split_and!; done || lia.
Qed.

(** Growing a buffer's memory keeps its contents and adds unwritten cells. *)
Lemma grow_memory m cap s :
  0 <= s <= zlen m -> zlen m <= cap <= malloc_max -> 0 < cap ->
  zdrop s m = uninit (zlen m - s) ->
  exists m', realloc (Some m) cap = Some m' /\ zlen m' = cap /\
    ztake s m' = ztake s m /\ zdrop s m' = uninit (cap - s).
Proof.
  intros Hs Hcap Hpos Hfresh. exists (m ++ uninit (cap - zlen m)).
  rewrite realloc_grow by lia. split; [done|]. split_and!.
  - rewrite zlen_app, zlen_uninit by lia. lia.
  - by rewrite ztake_app_le by lia.
  - rewrite zdrop_app_le by lia. rewrite Hfresh. unfold uninit.
    rewrite <- replicate_add. f_equal. lia.
Qed.

Lemma zdrop_uninit k n : 0 <= k <= n -> zdrop k (uninit n) = uninit (n - k).
Proof. intros. unfold zdrop, uninit. rewrite drop_replicate. f_equal. lia. Qed.

Lemma ztake_uninit k n : 0 <= k <= n -> ztake k (uninit n) = uninit k.
Proof. intros. unfold ztake, uninit. rewrite take_replicate. f_equal. lia. Qed.

(** Writing a window of the memory of a buffer, from inside its contents or
    past their end, is [write_at] on the contents. *)
Lemma write_window m s pos xs :
  0 <= s <= zlen m -> 0 <= pos -> pos + zlen xs <= zlen m ->
  zdrop s m = uninit (zlen m - s) ->
  let s' := s `max` (pos + zlen xs) in
  ztake s' (splice m pos xs) = write_at (ztake s m) pos xs /\
  zdrop s' (splice m pos xs) = uninit (zlen m - s').
Proof.
  intros Hs Hpos Hlen Hfresh s'.
  assert (m = ztake s m ++ uninit (zlen m - s)) as Hm.
  { by rewrite <- Hfresh, ztake_zdrop. }
  assert (zlen (ztake s m) = s) as Hts by (apply zlen_ztake; lia).
  set (c := ztake s m) in *.
  assert (splice m pos xs = write_at c pos xs ++ uninit (zlen m - s')) as Hsp.
  { unfold splice, write_at. rewrite Hm at 1 2. rewrite <- !app_assoc. f_equal.
    - destruct (Z.le_gt_cases pos s).
      + by rewrite !ztake_app_le by lia.
      + rewrite !ztake_app_ge by lia. by rewrite !ztake_uninit by lia.
    - f_equal. destruct (Z.le_gt_cases (pos + zlen xs) s).
      + rewrite zdrop_app_le by lia. f_equal. f_equal. lia.
      + rewrite zdrop_app_ge by lia. rewrite (zdrop_ge _ c) by lia.
        rewrite zdrop_uninit by lia. simpl. f_equal. lia. }
  assert (zlen (write_at c pos xs) = s') as Hw.
  { unfold write_at. rewrite !zlen_app.
    destruct (Z.le_gt_cases pos s).
    - rewrite ztake_app_le, zlen_ztake by lia.
      destruct (Z.le_gt_cases (pos + zlen xs) s).
      + rewrite zlen_zdrop by lia. lia.
      + rewrite zdrop_ge by lia. simpl. lia.
    - rewrite ztake_ge by (rewrite zlen_app, zlen_uninit; lia).
      rewrite zlen_app, zlen_uninit, zdrop_ge by lia. simpl. lia. }
  rewrite Hsp, ztake_app_exact, zdrop_app_exact by done. done.
Qed.

(** The common step of the three operations: memory is made large enough, then
    a window of it is written. *)
Lemma reserve_and_write b (grow : bool) cap pos xs :
  buffer_wf b -> 0 <= pos ->
  (if grow then b.(capacity) <= cap <= malloc_max /\ pos + zlen xs <= cap
   else pos + zlen xs <= b.(capacity)) ->
  let st := if grow then mk_buffer (realloc b.(ptr) cap) cap b.(size) else b in
  exists p, ptr_write st.(ptr) pos xs = Ok p /\
    let b' := mk_buffer p st.(capacity) (b.(size) `max` (pos + zlen xs)) in
    buffer_wf b' /\ contents b' = write_at (contents b) pos xs.
Proof.
  intros (m & Hp & Hm & Hs & Hc & Hfresh) Hpos Hcap st.
  assert (exists m', st.(ptr) = Some m' /\ zlen m' = st.(capacity) /\
    ztake b.(size) m' = ztake b.(size) m /\
    zdrop b.(size) m' = uninit (zlen m' - b.(size)) /\
    b.(size) `max` (pos + zlen xs) <= zlen m' /\ 0 < st.(capacity) <= malloc_max)
    as (m' & Hp' & Hm' & Ht & Hd & Hfit & Hst).
  { subst st. destruct grow; simpl; [|exists m; split_and!; done || lia].
    destruct (grow_memory m cap b.(size)) as (m' & Hr & Hl & Ht & Hd); try (done || lia).
    rewrite Hp, Hr. exists m'. rewrite Hl. split_and!; done || lia. }
  destruct (write_window m' b.(size) pos xs) as [Hw1 Hw2]; try (done || lia).
  exists (Some (splice m' pos xs)). split; [by rewrite Hp', ptr_write_in by lia|].
  split.
  - exists (splice m' pos xs). simpl. rewrite zlen_splice by lia.
    split_and!; done || lia.
  - unfold contents at 1. simpl. rewrite Hw1, Ht. unfold contents. by rewrite Hp.
Qed.

Lemma write_at_end c xs : write_at c (zlen c) xs = c ++ xs.
Proof.
  unfold write_at. rewrite Z.sub_diag, zdrop_ge by lia. unfold uninit. simpl.
  by rewrite !app_nil_r, ztake_ge by lia.
Qed.

(** Runs the write of an operation whose memory is large enough. *)
Ltac buffer_step b grow cap pos xs :=
  let p := fresh "p" in let Hw := fresh "Hw" in
  let Hwf := fresh "Hwf" in let Hcon := fresh "Hcon" in
  destruct (reserve_and_write b grow cap pos xs) as (p & Hw & Hwf & Hcon);
  [done | lia | unfold malloc_max; simpl; lia | cbn [ptr capacity size] in *; rewrite Hw; cbn [obind];
   rewrite ?u64_small by (unfold SIZE_MAX; lia); eexists; split; [reflexivity|] ].

(** ** Properties of the operations *)

(** [buffer_push] appends one byte, growing the memory when it is full. *)
Lemma buffer_push_spec b c :
  buffer_wf b -> b.(capacity) * 2 + 1 <= malloc_max ->
  exists b', buffer_push b c = Ok b' /\ buffer_wf b' /\
    contents b' = contents b ++ [Byte c].
Proof.
  intros Hwf Hmax. assert (Hwf' := Hwf). destruct Hwf' as (m & _ & _ & Hs & Hc & _).
  unfold malloc_max in *. unfold buffer_push.
  rewrite !(u64_small (b.(capacity) * 2)), !u64_small by (unfold SIZE_MAX; lia).
  rewrite <- write_at_end, zlen_contents by done.
  destruct (Z.geb_spec b.(size) b.(capacity)).
  - buffer_step b true (b.(capacity) * 2 + 1) b.(size) [Byte c].
    replace (b.(size) + 1) with (b.(size) `max` (b.(size) + zlen [Byte c])) by (simpl; lia).
    split; done.
  - buffer_step b false 0 b.(size) [Byte c].
    replace (b.(size) + 1) with (b.(size) `max` (b.(size) + zlen [Byte c])) by (simpl; lia).
    split; done.
Qed.

(** [buffer_append] appends its data. *)
Lemma buffer_append_spec b data :
  buffer_wf b -> b.(capacity) + zlen data <= malloc_max ->
  exists b', buffer_append b data (zlen data) = Ok b' /\ buffer_wf b' /\
    contents b' = contents b ++ data /\
    b'.(capacity) <= b.(capacity) + zlen data.
Proof.
  intros Hwf Hmax. assert (Hwf' := Hwf). destruct Hwf' as (m & _ & _ & Hs & Hc & _).
  unfold malloc_max in *. unfold buffer_append.
  rewrite !u64_small by (unfold SIZE_MAX; lia).
  rewrite mem_read_in, zdrop_0, ztake_ge by lia. cbn [obind].
  rewrite <- (write_at_end (contents b) data), zlen_contents by done.
  destruct (Z.geb_spec (b.(size) + zlen data) b.(capacity)).
  - buffer_step b true (b.(capacity) + zlen data) b.(size) data.
    replace (b.(size) + zlen data) with (b.(size) `max` (b.(size) + zlen data)) by lia.
    split_and!; done || (simpl; lia).
  - buffer_step b false 0 b.(size) data.
    replace (b.(size) + zlen data) with (b.(size) `max` (b.(size) + zlen data)) by lia.
    split_and!; done || (simpl; lia).
Qed.

(** [buffer_insert] overwrites from [pos] on; when [pos] is past the end, the
    bytes in between are never written. *)
Lemma buffer_insert_spec b pos data :
  buffer_wf b -> 0 <= pos -> pos + zlen data <= malloc_max ->
  exists b', buffer_insert b pos data (zlen data) = Ok b' /\ buffer_wf b' /\
    contents b' = write_at (contents b) pos data.
Proof.
  intros Hwf Hpos Hmax. assert (Hwf' := Hwf). destruct Hwf' as (m & _ & _ & Hs & Hc & _).
  unfold malloc_max in *. unfold buffer_insert.
  rewrite !u64_small by (unfold SIZE_MAX; lia).
  rewrite mem_read_in, zdrop_0, ztake_ge by lia. cbn [obind].
  assert ((if b.(size) <? pos + zlen data then pos + zlen data else b.(size))
    = b.(size) `max` (pos + zlen data)) as Hmx.
  { destruct (Z.ltb_spec b.(size) (pos + zlen data)); lia. }
  destruct (Z.geb_spec (pos + zlen data) b.(capacity)).
  - buffer_step b true (pos + zlen data) pos data. by rewrite Hmx.
  - buffer_step b false 0 pos data. by rewrite Hmx.
Qed.

(** Appending a sequence of chunks appends their concatenation. *)
Lemma append_all_spec chunks b :
  buffer_wf b -> b.(capacity) + zlen (concat chunks) <= malloc_max ->
  exists b', append_all b chunks = Ok b' /\ buffer_wf b' /\
    contents b' = contents b ++ cells (concat chunks).
Proof.
  revert b. induction chunks as [|c cs IH]; intros b Hwf Hmax; simpl.
  - exists b. by rewrite cells_nil, app_nil_r.
  - simpl in Hmax. rewrite zlen_app in Hmax.
    destruct (buffer_append_spec b (cells c)) as (b1 & H1 & Hwf1 & Hc1 & Hcap1);
      [done | rewrite zlen_cells; lia |].
    rewrite zlen_cells in *. rewrite H1. cbn [obind].
    destruct (IH b1) as (b2 & H2 & Hwf2 & Hc2); [done | lia |].
    exists b2. rewrite H2, Hc2, Hc1, cells_app, app_assoc. done.
Qed.

(** Inside the contents, [write_at] is a plain overwrite: no byte is left
    unwritten. *)
Lemma write_at_inside c pos xs :
  0 <= pos <= zlen c ->
  write_at c pos xs = ztake pos c ++ xs ++ zdrop (pos + zlen xs) c.
Proof. intros. unfold write_at. by rewrite ztake_app_le by lia. Qed.

Lemma write_at_gap c pos xs :
  zlen c <= pos -> write_at c pos xs = c ++ uninit (pos - zlen c) ++ xs.
Proof.
  intros. unfold write_at. rewrite ztake_ge by (rewrite zlen_app, zlen_uninit; lia).
  rewrite zdrop_ge by lia. by rewrite app_nil_r, app_assoc.
Qed.

End Buffer.
