(* ===== verification/Json.v ===== *)
(** * Reading fields of JSON responses (src/src/buffer.c)

    [parse_response_field_from_json] is a textual search, not a JSON parser:
    it looks for the first occurrence of the field's name anywhere in the text,
    skips two bytes after it (the closing quote and the colon) and copies up to
    the next comma or closing brace.  The theorems say when that is right, and
    what it returns otherwise. *)
From S2P Require Import Prelude CLib.

Module Json.

(** Returns the C result and what [dst] holds afterwards.  A missing field
    makes [strstr] return a null pointer, which the next line offsets and
    dereferences. *)
Definition parse_response_field_from_json (dst src : list cell) (field : list byte)
    : outcome (Z * list cell) :=
  i <- strstr src field ;;
  i <- lift_fault NullDeref i ;;
  let p := i + (zlen field + 2) in
  b <- load src p ;;
  let is_quoted := bool_decide (b = QUOTE) in
  if is_quoted then
    e <- strpbrk (zdrop p src) (lit ",}") ;;
    match e with
    | None => Ok (1, dst)
    | Some e => dst <- strncpy dst (zdrop (p + 1) src) (u64 (e - 2)) ;; Ok (0, dst)
    end
  else
    e <- strpbrk (zdrop p src) (lit ",}") ;;
    match e with
    | None => Ok (1, dst)
    | Some e => dst <- strncpy dst (zdrop p src) (u64 e) ;; Ok (0, dst)
    end.

Definition check_ok_status_in_json (json_response_buf : list cell) : outcome bool :=
  let is_ok := uninit 100 in
  let is_ok := memset0 (zlen is_ok) in
  let! (res, is_ok) := parse_response_field_from_json is_ok json_response_buf (lit "ok") in
  if negb (res =? 0) then Ok false
  else c <- strcmp is_ok (cstr (lit "true")) ;; Ok (bool_decide (c = Eq)).

(** ** What a field's text looks like *)

Definition is_stop (b : byte) : bool := bool_decide (b ∈ lit ",}").

(** [field_at s field pre sep v c post]: the text [s] holds the first occurrence
    of [field] after [pre]; two bytes [sep] later the value's text [v] starts,
    and runs up to the comma or brace [c]. *)
Definition field_at (s field pre sep v : list byte) (c : byte) (post : list byte) : Prop :=
  s = pre ++ field ++ sep ++ v ++ c :: post /\
  find_sub field s = Some (zlen pre) /\ length sep = 2%nat /\
  Forall (fun b => is_stop b = false) v /\ is_stop c = true.

Lemma not_stop_not_NUL s : NUL ∉ s -> forall t u, s = t ++ u -> NUL ∉ u.
Proof. intros Hs t u ->. intros Hu. apply Hs. apply elem_of_app. by right. Qed.

Lemma zget_app_exact {A} (l1 l2 : list A) i x :
  i = zlen l1 -> zget (l1 ++ x :: l2) i = Some x.
Proof. intros ->. rewrite zget_nat. by apply list_lookup_middle. Qed.

Lemma load_at pre b post i :
  i = zlen pre -> load (cells pre ++ Byte b :: post) i = Ok b.
Proof. intros ->. unfold load. by rewrite zget_app_exact by (by rewrite zlen_cells). Qed.

Section field.
Context (src : list cell) (s field pre sep v : list byte) (c : byte) (post : list byte).
Context (Hs : c_string src = Ok s) (Hf : field_at s field pre sep v c post).

Let p := zlen pre + (zlen field + 2).

(** The region from the value on. *)
Lemma field_region :
  exists rest, zdrop p src = cells v ++ Byte c :: cells post ++ Byte NUL :: rest /\
  (NUL ∉ v ++ c :: post) /\
  src = cells (pre ++ field ++ sep) ++ cells v ++ Byte c :: cells post ++ Byte NUL :: rest.
Proof using All.
  destruct Hf as (Heq & _ & Hsep & _ & _).
  apply c_string_inv in Hs as (rest & -> & Hn).
  exists rest. subst s. split_and!.
  - unfold p. autorewrite with clib. rewrite <- !app_assoc. simpl.
  rewrite (app_assoc (cells pre)), (app_assoc _ (cells sep)).
  apply zdrop_app_exact. autorewrite with clib. lia.
  - apply (not_stop_not_NUL _ Hn (pre ++ field ++ sep)). by rewrite <- !app_assoc.
  - autorewrite with clib. rewrite <- !app_assoc. done.
Qed.

Lemma field_strstr : strstr src field = Ok (Some (zlen pre)).
Proof using All.
  unfold strstr. rewrite Hs. simpl. by destruct Hf as (_ & -> & _).
Qed.

Lemma field_end : strpbrk (zdrop p src) (lit ",}") = Ok (Some (zlen v)).
Proof using All.
  destruct field_region as (rest & -> & Hn & _). unfold strpbrk.
  rewrite app_comm_cons, app_assoc, <- cells_cons, <- cells_app, c_string_app by done.
  destruct Hf as (_ & _ & _ & Hv & Hc). cbn [obind].
  by rewrite (find_pos_app _ v c post).
Qed.

(** A value that does not start with a quote is copied whole. *)
Lemma parse_unquoted dst :
  hd_error (v ++ [c]) <> Some QUOTE -> zlen v <= zlen dst -> zlen dst <= SIZE_MAX ->
  parse_response_field_from_json dst src field =
  Ok (0, cells v ++ zdrop (zlen v) dst).
Proof using All.
  intros Hq Hlen Hmax. unfold parse_response_field_from_json.
  rewrite field_strstr. cbn [obind lift_fault]. fold p.
  destruct field_region as (rest & Hr & Hn & Hsrc).
  assert (exists b, load src p = Ok b /\ b <> QUOTE) as (b & Hb & Hbq).
  { rewrite Hsrc. destruct Hf as (_ & _ & Hsep & _).
  destruct v as [|b v']; simpl in Hq; [exists c | exists b]; (split; [|congruence]);
    apply load_at; unfold p; autorewrite with clib; lia. }
  rewrite Hb. cbn [obind]. rewrite bool_decide_eq_false_2 by done.
  rewrite field_end. cbn [obind]. rewrite u64_small by lia.
  rewrite Hr, strncpy_exact; [done | | done].
  intros Hv. apply Hn, elem_of_app. by left.
Qed.

(** A quoted value is copied without its quotes. *)
Lemma parse_quoted dst w :
  v = QUOTE :: w ++ [QUOTE] -> zlen w <= zlen dst -> zlen dst <= SIZE_MAX ->
  parse_response_field_from_json dst src field =
  Ok (0, cells w ++ zdrop (zlen w) dst).
Proof using All.
  intros Hv Hlen Hmax. unfold parse_response_field_from_json.
  rewrite field_strstr. cbn [obind lift_fault]. fold p.
  destruct field_region as (rest & Hr & Hn & Hsrc).
  assert (load src p = Ok QUOTE) as ->.
  { rewrite Hsrc, Hv. destruct Hf as (_ & _ & Hsep & _).
  apply load_at. unfold p. autorewrite with clib. lia. }
  cbn [obind]. rewrite bool_decide_eq_true_2 by done.
  rewrite field_end. cbn [obind].
  replace (zlen v - 2) with (zlen w)
  by (rewrite Hv; simpl; rewrite length_app; simpl; lia).
  rewrite u64_small by lia.
  assert (zdrop (p + 1) src = cells w ++ Byte QUOTE :: Byte c :: cells post ++ Byte NUL :: rest)
  as ->.
  { rewrite <- zdrop_zdrop by (unfold p; lia). rewrite Hr, Hv. autorewrite with clib.
  simpl. by rewrite <- app_assoc. }
  rewrite strncpy_exact; [done | | done].
  intros Hw. apply Hn, elem_of_app. left. rewrite Hv. apply elem_of_cons. right.
  apply elem_of_app. by left.
Qed.
End field.

(** A text without the field faults. *)
Lemma parse_missing dst src s field :
  c_string src = Ok s -> find_sub field s = None ->
  parse_response_field_from_json dst src field = Fail NullDeref.
Proof.
  intros Hs Hf. unfold parse_response_field_from_json, strstr. by rewrite Hs; simpl; rewrite Hf.
Qed.

(** The status check on a text with an unquoted "ok" field. *)
Lemma check_ok_value src s pre sep v c post :
  c_string src = Ok s -> field_at s (lit "ok") pre sep v c post ->
  hd_error (v ++ [c]) <> Some QUOTE -> zlen v < 100 ->
  check_ok_status_in_json src = Ok (bool_decide (v = lit "true")).
Proof.
  intros Hs Hf Hq Hlen. unfold check_ok_status_in_json.
  rewrite (parse_unquoted src s (lit "ok") pre sep v c post) by
    (try done; unfold SIZE_MAX; simpl; lia).
  cbn [obind]. simpl (negb _).
  apply strcmp_eqb; [|apply c_string_cstr; no_NUL].
  destruct (field_region src s (lit "ok") pre sep v c post Hs Hf) as (rest & _ & Hn & _).
  assert (zdrop (zlen v) (memset0 (zlen (uninit 100)))
    = Byte NUL :: replicate (99 - length v) (Byte NUL)) as ->.
  { unfold zdrop, memset0, uninit. rewrite length_replicate, drop_replicate.
    rewrite <- replicate_S. f_equal. lia. }
  apply c_string_app. intros Hv. apply Hn, elem_of_app. by left.
Qed.

End Json.
