(* ===== verification/TgFile.v ===== *)
(** * Files of the storage (src/src/tg_file.c, tg_config.c and their headers)

    [tg_file] is the struct of include/tg_file.h: three character arrays of 100
    bytes, a size and a type.  Its constructors and the two functions that take
    a path apart are here; the ones that talk to the network are in TgApi. *)
From S2P Require Import Prelude CLib.

Module TgFile.

Definition FILE_ID_SIZE : Z := 100.
Definition MESSAGE_ID_SIZE : Z := 100.
Definition FILE_PATH_SIZE : Z := 100.
Definition CHAT_ID_SIZE : Z := 100.
Definition TOKEN_SIZE : Z := 100.

Record tg_config := mk_config {
  chat_id : list cell;
  token : list cell;
}.

Definition tg_config_new (chat token : list byte) : outcome tg_config :=
  c <- strcpy (uninit CHAT_ID_SIZE) (cstr chat) ;;
  t <- strcpy (uninit TOKEN_SIZE) (cstr token) ;;
  Ok (mk_config c t).

Inductive tg_file_type := TG_FILE | TG_DIR.

#[global] Instance tg_file_type_eq_dec : EqDecision tg_file_type.
Proof. solve_decision. Defined.

Record tg_file := mk_file {
  path : list cell;
  file_id : list cell;
  message_id : list cell;
  file_size : Z;
  type : tg_file_type;
}.

#[global] Instance tg_file_eq_dec : EqDecision tg_file.
Proof. solve_decision. Defined.

(** [(tg_file){0}]: [TG_FILE] is the enumerator 0. *)
Definition tg_file_zero : tg_file :=
  {| path := memset0 FILE_PATH_SIZE; file_id := memset0 FILE_ID_SIZE;
     message_id := memset0 MESSAGE_ID_SIZE; file_size := 0; type := TG_FILE |}.

Definition with_path (f : tg_file) p :=
  mk_file p f.(file_id) f.(message_id) f.(file_size) f.(type).
Definition with_file_id (f : tg_file) i :=
  mk_file f.(path) i f.(message_id) f.(file_size) f.(type).
Definition with_message_id (f : tg_file) i :=
  mk_file f.(path) f.(file_id) i f.(file_size) f.(type).
Definition with_file_size (f : tg_file) n :=
  mk_file f.(path) f.(file_id) f.(message_id) n f.(type).
Definition with_type (f : tg_file) t :=
  mk_file f.(path) f.(file_id) f.(message_id) f.(file_size) t.

(** A [const char *path] argument is the string it points to. *)
Definition tg_file_new_file (p : list byte) (size : Z) : outcome tg_file :=
  let file := tg_file_zero in
  let file := with_type file TG_FILE in
  let file := with_file_size file size in
  p' <- strcpy file.(path) (cstr p) ;;
  Ok (with_path file p').

Definition tg_file_new_dir (p : list byte) : outcome tg_file :=
  let file := tg_file_zero in
  let file := with_type file TG_DIR in
  p' <- strcpy file.(path) (cstr p) ;;
  Ok (with_path file p').

(** The last component of a path; the copy includes the final NUL. *)
Definition tg_file_extract_filename (dst : list cell) (file : tg_file) : outcome (list cell) :=
  p <- strrchr file.(path) SLASH ;;
  len <- strlen file.(path) ;;
  p <- lift_fault NullDeref p ;;
  let n := len - p in
  xs <- mem_read file.(path) (p + 1) n ;;
  dst <- mem_write dst 0 xs ;;
  mem_write dst n [Byte NUL].

(** The first component of a path, with its slash; the root for a path that
    has only one. *)
Definition tg_file_extract_directory (dst : list cell) (file : tg_file) : outcome (list cell) :=
  start <- strchr file.(path) SLASH ;;
  start <- lift_fault NullDeref start ;;
  stop <- strchr (zdrop (start + 1) file.(path)) SLASH ;;
  match stop with
  | None =>
      dst <- mem_write dst 0 [Byte SLASH] ;;
      mem_write dst 1 [Byte NUL]
  | Some e =>
      let n := start + 1 + e - start in
      xs <- mem_read file.(path) start n ;;
      dst <- mem_write dst 0 xs ;;
      mem_write dst n [Byte NUL]
  end.

(** ** What the path functions compute *)

(** The text after the last slash. *)
Fixpoint basename (s : list byte) : list byte :=
  match s with
  | [] => []
  | b :: s' => if decide (SLASH ∈ s') then basename s'
               else if decide (b = SLASH) then s' else b :: s'
  end.

(** The text up to the first slash. *)
Fixpoint until_slash (s : list byte) : list byte :=
  match s with
  | [] => []
  | b :: s' => if decide (b = SLASH) then [] else b :: until_slash s'
  end.

(** The directory the program files a path under: for "/a" the root, for
    "/d/a" and for "/d/e/a" alike "/d". *)
Definition top_dir (s : list byte) : list byte :=
  match s with
  | [] => []
  | _ :: s' => if decide (SLASH ∈ s') then SLASH :: until_slash s' else [SLASH]
  end.

(** An absolute path as libfuse passes them, short enough for the array. *)
Definition good_path (s : list byte) : Prop :=
  hd_error s = Some SLASH /\ (NUL ∉ s) /\ zlen s < FILE_PATH_SIZE.

#[global] Instance good_path_dec s : Decision (good_path s).
Proof. unfold good_path. apply _. Defined.

(** An array of 100 bytes that holds an identifier and is zero after it: the
    parser copies identifiers without a NUL, so the zeros end them. *)
Definition id_array (a : list cell) (w : list byte) : Prop :=
  a = cells w ++ memset0 (100 - zlen w) /\ (NUL ∉ w) /\ zlen w < 100.

(** The arrays have their sizes and hold strings; the path is absolute. *)
Record file_wf (f : tg_file) : Prop := {
  wf_path_len : zlen f.(path) = FILE_PATH_SIZE;
  wf_path : exists s, c_string f.(path) = Ok s /\ good_path s;
  wf_id : exists w, id_array f.(file_id) w;
  wf_msg : exists w, id_array f.(message_id) w;
  wf_size : 0 <= f.(file_size) <= SIZE_MAX;
}.

(** The string in an array, the empty one when there is none. *)
Definition str_of (m : list cell) : list byte :=
  match c_string m with Ok s => s | Fail _ => [] end.

Definition path_of (f : tg_file) : list byte := str_of f.(path).

Lemma str_of_Ok m s : c_string m = Ok s -> str_of m = s.
Proof. unfold str_of. by intros ->. Qed.

Lemma c_string_str_of m s : c_string m = Ok s -> c_string m = Ok (str_of m).
Proof. intros H. by rewrite (str_of_Ok m s). Qed.

Lemma wf_path_of f : file_wf f -> c_string f.(path) = Ok (path_of f) /\ good_path (path_of f).
Proof.
  intros [_ (s & Hs & Hg) _ _ _]. unfold path_of. by rewrite (str_of_Ok _ _ Hs).
Qed.

Lemma memset0_string n : 0 < n -> c_string (memset0 n) = Ok [].
Proof.
  intros. unfold memset0. replace (Z.to_nat n) with (S (Z.to_nat (n - 1))) by lia. done.
Qed.

Lemma zlen_memset0 n : 0 <= n -> zlen (memset0 n) = n.
Proof. intros. unfold memset0. rewrite length_replicate. lia. Qed.

(** The array after [strcpy] of a string that fits. *)
Lemma strcpy_array dst s :
  NUL ∉ s -> zlen s < zlen dst ->
  exists a, strcpy dst (cstr s) = Ok a /\ zlen a = zlen dst /\ c_string a = Ok s.
Proof.
  intros Hs Hlen. eexists. rewrite strcpy_fits by (done || lia).
  split; [done|]. split.
  - rewrite zlen_app, zlen_cstr, zlen_zdrop by lia. lia.
  - unfold cstr. rewrite <- app_assoc. by apply c_string_app.
Qed.

Lemma id_array_string a w : id_array a w -> c_string a = Ok w.
Proof.
  intros (-> & Hn & Hl). unfold memset0.
  replace (Z.to_nat (100 - zlen w)) with (S (Z.to_nat (99 - zlen w))) by lia.
  by apply c_string_app.
Qed.

Lemma id_array_len a w : id_array a w -> zlen a = 100.
Proof. intros (-> & _ & ?). rewrite zlen_app, zlen_cells, zlen_memset0 by lia. lia. Qed.

Lemma id_array_str a w : id_array a w -> str_of a = w.
Proof. intros H. by apply str_of_Ok, id_array_string. Qed.

Lemma id_array_empty : id_array (memset0 100) [].
Proof. split; [done|]. split; [apply not_elem_of_nil | simpl; lia]. Qed.

(** Copying an identifier over an empty array. *)
Lemma id_array_fill w :
  (NUL ∉ w) -> zlen w < 100 -> id_array (cells w ++ zdrop (zlen w) (memset0 100)) w.
Proof.
  intros Hn Hl. split; [|done]. f_equal. unfold zdrop, memset0.
  rewrite drop_replicate. f_equal. lia.
Qed.

(** The two constructors build the file their arguments describe ... *)
Lemma new_file_spec p size :
  good_path p -> 0 <= size <= SIZE_MAX ->
  exists f, tg_file_new_file p size = Ok f /\ file_wf f /\ path_of f = p /\
    type f = TG_FILE /\ file_size f = size /\ str_of f.(file_id) = [] /\ str_of f.(message_id) = [].
Proof.
  intros (Hh & Hn & Hl) Hsize. unfold tg_file_new_file. simpl.
  destruct (strcpy_array (memset0 FILE_PATH_SIZE) p) as (a & -> & Hlen & Hstr);
    [done | by rewrite zlen_memset0 by (unfold FILE_PATH_SIZE; lia) |].
  eexists. split; [done|]. unfold path_of. simpl. rewrite (str_of_Ok _ _ Hstr).
  split_and!; try done.
  split; simpl; try done; [by exists p | |]; exists []; apply id_array_empty.
Qed.

Lemma new_dir_spec p :
  good_path p ->
  exists f, tg_file_new_dir p = Ok f /\ file_wf f /\ path_of f = p /\
    type f = TG_DIR /\ file_size f = 0 /\ str_of f.(file_id) = [] /\ str_of f.(message_id) = [].
Proof.
  intros (Hh & Hn & Hl). unfold tg_file_new_dir. simpl.
  destruct (strcpy_array (memset0 FILE_PATH_SIZE) p) as (a & -> & Hlen & Hstr);
    [done | by rewrite zlen_memset0 by (unfold FILE_PATH_SIZE; lia) |].
  eexists. split; [done|]. unfold path_of. simpl. rewrite (str_of_Ok _ _ Hstr).
  split_and!; try done.
  split; simpl; try done; [by exists p | |]; exists []; apply id_array_empty.
Qed.

(** ... and write outside their array when the path has 100 bytes or more. *)
Lemma new_file_overflow p size :
  NUL ∉ p -> FILE_PATH_SIZE <= zlen p -> tg_file_new_file p size = Fail OutOfBounds.
Proof.
  intros. unfold tg_file_new_file. simpl.
  rewrite strcpy_overflow; [done | done |].
  rewrite zlen_memset0 by (unfold FILE_PATH_SIZE; lia). lia.
Qed.

Lemma new_dir_overflow p :
  NUL ∉ p -> FILE_PATH_SIZE <= zlen p -> tg_file_new_dir p = Fail OutOfBounds.
Proof.
  intros. unfold tg_file_new_dir. simpl.
  rewrite strcpy_overflow; [done | done |].
  rewrite zlen_memset0 by (unfold FILE_PATH_SIZE; lia). lia.
Qed.

(** ** Taking paths apart *)

Lemma basename_split a c : SLASH ∉ c -> basename (a ++ SLASH :: c) = c.
Proof.
  intros Hc. induction a as [|b a IH]; simpl.
  - by rewrite decide_False.
  - rewrite decide_True; [done|]. apply elem_of_app. right. apply elem_of_cons. by left.
Qed.

Lemma until_slash_split s :
  SLASH ∈ s -> exists t, s = until_slash s ++ SLASH :: t /\ SLASH ∉ until_slash s.
Proof.
  induction s as [|b s IH]; [by intros ?%elem_of_nil|].
  intros Hin. simpl. destruct (decide (b = SLASH)) as [->|Hb].
  - exists s. split; [done | apply not_elem_of_nil].
  - apply elem_of_cons in Hin as [?|Hin]; [congruence|].
    destruct (IH Hin) as (t & Ht & Hn). exists t. simpl. split; [congruence|].
    by apply not_elem_of_cons.
Qed.

Lemma Forall_not_slash s :
  SLASH ∉ s <-> Forall (fun b => bool_decide (b = SLASH) = false) s.
Proof.
  rewrite Forall_forall. split.
  - intros Hn b Hb. apply bool_decide_eq_false_2. intros ->. done.
  - intros H Hin. by apply H, bool_decide_eq_false_1 in Hin.
Qed.

(** Writing a string and a NUL after it makes the array hold the string. *)
Lemma write_string dst t xs n :
  (NUL ∉ t) -> xs = cells t \/ xs = cstr t -> n = zlen xs -> zlen xs < zlen dst ->
  exists a, (d <- mem_write dst 0 xs ;; mem_write d n [Byte NUL]) = Ok a /\
    zlen a = zlen dst /\ c_string a = Ok t.
Proof.
  intros Ht Hxs -> Hlen. rewrite mem_write_in by lia. cbn [obind].
  rewrite mem_write_in by (rewrite ?zlen_splice by lia; simpl; lia).
  eexists. split; [done|]. split; [rewrite !zlen_splice; rewrite ?zlen_splice; simpl; lia|].
  unfold splice at 1. rewrite (ztake_splice_ge dst 0 xs) by lia.
  unfold splice. rewrite ztake_0, zdrop_ge, app_nil_r by (rewrite zlen_ztake; lia).
  simpl. destruct Hxs as [-> | ->]; [by apply c_string_app|].
  unfold cstr. rewrite <- app_assoc. by apply c_string_app.
Qed.

Lemma extract_filename_spec f dst :
  file_wf f -> zlen dst = FILE_PATH_SIZE ->
  exists a, tg_file_extract_filename dst f = Ok a /\ zlen a = zlen dst /\
    c_string a = Ok (basename (path_of f)).
Proof.
  intros Hwf Hdst. destruct (wf_path_of f Hwf) as [Hs (Hh & Hn & Hl)].
  set (s := path_of f) in *. unfold tg_file_extract_filename, strrchr, strlen.
  rewrite Hs. cbn [obind].
  destruct (find_last _ s) as [i|] eqn:Ei.
  2: { apply find_last_None, Forall_not_slash in Ei. destruct s; [done|].
       injection Hh as ->. exfalso. apply Ei, elem_of_cons. by left. }
  apply find_last_Some in Ei as (u & b & v & Heq & Hi & Hb & Hv).
  apply bool_decide_eq_true_1 in Hb as ->. apply Forall_not_slash in Hv.
  cbn [lift_fault obind].
  apply c_string_inv in Hs as (rest & Hp & _).
  assert (mem_read f.(path) (i + 1) (zlen s - i) = Ok (cstr v)) as ->.
  { assert (f.(path) = (cells u ++ [Byte SLASH]) ++ cstr v ++ rest) as ->.
    { rewrite Hp, Heq. unfold cstr. rewrite cells_app, cells_cons, <- !app_assoc. done. }
    apply mem_read_mid; rewrite ?zlen_cstr, ?Heq, ?zlen_app, ?zlen_cells; simpl; lia. }
  cbn [obind]. assert (zlen s = zlen u + 1 + zlen v) as Hlen.
  { rewrite Heq, zlen_app. simpl. lia. }
  assert (basename s = v) as -> by (rewrite Heq; by apply basename_split).
  apply write_string; [|by right| |]; rewrite ?zlen_cstr; try lia.
  intros Hx. apply Hn. rewrite Heq. apply elem_of_app. right. apply elem_of_cons. by right.
Qed.

Lemma extract_directory_spec f dst :
  file_wf f -> zlen dst = FILE_PATH_SIZE ->
  exists a, tg_file_extract_directory dst f = Ok a /\ zlen a = zlen dst /\
    c_string a = Ok (top_dir (path_of f)).
Proof.
  intros Hwf Hdst. destruct (wf_path_of f Hwf) as [Hs (Hh & Hn & Hl)].
  set (s := path_of f) in *. unfold tg_file_extract_directory, strchr at 1.
  rewrite Hs. cbn [obind]. destruct s as [|b s']; [done|]. injection Hh as ->.
  simpl (find_pos _ _). cbn [lift_fault obind].
  apply c_string_inv in Hs as (rest & Hp & _).
  apply not_elem_of_cons in Hn as [_ Hn].
  assert (c_string (zdrop (0 + 1) f.(path)) = Ok s') as Hs'.
  { rewrite Hp, cells_cons. by apply c_string_app. }
  unfold strchr. rewrite Hs'. cbn [obind]. unfold FILE_PATH_SIZE in *. simpl in Hl.
  unfold top_dir. destruct (decide (SLASH ∈ s')) as [Hin|Hin].
  - destruct (until_slash_split s' Hin) as (t & Ht & Hu).
    revert Ht Hu. generalize (until_slash s'). intros u Ht Hu. subst s'.
    rewrite find_pos_app; [|by apply Forall_not_slash | by apply bool_decide_eq_true_2].
    rewrite length_app in Hl. simpl in Hl.
    set (n := 0 + 1 + zlen u - 0).
    assert (mem_read f.(path) 0 n = Ok (cells (SLASH :: u))) as ->.
    { assert (f.(path) = [] ++ cells (SLASH :: u) ++
        Byte SLASH :: cells t ++ Byte NUL :: rest) as ->.
      { rewrite Hp, app_comm_cons, cells_app, cells_cons, <- app_assoc. done. }
      apply mem_read_mid; [done|]. rewrite zlen_cells. unfold n. simpl. lia. }
    cbn [obind].
    apply write_string; [|by left| |]; rewrite ?zlen_cells; unfold n; simpl; try lia.
    apply not_elem_of_cons. split; [done|]. intros Hx. apply Hn. apply elem_of_app. by left.
  - apply Forall_not_slash in Hin as Hf. rewrite (proj2 (find_pos_None _ _)) by done.
    apply (write_string dst [SLASH]); [no_NUL | by left | done | simpl; lia].
Qed.

End TgFile.
