(* ===== verification/TgStorage.v ===== *)
(** * The table of files (src/src/tg_storage.c, include/tg_storage.h)

    A growable array of [tg_file]s, searched linearly by path.  Slots that were
    allocated and never assigned are [None].  [rep st fs] says that a storage
    holds the list [fs]; each operation is characterised by what it does to that
    list. *)
From S2P Require Import Prelude CLib TgFile.
Import TgFile.

Module TgStorage.

Record tg_storage := mk_storage {
  files : option (list (option tg_file));
  size : Z;
  cap : Z;
}.

Definition SIZEOF_TG_FILE : Z := 320.

(** [realloc] of the array to [n] slots. *)
Definition realloc_files (p : option (list (option tg_file))) (n : Z)
    : option (list (option tg_file)) :=
  let bytes := u64 (SIZEOF_TG_FILE * u64 n) in
  if malloc_max <? bytes then None
  else match p with
       | None => Some (replicate (Z.to_nat n) None)
       | Some slots => if bytes =? 0 then None else Some (resize (Z.to_nat n) None slots)
       end.

(** The slot at index [i], assigned or not. *)
Definition slot (p : option (list (option tg_file))) (i : Z) : outcome (option tg_file) :=
  slots <- lift_fault NullDeref p ;; lift_fault OutOfBounds (zget slots i).

(** The file at index [i], read to decide something. *)
Definition file_at (p : option (list (option tg_file))) (i : Z) : outcome tg_file :=
  f <- slot p i ;; lift_fault UninitRead f.

Definition set_slot (p : option (list (option tg_file))) (i : Z) (f : option tg_file)
    : outcome (option (list (option tg_file))) :=
  slots <- lift_fault NullDeref p ;;
  lift_fault OutOfBounds (zget slots i) ;;
  Ok (Some (<[Z.to_nat i := f]> slots)).

(** The result of an [int] computation, which must not overflow. *)
Definition int_result (z : Z) : outcome Z :=
  guard_c ((- INT_MAX - 1 <=? z) && (z <=? INT_MAX)) SignedOverflow ;; Ok z.

Definition tg_storage_new : tg_storage :=
  {| files := Some (replicate 2 None); size := 0; cap := 2 |}.

Definition tg_storage_free (st : tg_storage) : tg_storage :=
  {| files := None; size := 0; cap := 0 |}.

Definition tg_storage_push (st : tg_storage) (f : tg_file) : outcome tg_storage :=
  st <- (if st.(size) >=? st.(cap) then
           c2 <- int_result (st.(cap) * 2) ;;
           c <- int_result (c2 + 1) ;;
           Ok (mk_storage (realloc_files st.(files) c) st.(size) c)
         else Ok st) ;;
  fs <- set_slot st.(files) st.(size) (Some f) ;;
  n <- int_result (st.(size) + 1) ;;
  Ok (mk_storage fs n st.(cap)).

Definition tg_storage_pop (st : tg_storage) : outcome (tg_file * tg_storage) :=
  if st.(size) <=? 0 then Fail AssertFailed
  else
    let st :=
      if st.(size) <? Z.quot st.(cap) 2 then
        let c := Z.quot st.(cap) 2 in
        mk_storage (realloc_files st.(files) c) st.(size) c
      else st in
    f <- file_at st.(files) (st.(size) - 1) ;;
    Ok (f, mk_storage st.(files) (st.(size) - 1) st.(cap)).

(** The loop of [tg_storage_find_by_path], [n] iterations from [i] on. *)
Fixpoint find_by_path_loop (p : option (list (option tg_file))) (target : list cell)
    (i : Z) (n : nat) : outcome (option Z) :=
  match n with
  | O => Ok None
  | S n' =>
      f <- file_at p i ;;
      c <- strcmp f.(path) target ;;
      if bool_decide (c = Eq) then Ok (Some i)
      else find_by_path_loop p target (i + 1) n'
  end.

(** The pointer returned is the index of the slot it points to. *)
Definition tg_storage_find_by_path (st : tg_storage) (target : list cell)
    : outcome (option Z) :=
  find_by_path_loop st.(files) target 0 (Z.to_nat st.(size)).

(** The hole left by the removed file is filled with the last one. *)
Definition tg_storage_remove_by_path (st : tg_storage) (target : list cell)
    : outcome (tg_file * tg_storage) :=
  if st.(size) =? 0 then Ok (tg_file_zero, st)
  else
    i <- find_by_path_loop st.(files) target 0 (Z.to_nat st.(size)) ;;
    match i with
    | Some i =>
        file <- file_at st.(files) i ;;
        last <- slot st.(files) (st.(size) - 1) ;;
        fs <- set_slot st.(files) i last ;;
        Ok (file, mk_storage fs (st.(size) - 1) st.(cap))
    | None => Ok (tg_file_zero, st)
    end.

Fixpoint find_files_loop (p : option (list (option tg_file))) (dir : list cell)
    (i : Z) (n : nat) : outcome Z :=
  match n with
  | O => Ok (-1)
  | S n' =>
      f <- file_at p i ;;
      c <- strcmp f.(path) dir ;;
      if bool_decide (c <> Eq) then
        file_dir <- tg_file_extract_directory (uninit 100) f ;;
        c <- strcmp file_dir dir ;;
        if bool_decide (c = Eq) then Ok i
        else find_files_loop p dir (i + 1) n'
      else find_files_loop p dir (i + 1) n'
  end.

Definition tg_storage_find_files_by_dir (st : tg_storage) (dir : list cell)
    (to_search_from : Z) : outcome Z :=
  find_files_loop st.(files) dir to_search_from (Z.to_nat (st.(size) - to_search_from)).

(** ** The list a storage holds *)

Definition rep (st : tg_storage) (fs : list tg_file) : Prop :=
  exists rest, st.(files) = Some ((Some <$> fs) ++ rest) /\
    zlen fs + zlen rest = st.(cap) /\ 0 < st.(cap) <= INT_MAX /\
    st.(size) = zlen fs /\ Forall file_wf fs.

(** The files the program lists in directory [d]. *)
Definition in_dir (d : list byte) (f : tg_file) : Prop :=
  path_of f <> d /\ top_dir (path_of f) = d.

#[global] Instance in_dir_dec d f : Decision (in_dir d f).
Proof. unfold in_dir. apply _. Defined.

(** Removing the file at index [i] moves the last one into its place. *)
Definition swap_remove (i : nat) (fs : list tg_file) : list tg_file :=
  match list.last fs with
  | Some l => take (length fs - 1) (<[i := l]> fs)
  | None => []
  end.

(** The first file of [fs] from index [from] on that lies in [d]. *)
Definition next_in_dir (d : list byte) (fs : list tg_file) (from : Z) : Z :=
  match list_find (in_dir d) (zdrop from fs) with
  | Some (k, _) => from + Z.of_nat k
  | None => -1
  end.

Definition lookup_path (s : list byte) (fs : list tg_file) : option (nat * tg_file) :=
  list_find (fun f => path_of f = s) fs.

Lemma rep_wf st fs : rep st fs -> Forall file_wf fs.
Proof. by intros (? & _ & _ & _ & _ & ?). Qed.

Lemma rep_size st fs : rep st fs -> st.(size) = zlen fs.
Proof. by intros (? & _ & _ & _ & ? & _). Qed.

Lemma file_at_rep st fs i f :
  rep st fs -> fs !! i = Some f -> file_at st.(files) (Z.of_nat i) = Ok f.
Proof.
  intros (rest & Hf & _) Hi. unfold file_at, slot. rewrite Hf. simpl.
  rewrite zget_nat, lookup_app_l; [by rewrite list_lookup_fmap, Hi|].
  rewrite length_fmap. by eapply lookup_lt_Some.
Qed.

Lemma tg_storage_new_rep : rep tg_storage_new [].
Proof.
  exists (replicate 2 None). unfold INT_MAX. simpl. split_and!; done || lia || constructor.
Qed.

Lemma int_result_in z : - INT_MAX - 1 <= z <= INT_MAX -> int_result z = Ok z.
Proof. intros. unfold int_result, guard_c. by rewrite !(proj2 (Z.leb_le _ _)) by lia. Qed.

Lemma resize_slots (l : list (option tg_file)) n :
  zlen l <= n <= INT_MAX -> 0 < n ->
  realloc_files (Some l) n = Some (l ++ replicate (Z.to_nat (n - zlen l)) None).
Proof.
  intros Hn Hpos. unfold realloc_files, SIZEOF_TG_FILE, INT_MAX, malloc_max in *.
  rewrite !u64_small by (rewrite ?u64_small; unfold SIZE_MAX; lia).
  rewrite (proj2 (Z.ltb_ge _ _)), (proj2 (Z.eqb_neq _ _)) by lia.
  rewrite resize_ge by lia. do 3 f_equal. lia.
Qed.

(** ** [tg_storage_push] *)

Lemma set_slot_end st fs f x rest :
  st.(files) = Some ((Some <$> fs) ++ x :: rest) -> st.(size) = zlen fs ->
  set_slot st.(files) st.(size) (Some f) = Ok (Some ((Some <$> (fs ++ [f])) ++ rest)).
Proof.
  intros Hf Hs. unfold set_slot. rewrite Hf, Hs. simpl.
  rewrite zget_nat, list_lookup_middle by (by rewrite length_fmap). simpl.
  rewrite Nat2Z.id, fmap_app, <- app_assoc. do 2 f_equal.
  rewrite <- (length_fmap Some fs), <- (Nat.add_0_r (length _)), insert_app_r. done.
Qed.

Lemma push_rep st fs f :
  rep st fs -> file_wf f -> zlen fs * 2 + 1 <= INT_MAX ->
  exists st', tg_storage_push st f = Ok st' /\ rep st' (fs ++ [f]).
Proof.
  intros (rest & Hf & Hcap & Hpos & Hs & Hwf) Hfwf Hmax. unfold tg_storage_push.
  assert (exists st1 x rest1, (if st.(size) >=? st.(cap) then
           c2 <- int_result (st.(cap) * 2) ;;
           c <- int_result (c2 + 1) ;;
           Ok (mk_storage (realloc_files st.(files) c) st.(size) c)
         else Ok st) = Ok st1 /\ st1.(files) = Some ((Some <$> fs) ++ x :: rest1) /\
    zlen fs + (1 + zlen rest1) = st1.(cap) /\ 0 < st1.(cap) <= INT_MAX /\
    st1.(size) = zlen fs) as (st1 & x & rest1 & -> & Hf1 & Hc1 & Hp1 & Hs1).
  { destruct (Z.geb_spec st.(size) st.(cap)).
    - destruct rest; [|simpl in *; lia]. rewrite app_nil_r in Hf.
      rewrite !int_result_in; try (unfold INT_MAX in *; simpl in *; lia).
      cbn [obind]. rewrite int_result_in by (unfold INT_MAX in *; simpl in *; lia).
      cbn [obind]. rewrite Hf, resize_slots by (rewrite ?length_fmap; simpl in *; lia).
      rewrite length_fmap.
      destruct (Z.to_nat (st.(cap) * 2 + 1 - zlen fs)) as [|k] eqn:Ek; [simpl in *; lia|].
      eexists _, None, (replicate k None). split; [done|]. cbn [files cap size].
      rewrite length_replicate. simpl in Hcap. split_and!; done || lia.
    - destruct rest as [|x rest]; [simpl in *; lia|].
      exists st, x, rest. split_and!; done || (simpl in *; lia). }
  cbn [obind]. rewrite (set_slot_end st1 fs f x rest1) by done. cbn [obind].
  rewrite int_result_in by (unfold INT_MAX in *; lia). eexists. split; [done|].
  exists rest1. cbn [files cap size].
  assert (zlen (fs ++ [f]) = zlen fs + 1) as -> by (by rewrite zlen_app).
  split_and!; try (done || lia). apply Forall_app. split; [done|]. by constructor.
Qed.

(** ** Searching *)

Section search.
Context (st : tg_storage) (fs : list tg_file) (Hrep : rep st fs).
Context (target : list cell) (s : list byte) (Hs : c_string target = Ok s).

Lemma strcmp_path f :
  file_wf f -> exists c, strcmp f.(path) target = Ok c /\ (c = Eq <-> path_of f = s).
Proof using Hs.
  intros Hwf. destruct (wf_path_of f Hwf) as [Hp _].
  exact (strcmp_strings _ _ _ _ Hp Hs).
Qed.

Lemma find_loop_rep n i :
  (i + n = length fs)%nat ->
  find_by_path_loop st.(files) target (Z.of_nat i) n =
  Ok ((fun '(k, _) => Z.of_nat (i + k)) <$>
      list_find (fun f => path_of f = s) (drop i fs)).
Proof using Hrep Hs.
  revert i. induction n as [|n IH]; intros i Hi.
  - rewrite drop_ge by lia. done.
  - destruct (lookup_lt_is_Some_2 fs i) as [f Hf]; [lia|].
  cbn [find_by_path_loop]. rewrite (file_at_rep _ _ _ f Hrep Hf). cbn [obind].
  pose proof (rep_wf _ _ Hrep) as Hwf. rewrite Forall_lookup in Hwf.
  destruct (strcmp_path f (Hwf _ _ Hf)) as (c & -> & Hc). cbn [obind].
  rewrite (drop_S fs f i) by done. simpl.
  destruct (decide (path_of f = s)) as [He|He].
  + rewrite bool_decide_eq_true_2 by tauto. simpl. do 2 f_equal. lia.
  + rewrite bool_decide_eq_false_2 by tauto.
    replace (Z.of_nat i + 1) with (Z.of_nat (S i)) by lia. rewrite IH by lia.
    destruct (list_find _ (drop (S i) fs)) as [[k g]|]; simpl; do 3 f_equal; lia.
Qed.

(** [tg_storage_find_by_path] finds the first file with the path. *)
Lemma find_rep :
  tg_storage_find_by_path st target =
  Ok ((fun '(k, _) => Z.of_nat k) <$> lookup_path s fs).
Proof using Hrep Hs.
  unfold tg_storage_find_by_path, lookup_path. rewrite (rep_size st fs Hrep), Nat2Z.id.
  exact (find_loop_rep (length fs) 0 eq_refl).
Qed.

Lemma find_files_loop_rep n i :
  (i + n = length fs)%nat ->
  find_files_loop st.(files) target (Z.of_nat i) n =
  Ok (next_in_dir s fs (Z.of_nat i)).
Proof using Hrep Hs.
  revert i. induction n as [|n IH]; intros i Hi.
  - unfold next_in_dir. rewrite zdrop_ge by lia. done.
  - destruct (lookup_lt_is_Some_2 fs i) as [f Hf]; [lia|].
  cbn [find_files_loop]. rewrite (file_at_rep _ _ _ f Hrep Hf). cbn [obind].
  pose proof (rep_wf _ _ Hrep) as Hwf. rewrite Forall_lookup in Hwf.
  specialize (Hwf _ _ Hf). destruct (strcmp_path f Hwf) as (c & -> & Hc).
  cbn [obind].
  assert (next_in_dir s fs (Z.of_nat i) =
    if decide (in_dir s f) then Z.of_nat i else next_in_dir s fs (Z.of_nat i + 1)) as ->.
  { unfold next_in_dir, zdrop. rewrite Nat2Z.id, (drop_S fs f i) by done.
    replace (Z.to_nat (Z.of_nat i + 1)) with (S i) by lia. cbn [list_find].
    destruct (decide (in_dir s f)); [lia|].
    destruct (list_find _ (drop (S i) fs)) as [[k g]|]; simpl; [lia | done]. }
  replace (Z.of_nat i + 1) with (Z.of_nat (S i)) by lia. rewrite IH by lia.
  destruct (decide (path_of f = s)) as [He|He].
  + rewrite bool_decide_eq_false_2 by tauto. rewrite decide_False; [done|].
    intros [? _]; done.
  + rewrite bool_decide_eq_true_2 by tauto.
    destruct (extract_directory_spec f (uninit 100) Hwf) as (a & -> & _ & Ha); [done|].
    cbn [obind]. destruct (strcmp_strings _ _ _ _ Ha Hs) as (c' & -> & Hc').
    cbn [obind]. destruct (decide (top_dir (path_of f) = s)) as [Ht|Ht].
    * rewrite bool_decide_eq_true_2 by tauto. by rewrite decide_True.
    * rewrite bool_decide_eq_false_2 by tauto. rewrite decide_False; [done|].
      intros [_ ?]; done.
Qed.

(** [tg_storage_find_files_by_dir] finds the next file of the directory. *)
Lemma find_files_rep from :
  0 <= from ->
  tg_storage_find_files_by_dir st target from = Ok (next_in_dir s fs from).
Proof using Hrep Hs.
  intros Hfrom. unfold tg_storage_find_files_by_dir. rewrite (rep_size st fs Hrep).
  destruct (Z.le_gt_cases from (zlen fs)).
  2: { replace (Z.to_nat (zlen fs - from)) with 0%nat by lia.
     unfold next_in_dir. by rewrite zdrop_ge by lia. }
  rewrite <- (Z2Nat.id from) at 1 by lia. rewrite find_files_loop_rep by lia.
  by rewrite Z2Nat.id by lia.
Qed.

Lemma swap_remove_rep k f :
  fs !! k = Some f ->
  exists st', (last <- slot st.(files) (st.(size) - 1) ;;
    fs' <- set_slot st.(files) (Z.of_nat k) last ;;
    Ok (mk_storage fs' (st.(size) - 1) st.(cap))) = Ok st' /\
  rep st' (swap_remove k fs).
Proof using Hrep.
  intros Hk. destruct Hrep as (rest & Hf & Hcap & Hpos & Hsize & Hwf).
  assert (k < length fs)%nat as Hlt by (by eapply lookup_lt_Some).
  destruct (list.last fs) as [l|] eqn:Hl.
  2: { apply last_None in Hl as ->. simpl in Hlt; lia. }
  assert (fs !! (length fs - 1)%nat = Some l) as Hll.
  { rewrite last_lookup in Hl. by replace (length fs - 1)%nat with (pred (length fs)) by lia. }
  assert (slot st.(files) (st.(size) - 1) = Ok (Some l)) as ->.
  { unfold slot. rewrite Hf, Hsize. simpl.
  replace (zlen fs - 1) with (Z.of_nat (length fs - 1)) by lia.
  rewrite zget_nat, lookup_app_l by (rewrite length_fmap; lia).
  by rewrite list_lookup_fmap, Hll. }
  cbn [obind]. unfold set_slot. rewrite Hf. simpl.
  rewrite zget_nat, lookup_app_l by (rewrite length_fmap; lia).
  rewrite list_lookup_fmap, Hk. simpl. eexists. split; [done|].
  unfold swap_remove. rewrite Hl, Nat2Z.id.
  assert (length (take (length fs - 1) (<[k := l]> fs)) = (length fs - 1)%nat) as Hlen.
  { rewrite length_take, length_insert. lia. }
  exists (drop (length fs - 1) (Some <$> <[k := l]> fs) ++ rest). cbn [files size cap].
  rewrite Hlen, length_app, length_drop, length_fmap, length_insert. split_and!; try lia.
  - rewrite insert_app_l by (rewrite length_fmap; lia).
  rewrite <- list_fmap_insert, app_assoc. do 2 f_equal.
  by rewrite fmap_take, take_drop.
  - apply Forall_take, Forall_insert; [done|]. rewrite Forall_lookup in Hwf. by eapply Hwf.
Qed.

(** [tg_storage_remove_by_path] removes the first file with the path and
returns it; without one it returns the zeroed file. *)
Lemma remove_rep :
  match lookup_path s fs with
  | Some (k, f) => exists st', tg_storage_remove_by_path st target = Ok (f, st') /\
                   rep st' (swap_remove k fs)
  | None => tg_storage_remove_by_path st target = Ok (tg_file_zero, st)
  end.
Proof using Hrep Hs.
  unfold tg_storage_remove_by_path. rewrite (rep_size st fs Hrep).
  destruct (Z.eqb_spec (zlen fs) 0) as [H0|H0].
  { destruct fs; [done | simpl in H0; lia]. }
  rewrite Nat2Z.id.
  rewrite (find_loop_rep (length fs) 0 eq_refl : find_by_path_loop _ _ 0 _ = _).
  unfold lookup_path. rewrite drop_0. cbn [obind].
  destruct (list_find _ fs) as [[k f]|] eqn:Hk; simpl; [|done].
  apply list_find_Some in Hk as (Hk & _ & _).
  rewrite (file_at_rep _ _ _ f Hrep Hk). cbn [obind].
  destruct (swap_remove_rep k f Hk) as (st' & Hrun & Hrep').
  rewrite (rep_size st fs Hrep) in Hrun.
  exists st'. split; [|done]. inv_ok. rewrite E. cbn [obind]. rewrite E0. cbn [obind].
  done.
Qed.
End search.

(** [tg_storage_pop] returns the last file, giving memory back when the array
    is more than half empty. *)
Lemma pop_rep st fs f :
  rep st (fs ++ [f]) -> exists st', tg_storage_pop st = Ok (f, st') /\ rep st' fs.
Proof.
  intros (rest & Hf & Hcap & Hpos & Hs & Hwf). unfold tg_storage_pop.
  rewrite zlen_app in *. simpl in Hcap, Hs.
  rewrite (proj2 (Z.leb_gt _ _)) by lia.
  apply Forall_app in Hwf as [Hwf _].
  set (st1 := if _ <? _ then _ else st).
  assert (exists rest1, st1.(files) = Some ((Some <$> (fs ++ [f])) ++ rest1) /\
    zlen fs + 1 + zlen rest1 = st1.(cap) /\ 0 < st1.(cap) <= INT_MAX /\
    st1.(size) = zlen fs + 1) as (rest1 & Hf1 & Hc1 & Hp1 & Hs1).
  { subst st1. rewrite Z.quot_div_nonneg by lia.
    pose proof (Z.mul_div_le st.(cap) 2 ltac:(lia)) as Hhalf.
    revert Hhalf. generalize (st.(cap) / 2). intros h Hhalf.
    destruct (Z.ltb_spec st.(size) h); [|exists rest; split_and!; done || lia].
    exists (take (Z.to_nat (h - zlen fs - 1)) rest). cbn [files cap size].
    rewrite length_take. split_and!; try lia.
    rewrite Hf. unfold realloc_files, SIZEOF_TG_FILE, malloc_max, INT_MAX in *.
    rewrite !u64_small by (rewrite ?u64_small; unfold SIZE_MAX; lia).
    rewrite (proj2 (Z.ltb_ge _ _)), (proj2 (Z.eqb_neq _ _)) by lia.
    rewrite resize_le, take_app_ge
      by (rewrite ?length_app, ?length_fmap, ?length_app; simpl; lia).
    do 3 f_equal. rewrite length_fmap, length_app. simpl. lia. }
  clearbody st1. unfold file_at, slot. rewrite Hf1, Hs1. simpl.
  replace (zlen fs + 1 - 1) with (zlen fs) by lia.
  rewrite fmap_app, <- app_assoc, zget_nat. simpl.
  rewrite list_lookup_middle by (by rewrite length_fmap). simpl.
  eexists. split; [done|]. exists (Some f :: rest1). cbn [files cap size].
  split_and!; done || (simpl; lia).
Qed.

(** ** The list after a removal *)

Lemma swap_remove_perm k f fs : fs !! k = Some f -> fs ≡ₚ f :: swap_remove k fs.
Proof.
  intros Hk. unfold swap_remove.
  destruct (list.last fs) as [l|] eqn:Hl; [|by apply last_None in Hl as ->].
  apply last_Some in Hl as [fs' ->]. rewrite length_app. simpl.
  replace (length fs' + 1 - 1)%nat with (length fs') by lia.
  destruct (decide (k = length fs')) as [->|Hne].
  - rewrite list_lookup_middle in Hk by done. injection Hk as ->.
    rewrite <- (Nat.add_0_r (length fs')) at 2. rewrite insert_app_r. simpl.
    rewrite take_app_length. apply Permutation_app_comm.
  - assert (k < length fs')%nat as Hlt.
    { apply lookup_lt_Some in Hk. rewrite length_app in Hk. simpl in Hk. lia. }
    rewrite lookup_app_l in Hk by done.
    rewrite insert_app_l, take_app_length' by (rewrite ?length_insert; done).
    rewrite insert_take_drop by done.
    pose proof (take_drop_middle fs' k f Hk) as Heq.
    revert Heq. generalize (take k fs') (drop (S k) fs'). intros u v <-.
    solve_Permutation.
Qed.

Lemma length_swap_remove k f fs :
  fs !! k = Some f -> length fs = S (length (swap_remove k fs)).
Proof. intros H. apply swap_remove_perm in H. by rewrite H at 1. Qed.

Lemma lookup_path_Some s fs k f :
  lookup_path s fs = Some (k, f) -> fs !! k = Some f /\ path_of f = s /\ f ∈ fs.
Proof.
  intros (Hk & Hp & _)%list_find_Some. split_and!; [done.. |].
  by eapply list_elem_of_lookup_2.
Qed.

Lemma lookup_path_None s fs : lookup_path s fs = None <-> Forall (fun f => path_of f <> s) fs.
Proof. apply list_find_None. Qed.

End TgStorage.
