(* ===== verification/TgApi.v ===== *)
(** * Requests to the Telegram API (src/src/tg_file.c)

    libcurl and the network are a parameter, [CurlEnv]: what a transfer returns
    and which chunks of body it delivers.  The source links the system's libcurl
    and gives it two write callbacks, which are modelled with the memory they
    write: the static array [json_response_buf], and a growable buffer. *)
From S2P Require Import Prelude CLib Buffer Json TgFile.
Import Buffer Json TgFile.

Module TgApi.

Definition JSON_RESPONSE_BUF_SIZE : Z := 1024.
Definition URL_SIZE : Z := 1000.
Definition CURLE_OK : Z := 0.
Definition CURLE_WRITE_ERROR : Z := 23.

(** The one part of the form [tg_put_file] posts. *)
Record mime_part := mk_part {
  part_name : list byte;
  part_filename : list byte;
  part_data : list cell;
}.

(** What a handle asks for when it is performed. *)
Record request := mk_request {
  req_url : list byte;
  req_mime : option mime_part;
}.

(** A performed transfer: its result code and the chunks of body that were
    handed to the write callback. *)
Record transfer := mk_transfer {
  tr_code : Z;
  tr_chunks : list (list byte);
}.

(** libcurl and what is behind it.  [curl_easy_init] says whether a handle is
    returned; the [curl_mime] functions only return a code. *)
Class CurlEnv (net : Type) := {
  curl_easy_init : net -> bool;
  curl_mime_name : net -> Z;
  curl_mime_data : net -> Z;
  curl_mime_filename : net -> Z;
  curl_easy_perform : net -> request -> transfer * net;
}.

Definition abort_if_error (code : Z) : outcome unit :=
  guard_c (code =? CURLE_OK) AssertFailed.

(** The write callbacks: the value returned and the memory written. *)
Definition curl_response_file_writer (p : buffer) (data : list byte) (size nmemb : Z)
    : outcome (Z * buffer) :=
  p <- buffer_append p (cells data) (u64 (size * nmemb)) ;;
  Ok (u64 (size * nmemb), p).

Definition curl_response_json_writer (p : list cell) (data : list byte) (size nmemb : Z)
    : outcome (Z * list cell) :=
  xs <- mem_read (cells data) 0 (u64 (size * nmemb)) ;;
  p <- mem_write p 0 xs ;;
  Ok (u64 (size * nmemb), p).

(** libcurl calls the callback once per chunk, with a size of 1, and gives the
    transfer up when it does not return the length of the chunk. *)
Fixpoint deliver {B} (writer : B -> list byte -> Z -> Z -> outcome (Z * B)) (dst : B)
    (chunks : list (list byte)) : outcome (bool * B) :=
  match chunks with
  | [] => Ok (true, dst)
  | c :: cs =>
      let! (n, dst) := writer dst c 1 (zlen c) in
      if n =? zlen c then deliver writer dst cs else Ok (false, dst)
  end.

(** The texts of the requests' URLs. *)
Definition send_url (tok chat dir : list byte) : list byte :=
  lit "https://api.telegram.org/bot" ++ tok ++ lit "/sendDocument?chat_id=" ++ chat ++
  lit "&caption=" ++ dir.

Definition media : list byte := qlit "{'type':'document','media':'attach://document'}".

Definition edit_url (tok chat msg dir : list byte) : list byte :=
  lit "https://api.telegram.org/bot" ++ tok ++ lit "/editMessageMedia?chat_id=" ++ chat ++
  lit "&message_id=" ++ msg ++ lit "&media=" ++ media ++ lit "&caption=" ++ dir.

Definition get_url (tok fid : list byte) : list byte :=
  lit "https://api.telegram.org/bot" ++ tok ++ lit "/getFile?file_id=" ++ fid.

Definition file_url (tok fp : list byte) : list byte :=
  lit "https://api.telegram.org/file/bot" ++ tok ++ lit "/" ++ fp.

Definition delete_url (tok chat msg : list byte) : list byte :=
  lit "https://api.telegram.org/bot" ++ tok ++ lit "/deleteMessage?chat_id=" ++ chat ++
  lit "&message_id=" ++ msg.

Section api.
Context {net : Type} `{CurlEnv net}.

(** The static data of tg_file.c and the state of the outside. *)
Record api := mk_api {
  json_response_buf : list cell;
  network : net;
}.

Definition set_json (j : list cell) : prog api unit :=
  s <-- pget ;; pput (mk_api j s.(network)).

(** [curl_easy_perform] with the callback that is installed. *)
Definition perform_json (r : request) : prog api Z :=
  s <-- pget ;;
  let (t, n) := curl_easy_perform s.(network) r in
  let? (done, j) := plift (deliver curl_response_json_writer s.(json_response_buf) t.(tr_chunks)) in
  pput (mk_api j n) ;;;
  pret (if done : bool then t.(tr_code) else CURLE_WRITE_ERROR).

Definition perform_file (r : request) (b : buffer) : prog api (Z * buffer) :=
  s <-- pget ;;
  let (t, n) := curl_easy_perform s.(network) r in
  let? (done, b) := plift (deliver curl_response_file_writer b t.(tr_chunks)) in
  pput (mk_api s.(json_response_buf) n) ;;;
  pret (if done : bool then t.(tr_code) else CURLE_WRITE_ERROR, b).

(** [sprintf] into a local array of [URL_SIZE], passed to libcurl as a
string. *)
Definition url_text (text : list byte) : outcome (list byte) :=
  url <- sprintf (uninit URL_SIZE) text ;; c_string url.

Definition check_json : prog api bool :=
  s <-- pget ;; plift (check_ok_status_in_json s.(json_response_buf)).

(** Reads a field of the response into an array; the result code of the parser
is not used. *)
Definition read_field (dst : list cell) (field : list byte) : prog api (list cell) :=
  s <-- pget ;;
  r <-- plift (parse_response_field_from_json dst s.(json_response_buf) field) ;;
  pret r.2.

(** The branch for a file that has no message yet.  The result of the transfer
is not looked at. *)
Definition put_new (file : tg_file) (config : tg_config) (part : mime_part)
  : prog api tg_file :=
  directory <-- plift (tg_file_extract_directory (uninit 100) file) ;;
  tok <-- plift (c_string config.(token)) ;;
  chat <-- plift (c_string config.(chat_id)) ;;
  dir <-- plift (c_string directory) ;;
  url <-- plift (url_text (send_url tok chat dir)) ;;
  _ <-- perform_json (mk_request url (Some part)) ;;
  ok <-- check_json ;;
  if negb ok then pret file
  else
    i <-- read_field file.(file_id) (lit "file_id") ;;
    m <-- read_field file.(message_id) (lit "message_id") ;;
    pret (with_message_id (with_file_id file i) m).

(** The branch for a file whose message is edited. *)
Definition put_edit (file : tg_file) (config : tg_config) (part : mime_part)
  : prog api tg_file :=
  directory <-- plift (tg_file_extract_directory (uninit 100) file) ;;
  tok <-- plift (c_string config.(token)) ;;
  chat <-- plift (c_string config.(chat_id)) ;;
  msg <-- plift (c_string file.(message_id)) ;;
  dir <-- plift (c_string directory) ;;
  url <-- plift (url_text (edit_url tok chat msg dir)) ;;
  code <-- perform_json (mk_request url (Some part)) ;;
  plift (guard_c (code =? CURLE_OK) AssertFailed) ;;;
  ok <-- check_json ;;
  if negb ok then pret file
  else
    i <-- read_field (memset0 FILE_ID_SIZE) (lit "file_id") ;;
    pret (with_file_id file i).

(** The form is built first, then one request is sent.  The bytes of [data]
go into the form as they are, written or not. *)
Definition tg_put_file (file : tg_file) (config : tg_config) (data : buffer)
  : prog api tg_file :=
  s <-- pget ;;
  plift (guard_c (curl_easy_init s.(network)) AssertFailed) ;;;
  plift (abort_if_error (curl_mime_name s.(network))) ;;;
  payload <-- plift (match data.(ptr) with
                   | None => Ok []
                   | Some _ => ptr_read data.(ptr) 0 data.(size)
                   end) ;;
  plift (abort_if_error (curl_mime_data s.(network))) ;;;
  filename <-- plift (tg_file_extract_filename (uninit 100) file) ;;
  filename <-- plift (c_string filename) ;;
  plift (abort_if_error (curl_mime_filename s.(network))) ;;;
  let part := mk_part (lit "document") filename payload in
  len <-- plift (strlen file.(file_id)) ;;
  if len =? 0 then put_new file config part else put_edit file config part.

(** What was received is returned even when the second transfer fails. *)
Definition tg_file_load_contents (config : tg_config) (src : tg_file) : prog api buffer :=
  set_json (memset0 JSON_RESPONSE_BUF_SIZE) ;;;
  s <-- pget ;;
  let file_response_buf := buffer_new in
  if negb (curl_easy_init s.(network)) then pret file_response_buf
  else
    tok <-- plift (c_string config.(token)) ;;
    fid <-- plift (c_string src.(file_id)) ;;
    url <-- plift (url_text (get_url tok fid)) ;;
    code <-- perform_json (mk_request url None) ;;
    if negb (code =? CURLE_OK) then pret file_response_buf
    else
      ok <-- check_json ;;
      if negb ok then pret file_response_buf
      else
        file_path <-- read_field (memset0 FILE_PATH_SIZE) (lit "file_path") ;;
        fp <-- plift (c_string file_path) ;;
        url <-- plift (url_text (file_url tok fp)) ;;
        let? (code, file_response_buf) := perform_file (mk_request url None) buffer_new in
        pret file_response_buf.

Definition tg_remove_message_with_file (config : tg_config) (file : tg_file)
  : prog api Z :=
  s <-- pget ;;
  plift (guard_c (curl_easy_init s.(network)) AssertFailed) ;;;
  tok <-- plift (c_string config.(token)) ;;
  chat <-- plift (c_string config.(chat_id)) ;;
  msg <-- plift (c_string file.(message_id)) ;;
  url <-- plift (url_text (delete_url tok chat msg)) ;;
  code <-- perform_json (mk_request url None) ;;
  if negb (code =? CURLE_OK) then pret 0
  else check_json ;;; pret 0.
End api.

Arguments api net : clear implicits.
Arguments mk_api {net}.

End TgApi.
