(* ===== verification/Telegram.v ===== *)
(** * Talking to a Telegram server that answers (src/src/tg_file.c)

    [Telegram] is what the program relies on of the Bot API: the interface the
    requests of TgApi are proved against.  It says which text a request is
    answered with and what is stored afterwards; nothing about the program.  The
    lemmas say what each function of tg_file.c does on such a server. *)
From S2P Require Import Prelude CLib Buffer Json TgFile TgApi.
Import Buffer Json TgFile TgApi.

Module Telegram.

(** ** Response texts *)

(** A body that fits the static array and its NUL. *)
Definition response (s : list byte) : Prop :=
  (NUL ∉ s) /\ zlen s < JSON_RESPONSE_BUF_SIZE.

(** The text the parser reads for a field: the bytes of a number or a word, or
    those of a quoted string. *)
Definition field_text (s field w : list byte) : Prop :=
  exists pre sep v c post, field_at s field pre sep v c post /\
    ((v = w /\ hd_error (v ++ [c]) <> Some QUOTE) \/ v = QUOTE :: w ++ [QUOTE]).

Definition word_field (s field w : list byte) : Prop :=
  exists pre sep c post, field_at s field pre sep w c post /\
    hd_error (w ++ [c]) <> Some QUOTE.

Definition ok_response (s : list byte) : Prop :=
  response s /\ word_field s (lit "ok") (lit "true").

Definition error_response (s : list byte) : Prop :=
  response s /\ exists w, word_field s (lit "ok") w /\ w <> lit "true" /\ zlen w < 100.

(** An identifier that fits its array: not empty, with room for a NUL. *)
Definition good_id (w : list byte) : Prop :=
  w <> [] /\ (NUL ∉ w) /\ zlen w < 100.

(** [map_kept n n' mid]: nothing but what belongs to message [mid] changes. *)
Definition kept (m m' : gmap (list byte) (list byte * list byte)) (mid : list byte) : Prop :=
  forall fid mid' d, m !! fid = Some (mid', d) -> mid' <> mid -> m' !! fid = Some (mid', d).

Class Telegram (net : Type) `{CurlEnv net} (tok chat : list byte) := {
  (** file identifier to message identifier and content *)
  tg_files : net -> gmap (list byte) (list byte * list byte);
  (** how many more uploads are taken *)
  tg_quota : net -> Z;
  tg_handle : forall n, curl_easy_init n = true /\ curl_mime_name n = CURLE_OK /\
    curl_mime_data n = CURLE_OK /\ curl_mime_filename n = CURLE_OK;
  tg_send : forall n dir name d, 0 < tg_quota n ->
    exists n' resp fid mid,
      curl_easy_perform n (mk_request (send_url tok chat dir)
        (Some (mk_part (lit "document") name (cells d)))) = (mk_transfer CURLE_OK [resp], n') /\
      ok_response resp /\ field_text resp (lit "file_id") fid /\
      field_text resp (lit "message_id") mid /\ good_id fid /\ good_id mid /\
      tg_files n !! fid = None /\
      (forall g m c, tg_files n !! g = Some (m, c) -> m <> mid) /\
      tg_files n' = <[fid := (mid, d)]> (tg_files n) /\ tg_quota n - 1 <= tg_quota n';
  tg_edit : forall n mid fid0 d0 dir name d, 0 < tg_quota n ->
    tg_files n !! fid0 = Some (mid, d0) ->
    exists n' resp fid,
      curl_easy_perform n (mk_request (edit_url tok chat mid dir)
        (Some (mk_part (lit "document") name (cells d)))) = (mk_transfer CURLE_OK [resp], n') /\
      ok_response resp /\ field_text resp (lit "file_id") fid /\ good_id fid /\
      tg_files n' !! fid = Some (mid, d) /\ kept (tg_files n) (tg_files n') mid /\
      tg_quota n - 1 <= tg_quota n';
  tg_get : forall n fid mid d, tg_files n !! fid = Some (mid, d) ->
    exists n1 resp fp n2 chunks,
      curl_easy_perform n (mk_request (get_url tok fid) None) =
        (mk_transfer CURLE_OK [resp], n1) /\
      ok_response resp /\ field_text resp (lit "file_path") fp /\ good_id fp /\
      curl_easy_perform n1 (mk_request (file_url tok fp) None) =
        (mk_transfer CURLE_OK chunks, n2) /\ concat chunks = d /\
      tg_files n2 = tg_files n /\ tg_quota n <= tg_quota n2;
  tg_delete : forall n mid,
    exists n' resp,
      curl_easy_perform n (mk_request (delete_url tok chat mid) None) =
        (mk_transfer CURLE_OK [resp], n') /\
      (ok_response resp \/ error_response resp) /\
      kept (tg_files n) (tg_files n') mid /\ tg_quota n <= tg_quota n';
}.

(** ** The static response array *)

(** It has its size, was written everywhere (it starts zeroed), and ends in a
    NUL that no response reaches. *)
Definition json_wf (j : list cell) : Prop :=
  exists bs, j = cells (bs ++ [NUL]) /\ zlen j = JSON_RESPONSE_BUF_SIZE.

Lemma json_wf_zero : json_wf (memset0 JSON_RESPONSE_BUF_SIZE).
Proof.
  exists (replicate 1023 NUL). split; [|done]. unfold memset0.
  rewrite cells_app. unfold cells. rewrite fmap_replicate. done.
Qed.

Lemma find_sub_app t s u i : find_sub t s = Some i -> find_sub t (s ++ u) = Some i.
Proof.
  revert i. induction s as [|b s IH]; intros i.
  - destruct t; [|done]. intros [= <-]. by destruct u.
  - cbn [find_sub app]. destruct (is_prefix t (b :: s)) eqn:Ep.
    + apply is_prefix_spec in Ep as [v Hv].
      assert (is_prefix t (b :: s ++ u) = true) as ->; [|done].
      apply is_prefix_spec. exists (v ++ u). rewrite app_comm_cons, Hv, app_assoc. done.
    + intros Hs. destruct (find_sub t s) as [j|] eqn:Ej; [|done]. injection Hs as <-.
      destruct (is_prefix t (b :: s ++ u)) eqn:Ep'; [|by rewrite (IH j)].
      exfalso. apply find_sub_Some in Ej as (Hj & w & Hw & Hlen).
      apply is_prefix_spec in Ep' as [v Hv].
      assert (is_prefix t (b :: s) = true); [|congruence].
      apply is_prefix_spec. exists (drop (length t) (b :: s)).
      rewrite <- (take_drop (length t) (b :: s)) at 1. f_equal.
      rewrite app_comm_cons in Hv.
      apply (f_equal (take (length t))) in Hv.
      rewrite take_app_length, take_app_le in Hv by (simpl; lia). done.
Qed.

Lemma field_at_app s t field pre sep v c post :
  field_at s field pre sep v c post ->
  field_at (s ++ t) field pre sep v c (post ++ t).
Proof.
  intros (-> & Hf & ?). split; [|split; [by apply find_sub_app | done]].
  rewrite <- !app_assoc. do 4 f_equal.
Qed.

(** The parser on an array whose string starts with a response. *)
Lemma parse_field src s t field w dst :
  c_string src = Ok (s ++ t) -> field_text s field w ->
  zlen w <= zlen dst <= SIZE_MAX ->
  parse_response_field_from_json dst src field = Ok (0, cells w ++ zdrop (zlen w) dst).
Proof.
  intros Hs (pre & sep & v & c & post & Hf & Hv) Hlen.
  apply (field_at_app s t) in Hf. destruct Hv as [[-> Hq] | ->].
  - eapply parse_unquoted; done || lia.
  - eapply parse_quoted; done || lia.
Qed.

Lemma check_word src s t w :
  c_string src = Ok (s ++ t) -> word_field s (lit "ok") w -> zlen w < 100 ->
  check_ok_status_in_json src = Ok (bool_decide (w = lit "true")).
Proof.
  intros Hs (pre & sep & c & post & Hf & Hq) Hlen.
  apply (field_at_app s t) in Hf. by eapply check_ok_value.
Qed.

(** Writing one response into the array: the array keeps its shape and starts
    with the response.  What follows it there is left over from before. *)
Lemma deliver_response j resp :
  json_wf j -> response resp ->
  exists j' t, deliver curl_response_json_writer j [resp] = Ok (true, j') /\ json_wf j' /\
    c_string j' = Ok (resp ++ t).
Proof.
  intros (bs & -> & Hlen) [Hn Hl]. cbn [deliver]. unfold curl_response_json_writer.
  rewrite zlen_cells, zlen_app in Hlen. simpl in Hlen.
  unfold JSON_RESPONSE_BUF_SIZE in *.
  rewrite Z.mul_1_l, u64_small by (unfold SIZE_MAX; lia).
  rewrite mem_read_in, zdrop_0, ztake_ge by (rewrite ?zlen_cells; lia). cbn [obind].
  rewrite mem_write_in by (rewrite ?zlen_cells, ?zlen_app; simpl; lia). cbn [obind].
  rewrite Z.eqb_refl.
  assert (splice (cells (bs ++ [NUL])) 0 (cells resp) =
    cells (resp ++ zdrop (zlen resp) bs ++ [NUL])) as ->.
  { unfold splice. rewrite ztake_0. simpl. rewrite zlen_cells, (cells_app resp). f_equal.
    unfold cells, zdrop. rewrite <- fmap_drop, drop_app_le by lia. done. }
  assert (exists t, c_string (cells (resp ++ zdrop (zlen resp) bs ++ [NUL])) = Ok (resp ++ t))
    as [t Ht].
  { rewrite cells_app. generalize (zdrop (zlen resp) bs). intros u.
    assert (exists t, c_string (cells (u ++ [NUL])) = Ok t) as [t Ht].
    { induction u as [|b u [t IH]]; [by exists []|].
      rewrite <- app_comm_cons, cells_cons. simpl.
      destruct (decide (b = NUL)); [by exists []|]. rewrite IH. by exists (b :: t). }
    exists t. clear Hl. induction resp as [|b r IH]; [done|].
    apply not_elem_of_cons in Hn as [Hb Hn]. rewrite cells_cons. simpl.
    destruct (decide (b = NUL)); [congruence|]. by rewrite IH. }
  exists (cells (resp ++ zdrop (zlen resp) bs ++ [NUL])), t. split; [done|]. split; [|done].
  exists (resp ++ zdrop (zlen resp) bs). rewrite <- app_assoc. split; [done|].
  rewrite zlen_cells, !zlen_app, zlen_zdrop by lia.
  unfold JSON_RESPONSE_BUF_SIZE. simpl. lia.
Qed.

(** ** URLs *)

Lemma url_text_fits text :
  (NUL ∉ text) -> zlen text < URL_SIZE -> url_text text = Ok text.
Proof.
  intros Hn Hl. unfold url_text, sprintf.
  rewrite mem_write_in by (rewrite ?zlen_cstr, ?zlen_uninit; unfold URL_SIZE in *; lia).
  cbn [obind]. unfold splice. rewrite ztake_0. simpl. unfold cstr. rewrite <- app_assoc.
  by apply c_string_app.
Qed.

Lemma no_NUL_app a b : (NUL ∉ a) -> (NUL ∉ b) -> NUL ∉ a ++ b.
Proof. intros. by rewrite not_elem_of_app. Qed.

(** The strings of a configuration. *)
Definition config_strings (cfg : tg_config) (tok chat : list byte) : Prop :=
  c_string cfg.(token) = Ok tok /\ c_string cfg.(chat_id) = Ok chat /\
  zlen tok < 100 /\ zlen chat < 100.

(** A URL made of literals and of strings from 100-byte arrays. *)
Ltac url_fits :=
  apply url_text_fits;
  [ repeat apply no_NUL_app; first [assumption | no_NUL]
  | unfold URL_SIZE, send_url, edit_url, get_url, file_url, delete_url;
    rewrite !length_app; simpl; lia ].

Lemma send_url_fits tok chat dir :
  (NUL ∉ tok) -> (NUL ∉ chat) -> (NUL ∉ dir) -> zlen tok < 100 -> zlen chat < 100 ->
  zlen dir < 100 -> url_text (send_url tok chat dir) = Ok (send_url tok chat dir).
Proof. intros. unfold send_url. url_fits. Qed.

Lemma edit_url_fits tok chat msg dir :
  (NUL ∉ tok) -> (NUL ∉ chat) -> (NUL ∉ msg) -> (NUL ∉ dir) -> zlen tok < 100 ->
  zlen chat < 100 -> zlen msg < 100 -> zlen dir < 100 ->
  url_text (edit_url tok chat msg dir) = Ok (edit_url tok chat msg dir).
Proof. intros. unfold edit_url. url_fits. Qed.

Lemma get_url_fits tok fid :
  (NUL ∉ tok) -> (NUL ∉ fid) -> zlen tok < 100 -> zlen fid < 100 ->
  url_text (get_url tok fid) = Ok (get_url tok fid).
Proof. intros. unfold get_url. url_fits. Qed.

Lemma file_url_fits tok fp :
  (NUL ∉ tok) -> (NUL ∉ fp) -> zlen tok < 100 -> zlen fp < 100 ->
  url_text (file_url tok fp) = Ok (file_url tok fp).
Proof. intros. unfold file_url. url_fits. Qed.

Lemma delete_url_fits tok chat msg :
  (NUL ∉ tok) -> (NUL ∉ chat) -> (NUL ∉ msg) -> zlen tok < 100 -> zlen chat < 100 ->
  zlen msg < 100 -> url_text (delete_url tok chat msg) = Ok (delete_url tok chat msg).
Proof. intros. unfold delete_url. url_fits. Qed.

(** ** The functions of tg_file.c *)

Section specs.
Context {net : Type} `{CurlEnv net}.
Implicit Types (s : api net).

Lemma perform_json_run s r code resp n' :
  curl_easy_perform s.(network) r = (mk_transfer code [resp], n') ->
  json_wf s.(json_response_buf) -> response resp ->
  exists j t, perform_json r s = Ok (code, mk_api j n') /\ json_wf j /\
  c_string j = Ok (resp ++ t).
Proof.
  intros Hp Hj Hr.
  destruct (deliver_response _ resp Hj Hr) as (j & t & Hd & Hj' & Hs).
  exists j, t. split; [|done]. unfold perform_json. prun_get. rewrite Hp. cbn [tr_chunks].
  prun_lift Hd. done.
Qed.

Lemma perform_file_run s r code chunks n' :
  curl_easy_perform s.(network) r = (mk_transfer code chunks, n') ->
  100 + zlen (concat chunks) <= malloc_max ->
  exists b, perform_file r buffer_new s = Ok ((code, b), mk_api s.(json_response_buf) n') /\
  buffer_wf b /\ contents b = cells (concat chunks).
Proof.
  intros Hp Hmax.
  assert (forall b0, deliver curl_response_file_writer b0 chunks =
  (b <- append_all b0 chunks ;; Ok (true, b))) as Hd.
  { clear Hp. revert Hmax. induction chunks as [|c cs IH]; intros Hmax b0; [done|].
  simpl in Hmax. rewrite length_app in Hmax.
  cbn [deliver append_all]. unfold curl_response_file_writer at 1.
  rewrite Z.mul_1_l, u64_small by (unfold malloc_max, SIZE_MAX in *; lia).
  destruct (buffer_append b0 (cells c) (zlen c)); [|done]. cbn [obind].
  rewrite Z.eqb_refl. apply IH. lia. }
  destruct (append_all_spec chunks buffer_new buffer_new_wf) as (b & Hb & Hwf & Hc);
  [simpl; lia|].
  exists b. split; [|done]. specialize (Hd buffer_new). rewrite Hb in Hd.
  cbn [obind] in Hd.
  unfold perform_file. prun_get. rewrite Hp. cbn [tr_chunks]. by prun_lift Hd.
Qed.

Lemma check_json_run s resp t w :
  c_string s.(json_response_buf) = Ok (resp ++ t) -> word_field resp (lit "ok") w ->
  zlen w < 100 -> check_json s = Ok (bool_decide (w = lit "true"), s).
Proof.
  intros Hs Hf Hl. unfold check_json. prun_get. unfold plift.
  by rewrite (check_word _ resp t w).
Qed.

Lemma read_field_run s resp t field w dst :
  c_string s.(json_response_buf) = Ok (resp ++ t) -> field_text resp field w ->
  zlen w <= zlen dst <= SIZE_MAX ->
  read_field dst field s = Ok (cells w ++ zdrop (zlen w) dst, s).
Proof.
  intros Hs Hf Hl. unfold read_field. prun_get.
  by prun_lift (parse_field _ _ _ _ _ dst Hs Hf Hl).
Qed.

(** The parts of [tg_put_file] before a request is sent. *)
Definition handle_ok (n : net) : Prop :=
  curl_easy_init n = true /\ curl_mime_name n = CURLE_OK /\
  curl_mime_data n = CURLE_OK /\ curl_mime_filename n = CURLE_OK.

Lemma tg_put_file_run s file cfg data w :
  handle_ok s.(network) -> buffer_wf data -> file_wf file ->
  id_array file.(file_id) w ->
  tg_put_file file cfg data s =
  (let part := mk_part (lit "document") (basename (path_of file)) (contents data) in
   if decide (w = []) then put_new file cfg part else put_edit file cfg part) s.
Proof.
  intros (Hi & Hn & Hd & Hf) (m & Hp & Hm & Hs & Hc & _) Hwf Hid.
  unfold tg_put_file. prun_get. rewrite Hi, Hn, Hd, Hf, Hp. unfold abort_if_error.
  rewrite Z.eqb_refl. prun_lift (eq_refl : guard_c true AssertFailed = Ok tt).
  prun_lift (eq_refl : guard_c true AssertFailed = Ok tt).
  prun_lift (ptr_read_in m 0 data.(size) ltac:(lia) ltac:(lia) ltac:(lia)).
  prun_lift (eq_refl : guard_c true AssertFailed = Ok tt).
  destruct (extract_filename_spec file (uninit 100) Hwf eq_refl) as (a & Ha & _ & Hstr).
  prun_lift Ha. prun_lift Hstr. prun_lift (eq_refl : guard_c true AssertFailed = Ok tt).
  assert (strlen file.(file_id) = Ok (zlen w)) as Hlen.
  { unfold strlen. by rewrite (id_array_string _ _ Hid). }
  prun_lift Hlen. rewrite zdrop_0. unfold contents. rewrite Hp.
  destruct (decide (w = [])) as [->|Hne]; [done|].
  destruct w as [|b w]; [done|]. rewrite (proj2 (Z.eqb_neq _ _)); [done | simpl; lia].
Qed.

Section branches.
Context (s : api net) (file : tg_file) (cfg : tg_config) (tok chat : list byte).
Context (part : mime_part).
Context (Hcfg : config_strings cfg tok chat) (Hwf : file_wf file).
Context (Hj : json_wf s.(json_response_buf)).

Let dir := top_dir (path_of file).

Lemma top_dir_fits : (NUL ∉ dir) /\ zlen dir < 100.
Proof using Hwf.
  destruct (extract_directory_spec file (uninit 100) Hwf eq_refl) as (a & _ & Hl & Hs).
  split; [by eapply c_string_no_NUL|]. apply c_string_len in Hs.
  change (zlen (uninit 100)) with 100 in Hl. fold dir in Hs. lia.
Qed.

(** The URL part of the branches, with the request that follows. *)
Lemma put_new_request n' code resp :
  curl_easy_perform s.(network) (mk_request (send_url tok chat dir) (Some part)) =
  (mk_transfer code [resp], n') -> response resp ->
  exists j t, json_wf j /\ c_string j = Ok (resp ++ t) /\
  put_new file cfg part s =
  (ok <-- check_json ;;
  if negb ok then pret file
  else
   i <-- read_field file.(file_id) (lit "file_id") ;;
   m <-- read_field file.(message_id) (lit "message_id") ;;
   pret (with_message_id (with_file_id file i) m)) (mk_api j n').
Proof using Hcfg Hwf Hj.
  intros Hp Hr. destruct Hcfg as (Ht & Hc & Hlt & Hlc).
  destruct top_dir_fits as [Hdn Hdl].
  destruct (extract_directory_spec file (uninit 100) Hwf eq_refl) as (a & Ha & _ & Hs).
  destruct (perform_json_run s _ code resp n' Hp Hj Hr) as (j & t & Hrun & Hj' & Hstr).
  exists j, t. split; [done|]. split; [done|].
  unfold put_new. prun_lift Ha. prun_lift Ht. prun_lift Hc. prun_lift Hs. fold dir.
  prun_lift (send_url_fits tok chat dir (c_string_no_NUL _ _ Ht) (c_string_no_NUL _ _ Hc)
  Hdn Hlt Hlc Hdl).
  by prun Hrun.
Qed.

(** A new file whose upload is answered gets the identifiers of the answer. *)
Lemma put_new_ok n' code resp fid mid :
  id_array file.(file_id) [] -> id_array file.(message_id) [] ->
  curl_easy_perform s.(network) (mk_request (send_url tok chat dir) (Some part)) =
  (mk_transfer code [resp], n') ->
  ok_response resp -> field_text resp (lit "file_id") fid ->
  field_text resp (lit "message_id") mid -> good_id fid -> good_id mid ->
  exists j file', put_new file cfg part s = Ok (file', mk_api j n') /\ json_wf j /\
  id_array file'.(file_id) fid /\ id_array file'.(message_id) mid /\
  file'.(path) = file.(path) /\ file'.(type) = file.(type) /\
  file'.(file_size) = file.(file_size).
Proof using Hcfg Hwf Hj.
  intros Hi Hm Hp [Hr Hok] Hf Hmf (_ & Hfn & Hfl) (_ & Hmn & Hml).
  destruct (put_new_request n' code resp Hp Hr) as (j & t & Hj' & Hstr & ->).
  prun (check_json_run (mk_api j n') resp t (lit "true") Hstr Hok eq_refl).
  rewrite bool_decide_eq_true_2 by done. cbn [negb].
  destruct Hi as (-> & _), Hm as (-> & _). rewrite !cells_nil.
  change (memset0 (100 - zlen [])) with (memset0 100). cbn [app].
  assert (zlen (memset0 100) = 100) as H100 by done.
  prun (read_field_run (mk_api j n') resp t _ fid (memset0 100) Hstr Hf
  ltac:(rewrite H100; unfold SIZE_MAX; lia)).
  prun (read_field_run (mk_api j n') resp t _ mid (memset0 100) Hstr Hmf
  ltac:(rewrite H100; unfold SIZE_MAX; lia)).
  eexists j, _. split; [done|]. simpl. split; [done|].
  split; [by apply id_array_fill|]. split; [by apply id_array_fill | done].
Qed.

(** A refusal leaves the file as it was. *)
Lemma put_new_refused n' code resp :
  curl_easy_perform s.(network) (mk_request (send_url tok chat dir) (Some part)) =
  (mk_transfer code [resp], n') -> error_response resp ->
  exists j, put_new file cfg part s = Ok (file, mk_api j n') /\ json_wf j.
Proof using Hcfg Hwf Hj.
  intros Hp (Hr & w & Hw & Hne & Hl).
  destruct (put_new_request n' code resp Hp Hr) as (j & t & Hj' & Hstr & ->).
  exists j. split; [|done]. prun (check_json_run (mk_api j n') resp t w Hstr Hw Hl).
  by rewrite bool_decide_eq_false_2.
Qed.

(** Editing the message of a file replaces its file identifier. *)
Lemma put_edit_ok n' resp fid mid :
  id_array file.(message_id) mid ->
  curl_easy_perform s.(network) (mk_request (edit_url tok chat mid dir) (Some part)) =
  (mk_transfer CURLE_OK [resp], n') ->
  ok_response resp -> field_text resp (lit "file_id") fid -> good_id fid ->
  exists j file', put_edit file cfg part s = Ok (file', mk_api j n') /\ json_wf j /\
  id_array file'.(file_id) fid /\ file'.(message_id) = file.(message_id) /\
  file'.(path) = file.(path) /\ file'.(type) = file.(type) /\
  file'.(file_size) = file.(file_size).
Proof using Hcfg Hwf Hj.
  intros Hm Hp [Hr Hok] Hf (_ & Hfn & Hfl). destruct Hcfg as (Ht & Hc & Hlt & Hlc).
  destruct top_dir_fits as [Hdn Hdl].
  destruct (extract_directory_spec file (uninit 100) Hwf eq_refl) as (a & Ha & _ & Hs).
  destruct (perform_json_run s _ CURLE_OK resp n' Hp Hj Hr) as (j & t & Hrun & Hj' & Hstr).
  assert (Hm' := Hm). destruct Hm' as (_ & Hmn & Hml).
  unfold put_edit. prun_lift Ha. prun_lift Ht. prun_lift Hc.
  prun_lift (id_array_string _ _ Hm). prun_lift Hs. fold dir.
  prun_lift (edit_url_fits tok chat mid dir (c_string_no_NUL _ _ Ht)
  (c_string_no_NUL _ _ Hc) Hmn Hdn Hlt Hlc Hml Hdl).
  prun Hrun. prun_lift (eq_refl : guard_c (CURLE_OK =? CURLE_OK) AssertFailed = Ok tt).
  prun (check_json_run (mk_api j n') resp t (lit "true") Hstr Hok eq_refl).
  rewrite bool_decide_eq_true_2 by done. cbn [negb].
  unfold FILE_ID_SIZE. assert (zlen (memset0 100) = 100) as H100 by done.
  prun (read_field_run (mk_api j n') resp t _ fid (memset0 100) Hstr Hf
  ltac:(rewrite H100; unfold SIZE_MAX; lia)).
  eexists j, _. split; [done|]. simpl. split; [done|].
  split; [by apply id_array_fill | done].
Qed.

(** Deleting a message always returns 0 on an answer. *)
Lemma delete_message_run n' resp mid :
  curl_easy_init s.(network) = true -> id_array file.(message_id) mid ->
  curl_easy_perform s.(network) (mk_request (delete_url tok chat mid) None) =
  (mk_transfer CURLE_OK [resp], n') ->
  ok_response resp \/ error_response resp ->
  exists j, tg_remove_message_with_file cfg file s = Ok (0, mk_api j n') /\ json_wf j.
Proof using Hcfg Hj.
  intros Hi Hm Hp Hresp. destruct Hcfg as (Ht & Hc & Hlt & Hlc).
  assert (response resp /\ exists w, word_field resp (lit "ok") w /\ zlen w < 100)
  as (Hr & w & Hw & Hl).
  { destruct Hresp as [[Hr Hw] | (Hr & w & Hw & _ & Hl)]; [|by eauto].
  split; [done|]. by exists (lit "true"). }
  destruct (perform_json_run s _ CURLE_OK resp n' Hp Hj Hr) as (j & t & Hrun & Hj' & Hstr).
  assert (Hm' := Hm). destruct Hm' as (_ & Hmn & Hml).
  exists j. split; [|done]. unfold tg_remove_message_with_file. prun_get. rewrite Hi.
  prun_lift (eq_refl : guard_c true AssertFailed = Ok tt).
  prun_lift Ht. prun_lift Hc. prun_lift (id_array_string _ _ Hm).
  prun_lift (delete_url_fits tok chat mid (c_string_no_NUL _ _ Ht)
  (c_string_no_NUL _ _ Hc) Hmn Hlt Hlc Hml).
  prun Hrun. rewrite Z.eqb_refl. cbn [negb].
  by prun (check_json_run (mk_api j n') resp t w Hstr Hw Hl).
Qed.

(** Loading a stored file gives its bytes, whatever the chunks. *)
Lemma load_contents_ok n1 resp fp n2 chunks fid :
  curl_easy_init s.(network) = true -> id_array file.(file_id) fid ->
  curl_easy_perform s.(network) (mk_request (get_url tok fid) None) =
  (mk_transfer CURLE_OK [resp], n1) ->
  ok_response resp -> field_text resp (lit "file_path") fp -> good_id fp ->
  curl_easy_perform n1 (mk_request (file_url tok fp) None) =
  (mk_transfer CURLE_OK chunks, n2) ->
  100 + zlen (concat chunks) <= malloc_max ->
  exists j b, tg_file_load_contents cfg file s = Ok (b, mk_api j n2) /\ json_wf j /\
  buffer_wf b /\ contents b = cells (concat chunks).
Proof using Hcfg.
  intros Hi Hid Hp1 [Hr Hok] Hf (_ & Hfn & Hfl) Hp2 Hmax.
  destruct Hcfg as (Ht & Hc & Hlt & Hlc).
  destruct (perform_json_run (mk_api (memset0 JSON_RESPONSE_BUF_SIZE) s.(network)) _
  CURLE_OK resp n1 Hp1 json_wf_zero Hr) as (j & t & Hrun & Hj' & Hstr).
  destruct (perform_file_run (mk_api j n1) _ CURLE_OK chunks n2 Hp2 Hmax)
  as (b & Hfile & Hb & Hcon).
  exists j, b. split; [|done]. unfold tg_file_load_contents, set_json.
  rewrite pbind_assoc. prun_get. prun (pput_run s (mk_api (memset0 JSON_RESPONSE_BUF_SIZE) s.(network))).
  prun_get. cbn [network]. rewrite Hi. cbn [negb].
  prun_lift Ht. prun_lift (id_array_string _ _ Hid).
  assert (Hid' := Hid). destruct Hid' as (_ & Hin & Hil).
  prun_lift (get_url_fits tok fid (c_string_no_NUL _ _ Ht) Hin Hlt Hil).
  prun Hrun. rewrite Z.eqb_refl. cbn [negb].
  prun (check_json_run (mk_api j n1) resp t (lit "true") Hstr Hok eq_refl).
  rewrite bool_decide_eq_true_2 by done. cbn [negb].
  unfold FILE_PATH_SIZE. assert (zlen (memset0 100) = 100) as H100 by done.
  prun (read_field_run (mk_api j n1) resp t _ fp (memset0 100) Hstr Hf
  ltac:(rewrite H100; unfold SIZE_MAX; lia)).
  prun_lift (id_array_string _ _ (id_array_fill fp Hfn Hfl)).
  prun_lift (file_url_fits tok fp (c_string_no_NUL _ _ Ht) Hfn Hlt Hfl).
  by prun Hfile.
Qed.
End branches.
End specs.

End Telegram.
