(* ===== verification/FuseTypes.v ===== *)
(** * The structures libfuse and the file system exchange
    (include/fuse_common.h and include/fuse.h of fuse-3.17.2)

    Error numbers and file modes are those of Linux.  A [double] that the code
    only stores and compares with zero is a rational here; the padding and
    reserved fields are left out. *)
From S2P Require Import Prelude CLib.
From Stdlib Require Import QArith.
#[global] Close Scope Q_scope.
#[global] Open Scope Z_scope.
#[global] Open Scope c_scope.
#[global] Open Scope prog_scope.

Module FuseTypes.

Definition EPERM : Z := 1.
Definition ENOENT : Z := 2.
Definition EINTR : Z := 4.
Definition EIO : Z := 5.
Definition EAGAIN : Z := 11.
Definition ENOMEM : Z := 12.
Definition EACCES : Z := 13.
Definition EBUSY : Z := 16.
Definition EEXIST : Z := 17.
Definition ENOTDIR : Z := 20.
Definition EISDIR : Z := 21.
Definition EINVAL : Z := 22.
Definition ENOTTY : Z := 25.
Definition ERANGE : Z := 34.
Definition ENAMETOOLONG : Z := 36.
Definition ENOSYS : Z := 38.
Definition ENOTEMPTY : Z := 39.
Definition ESTALE : Z := 116.

Definition S_IFMT : Z := 0xf000.
Definition S_IFDIR : Z := 0x4000.
Definition S_IFREG : Z := 0x8000.
(** The octal constant 0777. *)
Definition MODE_0777 : Z := 0x1ff.

(** The fields of [struct stat] the code sets or reads; a time is seconds and
    nanoseconds. *)
Record stat := mk_stat {
  st_ino : Z;
  st_mode : Z;
  st_nlink : Z;
  st_uid : Z;
  st_gid : Z;
  st_size : Z;
  st_atim : Z * Z;
  st_mtim : Z * Z;
  st_ctim : Z * Z;
  st_rdev : Z;
  st_blksize : Z;
  st_blocks : Z;
}.

(** [memset(stbuf, 0, sizeof(struct stat))] *)
Definition stat_zero : stat := mk_stat 0 0 0 0 0 0 (0, 0) (0, 0) (0, 0) 0 0 0.

#[global] Instance stat_eq_dec : EqDecision stat.
Proof. solve_decision. Defined.

Definition with_st_ino (s : stat) v :=
  mk_stat v s.(st_mode) s.(st_nlink) s.(st_uid) s.(st_gid) s.(st_size) s.(st_atim) s.(st_mtim)
    s.(st_ctim) s.(st_rdev) s.(st_blksize) s.(st_blocks).
Definition with_st_mode (s : stat) v :=
  mk_stat s.(st_ino) v s.(st_nlink) s.(st_uid) s.(st_gid) s.(st_size) s.(st_atim) s.(st_mtim)
    s.(st_ctim) s.(st_rdev) s.(st_blksize) s.(st_blocks).
Definition with_st_nlink (s : stat) v :=
  mk_stat s.(st_ino) s.(st_mode) v s.(st_uid) s.(st_gid) s.(st_size) s.(st_atim) s.(st_mtim)
    s.(st_ctim) s.(st_rdev) s.(st_blksize) s.(st_blocks).
Definition with_st_uid (s : stat) v :=
  mk_stat s.(st_ino) s.(st_mode) s.(st_nlink) v s.(st_gid) s.(st_size) s.(st_atim) s.(st_mtim)
    s.(st_ctim) s.(st_rdev) s.(st_blksize) s.(st_blocks).
Definition with_st_gid (s : stat) v :=
  mk_stat s.(st_ino) s.(st_mode) s.(st_nlink) s.(st_uid) v s.(st_size) s.(st_atim) s.(st_mtim)
    s.(st_ctim) s.(st_rdev) s.(st_blksize) s.(st_blocks).
Definition with_st_size (s : stat) v :=
  mk_stat s.(st_ino) s.(st_mode) s.(st_nlink) s.(st_uid) s.(st_gid) v s.(st_atim) s.(st_mtim)
    s.(st_ctim) s.(st_rdev) s.(st_blksize) s.(st_blocks).

(** [struct fuse_file_info] *)
Record fuse_file_info := mk_file_info {
  fi_flags : Z;
  writepage : bool;
  fi_direct_io : bool;
  keep_cache : bool;
  flush : bool;
  nonseekable : bool;
  flock_release : bool;
  cache_readdir : bool;
  noflush : bool;
  fi_parallel_direct_writes : bool;
  fh : Z;
  lock_owner : Z;
  poll_events : Z;
  backing_id : Z;
}.

Definition file_info_zero : fuse_file_info :=
  mk_file_info 0 false false false false false false false false false 0 0 0 0.

(** [struct fuse_conn_info], without its padding. *)
Record fuse_conn_info := mk_conn_info {
  proto_major : Z;
  proto_minor : Z;
  max_write : Z;
  max_read : Z;
  max_readahead : Z;
  capable : Z;
  want : Z;
  max_background : Z;
  congestion_threshold : Z;
  time_gran : Z;
  max_backing_stack_depth : Z;
  no_interrupt : bool;
  capable_ext : Z;
  want_ext : Z;
}.

Definition with_want_ext (c : fuse_conn_info) (v : Z) : fuse_conn_info :=
  mk_conn_info c.(proto_major) c.(proto_minor) c.(max_write) c.(max_read) c.(max_readahead)
    c.(capable) c.(want) c.(max_background) c.(congestion_threshold) c.(time_gran)
    c.(max_backing_stack_depth) c.(no_interrupt) c.(capable_ext) v.

Definition FUSE_CAP_ASYNC_READ : Z := Z.shiftl 1 0.
Definition FUSE_CAP_POSIX_LOCKS : Z := Z.shiftl 1 1.
Definition FUSE_CAP_ATOMIC_O_TRUNC : Z := Z.shiftl 1 3.
Definition FUSE_CAP_EXPORT_SUPPORT : Z := Z.shiftl 1 4.
Definition FUSE_CAP_DONT_MASK : Z := Z.shiftl 1 6.
Definition FUSE_CAP_SPLICE_WRITE : Z := Z.shiftl 1 7.
Definition FUSE_CAP_SPLICE_MOVE : Z := Z.shiftl 1 8.
Definition FUSE_CAP_SPLICE_READ : Z := Z.shiftl 1 9.
Definition FUSE_CAP_FLOCK_LOCKS : Z := Z.shiftl 1 10.
Definition FUSE_CAP_IOCTL_DIR : Z := Z.shiftl 1 11.
Definition FUSE_CAP_AUTO_INVAL_DATA : Z := Z.shiftl 1 12.
Definition FUSE_CAP_READDIRPLUS : Z := Z.shiftl 1 13.
Definition FUSE_CAP_READDIRPLUS_AUTO : Z := Z.shiftl 1 14.
Definition FUSE_CAP_ASYNC_DIO : Z := Z.shiftl 1 15.
Definition FUSE_CAP_WRITEBACK_CACHE : Z := Z.shiftl 1 16.
Definition FUSE_CAP_NO_OPEN_SUPPORT : Z := Z.shiftl 1 17.
Definition FUSE_CAP_PARALLEL_DIROPS : Z := Z.shiftl 1 18.
Definition FUSE_CAP_POSIX_ACL : Z := Z.shiftl 1 19.
Definition FUSE_CAP_HANDLE_KILLPRIV : Z := Z.shiftl 1 20.
Definition FUSE_CAP_HANDLE_KILLPRIV_V2 : Z := Z.shiftl 1 21.
Definition FUSE_CAP_CACHE_SYMLINKS : Z := Z.shiftl 1 23.
Definition FUSE_CAP_NO_OPENDIR_SUPPORT : Z := Z.shiftl 1 24.
Definition FUSE_CAP_EXPLICIT_INVAL_DATA : Z := Z.shiftl 1 25.
Definition FUSE_CAP_EXPIRE_ONLY : Z := Z.shiftl 1 26.
Definition FUSE_CAP_SETXATTR_EXT : Z := Z.shiftl 1 27.
Definition FUSE_CAP_DIRECT_IO_ALLOW_MMAP : Z := Z.shiftl 1 28.
Definition FUSE_CAP_PASSTHROUGH : Z := Z.shiftl 1 29.
Definition FUSE_CAP_NO_EXPORT_SUPPORT : Z := Z.shiftl 1 30.

Definition fuse_set_feature_flag (conn : fuse_conn_info) (flag : Z) : bool * fuse_conn_info :=
  if negb (Z.land conn.(capable_ext) flag =? 0)
  then (true, with_want_ext conn (Z.lor conn.(want_ext) flag))
  else (false, conn).

(** [want_ext &= ~flag] on 64 bits *)
Definition fuse_unset_feature_flag (conn : fuse_conn_info) (flag : Z) : fuse_conn_info :=
  with_want_ext conn (Z.land conn.(want_ext) (u64 (Z.lnot flag))).

Definition fuse_get_feature_flag (conn : fuse_conn_info) (flag : Z) : bool :=
  if negb (Z.land conn.(capable_ext) flag =? 0) then true else false.

(** [struct fuse_config] *)
Record fuse_config := mk_fuse_config {
  set_gid : Z;
  cfg_gid : Z;
  set_uid : Z;
  cfg_uid : Z;
  set_mode : Z;
  cfg_umask : Z;
  entry_timeout : Q;
  negative_timeout : Q;
  attr_timeout : Q;
  intr : Z;
  intr_signal : Z;
  remember : Z;
  hard_remove : Z;
  use_ino : Z;
  readdir_ino : Z;
  direct_io : Z;
  kernel_cache : Z;
  auto_cache : Z;
  ac_attr_timeout_set : Z;
  ac_attr_timeout : Q;
  nullpath_ok : Z;
  fmask : Z;
  dmask : Z;
  no_rofd_flush : Z;
  parallel_direct_writes : Z;
}.

Definition with_kernel_cache (c : fuse_config) (v : Z) : fuse_config :=
  mk_fuse_config c.(set_gid) c.(cfg_gid) c.(set_uid) c.(cfg_uid) c.(set_mode) c.(cfg_umask)
    c.(entry_timeout) c.(negative_timeout) c.(attr_timeout) c.(intr) c.(intr_signal)
    c.(remember) c.(hard_remove) c.(use_ino) c.(readdir_ino) c.(direct_io) v c.(auto_cache)
    c.(ac_attr_timeout_set) c.(ac_attr_timeout) c.(nullpath_ok) c.(fmask) c.(dmask)
    c.(no_rofd_flush) c.(parallel_direct_writes).

(** Asking for a capability gives it exactly when the kernel offers it, and
    giving it up leaves the other bits alone. *)
Lemma set_feature_flag_spec conn flag i :
  let r := fuse_set_feature_flag conn flag in
  r.1 = fuse_get_feature_flag conn flag /\
  Z.testbit r.2.(want_ext) i =
    Z.testbit conn.(want_ext) i || (r.1 && Z.testbit flag i).
Proof.
  unfold fuse_set_feature_flag, fuse_get_feature_flag.
  destruct (negb _); simpl; split; try done.
  - by rewrite Z.lor_spec.
  - by rewrite orb_false_r.
Qed.

Lemma unset_feature_flag_spec conn flag i :
  0 <= conn.(want_ext) < 2 ^ 64 ->
  Z.testbit (fuse_unset_feature_flag conn flag).(want_ext) i =
    Z.testbit conn.(want_ext) i && negb (Z.testbit flag i).
Proof.
  intros Hw. simpl. rewrite Z.land_spec. destruct (Z.ltb_spec i 0).
  { rewrite !Z.testbit_neg_r by lia. done. }
  unfold uwrap. destruct (Z.ltb_spec i 64).
  - rewrite Z.mod_pow2_bits_low, Z.lnot_spec by lia. done.
  - rewrite Z.mod_pow2_bits_high, andb_false_r by lia.
    rewrite (Z.bits_above_log2 conn.(want_ext)); [done | lia |].
    destruct (Z.eq_dec conn.(want_ext) 0) as [->|]; [simpl; lia|].
    apply Z.log2_lt_pow2; [lia|]. eapply Z.lt_le_trans; [apply Hw|].
    apply Z.pow_le_mono_r; lia.
Qed.

(** Both keep the wanted set within its 64 bits. *)
Lemma lor_range a b : 0 <= a < 2 ^ 64 -> 0 <= b < 2 ^ 64 -> 0 <= Z.lor a b < 2 ^ 64.
Proof.
  intros Ha Hb. split; [apply Z.lor_nonneg; lia|].
  destruct (Z.eq_dec (Z.lor a b) 0) as [->|Hne]; [lia|].
  assert (0 <= Z.lor a b) by (apply Z.lor_nonneg; lia).
  apply Z.log2_lt_pow2; [lia|]. rewrite Z.log2_lor by lia.
  apply Z.max_lub_lt.
  - destruct (Z.eq_dec a 0) as [->|]; [cbn; lia|]. apply Z.log2_lt_pow2; lia.
  - destruct (Z.eq_dec b 0) as [->|]; [cbn; lia|]. apply Z.log2_lt_pow2; lia.
Qed.

Lemma set_flag_range conn flag :
  0 <= conn.(want_ext) < 2 ^ 64 -> 0 <= flag < 2 ^ 64 ->
  0 <= (fuse_set_feature_flag conn flag).2.(want_ext) < 2 ^ 64.
Proof.
  intros Hw Hf. unfold fuse_set_feature_flag. destruct (negb _); [|done]. by apply lor_range.
Qed.

Lemma unset_flag_range conn flag :
  0 <= conn.(want_ext) < 2 ^ 64 ->
  0 <= (fuse_unset_feature_flag conn flag).(want_ext) < 2 ^ 64.
Proof.
  intros Hw. cbn. pose proof (uwrap_range 64 (Z.lnot flag) ltac:(lia)) as Hb.
  set (b := u64 (Z.lnot flag)) in *.
  assert (0 <= Z.land (want_ext conn) b) as H0 by (apply Z.land_nonneg; lia). split; [done|].
  destruct (Z.eq_dec (Z.land (want_ext conn) b) 0) as [->|Hne]; [lia|].
  assert (want_ext conn <> 0) by (intros He; by rewrite He in Hne).
  apply Z.log2_lt_pow2; [lia|].
  eapply Z.le_lt_trans; [apply Z.log2_land; lia|].
  eapply Z.le_lt_trans; [apply Z.le_min_l|]. apply Z.log2_lt_pow2; lia.
Qed.

Lemma set_flag_shape conn flag : exists w, (fuse_set_feature_flag conn flag).2 = with_want_ext conn w.
Proof.
  unfold fuse_set_feature_flag. destruct (negb _); [by eexists|].
  exists (want_ext conn). by destruct conn.
Qed.

End FuseTypes.
