(* ===== verification/Hello.v ===== *)
(** * The file system's operations (src/main.c)

    The handlers libfuse calls, over the program's static data: the storage, the
    configuration, and what tg_file.c keeps.  Every handler is the whole C
    function; a pointer into the storage is the index of the slot, so a store
    through it is a store into that slot.  [fuse_log] only writes to the
    standard error stream and is left out. *)
From S2P Require Import Prelude CLib Buffer Json TgFile TgStorage TgApi FuseTypes.
Import Buffer TgFile TgApi FuseTypes.

Module Hello.

Section hello.
Context {net : Type} `{CurlEnv net}.

(** The static variables [storage] and [config], and those of tg_file.c. *)
Record world := mk_world {
  storage : TgStorage.tg_storage;
  config : tg_config;
  tg_api : api net;
}.

Definition set_storage (st : TgStorage.tg_storage) : prog world unit :=
  w <-- pget ;; pput (mk_world st w.(config) w.(tg_api)).

(** Runs code of tg_file.c. *)
Definition in_api {A} (m : prog (api net) A) : prog world A := fun w =>
  let! (a, s) := m w.(tg_api) in Ok (a, mk_world w.(storage) w.(config) s).

(** [tg_storage_find_by_path(&storage, path)] *)
Definition find_path (path : list byte) : prog world (option Z) :=
  w <-- pget ;; plift (TgStorage.tg_storage_find_by_path w.(storage) (cstr path)).

(** The file a pointer into the storage points to. *)
Definition deref (i : Z) : prog world tg_file :=
  w <-- pget ;; plift (TgStorage.file_at w.(storage).(TgStorage.files) i).

(** A store through a pointer into the storage. *)
Definition store (i : Z) (f : tg_file) : prog world unit :=
  w <-- pget ;;
  fs <-- plift (TgStorage.set_slot w.(storage).(TgStorage.files) i (Some f)) ;;
  set_storage (TgStorage.mk_storage fs w.(storage).(TgStorage.size) w.(storage).(TgStorage.cap)).

Definition push (f : tg_file) : prog world unit :=
  w <-- pget ;;
  st <-- plift (TgStorage.tg_storage_push w.(storage) f) ;;
  set_storage st.

(** [tg_storage_remove_by_path(&storage, target)] *)
Definition remove_path (target : list cell) : prog world tg_file :=
  w <-- pget ;;
  let? (f, st) := plift (TgStorage.tg_storage_remove_by_path w.(storage) target) in
  set_storage st ;;; pret f.

Definition find_in_dir (path : list byte) (from : Z) : prog world Z :=
  w <-- pget ;;
  plift (TgStorage.tg_storage_find_files_by_dir w.(storage) (cstr path) from).

Definition hello_init (conn : fuse_conn_info) (cfg : fuse_config)
  : fuse_conn_info * fuse_config :=
  let cfg := with_kernel_cache cfg 1 in
  let conn := (fuse_set_feature_flag conn FUSE_CAP_ASYNC_READ).2 in
  let conn := fuse_unset_feature_flag conn FUSE_CAP_ASYNC_READ in
  (conn, cfg).

Definition hello_getattr (path : list byte) : prog world (Z * stat) :=
  let stbuf := stat_zero in
  c <-- plift (strcmp (cstr path) (cstr (lit "/"))) ;;
  if bool_decide (c = Eq) then
    let stbuf := with_st_mode stbuf (Z.lor S_IFDIR MODE_0777) in
    let stbuf := with_st_nlink stbuf 2 in
    pret (0, stbuf)
  else
    i <-- find_path path ;;
    match i with
    | Some i =>
        file <-- deref i ;;
        match file.(type) with
        | TG_FILE =>
            let stbuf := with_st_mode stbuf (Z.lor S_IFREG MODE_0777) in
            let stbuf := with_st_nlink stbuf 1 in
            let stbuf := with_st_size stbuf (i64 file.(file_size)) in
            pret (0, stbuf)
        | TG_DIR =>
            let stbuf := with_st_mode stbuf (Z.lor S_IFDIR MODE_0777) in
            let stbuf := with_st_nlink stbuf 1 in
            pret (0, stbuf)
        end
    | None => pret (- ENOENT, stbuf)
    end.

(** The loop of [hello_rmdir] from index [i + 1] on.  The path of the file
is passed by reference to the removal that overwrites its slot. *)
Fixpoint rmdir_loop (path : list byte) (i : Z) (fuel : nat) : prog world unit :=
  match fuel with
  | O => pfail OutOfFuel
  | S fuel =>
    i <-- find_in_dir path (i + 1) ;;
    if i =? -1 then pret tt
    else
      file <-- deref i ;;
      w <-- pget ;;
      (if file.(file_size) >? 0
       then _ <-- in_api (tg_remove_message_with_file w.(config) file) ;; pret tt
       else pret tt) ;;;
      _ <-- remove_path file.(TgFile.path) ;;
      rmdir_loop path i fuel
  end.

(** Each round of the loop starts past the previous index, so one more round
than there are files ends it. *)
Definition hello_rmdir (path : list byte) : prog world Z :=
  dir <-- find_path path ;;
  match dir with
  | None => pret (- ENOTDIR)
  | Some d =>
    dir <-- deref d ;;
    match dir.(type) with
    | TG_FILE => pret (- ENOTDIR)
    | TG_DIR =>
        w <-- pget ;;
        rmdir_loop path (-1) (S (Z.to_nat w.(storage).(TgStorage.size))) ;;;
        _ <-- remove_path (cstr path) ;;
        pret 0
    end
  end.

(** libfuse's [filler]: adds a name to a directory buffer of type [D]; its
result is not used. *)
Fixpoint readdir_loop {D} (filler : D -> list byte -> Z * D) (path : list byte)
  (buf : D) (i : Z) (fuel : nat) : prog world D :=
  match fuel with
  | O => pfail OutOfFuel
  | S fuel =>
    i <-- find_in_dir path (i + 1) ;;
    if i =? -1 then pret buf
    else
      cur <-- deref i ;;
      filename <-- plift (tg_file_extract_filename (uninit 100) cur) ;;
      name <-- plift (c_string filename) ;;
      readdir_loop filler path (filler buf name).2 i fuel
  end.

Definition hello_readdir {D} (path : list byte) (buf : D)
  (filler : D -> list byte -> Z * D) : prog world (Z * D) :=
  tg_dir <-- find_path path ;;
  match tg_dir with
  | None => pret (- ENOENT, buf)
  | Some i =>
    dir <-- deref i ;;
    if bool_decide (dir.(type) <> TG_DIR) then pret (- ENOENT, buf)
    else
      let buf := (filler buf (lit ".")).2 in
      let buf := (filler buf (lit "..")).2 in
      w <-- pget ;;
      buf <-- readdir_loop filler path buf (-1)
                (S (Z.to_nat w.(storage).(TgStorage.size))) ;;
      pret (0, buf)
  end.

Definition hello_create (path : list byte) : prog world Z :=
  i <-- find_path path ;;
  is_dir <-- match i with
           | Some i => f <-- deref i ;; pret (bool_decide (f.(type) = TG_DIR))
           | None => pret false
           end ;;
  if is_dir : bool then pret (- EISDIR)
  else
    new_file <-- plift (tg_file_new_file path 0) ;;
    push new_file ;;;
    pret 0.

Definition hello_open (path : list byte) : prog world Z :=
  file <-- find_path path ;;
  match file with
  | None => pret (- ENOENT)
  | Some _ => pret 0
  end.

(** [buf] is the memory of the caller; the result comes with what it holds
afterwards. *)
Definition hello_read (path : list byte) (buf : list cell) (size offset : Z)
  : prog world (Z * list cell) :=
  i <-- find_path path ;;
  match i with
  | None => pret (- ENOENT, buf)
  | Some i =>
    file <-- deref i ;;
    len <-- plift (strlen file.(file_id)) ;;
    if len =? 0 then pret (0, buf)
    else
      w <-- pget ;;
      src <-- in_api (tg_file_load_contents w.(config) file) ;;
      if src.(Buffer.size) =? 0 then pret (- ENOENT, buf)
      else
        let len := src.(Buffer.size) in
        if offset <? i64 len then
          let size := if u64 (offset + size) >? len then u64 (len - offset) else size in
          xs <-- plift (ptr_read src.(ptr) offset size) ;;
          buf <-- plift (mem_write buf 0 xs) ;;
          pret (i32 size, buf)
        else pret (i32 0, buf)
  end.

(** The two objects [file] can point to: a slot of the storage, or the local
copy [if_no] of a file that was just added. *)
Definition hello_write (path : list byte) (buf : list cell) (size offset : Z)
  : prog world Z :=
  i <-- find_path path ;;
  match i with
  | None =>
    if_no <-- plift (tg_file_new_file path (u64 (offset + size))) ;;
    push if_no ;;;
    let data := buffer_new in
    data <-- plift (buffer_insert data (u64 offset) buf size) ;;
    w <-- pget ;;
    _ <-- in_api (tg_put_file if_no w.(config) data) ;;
    pret (i32 size)
  | Some i =>
    file <-- deref i ;;
    match file.(type) with
    | TG_DIR => pret (- ENOENT)
    | TG_FILE =>
        w <-- pget ;;
        data <-- (if file.(file_size) >? 0
                  then in_api (tg_file_load_contents w.(config) file)
                  else pret buffer_new) ;;
        data <-- plift (buffer_insert data (u64 offset) buf size) ;;
        file <-- in_api (tg_put_file file w.(config) data) ;;
        store i (with_file_size file data.(Buffer.size)) ;;;
        pret (i32 size)
    end
  end.

Definition hello_destroy : prog world unit :=
  w <-- pget ;; set_storage (TgStorage.tg_storage_free w.(storage)).

Definition hello_mkdir (path : list byte) : prog world Z :=
  dir <-- plift (tg_file_new_dir path) ;;
  push dir ;;;
  pret 0.

Definition hello_unlink (path : list byte) : prog world Z :=
  file <-- remove_path (cstr path) ;;
  len <-- plift (strlen file.(TgFile.path)) ;;
  if len =? 0 then pret (- ENOENT)
  else
    w <-- pget ;;
    _ <-- in_api (tg_remove_message_with_file w.(config) file) ;;
    pret 0.

Definition hello_setxattr (path name value : list byte) (size flags : Z) : prog world Z :=
  pret 0.

Definition hello_utimens (path : list byte) (ts : (Z * Z) * (Z * Z)) : prog world Z :=
  pret 0.

(** What [main] sets up before it hands control to libfuse; the chat and the
token of the bot are two literals of the source. *)
Definition main_setup (chat token : list byte) (net0 : net) : outcome world :=
  config <- tg_config_new chat token ;;
  root <- tg_file_new_dir (lit "/") ;;
  st <- TgStorage.tg_storage_push TgStorage.tg_storage_new root ;;
  Ok (mk_world st config (mk_api (memset0 JSON_RESPONSE_BUF_SIZE) net0)).
End hello.

Arguments world net : clear implicits.
Arguments mk_world {net}.

End Hello.
