(* ===== verification/HelloFacts.v ===== *)
(** * What the operations of the file system do (src/main.c)

    One lemma per operation, for a world whose storage holds a list of files:
    what is returned and what the storage holds afterwards.  These are the
    operations that do not use the network, and the removal of a directory up to
    the requests it sends. *)
From S2P Require Import Prelude CLib Buffer Json TgFile TgStorage TgApi FuseTypes Hello.
Import Buffer TgFile TgStorage TgApi FuseTypes Hello.

Module HelloFacts.

(** What [stat] reports of a file. *)
Definition stat_of (f : tg_file) : stat :=
  match f.(type) with
  | TG_FILE => mk_stat 0 (Z.lor S_IFREG MODE_0777) 1 0 0 (i64 f.(file_size)) (0, 0) (0, 0) (0, 0) 0 0 0
  | TG_DIR => mk_stat 0 (Z.lor S_IFDIR MODE_0777) 1 0 0 0 (0, 0) (0, 0) (0, 0) 0 0 0
  end.

Definition root_stat : stat :=
  mk_stat 0 (Z.lor S_IFDIR MODE_0777) 2 0 0 0 (0, 0) (0, 0) (0, 0) 0 0 0.

(** The names a directory listing returns, in storage order. *)
Definition dir_names (d : list byte) (fs : list tg_file) : list (list byte) :=
  (fun f => basename (path_of f)) <$> filter (in_dir d) fs.

(** Passing a sequence of names to the filler. *)
Definition fill {D} (filler : D -> list byte -> Z * D) (buf : D) (names : list (list byte)) : D :=
  foldl (fun b n => (filler b n).2) buf names.

Definition is_dir_at (p : list byte) (fs : list tg_file) : bool :=
  match lookup_path p fs with
  | Some (_, f) => bool_decide (f.(type) = TG_DIR)
  | None => false
  end.

(** The next file of a directory splits off the head of its remaining files. *)
Lemma next_in_dir_cases d fs from :
  0 <= from ->
  (next_in_dir d fs from = -1 /\ filter (in_dir d) (zdrop from fs) = []) \/
  exists k f, next_in_dir d fs from = Z.of_nat k /\ from <= Z.of_nat k /\
    fs !! k = Some f /\
    filter (in_dir d) (zdrop from fs) = f :: filter (in_dir d) (zdrop (Z.of_nat k + 1) fs).
Proof.
  intros Hfrom. unfold next_in_dir.
  destruct (list_find (in_dir d) (zdrop from fs)) as [[k f]|] eqn:Hf.
  - apply list_find_Some in Hf as (Hk & Hin & Hbefore). right.
    exists (Z.to_nat from + k)%nat, f. split; [lia|]. split; [lia|].
    unfold zdrop in *. rewrite lookup_drop in Hk. split; [done|].
    rewrite <- (take_drop k (drop (Z.to_nat from) fs)) at 1.
    rewrite filter_app, drop_drop.
    assert (filter (in_dir d) (take k (drop (Z.to_nat from) fs)) = []) as ->.
    { apply filter_none. intros x Hx Hdx. apply list_elem_of_lookup in Hx as [j Hj].
      apply lookup_take_Some in Hj as [Hj Hlt]. by eapply Hbefore. }
    rewrite (drop_S fs f) by done. rewrite filter_cons_True by done. simpl.
    do 3 f_equal. lia.
  - left. split; [done|]. apply list_find_None in Hf.
    apply filter_none. by rewrite Forall_forall in Hf.
Qed.

Section facts.
Context {net : Type} `{CurlEnv net}.
Implicit Types (w : world net) (fs : list tg_file) (p : list byte).

Lemma find_path_rep w fs p :
  rep w.(storage) fs -> NUL ∉ p ->
  find_path p w = Ok ((fun '(k, _) => Z.of_nat k) <$> lookup_path p fs, w).
Proof.
  intros Hrep Hp. unfold find_path, pbind, pget, plift. cbn [obind].
  rewrite (find_rep w.(storage) fs Hrep (cstr p) p) by (by apply c_string_cstr). done.
Qed.

Lemma deref_rep w fs k f :
  rep w.(storage) fs -> fs !! k = Some f -> deref (Z.of_nat k) w = Ok (f, w).
Proof.
  intros Hrep Hk. unfold deref, pbind, pget, plift. cbn [obind].
  by rewrite (file_at_rep _ _ _ f Hrep Hk).
Qed.

Lemma push_world w fs f :
  rep w.(storage) fs -> file_wf f -> zlen fs * 2 + 1 <= INT_MAX ->
  exists st, push f w = Ok (tt, mk_world st w.(config) w.(tg_api)) /\ rep st (fs ++ [f]).
Proof.
  intros Hrep Hf Hmax. destruct (push_rep _ _ _ Hrep Hf Hmax) as (st & Hst & Hr).
  exists st. split; [|done]. unfold push, pbind, pget, plift. cbn [obind].
  by rewrite Hst.
Qed.

(** A lookup that succeeds, with the file read through the pointer. *)
Lemma lookup_path_in fs p k f :
  lookup_path p fs = Some (k, f) -> fs !! k = Some f.
Proof. by intros (? & _)%lookup_path_Some. Qed.

Lemma getattr_spec w fs p :
  rep w.(storage) fs -> NUL ∉ p ->
  hello_getattr p w =
  Ok (if decide (p = lit "/") then (0, root_stat)
      else match lookup_path p fs with
           | Some (_, f) => (0, stat_of f)
           | None => (- ENOENT, stat_zero)
           end, w).
Proof.
  intros Hrep Hp. unfold hello_getattr, pbind at 1, plift.
  destruct (strcmp_strings (cstr p) (cstr (lit "/")) p (lit "/")) as (c & -> & Hc).
  { by apply c_string_cstr. }
  { apply c_string_cstr. no_NUL. }
  cbn [obind]. destruct (decide (p = lit "/")) as [He|He].
  - rewrite bool_decide_eq_true_2 by tauto. done.
  - rewrite bool_decide_eq_false_2 by tauto. unfold pbind at 1.
  rewrite (find_path_rep _ _ _ Hrep Hp). cbn [obind].
  destruct (lookup_path p fs) as [[k f]|] eqn:Hk; simpl; [|done].
  unfold pbind. rewrite (deref_rep _ _ _ f Hrep) by (by eapply lookup_path_in).
  cbn [obind]. unfold stat_of. by destruct (type f).
Qed.

Lemma open_spec w fs p :
  rep w.(storage) fs -> NUL ∉ p ->
  hello_open p w =
  Ok (match lookup_path p fs with Some _ => 0 | None => - ENOENT end, w).
Proof.
  intros Hrep Hp. unfold hello_open, pbind.
  rewrite (find_path_rep _ _ _ Hrep Hp). cbn [obind].
  by destruct (lookup_path p fs) as [[k f]|].
Qed.

Lemma mkdir_spec w fs p :
  rep w.(storage) fs -> good_path p -> zlen fs * 2 + 1 <= INT_MAX ->
  exists d st, hello_mkdir p w = Ok (0, mk_world st w.(config) w.(tg_api)) /\
  tg_file_new_dir p = Ok d /\ rep st (fs ++ [d]).
Proof.
  intros Hrep Hp Hmax. destruct (new_dir_spec p Hp) as (d & Hd & Hwf & _).
  destruct (push_world w fs d Hrep Hwf Hmax) as (st & Hst & Hr).
  exists d, st. split; [|done]. unfold hello_mkdir, pbind, plift.
  rewrite Hd. cbn [obind]. by rewrite Hst.
Qed.

Lemma create_spec w fs p :
  rep w.(storage) fs -> good_path p -> zlen fs * 2 + 1 <= INT_MAX ->
  if is_dir_at p fs then hello_create p w = Ok (- EISDIR, w)
  else exists f st, hello_create p w = Ok (0, mk_world st w.(config) w.(tg_api)) /\
  tg_file_new_file p 0 = Ok f /\ rep st (fs ++ [f]).
Proof.
  intros Hrep Hp Hmax. assert (Hp' := Hp). destruct Hp' as (_ & Hn & _).
  assert (hello_create p w = (if is_dir_at p fs then pret (- EISDIR)
  else new_file <-- plift (tg_file_new_file p 0) ;; push new_file ;;; pret 0) w) as ->.
  { unfold hello_create, is_dir_at, pbind at 1. rewrite (find_path_rep _ _ _ Hrep Hn).
  cbn [obind]. destruct (lookup_path p fs) as [[k f]|] eqn:Hk; [|done].
  unfold pbind at 1 2. cbn [fmap option_fmap option_map].
  rewrite (deref_rep _ _ _ f Hrep) by (by eapply lookup_path_in). done. }
  destruct (is_dir_at p fs); [done|].
  destruct (new_file_spec p 0 Hp) as (f & Hf & Hwf & _); [unfold SIZE_MAX; lia|].
  destruct (push_world w fs f Hrep Hwf Hmax) as (st & Hst & Hr).
  exists f, st. split; [|done]. unfold pbind, plift. rewrite Hf. cbn [obind].
  by rewrite Hst.
Qed.

(** A path of 100 bytes or more is copied past the end of its array. *)
Lemma mkdir_overflow w p :
  NUL ∉ p -> FILE_PATH_SIZE <= zlen p -> hello_mkdir p w = Fail OutOfBounds.
Proof.
  intros Hn Hl. unfold hello_mkdir, pbind, plift. by rewrite new_dir_overflow.
Qed.

Lemma create_overflow w fs p :
  rep w.(storage) fs -> NUL ∉ p -> FILE_PATH_SIZE <= zlen p ->
  hello_create p w = Fail OutOfBounds.
Proof.
  intros Hrep Hn Hl. unfold hello_create, pbind, plift.
  rewrite (find_path_rep _ _ _ Hrep Hn). cbn [obind].
  destruct (lookup_path p fs) as [[k f]|] eqn:Hk.
  - apply lookup_path_Some in Hk as (Hk & <- & _).
  pose proof (rep_wf _ _ Hrep) as Hwf. rewrite Forall_lookup in Hwf.
  destruct (wf_path_of f (Hwf _ _ Hk)) as [_ (_ & _ & ?)]. lia.
  - simpl. by rewrite new_file_overflow.
Qed.

(** ** Walking a directory *)

Lemma find_in_dir_rep w fs p from :
  rep w.(storage) fs -> NUL ∉ p -> 0 <= from ->
  find_in_dir p from w = Ok (next_in_dir p fs from, w).
Proof.
  intros Hrep Hp Hf. unfold find_in_dir, pbind, pget, plift. cbn [obind].
  by rewrite (find_files_rep w.(storage) fs Hrep (cstr p) p) by (done || by apply c_string_cstr).
Qed.

Lemma readdir_loop_spec {D} (filler : D -> list byte -> Z * D) w fs p buf i fuel :
  rep w.(storage) fs -> NUL ∉ p -> -1 <= i < zlen fs -> zlen fs - i <= Z.of_nat fuel ->
  readdir_loop filler p buf i fuel w =
  Ok (fill filler buf (dir_names p (zdrop (i + 1) fs)), w).
Proof.
  intros Hrep Hp. revert buf i. induction fuel as [|fuel IH]; intros buf i Hi Hfuel; [lia|].
  cbn [readdir_loop]. unfold pbind at 1. rewrite (find_in_dir_rep w fs) by (done || lia).
  cbn [obind]. pose proof (next_in_dir_cases p fs (i + 1) ltac:(lia)) as Hnext.
  destruct (Z.eqb_spec (next_in_dir p fs (i + 1)) (-1)) as [He|He].
  - unfold dir_names. rewrite He in Hnext. destruct Hnext as [[_ ->]|(? & ? & ? & _)]; [done | lia].
  - destruct Hnext as [[? _]|(k & f & Hk & Hge & Hlk & Hfil)]; [done|]. rewrite Hk.
  unfold pbind at 1. rewrite (deref_rep _ _ _ f Hrep Hlk). cbn [obind].
  pose proof (rep_wf _ _ Hrep) as Hwf. rewrite Forall_lookup in Hwf.
  destruct (extract_filename_spec f (uninit 100) (Hwf _ _ Hlk)) as (a & Ha & _ & Hs); [done|].
  unfold pbind at 1, plift at 1. rewrite Ha. cbn [obind].
  unfold pbind at 1, plift at 1. rewrite Hs. cbn [obind].
  apply lookup_lt_Some in Hlk. rewrite IH by lia.
  unfold dir_names. rewrite Hfil. done.
Qed.

(** A listing has the two dot entries and then the base name of every file of
the directory, in storage order. *)
Lemma readdir_spec {D} (filler : D -> list byte -> Z * D) w fs p buf :
  rep w.(storage) fs -> NUL ∉ p ->
  hello_readdir p buf filler w =
  Ok (if is_dir_at p fs
      then (0, fill filler buf ([lit "."; lit ".."] ++ dir_names p fs))
      else (- ENOENT, buf), w).
Proof.
  intros Hrep Hp. unfold hello_readdir, is_dir_at, pbind at 1.
  rewrite (find_path_rep _ _ _ Hrep Hp). cbn [obind].
  destruct (lookup_path p fs) as [[k f]|] eqn:Hk; [|done].
  cbn [fmap option_fmap option_map]. unfold pbind at 1.
  rewrite (deref_rep _ _ _ f Hrep) by (by eapply lookup_path_in). cbn [obind].
  destruct (decide (type f = TG_DIR)) as [Ht|Ht].
  - rewrite bool_decide_eq_false_2, bool_decide_eq_true_2 by tauto.
  unfold pbind at 1, pget. cbn [obind]. unfold pbind at 1.
  apply lookup_path_in in Hk. apply lookup_lt_Some in Hk.
  rewrite (rep_size _ _ Hrep), (readdir_loop_spec filler w fs) by (done || lia).
  done.
  - rewrite bool_decide_eq_true_2, bool_decide_eq_false_2 by tauto. done.
Qed.
End facts.
End HelloFacts.
