(* ===== verification/FuseBuf.v ===== *)
(** * Data buffers of libfuse (fuse-3.17.2/lib/buffer.c)

    A buffer is a piece of memory or a file descriptor; a vector is a sequence of
    buffers with a position in it.  Memory is a heap of blocks, a pointer a block
    and an offset.  The system calls are a parameter.  The code is the one for a
    system with splice(2). *)
From S2P Require Import Prelude CLib FuseTypes.
Import FuseTypes.

Module FuseBuf.

Definition FUSE_BUF_IS_FD : Z := Z.shiftl 1 1.
Definition FUSE_BUF_FD_SEEK : Z := Z.shiftl 1 2.
Definition FUSE_BUF_FD_RETRY : Z := Z.shiftl 1 3.

Definition FUSE_BUF_NO_SPLICE : Z := Z.shiftl 1 1.
Definition FUSE_BUF_FORCE_SPLICE : Z := Z.shiftl 1 2.
Definition FUSE_BUF_SPLICE_MOVE : Z := Z.shiftl 1 3.
Definition FUSE_BUF_SPLICE_NONBLOCK : Z := Z.shiftl 1 4.

(** The flags of splice(2). *)
Definition SPLICE_F_MOVE : Z := 1.
Definition SPLICE_F_NONBLOCK : Z := 2.

Definition has_flag (flags bit : Z) : bool := negb (Z.land flags bit =? 0).

(** A block of the heap and an offset into it; [None] is the null pointer. *)
Abbreviation mptr := (option (Z * Z)).

Definition ptr_add (p : mptr) (n : Z) : mptr := (fun '(b, o) => (b, o + n)) <$> p.

Record fuse_buf := mk_buf {
  size : Z;
  flags : Z;
  mem : mptr;
  fd : Z;
  pos : Z;
  mem_size : Z;
}.

Record fuse_bufvec := mk_bufvec {
  count : Z;
  idx : Z;
  off : Z;
  buf : list fuse_buf;
}.

Definition FUSE_BUFVEC_INIT (size : Z) : fuse_bufvec :=
  {| count := 1; idx := 0; off := 0;
     buf := [ {| size := size; flags := 0; mem := None; fd := -1; pos := 0; mem_size := 0 |} ] |}.

Definition with_mem (b : fuse_buf) (p : mptr) : fuse_buf :=
  mk_buf b.(size) b.(flags) p b.(fd) b.(pos) b.(mem_size).
Definition with_size (b : fuse_buf) (n : Z) : fuse_buf :=
  mk_buf n b.(flags) b.(mem) b.(fd) b.(pos) b.(mem_size).

(** [v.buf[0].mem = p] and [v.buf[0].size = n] on a vector of one buffer. *)
Definition set_mem0 (v : fuse_bufvec) (p : mptr) : fuse_bufvec :=
  mk_bufvec v.(count) v.(idx) v.(off) (alter (fun b => with_mem b p) 0%nat v.(buf)).
Definition set_size0 (v : fuse_bufvec) (n : Z) : fuse_bufvec :=
  mk_bufvec v.(count) v.(idx) v.(off) (alter (fun b => with_size b n) 0%nat v.(buf)).

(** What a system call returns: a value, or -1 and [errno]. *)
Inductive sysres (A : Type) :=
  | Ret (a : A)
  | Err (errno : Z).
Arguments Ret {A} a.
Arguments Err {A} errno.

Class Syscalls (os : Type) := {
  sys_write : os -> Z -> list cell -> sysres Z * os;
  sys_pwrite : os -> Z -> list cell -> Z -> sysres Z * os;
  sys_read : os -> Z -> Z -> sysres (list byte) * os;
  sys_pread : os -> Z -> Z -> Z -> sysres (list byte) * os;
  (** input and its position, output and its position, length, flags *)
  sys_splice : os -> Z -> option Z -> Z -> option Z -> Z -> Z -> sysres Z * os;
}.

(** The heap and the system. *)
Record bstate (os : Type) := mk_bstate {
  heap : gmap Z (list cell);
  sys : os;
}.
Arguments mk_bstate {os}.
Arguments heap {os}.
Arguments sys {os}.

(** The loop of [fuse_buf_size], over the first [n] buffers. *)
Fixpoint size_loop (l : list fuse_buf) (n : nat) (sz : Z) : Z :=
  match n, l with
  | S n, b :: l => if b.(size) >=? SIZE_MAX - sz then SIZE_MAX else size_loop l n (sz + b.(size))
  | _, _ => sz
  end.

Definition fuse_buf_size (bufv : fuse_bufvec) : Z :=
  size_loop bufv.(buf) (Z.to_nat bufv.(count)) 0.

Definition min_size (s1 s2 : Z) : Z := if s1 <? s2 then s1 else s2.

Section buf.
Context {os : Type} `{Syscalls os}.

Definition get_block (b : Z) : prog (bstate os) (list cell) :=
  s <-- pget ;; plift (lift_fault OutOfBounds (s.(heap) !! b)).

(** Reading and writing [n] cells through a pointer. *)
Definition mem_get (p : mptr) (n : Z) : prog (bstate os) (list cell) :=
  let? (b, o) := plift (lift_fault NullDeref p) in
  m <-- get_block b ;;
  plift (mem_read m o n).

Definition mem_set (p : mptr) (xs : list cell) : prog (bstate os) unit :=
  let? (b, o) := plift (lift_fault NullDeref p) in
  m <-- get_block b ;;
  m <-- plift (mem_write m o xs) ;;
  s <-- pget ;;
  pput (mk_bstate (<[b := m]> s.(heap)) s.(sys)).

(** Two pointers are the same; two regions of [n] cells do not overlap. *)
Definition ptr_eqb (p q : mptr) : bool := bool_decide (p = q).

Definition ptr_apart (p q : mptr) (n : Z) : bool :=
  match p, q with
  | Some (b, o), Some (b', o') => negb (b =? b') || (o + n <=? o') || (o' + n <=? o)
  | _, _ => true
  end.

(** [memcpy] on regions that overlap is undefined. *)
Definition memcpy (dst src : mptr) (n : Z) : prog (bstate os) unit :=
  plift (guard_c (ptr_apart dst src n) OutOfBounds) ;;;
  xs <-- mem_get src n ;; mem_set dst xs.

Definition memmove (dst src : mptr) (n : Z) : prog (bstate os) unit :=
  xs <-- mem_get src n ;; mem_set dst xs.

(** A system call. *)
Definition call {A} (f : os -> sysres A * os) : prog (bstate os) (sysres A) :=
  s <-- pget ;;
  let (r, o) := f s.(sys) in
  pput (mk_bstate s.(heap) o) ;;; pret r.

(** A new block, of a local array or of malloc. *)
Definition alloc (n : Z) : prog (bstate os) Z :=
  s <-- pget ;;
  let b := fresh (dom s.(heap)) in
  pput (mk_bstate (<[b := uninit n]> s.(heap)) s.(sys)) ;;; pret b.

Definition free_block (b : Z) : prog (bstate os) unit :=
  s <-- pget ;; pput (mk_bstate (delete b s.(heap)) s.(sys)).

(** The loop of [fuse_buf_write]. *)
Fixpoint write_loop (dst : fuse_buf) (dst_off : Z) (src : fuse_buf) (src_off len copied : Z)
  (fuel : nat) : prog (bstate os) Z :=
  match fuel with
  | O => pfail OutOfFuel
  | S fuel =>
    if len =? 0 then pret (i64 copied)
    else
      xs <-- mem_get (ptr_add src.(mem) src_off) len ;;
      res <-- (if has_flag dst.(flags) FUSE_BUF_FD_SEEK
               then call (fun o => sys_pwrite o dst.(fd) xs (i64 (dst.(pos) + dst_off)))
               else call (fun o => sys_write o dst.(fd) xs)) ;;
      match res with
      | Err errno => if copied =? 0 then pret (- errno) else pret (i64 copied)
      | Ret res =>
          if res =? 0 then pret (i64 copied)
          else
            let copied := u64 (copied + res) in
            if negb (has_flag dst.(flags) FUSE_BUF_FD_RETRY) then pret (i64 copied)
            else write_loop dst (u64 (dst_off + res)) src (u64 (src_off + res))
                   (u64 (len - res)) copied fuel
      end
  end.

Definition fuse_buf_write (dst : fuse_buf) (dst_off : Z) (src : fuse_buf) (src_off len : Z)
  : prog (bstate os) Z :=
  write_loop dst dst_off src src_off len 0 (S (Z.to_nat len)).

(** The loop of [fuse_buf_read]. *)
Fixpoint read_loop (dst : fuse_buf) (dst_off : Z) (src : fuse_buf) (src_off len copied : Z)
  (fuel : nat) : prog (bstate os) Z :=
  match fuel with
  | O => pfail OutOfFuel
  | S fuel =>
    if len =? 0 then pret (i64 copied)
    else
      res <-- (if has_flag src.(flags) FUSE_BUF_FD_SEEK
               then call (fun o => sys_pread o src.(fd) len (i64 (src.(pos) + src_off)))
               else call (fun o => sys_read o src.(fd) len)) ;;
      match res with
      | Err errno => if copied =? 0 then pret (- errno) else pret (i64 copied)
      | Ret data =>
          mem_set (ptr_add dst.(mem) dst_off) (cells data) ;;;
          let res := zlen data in
          if res =? 0 then pret (i64 copied)
          else
            let copied := u64 (copied + res) in
            if negb (has_flag src.(flags) FUSE_BUF_FD_RETRY) then pret (i64 copied)
            else read_loop dst (u64 (dst_off + res)) src (u64 (src_off + res))
                   (u64 (len - res)) copied fuel
      end
  end.

Definition fuse_buf_read (dst : fuse_buf) (dst_off : Z) (src : fuse_buf) (src_off len : Z)
  : prog (bstate os) Z :=
  read_loop dst dst_off src src_off len 0 (S (Z.to_nat len)).

(** The loop of [fuse_buf_fd_to_fd], through the bounce buffer [tmp]. *)
Fixpoint fd_to_fd_loop (tmp dst : fuse_buf) (dst_off : Z) (src : fuse_buf)
  (src_off len copied : Z) (fuel : nat) : prog (bstate os) Z :=
  match fuel with
  | O => pfail OutOfFuel
  | S fuel =>
    if len =? 0 then pret (i64 copied)
    else
      let this_len := min_size tmp.(size) len in
      res <-- fuse_buf_read tmp 0 src src_off this_len ;;
      if res <? 0 then (if copied =? 0 then pret res else pret (i64 copied))
      else if res =? 0 then pret (i64 copied)
      else
        let read_len := res in
        res <-- fuse_buf_write dst dst_off tmp 0 read_len ;;
        if res <? 0 then (if copied =? 0 then pret res else pret (i64 copied))
        else if res =? 0 then pret (i64 copied)
        else
          let copied := u64 (copied + res) in
          if u64 res <? this_len then pret (i64 copied)
          else fd_to_fd_loop tmp dst (u64 (dst_off + res)) src (u64 (src_off + res))
                 (u64 (len - res)) copied fuel
  end.

Definition fuse_buf_fd_to_fd (dst : fuse_buf) (dst_off : Z) (src : fuse_buf) (src_off len : Z)
  : prog (bstate os) Z :=
  b <-- alloc 4096 ;;
  let tmp := mk_buf 4096 0 (Some (b, 0)) 0 0 0 in
  res <-- fd_to_fd_loop tmp dst dst_off src src_off len 0 (S (Z.to_nat len)) ;;
  free_block b ;;; pret res.

(** The loop of [fuse_buf_splice]; the kernel advances the positions it is
given. *)
Fixpoint splice_loop (dst : fuse_buf) (dst_off : Z) (src : fuse_buf) (src_off : Z)
  (srcpos dstpos : option Z) (len copied : Z) (flg splice_flags : Z) (fuel : nat)
  : prog (bstate os) Z :=
  match fuel with
  | O => pfail OutOfFuel
  | S fuel =>
    if len =? 0 then pret (i64 copied)
    else
      res <-- call (fun o => sys_splice o src.(fd) srcpos dst.(fd) dstpos len splice_flags) ;;
      match res with
      | Err errno =>
          if negb (copied =? 0) then pret (i64 copied)
          else if negb (errno =? EINVAL) || has_flag flg FUSE_BUF_FORCE_SPLICE
          then pret (- errno)
          else fuse_buf_fd_to_fd dst dst_off src src_off len
      | Ret res =>
          if res =? 0 then pret (i64 copied)
          else
            let copied := u64 (copied + res) in
            if negb (has_flag src.(flags) FUSE_BUF_FD_RETRY) &&
               negb (has_flag dst.(flags) FUSE_BUF_FD_RETRY)
            then pret (i64 copied)
            else splice_loop dst dst_off src src_off ((fun p => i64 (p + res)) <$> srcpos)
                   ((fun p => i64 (p + res)) <$> dstpos) (u64 (len - res)) copied
                   flg splice_flags fuel
      end
  end.

Definition fuse_buf_splice (dst : fuse_buf) (dst_off : Z) (src : fuse_buf) (src_off len : Z)
  (flg : Z) : prog (bstate os) Z :=
  let splice_flags := 0 in
  let splice_flags := if has_flag flg FUSE_BUF_SPLICE_MOVE
                    then Z.lor splice_flags SPLICE_F_MOVE else splice_flags in
  let splice_flags := if has_flag flg FUSE_BUF_SPLICE_NONBLOCK
                    then Z.lor splice_flags SPLICE_F_NONBLOCK else splice_flags in
  let srcpos := if has_flag src.(flags) FUSE_BUF_FD_SEEK
              then Some (i64 (src.(pos) + src_off)) else None in
  let dstpos := if has_flag dst.(flags) FUSE_BUF_FD_SEEK
              then Some (i64 (dst.(pos) + dst_off)) else None in
  splice_loop dst dst_off src src_off srcpos dstpos len 0 flg splice_flags (S (Z.to_nat len)).

Definition fuse_buf_copy_one (dst : fuse_buf) (dst_off : Z) (src : fuse_buf) (src_off len : Z)
  (flg : Z) : prog (bstate os) Z :=
  let src_is_fd := has_flag src.(flags) FUSE_BUF_IS_FD in
  let dst_is_fd := has_flag dst.(flags) FUSE_BUF_IS_FD in
  if negb src_is_fd && negb dst_is_fd then
    let dstmem := ptr_add dst.(mem) dst_off in
    let srcmem := ptr_add src.(mem) src_off in
    (if negb (ptr_eqb dstmem srcmem) then
       if ptr_apart dstmem srcmem len then memcpy dstmem srcmem len
       else memmove dstmem srcmem len
     else pret tt) ;;;
    pret (i64 len)
  else if negb src_is_fd then fuse_buf_write dst dst_off src src_off len
  else if negb dst_is_fd then fuse_buf_read dst dst_off src src_off len
  else if has_flag flg FUSE_BUF_NO_SPLICE then fuse_buf_fd_to_fd dst dst_off src src_off len
  else fuse_buf_splice dst dst_off src src_off len flg.

End buf.

Definition fuse_bufvec_current (bufv : fuse_bufvec) : outcome (option fuse_buf) :=
  if bufv.(idx) <? bufv.(count)
  then b <- lift_fault OutOfBounds (zget bufv.(buf) bufv.(idx)) ;; Ok (Some b)
  else Ok None.

Definition fuse_bufvec_advance (bufv : fuse_bufvec) (len : Z) : outcome (bool * fuse_bufvec) :=
  b <- fuse_bufvec_current bufv ;;
  match b with
  | None => Ok (false, bufv)
  | Some b =>
      let bufv := mk_bufvec bufv.(count) bufv.(idx) (u64 (bufv.(off) + len)) bufv.(buf) in
      guard_c (bufv.(off) <=? b.(size)) AssertFailed ;;
      if bufv.(off) =? b.(size) then
        guard_c (bufv.(idx) <? bufv.(count)) AssertFailed ;;
        let bufv := mk_bufvec bufv.(count) (u64 (bufv.(idx) + 1)) bufv.(off) bufv.(buf) in
        if bufv.(idx) =? bufv.(count) then Ok (false, bufv)
        else Ok (true, mk_bufvec bufv.(count) bufv.(idx) 0 bufv.(buf))
      else Ok (true, bufv)
  end.

Section copy.
Context {os : Type} `{Syscalls os}.

(** The loop of [fuse_buf_copy].  Every round that goes on finishes a buffer of
one of the vectors, so their lengths bound the rounds. *)
Fixpoint copy_loop (dstv srcv : fuse_bufvec) (flg copied : Z) (fuel : nat)
  : prog (bstate os) (Z * fuse_bufvec * fuse_bufvec) :=
  match fuel with
  | O => pfail OutOfFuel
  | S fuel =>
    src <-- plift (fuse_bufvec_current srcv) ;;
    dst <-- plift (fuse_bufvec_current dstv) ;;
    match src, dst with
    | Some src, Some dst =>
        let src_len := u64 (src.(size) - srcv.(off)) in
        let dst_len := u64 (dst.(size) - dstv.(off)) in
        let len := min_size src_len dst_len in
        res <-- fuse_buf_copy_one dst dstv.(off) src srcv.(off) len flg ;;
        if res <? 0 then
          pret (if copied =? 0 then res else i64 copied, dstv, srcv)
        else
          let copied := u64 (copied + res) in
          let? (more, srcv) := plift (fuse_bufvec_advance srcv res) in
          if negb more then pret (i64 copied, dstv, srcv)
          else
            let? (more, dstv) := plift (fuse_bufvec_advance dstv res) in
            if negb more then pret (i64 copied, dstv, srcv)
            else if u64 res <? len then pret (i64 copied, dstv, srcv)
            else copy_loop dstv srcv flg copied fuel
    | _, _ => pret (i64 copied, dstv, srcv)
    end
  end.

(** [same]: the two arguments are the same object. *)
Definition fuse_buf_copy (same : bool) (dstv srcv : fuse_bufvec) (flg : Z)
  : prog (bstate os) (Z * fuse_bufvec * fuse_bufvec) :=
  if same then pret (i64 (fuse_buf_size dstv), dstv, srcv)
  else copy_loop dstv srcv flg 0 (S (length dstv.(buf) + length srcv.(buf))).

End copy.

End FuseBuf.
