(* ===== verification/FuseBufFacts.v ===== *)
(** * What copying between memory vectors does (fuse-3.17.2/lib/buffer.c)

    The flat view of a vector of memory buffers is the concatenation of their
    regions.  [fuse_buf_copy] between two such vectors is one splice of the flat
    view of the destination. *)
From S2P Require Import Prelude CLib FuseTypes FuseBuf.
Import FuseTypes FuseBuf.

Module FuseBufFacts.

(** ** The flat view *)

Definition blk (b : fuse_buf) : Z := match b.(mem) with Some (k, _) => k | None => 0 end.
Definition ofs (b : fuse_buf) : Z := match b.(mem) with Some (_, o) => o | None => 0 end.

Definition region (h : gmap Z (list cell)) (b : fuse_buf) : list cell :=
  ztake b.(size) (zdrop (ofs b) (default [] (h !! blk b))).

Definition flat (h : gmap Z (list cell)) (l : list fuse_buf) : list cell :=
  concat (region h <$> l).

(** A buffer of plain memory that exists. *)
Definition buf_wf (h : gmap Z (list cell)) (b : fuse_buf) : Prop :=
  has_flag b.(flags) FUSE_BUF_IS_FD = false /\ is_Some b.(mem) /\ 0 <= b.(size) /\ 0 <= ofs b /\
  exists m, h !! blk b = Some m /\ ofs b + b.(size) <= zlen m.

Definition vec_wf (h : gmap Z (list cell)) (v : fuse_bufvec) : Prop :=
  v.(count) = zlen v.(buf) /\ Forall (buf_wf h) v.(buf) /\ 0 <= v.(idx) <= v.(count) /\
  zlen (flat h v.(buf)) < 2 ^ 63 /\ zlen v.(buf) < 2 ^ 63 /\
  forall b, v.(buf) !! Z.to_nat v.(idx) = Some b -> 0 <= v.(off) <= b.(size).

(** Where a vector stands in its flat view. *)
Definition position (h : gmap Z (list cell)) (v : fuse_bufvec) : Z :=
  zlen (flat h (ztake v.(idx) v.(buf))) + (if v.(idx) <? v.(count) then v.(off) else 0).

Lemma flat_app h l1 l2 : flat h (l1 ++ l2) = flat h l1 ++ flat h l2.
Proof. unfold flat. by rewrite fmap_app, concat_app. Qed.

Lemma flat_cons h b l : flat h (b :: l) = region h b ++ flat h l.
Proof. done. Qed.

Lemma zlen_region h b : buf_wf h b -> zlen (region h b) = b.(size).
Proof.
  intros (_ & _ & Hs & Ho & m & Hm & Hl). unfold region. rewrite Hm. cbn [default].
  unfold id. rewrite zlen_ztake; [done|]. rewrite zlen_zdrop by lia. lia.
Qed.

Lemma splice_splice {A} (l : list A) i xs ys :
  0 <= i -> i + zlen xs + zlen ys <= zlen l ->
  splice (splice l i xs) (i + zlen xs) ys = splice l i (xs ++ ys).
Proof.
  intros Hi Hl. unfold splice.
  rewrite (app_assoc (ztake i l) xs), (ztake_app_exact _ (ztake i l ++ xs))
    by (rewrite zlen_app, zlen_ztake by lia; lia).
  rewrite <- !app_assoc. do 3 f_equal. rewrite !zlen_app.
  rewrite app_assoc, zdrop_app_ge by (rewrite zlen_app, zlen_ztake; lia).
  rewrite zlen_app, zlen_ztake by lia. rewrite zdrop_zdrop by lia. f_equal. lia.
Qed.

Lemma splice_nil {A} (l : list A) i : splice l i [] = l.
Proof. unfold splice. simpl. rewrite Z.add_0_r. apply ztake_zdrop. Qed.

(** A splice inside the middle part of a list. *)
Lemma splice_middle {A} (l1 l2 l3 : list A) i xs :
  0 <= i -> i + zlen xs <= zlen l2 ->
  splice (l1 ++ l2 ++ l3) (zlen l1 + i) xs = l1 ++ splice l2 i xs ++ l3.
Proof.
  intros Hi Hl. unfold splice.
  rewrite ztake_app_ge, zdrop_app_ge by lia.
  rewrite ztake_app_le, zdrop_app_le by lia. rewrite <- !app_assoc.
  do 2 f_equal; [f_equal; lia|]. do 2 f_equal. f_equal. lia.
Qed.

(** A window of a list that contains the splice. *)
Lemma window_splice {A} (m : list A) o n i xs :
  0 <= o -> o + n <= zlen m -> 0 <= i -> i + zlen xs <= n ->
  ztake n (zdrop o (splice m (o + i) xs)) = splice (ztake n (zdrop o m)) i xs.
Proof.
  intros Ho Hn Hi Hx.
  assert (exists l1 l2 l3, m = l1 ++ l2 ++ l3 /\ zlen l1 = o /\ zlen l2 = n) as (l1 & l2 & l3 & -> & <- & <-).
  { exists (ztake o m), (ztake n (zdrop o m)), (zdrop n (zdrop o m)). rewrite !ztake_zdrop.
    split; [done|]. rewrite !zlen_ztake by (rewrite ?zlen_zdrop; lia). done. }
  rewrite splice_middle by lia.
  rewrite !zdrop_app_exact by done. rewrite (ztake_app_exact (zlen l2) l2) by done.
  apply ztake_app_exact. by rewrite zlen_splice by lia.
Qed.

(** Splitting a vector at its current buffer. *)
Lemma current_split h v :
  vec_wf h v -> v.(idx) < v.(count) ->
  exists b l2, v.(buf) = ztake v.(idx) v.(buf) ++ b :: l2 /\
    fuse_bufvec_current v = Ok (Some b) /\ buf_wf h b /\ 0 <= v.(off) <= b.(size) /\
    zlen (ztake v.(idx) v.(buf)) = v.(idx) /\
    v.(buf) !! Z.to_nat v.(idx) = Some b.
Proof.
  intros (Hc & Hall & Hi & Hl & Hn & Hoff) Hlt.
  destruct (lookup_lt_is_Some_2 v.(buf) (Z.to_nat v.(idx))) as [b Hb]; [lia|].
  exists b, (drop (S (Z.to_nat v.(idx))) v.(buf)). split.
  { unfold ztake. symmetry. by apply take_drop_middle. }
  split.
  { unfold fuse_bufvec_current. rewrite (proj2 (Z.ltb_lt _ _)) by done.
    unfold zget. rewrite (proj2 (Z.leb_le _ _)) by lia. by rewrite Hb. }
  split; [rewrite Forall_lookup in Hall; by eapply Hall|]. split; [by apply Hoff|].
  split; [apply zlen_ztake; lia | done].
Qed.

Lemma current_end h v :
  vec_wf h v -> v.(count) <= v.(idx) ->
  fuse_bufvec_current v = Ok None /\ position h v = zlen (flat h v.(buf)).
Proof.
  intros (Hc & Hall & Hi & _) Hge. unfold fuse_bufvec_current, position.
  rewrite (proj2 (Z.ltb_ge _ _)) by lia. split; [done|]. rewrite ztake_ge by lia. lia.
Qed.

(** The size of a vector, which saturates. *)
Lemma size_loop_sum h l sz :
  Forall (buf_wf h) l -> 0 <= sz -> sz + zlen (flat h l) < SIZE_MAX ->
  size_loop l (length l) sz = sz + zlen (flat h l).
Proof.
  revert sz. induction l as [|b l IH]; intros sz Hl Hsz Hmax; [cbn; lia|].
  apply Forall_cons in Hl as [Hb Hl]. rewrite flat_cons, zlen_app, (zlen_region h b Hb) in *.
  assert (0 <= b.(size)) by apply Hb. cbn [size_loop length].
  destruct (Z.geb_spec b.(size) (SIZE_MAX - sz)); [lia|]. rewrite IH; [lia | done | lia | lia].
Qed.

Lemma fuse_buf_size_flat h v :
  vec_wf h v -> fuse_buf_size v = zlen (flat h v.(buf)).
Proof.
  intros (Hc & Hall & _ & Hl & _). unfold fuse_buf_size. rewrite Hc, Nat2Z.id.
  rewrite (size_loop_sum h) by (done || (unfold SIZE_MAX; lia)). lia.
Qed.

(** ** Moving on *)

(** The vector after [n] more bytes, with the part of the current buffer that
    is left taken off. *)
Lemma advance_spec h v b n :
  vec_wf h v -> v.(idx) < v.(count) -> v.(buf) !! Z.to_nat v.(idx) = Some b ->
  0 <= n <= b.(size) - v.(off) ->
  exists more v', fuse_bufvec_advance v n = Ok (more, v') /\ v'.(buf) = v.(buf) /\
    v'.(count) = v.(count) /\
    (more = true -> vec_wf h v' /\ position h v' = position h v + n /\
       v.(idx) <= v'.(idx) /\ (n = b.(size) - v.(off) -> v.(idx) < v'.(idx))) /\
    (more = false -> position h v + n = zlen (flat h v.(buf))).
Proof.
  intros Hwf Hlt Hb Hn. destruct (current_split h v Hwf Hlt) as
    (b' & l2 & Hsplit & Hcur & Hbw & Hoff & Hti & Hb').
  rewrite Hb in Hb'. injection Hb' as <-. assert (Hwf' := Hwf).
  destruct Hwf' as (Hc & Hall & Hi & Hl & Hnl & _).
  assert (b.(size) <= zlen (flat h v.(buf))) as Hbs.
  { rewrite Hsplit, flat_app, flat_cons, !zlen_app, (zlen_region h b Hbw). lia. }
  unfold fuse_bufvec_advance. rewrite Hcur. cbn [obind]. cbn [off idx count buf].
  rewrite u64_small by (unfold SIZE_MAX; lia).
  rewrite (proj2 (Z.leb_le _ _)) by lia. cbn [guard_c obind].
  assert (position h v = zlen (flat h (ztake v.(idx) v.(buf))) + v.(off)) as Hpos.
  { unfold position. by rewrite (proj2 (Z.ltb_lt _ _)) by lia. }
  destruct (Z.eqb_spec (v.(off) + n) b.(size)) as [He|He].
  - rewrite (proj2 (Z.ltb_lt _ _)) by lia. cbn [guard_c obind idx count].
    rewrite (u64_small (v.(idx) + 1)) by (unfold SIZE_MAX; lia).
    assert (ztake (v.(idx) + 1) v.(buf) = ztake v.(idx) v.(buf) ++ [b]) as Hnext.
    { rewrite Hsplit at 1. rewrite ztake_app_ge by lia. f_equal. rewrite Hti.
      replace (v.(idx) + 1 - v.(idx)) with 1 by lia. done. }
    assert (zlen (flat h (ztake (v.(idx) + 1) v.(buf))) = position h v + n) as Hp1.
    { rewrite Hnext, flat_app, zlen_app, flat_cons. unfold flat at 2. simpl.
      rewrite app_nil_r, (zlen_region h b Hbw). lia. }
    destruct (Z.eqb_spec (v.(idx) + 1) v.(count)) as [Hend|Hend].
    + eexists false, _. split; [reflexivity|]. split; [done|]. split; [done|]. split; [done|].
      intros _. rewrite <- Hp1, ztake_ge by lia. done.
    + eexists true, _. split; [reflexivity|]. split; [done|]. split; [done|]. split; [|done].
      intros _. split; [|split; [|cbn; lia]].
      * split; [done|]. split; [done|]. cbn [idx count off buf]. split; [lia|].
        split; [done|]. split; [done|]. intros b1 Hb1. rewrite Forall_lookup in Hall.
        destruct (Hall _ _ Hb1) as (_ & _ & ? & _). lia.
      * unfold position at 1. cbn [idx count off buf]. rewrite (proj2 (Z.ltb_lt _ _)) by lia. lia.
  - eexists true, _. split; [reflexivity|]. split; [done|]. split; [done|]. split; [|done].
    intros _. split; [|split; [|cbn; lia]].
    + split; [done|]. split; [done|]. cbn [idx count off buf]. split; [lia|]. split; [done|].
      split; [done|]. intros b1 Hb1. rewrite Hb in Hb1. injection Hb1 as <-. lia.
    + unfold position at 1. cbn [idx count off buf]. rewrite (proj2 (Z.ltb_lt _ _)) by lia. lia.
Qed.

(** ** One piece *)

(** The blocks of the two vectors: every destination buffer has its own, none is
    a source block. *)
Definition separate (dst src : list fuse_buf) : Prop :=
  NoDup (blk <$> dst) /\ (forall d s, d ∈ dst -> s ∈ src -> blk d <> blk s).

Lemma region_other h b k m : k <> blk b -> region (<[k := m]> h) b = region h b.
Proof. intros Hne. unfold region. by rewrite lookup_insert_ne. Qed.

Lemma flat_other h l k m : Forall (fun b => k <> blk b) l -> flat (<[k := m]> h) l = flat h l.
Proof.
  intros Hl. unfold flat. f_equal. apply list_fmap_ext. intros i b Hb.
  rewrite Forall_lookup in Hl. apply region_other. by eapply Hl.
Qed.

Lemma buf_wf_insert h b k m m0 :
  h !! k = Some m0 -> zlen m = zlen m0 -> buf_wf h b -> buf_wf (<[k := m]> h) b.
Proof.
  intros Hk Hl (Hf & Hm & Hs & Ho & m1 & Hm1 & Hl1). split; [done|]. split; [done|].
  split; [done|]. split; [done|].
  destruct (decide (k = blk b)) as [->|Hne].
  - exists m. rewrite lookup_insert_eq. split; [done|]. rewrite Hk in Hm1. injection Hm1 as ->. lia.
  - exists m1. by rewrite lookup_insert_ne.
Qed.

Section piece.
Context {os : Type} `{Syscalls os}.

Lemma mem_get_run h (o : os) b i n :
  buf_wf h b -> 0 <= i -> 0 <= n -> i + n <= b.(size) ->
  mem_get (ptr_add b.(mem) i) n (mk_bstate h o) =
  Ok (ztake n (zdrop i (region h b)), mk_bstate h o).
Proof.
  intros (_ & [[k of_] Hmem] & Hs & Ho & m & Hm & Hl) Hi Hn Hin. unfold region, blk, ofs in *.
  rewrite Hmem in *. unfold mem_get, ptr_add. cbn [fmap option_fmap option_map lift_fault].
  rewrite (pbind_run _ _ _ _ _ (plift_run (Ok (k, of_ + i)) _ _ eq_refl)).
  unfold get_block, pbind, pget, plift. cbn [obind heap]. rewrite Hm. cbn [lift_fault obind default].
  rewrite mem_read_in by lia. cbn [obind]. do 2 f_equal. unfold id.
  unfold ztake, zdrop. rewrite skipn_firstn_comm, take_take, drop_drop. f_equal; [lia|].
  f_equal. lia.
Qed.

Lemma mem_set_run h (o : os) b i xs m :
  buf_wf h b -> h !! blk b = Some m -> 0 <= i -> i + zlen xs <= b.(size) ->
  mem_set (ptr_add b.(mem) i) xs (mk_bstate h o) =
  Ok (tt, mk_bstate (<[blk b := splice m (ofs b + i) xs]> h) o).
Proof.
  intros (_ & [[k of_] Hmem] & Hs & Ho & m' & Hm' & Hl) Hm Hi Hin. unfold blk, ofs in *.
  rewrite Hmem in *. unfold mem_set, ptr_add. cbn [fmap option_fmap option_map lift_fault].
  rewrite Hm in Hm'. injection Hm' as <-.
  rewrite (pbind_run _ _ _ _ _ (plift_run (Ok (k, of_ + i)) _ _ eq_refl)).
  unfold get_block, pbind, pget, plift, pput. cbn [obind heap]. rewrite Hm. cbn [lift_fault obind].
  rewrite mem_write_in by lia. done.
Qed.

(** What a region holds after a write into its buffer. *)
Lemma region_splice h b i xs m :
  buf_wf h b -> h !! blk b = Some m -> 0 <= i -> i + zlen xs <= b.(size) ->
  region (<[blk b := splice m (ofs b + i) xs]> h) b = splice (region h b) i xs.
Proof.
  intros (_ & _ & Hs & Ho & m' & Hm' & Hl) Hm Hi Hin. rewrite Hm in Hm'. injection Hm' as <-.
  unfold region. rewrite lookup_insert_eq, Hm. cbn [default]. unfold id.
  apply window_splice; lia.
Qed.

(** One call of [fuse_buf_copy_one] on the current buffers. *)
Lemma copy_one_run h (o : os) d di s si n flg :
  buf_wf h d -> buf_wf h s -> blk d <> blk s -> 0 <= di -> 0 <= si -> 0 <= n < 2 ^ 63 ->
  di + n <= d.(size) -> si + n <= s.(size) ->
  exists m, h !! blk d = Some m /\
  fuse_buf_copy_one d di s si n flg (mk_bstate h o) =
    Ok (n, mk_bstate (<[blk d := splice m (ofs d + di) (ztake n (zdrop si (region h s)))]> h) o).
Proof.
  intros Hd Hs Hne Hdi Hsi Hn Hdn Hsn. assert (Hd' := Hd).
  destruct Hd' as (Hdf & [[dk do_] Hdm] & _ & Hdo & m & Hm & Hml). exists m. split; [done|].
  assert (Hs' := Hs). destruct Hs' as (Hsf & [[sk so_] Hsm] & _).
  unfold fuse_buf_copy_one. rewrite Hdf, Hsf. cbn [negb andb].
  assert (ptr_eqb (ptr_add d.(mem) di) (ptr_add s.(mem) si) = false) as ->.
  { unfold ptr_eqb. apply bool_decide_eq_false_2. unfold blk, ptr_add in *.
  rewrite Hdm, Hsm in *. cbn. congruence. }
  assert (ptr_apart (ptr_add d.(mem) di) (ptr_add s.(mem) si) n = true) as Hap.
  { unfold ptr_apart, blk, ptr_add in *. rewrite Hdm, Hsm in *. cbn.
  by rewrite (proj2 (Z.eqb_neq _ _)). }
  rewrite Hap. cbn [negb]. unfold memcpy. rewrite Hap. rewrite pbind_assoc.
  prun_lift (eq_refl : guard_c true OutOfBounds = Ok tt). rewrite pbind_assoc.
  prun (mem_get_run h o s si n Hs Hsi ltac:(lia) Hsn).
  assert (zlen (ztake n (zdrop si (region h s))) = n) as Hlen.
  { rewrite zlen_ztake; [done|]. rewrite zlen_zdrop; rewrite (zlen_region h s Hs); lia. }
  prun (mem_set_run h o d di (ztake n (zdrop si (region h s))) m Hd Hm Hdi ltac:(lia)).
  unfold pret. do 2 f_equal. apply swrap_small; lia.
Qed.
End piece.

(** ** The whole copy *)

Lemma drop_flat_current h v b l2 :
  v.(buf) = ztake v.(idx) v.(buf) ++ b :: l2 -> v.(idx) < v.(count) -> 0 <= v.(off) <= zlen (region h b) ->
  zdrop (position h v) (flat h v.(buf)) = zdrop v.(off) (region h b) ++ flat h l2.
Proof.
  intros Hs Hlt Hoff. unfold position. rewrite (proj2 (Z.ltb_lt _ _)) by done.
  rewrite Hs at 2. rewrite flat_app, flat_cons.
  rewrite zdrop_app_ge by lia.
  match goal with |- zdrop ?n _ = _ => replace n with v.(off) by lia end.
  by rewrite zdrop_app_le by lia.
Qed.

Lemma elem_of_current v b :
  v.(buf) !! Z.to_nat v.(idx) = Some b -> b ∈ v.(buf).
Proof. apply list_elem_of_lookup_2. Qed.

Lemma min_size_min a b : min_size a b = a `min` b.
Proof. unfold min_size. destruct (Z.ltb_spec a b); lia. Qed.

Lemma vec_wf_insert h v k m m0 :
  h !! k = Some m0 -> zlen m = zlen m0 -> vec_wf h v ->
  zlen (flat (<[k := m]> h) v.(buf)) = zlen (flat h v.(buf)) -> vec_wf (<[k := m]> h) v.
Proof.
  intros Hk Hl (Hc & Hall & Hi & Hn & Hb & Hoff) Hf. split; [done|]. split.
  - eapply Forall_impl; [exact Hall|]. intros b. by eapply buf_wf_insert.
  - split; [done|]. by rewrite Hf.
Qed.

Lemma zlen_flat_sizes h h' l :
  Forall (buf_wf h) l -> Forall (buf_wf h') l -> zlen (flat h l) = zlen (flat h' l).
Proof.
  intros H1 H2. induction l as [|b l IH]; [done|].
  apply Forall_cons in H1 as [Hb H1]. apply Forall_cons in H2 as [Hb' H2].
  rewrite !flat_cons, !zlen_app, IH, (zlen_region h b Hb), (zlen_region h' b Hb') by done. done.
Qed.

Lemma position_same h h' v :
  Forall (buf_wf h) v.(buf) -> Forall (buf_wf h') v.(buf) -> position h v = position h' v.
Proof.
  intros H1 H2. unfold position. f_equal. unfold ztake.
  apply zlen_flat_sizes; by apply Forall_take.
Qed.

Lemma position_range h v : vec_wf h v -> 0 <= position h v <= zlen (flat h v.(buf)).
Proof.
  intros Hwf. destruct (Z.lt_ge_cases v.(idx) v.(count)) as [Hlt|Hge].
  - destruct (current_split h v Hwf Hlt) as (b & l2 & Hs & _ & Hb & Hoff & _).
    unfold position. rewrite (proj2 (Z.ltb_lt _ _)) by done. rewrite Hs at 3.
    rewrite flat_app, flat_cons, !zlen_app, (zlen_region h b Hb). lia.
  - destruct (current_end h v Hwf Hge) as [_ ->]. lia.
Qed.

(** Writing at the current position of a vector. *)
Lemma flat_write h v b l2 m xs :
  vec_wf h v -> v.(idx) < v.(count) -> v.(buf) = ztake v.(idx) v.(buf) ++ b :: l2 ->
  NoDup (blk <$> v.(buf)) -> buf_wf h b -> h !! blk b = Some m ->
  0 <= v.(off) -> v.(off) + zlen xs <= b.(size) ->
  flat (<[blk b := splice m (ofs b + v.(off)) xs]> h) v.(buf) =
    splice (flat h v.(buf)) (position h v) xs.
Proof.
  intros Hwf Hlt Hs Hnd Hb Hm Hoff Hx. unfold position. rewrite (proj2 (Z.ltb_lt _ _)) by done.
  rewrite Hs in Hnd. rewrite fmap_app, fmap_cons in Hnd.
  apply NoDup_app in Hnd as (_ & Hout & Hnd). apply NoDup_cons in Hnd as [Hnot _].
  rewrite Hs at 1 2. rewrite !flat_app, !flat_cons.
  rewrite (region_splice h b _ xs m Hb Hm Hoff Hx).
  rewrite (flat_other h (ztake v.(idx) v.(buf))), (flat_other h l2).
  - rewrite splice_middle; [done | done |]. by rewrite (zlen_region h b Hb).
  - apply Forall_forall. intros x Hxl He. apply Hnot. rewrite He. by apply list_elem_of_fmap_2.
  - apply Forall_forall. intros x Hxl He. apply (Hout (blk x)); [by apply list_elem_of_fmap_2|].
    rewrite <- He. by left.
Qed.

Section copying.
Context {os : Type} `{Syscalls os}.

(** What is left to copy, and the outcome of copying it. *)
Definition to_copy (h : gmap Z (list cell)) (d s : fuse_bufvec) : Z :=
  (zlen (flat h d.(buf)) - position h d) `min` (zlen (flat h s.(buf)) - position h s).

Definition copied_to (h h' : gmap Z (list cell)) (d s : fuse_bufvec) : Prop :=
  flat h' d.(buf) = splice (flat h d.(buf)) (position h d)
  (ztake (to_copy h d s) (zdrop (position h s) (flat h s.(buf)))) /\
  (forall k, k ∉ blk <$> d.(buf) -> h' !! k = h !! k) /\ Forall (buf_wf h') d.(buf).

Lemma copied_none h d s :
  vec_wf h d -> vec_wf h s -> to_copy h d s = 0 -> copied_to h h d s.
Proof.
  intros Hd Hs Hn. unfold copied_to. rewrite Hn, ztake_0, splice_nil. by split; [|split; [|apply Hd]].
Qed.

(** A piece of [n] bytes was copied at the positions. *)
Record piece (h h1 : gmap Z (list cell)) (d s : fuse_bufvec) (n : Z) : Prop := {
  pc_dst : flat h1 d.(buf) = splice (flat h d.(buf)) (position h d)
  (ztake n (zdrop (position h s) (flat h s.(buf))));
  pc_src : flat h1 s.(buf) = flat h s.(buf);
  pc_other : forall k, k ∉ blk <$> d.(buf) -> h1 !! k = h !! k;
  pc_dwf : vec_wf h1 d;
  pc_swf : vec_wf h1 s;
}.

Lemma piece_positions h h1 d s n :
  vec_wf h d -> vec_wf h s -> piece h h1 d s n ->
  position h1 d = position h d /\ position h1 s = position h s.
Proof.
  intros Hd Hs Hp. split; apply position_same;
  [apply (pc_dwf _ _ _ _ _ Hp) | apply Hd | apply (pc_swf _ _ _ _ _ Hp) | apply Hs].
Qed.

Lemma piece_all h h1 d s n :
  piece h h1 d s n -> n = to_copy h d s -> copied_to h h1 d s.
Proof.
  intros [Hd _ Hk Hw _] ->. split; [exact Hd|]. split; [exact Hk | apply Hw].
Qed.

(** A piece, then the rest. *)
Lemma piece_then h h1 h2 d s d1 s1 n :
  vec_wf h d -> vec_wf h s -> d1.(buf) = d.(buf) -> s1.(buf) = s.(buf) ->
  piece h h1 d s n ->
  position h1 d1 = position h d + n -> position h1 s1 = position h s + n ->
  0 <= n <= to_copy h d s ->
  to_copy h1 d1 s1 = to_copy h d s - n /\
  (copied_to h1 h2 d1 s1 -> copied_to h h2 d s).
Proof.
  intros Hd Hs Hbd Hbs [Hfd Hfs Hk _ _] Hpd Hps Hn.
  pose proof (position_range h d Hd). pose proof (position_range h s Hs).
  unfold to_copy in Hn. set (xs := ztake n (zdrop (position h s) (flat h s.(buf)))) in *.
  assert (zlen xs = n) as Hlx.
  { unfold xs. rewrite zlen_ztake; [done|]. rewrite zlen_zdrop by lia. lia. }
  assert (zlen (flat h1 d.(buf)) = zlen (flat h d.(buf))) as Hl1
  by (rewrite Hfd, zlen_splice; lia).
  assert (to_copy h1 d1 s1 = to_copy h d s - n) as Ht.
  { unfold to_copy. rewrite Hbd, Hbs, Hpd, Hps, Hl1, Hfs. lia. }
  split; [done|]. intros (Hf2 & Hk2 & Hw2). unfold copied_to. rewrite Hbd, Hbs in *.
  split; [|split; [|done]].
  - rewrite Hf2, Ht, Hfs, Hfd, Hpd, Hps.
  replace (position h d + n) with (position h d + zlen xs) by lia.
  rewrite splice_splice; [|lia|].
  + f_equal. unfold xs. rewrite <- zdrop_zdrop by lia.
    unfold ztake, zdrop. set (L := drop (Z.to_nat (position h s)) _).
    transitivity (take (Z.to_nat n + Z.to_nat (to_copy h d s - n)) L); [apply take_take_drop|].
    f_equal. unfold to_copy. lia.
  + rewrite zlen_ztake; [|rewrite zlen_zdrop]; unfold to_copy; lia.
  - intros k Hkn. rewrite Hk2, Hk; done.
Qed.

(** What is left, in terms of the current buffer. *)
Lemma left_of h v b l2 :
  vec_wf h v -> v.(buf) = ztake v.(idx) v.(buf) ++ b :: l2 -> v.(idx) < v.(count) ->
  buf_wf h b -> 0 <= v.(off) <= b.(size) ->
  zlen (flat h v.(buf)) - position h v = b.(size) - v.(off) + zlen (flat h l2).
Proof.
  intros Hwf Hs Hlt Hb Hoff. pose proof (position_range h v Hwf).
  pose proof (drop_flat_current h v b l2 Hs Hlt ltac:(rewrite (zlen_region h b Hb); lia)) as Hrest.
  rewrite <- zlen_zdrop, Hrest, zlen_app, zlen_zdrop, (zlen_region h b Hb)
  by (rewrite ?(zlen_region h b Hb); lia). lia.
Qed.

(** One round, on the current buffers of both vectors. *)
Lemma round_spec h (o : os) d s flg :
  vec_wf h d -> vec_wf h s -> separate d.(buf) s.(buf) ->
  d.(idx) < d.(count) -> s.(idx) < s.(count) ->
  exists db sb n h1, fuse_bufvec_current d = Ok (Some db) /\ fuse_bufvec_current s = Ok (Some sb) /\
  d.(buf) !! Z.to_nat d.(idx) = Some db /\ s.(buf) !! Z.to_nat s.(idx) = Some sb /\
  n = min_size (u64 (sb.(size) - s.(off))) (u64 (db.(size) - d.(off))) /\
  0 <= n <= to_copy h d s /\ n <= db.(size) - d.(off) /\ n <= sb.(size) - s.(off) /\
  (n = db.(size) - d.(off) \/ n = sb.(size) - s.(off)) /\
  fuse_buf_copy_one db d.(off) sb s.(off) n flg (mk_bstate h o) = Ok (n, mk_bstate h1 o) /\
  piece h h1 d s n.
Proof.
  intros Hd Hs Hsep Hdl Hsl. assert (zlen (flat h s.(buf)) < 2 ^ 63) as Hsmax by apply Hs.
  assert (zlen (flat h d.(buf)) < 2 ^ 63) as Hdmax by apply Hd.
  pose proof (position_range h d Hd) as Hpd. pose proof (position_range h s Hs) as Hps.
  destruct (current_split h s Hs Hsl) as (sb & sl & Hss & Hscur & Hsb & Hsoff & _ & Hslk).
  destruct (current_split h d Hd Hdl) as (db & dl & Hds & Hdcur & Hdb & Hdoff & _ & Hdlk).
  pose proof (left_of h s sb sl Hs Hss Hsl Hsb Hsoff) as Hsn.
  pose proof (left_of h d db dl Hd Hds Hdl Hdb Hdoff) as Hdn.
  set (n := (sb.(size) - s.(off)) `min` (db.(size) - d.(off))).
  assert (blk db <> blk sb) as Hne by (apply Hsep; by eapply elem_of_current).
  destruct (copy_one_run h o db d.(off) sb s.(off) n flg Hdb Hsb Hne) as (m & Hm & Hone); [lia..|].
  set (xs := ztake n (zdrop s.(off) (region h sb))) in *.
  assert (xs = ztake n (zdrop (position h s) (flat h s.(buf))) /\ zlen xs = n) as [Hxs Hxl].
  { pose proof (zlen_region h sb Hsb) as Hz. unfold xs. split.
  - rewrite (drop_flat_current h s sb sl Hss Hsl) by lia.
    by rewrite ztake_app_le by (rewrite zlen_zdrop; lia).
  - rewrite zlen_ztake; [done|]. rewrite zlen_zdrop; lia. }
  exists db, sb, n, (<[blk db := splice m (ofs db + d.(off)) xs]> h).
  split; [done|]. split; [done|]. split; [done|]. split; [done|].
  split; [rewrite !u64_small, min_size_min by (unfold SIZE_MAX; lia); done|].
  split; [unfold n, to_copy; lia|]. split; [lia|]. split; [lia|]. split; [lia|].
  split; [done|]. set (h1 := <[_ := _]> h).
  assert (flat h1 d.(buf) = splice (flat h d.(buf)) (position h d) xs) as Hf1.
  { apply (flat_write h d db dl); try done; [apply Hsep | lia..]. }
  assert (flat h1 s.(buf) = flat h s.(buf)) as Hfs1.
  { apply flat_other, Forall_forall. intros x Hx. apply Hsep; [by eapply elem_of_current | done]. }
  assert (zlen (splice m (ofs db + d.(off)) xs) = zlen m) as Hml.
  { destruct Hdb as (_ & _ & _ & ? & m' & Hm' & ?). rewrite Hm in Hm'. injection Hm' as <-.
  apply zlen_splice; lia. }
  split; [by rewrite <- Hxs | exact Hfs1 | | | ].
  - intros k Hk. apply lookup_insert_ne. intros <-. apply Hk.
  apply list_elem_of_fmap_2. by eapply elem_of_current.
  - apply (vec_wf_insert h d _ _ m Hm Hml Hd). fold h1. rewrite Hf1, zlen_splice; lia.
  - apply (vec_wf_insert h s _ _ m Hm Hml Hs). fold h1. by rewrite Hfs1.
Qed.

(** A vector that is at its end. *)
Lemma copy_loop_end fuel h (o : os) d s flg copied :
  vec_wf h d -> vec_wf h s -> d.(count) <= d.(idx) \/ s.(count) <= s.(idx) -> 0 <= copied < 2 ^ 63 ->
  copy_loop d s flg copied (S fuel) (mk_bstate h o) = Ok ((copied, d, s), mk_bstate h o) /\
  to_copy h d s = 0.
Proof.
  intros Hd Hs Hend Hc. pose proof (position_range h d Hd). pose proof (position_range h s Hs).
  assert (forall v, vec_wf h v -> exists x, fuse_bufvec_current v = Ok x) as Hcur.
  { intros v Hv. destruct (Z.lt_ge_cases v.(idx) v.(count)) as [Hl|Hg].
  - destruct (current_split h v Hv Hl) as (b & _ & _ & Hb & _). by exists (Some b).
  - exists None. by apply (current_end h). }
  destruct (Hcur d Hd) as [x Hx], (Hcur s Hs) as [y Hy]. cbn [copy_loop].
  prun_lift Hy. prun_lift Hx. rewrite swrap_small by lia. unfold to_copy.
  destruct Hend as [He|He].
  - destruct (current_end h d Hd He) as [He' Hpos]. rewrite Hx in He'. injection He' as ->.
  split; [by destruct y | lia].
  - destruct (current_end h s Hs He) as [He' Hpos]. rewrite Hy in He'. injection He' as ->.
  split; [done | lia].
Qed.

Lemma copy_loop_spec fuel h (o : os) dstv srcv flg copied :
  vec_wf h dstv -> vec_wf h srcv -> separate dstv.(buf) srcv.(buf) ->
  (zlen dstv.(buf) - dstv.(idx)) + (zlen srcv.(buf) - srcv.(idx)) < Z.of_nat fuel ->
  0 <= copied -> copied + to_copy h dstv srcv < 2 ^ 63 ->
  exists h' d' s', copy_loop dstv srcv flg copied fuel (mk_bstate h o) =
    Ok ((copied + to_copy h dstv srcv, d', s'), mk_bstate h' o) /\
  copied_to h h' dstv srcv.
Proof.
  revert h dstv srcv copied. induction fuel as [|fuel IH];
  intros h dstv srcv copied Hd Hs Hsep Hfuel Hc Hmax.
  { destruct Hd as (? & _ & ? & _), Hs as (? & _ & ? & _). lia. }
  pose proof (position_range h dstv Hd) as Hpd. pose proof (position_range h srcv Hs) as Hps.
  destruct (decide (dstv.(count) <= dstv.(idx) \/ srcv.(count) <= srcv.(idx))) as [Hend|Hgo].
  { destruct (copy_loop_end fuel h o dstv srcv flg copied Hd Hs Hend) as [Hrun H0];
    [unfold to_copy in *; lia|].
  exists h, dstv, srcv. rewrite H0, Z.add_0_r. split; [done | by apply copied_none]. }
  destruct (round_spec h o dstv srcv flg Hd Hs Hsep ltac:(lia) ltac:(lia)) as
  (db & sb & n & h1 & Hdcur & Hscur & Hdlk & Hslk & Hlen & Hn & Hnd & Hns & Hfin & Hone & Hpc).
  cbn [copy_loop]. prun_lift Hscur. prun_lift Hdcur. rewrite <- Hlen. prun Hone.
  rewrite (proj2 (Z.ltb_ge _ _)) by lia. rewrite (u64_small (copied + n)) by (unfold SIZE_MAX; lia).
  destruct (piece_positions _ _ _ _ _ Hd Hs Hpc) as [Hpd1 Hps1].
  destruct (advance_spec h1 srcv sb n (pc_swf _ _ _ _ _ Hpc) ltac:(lia) Hslk ltac:(lia)) as
  (more & srcv' & Hadv & Hsbuf & Hscount & Hsmore & Hsend).
  prun_lift Hadv. destruct more; cbn [negb].
  2: { assert (n = to_copy h dstv srcv) as He.
  { specialize (Hsend eq_refl). rewrite (pc_src _ _ _ _ _ Hpc) in Hsend. unfold to_copy in *. lia. }
  eexists h1, _, _. split; [|by eapply piece_all]. unfold pret.
  rewrite swrap_small by lia. by rewrite <- He. }
  destruct (Hsmore eq_refl) as (Hs2 & Hsp2 & Hsi & Hsi').
  destruct (advance_spec h1 dstv db n (pc_dwf _ _ _ _ _ Hpc) ltac:(lia) Hdlk ltac:(lia)) as
  (more & dstv' & Hadv' & Hdbuf & Hdcount & Hdmore & Hdend).
  prun_lift Hadv'. destruct more; cbn [negb].
  2: { assert (n = to_copy h dstv srcv) as He.
  { specialize (Hdend eq_refl). rewrite (pc_dst _ _ _ _ _ Hpc) in Hdend.
    rewrite zlen_splice in Hdend; [unfold to_copy in *; lia | lia |].
    rewrite zlen_ztake; [|rewrite zlen_zdrop]; unfold to_copy in *; lia. }
  eexists h1, _, _. split; [|by eapply piece_all]. unfold pret.
  rewrite swrap_small by lia. by rewrite <- He. }
  destruct (Hdmore eq_refl) as (Hd2 & Hdp2 & Hdi & Hdi').
  rewrite u64_small, Z.ltb_irrefl by (unfold SIZE_MAX; lia).
  pose proof (fun h2 => piece_then h h1 h2 dstv srcv dstv' srcv' n Hd Hs Hdbuf Hsbuf Hpc
  ltac:(lia) ltac:(lia) Hn) as Hthen.
  pose proof (proj1 (Hthen h1)) as Htc.
  destruct (IH h1 dstv' srcv' (copied + n) Hd2 Hs2) as (h2 & d2 & s2 & Hrun & Hc2);
  [by rewrite Hdbuf, Hsbuf | rewrite Hdbuf, Hsbuf; lia | lia | lia |].
  exists h2, d2, s2. split; [|by apply (Hthen h2)]. rewrite Hrun, Htc.
  by replace (copied + n + (to_copy h dstv srcv - n)) with (copied + to_copy h dstv srcv) by lia.
Qed.
End copying.

End FuseBufFacts.
