(* ===== verification/FuseFs.v ===== *)
(** * Calling a file system's handlers (fuse-3.17.2/lib/fuse.c, the functions fuse_fs_...)

    [fuse_operations] is the table of handlers a file system gives to libfuse,
    each one there or not.  A [fuse_fs_...] function puts the file system's data
    into the context, calls the handler, and has a default when there is none;
    reads and writes go through the handler for memory or the one for buffers,
    whichever there is.  The debug log is left out.  A path is a string or null,
    and so is the file information; what a handler writes through a pointer comes
    back with its result. *)
From S2P Require Import Prelude CLib FuseTypes FuseBuf.
Import FuseTypes FuseBuf.

Module FuseFs.

Abbreviation cpath := (option (list byte)).
Abbreviation fip := (option fuse_file_info).
Abbreviation timespec := (Z * Z)%type.

(** [struct statvfs] *)
Record statvfs := mk_statvfs {
  f_bsize : Z; f_frsize : Z; f_blocks : Z; f_bfree : Z; f_bavail : Z;
  f_files : Z; f_ffree : Z; f_favail : Z; f_fsid : Z; f_flag : Z; f_namemax : Z;
}.

(** [struct flock] *)
Record flock := mk_flock {
  l_type : Z; l_whence : Z; l_start : Z; l_len : Z; l_pid : Z;
}.

(** The heap and the system, the calling thread's context, and the file
    system's own data. *)
Record fstate (os A : Type) := mk_fstate {
  bs : bstate os;
  private_data : Z;
  app : A;
}.
Arguments mk_fstate {os A}.
Arguments bs {os A}.
Arguments private_data {os A}.
Arguments app {os A}.

(** The filler of a directory handler: a name, its attributes, the offset of the
    next entry and flags.  [D] is the directory buffer with all that it leads
    to. *)
Definition filler_t (D : Type) : Type :=
  D -> list byte -> option stat -> Z -> Z -> outcome (Z * D).

Record fuse_operations (S D : Type) := mk_operations {
  op_getattr : option (cpath -> stat -> fip -> prog S (Z * stat * fip));
  op_readlink : option (cpath -> mptr -> Z -> prog S Z);
  op_mknod : option (cpath -> Z -> Z -> prog S Z);
  op_mkdir : option (cpath -> Z -> prog S Z);
  op_unlink : option (cpath -> prog S Z);
  op_rmdir : option (cpath -> prog S Z);
  op_symlink : option (list byte -> cpath -> prog S Z);
  op_rename : option (cpath -> cpath -> Z -> prog S Z);
  op_link : option (cpath -> cpath -> prog S Z);
  op_chmod : option (cpath -> Z -> fip -> prog S (Z * fip));
  op_chown : option (cpath -> Z -> Z -> fip -> prog S (Z * fip));
  op_truncate : option (cpath -> Z -> fip -> prog S (Z * fip));
  op_open : option (cpath -> fip -> prog S (Z * fip));
  op_read : option (cpath -> mptr -> Z -> Z -> fip -> prog S (Z * fip));
  op_write : option (cpath -> mptr -> Z -> Z -> fip -> prog S (Z * fip));
  op_statfs : option (cpath -> statvfs -> prog S (Z * statvfs));
  op_flush : option (cpath -> fip -> prog S (Z * fip));
  op_release : option (cpath -> fip -> prog S (Z * fip));
  op_fsync : option (cpath -> Z -> fip -> prog S (Z * fip));
  op_setxattr : option (cpath -> list byte -> mptr -> Z -> Z -> prog S Z);
  op_getxattr : option (cpath -> list byte -> mptr -> Z -> prog S Z);
  op_listxattr : option (cpath -> mptr -> Z -> prog S Z);
  op_removexattr : option (cpath -> list byte -> prog S Z);
  op_opendir : option (cpath -> fip -> prog S (Z * fip));
  op_readdir : option (cpath -> D -> filler_t D -> Z -> fip -> Z -> prog S (Z * D * fip));
  op_releasedir : option (cpath -> fip -> prog S (Z * fip));
  op_fsyncdir : option (cpath -> Z -> fip -> prog S (Z * fip));
  op_init : option (fuse_conn_info -> fuse_config -> prog S (Z * fuse_conn_info * fuse_config));
  op_destroy : option (Z -> prog S unit);
  op_access : option (cpath -> Z -> prog S Z);
  op_create : option (cpath -> Z -> fip -> prog S (Z * fip));
  op_lock : option (cpath -> fip -> Z -> flock -> prog S (Z * fip * flock));
  op_utimens : option (cpath -> timespec * timespec -> fip -> prog S (Z * fip));
  op_bmap : option (cpath -> Z -> Z -> prog S (Z * Z));
  op_ioctl : option (cpath -> Z -> mptr -> fip -> Z -> mptr -> prog S (Z * fip));
  op_poll : option (cpath -> fip -> mptr -> Z -> prog S (Z * fip * Z));
  op_write_buf : option (cpath -> fuse_bufvec -> Z -> fip -> prog S (Z * fuse_bufvec * fip));
  op_read_buf : option (cpath -> option fuse_bufvec -> Z -> Z -> fip ->
                        prog S (Z * option fuse_bufvec * fip));
  op_flock : option (cpath -> fip -> Z -> prog S (Z * fip));
  op_fallocate : option (cpath -> Z -> Z -> Z -> fip -> prog S (Z * fip));
  op_copy_file_range : option (cpath -> fip -> Z -> cpath -> fip -> Z -> Z -> Z ->
                               prog S (Z * fip * fip));
  op_lseek : option (cpath -> Z -> Z -> fip -> prog S (Z * fip));
}.

(** [struct fuse_fs], without the debug switch. *)
Record fuse_fs (S D : Type) := mk_fs {
  op : fuse_operations S D;
  user_data : Z;
}.
Arguments mk_fs {S D}.
Arguments op {S D}.
Arguments user_data {S D}.

(** Whether a handler is there. *)
Definition given {B} (h : option B) : bool := match h with Some _ => true | None => false end.

(** [nr & ~0xffffffffULL] and the low half. *)
Definition fuse_lower_32_bits (nr : Z) : Z := u32 (Z.land nr 0xffffffff).
Definition fuse_higher_32_bits (nr : Z) : Z := Z.land nr (u64 (Z.lnot 0xffffffff)).

Definition with_want (c : fuse_conn_info) (v : Z) : fuse_conn_info :=
  mk_conn_info c.(proto_major) c.(proto_minor) c.(max_write) c.(max_read) c.(max_readahead)
    c.(capable) v c.(max_background) c.(congestion_threshold) c.(time_gran)
    c.(max_backing_stack_depth) c.(no_interrupt) c.(capable_ext) c.(want_ext).

Definition convert_to_conn_want_ext (conn : fuse_conn_info) (want_ext_default want_default : Z)
    : Z * fuse_conn_info :=
  if negb (conn.(want) =? want_default) &&
     negb (fuse_lower_32_bits conn.(want_ext) =? conn.(want)) then
    if negb (conn.(want_ext) =? want_ext_default) then (- EINVAL, conn)
    else
      let conn := with_want_ext conn (Z.lor (fuse_higher_32_bits conn.(want_ext)) conn.(want)) in
      (0, with_want conn (fuse_lower_32_bits conn.(want_ext)))
  else (0, with_want conn (fuse_lower_32_bits conn.(want_ext))).

Section fs.
Context {os A D : Type} `{Syscalls os}.
#[local] Abbreviation St := (fstate os A).
Implicit Types (fs : fuse_fs St D) (path : cpath) (fi : fip).

(** [fuse_get_context()->private_data = d] *)
Definition set_private_data (d : Z) : prog St unit :=
  s <-- pget ;; pput (mk_fstate s.(bs) d s.(app)).

(** Runs code that uses the heap and the system. *)
Definition in_bs {B} (m : prog (bstate os) B) : prog St B := fun s =>
  let! (b, s') := m s.(bs) in Ok (b, mk_fstate s' s.(private_data) s.(app)).

(** Runs the file system's own code. *)
Definition in_app {B} (m : prog A B) : prog St B := fun s =>
  let! (b, a) := m s.(app) in Ok (b, mk_fstate s.(bs) s.(private_data) a).

(** [malloc(n)] and [free(p)] *)
Definition malloc_m (n : Z) : prog St mptr :=
  if malloc_max <? n then pret None
  else b <-- in_bs (alloc n) ;; pret (Some (b, 0)).

Definition free_m (p : mptr) : prog St unit :=
  match p with
  | None => pret tt
  | Some (b, o) =>
    plift (guard_c (o =? 0) OutOfBounds) ;;;
    _ <-- in_bs (get_block b) ;;
    in_bs (free_block b)
  end.

Definition fuse_fs_getattr fs path (buf : stat) fi : prog St (Z * stat * fip) :=
  set_private_data fs.(user_data) ;;;
  match fs.(op).(op_getattr _ _) with
  | Some h => h path buf fi
  | None => pret (- ENOSYS, buf, fi)
  end.

Definition fuse_fs_rename fs (oldpath newpath : cpath) (flags : Z) : prog St Z :=
  set_private_data fs.(user_data) ;;;
  match fs.(op).(op_rename _ _) with
  | Some h => h oldpath newpath flags
  | None => pret (- ENOSYS)
  end.

Definition fuse_fs_unlink fs path : prog St Z :=
  set_private_data fs.(user_data) ;;;
  match fs.(op).(op_unlink _ _) with
  | Some h => h path
  | None => pret (- ENOSYS)
  end.

Definition fuse_fs_rmdir fs path : prog St Z :=
  set_private_data fs.(user_data) ;;;
  match fs.(op).(op_rmdir _ _) with
  | Some h => h path
  | None => pret (- ENOSYS)
  end.

Definition fuse_fs_symlink fs (linkname : list byte) path : prog St Z :=
  set_private_data fs.(user_data) ;;;
  match fs.(op).(op_symlink _ _) with
  | Some h => h linkname path
  | None => pret (- ENOSYS)
  end.

Definition fuse_fs_link fs (oldpath newpath : cpath) : prog St Z :=
  set_private_data fs.(user_data) ;;;
  match fs.(op).(op_link _ _) with
  | Some h => h oldpath newpath
  | None => pret (- ENOSYS)
  end.

Definition fuse_fs_release fs path fi : prog St (Z * fip) :=
  set_private_data fs.(user_data) ;;;
  match fs.(op).(op_release _ _) with
  | Some h => h path fi
  | None => pret (0, fi)
  end.

Definition fuse_fs_opendir fs path fi : prog St (Z * fip) :=
  set_private_data fs.(user_data) ;;;
  match fs.(op).(op_opendir _ _) with
  | Some h => h path fi
  | None => pret (0, fi)
  end.

Definition fuse_fs_open fs path fi : prog St (Z * fip) :=
  set_private_data fs.(user_data) ;;;
  match fs.(op).(op_open _ _) with
  | Some h => h path fi
  | None => pret (0, fi)
  end.

(** Frees the memory of every buffer that has some. *)
Fixpoint free_bufs (l : list fuse_buf) : prog St unit :=
  match l with
  | [] => pret tt
  | b :: l =>
    (if has_flag b.(flags) FUSE_BUF_IS_FD then pret tt else free_m b.(mem)) ;;;
    free_bufs l
  end.

Definition fuse_free_buf (buf : option fuse_bufvec) : prog St unit :=
  match buf with
  | None => pret tt
  | Some v => free_bufs (ztake v.(count) v.(FuseBuf.buf))
  end.

(** A vector that is dereferenced. *)
Definition the_bufvec (buf : option fuse_bufvec) : prog St fuse_bufvec :=
  plift (lift_fault NullDeref buf).

(** The vector itself is a small object whose allocation is left out. *)
Definition fuse_fs_read_buf fs path (bufp : option fuse_bufvec) (size off : Z) fi
  : prog St (Z * option fuse_bufvec * fip) :=
  set_private_data fs.(user_data) ;;;
  match fs.(op).(op_read _ _), fs.(op).(op_read_buf _ _) with
  | None, None => pret (- ENOSYS, bufp, fi)
  | _, Some h =>
    let? (res, bufp, fi) := h path bufp size off fi in
    (if res >=? 0 then the_bufvec bufp ;;; pret tt else pret tt) ;;;
    if res <? 0 then pret (res, bufp, fi) else pret (0, bufp, fi)
  | Some h, None =>
    mem <-- malloc_m size ;;
    match mem with
    | None => pret (- ENOMEM, bufp, fi)
    | Some _ =>
        let buf := set_mem0 (FUSE_BUFVEC_INIT size) mem in
        let? (res, fi) := h path mem size off fi in
        let buf := if res >=? 0 then set_size0 buf (u64 res) else buf in
        if res <? 0 then pret (res, Some buf, fi) else pret (0, Some buf, fi)
    end
  end.

Definition fuse_fs_read fs path (mem : mptr) (size off : Z) fi : prog St (Z * fip) :=
  set_private_data fs.(user_data) ;;;
  match fs.(op).(op_read _ _), fs.(op).(op_read_buf _ _) with
  | None, None => pret (- ENOSYS, fi)
  | _, Some h =>
    let? (res, buf, fi) := h path None size off fi in
    if res =? 0 then
      let dst := set_mem0 (FUSE_BUFVEC_INIT size) mem in
      v <-- the_bufvec buf ;;
      let? (res, dst, v) := in_bs (fuse_buf_copy false dst v 0) in
      fuse_free_buf (Some v) ;;; pret (i32 res, fi)
    else fuse_free_buf buf ;;; pret (res, fi)
  | Some h, None => h path mem size off fi
  end.

(** The part of [fuse_fs_write_buf] that makes a flat copy. *)
Definition write_flat (h : cpath -> mptr -> Z -> Z -> fip -> prog St (Z * fip)) path
  (buf : fuse_bufvec) (size off : Z) fi : prog St (Z * fuse_bufvec * fip) :=
  let tmp := FUSE_BUFVEC_INIT size in
  mem <-- malloc_m size ;;
  match mem with
  | None => pret (- ENOMEM, buf, fi)
  | Some _ =>
    let tmp := set_mem0 tmp mem in
    let? (res, tmp, buf) := in_bs (fuse_buf_copy false tmp buf 0) in
    let res := i32 res in
    if res <=? 0 then free_m mem ;;; pret (res, buf, fi)
    else
      let? (res, fi) := h path mem (u64 res) off fi in
      free_m mem ;;; pret (res, buf, fi)
  end.

(** A vector of one buffer of memory is passed on as it is. *)
Definition fuse_fs_write_buf fs path (buf : fuse_bufvec) (off : Z) fi
  : prog St (Z * fuse_bufvec * fip) :=
  set_private_data fs.(user_data) ;;;
  match fs.(op).(op_write_buf _ _), fs.(op).(op_write _ _) with
  | None, None => pret (- ENOSYS, buf, fi)
  | Some h, _ =>
    plift (guard_c ((buf.(idx) =? 0) && (buf.(FuseBuf.off) =? 0)) AssertFailed) ;;;
    h path buf off fi
  | None, Some h =>
    let size := fuse_buf_size buf in
    plift (guard_c ((buf.(idx) =? 0) && (buf.(FuseBuf.off) =? 0)) AssertFailed) ;;;
    if buf.(count) =? 1 then
      b <-- plift (lift_fault OutOfBounds (zget buf.(FuseBuf.buf) 0)) ;;
      if negb (has_flag b.(flags) FUSE_BUF_IS_FD) then
        let? (res, fi) := h path b.(mem) b.(FuseBuf.size) off fi in
        pret (res, buf, fi)
      else write_flat h path buf size off fi
    else write_flat h path buf size off fi
  end.

Definition fuse_fs_write fs path (mem : mptr) (size off : Z) fi : prog St (Z * fip) :=
  let bufv := set_mem0 (FUSE_BUFVEC_INIT size) mem in
  let? (res, bufv, fi) := fuse_fs_write_buf fs path bufv off fi in
  pret (res, fi).

Definition fuse_fs_fsync fs path (datasync : Z) fi : prog St (Z * fip) :=
  set_private_data fs.(user_data) ;;;
  match fs.(op).(op_fsync _ _) with
  | Some h => h path datasync fi
  | None => pret (- ENOSYS, fi)
  end.

Definition fuse_fs_fsyncdir fs path (datasync : Z) fi : prog St (Z * fip) :=
  set_private_data fs.(user_data) ;;;
  match fs.(op).(op_fsyncdir _ _) with
  | Some h => h path datasync fi
  | None => pret (- ENOSYS, fi)
  end.

Definition fuse_fs_flush fs path fi : prog St (Z * fip) :=
  set_private_data fs.(user_data) ;;;
  match fs.(op).(op_flush _ _) with
  | Some h => h path fi
  | None => pret (- ENOSYS, fi)
  end.

Definition fuse_fs_statfs fs path (buf : statvfs) : prog St (Z * statvfs) :=
  set_private_data fs.(user_data) ;;;
  match fs.(op).(op_statfs _ _) with
  | Some h => h path buf
  | None =>
    pret (0, mk_statvfs 512 buf.(f_frsize) buf.(f_blocks) buf.(f_bfree) buf.(f_bavail)
      buf.(f_files) buf.(f_ffree) buf.(f_favail) buf.(f_fsid) buf.(f_flag) 255)
  end.

Definition fuse_fs_releasedir fs path fi : prog St (Z * fip) :=
  set_private_data fs.(user_data) ;;;
  match fs.(op).(op_releasedir _ _) with
  | Some h => h path fi
  | None => pret (0, fi)
  end.

Definition fuse_fs_readdir fs path (buf : D) (filler : filler_t D) (off : Z) fi (flags : Z)
  : prog St (Z * D * fip) :=
  set_private_data fs.(user_data) ;;;
  match fs.(op).(op_readdir _ _) with
  | Some h => h path buf filler off fi flags
  | None => pret (- ENOSYS, buf, fi)
  end.

Definition fuse_fs_create fs path (mode : Z) fi : prog St (Z * fip) :=
  set_private_data fs.(user_data) ;;;
  match fs.(op).(op_create _ _) with
  | Some h => h path mode fi
  | None => pret (- ENOSYS, fi)
  end.

Definition fuse_fs_lock fs path fi (cmd : Z) (lock : flock) : prog St (Z * fip * flock) :=
  set_private_data fs.(user_data) ;;;
  match fs.(op).(op_lock _ _) with
  | Some h => h path fi cmd lock
  | None => pret (- ENOSYS, fi, lock)
  end.

Definition fuse_fs_flock fs path fi (o : Z) : prog St (Z * fip) :=
  set_private_data fs.(user_data) ;;;
  match fs.(op).(op_flock _ _) with
  | Some h => h path fi o
  | None => pret (- ENOSYS, fi)
  end.

Definition fuse_fs_chown fs path (uid gid : Z) fi : prog St (Z * fip) :=
  set_private_data fs.(user_data) ;;;
  match fs.(op).(op_chown _ _) with
  | Some h => h path uid gid fi
  | None => pret (- ENOSYS, fi)
  end.

Definition fuse_fs_truncate fs path (size : Z) fi : prog St (Z * fip) :=
  set_private_data fs.(user_data) ;;;
  match fs.(op).(op_truncate _ _) with
  | Some h => h path size fi
  | None => pret (- ENOSYS, fi)
  end.

Definition fuse_fs_utimens fs path (tv : timespec * timespec) fi : prog St (Z * fip) :=
  set_private_data fs.(user_data) ;;;
  match fs.(op).(op_utimens _ _) with
  | Some h => h path tv fi
  | None => pret (- ENOSYS, fi)
  end.

Definition fuse_fs_access fs path (mask : Z) : prog St Z :=
  set_private_data fs.(user_data) ;;;
  match fs.(op).(op_access _ _) with
  | Some h => h path mask
  | None => pret (- ENOSYS)
  end.

Definition fuse_fs_readlink fs path (buf : mptr) (len : Z) : prog St Z :=
  set_private_data fs.(user_data) ;;;
  match fs.(op).(op_readlink _ _) with
  | Some h => h path buf len
  | None => pret (- ENOSYS)
  end.

Definition fuse_fs_mknod fs path (mode rdev : Z) : prog St Z :=
  set_private_data fs.(user_data) ;;;
  match fs.(op).(op_mknod _ _) with
  | Some h => h path mode rdev
  | None => pret (- ENOSYS)
  end.

Definition fuse_fs_mkdir fs path (mode : Z) : prog St Z :=
  set_private_data fs.(user_data) ;;;
  match fs.(op).(op_mkdir _ _) with
  | Some h => h path mode
  | None => pret (- ENOSYS)
  end.

Definition fuse_fs_setxattr fs path (name : list byte) (value : mptr) (size flags : Z) : prog St Z :=
  set_private_data fs.(user_data) ;;;
  match fs.(op).(op_setxattr _ _) with
  | Some h => h path name value size flags
  | None => pret (- ENOSYS)
  end.

Definition fuse_fs_getxattr fs path (name : list byte) (value : mptr) (size : Z) : prog St Z :=
  set_private_data fs.(user_data) ;;;
  match fs.(op).(op_getxattr _ _) with
  | Some h => h path name value size
  | None => pret (- ENOSYS)
  end.

Definition fuse_fs_listxattr fs path (list : mptr) (size : Z) : prog St Z :=
  set_private_data fs.(user_data) ;;;
  match fs.(op).(op_listxattr _ _) with
  | Some h => h path list size
  | None => pret (- ENOSYS)
  end.

Definition fuse_fs_bmap fs path (blocksize idx : Z) : prog St (Z * Z) :=
  set_private_data fs.(user_data) ;;;
  match fs.(op).(op_bmap _ _) with
  | Some h => h path blocksize idx
  | None => pret (- ENOSYS, idx)
  end.

Definition fuse_fs_removexattr fs path (name : list byte) : prog St Z :=
  set_private_data fs.(user_data) ;;;
  match fs.(op).(op_removexattr _ _) with
  | Some h => h path name
  | None => pret (- ENOSYS)
  end.

Definition fuse_fs_ioctl fs path (cmd : Z) (arg : mptr) fi (flags : Z) (data : mptr)
  : prog St (Z * fip) :=
  set_private_data fs.(user_data) ;;;
  match fs.(op).(op_ioctl _ _) with
  | Some h => h path cmd arg fi flags data
  | None => pret (- ENOSYS, fi)
  end.

Definition fuse_fs_poll fs path fi (ph : mptr) (revents : Z) : prog St (Z * fip * Z) :=
  set_private_data fs.(user_data) ;;;
  match fs.(op).(op_poll _ _) with
  | Some h => h path fi ph revents
  | None => pret (- ENOSYS, fi, revents)
  end.

Definition fuse_fs_fallocate fs path (mode offset length : Z) fi : prog St (Z * fip) :=
  set_private_data fs.(user_data) ;;;
  match fs.(op).(op_fallocate _ _) with
  | Some h => h path mode offset length fi
  | None => pret (- ENOSYS, fi)
  end.

Definition fuse_fs_copy_file_range fs (path_in : cpath) (fi_in : fip) (off_in : Z)
  (path_out : cpath) (fi_out : fip) (off_out len flags : Z) : prog St (Z * fip * fip) :=
  set_private_data fs.(user_data) ;;;
  match fs.(op).(op_copy_file_range _ _) with
  | Some h => h path_in fi_in off_in path_out fi_out off_out len flags
  | None => pret (- ENOSYS, fi_in, fi_out)
  end.

Definition fuse_fs_lseek fs path (off whence : Z) fi : prog St (Z * fip) :=
  set_private_data fs.(user_data) ;;;
  match fs.(op).(op_lseek _ _) with
  | Some h => h path off whence fi
  | None => pret (- ENOSYS, fi)
  end.

Definition fuse_fs_chmod fs path (mode : Z) fi : prog St (Z * fip) :=
  set_private_data fs.(user_data) ;;;
  match fs.(op).(op_chmod _ _) with
  | Some h => h path mode fi
  | None => pret (- ENOSYS, fi)
  end.

(** Init may change what the connection wants, through the old field or the new
one; when both were changed the process exits. *)
Definition fuse_fs_init fs (conn : fuse_conn_info) (cfg : fuse_config)
  : prog St (fuse_fs St D * fuse_conn_info * fuse_config) :=
  set_private_data fs.(user_data) ;;;
  let conn := if given fs.(op).(op_write_buf _ _) then conn
            else fuse_unset_feature_flag conn FUSE_CAP_SPLICE_READ in
  let conn := if given fs.(op).(op_lock _ _) then conn
            else fuse_unset_feature_flag conn FUSE_CAP_POSIX_LOCKS in
  let conn := if given fs.(op).(op_flock _ _) then conn
            else fuse_unset_feature_flag conn FUSE_CAP_FLOCK_LOCKS in
  match fs.(op).(op_init _ _) with
  | Some h =>
    let want_ext_default := conn.(want_ext) in
    let want_default := fuse_lower_32_bits conn.(want_ext) in
    let conn := with_want conn want_default in
    let? (d, conn, cfg) := h conn cfg in
    let fs := mk_fs fs.(op) d in
    let (rc, conn) := convert_to_conn_want_ext conn want_ext_default want_default in
    if negb (rc =? 0) then pfail ProcessExit
    else pret (fs, conn, cfg)
  | None => pret (fs, conn, cfg)
  end.

Definition fuse_fs_destroy fs : prog St unit :=
  set_private_data fs.(user_data) ;;;
  match fs.(op).(op_destroy _ _) with
  | Some h => h fs.(user_data)
  | None => pret tt
  end.

End fs.

End FuseFs.
