(* ===== verification/FuseLocks.v ===== *)
(** The POSIX record locks libfuse keeps for every node (struct lock,
    locks_conflict, locks_insert and the conversions of
    src/fuse-3.17.2/lib/fuse.c and lib/fuse_lowlevel.c), and the map from owners and positions to lock
    types that a list of locks stands for. *)
From S2P Require Import Prelude.
From S2P Require Import FuseFs.

Module FuseLocks.
Import FuseFs.

(** ** Definitions *)

(** The values of Linux's fcntl.h. *)
Definition F_RDLCK : Z := 0.
Definition F_WRLCK : Z := 1.
Definition F_UNLCK : Z := 2.
Definition ENOLCK : Z := 37.
Definition OFFSET_MAX : Z := 0x7fffffffffffffff.

(** [struct lock]; the chain through its [next] field is a list. *)
Record lock := mk_lock {
  type : Z; start : Z; end_ : Z; pid : Z; owner : Z;
}.

Definition with_start (l : lock) (v : Z) : lock := mk_lock l.(type) v l.(end_) l.(pid) l.(owner).
Definition with_end (l : lock) (v : Z) : lock := mk_lock l.(type) l.(start) v l.(pid) l.(owner).
Definition with_owner (l : lock) (v : Z) : lock := mk_lock l.(type) l.(start) l.(end_) l.(pid) v.

(** Arithmetic on [off_t], which is signed. *)
Definition off_t (z : Z) : outcome Z :=
  if (- 2 ^ 63 <=? z) && (z <=? OFFSET_MAX) then Ok z else Fail SignedOverflow.

Fixpoint locks_conflict (locks : list lock) (lk : lock) : option lock :=
  match locks with
  | [] => None
  | l :: r =>
      if negb (l.(owner) =? lk.(owner)) &&
         ((lk.(start) <=? l.(end_)) && (l.(start) <=? lk.(end_))) &&
         ((l.(type) =? F_WRLCK) || (lk.(type) =? F_WRLCK))
      then Some l
      else locks_conflict r lk
  end.

(** What follows the loop: the new lock goes in at the place the loop ended.
    [newl1] says that the first allocation was made. *)
Definition place_lock (newl1 : bool) (lk : lock) (rest : list lock) : outcome (list lock) :=
  if lk.(type) =? F_UNLCK then Ok rest
  else guard_c newl1 NullDeref ;; Ok (lk :: rest).

(** The loop of locks_insert over the locks from [lp] on: what the chain from
    there becomes.  [newl1] and [newl2] say which of the two spare locks there
    are; [lk] is the caller's lock, which the loop widens. *)
Fixpoint insert_loop (newl1 newl2 : bool) (lk : lock) (fuel : nat) (rest : list lock)
    : outcome (list lock) :=
  match fuel with O => Fail OutOfFuel | S fuel =>
    match rest with
    | [] => place_lock newl1 lk []
    | l :: next =>
        let skip l newl2 next := r <- insert_loop newl1 newl2 lk fuel next ;; Ok (l :: r) in
        if negb (l.(owner) =? lk.(owner)) then skip l newl2 next
        else if lk.(type) =? l.(type) then
          before <- off_t (lk.(start) - 1) ;;
          if l.(end_) <? before then skip l newl2 next
          else
            lbefore <- off_t (l.(start) - 1) ;;
            if lk.(end_) <? lbefore then place_lock newl1 lk rest
            else if (l.(start) <=? lk.(start)) && (lk.(end_) <=? l.(end_)) then Ok rest
            else
              let lk := if l.(start) <? lk.(start) then with_start lk l.(start) else lk in
              let lk := if lk.(end_) <? l.(end_) then with_end lk l.(end_) else lk in
              insert_loop newl1 newl2 lk fuel next
        else if l.(end_) <? lk.(start) then skip l newl2 next
        else if lk.(end_) <? l.(start) then place_lock newl1 lk rest
        else if (lk.(start) <=? l.(start)) && (l.(end_) <=? lk.(end_)) then
          insert_loop newl1 newl2 lk fuel next
        else if l.(end_) <=? lk.(end_) then
          e <- off_t (lk.(start) - 1) ;; skip (with_end l e) newl2 next
        else if lk.(start) <=? l.(start) then
          s <- off_t (lk.(end_) + 1) ;; place_lock newl1 lk (with_start l s :: next)
        else
          guard_c newl2 NullDeref ;;
          s <- off_t (lk.(end_) + 1) ;;
          e <- off_t (lk.(start) - 1) ;;
          skip (with_end l e) false (with_start l s :: next)
    end
  end.

(** [m1] and [m2]: whether the two allocations succeed. *)
Definition locks_insert (m1 m2 : bool) (locks : list lock) (lk : lock)
    : outcome (Z * list lock) :=
  let wanted := negb (lk.(type) =? F_UNLCK) || negb (lk.(start) =? 0) ||
                negb (lk.(end_) =? OFFSET_MAX) in
  if wanted && negb (m1 && m2) then Ok (- ENOLCK, locks)
  else
    r <- insert_loop wanted wanted lk (length locks + 2)%nat locks ;;
    Ok (0, r).

Definition flock_to_lock (fl : flock) : outcome lock :=
  e <- (if negb (fl.(l_len) =? 0)
        then s <- off_t (fl.(l_start) + fl.(l_len)) ;; off_t (s - 1)
        else Ok OFFSET_MAX) ;;
  Ok (mk_lock fl.(l_type) fl.(l_start) e fl.(l_pid) 0).

(** [fl]: what the caller's struct flock holds; its l_whence stays. *)
Definition lock_to_flock (lk : lock) (fl : flock) : outcome flock :=
  len <- (if lk.(end_) =? OFFSET_MAX then Ok 0
          else d <- off_t (lk.(end_) - lk.(start)) ;; off_t (d + 1)) ;;
  Ok (mk_flock lk.(type) fl.(l_whence) lk.(start) len lk.(pid)).

(** ** Locks on the wire *)

(** [struct fuse_file_lock] of fuse_kernel.h, unsigned. *)
Record fuse_file_lock := mk_file_lock {
  fl_start : Z; fl_end : Z; fl_type : Z; fl_pid : Z;
}.

(** l_type is a short, l_start and l_len are signed. *)
Definition convert_fuse_file_lock (fl : fuse_file_lock) : flock :=
  mk_flock (swrap 16 fl.(fl_type)) 0 (i64 fl.(fl_start))
    (if fl.(fl_end) =? OFFSET_MAX then 0
     else i64 (u64 (u64 (fl.(fl_end) - fl.(fl_start)) + 1)))
    (i32 fl.(fl_pid)).

(** What fuse_reply_lock puts into the answer. *)
Definition fuse_reply_lock_arg (lock : flock) : outcome fuse_file_lock :=
  let! (s, e) :=
    (if negb (lock.(l_type) =? F_UNLCK) then
       e <- (if lock.(l_len) =? 0 then Ok OFFSET_MAX
             else n <- off_t (lock.(l_start) + lock.(l_len)) ;; off_t (n - 1)) ;;
       Ok (u64 lock.(l_start), u64 e)
     else Ok (0, 0)) in
  Ok (mk_file_lock s e (u32 lock.(l_type)) (u32 lock.(l_pid))).

(** ** What a list of locks stands for *)

Definition covers (l : lock) (p : Z) : bool := (l.(start) <=? p) && (p <=? l.(end_)).

(** The type of the lock that the owner holds at a position. *)
Fixpoint lock_at (ls : list lock) (o p : Z) : option Z :=
  match ls with
  | [] => None
  | l :: r => if (l.(owner) =? o) && covers l p then Some l.(type) else lock_at r o p
  end.

Definition lock_range (l : lock) : Prop := 0 <= l.(start) <= l.(end_) /\ l.(end_) <= OFFSET_MAX.
Definition lock_wf (l : lock) : Prop :=
  lock_range l /\ (l.(type) = F_RDLCK \/ l.(type) = F_WRLCK).

(** [l] comes after [q], and does not continue it with the same type. *)
Definition follows (q : option lock) (l : lock) : Prop :=
  match q with
  | None => True
  | Some q => q.(end_) < l.(start) /\ (q.(type) = l.(type) -> q.(end_) + 1 < l.(start))
  end.

(** The locks of one owner: in order, disjoint, and merged where they touch. *)
Fixpoint chain (q : option lock) (ls : list lock) : Prop :=
  match ls with
  | [] => True
  | l :: r => lock_wf l /\ follows q l /\ chain (Some l) r
  end.

Definition of_owner (o : Z) (ls : list lock) : list lock :=
  filter (fun l => l.(owner) = o) ls.

Definition locks_wf (ls : list lock) : Prop := forall o, chain None (of_owner o ls).

End FuseLocks.
