(* ===== verification/FuseLocksFacts.v ===== *)
(** The lists of record locks as maps: what looking up an owner's lock gives,
    and one lemma for the loop that inserts a lock. *)
From S2P Require Import Prelude.
From S2P Require Import FuseFs.
From S2P Require Import FuseLocks.

Module FuseLocksFacts.
Import FuseFs FuseLocks.

Lemma off_t_Ok z : - 2 ^ 63 <= z <= OFFSET_MAX -> off_t z = Ok z.
Proof.
  intros [? ?]. unfold off_t.
  by rewrite (proj2 (Z.leb_le _ _)), (proj2 (Z.leb_le z _)) by done.
Qed.

Lemma covers_spec l p : covers l p = true <-> l.(start) <= p <= l.(end_).
Proof. unfold covers. rewrite andb_true_iff, !Z.leb_le. done. Qed.

Lemma of_owner_same o ls : Forall (fun l => l.(owner) = o) (of_owner o ls).
Proof. apply Forall_forall. by intros l [? _]%list_elem_of_filter. Qed.

Lemma of_owner_cons o l ls :
  of_owner o (l :: ls) = if decide (l.(owner) = o) then l :: of_owner o ls else of_owner o ls.
Proof. unfold of_owner. by rewrite filter_cons. Qed.

Lemma of_owner_mine l ls : of_owner l.(owner) (l :: ls) = l :: of_owner l.(owner) ls.
Proof. by rewrite of_owner_cons, decide_True. Qed.

Lemma of_owner_other o l ls : l.(owner) <> o -> of_owner o (l :: ls) = of_owner o ls.
Proof. intros. by rewrite of_owner_cons, decide_False. Qed.

Lemma lock_at_of_owner o p ls : lock_at ls o p = lock_at (of_owner o ls) o p.
Proof.
  induction ls as [|l r IH]; [done|]. rewrite of_owner_cons. cbn [lock_at].
  case_decide as Ho; cbn [lock_at].
  - rewrite (proj2 (Z.eqb_eq _ _) Ho). by rewrite IH.
  - rewrite (proj2 (Z.eqb_neq _ _) Ho). done.
Qed.

Lemma lock_at_mine l r p :
  lock_at (l :: r) l.(owner) p = if covers l p then Some l.(type) else lock_at r l.(owner) p.
Proof. cbn [lock_at]. by rewrite Z.eqb_refl. Qed.

Lemma lock_at_other o l r p : l.(owner) <> o -> lock_at (l :: r) o p = lock_at r o p.
Proof. intros. cbn [lock_at]. by rewrite (proj2 (Z.eqb_neq _ _)). Qed.

(** A chain holds nothing up to the end of the lock it follows. *)
Lemma chain_above o q ls p : chain (Some q) ls -> p <= q.(end_) -> lock_at ls o p = None.
Proof.
  revert q. induction ls as [|l r IH]; intros q Hc Hp; [done|].
  destruct Hc as ([[? ?] ?] & [Hlt _] & Hc). cbn [lock_at].
  destruct (covers l p) eqn:Hcov; [apply covers_spec in Hcov; lia|].
  rewrite andb_false_r. apply (IH l Hc). lia.
Qed.

(** A chain may be moved to follow a lock of the same type that ends earlier,
    or anything smaller than its first lock. *)
Lemma chain_follow q q' ls :
  chain q ls -> (forall l r, ls = l :: r -> lock_wf l -> follows q l -> follows q' l) -> chain q' ls.
Proof. destruct ls as [|l r]; [done|]. intros (Hw & Hf & Hc) H. split_and!; [done| |done]. by eapply H. Qed.

(** ** Inserting a lock *)

(** The new lock has taken over its range, and nothing else has changed. *)
Definition inserted (q : option lock) (lk : lock) (ls r : list lock) : Prop :=
  chain q (of_owner lk.(owner) r) /\
  (forall p, lock_at r lk.(owner) p =
     if covers lk p then (if lk.(type) =? F_UNLCK then None else Some lk.(type))
     else lock_at ls lk.(owner) p) /\
  forall o, o <> lk.(owner) -> of_owner o r = of_owner o ls.

Definition type_ok (lk : lock) : Prop :=
  lk.(type) = F_RDLCK \/ lk.(type) = F_WRLCK \/ lk.(type) = F_UNLCK.

(** The spare locks are there, or are not needed. *)
Definition spare_ok (n : bool) (lk : lock) : Prop :=
  n = true \/ (lk.(type) = F_UNLCK /\ lk.(start) = 0 /\ lk.(end_) = OFFSET_MAX).

Definition precedes (lk : lock) (ls : list lock) : Prop :=
  match of_owner lk.(owner) ls with
  | [] => True
  | l :: _ => lk.(end_) < l.(start) /\ (lk.(type) = l.(type) -> lk.(end_) + 1 < l.(start))
  end.

Lemma wf_not_unlck l : lock_wf l -> l.(type) <> F_UNLCK.
Proof. intros [_ [-> | ->]]; done. Qed.

Lemma precedes_free q lk ls p :
  precedes lk ls -> chain q (of_owner lk.(owner) ls) -> covers lk p = true ->
  lock_at ls lk.(owner) p = None.
Proof.
  unfold precedes. rewrite (lock_at_of_owner _ p ls).
  intros Hp Hc Hcov%covers_spec. destruct (of_owner (owner lk) ls) as [|l r]; [done|].
  destruct Hc as ([[? ?] _] & _ & Hc). cbn [lock_at].
  destruct (covers l p) eqn:Hl; [apply covers_spec in Hl; lia|]. rewrite andb_false_r.
  apply (chain_above _ l); [done | lia].
Qed.

Lemma place_inserted n q lk ls :
  lock_range lk -> type_ok lk -> spare_ok n lk -> follows q lk -> precedes lk ls ->
  chain q (of_owner lk.(owner) ls) ->
  exists r, place_lock n lk ls = Ok r /\ inserted q lk ls r.
Proof.
  intros Hr Ht Hs Hq Hp Hc. pose proof (precedes_free q lk ls) as Hfree.
  unfold place_lock, inserted. destruct (Z.eqb_spec lk.(type) F_UNLCK) as [Hu|Hu].
  - exists ls. split_and!; [done..| |done]. intros p.
    destruct (covers lk p) eqn:Hcov; [by apply Hfree | done].
  - destruct Hs as [-> | [? _]]; [|done]. exists (lk :: ls). split; [done|].
    rewrite of_owner_mine. split_and!.
    + split_and!; [split; [done|] | done |].
      * destruct Ht as [?|[?|?]]; [by left | by right | done].
      * apply (chain_follow q); [done|]. intros l r Hl _ _. unfold precedes in Hp.
        rewrite Hl in Hp. exact Hp.
    + intros p. by rewrite lock_at_mine.
    + intros o Ho. by apply of_owner_other.
Qed.

(** A lock of the owner that stays, changed or not, in front of the new one. *)
Lemma inserted_behind q l l' lk ls r :
  l.(owner) = lk.(owner) -> l'.(owner) = lk.(owner) -> lock_wf l' -> follows q l' ->
  inserted (Some l') lk ls r ->
  (forall p, covers lk p = false -> covers l p = covers l' p) -> l'.(type) = l.(type) ->
  l'.(end_) < lk.(start) ->
  inserted q lk (l :: ls) (l' :: r).
Proof.
  intros Ho Ho' Hw Hq (Hc & Hat & Hoth) Hcov Ht Hlt. unfold inserted. rewrite <- Ho'.
  rewrite <- Ho' in Hc, Hat, Hoth. split_and!.
  - by rewrite of_owner_mine.
  - intros p. rewrite lock_at_mine, Hat. replace (owner l') with (owner l) by congruence.
    rewrite lock_at_mine, Ht. destruct (covers lk p) eqn:Hp; [|by rewrite (Hcov p Hp)].
    apply covers_spec in Hp. destruct (covers l' p) eqn:Hl; [apply covers_spec in Hl; lia | done].
  - intros o Hne. rewrite !of_owner_other by congruence. by apply Hoth.
Qed.

(** A lock of another owner. *)
Lemma inserted_other q l lk ls r :
  l.(owner) <> lk.(owner) -> inserted q lk ls r -> inserted q lk (l :: ls) (l :: r).
Proof.
  intros Ho (Hc & Hat & Hoth). split_and!.
  - by rewrite of_owner_other.
  - intros p. by rewrite !lock_at_other by done.
  - intros o Hne. rewrite !of_owner_cons. by rewrite (Hoth o Hne).
Qed.

(** A lock that the new one takes over, wholly or by growing over it. *)
Lemma inserted_over q l lk lk' ls r :
  l.(owner) = lk.(owner) -> lk'.(owner) = lk.(owner) -> lk'.(type) = lk.(type) ->
  lk.(type) <> F_UNLCK \/ lk' = lk ->
  (forall p, covers lk p = true -> covers lk' p = true) ->
  (forall p, covers l p = true -> covers lk' p = true) ->
  (forall p, covers lk' p = true -> covers lk p = true \/ (covers l p = true /\ l.(type) = lk.(type))) ->
  inserted q lk' ls r -> inserted q lk (l :: ls) r.
Proof.
  intros Ho Ho' Ht Hu H1 H2 H3 (Hc & Hat & Hoth). unfold inserted. rewrite <- Ho'. split_and!; [done| |].
  - intros p. rewrite Hat. replace (owner lk') with (owner l) by congruence.
    rewrite lock_at_mine, Ht. destruct (covers lk p) eqn:Hp; [by rewrite (H1 p Hp)|].
    destruct (covers l p) eqn:Hl.
    + rewrite (H2 p Hl). destruct (H3 p (H2 p Hl)) as [?|[_ ->]]; [congruence|].
      destruct Hu as [Hu | ->]; [|specialize (H2 p Hl); congruence].
      by rewrite (proj2 (Z.eqb_neq _ _) Hu).
    + destruct (covers lk' p) eqn:Hp'; [|done].
      destruct (H3 p Hp') as [?|[? _]]; congruence.
  - intros o Hne. rewrite of_owner_other by congruence. by apply Hoth.
Qed.

(** The lock behind the new one ends the loop. *)
Lemma loop_stops n n2 lk fuel l next :
  l.(owner) = lk.(owner) -> lk.(type) <> l.(type) -> lk.(start) <= lk.(end_) ->
  lk.(end_) < l.(start) -> l.(start) <= l.(end_) ->
  insert_loop n n2 lk (S fuel) (l :: next) = place_lock n lk (l :: next).
Proof.
  intros Ho Ht Hr Hlt Hl. cbn [insert_loop].
  rewrite (proj2 (Z.eqb_eq _ _) Ho), (proj2 (Z.eqb_neq _ _) Ht). cbn [negb].
  rewrite (proj2 (Z.ltb_ge _ _)) by lia. by rewrite (proj2 (Z.ltb_lt _ _)) by lia.
Qed.

Ltac cmp := match goal with
  | |- context [?a =? ?b] => destruct (Z.eqb_spec a b)
  | |- context [?a <? ?b] => destruct (Z.ltb_spec a b)
  | |- context [?a <=? ?b] => destruct (Z.leb_spec a b)
  end; cbn [negb andb].

(** Covering a position, as inequalities. *)
Ltac by_cases :=
  repeat match goal with
  | H : covers _ _ = true |- _ => apply covers_spec in H
  | H : covers _ _ = false |- _ => apply not_true_iff_false in H; rewrite covers_spec in H
  | |- covers _ _ = true => apply covers_spec
  | |- covers _ _ = covers _ _ => apply eq_true_iff_eq; rewrite !covers_spec
  end; cbn [start end_ type owner with_start with_end] in *; lia.

(** The loop does its work with the given fuel. *)
Definition loop_ok n fuel : Prop := forall ls q lk,
  (length ls + 2 <= fuel)%nat -> lock_range lk -> type_ok lk -> spare_ok n lk -> follows q lk ->
  chain q (of_owner lk.(owner) ls) ->
  exists r, insert_loop n n lk fuel ls = Ok r /\ inserted q lk ls r.

(** A round on a lock of the same owner. *)
Section round.
Context (n : bool) (fuel : nat) (IH : loop_ok n fuel) (l lk : lock) (next : list lock) (q : option lock).
Context (Hf : (length next + 2 <= fuel)%nat) (Hr : lock_range lk) (Ht : type_ok lk)
  (Hs : spare_ok n lk) (Hq : follows q lk) (Ho : l.(owner) = lk.(owner)) (Hw : lock_wf l)
  (Hql : follows q l) (Hc : chain (Some l) (of_owner lk.(owner) next)).

Lemma behind_round l' :
  l'.(owner) = lk.(owner) -> lock_wf l' -> follows q l' -> follows (Some l') lk ->
  l'.(type) = l.(type) -> l'.(end_) <= l.(end_) ->
  (forall p, covers lk p = false -> covers l p = covers l' p) ->
  exists r, (x <- insert_loop n n lk fuel next ;; Ok (l' :: x)) = Ok r /\ inserted q lk (l :: next) r.
Proof.
  intros Ho' Hw' Hq' Hlk Ht' He Hcov.
  destruct (IH next (Some l') lk Hf Hr Ht Hs Hlk) as (r & -> & Hi).
  { apply (chain_follow (Some l)); [done|]. intros m r _ _ [? Hm]. split; [lia|].
    intros Hmt. rewrite Ht' in Hmt. specialize (Hm Hmt). lia. }
  eexists. split; [done|]. apply (inserted_behind q l l'); try done. apply Hlk.
Qed.

Lemma stays_round : l.(end_) < lk.(start) -> (l.(type) = lk.(type) -> l.(end_) + 1 < lk.(start)) ->
  exists r, (x <- insert_loop n n lk fuel next ;; Ok (l :: x)) = Ok r /\ inserted q lk (l :: next) r.
Proof. intros. by apply behind_round. Qed.

Lemma place_round :
  lk.(end_) < l.(start) -> (lk.(type) = l.(type) -> lk.(end_) + 1 < l.(start)) ->
  exists r, place_lock n lk (l :: next) = Ok r /\ inserted q lk (l :: next) r.
Proof.
  intros. apply place_inserted; try done.
  - unfold precedes. by rewrite <- Ho, of_owner_mine.
  - rewrite <- Ho, of_owner_mine, Ho. done.
Qed.

(** The lock is there already. *)
Lemma inside_round : lk.(type) = l.(type) -> l.(start) <= lk.(start) -> lk.(end_) <= l.(end_) ->
  inserted q lk (l :: next) (l :: next).
Proof.
  intros Hty H1 H2. pose proof (wf_not_unlck l Hw) as Hnu. split_and!; [|intros p|done].
  - rewrite <- Ho, of_owner_mine, Ho. done.
  - rewrite <- Ho, lock_at_mine, <- Hty. destruct (covers lk p) eqn:Hp; [|done].
    assert (covers l p = true) as -> by by_cases.
    by rewrite (proj2 (Z.eqb_neq _ _)) by congruence.
Qed.

Definition joined : lock :=
  mk_lock lk.(type) (Z.min l.(start) lk.(start)) (Z.max l.(end_) lk.(end_)) lk.(pid) lk.(owner).

(** The lock touches one of the same type: the two become one. *)
Lemma join_round : lk.(type) = l.(type) ->
  lk.(start) - 1 <= l.(end_) -> l.(start) - 1 <= lk.(end_) ->
  exists r, insert_loop n n joined fuel next = Ok r /\ inserted q lk (l :: next) r.
Proof.
  intros Hty Ht1 Ht2. pose proof Hw as [[Hl0 Hl1] _]. pose proof Hr as [Hr0 Hr1].
  pose proof (wf_not_unlck l Hw) as Hnu. unfold joined.
  destruct (IH next q joined Hf) as (r & Hrun & Hi); unfold joined in *; [| | | | |].
  - split; cbn [start end_]; lia.
  - exact Ht.
  - destruct Hs as [?|[? _]]; [by left | congruence].
  - destruct q as [q'|]; [|done]. destruct Hq as [? Hq2], Hql as [? Hq3]. split; cbn [start end_ type].
    + lia.
    + intros Hty'. specialize (Hq2 Hty'). specialize (Hq3 ltac:(congruence)). lia.
  - apply (chain_follow (Some l)); [done|]. intros m r _ _ [? Hm].
    destruct q as [q'|]; [|done]. destruct Hql as [? Hq3]. split; [lia|]. intros. lia.
  - exists r. split; [done|]. apply (inserted_over q l lk _ next r Ho) in Hi; try done.
    + left. congruence.
    + intros p Hp. by_cases.
    + intros p Hp. by_cases.
    + intros p Hp. destruct (covers lk p) eqn:Hlp; [by left | right]. split; [|done]. by_cases.
Qed.

Lemma same_type_round : lk.(type) = l.(type) ->
  exists r, insert_loop n n lk (S fuel) (l :: next) = Ok r /\ inserted q lk (l :: next) r.
Proof.
  intros Hty. pose proof Hw as [[Hl0 Hl1] _]. pose proof Hr as [Hr0 Hr1].
  unfold OFFSET_MAX in *. cbn [insert_loop].
  rewrite (proj2 (Z.eqb_eq _ _) Ho), (proj2 (Z.eqb_eq _ _) Hty). cbn [negb].
  rewrite !off_t_Ok by (unfold OFFSET_MAX; lia). cbn [obind].
  cmp; [apply stays_round; lia|]. cmp; [apply place_round; lia|].
  destruct ((start l <=? start lk) && (end_ lk <=? end_ l)) eqn:Hin.
  { apply andb_true_iff in Hin as [H1%Z.leb_le H2%Z.leb_le]. eexists. split; [done|].
    by apply inside_round. }
  match goal with |- context [insert_loop n n ?k fuel next] => replace k with joined end.
  - apply join_round; lia.
  - unfold joined. clear. destruct lk as [t s0 e0 pd o]. cbn [start end_ type owner pid].
    destruct (Z.ltb_spec l.(start) s0); cbn [start end_ type owner pid with_start];
      (destruct (Z.ltb_spec e0 l.(end_)); unfold with_end, with_start; cbn [start end_ type owner pid]; f_equal; lia).
Qed.

(** The lock cuts one of another type in two. *)
Lemma split_round : lk.(type) <> l.(type) -> l.(start) < lk.(start) -> lk.(end_) < l.(end_) ->
  exists r, (x <- insert_loop n false lk fuel (with_start l (lk.(end_) + 1) :: next) ;;
             Ok (with_end l (lk.(start) - 1) :: x)) = Ok r /\ inserted q lk (l :: next) r.
Proof.
  intros Hty H1 H2. pose proof Hw as [[Hl0 Hl1] Hwt]. pose proof Hr as [Hr0 Hr1].
  destruct fuel as [|fuel']; [lia|].
  rewrite loop_stops by (cbn [start end_ type owner with_start]; done || lia).
  destruct (place_inserted n (Some (with_end l (start lk - 1))) lk
    (with_start l (end_ lk + 1) :: next)) as (r & -> & Hc' & Hat & Hoth); try done.
  - split; cbn [start end_ with_end]; [lia|]. intros ?%eq_sym. done.
  - unfold precedes. rewrite <- Ho. change (owner l) with (owner (with_start l (end_ lk + 1))).
    rewrite of_owner_mine. cbn [start with_start]. split; [lia | done].
  - rewrite <- Ho. change (owner l) with (owner (with_start l (end_ lk + 1))) at 1.
    rewrite of_owner_mine. split_and!.
    + split; [split; cbn [start end_ with_start]; lia | done].
    + split; cbn [start end_ with_start with_end]; lia.
    + cbn [owner with_start]. rewrite Ho. apply (chain_follow (Some l)); [done|]. by intros.
  - eexists. split; [done|]. unfold inserted. rewrite <- Ho.
    change (owner l) with (owner (with_end l (start lk - 1))). rewrite of_owner_mine.
    change (owner (with_end l (start lk - 1))) with (owner l). rewrite Ho. split_and!.
    + split; [split; [split; cbn [start end_ with_end]; lia | done]|].
      split; [destruct q as [q'|]; [exact Hql | done] | exact Hc'].
    + intros p. rewrite <- Ho. change (owner l) with (owner (with_end l (start lk - 1))) at 1.
      rewrite lock_at_mine. cbn [owner with_end]. rewrite Ho, Hat.
      change (owner lk) with (owner lk). rewrite <- Ho.
      change (owner l) with (owner (with_start l (end_ lk + 1))) at 1. rewrite !lock_at_mine.
      cbn [owner with_start type with_end].
      destruct (covers lk p) eqn:Hp, (covers (with_end l (start lk - 1)) p) eqn:Hp1,
        (covers (with_start l (end_ lk + 1)) p) eqn:Hp2, (covers l p) eqn:Hp3; try done; by_cases.
    + intros o Hne. rewrite !of_owner_other by (cbn [owner with_end]; congruence).
      rewrite Hoth by done. apply of_owner_other. cbn [owner with_start]. congruence.
Qed.

(** The lock covers the start of one of another type. *)
Lemma trim_round : lk.(type) <> l.(type) -> lk.(start) <= l.(start) <= lk.(end_) -> lk.(end_) < l.(end_) ->
  exists r, place_lock n lk (with_start l (lk.(end_) + 1) :: next) = Ok r /\ inserted q lk (l :: next) r.
Proof.
  intros Hty H1 H2. pose proof Hw as [[Hl0 Hl1] Hwt]. pose proof Hr as [Hr0 Hr1].
  set (l' := with_start l (end_ lk + 1)). assert (owner l' = owner lk) as Ho' by done.
  destruct (place_inserted n q lk (l' :: next)) as (r & -> & Hc' & Hat & Hoth); try done.
  - unfold precedes. rewrite <- Ho', of_owner_mine. cbn [start with_start l']. split; [lia | done].
  - rewrite <- Ho', of_owner_mine, Ho'. split; [split; [split; cbn [start end_ with_start l']; lia | done]|].
    split; [|apply (chain_follow (Some l)); [done | by intros]].
    destruct q as [q'|]; [|done]. destruct Hql as [? Hq2]. cbn [follows start with_start type l'].
    split; [lia|]. intros. lia.
  - exists r. split; [done|]. split_and!; [done | |].
    + intros p. rewrite Hat. destruct (covers lk p) eqn:Hp; [done|].
      rewrite <- Ho' at 1. rewrite <- Ho, !lock_at_mine, Ho'.
      assert (covers l' p = covers l p) as -> by (unfold l'; by_cases). by rewrite Ho.
    + intros o Hne. rewrite Hoth by done. by rewrite !of_owner_other by (cbn; congruence).
Qed.

Lemma other_type_round : lk.(type) <> l.(type) ->
  exists r, insert_loop n n lk (S fuel) (l :: next) = Ok r /\ inserted q lk (l :: next) r.
Proof.
  intros Hty. pose proof Hw as [[Hl0 Hl1] Hwt]. pose proof Hr as [Hr0 Hr1].
  cbn [insert_loop]. rewrite (proj2 (Z.eqb_eq _ _) Ho), (proj2 (Z.eqb_neq _ _) Hty). cbn [negb].
  cmp; [by apply stays_round; auto|]. cmp; [by apply place_round; auto|].
  destruct ((start lk <=? start l) && (end_ l <=? end_ lk)) eqn:Hin.
  { apply andb_true_iff in Hin as [H1%Z.leb_le H2%Z.leb_le].
    destruct (IH next q lk Hf Hr Ht Hs Hq) as (r & Hrun & Hi).
    - apply (chain_follow (Some l)); [done|]. intros m r _ _ [? Hm].
      destruct q as [q'|]; [|done]. destruct Hql as [? Hq3]. split; [lia|]. intros. lia.
    - exists r. split; [done|]. apply (inserted_over q l lk lk); auto.
      intros p Hp. by_cases. }
  apply andb_false_iff in Hin. rewrite !Z.leb_gt in Hin. unfold OFFSET_MAX in *.
  cmp.
  - rewrite off_t_Ok by (unfold OFFSET_MAX; lia). cbn [obind].
    apply behind_round; cbn [owner type end_ with_end]; try done; try lia.
    + split; [split; cbn [start end_ with_end]; unfold OFFSET_MAX; lia | done].
    + split; cbn [type end_ with_end]; [lia|]. intros ?%eq_sym. done.
    + intros p Hp. by_cases.
  - rewrite !off_t_Ok by (unfold OFFSET_MAX; lia). cbn [obind]. cmp.
    + apply trim_round; [done | lia..].
    + destruct Hs as [Hn|(_ & ? & ?)]; [|lia]. assert (guard_c n NullDeref = Ok tt) as -> by by rewrite Hn.
      cbn [obind]. apply split_round; [done | lia..].
Qed.

End round.

Lemma insert_loop_spec n fuel : loop_ok n fuel.
Proof.
  induction fuel as [|fuel IH]; intros ls q lk Hf Hr Ht Hs Hq Hc; [lia|].
  destruct ls as [|l next]; [by apply place_inserted|]. cbn [length] in Hf.
  destruct (decide (l.(owner) = lk.(owner))) as [Ho|Ho].
  - rewrite <- Ho, of_owner_mine, Ho in Hc. destruct Hc as (Hw & Hql & Hc).
    destruct (decide (lk.(type) = l.(type))); [apply same_type_round | apply other_type_round];
      (done || lia).
  - cbn [insert_loop]. rewrite (proj2 (Z.eqb_neq _ _) Ho). cbn [negb].
    rewrite of_owner_other in Hc by done.
    destruct (IH next q lk ltac:(lia) Hr Ht Hs Hq Hc) as (r & -> & Hi).
    eexists. split; [done|]. by apply inserted_other.
Qed.

(** ** The operations *)

Lemma locks_wf_inserted lk ls r : locks_wf ls -> inserted None lk ls r -> locks_wf r.
Proof.
  intros Hwf (Hc & _ & Hoth) o. destruct (decide (o = lk.(owner))) as [->|Hne]; [done|].
  rewrite Hoth by done. apply Hwf.
Qed.

Lemma lock_at_inserted lk ls r o p : inserted None lk ls r ->
  lock_at r o p = if (o =? lk.(owner)) && covers lk p
                  then (if lk.(type) =? F_UNLCK then None else Some lk.(type))
                  else lock_at ls o p.
Proof.
  intros (_ & Hat & Hoth). destruct (Z.eqb_spec o lk.(owner)) as [->|Hne]; [apply Hat|].
  cbn [andb]. by rewrite lock_at_of_owner, Hoth, <- lock_at_of_owner.
Qed.

Lemma locks_insert_run ls lk :
  locks_wf ls -> lock_range lk -> type_ok lk ->
  exists r, locks_insert true true ls lk = Ok (0, r) /\ inserted None lk ls r.
Proof.
  intros Hwf Hr Ht. unfold locks_insert. rewrite andb_false_r.
  set (n := negb (type lk =? F_UNLCK) || negb (start lk =? 0) || negb (end_ lk =? OFFSET_MAX)).
  destruct (insert_loop_spec n (length ls + 2) ls None lk) as (r & -> & Hi); try done.
  - unfold spare_ok, n. destruct (Z.eqb_spec lk.(type) F_UNLCK), (Z.eqb_spec lk.(start) 0),
      (Z.eqb_spec lk.(end_) OFFSET_MAX); cbn; auto.
  - by exists r.
Qed.

(** ** Conflicts *)

(** Two locks that share a position of which one is a write lock. *)
Definition clash (l lk : lock) : bool :=
  negb (l.(owner) =? lk.(owner)) && ((lk.(start) <=? l.(end_)) && (l.(start) <=? lk.(end_))) &&
  ((l.(type) =? F_WRLCK) || (lk.(type) =? F_WRLCK)).

Lemma locks_conflict_find ls lk : locks_conflict ls lk = snd <$> list_find (fun l => clash l lk) ls.
Proof.
  induction ls as [|l r IH]; [done|]. cbn [locks_conflict list_find]. fold (clash l lk).
  destruct (clash l lk) eqn:Hc.
  - by rewrite decide_True.
  - rewrite decide_False by auto. rewrite IH. by destruct (list_find _ r) as [[? ?]|].
Qed.

Lemma clash_spec l lk : clash l lk = true <->
  l.(owner) <> lk.(owner) /\ lk.(start) <= l.(end_) /\ l.(start) <= lk.(end_) /\
  (l.(type) = F_WRLCK \/ lk.(type) = F_WRLCK).
Proof.
  unfold clash. rewrite !andb_true_iff, orb_true_iff, negb_true_iff, !Z.leb_le, !Z.eqb_eq, Z.eqb_neq.
  tauto.
Qed.

(** In a well-formed list, what a lock says is what looking it up gives. *)
Lemma chain_lookup q ls l p :
  chain q ls -> Forall (fun m => m.(owner) = l.(owner)) ls -> l ∈ ls -> covers l p = true ->
  lock_at ls l.(owner) p = Some l.(type).
Proof.
  revert q. induction ls as [|m r IH]; intros q Hc Hall Hin Hp; [by apply elem_of_nil in Hin|].
  apply Forall_cons in Hall as [Ho Hall]. destruct Hc as (Hw & Hf & Hc). cbn [lock_at].
  rewrite (proj2 (Z.eqb_eq _ _) Ho). cbn [andb].
  apply elem_of_cons in Hin as [->|Hin]; [by rewrite Hp|].
  specialize (IH _ Hc Hall Hin Hp). destruct (covers m p) eqn:Hm; [|done].
  apply covers_spec in Hm. rewrite (chain_above _ m) in IH by (done || lia). done.
Qed.

Lemma locks_lookup ls l p :
  locks_wf ls -> l ∈ ls -> covers l p = true -> lock_at ls l.(owner) p = Some l.(type).
Proof.
  intros Hwf Hin Hp. rewrite lock_at_of_owner.
  apply (chain_lookup None); [apply Hwf | apply of_owner_same | | done].
  unfold of_owner. by apply list_elem_of_filter.
Qed.

Lemma lock_at_Some ls o p t : lock_at ls o p = Some t ->
  exists l, l ∈ ls /\ l.(owner) = o /\ covers l p = true /\ l.(type) = t.
Proof.
  induction ls as [|l r IH]; [done|]. cbn [lock_at].
  destruct ((owner l =? o) && covers l p) eqn:Hl.
  - apply andb_true_iff in Hl as [?%Z.eqb_eq ?]. intros [= <-]. exists l. set_solver.
  - intros (m & ? & ?)%IH. exists m. set_solver.
Qed.

Lemma locks_range ls l : locks_wf ls -> l ∈ ls -> lock_wf l.
Proof.
  intros Hwf Hin. assert (l ∈ of_owner l.(owner) ls) as Hl
    by (unfold of_owner; by apply list_elem_of_filter).
  specialize (Hwf l.(owner)). revert Hwf Hl. generalize (of_owner (owner l) ls).
  intros k. generalize (None : option lock). induction k as [|m r IH]; intros q Hc Hl.
  - by apply elem_of_nil in Hl.
  - destruct Hc as (Hw & _ & Hc). apply elem_of_cons in Hl as [->|Hl]; [done | by apply (IH _ Hc)].
Qed.

End FuseLocksFacts.
