(* ===== verification/FuseOpt.v ===== *)
(** The option parser of libfuse (src/fuse-3.17.2/lib/fuse_opt.c and
    include/fuse_opt.h).  A string is the list of its bytes without the final
    NUL; an argument vector is the list of its strings, its argc their number.
    Allocations that fail are part of the state: a list that says of each
    allocation to come whether it succeeds, and all of them do once it is
    used up. *)
From S2P Require Import Prelude.
From S2P Require Import CLib.
From Stdlib Require Import QArith_base.
#[global] Close Scope Q_scope.
#[global] Open Scope Z_scope.
#[global] Open Scope c_scope.
#[global] Open Scope prog_scope.

Module FuseOpt.

(** ** Definitions *)

Abbreviation str := (list byte).

(** A variable of the user's data: an int or unsigned, a char pointer, or a double
    (the rational number that was written). *)
Inductive var :=
  | VInt (z : Z)
  | VStr (s : option str)
  | VDouble (q : Q).

(** The structure behind [void *data], by offset. *)
Abbreviation optdata := (gmap Z var).

(** [struct fuse_opt]; a [templ] of [None] is the NULL that ends a table. *)
Record fuse_opt := mk_opt {
  templ : option str; offset : Z; value : Z;
}.

Definition KEY_OFFSET : Z := 0xffffffff.
Definition FUSE_OPT_KEY (t : str) (key : Z) : fuse_opt := mk_opt (Some t) KEY_OFFSET key.
Definition FUSE_OPT_END : fuse_opt := mk_opt None 0 0.
Definition FUSE_OPT_KEY_OPT : Z := -1.
Definition FUSE_OPT_KEY_NONOPT : Z := -2.
Definition FUSE_OPT_KEY_KEEP : Z := -3.
Definition FUSE_OPT_KEY_DISCARD : Z := -4.

(** [struct fuse_args] *)
Record fuse_args := mk_args {
  argv : option (list str); allocated : bool;
}.

Definition args_list (a : fuse_args) : list str := default [] a.(argv).
Definition argc (a : fuse_args) : Z := zlen (args_list a).

Definition FUSE_ARGS_INIT (v : list str) : fuse_args := mk_args (Some v) false.
Definition no_args : fuse_args := mk_args None false.

(** [fuse_opt_proc_t], on the data, the arguments written so far and the
    allocations to come. *)
Abbreviation fuse_opt_proc_t :=
  (optdata -> str -> Z -> fuse_args -> list bool -> outcome (Z * optdata * fuse_args * list bool)).

(** The part of [struct fuse_opt_context] that changes, and the allocations to
    come. *)
Record ctx := mk_ctx {
  data : optdata; argctr : Z; outargs : fuse_args; opts : option str; nonopt : Z;
  memory : list bool;
}.

Definition set_data (d : optdata) (c : ctx) : ctx :=
  mk_ctx d c.(argctr) c.(outargs) c.(opts) c.(nonopt) c.(memory).
Definition set_argctr (n : Z) (c : ctx) : ctx :=
  mk_ctx c.(data) n c.(outargs) c.(opts) c.(nonopt) c.(memory).
Definition set_outargs (a : fuse_args) (c : ctx) : ctx :=
  mk_ctx c.(data) c.(argctr) a c.(opts) c.(nonopt) c.(memory).
Definition set_opts (o : option str) (c : ctx) : ctx :=
  mk_ctx c.(data) c.(argctr) c.(outargs) o c.(nonopt) c.(memory).
Definition set_nonopt (n : Z) (c : ctx) : ctx :=
  mk_ctx c.(data) c.(argctr) c.(outargs) c.(opts) n c.(memory).
Definition set_memory (m : list bool) (c : ctx) : ctx :=
  mk_ctx c.(data) c.(argctr) c.(outargs) c.(opts) c.(nonopt) m.

(** Does the next allocation succeed? *)
Definition allocates (m : list bool) : bool * list bool :=
  match m with [] => (true, []) | b :: m => (b, m) end.

(** The characters of a string, its final NUL included. *)
Definition char_at (s : str) (i : Z) : outcome byte :=
  if i =? zlen s then Ok NUL else lift_fault OutOfBounds (zget s i).

(** The string from an index on. *)
Definition str_from (s : str) (i : Z) : outcome str :=
  guard_c ((0 <=? i) && (i <=? zlen s)) OutOfBounds ;; Ok (zdrop i s).

Definition COMMA : byte := x2c.
Definition BACKSLASH : byte := x5c.
Definition MINUS : byte := x2d.
Definition EQUALS : byte := x3d.
Definition BLANK : byte := x20.
Definition PERCENT : byte := x25.

Definition beq (a b : byte) : bool := bool_decide (a = b).
Definition streq (a b : str) : bool := bool_decide (a = b).

Definition fuse_opt_free_args (args : option fuse_args) : option fuse_args :=
  (fun _ => no_args) <$> args.

Definition alloc_failed : Z := -1.

(** The new contents of [args], the result and what is left of the memory. *)
Definition fuse_opt_add_arg (args : fuse_args) (arg : str) (m : list bool)
    : outcome (Z * fuse_args * list bool) :=
  guard_c (match args.(argv) with None => true | Some _ => args.(allocated) end) AssertFailed ;;
  let '(newarg, m) := allocates m in
  if negb newarg then Ok (alloc_failed, args, m)
  else
    let '(newargv, m) := allocates m in
    if negb newargv then Ok (alloc_failed, args, m)
    else Ok (0, mk_args (Some (args_list args ++ [arg])) true, m).

Definition fuse_opt_insert_arg_common (args : fuse_args) (pos : Z) (arg : str) (m : list bool)
    : outcome (Z * fuse_args * list bool) :=
  guard_c (pos <=? argc args) AssertFailed ;;
  let! (r, args, m) := fuse_opt_add_arg args arg m in
  if r =? -1 then Ok (-1, args, m)
  else if negb (pos =? argc args - 1) then
    newarg <- lift_fault OutOfBounds (zget (args_list args) (argc args - 1)) ;;
    guard_c (0 <=? pos) OutOfBounds ;;
    (* memmove by one slot, then the slot at [pos] *)
    let moved := splice (args_list args) (pos + 1)
                   (ztake (argc args - pos - 1) (zdrop pos (args_list args))) in
    Ok (0, mk_args (Some (splice moved pos [newarg])) args.(allocated), m)
  else Ok (0, args, m).

Definition fuse_opt_insert_arg (args : fuse_args) (pos : Z) (arg : str) (m : list bool)
    : outcome (Z * fuse_args * list bool) :=
  fuse_opt_insert_arg_common args pos arg m.

(** The characters of an option, with [esc] those that need it escaped. *)
Fixpoint escape (esc : bool) (opt : str) : str :=
  match opt with
  | [] => []
  | c :: r =>
      if esc && (beq c COMMA || beq c BACKSLASH) then BACKSLASH :: c :: escape esc r
      else c :: escape esc r
  end.

Definition add_opt_common (opts : option str) (opt : str) (esc : bool) (m : list bool)
    : Z * option str * list bool :=
  let oldlen := match opts with Some o => u32 (zlen o) | None => 0 end in
  let '(d, m) := allocates m in
  if negb d then (alloc_failed, opts, m)
  else
    let old := default [] opts in
    let text := if negb (oldlen =? 0) then ztake oldlen old ++ [COMMA] else [] in
    (0, Some (text ++ escape esc opt), m).

Definition fuse_opt_add_opt (opts : option str) (opt : str) (m : list bool) :=
  add_opt_common opts opt false m.
Definition fuse_opt_add_opt_escaped (opts : option str) (opt : str) (m : list bool) :=
  add_opt_common opts opt true m.

(** The [unsigned] that match_template stores, when it returns 1. *)
Definition match_template (t arg : str) : outcome (option Z) :=
  let arglen := i32 (zlen arg) in
  let sep := match find_pos (beq EQUALS) t with
             | Some i => Some i | None => find_pos (beq BLANK) t end in
  let rest := if streq t arg then Some 0 else None in
  match sep with
  | None => Ok rest
  | Some sep =>
      c1 <- char_at t (sep + 1) ;;
      if beq c1 NUL || beq c1 PERCENT then
        c0 <- char_at t sep ;;
        let tlen := i32 (if beq c0 EQUALS then sep + 1 else sep) in
        if (tlen <=? arglen) && streq (ztake tlen arg) (ztake tlen t) then Ok (Some (u32 sep))
        else Ok rest
      else Ok rest
  end.

(** The option found, what follows it in the table, and the separator.  The
    pointer runs off a table that does not end in NULL. *)
Fixpoint find_opt (opt : list fuse_opt) (arg : str) : outcome (option (fuse_opt * list fuse_opt * Z)) :=
  match opt with
  | [] => Fail OutOfBounds
  | o :: next =>
      match o.(templ) with
      | None => Ok None
      | Some t =>
          r <- match_template t arg ;;
          match r with
          | Some sep => Ok (Some (o, next, sep))
          | None => find_opt next arg
          end
      end
  end.

(** A table, or the NULL pointer. *)
Definition find_in (tab : option (list fuse_opt)) (arg : str) :=
  match tab with None => Ok None | Some tab => find_opt tab arg end.

Definition fuse_opt_match (tab : option (list fuse_opt)) (opt : str) : outcome Z :=
  r <- find_in tab opt ;; Ok (match r with Some _ => 1 | None => 0 end).

(** *** sscanf, for a format of one integer conversion *)

Definition is_space (b : byte) : bool :=
  let c := uchar b in (c =? 32) || ((9 <=? c) && (c <=? 13)).

Definition digit_value (b : byte) : option Z :=
  let c := uchar b in if (48 <=? c) && (c <=? 57) then Some (c - 48) else None.

(** The number at the start of [s], if a digit is there. *)
Fixpoint number (base : Z) (s : str) (acc : option Z) : option Z :=
  match s with
  | [] => acc
  | b :: r =>
      match digit_value b with
      | Some d => if d <? base then number base r (Some (default 0 acc * base + d)) else acc
      | None => acc
      end
  end.

Fixpoint skip_spaces (s : str) : str :=
  match s with [] => [] | b :: r => if is_space b then skip_spaces r else s end.

(** The sign and the number, clamped as strtol and strtoul do, cut to 32 bits. *)
Definition scan_int (base : Z) (sgn : bool) (s : str) : option Z :=
  let s := skip_spaces s in
  let '(neg, s) := match s with
                   | b :: r => if beq b MINUS then (true, r)
                               else if beq b x2b then (false, r) else (false, s)
                   | [] => (false, s) end in
  match number base s None with
  | None => None
  | Some n =>
      let m := if (neg : bool) then - n else n in
      Some (if sgn then i32 (Z.max (- 2 ^ 63) (Z.min (2 ^ 63 - 1) m))
            else u32 (if n <? 2 ^ 64 then m else 2 ^ 64 - 1))
  end.

(** The digits at the start of [s]: their number as an integer, how many they are,
    and the rest. *)
Fixpoint digits (s : str) (acc n : Z) : Z * Z * str :=
  match s with
  | b :: r => match digit_value b with
              | Some d => digits r (acc * 10 + d) (n + 1)
              | None => (acc, n, s)
              end
  | [] => (acc, n, [])
  end.

(** An exponent behind a mantissa, 0 when there is none. *)
Definition exponent (s : str) : Z :=
  match s with
  | e :: r =>
      if beq e x65 || beq e x45 then
        let '(neg, r) := match r with
                         | b :: r' => if beq b MINUS then (true, r')
                                      else if beq b x2b then (false, r') else (false, r)
                         | [] => (false, r) end in
        let '(v, _, _) := digits r 0 0 in if (neg : bool) then - v else v
      else 0
  | [] => 0
  end.

(** [m] times ten to the power [e] *)
Definition power10 (m e : Z) : Q :=
  if 0 <=? e then Qmake (m * 10 ^ e) 1 else Qmake m (Z.to_pos (10 ^ (- e))).

(** A number in decimal notation; infinity, NaN and hexadecimal notation are not
    modelled. *)
Definition scan_double (s : str) : outcome (option Q) :=
  let s := skip_spaces s in
  let '(neg, s) := match s with
                   | b :: r => if beq b MINUS then (true, r)
                               else if beq b x2b then (false, r) else (false, s)
                   | [] => (false, s) end in
  let '(whole, n, r) := digits s 0 0 in
  let '(m, k, r) := match r with
                    | b :: r' => if beq b x2e then digits r' whole 0 else (whole, 0, r)
                    | [] => (whole, 0, r) end in
  match s with
  | b :: r' =>
      if existsb (beq b) [x69; x49; x6e; x4e] then Fail Unmodelled
      else match r' with
           | c :: _ => if beq b x30 && (beq c x78 || beq c x58) then Fail Unmodelled else Ok tt
           | [] => Ok tt
           end
  | [] => Ok tt
  end ;;
  Ok (if n + k =? 0 then None else Some (power10 (if (neg : bool) then - m else m) (exponent r - k))).

(** The conversions of libfuse's tables. *)
Definition sscanf (s format : str) : outcome (option var) :=
  if streq format (lit "%d") then Ok (VInt <$> scan_int 10 true s)
  else if streq format (lit "%u") then Ok (VInt <$> scan_int 10 false s)
  else if streq format (lit "%o") then Ok (VInt <$> scan_int 8 false s)
  else if streq format (lit "%lf") then d <- scan_double s ;; Ok (VDouble <$> d)
  else Fail Unmodelled.

Section parser.
(** The table, the user's function and the argument vector to parse. *)
Context (tab : option (list fuse_opt)) (proc : option fuse_opt_proc_t) (args : list str).
#[local] Abbreviation P := (prog ctx).

Definition next_arg (opt : str) : P Z :=
  c <-- pget ;;
  if zlen args <=? c.(argctr) + 1 then pret (-1)
  else pput (set_argctr (c.(argctr) + 1) c) ;;; pret 0.

Definition add_arg (arg : str) : P Z :=
  c <-- pget ;;
  let? (r, a, m) := plift (fuse_opt_add_arg c.(outargs) arg c.(memory)) in
  pput (set_memory m (set_outargs a c)) ;;; pret r.

Definition add_opt (opt : str) : P Z :=
  c <-- pget ;;
  let '(r, o, m) := add_opt_common c.(opts) opt true c.(memory) in
  pput (set_memory m (set_opts o c)) ;;; pret r.

Definition strdup : P bool :=
  c <-- pget ;; let '(b, m) := allocates c.(memory) in pput (set_memory m c) ;;; pret b.

Definition call_proc (arg : str) (key : Z) (iso : bool) : P Z :=
  let kept := if iso then add_opt arg else add_arg arg in
  if key =? FUSE_OPT_KEY_DISCARD then pret 0
  else
    match proc with
    | Some f =>
        if negb (key =? FUSE_OPT_KEY_KEEP) then
          c <-- pget ;;
          let? (res, d, a, m) := plift (f c.(data) arg key c.(outargs) c.(memory)) in
          pput (set_memory m (set_outargs a (set_data d c))) ;;;
          if (res =? -1) || (res =? 0) then pret res else kept
        else kept
    | None => kept
    end.

(** The [*s] that is freed has to be a pointer. *)
Definition process_opt_param (var : Z) (format param arg : str) : P Z :=
  f0 <-- plift (char_at format 0) ;;
  plift (guard_c (beq f0 PERCENT) AssertFailed) ;;;
  f1 <-- plift (char_at format 1) ;;
  if beq f1 x73 then
    copy <-- strdup ;;
    if negb copy then pret alloc_failed
    else
      c <-- pget ;;
      match c.(data) !! var with
      | Some (VStr _) => pput (set_data (<[var := VStr (Some param)]> c.(data)) c) ;;; pret 0
      | _ => pfail UninitRead
      end
  else
    v <-- plift (sscanf param format) ;;
    match v with
    | Some v => c <-- pget ;; pput (set_data (<[var := v]> c.(data)) c) ;;; pret 0
    | None => pret (-1)
    end.

Definition process_opt (opt : fuse_opt) (sep : Z) (arg : str) (iso : bool) : P Z :=
  if opt.(offset) =? KEY_OFFSET then
    r <-- call_proc arg opt.(value) iso ;; pret (if r =? -1 then -1 else 0)
  else
    t <-- plift (lift_fault NullDeref opt.(templ)) ;;
    c1 <-- (if negb (sep =? 0) then plift (char_at t (sep + 1)) else pret NUL) ;;
    if negb (sep =? 0) && negb (beq c1 NUL) then
      c0 <-- plift (char_at t sep) ;;
      param <-- plift (str_from arg (if beq c0 EQUALS then sep + 1 else sep)) ;;
      format <-- plift (str_from t (sep + 1)) ;;
      r <-- process_opt_param opt.(offset) format param arg ;;
      pret (if r =? -1 then -1 else 0)
    else
      c <-- pget ;;
      pput (set_data (<[opt.(offset) := VInt opt.(value)]> c.(data)) c) ;;; pret 0.

Definition process_opt_sep_arg (opt : fuse_opt) (sep : Z) (arg : str) (iso : bool) : P Z :=
  r <-- next_arg arg ;;
  if r =? -1 then pret (-1)
  else
    c <-- pget ;;
    param <-- plift (lift_fault OutOfBounds (zget args c.(argctr))) ;;
    newarg <-- strdup ;;
    if negb newarg then pret alloc_failed
    else
      plift (guard_c (sep <=? zlen arg) OutOfBounds) ;;;
      process_opt opt sep (ztake sep arg ++ param) iso.

(** The entries of the table that match, one after the other. *)
Fixpoint gopt_loop (fuel : nat) (found : option (fuse_opt * list fuse_opt * Z)) (arg : str)
    (iso : bool) : P Z :=
  match fuel with O => pfail OutOfFuel | S fuel =>
    match found with
    | None => pret 0
    | Some (opt, next, sep) =>
        t <-- plift (lift_fault NullDeref opt.(templ)) ;;
        c0 <-- (if negb (sep =? 0) then plift (char_at t sep) else pret NUL) ;;
        c1 <-- (if negb (sep =? 0) && beq c0 BLANK then plift (char_at arg sep) else pret BLANK) ;;
        res <-- (if negb (sep =? 0) && beq c0 BLANK && beq c1 NUL
                 then process_opt_sep_arg opt sep arg iso
                 else process_opt opt sep arg iso) ;;
        if res =? -1 then pret (-1)
        else found <-- plift (find_opt next arg) ;; gopt_loop fuel found arg iso
    end
  end.

Definition process_gopt (arg : str) (iso : bool) : P Z :=
  found <-- plift (find_in tab arg) ;;
  match found with
  | Some _ => gopt_loop (length (default [] tab) + 1)%nat found arg iso
  | None => call_proc arg FUSE_OPT_KEY_OPT iso
  end.

(** A character of the working copy, which holds its final NUL. *)
Definition peek (buf : str) (i : Z) : P byte := plift (lift_fault OutOfBounds (zget buf i)).
Definition poke (buf : str) (i : Z) (b : byte) : P str :=
  plift (guard_c ((0 <=? i) && (i <? zlen buf)) OutOfBounds) ;;; pret (splice buf i [b]).

(** The string at the start of the working copy. *)
Fixpoint text_of (buf : str) : outcome str :=
  match buf with
  | [] => Fail OutOfBounds
  | b :: r => if beq b NUL then Ok [] else t <- text_of r ;; Ok (b :: t)
  end.

Definition octal (top : Z) (b : byte) : bool := (48 <=? uchar b) && (uchar b <=? 48 + top).

(** Is there an escaped octal code at [i]?  The later characters are read only
  when the earlier ones are digits. *)
Definition octal_at (buf : str) (i : Z) : P bool :=
  c0 <-- peek buf i ;;
  if octal 3 c0 then
    c1 <-- peek buf (i + 1) ;;
    if octal 7 c1 then c2 <-- peek buf (i + 2) ;; pret (octal 7 c2) else pret false
  else pret false.

Definition octal_value (c0 c1 c2 : byte) : byte :=
  default NUL (Byte.of_N (Z.to_N ((uchar c0 - 48) * 64 + (uchar c1 - 48) * 8 + (uchar c2 - 48)))).

(** The loop over the working copy: [s] reads, [d] writes. *)
Fixpoint group_loop (fuel : nat) (buf : str) (s d : Z) : P Z :=
  match fuel with O => pfail OutOfFuel | S fuel =>
    c <-- peek buf s ;;
    let end_ := beq c NUL in
    if beq c COMMA || end_ then
      buf <-- poke buf d NUL ;;
      opt <-- plift (text_of buf) ;;
      res <-- process_gopt opt true ;;
      if res =? -1 then pret (-1)
      else if end_ then pret 0 else group_loop fuel buf (s + 1) 0
    else
      c1 <-- (if beq c BACKSLASH then peek buf (s + 1) else pret NUL) ;;
      if beq c BACKSLASH && negb (beq c1 NUL) then
        oct <-- octal_at buf (s + 1) ;;
        if (oct : bool) then
          c2 <-- peek buf (s + 2) ;;
          c3 <-- peek buf (s + 3) ;;
          buf <-- poke buf d (octal_value c1 c2 c3) ;;
          group_loop fuel buf (s + 4) (d + 1)
        else
          buf <-- poke buf d c1 ;;
          group_loop fuel buf (s + 2) (d + 1)
      else
        buf <-- poke buf d c ;;
        group_loop fuel buf (s + 1) (d + 1)
  end.

Definition process_real_option_group (buf : str) : P Z := group_loop (length buf + 1) buf 0 0.

Definition process_option_group (opts : str) : P Z :=
  copy <-- strdup ;;
  if negb copy then pret (-1) else process_real_option_group (opts ++ [NUL]).

Definition process_one (arg : str) : P Z :=
  c <-- pget ;;
  a0 <-- (if negb (c.(nonopt) =? 0) then pret NUL else plift (char_at arg 0)) ;;
  if negb (c.(nonopt) =? 0) || negb (beq a0 MINUS) then call_proc arg FUSE_OPT_KEY_NONOPT false
  else
    a1 <-- plift (char_at arg 1) ;;
    if beq a1 x6f then
      a2 <-- plift (char_at arg 2) ;;
      if negb (beq a2 NUL) then o <-- plift (str_from arg 2) ;; process_option_group o
      else
        r <-- next_arg arg ;;
        if r =? -1 then pret (-1)
        else
          c <-- pget ;;
          o <-- plift (lift_fault OutOfBounds (zget args c.(argctr))) ;;
          process_option_group o
    else
      a2 <-- (if beq a1 MINUS then plift (char_at arg 2) else pret MINUS) ;;
      if beq a1 MINUS && beq a2 NUL then
        r <-- add_arg arg ;;
        if r =? -1 then pret (-1)
        else c <-- pget ;; pput (set_nonopt (argc c.(outargs)) c) ;;; pret 0
      else process_gopt arg false.

(** The loop over the argument vector. *)
Fixpoint parse_loop (fuel : nat) : P Z :=
  match fuel with O => pfail OutOfFuel | S fuel =>
    c <-- pget ;;
    if c.(argctr) <? zlen args then
      arg <-- plift (lift_fault OutOfBounds (zget args c.(argctr))) ;;
      r <-- process_one arg ;;
      if r =? -1 then pret (-1)
      else c <-- pget ;; pput (set_argctr (c.(argctr) + 1) c) ;;; parse_loop fuel
    else pret 0
  end.

Definition insert_arg (pos : Z) (arg : str) : P Z :=
  c <-- pget ;;
  let? (r, a, m) := plift (fuse_opt_insert_arg c.(outargs) pos arg c.(memory)) in
  pput (set_memory m (set_outargs a c)) ;;; pret r.

(** The collected options go in front, as one "-o". *)
Definition insert_opts : P Z :=
  c <-- pget ;;
  match c.(opts) with
  | None => pret 0
  | Some o =>
      r <-- insert_arg 1 (lit "-o") ;;
      if r =? -1 then pret (-1) else insert_arg 2 o
  end.

(** A separator that is the last argument goes. *)
Definition drop_separator : P unit :=
  c <-- pget ;;
  let n := argc c.(outargs) in
  if negb (c.(nonopt) =? 0) && (c.(nonopt) =? n) then
    last <-- plift (lift_fault OutOfBounds (zget (args_list c.(outargs)) (n - 1))) ;;
    if streq last (lit "--") then
      pput (set_outargs (mk_args (Some (ztake (n - 1) (args_list c.(outargs))))
                                 c.(outargs).(allocated)) c)
    else pret tt
  else pret tt.

Definition opt_parse : P Z :=
  r <-- (match args with a0 :: _ => add_arg a0 | [] => pret 0 end) ;;
  if r =? -1 then pret (-1)
  else
    c <-- pget ;; pput (set_argctr 1 c) ;;;
    r <-- parse_loop (length args + 1) ;;
    if r =? -1 then pret (-1)
    else
      r <-- insert_opts ;;
      if r =? -1 then pret (-1) else drop_separator ;;; pret 0.

End parser.

(** The result, what [args] holds afterwards, the user's data, and what is left of
    the memory. *)
Definition fuse_opt_parse (args : option fuse_args) (d : optdata) (tab : option (list fuse_opt))
    (proc : option fuse_opt_proc_t) (m : list bool) : outcome (Z * option fuse_args * optdata * list bool) :=
  match args with
  | Some (mk_args (Some (a0 :: v)) alloc as a) =>
      let! (res, c) := opt_parse tab proc (a0 :: v) (mk_ctx d 0 no_args None 0 m) in
      Ok (res, Some (if negb (res =? -1) then c.(outargs) else a), c.(data), c.(memory))
  | _ => Ok (0, args, d, m)
  end.

End FuseOpt.
