(* ===== verification/FuseOptFacts.v ===== *)
(** Facts about the option parser: the in-place loop over an option group is a
    plain splitting function, and escaping is undone by it. *)
From S2P Require Import Prelude.
From S2P Require Import CLib.
From S2P Require Import FuseOpt.

Module FuseOptFacts.
Import FuseOpt.

Lemma beq_spec a b : beq a b = true <-> a = b.
Proof. unfold beq. apply bool_decide_eq_true. Qed.

Lemma beq_refl a : beq a a = true.
Proof. by apply beq_spec. Qed.

Lemma beq_ne a b : a <> b -> beq a b = false.
Proof. unfold beq. apply bool_decide_eq_false. Qed.

Lemma streq_spec a b : streq a b = true <-> a = b.
Proof. unfold streq. apply bool_decide_eq_true. Qed.

(** ** Splitting a group *)

(** The options of a group: up to the commas, without the escapes.  [acc] is the
    start of the first one. *)
Fixpoint split_opts (acc s : str) : list str :=
  match s with
  | [] => [acc]
  | c :: r =>
      if beq c COMMA then acc :: split_opts [] r
      else if beq c BACKSLASH then
        match r with
        | [] => [acc ++ [c]]
        | c1 :: r1 =>
            match r1 with
            | c2 :: c3 :: r3 =>
                if octal 3 c1 && octal 7 c2 && octal 7 c3
                then split_opts (acc ++ [octal_value c1 c2 c3]) r3
                else split_opts (acc ++ [c1]) r1
            | _ => split_opts (acc ++ [c1]) r1
            end
        end
      else split_opts (acc ++ [c]) r
  end.

(** An option as C sees it: an octal escape may put a NUL into it. *)
Fixpoint until_nul (s : str) : str :=
  match s with [] => [] | b :: r => if beq b NUL then [] else b :: until_nul r end.

Lemma until_nul_id s : NUL ∉ s -> until_nul s = s.
Proof.
  induction s as [|b r IH]; [done|]. intros [Hb Hr]%not_elem_of_cons. cbn [until_nul].
  rewrite beq_ne by congruence. by rewrite IH.
Qed.

Lemma text_of_until s r : text_of (s ++ NUL :: r) = Ok (until_nul s).
Proof.
  induction s as [|b s IH]; [done|]. cbn [app text_of until_nul].
  destruct (beq b NUL); [done|]. by rewrite IH.
Qed.

Section run.
Context (tab : option (list fuse_opt)) (proc : option fuse_opt_proc_t) (args : list str).

(** The options one after the other, until one fails. *)
Fixpoint run_opts (l : list str) : prog ctx Z :=
  match l with
  | [] => pret 0
  | o :: l =>
      res <-- process_gopt tab proc args o true ;;
      if res =? -1 then pret (-1) else run_opts l
  end.

Lemma peek_at buf pre c r i : buf = pre ++ c :: r -> i = zlen pre ->
  forall st, peek buf i st = Ok (c, st).
Proof.
  intros -> -> st. unfold peek, plift. rewrite zget_nat, lookup_app_r by done.
  by rewrite Nat.sub_diag.
Qed.

Lemma poke_at buf pre b c r i : buf = pre ++ c :: r -> i = zlen pre ->
  forall st, poke buf i b st = Ok (pre ++ b :: r, st).
Proof.
  intros -> -> st. unfold poke, pbind, plift, guard_c.
  rewrite (proj2 (Z.leb_le 0 _)), (proj2 (Z.ltb_lt _ _)) by (rewrite ?zlen_app; cbn [length]; lia).
  cbn [andb obind]. unfold pret, splice. do 2 f_equal.
  rewrite ztake_app_exact by done. f_equal. cbn [app length]. f_equal.
  rewrite zdrop_app_ge by lia. unfold zdrop.
  by replace (Z.to_nat (zlen pre + Z.of_nat 1 - zlen pre)) with 1%nat by lia.
Qed.

(** Writing behind the reading position. *)
Lemma poke_behind acc mid b tail : mid <> [] -> exists mid',
  length mid = S (length mid') /\
  forall st, poke (acc ++ mid ++ tail) (zlen acc) b st = Ok ((acc ++ [b]) ++ mid' ++ tail, st).
Proof.
  intros Hm. destruct mid as [|c mid]; [done|]. exists mid. split; [done|]. intros st.
  rewrite (poke_at _ acc b c (mid ++ tail)) by done. by rewrite <- app_assoc.
Qed.

(** What the loop sees at its reading position. *)
Section position.
Context (acc junk s : str).
Let buf := acc ++ junk ++ s ++ [NUL].
Let pos := zlen acc + zlen junk.

Lemma peek_pos k c r i st : s ++ [NUL] = k ++ c :: r -> i = pos + zlen k -> peek buf i st = Ok (c, st).
Proof.
  intros Hs ->. unfold buf. rewrite Hs, !app_assoc, <- (app_assoc _ _ (c :: r)).
  apply (peek_at _ (acc ++ junk ++ k) c r); rewrite ?app_assoc; [done|].
  unfold pos. rewrite !zlen_app. lia.
Qed.

Lemma poke_pos k t b : s ++ [NUL] = k ++ t -> k <> [] ->
  exists junk', zlen junk' = zlen junk + zlen k - 1 /\
  forall st, poke buf (zlen acc) b st = Ok ((acc ++ [b]) ++ junk' ++ t, st).
Proof.
  intros Hs Hk. destruct (poke_behind acc (junk ++ k) b t) as (mid' & Hlen & Hp).
  - destruct junk; [|done]. by destruct k.
  - exists mid'. rewrite length_app in Hlen. split; [destruct k; [done|]; cbn [length] in *; lia|].
  intros st. rewrite <- Hp. unfold buf. by rewrite Hs, <- (app_assoc junk).
Qed.
End position.

(** [see s k c r]: the next step reads [c] behind the [k] characters of [s]. *)
Tactic Notation "see" uconstr(s) uconstr(k) uconstr(c) uconstr(r) :=
  erewrite pbind_run; [|apply (peek_pos _ _ s k c r); [reflexivity | cbn [length]; lia]].

Definition octal_code (c1 : byte) (r1 : str) : bool :=
  match r1 with c2 :: c3 :: _ => octal 3 c1 && octal 7 c2 && octal 7 c3 | _ => false end.

Lemma octal_at_pos acc junk c c1 r1 st :
  octal_at (acc ++ junk ++ (c :: c1 :: r1) ++ [NUL]) (zlen acc + zlen junk + 1) st =
    Ok (octal_code c1 r1, st).
Proof.
  unfold octal_at, octal_code. see (c :: c1 :: r1) [c] c1 (r1 ++ [NUL]).
  destruct (octal 3 c1) eqn:H1; [|by destruct r1 as [|? [|? ?]]].
  destruct r1 as [|c2 r2]; [by see [c; c1] [c; c1] NUL []|].
  see (c :: c1 :: c2 :: r2) [c; c1] c2 (r2 ++ [NUL]).
  destruct (octal 7 c2) eqn:H2; [|by destruct r2].
  destruct r2 as [|c3 r3]; [by see [c; c1; c2] [c; c1; c2] NUL []|].
  by see (c :: c1 :: c2 :: c3 :: r3) [c; c1; c2] c3 (r3 ++ [NUL]).
Qed.

Lemma split_escape acc c c1 r1 : beq c COMMA = false -> beq c BACKSLASH = true ->
  split_opts acc (c :: c1 :: r1) =
    if octal_code c1 r1
    then match r1 with c2 :: c3 :: r3 => split_opts (acc ++ [octal_value c1 c2 c3]) r3 | _ => [] end
    else split_opts (acc ++ [c1]) r1.
Proof.
  intros H1 H2. cbn [split_opts]. rewrite H1, H2. destruct r1 as [|c2 [|c3 r3]]; try done.
Qed.

(** The loop has run the options that are left of the group. *)
Definition group_ok (fuel : nat) : Prop := forall acc junk s st,
  NUL ∉ s -> (length s < fuel)%nat ->
  group_loop tab proc args fuel (acc ++ junk ++ s ++ [NUL]) (zlen acc + zlen junk) (zlen acc) st =
    run_opts (until_nul <$> split_opts acc s) st.

(** One round that copies a character and goes on behind the [k] it has read. *)
Lemma copy_round fuel acc junk s k t b i d st :
  group_ok fuel -> NUL ∉ t -> (length t < fuel)%nat -> s = k ++ t -> k <> [] ->
  i = zlen acc + zlen junk + zlen k -> d = zlen acc + 1 ->
  (buf' <-- poke (acc ++ junk ++ s ++ [NUL]) (zlen acc) b ;;
   group_loop tab proc args fuel buf' i d) st =
  run_opts (until_nul <$> split_opts (acc ++ [b]) t) st.
Proof.
  intros IH Ht Hf -> Hk -> ->.
  destruct (poke_pos acc junk (k ++ t) k (t ++ [NUL]) b) as (junk' & Hlen & Hp); [by rewrite app_assoc|done|].
  rewrite (pbind_run _ _ _ _ _ (Hp st)). rewrite <- (IH (acc ++ [b]) junk') by done.
  rewrite zlen_app. cbn [length]. f_equal; lia.
Qed.

Lemma group_loop_spec fuel : group_ok fuel.
Proof.
  induction fuel as [|fuel IH]; intros acc junk s st Hs Hf; [lia|]. cbn [group_loop].
  destruct s as [|c r].
  { see [] [] NUL [].
    rewrite beq_refl, orb_true_r. 
    destruct (poke_pos acc junk [] [NUL] [] NUL) as (junk' & _ & Hp); [done..|].
    rewrite (pbind_run _ _ _ _ _ (Hp st)), <- app_assoc. cbn [app].
    rewrite (pbind_run _ _ _ _ _ (plift_run _ _ _ (text_of_until acc _))). done. }
  apply not_elem_of_cons in Hs as [Hc Hr]. cbn [length] in Hf.
  see (c :: r) [] c (r ++ [NUL]).
  rewrite (beq_ne c NUL), orb_false_r by congruence.
  destruct (beq c COMMA) eqn:Hcomma.
  - destruct (poke_pos acc junk (c :: r) [c] (r ++ [NUL]) NUL) as (junk' & Hlen & Hp); [done..|].
    rewrite (pbind_run _ _ _ _ _ (Hp st)). rewrite <- app_assoc at 1. cbn [app].
    rewrite (pbind_run _ _ _ _ _ (plift_run _ _ _ (text_of_until acc _))).
    cbn [split_opts]. rewrite Hcomma. cbn [fmap list_fmap run_opts]. unfold pbind at 1 2.
    destruct (process_gopt tab proc args (until_nul acc) true st) as [[res st']|]; [|done]. cbn [obind].
    destruct (res =? -1); [done|].
    rewrite <- (IH [] ((acc ++ [NUL]) ++ junk') r st' Hr ltac:(lia)), !zlen_app.
    rewrite <- !app_assoc. cbn [app length]. cbn [length] in Hlen. f_equal; lia.
  - destruct (beq c BACKSLASH) eqn:Hb; cbn [andb].
    + destruct r as [|c1 r1].
      { see [c] [c] NUL []. rewrite beq_refl. cbn [negb split_opts]. rewrite Hcomma, Hb.
        change [acc ++ [c]] with (split_opts (acc ++ [c]) []).
        apply (copy_round fuel acc junk [c] [c]); try done. cbn [length]. lia. }
      apply not_elem_of_cons in Hr as [Hc1 Hr1]. cbn [length] in Hf.
      see (c :: c1 :: r1) [c] c1 (r1 ++ [NUL]). rewrite (beq_ne c1 NUL) by congruence. cbn [negb].
      rewrite (pbind_run _ _ _ _ _ (octal_at_pos acc junk c c1 r1 st)), split_escape by done.
      destruct (octal_code c1 r1) eqn:Hoct.
      * destruct r1 as [|c2 [|c3 r3]]; [done..|]. cbn [length] in Hf.
        apply not_elem_of_cons in Hr1 as [_ [_ Hr3]%not_elem_of_cons].
        see (c :: c1 :: c2 :: c3 :: r3) [c; c1] c2 (c3 :: r3 ++ [NUL]).
        see (c :: c1 :: c2 :: c3 :: r3) [c; c1; c2] c3 (r3 ++ [NUL]).
        apply (copy_round fuel acc junk _ [c; c1; c2; c3]); try done; cbn [length]; lia.
      * apply (copy_round fuel acc junk _ [c; c1]); try done; cbn [length]; lia.
    + rewrite (pbind_run _ _ _ _ _ (eq_refl : pret NUL st = Ok (NUL, st))). cbn [split_opts].
      rewrite Hcomma, Hb. apply (copy_round fuel acc junk _ [c]); try done; cbn [length]; lia.
Qed.

Lemma process_group_run opts st m :
  NUL ∉ opts -> st.(memory) = true :: m \/ (st.(memory) = [] /\ m = []) ->
  process_option_group tab proc args opts st =
    run_opts (until_nul <$> split_opts [] opts) (set_memory m st).
Proof.
  intros Hn Hm. unfold process_option_group.
  assert (strdup st = Ok (true, set_memory m st)) as Hd.
  { unfold strdup, pbind, pget, pput, pret, set_memory. cbn [obind].
    destruct Hm as [-> | [-> ->]]; done. }
  rewrite (pbind_run _ _ _ _ _ Hd). cbn [negb]. unfold process_real_option_group.
  apply (group_loop_spec _ [] [] opts); [done|]. rewrite length_app. cbn [length]. lia.
Qed.
End run.

(** ** Escaping *)

Lemma split_escaped o acc t :
  split_opts acc (escape true o ++ t) = split_opts (acc ++ o) t.
Proof.
  revert acc. induction o as [|c o IH]; intros acc; [by rewrite app_nil_r|].
  cbn [escape andb]. replace (acc ++ c :: o) with ((acc ++ [c]) ++ o) by by rewrite <- app_assoc.
  destruct (beq c COMMA || beq c BACKSLASH) eqn:Hc.
  - rewrite <- IH. cbn [app]. rewrite split_escape by done.
    assert (octal_code c (escape true o ++ t) = false) as ->; [|done].
    unfold octal_code. destruct (escape true o ++ t) as [|? [|? ?]]; [done..|].
    apply orb_true_iff in Hc as [->%beq_spec | ->%beq_spec]; done.
  - apply orb_false_iff in Hc as [H1 H2]. rewrite <- IH. cbn [app split_opts]. by rewrite H1, H2.
Qed.

Lemma escape_no_NUL o : NUL ∉ o -> NUL ∉ escape true o.
Proof.
  induction o as [|c o IH]; [done|]. intros [Hc Ho]%not_elem_of_cons. cbn [escape].
  specialize (IH Ho). by destruct (true && (beq c COMMA || beq c BACKSLASH)); rewrite !not_elem_of_cons.
Qed.

Lemma escape_nil o : escape true o = [] -> o = [].
Proof. destruct o; [done|]. cbn [escape]. by destruct (_ && _). Qed.

(** The options collected one after the other, memory permitting. *)
Definition collect (o : option str) (opt : str) : option str := (add_opt_common o opt true []).1.2.
Definition collect_all (l : list str) : option str := foldl collect None l.

(** The options joined by commas. *)
Definition join (l : list str) : str :=
  foldl (fun a o => a ++ COMMA :: escape true o) (escape true (hd [] l)) (tl l).

Lemma split_app_comma acc a t : split_opts acc (escape true a ++ COMMA :: t) = (acc ++ a) :: split_opts [] t.
Proof. by rewrite split_escaped. Qed.

Lemma split_join l : l <> [] -> split_opts [] (join l) = l.
Proof.
  destruct l as [|o l]; [done|]. intros _. unfold join. cbn [hd tl].
  assert (forall a acc, (forall t, split_opts [] (a ++ COMMA :: t) = acc ++ split_opts [] t) ->
    split_opts [] a = acc ->
    split_opts [] (foldl (fun a o => a ++ COMMA :: escape true o) a l) = acc ++ l) as H.
  { clear. induction l as [|x l IH]; intros a acc Ha He; cbn [foldl]; [by rewrite app_nil_r|].
    rewrite (IH (a ++ COMMA :: escape true x) (acc ++ [x])).
    - by rewrite <- app_assoc.
    - intros t. rewrite <- app_assoc. cbn [app]. rewrite Ha, split_app_comma, <- app_assoc. done.
    - rewrite Ha. rewrite <- (app_nil_r (escape true x)), split_escaped. done. }
  apply (H (escape true o) [o]).
  - intros t. apply split_app_comma.
  - rewrite <- (app_nil_r (escape true o)). apply split_escaped.
Qed.

Lemma join_snoc l o : l <> [] -> join (l ++ [o]) = join l ++ COMMA :: escape true o.
Proof. destruct l as [|x l]; [done|]. intros _. unfold join. cbn [app hd tl]. by rewrite foldl_app. Qed.

Lemma join_no_NUL l : Forall (fun o => NUL ∉ o) l -> NUL ∉ join l.
Proof.
  induction l as [|o l IH] using rev_ind; [cbn; by intros _ ?%elem_of_nil|].
  intros [Hl [Ho _]%Forall_cons]%Forall_app. destruct (decide (l = [])) as [->|Hne].
  - by apply escape_no_NUL.
  - rewrite join_snoc by done. rewrite not_elem_of_app, not_elem_of_cons.
    split_and!; [by apply IH | done | by apply escape_no_NUL].
Qed.

Lemma collect_None o : collect None o = Some (escape true o).
Proof. done. Qed.

Lemma collect_Some t o : 0 < zlen t < 2 ^ 32 -> collect (Some t) o = Some (t ++ COMMA :: escape true o).
Proof.
  intros Ht. unfold collect, add_opt_common. cbn [allocates negb]. change (default [] (Some t)) with t.
  rewrite uwrap_small by lia. rewrite (proj2 (Z.eqb_neq _ _)) by lia. cbn [negb fst snd].
  by rewrite ztake_ge, <- app_assoc by lia.
Qed.

Lemma collect_all_join l : l <> [] -> Forall (fun o => o <> []) l -> zlen (join l) < 2 ^ 32 ->
  collect_all l = Some (join l).
Proof.
  unfold collect_all. induction l as [|o l IH] using rev_ind; [done|].
  intros _ [Hl [Ho _]%Forall_cons]%Forall_app Hlen. rewrite foldl_app. cbn [foldl].
  destruct (decide (l = [])) as [->|Hne]; [done|]. rewrite join_snoc in * by done.
  rewrite zlen_app in Hlen. cbn [length] in Hlen. rewrite IH by (done || lia).
  apply collect_Some. split; [|lia]. destruct (join l) eqn:Hj; [|cbn [length]; lia].
  pose proof (split_join l Hne) as Hs. rewrite Hj in Hs. cbn [split_opts] in Hs. subst l.
  by apply Forall_cons in Hl as [? _].
Qed.

(** ** Templates *)

Lemma beq_all_ne c s : c ∉ s -> Forall (fun b => beq c b = false) s.
Proof. intros Hc. apply Forall_forall. intros b Hb. apply beq_ne. by intros ->. Qed.

Lemma find_beq_app c n r : c ∉ n -> find_pos (beq c) (n ++ c :: r) = Some (zlen n).
Proof. intros Hc. apply find_pos_app; [by apply beq_all_ne | apply beq_refl]. Qed.

Lemma find_beq_None c s : c ∉ s -> find_pos (beq c) s = None.
Proof. intros Hc. apply find_pos_None. by apply beq_all_ne. Qed.

Lemma char_at_app n c r i : i = zlen n -> char_at (n ++ c :: r) i = Ok c.
Proof.
  intros ->. unfold char_at. rewrite (proj2 (Z.eqb_neq _ _)) by (rewrite zlen_app; cbn [length]; lia).
  by rewrite zget_nat, lookup_app_r, Nat.sub_diag.
Qed.

Lemma char_at_end s i : i = zlen s -> char_at s i = Ok NUL.
Proof. intros ->. unfold char_at. by rewrite Z.eqb_refl. Qed.

(** A template with a separator matches what starts with its text. *)
Lemma template_prefix sep n f arg :
  (sep = EQUALS \/ sep = BLANK) -> sep ∉ n -> (sep = BLANK -> (EQUALS ∉ n) /\ (EQUALS ∉ f)) ->
  (f = [] \/ (exists r, f = PERCENT :: r)) -> zlen n < INT_MAX -> zlen arg <= INT_MAX ->
  let text := if beq sep EQUALS then n ++ [sep] else n in
  match_template (n ++ sep :: f) arg =
    Ok (if streq (ztake (zlen text) arg) text then Some (zlen n)
        else if streq (n ++ sep :: f) arg then Some 0 else None).
Proof.
  intros Hsep Hn Heq Hf Hln Hla text. unfold match_template.
  assert (match find_pos (beq EQUALS) (n ++ sep :: f) with
          | Some i => Some i | None => find_pos (beq BLANK) (n ++ sep :: f) end = Some (zlen n)) as ->.
  { destruct Hsep as [-> | ->]; [by rewrite find_beq_app|]. destruct (Heq eq_refl) as [H1 H2].
    rewrite find_beq_None, find_beq_app; [done..|].
    by rewrite not_elem_of_app, not_elem_of_cons. }
  assert (exists c1, char_at (n ++ sep :: f) (zlen n + 1) = Ok c1 /\ beq c1 NUL || beq c1 PERCENT = true)
    as (c1 & -> & Hc1).
  { destruct Hf as [-> | [r ->]].
    - exists NUL. split; [|done]. apply char_at_end. rewrite zlen_app. done.
    - exists PERCENT. split; [|done]. replace (n ++ sep :: PERCENT :: r) with ((n ++ [sep]) ++ PERCENT :: r)
        by by rewrite <- app_assoc. apply char_at_app. rewrite zlen_app. done. }
  cbn [obind]. rewrite Hc1, char_at_app by done. cbn [obind].
  assert (zlen text = if beq sep EQUALS then zlen n + 1 else zlen n) as Hlt.
  { unfold text. destruct (beq sep EQUALS); [|done]. by rewrite zlen_app. }
  rewrite <- Hlt. rewrite (i32_small (zlen text)) by (rewrite Hlt; destruct (beq sep EQUALS); lia).
  rewrite (i32_small (zlen arg)) by lia. rewrite (uwrap_small 32) by (unfold INT_MAX in *; lia).
  assert (ztake (zlen text) (n ++ sep :: f) = text) as ->.
  { unfold text. destruct (beq sep EQUALS); [|by rewrite ztake_app_exact].
    replace (n ++ sep :: f) with ((n ++ [sep]) ++ f) by by rewrite <- app_assoc.
    by rewrite ztake_app_exact. }
  destruct (Z.leb_spec (zlen text) (zlen arg)) as [Hle|Hgt]; cbn [andb];
    destruct (streq (ztake (zlen text) arg) text) eqn:Hs; try done.
  apply streq_spec in Hs. rewrite ztake_ge in Hs by lia. rewrite Hs in Hgt. lia.
Qed.


Lemma prefix_streq t arg : streq (ztake (zlen t) arg) t = is_prefix t arg.
Proof.
  apply eq_true_iff_eq. rewrite streq_spec, is_prefix_spec. split.
  - intros H. exists (zdrop (zlen t) arg). by rewrite <- H at 1; rewrite ztake_zdrop.
  - intros [u ->]. by apply ztake_app_exact.
Qed.

Lemma split_opts_ne n : forall s acc, (length s <= n)%nat -> split_opts acc s <> [].
Proof.
  induction n as [|n IH]; intros [|c r] acc Hn; cbn [length] in Hn; try done; [lia|].
  destruct (beq c COMMA) eqn:H1; [cbn [split_opts]; by rewrite H1|].
  destruct (beq c BACKSLASH) eqn:H2; [|cbn [split_opts]; rewrite H1, H2; apply IH; lia].
  destruct r as [|c1 r1]; [cbn [split_opts]; by rewrite H1, H2|]. cbn [length] in Hn.
  rewrite split_escape by done. destruct (octal_code c1 r1) eqn:Ho; [|apply IH; lia].
  destruct r1 as [|c2 [|c3 r3]]; [done..|]. cbn [length] in Hn. apply IH. lia.
Qed.

Lemma collect_all_Some l : l <> [] -> exists t, collect_all l = Some t.
Proof.
  unfold collect_all. induction l as [|o l _] using rev_ind; [done|]. intros _.
  rewrite foldl_app. cbn [foldl]. by destruct (foldl collect None l); eexists.
Qed.

(** ** Arguments *)

Lemma add_arg_run a arg : (a.(argv) = None \/ a.(allocated) = true) ->
  fuse_opt_add_arg a arg [] = Ok (0, mk_args (Some (args_list a ++ [arg])) true, []).
Proof. intros Ha. unfold fuse_opt_add_arg. destruct a as [[v|] []], Ha; done. Qed.

Lemma add_arg_two a arg m m1 m2 : (a.(argv) = None \/ a.(allocated) = true) -> allocates m = (true, m1) -> allocates m1 = (true, m2) ->
  fuse_opt_add_arg a arg m = Ok (0, mk_args (Some (args_list a ++ [arg])) true, m2).
Proof. intros Ha Hm H1. unfold fuse_opt_add_arg. rewrite Hm, H1. by destruct a as [[v|] []], Ha. Qed.

Lemma insert_arg_two a pos arg m m1 m2 : (a.(argv) = None \/ a.(allocated) = true) -> 0 <= pos <= argc a ->
  allocates m = (true, m1) -> allocates m1 = (true, m2) ->
  fuse_opt_insert_arg a pos arg m =
    Ok (0, mk_args (Some (ztake pos (args_list a) ++ arg :: zdrop pos (args_list a))) true, m2).
Proof.
  intros Ha Hp Hm Hm1. unfold fuse_opt_insert_arg, fuse_opt_insert_arg_common.
  rewrite (proj2 (Z.leb_le _ _)) by lia. cbn [guard_c obind].
  rewrite (add_arg_two a arg m m1 m2) by done. cbn [obind Z.eqb]. unfold argc in *.
  change (args_list (mk_args (Some (args_list a ++ [arg])) true)) with (args_list a ++ [arg]).
  set (l := args_list a) in *. rewrite zlen_app. cbn [length].
  replace (zlen l + Z.of_nat 1 - 1) with (zlen l) by lia.
  destruct (Z.eqb_spec pos (zlen l)) as [->|Hne]; cbn [negb].
  - by rewrite ztake_ge, zdrop_ge by lia.
  - rewrite zget_nat, lookup_app_r, Nat.sub_diag by done. cbn [lookup list_lookup lift_fault obind].
    rewrite (proj2 (Z.leb_le _ _)) by lia. cbn [guard_c obind allocated]. do 5 f_equal.
    replace (zlen l + Z.of_nat 1 - pos - 1) with (zlen l - pos) by lia.
    rewrite (zdrop_app_le pos) by lia.
    rewrite (ztake_app_exact (zlen l - pos)) by (rewrite zlen_zdrop; lia).
    unfold splice. rewrite (ztake_app_le (pos + 1)) by lia.
    rewrite (zdrop_ge (pos + 1 + _)) by (rewrite zlen_app, zlen_zdrop by lia; cbn [length]; lia).
    rewrite app_nil_r. rewrite (ztake_app_le pos) by (rewrite zlen_ztake; lia).
    rewrite ztake_ztake by lia. replace (pos `min` (pos + 1)) with pos by lia.
    rewrite zdrop_app_exact; [done|]. cbn [length]. rewrite zlen_ztake; lia.
Qed.

Lemma insert_arg_run a pos arg : (a.(argv) = None \/ a.(allocated) = true) -> 0 <= pos <= argc a ->
  fuse_opt_insert_arg a pos arg [] =
    Ok (0, mk_args (Some (ztake pos (args_list a) ++ arg :: zdrop pos (args_list a))) true, []).
Proof. intros Ha Hp. by apply (insert_arg_two a pos arg [] [] []). Qed.

(** ** Parsing with a table that matches nothing *)

Section keep.
Context (args : list str) (d : optdata).
Let tab : option (list fuse_opt) := Some [FUSE_OPT_END].

(** The state of the parser: where it is, what it has kept. *)
Definition at_arg (i : Z) (kept : list str) (o : option str) : ctx :=
  mk_ctx d i (mk_args (Some kept) true) o 0 [].

Lemma keep_arg i kept o arg key : key <> FUSE_OPT_KEY_DISCARD ->
  call_proc None arg key false (at_arg i kept o) = Ok (0, at_arg i (kept ++ [arg]) o).
Proof. intros Hk. unfold call_proc. by rewrite (proj2 (Z.eqb_neq _ _)). Qed.

Lemma gopt_keeps i kept o arg iso :
  process_gopt tab None args arg iso (at_arg i kept o) =
    Ok (0, if iso then at_arg i kept (collect o arg) else at_arg i (kept ++ [arg]) o).
Proof. destruct iso; [|done]. by destruct o. Qed.

Lemma run_opts_keeps l : forall i kept o,
  run_opts tab None args l (at_arg i kept o) = Ok (0, at_arg i kept (foldl collect o l)).
Proof.
  induction l as [|x l IH]; intros i kept o; [done|]. cbn [run_opts foldl].
  rewrite (pbind_run _ _ _ _ _ (gopt_keeps i kept o x true)). apply IH.
Qed.

(** The options of an option text. *)
Definition options (t : str) : list str := until_nul <$> split_opts [] t.

Lemma group_keeps i kept o t : NUL ∉ t ->
  process_option_group tab None args t (at_arg i kept o) =
    Ok (0, at_arg i kept (foldl collect o (options t))).
Proof.
  intros Hn. rewrite (process_group_run tab None args t (at_arg i kept o) []) by auto.
  apply run_opts_keeps.
Qed.

(** The arguments that are kept, and the options, of an argument vector; [None]
  when the text of a last "-o" is missing. *)
Fixpoint arrange (v : list str) : option (list str * list str) :=
  match v with
  | [] => Some ([], [])
  | a :: r =>
      if streq a (lit "-o") then
        match r with
        | [] => None
        | t :: r => (fun '(p, o) => (p, options t ++ o)) <$> arrange r
        end
      else if is_prefix (lit "-o") a then
        (fun '(p, o) => (p, options (zdrop 2 a) ++ o)) <$> arrange r
      else (fun '(p, o) => (a :: p, o)) <$> arrange r
  end.

Lemma keep_other i kept o a :
  is_prefix (lit "-o") a = false -> a <> lit "--" -> NUL ∉ a ->
  process_one tab None args a (at_arg i kept o) = Ok (0, at_arg i (kept ++ [a]) o).
Proof.
  intros Ho Hs Hn. destruct a as [|b r]; [done|]. unfold process_one. prun_get.
  cbn [at_arg nonopt Z.eqb negb orb].
  prun_lift (char_at_app [] b r 0 eq_refl). destruct (beq b MINUS) eqn:Hb; cbn [negb]; [|done].
  apply beq_spec in Hb as ->. destruct r as [|c r]; [done|].
  prun_lift (char_at_app [MINUS] c r 1 eq_refl).
  destruct (beq c x6f) eqn:Hc; [by apply beq_spec in Hc as ->|].
  destruct (beq c MINUS) eqn:Hm; cbn [andb].
  - apply beq_spec in Hm as ->. destruct r as [|e r]; [done|].
    prun_lift (char_at_app [MINUS; MINUS] e r 2 eq_refl).
    rewrite beq_ne by (do 2 apply not_elem_of_cons in Hn as [_ Hn]; apply not_elem_of_cons in Hn as [Hn _]; congruence).
    apply (gopt_keeps i kept o _ false).
  - rewrite (pbind_run _ _ _ _ _ (eq_refl : pret MINUS _ = Ok (MINUS, _))).
    apply (gopt_keeps i kept o _ false).
Qed.

(** "-o" and the text in one argument, or in two. *)
Lemma keep_group i kept o t :
  t <> [] -> NUL ∉ t ->
  process_one tab None args (lit "-o" ++ t) (at_arg i kept o) =
    Ok (0, at_arg i kept (foldl collect o (options t))).
Proof.
  intros Ht Hn. destruct t as [|c t]; [done|]. unfold process_one. prun_get.
  cbn [at_arg nonopt Z.eqb negb orb].
  prun_lift (char_at_app [] MINUS (x6f :: c :: t) 0 eq_refl).
  change (beq MINUS MINUS) with true. cbn [negb].
  prun_lift (char_at_app [MINUS] x6f (c :: t) 1 eq_refl).
  change (beq x6f x6f) with true. cbv iota.
  prun_lift (char_at_app [MINUS; x6f] c t 2 eq_refl).
  rewrite beq_ne by (apply not_elem_of_cons in Hn as [? _]; congruence). cbn [negb].
  assert (str_from (lit "-o" ++ c :: t) 2 = Ok (c :: t)) as Hfrom.
  { unfold str_from. rewrite (proj2 (Z.leb_le 2 _)) by (change (zlen (lit "-o" ++ c :: t)) with (zlen (MINUS :: x6f :: c :: t)); cbn [length]; lia). done. }
  prun_lift Hfrom. by apply group_keeps.
Qed.

Lemma keep_group_next i kept o t :
  0 <= i -> zget args (i + 1) = Some t -> NUL ∉ t ->
  process_one tab None args (lit "-o") (at_arg i kept o) =
    Ok (0, at_arg (i + 1) kept (foldl collect o (options t))).
Proof.
  intros Hi Ht Hn. assert (i + 1 < zlen args) as Hlt by (apply zget_is_Some; by rewrite Ht).
  change (process_one tab None args (lit "-o") (at_arg i kept o)) with
    (pbind (next_arg args (lit "-o")) (fun r => if r =? -1 then pret (-1) else
       c <-- pget ;; o <-- plift (lift_fault OutOfBounds (zget args c.(argctr))) ;;
       process_option_group tab None args o) (at_arg i kept o)).
  assert (next_arg args (lit "-o") (at_arg i kept o) = Ok (0, at_arg (i + 1) kept o)) as Hnext.
  { unfold next_arg. prun_get. cbn [argctr at_arg]. by rewrite (proj2 (Z.leb_gt _ _)). }
  prun Hnext. cbn [Z.eqb]. prun_get. cbn [argctr at_arg]. rewrite Ht.
  prun_lift (eq_refl : lift_fault OutOfBounds (Some t) = Ok t). by apply group_keeps.
Qed.

(** The last "-o" has no text. *)
Lemma keep_no_text i kept o :
  zlen args = i + 1 -> process_one tab None args (lit "-o") (at_arg i kept o) = Ok (-1, at_arg i kept o).
Proof.
  intros Hi.
  change (process_one tab None args (lit "-o") (at_arg i kept o)) with
    (pbind (next_arg args (lit "-o")) (fun r => if r =? -1 then pret (-1) else
       c <-- pget ;; o <-- plift (lift_fault OutOfBounds (zget args c.(argctr))) ;;
       process_option_group tab None args o) (at_arg i kept o)).
  assert (next_arg args (lit "-o") (at_arg i kept o) = Ok (-1, at_arg i kept o)) as Hnext.
  { unfold next_arg. prun_get. cbn [argctr at_arg]. by rewrite (proj2 (Z.leb_le _ _)) by lia. }
  by prun Hnext.
Qed.

Lemma loop_step fuel i kept o a r i' kept' o' :
  zget args i = Some a ->
  process_one tab None args a (at_arg i kept o) = Ok (r, at_arg i' kept' o') ->
  parse_loop tab None args (S fuel) (at_arg i kept o) =
    if r =? -1 then Ok (-1, at_arg i' kept' o')
    else parse_loop tab None args fuel (at_arg (i' + 1) kept' o').
Proof.
  intros Ha Hone. assert (i < zlen args) by (apply zget_is_Some; by rewrite Ha).
  cbn [parse_loop]. prun_get. cbn [argctr at_arg]. rewrite (proj2 (Z.ltb_lt _ _)), Ha by done.
  prun_lift (eq_refl : lift_fault OutOfBounds (Some a) = Ok a). prun Hone. by destruct (r =? -1).
Qed.

Lemma loop_end fuel i kept o : zlen args <= i ->
  parse_loop tab None args (S fuel) (at_arg i kept o) = Ok (0, at_arg i kept o).
Proof. intros Hi. cbn [parse_loop]. prun_get. cbn [argctr at_arg]. by rewrite (proj2 (Z.ltb_ge _ _)). Qed.

Lemma loop_run fuel : forall rest pre kept o,
  args = pre ++ rest -> (length rest < fuel)%nat ->
  Forall (fun a => (NUL ∉ a) /\ a <> lit "--") rest ->
  exists i, match arrange rest with
  | Some (p, os) => parse_loop tab None args fuel (at_arg (zlen pre) kept o) =
                      Ok (0, at_arg i (kept ++ p) (foldl collect o os))
  | None => exists kept' o', parse_loop tab None args fuel (at_arg (zlen pre) kept o) =
                      Ok (-1, at_arg i kept' o')
  end.
Proof.
  induction fuel as [|fuel IH]; intros rest pre kept o Hargs Hf Hall; [lia|].
  destruct rest as [|a rest]; cbn [arrange].
  { exists (zlen pre). rewrite loop_end by (rewrite Hargs, app_nil_r; lia). by rewrite app_nil_r. }
  apply Forall_cons in Hall as [[Hn Hs] Hall]. cbn [length] in Hf.
  assert (zget args (zlen pre) = Some a) as Ha
    by (rewrite Hargs, zget_nat, lookup_app_r, Nat.sub_diag; done).
  assert (args = (pre ++ [a]) ++ rest) as Hargs1 by by rewrite <- app_assoc.
  assert (zlen (pre ++ [a]) = zlen pre + 1) as Hpos by by rewrite zlen_app.
  destruct (streq a (lit "-o")) eqn:Ho.
  - apply streq_spec in Ho as ->. destruct rest as [|t rest].
    { exists (zlen pre), kept, o. rewrite (loop_step _ _ _ _ _ _ _ _ _ Ha
        (keep_no_text (zlen pre) kept o ltac:(rewrite Hargs1, zlen_app, Hpos; cbn [length]; lia))). done. }
    apply Forall_cons in Hall as [[Hnt _] Hall]. cbn [length] in Hf.
    assert (zget args (zlen pre + 1) = Some t) as Ht.
    { rewrite <- Hpos, Hargs1, zget_nat. rewrite lookup_app_r, Nat.sub_diag; done. }
    rewrite (loop_step _ _ _ _ _ _ _ _ _ Ha (keep_group_next (zlen pre) kept o t ltac:(lia) Ht Hnt)).
    destruct (IH rest (pre ++ [lit "-o"; t]) kept (foldl collect o (options t))) as [i Hi];
      [by rewrite <- app_assoc | lia | done |].
    exists i. replace (zlen (pre ++ [lit "-o"; t])) with (zlen pre + 1 + 1) in Hi
      by (rewrite zlen_app; cbn [length]; lia).
    destruct (arrange rest) as [[p os]|]; cbn [fmap option_fmap option_map]; [|done].
    by rewrite foldl_app.
  - destruct (is_prefix (lit "-o") a) eqn:Hp.
    + apply is_prefix_spec in Hp as [t ->].
      assert (t <> []) as Hne by (intros ->; done).
      rewrite not_elem_of_app in Hn. destruct Hn as [_ Hn].
      rewrite (loop_step _ _ _ _ _ _ _ _ _ Ha (keep_group (zlen pre) kept o t Hne Hn)).
      destruct (IH rest (pre ++ [lit "-o" ++ t]) kept (foldl collect o (options t))) as [i Hi];
        [done | lia | done |].
      exists i. rewrite Hpos in Hi. change (zdrop 2 (lit "-o" ++ t)) with t.
      destruct (arrange rest) as [[p os]|]; cbn [fmap option_fmap option_map]; [|done].
      by rewrite foldl_app.
    + rewrite (loop_step _ _ _ _ _ _ _ _ _ Ha (keep_other (zlen pre) kept o a Hp Hs Hn)).
      destruct (IH rest (pre ++ [a]) (kept ++ [a]) o) as [i Hi]; [done | lia | done |].
      exists i. rewrite Hpos in Hi.
      destruct (arrange rest) as [[p os]|]; cbn [fmap option_fmap option_map]; [|done].
      by rewrite <- app_assoc in Hi.
Qed.

(** The collected options are put in front. *)
Lemma insert_opts_run i a0 p o :
  insert_opts (at_arg i (a0 :: p) o) =
    Ok (0, at_arg i (a0 :: match o with None => p | Some t => lit "-o" :: t :: p end) o).
Proof.
  unfold insert_opts. prun_get. cbn [opts at_arg]. destruct o as [t|]; [|done].
  assert (forall q x l, 0 <= q <= zlen l -> insert_arg q x (at_arg i l (Some t)) =
    Ok (0, at_arg i (ztake q l ++ x :: zdrop q l) (Some t))) as H.
  { intros q x l Hq. unfold insert_arg. prun_get. cbn [outargs memory at_arg].
    prun_lift (insert_arg_run (mk_args (Some l) true) q x (or_intror eq_refl) Hq). done. }
  prun (H 1 (lit "-o") (a0 :: p) ltac:(cbn [length]; lia)). cbn [Z.eqb].
  change (ztake 1 (a0 :: p) ++ lit "-o" :: zdrop 1 (a0 :: p)) with (a0 :: lit "-o" :: p).
  rewrite H; [done|]. cbn [length]. lia.
Qed.
End keep.

Lemma options_Some o : exists t, collect_all (options o) = Some t.
Proof.
  apply collect_all_Some. unfold options. intros H%fmap_nil_inv. revert H. by apply (split_opts_ne (length o)).
Qed.

(** What parsing gives when the table matches nothing. *)
Definition kept_args (a0 : str) (p os : list str) : fuse_args :=
  mk_args (Some (a0 :: match collect_all os with None => p | Some t => lit "-o" :: t :: p end)) true.

Lemma parse_keeps a0 v d alloc :
  Forall (fun a => (NUL ∉ a) /\ a <> lit "--") v ->
  fuse_opt_parse (Some (mk_args (Some (a0 :: v)) alloc)) d (Some [FUSE_OPT_END]) None [] =
    Ok (match arrange v with
        | Some (p, os) => (0, Some (kept_args a0 p os), d, [])
        | None => (-1, Some (mk_args (Some (a0 :: v)) alloc), d, [])
        end).
Proof.
  intros Hall. unfold fuse_opt_parse, opt_parse.
  assert (add_arg a0 (mk_ctx d 0 no_args None 0 []) = Ok (0, at_arg d 0 [a0] None)) as Hadd by done.
  rewrite (pbind_run _ _ _ _ _ Hadd). cbn [Z.eqb]. prun_get.
  rewrite (pbind_run _ _ _ _ _ (eq_refl : pput (at_arg d 1 [a0] None) _ = Ok (tt, _))).
  destruct (loop_run (a0 :: v) d (length (a0 :: v) + 1) v [a0] [a0] None) as [i Hloop];
    [done | cbn [length]; lia | done |].
  destruct (arrange v) as [[p os]|].
  - rewrite (pbind_run _ _ _ _ _ Hloop). cbn [Z.eqb app].
    by rewrite (pbind_run _ _ _ _ _ (insert_opts_run d i a0 p _)).
  - destruct Hloop as (kept' & o' & Hloop). by rewrite (pbind_run _ _ _ _ _ Hloop).
Qed.

End FuseOptFacts.
