(* ===== verification/FuseOptSafe.v ===== *)
(** The option parser never goes wrong on a table that is well formed: whatever the
    arguments and whichever allocations fail, it ends, and the variables keep their
    types. *)
From S2P Require Import Prelude.
From S2P Require Import CLib.
From S2P Require Import FuseOpt.
From S2P Require Import FuseOptFacts.
From Stdlib Require Import QArith_base.
#[global] Close Scope Q_scope.
#[global] Open Scope Z_scope.
#[global] Open Scope c_scope.
#[global] Open Scope prog_scope.

Module FuseOptSafe.
Import FuseOpt FuseOptFacts.

(** ** Tables *)

Definition kind (v : var) : Z := match v with VInt _ => 0 | VStr _ => 1 | VDouble _ => 2 end.

(** What a format stores. *)
Definition formats : list (str * Z) := [([], 0); (lit "%s", 1); (lit "%d", 0); (lit "%u", 0); (lit "%o", 0); (lit "%lf", 2)].
Definition format_kind (f : str) : option Z := snd <$> List.find (fun x => streq x.1 f) formats.

Lemma format_cases f k : format_kind f = Some k -> (f, k) ∈ formats.
Proof.
  unfold format_kind. destruct (List.find _ formats) as [[f' k']|] eqn:Hf; [|done]. intros Hk. injection Hk as <-.
  apply find_some in Hf as [Hin Heq]. apply streq_spec in Heq. cbn in Heq. subst f'. by apply list_elem_of_In.
Qed.

(** A template that only matches itself: no "=", or one with other text behind it. *)
Definition plain_text (f : str) : bool := match f with [] => false | c :: _ => negb (beq c NUL || beq c PERCENT) end.

(** What the option of a template stores: its value, or what its format says. *)
Definition stored (t : str) : option Z :=
  match find_pos (beq EQUALS) t with
  | None => Some 0
  | Some i => if plain_text (zdrop (i + 1) t) then Some 0 else if 0 <? i then format_kind (zdrop (i + 1) t) else None
  end.

(** [d0]: the variables with their types. *)
Definition opt_ok (d0 : optdata) (o : fuse_opt) : bool :=
  match o.(templ) with
  | None => false
  | Some t =>
      (zlen t <? INT_MAX) && bool_decide (BLANK ∉ t) &&
      match stored t with
      | None => false
      | Some k => (o.(offset) =? KEY_OFFSET) || match d0 !! o.(offset) with Some v => kind v =? k | None => false end
      end
  end.

(** A table ends with the empty entry. *)
Fixpoint table_ok (d0 : optdata) (tab : list fuse_opt) : bool :=
  match tab with
  | [] => false
  | o :: r => match o.(templ) with None => true | Some _ => opt_ok d0 o && table_ok d0 r end
  end.

(** Some variable is a double. *)
Definition has_double (d0 : optdata) : Prop := exists o q, d0 !! o = Some (VDouble q).

Definition typed (d0 d : optdata) : Prop := forall o v0, d0 !! o = Some v0 -> exists v, d !! o = Some v /\ kind v = kind v0.

Lemma typed_refl d : typed d d.
Proof. intros o v Hv. by exists v. Qed.

Lemma typed_insert d0 d o v : typed d0 d -> (forall v0, d0 !! o = Some v0 -> kind v = kind v0) -> typed d0 (<[o := v]> d).
Proof.
  intros Hd Hv o' v0 H0. destruct (decide (o' = o)) as [->|Hne].
  - exists v. rewrite lookup_insert_eq. split; [done | by apply Hv].
  - rewrite lookup_insert_ne by done. by apply Hd.
Qed.

Lemma kind_str v : kind v = 1 -> exists s, v = VStr s.
Proof. destruct v; try done. intros _. by eexists. Qed.

Lemma typed_str d0 d o : typed d0 d -> (exists v, d0 !! o = Some v /\ kind v = 1) -> exists s, d !! o = Some (VStr s).
Proof. intros Hd (v0 & H0 & Hk). destruct (Hd o v0 H0) as (v & Hv & Hk'). destruct (kind_str v) as [s ->]; [congruence|]. by exists s. Qed.

(** ** Templates and arguments *)

Lemma i32_le z : 0 <= z -> i32 z <= z.
Proof. intros Hz. unfold swrap. pose proof (Z.mod_le (z + 2 ^ (32 - 1)) (2 ^ 32)). lia. Qed.

Lemma split_equals t i : find_pos (beq EQUALS) t = Some i -> t = ztake i t ++ EQUALS :: zdrop (i + 1) t /\ (EQUALS ∉ ztake i t) /\ 0 <= i < zlen t.
Proof.
  intros Hi. destruct (find_pos_Some _ _ _ Hi) as (Hr & Hn & b & Hb & He). apply beq_spec in He as <-. split_and!; [| | lia..].
  - rewrite <- (take_drop_middle t (Z.to_nat i) EQUALS) at 1; [unfold ztake, zdrop; by replace (Z.to_nat (i + 1)) with (S (Z.to_nat i)) by lia|].
    unfold zget in Hb. by destruct (0 <=? i).
  - intros Hin. rewrite Forall_forall in Hn. specialize (Hn EQUALS Hin). by rewrite beq_refl in Hn.
Qed.

(** The byte behind the "=". *)
Lemma behind t i : find_pos (beq EQUALS) t = Some i ->
  char_at t i = Ok EQUALS /\ exists c, char_at t (i + 1) = Ok c /\ negb (beq c NUL || beq c PERCENT) = plain_text (zdrop (i + 1) t).
Proof.
  intros Hi. destruct (split_equals t i Hi) as (Hsplit & _ & Hr). assert (zlen (ztake i t) = i) as Hn by (apply zlen_ztake; lia).
  set (n := ztake i t) in *. set (f := zdrop (i + 1) t) in *. rewrite Hsplit. split; [by apply char_at_app|].
  replace (n ++ EQUALS :: f) with ((n ++ [EQUALS]) ++ f) by by rewrite <- app_assoc.
  destruct f as [|b f'].
  - rewrite char_at_end by (rewrite app_nil_r, zlen_app; cbn [length]; lia). by exists NUL.
  - rewrite char_at_app by (rewrite zlen_app; cbn [length]; lia). by exists b.
Qed.

(** A template of a good entry matches plainly, or at its "=". *)
Lemma match_good d0 o t arg : opt_ok d0 o = true -> o.(templ) = Some t ->
  exists r, match_template t arg = Ok r /\ (r = Some 0 -> stored t = Some 0) /\
    forall sep, r = Some sep -> sep <> 0 -> exists n f k, t = n ++ EQUALS :: f /\ zlen n = sep /\ 0 < sep /\ sep + 1 <= zlen arg /\
      stored t = Some k /\ format_kind f = Some k.
Proof.
  intros Hok Ht. unfold opt_ok in Hok. rewrite Ht in Hok. apply andb_true_iff in Hok as [[Hlen Hb]%andb_true_iff Hs].
  apply Z.ltb_lt in Hlen. apply bool_decide_eq_true in Hb. destruct (stored t) as [k|] eqn:Hst; [clear Hs | done].
  unfold stored in Hst. unfold match_template.
  assert (forall r, r = (if streq t arg then Some 0 else None) -> k = 0 -> exists r0, Ok r = Ok r0 /\ (r0 = Some 0 -> Some k = Some 0) /\
    forall sep, r0 = Some sep -> sep <> 0 -> exists n f k0, t = n ++ EQUALS :: f /\ zlen n = sep /\ 0 < sep /\ sep + 1 <= zlen arg /\
      Some k = Some k0 /\ format_kind f = Some k0) as Hplain.
  { intros r -> ->. eexists. split; [reflexivity|]. split; [done|]. intros sep Hsep Hne. destruct (streq t arg); [congruence | done]. }
  destruct (find_pos (beq EQUALS) t) as [i|] eqn:Hi.
  2: { rewrite find_beq_None by done. apply Hplain; [done | congruence]. }
  destruct (split_equals t i Hi) as (Hsplit & Hn & Hrange). destruct (behind t i Hi) as (Hc0 & c1 & Hc1 & Hc).
  rewrite Hc1. cbn [obind]. rewrite <- Hc in Hst. destruct (beq c1 NUL || beq c1 PERCENT) eqn:Hcc; cbn [negb] in Hst.
  2: { apply Hplain; [done | congruence]. }
  destruct (0 <? i) eqn:Hpos; [|done]. apply Z.ltb_lt in Hpos. rewrite Hc0. cbn [obind]. rewrite beq_refl.
  assert (u32 i = i) as Hu by (apply uwrap_small; unfold INT_MAX in Hlen; lia). rewrite Hu, (i32_small (i + 1)) by (unfold INT_MAX in *; lia).
  destruct ((i + 1 <=? i32 (zlen arg)) && streq (ztake (i + 1) arg) (ztake (i + 1) t)) eqn:Hm.
  - eexists. split; [reflexivity|]. split; [intros He; injection He; lia|]. intros sep He Hne. injection He as <-. apply andb_true_iff in Hm as [Hm%Z.leb_le _].
    exists (ztake i t), (zdrop (i + 1) t), k. split_and!; [done | apply zlen_ztake; lia | done | pose proof (i32_le (zlen arg)); lia | done..].
  - exists None. assert (streq t arg = false) as ->; [|by split].
    destruct (streq t arg) eqn:He; [|done]. apply streq_spec in He as <-.
    rewrite (i32_small (zlen t)) in Hm by (unfold INT_MAX in *; lia).
    rewrite (proj2 (Z.leb_le _ _)) in Hm by lia. cbn [andb] in Hm. by rewrite (proj2 (streq_spec _ _) eq_refl) in Hm.
Qed.

(** ** The parser *)

Section safe.
Context (d0 : optdata) (tab : list fuse_opt) (proc : option fuse_opt_proc_t) (name : str) (args : list str).

Definition allowed (f : fault) : Prop := has_double d0 /\ f = Unmodelled.

(** The arguments so far: the name of the program, and C strings. *)
Definition args_ok (a : fuse_args) : Prop :=
  (a.(argv) = None \/ a.(allocated) = true) /\ head (args_list a) = Some name /\ Forall (fun s => NUL ∉ s) (args_list a).

Lemma args_ok_argc a : args_ok a -> 1 <= argc a.
Proof. intros (_ & Hn & _). unfold argc. destruct (args_list a); [done|]. cbn [length]. lia. Qed.

(** The function is called for an option that is not in the table, for another argument, or
    for an entry with a key. *)
Definition asked (key : Z) (arg : str) : Prop :=
  key = FUSE_OPT_KEY_OPT \/ key = FUSE_OPT_KEY_NONOPT \/
  exists o t sep, o ∈ tab /\ o.(templ) = Some t /\ o.(offset) = KEY_OFFSET /\ o.(value) = key /\ match_template t arg = Ok (Some sep).

Definition proc_ok : Prop :=
  match proc with
  | None => True
  | Some f => forall d arg key out m, typed d0 d -> (NUL ∉ arg) -> args_ok out -> asked key arg ->
      match f d arg key out m with Ok (_, d', out', _) => typed d0 d' /\ args_ok out' | Fail e => allowed e end
  end.

Context (Htab : table_ok d0 tab = true) (Hproc : proc_ok) (Hargs : Forall (fun a => NUL ∉ a) args).

Definition Inv (k : Z) (c : ctx) : Prop :=
  0 <= k <= c.(argctr) /\ typed d0 c.(data) /\ args_ok c.(outargs) /\
  (NUL ∉ default [] c.(opts)) /\ (c.(nonopt) = 0 \/ 2 <= c.(nonopt)).

#[local] Abbreviation sp k m := (spec (Inv k) allowed m (fun _ => Inv k)).

Lemma args_ok_add a arg m : args_ok a -> NUL ∉ arg ->
  match fuse_opt_add_arg a arg m with Ok (r, a', _) => args_ok a' /\ (r <> -1 -> 2 <= argc a') | Fail _ => False end.
Proof.
  intros Hok Harg. pose proof (args_ok_argc a Hok) as Hc. pose proof Hok as (Ha & Hn & Hall). unfold fuse_opt_add_arg.
  assert ((match a.(argv) with None => true | Some _ => a.(allocated) end) = true) as ->
    by (destruct a as [[v|] al], Ha; done).
  cbn [guard_c obind]. destruct (allocates m) as [[] m1]; [|by split]. destruct (allocates m1) as [[] m2]; [|by split]. cbn [negb].
  unfold argc, args_list in *. cbn [argv from_option id]. split; [|intros _; rewrite length_app; cbn [length]; lia].
  split; [by right|]. cbn [args_list argv from_option id]. split; [by destruct (default [] (argv a))|].
  apply Forall_app_2; [done | by apply Forall_singleton].
Qed.

Lemma add_arg_long k arg : NUL ∉ arg -> spec (Inv k) allowed (add_arg arg) (fun r c => Inv k c /\ (r <> -1 -> 2 <= argc c.(outargs))).
Proof.
  intros Harg. apply spec_get. intros s (Hk & Hd & Ha & Ho). pose proof (args_ok_add s.(outargs) arg s.(memory) Ha Harg) as Hadd.
  destruct (fuse_opt_add_arg _ _ _) as [[[r a] m]|] eqn:He; [|done].
  intros s' _. split; [exact (conj Hk (conj Hd (conj (proj1 Hadd) Ho))) | apply Hadd].
Qed.

Lemma add_arg_safe k arg : NUL ∉ arg -> sp k (add_arg arg).
Proof. intros Harg. apply (spec_weaken _ _ (Inv k) _ _ _ (add_arg_long k arg Harg)); [done | by intros r s [Hs _]]. Qed.

Lemma add_common_no_NUL o opt esc m : NUL ∉ default [] o -> NUL ∉ opt -> NUL ∉ default [] (add_opt_common o opt esc m).1.2.
Proof.
  intros Ho Hopt. unfold add_opt_common. destruct (allocates m) as [[] m1]; [|done]. cbn [negb Datatypes.fst Datatypes.snd from_option id].
  assert (NUL ∉ escape esc opt) as He.
  { destruct esc; [by apply escape_no_NUL|]. assert (escape false opt = opt) as ->; [|done]. clear. induction opt as [|b r IH]; [done|]. cbn. by rewrite IH. }
  intros [Hin|Hin]%elem_of_app; [|done]. destruct (negb _); [|by apply elem_of_nil in Hin].
  apply elem_of_app in Hin as [Hin|Hin]; [by apply subseteq_take in Hin|]. by apply elem_of_cons in Hin as [?|?%elem_of_nil].
Qed.

Lemma add_opt_safe k opt : NUL ∉ opt -> sp k (add_opt opt).
Proof.
  intros Hopt. apply spec_get. intros s (Hk & Hd & Ha & Ho).
  pose proof (add_common_no_NUL s.(opts) opt true s.(memory) (proj1 Ho) Hopt) as Hadd.
  destruct (add_opt_common _ _ _ _) as [[r o] m]. intros s' _. exact (conj Hk (conj Hd (conj Ha (conj Hadd (proj2 Ho))))).
Qed.

Lemma strdup_safe k : sp k strdup.
Proof. apply spec_get. intros s Hs. destruct (allocates _) as [b m]. intros s' _. exact Hs. Qed.

Lemma next_arg_safe k o : spec (Inv k) allowed (next_arg args o) (fun r c => Inv k c /\ (r <> -1 -> 0 <= c.(argctr) < zlen args)).
Proof.
  apply spec_get. intros s (Hk & Hs). destruct (zlen args <=? argctr s + 1) eqn:He.
  - intros s' ->. exact (conj (conj Hk Hs) (fun H => False_ind _ (H eq_refl))).
  - apply Z.leb_gt in He. intros s' ->. split; [|intros _; cbn; lia]. split; [cbn; lia | exact Hs].
Qed.

Lemma call_proc_safe k arg key iso : NUL ∉ arg -> asked key arg \/ key = FUSE_OPT_KEY_KEEP \/ key = FUSE_OPT_KEY_DISCARD ->
  sp k (call_proc proc arg key iso).
Proof.
  intros Harg Hkey. pose proof Hproc as Hf. revert Hf. unfold proc_ok, call_proc.
  assert (sp k (if iso then add_opt arg else add_arg arg)) as Hkept by (destruct iso; [by apply add_opt_safe | by apply add_arg_safe]).
  destruct (key =? FUSE_OPT_KEY_DISCARD) eqn:Hdisc; [by intros _ s Hs|]. apply Z.eqb_neq in Hdisc.
  case proc; [intros f Hf | by intros _].
  destruct (key =? FUSE_OPT_KEY_KEEP) eqn:Hkeep; [exact Hkept|]. apply Z.eqb_neq in Hkeep. cbn [negb].
  apply spec_get. intros s (Hk & Ht & Ha & Ho).
  specialize (Hf s.(data) arg key s.(outargs) s.(memory) Ht Harg Ha ltac:(by destruct Hkey as [?|[?|?]])).
  destruct (f _ _ _ _ _) as [[[[r d] a] m]|e]; [|by intros s' _]. destruct Hf as [Ht' Ha'].
  intros s' _. unfold pbind, plift, pput, pret. cbn [obind].
  assert (Inv k (set_memory m (set_outargs a (set_data d s)))) as Hs1 by exact (conj Hk (conj Ht' (conj Ha' Ho))).
  destruct (_ || _); [exact Hs1 | exact (Hkept _ Hs1)].
Qed.

Lemma scan_double_fault s f : scan_double s = Fail f -> f = Unmodelled.
Proof.
  unfold scan_double. destruct (match skip_spaces s with [] => _ | _ => _ end) as [neg s1].
  destruct (digits s1 0 0) as [[w n] r]. destruct (match r with [] => _ | _ => _ end) as [[m k] r1].
  destruct s1 as [|b r']; [done|]. destruct (existsb _ _); [by intros [= <-]|]. destruct r' as [|c r']; [done|].
  destruct (_ && _); [by intros [= <-] | done].
Qed.

(** A variable is set to a value of its type. *)
Lemma store_safe k o v v0 : d0 !! o = Some v0 -> kind v = kind v0 -> sp k (c <-- pget ;; pput (set_data (<[o := v]> c.(data)) c) ;;; pret 0).
Proof.
  intros H0 Hk. apply spec_get. intros s (Hc & Hd & Hr). intros s' _. split; [exact Hc|]. split; [|exact Hr].
  apply typed_insert; [exact Hd|]. intros v1 H1. congruence.
Qed.

Lemma param_safe k o f kd param arg v0 : format_kind f = Some kd -> f <> [] -> d0 !! o = Some v0 -> kind v0 = kd ->
  sp k (process_opt_param o f param arg).
Proof.
  intros Hf Hne H0 Hk. apply format_cases in Hf. unfold formats in Hf. rewrite !elem_of_cons, elem_of_nil in Hf.
  assert (forall v : option var, (forall x, v = Some x -> kind x = kd) ->
    sp k (match v with Some v => c <-- pget ;; pput (set_data (<[o := v]> c.(data)) c) ;;; pret 0 | None => pret (-1) end)) as Hstore.
  { intros [v|] Hv; [|by intros s Hs]. apply (store_safe k o v v0 H0). rewrite Hk. by apply Hv. }
  destruct_or! Hf; injection Hf as -> ->; [done | ..]; unfold process_opt_param;
    (apply (spec_lift_bind _ _ _ PERCENT _ _ eq_refl); apply (spec_lift_bind _ _ _ tt _ _ eq_refl)).
  - apply (spec_lift_bind _ _ _ x73 _ _ eq_refl). cbv beta. change (beq x73 x73) with true. cbv iota.
    eapply spec_bind; [apply strdup_safe|]. intros []; cbn [negb]; [|by intros s Hs].
    apply spec_get. intros s Hs. destruct (typed_str d0 s.(data) o) as [x Hx]; [apply Hs | by exists v0|]. rewrite Hx.
    intros s' ->. destruct Hs as (Hc & Hd & Hr). split; [exact Hc|]. split; [|exact Hr]. apply typed_insert; [exact Hd|].
    intros v1 H1. assert (v1 = v0) as -> by congruence. by rewrite Hk.
  - apply (spec_lift_bind _ _ _ x64 _ _ eq_refl). apply (spec_lift_bind _ _ _ (VInt <$> scan_int 10 true param) _ _ eq_refl).
    apply Hstore. intros x. destruct (scan_int _ _ _); [by intros [= <-] | done].
  - apply (spec_lift_bind _ _ _ x75 _ _ eq_refl). apply (spec_lift_bind _ _ _ (VInt <$> scan_int 10 false param) _ _ eq_refl).
    apply Hstore. intros x. destruct (scan_int _ _ _); [by intros [= <-] | done].
  - apply (spec_lift_bind _ _ _ x6f _ _ eq_refl). apply (spec_lift_bind _ _ _ (VInt <$> scan_int 8 false param) _ _ eq_refl).
    apply Hstore. intros x. destruct (scan_int _ _ _); [by intros [= <-] | done].
  - apply (spec_lift_bind _ _ _ x6c _ _ eq_refl).
    change (sscanf param (lit "%lf")) with (d <- scan_double param ;; Ok (VDouble <$> d)).
    destruct (scan_double param) as [d|e] eqn:Hd; cbn [obind].
    + apply (spec_lift_bind _ _ _ (VDouble <$> d) _ _ eq_refl). apply Hstore. intros x. destruct d; [by intros [= <-] | done].
    + intros s Hs. apply scan_double_fault in Hd as ->. split; [|done]. destruct v0; try discriminate Hk. by eexists _, _.
Qed.

Lemma char_at_ok x i : 0 <= i <= zlen x -> exists c, char_at x i = Ok c /\ (c <> NUL -> i < zlen x).
Proof.
  intros Hi. unfold char_at. destruct (i =? zlen x) eqn:He; [by exists NUL|]. apply Z.eqb_neq in He.
  assert (is_Some (zget x i)) as [c Hc] by (apply zget_is_Some; lia). rewrite Hc. exists c. split; [done | intros _; lia].
Qed.

Lemma str_from_ok x i : 0 <= i <= zlen x -> str_from x i = Ok (zdrop i x).
Proof. intros Hi. unfold str_from. rewrite (proj2 (Z.leb_le _ _)), (proj2 (Z.leb_le _ _)) by lia. done. Qed.

Lemma zdrop_no_NUL i x : NUL ∉ x -> NUL ∉ zdrop i x.
Proof. intros Hx Hin. apply Hx. by apply subseteq_drop in Hin. Qed.

(** An entry of the table that matches, and what comes behind it. *)
Definition good_found (n : nat) (arg : str) (r : option (fuse_opt * list fuse_opt * Z)) : Prop :=
  match r with
  | None => True
  | Some (o, next, sep) => o ∈ tab /\ opt_ok d0 o = true /\ table_ok d0 next = true /\ next ⊆ tab /\ (length next < n)%nat /\
      exists t, o.(templ) = Some t /\ match_template t arg = Ok (Some sep)
  end.

Lemma find_opt_safe l arg : table_ok d0 l = true -> l ⊆ tab -> exists r, find_opt l arg = Ok r /\ good_found (length l) arg r.
Proof.
  induction l as [|o l IH]; [done|]. intros Hl Hsub. cbn [table_ok find_opt] in *.
  destruct (templ o) as [t|] eqn:Ht; [|by exists None]. apply andb_true_iff in Hl as [Ho Hl].
  assert (l ⊆ tab) as Hsub' by (intros x Hx; apply Hsub; by right).
  destruct (match_good d0 o t arg Ho Ht) as (r & Hr & _). rewrite Hr. cbn [obind]. destruct r as [sep|].
  - eexists. split; [reflexivity|]. split_and!; [apply Hsub; by left | done | done | done | cbn [length]; lia |]. by exists t.
  - destruct (IH Hl Hsub') as (r & Hf & Hg). exists r. split; [done|]. destruct r as [[[o' next] sep]|]; [|done].
    destruct Hg as (H1 & H2 & H3 & H4 & H5 & H6). split_and!; [done..| cbn [length]; lia | done].
Qed.

Lemma process_opt_safe k o t sep arg iso : NUL ∉ arg -> o ∈ tab -> opt_ok d0 o = true -> o.(templ) = Some t ->
  match_template t arg = Ok (Some sep) -> sp k (process_opt proc o sep arg iso).
Proof.
  intros Harg Hin Hok Ht Hm. destruct (match_good d0 o t arg Hok Ht) as (r & Hr & H0 & Hsep). rewrite Hm in Hr. injection Hr as <-.
  unfold process_opt. destruct (offset o =? KEY_OFFSET) eqn:Hkey.
  { apply Z.eqb_eq in Hkey. eapply spec_bind; [apply call_proc_safe; [done | left; right; right; by exists o, t, sep]|].
    intros r. by intros s Hs. }
  unfold opt_ok in Hok. rewrite Ht in Hok. apply andb_true_iff in Hok as [_ Hst].
  rewrite Hkey in Hst. cbn [orb] in Hst. rewrite Ht. apply (spec_lift_bind _ _ _ t _ _ eq_refl).
  destruct (sep =? 0) eqn:Hz; cbn [negb].
  - apply Z.eqb_eq in Hz as ->. rewrite (H0 eq_refl) in Hst.
    destruct (d0 !! offset o) as [v0|] eqn:Hv; [|done]. apply Z.eqb_eq in Hst.
    apply spec_ret_bind. cbn [andb]. apply (store_safe k _ (VInt (value o)) v0); [done | by rewrite Hst].
  - apply Z.eqb_neq in Hz. destruct (Hsep sep eq_refl Hz) as (n & f & kd & -> & Hn & Hpos & Hlen & Hkd & Hf). rewrite Hkd in Hst.
    assert (zdrop (sep + 1) (n ++ EQUALS :: f) = f) as Hdrop by (rewrite zdrop_app_ge by lia; by replace (sep + 1 - zlen n) with 1 by lia).
    destruct (d0 !! offset o) as [v0|] eqn:Hv; [|done]. apply Z.eqb_eq in Hst.
    assert (sep + 1 <= zlen (n ++ EQUALS :: f)) as Hlt by (rewrite zlen_app; cbn [length]; lia).
    destruct (char_at_ok (n ++ EQUALS :: f) (sep + 1) ltac:(lia)) as (c1 & Hc1 & Hc1n).
    apply (spec_lift_bind _ _ _ _ _ _ Hc1). cbn [andb]. destruct (beq c1 NUL) eqn:Hb; cbn [negb].
    + assert (kd = 0) as ->; [|apply (store_safe k _ (VInt (value o)) v0); [done | by rewrite Hst]]. apply beq_spec in Hb as ->.
      apply format_cases in Hf. unfold formats in Hf. rewrite !elem_of_cons, elem_of_nil in Hf.
      replace (n ++ EQUALS :: f) with ((n ++ [EQUALS]) ++ f) in Hc1 by by rewrite <- app_assoc.
      destruct f as [|b f]; [destruct_or! Hf; [by injection Hf | apply (f_equal (fun x => head x.1)) in Hf; vm_compute in Hf; discriminate Hf ..]|]. rewrite char_at_app in Hc1 by (rewrite zlen_app; cbn [length]; lia). injection Hc1 as ->.
      destruct_or! Hf; apply (f_equal (fun x => head x.1)) in Hf; vm_compute in Hf; discriminate Hf.
    + apply (spec_lift_bind _ _ _ _ _ _ (char_at_app n EQUALS f sep (eq_sym Hn))). rewrite beq_refl.
      apply (spec_lift_bind _ _ _ _ _ _ (str_from_ok arg (sep + 1) ltac:(lia))).
      apply (spec_lift_bind _ _ _ _ _ _ (str_from_ok (n ++ EQUALS :: f) (sep + 1) ltac:(lia))). rewrite Hdrop.
      assert (f <> []) as Hne.
      { intros ->. rewrite char_at_end in Hc1 by (rewrite zlen_app; cbn [length]; lia). injection Hc1 as <-. by rewrite beq_refl in Hb. }
      eapply spec_bind; [by eapply param_safe|]. intros r. by intros s Hs.
Qed.

Lemma good_found_le n m arg r : good_found n arg r -> (n <= m)%nat -> good_found m arg r.
Proof. destruct r as [[[o next] sep]|]; [|done]. intros (H1 & H2 & H3 & H4 & H5 & H6) Hle. split_and!; [done.. | lia | done]. Qed.

Lemma gopt_loop_safe k fuel : forall found arg iso, NUL ∉ arg -> good_found fuel arg found -> sp k (gopt_loop proc args (S fuel) found arg iso).
Proof.
  induction fuel as [|fuel IH]; intros found arg iso Harg Hf.
  { destruct found as [[[o next] sep]|]; [destruct Hf as (_ & _ & _ & _ & ? & _); lia|]. by intros s Hs. }
  change (gopt_loop proc args (S (S fuel)) found arg iso) with (match found with
    | None => pret 0
    | Some (opt, next, sep) =>
        t <-- plift (lift_fault NullDeref opt.(templ)) ;;
        c0 <-- (if negb (sep =? 0) then plift (char_at t sep) else pret NUL) ;;
        c1 <-- (if negb (sep =? 0) && beq c0 BLANK then plift (char_at arg sep) else pret BLANK) ;;
        res <-- (if negb (sep =? 0) && beq c0 BLANK && beq c1 NUL
                 then process_opt_sep_arg proc args opt sep arg iso
                 else process_opt proc opt sep arg iso) ;;
        if res =? -1 then pret (-1)
        else found <-- plift (find_opt next arg) ;; gopt_loop proc args (S fuel) found arg iso
    end : prog ctx Z).
  destruct found as [[[o next] sep]|]; [|by intros s Hs].
  destruct Hf as (Hin & Hok & Hnext & Hsub & Hlen & t & Ht & Hm). rewrite Ht. apply (spec_lift_bind _ _ _ t _ _ eq_refl).
  eapply (spec_bind _ _ _ _ (fun c0 c => Inv k c /\ beq c0 BLANK = false)).
  { destruct (match_good d0 o t arg Hok Ht) as (r & Hr & _ & Hsep). rewrite Hm in Hr. injection Hr as <-.
    destruct (sep =? 0) eqn:Hz; cbn [negb]; [by intros s Hs|]. apply Z.eqb_neq in Hz.
    destruct (Hsep sep eq_refl Hz) as (n & f & kd & -> & Hn & _). rewrite char_at_app by done. by intros s Hs. }
  intros c0. apply spec_pre. intros s [Hs Hc0]. rewrite Hc0, andb_false_r. apply (spec_weaken _ _ (Inv k) _ _ (fun _ => Inv k)); [| by intros s' -> | done].
  apply spec_ret_bind. cbn [andb].
  eapply spec_bind; [by eapply process_opt_safe|]. intros r. destruct (r =? -1); [by intros s1 Hs1|].
  destruct (find_opt_safe next arg Hnext Hsub) as (found & Hfound & Hg). apply (spec_lift_bind _ _ _ _ _ _ Hfound).
  apply IH; [done|]. apply (good_found_le (length next)); [done | lia].
Qed.

Lemma process_gopt_safe k arg iso : NUL ∉ arg -> sp k (process_gopt (Some tab) proc args arg iso).
Proof.
  intros Harg. destruct (find_opt_safe tab arg Htab) as (found & Hfound & Hg); [done|].
  unfold process_gopt. apply (spec_lift_bind _ _ _ _ _ _ Hfound). destruct found as [x|].
  - rewrite Nat.add_1_r. by apply gopt_loop_safe.
  - apply call_proc_safe; [done | left; by left].
Qed.

Lemma run_opts_safe k l : Forall (fun o => NUL ∉ o) l -> sp k (run_opts (Some tab) proc args l).
Proof.
  induction 1 as [|o l Ho Hl IH]; [by intros s Hs|]. cbn [run_opts].
  eapply spec_bind; [by apply process_gopt_safe|]. intros r. destruct (r =? -1); [by intros s Hs | exact IH].
Qed.

Lemma until_nul_no_NUL x : NUL ∉ until_nul x.
Proof.
  induction x as [|b r IH]; cbn [until_nul]; [apply not_elem_of_nil|]. destruct (beq b NUL) eqn:Hb; [apply not_elem_of_nil|].
  apply not_elem_of_cons. split; [|done]. intros <-. by rewrite beq_refl in Hb.
Qed.

Lemma option_group_safe k o : NUL ∉ o -> sp k (process_option_group (Some tab) proc args o).
Proof.
  intros Ho. eapply spec_bind; [apply strdup_safe|]. intros []; cbn [negb]; [|by intros s Hs].
  assert (Forall (fun x => NUL ∉ x) (until_nul <$> split_opts [] o)) as Hall.
  { apply Forall_fmap, Forall_forall. intros x _. apply until_nul_no_NUL. }
  intros s Hs. unfold process_real_option_group.
  assert (group_loop (Some tab) proc args (length (o ++ [NUL]) + 1) (o ++ [NUL]) 0 0 s = run_opts (Some tab) proc args (until_nul <$> split_opts [] o) s) as ->;
    [|exact (run_opts_safe k _ Hall s Hs)].
  apply (group_loop_spec (Some tab) proc args _ [] [] o s Ho). rewrite length_app. cbn [length]. lia.
Qed.

Lemma arg_no_NUL i a : zget args i = Some a -> NUL ∉ a.
Proof.
  intros Ha. pose proof Hargs as Hall. rewrite Forall_forall in Hall. apply Hall. unfold zget in Ha.
  destruct (0 <=? i); [|done]. by apply list_elem_of_lookup_2 in Ha.
Qed.

Lemma process_one_safe k a : NUL ∉ a -> sp k (process_one (Some tab) proc args a).
Proof.
  intros Ha. apply spec_get. intros s Hs. apply (spec_weaken _ _ (Inv k) _ _ (fun _ => Inv k)); [| by intros s' -> | done].
  assert (sp k (call_proc proc a FUSE_OPT_KEY_NONOPT false)) as Hnon by (apply call_proc_safe; [done | left; right; by left]).
  destruct (negb (nonopt s =? 0)); [apply spec_ret_bind; exact Hnon|].
  destruct (char_at_ok a 0 ltac:(lia)) as (a0 & H0 & Hl0). apply (spec_lift_bind _ _ _ _ _ _ H0). cbn [orb].
  destruct (beq a0 MINUS) eqn:Hm; cbn [negb]; [|exact Hnon]. apply beq_spec in Hm as ->.
  destruct (char_at_ok a 1) as (a1 & H1 & Hl1); [specialize (Hl0 ltac:(done)); lia|]. apply (spec_lift_bind _ _ _ _ _ _ H1).
  destruct (beq a1 x6f) eqn:Ho.
  - apply beq_spec in Ho as ->. destruct (char_at_ok a 2) as (a2 & H2 & Hl2); [specialize (Hl1 ltac:(done)); lia|].
    apply (spec_lift_bind _ _ _ _ _ _ H2). destruct (beq a2 NUL); cbn [negb].
    + eapply spec_bind; [apply next_arg_safe|]. intros r. destruct (r =? -1) eqn:Hr; [intros s1 [Hs1 _]; exact Hs1|]. apply Z.eqb_neq in Hr.
      apply spec_get. intros s1 [Hs1 Hb]. specialize (Hb Hr). assert (is_Some (zget args s1.(argctr))) as [x Hx] by (apply zget_is_Some; lia).
      rewrite Hx. apply (spec_lift_bind _ _ _ _ _ _ eq_refl).
      apply (spec_weaken _ _ (Inv k) _ _ (fun _ => Inv k)); [apply option_group_safe, (arg_no_NUL _ _ Hx) | by intros s' -> | done].
    + apply (spec_lift_bind _ _ _ _ _ _ (str_from_ok a 2 ltac:(specialize (Hl1 ltac:(done)); lia))). apply option_group_safe. by apply zdrop_no_NUL.
  - assert (exists a2, (if beq a1 MINUS then char_at a 2 else Ok MINUS) = Ok a2) as [a2 H2].
    { destruct (beq a1 MINUS) eqn:Hmm; [|by eexists]. apply beq_spec in Hmm as ->.
      destruct (char_at_ok a 2) as (a2 & H2 & _); [specialize (Hl1 ltac:(done)); lia | by exists a2]. }
    apply (spec_bind _ _ _ _ (fun c s => Inv k s)).
    { destruct (beq a1 MINUS); [rewrite H2; by intros s1 Hs1 | by intros s1 Hs1]. }
    intros c. destruct (beq a1 MINUS && beq c NUL); [|by apply process_gopt_safe].
    eapply spec_bind; [by apply add_arg_long|]. intros r. destruct (r =? -1) eqn:Hr; [by intros s1 [Hs1 _]|]. apply Z.eqb_neq in Hr.
    apply spec_get. intros s1 [(Hs1 & Hs2 & Hs3 & Hs4) Hl]. intros s2 _. exact (conj Hs1 (conj Hs2 (conj Hs3 (conj (proj1 Hs4) (or_intror (Hl Hr)))))).
Qed.

Lemma Inv_weak k s : Inv k s -> Inv 0 s.
Proof. intros (Hc & Hr). split; [lia | exact Hr]. Qed.

Lemma parse_loop_safe fuel : forall k, zlen args - k <= Z.of_nat fuel ->
  spec (Inv k) allowed (parse_loop (Some tab) proc args (S fuel)) (fun _ => Inv 0).
Proof.
  induction fuel as [|fuel IH]; intros k Hf; apply spec_get; intros s Hs; destruct (argctr s <? zlen args) eqn:Hlt;
    try (intros s' ->; by apply (Inv_weak k)).
  { apply Z.ltb_lt in Hlt. destruct Hs as [Hc _]. lia. }
  apply Z.ltb_lt in Hlt. pose proof Hs as [Hc Hr].
  assert (is_Some (zget args (argctr s))) as [a Ha] by (apply zget_is_Some; lia). rewrite Ha. apply (spec_lift_bind _ _ _ a _ _ eq_refl).
  apply (spec_weaken _ _ (Inv (argctr s)) _ _ (fun _ => Inv 0)); [| intros s' ->; split; [lia | exact Hr] | done].
  eapply spec_bind; [apply process_one_safe, (arg_no_NUL _ _ Ha)|]. intros r. destruct (r =? -1); [intros s1 Hs1; by apply (Inv_weak (argctr s))|].
  apply spec_get. intros s1 [Hc1 Hr1] s2 _.
  refine (IH (argctr s + 1) ltac:(lia) (set_argctr (argctr s1 + 1) s1) (conj _ Hr1)). cbn [argctr set_argctr]. lia.
Qed.

(** Without memory nothing is inserted. *)
Lemma insert_arg_none a pos x m : (a.(argv) = None \/ a.(allocated) = true) -> pos <= argc a ->
  (exists m1 m2, allocates m = (true, m1) /\ allocates m1 = (true, m2)) \/ exists m', fuse_opt_insert_arg a pos x m = Ok (-1, a, m').
Proof.
  intros Ha Hp. unfold fuse_opt_insert_arg, fuse_opt_insert_arg_common, fuse_opt_add_arg. rewrite (proj2 (Z.leb_le _ _)) by done.
  assert ((match a.(argv) with None => true | Some _ => a.(allocated) end) = true) as -> by (destruct a as [[v|] al], Ha; done).
  destruct (allocates m) as [[] m1]; [|right; by exists m1]. destruct (allocates m1) as [[] m2] eqn:H1; [|right; by exists m2].
  left. by exists m1, m2.
Qed.

Lemma insert_arg_safe k pos x : NUL ∉ x -> 1 <= pos -> spec (fun c => Inv k c /\ pos <= argc c.(outargs)) allowed (insert_arg pos x)
  (fun r c => Inv k c /\ (r <> -1 -> pos + 1 <= argc c.(outargs))).
Proof.
  intros Hx Hpos. apply spec_get. intros s [(Hc & Hd & (Ha & Hn & Hall) & Ho) Hp].
  destruct (insert_arg_none s.(outargs) pos x s.(memory) Ha Hp) as [(m1 & m2 & Hm & Hm1)|[m' Hi]].
  - rewrite (insert_arg_two s.(outargs) pos x s.(memory) m1 m2 Ha (conj (Z.le_trans _ _ _ Z.le_0_1 Hpos) Hp) Hm Hm1). intros s' _. unfold argc in *.
    assert (zlen (ztake pos (args_list (outargs s)) ++ x :: zdrop pos (args_list (outargs s))) = zlen (args_list (outargs s)) + 1) as Hlen.
    { rewrite zlen_app, zlen_ztake by lia. cbn [length]. pose proof (zlen_zdrop pos (args_list (outargs s)) ltac:(lia)). lia. }
    assert (Forall (fun s => NUL ∉ s) (ztake pos (args_list (outargs s)) ++ x :: zdrop pos (args_list (outargs s)))) as Hall'.
    { apply Forall_app_2; [by apply Forall_take|]. apply Forall_cons_2; [done | by apply Forall_drop]. }
    assert (args_ok (mk_args (Some (ztake pos (args_list (outargs s)) ++ x :: zdrop pos (args_list (outargs s)))) true)) as Hok.
    { split; [by right|]. split; [|exact Hall']. cbn [args_list argv from_option id]. unfold ztake.
      destruct (Z.to_nat pos) eqn:Hz; [lia|]. destruct (args_list (outargs s)) as [|h t] eqn:Hl; [done | exact Hn]. }
    split; [exact (conj Hc (conj Hd (conj Hok Ho))) | intros _]. cbn [outargs set_memory set_outargs args_list argv from_option id]. lia.
  - rewrite Hi. intros s' _. split; [exact (conj Hc (conj Hd (conj (conj Ha (conj Hn Hall)) Ho))) | by intros H].
Qed.

Lemma insert_opts_safe k : sp k insert_opts.
Proof.
  apply spec_get. intros s Hs. pose proof Hs as (_ & _ & Ha & Ho & _). pose proof (args_ok_argc _ Ha) as Hc.
  destruct (opts s) as [o|] eqn:Hopt; [|by intros s' ->].
  eapply spec_bind; [eapply (spec_weaken _ _ _ _ _ _ (insert_arg_safe k 1 (lit "-o") _ ltac:(lia))); [by intros s' -> | intros r c H; exact H]|].
  intros r. destruct (r =? -1) eqn:Hr; [by intros s1 [Hs1 _]|]. apply Z.eqb_neq in Hr.
  eapply spec_weaken; [apply (insert_arg_safe k 2 o Ho ltac:(lia)) | intros s1 [Hs1 Hn]; specialize (Hn Hr); split; [exact Hs1 | lia] | by intros a s1 [Hs1 _]].
  Unshelve. by apply (bool_decide_unpack _).
Qed.

(** What the parser leaves: the variables with their types and arguments that are C
    strings. *)
Definition parsed (c : ctx) : Prop := typed d0 c.(data) /\ args_ok c.(outargs).

Lemma drop_separator_safe k : spec (Inv k) allowed drop_separator (fun _ => parsed).
Proof.
  apply spec_get. intros s (_ & Hd & Hok & _ & Hsep). pose proof (args_ok_argc _ Hok) as Hc. unfold argc in *.
  destruct (negb (nonopt s =? 0) && (nonopt s =? zlen (args_list (outargs s)))) eqn:Hlast; [|intros s' ->; exact (conj Hd Hok)].
  apply andb_true_iff in Hlast as [Hl1%negb_true_iff%Z.eqb_neq Hl2%Z.eqb_eq].
  assert (is_Some (zget (args_list (outargs s)) (zlen (args_list (outargs s)) - 1))) as [x Hx] by (apply zget_is_Some; lia).
  rewrite Hx. apply (spec_lift_bind _ _ _ x _ _ eq_refl). destruct (streq x (lit "--")); [|intros s' ->; exact (conj Hd Hok)].
  intros s' _. split; [exact Hd|]. destruct Hok as (Ha & Hn & Hall). split; [right|split].
  - destruct Ha as [Ha|Ha]; [|exact Ha]. unfold args_list in Hn. by rewrite Ha in Hn.
  - cbn [outargs set_outargs args_list argv from_option id]. unfold ztake. destruct (Z.to_nat _) eqn:Hz; [lia|].
    by destruct (args_list (outargs s)).
  - by apply Forall_take.
Qed.

(** Everything behind the first argument. *)
Lemma rest_safe : spec (Inv 1) allowed
  (r <-- parse_loop (Some tab) proc args (length args + 1) ;;
   if r =? -1 then pret (-1)
   else r <-- insert_opts ;; if r =? -1 then pret (-1) else drop_separator ;;; pret 0)
  (fun r c => (r = 0 \/ r = -1) /\ typed d0 c.(data) /\ (r = 0 -> parsed c)).
Proof.
  assert (forall c, Inv 0 c -> (-1 = 0 \/ -1 = -1) /\ typed d0 c.(data) /\ (-1 = 0 -> parsed c)) as Hfail.
  { intros c Hc. split_and!; [by right | apply Hc | done]. }
  eapply spec_bind; [rewrite Nat.add_1_r; apply (parse_loop_safe (length args) 1); lia|].
  intros r. destruct (r =? -1); [exact Hfail|].
  eapply spec_bind; [apply insert_opts_safe|]. intros r'. destruct (r' =? -1); [exact Hfail|].
  eapply spec_bind; [apply drop_separator_safe|]. intros []. intros s Hs. split_and!; [by left | apply Hs | done].
Qed.

Lemma opt_parse_safe rest d m : args = name :: rest -> typed d0 d ->
  match opt_parse (Some tab) proc args (mk_ctx d 0 no_args None 0 m) with
  | Ok (r, c) => (r = 0 \/ r = -1) /\ typed d0 c.(data) /\ (r = 0 -> parsed c)
  | Fail f => allowed f
  end.
Proof.
  intros Ha Hd. unfold opt_parse.
  assert ((match args with a0 :: _ => add_arg a0 | [] => pret 0 end : prog ctx Z) = add_arg name) as -> by by rewrite Ha.
  assert (NUL ∉ name) as Hn by (pose proof Hargs as Hall; rewrite Ha in Hall; by apply Forall_cons in Hall as [? _]).
  unfold add_arg, pbind at 1 2 3, pget, plift, fuse_opt_add_arg, guard_c. cbn [no_args outargs argv obind memory].
  destruct (allocates m) as [[] m1]; cbn [negb obind pput pret]; [|split_and!; [by right | done..]].
  destruct (allocates m1) as [[] m2]; cbn [negb obind pput pret]; [|split_and!; [by right | done..]].
  apply rest_safe. unfold pput. cbn. split; [cbn; lia|]. split; [done|]. split; [|split; [apply not_elem_of_nil|]].
  { by apply (conj (or_intror eq_refl)), (conj eq_refl), Forall_singleton. }
  by left.
Qed.
End safe.

(** Parsing the arguments of a program with a table that fits the variables. *)
Lemma parse_safe d tab proc name rest alloc m :
  table_ok d tab = true -> proc_ok d tab proc name -> Forall (fun a => NUL ∉ a) (name :: rest) ->
  match fuse_opt_parse (Some (mk_args (Some (name :: rest)) alloc)) d (Some tab) proc m with
  | Ok (r, a, d', _) => (r = 0 \/ r = -1) /\ typed d d' /\ exists v, Forall (fun a => NUL ∉ a) (name :: v) /\
      a = Some (mk_args (Some (name :: v)) (if r =? 0 then true else alloc)) /\ (r = -1 -> v = rest)
  | Fail f => allowed d f
  end.
Proof.
  intros Htab Hproc Hargs. pose proof (opt_parse_safe d tab proc name (name :: rest) Htab Hproc Hargs rest d m eq_refl (typed_refl d)) as H.
  unfold fuse_opt_parse. destruct (opt_parse _ _ _ _) as [[r c]|f]; [|done]. cbn [obind]. destruct H as (Hr & Hd & Hp).
  split_and!; [done.. |]. destruct Hr as [-> | ->]; cbn; [|by exists rest].
  destruct (Hp eq_refl) as (_ & Ha & Hn & Hall). destruct (outargs c) as [[[|x v]|] al]; try done. cbn in *.
  injection Hn as ->. exists v. split_and!; [done | by destruct Ha as [? | ->] | done].
Qed.

End FuseOptSafe.
