(* ===== verification/FuseCmdline.v ===== *)
(** The command line of a program on libfuse: src/fuse-3.17.2/lib/helper.c, its two
    tables of options and what it makes of them, and fuse_mnt_parse_fuse_fd of
    lib/mount_util.c.  A structure of options is its variables by offset; realpath of
    the system is a parameter. *)
From S2P Require Import Prelude.
From S2P Require Import CLib.
From S2P Require Import FuseTypes.
From S2P Require Import FuseOpt.

Module FuseCmdline.
Import FuseTypes FuseOpt.

(** ** Definitions *)

(** An int and a pointer to characters of a structure. *)
Definition get_int (d : optdata) (o : Z) : outcome Z :=
  match d !! o with Some (VInt z) => Ok z | _ => Fail UninitRead end.
Definition get_str (d : optdata) (o : Z) : outcome (option str) :=
  match d !! o with Some (VStr s) => Ok s | _ => Fail UninitRead end.

(** [fuse_opt_add_opt] on a variable of the structure. *)
Definition add_opt_at (d : optdata) (o : Z) (esc : bool) (opt : str) (m : list bool) : outcome (Z * optdata * list bool) :=
  s <- get_str d o ;;
  let '(r, s, m) := add_opt_common s opt esc m in Ok (r, <[o := VStr s]> d, m).

(** *** The options of the helper *)

(** [struct fuse_cmdline_opts], the offsets of its fields *)
Definition singlethread : Z := 0.
Definition foreground : Z := 4.
Definition debug : Z := 8.
Definition nodefault_subtype : Z := 12.
Definition mountpoint : Z := 16.
Definition show_version : Z := 24.
Definition show_help : Z := 28.
Definition clone_fd : Z := 32.
Definition max_idle_threads : Z := 36.
Definition max_threads : Z := 40.

Definition FUSE_HELPER_OPT (t : str) (p : Z) : fuse_opt := mk_opt (Some t) p 1.

Definition fuse_helper_opts : list fuse_opt := [
  FUSE_HELPER_OPT (lit "-h") show_help;
  FUSE_HELPER_OPT (lit "--help") show_help;
  FUSE_HELPER_OPT (lit "-V") show_version;
  FUSE_HELPER_OPT (lit "--version") show_version;
  FUSE_HELPER_OPT (lit "-d") debug;
  FUSE_HELPER_OPT (lit "debug") debug;
  FUSE_HELPER_OPT (lit "-d") foreground;
  FUSE_HELPER_OPT (lit "debug") foreground;
  FUSE_OPT_KEY (lit "-d") FUSE_OPT_KEY_KEEP;
  FUSE_OPT_KEY (lit "debug") FUSE_OPT_KEY_KEEP;
  FUSE_HELPER_OPT (lit "-f") foreground;
  FUSE_HELPER_OPT (lit "-s") singlethread;
  FUSE_HELPER_OPT (lit "fsname=") nodefault_subtype;
  FUSE_OPT_KEY (lit "fsname=") FUSE_OPT_KEY_KEEP;
  FUSE_HELPER_OPT (lit "subtype=") nodefault_subtype;
  FUSE_OPT_KEY (lit "subtype=") FUSE_OPT_KEY_KEEP;
  FUSE_HELPER_OPT (lit "clone_fd") clone_fd;
  FUSE_HELPER_OPT (lit "max_idle_threads=%u") max_idle_threads;
  FUSE_HELPER_OPT (lit "max_threads=%u") max_threads;
  FUSE_OPT_END
].

(** The structure after memset. *)
Definition cmdline_zero : optdata :=
  <[mountpoint := VStr None]> (list_to_map ((fun o => (o, VInt 0)) <$>
    [singlethread; foreground; debug; nodefault_subtype; show_version; show_help; clone_fd; max_idle_threads; max_threads])).

(** The number behind "/dev/fd/" when nothing else follows, -1 otherwise. *)
Definition fuse_mnt_parse_fuse_fd (mnt : str) : Z :=
  if is_prefix (lit "/dev/fd/") mnt then
    let t := skip_spaces (zdrop 8 mnt) in
    let t' := match t with b :: r => if beq b MINUS || beq b x2b then r else t | [] => t end in
    let '(_, n, rest) := digits t' 0 0 in
    match rest, scan_int 10 false t with
    | [], Some fd => if 0 <? n then i32 fd else -1
    | _, _ => -1
    end
  else -1.

(** The file name of a path; of one that ends in a slash, the slash. *)
Definition basename (progname : str) : str :=
  match find_last (fun b => bool_decide (b = x2f)) progname with
  | None => progname
  | Some i => if i + 1 <? zlen progname then zdrop (i + 1) progname else zdrop i progname
  end.

(** The basename of the program becomes the type, as it is. *)
Definition add_default_subtype (progname : str) (args : fuse_args) (m : list bool) : outcome (Z * fuse_args * list bool) :=
  let '(ok, m) := allocates m in
  if negb ok then Ok (-1, args, m)
  else fuse_opt_add_arg args (lit "-osubtype=" ++ basename progname) m.

Section cmdline.
Context (realpath : str -> option str).

(** The first argument that is no option is the mount point: there is only one. *)
Definition fuse_helper_opt_proc : fuse_opt_proc_t := fun d arg key outargs m =>
  if key =? FUSE_OPT_KEY_NONOPT then
    mp <- get_str d mountpoint ;;
    match mp with
    | None =>
        if negb (fuse_mnt_parse_fuse_fd arg =? -1) then
          let! (r, d, m) := add_opt_at d mountpoint false arg m in Ok (r, d, outargs, m)
        else
          match realpath arg with
          | None => Ok (-1, d, outargs, m)
          | Some p => let! (r, d, m) := add_opt_at d mountpoint false p m in Ok (r, d, outargs, m)
          end
    | Some _ => Ok (-1, d, outargs, m)
    end
  else Ok (1, d, outargs, m).

(** The result, the arguments that are left, the options, and the memory. *)
Definition fuse_parse_cmdline_312 (args : fuse_args) (m : list bool) : outcome (Z * fuse_args * optdata * list bool) :=
  let d := <[max_threads := VInt 10]> (<[max_idle_threads := VInt (2 ^ 32 - 1)]> cmdline_zero) in
  let! (r, a, d, m) := fuse_opt_parse (Some args) d (Some fuse_helper_opts) (Some fuse_helper_opt_proc) m in
  let a := default no_args a in
  if r =? -1 then Ok (-1, a, d, m)
  else
    nodef <- get_int d nodefault_subtype ;;
    if nodef =? 0 then
      name <- lift_fault NullDeref (head (args_list a)) ;;
      let! (r, a, m) := add_default_subtype name a m in
      Ok (if r =? -1 then -1 else 0, a, d, m)
    else Ok (0, a, d, m).

(** The older structure ends behind [max_idle_threads]. *)
Definition fuse_parse_cmdline_30 (args : fuse_args) (out : optdata) (m : list bool) : outcome (Z * fuse_args * optdata * list bool) :=
  let! (rc, a, d, m) := fuse_parse_cmdline_312 args m in
  Ok (rc, a, if rc =? 0 then filter (fun x => x.1 < max_idle_threads + 4) d ∪ out else out, m).

End cmdline.

(** *** Options of the connection *)

(** [struct fuse_conn_info_opts], the offsets of its fields *)
Definition o_atomic_o_trunc : Z := 0.
Definition o_no_remote_posix_lock : Z := 4.
Definition o_no_remote_flock : Z := 8.
Definition o_splice_write : Z := 12.
Definition o_splice_move : Z := 16.
Definition o_splice_read : Z := 20.
Definition o_no_splice_write : Z := 24.
Definition o_no_splice_move : Z := 28.
Definition o_no_splice_read : Z := 32.
Definition o_auto_inval_data : Z := 36.
Definition o_no_auto_inval_data : Z := 40.
Definition o_no_readdirplus : Z := 44.
Definition o_no_readdirplus_auto : Z := 48.
Definition o_async_dio : Z := 52.
Definition o_no_async_dio : Z := 56.
Definition o_writeback_cache : Z := 60.
Definition o_no_writeback_cache : Z := 64.
Definition o_async_read : Z := 68.
Definition o_sync_read : Z := 72.
Definition o_max_write : Z := 76.
Definition o_max_readahead : Z := 80.
Definition o_max_background : Z := 84.
Definition o_congestion_threshold : Z := 88.
Definition o_time_gran : Z := 92.
Definition o_set_max_write : Z := 96.
Definition o_set_max_readahead : Z := 100.
Definition o_set_max_background : Z := 104.
Definition o_set_congestion_threshold : Z := 108.
Definition o_set_time_gran : Z := 112.

Definition CONN_OPTION (t : str) (p v : Z) : fuse_opt := mk_opt (Some t) p v.

Definition conn_info_opt_spec : list fuse_opt := [
  CONN_OPTION (lit "max_write=%u") o_max_write 0;
  CONN_OPTION (lit "max_write=") o_set_max_write 1;
  CONN_OPTION (lit "max_readahead=%u") o_max_readahead 0;
  CONN_OPTION (lit "max_readahead=") o_set_max_readahead 1;
  CONN_OPTION (lit "max_background=%u") o_max_background 0;
  CONN_OPTION (lit "max_background=") o_set_max_background 1;
  CONN_OPTION (lit "congestion_threshold=%u") o_congestion_threshold 0;
  CONN_OPTION (lit "congestion_threshold=") o_set_congestion_threshold 1;
  CONN_OPTION (lit "sync_read") o_sync_read 1;
  CONN_OPTION (lit "async_read") o_async_read 1;
  CONN_OPTION (lit "atomic_o_trunc") o_atomic_o_trunc 1;
  CONN_OPTION (lit "no_remote_lock") o_no_remote_posix_lock 1;
  CONN_OPTION (lit "no_remote_lock") o_no_remote_flock 1;
  CONN_OPTION (lit "no_remote_flock") o_no_remote_flock 1;
  CONN_OPTION (lit "no_remote_posix_lock") o_no_remote_posix_lock 1;
  CONN_OPTION (lit "splice_write") o_splice_write 1;
  CONN_OPTION (lit "no_splice_write") o_no_splice_write 1;
  CONN_OPTION (lit "splice_move") o_splice_move 1;
  CONN_OPTION (lit "no_splice_move") o_no_splice_move 1;
  CONN_OPTION (lit "splice_read") o_splice_read 1;
  CONN_OPTION (lit "no_splice_read") o_no_splice_read 1;
  CONN_OPTION (lit "auto_inval_data") o_auto_inval_data 1;
  CONN_OPTION (lit "no_auto_inval_data") o_no_auto_inval_data 1;
  CONN_OPTION (lit "readdirplus=no") o_no_readdirplus 1;
  CONN_OPTION (lit "readdirplus=yes") o_no_readdirplus 0;
  CONN_OPTION (lit "readdirplus=yes") o_no_readdirplus_auto 1;
  CONN_OPTION (lit "readdirplus=auto") o_no_readdirplus 0;
  CONN_OPTION (lit "readdirplus=auto") o_no_readdirplus_auto 0;
  CONN_OPTION (lit "async_dio") o_async_dio 1;
  CONN_OPTION (lit "no_async_dio") o_no_async_dio 1;
  CONN_OPTION (lit "writeback_cache") o_writeback_cache 1;
  CONN_OPTION (lit "no_writeback_cache") o_no_writeback_cache 1;
  CONN_OPTION (lit "time_gran=%u") o_time_gran 0;
  CONN_OPTION (lit "time_gran=") o_set_time_gran 1;
  FUSE_OPT_END
].

(** calloc: all fields are zero. *)
Definition conn_opts_zero : optdata := list_to_map ((fun i => (4 * Z.of_nat i, VInt 0)) <$> seq 0 29).

(** [None] when memory is short or an option is wrong. *)
Definition fuse_parse_conn_info_opts (args : option fuse_args) (m : list bool) : outcome (option optdata * option fuse_args * list bool) :=
  let '(ok, m) := allocates m in
  if negb ok then Ok (None, args, m)
  else
    let! (r, args, d, m) := fuse_opt_parse args conn_opts_zero (Some conn_info_opt_spec) None m in
    Ok (if r =? -1 then None else Some d, args, m).

(** Fields of the connection. *)
Definition set_limits (mw bg ct tg ra : Z) (c : fuse_conn_info) : fuse_conn_info :=
  mk_conn_info c.(proto_major) c.(proto_minor) mw c.(max_read) ra c.(capable) c.(want) bg ct tg
    c.(max_backing_stack_depth) c.(no_interrupt) c.(capable_ext) c.(want_ext).

Definition LL_ENABLE (cond : Z) (cap want : Z) : Z := if cond =? 0 then want else Z.lor want cap.
Definition LL_DISABLE (cond : Z) (cap want : Z) : Z := if cond =? 0 then want else Z.land want (u64 (Z.lnot cap)).

(** The switches in their order: the field, the capability, and whether it is asked
    for or given up. *)
Definition conn_switches : list (Z * Z * bool) := [
  (o_splice_read, FUSE_CAP_SPLICE_READ, true);
  (o_no_splice_read, FUSE_CAP_SPLICE_READ, false);
  (o_splice_write, FUSE_CAP_SPLICE_WRITE, true);
  (o_no_splice_write, FUSE_CAP_SPLICE_WRITE, false);
  (o_splice_move, FUSE_CAP_SPLICE_MOVE, true);
  (o_no_splice_move, FUSE_CAP_SPLICE_MOVE, false);
  (o_auto_inval_data, FUSE_CAP_AUTO_INVAL_DATA, true);
  (o_no_auto_inval_data, FUSE_CAP_AUTO_INVAL_DATA, false);
  (o_no_readdirplus, FUSE_CAP_READDIRPLUS, false);
  (o_no_readdirplus_auto, FUSE_CAP_READDIRPLUS_AUTO, false);
  (o_async_dio, FUSE_CAP_ASYNC_DIO, true);
  (o_no_async_dio, FUSE_CAP_ASYNC_DIO, false);
  (o_writeback_cache, FUSE_CAP_WRITEBACK_CACHE, true);
  (o_no_writeback_cache, FUSE_CAP_WRITEBACK_CACHE, false);
  (o_async_read, FUSE_CAP_ASYNC_READ, true);
  (o_sync_read, FUSE_CAP_ASYNC_READ, false);
  (o_no_remote_posix_lock, FUSE_CAP_POSIX_LOCKS, false);
  (o_no_remote_flock, FUSE_CAP_FLOCK_LOCKS, false)
].

Definition apply_switch (opts : optdata) (want : outcome Z) (x : Z * Z * bool) : outcome Z :=
  want <- want ;;
  v <- get_int opts x.1.1 ;;
  Ok (if x.2 then LL_ENABLE v x.1.2 want else LL_DISABLE v x.1.2 want).

Definition fuse_apply_conn_info_opts (opts : optdata) (c : fuse_conn_info) : outcome fuse_conn_info :=
  let pick o_set o old := s <- get_int opts o_set ;; if s =? 0 then Ok old else get_int opts o in
  mw <- pick o_set_max_write o_max_write c.(max_write) ;;
  bg <- pick o_set_max_background o_max_background c.(max_background) ;;
  ct <- pick o_set_congestion_threshold o_congestion_threshold c.(congestion_threshold) ;;
  tg <- pick o_set_time_gran o_time_gran c.(time_gran) ;;
  ra <- pick o_set_max_readahead o_max_readahead c.(max_readahead) ;;
  want <- foldl (apply_switch opts) (Ok c.(want_ext)) conn_switches ;;
  Ok (with_want_ext (set_limits mw bg ct tg ra c) want).

End FuseCmdline.
