(* ===== verification/FuseProcess.v ===== *)
(** The process the library runs in, as its start and end see it: descriptors, the
    handlers of signals, the static variables of the library, memory, and every call of the system with its answer, which
    an environment chooses that knows all calls so far.  A call answers a number, an
    error as the negative of errno.  New descriptors are the lowest free ones, and
    closing one that is not open is kept in mind.

    Signals and the daemon: src/fuse-3.17.2/lib/fuse_signals.c, and fuse_daemonize of
    lib/helper.c as the process sees it that goes on. *)
From S2P Require Import Prelude.
From S2P Require Import CLib.
From S2P Require Import FuseTypes.
From S2P Require Import FuseOpt.

Module FuseProcess.
Import FuseTypes FuseOpt.

(** ** Definitions *)

(** What a descriptor is for. *)
Inductive file := Other | DevNull | DevFuse | CommSocket | PipeEnd.
#[global] Instance file_eq_dec : EqDecision file.
Proof. solve_decision. Defined.

(** A handler of a signal; the default action is that there is none. *)
Inductive handler := ExitHandler | DoNothing | ExitBacktrace | IntrHandler | Foreign.
#[global] Instance handler_eq_dec : EqDecision handler.
Proof. solve_decision. Defined.

Inductive syscall :=
  | SStat (path : str)
  | SLstat (path : str)
  | SAccess (path : str)
  | SOpen (path : str)
  | SClose (fd : Z)
  | SGetfd (fd : Z)
  | SSetCloexec (fd : Z)
  | SDup2 (old new : Z)
  | SPipe
  | SWrite (fd : Z)
  | SChdir (path : str)
  | SFork
  | SSetsid
  | SWaitpid (pid : Z)
  | SExec (argv : list str)
  | SSpawn (path : str) (argv : list str)
  | SSpawnp (path : str) (argv : list str)
  | SSocketpair
  | SRecvmsg (fd : Z)
  | SSigprocmask
  | SSigaction (sig : Z) (set : bool)
  | SGetuid
  | SGetgid
  | SGeteuid
  | SSetreuid (uid : Z)
  | SPoll (fd : Z)
  | SMount (source target type : str) (flags : Z) (data : option str)
  | SUmount2 (target : str) (flags : Z)
  | SDlopen (name : str)
  | SKeyCreate.

(** A module of file systems: its name, and how many file systems use it. *)
Record fuse_module := mk_module { m_name : str; m_ctr : Z }.

(** The state: open descriptors, the handlers that are set, the session the
    handlers know of (a number that stands for it), the modules, the first of
    them the one registered last, whether the builtin ones have been registered, the
    users of the key of the contexts, closes of descriptors that were not open, calls with their
    answers, the last first, and the memory to come. *)
Record process := mk_process {
  fds : gmap Z file;
  handlers : gmap Z handler;
  fuse_instance : option Z;
  fuse_modules : list fuse_module;
  builtin_modules_registered : bool;
  fuse_context_ref : Z;
  stray : list Z;
  calls : list (syscall * Z);
  heap : list bool;
}.

#[local] Abbreviation P := (prog process).

Definition set_fds (m : gmap Z file) (s : process) : process :=
  mk_process m s.(handlers) s.(fuse_instance) s.(fuse_modules) s.(builtin_modules_registered) s.(fuse_context_ref) s.(stray) s.(calls) s.(heap).
Definition set_handlers (h : gmap Z handler) (s : process) : process :=
  mk_process s.(fds) h s.(fuse_instance) s.(fuse_modules) s.(builtin_modules_registered) s.(fuse_context_ref) s.(stray) s.(calls) s.(heap).
Definition set_instance (i : option Z) (s : process) : process :=
  mk_process s.(fds) s.(handlers) i s.(fuse_modules) s.(builtin_modules_registered) s.(fuse_context_ref) s.(stray) s.(calls) s.(heap).
Definition set_modules (l : list fuse_module) (r : bool) (s : process) : process :=
  mk_process s.(fds) s.(handlers) s.(fuse_instance) l r s.(fuse_context_ref) s.(stray) s.(calls) s.(heap).
Definition set_context_ref (n : Z) (s : process) : process :=
  mk_process s.(fds) s.(handlers) s.(fuse_instance) s.(fuse_modules) s.(builtin_modules_registered) n s.(stray) s.(calls) s.(heap).
Definition set_stray (l : list Z) (s : process) : process :=
  mk_process s.(fds) s.(handlers) s.(fuse_instance) s.(fuse_modules) s.(builtin_modules_registered) s.(fuse_context_ref) l s.(calls) s.(heap).
Definition set_calls (l : list (syscall * Z)) (s : process) : process :=
  mk_process s.(fds) s.(handlers) s.(fuse_instance) s.(fuse_modules) s.(builtin_modules_registered) s.(fuse_context_ref) s.(stray) l s.(heap).
Definition set_heap (l : list bool) (s : process) : process :=
  mk_process s.(fds) s.(handlers) s.(fuse_instance) s.(fuse_modules) s.(builtin_modules_registered) s.(fuse_context_ref) s.(stray) s.(calls) l.

(** A process before libfuse does anything in it. *)
Definition process_start (d : gmap Z file) (h : gmap Z handler) (m : list bool) : process := mk_process d h None [] false 0 [] [] m.

Definition change_p (g : process -> process) : P unit := s <-- pget ;; pput (g s).

(** Memory *)
Definition alloc : P bool :=
  s <-- pget ;; let '(b, m) := allocates s.(heap) in pput (set_heap m s) ;;; pret b.

(** Code of the option parser, which takes and returns the memory. *)
Definition with_heap {A} (f : list bool -> outcome (A * list bool)) : P A :=
  s <-- pget ;; let? (a, m) := plift (f s.(heap)) in pput (set_heap m s) ;;; pret a.

(** The lowest number from [n] on that is free. *)
Fixpoint free_from (fuel : nat) (m : gmap Z file) (n : Z) : Z :=
  match fuel with
  | O => n
  | S fuel => match m !! n with None => n | Some _ => free_from fuel m (n + 1) end
  end.
Definition lowest_fd (m : gmap Z file) : Z := free_from (size m) m 0.

Section env.
Context (env : list (syscall * Z) -> syscall -> Z).

Definition sys (c : syscall) : P Z :=
  s <-- pget ;; let a := env s.(calls) c in pput (set_calls ((c, a) :: s.(calls)) s) ;;; pret a.

(** A new descriptor. *)
Definition new_fd (k : file) : P Z :=
  s <-- pget ;; let n := lowest_fd s.(fds) in pput (set_fds (<[n := k]> s.(fds)) s) ;;; pret n.

(** The descriptor, or the error. *)
Definition open (path : str) (k : file) : P Z :=
  a <-- sys (SOpen path) ;; if a <? 0 then pret a else new_fd k.

Definition close (fd : Z) : P unit :=
  _ <-- sys (SClose fd) ;;
  change_p (fun s => match s.(fds) !! fd with
                     | Some _ => set_fds (delete fd s.(fds)) s
                     | None => set_stray (fd :: s.(stray)) s
                     end).

(** Two descriptors, or the error. *)
Definition two_fds (c : syscall) (k : file) : P (Z + Z * Z) :=
  a <-- sys c ;;
  if a <? 0 then pret (inl a)
  else x <-- new_fd k ;; y <-- new_fd k ;; pret (inr (x, y)).

(** The duplicate takes the place of what was there. *)
Definition dup2 (old new : Z) : P unit :=
  a <-- sys (SDup2 old new) ;;
  if a <? 0 then pret tt
  else change_p (fun s => match s.(fds) !! old with Some k => set_fds (<[new := k]> s.(fds)) s | None => s end).
End env.

End FuseProcess.

Module FuseSignals.
Import FuseTypes FuseOpt FuseProcess.

(** ** Definitions *)

(** SIGHUP, SIGINT, SIGTERM; SIGPIPE; SIGILL, SIGTRAP, SIGABRT, SIGBUS, SIGFPE, SIGSEGV *)
Definition teardown_sigs : list Z := [1; 2; 15].
Definition ignore_sigs : list Z := [13].
Definition fail_sigs : list Z := [4; 5; 6; 7; 8; 11].

#[local] Abbreviation P := (prog process).

Section env.
Context (env : list (syscall * Z) -> syscall -> Z).
#[local] Abbreviation sys := (sys env).
#[local] Abbreviation close := (close env).

(** A handler is set where there was the default action, and only the one that is
    given is removed. *)
Definition set_one_signal_handler (sig : Z) (h : handler) (remove : bool) : P Z :=
  r <-- sys (SSigaction sig false) ;;
  if r <? 0 then pret (-1)
  else
    s <-- pget ;;
    if bool_decide (s.(handlers) !! sig = if remove then Some h else None) then
      r <-- sys (SSigaction sig true) ;;
      if r <? 0 then pret (-1)
      else
        change_p (fun s => set_handlers (if remove then delete sig s.(handlers) else <[sig := h]> s.(handlers)) s) ;;;
        pret 0
    else pret 0.

Fixpoint _fuse_set_signal_handlers (signals : list Z) (h : handler) : P Z :=
  match signals with
  | [] => pret 0
  | sig :: signals =>
      r <-- set_one_signal_handler sig h false ;;
      if r =? -1 then pret (-1) else _fuse_set_signal_handlers signals h
  end.

Definition fuse_set_signal_handlers (se : Z) : P Z :=
  rc <-- _fuse_set_signal_handlers teardown_sigs ExitHandler ;;
  if rc <? 0 then pret rc
  else
    rc <-- _fuse_set_signal_handlers ignore_sigs DoNothing ;;
    if rc <? 0 then pret rc else change_p (set_instance (Some se)) ;;; pret 0.

Definition fuse_set_fail_signal_handlers (se : Z) : P Z :=
  rc <-- _fuse_set_signal_handlers fail_sigs ExitBacktrace ;;
  if rc <? 0 then pret rc else change_p (set_instance (Some se)) ;;; pret 0.

Fixpoint _fuse_remove_signal_handlers (signals : list Z) (h : handler) : P unit :=
  match signals with
  | [] => pret tt
  | sig :: signals => _ <-- set_one_signal_handler sig h true ;; _fuse_remove_signal_handlers signals h
  end.

Definition fuse_remove_signal_handlers (se : Z) : P unit :=
  s <-- pget ;;
  (if bool_decide (s.(fuse_instance) = Some se) then change_p (set_instance None) else pret tt) ;;;
  _fuse_remove_signal_handlers teardown_sigs ExitHandler ;;;
  _fuse_remove_signal_handlers ignore_sigs DoNothing ;;;
  _fuse_remove_signal_handlers fail_sigs ExitBacktrace.

(** 0 in the process that goes on: this one with [foreground], otherwise a child;
    the parent waits for it and ends. *)
Definition fuse_daemonize (foreground : Z) : P Z :=
  if foreground =? 0 then
    p <-- two_fds env SPipe PipeEnd ;;
    match p with
    | inl _ => pret (-1)
    | inr (waiter0, waiter1) =>
        pid <-- sys SFork ;;
        if pid <? 0 then pret (-1)
        else if negb (pid =? 0) then pfail ProcessExit
        else
          r <-- sys SSetsid ;;
          if r <? 0 then pret (-1)
          else
            _ <-- sys (SChdir (lit "/")) ;;
            nullfd <-- open env (lit "/dev/null") DevNull ;;
            (if 0 <=? nullfd then
               dup2 env nullfd 0 ;;; dup2 env nullfd 1 ;;; dup2 env nullfd 2 ;;;
               (if 2 <? nullfd then close nullfd else pret tt)
             else pret tt) ;;;
            _ <-- sys (SWrite waiter1) ;;
            close waiter0 ;;; close waiter1 ;;; pret 0
    end
  else _ <-- sys (SChdir (lit "/")) ;; pret 0.
End env.

End FuseSignals.
