(* ===== verification/FuseMount.v ===== *)
(** Mounting and unmounting: src/fuse-3.17.2/lib/mount.c, the functions of
    lib/mount_util.c, and fuse_session_mount and fuse_session_unmount of
    lib/fuse_lowlevel.c.  Other programs (fusermount3, mount, umount) are part of the
    environment, and so is what realpath finds; messages are left out. *)
From S2P Require Import Prelude.
From S2P Require Import CLib.
From S2P Require Import FuseTypes.
From S2P Require Import FuseOpt.
From S2P Require Import FuseCmdline.
From S2P Require Import FuseProcess.

Module FuseMount.
Import FuseTypes FuseOpt FuseCmdline FuseProcess.

(** ** Definitions *)

(** *** The options of mounting *)

(** [struct mount_opts], the offsets of its fields *)
Definition mo_allow_other : Z := 0.
Definition mo_flags : Z := 4.
Definition mo_auto_unmount : Z := 8.
Definition mo_blkdev : Z := 12.
Definition mo_fsname : Z := 16.
Definition mo_subtype : Z := 24.
Definition mo_subtype_opt : Z := 32.
Definition mo_mtab_opts : Z := 40.
Definition mo_fusermount_opts : Z := 48.
Definition mo_kernel_opts : Z := 56.
Definition mo_max_read : Z := 64.

Definition KEY_KERN_FLAG : Z := 0.
Definition KEY_KERN_OPT : Z := 1.
Definition KEY_FUSERMOUNT_OPT : Z := 2.
Definition KEY_SUBTYPE_OPT : Z := 3.
Definition KEY_MTAB_OPT : Z := 4.
Definition KEY_ALLOW_OTHER : Z := 5.
Definition KEY_RO : Z := 6.

Definition FUSE_MOUNT_OPT (t : str) (p : Z) : fuse_opt := mk_opt (Some t) p 1.

Definition fuse_mount_opts : list fuse_opt := [
  FUSE_MOUNT_OPT (lit "allow_other") mo_allow_other;
  FUSE_MOUNT_OPT (lit "blkdev") mo_blkdev;
  FUSE_MOUNT_OPT (lit "auto_unmount") mo_auto_unmount;
  FUSE_MOUNT_OPT (lit "fsname=%s") mo_fsname;
  FUSE_MOUNT_OPT (lit "max_read=%u") mo_max_read;
  FUSE_MOUNT_OPT (lit "subtype=%s") mo_subtype;
  FUSE_OPT_KEY (lit "allow_other") KEY_KERN_OPT;
  FUSE_OPT_KEY (lit "auto_unmount") KEY_FUSERMOUNT_OPT;
  FUSE_OPT_KEY (lit "blkdev") KEY_FUSERMOUNT_OPT;
  FUSE_OPT_KEY (lit "fsname=") KEY_FUSERMOUNT_OPT;
  FUSE_OPT_KEY (lit "subtype=") KEY_SUBTYPE_OPT;
  FUSE_OPT_KEY (lit "blksize=") KEY_KERN_OPT;
  FUSE_OPT_KEY (lit "default_permissions") KEY_KERN_OPT;
  FUSE_OPT_KEY (lit "context=") KEY_KERN_OPT;
  FUSE_OPT_KEY (lit "fscontext=") KEY_KERN_OPT;
  FUSE_OPT_KEY (lit "defcontext=") KEY_KERN_OPT;
  FUSE_OPT_KEY (lit "rootcontext=") KEY_KERN_OPT;
  FUSE_OPT_KEY (lit "max_read=") KEY_KERN_OPT;
  FUSE_OPT_KEY (lit "user=") KEY_MTAB_OPT;
  FUSE_OPT_KEY (lit "-n") KEY_MTAB_OPT;
  FUSE_OPT_KEY (lit "-r") KEY_RO;
  FUSE_OPT_KEY (lit "ro") KEY_KERN_FLAG;
  FUSE_OPT_KEY (lit "rw") KEY_KERN_FLAG;
  FUSE_OPT_KEY (lit "suid") KEY_KERN_FLAG;
  FUSE_OPT_KEY (lit "nosuid") KEY_KERN_FLAG;
  FUSE_OPT_KEY (lit "dev") KEY_KERN_FLAG;
  FUSE_OPT_KEY (lit "nodev") KEY_KERN_FLAG;
  FUSE_OPT_KEY (lit "exec") KEY_KERN_FLAG;
  FUSE_OPT_KEY (lit "noexec") KEY_KERN_FLAG;
  FUSE_OPT_KEY (lit "async") KEY_KERN_FLAG;
  FUSE_OPT_KEY (lit "sync") KEY_KERN_FLAG;
  FUSE_OPT_KEY (lit "dirsync") KEY_KERN_FLAG;
  FUSE_OPT_KEY (lit "noatime") KEY_KERN_FLAG;
  FUSE_OPT_KEY (lit "nodiratime") KEY_KERN_FLAG;
  FUSE_OPT_KEY (lit "nostrictatime") KEY_KERN_FLAG;
  FUSE_OPT_KEY (lit "symfollow") KEY_KERN_FLAG;
  FUSE_OPT_KEY (lit "nosymfollow") KEY_KERN_FLAG;
  FUSE_OPT_END
].

Definition MS_RDONLY : Z := 1.
Definition MS_NOSUID : Z := 2.
Definition MS_NODEV : Z := 4.
Definition MS_NOEXEC : Z := 8.
Definition MS_SYNCHRONOUS : Z := 16.
Definition MS_DIRSYNC : Z := 128.
Definition MS_NOSYMFOLLOW : Z := 256.
Definition MS_NOATIME : Z := 1024.
Definition MS_NODIRATIME : Z := 2048.
Definition MS_RELATIME : Z := 2 ^ 21.
Definition MS_STRICTATIME : Z := 2 ^ 24.

(** [struct mount_flags] *)
Record mount_flag := mk_flag { flag_opt : str; flag : Z; flag_on : bool }.

Definition mount_flags : list mount_flag := [
  mk_flag (lit "rw") MS_RDONLY false;
  mk_flag (lit "ro") MS_RDONLY true;
  mk_flag (lit "suid") MS_NOSUID false;
  mk_flag (lit "nosuid") MS_NOSUID true;
  mk_flag (lit "dev") MS_NODEV false;
  mk_flag (lit "nodev") MS_NODEV true;
  mk_flag (lit "exec") MS_NOEXEC false;
  mk_flag (lit "noexec") MS_NOEXEC true;
  mk_flag (lit "async") MS_SYNCHRONOUS false;
  mk_flag (lit "sync") MS_SYNCHRONOUS true;
  mk_flag (lit "noatime") MS_NOATIME true;
  mk_flag (lit "nodiratime") MS_NODIRATIME true;
  mk_flag (lit "norelatime") MS_RELATIME false;
  mk_flag (lit "nostrictatime") MS_STRICTATIME false;
  mk_flag (lit "symfollow") MS_NOSYMFOLLOW false;
  mk_flag (lit "nosymfollow") MS_NOSYMFOLLOW true;
  mk_flag (lit "dirsync") MS_DIRSYNC true
].

Fixpoint find_flag (s : str) (l : list mount_flag) : option mount_flag :=
  match l with
  | [] => None
  | f :: l => if streq f.(flag_opt) s then Some f else find_flag s l
  end.

(** The process aborts when the option is not in the table. *)
Definition set_mount_flag (s : str) (flags : Z) : outcome Z :=
  match find_flag s mount_flags with
  | Some f => Ok (if f.(flag_on) then Z.lor flags f.(flag) else Z.land flags (Z.lnot f.(flag)))
  | None => Fail ProcessExit
  end.

Definition fuse_mount_opt_proc : fuse_opt_proc_t := fun d arg key outargs m =>
  let flag_set a := fl <- get_int d mo_flags ;; fl <- set_mount_flag a fl ;; Ok (0, <[mo_flags := VInt fl]> d, outargs, m) in
  let collected o esc := let! (r, d, m) := add_opt_at d o esc arg m in Ok (r, d, outargs, m) in
  if key =? KEY_RO then flag_set (lit "ro")
  else if key =? KEY_KERN_FLAG then flag_set arg
  else if key =? KEY_KERN_OPT then collected mo_kernel_opts false
  else if key =? KEY_FUSERMOUNT_OPT then collected mo_fusermount_opts true
  else if key =? KEY_SUBTYPE_OPT then collected mo_subtype_opt false
  else if key =? KEY_MTAB_OPT then collected mo_mtab_opts false
  else if (key =? FUSE_OPT_KEY_OPT) && is_prefix (lit "x-") arg then collected mo_mtab_opts false
  else Ok (1, d, outargs, m).

Definition mount_opts_zero : optdata := list_to_map
  (((fun o => (o, VInt 0)) <$> [mo_allow_other; mo_flags; mo_auto_unmount; mo_blkdev; mo_max_read]) ++
   ((fun o => (o, VStr None)) <$> [mo_fsname; mo_subtype; mo_subtype_opt; mo_mtab_opts; mo_fusermount_opts; mo_kernel_opts])).

(** [None]: a null pointer. *)
Definition parse_mount_opts (args : option fuse_args) (m : list bool) : outcome (option optdata * option fuse_args * list bool) :=
  let '(ok, m) := allocates m in
  if negb ok then Ok (None, args, m)
  else
    let mo := <[mo_flags := VInt (Z.lor MS_NOSUID MS_NODEV)]> mount_opts_zero in
    match args with
    | None => Ok (Some mo, args, m)
    | Some _ =>
        let! (r, args, mo, m) := fuse_opt_parse args mo (Some fuse_mount_opts) (Some fuse_mount_opt_proc) m in
        Ok (if r =? -1 then None else Some mo, args, m)
    end.

Definition get_max_read (mo : optdata) : outcome Z := get_int mo mo_max_read.

(** The flags that are set, as options, in the order of the table. *)
Fixpoint flag_opts (flags : Z) (l : list mount_flag) (o : option str) (m : list bool) : Z * option str * list bool :=
  match l with
  | [] => (0, o, m)
  | f :: l =>
      if f.(flag_on) && negb (Z.land flags f.(flag) =? 0) then
        let '(r, o, m) := fuse_opt_add_opt o f.(flag_opt) m in
        if r =? -1 then (-1, o, m) else flag_opts flags l o m
      else flag_opts flags l o m
  end.

Definition get_mnt_flag_opts (o : option str) (flags : Z) (m : list bool) : Z * option str * list bool :=
  let '(r, o, m) := if Z.land flags MS_RDONLY =? 0 then fuse_opt_add_opt o (lit "rw") m else (0, o, m) in
  if r =? -1 then (-1, o, m) else flag_opts flags mount_flags o m.

(** *** Numbers in text *)

Fixpoint show_digits (fuel : nat) (base n : Z) (acc : str) : str :=
  match fuel with
  | O => acc
  | S fuel =>
      let d := default NUL (Byte.of_N (Z.to_N (48 + n mod base))) in
      if n <? base then d :: acc else show_digits fuel base (n / base) (d :: acc)
  end.

(** "%u" and "%o" of a number of at most 64 bits, and "%i". *)
Definition show_u (n : Z) : str := show_digits 64 10 n [].
Definition show_o (n : Z) : str := show_digits 64 8 n [].
Definition show_i (n : Z) : str := if n <? 0 then MINUS :: show_u (- n) else show_u n.

(** *** mtab *)

Definition PATH_MOUNTED : str := lit "/etc/mtab".
Definition EROFS : Z := 30.
Definition ENODEV : Z := 19.
Definition S_IFMT : Z := 0xf000.
Definition FUSERMOUNT_PROG : str := lit "fusermount3".
Definition FUSERMOUNT_PATH : str := lit "/usr/local/bin/fusermount3".

#[local] Abbreviation P := (prog process).

Section mount.
Context (env : list (syscall * Z) -> syscall -> Z) (realpath : str -> option str).
#[local] Abbreviation sys := (sys env).
#[local] Abbreviation close := (close env).

Definition mtab_needs_update (mnt : str) : P bool :=
  if is_prefix mnt PATH_MOUNTED && bool_decide (head (zdrop (zlen mnt) PATH_MOUNTED) = Some x2f) then pret false
  else
    res <-- sys (SLstat PATH_MOUNTED) ;;
    if res <? 0 then pret (negb (res =? - ENOENT))
    else
      ruid <-- sys SGetuid ;;
      (if negb (ruid =? 0) then _ <-- sys (SSetreuid 0) ;; pret tt else pret tt) ;;;
      res <-- sys (SAccess PATH_MOUNTED) ;;
      (if negb (ruid =? 0) then _ <-- sys (SSetreuid ruid) ;; pret tt else pret tt) ;;;
      pret (negb (res =? - EROFS)).

(** A program is run in a child of its own and waited for. The status is not set
    when waiting fails. *)
Definition run_child (argv : list str) : P Z :=
  res <-- sys SSigprocmask ;;
  if res <? 0 then pret (-1)
  else
    pid <-- sys SFork ;;
    r <-- (if pid <? 0 then pret (-1)
           else
             _ <-- sys (SExec argv) ;;
             status <-- sys (SWaitpid pid) ;;
             if status <? 0 then pfail UninitRead
             else pret (if negb (status =? 0) then -1 else pid)) ;;
    _ <-- sys SSigprocmask ;;
    pret r.

Definition add_mount (fsname mnt type opts : str) : P Z :=
  run_child [lit "/bin/mount"; lit "--no-canonicalize"; lit "-i"; lit "-f"; lit "-t"; type; lit "-o"; opts; fsname; mnt].

Definition fuse_mnt_add_mount (fsname mnt type opts : str) : P Z :=
  u <-- mtab_needs_update mnt ;;
  if negb u then pret 0 else add_mount fsname mnt type opts.

Definition exec_umount (rel_mnt : str) (lazy : bool) : P Z :=
  run_child ([lit "/bin/umount"; lit "-i"; rel_mnt] ++ if lazy then [lit "-l"] else []).

Definition fuse_mnt_umount (abs_mnt rel_mnt : str) (lazy : bool) : P Z :=
  u <-- mtab_needs_update abs_mnt ;;
  if negb u then
    res <-- sys (SUmount2 rel_mnt (if lazy then 2 else 0)) ;; pret (if res <? 0 then -1 else res)
  else exec_umount rel_mnt lazy.

Definition remove_mount (mnt : str) : P Z :=
  run_child [lit "/bin/umount"; lit "--no-canonicalize"; lit "-i"; lit "--fake"; mnt].

Definition fuse_mnt_remove_mount (mnt : str) : P Z :=
  u <-- mtab_needs_update mnt ;; if negb u then pret 0 else remove_mount mnt.

(** A path without its slashes at the end, unless it is all slashes. *)
Fixpoint strip_slashes (fuel : nat) (p : str) : str :=
  match fuel with
  | O => p
  | S fuel =>
      if (1 <? zlen p) && bool_decide (last p = Some x2f) then strip_slashes fuel (ztake (zlen p - 1) p) else p
  end.

(** What realpath is asked, and the last component, which is put behind it. *)
Definition split_path (orig : str) : str * option str :=
  let copy := strip_slashes (length orig) orig in
  if bool_decide (last copy = Some x2f) then (orig, None)
  else
    let tmp := find_last (fun b => bool_decide (b = x2f)) copy in
    let lastcomp := match tmp with None => copy | Some i => zdrop (i + 1) copy end in
    if streq lastcomp (lit ".") || streq lastcomp (lit "..") then (copy, None)
    else (match tmp with None => lit "." | Some i => if i =? 0 then lit "/" else ztake i copy end, Some lastcomp).

Definition fuse_mnt_resolve_path (orig : str) : P (option str) :=
  match orig with
  | [] => pret None
  | _ =>
      copy <-- alloc ;;
      if negb copy then pret None
      else
        let '(toresolv, lastcomp) := split_path orig in
        match realpath toresolv with
        | None => pret None
        | Some buf =>
            dst <-- alloc ;;
            pret (if negb dst then None
                  else match lastcomp with
                       | None => Some buf
                       | Some c => Some (if bool_decide (last buf = Some x2f) then buf ++ c else buf ++ x2f :: c)
                       end)
        end
  end.

(** *** fusermount *)

(** 0 or the error; [wait]: whether the end of the child is waited for here. *)
Definition fusermount_posix_spawn (argv : list str) (wait : bool) : P Z :=
  status <-- sys (SSpawn FUSERMOUNT_PATH argv) ;;
  status <-- (if negb (status =? 0) then sys (SSpawnp FUSERMOUNT_PROG argv) else pret status) ;;
  if negb (status =? 0) then pret (- status)
  else if wait then _ <-- sys (SWaitpid 0) ;; pret 0 else pret 0.

Definition fuse_mount_version : P unit := _ <-- fusermount_posix_spawn [FUSERMOUNT_PROG; lit "--version"] true ;; pret tt.

(** The descriptor another process sends, or -1: at the end of the stream, for an
    error other than EINTR, or for a message of another type (2). *)
Fixpoint receive_fd (fuel : nat) (fd : Z) : P Z :=
  match fuel with O => pfail OutOfFuel | S fuel =>
    rv <-- sys (SRecvmsg fd) ;;
    if rv =? - EINTR then receive_fd fuel fd
    else if rv =? 1 then new_fd DevFuse else pret (-1)
  end.

Definition fuse_kern_unmount (mountpoint : str) (fd : Z) : P unit :=
  gone <-- (if negb (fd =? -1) then
              res <-- sys (SPoll fd) ;; close fd ;;; pret (res =? 1)
            else pret false) ;;
  if gone : bool then pret tt
  else
    euid <-- sys SGeteuid ;;
    if euid =? 0 then _ <-- fuse_mnt_umount mountpoint mountpoint true ;; pret tt
    else
      res <-- sys (SUmount2 mountpoint 2) ;;
      if res =? 0 then pret tt
      else
        _ <-- fusermount_posix_spawn [FUSERMOUNT_PROG; lit "--unmount"; lit "--quiet"; lit "--lazy"; lit "--"; mountpoint] true ;;
        pret tt.

(** The socket [fds1] stays open until the process ends. *)
Definition setup_auto_unmount (mountpoint : str) : P Z :=
  p <-- two_fds env SSocketpair CommSocket ;;
  match p with
  | inl _ => pret (-1)
  | inr (fds0, fds1) =>
      status <-- fusermount_posix_spawn [FUSERMOUNT_PROG; lit "--auto-unmount"; lit "--"; mountpoint] false ;;
      if negb (status =? 0) then close fds0 ;;; close fds1 ;;; pret (-1)
      else close fds0 ;;; pret 0
  end.

Definition fuse_mount_fusermount (fuel : nat) (mountpoint : str) (mo : optdata) (opts : option str) : P Z :=
  p <-- two_fds env SSocketpair CommSocket ;;
  match p with
  | inl _ => pret (-1)
  | inr (fds0, fds1) =>
      status <-- fusermount_posix_spawn [FUSERMOUNT_PROG; lit "-o"; default [] opts; lit "--"; mountpoint] false ;;
      if negb (status =? 0) then close fds0 ;;; close fds1 ;;; pret (-1)
      else
        close fds0 ;;;
        fd <-- receive_fd fuel fds1 ;;
        auto <-- plift (get_int mo mo_auto_unmount) ;;
        (if auto =? 0 then close fds1 ;;; _ <-- sys (SWaitpid 0) ;; pret tt else pret tt) ;;;
        (if 0 <=? fd then _ <-- sys (SSetCloexec fd) ;; pret tt else pret tt) ;;;
        pret fd
  end.

(** *** The system call *)

(** The type and the source to mount, and again for a kernel without subtypes. *)
Definition mount_type (blkdev : Z) : str := if blkdev =? 0 then lit "fuse" else lit "fuseblk".
Definition first_source (fsname subtype : option str) : str :=
  match fsname, subtype with Some f, _ => f | None, Some s => s | None, None => lit "/dev/fuse" end.
Definition second_source (blkdev : Z) (fsname : option str) (subtype : str) : str :=
  match fsname with
  | Some f => if blkdev =? 0 then subtype ++ x23 :: f else f
  | None => mount_type blkdev
  end.

Definition mount_data (fd mode uid gid : Z) : str :=
  lit "fd=" ++ show_i fd ++ lit ",rootmode=" ++ show_o (Z.land mode S_IFMT) ++ lit ",user_id=" ++ show_u uid ++ lit ",group_id=" ++ show_u gid.

(** Once the device is open: mounts, and as root keeps mtab up to date. *)
Definition mount_device (mnt : str) (mo : optdata) (mnt_opts : option str) (fd : Z) : P Z :=
  fsname <-- plift (get_str mo mo_fsname) ;;
  subtype <-- plift (get_str mo mo_subtype) ;;
  blkdev <-- plift (get_int mo mo_blkdev) ;;
  flags <-- plift (get_int mo mo_flags) ;;
  kernel_opts <-- plift (get_str mo mo_kernel_opts) ;;
  source_ok <-- alloc ;;
  type_ok <-- alloc ;;
  if negb type_ok || negb source_ok then close fd ;;; pret 0
  else
    let type := mount_type blkdev ++ match subtype with Some s => x2e :: s | None => [] end in
    let source := first_source fsname subtype in
    res <-- sys (SMount source mnt type flags kernel_opts) ;;
    let? (res, source, type) :=
      (match subtype with
       | Some s =>
           if res =? - ENODEV then
             let source := second_source blkdev fsname s in
             let type := mount_type blkdev in
             res <-- sys (SMount source mnt type flags kernel_opts) ;; pret (res, source, type)
           else pret (res, source, type)
       | None => pret (res, source, type)
       end) in
    if res <? 0 then close fd ;;; pret (if res =? - EPERM then -2 else -1)
    else
      euid <-- sys SGeteuid ;;
      if euid =? 0 then
        newmnt <-- fuse_mnt_resolve_path mnt ;;
        res <-- (match newmnt with
                 | None => pret (-1)
                 | Some n => fuse_mnt_add_mount source n type (default [] mnt_opts)
                 end) ;;
        if res =? -1 then _ <-- sys (SUmount2 mnt 2) ;; close fd ;;; pret (-1) else pret fd
      else pret fd.

(** The descriptor, -2 when fusermount may try, or -1; and the options. *)
Definition fuse_mount_sys (mnt : str) (mo : optdata) (mnt_opts : option str) : P (Z * optdata) :=
  mode <-- sys (SStat mnt) ;;
  if mode <? 0 then pret (-1, mo)
  else
    fd <-- open env (lit "/dev/fuse") DevFuse ;;
    if fd <? 0 then pret (-1, mo)
    else
      uid <-- sys SGetuid ;;
      gid <-- sys SGetgid ;;
      let? (r, mo) := with_heap (fun m => let! (r, mo, m) := add_opt_at mo mo_kernel_opts false (mount_data fd mode uid gid) m in Ok ((r, mo), m)) in
      if r =? -1 then close fd ;;; pret (-1, mo)
      else r <-- mount_device mnt mo mnt_opts fd ;; pret (r, mo).

(** An option text with one more, when there is one. *)
Definition add_text (o : option str) (t : option str) : P (Z * option str) :=
  match t with
  | None => pret (0, o)
  | Some t => with_heap (fun m => let '(r, o, m) := fuse_opt_add_opt o t m in Ok ((r, o), m))
  end.

(** fusermount is asked, with the subtype first, and then without. *)
Definition mount_unprivileged (fuel : nat) (mountpoint : str) (mo : optdata) (mnt_opts : option str) : P Z :=
  fopts <-- plift (get_str mo mo_fusermount_opts) ;;
  let? (r, mnt_opts) := add_text mnt_opts fopts in
  if r =? -1 then pret (-2)
  else
    subtype <-- plift (get_str mo mo_subtype) ;;
    match subtype with
    | Some _ =>
        sopt <-- plift (get_str mo mo_subtype_opt) ;;
        base <-- plift (lift_fault NullDeref mnt_opts) ;;
        sopt <-- plift (lift_fault NullDeref sopt) ;;
        let? (r, tmp) := add_text None (Some base) in
        if r =? -1 then pret (-1)
        else
          let? (r, tmp) := add_text tmp (Some sopt) in
          if r =? -1 then pret (-1)
          else
            res <-- fuse_mount_fusermount fuel mountpoint mo tmp ;;
            if res =? -1 then fuse_mount_fusermount fuel mountpoint mo mnt_opts else pret res
    | None => fuse_mount_fusermount fuel mountpoint mo mnt_opts
    end.

Definition fuse_kern_mount (fuel : nat) (mountpoint : str) (mo : optdata) : P (Z * optdata) :=
  flags <-- plift (get_int mo mo_flags) ;;
  let? (r, o) := with_heap (fun m => let '(r, o, m) := get_mnt_flag_opts None flags m in Ok ((r, o), m)) in
  if r =? -1 then pret (-1, mo)
  else
    kopts <-- plift (get_str mo mo_kernel_opts) ;;
    let? (r, o) := add_text o kopts in
    if r =? -1 then pret (-1, mo)
    else
      mopts <-- plift (get_str mo mo_mtab_opts) ;;
      let? (r, o) := add_text o mopts in
      if r =? -1 then pret (-1, mo)
      else
        let? (res, mo) := fuse_mount_sys mountpoint mo o in
        auto <-- plift (get_int mo mo_auto_unmount) ;;
        if (0 <=? res) && negb (auto =? 0) then
          r <-- setup_auto_unmount mountpoint ;;
          if r <? 0 then _ <-- sys (SUmount2 mountpoint 2) ;; pret (-1, mo) else pret (res, mo)
        else if res =? -2 then r <-- mount_unprivileged fuel mountpoint mo o ;; pret (r, mo)
        else pret (res, mo).

(** *** The session *)

(** The fields of [struct fuse_session] about the mount. *)
Record mounting := mk_mounting { m_fd : Z; m_point : option str; m_opts : optdata }.

(** The descriptors 0 to 2 are opened when they are not. *)
Fixpoint open_std (fuel : nat) : P unit :=
  match fuel with O => pfail OutOfFuel | S fuel =>
    fd <-- open env (lit "/dev/null") DevNull ;;
    (if 2 <? fd then close fd else pret tt) ;;;
    if (0 <=? fd) && (fd <=? 2) then open_std fuel else pret tt
  end.

Definition fuse_session_mount (fuel : nat) (se : mounting) (mountpoint : option str) : P (Z * mounting) :=
  match mountpoint with
  | None => pret (-1, se)
  | Some mnt =>
      open_std 4 ;;;
      let fd := fuse_mnt_parse_fuse_fd mnt in
      if negb (fd =? -1) then
        r <-- sys (SGetfd fd) ;;
        if r <? 0 then pret (-1, se) else pret (0, mk_mounting fd se.(m_point) se.(m_opts))
      else
        let? (fd, mo) := fuse_kern_mount fuel mnt se.(m_opts) in
        if fd =? -1 then pret (-1, mk_mounting se.(m_fd) se.(m_point) mo)
        else
          ok <-- alloc ;;
          if ok : bool then pret (0, mk_mounting fd (Some mnt) mo)
          else fuse_kern_unmount mnt fd ;;; pret (-1, mk_mounting fd se.(m_point) mo)
  end.

Definition fuse_session_unmount (se : mounting) : P mounting :=
  match se.(m_point) with
  | Some mnt => fuse_kern_unmount mnt se.(m_fd) ;;; pret (mk_mounting (-1) None se.(m_opts))
  | None => pret se
  end.

Definition fuse_open_channel (fuel : nat) (mountpoint options : str) : P Z :=
  opts <-- with_heap (fun m =>
    let! (mo, _, m) := parse_mount_opts (Some (FUSE_ARGS_INIT [[]; lit "-o"; options])) m in Ok (mo, m)) ;;
  match opts with
  | None => pret (-1)
  | Some mo => r <-- fuse_kern_mount fuel mountpoint mo ;; pret r.1
  end.
End mount.

End FuseMount.
