(* ===== verification/FuseSubdir.v ===== *)
(** The module "subdir" of libfuse (src/fuse-3.17.2/lib/modules/subdir.c): a file
    system put on top of another one, which it shows from a directory on.  Its state
    is the state of the one below with that one's private data. *)
From S2P Require Import Prelude.
From S2P Require Import CLib.
From S2P Require Import FuseTypes.
From S2P Require Import FuseBuf.
From S2P Require Import FuseFs.
From S2P Require Import FuseOpt.
From S2P Require Import FuseCmdline.

Module FuseSubdir.
Import FuseTypes FuseBuf FuseFs FuseOpt FuseCmdline.

(** ** Definitions *)

Definition SLASH : byte := x2f.

(** *** Paths and links *)

Fixpoint skip_slashes (p : str) : str :=
  match p with b :: r => if beq b SLASH then skip_slashes r else p | [] => [] end.

Fixpoint skip_name (p : str) : str :=
  match p with b :: r => if beq b SLASH then p else skip_name r | [] => [] end.

Fixpoint count_loop (fuel : nat) (p : str) (ctr : Z) : Z :=
  match fuel, p with
  | S fuel, _ :: _ => count_loop fuel (skip_slashes (skip_name p)) (ctr + 1)
  | _, _ => ctr
  end.
Definition count_components (p : str) : Z := count_loop (length p) (skip_slashes p) 0.

(** What is left of both behind the bytes they share, up to the next slash. *)
Fixpoint skip_same (s t : str) : str * str :=
  match s, t with
  | a :: s', b :: t' => if beq a b && negb (beq a SLASH) then skip_same s' t' else (s, t)
  | _, _ => (s, t)
  end.

(** Does the loop of strip_common go on? *)
Definition shared_end (s t : str) : bool :=
  match s, t with
  | a :: _, b :: _ => beq a b
  | [], b :: _ => beq b SLASH
  | a :: _, [] => beq a SLASH
  | [], [] => false
  end.

Fixpoint strip_loop (fuel : nat) (s t : str) : str * str :=
  let s := skip_slashes s in
  let t := skip_slashes t in
  let (s', t') := skip_same s t in
  match fuel with
  | S fuel => if shared_end s' t' then strip_loop fuel s' t' else (s, t)
  | O => (s, t)
  end.
Definition strip_common (s t : str) : str * str := strip_loop (length s + length t) s t.

(** [n] times "../" from an offset on *)
Fixpoint put_dotdots (n : nat) (m : list cell) (off : Z) : outcome (list cell) :=
  match n with
  | O => Ok m
  | S n => m <- mem_write m off (cells (lit "../")) ;; put_dotdots n m (off + 3)
  end.

(** [m] is the memory from the buffer on, in which the link is. *)
Definition transform_symlink (base path : str) (m : list cell) (size : Z) : outcome (list cell) :=
  link <- c_string m ;;
  if negb (is_prefix [SLASH] link) || negb (is_prefix [SLASH] base) then Ok m
  else
    let (l, path) := strip_common link path in
    if zlen link - zlen l <? zlen base then Ok m
    else
      let dotdots := count_components path in
      if dotdots =? 0 then Ok m
      else
        let dotdots := dotdots - 1 in
        if size <? dotdots * 3 + zlen l + 2 then Ok m
        else
          m <- (if negb (zlen l =? 0) then mem_write m (dotdots * 3) (cstr l)
                else if dotdots =? 0 then mem_write m 0 (cstr (lit "."))
                else mem_write m (dotdots * 3) [Byte NUL]) ;;
          put_dotdots (Z.to_nat dotdots) m 0.

(** *** The file system *)

(** The state below, and the data of the file system there. *)
Record below (A : Type) := mk_below { inner : A; next_data : Z }.
Arguments mk_below {A}.
Arguments inner {A}.
Arguments next_data {A}.

(** [struct subdir], with the operations of the file system below *)
Record subdir (S D : Type) := mk_subdir { base : str; rellinks : Z; next_op : fuse_operations S D }.
Arguments mk_subdir {S D}.
Arguments base {S D}.
Arguments rellinks {S D}.
Arguments next_op {S D}.

Section subdir.
Context {os A D : Type} `{Syscalls os}.
#[local] Abbreviation St := (fstate os A).
#[local] Abbreviation Top := (fstate os (below A)).
Context (d : subdir St D).
Implicit Types (path : cpath) (fi : fip).

(** Runs a call of the file system below. *)
Definition in_next {B} (m : fuse_fs St D -> prog St B) : prog Top B := fun s =>
  let! (b, s') := m (mk_fs d.(next_op) s.(app).(next_data)) (mk_fstate s.(bs) s.(private_data) s.(app).(inner)) in
  Ok (b, mk_fstate s'.(bs) s'.(private_data) (mk_below s'.(app) s.(app).(next_data))).

(** The path below, in memory of its own: the length is an unsigned int. *)
Definition new_path (path : str) : str :=
  let p := d.(base) ++ (if is_prefix [SLASH] path then zdrop 1 path else path) in
  match p with [] => lit "." | _ => p end.

Definition subdir_addpath (path : cpath) : prog Top (Z * cpath * mptr) :=
  match path with
  | None => pret (0, None, None)
  | Some path =>
      let newlen := u32 (zlen d.(base) + zlen path) in
      mem <-- malloc_m (u32 (newlen + 2)) ;;
      match mem with
      | None => pret (- ENOMEM, None, None)
      | Some _ =>
          let p := new_path path in
          in_bs (mem_set mem (cstr p)) ;;; pret (0, Some p, mem)
      end
  end.

(** The frame of every operation: the path below, the call, and the path freed.  The
    memory of null may be freed. *)
Definition on_path {B} (path : cpath) (dflt : B) (call : cpath -> prog Top (Z * B)) : prog Top (Z * B) :=
  let? (err, newpath, mem) := subdir_addpath path in
  if err =? 0 then r <-- call newpath ;; free_m mem ;;; pret r else pret (err, dflt).

Definition on_path0 (path : cpath) (call : cpath -> prog Top Z) : prog Top Z :=
  let? (err, _) := on_path path tt (fun p => r <-- call p ;; pret (r, tt)) in pret err.

Definition subdir_getattr path (stbuf : stat) fi : prog Top (Z * stat * fip) :=
  let? (err, (st, fi)) := on_path path (stbuf, fi) (fun p =>
    let? (r, st, fi) := in_next (fun next => fuse_fs_getattr next p stbuf fi) in pret (r, (st, fi))) in
  pret (err, st, fi).

Definition subdir_access path mask := on_path0 path (fun p => in_next (fun next => fuse_fs_access next p mask)).

(** A link is made relative to the directory it is in. *)
Definition subdir_readlink path (buf : mptr) (size : Z) : prog Top Z :=
  on_path0 path (fun p =>
    err <-- in_next (fun next => fuse_fs_readlink next p buf size) ;;
    (if (err =? 0) && negb (d.(rellinks) =? 0) then
       let? (b, o) := plift (lift_fault NullDeref buf) in
       m <-- in_bs (get_block b) ;;
       path <-- plift (lift_fault NullDeref p) ;;
       m' <-- plift (transform_symlink d.(base) path (zdrop o m) size) ;;
       in_bs (mem_set (Some (b, o)) m')
     else pret tt) ;;;
    pret err).

Definition subdir_opendir path fi := on_path path fi (fun p => in_next (fun next => fuse_fs_opendir next p fi)).

Definition subdir_readdir path (buf : D) (filler : filler_t D) (offset : Z) fi (flags : Z) : prog Top (Z * D * fip) :=
  let? (err, (buf, fi)) := on_path path (buf, fi) (fun p =>
    let? (r, buf, fi) := in_next (fun next => fuse_fs_readdir next p buf filler offset fi flags) in pret (r, (buf, fi))) in
  pret (err, buf, fi).

Definition subdir_releasedir path fi := on_path path fi (fun p => in_next (fun next => fuse_fs_releasedir next p fi)).
Definition subdir_mknod path mode rdev := on_path0 path (fun p => in_next (fun next => fuse_fs_mknod next p mode rdev)).
Definition subdir_mkdir path mode := on_path0 path (fun p => in_next (fun next => fuse_fs_mkdir next p mode)).
Definition subdir_unlink path := on_path0 path (fun p => in_next (fun next => fuse_fs_unlink next p)).
Definition subdir_rmdir path := on_path0 path (fun p => in_next (fun next => fuse_fs_rmdir next p)).
Definition subdir_symlink (from : list byte) path := on_path0 path (fun p => in_next (fun next => fuse_fs_symlink next from p)).

Definition subdir_rename (from to : cpath) (flags : Z) : prog Top Z :=
  on_path0 from (fun newfrom => on_path0 to (fun newto => in_next (fun next => fuse_fs_rename next newfrom newto flags))).
Definition subdir_link (from to : cpath) : prog Top Z :=
  on_path0 from (fun newfrom => on_path0 to (fun newto => in_next (fun next => fuse_fs_link next newfrom newto))).

Definition subdir_chmod path mode fi := on_path path fi (fun p => in_next (fun next => fuse_fs_chmod next p mode fi)).
Definition subdir_chown path uid gid fi := on_path path fi (fun p => in_next (fun next => fuse_fs_chown next p uid gid fi)).
Definition subdir_truncate path size fi := on_path path fi (fun p => in_next (fun next => fuse_fs_truncate next p size fi)).
Definition subdir_utimens path ts fi := on_path path fi (fun p => in_next (fun next => fuse_fs_utimens next p ts fi)).
Definition subdir_create path mode fi := on_path path fi (fun p => in_next (fun next => fuse_fs_create next p mode fi)).
Definition subdir_open path fi := on_path path fi (fun p => in_next (fun next => fuse_fs_open next p fi)).

Definition subdir_read_buf path (bufp : option fuse_bufvec) (size off : Z) fi : prog Top (Z * option fuse_bufvec * fip) :=
  let? (err, (bufp, fi)) := on_path path (bufp, fi) (fun p =>
    let? (r, bufp, fi) := in_next (fun next => fuse_fs_read_buf next p bufp size off fi) in pret (r, (bufp, fi))) in
  pret (err, bufp, fi).

Definition subdir_write_buf path (buf : fuse_bufvec) (off : Z) fi : prog Top (Z * fuse_bufvec * fip) :=
  let? (err, (buf, fi)) := on_path path (buf, fi) (fun p =>
    let? (r, buf, fi) := in_next (fun next => fuse_fs_write_buf next p buf off fi) in pret (r, (buf, fi))) in
  pret (err, buf, fi).

Definition subdir_statfs path (buf : statvfs) := on_path path buf (fun p => in_next (fun next => fuse_fs_statfs next p buf)).
Definition subdir_flush path fi := on_path path fi (fun p => in_next (fun next => fuse_fs_flush next p fi)).
Definition subdir_release path fi := on_path path fi (fun p => in_next (fun next => fuse_fs_release next p fi)).
Definition subdir_fsync path isdatasync fi := on_path path fi (fun p => in_next (fun next => fuse_fs_fsync next p isdatasync fi)).
Definition subdir_fsyncdir path isdatasync fi := on_path path fi (fun p => in_next (fun next => fuse_fs_fsyncdir next p isdatasync fi)).

Definition subdir_setxattr path (name : list byte) (value : mptr) (size flags : Z) :=
  on_path0 path (fun p => in_next (fun next => fuse_fs_setxattr next p name value size flags)).
Definition subdir_getxattr path (name : list byte) (value : mptr) (size : Z) :=
  on_path0 path (fun p => in_next (fun next => fuse_fs_getxattr next p name value size)).
Definition subdir_listxattr path (list : mptr) (size : Z) := on_path0 path (fun p => in_next (fun next => fuse_fs_listxattr next p list size)).
Definition subdir_removexattr path (name : list byte) := on_path0 path (fun p => in_next (fun next => fuse_fs_removexattr next p name)).

Definition subdir_lock path fi (cmd : Z) (lock : flock) : prog Top (Z * fip * flock) :=
  let? (err, (fi, lock)) := on_path path (fi, lock) (fun p =>
    let? (r, fi, lock) := in_next (fun next => fuse_fs_lock next p fi cmd lock) in pret (r, (fi, lock))) in
  pret (err, fi, lock).

Definition subdir_flock path fi o := on_path path fi (fun p => in_next (fun next => fuse_fs_flock next p fi o)).
Definition subdir_bmap path blocksize idx := on_path path idx (fun p => in_next (fun next => fuse_fs_bmap next p blocksize idx)).

(** The offset comes back through an int. *)
Definition subdir_lseek path off whence fi : prog Top (Z * fip) :=
  let? (res, fi) := on_path path fi (fun p =>
    let? (r, fi) := in_next (fun next => fuse_fs_lseek next p off whence fi) in pret (i32 r, fi)) in
  pret (res, fi).

(** The private data stays what it is; what the file system below makes of its own is
    kept. *)
Definition subdir_init (conn : fuse_conn_info) (cfg : fuse_config) : prog Top (Z * fuse_conn_info * fuse_config) :=
  s <-- pget ;;
  let self := s.(private_data) in
  let? (next, conn, cfg) := in_next (fun next => fuse_fs_init next conn cfg) in
  s <-- pget ;;
  pput (mk_fstate s.(bs) s.(private_data) (mk_below s.(app).(inner) next.(user_data))) ;;;
  pret (self, conn, cfg).

Definition subdir_destroy (data : Z) : prog Top unit := in_next (fun next => fuse_fs_destroy next).

Definition subdir_oper : fuse_operations Top D := {|
  op_getattr := Some subdir_getattr;
  op_readlink := Some subdir_readlink;
  op_mknod := Some subdir_mknod;
  op_mkdir := Some subdir_mkdir;
  op_unlink := Some subdir_unlink;
  op_rmdir := Some subdir_rmdir;
  op_symlink := Some subdir_symlink;
  op_rename := Some subdir_rename;
  op_link := Some subdir_link;
  op_chmod := Some subdir_chmod;
  op_chown := Some subdir_chown;
  op_truncate := Some subdir_truncate;
  op_open := Some subdir_open;
  op_read := None;
  op_write := None;
  op_statfs := Some subdir_statfs;
  op_flush := Some subdir_flush;
  op_release := Some subdir_release;
  op_fsync := Some subdir_fsync;
  op_setxattr := Some subdir_setxattr;
  op_getxattr := Some subdir_getxattr;
  op_listxattr := Some subdir_listxattr;
  op_removexattr := Some subdir_removexattr;
  op_opendir := Some subdir_opendir;
  op_readdir := Some subdir_readdir;
  op_releasedir := Some subdir_releasedir;
  op_fsyncdir := Some subdir_fsyncdir;
  op_init := Some subdir_init;
  op_destroy := Some subdir_destroy;
  op_access := Some subdir_access;
  op_create := Some subdir_create;
  op_lock := Some subdir_lock;
  op_utimens := Some subdir_utimens;
  op_bmap := Some subdir_bmap;
  op_ioctl := None;
  op_poll := None;
  op_write_buf := Some subdir_write_buf;
  op_read_buf := Some subdir_read_buf;
  op_flock := Some subdir_flock;
  op_fallocate := None;
  op_copy_file_range := None;
  op_lseek := Some subdir_lseek;
|}.
End subdir.

(** *** Making it *)

(** The fields of [struct subdir] that options set: [base] and [rellinks]. *)
Definition o_base : Z := 0.
Definition o_rellinks : Z := 16.

Definition subdir_opts : list fuse_opt := [
  FUSE_OPT_KEY (lit "-h") 0;
  FUSE_OPT_KEY (lit "--help") 0;
  mk_opt (Some (lit "subdir=%s")) o_base 0;
  mk_opt (Some (lit "rellinks")) o_rellinks 1;
  mk_opt (Some (lit "norellinks")) o_rellinks 0;
  FUSE_OPT_END
].

Definition subdir_opt_proc : fuse_opt_proc_t := fun d arg key outargs m =>
  if key =? 0 then Ok (-1, d, outargs, m) else Ok (1, d, outargs, m).

Definition subdir_zero : optdata := <[o_base := VStr None]> {[ o_rellinks := VInt 0 ]}.

(** The base ends in a slash unless it is empty.  [None]: a null pointer. *)
Definition subdir_new {S D : Type} (args : option fuse_args) (next : list (fuse_operations S D)) (m : list bool)
    : outcome (option (subdir S D) * option fuse_args * list bool) :=
  let '(ok, m) := allocates m in
  if negb ok then Ok (None, args, m)
  else
    let! (r, args, d, m) := fuse_opt_parse args subdir_zero (Some subdir_opts) (Some subdir_opt_proc) m in
    if r =? -1 then Ok (None, args, m)
    else
      match next with
      | [op] =>
          b <- get_str d o_base ;;
          rel <- get_int d o_rellinks ;;
          match b with
          | None => Ok (None, args, m)
          | Some b =>
              let open_end := negb (zlen b =? 0) && negb (bool_decide (last b = Some SLASH)) in
              let '(ok, m) := if open_end then allocates m else (true, m) in
              if negb ok then Ok (None, args, m)
              else
                let '(ok, m) := allocates m in
                if negb ok then Ok (None, args, m)
                else Ok (Some (mk_subdir (if open_end then b ++ [SLASH] else b) rel op), args, m)
          end
      | _ => Ok (None, args, m)
      end.

End FuseSubdir.
