(* ===== verification/HelloOper.v ===== *)
(** * The program as libfuse sees it (src/main.c, hello_oper)

    The table of handlers main passes to libfuse, with each handler's C
    signature, and what the dispatching functions of FuseFs do with it. *)
From S2P Require Import Prelude CLib Buffer Json TgFile TgStorage TgApi FuseTypes Hello.
From S2P Require Import FuseBuf FuseBufFacts FuseFs.
Import TgApi FuseTypes Hello FuseBuf FuseBufFacts FuseFs.

Module HelloOper.

Section oper.
Context {os net D : Type} `{Syscalls os} `{CurlEnv net}.
#[local] Abbreviation St := (fstate os (world net)).

(** A handler that follows its path: a null path is dereferenced. *)
Definition on_path {A} (path : cpath) (k : list byte -> prog (world net) A) : prog St A :=
  match path with
  | Some p => in_app (k p)
  | None => pfail NullDeref
  end.

Definition oper_getattr (path : cpath) (stbuf : stat) (fi : fip) : prog St (Z * stat * fip) :=
  let? (r, stbuf) := on_path path hello_getattr in pret (r, stbuf, fi).

(** The filler's own failures are carried through the loop over the names. *)
Definition carry (filler : filler_t D) (b : outcome D) (name : list byte) : Z * outcome D :=
  match b with
  | Ok d =>
    match filler d name None 0 0 with
    | Ok (r, d) => (r, Ok d)
    | Fail f => (0, Fail f)
    end
  | Fail f => (0, Fail f)
  end.

Definition oper_readdir (path : cpath) (buf : D) (filler : filler_t D) (off : Z) (fi : fip)
  (flags : Z) : prog St (Z * D * fip) :=
  let? (r, buf) := on_path path (fun p => hello_readdir p (Ok buf) (carry filler)) in
  buf <-- plift buf ;; pret (r, buf, fi).

Definition oper_open (path : cpath) (fi : fip) : prog St (Z * fip) :=
  r <-- on_path path hello_open ;; pret (r, fi).

(** The handler gets the memory behind the pointer and what it leaves there is
written back. *)
Definition oper_read (path : cpath) (buf : mptr) (size off : Z) (fi : fip) : prog St (Z * fip) :=
  m <-- in_bs (mem_get buf size) ;;
  let? (r, m) := on_path path (fun p => hello_read p m size off) in
  in_bs (mem_set buf m) ;;; pret (r, fi).

Definition oper_write (path : cpath) (buf : mptr) (size off : Z) (fi : fip) : prog St (Z * fip) :=
  m <-- in_bs (mem_get buf size) ;;
  r <-- on_path path (fun p => hello_write p m size off) ;; pret (r, fi).

Definition oper_create (path : cpath) (mode : Z) (fi : fip) : prog St (Z * fip) :=
  r <-- on_path path hello_create ;; pret (r, fi).

Definition oper_init (conn : fuse_conn_info) (cfg : fuse_config)
  : prog St (Z * fuse_conn_info * fuse_config) :=
  let (conn, cfg) := hello_init conn cfg in pret (0, conn, cfg).

Definition hello_oper : fuse_operations St D := {|
  op_init := Some oper_init;
  op_getattr := Some oper_getattr;
  op_readdir := Some oper_readdir;
  op_open := Some oper_open;
  op_read := Some oper_read;
  op_write := Some oper_write;
  op_destroy := Some (fun _ => in_app hello_destroy);
  op_create := Some oper_create;
  op_mkdir := Some (fun path _ => on_path path hello_mkdir);
  op_unlink := Some (fun path => on_path path hello_unlink);
  op_setxattr := Some (fun _ name _ size flags => in_app (hello_setxattr [] name [] size flags));
  op_utimens := Some (fun _ ts fi => r <-- in_app (hello_utimens [] ts) ;; pret (r, fi));
  op_rmdir := Some (fun path => on_path path hello_rmdir);
  op_readlink := None; op_mknod := None; op_symlink := None; op_rename := None;
  op_link := None; op_chmod := None; op_chown := None; op_truncate := None;
  op_statfs := None; op_flush := None; op_release := None; op_fsync := None;
  op_getxattr := None; op_listxattr := None; op_removexattr := None; op_opendir := None;
  op_releasedir := None; op_fsyncdir := None; op_access := None; op_lock := None;
  op_bmap := None; op_ioctl := None; op_poll := None; op_write_buf := None;
  op_read_buf := None; op_flock := None; op_fallocate := None; op_copy_file_range := None;
  op_lseek := None;
|}.

(** What main registers: no private data. *)
Definition hello_fs : fuse_fs St D := mk_fs hello_oper 0.

(** The state with the context's private data set. *)
Definition entered (s : St) : St := mk_fstate s.(bs) 0 s.(app).

Lemma set_private_run (s : St) : set_private_data 0 s = Ok (tt, entered s).
Proof. done. Qed.

Lemma in_app_run {B} (m : prog (world net) B) (s : St) b w :
  m s.(app) = Ok (b, w) -> in_app m s = Ok (b, mk_fstate s.(bs) s.(private_data) w).
Proof. intros Hm. unfold in_app. by rewrite Hm. Qed.

Lemma in_bs_run {B} (m : prog (bstate os) B) (s : St) b t :
  m s.(bs) = Ok (b, t) -> in_bs m s = Ok (b, mk_fstate t s.(private_data) s.(app)).
Proof. intros Hm. unfold in_bs. by rewrite Hm. Qed.

(** ** A block of memory of one's own *)

(** [fresh] block [k] of [m]. *)
Lemma alloc_run h (o : os) n :
  let k := fresh (dom h) in
  alloc n (mk_bstate h o) = Ok (k, mk_bstate (<[k := uninit n]> h) o) /\ h !! k = None.
Proof.
  intros k. split; [done|]. apply not_elem_of_dom. apply is_fresh.
Qed.

Lemma malloc_run (s : St) n :
  0 <= n <= malloc_max ->
  exists k, s.(bs).(heap) !! k = None /\
  malloc_m n s = Ok (Some (k, 0), mk_fstate
    (mk_bstate (<[k := uninit n]> s.(bs).(heap)) s.(bs).(sys)) s.(private_data) s.(app)).
Proof.
  intros Hn. destruct s as [[h o] d w]. cbn. exists (fresh (dom h)).
  destruct (alloc_run h o n) as [Hrun Hk]. split; [exact Hk|].
  unfold malloc_m. rewrite (proj2 (Z.ltb_ge _ _)) by lia.
  by prun (in_bs_run _ (mk_fstate (mk_bstate h o) d w) _ _ Hrun).
Qed.

Lemma free_run (s : St) k m :
  s.(bs).(heap) !! k = Some m ->
  free_m (Some (k, 0)) s = Ok (tt, mk_fstate
  (mk_bstate (delete k s.(bs).(heap)) s.(bs).(sys)) s.(private_data) s.(app)).
Proof.
  intros Hk. destruct s as [[h o] d w]. cbn in Hk. unfold free_m.
  prun_lift (eq_refl : guard_c (0 =? 0) OutOfBounds = Ok tt).
  assert (get_block k (mk_bstate h o) = Ok (m, mk_bstate h o)) as Hg.
  { unfold get_block, pbind, pget, plift. cbn. by rewrite Hk. }
  by prun (in_bs_run _ (mk_fstate (mk_bstate h o) d w) _ _ Hg).
Qed.

(** Reading and writing a whole region of plain memory. *)
Lemma region_get (s : St) k o n m :
  s.(bs).(heap) !! k = Some m -> 0 <= o -> 0 <= n -> o + n <= zlen m ->
  in_bs (mem_get (Some (k, o)) n) s = Ok (ztake n (zdrop o m), s).
Proof.
  intros Hk Ho Hn Hl. destruct s as [[h sy] d w]. cbn in Hk.
  assert (mem_get (Some (k, o)) n (mk_bstate h sy) = Ok (ztake n (zdrop o m), mk_bstate h sy)) as Hg.
  { unfold mem_get, get_block, pbind, pget, plift. cbn. rewrite Hk. cbn.
  by rewrite mem_read_in by lia. }
  exact (in_bs_run _ (mk_fstate (mk_bstate h sy) d w) _ _ Hg).
Qed.

Lemma region_set (s : St) k o m xs :
  s.(bs).(heap) !! k = Some m -> 0 <= o -> o + zlen xs <= zlen m ->
  in_bs (mem_set (Some (k, o)) xs) s = Ok (tt, mk_fstate
  (mk_bstate (<[k := splice m o xs]> s.(bs).(heap)) s.(bs).(sys)) s.(private_data) s.(app)).
Proof.
  intros Hk Ho Hl. destruct s as [[h sy] d w]. cbn in Hk.
  assert (mem_set (Some (k, o)) xs (mk_bstate h sy) =
  Ok (tt, mk_bstate (<[k := splice m o xs]> h) sy)) as Hg.
  { unfold mem_set, get_block, pbind, pget, plift, pput. cbn. rewrite Hk. cbn.
  by rewrite mem_write_in by lia. }
  exact (in_bs_run _ (mk_fstate (mk_bstate h sy) d w) _ _ Hg).
Qed.

(** ** Reads and writes through libfuse *)

(** The buffer a read makes around its block. *)
Definition one_block (n k : Z) : fuse_bufvec := mk_bufvec 1 0 0 [mk_buf n 0 (Some (k, 0)) (-1) 0 0].

(** A read: fresh memory of the size asked for, filled by the handler. *)
Lemma read_buf_made (s : St) p size off fi r m w :
  0 <= size <= INT_MAX -> hello_read p (uninit size) size off s.(app) = Ok ((r, m), w) ->
  r <= size -> zlen m = size ->
  exists k, s.(bs).(heap) !! k = None /\ fuse_fs_read_buf hello_fs (Some p) None size off fi s =
    Ok ((Z.min r 0, Some (one_block (if r <? 0 then size else r) k), fi),
        mk_fstate (mk_bstate (<[k := m]> s.(bs).(heap)) s.(bs).(sys)) 0 w).
Proof.
  intros Hsz Hread Hr Hm. unfold INT_MAX in Hsz. unfold fuse_fs_read_buf.
  cbn [hello_fs user_data op hello_oper op_read op_read_buf]. prun (set_private_run s).
  destruct (malloc_run (entered s) size) as (k & Hk & Hmal); [unfold malloc_max; lia|].
  exists k. split; [exact Hk|]. prun Hmal. set (s1 := mk_fstate _ _ _).
  assert (s1.(bs).(heap) !! k = Some (uninit size)) as Hk1 by (apply lookup_insert_eq).
  assert (oper_read (Some p) (Some (k, 0)) size off fi s1 = Ok ((r, fi),
    mk_fstate (mk_bstate (<[k := m]> s1.(bs).(heap)) s1.(bs).(sys)) 0 w)) as Hop.
  { unfold oper_read.
    prun (region_get s1 k 0 size (uninit size) Hk1 ltac:(lia) ltac:(lia) ltac:(rewrite zlen_uninit; lia)).
    rewrite zdrop_0, ztake_ge by (rewrite zlen_uninit; lia). unfold on_path.
    prun (in_app_run _ s1 _ _ Hread).
    match goal with |- pbind _ _ ?x = _ => set (s2 := x) end.
    assert (s2.(bs).(heap) !! k = Some (uninit size)) as Hk2 by exact Hk1.
    prun (region_set s2 k 0 (uninit size) m Hk2 ltac:(lia) ltac:(rewrite zlen_uninit; lia)).
    unfold pret. do 4 f_equal. unfold splice. rewrite ztake_0, zdrop_ge, app_nil_r; [done|].
    rewrite zlen_uninit; lia. }
  prun Hop. unfold s1. cbn [bs heap sys entered]. rewrite insert_insert_eq, Z.geb_leb.
  destruct (Z.ltb_spec r 0).
  - rewrite (proj2 (Z.leb_gt 0 r)), Z.min_l by lia. done.
  - rewrite (proj2 (Z.leb_le 0 r)), Z.min_r by lia. rewrite u64_small by (unfold SIZE_MAX; lia). done.
Qed.

Lemma read_buf_run (s : St) p size off fi r m w :
  0 <= size <= INT_MAX -> hello_read p (uninit size) size off s.(app) = Ok ((r, m), w) ->
  0 <= r <= size -> zlen m = size ->
  exists v s', fuse_fs_read_buf hello_fs (Some p) None size off fi s =
    Ok ((0, Some v, fi), s') /\
  flat s'.(bs).(heap) v.(FuseBuf.buf) = ztake r m /\ fuse_buf_size v = r /\
  s'.(app) = w /\ vec_wf s'.(bs).(heap) v.
Proof.
  intros Hsz Hread Hr Hm. destruct (read_buf_made s p size off fi r m w Hsz Hread ltac:(lia) Hm) as (k & _ & Hrun).
  rewrite Z.min_r, (proj2 (Z.ltb_ge r 0)) in Hrun by lia. eexists _, _. split; [exact Hrun|].
  cbn [bs heap app one_block FuseBuf.buf]. unfold INT_MAX in Hsz.
  set (h := <[k := m]> _). set (b := mk_buf r 0 (Some (k, 0)) (-1) 0 0).
  assert (h !! k = Some m) as Hh by apply lookup_insert_eq.
  assert (buf_wf h b) as Hb.
  { split; [done|]. split; [by eexists|]. split; [cbn; lia|]. split; [done|].
    exists m. split; [exact Hh|]. cbn. lia. }
  assert (flat h [b] = ztake r m) as Hf.
  { unfold flat. simpl. rewrite app_nil_r. unfold region, blk, ofs. cbn [mem FuseBuf.size b].
    rewrite Hh. done. }
  split; [exact Hf|]. split; [|split; [done|]].
  - change (size_loop [b] 1 0 = r). cbn [size_loop FuseBuf.size b].
    destruct (Z.geb_spec r (SIZE_MAX - 0)) as [Hge|]; [unfold SIZE_MAX in Hge; lia | lia].
  - split; [done|]. split; [by constructor|]. split; [cbn; lia|].
    split; [cbn [FuseBuf.buf one_block]; change (zlen (flat h [b]) < 2 ^ 63); rewrite Hf, zlen_ztake; lia|].
    split; [done|]. intros b' [= <-]. cbn. lia.
Qed.

(** Copying a vector into one fresh block. *)
Lemma flat_copy_run h (o : os) v k :
  vec_wf h v -> v.(idx) = 0 -> v.(FuseBuf.off) = 0 -> h !! k = None ->
  0 < zlen (flat h v.(FuseBuf.buf)) ->
  let d := flat h v.(FuseBuf.buf) in
  exists h2 d' v' m,
  fuse_buf_copy false (set_mem0 (FUSE_BUFVEC_INIT (zlen d)) (Some (k, 0))) v 0
    (mk_bstate (<[k := uninit (zlen d)]> h) o) = Ok ((zlen d, d', v'), mk_bstate h2 o) /\
  h2 !! k = Some m /\ ztake (zlen d) m = d /\ delete k h2 = h.
Proof.
  intros Hv Hidx Hoff Hk Hpos d. set (h1 := <[k := uninit (zlen d)]> h).
  set (b := mk_buf (zlen d) 0 (Some (k, 0)) (-1) 0 0). set (tmp := mk_bufvec 1 0 0 [b]).
  change (set_mem0 _ _) with tmp. assert (Hv' := Hv).
  destruct Hv' as (Hc & Hall & Hi & Hl & Hn & Hcur).
  assert (Forall (fun x => k <> blk x) v.(FuseBuf.buf)) as Hne.
  { eapply Forall_impl; [exact Hall|]. intros x (_ & _ & _ & _ & m & Hm & _) ->. congruence. }
  assert (flat h1 v.(FuseBuf.buf) = d) as Hf1 by (by apply flat_other).
  assert (buf_wf h1 b) as Hb.
  { split; [done|]. split; [by eexists|]. split; [cbn; lia|]. split; [done|].
  exists (uninit (zlen d)). split; [apply lookup_insert_eq|]. cbn. rewrite zlen_uninit; lia. }
  assert (flat h1 [b] = uninit (zlen d)) as Hft.
  { unfold flat. simpl. rewrite app_nil_r. unfold region, blk, ofs. cbn [mem FuseBuf.size b].
  unfold h1. rewrite lookup_insert_eq. cbn. unfold id.
  rewrite zdrop_0, ztake_ge by (rewrite zlen_uninit; lia). done. }
  assert (vec_wf h1 tmp) as Htmp.
  { split; [done|]. split; [by constructor|]. split; [cbn; lia|]. cbn [FuseBuf.buf tmp].
  rewrite Hft, zlen_uninit by lia. split; [unfold d in *; lia|]. split; [done|].
  intros b' [= <-]. cbn. lia. }
  assert (vec_wf h1 v) as Hv1.
  { split; [done|]. split; [|split; [done|rewrite Hf1; split; [done|]; by split]].
  rewrite Forall_forall in Hall, Hne. apply Forall_forall. intros x Hx.
  destruct (Hall x Hx) as (? & ? & ? & ? & m & Hm & ?). do 4 (split; [done|]).
  exists m. unfold h1. rewrite lookup_insert_ne by (by apply Hne). done. }
  assert (position h1 v = 0 /\ position h1 tmp = 0) as [Hpv Hpt].
  { unfold position. rewrite Hidx, Hoff, !ztake_0. split; [|done]. by destruct (_ <? _). }
  assert (to_copy h1 tmp v = zlen d) as Htc.
  { unfold to_copy. rewrite Hpv, Hpt, Hf1. cbn [FuseBuf.buf tmp]. rewrite Hft, zlen_uninit by lia. lia. }
  destruct (copy_loop_spec (S (length tmp.(FuseBuf.buf) + length v.(FuseBuf.buf))) h1 o tmp v 0 0 Htmp Hv1)
  as (h2 & d' & v' & Hrun & Hflat & Hother & Hw).
  { split; [apply NoDup_singleton|]. intros x y ->%list_elem_of_singleton Hy.
  rewrite Forall_forall in Hne. by apply Hne. }
  { cbn [tmp FuseBuf.buf idx]. rewrite Hidx. cbn [length]. lia. }
  { lia. }
  { rewrite Htc. unfold d. lia. }
  rewrite Htc, Hpv, Hpt, Hf1, zdrop_0, ztake_ge in Hflat by lia. cbn [FuseBuf.buf tmp] in Hflat.
  rewrite Hft in Hflat. unfold splice in Hflat. rewrite ztake_0, zdrop_ge in Hflat
  by (rewrite zlen_uninit; lia). rewrite app_nil_r in Hflat. cbn [app] in Hflat.
  apply Forall_cons in Hw as [(_ & _ & _ & _ & m & Hm & Hml) _].
  change (blk b) with k in Hm.
  exists h2, d', v', m. split; [|split; [exact Hm|split]].
  - unfold fuse_buf_copy. rewrite Hrun, Htc. by rewrite Z.add_0_l.
  - rewrite <- Hflat at 2. unfold flat. simpl. rewrite app_nil_r. unfold region, blk, ofs.
  cbn [mem FuseBuf.size b]. by rewrite Hm.
  - apply map_eq. intros j. destruct (decide (j = k)) as [->|Hj].
  + by rewrite lookup_delete_eq.
  + rewrite lookup_delete_ne by done. rewrite Hother by (by intros ?%list_elem_of_singleton). unfold h1. by rewrite lookup_insert_ne.
Qed.

(** A write of several pieces of memory reaches the handler as one. *)
Lemma write_buf_run (s : St) p v off fi r w :
  vec_wf s.(bs).(heap) v -> v.(idx) = 0 -> v.(FuseBuf.off) = 0 -> 2 <= v.(count) ->
  0 < zlen (flat s.(bs).(heap) v.(FuseBuf.buf)) <= INT_MAX ->
  hello_write p (flat s.(bs).(heap) v.(FuseBuf.buf)) (zlen (flat s.(bs).(heap) v.(FuseBuf.buf)))
  off s.(app) = Ok (r, w) ->
  exists v' s', fuse_fs_write_buf hello_fs (Some p) v off fi s = Ok ((r, v', fi), s') /\
  s'.(app) = w /\ s'.(bs).(heap) = s.(bs).(heap).
Proof.
  intros Hv Hidx Hoff Hcount Hlen Hwrite. unfold INT_MAX in Hlen.
  set (h := s.(bs).(heap)) in *. set (d := flat h v.(FuseBuf.buf)) in *.
  unfold fuse_fs_write_buf. cbn [hello_fs user_data op hello_oper op_write op_write_buf].
  prun (set_private_run s). rewrite Hidx, Hoff.
  prun_lift (eq_refl : guard_c ((0 =? 0) && (0 =? 0)) AssertFailed = Ok tt).
  rewrite (proj2 (Z.eqb_neq _ _)) by lia. rewrite (fuse_buf_size_flat h v Hv). fold d.
  unfold write_flat.
  destruct (malloc_run (entered s) (zlen d)) as (k & Hk & Hmal); [unfold malloc_max; lia|].
  cbn [entered bs] in Hk. fold h in Hk. prun Hmal. cbn [entered bs private_data app]. fold h.
  set (h1 := <[k := uninit (zlen d)]> h).
  set (tmp := set_mem0 (FUSE_BUFVEC_INIT (zlen d)) (Some (k, 0))).
  destruct (flat_copy_run h s.(bs).(sys) v k Hv Hidx Hoff Hk ltac:(fold d; lia)) as
  (h2 & d' & v' & m & Hcopy & Hm & Hmd & Hdel).
  fold d in Hcopy, Hmd. fold tmp h1 in Hcopy.
  prun (in_bs_run _ (mk_fstate (mk_bstate h1 s.(bs).(sys)) 0 s.(app)) _ _ Hcopy).
  rewrite i32_small by (unfold INT_MAX; lia). rewrite (proj2 (Z.leb_gt _ _)) by lia.
  rewrite u64_small by (unfold SIZE_MAX; lia). cbn [private_data app].
  set (s2 := mk_fstate (mk_bstate h2 s.(bs).(sys)) 0 s.(app)).
  assert (zlen d <= zlen m) as Hml.
  { rewrite <- Hmd at 1. unfold ztake. rewrite length_take. lia. }
  assert (oper_write (Some p) (Some (k, 0)) (zlen d) off fi s2 = Ok ((r, fi),
  mk_fstate (mk_bstate h2 s.(bs).(sys)) 0 w)) as Hop.
  { unfold oper_write. prun (region_get s2 k 0 (zlen d) m Hm ltac:(lia) ltac:(lia) ltac:(lia)).
  rewrite zdrop_0, Hmd. unfold on_path. by prun (in_app_run _ s2 _ _ Hwrite). }
  prun Hop.
  prun (free_run (mk_fstate (mk_bstate h2 s.(bs).(sys)) 0 w) k m Hm).
  eexists _, _. split; [reflexivity|]. split; [done|]. exact Hdel.
Qed.

(** The same for any number of pieces: one alone is passed on where it is. *)
Lemma write_vec_run (s : St) p v off fi r w :
  vec_wf s.(bs).(heap) v -> v.(idx) = 0 -> v.(FuseBuf.off) = 0 ->
  0 < zlen (flat s.(bs).(heap) v.(FuseBuf.buf)) <= INT_MAX ->
  hello_write p (flat s.(bs).(heap) v.(FuseBuf.buf)) (zlen (flat s.(bs).(heap) v.(FuseBuf.buf)))
  off s.(app) = Ok (r, w) ->
  exists v' s', fuse_fs_write_buf hello_fs (Some p) v off fi s = Ok ((r, v', fi), s') /\
  s'.(app) = w /\ s'.(bs).(heap) = s.(bs).(heap).
Proof.
  intros Hv Hidx Hoff Hlen Hwrite. destruct (Z.le_gt_cases 2 v.(count)) as [|Hcount]; [by apply write_buf_run|].
  destruct Hv as (Hc & Hall & _). destruct (v.(FuseBuf.buf)) as [|b [|b2 l]] eqn:Hbuf; cbn [length] in Hc; [|clear Hcount|lia].
  { unfold flat in Hlen. cbn in Hlen. lia. }
  apply Forall_singleton in Hall as (Hfd & [[k o] Hmem] & Hsz & Ho & m & Hm & Hml).
  assert (flat s.(bs).(heap) [b] = ztake b.(FuseBuf.size) (zdrop o m)) as Hf.
  { unfold flat. cbn [fmap list_fmap concat]. rewrite app_nil_r. unfold region. rewrite Hm. unfold ofs. by rewrite Hmem. }
  rewrite Hf in Hlen, Hwrite. unfold blk in Hm. unfold ofs in Ho, Hml. rewrite Hmem in Hm, Ho, Hml.
  assert (zlen (ztake b.(FuseBuf.size) (zdrop o m)) = b.(FuseBuf.size)) as Hd by (rewrite zlen_ztake by (rewrite zlen_zdrop by lia; lia); lia).
  rewrite Hd in Hwrite. unfold fuse_fs_write_buf. cbn [hello_fs user_data op hello_oper op_write op_write_buf].
  prun (set_private_run s). rewrite Hidx, Hoff, Hbuf. assert (v.(count) = 1) as -> by lia.
  prun_lift (eq_refl : guard_c ((0 =? 0) && (0 =? 0)) AssertFailed = Ok tt).
  change (1 =? 1) with true. cbv iota.
  prun_lift (eq_refl : lift_fault OutOfBounds (zget [b] 0) = Ok b). rewrite Hfd. cbn [negb]. rewrite Hmem.
  unfold oper_write. rewrite !pbind_assoc.
  prun (region_get (entered s) k o b.(FuseBuf.size) m Hm Ho Hsz Hml). rewrite !pbind_assoc. unfold on_path.
  prun (in_app_run _ (entered s) _ _ Hwrite). by eexists v, _.
Qed.
End oper.
End HelloOper.
