(* ===== verification/MemFs.v ===== *)
(** * The file system the program means to be

    An abstract specification of src/main.c: a map from paths to nodes held in
    memory, with no storage order, no arrays and no network.  [a_step] says what
    a call may answer and what the map becomes; [admissible] is the contract of
    the kernel's side, which looks a path up before it creates or removes it. *)
From S2P Require Import Prelude TgFile TgStorage FuseTypes Hello HelloFacts.
Import TgFile FuseTypes HelloFacts.

Module MemFs.

Inductive anode :=
  | ADir
  | AFile (data : list byte).

#[global] Instance anode_eq_dec : EqDecision anode.
Proof. solve_decision. Defined.

Abbreviation amap := (gmap (list byte) anode).

Inductive call :=
  | CGetattr (p : list byte)
  | COpen (p : list byte)
  | CReaddir (p : list byte)
  | CMkdir (p : list byte)
  | CCreate (p : list byte)
  | CUnlink (p : list byte)
  | CRmdir (p : list byte)
  | CRead (p : list byte) (size off : Z)
  | CWrite (p : list byte) (data : list byte) (off : Z).

Inductive reply :=
  | RInt (ret : Z)
  | RStat (ret : Z) (st : stat)
  | RNames (ret : Z) (names : list (list byte))
  | RData (ret : Z) (data : list byte).

(** The largest content a file may have for its size to be reported. *)
Definition MAX_CONTENT : Z := 2 ^ 62.

Definition node_stat (n : anode) : stat :=
  match n with
  | ADir => mk_stat 0 (Z.lor S_IFDIR MODE_0777) 1 0 0 0 (0, 0) (0, 0) (0, 0) 0 0 0
  | AFile d => mk_stat 0 (Z.lor S_IFREG MODE_0777) 1 0 0 (zlen d) (0, 0) (0, 0) (0, 0) 0 0 0
  end.

(** Overwriting a file's bytes from an offset inside it, or at its end. *)
Definition overwrite (c : list byte) (off : Z) (d : list byte) : list byte :=
  ztake off c ++ d ++ zdrop (off + zlen d) c.

Definition lies_in (p : list byte) (q : list byte) : Prop := q <> p /\ top_dir q = p.

#[global] Instance lies_in_dec p q : Decision (lies_in p q).
Proof. unfold lies_in. apply _. Defined.

(** The paths filed under a directory. *)
Definition children (m : amap) (p : list byte) : list (list byte) :=
  filter (lies_in p) (map_to_list m).*1.

Definition a_getattr (m : amap) (p : list byte) : Z * stat :=
  if decide (p = lit "/") then (0, root_stat)
  else match m !! p with
       | Some n => (0, node_stat n)
       | None => (- ENOENT, stat_zero)
       end.

Definition a_read (m : amap) (p : list byte) (size off : Z) : Z * list byte :=
  match m !! p with
  | None => (- ENOENT, [])
  | Some ADir => (0, [])
  | Some (AFile c) => let d := ztake size (zdrop off c) in (zlen d, d)
  end.

Definition a_step (m : amap) (c : call) (r : reply) (m' : amap) : Prop :=
  match c with
  | CGetattr p => r = RStat (a_getattr m p).1 (a_getattr m p).2 /\ m' = m
  | COpen p => r = RInt (match m !! p with Some _ => 0 | None => - ENOENT end) /\ m' = m
  | CReaddir p =>
      m' = m /\
      match m !! p with
      | Some ADir => exists names, r = RNames 0 names /\
          names ≡ₚ [lit "."; lit ".."] ++ (basename <$> children m p)
      | _ => r = RNames (- ENOENT) []
      end
  | CMkdir p => r = RInt 0 /\ m' = <[p := ADir]> m
  | CCreate p => r = RInt 0 /\ m' = <[p := AFile []]> m
  | CUnlink p =>
      r = RInt (match m !! p with Some _ => 0 | None => - ENOENT end) /\ m' = delete p m
  | CRmdir p =>
      match m !! p with
      | Some ADir => r = RInt 0 /\ m' = delete p m
      | _ => r = RInt (- ENOTDIR) /\ m' = m
      end
  | CRead p size off => r = RData (a_read m p size off).1 (a_read m p size off).2 /\ m' = m
  | CWrite p d off =>
      match m !! p with
      | Some (AFile c) => r = RInt (zlen d) /\ m' = <[p := AFile (overwrite c off d)]> m
      | _ => r = RInt (- ENOENT) /\ m' = m
      end
  end.

(** Files are created where there is none, directories are removed when they are
    empty, writes go to existing files and leave no hole. *)
Definition admissible (m : amap) (c : call) : Prop :=
  match c with
  | CGetattr p | COpen p | CReaddir p => NUL ∉ p
  | CMkdir p | CCreate p =>
      good_path p /\ m !! p = None /\ Z.of_nat (size m) * 2 + 1 <= INT_MAX
  | CUnlink p => (NUL ∉ p) /\ m !! p <> Some ADir
  | CRmdir p => (NUL ∉ p) /\ children m p = []
  | CRead p size off =>
      (NUL ∉ p) /\ 0 <= size <= INT_MAX /\ 0 <= off < MAX_CONTENT
  | CWrite p d off =>
      (NUL ∉ p) /\ 0 < zlen d <= INT_MAX /\
      match m !! p with
      | None => False
      | Some ADir => True
      | Some (AFile c) => 0 <= off <= zlen c /\ off + zlen d < MAX_CONTENT
      end
  end.

#[global] Instance admissible_dec m c : Decision (admissible m c).
Proof.
  destruct c; simpl; try apply _.
  destruct (m !! p) as [[|c]|]; apply _.
Defined.

(** What the map becomes; it does not depend on the answer. *)
Definition a_next (m : amap) (c : call) : amap :=
  match c with
  | CGetattr _ | COpen _ | CReaddir _ | CRead _ _ _ => m
  | CMkdir p => <[p := ADir]> m
  | CCreate p => <[p := AFile []]> m
  | CUnlink p => delete p m
  | CRmdir p => match m !! p with Some ADir => delete p m | _ => m end
  | CWrite p d off =>
      match m !! p with
      | Some (AFile c) => <[p := AFile (overwrite c off d)]> m
      | _ => m
      end
  end.

Lemma a_step_next m c r m' : a_step m c r m' -> m' = a_next m c.
Proof. destruct c; simpl; try tauto; destruct (m !! p) as [[|]|]; tauto. Qed.

(** Sequences of calls. *)
Fixpoint a_steps (m : amap) (cs : list call) (rs : list reply) (m' : amap) : Prop :=
  match cs with
  | [] => rs = [] /\ m' = m
  | c :: cs => exists r rs' m1, rs = r :: rs' /\ a_step m c r m1 /\ a_steps m1 cs rs' m'
  end.

Fixpoint admissible_all (m : amap) (cs : list call) : Prop :=
  match cs with
  | [] => True
  | c :: cs => admissible m c /\ admissible_all (a_next m c) cs
  end.

#[global] Instance admissible_all_dec m cs : Decision (admissible_all m cs).
Proof. revert m. induction cs as [|c cs IH]; intros m; simpl; apply _. Defined.

(** The uploads a call makes. *)
Definition uploads (c : call) : Z := match c with CWrite _ _ _ => 1 | _ => 0 end.

Fixpoint uploads_all (cs : list call) : Z :=
  match cs with [] => 0 | c :: cs => uploads c + uploads_all cs end.

Lemma zlen_overwrite c off d :
  0 <= off <= zlen c -> zlen (overwrite c off d) = zlen c `max` (off + zlen d).
Proof.
  intros Ho. unfold overwrite. rewrite !zlen_app, zlen_ztake by lia.
  destruct (Z.le_gt_cases (off + zlen d) (zlen c)).
  - rewrite zlen_zdrop by lia. lia.
  - rewrite zdrop_ge by lia. simpl. lia.
Qed.

End MemFs.
