(* ===== verification/Refine.v ===== *)
(** * The program refines the in-memory file system (src/main.c)

    [R w m] relates a state of the program, and of a Telegram server that keeps
    its contract, to a map of MemFs.  Every admissible call is answered by the
    program as the map would answer it, and ends in related states. *)
From S2P Require Import Prelude CLib Buffer Json TgFile TgStorage TgApi Telegram.
From S2P Require Import FuseTypes Hello HelloFacts MemFs.
Import Buffer TgFile TgStorage TgApi Telegram FuseTypes Hello HelloFacts MemFs.

Module Refine.

Section refine.
Context {net : Type} `{CurlEnv net} {tok chat : list byte} `{!Telegram net tok chat}.
Implicit Types (w : world net) (n : net) (fs : list tg_file).

(** The names given to the filler, in order. *)
Definition name_filler (names : list (list byte)) (name : list byte)
  : Z * list (list byte) := (0, names ++ [name]).

(** A call of libfuse on the program.  A read gets memory of the size asked for
and what it wrote there is read back. *)
Definition exec (c : call) : prog (world net) reply :=
  match c with
  | CGetattr p => let? (r, st) := hello_getattr p in pret (RStat r st)
  | COpen p => r <-- hello_open p ;; pret (RInt r)
  | CReaddir p => let? (r, names) := hello_readdir p [] name_filler in pret (RNames r names)
  | CMkdir p => r <-- hello_mkdir p ;; pret (RInt r)
  | CCreate p => r <-- hello_create p ;; pret (RInt r)
  | CUnlink p => r <-- hello_unlink p ;; pret (RInt r)
  | CRmdir p => r <-- hello_rmdir p ;; pret (RInt r)
  | CRead p size off =>
    let? (r, buf) := hello_read p (uninit size) size off in
    d <-- plift (lift_fault UninitRead (init_bytes (ztake r buf))) ;;
    pret (RData r d)
  | CWrite p d off =>
    r <-- hello_write p (cells d) (zlen d) off ;; pret (RInt r)
  end.

(** ** The relation *)

Definition mid_of (f : tg_file) : list byte := str_of f.(message_id).
Definition fid_of (f : tg_file) : list byte := str_of f.(file_id).

Definition mids (fs : list tg_file) : list (list byte) :=
  filter (fun m => m <> []) (mid_of <$> fs).

(** What the server stores for a file. *)
Definition content (n : net) (f : tg_file) : list byte :=
  if decide (fid_of f = []) then []
  else match tg_files n !! fid_of f with Some (_, d) => d | None => [] end.

Definition node_of (n : net) (f : tg_file) : anode :=
  match f.(type) with TG_DIR => ADir | TG_FILE => AFile (content n f) end.

(** A file is either new and empty, or the server has its bytes. *)
Definition file_inv (n : net) (f : tg_file) : Prop :=
  (fid_of f = [] /\ mid_of f = [] /\ f.(file_size) = 0) \/
  (f.(type) = TG_FILE /\ fid_of f <> [] /\ mid_of f <> [] /\
  exists d, tg_files n !! fid_of f = Some (mid_of f, d) /\ f.(file_size) = zlen d /\
   0 < zlen d < MAX_CONTENT).

Definition abs (n : net) (fs : list tg_file) : amap :=
  list_to_map ((fun f => (path_of f, node_of n f)) <$> fs).

Definition net_of (w : world net) : net := w.(tg_api).(network).

Definition holds (w : world net) (fs : list tg_file) : Prop :=
  rep w.(storage) fs /\ config_strings w.(config) tok chat /\
  json_wf w.(tg_api).(json_response_buf) /\ Forall (file_inv (net_of w)) fs /\
  NoDup (path_of <$> fs) /\ NoDup (mids fs).

(** [q] uploads can still be made. *)
Definition R (q : Z) (w : world net) (m : amap) : Prop :=
  exists fs, holds w fs /\ m = abs (net_of w) fs /\ q <= tg_quota (net_of w).

(** ** Looking up *)

Lemma abs_lookup n fs p : abs n fs !! p = node_of n ∘ snd <$> lookup_path p fs.
Proof.
  unfold abs, lookup_path. induction fs as [|f fs IH]; [done|].
  cbn. destruct (decide (path_of f = p)) as [->|Hne].
  - by rewrite lookup_insert_eq.
  - rewrite lookup_insert_ne, IH by done.
  by destruct (list_find _ fs) as [[k g]|].
Qed.

Lemma lookup_path_node n fs p k f :
  lookup_path p fs = Some (k, f) -> abs n fs !! p = Some (node_of n f).
Proof. intros Hk. by rewrite abs_lookup, Hk. Qed.

Lemma abs_None n fs p : abs n fs !! p = None <-> lookup_path p fs = None.
Proof. rewrite abs_lookup. by destruct (lookup_path p fs) as [[k f]|]. Qed.

Lemma abs_keys n fs :
  NoDup (path_of <$> fs) -> (map_to_list (abs n fs)).*1 ≡ₚ path_of <$> fs.
Proof.
  intros Hnd. unfold abs. rewrite map_to_list_to_map.
  - by rewrite <- list_fmap_compose.
  - by rewrite <- list_fmap_compose.
Qed.

Lemma abs_perm n fs fs' :
  NoDup (path_of <$> fs) -> fs ≡ₚ fs' -> abs n fs = abs n fs'.
Proof.
  intros Hnd Hp. unfold abs. apply list_to_map_proper.
  - by rewrite <- list_fmap_compose.
  - by rewrite Hp.
Qed.

Lemma abs_cons n f fs : abs n (f :: fs) = <[path_of f := node_of n f]> (abs n fs).
Proof. done. Qed.

Lemma size_abs n fs : NoDup (path_of <$> fs) -> base.size (abs n fs) = length fs.
Proof.
  intros Hnd. rewrite <- length_map_to_list, <- (length_fmap fst), abs_keys by done.
  apply length_fmap.
Qed.

Lemma abs_snoc n fs f :
  lookup_path (path_of f) fs = None -> NoDup (path_of <$> fs) ->
  abs n (fs ++ [f]) = <[path_of f := node_of n f]> (abs n fs) /\
  NoDup (path_of <$> (fs ++ [f])).
Proof.
  intros Hk Hnd.
  assert (NoDup (path_of <$> (f :: fs))) as Hnd'.
  { cbn. apply NoDup_cons. split; [|done]. intros Hin.
  apply list_elem_of_fmap in Hin as (g & Hg & Hin).
  apply lookup_path_None in Hk. rewrite Forall_forall in Hk. by eapply Hk. }
  split.
  - rewrite <- abs_cons. symmetry. apply abs_perm; [done|]. apply Permutation_cons_append.
  - eapply NoDup_Permutation_proper; [|exact Hnd'].
  by rewrite <- (Permutation_cons_append fs f).
Qed.

(** Removing the file with a path removes its binding and nothing else. *)
Lemma abs_swap_remove n fs k f :
  NoDup (path_of <$> fs) -> fs !! k = Some f ->
  abs n (swap_remove k fs) = delete (path_of f) (abs n fs) /\
  NoDup (path_of <$> swap_remove k fs) /\
  (path_of f ∉ path_of <$> swap_remove k fs).
Proof.
  intros Hnd Hk. pose proof (swap_remove_perm k f fs Hk) as Hp.
  assert (NoDup (path_of <$> (f :: swap_remove k fs))) as Hnd'.
  { eapply NoDup_Permutation_proper; [|exact Hnd]. by rewrite <- Hp. }
  rewrite (abs_perm n fs (f :: swap_remove k fs)) by done.
  cbn in Hnd'. apply NoDup_cons in Hnd' as [Hnot Hnd'].
  split; [|done]. rewrite abs_cons, delete_insert_eq, delete_id; [done|].
  apply abs_None, lookup_path_None. rewrite Forall_forall. intros g Hg He.
  apply Hnot. rewrite <- He. by apply list_elem_of_fmap_2.
Qed.

Lemma mids_perm fs fs' : fs ≡ₚ fs' -> mids fs ≡ₚ mids fs'.
Proof. intros Hp. unfold mids. by rewrite Hp. Qed.

Lemma mids_cons f fs :
  mids (f :: fs) = if decide (mid_of f = []) then mids fs else mid_of f :: mids fs.
Proof.
  unfold mids. cbn. destruct (decide (mid_of f = [])) as [He|He].
  - rewrite decide_False; [done|]. intros Hn. by apply Hn.
  - by rewrite decide_True.
Qed.

Lemma mids_swap_remove fs k f :
  NoDup (mids fs) -> fs !! k = Some f ->
  NoDup (mids (swap_remove k fs)) /\
  (mid_of f <> [] -> mid_of f ∉ mids (swap_remove k fs)).
Proof.
  intros Hnd Hk. pose proof (mids_perm _ _ (swap_remove_perm k f fs Hk)) as Hp.
  assert (NoDup (mids (f :: swap_remove k fs))) as Hnd' by (by rewrite <- Hp).
  rewrite mids_cons in Hnd'. destruct (decide (mid_of f = [])); [by split|].
  apply NoDup_cons in Hnd' as [??]. done.
Qed.

Lemma not_in_mids fs g mid : mid ∉ mids fs -> g ∈ fs -> mid <> [] -> mid_of g <> mid.
Proof.
  intros Hn Hg Hne He. apply Hn. unfold mids. apply list_elem_of_filter.
  split; [done|]. rewrite <- He. by apply list_elem_of_fmap_2.
Qed.

(** ** When the server changes *)

Lemma kept_inv n n' mid g :
  kept (tg_files n) (tg_files n') mid -> file_inv n g -> mid_of g <> mid \/ mid_of g = [] ->
  file_inv n' g /\ node_of n' g = node_of n g.
Proof.
  intros Hk [(Hf & Hm & Hs) | (Ht & Hf & Hm & d & Hd & Hs & Hl)] Hne.
  - split; [by left|]. unfold node_of, content. by rewrite !decide_True by done.
  - assert (tg_files n' !! fid_of g = Some (mid_of g, d)) as Hd'.
  { apply Hk; [done|]. tauto. }
  split; [right; by eauto 10|]. unfold node_of, content. rewrite Ht, !decide_False by done.
  by rewrite Hd, Hd'.
Qed.

Lemma kept_all n n' mid fs :
  kept (tg_files n) (tg_files n') mid -> Forall (file_inv n) fs ->
  (forall g, g ∈ fs -> mid_of g <> mid \/ mid_of g = []) ->
  Forall (file_inv n') fs /\ abs n' fs = abs n fs.
Proof.
  intros Hk Hinv Hne. rewrite Forall_forall in Hinv. split.
  - apply Forall_forall. intros g Hg. eapply kept_inv; eauto.
  - unfold abs. f_equal. apply list_fmap_ext. intros i g Hg.
  apply list_elem_of_lookup_2 in Hg. f_equal. eapply kept_inv; eauto.
Qed.

(** ** Calls that only read the table *)

Lemma file_inv_stat n f :
  file_inv n f -> stat_of f = node_stat (node_of n f).
Proof.
  intros [(Hf & Hm & Hs) | (Ht & Hf & Hm & d & Hd & Hs & Hl)];
  unfold stat_of, node_of, content.
  - destruct (type f); simpl; [|done]. rewrite decide_True, Hs by done. done.
  - rewrite Ht, decide_False, Hd by done. simpl. rewrite Hs. f_equal.
  apply swrap_small; unfold MAX_CONTENT in *; lia.
Qed.

Lemma holds_file w fs k f : holds w fs -> fs !! k = Some f -> file_wf f /\ file_inv (net_of w) f.
Proof.
  intros (Hrep & _ & _ & Hinv & _) Hk. pose proof (rep_wf _ _ Hrep) as Hwf.
  rewrite Forall_lookup in Hwf, Hinv. eauto.
Qed.

Lemma is_dir_node w fs p :
  is_dir_at p fs = match abs (net_of w) fs !! p with Some ADir => true | _ => false end.
Proof.
  unfold is_dir_at. rewrite abs_lookup. destruct (lookup_path p fs) as [[k f]|]; [|done].
  simpl. unfold node_of. by destruct (type f).
Qed.

Lemma sim_getattr w fs p :
  holds w fs -> NUL ∉ p ->
  exec (CGetattr p) w =
  Ok (RStat (a_getattr (abs (net_of w) fs) p).1 (a_getattr (abs (net_of w) fs) p).2, w).
Proof.
  intros Hh Hp. assert (Hh' := Hh). destruct Hh' as (Hrep & _).
  unfold exec. prun (getattr_spec w fs p Hrep Hp). unfold a_getattr, pret.
  destruct (decide (p = lit "/")); [done|]. rewrite abs_lookup.
  destruct (lookup_path p fs) as [[k f]|] eqn:Hk; [|done]. simpl.
  apply lookup_path_in in Hk. destruct (holds_file _ _ _ _ Hh Hk) as [_ Hinv].
  by rewrite (file_inv_stat _ _ Hinv).
Qed.

Lemma sim_open w fs p :
  holds w fs -> NUL ∉ p ->
  exec (COpen p) w =
  Ok (RInt (match abs (net_of w) fs !! p with Some _ => 0 | None => - ENOENT end), w).
Proof.
  intros (Hrep & _) Hp. unfold exec. prun (open_spec w fs p Hrep Hp). rewrite abs_lookup.
  by destruct (lookup_path p fs) as [[k f]|].
Qed.

Lemma fill_names names acc : fill name_filler acc names = acc ++ names.
Proof.
  unfold fill. revert acc.
  induction names as [|x l IH]; intros acc; simpl; [by rewrite app_nil_r|].
  rewrite IH. by rewrite <- app_assoc.
Qed.

Lemma children_abs n fs p :
  NoDup (path_of <$> fs) ->
  basename <$> children (abs n fs) p ≡ₚ dir_names p fs.
Proof.
  intros Hnd. unfold children, dir_names. rewrite (abs_keys n fs Hnd).
  clear Hnd. induction fs as [|f fs IH]; [done|]. cbn.
  destruct (decide (in_dir p f)) as [Hd|Hd].
  - rewrite decide_True by exact Hd. cbn. by f_equiv.
  - by rewrite decide_False by exact Hd.
Qed.

Lemma sim_readdir w fs p :
  holds w fs -> NUL ∉ p ->
  exists r, exec (CReaddir p) w = Ok (r, w) /\
  a_step (abs (net_of w) fs) (CReaddir p) r (abs (net_of w) fs).
Proof.
  intros (Hrep & _ & _ & _ & Hnd & _) Hp.
  pose proof (readdir_spec name_filler w fs p [] Hrep Hp) as Hrun.
  rewrite (is_dir_node w), fill_names in Hrun. simpl (a_step _ _ _ _).
  destruct (abs (net_of w) fs !! p) as [[|d]|].
  - eexists. split; [unfold exec; by prun Hrun|]. split; [done|].
  eexists. split; [done|]. by rewrite (children_abs _ _ _ Hnd).
  - eexists. split; [unfold exec; by prun Hrun | done].
  - eexists. split; [unfold exec; by prun Hrun | done].
Qed.

(** ** Calls that add to the table *)

Lemma holds_snoc w fs f st :
  holds w fs -> rep st (fs ++ [f]) -> file_inv (net_of w) f -> mid_of f = [] ->
  lookup_path (path_of f) fs = None ->
  holds (mk_world st w.(config) w.(tg_api)) (fs ++ [f]) /\
  abs (net_of w) (fs ++ [f]) = <[path_of f := node_of (net_of w) f]> (abs (net_of w) fs).
Proof.
  intros (Hrep & Hc & Hj & Hinv & Hnd & Hm) Hr Hf Hmid Hk.
  destruct (abs_snoc (net_of w) fs f Hk Hnd) as [Habs Hnd']. split; [|done].
  split; [done|]. split; [done|]. split; [done|]. split; [|split; [done|]].
  - apply Forall_app. split; [done|]. by constructor.
  - rewrite (mids_perm _ (f :: fs)) by (symmetry; apply Permutation_cons_append).
  rewrite mids_cons. by rewrite decide_True.
Qed.

Lemma sim_mkdir w fs p q :
  holds w fs -> q <= tg_quota (net_of w) -> admissible (abs (net_of w) fs) (CMkdir p) ->
  exists w', exec (CMkdir p) w = Ok (RInt 0, w') /\
  R q w' (<[p := ADir]> (abs (net_of w) fs)).
Proof.
  intros Hh Hq (Hp & Hnone & Hsize). assert (Hh' := Hh).
  destruct Hh' as (Hrep & _ & _ & _ & Hnd & _). rewrite size_abs in Hsize by done.
  destruct (mkdir_spec w fs p Hrep Hp Hsize) as (d & st & Hrun & Hd & Hr).
  destruct (new_dir_spec p Hp) as (d' & Hd' & _ & Hpath & Ht & Hs & Hi & Hm).
  rewrite Hd in Hd'. injection Hd' as <-. apply abs_None in Hnone.
  destruct (holds_snoc w fs d st Hh Hr) as [Hh2 Habs];
  [by left | done | by rewrite Hpath |].
  eexists. split; [unfold exec; by prun Hrun|]. eexists. split; [exact Hh2|].
  split; [|exact Hq].
  change (<[p := ADir]> (abs (net_of w) fs) = abs (net_of w) (fs ++ [d])).
  rewrite Habs, Hpath. unfold node_of. by rewrite Ht.
Qed.

Lemma sim_create w fs p q :
  holds w fs -> q <= tg_quota (net_of w) -> admissible (abs (net_of w) fs) (CCreate p) ->
  exists w', exec (CCreate p) w = Ok (RInt 0, w') /\
  R q w' (<[p := AFile []]> (abs (net_of w) fs)).
Proof.
  intros Hh Hq (Hp & Hnone & Hsize). assert (Hh' := Hh).
  destruct Hh' as (Hrep & _ & _ & _ & Hnd & _). rewrite size_abs in Hsize by done.
  pose proof (create_spec w fs p Hrep Hp Hsize) as Hcr.
  rewrite (is_dir_node w), Hnone in Hcr. destruct Hcr as (f & st & Hrun & Hf & Hr).
  destruct (new_file_spec p 0 Hp ltac:(unfold SIZE_MAX; lia))
  as (f' & Hf' & _ & Hpath & Ht & Hs & Hi & Hm).
  rewrite Hf in Hf'. injection Hf' as <-. apply abs_None in Hnone.
  destruct (holds_snoc w fs f st Hh Hr) as [Hh2 Habs];
  [by left | done | by rewrite Hpath |].
  eexists. split; [unfold exec; by prun Hrun|]. eexists. split; [exact Hh2|].
  split; [|exact Hq].
  change (<[p := AFile []]> (abs (net_of w) fs) = abs (net_of w) (fs ++ [f])).
  rewrite Habs, Hpath. unfold node_of, content, fid_of. by rewrite Ht, Hi.
Qed.

(** ** Calls that remove *)

Lemma remove_path_run w fs p target :
  rep w.(storage) fs -> c_string target = Ok p ->
  match lookup_path p fs with
  | Some (k, f) => exists st, rep st (swap_remove k fs) /\
    remove_path target w = Ok (f, mk_world st w.(config) w.(tg_api))
  | None => remove_path target w = Ok (tg_file_zero, mk_world w.(storage) w.(config) w.(tg_api))
  end.
Proof.
  intros Hrep Hs. pose proof (remove_rep w.(storage) fs Hrep target p Hs) as Hr.
  unfold remove_path. destruct (lookup_path p fs) as [[k f]|].
  - destruct Hr as (st & Hr & Hrep'). exists st. split; [done|].
  prun_get. by prun_lift Hr.
  - prun_get. by prun_lift Hr.
Qed.

Lemma in_api_run {A} (m : prog (api net) A) w a s' :
  m w.(tg_api) = Ok (a, s') ->
  in_api m w = Ok (a, mk_world w.(storage) w.(config) s').
Proof. intros Hm. unfold in_api. by rewrite Hm. Qed.

(** Deleting the message of a file that is no longer in the table leaves the
other files alone. *)
Lemma remove_message_run w fs f :
  holds w fs -> file_wf f -> (mid_of f <> [] -> mid_of f ∉ mids fs) ->
  exists s, tg_remove_message_with_file w.(config) f w.(tg_api) = Ok (0, s) /\
  holds (mk_world w.(storage) w.(config) s) fs /\
  abs s.(network) fs = abs (net_of w) fs /\ tg_quota (net_of w) <= tg_quota s.(network).
Proof.
  intros (Hrep & Hc & Hj & Hinv & Hnd & Hm) Hwf Hmid.
  destruct (wf_msg f Hwf) as [mid Hmsg].
  assert (mid_of f = mid) as <- by (by apply id_array_str).
  destruct (tg_handle (net_of w)) as (Hi & _).
  destruct (tg_delete (net_of w) (mid_of f)) as (n' & resp & Hp & Hresp & Hk & Hqt).
  destruct (Telegram.delete_message_run w.(tg_api) f w.(config) tok chat Hc Hj n' resp _
  Hi Hmsg Hp Hresp) as (j & Hrun & Hj').
  exists (mk_api j n'). split; [done|].
  destruct (kept_all (net_of w) n' (mid_of f) fs Hk Hinv) as [Hinv' Habs].
  { intros g Hg. destruct (decide (mid_of f = [])) as [He|He].
  - rewrite He. destruct (decide (mid_of g = [])); [by right | by left].
  - left. eapply not_in_mids; [by apply Hmid | done | done]. }
  split; [|done]. by split_and!.
Qed.

Lemma sim_unlink w fs p q :
  holds w fs -> q <= tg_quota (net_of w) -> NUL ∉ p ->
  exists w', exec (CUnlink p) w =
  Ok (RInt (match abs (net_of w) fs !! p with Some _ => 0 | None => - ENOENT end), w') /\
  R q w' (delete p (abs (net_of w) fs)).
Proof.
  intros Hh Hq Hp. assert (Hh' := Hh). destruct Hh' as (Hrep & Hc & Hj & Hinv & Hnd & Hm).
  pose proof (remove_path_run w fs p (cstr p) Hrep (c_string_cstr p Hp)) as Hrem.
  destruct (lookup_path p fs) as [[k f]|] eqn:Hk.
  - destruct Hrem as (st & Hst & Hrun). rewrite (lookup_path_node _ _ _ _ _ Hk).
  apply lookup_path_Some in Hk as (Hk & <- & _).
  destruct (holds_file _ _ _ _ Hh Hk) as [Hwf Hif].
  destruct (abs_swap_remove (net_of w) fs k f Hnd Hk) as (Habs & Hnd' & _).
  destruct (mids_swap_remove fs k f Hm Hk) as [Hm' Hmid].
  assert (holds (mk_world st w.(config) w.(tg_api)) (swap_remove k fs)) as Hh2.
  { split_and!; try done. pose proof (swap_remove_perm k f fs Hk) as Hpm.
    change (net_of (mk_world st w.(config) w.(tg_api))) with (net_of w).
    rewrite Hpm in Hinv. by apply Forall_cons in Hinv as [_ ?]. }
  destruct (remove_message_run _ _ f Hh2 Hwf Hmid) as (s & Hmsg & Hh3 & Habs3 & Hq3).
  destruct (wf_path_of f Hwf) as [Hps (Hhd & _ & _)].
  assert (strlen (TgFile.path f) = Ok (zlen (path_of f))) as Hlen
    by (unfold strlen; by rewrite Hps).
  exists (mk_world st w.(config) s). split.
  + unfold exec, hello_unlink. rewrite !pbind_assoc. prun Hrun. rewrite pbind_assoc.
    prun_lift Hlen. rewrite (proj2 (Z.eqb_neq _ _)) by (destruct (path_of f); simpl; done || lia).
    rewrite pbind_assoc. prun_get. rewrite pbind_assoc. by prun (in_api_run _ _ _ _ Hmsg).
  + exists (swap_remove k fs). split; [done|]. split; [by rewrite <- Habs|].
    etrans; [exact Hq | exact Hq3].
  - rewrite (proj2 (abs_None _ _ _)) by done.
  exists (mk_world w.(storage) w.(config) w.(tg_api)). split.
  + unfold exec, hello_unlink. rewrite pbind_assoc. prun Hrem. done.
  + exists fs. rewrite delete_id by (by apply abs_None). by destruct w.
Qed.
(** ** Reading a file *)

Lemma file_ids f : file_wf f -> id_array f.(file_id) (fid_of f) /\
  id_array f.(message_id) (mid_of f).
Proof.
  intros [_ _ (u & Hu) (v & Hv) _]. unfold fid_of, mid_of.
  by rewrite (id_array_str _ _ Hu), (id_array_str _ _ Hv).
Qed.

Lemma strlen_id a (x : list byte) : id_array a x -> strlen a = Ok (zlen x).
Proof. intros Ha. unfold strlen. by rewrite (id_array_string _ _ Ha). Qed.

(** The network changes, and the files stay where they were. *)
Lemma holds_net w fs s :
  holds w fs -> json_wf s.(json_response_buf) ->
  tg_files s.(network) = tg_files (net_of w) ->
  holds (mk_world w.(storage) w.(config) s) fs /\
  abs s.(network) fs = abs (net_of w) fs.
Proof.
  intros (Hrep & Hc & Hj & Hinv & Hnd & Hm) Hj' Hn. split.
  - split_and!; try done. change (net_of _) with s.(network).
  unfold file_inv in *. by rewrite Hn.
  - unfold abs. f_equal. apply list_fmap_ext. intros i g _.
  unfold node_of, content. by rewrite Hn.
Qed.

(** Loading the contents of a file the server has. *)
Lemma load_run w fs f d :
  holds w fs -> file_wf f -> tg_files (net_of w) !! fid_of f = Some (mid_of f, d) ->
  zlen d < MAX_CONTENT ->
  exists b s, in_api (tg_file_load_contents w.(config) f) w =
    Ok (b, mk_world w.(storage) w.(config) s) /\
  json_wf s.(json_response_buf) /\ buffer_wf b /\ contents b = cells d /\
  tg_files s.(network) = tg_files (net_of w) /\
  tg_quota (net_of w) <= tg_quota s.(network).
Proof.
  intros (Hrep & Hc & Hj & Hinv & Hnd & Hm) Hwf Hd Hl.
  destruct (tg_handle (net_of w)) as (Hi & _).
  destruct (tg_get (net_of w) _ _ _ Hd) as
  (n1 & resp & fp & n2 & chunks & Hp1 & Hok & Hfp & Hg & Hp2 & Hcat & Hfs & Hacc).
  destruct (load_contents_ok w.(tg_api) f w.(config) tok chat Hc n1 resp fp n2 chunks
  (fid_of f) Hi (proj1 (file_ids f Hwf)) Hp1 Hok Hfp Hg Hp2) as (j & b & Hrun & Hj' & Hb & Hcon).
  { rewrite Hcat. unfold MAX_CONTENT, malloc_max in *. lia. }
  exists b, (mk_api j n2). split; [by apply in_api_run|]. rewrite Hcat in Hcon. done.
Qed.

Lemma ztake_cells k d : ztake k (cells d) = cells (ztake k d).
Proof. unfold ztake, cells. by rewrite fmap_take. Qed.

Lemma zdrop_cells k d : zdrop k (cells d) = cells (zdrop k d).
Proof. unfold zdrop, cells. by rewrite fmap_drop. Qed.

(** What the copy of a read puts into the caller's memory. *)
Lemma read_back d b size off :
  buffer_wf b -> contents b = cells d -> 0 <= off < zlen d -> 0 <= size <= INT_MAX ->
  zlen d < MAX_CONTENT ->
  let n := if u64 (off + size) >? zlen d then u64 (zlen d - off) else size in
  exists xs buf, ptr_read b.(ptr) off n = Ok xs /\ mem_write (uninit size) 0 xs = Ok buf /\
  i32 n = zlen (ztake size (zdrop off d)) /\
  init_bytes (ztake (i32 n) buf) = Some (ztake size (zdrop off d)).
Proof.
  intros (m & Hp & Hm & Hs & Hcap & _) Hcon Ho Hsz Hl n.
  unfold contents in Hcon. rewrite Hp in Hcon.
  assert (b.(Buffer.size) = zlen d) as Hbs.
  { rewrite <- zlen_cells, <- Hcon, zlen_ztake; lia. }
  assert (ztake n (zdrop off d) = ztake size (zdrop off d) /\ 0 <= n <= size /\
  off + n <= zlen d) as (Hn & Hn' & Hn'').
  { unfold n, MAX_CONTENT, INT_MAX in *. rewrite !u64_small by (unfold SIZE_MAX; lia).
  destruct (Z.gtb_spec (off + size) (zlen d)); [|split; [done | lia]].
  rewrite !ztake_ge by (rewrite zlen_zdrop; lia). split; [done | lia]. }
  clearbody n. rewrite <- Hn. exists (cells (ztake n (zdrop off d))).
  assert (zlen (ztake n (zdrop off d)) = n) as Hlen.
  { rewrite zlen_ztake; [done|]. rewrite zlen_zdrop; lia. }
  assert (m = cells d ++ zdrop b.(Buffer.size) m) as Hmd.
  { by rewrite <- Hcon, ztake_zdrop. }
  exists (splice (uninit size) 0 (cells (ztake n (zdrop off d)))). split.
  { rewrite Hp, ptr_read_in by lia. rewrite Hmd.
  rewrite zdrop_app_le, ztake_app_le by (rewrite ?zlen_zdrop; rewrite zlen_cells; lia).
  by rewrite zdrop_cells, ztake_cells. }
  rewrite mem_write_in by (rewrite ?zlen_cells, ?zlen_uninit; lia). split; [done|].
  rewrite i32_small by lia. split; [done|].
  unfold splice. rewrite ztake_0. cbn [app].
  rewrite ztake_app_exact by (by rewrite zlen_cells). apply init_bytes_cells.
Qed.

(** The bytes of a file, by the map. *)
Lemma node_file n f :
  file_inv n f -> f.(type) = TG_FILE ->
  exists d, node_of n f = AFile d /\ 0 <= zlen d < MAX_CONTENT /\ f.(file_size) = zlen d /\
  ((fid_of f = [] /\ mid_of f = [] /\ d = []) \/
   (fid_of f <> [] /\ mid_of f <> [] /\ d <> [] /\
    tg_files n !! fid_of f = Some (mid_of f, d))).
Proof.
  intros Hinv Ht. unfold node_of, content. rewrite Ht.
  destruct Hinv as [(Hf & Hm & Hs) | (_ & Hf & Hm & d & Hd & Hs & Hl)].
  - exists []. rewrite decide_True by done. split; [done|]. split; [done|].
  split; [done|]. by left.
  - exists d. rewrite decide_False, Hd by done. split; [done|]. split; [lia|].
  split; [done|]. right. split_and!; try done. intros ->. simpl in Hl. lia.
Qed.

Lemma node_dir n f : f.(type) = TG_DIR -> node_of n f = ADir.
Proof. unfold node_of. by intros ->. Qed.

Lemma sim_read w fs p size off q :
  holds w fs -> q <= tg_quota (net_of w) -> admissible (abs (net_of w) fs) (CRead p size off) ->
  exists w', exec (CRead p size off) w =
    Ok (RData (a_read (abs (net_of w) fs) p size off).1
          (a_read (abs (net_of w) fs) p size off).2, w') /\
  R q w' (abs (net_of w) fs).
Proof.
  intros Hh Hq (Hp & Hsz & Hoff). assert (Hh' := Hh). destruct Hh' as (Hrep & _).
  unfold exec, hello_read, a_read. rewrite pbind_assoc.
  prun (find_path_rep w fs p Hrep Hp). rewrite abs_lookup.
  destruct (lookup_path p fs) as [[k f]|] eqn:Hk.
  2: { exists w. split; [done|]. by exists fs. }
  cbn [fmap option_fmap option_map compose snd]. apply lookup_path_in in Hk.
  destruct (holds_file _ _ _ _ Hh Hk) as [Hwf Hinv].
  rewrite pbind_assoc. prun (deref_rep w fs k f Hrep Hk).
  rewrite pbind_assoc. prun_lift (strlen_id _ _ (proj1 (file_ids f Hwf))).
  destruct (type f) eqn:Ht.
  2: { destruct Hinv as [(Hf & _) | (Ht' & _)]; [|congruence].
     rewrite Hf, (node_dir _ _ Ht). exists w. split; [done | by exists fs]. }
  destruct (node_file _ _ Hinv Ht) as (d & -> & Hd & Hfs & Hcase).
  destruct Hcase as [(Hf & Hm & ->) | (Hf & Hm & Hne & Hlk)].
  { rewrite Hf. exists w. split; [|by exists fs].
  unfold zdrop, ztake. by rewrite drop_nil, take_nil. }
  assert (0 < zlen d) as Hpos by (destruct d; [done | simpl; lia]).
  rewrite (proj2 (Z.eqb_neq (zlen (fid_of f)) 0))
  by (destruct (fid_of f); [done | simpl; lia]).
  destruct (load_run w fs f d Hh Hwf Hlk) as (b & s & Hrun & Hj & Hb & Hcon & Htf & Hqt); [lia|].
  destruct (holds_net w fs s Hh Hj Htf) as [Hh2 Habs].
  exists (mk_world w.(storage) w.(config) s). split.
  2: { exists fs. split; [done|]. split; [done|]. etrans; [exact Hq | exact Hqt]. }
  rewrite pbind_assoc. prun_get. rewrite pbind_assoc. prun Hrun.
  assert (b.(Buffer.size) = zlen d) as ->
  by (by rewrite <- zlen_contents, Hcon, zlen_cells by done).
  rewrite (proj2 (Z.eqb_neq _ _)) by lia.
  assert (i64 (zlen d) = zlen d) as ->
  by (apply swrap_small; unfold MAX_CONTENT in *; lia).
  destruct (Z.ltb_spec off (zlen d)) as [Hlt|Hge].
  - destruct (read_back d b size off Hb Hcon ltac:(lia) Hsz ltac:(lia))
    as (xs & buf & Hr & Hw & Hn & Hi).
  rewrite pbind_assoc. prun_lift Hr. rewrite pbind_assoc. prun_lift Hw.
  unfold pret at 1, pbind at 1. cbn [obind].
  rewrite Hi. rewrite Hn. done.
  - rewrite zdrop_ge by lia.
  assert (ztake size (@nil byte) = []) as -> by (unfold ztake; apply take_nil). done.
Qed.

(** ** Writing a file *)

Lemma store_run w fs k f f' :
  rep w.(storage) fs -> fs !! k = Some f -> file_wf f' ->
  exists st, store (Z.of_nat k) f' w = Ok (tt, mk_world st w.(config) w.(tg_api)) /\
  rep st (<[k := f']> fs).
Proof.
  intros (rest & Hf & Hcap & Hpos & Hs & Hwf) Hk Hf'.
  assert (k < length fs)%nat as Hlt by (by eapply lookup_lt_Some).
  eexists. split.
  - unfold store. prun_get. unfold set_slot. rewrite Hf. cbn [lift_fault obind].
  rewrite zget_nat, lookup_app_l by (by rewrite length_fmap).
  rewrite list_lookup_fmap, Hk. done.
  - exists rest. cbn [files size cap]. rewrite length_insert. split_and!; try (done || lia).
  + rewrite Nat2Z.id, insert_app_l by (by rewrite length_fmap). by rewrite list_fmap_insert.
  + by apply Forall_insert.
Qed.

Lemma insert_perm fs k f f' :
  fs !! k = Some f -> fs ≡ₚ f :: delete k fs /\ <[k := f']> fs ≡ₚ f' :: delete k fs.
Proof.
  intros Hk. split; [by apply delete_Permutation|].
  assert (k < length fs)%nat as Hlt by (by eapply lookup_lt_Some).
  rewrite insert_take_drop, delete_take_drop by done. solve_Permutation.
Qed.

(** Replacing a file by one with the same path, while the server changes what
belongs to its message. *)
Lemma holds_replace w fs k f f' st s :
  holds w fs -> fs !! k = Some f -> rep st (<[k := f']> fs) ->
  json_wf s.(json_response_buf) -> path_of f' = path_of f ->
  kept (tg_files (net_of w)) (tg_files s.(network)) (mid_of f') ->
  file_inv s.(network) f' ->
  (forall g, g ∈ delete k fs -> mid_of g <> mid_of f' \/ mid_of g = []) ->
  holds (mk_world st w.(config) s) (<[k := f']> fs) /\
  abs s.(network) (<[k := f']> fs) =
  <[path_of f := node_of s.(network) f']> (abs (net_of w) fs).
Proof.
  intros (Hrep & Hc & Hj & Hinv & Hnd & Hm) Hk Hst Hjs Hpath Hkept Hf' Hfresh.
  destruct (insert_perm fs k f f' Hk) as [Hp Hp'].
  set (rest := delete k fs) in *.
  assert (NoDup (path_of <$> (f :: rest))) as Hnd1
  by (eapply NoDup_Permutation_proper; [by rewrite <- Hp | done]).
  assert (NoDup (path_of <$> (f' :: rest))) as Hnd' by (cbn in *; by rewrite Hpath).
  assert (NoDup (mids (f :: rest))) as Hm1 by (by rewrite <- (mids_perm _ _ Hp)).
  rewrite Hp in Hinv. apply Forall_cons in Hinv as [_ Hinv].
  destruct (kept_all (net_of w) s.(network) (mid_of f') rest Hkept Hinv Hfresh)
  as [Hinv' Habs].
  split.
  - split; [done|]. split; [done|]. split; [done|]. split; [|split].
  + rewrite Hp'. by constructor.
  + eapply NoDup_Permutation_proper; [by rewrite Hp' | done].
  + rewrite (mids_perm _ _ Hp'), mids_cons.
    assert (NoDup (mids rest)) as Hmr.
    { rewrite mids_cons in Hm1. destruct (decide (mid_of f = [])); [done|].
      by apply NoDup_cons in Hm1 as [_ ?]. }
    destruct (decide (mid_of f' = [])) as [|Hne]; [done|].
    apply NoDup_cons. split; [|done]. unfold mids. intros Hin.
    apply list_elem_of_filter in Hin as [_ Hin].
    apply list_elem_of_fmap in Hin as (g & Hg & Hin).
    destruct (Hfresh g Hin) as [?|He]; congruence.
  - rewrite (abs_perm s.(network) _ (f' :: rest)); [|by rewrite Hp'| done].
  rewrite (abs_perm (net_of w) fs (f :: rest)) by done.
  rewrite !abs_cons, Habs, Hpath. by rewrite insert_insert_eq.
Qed.

(** Uploading a content: the file gets identifiers under which the server has
it, and no other message changes. *)
Lemma put_run w fs k f b c :
  holds w fs -> fs !! k = Some f -> f.(type) = TG_FILE -> 0 < tg_quota (net_of w) ->
  buffer_wf b -> contents b = cells c ->
  exists f' s, in_api (tg_put_file f w.(config) b) w =
    Ok (f', mk_world w.(storage) w.(config) s) /\
  json_wf s.(json_response_buf) /\ file_wf f' /\ path_of f' = path_of f /\
  f'.(type) = TG_FILE /\ fid_of f' <> [] /\ mid_of f' <> [] /\
  tg_files s.(network) !! fid_of f' = Some (mid_of f', c) /\
  kept (tg_files (net_of w)) (tg_files s.(network)) (mid_of f') /\
  (forall g, g ∈ delete k fs -> mid_of g <> mid_of f' \/ mid_of g = []) /\
  tg_quota (net_of w) - 1 <= tg_quota s.(network).
Proof.
  intros Hh Hk Ht Hacc Hb Hcon. destruct (holds_file _ _ _ _ Hh Hk) as [Hwf Hinv].
  destruct Hh as (Hrep & Hc & Hj & Hall & Hnd & Hm).
  destruct (file_ids f Hwf) as [Hfid Hmid].
  pose proof (tg_put_file_run w.(tg_api) f w.(config) b (fid_of f)
  (tg_handle (net_of w)) Hb Hwf Hfid) as Hput. cbv zeta in Hput. rewrite Hcon in Hput.
  destruct (insert_perm fs k f f Hk) as [Hp _].
  assert (Forall (file_inv (net_of w)) (delete k fs)) as Hrest.
  { rewrite Hp in Hall. by apply Forall_cons in Hall as [_ ?]. }
  destruct (node_file _ _ Hinv Ht) as (d & _ & _ & _ & [(Hf0 & Hm0 & _) | (Hf & Hmne & _ & Hd)]).
  - rewrite decide_True in Hput by done. rewrite Hf0 in Hfid. rewrite Hm0 in Hmid.
  destruct (tg_send (net_of w) (top_dir (path_of f)) (basename (path_of f)) c Hacc) as
    (n' & resp & fid & mid & Hperf & Hok & Hff & Hmf & Hgf & Hgm & Hnew & Hfresh & Hfs & Hqt).
  destruct (put_new_ok w.(tg_api) f w.(config) tok chat _ Hc Hwf Hj n' CURLE_OK resp fid mid
    Hfid Hmid Hperf Hok Hff Hmf Hgf Hgm) as (j & f' & Hrun & Hj' & Hif & Him & Hpa & Hty & Hsz).
  rewrite Hrun in Hput. exists f', (mk_api j n'). split; [by apply in_api_run|].
  assert (fid_of f' = fid) as Hfid' by (by apply id_array_str).
  assert (mid_of f' = mid) as Hmid' by (by apply id_array_str).
  rewrite Hfid', Hmid'. split; [done|].
  split. { destruct Hwf. split; rewrite ?Hpa, ?Hsz; eauto. }
  unfold path_of. rewrite Hpa, Hty. cbn [network]. rewrite Hfs, lookup_insert_eq.
  split_and!; try done; try apply Hgf; try apply Hgm.
  + intros g m e Hg Hne. rewrite lookup_insert_ne; [done|]. intros ->.
    rewrite Hnew in Hg. discriminate.
  + intros g Hg. rewrite Forall_forall in Hrest.
    destruct (Hrest g Hg) as [(_ & ? & _) | (_ & _ & _ & e & He & _)]; [by right|].
    left. intros Heq. by eapply Hfresh.
  - rewrite decide_False in Hput by done.
  destruct (tg_edit (net_of w) (mid_of f) (fid_of f) d (top_dir (path_of f))
    (basename (path_of f)) c Hacc Hd) as (n' & resp & fid & Hperf & Hok & Hff & Hgf & Hfs & Hkept & Hqt).
  destruct (put_edit_ok w.(tg_api) f w.(config) tok chat _ Hc Hwf Hj n' resp fid (mid_of f)
    Hmid Hperf Hok Hff Hgf) as (j & f' & Hrun & Hj' & Hif & Him & Hpa & Hty & Hsz).
  rewrite Hrun in Hput. exists f', (mk_api j n'). split; [by apply in_api_run|].
  assert (fid_of f' = fid) as Hfid' by (by apply id_array_str).
  assert (mid_of f' = mid_of f) as Hmid' by (unfold mid_of; by rewrite Him).
  rewrite Hfid', Hmid'. split; [done|].
  split. { destruct Hwf. split; rewrite ?Hpa, ?Hsz, ?Him; eauto. }
  unfold path_of. rewrite Hpa, Hty. cbn [network].
  split_and!; try done; [apply Hgf|].
  intros g Hg. destruct (decide (mid_of g = [])) as [|Hgne]; [by right|]. left.
  assert (NoDup (mids (f :: delete k fs))) as Hm1 by (by rewrite <- (mids_perm _ _ Hp)).
  rewrite mids_cons, decide_False in Hm1 by done.
  apply NoDup_cons in Hm1 as [Hnot _]. by eapply not_in_mids.
Qed.

Lemma cells_overwrite c off d :
  0 <= off <= zlen c -> write_at (cells c) off (cells d) = cells (overwrite c off d).
Proof.
  intros Ho. rewrite write_at_inside by (by rewrite zlen_cells).
  unfold overwrite. by rewrite !cells_app, <- ztake_cells, <- zdrop_cells, zlen_cells.
Qed.

(** The buffer a write starts from: the contents of the file, if any. *)
Lemma write_base w fs k f c :
  holds w fs -> fs !! k = Some f -> f.(type) = TG_FILE -> node_of (net_of w) f = AFile c ->
  exists b s, (if f.(file_size) >? 0
    then in_api (tg_file_load_contents w.(config) f)
    else pret buffer_new) w = Ok (b, mk_world w.(storage) w.(config) s) /\
  buffer_wf b /\ contents b = cells c /\
  holds (mk_world w.(storage) w.(config) s) fs /\
  abs s.(network) fs = abs (net_of w) fs /\
  tg_quota (net_of w) <= tg_quota s.(network).
Proof.
  intros Hh Hk Ht Hc. destruct (holds_file _ _ _ _ Hh Hk) as [Hwf Hinv].
  destruct (node_file _ _ Hinv Ht) as (d & Hd & Hl & Hs & Hcase).
  rewrite Hd in Hc. injection Hc as ->. rewrite Hs.
  destruct Hcase as [(_ & _ & ->) | (_ & _ & Hne & Hlk)].
  - exists buffer_new, w.(tg_api). split; [by destruct w|].
  split; [apply buffer_new_wf|]. split; [done|]. split; [by destruct w | done].
  - destruct (Z.gtb_spec (zlen c) 0); [|destruct c; [done | simpl in *; lia]].
  destruct (load_run w fs f c Hh Hwf Hlk) as (b & s & Hrun & Hj & Hb & Hcon & Htf & Ha);
    [lia|].
  destruct (holds_net w fs s Hh Hj Htf) as [Hh2 Habs].
  exists b, s. done.
Qed.

Lemma sim_write w fs p d off q :
  holds w fs -> q + 1 <= tg_quota (net_of w) -> 0 <= q ->
  admissible (abs (net_of w) fs) (CWrite p d off) ->
  exists r w' m', exec (CWrite p d off) w = Ok (r, w') /\
  a_step (abs (net_of w) fs) (CWrite p d off) r m' /\ R q w' m'.
Proof.
  intros Hh Hacc Hq0 (Hp & Hl & Hadm). assert (Hh' := Hh). destruct Hh' as (Hrep & _).
  unfold exec, hello_write, a_step. rewrite pbind_assoc.
  prun (find_path_rep w fs p Hrep Hp). revert Hadm. rewrite abs_lookup.
  destruct (lookup_path p fs) as [[k f]|] eqn:Hlk; [|done].
  cbn [fmap option_fmap option_map compose snd]. intros Hadm.
  apply lookup_path_Some in Hlk as (Hk & Hpf & _).
  destruct (holds_file _ _ _ _ Hh Hk) as [Hwf Hinv].
  rewrite pbind_assoc. prun (deref_rep w fs k f Hrep Hk).
  destruct (type f) eqn:Ht.
  2: { rewrite (node_dir _ _ Ht). eexists _, w, _. split; [done|]. split; [done|].
     exists fs. split; [done|]. split; [done | lia]. }
  destruct (node_file _ _ Hinv Ht) as (c & Hc & Hcl & _ & _). rewrite Hc in *.
  destruct Hadm as [Ho Hmax].
  rewrite pbind_assoc. prun_get.
  destruct (write_base w fs k f c Hh Hk Ht Hc) as (b & s & Hrun & Hb & Hcon & Hh2 & Habs & Hacc2).
  rewrite pbind_assoc. prun Hrun. set (w1 := mk_world _ _ s) in *.
  assert (abs (net_of w1) fs = abs (net_of w) fs) as Habs1 by exact Habs.
  assert (q + 1 <= tg_quota (net_of w1)) as Hacc1 by (etrans; [exact Hacc | exact Hacc2]).
  clear Hrun Habs Hacc2.
  unfold MAX_CONTENT, INT_MAX in *.
  destruct (buffer_insert_spec b off (cells d) Hb) as (b' & Hins & Hb' & Hcon');
  [lia | rewrite zlen_cells; unfold malloc_max; lia |].
  rewrite zlen_cells in Hins. rewrite Hcon, cells_overwrite in Hcon' by lia.
  rewrite (u64_small off) by (unfold SIZE_MAX; lia).
  rewrite pbind_assoc. prun_lift Hins.
  destruct (put_run w1 fs k f b' _ Hh2 Hk Ht ltac:(lia) Hb' Hcon') as
  (f' & s' & Hput & Hj' & Hwf' & Hpath & Hty & Hfid & Hmid & Hstored & Hkept & Hfresh & Hqt).
  rewrite pbind_assoc. change (config w) with (config w1). prun Hput.
  set (w2 := mk_world _ _ s') in *.
  assert (b'.(Buffer.size) = zlen (overwrite c off d)) as Hsize
  by (by rewrite <- zlen_contents, Hcon', zlen_cells by done).
  pose proof (zlen_overwrite c off d Ho) as Hzo.
  set (f2 := with_file_size f' b'.(Buffer.size)).
  assert (file_wf f2) as Hwf2.
  { destruct Hwf'. split; simpl; try done. rewrite Hsize. unfold SIZE_MAX. lia. }
  assert (rep w2.(storage) fs) as Hrep2 by apply Hh2.
  destruct (store_run w2 fs k f f2 Hrep2 Hk Hwf2) as (st & Hst & Hrep3).
  rewrite pbind_assoc. prun Hst.
  destruct (holds_replace w1 fs k f f2 st s' Hh2 Hk Hrep3 Hj' Hpath Hkept) as [Hh3 Habs3];
  [|exact Hfresh|].
  { right. split; [done|]. split; [done|]. split; [done|].
  exists (overwrite c off d). split; [done|]. split; [done|]. unfold MAX_CONTENT. lia. }
  eexists _, _, _. split; [done|]. rewrite i32_small by (unfold INT_MAX; lia).
  split; [done|]. exists (<[k := f2]> fs). split; [exact Hh3|].
  split; [|change (q <= tg_quota s'.(network)); lia].
  change (<[p := AFile (overwrite c off d)]> (abs (net_of w) fs) =
  abs s'.(network) (<[k := f2]> fs)).
  rewrite Habs3, Habs1, Hpf. do 2 f_equal. unfold node_of, content.
  change (type f2) with (type f'). rewrite Hty.
  rewrite decide_False by exact Hfid.
  change (fid_of f2) with (fid_of f'). by rewrite Hstored.
Qed.

(** ** Removing a directory *)

Lemma children_none n fs p :
  children (abs n fs) p = [] -> NoDup (path_of <$> fs) -> forall f, f ∈ fs -> ~ in_dir p f.
Proof.
  intros Hc Hnd f Hf Hin. pose proof (children_abs n fs p Hnd) as Hp. rewrite Hc in Hp.
  apply Permutation_nil in Hp. unfold dir_names in Hp. apply fmap_nil_inv in Hp.
  assert (f ∈ filter (in_dir p) fs) as Hx by (by apply list_elem_of_filter).
  rewrite Hp in Hx. by apply elem_of_nil in Hx.
Qed.

Lemma next_in_dir_none p fs :
  (forall f, f ∈ fs -> ~ in_dir p f) -> next_in_dir p fs 0 = -1.
Proof.
  intros Hn. unfold next_in_dir. rewrite zdrop_0.
  destruct (list_find (in_dir p) fs) as [[k f]|] eqn:Hf; [|done].
  apply list_find_Some in Hf as (Hk & Hin & _). apply list_elem_of_lookup_2 in Hk.
  by destruct (Hn f Hk).
Qed.

Lemma sim_rmdir w fs p q :
  holds w fs -> q <= tg_quota (net_of w) -> admissible (abs (net_of w) fs) (CRmdir p) ->
  exists r w' m', exec (CRmdir p) w = Ok (r, w') /\
  a_step (abs (net_of w) fs) (CRmdir p) r m' /\ R q w' m'.
Proof.
  intros Hh Hq (Hp & Hch). assert (Hh' := Hh).
  destruct Hh' as (Hrep & Hc & Hj & Hinv & Hnd & Hm).
  unfold exec, hello_rmdir, a_step. rewrite pbind_assoc.
  prun (find_path_rep w fs p Hrep Hp). rewrite abs_lookup.
  destruct (lookup_path p fs) as [[k f]|] eqn:Hlk.
  2: { eexists _, w, _. split; [done|]. split; [done|]. by exists fs. }
  cbn [fmap option_fmap option_map compose snd].
  assert (Hl := Hlk). apply lookup_path_Some in Hl as (Hk & Hpf & _).
  rewrite pbind_assoc. prun (deref_rep w fs k f Hrep Hk).
  unfold node_of. destruct (type f) eqn:Ht.
  { eexists _, w, _. split; [done|]. split; [done|]. by exists fs. }
  rewrite pbind_assoc. prun_get. rewrite pbind_assoc.
  assert (rmdir_loop p (-1) (S (Z.to_nat (size (storage w)))) w = Ok (tt, w)) as Hloop.
  { cbn [rmdir_loop]. pose proof (Zle_0_nat (length fs)).
  prun (find_in_dir_rep w fs p (-1 + 1) Hrep Hp ltac:(lia)).
  change (-1 + 1) with 0. by rewrite (next_in_dir_none p fs) by (by eapply children_none). }
  prun Hloop.
  pose proof (remove_path_run w fs p (cstr p) Hrep (c_string_cstr p Hp)) as Hrem.
  rewrite Hlk in Hrem. destruct Hrem as (st & Hst & Hrun). rewrite pbind_assoc. prun Hrun.
  destruct (abs_swap_remove (net_of w) fs k f Hnd Hk) as (Habs & Hnd' & _).
  destruct (mids_swap_remove fs k f Hm Hk) as [Hm' _].
  eexists _, _, _. split; [done|]. split; [done|]. exists (swap_remove k fs).
  change (net_of (mk_world st w.(config) w.(tg_api))) with (net_of w).
  split; [|split; [by rewrite <- Hpf, Habs | exact Hq]].
  split_and!; try done. change (net_of _) with (net_of w).
  pose proof (swap_remove_perm k f fs Hk) as Hpm. rewrite Hpm in Hinv.
  by apply Forall_cons in Hinv as [_ ?].
Qed.

(** ** One call, and a sequence of them *)

(** A write to a file is an upload, which the server has to take. *)
Lemma sim_step w m c q :
  R (q + uploads c) w m -> 0 <= q -> admissible m c ->
  exists r w' m', exec c w = Ok (r, w') /\ a_step m c r m' /\ R q w' m'.
Proof.
  intros (fs & Hh & -> & Hq) Hq0 Hadm. destruct c; cbn [uploads] in Hq; rewrite ?Z.add_0_r in Hq.
  - eexists _, w, _. split; [by apply sim_getattr|]. split; [done | by exists fs].
  - eexists _, w, _. split; [by apply sim_open|]. split; [done | by exists fs].
  - destruct (sim_readdir w fs p Hh Hadm) as (r & Hrun & Hstep).
  eexists _, w, _. split; [exact Hrun|]. split; [exact Hstep | by exists fs].
  - destruct (sim_mkdir w fs p q Hh Hq Hadm) as (w' & ? & ?). by eexists _, w', _.
  - destruct (sim_create w fs p q Hh Hq Hadm) as (w' & ? & ?). by eexists _, w', _.
  - destruct Hadm as [Hadm _].
  destruct (sim_unlink w fs p q Hh Hq Hadm) as (w' & ? & ?). by eexists _, w', _.
  - by apply sim_rmdir.
  - destruct (sim_read w fs p _ off q Hh Hq Hadm) as (w' & ? & ?). by eexists _, w', _.
  - by apply sim_write.
Qed.

Fixpoint exec_all (cs : list call) : prog (world net) (list reply) :=
  match cs with
  | [] => pret []
  | c :: cs => r <-- exec c ;; rs <-- exec_all cs ;; pret (r :: rs)
  end.

Lemma uploads_nonneg c : 0 <= uploads c.
Proof. by destruct c. Qed.

Lemma sim_steps cs w m q :
  R (q + uploads_all cs) w m -> 0 <= q -> admissible_all m cs ->
  exists rs w' m', exec_all cs w = Ok (rs, w') /\ a_steps m cs rs m' /\ R q w' m'.
Proof.
  revert w m. induction cs as [|c cs IH]; intros w m HR Hq Hadm.
  - cbn in HR. rewrite Z.add_0_r in HR. by exists [], w, m.
  - cbn [uploads_all] in HR. destruct Hadm as [Hc Hadm].
  rewrite (Z.add_comm (uploads c)), Z.add_assoc in HR.
  assert (0 <= uploads_all cs) as Hu.
  { clear. induction cs as [|c cs IH]; [done|]. cbn. pose proof (uploads_nonneg c). lia. }
  destruct (sim_step w m c (q + uploads_all cs) HR ltac:(lia) Hc) as (r & w1 & m1 & Hrun & Hst & HR1).
  pose proof (a_step_next _ _ _ _ Hst) as ->.
  destruct (IH w1 _ HR1 Hq Hadm) as (rs & w2 & m2 & Hrun2 & Hst2 & HR2).
  exists (r :: rs), w2, m2. split; [|split; [|done]].
  + cbn [exec_all]. prun Hrun. by prun Hrun2.
  + cbn [a_steps]. by exists r, rs, (a_next m c).
Qed.

(** The credentials fit their arrays. *)
Definition good_config : Prop :=
  (NUL ∉ tok) /\ (NUL ∉ chat) /\ zlen tok < 100 /\ zlen chat < 100.

Lemma config_new_run :
  good_config -> exists cfg, tg_config_new chat tok = Ok cfg /\ config_strings cfg tok chat.
Proof.
  intros (Ht & Hc & Hlt & Hlc). unfold tg_config_new.
  assert (zlen (uninit 100) = 100) as H100 by done.
  destruct (strcpy_array (uninit 100) chat Hc ltac:(lia)) as (a & Ha & _ & Hsa).
  destruct (strcpy_array (uninit 100) tok Ht ltac:(lia)) as (b & Hb & _ & Hsb).
  unfold CHAT_ID_SIZE, TOKEN_SIZE. rewrite Ha, Hb. by eexists.
Qed.

(** What main sets up is related to the map with only the root. *)
Lemma setup_R n :
  good_config ->
  exists w0, main_setup chat tok n = Ok w0 /\ R (tg_quota n) w0 {[ lit "/" := ADir ]}.
Proof.
  intros Hg. destruct (config_new_run Hg) as (cfg & Hcfg & Hstr).
  unfold main_setup. rewrite Hcfg. cbn [obind].
  destruct (new_dir_spec (lit "/")) as (d & Hd & Hwf & Hpath & Ht & Hsz & Hi & Hm).
  { split; [done|]. split; [no_NUL | done]. }
  rewrite Hd. cbn [obind].
  destruct (push_rep _ [] d tg_storage_new_rep Hwf) as (st & Hst & Hrep);
  [unfold INT_MAX; simpl; lia|].
  rewrite Hst. cbn [obind]. eexists. split; [done|].
  exists [d]. split; [|split; [|apply Z.le_refl]].
  - split; [done|]. split; [done|]. split; [apply json_wf_zero|]. split; [|split].
  + constructor; [by left | constructor].
  + apply NoDup_singleton.
  + unfold mids. cbn. rewrite decide_False; [constructor|]. intros Hn. by apply Hn.
  - unfold abs. cbn. rewrite Hpath. unfold node_of. by rewrite Ht.
Qed.
End refine.
End Refine.
