(* ===== verification/Rmdir.v ===== *)
(** * Removing a directory that is not empty (src/main.c, hello_rmdir)

    The loop looks for the next file of the directory, deletes its message and
    takes it out of the table, and goes on behind it.  [rmdir_list] is the table
    it leaves. *)
From S2P Require Import Prelude CLib Buffer Json TgFile TgStorage TgApi Telegram.
From S2P Require Import FuseTypes Hello HelloFacts MemFs Refine.
Import Buffer TgFile TgStorage TgApi Telegram FuseTypes Hello HelloFacts MemFs Refine.

Module Rmdir.

(** The table after the loop that starts at index [from]. *)
Fixpoint rmdir_list (d : list byte) (fs : list tg_file) (from : Z) (fuel : nat)
    : list tg_file :=
  match fuel with
  | O => fs
  | S fuel =>
      let i := next_in_dir d fs from in
      if i =? -1 then fs else rmdir_list d (swap_remove (Z.to_nat i) fs) (i + 1) fuel
  end.

(** ... and after the directory itself is taken out. *)
Definition rmdir_table (d : list byte) (fs : list tg_file) : list tg_file :=
  let fs1 := rmdir_list d fs 0 (S (length fs)) in
  match lookup_path d fs1 with Some (k, _) => swap_remove k fs1 | None => fs1 end.

Lemma lookup_path_unique fs k f :
  NoDup (path_of <$> fs) -> fs !! k = Some f -> lookup_path (path_of f) fs = Some (k, f).
Proof.
  intros Hnd Hk. apply list_find_Some. split; [done|]. split; [done|].
  intros j g Hj Hlt He. assert (j = k); [|lia].
  eapply (NoDup_lookup _ _ _ (path_of f) Hnd); rewrite list_lookup_fmap; [by rewrite Hj, <- He | by rewrite Hk].
Qed.

Lemma elem_of_swap_remove k f fs g :
  fs !! k = Some f -> (g ∈ fs <-> g = f \/ g ∈ swap_remove k fs).
Proof. intros Hk. rewrite (swap_remove_perm k f fs Hk) at 1. apply elem_of_cons. Qed.

(** Only files of the directory are taken out by the loop. *)
Lemma rmdir_list_elem d fs from fuel f :
  0 <= from ->
  (f ∈ rmdir_list d fs from fuel -> f ∈ fs) /\
  (f ∈ fs -> ~ in_dir d f -> f ∈ rmdir_list d fs from fuel).
Proof.
  revert fs from. induction fuel as [|fuel IH]; intros fs from Hfrom; [done|]. cbn [rmdir_list].
  destruct (Z.eqb_spec (next_in_dir d fs from) (-1)) as [He|He]; [done|].
  destruct (next_in_dir_cases d fs from Hfrom) as [[? _]|(k & g & Hk & Hge & Hlk & Hfil)]; [done|].
  rewrite Hk, Nat2Z.id. destruct (IH (swap_remove k fs) (Z.of_nat k + 1) ltac:(lia)) as [IH1 IH2].
  assert (in_dir d g) as Hg.
  { assert (g ∈ filter (in_dir d) (zdrop from fs)) as Hin by (rewrite Hfil; by left).
    by apply list_elem_of_filter in Hin as [? _]. }
  pose proof (elem_of_swap_remove k g fs f Hlk) as Hel. split.
  - intros Hf. apply Hel. right. by apply IH1.
  - intros Hf Hn. apply IH2; [|done]. apply Hel in Hf as [->|?]; done.
Qed.

Lemma list_find_app_first {P : tg_file -> Prop} `{forall f, Decision (P f)} pre f rest :
  (forall h, h ∈ pre -> ~ P h) -> P f -> list_find P (pre ++ f :: rest) = Some (length pre, f).
Proof.
  intros Hpre Hf. apply list_find_Some. rewrite list_lookup_middle by done. split_and!; try done.
  intros j y Hj Hlt. apply Hpre. rewrite lookup_app_l in Hj by done.
  by eapply list_elem_of_lookup_2.
Qed.

Lemma swap_remove_two (pre : list tg_file) f g :
  swap_remove (length pre) (pre ++ [f; g]) = pre ++ [g].
Proof.
  unfold swap_remove. assert (pre ++ [f; g] = (pre ++ [f]) ++ [g]) as Heq by (by rewrite <- app_assoc).
  rewrite Heq at 1. rewrite last_snoc, length_app. simpl.
  rewrite <- (Nat.add_0_r (length pre)) at 2. rewrite insert_app_r. simpl.
  replace (length pre + 2 - 1)%nat with (length (pre ++ [g])) by (rewrite length_app; simpl; lia).
  replace (pre ++ [g; g]) with ((pre ++ [g]) ++ [g]) by (by rewrite <- app_assoc).
  apply take_app_length.
Qed.

(** A directory whose only files are the last two of the table. *)
Lemma rmdir_two pre f g p :
  (forall h, h ∈ pre -> ~ in_dir p h) -> in_dir p f -> in_dir p g ->
  g ∈ rmdir_table p (pre ++ [f; g]) /\
  (forall x, x ∈ rmdir_table p (pre ++ [f; g]) -> x ∈ pre ++ [g]).
Proof.
  intros Hpre Hf Hg. unfold rmdir_table. rewrite length_app.
  replace (S (length pre + length [f; g])) with (S (S (S (length pre)))) by (simpl; lia).
  assert (next_in_dir p (pre ++ [f; g]) 0 = zlen pre) as Hnext.
  { unfold next_in_dir. by rewrite zdrop_0, (list_find_app_first pre f [g] Hpre Hf). }
  cbn [rmdir_list]. rewrite Hnext.
  rewrite (proj2 (Z.eqb_neq _ _)) by lia. rewrite Nat2Z.id, swap_remove_two.
  assert (next_in_dir p (pre ++ [g]) (Z.of_nat (length pre) + 1) = -1) as ->.
  { unfold next_in_dir. rewrite zdrop_ge by (rewrite length_app; simpl; lia). done. }
  cbn [Z.eqb]. destruct (lookup_path p _) as [[k h]|] eqn:Hlk.
  - apply lookup_path_Some in Hlk as (Hk & Hhp & _).
    pose proof (fun x => elem_of_swap_remove k h _ x Hk) as Hel. split.
    + destruct (proj1 (Hel g)) as [He|?]; [apply elem_of_app; right; by left | | done].
      destruct Hg as [Hne _]. congruence.
    + intros x Hx. apply Hel. by right.
  - split; [apply elem_of_app; right; by left | done].
Qed.

Section rmdir.
Context {net : Type} `{CurlEnv net} {tok chat : list byte} `{!Telegram net tok chat}.
Implicit Types (w : world net) (fs : list tg_file).

(** Taking out a file whose message the server has deleted. *)
Lemma holds_removed w fs k f st s :
  holds w fs -> fs !! k = Some f -> rep st (swap_remove k fs) ->
  json_wf s.(json_response_buf) ->
  kept (tg_files (net_of w)) (tg_files s.(network)) (mid_of f) ->
  holds (mk_world st w.(config) s) (swap_remove k fs).
Proof.
  intros (Hrep & Hc & Hj & Hinv & Hnd & Hm) Hk Hst Hjs Hkept.
  destruct (abs_swap_remove (net_of w) fs k f Hnd Hk) as (_ & Hnd' & _).
  destruct (mids_swap_remove fs k f Hm Hk) as [Hm' Hmid].
  pose proof (swap_remove_perm k f fs Hk) as Hpm. rewrite Hpm in Hinv.
  apply Forall_cons in Hinv as [_ Hinv].
  destruct (kept_all (net_of w) s.(network) (mid_of f) _ Hkept Hinv) as [Hinv' _].
  { intros g Hg. destruct (decide (mid_of f = [])) as [He|He].
  - rewrite He. destruct (decide (mid_of g = [])); [by right | by left].
  - left. eapply not_in_mids; [by apply Hmid | done | done]. }
  by split_and!.
Qed.

(** What one round of the loop does to the file it found. *)
Lemma round_run w fs k f :
  holds w fs -> fs !! k = Some f ->
  exists w', ((if f.(file_size) >? 0
    then _ <-- in_api (tg_remove_message_with_file w.(config) f) ;; pret tt
    else pret tt) ;;; remove_path f.(TgFile.path)) w = Ok (f, w') /\
  holds w' (swap_remove k fs).
Proof.
  intros Hh Hk. destruct (holds_file _ _ _ _ Hh Hk) as [Hwf _]. assert (Hh' := Hh).
  destruct Hh' as (Hrep & Hc & Hj & Hinv & Hnd & Hm).
  assert (exists s, (if f.(file_size) >? 0
    then _ <-- in_api (tg_remove_message_with_file w.(config) f) ;; pret tt
    else pret tt) w = Ok (tt, mk_world w.(storage) w.(config) s) /\
  json_wf s.(json_response_buf) /\
  kept (tg_files (net_of w)) (tg_files s.(network)) (mid_of f)) as (s & Hrun & Hjs & Hkept).
  { destruct (_ >? _).
  - destruct (tg_handle (net_of w)) as (Hi & _).
    destruct (tg_delete (net_of w) (mid_of f)) as (n' & resp & Hp & Hresp & Hkp & _).
    destruct (Telegram.delete_message_run w.(tg_api) f w.(config) tok chat Hc Hj n' resp _
      Hi (proj2 (file_ids f Hwf)) Hp Hresp) as (j & Hrun & Hj').
    exists (mk_api j n'). split; [|done].
    by prun (in_api_run _ w _ _ Hrun).
  - exists w.(tg_api). destruct w. split; [done|]. split; [done|]. by intros ?. }
  set (w1 := mk_world w.(storage) w.(config) s) in *.
  destruct (wf_path_of f Hwf) as [Hps _].
  pose proof (remove_path_run w1 fs (path_of f) f.(TgFile.path) Hrep Hps) as Hrem.
  rewrite (lookup_path_unique fs k f Hnd Hk) in Hrem.
  destruct Hrem as (st & Hst & Hrun2). eexists. split.
  - prun Hrun. exact Hrun2.
  - by apply (holds_removed w fs k f st s).
Qed.

Lemma rmdir_loop_run p w fs i fuel :
  holds w fs -> NUL ∉ p -> -1 <= i -> zlen fs - i <= Z.of_nat fuel -> (0 < fuel)%nat ->
  exists w', rmdir_loop p i fuel w = Ok (tt, w') /\ holds w' (rmdir_list p fs (i + 1) fuel).
Proof.
  intros Hh Hp. revert w fs i Hh.
  induction fuel as [|fuel IH]; intros w fs i Hh Hi Hfuel Hpos; [lia|].
  cbn [rmdir_loop rmdir_list]. assert (Hh' := Hh). destruct Hh' as (Hrep & _).
  prun (find_in_dir_rep w fs p (i + 1) Hrep Hp ltac:(lia)).
  destruct (next_in_dir_cases p fs (i + 1) ltac:(lia)) as [[-> _]|(k & f & Hk & Hge & Hlk & _)].
  { by exists w. }
  rewrite Hk, (proj2 (Z.eqb_neq _ _)) by lia. rewrite Nat2Z.id.
  prun (deref_rep w fs k f Hrep Hlk). prun_get.
  destruct (round_run w fs k f Hh Hlk) as (w1 & Hrun & Hh1).
  rewrite <- pbind_assoc. prun Hrun.
  pose proof (length_swap_remove k f fs Hlk) as Hlen.
  apply lookup_lt_Some in Hlk as Hlt.
  apply (IH w1 _ (Z.of_nat k) Hh1); lia.
Qed.

Lemma rmdir_run w fs p :
  holds w fs -> NUL ∉ p -> is_dir_at p fs = true ->
  exists w', hello_rmdir p w = Ok (0, w') /\ holds w' (rmdir_table p fs).
Proof.
  intros Hh Hp Hd. assert (Hh' := Hh). destruct Hh' as (Hrep & _).
  unfold hello_rmdir. prun (find_path_rep w fs p Hrep Hp). unfold is_dir_at in Hd.
  destruct (lookup_path p fs) as [[k f]|] eqn:Hlk; [|done].
  apply bool_decide_eq_true_1 in Hd. apply lookup_path_in in Hlk.
  cbn [fmap option_fmap option_map]. prun (deref_rep w fs k f Hrep Hlk). rewrite Hd. prun_get.
  rewrite (rep_size _ _ Hrep), Nat2Z.id.
  destruct (rmdir_loop_run p w fs (-1) (S (length fs)) Hh Hp) as (w1 & Hrun & Hh1); [lia..|].
  prun Hrun. unfold rmdir_table. change (-1 + 1) with 0 in Hh1.
  set (fs1 := rmdir_list p fs 0 (S (length fs))) in *. assert (Hh1' := Hh1).
  destruct Hh1' as (Hrep1 & _ & Hj1 & _).
  pose proof (remove_path_run w1 fs1 p (cstr p) Hrep1 (c_string_cstr p Hp)) as Hrem.
  destruct (lookup_path p fs1) as [[k1 f1]|] eqn:Hlk1.
  - destruct Hrem as (st & Hst & Hrun2). apply lookup_path_in in Hlk1. eexists. split.
  + by prun Hrun2.
  + eapply (holds_removed w1 fs1 k1 f1 st w1.(tg_api)); try done. by intros ?.
  - eexists. split; [by prun Hrem|]. by destruct w1.
Qed.

Lemma rmdir_table_elem p fs f :
  NoDup (path_of <$> fs) ->
  (f ∈ rmdir_table p fs -> f ∈ fs) /\
  (f ∈ fs -> path_of f <> p -> ~ in_dir p f -> f ∈ rmdir_table p fs).
Proof.
  intros Hnd. unfold rmdir_table. pose proof (rmdir_list_elem p fs 0 (S (length fs)) f ltac:(lia)) as [H1 H2].
  destruct (lookup_path p _) as [[k g]|] eqn:Hlk; [|by auto].
  apply lookup_path_Some in Hlk as (Hk & Hg & _).
  pose proof (elem_of_swap_remove k g _ f Hk) as Hel. split.
  - intros Hf. apply H1, Hel. by right.
  - intros Hf Hne Hn. destruct (proj1 Hel (H2 Hf Hn)) as [He|?]; [congruence | done].
Qed.

Lemma swap_remove_fresh k fs f : NoDup (path_of <$> fs) -> fs !! k = Some f ->
  NoDup (path_of <$> swap_remove k fs) /\ forall g, g ∈ swap_remove k fs -> path_of g <> path_of f.
Proof.
  intros Hnd Hk. rewrite (swap_remove_perm k f fs Hk) in Hnd. rewrite fmap_cons in Hnd. apply NoDup_cons in Hnd as [Hf Hnd]. split; [done|].
  intros g Hg He. apply Hf. rewrite <- He. by apply list_elem_of_fmap_2.
Qed.

Lemma rmdir_list_NoDup d fuel : forall fs from, 0 <= from -> NoDup (path_of <$> fs) -> NoDup (path_of <$> rmdir_list d fs from fuel).
Proof.
  induction fuel as [|fuel IH]; intros fs from Hfrom Hnd; [done|]. cbn [rmdir_list].
  destruct (Z.eqb_spec (next_in_dir d fs from) (-1)) as [He|He]; [done|].
  destruct (next_in_dir_cases d fs from Hfrom) as [[? _]|(k & g & Hk & Hge & Hlk & _)]; [done|].
  rewrite Hk, Nat2Z.id. apply IH; [lia|]. by apply (swap_remove_fresh k fs g).
Qed.

(** The directory is gone, and so is the first of its files. *)
Lemma rmdir_table_gone p fs : NoDup (path_of <$> fs) ->
  Forall (fun f => path_of f <> p) (rmdir_table p fs) /\
  (forall f rest, filter (in_dir p) fs = f :: rest -> f ∉ rmdir_table p fs).
Proof.
  intros Hnd. split.
  - unfold rmdir_table. pose proof (rmdir_list_NoDup p (S (length fs)) fs 0 ltac:(lia) Hnd) as Hnd1.
    destruct (lookup_path p _) as [[k g]|] eqn:Hlk; [|by apply lookup_path_None].
    apply lookup_path_Some in Hlk as (Hk & <- & _). apply Forall_forall. by apply (swap_remove_fresh k _ g).
  - intros f rest Hf Hin.
    destruct (next_in_dir_cases p fs 0 ltac:(lia)) as [[_ Hnil]|(k & g & Hk & _ & Hlk & Hfil)]; [rewrite zdrop_0, Hf in Hnil; done|].
    rewrite zdrop_0, Hf in Hfil. injection Hfil as <- _.
    assert (f ∈ rmdir_list p fs 0 (S (length fs))) as Hin1.
    { unfold rmdir_table in Hin. destruct (lookup_path p _) as [[j h]|] eqn:Hlp; [|done]. apply lookup_path_Some in Hlp as (Hj & _ & _).
      apply (elem_of_swap_remove j h _ f Hj). by right. }
    cbn [rmdir_list] in Hin1. rewrite Hk, (proj2 (Z.eqb_neq _ _)), Nat2Z.id in Hin1 by lia.
    apply rmdir_list_elem in Hin1; [|lia]. by apply (swap_remove_fresh k fs f Hnd Hlk) in Hin1.
Qed.
End rmdir.
End Rmdir.
