(* ===== verification/Toy.v ===== *)
(** * A small server that keeps the contract

    An instance of [Telegram], to run the program on: messages are numbered, the
    identifiers of message [k] are [k+1] letters, and eight uploads are taken.
    A transfer to any other address fails with a code and no body.

    * Sample states

    Concrete tables of files on the server of Toy, which the theorems are
    applied to. *)
From S2P Require Import Prelude.
From S2P Require Import CLib.
From S2P Require Import Json.
From S2P Require Import TgFile.
From S2P Require Import TgApi.
From S2P Require Import Telegram.
From S2P Require Import Buffer.
From S2P Require Import TgStorage.
From S2P Require Import FuseTypes.
From S2P Require Import Hello.
From S2P Require Import HelloFacts.
From S2P Require Import MemFs.
From S2P Require Import Refine.

Import Json TgFile TgApi Telegram.

Module Toy.

Record toy := mk_toy { next : nat; store : gmap nat (list byte) }.

Definition LIMIT : nat := 8.

Definition toy_tok : list byte := lit "TOKEN".
Definition toy_chat : list byte := lit "-100".

Definition toy_mid (k : nat) : list byte := replicate (S k) x31.
Definition toy_fid (k : nat) : list byte := replicate (S k) x66.

#[global] Instance toy_fid_inj : Inj (=) (=) toy_fid.
Proof.
  intros a b H. apply (f_equal length) in H. unfold toy_fid in H.
  rewrite !length_replicate in H. lia.
Qed.

#[global] Instance toy_mid_inj : Inj (=) (=) toy_mid.
Proof.
  intros a b H. apply (f_equal length) in H. unfold toy_mid in H.
  rewrite !length_replicate in H. lia.
Qed.

Definition live (n : toy) (k : nat) : bool := bool_decide (k < n.(next))%nat && bool_decide (k < LIMIT)%nat.

Definition toy_files (n : toy) : gmap (list byte) (list byte * list byte) :=
  kmap toy_fid (map_imap (fun k d => if live n k then Some (toy_mid k, d) else None) n.(store)).

Definition strip (pre s : list byte) : option (list byte) :=
  if is_prefix pre s then Some (drop (length pre) s) else None.

(** The first message whose text [mk] passes the test. *)
Definition which (test : nat -> bool) : option nat :=
  head (List.filter test (seq 0 LIMIT)).

Definition send_response (k : nat) : list byte :=
  qlit "{'ok':true,'result':{'message_id':" ++ toy_mid k ++
  qlit ",'document':{'file_id':'" ++ toy_fid k ++ qlit "'}}}".

Definition path_response (k : nat) : list byte :=
  qlit "{'ok':true,'result':{'file_path':'" ++ toy_fid k ++ qlit "'}}".

Definition true_response : list byte := qlit "{'ok':true,'result':true}".

Definition refused (n : toy) : transfer * toy := (mk_transfer 22 [], n).

Definition answered (resp : list byte) (n : toy) : transfer * toy :=
  (mk_transfer CURLE_OK [resp], n).

Definition upload (n : toy) (k : nat) (next' : nat) (part : option mime_part) : transfer * toy :=
  match part with
  | Some p =>
      match init_bytes p.(part_data) with
      | Some d => answered (send_response k) (mk_toy next' (<[k := d]> n.(store)))
      | None => refused n
      end
  | None => refused n
  end.

Definition send_prefix : list byte := send_url toy_tok toy_chat [].
Definition edit_prefix : list byte :=
  lit "https://api.telegram.org/bot" ++ toy_tok ++ lit "/editMessageMedia?chat_id=" ++ toy_chat ++
  lit "&message_id=".
Definition get_prefix : list byte := get_url toy_tok [].
Definition file_prefix : list byte := file_url toy_tok [].
Definition delete_prefix : list byte := delete_url toy_tok toy_chat [].

Definition toy_perform (n : toy) (r : request) : transfer * toy :=
  match strip send_prefix r.(req_url) with
  | Some _ => if bool_decide (n.(next) < LIMIT)%nat
              then upload n n.(next) (S n.(next)) r.(req_mime) else refused n
  | None =>
  match strip edit_prefix r.(req_url) with
  | Some rest =>
      match which (fun k => is_prefix (toy_mid k ++ lit "&") rest) with
      | Some k => if live n k then upload n k n.(next) r.(req_mime) else refused n
      | None => refused n
      end
  | None =>
  match strip get_prefix r.(req_url) with
  | Some rest =>
      match which (fun k => bool_decide (rest = toy_fid k)) with
      | Some k => answered (path_response k) n
      | None => refused n
      end
  | None =>
  match strip file_prefix r.(req_url) with
  | Some rest =>
      match which (fun k => bool_decide (rest = toy_fid k)) with
      | Some k => (mk_transfer CURLE_OK (match n.(store) !! k with Some d => [d] | None => [] end), n)
      | None => refused n
      end
  | None =>
  match strip delete_prefix r.(req_url) with
  | Some rest =>
      match which (fun k => bool_decide (rest = toy_mid k)) with
      | Some k => answered true_response (mk_toy n.(next) (delete k n.(store)))
      | None => answered true_response n
      end
  | None => refused n
  end end end end end.

#[global] Instance toy_curl : CurlEnv toy := {|
  curl_easy_init _ := true;
  curl_mime_name _ := CURLE_OK;
  curl_mime_data _ := CURLE_OK;
  curl_mime_filename _ := CURLE_OK;
  curl_easy_perform := toy_perform;
|}.

(** ** The contract *)

Lemma toy_files_lookup n fid mid d :
  toy_files n !! fid = Some (mid, d) <->
  exists k, (k < n.(next))%nat /\ (k < LIMIT)%nat /\ fid = toy_fid k /\ mid = toy_mid k /\
    n.(store) !! k = Some d.
Proof.
  unfold toy_files. rewrite lookup_kmap_Some by apply _. split.
  - intros (k & -> & Hk). rewrite map_lookup_imap in Hk.
    destruct (store n !! k) as [e|] eqn:He; [|done]. cbn in Hk. unfold live in Hk.
    do 2 (case_bool_decide; [|done]). injection Hk as <- ->. by exists k.
  - intros (k & H1 & H2 & -> & -> & Hk). exists k. split; [done|].
    rewrite map_lookup_imap, Hk. cbn. unfold live.
    by rewrite !bool_decide_eq_true_2.
Qed.

(** The text of a field's value, computed. *)
Definition field_value (s field : list byte) : option (list byte) :=
  match find_sub field s with
  | None => None
  | Some i =>
      let t := zdrop (i + zlen field + 2) s in
      match find_pos is_stop t with Some j => Some (ztake j t) | None => None end
  end.

Lemma field_value_at s field v :
  field_value s field = Some v -> exists pre sep c post, field_at s field pre sep v c post.
Proof.
  unfold field_value. destruct (find_sub field s) as [i|] eqn:Hi; [|done].
  destruct (find_pos is_stop _) as [j|] eqn:Hj; [|done]. intros [= Hv].
  destruct (find_sub_Some _ _ _ Hi) as (Hi0 & u & Hu & Hlen).
  apply find_pos_Some in Hj as (Hjl & Hv' & c & Hgc & Hc).
  apply zget_Some in Hgc as [_ Hgc]. rewrite Hv in Hv'.
  pose proof (take_drop_middle _ _ _ Hgc) as Ht.
  change (take (Z.to_nat j) ?l) with (ztake j l) in Ht. rewrite Hv in Ht.
  generalize dependent (drop (S (Z.to_nat j)) (zdrop (i + zlen field + 2) s)). intros post Ht.
  assert (zdrop 2 u = v ++ c :: post) as Hu2.
  { rewrite Ht, <- Z.add_assoc, <- zdrop_zdrop, Hu by lia.
    rewrite zdrop_app_ge by lia. f_equal. lia. }
  exists (ztake i s), (ztake 2 u), c, post.
  assert (zlen (ztake i s) = i) as Hz by (apply zlen_ztake; lia).
  split; [|rewrite Hz; split_and!; try done].
  - rewrite <- Hu2, ztake_zdrop, <- Hu. by rewrite ztake_zdrop.
  - unfold ztake. rewrite length_take.
    assert (length (zdrop 2 u) <> 0%nat) as Hne by (rewrite Hu2, length_app; simpl; lia).
    unfold zdrop in Hne. rewrite length_drop in Hne. lia.
Qed.

Lemma quoted_text s field w :
  field_value s field = Some (QUOTE :: w ++ [QUOTE]) -> field_text s field w.
Proof.
  intros (pre & sep & c & post & Hf)%field_value_at. by exists pre, sep, (QUOTE :: w ++ [QUOTE]), c, post; auto.
Qed.

Lemma word_text s field b w :
  field_value s field = Some (b :: w) -> b <> QUOTE -> word_field s field (b :: w).
Proof.
  intros (pre & sep & c & post & Hf)%field_value_at Hb. exists pre, sep, c, post.
  split; [done|]. simpl. congruence.
Qed.

Lemma word_field_text s field w : word_field s field w -> field_text s field w.
Proof. intros (pre & sep & c & post & Hf & Hq). exists pre, sep, w, c, post. auto. Qed.

(** A fact about every message taken is checked on the eight of them. *)
Ltac each_message H :=
  unfold LIMIT in H;
  match type of H with
  | (?k < _)%nat =>
      assert (k = 0 \/ k = 1 \/ k = 2 \/ k = 3 \/ k = 4 \/ k = 5 \/ k = 6 \/ k = 7)%nat
        as [->|[->|[->|[->|[->|[->|[->| ->]]]]]]] by lia; clear H
  end.

Ltac closed_response := split; [no_NUL | vm_compute; reflexivity].

Lemma responses_ok k :
  (k < LIMIT)%nat ->
  ok_response (send_response k) /\ ok_response (path_response k) /\
  field_text (send_response k) (lit "file_id") (toy_fid k) /\
  field_text (send_response k) (lit "message_id") (toy_mid k) /\
  field_text (path_response k) (lit "file_path") (toy_fid k) /\
  good_id (toy_fid k) /\ good_id (toy_mid k).
Proof.
  intros Hk. each_message Hk; split_and!;
    try (split; [closed_response | apply word_text; [vm_compute; reflexivity | done]]);
    try (apply quoted_text; vm_compute; reflexivity);
    try (apply word_field_text, word_text; [vm_compute; reflexivity | done]);
    (split; [done | closed_response]).
Qed.

Lemma true_response_ok : ok_response true_response.
Proof. split; [closed_response | apply word_text; [vm_compute; reflexivity | done]]. Qed.

(** ** What each request does *)

Definition part_of (name d : list byte) : option mime_part :=
  Some (mk_part (lit "document") name (cells d)).

Lemma perform_send n dir name d :
  (n.(next) < LIMIT)%nat ->
  toy_perform n (mk_request (send_url toy_tok toy_chat dir) (part_of name d)) =
    answered (send_response n.(next)) (mk_toy (S n.(next)) (<[n.(next) := d]> n.(store))).
Proof.
  intros Hn. unfold toy_perform. cbn [req_url req_mime].
  assert (strip send_prefix (send_url toy_tok toy_chat dir) = Some dir) as -> by reflexivity.
  rewrite bool_decide_eq_true_2 by done. unfold upload, part_of. cbn [part_data].
  by rewrite init_bytes_cells.
Qed.

Lemma perform_edit n k dir name d :
  (k < n.(next))%nat -> (k < LIMIT)%nat ->
  toy_perform n (mk_request (edit_url toy_tok toy_chat (toy_mid k) dir) (part_of name d)) =
    answered (send_response k) (mk_toy n.(next) (<[k := d]> n.(store))).
Proof.
  intros Hn Hk. unfold toy_perform. cbn [req_url req_mime].
  assert (strip send_prefix (edit_url toy_tok toy_chat (toy_mid k) dir) = None) as -> by reflexivity.
  assert (exists rest, strip edit_prefix (edit_url toy_tok toy_chat (toy_mid k) dir) = Some rest /\
    which (fun k => is_prefix (toy_mid k ++ lit "&") rest) = Some k) as (rest & -> & ->).
  { clear Hn. each_message Hk; eexists; (split; [reflexivity | reflexivity]). }
  unfold live. rewrite !bool_decide_eq_true_2 by done. unfold upload, part_of. cbn [part_data].
  by rewrite init_bytes_cells.
Qed.

Lemma perform_get n k :
  (k < LIMIT)%nat ->
  toy_perform n (mk_request (get_url toy_tok (toy_fid k)) None) = answered (path_response k) n.
Proof. intros Hk. each_message Hk; reflexivity. Qed.

Lemma perform_file n k d :
  (k < LIMIT)%nat -> n.(store) !! k = Some d ->
  toy_perform n (mk_request (file_url toy_tok (toy_fid k)) None) = (mk_transfer CURLE_OK [d], n).
Proof.
  intros Hk Hd.
  assert (toy_perform n (mk_request (file_url toy_tok (toy_fid k)) None) =
    (mk_transfer CURLE_OK (match n.(store) !! k with Some d => [d] | None => [] end), n)) as ->.
  { clear Hd. each_message Hk; reflexivity. }
  by rewrite Hd.
Qed.

Lemma perform_delete n mid :
  exists st', toy_perform n (mk_request (delete_url toy_tok toy_chat mid) None) =
      answered true_response (mk_toy n.(next) st') /\
    (forall k d, n.(store) !! k = Some d -> toy_mid k <> mid -> st' !! k = Some d).
Proof.
  unfold toy_perform. cbn [req_url].
  assert (strip send_prefix (delete_url toy_tok toy_chat mid) = None) as -> by reflexivity.
  assert (strip edit_prefix (delete_url toy_tok toy_chat mid) = None) as -> by reflexivity.
  assert (strip get_prefix (delete_url toy_tok toy_chat mid) = None) as -> by reflexivity.
  assert (strip file_prefix (delete_url toy_tok toy_chat mid) = None) as -> by reflexivity.
  assert (strip delete_prefix (delete_url toy_tok toy_chat mid) = Some mid) as -> by reflexivity.
  unfold which. destruct (List.filter _ _) as [|k l] eqn:Hf; cbn [head].
  - exists n.(store). destruct n. split; [done|]. by intros.
  - exists (delete k n.(store)). split; [done|]. intros k' d Hk' Hne.
    rewrite lookup_delete_ne; [done|]. intros ->.
    assert (In k' (k' :: l)) as Hin by (by left). rewrite <- Hf in Hin.
    apply filter_In in Hin as [_ Hb]. apply bool_decide_eq_true_1 in Hb. congruence.
Qed.

#[global] Instance toy_telegram : Telegram toy toy_tok toy_chat.
Proof.
  refine {| tg_files := toy_files; tg_quota n := Z.of_nat LIMIT - Z.of_nat n.(next) |}.
  - by intros n.
  - intros n dir name d Hq. assert (n.(next) < LIMIT)%nat as Hn by lia.
    destruct (responses_ok _ Hn) as (Hok & _ & Hf & Hm & _ & Hgf & Hgm).
    eexists _, _, _, _. split; [by apply perform_send|]. do 5 (split; [done|]).
    split; [|split; [|split; [|cbn [next]; lia]]].
    + destruct (toy_files n !! _) as [[m e]|] eqn:He; [|done].
      apply toy_files_lookup in He as (k & ? & _ & Hk & _). apply toy_fid_inj in Hk. lia.
    + intros g m c (k & ? & _ & _ & -> & _)%toy_files_lookup Hk. apply toy_mid_inj in Hk. lia.
    + apply map_eq. intros fid. apply option_eq. intros [m c].
      rewrite toy_files_lookup. cbn [next store]. split.
      * intros (k & Hk & Hl & -> & -> & Hs).
        destruct (decide (k = n.(next))) as [->|Hne].
        { rewrite lookup_insert_eq in Hs. injection Hs as ->. by rewrite lookup_insert_eq. }
        rewrite lookup_insert_ne in Hs by congruence.
        rewrite lookup_insert_ne by (intros ?%toy_fid_inj; congruence).
        apply toy_files_lookup. exists k. split; [lia | done].
      * destruct (decide (fid = toy_fid n.(next))) as [->|Hne].
        { rewrite lookup_insert_eq. intros [= <- <-]. exists n.(next).
          rewrite lookup_insert_eq. split; [lia | done]. }
        rewrite lookup_insert_ne by done.
        intros (k & ? & ? & -> & -> & Hs)%toy_files_lookup. exists k.
        rewrite lookup_insert_ne by congruence. split; [lia | done].
  - intros n mid fid0 d0 dir name d Hq (k & Hk & Hl & -> & -> & Hs)%toy_files_lookup.
    destruct (responses_ok _ Hl) as (Hok & _ & Hf & _ & _ & Hgf & _).
    eexists _, _, _. split; [by apply perform_edit|]. do 3 (split; [done|]).
    split; [|split; [|cbn [next]; lia]].
    + apply toy_files_lookup. exists k. cbn [next store]. by rewrite lookup_insert_eq.
    + intros fid mid c (k' & ? & ? & -> & -> & Hs')%toy_files_lookup Hne.
      apply toy_files_lookup. exists k'. cbn [next store].
      rewrite lookup_insert_ne by congruence. done.
  - intros n fid mid d (k & Hk & Hl & -> & -> & Hs)%toy_files_lookup.
    destruct (responses_ok _ Hl) as (_ & Hok & _ & _ & Hf & Hgf & _).
    eexists n, _, _, n, _. split; [by apply perform_get|]. do 3 (split; [done|]).
    split; [by apply perform_file|]. split; [by rewrite concat_cons, app_nil_r | done].
  - intros n mid. destruct (perform_delete n mid) as (st' & Hp & Hst).
    eexists _, _. split; [exact Hp|]. split; [left; apply true_response_ok|].
    split; [|done]. intros fid mid' d (k & ? & ? & -> & -> & Hs)%toy_files_lookup Hne.
    apply toy_files_lookup. exists k. cbn [next store]. split_and!; try done. by apply Hst.
Defined.

Definition toy_empty : toy := mk_toy 0 empty.

End Toy.

Import Buffer TgFile TgStorage TgApi Telegram FuseTypes Hello HelloFacts MemFs Refine Toy.

Module Samples.

Lemma toy_config : good_config (tok := toy_tok) (chat := toy_chat).
Proof. split; [no_NUL|]. split; [no_NUL | done]. Qed.

(** A table of entries, for the theorems that start from one. *)
Definition toy_entry (mk : list byte -> outcome tg_file) (p : list byte) : tg_file :=
  match mk p with Ok f => f | Fail _ => tg_file_zero end.
Definition dir_at : list byte -> tg_file := toy_entry tg_file_new_dir.
Definition file_at (p : list byte) : tg_file := toy_entry (fun p => tg_file_new_file p 0) p.

Fixpoint push_all (st : tg_storage) (fs : list tg_file) : tg_storage :=
  match fs with
  | [] => st
  | f :: fs => match tg_storage_push st f with Ok st => push_all st fs | Fail _ => st end
  end.

Definition toy_cfg : tg_config :=
  match tg_config_new toy_chat toy_tok with Ok c => c | Fail _ => mk_config [] [] end.

Definition toy_world (fs : list tg_file) : world toy :=
  mk_world (push_all tg_storage_new fs) toy_cfg
    (mk_api (memset0 JSON_RESPONSE_BUF_SIZE) toy_empty).

(** An entry nothing was stored for yet. *)
Definition fresh_entry (f : tg_file) : Prop :=
  file_wf f /\ (forall n : toy, file_inv (chat := toy_chat) (tok := toy_tok) n f) /\ mid_of f = [].

Lemma dir_at_ok p :
  good_path p -> (dir_at p).(type) = TG_DIR /\ path_of (dir_at p) = p /\ fresh_entry (dir_at p).
Proof.
  intros Hp. destruct (new_dir_spec p Hp) as (f & Hf & Hwf & Hpath & Ht & Hs & Hi & Hm).
  unfold dir_at, toy_entry. rewrite Hf. do 3 (split; [done|]). split; [|done]. intros n. by left.
Qed.

Lemma file_at_ok p :
  good_path p -> (file_at p).(type) = TG_FILE /\ path_of (file_at p) = p /\ fresh_entry (file_at p).
Proof.
  intros Hp. destruct (new_file_spec p 0 Hp ltac:(unfold SIZE_MAX; lia))
    as (f & Hf & Hwf & Hpath & Ht & Hs & Hi & Hm).
  unfold file_at, toy_entry. rewrite Hf. do 3 (split; [done|]). split; [|done]. intros n. by left.
Qed.

Lemma push_all_rep fs st gs :
  rep st gs -> Forall file_wf fs -> (zlen gs + zlen fs) * 2 + 1 <= INT_MAX ->
  rep (push_all st fs) (gs ++ fs).
Proof.
  revert st gs. induction fs as [|f fs IH]; intros st gs Hst Hwf Hmax.
  - by rewrite app_nil_r.
  - apply Forall_cons in Hwf as [Hf Hwf]. cbn [push_all]. simpl in Hmax.
    destruct (push_rep st gs f Hst Hf) as (st' & -> & Hst'); [lia|].
    replace (gs ++ f :: fs) with ((gs ++ [f]) ++ fs) by (by rewrite <- app_assoc).
    apply IH; [done|done|]. rewrite length_app. simpl. lia.
Qed.

Lemma toy_world_rep fs :
  Forall file_wf fs -> zlen fs * 2 + 1 <= INT_MAX -> rep (toy_world fs).(storage) fs.
Proof.
  intros Hwf Hmax. apply (push_all_rep fs tg_storage_new []); [apply tg_storage_new_rep | done |].
  simpl. lia.
Qed.

(** New entries with different paths. *)
Lemma toy_world_holds fs :
  Forall fresh_entry fs ->
  NoDup (path_of <$> fs) -> zlen fs * 2 + 1 <= INT_MAX ->
  holds (tok := toy_tok) (chat := toy_chat) (toy_world fs) fs.
Proof.
  intros Hall Hnd Hmax. rewrite Forall_forall in Hall. split; [|split; [|split; [|split; [|split]]]].
  - apply toy_world_rep; [|done]. apply Forall_forall. intros f Hf. by apply Hall.
  - split; [|split; [|split]]; vm_compute; reflexivity.
  - apply json_wf_zero.
  - apply Forall_forall. intros f Hf. by apply Hall.
  - done.
  - assert (mids fs = []) as ->; [|constructor]. unfold mids. apply filter_none.
    intros m (f & -> & Hf)%list_elem_of_fmap Hn. apply Hn. by apply Hall.
Qed.

(** The directory /d with two files. *)
Definition demo_table : list tg_file :=
  [dir_at (lit "/"); dir_at (lit "/d"); file_at (lit "/d/a"); file_at (lit "/d/b")].

Ltac good := apply (bool_decide_unpack _); vm_compute; exact I.

Lemma demo_table_ok :
  Forall fresh_entry demo_table.
Proof.
  repeat constructor; try (apply dir_at_ok; good); try (apply file_at_ok; good);
  first [apply dir_at_ok; good | apply file_at_ok; good].
Qed.

Lemma demo_holds : holds (tok := toy_tok) (chat := toy_chat) (toy_world demo_table) demo_table.
Proof.
  apply toy_world_holds; [apply demo_table_ok | | vm_compute; discriminate].
  apply (bool_decide_unpack _). vm_compute. exact I.
Qed.

(** An entry whose identifier the server does not know. *)
Definition lost_entry : tg_file :=
  with_file_size (with_file_id (file_at (lit "/f")) (cells (lit "gone") ++ memset0 96)) 5.

Lemma lost_entry_wf : file_wf lost_entry.
Proof.
  destruct (file_at_ok (lit "/f")) as (_ & _ & [Hlen Hpath _ Hmsg _] & _ & _); [good|].
  split; [exact Hlen | exact Hpath | | exact Hmsg | ].
  - exists (lit "gone"). split; [done|]. split; [no_NUL | done].
  - vm_compute. split; discriminate.
Qed.

Definition long_path : list byte := SLASH :: replicate 99 x61.

End Samples.
