(* ===== verification/NodeTable.v ===== *)
(** The hash tables of libfuse's nodes (struct node_table of
    src/fuse-3.17.2/lib/fuse.c): linear hashing, in which the table grows and
    shrinks by one bucket at a time.  The source has the code twice, for the
    table by number and the table by name; here it is written once, over the
    hash of a node before it is reduced to a bucket, and FuseNodes has the two
    instances.  A chain of nodes through its next field is a list of pointers.
    [memory] says of the reallocations to come whether they succeed. *)
From S2P Require Import Prelude.

Module NodeTable.

(** ** Definitions *)

Definition NODE_TABLE_MIN_SIZE : Z := 8192.

(** The size of a pointer. *)
Definition PTR_SIZE : Z := 8.

Record node_table := mk_table {
  array : list (list Z); use : Z; size : Z; split : Z;
}.

Definition with_array (t : node_table) (a : list (list Z)) : node_table :=
  mk_table a t.(use) t.(size) t.(split).
Definition with_use (t : node_table) (n : Z) : node_table :=
  mk_table t.(array) n t.(size) t.(split).
Definition with_split (t : node_table) (n : Z) : node_table :=
  mk_table t.(array) t.(use) t.(size) n.

Definition node_table_init (ok : bool) : option node_table :=
  if ok then Some (mk_table (replicate (Z.to_nat NODE_TABLE_MIN_SIZE) []) 0 NODE_TABLE_MIN_SIZE 0)
  else None.

(** Does a [realloc] to [n] bytes succeed?  Never beyond the largest object. *)
Definition reallocates (n : Z) (m : list bool) : bool * list bool :=
  let ok := n <=? malloc_max in
  match m with [] => (ok, []) | b :: m => (b && ok, m) end.

(** The chain of a bucket; [t->array\[i\]]. *)
Definition chain_at (t : node_table) (i : Z) : outcome (list Z) :=
  lift_fault OutOfBounds (zget t.(array) i).

Definition set_chain (t : node_table) (i : Z) (c : list Z) : outcome node_table :=
  guard_c ((0 <=? i) && (i <? zlen t.(array))) OutOfBounds ;;
  Ok (with_array t (<[Z.to_nat i := c]> t.(array))).

(** id_hash and name_hash after the hash proper. *)
Definition bucket_of (t : node_table) (hash : Z) : Z :=
  let hash := hash mod t.(size) in
  let oldhash := hash mod (t.(size) / 2) in
  if t.(split) <=? oldhash then oldhash else hash.

Definition node_table_reduce (t : node_table) (m : list bool) : node_table * list bool :=
  let newsize := t.(size) / 2 in
  if newsize <? NODE_TABLE_MIN_SIZE then (t, m)
  else
    let '(newarray, m) := reallocates (PTR_SIZE * newsize) m in
    let a := if (newarray : bool) then ztake newsize t.(array) else t.(array) in
    (mk_table a t.(use) newsize (newsize / 2), m).

Definition node_table_resize (t : node_table) (m : list bool) : Z * node_table * list bool :=
  let newsize := t.(size) * 2 in
  let '(newarray, m) := reallocates (PTR_SIZE * newsize) m in
  if negb newarray then (-1, t, m)
  else
    (0, mk_table (ztake t.(size) t.(array) ++ replicate (Z.to_nat t.(size)) []) t.(use) newsize 0, m).

(** The loop of remerge_id and remerge_name: at most [iter] buckets, up to the
    first that has nodes. *)
Fixpoint remerge_loop (iter : nat) (t : node_table) : outcome node_table :=
  match iter with
  | O => Ok t
  | S iter =>
      if t.(split) >? 0 then
        let t := with_split t (t.(split) - 1) in
        let i := t.(split) + t.(size) / 2 in
        upper <- chain_at t i ;;
        match upper with
        | [] => remerge_loop iter t
        | _ :: _ =>
            lower <- chain_at t t.(split) ;;
            t <- set_chain t t.(split) (lower ++ upper) ;;
            set_chain t i []
        end
      else Ok t
  end.

Definition remerge (t : node_table) (m : list bool) : outcome (node_table * list bool) :=
  let '(t, m) := if t.(split) =? 0 then node_table_reduce t m else (t, m) in
  t <- remerge_loop 8 t ;; Ok (t, m).

Section table.
(** The hash of a node before it is reduced to a bucket. *)
Context (hash_of : Z -> outcome Z).

(** The loop over the chain of bucket [hash]: the nodes that stay, and the table
    with the others at the front of their new buckets. *)
Fixpoint rehash_loop (hash : Z) (chain : list Z) (t : node_table) : outcome (list Z * node_table) :=
  match chain with
  | [] => Ok ([], t)
  | node :: next =>
      h <- hash_of node ;;
      let newhash := bucket_of t h in
      if negb (newhash =? hash) then
        c <- chain_at t newhash ;;
        t <- set_chain t newhash (node :: c) ;;
        rehash_loop hash next t
      else
        let! (kept, t) := rehash_loop hash next t in
        Ok (node :: kept, t)
  end.

Definition rehash (t : node_table) (m : list bool) : outcome (node_table * list bool) :=
  if t.(split) =? t.(size) / 2 then Ok (t, m)
  else
    let hash := t.(split) in
    let t := with_split t (t.(split) + 1) in
    chain <- chain_at t hash ;;
    let! (kept, t) := rehash_loop hash chain t in
    t <- set_chain t hash kept ;;
    if t.(split) =? t.(size) / 2
    then let '(_, t, m) := node_table_resize t m in Ok (t, m)
    else Ok (t, m).

(** A node at the front of its chain. *)
Definition insert_node (node h : Z) (t : node_table) (m : list bool)
    : outcome (node_table * list bool) :=
  let hash := bucket_of t h in
  c <- chain_at t hash ;;
  t <- set_chain t hash (node :: c) ;;
  let t := with_use t (t.(use) + 1) in
  if t.(use) >=? t.(size) / 2 then rehash t m else Ok (t, m).

(** The chain without the first occurrence of the node, if it is there. *)
Fixpoint unchain (node : Z) (chain : list Z) : option (list Z) :=
  match chain with
  | [] => None
  | n :: r => if n =? node then Some r else cons n <$> unchain node r
  end.

(** The table without the node; [None] when it is not in its chain. *)
Definition remove_node (node h : Z) (t : node_table) : outcome (option node_table) :=
  let hash := bucket_of t h in
  c <- chain_at t hash ;;
  match unchain node c with
  | Some c => t <- set_chain t hash c ;; Ok (Some t)
  | None => Ok None
  end.

(** What follows the removal of a node. *)
Definition shrink (t : node_table) (m : list bool) : outcome (node_table * list bool) :=
  let t := with_use t (t.(use) - 1) in
  if t.(use) <? t.(size) / 4 then remerge t m else Ok (t, m).

End table.

(** ** Invariant *)

(** The node is in the chain of that bucket. *)
Definition in_chain (t : node_table) (i n : Z) : Prop := exists c, zget t.(array) i = Some c /\ n ∈ c.

Definition in_table (t : node_table) (n : Z) : Prop := exists i, in_chain t i n.

(** Every node is in the bucket of its hash, once; the buckets that the table
    has not split yet are empty. *)
Record table_wf (hash_of : Z -> outcome Z) (t : node_table) : Prop := {
  wf_size : exists k : nat, t.(size) = NODE_TABLE_MIN_SIZE * 2 ^ Z.of_nat k;
  wf_split : 0 <= t.(split) <= t.(size) / 2;
  wf_array : t.(size) <= zlen t.(array);
  wf_place : forall i n, in_chain t i n -> exists h, hash_of n = Ok h /\ bucket_of t h = i;
  wf_once : forall i c, zget t.(array) i = Some c -> NoDup c;
}.

End NodeTable.
