(* ===== verification/NodeTableFacts.v ===== *)
(** The hash tables keep their nodes in the right buckets while they grow and
    shrink. *)
From S2P Require Import Prelude.
From S2P Require Import NodeTable.

Module NodeTableFacts.
Import NodeTable.

(** ** Buckets *)

Definition good_size (n : Z) : Prop := exists k : nat, n = NODE_TABLE_MIN_SIZE * 2 ^ Z.of_nat k.

Lemma good_size_half n : good_size n -> 0 < n / 2 /\ n = 2 * (n / 2) /\ NODE_TABLE_MIN_SIZE <= n.
Proof.
  intros [k ->]. unfold NODE_TABLE_MIN_SIZE. assert (0 < 2 ^ Z.of_nat k) by lia.
  replace (8192 * 2 ^ Z.of_nat k) with ((4096 * 2 ^ Z.of_nat k) * 2) by lia.
  rewrite Z.div_mul by lia. lia.
Qed.

(** The two ways a hash is reduced. *)
Lemma bucket_spec t h : good_size t.(size) ->
  let half := t.(size) / 2 in
  let o := h mod half in
  0 <= o < half /\ (t.(split) <= o -> bucket_of t h = o) /\
  (o < t.(split) -> bucket_of t h = h mod t.(size) /\ (bucket_of t h = o \/ bucket_of t h = o + half)).
Proof.
  intros Hs half o. destruct (good_size_half _ Hs) as (Hpos & Heq & _). fold half in Hpos, Heq.
  assert (0 <= o < half) as Ho by (apply Z.mod_pos_bound; lia).
  assert (h mod t.(size) = o \/ h mod t.(size) = o + half) as Hcases.
  { rewrite Heq, Z.mul_comm, Z.rem_mul_r by lia. fold o.
    pose proof (Z.mod_pos_bound (h / half) 2 ltac:(lia)). assert (h / half mod 2 = 0 \/ h / half mod 2 = 1) as [-> | ->] by lia; lia. }
  assert ((h mod t.(size)) mod half = o) as Hold.
  { destruct Hcases as [-> | ->]; [by apply Z.mod_small|].
    replace (o + half) with (o + 1 * half) by lia. rewrite Z.mod_add by lia. by apply Z.mod_small. }
  unfold bucket_of. fold half. rewrite Hold. split; [done|].
  destruct (Z.leb_spec t.(split) o); split; intros; try lia; done.
Qed.

Lemma bucket_range t h : good_size t.(size) -> 0 <= t.(split) <= t.(size) / 2 ->
  0 <= bucket_of t h < t.(split) + t.(size) / 2.
Proof.
  intros Hs Hsp. destruct (bucket_spec t h Hs) as (Ho & H1 & H2).
  destruct (Z.le_gt_cases t.(split) (h mod (t.(size) / 2))) as [Hle|Hgt].
  - rewrite H1 by done. lia.
  - destruct (H2 Hgt) as [_ [-> | ->]]; lia.
Qed.

(** ** Chains *)

Lemma zget_insert {A} (l : list A) i j x : 0 <= i < zlen l ->
  zget (<[Z.to_nat i := x]> l) j = if j =? i then Some x else zget l j.
Proof.
  intros Hi. unfold zget. destruct (Z.eqb_spec j i) as [->|Hne].
  - rewrite (proj2 (Z.leb_le 0 i)) by lia. apply list_lookup_insert_eq. lia.
  - destruct (Z.leb_spec 0 j); [|done]. apply list_lookup_insert_ne. lia.
Qed.

Lemma chain_at_Ok t i : 0 <= i < zlen t.(array) -> exists c, zget t.(array) i = Some c /\ chain_at t i = Ok c.
Proof.
  intros Hi. destruct (proj2 (zget_is_Some t.(array) i) Hi) as [c Hc].
  exists c. unfold chain_at. by rewrite Hc.
Qed.

Lemma set_chain_Ok t i c : 0 <= i < zlen t.(array) ->
  set_chain t i c = Ok (with_array t (<[Z.to_nat i := c]> t.(array))).
Proof.
  intros Hi. unfold set_chain. by rewrite (proj2 (Z.leb_le _ _)), (proj2 (Z.ltb_lt _ _)) by lia.
Qed.

(** What a node table is once chain [i] is replaced. *)
Lemma in_chain_set t i c j n : 0 <= i < zlen t.(array) ->
  in_chain (with_array t (<[Z.to_nat i := c]> t.(array))) j n <->
  (j = i /\ n ∈ c) \/ (j <> i /\ in_chain t j n).
Proof.
  intros Hi. unfold in_chain. cbn [array with_array]. setoid_rewrite zget_insert; [|done].
  destruct (Z.eqb_spec j i) as [->|Hne]; split.
  - intros (d & [= <-] & ?). by left.
  - intros [[_ ?]|[? _]]; [by exists c | done].
  - intros ?. by right.
  - intros [[? _]|[_ ?]]; done.
Qed.

Lemma once_set t i c : 0 <= i < zlen t.(array) -> NoDup c ->
  (forall j d, zget t.(array) j = Some d -> NoDup d) ->
  forall j d, zget (with_array t (<[Z.to_nat i := c]> t.(array))).(array) j = Some d -> NoDup d.
Proof.
  intros Hi Hc Hall j d. cbn [array with_array]. rewrite zget_insert by done.
  destruct (j =? i); [by intros [= <-] | apply Hall].
Qed.

Definition same_nodes (t t' : node_table) : Prop := forall n, in_table t n <-> in_table t' n.

#[export] Instance same_nodes_equiv : Equivalence same_nodes.
Proof.
  split; [done | by intros t t' H n | intros t1 t2 t3 H1 H2 n; by rewrite (H1 n), (H2 n)].
Qed.


Section facts.
Context (hash_of : Z -> outcome Z).
#[local] Abbreviation wf := (table_wf hash_of).

(** A table in which every node is where it was, with another way to find the
    buckets that agrees on the nodes. *)
Lemma wf_same_buckets t t' : wf t -> good_size t'.(size) -> 0 <= t'.(split) <= t'.(size) / 2 ->
  t'.(size) <= zlen t'.(array) ->
  (forall i n, in_chain t' i n <-> in_chain t i n) ->
  (forall i c, zget t'.(array) i = Some c -> NoDup c) ->
  (forall h, bucket_of t' h = bucket_of t h) ->
  wf t' /\ same_nodes t t'.
Proof.
  intros Hwf Hs Hsp Ha Hin Honce Hb. split; [split; try done|].
  - intros i n Hn. rewrite Hin in Hn. destruct (wf_place _ _ Hwf i n Hn) as (h & ? & <-). by exists h.
  - intros n. split; intros [i Hi]; exists i; by apply Hin.
Qed.

Lemma in_chain_range t i n : wf t -> in_chain t i n -> 0 <= i < t.(split) + t.(size) / 2.
Proof.
  intros Hwf Hi. destruct (wf_place _ _ Hwf i n Hi) as (h & _ & <-).
  apply bucket_range; apply Hwf.
Qed.

Lemma node_table_reduce_wf t m t' m' : wf t -> t.(split) = 0 ->
  node_table_reduce t m = (t', m') -> wf t' /\ same_nodes t t'.
Proof.
  intros Hwf Hsp. destruct (wf_size _ _ Hwf) as [k Hk]. destruct (good_size_half _ (wf_size _ _ Hwf)) as (Hp & Heq & _).
  unfold node_table_reduce. set (half := t.(size) / 2) in *.
  destruct (Z.ltb_spec half NODE_TABLE_MIN_SIZE) as [_|Hge]; [by intros [= <- <-]|].
  destruct (reallocates (PTR_SIZE * half) m) as [ok m1]. intros [= <- <-].
  assert (good_size half) as Hgood.
  { destruct k as [|k].
    - exfalso. unfold half in Hge. rewrite Hk in Hge. by vm_compute in Hge.
    - exists k. unfold half. rewrite Hk, Nat2Z.inj_succ, Z.pow_succ_r by lia.
      replace (NODE_TABLE_MIN_SIZE * (2 * 2 ^ Z.of_nat k)) with (NODE_TABLE_MIN_SIZE * 2 ^ Z.of_nat k * 2) by lia.
      by rewrite Z.div_mul. }
  destruct (good_size_half _ Hgood) as (Hp' & Heq' & _). pose proof (wf_array _ _ Hwf) as Ha.
  assert (forall i, i < half -> zget (if ok then ztake half t.(array) else t.(array)) i = zget t.(array) i) as Hget.
  { intros i Hi. destruct ok; [|done]. unfold zget, ztake. destruct (Z.leb_spec 0 i); [|done].
    apply lookup_take_lt. lia. }
  apply wf_same_buckets; cbn [size split array]; try done.
  - lia.
  - destruct ok; [rewrite zlen_ztake; lia | lia].
  - intros i n. split; intros (c & Hc & Hn).
    + exists c. split; [|done]. destruct (Z.lt_ge_cases i half); [by rewrite <- Hget|]. cbn [array] in Hc.
      destruct ok; [|done]. exfalso. assert (is_Some (zget (ztake half (array t)) i)) as Hr by eauto.
      apply zget_is_Some in Hr. rewrite zlen_ztake in Hr by lia. lia.
    + exists c. split; [|done]. cbn [array]. rewrite Hget; [done|].
      pose proof (in_chain_range t i n Hwf (ex_intro _ c (conj Hc Hn))). rewrite Hsp in *. unfold half in *. lia.
  - intros i c. destruct (Z.lt_ge_cases i half); [rewrite Hget by done; apply Hwf|].
    destruct ok; [|apply Hwf]. intros Hc. assert (is_Some (zget (ztake half (array t)) i)) as Hr by eauto.
    apply zget_is_Some in Hr. rewrite zlen_ztake in Hr by lia. lia.
  - intros h. destruct (bucket_spec t h (wf_size _ _ Hwf)) as (Ho & H1 & _). fold half in Ho, H1.
    rewrite H1 by lia.
    destruct (bucket_spec (mk_table (if ok then ztake half (array t) else array t) (use t) half (half / 2)) h
      Hgood) as (Ho' & _ & H2). cbn [size split] in Ho', H2. apply H2. lia.
Qed.

Lemma node_table_resize_wf t m r t' m' : wf t -> t.(split) = t.(size) / 2 ->
  node_table_resize t m = (r, t', m') -> wf t' /\ same_nodes t t'.
Proof.
  intros Hwf Hsp. destruct (wf_size _ _ Hwf) as [k Hk]. destruct (good_size_half _ (wf_size _ _ Hwf)) as (Hp & Heq & _).
  unfold node_table_resize. destruct (reallocates (PTR_SIZE * (t.(size) * 2)) m) as [[] m1]; cbn [negb]; [|by intros [= <- <- <-]].
  intros [= <- <- <-]. pose proof (wf_array _ _ Hwf) as Ha.
  set (a := ztake (size t) (array t) ++ replicate (Z.to_nat (size t)) []).
  assert (zlen (ztake (size t) (array t)) = size t) as Hlt by (apply zlen_ztake; lia).
  assert (forall i, i < size t -> zget a i = zget t.(array) i) as Hlow.
  { intros i Hi. unfold zget, a. destruct (Z.leb_spec 0 i); [|done]. rewrite lookup_app_l by lia.
    apply lookup_take_lt. lia. }
  assert (forall i c, size t <= i -> zget a i = Some c -> c = []) as Hhigh.
  { intros i c Hi. unfold zget, a. rewrite (proj2 (Z.leb_le 0 i)), lookup_app_r by lia.
    by intros [-> _]%lookup_replicate. }
  assert (good_size (size t * 2)) as Hgood.
  { exists (S k). rewrite Hk, Nat2Z.inj_succ, Z.pow_succ_r by lia. lia. }
  assert (size t * 2 / 2 = size t) as Hdiv by by rewrite Z.div_mul.
  apply wf_same_buckets; cbn [size split array]; try done.
  - lia.
  - fold a. unfold a. rewrite zlen_app, Hlt, length_replicate. lia.
  - intros i n. cbn [in_chain]. split; intros (c & Hc & Hn); exists c; (split; [|done]); cbn [array] in *.
    + destruct (Z.lt_ge_cases i (size t)); [by rewrite <- Hlow|].
      rewrite (Hhigh i c) in Hn by done. by apply elem_of_nil in Hn.
    + rewrite Hlow; [done|].
      pose proof (in_chain_range t i n Hwf (ex_intro _ c (conj Hc Hn))). lia.
  - intros i c. fold a. destruct (Z.lt_ge_cases i (size t)); [rewrite Hlow by done; apply Hwf|].
    intros Hc. rewrite (Hhigh i c) by done. constructor.
  - intros h. fold a. destruct (bucket_spec t h (wf_size _ _ Hwf)) as (Ho & _ & H2). destruct H2 as [H2 _]; [lia|].
    destruct (bucket_spec (mk_table a (use t) (size t * 2) 0) h Hgood) as (Ho' & H1 & _).
    cbn [size split] in Ho', H1. rewrite Hdiv in *. rewrite H1, H2 by lia. done.
Qed.

(** One bucket less: only the nodes of the upper half of the last split move. *)
Lemma bucket_unsplit t h : good_size t.(size) -> 0 < t.(split) ->
  bucket_of (with_split t (t.(split) - 1)) h =
    if bucket_of t h =? t.(split) - 1 + t.(size) / 2 then t.(split) - 1 else bucket_of t h.
Proof.
  intros Hs Hsp. destruct (bucket_spec t h Hs) as (Ho & H1 & H2).
  destruct (bucket_spec (with_split t (t.(split) - 1)) h Hs) as (_ & H1' & H2').
  cbn [size split with_split] in *. set (o := h mod (size t / 2)) in *.
  destruct (Z.lt_trichotomy o (split t - 1)) as [Hlt | [Heq | Hgt]].
  - destruct H2 as [He Hc]; [lia|]. destruct H2' as [He' _]; [lia|]. rewrite He', <- He.
    destruct (Z.eqb_spec (bucket_of t h) (split t - 1 + size t / 2)); lia.
  - rewrite H1' by lia. destruct H2 as [_ Hc]; [lia|].
    destruct (Z.eqb_spec (bucket_of t h) (split t - 1 + size t / 2)); lia.
  - rewrite H1', H1 by lia.
    destruct (Z.eqb_spec o (split t - 1 + size t / 2)); lia.
Qed.

Lemma remerge_step t lower upper : wf t -> 0 < t.(split) ->
  zget t.(array) (t.(split) - 1) = Some lower ->
  zget t.(array) (t.(split) - 1 + t.(size) / 2) = Some upper ->
  let t' := mk_table (<[Z.to_nat (t.(split) - 1 + t.(size) / 2) := []]>
              (<[Z.to_nat (t.(split) - 1) := lower ++ upper]> t.(array))) t.(use) t.(size) (t.(split) - 1) in
  wf t' /\ same_nodes t t'.
Proof.
  intros Hwf Hsp Hlo Hup t'. pose proof (wf_size _ _ Hwf) as Hgood.
  destruct (good_size_half _ Hgood) as (Hp & Heq & _).
  pose proof (wf_split _ _ Hwf) as Hr. pose proof (wf_array _ _ Hwf) as Ha.
  set (i := t.(split) - 1) in *. set (half := t.(size) / 2) in *.
  assert (0 <= i < zlen t.(array)) as Hi by lia.
  assert (0 <= i + half < zlen t.(array)) as Hih by lia.
  set (t1 := with_array t (<[Z.to_nat i := lower ++ upper]> t.(array))).
  assert (0 <= i + half < zlen t1.(array)) as Hih1 by (cbn [array t1 with_array]; by rewrite length_insert).
  assert (forall j n, in_chain t' j n <->
    (j = i /\ (in_chain t i n \/ in_chain t (i + half) n)) \/ (j <> i /\ j <> i + half /\ in_chain t j n)) as Hin.
  { intros j n. change (in_chain t' j n) with
      (in_chain (with_array t1 (<[Z.to_nat (i + half) := []]> t1.(array))) j n).
    rewrite in_chain_set by done. unfold t1. rewrite in_chain_set by done. rewrite elem_of_app.
    assert (in_chain t i n <-> n ∈ lower) as -> by (unfold in_chain; rewrite Hlo; split; [by intros (? & [= <-] & ?) | by exists lower]).
    assert (in_chain t (i + half) n <-> n ∈ upper) as -> by (unfold in_chain; rewrite Hup; split; [by intros (? & [= <-] & ?) | by exists upper]).
    rewrite elem_of_nil. split; intros H; intuition lia. }
  split; [split|].
  - exact Hgood.
  - cbn [split size t']. fold half. lia.
  - cbn [array size t']. rewrite !length_insert. done.
  - intros j n Hj. apply Hin in Hj. 
    assert (exists k, in_chain t k n /\ j = if k =? i + half then i else k) as (k & Hk & ->).
    { destruct Hj as [[-> [?|?]]|(? & ? & ?)].
      - exists i. split; [done|]. rewrite (proj2 (Z.eqb_neq _ _)); lia.
      - exists (i + half). split; [done|]. by rewrite Z.eqb_refl.
      - exists j. split; [done|]. rewrite (proj2 (Z.eqb_neq _ _)); lia. }
    destruct (wf_place _ _ Hwf k n Hk) as (h & Hh & <-). exists h. split; [done|].
    apply (bucket_unsplit t h Hgood Hsp).
  - apply (once_set t1 (i + half) []); [done | constructor |]. apply once_set; [done | | apply Hwf].
    apply NoDup_app. split_and!; [by eapply Hwf | | by eapply Hwf].
    intros n Hn Hn'. destruct (wf_place _ _ Hwf i n) as (h & Hh & Hb); [by exists lower|].
    destruct (wf_place _ _ Hwf (i + half) n) as (h' & Hh' & Hb'); [by exists upper|].
    assert (h' = h) as -> by congruence. lia.
  - intros n. split; intros [j Hj].
    + destruct (Z.eq_dec j i) as [->|]; [exists i; apply Hin; auto|].
      destruct (Z.eq_dec j (i + half)) as [->|]; [exists i; apply Hin; auto | exists j; apply Hin; auto].
    + apply Hin in Hj. destruct Hj as [[-> [?|?]]|(? & ? & ?)]; eexists; eauto.
Qed.

Lemma with_split_empty t : wf t -> 0 < t.(split) ->
  zget t.(array) (t.(split) - 1 + t.(size) / 2) = Some [] ->
  wf (with_split t (t.(split) - 1)) /\ same_nodes t (with_split t (t.(split) - 1)).
Proof.
  intros Hwf Hsp Hup. pose proof (wf_size _ _ Hwf) as Hgood.
  destruct (good_size_half _ Hgood) as (Hp & Heq & _). pose proof (wf_split _ _ Hwf) as Hr.
  split; [|done]. split; try apply Hwf; cbn [split size with_split].
  - lia.
  - intros i n Hi. destruct (wf_place _ _ Hwf i n Hi) as (h & Hh & Hb). exists h. split; [done|].
    rewrite bucket_unsplit, Hb by done. destruct (Z.eqb_spec i (split t - 1 + size t / 2)) as [->|]; [|done].
    destruct Hi as (c & Hc & Hn). cbn [array with_split] in Hc. rewrite Hup in Hc. injection Hc as <-.
    by apply elem_of_nil in Hn.
Qed.

Lemma remerge_loop_wf iter : forall t, wf t ->
  exists t', remerge_loop iter t = Ok t' /\ wf t' /\ same_nodes t t'.
Proof.
  induction iter as [|iter IH]; intros t Hwf; [by exists t|]. cbn [remerge_loop].
  destruct (Z.gtb_spec t.(split) 0) as [Hsp|]; [|by exists t].
  destruct (good_size_half _ (wf_size _ _ Hwf)) as (Hp & Heq & _).
  pose proof (wf_split _ _ Hwf) as Hr. pose proof (wf_array _ _ Hwf) as Ha.
  cbn [split size with_split]. set (t1 := with_split t (split t - 1)).
  destruct (chain_at_Ok t1 (split t - 1 + size t / 2)) as (upper & Hup & ->); [cbn [array t1 with_split]; lia|].
  cbn [obind]. destruct upper as [|u upper].
  - destruct (with_split_empty t Hwf Hsp Hup) as [Hwf1 Hs1].
    destruct (IH t1 Hwf1) as (t' & ? & ? & ?). exists t'. split_and!; [done..|]. by etransitivity.
  - destruct (chain_at_Ok t1 (split t - 1)) as (lower & Hlo & ->); [cbn [array t1 with_split]; lia|]. cbn [obind].
    rewrite set_chain_Ok by (cbn [array t1 with_split]; lia). cbn [obind].
    rewrite set_chain_Ok by (cbn [array t1 with_split with_array]; rewrite length_insert; lia).
    eexists. split; [done|]. exact (remerge_step t lower (u :: upper) Hwf Hsp Hlo Hup).
Qed.

Lemma remerge_wf t m : wf t -> exists t' m', remerge t m = Ok (t', m') /\ wf t' /\ same_nodes t t'.
Proof.
  intros Hwf. unfold remerge. destruct (Z.eqb_spec t.(split) 0) as [Hsp|].
  - destruct (node_table_reduce t m) as [t1 m1] eqn:Hred.
    destruct (node_table_reduce_wf _ _ _ _ Hwf Hsp Hred) as [Hwf1 Hs1].
    destruct (remerge_loop_wf 8 t1 Hwf1) as (t' & -> & ? & ?). exists t', m1. split_and!; [done..|]. by etransitivity.
  - destruct (remerge_loop_wf 8 t Hwf) as (t' & -> & ? & ?). by exists t', m.
Qed.

(** One bucket more: the nodes of that bucket divide. *)
Lemma bucket_split t h : good_size t.(size) -> 0 <= t.(split) < t.(size) / 2 ->
  bucket_of t h = t.(split) ->
  bucket_of (with_split t (t.(split) + 1)) h = t.(split) \/
  bucket_of (with_split t (t.(split) + 1)) h = t.(split) + t.(size) / 2.
Proof.
  intros Hs Hsp Hb. pose proof (bucket_unsplit (with_split t (t.(split) + 1)) h Hs) as H.
  cbn [size split with_split] in H. specialize (H ltac:(lia)).
  replace (split t + 1 - 1) with (split t) in H by lia.
  change (bucket_of (with_split (with_split t (split t + 1)) (split t)) h) with (bucket_of t h) in H.
  destruct (Z.eqb_spec (bucket_of (with_split t (split t + 1)) h) (split t + size t / 2)); [by right | left; lia].
Qed.

Lemma bucket_split_other t h : good_size t.(size) -> 0 <= t.(split) < t.(size) / 2 ->
  bucket_of t h <> t.(split) -> bucket_of (with_split t (t.(split) + 1)) h = bucket_of t h.
Proof.
  intros Hs Hsp Hb. pose proof (bucket_unsplit (with_split t (t.(split) + 1)) h Hs) as H.
  cbn [size split with_split] in H. specialize (H ltac:(lia)).
  replace (split t + 1 - 1) with (split t) in H by lia.
  change (bucket_of (with_split (with_split t (split t + 1)) (split t)) h) with (bucket_of t h) in H.
  destruct (Z.eqb_spec (bucket_of (with_split t (split t + 1)) h) (split t + size t / 2)); lia.
Qed.

(** The node belongs into that bucket. *)
Definition place (t : node_table) (n i : Z) : Prop := exists h, hash_of n = Ok h /\ bucket_of t h = i.

Lemma rehash_loop_spec i j chain : forall t c,
  i <> j -> zget t.(array) j = Some c -> Forall (fun n => place t n i \/ place t n j) chain ->
  exists kept c', rehash_loop hash_of i chain t =
      Ok (kept, with_array t (<[Z.to_nat j := c']> t.(array))) /\
    kept ++ c' ≡ₚ chain ++ c /\ Forall (fun n => place t n i) kept /\
    Forall (fun n => n ∈ c \/ place t n j) c'.
Proof.
  induction chain as [|n chain IH]; intros t c Hij Hc Hall; cbn [rehash_loop].
  - exists [], c. split_and!; [|done|done|].
    + do 2 f_equal. unfold with_array. rewrite list_insert_id; [by destruct t|]. by apply zget_Some in Hc as [_ ?].
    + apply Forall_forall. by left.
  - apply Forall_cons in Hall as [Hn Hall].
    assert (0 <= j < zlen t.(array)) as Hj by (apply zget_is_Some; by eauto).
    destruct Hn as [(h & Hh & Hb)|(h & Hh & Hb)]; rewrite Hh; cbn [obind]; rewrite Hb.
    + rewrite Z.eqb_refl. cbn [negb].
      destruct (IH t c Hij Hc Hall) as (kept & c' & -> & Hp & Hk & Hc'). cbn [obind].
      exists (n :: kept), c'. split_and!; [done | by cbn; rewrite Hp | | done].
      apply Forall_cons. split; [by exists h | done].
    + rewrite (proj2 (Z.eqb_neq _ _)) by done. cbn [negb].
      unfold chain_at. rewrite Hc. cbn [lift_fault obind]. rewrite set_chain_Ok by done. cbn [obind].
      set (t1 := with_array t (<[Z.to_nat j := n :: c]> t.(array))).
      destruct (IH t1 (n :: c) Hij) as (kept & c' & -> & Hp & Hk & Hc').
      { cbn [array t1 with_array]. by rewrite zget_insert, Z.eqb_refl. }
      { done. }
      exists kept, c'. split_and!; [|by rewrite Hp, <- Permutation_middle | done |].
      * do 2 f_equal. unfold t1, with_array. cbn [array use size split]. by rewrite list_insert_insert_eq.
      * eapply Forall_impl; [exact Hc'|]. intros m [Hm|Hm]; [|by right].
        apply elem_of_cons in Hm as [->|]; [right; by exists h | by left].
Qed.

Lemma split_step t chain kept c' : wf t -> t.(split) < t.(size) / 2 ->
  zget t.(array) t.(split) = Some chain ->
  let t1 := with_split t (t.(split) + 1) in
  kept ++ c' ≡ₚ chain -> Forall (fun n => place t1 n t.(split)) kept ->
  Forall (fun n => place t1 n (t.(split) + t.(size) / 2)) c' ->
  let t' := with_array t1 (<[Z.to_nat t.(split) := kept]>
              (<[Z.to_nat (t.(split) + t.(size) / 2) := c']> t.(array))) in
  wf t' /\ same_nodes t t'.
Proof.
  intros Hwf Hsp Hch t1 Hperm Hk Hc' t'. pose proof (wf_size _ _ Hwf) as Hgood.
  destruct (good_size_half _ Hgood) as (Hp & Heq & _).
  pose proof (wf_split _ _ Hwf) as Hr. pose proof (wf_array _ _ Hwf) as Ha.
  set (i := t.(split)) in *. set (j := i + t.(size) / 2) in *.
  assert (0 <= j < zlen t.(array)) as Hj by lia.
  set (t2 := with_array t1 (<[Z.to_nat j := c']> t.(array))).
  assert (0 <= i < zlen t2.(array)) as Hi by (cbn [array t2 with_array]; rewrite length_insert; lia).
  rewrite Forall_forall in Hk, Hc'.
  assert (forall k n, in_chain t' k n <-> (k = i /\ n ∈ kept) \/ (k = j /\ n ∈ c') \/ (k <> i /\ k <> j /\ in_chain t k n)) as Hin.
  { intros k n. change (in_chain t' k n) with (in_chain (with_array t2 (<[Z.to_nat i := kept]> t2.(array))) k n).
    rewrite in_chain_set by done. change (in_chain t2 k n) with (in_chain (with_array t (<[Z.to_nat j := c']> t.(array))) k n).
    rewrite in_chain_set by done. split; intros H; intuition lia. }
  assert (forall n, n ∈ chain <-> n ∈ kept \/ n ∈ c') as Hmem.
  { intros n. by rewrite <- Hperm, elem_of_app. }
  assert (NoDup (kept ++ c')) as Hnd by (rewrite Hperm; by apply (wf_once _ _ Hwf i)).
  apply NoDup_app in Hnd as (Hnd1 & _ & Hnd2).
  split; [split|].
  - exact Hgood.
  - cbn [split size t' with_array t1 with_split]. fold i. lia.
  - cbn [array size t' with_array t1 with_split]. rewrite !length_insert. done.
  - intros k n Hkn. apply Hin in Hkn as [[-> Hn]|[[-> Hn]|(Hki & Hkj & Hn)]]; [by apply Hk | by apply Hc'|].
    destruct (wf_place _ _ Hwf k n Hn) as (h & Hh & <-). exists h. split; [done|].
    exact (bucket_split_other t h Hgood (conj (proj1 Hr) Hsp) Hki).
  - apply (once_set t2 i kept); [done | done |]. apply (once_set t j c'); [done | done | apply Hwf].
  - intros n. split; intros [k Hn].
    + destruct (Z.eq_dec k i) as [->|Hki].
      { destruct Hn as (c & Hc & Hn). assert (c = chain) as -> by congruence.
        apply Hmem in Hn as [?|?]; [exists i; apply Hin; auto | exists j; apply Hin; auto]. }
      exists k. apply Hin. right; right. split_and!; [done | | done].
      pose proof (in_chain_range t k n Hwf Hn). lia.
    + apply Hin in Hn as [[-> Hn]|[[-> Hn]|(_ & _ & Hn)]]; [| |by exists k];
        (exists i, chain; split; [done | apply Hmem; auto]).
Qed.

Lemma rehash_wf t m : wf t -> exists t' m', rehash hash_of t m = Ok (t', m') /\ wf t' /\ same_nodes t t'.
Proof.
  intros Hwf. unfold rehash. destruct (Z.eqb_spec t.(split) (t.(size) / 2)) as [|Hne]; [by exists t, m|].
  pose proof (wf_size _ _ Hwf) as Hgood. destruct (good_size_half _ Hgood) as (Hp & Heq & _).
  pose proof (wf_split _ _ Hwf) as Hr. pose proof (wf_array _ _ Hwf) as Ha.
  set (t1 := with_split t (t.(split) + 1)). set (j := t.(split) + t.(size) / 2).
  destruct (chain_at_Ok t1 t.(split)) as (chain & Hch & ->); [cbn [array t1 with_split]; lia|]. cbn [obind].
  destruct (chain_at_Ok t1 j) as (c & Hc & _); [cbn [array t1 with_split]; lia|].
  assert (c = []) as ->.
  { destruct c as [|n c]; [done|]. exfalso.
    assert (in_chain t j n) as Hn by (exists (n :: c); split; [done | by left]).
    pose proof (in_chain_range t j n Hwf Hn). lia. }
  destruct (rehash_loop_spec t.(split) j chain t1 []) as (kept & c' & -> & Hperm & Hk & Hc'); [lia | done | |].
  { apply Forall_forall. intros n Hn. destruct (wf_place _ _ Hwf t.(split) n) as (h & Hh & Hb); [by exists chain|].
    destruct (bucket_split t h Hgood ltac:(lia) Hb); [left | right]; by exists h. }
  rewrite app_nil_r in Hperm. cbn [obind].
  rewrite set_chain_Ok by (cbn [array t1 with_split with_array]; rewrite length_insert; lia). cbn [obind].
  destruct (split_step t chain kept c' Hwf ltac:(lia) Hch Hperm Hk) as [Hwf' Hs'].
  { eapply Forall_impl; [exact Hc'|]. intros n [?%elem_of_nil|?]; done. }
  revert Hwf' Hs'. match goal with |- wf ?a -> _ => set (t' := a) end. intros Hwf' Hs'.
  match goal with |- context [with_array ?a ?b] => change (with_array a b) with t' end.
  change (split t') with (split t + 1). change (size t') with (size t).
  destruct (Z.eqb_spec (t.(split) + 1) (t.(size) / 2)) as [Hend|]; [|by exists t', m].
  destruct (node_table_resize t' m) as [[r t2] m2] eqn:Hres.
  destruct (node_table_resize_wf t' m r t2 m2 Hwf' Hend Hres) as [? ?].
  exists t2, m2. split_and!; [done..|]. by etransitivity.
Qed.

(** ** Insertion and removal *)

Lemma insert_node_wf t n h m : wf t -> hash_of n = Ok h -> ~ in_table t n ->
  exists t' m', insert_node hash_of n h t m = Ok (t', m') /\ wf t' /\
    forall k, in_table t' k <-> k = n \/ in_table t k.
Proof.
  intros Hwf Hh Hfresh. pose proof (wf_size _ _ Hwf) as Hgood.
  destruct (good_size_half _ Hgood) as (Hp & Heq & _).
  pose proof (wf_split _ _ Hwf) as Hr. pose proof (wf_array _ _ Hwf) as Ha.
  pose proof (bucket_range t h Hgood Hr) as Hb. unfold insert_node. set (i := bucket_of t h) in *.
  assert (0 <= i < zlen t.(array)) as Hi by lia.
  destruct (chain_at_Ok t i Hi) as (c & Hc & ->). cbn [obind]. rewrite set_chain_Ok by done. cbn [obind].
  set (t1 := with_array t (<[Z.to_nat i := n :: c]> t.(array))). set (t2 := with_use t1 (t1.(use) + 1)).
  assert (forall j k, in_chain t2 j k <-> (j = i /\ k = n) \/ in_chain t j k) as Hin.
  { intros j k. change (in_chain t2 j k) with (in_chain t1 j k). unfold t1. rewrite in_chain_set by done.
    rewrite elem_of_cons. split.
    - intros [[-> [->|Hk]]|[? ?]]; [by left | right; by exists c | by right].
    - intros [[-> ->]|Hk]; [left; auto|]. destruct (Z.eq_dec j i) as [->|]; [left|right; done].
      split; [done|]. destruct Hk as (d & Hd & Hk). assert (d = c) as -> by congruence. by right. }
  assert (wf t2) as Hwf2.
  { split; try apply Hwf.
    - cbn [array size t2 t1 with_use with_array]. rewrite length_insert. done.
    - intros j k [[-> ->]|Hk]%Hin; [by exists h | by apply (wf_place _ _ Hwf)].
    - apply (once_set t i (n :: c)); [done | | apply Hwf]. apply NoDup_cons. split; [|by apply (wf_once _ _ Hwf i)].
      intros Hn. apply Hfresh. by exists i, c. }
  assert (forall k, in_table t2 k <-> k = n \/ in_table t k) as Htab.
  { intros k. split.
    - intros [j [[_ ->]|Hk]%Hin]; [by left | right; by exists j].
    - intros [->|[j Hk]]; [exists i | exists j]; apply Hin; auto. }
  destruct (use t2 >=? size t2 / 2); [|by exists t2, m].
  destruct (rehash_wf t2 m Hwf2) as (t' & m' & -> & Hwf' & Hs). exists t', m'. split_and!; [done..|].
  intros k. by rewrite <- (Hs k).
Qed.

Lemma unchain_spec n c : NoDup c -> match unchain n c with
  | Some c' => n ∈ c /\ NoDup c' /\ forall k, k ∈ c' <-> k ∈ c /\ k <> n
  | None => n ∉ c
  end.
Proof.
  induction c as [|x c IH]; intros Hnd; cbn [unchain]; [by intros ?%elem_of_nil|].
  apply NoDup_cons in Hnd as [Hx Hnd]. destruct (Z.eqb_spec x n) as [->|Hne].
  - split_and!; [by left | done |]. intros k. rewrite elem_of_cons. split; [|by intros [[?|?] ?]].
    intros Hk. split; [by right|]. by intros ->.
  - specialize (IH Hnd). destruct (unchain n c) as [c'|]; cbn [fmap option_fmap option_map].
    + destruct IH as (Hn & Hnd' & Hk). split_and!; [by right | |].
      * apply NoDup_cons. split; [|done]. by intros [? _]%Hk.
      * intros k. rewrite !elem_of_cons, Hk. split; [intros [->|[? ?]]; auto | intros [[->|?] ?]; auto].
    + rewrite not_elem_of_cons. split; [congruence | done].
Qed.

Lemma remove_node_wf t n h : wf t -> hash_of n = Ok h -> in_table t n ->
  exists t', remove_node n h t = Ok (Some t') /\ wf t' /\
    forall k, in_table t' k <-> in_table t k /\ k <> n.
Proof.
  intros Hwf Hh [i Hn]. pose proof (wf_size _ _ Hwf) as Hgood.
  destruct (good_size_half _ Hgood) as (Hp & Heq & _).
  pose proof (wf_split _ _ Hwf) as Hr. pose proof (wf_array _ _ Hwf) as Ha.
  destruct (wf_place _ _ Hwf i n Hn) as (h' & Hh' & <-). assert (h' = h) as -> by congruence.
  pose proof (bucket_range t h Hgood Hr) as Hb. unfold remove_node. set (i := bucket_of t h) in *.
  assert (0 <= i < zlen t.(array)) as Hi by lia.
  destruct (chain_at_Ok t i Hi) as (c & Hc & ->). cbn [obind].
  pose proof (unchain_spec n c (wf_once _ _ Hwf i c Hc)) as Hun.
  assert (n ∈ c) as Hnc by (destruct Hn as (d & Hd & Hn); assert (d = c) as -> by congruence; done).
  destruct (unchain n c) as [c'|]; [|done]. destruct Hun as (_ & Hnd & Hk).
  rewrite set_chain_Ok by done. cbn [obind]. set (t1 := with_array t (<[Z.to_nat i := c']> t.(array))).
  assert (forall j k, in_chain t1 j k <-> in_chain t j k /\ k <> n) as Hin.
  { intros j k. unfold t1. rewrite in_chain_set by done. rewrite Hk. split.
    - intros [[-> [? ?]]|[Hj Hkc]]; [split; [by exists c | done]|]. split; [done|]. intros ->.
      destruct (wf_place _ _ Hwf j n Hkc) as (h'' & ? & <-). apply Hj. unfold i. congruence.
    - intros [Hkc Hne]. destruct (Z.eq_dec j i) as [->|]; [left | by right]. split; [done|].
      destruct Hkc as (d & Hd & ?). assert (d = c) as -> by congruence. done. }
  exists t1. split; [done|]. split; [split; try apply Hwf|].
  - cbn [array size t1 with_array]. by rewrite length_insert.
  - intros j k [Hj _]%Hin. by apply (wf_place _ _ Hwf).
  - apply (once_set t i c'); [done | done | apply Hwf].
  - intros k. split; [intros [j [Hj ?]%Hin]; split; [by exists j | done] | intros [[j Hj] ?]; exists j; by apply Hin].
Qed.

Lemma shrink_wf t m : wf t -> exists t' m', shrink t m = Ok (t', m') /\ wf t' /\ same_nodes t t'.
Proof.
  intros Hwf. unfold shrink. set (t1 := with_use t (use t - 1)).
  assert (wf t1) as Hwf1 by (split; apply Hwf).
  destruct (use t1 <? size t1 / 4); [|by exists t1, m].
  destruct (remerge_wf t1 m Hwf1) as (t' & m' & -> & ? & Hs). by exists t', m'.
Qed.

Lemma table_init_wf t : node_table_init true = Some t -> wf t /\ forall n, ~ in_table t n.
Proof.
  unfold node_table_init.
  assert (zlen (replicate (Z.to_nat NODE_TABLE_MIN_SIZE) ([] : list Z)) = NODE_TABLE_MIN_SIZE) as Hlen
    by (rewrite length_replicate; done).
  assert (forall i c, zget (replicate (Z.to_nat NODE_TABLE_MIN_SIZE) ([] : list Z)) i = Some c -> c = []) as Hno
    by (intros i c [_ Hc]%zget_Some; by apply lookup_replicate in Hc as [-> _]).
  revert Hlen Hno. generalize (replicate (Z.to_nat NODE_TABLE_MIN_SIZE) ([] : list Z)). intros a Hlen Hno [= <-].
  assert (forall i n, ~ in_chain (mk_table a 0 NODE_TABLE_MIN_SIZE 0) i n) as Hin.
  { intros i n (c & Hc%Hno & Hn). subst c. by apply elem_of_nil in Hn. }
  split; [split|].
  - by exists 0%nat.
  - done.
  - cbn [array size]. by rewrite Hlen.
  - intros i n Hn. by destruct (Hin i n).
  - intros i c Hc%Hno. subst c. constructor.
  - intros n [i Hi]. by apply (Hin i n).
Qed.

End facts.
End NodeTableFacts.
