(* ===== verification/FuseNodes.v ===== *)
(** The nodes of libfuse (src/fuse-3.17.2/lib/fuse.c): every name the kernel
    knows has a node with a number; nodes are found by number and by parent and
    name, counted by the lookups of the kernel and by their children, and freed
    when nothing refers to them.  A pointer to a node is a number; the heap maps
    it to the node.  The list of a node in the queue of forgotten nodes is its
    place in [lru_table]. *)
From S2P Require Import Prelude.
From S2P Require Import CLib.
From S2P Require Import FuseTypes.
From S2P Require Import FuseLocks.
From S2P Require Import NodeTable.

Module FuseNodes.
Import FuseTypes NodeTable.

(** ** Definitions *)

Definition FUSE_UNKNOWN_INO : Z := 0xffffffff.
Definition FUSE_ROOT_ID : Z := 1.
Definition TREELOCK_WRITE : Z := -1.
Definition TREELOCK_WAIT_OFFSET : Z := - 2 ^ 31.

(** The size of [inline_name]. *)
Definition INLINE_NAME_SIZE : Z := 32.

(** What a node holds about its file: how often it is open, the attributes last
    seen and when, and the record locks. *)
Record node_file := mk_node_file {
  open_count : Z;
  stat_updated : Z;
  mtime : Z * Z;
  fsize : Z;
  locks : list FuseLocks.lock;
  cache_valid : bool;
}.

Definition file_zero : node_file := mk_node_file 0 0 (0, 0) 0 [] false.

(** [struct node] without the chains; times on the monotonic clock are
    nanoseconds. *)
Record node := mk_node {
  nodeid : Z;
  generation : Z;
  refctr : Z;
  parent : option Z;
  name : option (list byte);
  nlookup : Z;
  is_hidden : Z;
  treelock : Z;
  forget_time : Z;
  file : node_file;
}.

Definition node_zero : node := mk_node 0 0 0 None None 0 0 0 0 file_zero.

Definition with_nodeid (n : node) (i g : Z) : node :=
  mk_node i g n.(refctr) n.(parent) n.(name) n.(nlookup) n.(is_hidden) n.(treelock) n.(forget_time) n.(file).
Definition with_refctr (n : node) (v : Z) : node :=
  mk_node n.(nodeid) n.(generation) v n.(parent) n.(name) n.(nlookup) n.(is_hidden) n.(treelock)
    n.(forget_time) n.(file).
Definition with_name (n : node) (p : option Z) (s : option (list byte)) : node :=
  mk_node n.(nodeid) n.(generation) n.(refctr) p s n.(nlookup) n.(is_hidden) n.(treelock)
    n.(forget_time) n.(file).
Definition with_nlookup (n : node) (v : Z) : node :=
  mk_node n.(nodeid) n.(generation) n.(refctr) n.(parent) n.(name) v n.(is_hidden) n.(treelock)
    n.(forget_time) n.(file).
Definition with_hidden (n : node) (v : Z) : node :=
  mk_node n.(nodeid) n.(generation) n.(refctr) n.(parent) n.(name) n.(nlookup) v n.(treelock)
    n.(forget_time) n.(file).
Definition with_treelock (n : node) (v : Z) : node :=
  mk_node n.(nodeid) n.(generation) n.(refctr) n.(parent) n.(name) n.(nlookup) n.(is_hidden) v
    n.(forget_time) n.(file).
Definition with_forget_time (n : node) (v : Z) : node :=
  mk_node n.(nodeid) n.(generation) n.(refctr) n.(parent) n.(name) n.(nlookup) n.(is_hidden)
    n.(treelock) v n.(file).
Definition with_file (n : node) (v : node_file) : node :=
  mk_node n.(nodeid) n.(generation) n.(refctr) n.(parent) n.(name) n.(nlookup) n.(is_hidden)
    n.(treelock) n.(forget_time) v.

(** [struct fuse] as far as the nodes are concerned; [remember] is the field of
    its configuration, [now] the monotonic clock, [memory] the allocations to
    come. *)
Record fuse := mk_fuse {
  name_table : node_table;
  id_table : node_table;
  lru_table : list Z;
  ctr : Z;
  fgeneration : Z;
  remember : Z;
  nodes : gmap Z node;
  now : Z;
  memory : list bool;
}.

Definition set_name_table (t : node_table) (m : list bool) (f : fuse) : fuse :=
  mk_fuse t f.(id_table) f.(lru_table) f.(ctr) f.(fgeneration) f.(remember) f.(nodes) f.(now) m.
Definition set_id_table (t : node_table) (m : list bool) (f : fuse) : fuse :=
  mk_fuse f.(name_table) t f.(lru_table) f.(ctr) f.(fgeneration) f.(remember) f.(nodes) f.(now) m.
Definition set_lru (l : list Z) (f : fuse) : fuse :=
  mk_fuse f.(name_table) f.(id_table) l f.(ctr) f.(fgeneration) f.(remember) f.(nodes) f.(now) f.(memory).
Definition set_ctr (c g : Z) (f : fuse) : fuse :=
  mk_fuse f.(name_table) f.(id_table) f.(lru_table) c g f.(remember) f.(nodes) f.(now) f.(memory).
Definition set_nodes (n : gmap Z node) (f : fuse) : fuse :=
  mk_fuse f.(name_table) f.(id_table) f.(lru_table) f.(ctr) f.(fgeneration) f.(remember) n f.(now) f.(memory).
Definition set_memory (m : list bool) (f : fuse) : fuse :=
  mk_fuse f.(name_table) f.(id_table) f.(lru_table) f.(ctr) f.(fgeneration) f.(remember) f.(nodes) f.(now) m.

#[local] Abbreviation P := (prog fuse).

Definition modify (g : fuse -> fuse) : P unit := f <-- pget ;; pput (g f).

(** Does the next allocation succeed? *)
Definition allocates : P bool :=
  f <-- pget ;;
  match f.(memory) with
  | [] => pret true
  | b :: m => pput (set_memory m f) ;;; pret b
  end.

Definition node_at (ns : gmap Z node) (p : Z) : outcome node := lift_fault OutOfBounds (ns !! p).

(** Reading and writing through a pointer to a node. *)
Definition load_node (p : Z) : P node := f <-- pget ;; plift (node_at f.(nodes) p).
Definition store_node (p : Z) (n : node) : P unit :=
  _ <-- load_node p ;; modify (fun f => set_nodes (<[p := n]> f.(nodes)) f).

Definition lru_enabled : P bool := f <-- pget ;; pret (f.(remember) >? 0).

(** A node of zeros at a new address, or NULL: the variant of the source that
    calls calloc.  The other one cuts the nodes out of pages, which changes
    where they are and not what they hold. *)
Definition alloc_node : P (option Z) :=
  ok <-- allocates ;;
  if negb ok then pret None
  else
    f <-- pget ;;
    let p := fresh (dom f.(nodes)) in
    pput (set_nodes (<[p := node_zero]> f.(nodes)) f) ;;; pret (Some p).

Definition free_node (p : Z) : P unit :=
  _ <-- load_node p ;; modify (fun f => set_nodes (delete p f.(nodes)) f).

(** *** The table by number *)

(** id_hash before the reduction: an unsigned 32-bit product. *)
Definition id_key (ino : Z) : Z := u32 (u32 ino * 2654435761).

Definition id_hash_of (ns : gmap Z node) (p : Z) : outcome Z :=
  n <- node_at ns p ;; Ok (id_key n.(nodeid)).

Definition id_hash (t : node_table) (ino : Z) : Z := bucket_of t (id_key ino).

(** The loop over a chain. *)
Fixpoint find_id (ns : gmap Z node) (ino : Z) (chain : list Z) : outcome (option Z) :=
  match chain with
  | [] => Ok None
  | p :: r =>
      n <- node_at ns p ;;
      if n.(nodeid) =? ino then Ok (Some p) else find_id ns ino r
  end.

Definition get_node_nocheck (ino : Z) : P (option Z) :=
  f <-- pget ;;
  chain <-- plift (chain_at f.(id_table) (id_hash f.(id_table) ino)) ;;
  plift (find_id f.(nodes) ino chain).

(** A number without a node ends the process. *)
Definition get_node (ino : Z) : P Z :=
  r <-- get_node_nocheck ino ;;
  match r with Some p => pret p | None => pfail ProcessExit end.

Definition remove_node_lru (p : Z) : P unit :=
  modify (fun f => set_lru (filter (fun q => q <> p) f.(lru_table)) f).

Definition set_forget_time (p : Z) : P unit :=
  modify (fun f => set_lru (filter (fun q => q <> p) f.(lru_table) ++ [p]) f) ;;;
  n <-- load_node p ;;
  f <-- pget ;;
  store_node p (with_forget_time n f.(now)).

Definition remerge_id : P unit :=
  f <-- pget ;;
  let? (t, m) := plift (remerge f.(id_table) f.(memory)) in
  pput (set_id_table t m f).

Definition unhash_id (p : Z) : P unit :=
  n <-- load_node p ;;
  f <-- pget ;;
  r <-- plift (NodeTable.remove_node p (id_key n.(nodeid)) f.(id_table)) ;;
  match r with
  | Some t =>
      let? (t, m) := plift (shrink t f.(memory)) in
      pput (set_id_table t m f)
  | None => pret tt
  end.

Definition rehash_id : P unit :=
  f <-- pget ;;
  let? (t, m) := plift (rehash (id_hash_of f.(nodes)) f.(id_table) f.(memory)) in
  pput (set_id_table t m f).

Definition hash_id (p : Z) : P unit :=
  n <-- load_node p ;;
  f <-- pget ;;
  let? (t, m) := plift (insert_node (id_hash_of f.(nodes)) p (id_key n.(nodeid)) f.(id_table)
                          f.(memory)) in
  pput (set_id_table t m f).

(** *** The table by name *)

(** name_hash before the reduction, on 64 bits. *)
Definition name_key (parent : Z) (name : list byte) : Z :=
  foldl (fun hash c => u64 (hash * 31 + uchar c)) (u64 parent) name.

Definition name_hash_of (ns : gmap Z node) (p : Z) : outcome Z :=
  n <- node_at ns p ;;
  q <- lift_fault NullDeref n.(parent) ;;
  d <- node_at ns q ;;
  s <- lift_fault NullDeref n.(name) ;;
  Ok (name_key d.(nodeid) s).

Definition name_hash (t : node_table) (parent : Z) (name : list byte) : Z :=
  bucket_of t (name_key parent name).

Fixpoint find_name (ns : gmap Z node) (dir : Z) (s : list byte) (chain : list Z)
    : outcome (option Z) :=
  match chain with
  | [] => Ok None
  | p :: r =>
      n <- node_at ns p ;;
      q <- lift_fault NullDeref n.(parent) ;;
      d <- node_at ns q ;;
      if d.(nodeid) =? dir then
        t <- lift_fault NullDeref n.(name) ;;
        if bool_decide (t = s) then Ok (Some p) else find_name ns dir s r
      else find_name ns dir s r
  end.

Definition lookup_node (dir : Z) (s : list byte) : P (option Z) :=
  f <-- pget ;;
  chain <-- plift (chain_at f.(name_table) (name_hash f.(name_table) dir s)) ;;
  plift (find_name f.(nodes) dir s chain).

Definition remerge_name : P unit :=
  f <-- pget ;;
  let? (t, m) := plift (remerge f.(name_table) f.(memory)) in
  pput (set_name_table t m f).

Definition rehash_name : P unit :=
  f <-- pget ;;
  let? (t, m) := plift (rehash (name_hash_of f.(nodes)) f.(name_table) f.(memory)) in
  pput (set_name_table t m f).

(** unhash_name calls unref_node for the parent, which may delete it and go on
    upwards: [unref] is that call. *)
Definition unhash_name_with (unref : Z -> P unit) (p : Z) : P unit :=
  n <-- load_node p ;;
  match n.(name) with
  | None => pret tt
  | Some s =>
      q <-- plift (lift_fault NullDeref n.(parent)) ;;
      d <-- load_node q ;;
      f <-- pget ;;
      r <-- plift (NodeTable.remove_node p (name_key d.(nodeid) s) f.(name_table)) ;;
      match r with
      | None => pfail ProcessExit
      | Some t =>
          pput (set_name_table t f.(memory) f) ;;;
          unref q ;;;
          n <-- load_node p ;;
          store_node p (with_name n None None) ;;;
          f <-- pget ;;
          let? (t, m) := plift (shrink f.(name_table) f.(memory)) in
          pput (set_name_table t m f)
      end
  end.

Definition delete_node_with (unref : Z -> P unit) (p : Z) : P unit :=
  n <-- load_node p ;;
  plift (guard_c (n.(treelock) =? 0) AssertFailed) ;;;
  unhash_name_with unref p ;;;
  lru <-- lru_enabled ;;
  (if lru : bool then remove_node_lru p else pret tt) ;;;
  unhash_id p ;;;
  free_node p.

Fixpoint unref_fuel (fuel : nat) (p : Z) : P unit :=
  match fuel with O => pfail OutOfFuel | S fuel =>
    n <-- load_node p ;;
    plift (guard_c (n.(refctr) >? 0) AssertFailed) ;;;
    let n := with_refctr n (n.(refctr) - 1) in
    store_node p n ;;;
    if n.(refctr) =? 0 then delete_node_with (unref_fuel fuel) p else pret tt
  end.

(** A parent is freed at most once, so one level more than there are nodes. *)
Definition unref_node (p : Z) : P unit := f <-- pget ;; unref_fuel (S (base.size f.(nodes))) p.
Definition unhash_name (p : Z) : P unit := unhash_name_with unref_node p.
Definition delete_node (p : Z) : P unit := delete_node_with unref_node p.

(** A name that does not fit into the node is copied. *)
Definition hash_name (p dir : Z) (s : list byte) : P Z :=
  f <-- pget ;;
  let hash := name_key dir s in
  q <-- get_node dir ;;
  copied <-- (if zlen s <? INLINE_NAME_SIZE then pret true else allocates) ;;
  if negb copied then
    n <-- load_node p ;; store_node p (with_name n n.(parent) None) ;;; pret (-1)
  else
    d <-- load_node q ;;
    store_node q (with_refctr d (d.(refctr) + 1)) ;;;
    n <-- load_node p ;;
    store_node p (with_name n (Some q) (Some s)) ;;;
    f <-- pget ;;
    let? (t, m) := plift (insert_node (name_hash_of f.(nodes)) p hash f.(name_table) f.(memory)) in
    pput (set_name_table t m f) ;;; pret 0.

(** *** Numbers and lookups *)

Fixpoint next_id_fuel (fuel : nat) : P Z :=
  match fuel with O => pfail OutOfFuel | S fuel =>
    f <-- pget ;;
    let c := Z.land (u64 (f.(ctr) + 1)) 0xffffffff in
    let g := if c =? 0 then u32 (f.(fgeneration) + 1) else f.(fgeneration) in
    pput (set_ctr c g f) ;;;
    r <-- (if (c =? 0) || (c =? FUSE_UNKNOWN_INO) then pret None else get_node_nocheck c) ;;
    if (c =? 0) || (c =? FUSE_UNKNOWN_INO) || bool_decide (is_Some r) then next_id_fuel fuel
    else pret c
  end.

(** Among one more numbers than there are nodes one is free; two are never
    used. *)
Definition next_id : P Z := f <-- pget ;; next_id_fuel (base.size f.(nodes) + 3).

Definition inc_nlookup (p : Z) : P unit :=
  n <-- load_node p ;;
  let n := if n.(nlookup) =? 0 then with_refctr n (n.(refctr) + 1) else n in
  store_node p (with_nlookup n (u64 (n.(nlookup) + 1))).

Definition find_node (dir : Z) (s : option (list byte)) : P (option Z) :=
  r <-- (match s with
         | None => p <-- get_node dir ;; pret (Some p)
         | Some s => lookup_node dir s
         end) ;;
  lru <-- lru_enabled ;;
  match r with
  | None =>
      a <-- alloc_node ;;
      match a with
      | None => pret None
      | Some p =>
          i <-- next_id ;;
          f <-- pget ;;
          n <-- load_node p ;;
          store_node p (with_nodeid n i f.(fgeneration)) ;;;
          (if negb (f.(remember) =? 0) then inc_nlookup p else pret tt) ;;;
          s <-- plift (lift_fault NullDeref s) ;;
          h <-- hash_name p dir s ;;
          if h =? -1 then free_node p ;;; pret None
          else hash_id p ;;; inc_nlookup p ;;; pret (Some p)
      end
  | Some p =>
      n <-- load_node p ;;
      (if (lru : bool) && (n.(nlookup) =? 1) then remove_node_lru p else pret tt) ;;;
      inc_nlookup p ;;; pret (Some p)
  end.

(** What fuse_new does about nodes: the two tables, and the root. *)
Definition fuse_new_nodes (r clock : Z) (names ids : bool) (m : list bool) : outcome (option fuse) :=
  match node_table_init names, node_table_init ids with
  | Some nt, Some it =>
      let! (root, f) := alloc_node (mk_fuse nt it [] 0 0 r ∅ clock m) in
      match root with
      | None => Ok None
      | Some p =>
          let! (_, f) :=
            (n <-- load_node p ;;
             store_node p (with_nodeid (with_name n None (Some (lit "/"))) FUSE_ROOT_ID n.(generation)) ;;;
             inc_nlookup p ;;; hash_id p) f in
          Ok (Some f)
      end
  | _, _ => Ok None
  end.

End FuseNodes.
