(* ===== verification/FuseNodesFacts.v ===== *)
(** Nodes by number and by name: the two hash tables as maps. *)
From S2P Require Import Prelude.
From S2P Require Import CLib.
From S2P Require Import NodeTable.
From S2P Require Import NodeTableFacts.
From S2P Require Import FuseNodes.

Module FuseNodesFacts.
Import NodeTable NodeTableFacts FuseNodes.

(** ** By number *)

(** The node is in the table under that number. *)
Definition numbered (f : fuse) (i p : Z) : Prop :=
  in_table f.(id_table) p /\ exists n, f.(nodes) !! p = Some n /\ n.(nodeid) = i.

Definition ids_ok (f : fuse) : Prop :=
  table_wf (id_hash_of f.(nodes)) f.(id_table) /\
  forall i p q, numbered f i p -> numbered f i q -> p = q.

Lemma id_hash_of_Ok ns p h : id_hash_of ns p = Ok h <->
  exists n, ns !! p = Some n /\ id_key n.(nodeid) = h.
Proof.
  unfold id_hash_of, node_at. destruct (ns !! p) as [n|]; cbn; split.
  - intros [= <-]. by exists n.
  - intros (m & [= <-] & <-). done.
  - done.
  - by intros (m & ? & _).
Qed.

(** The search in a chain whose nodes exist. *)
Lemma find_id_spec ns i chain :
  (forall p, p ∈ chain -> is_Some (ns !! p)) ->
  exists r, find_id ns i chain = Ok r /\
    match r with
    | Some p => p ∈ chain /\ exists n, ns !! p = Some n /\ n.(nodeid) = i
    | None => forall p n, p ∈ chain -> ns !! p = Some n -> n.(nodeid) <> i
    end.
Proof.
  induction chain as [|p chain IH]; intros Hall.
  { exists None. split; [done|]. by intros p n ?%elem_of_nil. }
  cbn [find_id]. destruct (Hall p) as [n Hn]; [by left|]. unfold node_at. rewrite Hn. cbn [lift_fault obind].
  destruct (Z.eqb_spec n.(nodeid) i) as [Hi|Hi].
  - exists (Some p). split; [done|]. split; [by left | by exists n].
  - destruct IH as (r & Hr & Hspec); [intros q Hq; apply Hall; by right|].
    exists r. split; [done|]. destruct r as [q|].
    + destruct Hspec as [? ?]. split; [by right | done].
    + intros q m Hq Hm. apply elem_of_cons in Hq as [->|Hq]; [congruence | by apply (Hspec q)].
Qed.

(** Every chain of a well-formed table is in range, and its nodes exist. *)
Lemma chain_of_key (hash_of : Z -> outcome Z) t h : table_wf hash_of t ->
  exists c, chain_at t (bucket_of t h) = Ok c /\
    forall p, p ∈ c <-> in_chain t (bucket_of t h) p.
Proof.
  intros Hwf. pose proof (wf_size _ _ Hwf) as Hgood. destruct (good_size_half _ Hgood) as (Hp & Heq & _).
  pose proof (wf_split _ _ Hwf) as Hr. pose proof (wf_array _ _ Hwf) as Ha.
  pose proof (bucket_range t h Hgood Hr) as Hb.
  destruct (chain_at_Ok t (bucket_of t h)) as (c & Hc & Hch); [lia|]. exists c. split; [done|].
  intros p. split; [by exists c|]. intros (d & Hd & ?). assert (d = c) as -> by congruence. done.
Qed.

Lemma get_node_nocheck_run f i : ids_ok f ->
  exists r, get_node_nocheck i f = Ok (r, f) /\ forall p, r = Some p <-> numbered f i p.
Proof.
  intros [Hwf Huniq]. unfold get_node_nocheck. prun_get.
  destruct (chain_of_key _ _ (id_key i) Hwf) as (c & Hc & Hin). unfold id_hash.
  prun_lift Hc. destruct (find_id_spec f.(nodes) i c) as (r & Hr & Hspec).
  { intros p (h & (n & Hn & _)%id_hash_of_Ok & _)%Hin%(wf_place _ _ Hwf). by exists n. }
  unfold plift. rewrite Hr. exists r. split; [done|]. intros p. destruct r as [q|].
  - destruct Hspec as [Hq Hn]. assert (numbered f i q) as Hnum by (split; [by exists (bucket_of f.(id_table) (id_key i)); apply Hin | done]).
    split; [by intros [= <-]|]. intros Hp. f_equal. by apply (Huniq i).
  - split; [done|]. intros [[j Hj] (n & Hn & Hi)]. exfalso. apply (Hspec p n); [|done|done].
    destruct (wf_place _ _ Hwf j p Hj) as (h & (m & Hm & <-)%id_hash_of_Ok & Hb).
    apply Hin. assert (m = n) as -> by congruence. rewrite <- Hi, Hb. done.
Qed.

Lemma hash_id_run f p n : ids_ok f -> f.(nodes) !! p = Some n ->
  (forall q, ~ numbered f n.(nodeid) q) ->
  exists f', hash_id p f = Ok (tt, f') /\ ids_ok f' /\ f'.(nodes) = f.(nodes) /\
    forall i q, numbered f' i q <-> (i = n.(nodeid) /\ q = p) \/ numbered f i q.
Proof.
  intros [Hwf Huniq] Hn Hfresh. unfold hash_id.
  assert (load_node p f = Ok (n, f)) as Hload by (unfold load_node, pbind, pget, plift, node_at; cbn; by rewrite Hn).
  prun Hload. prun_get.
  destruct (insert_node_wf (id_hash_of f.(nodes)) f.(id_table) p (id_key n.(nodeid)) f.(memory) Hwf) as (t' & m' & Hins & Hwf' & Hin).
  { apply id_hash_of_Ok. by exists n. }
  { intros Hp. apply (Hfresh p). split; [done | by exists n]. }
  prun_lift Hins. eexists. split; [done|].
  assert (forall i q, numbered (set_id_table t' m' f) i q <-> (i = n.(nodeid) /\ q = p) \/ numbered f i q) as Hnum.
  { intros i q. unfold numbered. cbn [id_table nodes set_id_table]. rewrite Hin. split.
    - intros [[->|Hq] (m & Hm & Hi)]; [left; split; congruence | right; split; [done | by exists m]].
    - intros [[-> ->]|[Hq Hm]]; split; auto. by exists n. }
  split; [|done]. split; [done|]. intros i q q' [[-> ->]|Hq]%Hnum [[Hi ->]|Hq']%Hnum; [done| | |by apply (Huniq i)].
  - by destruct (Hfresh q').
  - subst i. by destruct (Hfresh q).
Qed.

Lemma unhash_id_run f p n : ids_ok f -> f.(nodes) !! p = Some n -> in_table f.(id_table) p ->
  exists f', unhash_id p f = Ok (tt, f') /\ ids_ok f' /\ f'.(nodes) = f.(nodes) /\
    forall i q, numbered f' i q <-> numbered f i q /\ q <> p.
Proof.
  intros [Hwf Huniq] Hn Hp. unfold unhash_id.
  assert (load_node p f = Ok (n, f)) as Hload by (unfold load_node, pbind, pget, plift, node_at; cbn; by rewrite Hn).
  prun Hload. prun_get.
  destruct (remove_node_wf (id_hash_of f.(nodes)) f.(id_table) p (id_key n.(nodeid)) Hwf) as (t1 & Hrem & Hwf1 & Hin1).
  { apply id_hash_of_Ok. by exists n. }
  { done. }
  prun_lift Hrem. destruct (shrink_wf _ t1 f.(memory) Hwf1) as (t' & m' & Hshr & Hwf' & Hs).
  prun_lift Hshr. eexists. split; [done|].
  assert (forall i q, numbered (set_id_table t' m' f) i q <-> numbered f i q /\ q <> p) as Hnum.
  { intros i q. unfold numbered. cbn [id_table nodes set_id_table]. rewrite <- (Hs q), Hin1. tauto. }
  split; [|done]. split; [done|]. intros i q q' [Hq _]%Hnum [Hq' _]%Hnum. by apply (Huniq i).
Qed.

(** ** New numbers *)

(** A number that cannot be given out. *)
Definition taken (f : fuse) (c : Z) : Prop :=
  c = 0 \/ c = FUSE_UNKNOWN_INO \/ exists p, numbered f c p.

Definition candidates (f : fuse) (n : nat) : list Z :=
  (fun k => (f.(ctr) + Z.of_nat k) mod 2 ^ 32) <$> seq 1 n.

Lemma candidates_NoDup f n : Z.of_nat n <= 2 ^ 32 -> NoDup (candidates f n).
Proof.
  intros Hn. apply NoDup_fmap_2_strong; [|apply NoDup_seq].
  intros x y Hx%elem_of_seq Hy%elem_of_seq He.
  assert ((Z.of_nat x - Z.of_nat y) mod 2 ^ 32 = 0) as Hz.
  { replace (Z.of_nat x - Z.of_nat y) with ((f.(ctr) + Z.of_nat x) - (f.(ctr) + Z.of_nat y)) by lia.
    rewrite Zminus_mod, He, Z.sub_diag. done. }
  apply Z.mod_divide in Hz as [q Hq]; [|lia]. assert (q = 0) as -> by nia. lia.
Qed.

(** More candidates than nodes and the two numbers that are never used. *)
Lemma some_candidate f n : (base.size f.(nodes) + 2 < n)%nat -> Z.of_nat n <= 2 ^ 32 ->
  exists c, c ∈ candidates f n /\ ~ taken f c.
Proof.
  intros Hn Hmax. set (used := 0 :: FUSE_UNKNOWN_INO :: (nodeid <$> (map_to_list f.(nodes)).*2)).
  assert (length used = S (S (base.size f.(nodes)))) as Hlen.
  { unfold used. cbn [length]. rewrite !length_fmap, length_map_to_list. done. }
  destruct (decide (Exists (fun c => c ∉ used) (candidates f n))) as [Hex|Hno].
  - apply Exists_exists in Hex as (c & Hc & Hu). exists c. split; [done|].
    intros [->|[->|(p & _ & m & Hm & <-)]]; apply Hu; unfold used; [by left | by right; left|].
    right; right. apply list_elem_of_fmap. exists m. split; [done|].
    apply list_elem_of_fmap. exists (p, m). split; [done|]. by apply elem_of_map_to_list.
  - exfalso. assert (candidates f n ⊆+ used) as Hsub%submseteq_length.
    { apply NoDup_submseteq; [by apply candidates_NoDup|]. intros c Hc.
      destruct (decide (c ∈ used)) as [|Hu]; [done|]. exfalso. apply Hno, Exists_exists. by exists c. }
    rewrite Hlen in Hsub. unfold candidates in Hsub. rewrite length_fmap, length_seq in Hsub. lia.
Qed.

Lemma next_id_step f : 0 <= f.(ctr) < 2 ^ 32 ->
  Z.land (u64 (f.(ctr) + 1)) 0xffffffff = (f.(ctr) + 1) mod 2 ^ 32.
Proof.
  intros Hc. rewrite uwrap_small by lia. change 0xffffffff with (Z.ones 32). by apply Z.land_ones.
Qed.

Lemma set_ctr_ids c g f : ids_ok f -> ids_ok (set_ctr c g f).
Proof. done. Qed.

Lemma next_id_run fuel : forall f, ids_ok f -> 0 <= f.(ctr) < 2 ^ 32 ->
  (exists c, c ∈ candidates f fuel /\ ~ taken f c) ->
  exists c g, next_id_fuel fuel f = Ok (c, set_ctr c g f) /\ 0 <= c < 2 ^ 32 /\ ~ taken f c.
Proof.
  induction fuel as [|fuel IH]; intros f Hok Hctr (c & Hc & Hfree); [by apply elem_of_nil in Hc|].
  cbn [next_id_fuel]. prun_get. rewrite next_id_step by done.
  set (c1 := (f.(ctr) + 1) mod 2 ^ 32). assert (0 <= c1 < 2 ^ 32) as Hc1 by (apply Z.mod_pos_bound; lia).
  set (g := if c1 =? 0 then u32 (f.(fgeneration) + 1) else f.(fgeneration)).
  prun (pput_run f (set_ctr c1 g f)).
  assert (exists r, (if (c1 =? 0) || (c1 =? FUSE_UNKNOWN_INO) then pret None else get_node_nocheck c1)
      (set_ctr c1 g f) = Ok (r, set_ctr c1 g f) /\
    ((c1 =? 0) || (c1 =? FUSE_UNKNOWN_INO) || bool_decide (is_Some r) = true <-> taken f c1)) as (r & Hr & Htaken).
  { unfold taken. destruct (Z.eqb_spec c1 0); [exists None; split; [done|]; cbn; intuition|].
    destruct (Z.eqb_spec c1 FUSE_UNKNOWN_INO); [exists None; split; [done|]; cbn; intuition|].
    destruct (get_node_nocheck_run (set_ctr c1 g f) c1 Hok) as (r & Hr & Hspec). exists r. split; [done|].
    cbn [orb]. rewrite bool_decide_eq_true. split.
    - intros [p ->]. right; right. exists p. by apply Hspec.
    - intros [?|[?|[p Hp]]]; [done..|]. exists p. by apply Hspec. }
  prun Hr. destruct ((c1 =? 0) || (c1 =? FUSE_UNKNOWN_INO) || bool_decide (is_Some r)) eqn:Hb.
  - destruct (IH (set_ctr c1 g f)) as (c' & g' & Hrun & ? & ?); [done | done | |].
    + exists c. split; [|done]. unfold candidates in Hc |- *.
      apply list_elem_of_fmap in Hc as (k & -> & Hk%elem_of_seq). apply list_elem_of_fmap.
      destruct k as [|[|k]]; [lia | |].
      * exfalso. apply Hfree. change (Z.of_nat 1) with 1. by apply Htaken.
      * exists (S k). split; [|apply elem_of_seq; lia]. cbn [ctr set_ctr]. unfold c1.
        rewrite Zplus_mod_idemp_l. f_equal. lia.
    + by exists c', g'.
  - exists c1, g. split; [done|]. split; [done|]. intros Ht. apply Htaken in Ht. congruence.
Qed.

(** ** By name *)

(** The node is in the table under that name in that directory. *)
Definition named (f : fuse) (dir : Z) (s : list byte) (p : Z) : Prop :=
  in_table f.(name_table) p /\ exists n q d, f.(nodes) !! p = Some n /\ n.(name) = Some s /\
    n.(parent) = Some q /\ f.(nodes) !! q = Some d /\ d.(nodeid) = dir.

Definition names_ok (f : fuse) : Prop :=
  table_wf (name_hash_of f.(nodes)) f.(name_table) /\
  forall dir s p q, named f dir s p -> named f dir s q -> p = q.

Lemma name_hash_of_Ok ns p h : name_hash_of ns p = Ok h <->
  exists n q d s, ns !! p = Some n /\ n.(name) = Some s /\ n.(parent) = Some q /\
    ns !! q = Some d /\ name_key d.(nodeid) s = h.
Proof.
  unfold name_hash_of, node_at. split.
  - destruct (ns !! p) as [n|] eqn:Hn; [|done]. cbn. destruct (n.(parent)) as [q|] eqn:Hq; [|done]. cbn.
    destruct (ns !! q) as [d|] eqn:Hd; [|done]. cbn. destruct (n.(name)) as [s|] eqn:Hs; [|done].
    intros [= <-]. by exists n, q, d, s.
  - intros (n & q & d & s & -> & Hs & Hq & Hd & <-). cbn. rewrite Hq. cbn. rewrite Hd. cbn. by rewrite Hs.
Qed.

Lemma find_name_spec ns dir s chain :
  (forall p, p ∈ chain -> exists h, name_hash_of ns p = Ok h) ->
  exists r, find_name ns dir s chain = Ok r /\
    match r with
    | Some p => p ∈ chain /\ exists n q d, ns !! p = Some n /\ n.(name) = Some s /\
        n.(parent) = Some q /\ ns !! q = Some d /\ d.(nodeid) = dir
    | None => forall p n q d, p ∈ chain -> ns !! p = Some n -> n.(parent) = Some q ->
        ns !! q = Some d -> n.(name) = Some s -> d.(nodeid) <> dir
    end.
Proof.
  induction chain as [|p chain IH]; intros Hall.
  { exists None. split; [done|]. by intros p n q d ?%elem_of_nil. }
  cbn [find_name]. destruct (Hall p) as (h & (n & q & d & t & Hn & Ht & Hq & Hd & _)%name_hash_of_Ok); [by left|].
  unfold node_at. rewrite Hn. cbn [lift_fault obind]. rewrite Hq. cbn [lift_fault obind].
  rewrite Hd. cbn [lift_fault obind].
  destruct IH as (r & Hr & Hspec); [intros k Hk; apply Hall; by right|].
  assert (d.(nodeid) = dir /\ t = s \/ (d.(nodeid) <> dir \/ t <> s)) as [[Hdir ->]|Hne].
  { destruct (Z.eq_dec d.(nodeid) dir), (decide (t = s)); auto. }
  - rewrite (proj2 (Z.eqb_eq _ _) Hdir), Ht. cbn [lift_fault obind]. rewrite bool_decide_eq_true_2 by done.
    exists (Some p). split; [done|]. split; [by left | by exists n, q, d].
  - exists r. split.
    + destruct (Z.eqb_spec d.(nodeid) dir); [|done]. rewrite Ht. cbn [lift_fault obind].
      rewrite bool_decide_eq_false_2; [done|]. by destruct Hne.
    + destruct r as [k|]; [destruct Hspec; split; [by right | done]|].
      intros k m q' d' Hk Hm Hq' Hd' Hs. apply elem_of_cons in Hk as [->|Hk]; [|by eapply Hspec].
      assert (m = n) as -> by congruence. assert (q' = q) as -> by congruence. assert (d' = d) as -> by congruence.
      destruct Hne; congruence.
Qed.

Lemma lookup_node_run f dir s : names_ok f ->
  exists r, lookup_node dir s f = Ok (r, f) /\ forall p, r = Some p <-> named f dir s p.
Proof.
  intros [Hwf Huniq]. unfold lookup_node. prun_get.
  destruct (chain_of_key _ _ (name_key dir s) Hwf) as (c & Hc & Hin). unfold name_hash.
  prun_lift Hc. destruct (find_name_spec f.(nodes) dir s c) as (r & Hr & Hspec).
  { intros p (h & Hh & _)%Hin%(wf_place _ _ Hwf). by exists h. }
  unfold plift. rewrite Hr. exists r. split; [done|]. intros p. destruct r as [q|].
  - destruct Hspec as [Hq Hn]. assert (named f dir s q) as Hnum
      by (split; [by exists (bucket_of f.(name_table) (name_key dir s)); apply Hin | done]).
    split; [by intros [= <-]|]. intros Hp. f_equal. by apply (Huniq dir s).
  - split; [done|]. intros [[j Hj] (n & q & d & Hn & Hs & Hq & Hd & Hi)]. exfalso.
    apply (Hspec p n q d); try done.
    destruct (wf_place _ _ Hwf j p Hj) as (h & (n' & q' & d' & s' & Hn' & Hs' & Hq' & Hd' & <-)%name_hash_of_Ok & Hb).
    apply Hin. assert (n' = n) as -> by congruence. assert (q' = q) as -> by congruence.
    assert (d' = d) as -> by congruence. assert (s' = s) as -> by congruence. by rewrite <- Hi, Hb.
Qed.

Lemma table_wf_ext (h1 h2 : Z -> outcome Z) t :
  (forall n, in_table t n -> h2 n = h1 n) -> table_wf h1 t -> table_wf h2 t.
Proof.
  intros He Hwf. split; try apply Hwf. intros i n Hn.
  destruct (wf_place _ _ Hwf i n Hn) as (h & Hh & Hb). exists h. split; [|done].
  rewrite He; [done | by exists i].
Qed.

Lemma load_node_run f p n : f.(nodes) !! p = Some n -> load_node p f = Ok (n, f).
Proof. intros Hn. unfold load_node, pbind, pget, plift, node_at. cbn. by rewrite Hn. Qed.

Lemma store_node_run f p n m : f.(nodes) !! p = Some n ->
  store_node p m f = Ok (tt, set_nodes (<[p := m]> f.(nodes)) f).
Proof. intros Hn. unfold store_node. by prun (load_node_run f p n Hn). Qed.

Lemma get_node_run f i p : ids_ok f -> numbered f i p -> get_node i f = Ok (p, f).
Proof.
  intros Hok Hp. unfold get_node. destruct (get_node_nocheck_run f i Hok) as (r & Hr & Hspec).
  prun Hr. apply Hspec in Hp as ->. done.
Qed.

(** The state after a name is given to [p] in the directory [q]. *)
Definition named_nodes (ns : gmap Z node) (p q : Z) (n d : node) (s : list byte) : gmap Z node :=
  <[p := with_name n (Some q) (Some s)]> (<[q := with_refctr d (d.(refctr) + 1)]> ns).

Section give_name.
Context (f : fuse) (p q dir : Z) (n d : node) (s : list byte).
Context (Hids : ids_ok f) (Hnames : names_ok f) (Hp : f.(nodes) !! p = Some n)
  (Hq : f.(nodes) !! q = Some d) (Hd : d.(nodeid) = dir) (Hpq : p <> q)
  (Hout : ~ in_table f.(name_table) p).
Let ns := named_nodes f.(nodes) p q n d s.

(** Numbers, and the names and parents of the other nodes, are as before. *)
Definition keeps (k : Z) (m m' : node) : Prop :=
  m'.(nodeid) = m.(nodeid) /\ (k <> p -> m'.(name) = m.(name) /\ m'.(parent) = m.(parent)).

Lemma nodes_forth k m : f.(nodes) !! k = Some m -> exists m', ns !! k = Some m' /\ keeps k m m'.
Proof.
  intros Hm. unfold ns, named_nodes. destruct (decide (k = p)) as [->|Hkp].
  { rewrite lookup_insert_eq. eexists. split; [done|]. assert (m = n) as -> by congruence. done. }
  rewrite lookup_insert_ne by done. destruct (decide (k = q)) as [->|Hkq].
  - rewrite lookup_insert_eq. eexists. split; [done|]. assert (m = d) as -> by congruence. done.
  - rewrite lookup_insert_ne by done. by exists m.
Qed.

Lemma nodes_back k m' : ns !! k = Some m' -> exists m, f.(nodes) !! k = Some m /\ keeps k m m'.
Proof.
  intros Hm'. assert (is_Some (f.(nodes) !! k)) as [m Hm].
  { unfold ns, named_nodes in Hm'. destruct (decide (k = p)) as [->|Hkp]; [by exists n|].
    rewrite lookup_insert_ne in Hm' by done. destruct (decide (k = q)) as [->|Hkq]; [by exists d|].
    rewrite lookup_insert_ne in Hm' by done. by exists m'. }
  exists m. split; [done|]. destruct (nodes_forth k m Hm) as (m2 & Hm2 & ?).
  by assert (m2 = m') as -> by congruence.
Qed.

Lemma name_hash_forth k h : k <> p -> name_hash_of f.(nodes) k = Ok h -> name_hash_of ns k = Ok h.
Proof.
  intros Hk (a & b & c & t & Ha & Ht & Hb & Hc & <-)%name_hash_of_Ok. apply name_hash_of_Ok.
  destruct (nodes_forth k a Ha) as (a' & Ha' & _ & Hka). destruct (Hka Hk) as [Hna Hpa].
  destruct (nodes_forth b c Hc) as (c' & Hc' & Hic & _).
  exists a', b, c', t. split_and!; congruence.
Qed.

Lemma id_hash_same k h : id_hash_of f.(nodes) k = Ok h -> id_hash_of ns k = Ok h.
Proof.
  intros (a & Ha & <-)%id_hash_of_Ok. apply id_hash_of_Ok.
  destruct (nodes_forth k a Ha) as (a' & Ha' & Hi & _). exists a'. by rewrite Hi.
Qed.

Lemma p_hash : name_hash_of ns p = Ok (name_key dir s).
Proof.
  apply name_hash_of_Ok. exists (with_name n (Some q) (Some s)), q, (with_refctr d (d.(refctr) + 1)), s.
  unfold ns, named_nodes. rewrite lookup_insert_eq, lookup_insert_ne, lookup_insert_eq by done.
  split_and!; [done..|]. cbn [nodeid with_refctr]. by rewrite Hd.
Qed.

(** Finding the new name, and the others as before. *)
Lemma give_name_named f' dir' s' k :
  f'.(nodes) = ns -> (forall m, in_table f'.(name_table) m <-> m = p \/ in_table f.(name_table) m) ->
  named f' dir' s' k <-> (dir' = dir /\ s' = s /\ k = p) \/ named f dir' s' k.
Proof.
  intros Hns Hin. unfold named. rewrite Hns, Hin. split.
  - intros [[->|Hk] (m & b & c & Hm & Hs & Hb & Hc & Hi)].
    + left. pose proof p_hash as Hh. apply name_hash_of_Ok in Hh as (m2 & b2 & c2 & t2 & Hm2 & _).
      unfold ns, named_nodes in Hm, Hc. rewrite lookup_insert_eq in Hm. injection Hm as <-.
      cbn [name parent with_name] in Hs, Hb. injection Hs as <-. injection Hb as <-.
      rewrite lookup_insert_ne, lookup_insert_eq in Hc by done. injection Hc as <-.
      cbn [nodeid with_refctr] in Hi. split_and!; congruence.
    + right. split; [done|]. assert (k <> p) as Hkp by congruence.
      destruct (nodes_back k m Hm) as (m0 & Hm0 & _ & Hkeep). destruct (Hkeep Hkp) as [Hn0 Hp0].
      destruct (nodes_back b c Hc) as (c0 & Hc0 & Hi0 & _). exists m0, b, c0. split_and!; congruence.
  - intros [(-> & -> & ->)|[Hk (m & b & c & Hm & Hs & Hb & Hc & Hi)]].
    + split; [by left|]. exists (with_name n (Some q) (Some s)), q, (with_refctr d (d.(refctr) + 1)).
      unfold ns, named_nodes. rewrite lookup_insert_eq, lookup_insert_ne, lookup_insert_eq by done. done.
    + split; [by right|]. assert (k <> p) as Hkp by congruence.
      destruct (nodes_forth k m Hm) as (m' & Hm' & _ & Hkeep). destruct (Hkeep Hkp) as [Hn' Hp'].
      destruct (nodes_forth b c Hc) as (c' & Hc' & Hi' & _). exists m', b, c'. split_and!; congruence.
Qed.

Lemma hash_name_run : numbered f dir q -> (forall k, ~ named f dir s k) ->
  zlen s < INLINE_NAME_SIZE \/ f.(memory) = [] ->
  exists f', hash_name p dir s f = Ok (0, f') /\ f'.(nodes) = ns /\ f'.(id_table) = f.(id_table) /\
    ids_ok f' /\ names_ok f' /\
    forall dir' s' k, named f' dir' s' k <-> (dir' = dir /\ s' = s /\ k = p) \/ named f dir' s' k.
Proof.
  intros Hnum Hnone Hmem. unfold hash_name. prun_get. prun (get_node_run f dir q Hids Hnum).
  assert ((if zlen s <? INLINE_NAME_SIZE then pret true else allocates) f = Ok (true, f)) as Hcopy.
  { destruct (Z.ltb_spec (zlen s) INLINE_NAME_SIZE); [done|]. destruct Hmem as [?|Hm]; [lia|].
    unfold allocates, pbind, pget. cbn. by rewrite Hm. }
  prun Hcopy. cbn [negb]. prun (load_node_run f q d Hq). prun (store_node_run f q d (with_refctr d (refctr d + 1)) Hq).
  set (f1 := set_nodes _ f). assert (f1.(nodes) !! p = Some n) as Hp1 by (cbn [nodes f1 set_nodes]; by rewrite lookup_insert_ne).
  prun (load_node_run f1 p n Hp1). prun (store_node_run f1 p n (with_name n (Some q) (Some s)) Hp1). prun_get.
  change (nodes (set_nodes (<[p:=with_name n (Some q) (Some s)]> (nodes f1)) f1)) with ns.
  destruct Hnames as [Hwf Huniq].
  assert (table_wf (name_hash_of ns) f.(name_table)) as Hwf1.
  { apply (table_wf_ext (name_hash_of f.(nodes))); [|done]. intros k [j Hk].
    destruct (wf_place _ _ Hwf j k Hk) as (h & Hh & _). rewrite Hh. apply name_hash_forth; [|done].
    intros ->. apply Hout. by exists j. }
  destruct (insert_node_wf (name_hash_of ns) f.(name_table) p (name_key dir s) f.(memory) Hwf1 p_hash Hout)
    as (t' & m' & Hins & Hwf' & Hin). prun_lift Hins. eexists. split; [done|].
  split; [done|]. split; [done|]. set (f2 := set_name_table t' m' _).
  pose proof (fun dir' s' k => give_name_named f2 dir' s' k eq_refl Hin) as Hnamed.
  split; [|split; [split|done]].
  - destruct Hids as [Hiwf Hiu]. split.
    + apply (table_wf_ext (id_hash_of f.(nodes))); [|done]. intros k [j Hk].
      destruct (wf_place _ _ Hiwf j k Hk) as (h & Hh & _). rewrite Hh. by apply id_hash_same.
    + intros i k k' [Hk (m & Hm & Hi)] [Hk' (mm & Hmm & Hii)].
      destruct (nodes_back k m Hm) as (m0 & Hm0 & Hi0 & _).
      destruct (nodes_back k' mm Hmm) as (m1 & Hm1 & Hi1 & _).
      apply (Hiu i); (split; [done|]); eexists; (split; [done | congruence]).
  - exact Hwf'.
  - intros dir' s' k k' Hk Hk'. apply Hnamed in Hk, Hk'.
    destruct Hk as [(-> & -> & ->)|Hk], Hk' as [(E1 & E2 & ->)|Hk']; subst; try done.
    + by destruct (Hnone k').
    + by destruct (Hnone k).
    + by apply (Huniq dir' s').
Qed.
End give_name.

(** ** The state fuse_new makes *)

Definition root_node : node := mk_node FUSE_ROOT_ID 0 1 None (Some (lit "/")) 1 0 0 0 file_zero.

(** The tables of a new state hold nothing. *)
Lemma empty_tables t l c g r ns clock m : node_table_init true = Some t ->
  let f := mk_fuse t t l c g r ns clock m in
  ids_ok f /\ names_ok f /\ (forall i q, ~ numbered f i q) /\ (forall dir s q, ~ named f dir s q).
Proof.
  intros Ht f. destruct (table_init_wf (id_hash_of ns) t Ht) as [Hwi Hno].
  destruct (table_init_wf (name_hash_of ns) t Ht) as [Hwn _].
  assert (forall i q, ~ numbered f i q) as Hn by (intros i q [Hq _]; by apply (Hno q)).
  assert (forall dir s q, ~ named f dir s q) as Hm by (intros dir s q [Hq _]; by apply (Hno q)).
  split_and!; try done; (split; [done|]).
  - intros i p q Hp. by destruct (Hn i p).
  - intros dir s p q Hp. by destruct (Hm dir s p).
Qed.

(** Making the root in a state whose only node is zeroed. *)
Lemma make_root t r clock p m : node_table_init true = Some t ->
  let f := mk_fuse t t [] 0 0 r {[ p := node_zero ]} clock m in
  exists f', (n <-- load_node p ;;
     store_node p (with_nodeid (with_name n None (Some (lit "/"))) FUSE_ROOT_ID n.(generation)) ;;;
     inc_nlookup p ;;; hash_id p) f = Ok (tt, f') /\
    ids_ok f' /\ f'.(nodes) = {[ p := root_node ]} /\ f'.(name_table) = t /\
    (forall i q, numbered f' i q <-> i = FUSE_ROOT_ID /\ q = p) /\ f'.(ctr) = 0.
Proof.
  intros Ht f. set (n1 := with_nodeid (with_name node_zero None (Some (lit "/"))) FUSE_ROOT_ID 0).
  prun (load_node_run f p node_zero (lookup_singleton_eq p node_zero)).
  prun (store_node_run f p node_zero n1 (lookup_singleton_eq p node_zero)).
  cbn [nodes f]. rewrite insert_singleton_eq.
  set (f1 := set_nodes {[ p := n1 ]} f). unfold inc_nlookup.
  rewrite pbind_assoc. prun (load_node_run f1 p n1 (lookup_singleton_eq p n1)).
  change (nlookup n1 =? 0) with true. cbv iota.
  change (with_nlookup _ _) with root_node.
  prun (store_node_run f1 p n1 root_node (lookup_singleton_eq p n1)).
  cbn [nodes f1 set_nodes]. rewrite insert_singleton_eq. set (f2 := set_nodes {[ p := root_node ]} f1).
  destruct (empty_tables t [] 0 0 r {[ p := root_node ]} clock m Ht) as (Hids & _ & Hno & _).
  destruct (hash_id_run f2 p root_node Hids (lookup_singleton_eq p root_node) (Hno FUSE_ROOT_ID))
    as (f' & Hrun & Hids' & Hns & Hnum).
  exists f'. split; [exact Hrun|]. 
  assert (f'.(name_table) = t /\ f'.(ctr) = 0) as [Hnt Hctr].
  { revert Hrun. unfold hash_id. prun (load_node_run f2 p root_node (lookup_singleton_eq p root_node)). prun_get.
    unfold pbind, plift. destruct (insert_node _ _ _ _ _) as [[t' m']|]; [|done]. cbn. by intros [= <-]. }
  split_and!; try done. intros i q. rewrite Hnum.
  split; [intros [?|Hq]; [done | by destruct (Hno i q)] | by left].
Qed.

(** The root is the only node, by number 1. *)
Lemma new_nodes_run r clock :
  exists f p, fuse_new_nodes r clock true true [] = Ok (Some f) /\ ids_ok f /\ names_ok f /\
    f.(nodes) = {[ p := root_node ]} /\ (forall i q, numbered f i q <-> i = FUSE_ROOT_ID /\ q = p) /\
    (forall dir s q, ~ named f dir s q) /\ (forall q, ~ in_table f.(name_table) q) /\ f.(ctr) = 0.
Proof.
  unfold fuse_new_nodes. destruct (node_table_init true) as [t|] eqn:Ht; [|done].
  set (p := fresh (dom (∅ : gmap Z node))).
  assert (alloc_node (mk_fuse t t [] 0 0 r ∅ clock []) =
    Ok (Some p, mk_fuse t t [] 0 0 r {[ p := node_zero ]} clock [])) as -> by done.
  cbn [obind]. destruct (make_root t r clock p [] Ht) as (f & -> & Hids & Hns & Hnt & Hnum & Hctr).
  cbn [obind]. destruct (table_init_wf (name_hash_of f.(nodes)) t Ht) as [Hwn Hno].
  assert (forall dir s q, ~ named f dir s q) as Hm by (intros dir s q [Hq _]; rewrite Hnt in Hq; by apply (Hno q)).
  exists f, p. split_and!; try done.
  - split; [by rewrite Hnt|]. intros dir s a b Ha. by destruct (Hm dir s a).
  - by rewrite Hnt.
Qed.

(** With whatever memory there is a state or none. *)
Lemma new_nodes_total r clock names ids m : exists o, fuse_new_nodes r clock names ids m = Ok o.
Proof.
  unfold fuse_new_nodes. destruct names, ids; try (by eexists). destruct (node_table_init true) as [t|] eqn:Ht; [|by eexists].
  set (p := fresh (dom (∅ : gmap Z node))). destruct m as [|[] m].
  - change (alloc_node _) with (Ok (Some p, mk_fuse t t [] 0 0 r {[ p := node_zero ]} clock [])).
    cbn [obind]. destruct (make_root t r clock p [] Ht) as (f & -> & _). by eexists.
  - change (alloc_node _) with (Ok (Some p, mk_fuse t t [] 0 0 r {[ p := node_zero ]} clock m)).
    cbn [obind]. destruct (make_root t r clock p m Ht) as (f & -> & _). by eexists.
  - change (alloc_node _) with (Ok (@None Z, mk_fuse t t [] 0 0 r ∅ clock m)). by eexists.
Qed.

End FuseNodesFacts.
