(* ===== verification/FusePaths.v ===== *)
(** Paths of nodes (src/fuse-3.17.2/lib/fuse.c): the path of a node is put
    together from the end, in a buffer that grows, while every node on the way to
    the root is read-locked; a failure on the way takes the locks back.  And the
    operations that unlink and rename nodes. *)
From S2P Require Import Prelude.
From S2P Require Import CLib.
From S2P Require Import FuseTypes.
From S2P Require Import NodeTable.
From S2P Require Import FuseNodes.

Module FusePaths.
Import FuseTypes FuseNodes.

#[local] Abbreviation P := (prog fuse).

(** ** Definitions *)

(** The path that is put together: the buffer, its size, and where the path
    starts in it. *)
Record pathbuf := mk_pathbuf { pbuf : list cell; bufsize : Z; pstart : Z }.

(** The loop that doubles the size of the buffer; with a size that 32 bits do not
    hold it does not end. *)
Fixpoint grow_loop (fuel : nat) (newbufsize needed : Z) : outcome Z :=
  match fuel with O => Fail OutOfFuel | S fuel =>
    if newbufsize <? needed
    then grow_loop fuel (if 0x80000000 <=? newbufsize then 0xffffffff else u32 (newbufsize * 2)) needed
    else Ok newbufsize
  end.

(** From 256 up, 25 doublings reach every size of 32 bits. *)
Definition GROW_FUEL : nat := 40.

(** [None] when the buffer cannot grow. *)
Definition add_name (b : pathbuf) (name : list byte) : P (option pathbuf) :=
  let len := zlen name in
  grown <-- (if b.(pstart) - len <=? 0 then
      let pathlen := u32 (b.(bufsize) - b.(pstart)) in
      newbufsize <-- plift (grow_loop GROW_FUEL b.(bufsize) (pathlen + len + 1)) ;;
      ok <-- allocates ;;
      match (if ok : bool then realloc (Some b.(pbuf)) newbufsize else None) with
      | None => pret None
      | Some newbuf =>
          let s := newbufsize - pathlen in
          xs <-- plift (mem_read newbuf (b.(bufsize) - pathlen) pathlen) ;;
          newbuf <-- plift (mem_write newbuf s xs) ;;
          pret (Some (mk_pathbuf newbuf newbufsize s))
      end
    else pret (Some b)) ;;
  match grown with
  | None => pret None
  | Some b =>
      let s := b.(pstart) - len in
      m <-- plift (mem_write b.(pbuf) s (cells name)) ;;
      let s := s - 1 in
      m <-- plift (mem_write m s [Byte SLASH]) ;;
      pret (Some (mk_pathbuf m b.(bufsize) s))
  end.

(** From a node up to [end_] or the root; the pointers may be NULL. *)
Fixpoint unlock_loop (fuel : nat) (node end_ : option Z) : P unit :=
  match fuel with O => pfail OutOfFuel | S fuel =>
    if bool_decide (node = end_) then pret tt
    else
      p <-- plift (lift_fault NullDeref node) ;;
      n <-- load_node p ;;
      if n.(nodeid) =? FUSE_ROOT_ID then pret tt
      else
        plift (guard_c (negb (n.(treelock) =? 0)) AssertFailed) ;;;
        plift (guard_c (negb (n.(treelock) =? TREELOCK_WAIT_OFFSET)) AssertFailed) ;;;
        plift (guard_c (negb (n.(treelock) =? TREELOCK_WRITE)) AssertFailed) ;;;
        let t := n.(treelock) - 1 in
        store_node p (with_treelock n (if t =? TREELOCK_WAIT_OFFSET then 0 else t)) ;;;
        unlock_loop fuel n.(parent) end_
  end.

Definition unlock_path (nodeid : Z) (wnode end_ : option Z) : P unit :=
  match wnode with
  | None => pret tt
  | Some w =>
      n <-- load_node w ;;
      plift (guard_c (n.(treelock) =? TREELOCK_WRITE) AssertFailed) ;;;
      store_node w (with_treelock n 0)
  end ;;;
  p <-- get_node nodeid ;;
  f <-- pget ;;
  unlock_loop (base.size f.(nodes) + 2) (Some p) end_.

(** The loop from a node up to the root: the error, if any, the node it stopped
    at, and the path so far. *)
Fixpoint path_loop (fuel : nat) (p : Z) (b : pathbuf) (need_lock : bool) : P (Z * Z * pathbuf) :=
  match fuel with O => pfail OutOfFuel | S fuel =>
    n <-- load_node p ;;
    if n.(nodeid) =? FUSE_ROOT_ID then pret (0, p, b)
    else
      match n.(name), n.(parent) with
      | Some s, Some q =>
          b' <-- add_name b s ;;
          match b' with
          | None => pret (- ENOMEM, p, b)
          | Some b =>
              if need_lock then
                if n.(treelock) <? 0 then pret (- EAGAIN, p, b)
                else
                  plift (guard_c (n.(treelock) <? INT_MAX) SignedOverflow) ;;;
                  store_node p (with_treelock n (n.(treelock) + 1)) ;;;
                  path_loop fuel q b need_lock
              else path_loop fuel q b need_lock
          end
      | _, _ => pret (- ESTALE, p, b)
      end
  end.

(** The write lock on the node under [name], which may not exist; [None] when
    another thread holds it. *)
Definition lock_wnode (nodeid : Z) (name : option (list byte)) : P (option (option Z)) :=
  s <-- plift (lift_fault NullDeref name) ;;
  w <-- lookup_node nodeid s ;;
  match w with
  | None => pret (Some None)
  | Some w =>
      n <-- load_node w ;;
      if negb (n.(treelock) =? 0) then
        (if n.(treelock) >? 0
         then store_node w (with_treelock n (n.(treelock) + TREELOCK_WAIT_OFFSET))
         else pret tt) ;;;
        pret None
      else store_node w (with_treelock n TREELOCK_WRITE) ;;; pret (Some (Some w))
  end.

(** The path as the text at the start of its buffer. *)
Definition finish_path (b : pathbuf) : outcome (list cell) :=
  c <- load b.(pbuf) b.(pstart) ;;
  if negb (bool_decide (c = NUL)) then
    xs <- mem_read b.(pbuf) b.(pstart) (b.(bufsize) - b.(pstart)) ;; mem_write b.(pbuf) 0 xs
  else strcpy b.(pbuf) (cstr (lit "/")).

(** The error, the path and the write-locked node.  [wanted] says whether the
    caller asks for the write lock. *)
Definition try_get_path (nodeid : Z) (name : option (list byte)) (wanted need_lock : bool)
    : P (Z * option (list cell) * option Z) :=
  ok <-- allocates ;;
  if negb ok then pret (- ENOMEM, None, None)
  else
    m <-- plift (mem_write (uninit 256) 255 [Byte NUL]) ;;
    let b := mk_pathbuf m 256 255 in
    b <-- (match name with None => pret (Some b) | Some s => add_name b s end) ;;
    match b with
    | None => pret (- ENOMEM, None, None)
    | Some b =>
        plift (guard_c (negb wanted || need_lock) AssertFailed) ;;;
        w <-- (if wanted then lock_wnode nodeid name else pret (Some None)) ;;
        match w with
        | None => pret (- EAGAIN, None, None)
        | Some wnode =>
            p <-- get_node nodeid ;;
            f <-- pget ;;
            let? (err, node, b) := path_loop (base.size f.(nodes) + 2) p b need_lock in
            if err =? 0 then
              path <-- plift (finish_path b) ;; pret (0, Some path, wnode)
            else
              (if need_lock then unlock_path nodeid wnode (Some node) else pret tt) ;;;
              pret (err, None, None)
        end
    end.

Definition try_get_path2 (nodeid1 : Z) (name1 : option (list byte)) (nodeid2 : Z)
    (name2 : option (list byte)) (wanted1 wanted2 : bool)
    : P (Z * (option (list cell) * option Z) * (option (list cell) * option Z)) :=
  let? (err, path1, wnode1) := try_get_path nodeid1 name1 wanted1 true in
  if negb (err =? 0) then pret (err, (path1, wnode1), (None, None))
  else
    let? (err, path2, wnode2) := try_get_path nodeid2 name2 wanted2 true in
    if negb (err =? 0) then
      unlock_path nodeid1 wnode1 None ;;; pret (err, (None, wnode1), (path2, wnode2))
    else pret (0, (path1, wnode1), (path2, wnode2)).

(** *** Forgetting, unlinking and renaming *)

(** What forget_node does with the node once it need not wait for its lock. *)
Definition forget_lookups (p nlookups : Z) : P unit :=
  n <-- load_node p ;;
  plift (guard_c (n.(nlookup) >=? nlookups) AssertFailed) ;;;
  let n := with_nlookup n (n.(nlookup) - nlookups) in
  store_node p n ;;;
  if n.(nlookup) =? 0 then unref_node p
  else
    lru <-- lru_enabled ;;
    if (lru : bool) && (n.(nlookup) =? 1) then set_forget_time p else pret tt.

Definition unlink_node (p : Z) : P unit :=
  f <-- pget ;;
  (if negb (f.(remember) =? 0) then
     n <-- load_node p ;;
     plift (guard_c (n.(nlookup) >? 1) AssertFailed) ;;;
     store_node p (with_nlookup n (n.(nlookup) - 1))
   else pret tt) ;;;
  unhash_name p.

Definition remove_node (dir : Z) (name : list byte) : P unit :=
  r <-- lookup_node dir name ;;
  match r with Some p => unlink_node p | None => pret tt end.

Definition rename_node (olddir : Z) (oldname : list byte) (newdir : Z) (newname : list byte)
    (hide : bool) : P Z :=
  node <-- lookup_node olddir oldname ;;
  newnode <-- lookup_node newdir newname ;;
  match node with
  | None => pret 0
  | Some p =>
      if bool_decide (is_Some newnode) && hide then pret (- EBUSY)
      else
        match newnode with Some q => unlink_node q | None => pret tt end ;;;
        unhash_name p ;;;
        r <-- hash_name p newdir newname ;;
        if r =? -1 then pret (- ENOMEM)
        else
          (if hide then n <-- load_node p ;; store_node p (with_hidden n 1) else pret tt) ;;;
          pret 0
  end.

Definition exchange_node (olddir : Z) (oldname : list byte) (newdir : Z) (newname : list byte) : P Z :=
  oldnode <-- lookup_node olddir oldname ;;
  newnode <-- lookup_node newdir newname ;;
  match oldnode with Some p => unhash_name p | None => pret tt end ;;;
  match newnode with Some p => unhash_name p | None => pret tt end ;;;
  r <-- match oldnode with Some p => hash_name p newdir newname | None => pret 0 end ;;
  if r =? -1 then pret (- ENOMEM)
  else
    r <-- match newnode with Some p => hash_name p olddir oldname | None => pret 0 end ;;
    if r =? -1 then pret (- ENOMEM) else pret 0.

End FusePaths.
