(* ===== verification/FusePathsFacts.v ===== *)
(** Facts about paths: adding a name in front, climbing to the root, and the
    locks on the way. *)
From S2P Require Import Prelude.
From S2P Require Import CLib.
From S2P Require Import FuseTypes.
From S2P Require Import NodeTable.
From S2P Require Import FuseNodes.
From S2P Require Import FuseNodesFacts.
From S2P Require Import FusePaths.

Module FusePathsFacts.
Import FuseTypes FuseNodes FuseNodesFacts FusePaths.

(** ** The buffer *)

Lemma zdrop_splice {A} (l : list A) i xs : 0 <= i -> i + zlen xs <= zlen l ->
  zdrop i (splice l i xs) = xs ++ zdrop (i + zlen xs) l.
Proof. intros. unfold splice. apply zdrop_app_exact. rewrite zlen_ztake; lia. Qed.

(** The buffer ends in the path and its NUL. *)
Definition holds_path (b : pathbuf) (text : list byte) : Prop :=
  zlen b.(pbuf) = b.(bufsize) /\ 256 <= b.(bufsize) < 2 ^ 32 /\ 0 <= b.(pstart) /\
  b.(pstart) + zlen text + 1 = b.(bufsize) /\ zdrop b.(pstart) b.(pbuf) = cstr text.

Lemma grow_loop_spec needed fuel : forall sz, 256 <= sz < 2 ^ 32 -> needed <= 2 ^ 31 ->
  needed <= sz * 2 ^ Z.of_nat fuel ->
  exists n, grow_loop (S fuel) sz needed = Ok n /\ sz <= n < 2 ^ 32 /\ needed <= n.
Proof.
  induction fuel as [|fuel IH]; intros sz Hsz Hmax Hn; cbn [grow_loop].
  - rewrite (proj2 (Z.ltb_ge _ _)) by lia. exists sz. split; [done | lia].
  - destruct (Z.ltb_spec sz needed) as [Hlt|]; [|exists sz; split; [done | lia]].
    rewrite (proj2 (Z.leb_gt _ _)) by lia. rewrite uwrap_small by lia.
    rewrite Nat2Z.inj_succ, Z.pow_succ_r in Hn by lia.
    destruct (IH (sz * 2)) as (n & Hrun & ? & ?); [lia | done | lia |].
    exists n. split; [exact Hrun | lia].
Qed.

Lemma allocates_run f : f.(memory) = [] -> allocates f = Ok (true, f).
Proof. intros Hm. unfold allocates. prun_get. by rewrite Hm. Qed.

(** The two writes of add_name, in a buffer with room. *)
Lemma put_name (f : fuse) b text name : holds_path b text -> zlen name < b.(pstart) ->
  exists b', (let s := b.(pstart) - zlen name in
    m <-- plift (mem_write b.(pbuf) s (cells name)) ;;
    let s := s - 1 in
    m <-- plift (mem_write m s [Byte SLASH]) ;;
    pret (Some (mk_pathbuf m b.(bufsize) s))) f = Ok (Some b', f) /\ holds_path b' (SLASH :: name ++ text).
Proof.
  intros (Hlen & Hsz & Hs & Hend & Hdrop) Hroom. cbv zeta.
  set (s := b.(pstart) - zlen name).
  assert (0 <= s - 1 /\ s + zlen name <= zlen b.(pbuf)) as [Hs1 Hs2] by (unfold s; lia).
  prun_lift (mem_write_in b.(pbuf) s (cells name) ltac:(lia) ltac:(rewrite zlen_cells; lia)).
  set (m1 := splice b.(pbuf) s (cells name)).
  assert (zlen m1 = b.(bufsize)) as Hm1 by (unfold m1; rewrite zlen_splice; rewrite ?zlen_cells; lia).
  prun_lift (mem_write_in m1 (s - 1) [Byte SLASH] ltac:(lia) ltac:(cbn [length]; lia)).
  eexists. split; [done|]. unfold holds_path. cbn [pbuf bufsize pstart].
  assert (zlen (SLASH :: name ++ text) = 1 + zlen name + zlen text) as Hl
    by (cbn [length]; rewrite length_app; lia).
  split_and!; [rewrite zlen_splice; cbn [length]; lia | lia | lia | lia | rewrite Hl; unfold s; lia |].
  rewrite zdrop_splice by (cbn [length]; lia). cbn [length]. replace (s - 1 + Z.of_nat 1) with s by lia.
  unfold m1. rewrite zdrop_splice by (rewrite ?zlen_cells; lia). rewrite zlen_cells.
  replace (s + zlen name) with b.(pstart) by (unfold s; lia). rewrite Hdrop.
  unfold cstr. rewrite cells_cons, cells_app. cbn [app]. by rewrite <- app_assoc.
Qed.

Lemma add_name_run f b text name : f.(memory) = [] -> holds_path b text ->
  zlen name + zlen text + 2 <= 2 ^ 31 ->
  exists b', add_name b name f = Ok (Some b', f) /\ holds_path b' (SLASH :: name ++ text).
Proof.
  intros Hmem Hb Hmax. pose proof Hb as (Hlen & Hsz & Hs & Hend & Hdrop). unfold add_name.
  destruct (Z.leb_spec (b.(pstart) - zlen name) 0) as [Hle|Hgt]; cycle 1.
  { rewrite (pbind_run _ _ _ _ _ (eq_refl : pret (Some b) f = Ok (Some b, f))). apply (put_name f b text); [done | lia]. }
  rewrite (uwrap_small 32) by lia. set (pathlen := b.(bufsize) - b.(pstart)).
  assert (pathlen = zlen text + 1) as Hpl by (unfold pathlen; lia).
  destruct (grow_loop_spec (pathlen + zlen name + 1) 39 b.(bufsize)) as (n & Hgrow & Hn & Hneed); [lia | lia | lia |].
  rewrite pbind_assoc. prun_lift (Hgrow : grow_loop GROW_FUEL _ _ = _).
  rewrite pbind_assoc. prun (allocates_run f Hmem). cbv iota.
  rewrite realloc_grow by (unfold malloc_max; lia). set (newbuf := b.(pbuf) ++ uninit (n - zlen b.(pbuf))).
  assert (zlen newbuf = n) as Hnl by (unfold newbuf; rewrite zlen_app, zlen_uninit; lia).
  assert (mem_read newbuf (b.(bufsize) - pathlen) pathlen = Ok (cstr text)) as Hread.
  { rewrite mem_read_in by lia. replace (b.(bufsize) - pathlen) with b.(pstart) by (unfold pathlen; lia).
    unfold newbuf. rewrite zdrop_app_le, Hdrop by lia. f_equal.
    apply ztake_app_exact. unfold cstr. rewrite zlen_app, zlen_cells. cbn [length]. lia. }
  rewrite pbind_assoc. prun_lift Hread.
  assert (zlen (cstr text) = pathlen) as Hcl by (unfold cstr; rewrite zlen_app, zlen_cells; cbn [length]; lia).
  rewrite pbind_assoc. prun_lift (mem_write_in newbuf (n - pathlen) (cstr text) ltac:(lia) ltac:(lia)).
  rewrite (pbind_run _ _ _ _ _ (eq_refl : pret (Some (mk_pathbuf (splice newbuf (n - pathlen) (cstr text)) n (n - pathlen))) f = Ok (_, f))).
  apply (put_name f (mk_pathbuf (splice newbuf (n - pathlen) (cstr text)) n (n - pathlen)) text); cbn [pstart]; [|lia].
  unfold holds_path. cbn [pbuf bufsize pstart]. split_and!; try lia; [rewrite zlen_splice; lia|].
  rewrite zdrop_splice by lia. rewrite zdrop_ge by lia. apply app_nil_r.
Qed.


(** ** Climbing *)

(** From [p] up to [r] over nodes with these names. *)
Inductive climbs (ns : gmap Z node) : Z -> list (Z * list byte) -> Z -> Prop :=
  | climb_end p : climbs ns p [] p
  | climb_up p n s q ps r :
      ns !! p = Some n -> n.(nodeid) <> FUSE_ROOT_ID -> n.(name) = Some s -> n.(parent) = Some q ->
      climbs ns q ps r -> climbs ns p ((p, s) :: ps) r.

(** The path of the names, in front of [text]. *)
Definition path_text (ps : list (Z * list byte)) (text : list byte) : list byte :=
  foldl (fun t '(_, s) => SLASH :: s ++ t) text ps.

Lemma climbs_det ns p ps ps' r :
  climbs ns p ps r -> climbs ns p ps' r -> r ∉ ps.*1 -> r ∉ ps'.*1 -> ps = ps'.
Proof.
  intros H. revert ps'. induction H as [p|p n s q ps r Hn Hid Hs Hq Hc IH]; intros ps' H' Hr Hr'.
  - inversion H' as [|? n s q ps r]; subst; [done|]. cbn in Hr'. by apply not_elem_of_cons in Hr' as [? _].
  - cbn in Hr. apply not_elem_of_cons in Hr as [Hne Hr].
    inversion H' as [|? n' s' q' ps2 r2 Hn' Hid' Hs' Hq' Hc']; subst; [done|].
    cbn in Hr'. apply not_elem_of_cons in Hr' as [_ Hr'].
    assert (n' = n) as -> by congruence. assert (s' = s) as -> by congruence. assert (q' = q) as -> by congruence.
    f_equal. by apply IH.
Qed.

Lemma climbs_suffix ns p ps r k : climbs ns p ps r -> k ∈ ps.*1 ->
  exists ps1 ps2, ps = ps1 ++ ps2 /\ climbs ns k ps2 r.
Proof.
  intros H. induction H as [p|p n s q ps r Hn Hid Hs Hq Hc IH]; [by intros ?%elem_of_nil|].
  cbn. intros [->|Hk]%elem_of_cons.
  - exists [], ((p, s) :: ps). split; [done|]. by eapply climb_up.
  - destruct (IH Hk) as (ps1 & ps2 & -> & ?). by exists ((p, s) :: ps1), ps2.
Qed.

(** Nobody is met twice on the way to a node that is not on the way. *)
Lemma climbs_NoDup ns p ps r : climbs ns p ps r -> r ∉ ps.*1 -> NoDup ps.*1.
Proof.
  intros H. induction H as [p|p n s q ps r Hn Hid Hs Hq Hc IH]; intros Hr; [constructor|].
  cbn in *. apply not_elem_of_cons in Hr as [Hne Hr]. apply NoDup_cons. split; [|by apply IH].
  intros Hp. destruct (climbs_suffix _ _ _ _ _ Hc Hp) as (ps1 & ps2 & -> & Hc2).
  rewrite fmap_app, not_elem_of_app in Hr. destruct Hr as [Hr1 Hr2].
  assert ((p, s) :: ps1 ++ ps2 = ps2) as Heq.
  { apply (climbs_det ns p _ _ r); [by eapply climb_up | done | | done].
    cbn. rewrite fmap_app, not_elem_of_cons, not_elem_of_app. done. }
  apply (f_equal length) in Heq. cbn [length] in Heq. rewrite length_app in Heq. lia.
Qed.

Lemma climbs_length ns p ps r : climbs ns p ps r -> r ∉ ps.*1 -> (length ps <= base.size ns)%nat.
Proof.
  intros H Hr. pose proof (climbs_NoDup _ _ _ _ H Hr) as Hnd.
  assert (list_to_set ps.*1 ⊆ dom ns) as Hsub.
  { clear Hr Hnd. induction H as [|p n s q ps r Hn Hid Hs Hq Hc IH]; cbn; [done|].
    apply union_subseteq. split; [|done]. apply singleton_subseteq_l, elem_of_dom. by exists n. }
  apply subseteq_size in Hsub. rewrite size_list_to_set, size_dom, length_fmap in Hsub by done. done.
Qed.

(** ** Locks *)

Definition lock1 (n : node) : node := with_treelock n (n.(treelock) + 1).
(** The last reader takes the mark of a waiting writer with it. *)
Definition unlock1 (n : node) : node :=
  let t := n.(treelock) - 1 in with_treelock n (if t =? TREELOCK_WAIT_OFFSET then 0 else t).

Definition change_all (g : node -> node) (ps : list (Z * list byte)) (ns : gmap Z node) : gmap Z node :=
  foldl (fun ns '(p, _) => alter g p ns) ns ps.

Lemma change_all_lookup g ps : forall ns k, NoDup ps.*1 ->
  change_all g ps ns !! k = if decide (k ∈ ps.*1) then g <$> ns !! k else ns !! k.
Proof.
  unfold change_all. induction ps as [|[p s] ps IH]; intros ns k Hnd; [done|].
  cbn in Hnd |- *. apply NoDup_cons in Hnd as [Hp Hnd]. rewrite IH by done.
  destruct (decide (k = p)) as [->|Hne].
  - rewrite decide_False by done. rewrite decide_True by by left. apply lookup_alter_eq.
  - rewrite lookup_alter_ne by done. destruct (decide (k ∈ ps.*1)) as [Hk|Hk].
    + by rewrite decide_True by by right.
    + rewrite decide_False; [done|]. by intros [?|?]%elem_of_cons.
Qed.

(** The read locks on the way may be taken. *)
Definition lockable (ns : gmap Z node) (ps : list (Z * list byte)) : Prop :=
  forall k n, k ∈ ps.*1 -> ns !! k = Some n -> 0 <= n.(treelock) < INT_MAX.

Lemma unlock_lock ps ns : NoDup ps.*1 -> lockable ns ps ->
  change_all unlock1 ps (change_all lock1 ps ns) = ns.
Proof.
  intros Hnd Hlk. apply map_eq. intros k. rewrite !change_all_lookup by done.
  destruct (decide (k ∈ ps.*1)) as [Hk|]; [|done]. destruct (ns !! k) as [n|] eqn:Hn; [|done].
  destruct (Hlk k n Hk Hn) as [Ht _]. destruct n. cbn in *. unfold unlock1, lock1, with_treelock. cbn.
  rewrite Z.add_simpl_r. unfold TREELOCK_WAIT_OFFSET. by rewrite (proj2 (Z.eqb_neq _ _)) by lia.
Qed.

(** What the changes of a lock leave alone. *)
Definition same_but_lock (n n' : node) : Prop :=
  n'.(nodeid) = n.(nodeid) /\ n'.(name) = n.(name) /\ n'.(parent) = n.(parent).

Lemma climbs_alter g k ns p ps r : (forall n, same_but_lock n (g n)) ->
  climbs ns p ps r -> climbs (alter g k ns) p ps r.
Proof.
  intros Hg H. induction H as [p|p n s q ps r Hn Hid Hs Hq Hc IH]; [constructor|].
  destruct (decide (k = p)) as [->|Hne].
  - destruct (Hg n) as (H1 & H2 & H3). apply (climb_up _ p (g n) s q); try congruence.
    by rewrite lookup_alter_eq, Hn.
  - apply (climb_up _ p n s q); try done. by rewrite lookup_alter_ne.
Qed.

Lemma lock1_same n : same_but_lock n (lock1 n).
Proof. done. Qed.

Lemma unlock1_same n : same_but_lock n (unlock1 n).
Proof. done. Qed.

Lemma alter_store f p n g : f.(nodes) !! p = Some n ->
  store_node p (g n) f = Ok (tt, set_nodes (alter g p f.(nodes)) f).
Proof.
  intros Hn. rewrite (store_node_run f p n _ Hn). do 3 f_equal.
  apply map_eq. intros k. destruct (decide (k = p)) as [->|].
  - by rewrite lookup_insert_eq, lookup_alter_eq, Hn.
  - by rewrite lookup_insert_ne, lookup_alter_ne.
Qed.

Definition names_length (ps : list (Z * list byte)) : Z := zlen (path_text ps []).

Lemma path_text_app ps text : path_text ps text = path_text ps [] ++ text.
Proof.
  revert text. induction ps as [|[p s] ps IH]; intros text; [done|].
  change (path_text ps (SLASH :: s ++ text) = path_text ps (SLASH :: s ++ []) ++ text).
  rewrite IH, (IH (SLASH :: s ++ [])), app_nil_r, <- app_assoc. done.
Qed.

Lemma path_text_length p s ps text :
  zlen (path_text ((p, s) :: ps) text) = 1 + zlen s + zlen text + names_length ps.
Proof.
  unfold names_length. change (path_text ((p, s) :: ps) text) with (path_text ps (SLASH :: s ++ text)).
  rewrite path_text_app, zlen_app. cbn [length]. rewrite length_app. lia.
Qed.

Lemma path_loop_run ps : forall p f b text fuel r,
  climbs f.(nodes) p ps r -> f.(memory) = [] -> holds_path b text -> NoDup ps.*1 ->
  zlen (path_text ps text) + 1 <= 2 ^ 31 -> lockable f.(nodes) ps ->
  exists b', path_loop (length ps + fuel) p b true f =
      path_loop fuel r b' true (set_nodes (change_all lock1 ps f.(nodes)) f) /\
    holds_path b' (path_text ps text).
Proof.
  induction ps as [|[p s] ps IH]; intros p0 f b text fuel r Hc Hmem Hb Hnd Hmax Hlk.
  - inversion Hc; subst. exists b. split; [|done]. by destruct f.
  - inversion Hc as [|? n ? q ? ? Hn Hid Hs Hq Hc']; subst. cbn in Hnd. apply NoDup_cons in Hnd as [Hp Hnd].
    rewrite path_text_length in Hmax. unfold names_length in Hmax.
    destruct (add_name_run f b text s Hmem Hb ltac:(lia)) as (b1 & Hadd & Hb1).
    destruct (Hlk p n) as [Ht0 Ht1]; [by left | done|].
    cbn [length Nat.add path_loop]. prun (load_node_run f p n Hn). rewrite (proj2 (Z.eqb_neq _ _)) by done.
    rewrite Hs, Hq. prun Hadd. rewrite (proj2 (Z.ltb_ge _ _)) by done.
    rewrite (proj2 (Z.ltb_lt _ _)) by done.
    prun_lift (eq_refl : guard_c true SignedOverflow = Ok tt).
    prun (alter_store f p n lock1 Hn). set (f1 := set_nodes (alter lock1 p f.(nodes)) f).
    destruct (IH q f1 b1 (SLASH :: s ++ text) fuel r) as (b' & Hrun & Hb'); try done.
    + by apply climbs_alter.
    + change (path_text ps (SLASH :: s ++ text)) with (path_text ((p, s) :: ps) text).
      rewrite path_text_length. unfold names_length. lia.
    + intros k m Hk Hm. apply (Hlk k); [by right|]. cbn [nodes f1 set_nodes] in Hm.
      rewrite lookup_alter_ne in Hm; [done|]. by intros ->.
    + by exists b'.
Qed.

(** Giving the locks on the way back. *)
Lemma unlock_loop_run ps : forall p f fuel r end_,
  climbs f.(nodes) p ps r -> NoDup ps.*1 -> (forall k, k ∈ ps.*1 -> end_ <> Some k) ->
  (forall k n, k ∈ ps.*1 -> f.(nodes) !! k = Some n ->
     n.(treelock) <> 0 /\ n.(treelock) <> TREELOCK_WAIT_OFFSET /\ n.(treelock) <> TREELOCK_WRITE) ->
  unlock_loop (length ps + fuel) (Some p) end_ f =
    unlock_loop fuel (Some r) end_ (set_nodes (change_all unlock1 ps f.(nodes)) f).
Proof.
  induction ps as [|[p s] ps IH]; intros p0 f fuel r end_ Hc Hnd Hend Hlk.
  - inversion Hc; subst. by destruct f.
  - inversion Hc as [|? n ? q ? ? Hn Hid Hs Hq Hc']; subst. cbn in Hnd. apply NoDup_cons in Hnd as [Hp Hnd].
    destruct (Hlk p n ltac:(by left) Hn) as (Ht0 & Ht1 & Ht2). cbn [length Nat.add unlock_loop].
    rewrite bool_decide_eq_false_2 by (intros <-; by apply (Hend p); [left|]).
    prun_lift (eq_refl : lift_fault NullDeref (Some p) = Ok p). prun (load_node_run f p n Hn).
    rewrite (proj2 (Z.eqb_neq n.(nodeid) _)) by done.
    rewrite !(proj2 (Z.eqb_neq n.(treelock) _)) by done. cbn [negb].
    do 3 prun_lift (eq_refl : guard_c true AssertFailed = Ok tt).
    prun (alter_store f p n unlock1 Hn). rewrite Hq. set (f1 := set_nodes (alter unlock1 p f.(nodes)) f).
    rewrite (IH q f1 fuel r end_); try done.
    + by apply climbs_alter.
    + intros k Hk. apply Hend. by right.
    + intros k m Hk Hm. apply (Hlk k); [by right|]. cbn [nodes f1 set_nodes] in Hm.
      rewrite lookup_alter_ne in Hm; [done|]. by intros ->.
Qed.

(** Changing locks changes no number. *)
Lemma change_all_ids g ps f : (forall n, same_but_lock n (g n)) -> NoDup ps.*1 -> ids_ok f ->
  ids_ok (set_nodes (change_all g ps f.(nodes)) f) /\
  forall i p, numbered (set_nodes (change_all g ps f.(nodes)) f) i p <-> numbered f i p.
Proof.
  intros Hg Hnd [Hwf Huniq]. set (f1 := set_nodes _ f).
  assert (forall k, nodeid <$> f1.(nodes) !! k = nodeid <$> f.(nodes) !! k) as Hsame.
  { intros k. cbn [nodes f1 set_nodes]. rewrite change_all_lookup by done.
    destruct (decide (k ∈ ps.*1)); [|done]. destruct (f.(nodes) !! k) as [n|]; [|done]. cbn.
    by destruct (Hg n) as [-> _]. }
  assert (forall i p, numbered f1 i p <-> numbered f i p) as Hnum.
  { intros i p. unfold numbered. specialize (Hsame p). change (id_table f1) with (id_table f).
    split; intros [Hp (n & Hn & Hi)]; (split; [done|]); rewrite Hn in Hsame.
    - destruct (f.(nodes) !! p) as [m|]; [|done]. exists m. cbn in Hsame. split; [done | congruence].
    - destruct (f1.(nodes) !! p) as [m|]; [|done]. exists m. cbn in Hsame. split; [done | congruence]. }
  split; [|done]. split.
  - apply (table_wf_ext (id_hash_of f.(nodes))); [|done]. intros k _. unfold id_hash_of, node_at.
    specialize (Hsame k). destruct (f1.(nodes) !! k) as [m|], (f.(nodes) !! k) as [n|]; try done.
    cbn in Hsame |- *. by injection Hsame as ->.
  - intros i p q Hp Hq. apply Hnum in Hp, Hq. by apply (Huniq i).
Qed.

(** ** The path of a node *)

Definition start_buf : pathbuf := mk_pathbuf (splice (uninit 256) 255 [Byte NUL]) 256 255.

Lemma start_holds : holds_path start_buf [].
Proof.
  unfold holds_path, start_buf. cbn [pbuf bufsize pstart].
  split_and!; try (vm_compute; done); cbn [length]; lia.
Qed.

(** What callers read as the path: the root alone has no name in front. *)
Definition shown (text : list byte) : list byte :=
  match text with [] => lit "/" | _ => text end.

Lemma load_start b text c rest : holds_path b text -> cstr text = Byte c :: rest ->
  load b.(pbuf) b.(pstart) = Ok c.
Proof.
  intros (Hlen & Hsz & Hs & Hend & Hdrop) Hc. rewrite Hc in Hdrop. unfold load, zget.
  rewrite (proj2 (Z.leb_le 0 _)) by lia. unfold zdrop in Hdrop.
  pose proof (f_equal (fun l => l !! 0%nat) Hdrop) as Hl. rewrite lookup_drop, Nat.add_0_r in Hl. by rewrite Hl.
Qed.

Lemma finish_run b text : holds_path b text -> NUL ∉ text ->
  exists m, finish_path b = Ok m /\ c_string m = Ok (shown text).
Proof.
  intros Hb Hnul. pose proof Hb as (Hlen & Hsz & Hs & Hend & Hdrop).
  assert (forall s, zlen s + 1 <= zlen b.(pbuf) -> NUL ∉ s ->
    mem_write b.(pbuf) 0 (cstr s) = Ok (splice b.(pbuf) 0 (cstr s)) /\
    c_string (splice b.(pbuf) 0 (cstr s)) = Ok s) as Hput.
  { intros s Hl Hn. assert (zlen (cstr s) = zlen s + 1) as Hc by (unfold cstr; rewrite zlen_app, zlen_cells; done).
    rewrite mem_write_in by lia. split; [done|]. unfold splice. cbn [ztake app]. unfold cstr.
    rewrite <- app_assoc. by apply c_string_app. }
  unfold finish_path. destruct text as [|c t].
  - rewrite (load_start b [] NUL [] Hb eq_refl). cbn [obind]. rewrite bool_decide_eq_true_2 by done. cbn [negb].
    unfold strcpy. rewrite c_string_cstr by (apply (bool_decide_unpack _); by vm_compute). cbn [obind].
    destruct (Hput (lit "/")) as [-> Hread]; [change (zlen (lit "/")) with 1; lia | apply (bool_decide_unpack _); by vm_compute |].
    by eexists.
  - rewrite (load_start b (c :: t) c (cstr t) Hb eq_refl). cbn [obind].
    rewrite bool_decide_eq_false_2 by (intros ->; apply Hnul; by left). cbn [negb].
    rewrite mem_read_in by lia. rewrite Hdrop, ztake_ge by (unfold cstr; rewrite zlen_app, zlen_cells; cbn [length] in *; lia).
    cbn [obind]. destruct (Hput (c :: t)) as [-> Hread]; [lia | done |]. by eexists.
Qed.

(** ** Locking a way and giving it back *)

Definition write_locked (wnode : option Z) (ns : gmap Z node) : gmap Z node :=
  match wnode with
  | None => ns
  | Some k => alter (fun n => with_treelock n TREELOCK_WRITE) k ns
  end.

(** The node to be written is free, and it is not on the way. *)
Definition writable (ns : gmap Z node) (wnode : option Z) (ps : list (Z * list byte)) (r : Z) : Prop :=
  forall k, wnode = Some k -> (k ∉ ps.*1) /\ k <> r /\ exists n, ns !! k = Some n /\ n.(treelock) = 0.

(** The way from node number [i] to [r] and what may be locked on it. *)
Record way (f : fuse) (i p : Z) (ps : list (Z * list byte)) (r : Z) (wnode : option Z) : Prop := mk_way {
  way_ids : ids_ok f;
  way_num : numbered f i p;
  way_climbs : climbs f.(nodes) p ps r;
  way_end : r ∉ ps.*1;
  way_locks : lockable f.(nodes) ps;
  way_write : writable f.(nodes) wnode ps r
}.

Lemma change_all_alter g h k ps ns : k ∉ ps.*1 ->
  change_all g ps (alter h k ns) = alter h k (change_all g ps ns).
Proof.
  unfold change_all. revert ns. induction ps as [|[p s] ps IH]; intros ns Hk; [done|].
  cbn in *. apply not_elem_of_cons in Hk as [Hne Hk]. by rewrite alter_alter_ne, IH.
Qed.

Lemma change_all_other g k ps ns : k ∉ ps.*1 -> change_all g ps ns !! k = ns !! k.
Proof.
  unfold change_all. revert ns. induction ps as [|[p s] ps IH]; intros ns Hk; [done|].
  cbn in *. apply not_elem_of_cons in Hk as [Hne Hk]. by rewrite IH, lookup_alter_ne.
Qed.

Lemma change_all_size g ps ns : base.size (change_all g ps ns) = base.size ns.
Proof.
  unfold change_all. revert ns. induction ps as [|[p s] ps IH]; intros ns; [done|].
  cbn. rewrite IH, <- !size_dom. by rewrite dom_alter_L.
Qed.

Lemma climbs_change_all g ps0 ns p ps r : (forall n, same_but_lock n (g n)) ->
  climbs ns p ps r -> climbs (change_all g ps0 ns) p ps r.
Proof.
  intros Hg. revert ns. unfold change_all. induction ps0 as [|[k s] ps0 IH]; intros ns H; [done|].
  cbn. apply IH. by apply climbs_alter.
Qed.

Lemma write_unlock f wnode ps r : writable f.(nodes) wnode ps r ->
  match wnode with
  | None => pret tt
  | Some w =>
      n <-- load_node w ;;
      plift (guard_c (n.(treelock) =? TREELOCK_WRITE) AssertFailed) ;;;
      store_node w (with_treelock n 0)
  end (set_nodes (change_all lock1 ps (write_locked wnode f.(nodes))) f) =
    Ok (tt, set_nodes (change_all lock1 ps f.(nodes)) f).
Proof.
  intros Hw. destruct wnode as [k|]; [|done]. destruct (Hw k eq_refl) as (Hk & _ & n & Hn & Ht). cbn [write_locked].
  rewrite change_all_alter by done. set (ns := change_all lock1 ps f.(nodes)).
  assert (ns !! k = Some n) as Hnk by (unfold ns; by rewrite change_all_other).
  set (f2 := set_nodes _ f). assert (f2.(nodes) !! k = Some (with_treelock n TREELOCK_WRITE)) as H2
    by (cbn [nodes f2 set_nodes]; by rewrite lookup_alter_eq, Hnk).
  prun (load_node_run f2 k _ H2). prun_lift (eq_refl : guard_c true AssertFailed = Ok tt).
  rewrite (store_node_run f2 k _ _ H2).
  change (Ok (tt, set_nodes (<[k := with_treelock n 0]> (alter (fun n => with_treelock n TREELOCK_WRITE) k ns)) f) =
    Ok (tt, set_nodes ns f)). do 3 f_equal.
  apply map_eq. intros j. destruct (decide (j = k)) as [->|Hne].
  - rewrite lookup_insert_eq, Hnk. destruct n. cbn in *. by subst.
  - by rewrite lookup_insert_ne, lookup_alter_ne.
Qed.

Lemma unlock_path_run f i p ps r wnode end_ n :
  way f i p ps r wnode -> f.(nodes) !! r = Some n ->
  (end_ = Some r \/ (end_ = None /\ n.(nodeid) = FUSE_ROOT_ID)) ->
  unlock_path i wnode end_ (set_nodes (change_all lock1 ps (write_locked wnode f.(nodes))) f) = Ok (tt, f).
Proof.
  intros [Hids Hnum Hc Hr Hlk Hw] Hn Hend. pose proof (climbs_NoDup _ _ _ _ Hc Hr) as Hnd.
  unfold unlock_path. prun (write_unlock f wnode ps r Hw). set (f1 := set_nodes _ f).
  destruct (change_all_ids lock1 ps f lock1_same Hnd Hids) as [Hids1 Hnum1].
  prun (get_node_run f1 i p Hids1 (proj2 (Hnum1 i p) Hnum)). prun_get. cbn [nodes f1 set_nodes].
  rewrite change_all_size. pose proof (climbs_length _ _ _ _ Hc Hr) as Hlen.
  replace (base.size f.(nodes) + 2)%nat with (length ps + S (base.size f.(nodes) + 1 - length ps))%nat by lia.
  rewrite (unlock_loop_run ps p f1 _ r end_); [| by apply climbs_change_all, Hc | done | |].
  - unfold f1. cbn [nodes set_nodes]. rewrite unlock_lock by done.
    replace (set_nodes _ (set_nodes _ f)) with f by (by destruct f). cbn [unlock_loop].
    destruct Hend as [->|[-> Hroot]]; [by rewrite bool_decide_eq_true_2|].
    rewrite bool_decide_eq_false_2 by done. prun_lift (eq_refl : lift_fault NullDeref (Some r) = Ok r).
    prun (load_node_run f r n Hn). by rewrite (proj2 (Z.eqb_eq _ _) Hroot).
  - intros k Hk. destruct Hend as [->|[-> _]]; [|done]. intros [= <-]. done.
  - intros k m Hk Hm. cbn [nodes f1 set_nodes] in Hm. rewrite change_all_lookup, decide_True in Hm by done.
    destruct (f.(nodes) !! k) as [m0|] eqn:Hm0; [|done]. injection Hm as <-.
    destruct (Hlk k m0 Hk Hm0). cbn. unfold TREELOCK_WAIT_OFFSET, TREELOCK_WRITE. lia.
Qed.

(** ** The whole search *)

(** What try_get_path does once the buffer and the write lock are there. *)
Definition climb (nodeid : Z) (wnode : option Z) (b : pathbuf) (need_lock : bool) : prog fuse (Z * option (list cell) * option Z) :=
  p <-- get_node nodeid ;;
  f <-- pget ;;
  let? (err, node, b) := path_loop (base.size f.(nodes) + 2) p b need_lock in
  if err =? 0 then
    path <-- plift (finish_path b) ;; pret (0, Some path, wnode)
  else
    (if need_lock then unlock_path nodeid wnode (Some node) else pret tt) ;;;
    pret (err, None, None).

Definition with_way (wnode : option Z) (ps : list (Z * list byte)) (f : fuse) : fuse :=
  set_nodes (change_all lock1 ps (write_locked wnode f.(nodes))) f.

Lemma way_written f i p ps r wnode : way f i p ps r wnode ->
  way (set_nodes (write_locked wnode f.(nodes)) f) i p ps r None.
Proof.
  intros [Hids Hnum Hc Hr Hlk Hw]. destruct wnode as [k|]; [|by replace (set_nodes _ f) with f by (by destruct f)].
  destruct (Hw k eq_refl) as (Hk & _). cbn [write_locked].
  destruct (change_all_ids (fun n => with_treelock n TREELOCK_WRITE) [(k, [])] f) as [Hids1 Hnum1]; [done | | done |].
  { apply NoDup_singleton. }
  split; [exact Hids1 | by apply Hnum1 | by apply climbs_alter | done | | done].
  intros j m Hj Hm. cbn [nodes set_nodes] in Hm. rewrite lookup_alter_ne in Hm by (intros ->; done). by apply (Hlk j).
Qed.

Lemma climb_start f i p ps r wnode b text n :
  way f i p ps r wnode -> f.(memory) = [] -> holds_path b text -> zlen (path_text ps text) + 1 <= 2 ^ 31 ->
  f.(nodes) !! r = Some n ->
  let f1 := set_nodes (write_locked wnode f.(nodes)) f in
  exists b' fuel, holds_path b' (path_text ps text) /\ get_node i f1 = Ok (p, f1) /\
    (with_way wnode ps f).(nodes) !! r = Some n /\
    path_loop (base.size f1.(nodes) + 2) p b true f1 = path_loop (S fuel) r b' true (with_way wnode ps f).
Proof.
  intros Hway Hmem Hb Hmax Hn f1. pose proof (way_written f i p ps r wnode Hway) as [Hids Hnum Hc Hr Hlk _].
  fold f1 in Hids, Hnum, Hc, Hlk. pose proof (climbs_length _ _ _ _ Hc Hr) as Hlen.
  destruct (path_loop_run ps p f1 b text (S (base.size f1.(nodes) + 1 - length ps)) r) as (b' & Hrun & Hb'); try done.
  { by apply (climbs_NoDup _ _ _ _ Hc). }
  exists b', (base.size f1.(nodes) + 1 - length ps)%nat. split_and!; [done | by apply get_node_run | |].
  - unfold with_way. cbn [nodes set_nodes]. rewrite change_all_other by done.
    destruct wnode as [k|]; [|done]. destruct (way_write _ _ _ _ _ _ Hway k eq_refl) as (_ & Hne & _).
    cbn [write_locked]. by rewrite lookup_alter_ne.
  - change (with_way wnode ps f) with (set_nodes (change_all lock1 ps f1.(nodes)) f1).
    rewrite <- Hrun. f_equal. lia.
Qed.

Lemma climb_to_root f i p ps r wnode b text n :
  way f i p ps r wnode -> f.(memory) = [] -> holds_path b text -> zlen (path_text ps text) + 1 <= 2 ^ 31 ->
  f.(nodes) !! r = Some n -> n.(nodeid) = FUSE_ROOT_ID -> NUL ∉ path_text ps text ->
  exists m, climb i wnode b true (set_nodes (write_locked wnode f.(nodes)) f) = Ok ((0, Some m, wnode), with_way wnode ps f) /\
    c_string m = Ok (shown (path_text ps text)).
Proof.
  intros Hway Hmem Hb Hmax Hn Hroot Hnul.
  destruct (climb_start f i p ps r wnode b text n Hway Hmem Hb Hmax Hn) as (b' & fuel & Hb' & Hget & Hr & Hloop).
  destruct (finish_run b' _ Hb' Hnul) as (m & Hm & Hread). exists m. split; [|done].
  assert (path_loop (S fuel) r b' true (with_way wnode ps f) = Ok ((0, r, b'), with_way wnode ps f)) as Hend.
  { cbn [path_loop]. rewrite (pbind_run _ _ _ _ _ (load_node_run _ r n Hr)). by rewrite (proj2 (Z.eqb_eq _ _) Hroot). }
  rewrite Hend in Hloop. unfold climb. prun Hget. prun_get. prun Hloop. change (0 =? 0) with true. cbv iota.
  by prun_lift Hm.
Qed.

(** A way that ends at a node without a name or without a parent, or at one that
    is locked for writing. *)
Lemma climb_blocked f i p ps r wnode b text n :
  way f i p ps r wnode -> f.(memory) = [] -> holds_path b text -> zlen (path_text ps text) + 1 <= 2 ^ 31 ->
  f.(nodes) !! r = Some n -> n.(nodeid) <> FUSE_ROOT_ID ->
  (n.(name) = None \/ n.(parent) = None ->
   climb i wnode b true (set_nodes (write_locked wnode f.(nodes)) f) = Ok ((- ESTALE, None, None), f)) /\
  (forall s, n.(name) = Some s -> is_Some n.(parent) -> n.(treelock) < 0 ->
   zlen s + zlen (path_text ps text) + 2 <= 2 ^ 31 ->
   climb i wnode b true (set_nodes (write_locked wnode f.(nodes)) f) = Ok ((- EAGAIN, None, None), f)).
Proof.
  intros Hway Hmem Hb Hmax Hn Hroot.
  destruct (climb_start f i p ps r wnode b text n Hway Hmem Hb Hmax Hn) as (b' & fuel & Hb' & Hget & Hr & Hloop).
  pose proof (unlock_path_run f i p ps r wnode (Some r) n Hway Hn (or_introl eq_refl)) as Hun.
  fold (with_way wnode ps f) in Hun.
  assert (forall e b2, path_loop (S fuel) r b' true (with_way wnode ps f) = Ok ((- e, r, b2), with_way wnode ps f) -> 0 < e ->
    climb i wnode b true (set_nodes (write_locked wnode f.(nodes)) f) = Ok ((- e, None, None), f)) as Hfail.
  { intros e b2 Hpl He. unfold climb. prun Hget. prun_get. rewrite Hpl in Hloop. prun Hloop.
    rewrite (proj2 (Z.eqb_neq _ _)) by lia. by prun Hun. }
  split.
  - intros Hno. apply (Hfail ESTALE b'); [|done]. cbn [path_loop].
    rewrite (pbind_run _ _ _ _ _ (load_node_run _ r n Hr)). rewrite (proj2 (Z.eqb_neq _ _)) by done.
    destruct Hno as [-> | ->]; [done|]. by destruct (name n).
  - intros s Hs [q Hq] Ht Hl. destruct (add_name_run (with_way wnode ps f) b' _ s Hmem Hb' ltac:(lia)) as (b2 & Hadd & _).
    apply (Hfail EAGAIN b2); [|done]. cbn [path_loop].
    rewrite (pbind_run _ _ _ _ _ (load_node_run _ r n Hr)). rewrite (proj2 (Z.eqb_neq _ _)) by done.
    rewrite Hs, Hq. prun Hadd. by rewrite (proj2 (Z.ltb_lt _ _)).
Qed.

(** The name put at the end of the path, if any. *)
Definition last_text (name : option (list byte)) : list byte :=
  match name with None => [] | Some s => SLASH :: s end.

(** The node that has to be write-locked: the one under the name, when the caller
    asks for it. *)
Definition to_write (f : fuse) (i : Z) (name : option (list byte)) (wanted : bool) (wnode : option Z) : Prop :=
  if wanted then exists s, name = Some s /\ forall k, wnode = Some k <-> named f i s k
  else wnode = None.

Lemma named_last f name : f.(memory) = [] -> zlen (last_text name) + 1 <= 2 ^ 31 ->
  exists b, (match name with None => pret (Some start_buf) | Some s => add_name start_buf s end) f = Ok (Some b, f) /\
    holds_path b (last_text name).
Proof.
  intros Hmem Hl. destruct name as [s|]; [|exists start_buf; split; [done | apply start_holds]].
  destruct (add_name_run f start_buf [] s Hmem start_holds) as (b & Hrun & Hb); [cbn [last_text length] in *; lia|].
  exists b. by rewrite app_nil_r in Hb.
Qed.

Lemma lock_wnode_run f i s wnode : names_ok f -> (forall k, wnode = Some k <-> named f i s k) ->
  (forall k n, wnode = Some k -> f.(nodes) !! k = Some n -> n.(treelock) = 0) ->
  lock_wnode i (Some s) f = Ok (Some wnode, set_nodes (write_locked wnode f.(nodes)) f).
Proof.
  intros Hnames Hw Hfree. unfold lock_wnode. prun_lift (eq_refl : lift_fault NullDeref (Some s) = Ok s).
  destruct (lookup_node_run f i s Hnames) as (w & Hrun & Hspec). prun Hrun.
  assert (w = wnode) as ->.
  { destruct wnode as [k|]; [by apply Hspec, Hw|]. destruct w as [k|]; [|done].
    pose proof (proj1 (Hspec k) eq_refl) as Hk. by apply Hw in Hk. }
  destruct wnode as [k|]; [|by destruct f]. destruct (proj1 (Hspec k) eq_refl) as (_ & n & q & d & Hn & _).
  prun (load_node_run f k n Hn). rewrite (Hfree k n eq_refl Hn). change (negb (0 =? 0)) with false. cbv iota.
  prun (alter_store f k n (fun n => with_treelock n TREELOCK_WRITE) Hn). done.
Qed.

Lemma try_get_path_start f i name wanted wnode :
  names_ok f -> f.(memory) = [] -> zlen (last_text name) + 1 <= 2 ^ 31 -> to_write f i name wanted wnode ->
  (forall k n, wnode = Some k -> f.(nodes) !! k = Some n -> n.(treelock) = 0) ->
  exists b, holds_path b (last_text name) /\
    try_get_path i name wanted true f = climb i wnode b true (set_nodes (write_locked wnode f.(nodes)) f).
Proof.
  intros Hnames Hmem Hl Hw Hfree. destruct (named_last f name Hmem Hl) as (b & Hadd & Hb). exists b. split; [done|].
  unfold try_get_path. prun (allocates_run f Hmem). cbn [negb].
  prun_lift (mem_write_in (uninit 256) 255 [Byte NUL] ltac:(lia) ltac:(vm_compute; done)).
  fold start_buf. prun Hadd. rewrite orb_true_r. prun_lift (eq_refl : guard_c true AssertFailed = Ok tt).
  unfold to_write in Hw. destruct wanted.
  - destruct Hw as (s & -> & Hw). by prun (lock_wnode_run f i s wnode Hnames Hw Hfree).
  - subst wnode. rewrite (pbind_run _ _ _ _ _ (eq_refl : pret (Some None) f = Ok (Some None, f))).
    cbn [write_locked]. by replace (set_nodes f.(nodes) f) with f by (by destruct f).
Qed.

(** A name whose node is locked already. *)
Lemma try_get_path_busy f i s k n : names_ok f -> f.(memory) = [] -> zlen s + 2 <= 2 ^ 31 ->
  named f i s k -> f.(nodes) !! k = Some n -> n.(treelock) <> 0 ->
  try_get_path i (Some s) true true f =
    Ok ((- EAGAIN, None, None),
      if 0 <? n.(treelock)
      then set_nodes (<[k := with_treelock n (n.(treelock) + TREELOCK_WAIT_OFFSET)]> f.(nodes)) f else f).
Proof.
  intros Hnames Hmem Hl Hk Hn Ht. destruct (named_last f (Some s) Hmem) as (b & Hadd & Hb); [cbn [last_text length]; lia|].
  unfold try_get_path. prun (allocates_run f Hmem). cbn [negb].
  prun_lift (mem_write_in (uninit 256) 255 [Byte NUL] ltac:(lia) ltac:(vm_compute; done)).
  fold start_buf. prun Hadd. prun_lift (eq_refl : guard_c true AssertFailed = Ok tt). unfold lock_wnode.
  rewrite pbind_assoc. prun_lift (eq_refl : lift_fault NullDeref (Some s) = Ok s).
  destruct (lookup_node_run f i s Hnames) as (w & Hrun & Hspec). rewrite pbind_assoc. prun Hrun.
  rewrite (proj2 (Hspec k) Hk). rewrite pbind_assoc. prun (load_node_run f k n Hn).
  rewrite (proj2 (Z.eqb_neq n.(treelock) 0)) by done. cbn [negb]. rewrite Z.gtb_ltb.
  destruct (0 <? n.(treelock)); [|done]. rewrite pbind_assoc.
  by prun (store_node_run f k n (with_treelock n (n.(treelock) + TREELOCK_WAIT_OFFSET)) Hn).
Qed.

Lemma hash_id_names p f u f' : hash_id p f = Ok (u, f') -> f'.(name_table) = f.(name_table).
Proof.
  unfold hash_id, load_node, pbind, pget, plift, pret, pput. cbn. destruct (node_at f.(nodes) p) as [n|]; [|done].
  cbn. destruct (NodeTable.insert_node _ _ _ _ _) as [[t m]|]; [|done]. by intros [= _ <-].
Qed.

End FusePathsFacts.
