(* ===== verification/LockTable.v ===== *)
(** Locks on nodes, apart from the nodes: a table of lock counts, what taking and
    giving a claim on a path does to it, and the invariant that ties the counts to
    the claims that are held. *)
From S2P Require Import Prelude.
From S2P Require Import CLib.
From S2P Require Import FuseNodes.

Module LockTable.
Import FuseNodes.

(** ** Claims *)

(** The nodes to be locked for reading, and the one to be locked for writing. *)
Record claim := mk_claim { c_way : list Z; c_write : option Z }.

Definition fair (c : claim) : Prop := NoDup c.(c_way) /\ forall k, c.(c_write) = Some k -> k ∉ c.(c_way).

Definition take (c : claim) (L : Z -> Z) (k : Z) : Z :=
  if decide (c.(c_write) = Some k) then TREELOCK_WRITE
  else if decide (k ∈ c.(c_way)) then L k + 1 else L k.

Definition free1 (t : Z) : Z := if t - 1 =? TREELOCK_WAIT_OFFSET then 0 else t - 1.

Definition give (c : claim) (L : Z -> Z) (k : Z) : Z :=
  if decide (c.(c_write) = Some k) then 0
  else if decide (k ∈ c.(c_way)) then free1 (L k) else L k.

(** A writer that finds readers leaves its mark. *)
Definition mark (c : claim) (L : Z -> Z) (k : Z) : Z :=
  if decide (c.(c_write) = Some k) then (if 0 <? L k then L k + TREELOCK_WAIT_OFFSET else L k) else L k.

Definition write_busy (c : claim) (L : Z -> Z) : bool :=
  match c.(c_write) with Some k => negb (L k =? 0) | None => false end.

Definition way_busy (c : claim) (L : Z -> Z) : bool := existsb (fun k => L k <? 0) c.(c_way).

Definition try_take (c : claim) (L : Z -> Z) : bool * (Z -> Z) :=
  if write_busy c L then (false, mark c L)
  else if way_busy c L then (false, L)
  else (true, take c L).

(** Two claims, the second after the first. *)
Definition try_take2 (c1 c2 : claim) (L : Z -> Z) : bool * (Z -> Z) :=
  let '(ok, L) := try_take c1 L in
  if ok then let '(ok, L) := try_take c2 L in if ok then (true, L) else (false, give c1 L)
  else (false, L).

Definition try_claims (c : claim) (c2 : option claim) (L : Z -> Z) : bool * (Z -> Z) :=
  match c2 with None => try_take c L | Some c2 => try_take2 c c2 L end.

(** ** The invariant *)

Definition readers (hs : list claim) (k : Z) : Z := zlen (filter (fun c => k ∈ c.(c_way)) hs).
Definition writers (hs : list claim) (k : Z) : Z := zlen (filter (fun c => c.(c_write) = Some k) hs).

(** A node is locked for writing by one claim and no reader, or it counts its
    readers, marked or not. *)
Definition counted (hs : list claim) (L : Z -> Z) : Prop := forall k,
  (writers hs k = 1 /\ readers hs k = 0 /\ L k = TREELOCK_WRITE) \/
  (writers hs k = 0 /\ (L k = readers hs k \/ (0 < readers hs k /\ L k = readers hs k + TREELOCK_WAIT_OFFSET))).

Definition few (hs : list claim) : Prop := zlen hs < INT_MAX.

Lemma readers_cons c hs k : readers (c :: hs) k = (if decide (k ∈ c.(c_way)) then 1 else 0) + readers hs k.
Proof. unfold readers. rewrite filter_cons. destruct (decide _); cbn [length]; lia. Qed.

Lemma writers_cons c hs k : writers (c :: hs) k = (if decide (c.(c_write) = Some k) then 1 else 0) + writers hs k.
Proof. unfold writers. rewrite filter_cons. destruct (decide _); cbn [length]; lia. Qed.

Lemma readers_range hs k : 0 <= readers hs k <= zlen hs.
Proof. unfold readers. pose proof (length_filter (fun c => k ∈ c.(c_way)) hs). lia. Qed.

#[global] Instance counted_perm : Proper ((≡ₚ) ==> eq ==> iff) counted.
Proof.
  intros hs hs' Hp L ? <-. unfold counted, readers, writers. split; intros H k; specialize (H k).
  - by rewrite <- !Hp.
  - by rewrite !Hp.
Qed.

Lemma counted_ext hs L L' : (forall k, L' k = L k) -> counted hs L -> counted hs L'.
Proof. intros He H k. rewrite He. apply H. Qed.

Lemma counted_range hs L k : counted hs L -> few hs -> TREELOCK_WAIT_OFFSET < L k < INT_MAX.
Proof.
  intros H Hf. pose proof (readers_range hs k). unfold few, TREELOCK_WAIT_OFFSET, TREELOCK_WRITE, INT_MAX in *.
  destruct (H k) as [(_ & _ & ->)|(_ & [->|[? ->]])]; unfold TREELOCK_WRITE, TREELOCK_WAIT_OFFSET; lia.
Qed.

Lemma way_free c L : way_busy c L = false <-> forall k, k ∈ c.(c_way) -> 0 <= L k.
Proof.
  unfold way_busy. rewrite <- not_true_iff_false, existsb_exists. split.
  - intros Hno k Hk. destruct (Z.ltb_spec (L k) 0); [|done]. exfalso. apply Hno. exists k.
    split; [by apply list_elem_of_In | by apply Z.ltb_lt].
  - intros H (k & Hk%list_elem_of_In & Hl%Z.ltb_lt). specialize (H k Hk). lia.
Qed.

Lemma write_free c L : write_busy c L = false <-> forall k, c.(c_write) = Some k -> L k = 0.
Proof.
  unfold write_busy. destruct c.(c_write) as [k|]; [|done]. rewrite negb_false_iff, Z.eqb_eq.
  split; [by intros ? ? [= <-] | intros H; by apply H].
Qed.

(** Taking a claim that is free. *)
Lemma take_counted c hs L : counted hs L -> fair c -> write_busy c L = false -> way_busy c L = false ->
  few hs -> counted (c :: hs) (take c L).
Proof.
  intros H [Hnd Hw] Hwf Hyf Hf k. rewrite write_free in Hwf. rewrite way_free in Hyf. rewrite readers_cons, writers_cons. unfold take.
  pose proof (readers_range hs k) as Hr. unfold few, INT_MAX in Hf.
  destruct (decide (c.(c_write) = Some k)) as [Hk|Hk].
  - rewrite decide_False by (by apply Hw). specialize (Hwf k Hk). specialize (H k). unfold TREELOCK_WRITE, TREELOCK_WAIT_OFFSET in *.
    left. destruct H as [(? & ? & ?)|(? & [?|[? ?]])]; lia.
  - specialize (H k). destruct (decide (k ∈ c.(c_way))) as [Hin|Hin]; [|exact H].
    specialize (Hyf k Hin). right. unfold TREELOCK_WRITE, TREELOCK_WAIT_OFFSET in *.
    destruct H as [(? & ? & ?)|(? & [?|[? ?]])]; [lia | split; [lia | left; lia] | lia].
Qed.

(** A claim that fails. *)
Lemma mark_counted c hs L : counted hs L -> few hs -> counted hs (mark c L).
Proof.
  intros H Hf k. unfold mark. destruct (decide _); [|apply H]. specialize (H k).
  destruct (Z.ltb_spec 0 (L k)); [|exact H]. pose proof (readers_range hs k) as Hr.
  unfold few, INT_MAX, TREELOCK_WRITE, TREELOCK_WAIT_OFFSET in *.
  destruct H as [(? & ? & ?)|(? & [He|[? He]])]; [lia | right; split; [done | right; lia] | lia].
Qed.

Lemma try_take_counted c hs L ok L' : counted hs L -> fair c -> few hs -> try_take c L = (ok, L') ->
  counted (if ok then c :: hs else hs) L'.
Proof.
  intros H Hfair Hf. unfold try_take. destruct (write_busy c L) eqn:Hw; [intros [= <- <-]; by apply mark_counted|].
  destruct (way_busy c L) eqn:Hy; intros [= <- <-]; [done | by apply take_counted].
Qed.

(** Giving a claim back. *)
Lemma give_counted c hs L : counted (c :: hs) L -> fair c -> few (c :: hs) -> counted hs (give c L).
Proof.
  intros H [Hnd Hw] Hf k. specialize (H k). rewrite readers_cons, writers_cons in H. unfold give, free1.
  pose proof (readers_range hs k) as Hr. unfold few, INT_MAX, TREELOCK_WRITE, TREELOCK_WAIT_OFFSET in *. cbn [length] in Hf.
  destruct (decide (c.(c_write) = Some k)) as [Hk|Hk].
  - rewrite decide_False in H by (by apply Hw). right. destruct H as [(? & ? & ?)|(? & ?)].
    + split; [lia | left; lia].
    + unfold writers in *. lia.
  - destruct (decide (k ∈ c.(c_way))) as [Hin|Hin].
    + destruct H as [(? & ? & ?)|(? & [He|[? He]])]; [lia | right; split; [lia|] | right; split; [lia|]].
      * rewrite (proj2 (Z.eqb_neq _ _)) by lia. left. lia.
      * destruct (Z.eqb_spec (L k - 1) (- 2 ^ 31)); [left; lia | right; lia].
    + exact H.
Qed.

(** What unlock_path asserts. *)
Lemma held_locks c hs L k : counted (c :: hs) L -> fair c -> few (c :: hs) ->
  (c.(c_write) = Some k -> L k = TREELOCK_WRITE) /\
  (k ∈ c.(c_way) -> L k <> 0 /\ L k <> TREELOCK_WAIT_OFFSET /\ L k <> TREELOCK_WRITE).
Proof.
  intros H [Hnd Hw] Hf. specialize (H k). rewrite readers_cons, writers_cons in H.
  pose proof (readers_range hs k) as Hr. unfold few, INT_MAX, TREELOCK_WRITE, TREELOCK_WAIT_OFFSET in *. cbn [length] in Hf. split.
  - intros Hk. rewrite decide_True in H by done. destruct H as [(? & ? & ?)|(? & ?)]; [done | unfold writers in *; lia].
  - intros Hin. rewrite (decide_True (P := k ∈ _)) in H by done. destruct H as [(? & ? & ?)|(? & [He|[? He]])]; lia.
Qed.

(** ** More locks *)

(** Whatever is locked for some claim stays so. *)
Definition more (L L' : Z -> Z) : Prop := forall k, (L k < 0 -> L' k < 0) /\ (L k <> 0 -> L' k <> 0).

#[global] Instance more_preorder : PreOrder more.
Proof. split; [done|]. intros L1 L2 L3 H1 H2 k. destruct (H1 k), (H2 k). auto. Qed.

Lemma mark_more c L : (forall k, L k < 2 ^ 31) -> more L (mark c L).
Proof.
  intros Hb k. specialize (Hb k). unfold mark, TREELOCK_WAIT_OFFSET. destruct (decide _); [|done].
  destruct (Z.ltb_spec 0 (L k)); [lia | done].
Qed.

Lemma take_more c L : write_busy c L = false -> way_busy c L = false -> more L (take c L).
Proof.
  rewrite write_free, way_free. intros Hw Hy k. unfold take, TREELOCK_WRITE.
  destruct (decide (c.(c_write) = Some k)) as [Hk|_]; [rewrite (Hw k Hk); lia|].
  destruct (decide (k ∈ c.(c_way))) as [Hin|_]; [specialize (Hy k Hin); lia | done].
Qed.

(** Giving a claim back after an attempt that failed. *)
Lemma give_more c L : (forall k, L k < INT_MAX) -> write_busy c L = false -> way_busy c L = false ->
  forall L2, (forall k, L2 k = take c L k \/ (0 < take c L k /\ L2 k = take c L k + TREELOCK_WAIT_OFFSET)) ->
  more L (give c L2).
Proof.
  rewrite write_free, way_free. intros Hb Hw Hy L2 H2 k. specialize (H2 k). specialize (Hb k).
  unfold give, free1, take, TREELOCK_WRITE, TREELOCK_WAIT_OFFSET, INT_MAX in *.
  destruct (decide (c.(c_write) = Some k)) as [Hk|_]; [rewrite (Hw k Hk); lia|].
  destruct (decide (k ∈ c.(c_way))) as [Hin|_]; [specialize (Hy k Hin) | destruct H2 as [->|[? ->]]; lia].
  destruct (Z.eqb_spec (L2 k - 1) (- 2 ^ 31)); lia.
Qed.

Lemma try_take_more c L ok L' : (forall k, L k < INT_MAX) -> try_take c L = (ok, L') -> more L L'.
Proof.
  intros Hb. unfold try_take. destruct (write_busy c L) eqn:Hw.
  - intros [= <- <-]. apply mark_more. intros k. specialize (Hb k). unfold INT_MAX in Hb. lia.
  - destruct (way_busy c L) eqn:Hy; intros [= <- <-]; [done | by apply take_more].
Qed.

(** A claim that fails fails with more locks as well. *)
Lemma busy_more c L L' : more L L' -> (try_take c L).1 = false -> (try_take c L').1 = false.
Proof.
  intros Hm. unfold try_take.
  assert (write_busy c L' = false -> write_busy c L = false) as Hw.
  { rewrite !write_free. intros H k Hk. destruct (Hm k) as [_ Hk2]. specialize (H k Hk). destruct (Z.eq_dec (L k) 0); [done | by destruct (Hk2 n)]. }
  assert (way_busy c L' = false -> way_busy c L = false) as Hy.
  { rewrite !way_free. intros H k Hk. destruct (Hm k) as [Hk1 _]. specialize (H k Hk). lia. }
  destruct (write_busy c L'); [done|]. rewrite Hw by done. destruct (way_busy c L'); [done|]. by rewrite Hy.
Qed.

Lemma take_mono c L L' : way_busy c L = false -> way_busy c L' = false -> more L L' ->
  more (take c L) (take c L').
Proof.
  rewrite !way_free. intros Hy Hy' Hm k. unfold take. destruct (decide (c.(c_write) = Some k)); [done|].
  destruct (decide (k ∈ c.(c_way))) as [Hin|_]; [|apply Hm]. specialize (Hy k Hin). specialize (Hy' k Hin). lia.
Qed.

Lemma try_take_true c L L' : try_take c L = (true, L') <-> write_busy c L = false /\ way_busy c L = false /\ L' = take c L.
Proof.
  unfold try_take. destruct (write_busy c L); [split; [done | by intros [? _]]|].
  destruct (way_busy c L); [split; [done | by intros (_ & ? & _)]|]. split; [by intros [= <-] | by intros (_ & _ & ->)].
Qed.

(** What a failed attempt leaves. *)
Lemma try_take_false c L L' : try_take c L = (false, L') ->
  forall k, L' k = L k \/ (0 < L k /\ L' k = L k + TREELOCK_WAIT_OFFSET).
Proof.
  unfold try_take. destruct (write_busy c L).
  - intros [= <-] k. unfold mark. destruct (decide _); [|by left]. destruct (Z.ltb_spec 0 (L k)); [by right | by left].
  - destruct (way_busy c L); [intros [= <-]; by left | done].
Qed.

(** ** One claim or two *)

Definition all_claims (c : claim) (c2 : option claim) : list claim :=
  match c2 with None => [c] | Some c2 => [c2; c] end.

Definition all_fair (c : claim) (c2 : option claim) : Prop := Forall fair (all_claims c c2).

Definition give_all (c : claim) (c2 : option claim) (L : Z -> Z) : Z -> Z :=
  match c2 with None => give c L | Some c2 => give c2 (give c L) end.

Lemma few_cons c hs : few (c :: hs) -> few hs.
Proof. unfold few. cbn [length]. lia. Qed.

Lemma try_claims_counted c c2 hs L ok L' : counted hs L -> all_fair c c2 -> few (all_claims c c2 ++ hs) ->
  try_claims c c2 L = (ok, L') -> counted (if ok then all_claims c c2 ++ hs else hs) L'.
Proof.
  intros H Hfair Hf. destruct c2 as [c2|]; cbn [try_claims all_claims app] in *.
  - apply Forall_cons in Hfair as [Hf2 [Hf1 _]%Forall_cons]. unfold try_take2.
    destruct (try_take c L) as [[] L1] eqn:H1; intros Htry; cycle 1.
    { injection Htry as <- <-. apply (try_take_counted c hs L false L1); try done. by apply few_cons, few_cons in Hf. }
    assert (counted (c :: hs) L1) as Hc1 by (apply (try_take_counted c hs L true L1); try done; by apply few_cons, few_cons in Hf).
    destruct (try_take c2 L1) as [[] L2] eqn:H2; injection Htry as <- <-.
    + apply (try_take_counted c2 (c :: hs) L1 true L2); try done. by apply few_cons in Hf.
    + apply give_counted; try done; [|by apply few_cons in Hf].
      apply (try_take_counted c2 (c :: hs) L1 false L2); try done. by apply few_cons in Hf.
  - apply Forall_cons in Hfair as [Hf1 _]. intros H1. apply (try_take_counted c hs L ok L'); try done. by apply few_cons in Hf.
Qed.

Lemma try_claims_more c c2 hs L ok L' : counted hs L -> few hs -> try_claims c c2 L = (ok, L') -> more L L'.
Proof.
  intros H Hf. assert (forall k, L k < INT_MAX) as Hb by (intros k; by apply (counted_range hs)).
  destruct c2 as [c2|]; cbn [try_claims]; [|by apply try_take_more]. unfold try_take2.
  destruct (try_take c L) as [[] L1] eqn:H1; [|intros [= <- <-]; by apply (try_take_more c L false)].
  apply try_take_true in H1 as (Hw & Hy & ->).
  destruct (try_take c2 (take c L)) as [[] L2] eqn:H2; intros [= <- <-].
  - transitivity (take c L); [by apply take_more|]. apply try_take_true in H2 as (Hw2 & Hy2 & ->). by apply take_more.
  - apply (give_more c L Hb Hw Hy). by apply (try_take_false c2).
Qed.

(** Claims that fail fail with more locks. *)
Lemma claims_busy_more c c2 L L' : more L L' -> (try_claims c c2 L).1 = false -> (try_claims c c2 L').1 = false.
Proof.
  intros Hm. destruct c2 as [c2|]; cbn [try_claims]; [|by apply busy_more]. unfold try_take2.
  pose proof (busy_more c L L' Hm) as Hb1.
  destruct (try_take c L) as [[] L1] eqn:H1, (try_take c L') as [[] L1'] eqn:H1'; try done; [|by specialize (Hb1 eq_refl)].
  apply try_take_true in H1 as (Hw & Hy & ->). apply try_take_true in H1' as (Hw' & Hy' & ->).
  pose proof (busy_more c2 _ _ (take_mono c L L' Hy Hy' Hm)) as Hb2.
  destruct (try_take c2 (take c L)) as [[] L2], (try_take c2 (take c L')) as [[] L2']; cbn in *; try done; by rewrite Hb2.
Qed.

Lemma give_all_counted c c2 hs L : counted (all_claims c c2 ++ hs) L -> all_fair c c2 ->
  few (all_claims c c2 ++ hs) -> counted hs (give_all c c2 L).
Proof.
  intros H Hfair Hf. destruct c2 as [c2|]; cbn [all_claims app give_all] in *.
  - apply Forall_cons in Hfair as [Hf2 [Hf1 _]%Forall_cons].
    assert (few (c :: c2 :: hs)) as Hf' by (unfold few in *; cbn [length] in *; lia).
    apply give_counted; try done; [|by apply few_cons in Hf'].
    apply give_counted; try done. by rewrite (perm_swap c2 c hs).
  - apply Forall_cons in Hfair as [Hf1 _]. by apply give_counted.
Qed.

End LockTable.
