(* ===== verification/FuseQueue.v ===== *)
(** Waiting for paths (src/fuse-3.17.2/lib/fuse.c): a request whose path is locked
    puts an element into a queue and sleeps; whoever gives locks back tries the
    paths of all elements again and wakes those that got theirs.  All of it runs
    under one mutex, which is given up only to sleep, so each function here is one
    atomic step of a thread: up to its end or to the sleep, and from the sleep on. *)
From S2P Require Import Prelude.
From S2P Require Import CLib.
From S2P Require Import FuseTypes.
From S2P Require Import NodeTable.
From S2P Require Import FuseNodes.
From S2P Require Import FusePaths.

Module FuseQueue.
Import FuseTypes FuseNodes FusePaths.

(** ** Definitions *)

(** A path that is asked for: the node, the last name, and whether the node under
    that name is to be locked for writing. *)
Record wanted := mk_wanted { ino : Z; last : option (list byte); write : bool }.

(** What the pointers of the caller get: the path and the node locked for writing. *)
Definition got : Type := option (list cell) * option Z.

(** [struct lock_queue_element]; [path1] is NULL for a request that only waits for
    the node to be unlocked, [second] is there when [path2] is not NULL.  What is
    stored through the pointers is kept in the element. *)
Record lock_queue_element := mk_element {
  nodeid1 : Z;
  path1 : option wanted;
  second : option wanted;
  err : Z;
  done : bool;
  got1 : got;
  got2 : got
}.

Definition with_result (qe : lock_queue_element) (e : Z) (d : bool) (g1 g2 : got) : lock_queue_element :=
  mk_element qe.(nodeid1) qe.(path1) qe.(second) e d g1 g2.

(** An element is known by its address, which is on the stack of its thread; the
    threads whose condition has been signalled are in [signals]. *)
Record locker := mk_locker {
  lf : fuse;
  lockq : list (Z * lock_queue_element);
  signals : list Z
}.

#[local] Abbreviation P := (prog locker).

(** The functions on nodes and paths. *)
Definition on_nodes {A} (m : prog fuse A) : P A := fun s =>
  let! (a, f) := m s.(lf) in Ok (a, mk_locker f s.(lockq) s.(signals)).

Definition signal (t : Z) : P unit := fun s => Ok (tt, mk_locker s.(lf) s.(lockq) (t :: s.(signals))).

Definition find_element (t : Z) (q : list (Z * lock_queue_element)) : option lock_queue_element :=
  snd <$> head (filter (fun x => x.1 = t) q).

Definition try_one (w : wanted) : prog fuse (Z * got * got) :=
  let? (e, p, n) := try_get_path w.(ino) w.(last) w.(write) true in pret (e, (p, n), (None, None)).

Definition try_two (w1 w2 : wanted) : prog fuse (Z * got * got) :=
  try_get_path2 w1.(ino) w1.(last) w2.(ino) w2.(last) w1.(write) w2.(write).

Definition try_wanted (w : wanted) (w2 : option wanted) : prog fuse (Z * got * got) :=
  match w2 with None => try_one w | Some w2 => try_two w w2 end.

(** The element as the wakeup leaves it. *)
Definition queue_element_wakeup (t : Z) (qe : lock_queue_element) : P lock_queue_element :=
  match qe.(path1) with
  | None =>
      p <-- on_nodes (get_node qe.(nodeid1)) ;;
      n <-- on_nodes (load_node p) ;;
      (if n.(treelock) =? 0 then signal t else pret tt) ;;; pret qe
  | Some w =>
      if qe.(done) then pret qe
      else
        let? (e, g1, g2) := on_nodes (try_wanted w qe.(second)) in
        if e =? - EAGAIN then pret qe
        else signal t ;;; pret (with_result qe e true g1 g2)
  end.

(** Over the elements in their order. *)
Fixpoint wake_loop (q : list (Z * lock_queue_element)) : P (list (Z * lock_queue_element)) :=
  match q with
  | [] => pret []
  | (t, qe) :: q =>
      qe <-- queue_element_wakeup t qe ;;
      q <-- wake_loop q ;;
      pret ((t, qe) :: q)
  end.

Definition wake_up_queued : P unit :=
  s <-- pget ;;
  q <-- wake_loop s.(lockq) ;;
  s <-- pget ;;
  pput (mk_locker s.(lf) q s.(signals)).

Definition queue_path (t : Z) (qe : lock_queue_element) : P unit :=
  s <-- pget ;;
  pput (mk_locker s.(lf) (s.(lockq) ++ [(t, with_result qe qe.(err) false qe.(got1) qe.(got2))]) s.(signals)).

Definition dequeue_path (t : Z) : P unit :=
  s <-- pget ;;
  pput (mk_locker s.(lf) (filter (fun x => x.1 <> t) s.(lockq)) s.(signals)).

(** A step of a thread ends with the result of its function or asleep. *)
Inductive step_end (A : Type) := Returns (a : A) | Sleeps.
Arguments Returns {A} a.
Arguments Sleeps {A}.

(** get_path_common and get_path2, up to their end or the sleep in wait_path. *)
Definition get_path_wait (t : Z) (w : wanted) (w2 : option wanted) : P (step_end (Z * got * got)) :=
  r <-- on_nodes (try_wanted w w2) ;;
  let '(e, _, _) := r in
  if e =? - EAGAIN then
    queue_path t (mk_element w.(ino) (Some w) w2 0 false (None, None) (None, None)) ;;; pret Sleeps
  else pret (Returns r).

(** Out of the sleep, signalled or not: the rest of wait_path. *)
Definition wait_path_resume (t : Z) : P (step_end (Z * got * got)) :=
  s <-- pget ;;
  pput (mk_locker s.(lf) s.(lockq) (filter (fun x => x <> t) s.(signals))) ;;;
  qe <-- plift (lift_fault OutOfBounds (find_element t s.(lockq))) ;;
  if qe.(done) then dequeue_path t ;;; pret (Returns (qe.(err), qe.(got1), qe.(got2)))
  else pret Sleeps.

Definition get_path (t nodeid : Z) := get_path_wait t (mk_wanted nodeid None false) None.
Definition get_path_name (t nodeid : Z) (name : list byte) :=
  get_path_wait t (mk_wanted nodeid (Some name) false) None.
Definition get_path_wrlock (t nodeid : Z) (name : list byte) :=
  get_path_wait t (mk_wanted nodeid (Some name) true) None.
Definition get_path2 (t nodeid1 : Z) (name1 : option (list byte)) (nodeid2 : Z) (name2 : option (list byte))
    (w1 w2 : bool) :=
  get_path_wait t (mk_wanted nodeid1 name1 w1) (Some (mk_wanted nodeid2 name2 w2)).

(** A node that has no path any more is no error for those that need none; a
    thread that slept applies it to the result of its last step. *)
Definition stale_ok (r : Z * got * got) : Z * got * got :=
  let '(e, g1, g2) := r in (if e =? - ESTALE then 0 else e, g1, g2).

Definition get_path_nullok (nullpath_ok : bool) (t nodeid : Z) : P (step_end (Z * got * got)) :=
  if nullpath_ok then pret (Returns (0, (None, None), (None, None)))
  else
    r <-- get_path t nodeid ;;
    pret (match r with Returns r => Returns (stale_ok r) | Sleeps => Sleeps end).

Definition free_path_wrlock (nodeid : Z) (wnode : option Z) : P unit :=
  on_nodes (unlock_path nodeid wnode None) ;;;
  s <-- pget ;;
  match s.(lockq) with [] => pret tt | _ => wake_up_queued end.

Definition free_path (nodeid : Z) (path : option (list cell)) : P unit :=
  match path with Some _ => free_path_wrlock nodeid None | None => pret tt end.

Definition free_path2 (nodeid1 nodeid2 : Z) (wnode1 wnode2 : option Z) : P unit :=
  on_nodes (unlock_path nodeid1 wnode1 None) ;;;
  on_nodes (unlock_path nodeid2 wnode2 None) ;;;
  wake_up_queued.

(** forget_node waits while the node would go and is locked. *)
Definition must_wait (n : node) (nlookups : Z) : bool := (n.(nlookup) =? nlookups) && negb (n.(treelock) =? 0).

Definition forget_node (t nodeid nlookups : Z) : P (step_end Z) :=
  if nodeid =? FUSE_ROOT_ID then pret (Returns 0)
  else
    p <-- on_nodes (get_node nodeid) ;;
    n <-- on_nodes (load_node p) ;;
    if must_wait n nlookups then
      queue_path t (mk_element nodeid None None 0 false (None, None) (None, None)) ;;; pret Sleeps
    else on_nodes (forget_lookups p nlookups) ;;; pret (Returns 0).

(** Out of the sleep; the pointer to the node has been kept. *)
Definition forget_node_resume (t p nlookups : Z) : P (step_end Z) :=
  n <-- on_nodes (load_node p) ;;
  if must_wait n nlookups then pret Sleeps
  else dequeue_path t ;;; on_nodes (forget_lookups p nlookups) ;;; pret (Returns 0).

End FuseQueue.
