(* ===== verification/FuseDirents.v ===== *)
(** Entries and directories of libfuse (src/fuse-3.17.2/lib/fuse.c and, for the
    records the kernel reads, lib/fuse_lowlevel.c): what a lookup answers with, the
    records of a listing as bytes, and the two ways a directory handle is filled. *)
From S2P Require Import Prelude.
From S2P Require Import CLib.
From S2P Require Import LittleEndian.
From S2P Require Import FuseTypes.
From S2P Require Import FuseFs.
From S2P Require Import NodeTable.
From S2P Require Import FuseNodes.
From S2P Require Import FusePaths.
From Stdlib Require Import QArith Qround.
#[global] Close Scope Q_scope.
#[global] Open Scope Z_scope.
#[global] Open Scope c_scope.
#[global] Open Scope prog_scope.

Module FuseDirents.
Import FuseTypes FuseNodes FusePaths.
Export LittleEndian.

(** ** Definitions *)

(** *** Records for the kernel *)

(** [struct fuse_entry_param] *)
Record fuse_entry_param := mk_entry {
  e_ino : Z;
  e_generation : Z;
  e_attr : stat;
  e_attr_timeout : Q;
  e_entry_timeout : Q;
}.

Definition entry_zero : fuse_entry_param := mk_entry 0 0 stat_zero 0%Q 0%Q.

Definition with_e_ino (e : fuse_entry_param) v := mk_entry v e.(e_generation) e.(e_attr) e.(e_attr_timeout) e.(e_entry_timeout).
Definition with_e_attr (e : fuse_entry_param) v := mk_entry e.(e_ino) e.(e_generation) v e.(e_attr_timeout) e.(e_entry_timeout).

(** Where the name of a [struct fuse_dirent] and of a [struct fuse_direntplus]
    starts. *)
Definition FUSE_NAME_OFFSET : Z := 24.
Definition FUSE_NAME_OFFSET_DIRENTPLUS : Z := 152.
Definition FUSE_REC_ALIGN (x : Z) : Z := Z.land (x + 7) (Z.lnot 7).

(** The type bits of a mode. *)
Definition dtype (st : stat) : Z := Z.shiftr (Z.land st.(st_mode) S_IFMT) 12.

(** The stores into a [struct fuse_dirent] at [pos], its name and the zeros behind
    it. *)
Definition put_dirent (m : list cell) (pos ino off : Z) (st : stat) (name : list byte) (pad : Z) : outcome (list cell) :=
  m <- mem_write m pos (cells (le 8 ino)) ;;
  m <- mem_write m (pos + 8) (cells (le 8 off)) ;;
  m <- mem_write m (pos + 16) (cells (le 4 (zlen name))) ;;
  m <- mem_write m (pos + 20) (cells (le 4 (dtype st))) ;;
  m <- mem_write m (pos + 24) (cells name) ;;
  mem_write m (pos + 24 + zlen name) (memset0 pad).

(** [buf] is the memory and the position the pointer is at; a null pointer only
    asks for the size. *)
Definition fuse_add_direntry (buf : option (list cell)) (pos bufsize : Z) (name : list byte) (st : stat) (off : Z)
    : outcome (Z * option (list cell)) :=
  let entlen := FUSE_NAME_OFFSET + zlen name in
  let padded := FUSE_REC_ALIGN entlen in
  match buf with
  | None => Ok (padded, None)
  | Some m =>
      if bufsize <? padded then Ok (padded, Some m)
      else m <- put_dirent m pos st.(st_ino) off st name (padded - entlen) ;; Ok (padded, Some m)
  end.

(** A timeout in seconds, and the rest of it in nanoseconds. *)
Definition calc_timeout_sec (t : Q) : Z :=
  if negb (Qle_bool t (inject_Z (2 ^ 64))) then 2 ^ 64 - 1
  else if negb (Qle_bool 0%Q t) then 0
  else Qfloor t.

Definition calc_timeout_nsec (t : Q) : Z :=
  let f := Qminus t (inject_Z (calc_timeout_sec t)) in
  if negb (Qle_bool 0%Q f) then 0
  else if Qle_bool (999999999 # 1000000000) f then 999999999
  else Qfloor (Qmult f (inject_Z 1000000000)).

(** [struct fuse_attr] as bytes; its flags stay zero. *)
Definition convert_stat (st : stat) : list byte :=
  le 8 st.(st_ino) ++ le 8 st.(st_size) ++ le 8 st.(st_blocks) ++
  le 8 st.(st_atim).1 ++ le 8 st.(st_mtim).1 ++ le 8 st.(st_ctim).1 ++
  le 4 st.(st_atim).2 ++ le 4 st.(st_mtim).2 ++ le 4 st.(st_ctim).2 ++
  le 4 st.(st_mode) ++ le 4 st.(st_nlink) ++ le 4 st.(st_uid) ++ le 4 st.(st_gid) ++
  le 4 st.(st_rdev) ++ le 4 st.(st_blksize) ++ le 4 0.

(** [struct fuse_entry_out] as bytes *)
Definition fill_entry (e : fuse_entry_param) : list byte :=
  le 8 e.(e_ino) ++ le 8 e.(e_generation) ++
  le 8 (calc_timeout_sec e.(e_entry_timeout)) ++ le 8 (calc_timeout_sec e.(e_attr_timeout)) ++
  le 4 (calc_timeout_nsec e.(e_entry_timeout)) ++ le 4 (calc_timeout_nsec e.(e_attr_timeout)) ++
  convert_stat e.(e_attr).

Definition fuse_add_direntry_plus (buf : option (list cell)) (pos bufsize : Z) (name : list byte) (e : fuse_entry_param) (off : Z)
    : outcome (Z * option (list cell)) :=
  let entlen := FUSE_NAME_OFFSET_DIRENTPLUS + zlen name in
  let padded := FUSE_REC_ALIGN entlen in
  match buf with
  | None => Ok (padded, None)
  | Some m =>
      if bufsize <? padded then Ok (padded, Some m)
      else
        m <- mem_write m pos (cells (fill_entry e)) ;;
        m <- put_dirent m (pos + 128) e.(e_attr).(st_ino) off e.(e_attr) name (padded - entlen) ;;
        Ok (padded, Some m)
  end.

(** *** Attributes *)

Definition S_ISDIR (mode : Z) : bool := Z.land mode S_IFMT =? S_IFDIR.
Definition S_ISREG (mode : Z) : bool := Z.land mode S_IFMT =? S_IFREG.

(** A number used as a condition. *)
Definition is_set (v : Z) : bool := negb (v =? 0).

Definition set_stat (conf : fuse_config) (nodeid : Z) (st : stat) : stat :=
  let st := if is_set conf.(use_ino) then st else with_st_ino st nodeid in
  let masked (m : Z) := with_st_mode st (Z.lor (Z.land st.(st_mode) S_IFMT) (Z.land MODE_0777 (Z.lnot m))) in
  let st :=
    if is_set conf.(set_mode) then
      if is_set conf.(dmask) && S_ISDIR st.(st_mode) then masked conf.(dmask)
      else if is_set conf.(fmask) then masked conf.(fmask)
      else masked conf.(cfg_umask)
    else st in
  let st := if is_set conf.(set_uid) then with_st_uid st conf.(cfg_uid) else st in
  if is_set conf.(set_gid) then with_st_gid st conf.(cfg_gid) else st.

Definition mtime_eq (st : stat) (ts : Z * Z) : bool := (st.(st_mtim).1 =? ts.1) && (st.(st_mtim).2 =? ts.2).

(** The attributes that a node remembers, at the time [now]. *)
Definition updated (now : Z) (fl : node_file) (st : stat) : node_file :=
  mk_node_file fl.(open_count) now st.(st_mtim) st.(st_size) fl.(locks)
    (fl.(cache_valid) && (mtime_eq st fl.(mtime) && (st.(st_size) =? fl.(fsize)))).

Definition update_stat (p : Z) (st : stat) : prog fuse unit :=
  f <-- pget ;;
  n <-- load_node p ;;
  store_node p (with_file n (updated f.(now) n.(file) st)).

Definition do_lookup (conf : fuse_config) (nodeid : Z) (name : option (list byte)) (e : fuse_entry_param)
    : prog fuse (Z * fuse_entry_param) :=
  r <-- find_node nodeid name ;;
  match r with
  | None => pret (- ENOMEM, e)
  | Some p =>
      n <-- load_node p ;;
      let e := mk_entry n.(FuseNodes.nodeid) n.(generation) e.(e_attr) conf.(attr_timeout) conf.(entry_timeout) in
      (if is_set conf.(auto_cache) then update_stat p e.(e_attr) else pret tt) ;;;
      pret (0, with_e_attr e (set_stat conf e.(e_ino) e.(e_attr)))
  end.

Definition lookup_nodeid (parent : Z) (name : list byte) : prog fuse Z :=
  r <-- lookup_node parent name ;;
  match r with
  | Some p => n <-- load_node p ;; pret n.(FuseNodes.nodeid)
  | None => pret FUSE_UNKNOWN_INO
  end.

(** *** Directory handles *)

Definition FUSE_READDIR_PLUS : Z := Z.shiftl 1 0.
Definition FUSE_FILL_DIR_PLUS : Z := Z.shiftl 1 1.

(** [struct fuse_direntry]; the chain is a list. *)
Record fuse_direntry := mk_direntry { de_stat : stat; de_flags : Z; de_name : list byte }.

(** [struct fuse_dh] *)
Record fuse_dh := mk_dh {
  contents : option (list cell);
  first : list fuse_direntry;
  len : Z;
  dsize : Z;
  needlen : Z;
  filled : bool;
  dfh : Z;
  error : Z;
  dnodeid : Z;
}.

Definition with_contents (d : fuse_dh) (c : option (list cell)) (s : Z) : fuse_dh :=
  mk_dh c d.(first) d.(len) s d.(needlen) d.(filled) d.(dfh) d.(error) d.(dnodeid).
Definition with_written (d : fuse_dh) (c : option (list cell)) (l : Z) : fuse_dh :=
  mk_dh c d.(first) l d.(dsize) d.(needlen) d.(filled) d.(dfh) d.(error) d.(dnodeid).
Definition with_first (d : fuse_dh) (l : list fuse_direntry) : fuse_dh :=
  mk_dh d.(contents) l d.(len) d.(dsize) d.(needlen) d.(filled) d.(dfh) d.(error) d.(dnodeid).
Definition with_needlen (d : fuse_dh) (v : Z) : fuse_dh :=
  mk_dh d.(contents) d.(first) d.(len) d.(dsize) v d.(filled) d.(dfh) d.(error) d.(dnodeid).
Definition with_filled (d : fuse_dh) (v : bool) : fuse_dh :=
  mk_dh d.(contents) d.(first) d.(len) d.(dsize) d.(needlen) v d.(dfh) d.(error) d.(dnodeid).
Definition with_dfh (d : fuse_dh) (v : Z) : fuse_dh :=
  mk_dh d.(contents) d.(first) d.(len) d.(dsize) d.(needlen) d.(filled) v d.(error) d.(dnodeid).
Definition with_error (d : fuse_dh) (v : Z) : fuse_dh :=
  mk_dh d.(contents) d.(first) d.(len) d.(dsize) d.(needlen) d.(filled) d.(dfh) v d.(dnodeid).

(** A handle for node [ino], as opendir makes it. *)
Definition dh_new (ino : Z) : fuse_dh := mk_dh None [] 0 0 0 false 0 0 ino.

(** What a filler works on: the handle and, through its pointer to [struct fuse],
    the nodes and the configuration. *)
Record fill_state := mk_fill { dh : fuse_dh; df : fuse; dconf : fuse_config }.

#[local] Abbreviation P := (prog fill_state).

Definition in_fuse {A} (m : prog fuse A) : P A := fun d =>
  let! (a, f) := m d.(df) in Ok (a, mk_fill d.(dh) f d.(dconf)).
Definition set_dh (g : fuse_dh -> fuse_dh) : P unit := fun d => Ok (tt, mk_fill (g d.(dh)) d.(df) d.(dconf)).
Definition dir_error (e : Z) : P unit := set_dh (fun h => with_error h e).

Definition extend_contents (minsize : Z) : P Z :=
  d <-- pget ;;
  if d.(dh).(dsize) <? minsize then
    newsize <-- plift (grow_loop GROW_FUEL (if d.(dh).(dsize) =? 0 then 1024 else d.(dh).(dsize)) minsize) ;;
    ok <-- in_fuse allocates ;;
    match (if ok : bool then realloc d.(dh).(contents) newsize else None) with
    | None => dir_error (- ENOMEM) ;;; pret (-1)
    | Some m => set_dh (fun h => with_contents h (Some m) newsize) ;;; pret 0
    end
  else pret 0.

(** The record and the copy of the name are allocated. *)
Definition fuse_add_direntry_to_dh (name : list byte) (st : stat) (flags : Z) : P Z :=
  ok <-- in_fuse allocates ;;
  if negb ok then dir_error (- ENOMEM) ;;; pret (-1)
  else
    ok <-- in_fuse allocates ;;
    if negb ok then dir_error (- ENOMEM) ;;; pret (-1)
    else set_dh (fun h => with_first h (h.(first) ++ [mk_direntry st flags name])) ;;; pret 0.

(** The part of both fillers that puts a record behind what is there; [put] is the
    function that writes it. *)
Definition fill_record (put : option (list cell) -> Z -> Z -> outcome (Z * option (list cell))) : P Z :=
  d <-- pget ;;
  let h := d.(dh) in
  let? (n, c) := plift (put h.(contents) h.(len) (u32 (h.(needlen) - h.(len)))) in
  let newlen := u64 (h.(len) + n) in
  if h.(needlen) <? newlen then set_dh (fun h => with_contents h c h.(dsize)) ;;; pret 1
  else set_dh (fun h => with_written h c (u32 newlen)) ;;; pret 0.

Definition fill_dir (name : list byte) (statp : option stat) (off flags : Z) : P Z :=
  if is_set (Z.land flags (Z.lnot FUSE_FILL_DIR_PLUS)) then dir_error (- EIO) ;;; pret 1
  else
    d <-- pget ;;
    let st := match statp with Some st => st | None => with_st_ino stat_zero FUSE_UNKNOWN_INO end in
    st <-- (if is_set d.(dconf).(use_ino) then pret st
            else if is_set d.(dconf).(readdir_ino) then
              i <-- in_fuse (lookup_nodeid d.(dh).(dnodeid) name) ;; pret (with_st_ino st i)
            else pret (with_st_ino st FUSE_UNKNOWN_INO)) ;;
    if is_set off then
      if d.(dh).(filled) then dir_error (- EIO) ;;; pret 1
      else if negb (bool_decide (d.(dh).(first) = [])) then dir_error (- EIO) ;;; pret 1
      else
        r <-- extend_contents d.(dh).(needlen) ;;
        if r =? -1 then pret 1
        else fill_record (fun c pos room => fuse_add_direntry c pos room name st off)
    else
      set_dh (fun h => with_filled h true) ;;;
      r <-- fuse_add_direntry_to_dh name st flags ;;
      pret (if r =? -1 then 1 else 0).

Definition is_dot_or_dotdot (name : list byte) : bool :=
  bool_decide (name = lit ".") || bool_decide (name = lit "..").

(** The fields of [e.attr] that nobody set are zero: the rest of an initialiser. *)
Definition fill_dir_plus (name : list byte) (statp : option stat) (off flags : Z) : P Z :=
  if is_set (Z.land flags (Z.lnot FUSE_FILL_DIR_PLUS)) then dir_error (- EIO) ;;; pret 1
  else
    d <-- pget ;;
    let conf := d.(dconf) in
    let plus := is_set (Z.land flags FUSE_FILL_DIR_PLUS) in
    e <-- (match statp with
      | Some st =>
          if plus then pret (with_e_attr entry_zero st)
          else
            let a := with_st_mode (with_st_ino stat_zero FUSE_UNKNOWN_INO) st.(st_mode) in
            let a := if is_set conf.(use_ino) then with_st_ino a st.(st_ino) else a in
            if negb (is_set conf.(use_ino)) && is_set conf.(readdir_ino) then
              i <-- in_fuse (lookup_nodeid d.(dh).(dnodeid) name) ;; pret (with_e_attr entry_zero (with_st_ino a i))
            else pret (with_e_attr entry_zero a)
      | None =>
          let a := with_st_ino stat_zero FUSE_UNKNOWN_INO in
          if negb (is_set conf.(use_ino)) && is_set conf.(readdir_ino) then
            i <-- in_fuse (lookup_nodeid d.(dh).(dnodeid) name) ;; pret (with_e_attr entry_zero (with_st_ino a i))
          else pret (with_e_attr entry_zero a)
      end) ;;
    if is_set off then
      if d.(dh).(filled) then dir_error (- EIO) ;;; pret 1
      else if negb (bool_decide (d.(dh).(first) = [])) then dir_error (- EIO) ;;; pret 1
      else
        r <-- extend_contents d.(dh).(needlen) ;;
        if r =? -1 then pret 1
        else
          let? (res, e) :=
            (if bool_decide (is_Some statp) && plus && negb (is_dot_or_dotdot name)
             then in_fuse (do_lookup conf d.(dh).(dnodeid) (Some name) e)
             else pret (0, e)) in
          if is_set res then dir_error res ;;; pret 1
          else fill_record (fun c pos room => fuse_add_direntry_plus c pos room name e off)
    else
      set_dh (fun h => with_filled h true) ;;;
      r <-- fuse_add_direntry_to_dh name e.(e_attr) flags ;;
      pret (if r =? -1 then 1 else 0).

(** The second loop of readdir_fill_from_list, from the entry behind [pos]. *)
Fixpoint list_loop (l : list fuse_direntry) (pos flags : Z) : P Z :=
  match l with
  | [] => pret 0
  | de :: l =>
      d <-- pget ;;
      let pos := pos + 1 in
      let plus := is_set (Z.land flags FUSE_READDIR_PLUS) in
      let? (res, e) :=
        (if plus && is_set (Z.land de.(de_flags) FUSE_FILL_DIR_PLUS) && negb (is_dot_or_dotdot de.(de_name))
         then in_fuse (do_lookup d.(dconf) d.(dh).(dnodeid) (Some de.(de_name)) (with_e_attr entry_zero de.(de_stat)))
         else pret (0, with_e_attr entry_zero de.(de_stat))) in
      if is_set res then dir_error res ;;; pret 1
      else
        d <-- pget ;;
        let h := d.(dh) in
        let rem := u32 (h.(needlen) - h.(len)) in
        let? (n, c) := plift (if plus then fuse_add_direntry_plus h.(contents) h.(len) rem de.(de_name) e pos
                              else fuse_add_direntry h.(contents) h.(len) rem de.(de_name) de.(de_stat) pos) in
        let newlen := u32 (h.(len) + u32 n) in
        if h.(needlen) <? newlen then set_dh (fun h => with_contents h c h.(dsize)) ;;; pret 0
        else set_dh (fun h => with_written h c newlen) ;;; list_loop l pos flags
  end.

(** The first loop counts [off] entries off, or as many as there are. *)
Definition readdir_fill_from_list (off flags : Z) : P Z :=
  set_dh (fun h => with_written h h.(contents) 0) ;;;
  d <-- pget ;;
  r <-- extend_contents d.(dh).(needlen) ;;
  if r =? -1 then d <-- pget ;; pret d.(dh).(error)
  else
    let skipped := Z.min (Z.max off 0) (zlen d.(dh).(first)) in
    list_loop (zdrop skipped d.(dh).(first)) skipped flags.

(** What readdir_fill does to the handle before it calls the file system. *)
Definition dh_start (h : fuse_dh) (size : Z) : fuse_dh :=
  mk_dh h.(contents) [] 0 h.(dsize) (u32 size) false h.(dfh) 0 h.(dnodeid).

Definition fill_with (flags : Z) : FuseFs.filler_t fill_state :=
  if is_set (Z.land flags FUSE_READDIR_PLUS)
  then fun d name st off fl => fill_dir_plus name st off fl d
  else fun d name st off fl => fill_dir name st off fl d.

End FuseDirents.
