(* ===== verification/FuseLib.v ===== *)
(** The requests libfuse serves (src/fuse-3.17.2/lib/fuse.c, the functions
    fuse_lib_...): each finds the path of its node, locks it, calls the file system
    and answers.  One request runs from its start to its end: where a request would
    sleep until another one gives a path back, the run ends with [Blocked].
    Interrupt signals (the option intr) and the debug log are left out. *)
From S2P Require Import Prelude.
From S2P Require Import CLib.
From S2P Require Import FuseTypes.
From S2P Require Import FuseBuf.
From S2P Require Import FuseFs.
From S2P Require Import FuseLocks.
From S2P Require Import NodeTable.
From S2P Require Import FuseNodes.
From S2P Require Import FusePaths.
From S2P Require Import FuseQueue.
From S2P Require Import FuseDirents.
From Stdlib Require Import QArith.
#[global] Close Scope Q_scope.
#[global] Open Scope Z_scope.
#[global] Open Scope c_scope.
#[global] Open Scope prog_scope.

Module FuseLib.
Import FuseTypes FuseBuf FuseFs FuseNodes FusePaths FuseQueue FuseDirents.

(** ** Definitions *)

(** A piece of the data of a reply: memory, or a part of a file. *)
Inductive piece := Mem (m : list cell) | File (b : fuse_buf).

(** The replies; an error is negative, and [RErr 0] is success without data. *)
Inductive reply :=
  | RErr (err : Z)
  | RNone
  | REntry (e : fuse_entry_param)
  | RAttr (st : stat) (timeout : Q)
  | RReadlink (link : list byte)
  | RCreate (e : fuse_entry_param) (fi : fuse_file_info)
  | ROpen (fi : fuse_file_info)
  | RData (data : list piece) (flags : Z)
  | RWrite (count : Z)
  | RBuf (m : list cell)
  | RStatfs (st : statvfs)
  | RXattr (count : Z)
  | RLock (fl : flock)
  | RBmap (idx : Z)
  | RIoctl (result : Z) (out : list cell)
  | RPoll (revents : Z)
  | RLseek (off : Z).

Definition with_direct_io (fi : fuse_file_info) (v : bool) : fuse_file_info :=
  mk_file_info fi.(fi_flags) fi.(writepage) v fi.(keep_cache) fi.(flush) fi.(nonseekable) fi.(flock_release)
    fi.(cache_readdir) fi.(noflush) fi.(fi_parallel_direct_writes) fi.(fh) fi.(lock_owner) fi.(poll_events) fi.(backing_id).
Definition with_keep_cache (fi : fuse_file_info) (v : bool) : fuse_file_info :=
  mk_file_info fi.(fi_flags) fi.(writepage) fi.(fi_direct_io) v fi.(flush) fi.(nonseekable) fi.(flock_release)
    fi.(cache_readdir) fi.(noflush) fi.(fi_parallel_direct_writes) fi.(fh) fi.(lock_owner) fi.(poll_events) fi.(backing_id).
Definition with_cache_readdir (fi : fuse_file_info) (v : bool) : fuse_file_info :=
  mk_file_info fi.(fi_flags) fi.(writepage) fi.(fi_direct_io) fi.(keep_cache) fi.(flush) fi.(nonseekable) fi.(flock_release)
    v fi.(noflush) fi.(fi_parallel_direct_writes) fi.(fh) fi.(lock_owner) fi.(poll_events) fi.(backing_id).
Definition with_noflush (fi : fuse_file_info) (v : bool) : fuse_file_info :=
  mk_file_info fi.(fi_flags) fi.(writepage) fi.(fi_direct_io) fi.(keep_cache) fi.(flush) fi.(nonseekable) fi.(flock_release)
    fi.(cache_readdir) v fi.(fi_parallel_direct_writes) fi.(fh) fi.(lock_owner) fi.(poll_events) fi.(backing_id).
Definition with_parallel (fi : fuse_file_info) (v : bool) : fuse_file_info :=
  mk_file_info fi.(fi_flags) fi.(writepage) fi.(fi_direct_io) fi.(keep_cache) fi.(flush) fi.(nonseekable) fi.(flock_release)
    fi.(cache_readdir) fi.(noflush) v fi.(fh) fi.(lock_owner) fi.(poll_events) fi.(backing_id).
Definition with_fh (fi : fuse_file_info) (v : Z) : fuse_file_info :=
  mk_file_info fi.(fi_flags) fi.(writepage) fi.(fi_direct_io) fi.(keep_cache) fi.(flush) fi.(nonseekable) fi.(flock_release)
    fi.(cache_readdir) fi.(noflush) fi.(fi_parallel_direct_writes) v fi.(lock_owner) fi.(poll_events) fi.(backing_id).
Definition with_flags (fi : fuse_file_info) (v : Z) : fuse_file_info :=
  mk_file_info v fi.(writepage) fi.(fi_direct_io) fi.(keep_cache) fi.(flush) fi.(nonseekable) fi.(flock_release)
    fi.(cache_readdir) fi.(noflush) fi.(fi_parallel_direct_writes) fi.(fh) fi.(lock_owner) fi.(poll_events) fi.(backing_id).

Definition with_no_interrupt (c : fuse_conn_info) : fuse_conn_info :=
  mk_conn_info c.(proto_major) c.(proto_minor) c.(max_write) c.(max_read) c.(max_readahead)
    c.(capable) c.(want) c.(max_background) c.(congestion_threshold) c.(time_gran)
    c.(max_backing_stack_depth) true c.(capable_ext) c.(want_ext).

Definition with_open_count (fl : node_file) (v : Z) : node_file :=
  mk_node_file v fl.(stat_updated) fl.(mtime) fl.(fsize) fl.(locks) fl.(cache_valid).
Definition with_locks (fl : node_file) (v : list FuseLocks.lock) : node_file :=
  mk_node_file fl.(open_count) fl.(stat_updated) fl.(mtime) fl.(fsize) v fl.(cache_valid).
Definition with_cache_valid (fl : node_file) (v : bool) : node_file :=
  mk_node_file fl.(open_count) fl.(stat_updated) fl.(mtime) fl.(fsize) fl.(locks) v.

(** The values of Linux. *)
Definition O_ACCMODE : Z := 3.
Definition O_RDONLY : Z := 0.
Definition O_CREAT_EXCL_WRONLY : Z := Z.lor 64 (Z.lor 128 1).
Definition PATH_MAX : Z := 4096.
Definition UTIME_NOW : Z := 2 ^ 30 - 1.
Definition UTIME_OMIT : Z := 2 ^ 30 - 2.
Definition F_GETLK : Z := 5.
Definition F_SETLK : Z := 6.
Definition F_SETLKW : Z := 7.
Definition SEEK_SET : Z := 0.
Definition RENAME_EXCHANGE : Z := Z.shiftl 1 1.
Definition FUSE_SET_ATTR_MODE : Z := Z.shiftl 1 0.
Definition FUSE_SET_ATTR_UID : Z := Z.shiftl 1 1.
Definition FUSE_SET_ATTR_GID : Z := Z.shiftl 1 2.
Definition FUSE_SET_ATTR_SIZE : Z := Z.shiftl 1 3.
Definition FUSE_SET_ATTR_ATIME : Z := Z.shiftl 1 4.
Definition FUSE_SET_ATTR_MTIME : Z := Z.shiftl 1 5.
Definition FUSE_SET_ATTR_ATIME_NOW : Z := Z.shiftl 1 7.
Definition FUSE_SET_ATTR_MTIME_NOW : Z := Z.shiftl 1 8.
Definition FUSE_IOCTL_UNRESTRICTED : Z := Z.shiftl 1 1.
Definition FUSE_IOCTL_DIR : Z := Z.shiftl 1 4.

(** What fuse_send_reply_iov_nofree makes of an error: numbers that are no error are
    not sent. *)
Definition ERANGE : Z := 34.
Definition sent_error (error : Z) : Z := if (error <=? -1000) || (error >? 0) then - ERANGE else error.

Definition statvfs_zero : statvfs := mk_statvfs 0 0 0 0 0 0 0 0 0 0 0.

(** The thread that serves the request. *)
Definition SELF : Z := 0.

(** "%08x" of an unsigned number. *)
Definition hex_digit (d : Z) : byte :=
  default NUL (Byte.of_N (Z.to_N (if d <? 10 then 48 + d else 87 + d))).
Definition hex8 (z : Z) : list byte :=
  (fun i => hex_digit (Z.land (Z.shiftr (u32 z) (4 * i)) 15)) <$> [7; 6; 5; 4; 3; 2; 1; 0].

Section lib.
Context {os A : Type} `{Syscalls os}.
#[local] Abbreviation St := (fstate os A).
#[local] Abbreviation Fs := (fuse_fs St fill_state).

(** [struct fuse] with the file system it calls; the open directories; the results
    that sending the next replies will have (success when the list is at its end);
    and the replies sent, the last first. *)
Record lib := mk_lib {
  lk : locker;
  fst : St;
  fsys : Fs;
  conf : fuse_config;
  hidectr : Z;
  dirs : gmap Z fuse_dh;
  answers : list Z;
  replies : list reply;
}.

#[local] Abbreviation P := (prog lib).

Definition set_lk (l : locker) (s : lib) : lib :=
  mk_lib l s.(fst) s.(fsys) s.(conf) s.(hidectr) s.(dirs) s.(answers) s.(replies).
Definition set_fst (t : St) (s : lib) : lib :=
  mk_lib s.(lk) t s.(fsys) s.(conf) s.(hidectr) s.(dirs) s.(answers) s.(replies).
Definition set_hidectr (c : Z) (s : lib) : lib :=
  mk_lib s.(lk) s.(fst) s.(fsys) s.(conf) c s.(dirs) s.(answers) s.(replies).
Definition set_dirs (d : gmap Z fuse_dh) (s : lib) : lib :=
  mk_lib s.(lk) s.(fst) s.(fsys) s.(conf) s.(hidectr) d s.(answers) s.(replies).
Definition log_reply (r : reply) (s : lib) : lib :=
  mk_lib s.(lk) s.(fst) s.(fsys) s.(conf) s.(hidectr) s.(dirs) (drop 1 s.(answers)) (r :: s.(replies)).

Definition in_lk {B} (m : prog locker B) : P B := fun s => let! (b, l) := m s.(lk) in Ok (b, set_lk l s).
Definition in_fuse {B} (m : prog fuse B) : P B := in_lk (on_nodes m).
Definition in_fs {B} (m : Fs -> prog St B) : P B := fun s => let! (b, t) := m s.(fsys) s.(fst) in Ok (b, set_fst t s).
Definition get_conf : P fuse_config := s <-- pget ;; pret s.(conf).

(** What sending the reply returns. *)
Definition send (r : reply) : P Z := fun s => Ok (default 0 (head s.(answers)), log_reply r s).
Definition reply_with (r : reply) : P unit := _ <-- send r ;; pret tt.
Definition reply_err (err : Z) : P unit := reply_with (RErr (sent_error err)).

(** A function of the queue that must come to its end. *)
Definition await {B} (m : prog locker (step_end B)) : P B :=
  r <-- in_lk m ;; match r with Returns b => pret b | Sleeps => pfail Blocked end.

(** The path as the file system gets it. *)
Definition path_arg (p : option (list cell)) : outcome cpath :=
  match p with None => Ok None | Some m => s <- c_string m ;; Ok (Some s) end.

Definition want_path (m : prog locker (step_end (Z * got * got))) : P (Z * cpath * option Z) :=
  let? (err, g, _) := await m in
  path <-- plift (path_arg g.1) ;; pret (err, path, g.2).

Definition want_paths (m : prog locker (step_end (Z * got * got))) : P (Z * (cpath * option Z) * (cpath * option Z)) :=
  let? (err, g1, g2) := await m in
  path1 <-- plift (path_arg g1.1) ;;
  path2 <-- plift (path_arg g2.1) ;; pret (err, (path1, g1.2), (path2, g2.2)).

Definition path_of (ino : Z) : P (Z * cpath * option Z) := want_path (get_path SELF ino).
Definition path_name (ino : Z) (name : option (list byte)) : P (Z * cpath * option Z) :=
  want_path (get_path_wait SELF (mk_wanted ino name false) None).
Definition path_wrlock (ino : Z) (name : list byte) : P (Z * cpath * option Z) := want_path (get_path_wrlock SELF ino name).
Definition path_nullok (ino : Z) : P (Z * cpath * option Z) :=
  c <-- get_conf ;; want_path (get_path_nullok (is_set c.(nullpath_ok)) SELF ino).

Definition drop_path (ino : Z) (path : cpath) : P unit := in_lk (free_path ino (cstr <$> path)).

(** [forget_node] on its own. *)
Definition forget (ino nlookups : Z) : P unit := _ <-- await (forget_node SELF ino nlookups) ;; pret tt.

Definition reply_entry (e : fuse_entry_param) (err : Z) : P unit :=
  if err =? 0 then
    r <-- send (REntry e) ;;
    if (r =? - ENOENT) && is_set e.(e_ino) then forget e.(e_ino) 1 else pret tt
  else reply_err err.

(** The node of number [ino], and a store into what it holds about its file. *)
Definition the_node (ino : Z) : P (Z * node) :=
  p <-- in_fuse (get_node ino) ;; n <-- in_fuse (load_node p) ;; pret (p, n).
Definition change_file (ino : Z) (g : node_file -> node_file) : P unit :=
  let? (p, n) := the_node ino in in_fuse (store_node p (with_file n (g n.(FuseNodes.file)))).

(** *** Lookups *)

Definition lookup_path (nodeid : Z) (name : option (list byte)) (path : cpath) (fi : fip)
    : P (Z * fuse_entry_param * fip) :=
  let? (res, st, fi) := in_fs (fun fs => fuse_fs_getattr fs path stat_zero fi) in
  let e := with_e_attr entry_zero st in
  if res =? 0 then
    c <-- get_conf ;;
    let? (res, e) := in_fuse (do_lookup c nodeid name e) in pret (res, e, fi)
  else pret (res, e, fi).

(** The names "." and "..": the node whose reference is counted up, the directory
    that takes the place of the parent, and no name. *)
Definition lookup_dots (parent : Z) (name : list byte) : P (option (option Z * Z * option (list byte))) :=
  if bool_decide (name = lit ".") then
    r <-- in_fuse (get_node_nocheck parent) ;;
    match r with
    | None => pret None
    | Some p =>
        n <-- in_fuse (load_node p) ;;
        in_fuse (store_node p (with_refctr n (n.(refctr) + 1))) ;;; pret (Some (Some p, parent, None))
    end
  else if bool_decide (name = lit "..") then
    let? (_, n) := the_node parent in
    q <-- plift (lift_fault NullDeref n.(FuseNodes.parent)) ;;
    d <-- in_fuse (load_node q) ;; pret (Some (None, d.(nodeid), None))
  else pret (Some (None, parent, Some name)).

Definition fuse_lib_lookup (parent : Z) (name : list byte) : P unit :=
  r <-- lookup_dots parent name ;;
  match r with
  | None => reply_entry entry_zero (- ESTALE)
  | Some (dot, parent, name) =>
      let? (err, path, _) := path_name parent name in
      let? (err, e) :=
        (if err =? 0 then
          let? (err, e, _) := lookup_path parent name path None in
          c <-- get_conf ;;
          let '(err, e) :=
            if (err =? - ENOENT) && negb (Qeq_bool c.(negative_timeout) 0%Q)
            then (0, mk_entry 0 e.(e_generation) e.(e_attr) e.(e_attr_timeout) c.(negative_timeout))
            else (err, e) in
          drop_path parent path ;;; pret (err, e)
        else pret (err, entry_zero)) in
      match dot with Some p => in_fuse (unref_node p) | None => pret tt end ;;;
      reply_entry e err
  end.

Definition fuse_lib_forget (ino nlookups : Z) : P unit := forget ino nlookups ;;; reply_with RNone.

Fixpoint forget_loop (l : list (Z * Z)) : P unit :=
  match l with [] => pret tt | (ino, k) :: l => forget ino k ;;; forget_loop l end.

Definition fuse_lib_forget_multi (forgets : list (Z * Z)) : P unit := forget_loop forgets ;;; reply_with RNone.

(** *** Attributes *)

(** The path of a request with or without an open file. *)
Definition path_fi (fi : fip) (ino : Z) : P (Z * cpath * option Z) :=
  if given fi then path_nullok ino else path_of ino.

Definition fuse_lib_getattr (ino : Z) (fi : fip) : P unit :=
  let? (err, path, _) := path_fi fi ino in
  let? (err, buf) :=
    (if err =? 0 then
      let? (err, buf, fi) := in_fs (fun fs => fuse_fs_getattr fs path stat_zero fi) in
      drop_path ino path ;;; pret (err, buf)
    else pret (err, stat_zero)) in
  if err =? 0 then
    c <-- get_conf ;;
    let? (p, n) := the_node ino in
    let buf := if is_set n.(is_hidden) && (buf.(st_nlink) >? 0) then with_st_nlink buf (buf.(st_nlink) - 1) else buf in
    (if is_set c.(auto_cache) then in_fuse (update_stat p buf) else pret tt) ;;;
    reply_with (RAttr (set_stat c ino buf) c.(attr_timeout))
  else reply_err err.

(** Which of the two times is set, and to what. *)
Definition new_time (valid now given_ : Z) (t : Z * Z) : Z * Z :=
  if has_flag valid now then (0, UTIME_NOW) else if has_flag valid given_ then t else (0, UTIME_OMIT).

(** A step of setattr that is taken when its attribute is set and nothing failed. *)
Definition setting (b : bool) (err : Z) (fi : fip) (m : fip -> P (Z * fip)) : P (Z * fip) :=
  if (err =? 0) && b then m fi else pret (err, fi).

(** The code for a system with utimensat. *)
Definition set_attributes (path : cpath) (attr : stat) (valid : Z) (fi : fip) : P (Z * fip) :=
  let? (err, fi) := setting (has_flag valid FUSE_SET_ATTR_MODE) 0 fi
    (fun fi => in_fs (fun fs => fuse_fs_chmod fs path attr.(st_mode) fi)) in
  let? (err, fi) := setting (has_flag valid (Z.lor FUSE_SET_ATTR_UID FUSE_SET_ATTR_GID)) err fi
    (fun fi =>
      let uid := if has_flag valid FUSE_SET_ATTR_UID then attr.(st_uid) else u32 (-1) in
      let gid := if has_flag valid FUSE_SET_ATTR_GID then attr.(st_gid) else u32 (-1) in
      in_fs (fun fs => fuse_fs_chown fs path uid gid fi)) in
  let? (err, fi) := setting (has_flag valid FUSE_SET_ATTR_SIZE) err fi
    (fun fi => in_fs (fun fs => fuse_fs_truncate fs path attr.(st_size) fi)) in
  setting (has_flag valid (Z.lor FUSE_SET_ATTR_ATIME FUSE_SET_ATTR_MTIME)) err fi
    (fun fi =>
      let a := new_time valid FUSE_SET_ATTR_ATIME_NOW FUSE_SET_ATTR_ATIME attr.(st_atim) in
      let m := new_time valid FUSE_SET_ATTR_MTIME_NOW FUSE_SET_ATTR_MTIME attr.(st_mtim) in
      in_fs (fun fs => fuse_fs_utimens fs path (a, m) fi)).

Definition fuse_lib_setattr (ino : Z) (attr : stat) (valid : Z) (fi : fip) : P unit :=
  let? (err, path, _) := path_fi fi ino in
  let? (err, buf) :=
    (if err =? 0 then
      let? (err, fi) := set_attributes path attr valid fi in
      let? (err, buf, _) :=
        (if err =? 0 then in_fs (fun fs => fuse_fs_getattr fs path stat_zero fi) else pret (err, stat_zero, fi)) in
      drop_path ino path ;;; pret (err, buf)
    else pret (err, stat_zero)) in
  if err =? 0 then
    c <-- get_conf ;;
    (if is_set c.(auto_cache) then p <-- in_fuse (get_node ino) ;; in_fuse (update_stat p buf) else pret tt) ;;;
    reply_with (RAttr (set_stat c ino buf) c.(attr_timeout))
  else reply_err err.

(** A call of the file system on a path that has been found: the path is given back
    whatever it returns. *)
Definition with_path {B} (found : P (Z * cpath * option Z)) (ino : Z) (none : B) (call : cpath -> P (Z * B)) : P (Z * B) :=
  let? (err, path, _) := found in
  if err =? 0 then
    let? (err, b) := call path in drop_path ino path ;;; pret (err, b)
  else pret (err, none).

(** The same for a call whose result is all the answer. *)
Definition simple_call {B} (found : P (Z * cpath * option Z)) (ino : Z) (call : cpath -> Fs -> prog St (Z * B)) : P unit :=
  let? (err, _) := with_path found ino tt (fun path => let? (err, _) := in_fs (call path) in pret (err, tt)) in
  reply_err err.

(** A handler that returns only a number. *)
Definition plain (m : prog St Z) : prog St (Z * unit) := r <-- m ;; pret (r, tt).

Definition fuse_lib_access (ino mask : Z) : P unit :=
  simple_call (path_of ino) ino (fun path fs => plain (fuse_fs_access fs path mask)).

(** A local array is a block for the time of the call. *)
Definition fuse_lib_readlink (ino : Z) : P unit :=
  b <-- in_fs (fun _ => in_bs (alloc (PATH_MAX + 1))) ;;
  let linkname := Some (b, 0) in
  let? (err, _) := with_path (path_of ino) ino tt
    (fun path => in_fs (fun fs => plain (fuse_fs_readlink fs path linkname (PATH_MAX + 1)))) in
  (if err =? 0 then
    in_fs (fun _ => in_bs (mem_set (ptr_add linkname PATH_MAX) [Byte NUL])) ;;;
    m <-- in_fs (fun _ => in_bs (mem_get linkname (PATH_MAX + 1))) ;;
    s <-- plift (c_string m) ;;
    reply_with (RReadlink s)
  else reply_err err) ;;;
  in_fs (fun _ => in_bs (free_block b)).

(** *** Making and removing names *)

Definition fuse_lib_mknod (parent : Z) (name : list byte) (mode rdev : Z) : P unit :=
  let? (err, e) := with_path (path_name parent (Some name)) parent entry_zero (fun path =>
    let? (err, e) :=
      (if S_ISREG mode then
        let fi := with_flags file_info_zero O_CREAT_EXCL_WRONLY in
        let? (err, fi) := in_fs (fun fs => fuse_fs_create fs path mode (Some fi)) in
        if err =? 0 then
          let? (err, e, fi) := lookup_path parent (Some name) path fi in
          _ <-- in_fs (fun fs => fuse_fs_release fs path fi) ;; pret (err, e)
        else pret (err, entry_zero)
      else pret (- ENOSYS, entry_zero)) in
    if err =? - ENOSYS then
      err <-- in_fs (fun fs => fuse_fs_mknod fs path mode rdev) ;;
      if err =? 0 then
        let? (err, e, _) := lookup_path parent (Some name) path None in pret (err, e)
      else pret (err, e)
    else pret (err, e)) in
  reply_entry e err.

(** A call that makes a name, and the lookup that follows it. *)
Definition make_name (parent : Z) (name : list byte) (call : cpath -> Fs -> prog St Z) : P unit :=
  let? (err, e) := with_path (path_name parent (Some name)) parent entry_zero (fun path =>
    err <-- in_fs (call path) ;;
    if err =? 0 then
      let? (err, e, _) := lookup_path parent (Some name) path None in pret (err, e)
    else pret (err, entry_zero)) in
  reply_entry e err.

Definition fuse_lib_mkdir (parent : Z) (name : list byte) (mode : Z) : P unit :=
  make_name parent name (fun path fs => fuse_fs_mkdir fs path mode).

Definition fuse_lib_symlink (linkname : list byte) (parent : Z) (name : list byte) : P unit :=
  make_name parent name (fun path fs => fuse_fs_symlink fs linkname path).

Definition is_open (dir : Z) (name : list byte) : P bool :=
  r <-- in_fuse (lookup_node dir name) ;;
  match r with
  | Some p => n <-- in_fuse (load_node p) ;; pret (n.(FuseNodes.file).(open_count) >? 0)
  | None => pret false
  end.

(** A hidden name that no node has. *)
Fixpoint fresh_hidden (fuel : nat) (dir nodeid : Z) : P (list byte) :=
  match fuel with O => pfail OutOfFuel | S fuel =>
    s <-- pget ;;
    let c := u32 (s.(hidectr) + 1) in
    pput (set_hidectr c s) ;;;
    let newname := lit ".fuse_hidden" ++ hex8 nodeid ++ hex8 c in
    r <-- in_fuse (lookup_node dir newname) ;;
    match r with Some _ => fresh_hidden fuel dir nodeid | None => pret newname end
  end.

(** At most [failctr] names are tried: the name and the path with it, if the file
    system says that nothing is there. *)
Fixpoint hidden_name (failctr : nat) (dir : Z) (oldname : list byte) : P (option (list byte * list byte)) :=
  match failctr with O => pret None | S failctr =>
    r <-- in_fuse (lookup_node dir oldname) ;;
    match r with
    | None => pret None
    | Some p =>
        n <-- in_fuse (load_node p) ;;
        s <-- pget ;;
        newname <-- fresh_hidden (base.size s.(lk).(lf).(nodes) + 2) dir n.(nodeid) ;;
        let? (res, newpath, _) := in_fuse (try_get_path dir (Some newname) false false) in
        if negb (res =? 0) then pret None
        else
          newpath <-- plift (path_arg newpath) ;;
          let? (res, _, _) := in_fs (fun fs => fuse_fs_getattr fs newpath stat_zero None) in
          if res =? - ENOENT then pret ((fun p => (newname, p)) <$> newpath)
          else if res =? 0 then hidden_name failctr dir oldname
          else pret None
    end
  end.

Definition hide_node (oldpath : cpath) (dir : Z) (oldname : list byte) : P Z :=
  r <-- hidden_name 10 dir oldname ;;
  match r with
  | None => pret (- EBUSY)
  | Some (newname, newpath) =>
      err <-- in_fs (fun fs => fuse_fs_rename fs oldpath (Some newpath) 0) ;;
      if err =? 0 then in_fuse (rename_node dir oldname dir newname true) else pret err
  end.

(** Unlinking a hidden file that is not open any more, by the name it has now. *)
Definition unlink_hidden (parent wnode : Z) : P Z :=
  n <-- in_fuse (load_node wnode) ;;
  name <-- plift (lift_fault NullDeref n.(name)) ;;
  opened <-- is_open parent name ;;
  if opened : bool then pret 0
  else
    let? (res, unlinkpath, _) := in_fuse (try_get_path n.(nodeid) None false false) in
    if res =? 0 then
      unlinkpath <-- plift (path_arg unlinkpath) ;;
      err <-- in_fs (fun fs => fuse_fs_unlink fs unlinkpath) ;;
      (if err =? 0 then
        n <-- in_fuse (load_node wnode) ;;
        name <-- plift (lift_fault NullDeref n.(FuseNodes.name)) ;;
        in_fuse (remove_node parent name)
      else pret tt) ;;; pret err
    else pret 0.

Definition fuse_lib_unlink (parent : Z) (name : list byte) : P unit :=
  let? (err, path, wnode) := path_wrlock parent name in
  err <-- (if err =? 0 then
      c <-- get_conf ;;
      opened <-- (if is_set c.(hard_remove) then pret false else is_open parent name) ;;
      err <-- (if opened : bool then
          err <-- hide_node path parent name ;;
          if err =? 0 then w <-- plift (lift_fault NullDeref wnode) ;; unlink_hidden parent w
          else pret err
        else
          err <-- in_fs (fun fs => fuse_fs_unlink fs path) ;;
          (if err =? 0 then in_fuse (remove_node parent name) else pret tt) ;;; pret err) ;;
      in_lk (free_path_wrlock parent wnode) ;;; pret err
    else pret err) ;;
  reply_err err.

Definition fuse_lib_rmdir (parent : Z) (name : list byte) : P unit :=
  let? (err, path, wnode) := path_wrlock parent name in
  err <-- (if err =? 0 then
      err <-- in_fs (fun fs => fuse_fs_rmdir fs path) ;;
      (if err =? 0 then in_fuse (remove_node parent name) else pret tt) ;;;
      in_lk (free_path_wrlock parent wnode) ;;; pret err
    else pret err) ;;
  reply_err err.

Definition fuse_lib_rename (olddir : Z) (oldname : list byte) (newdir : Z) (newname : list byte) (flags : Z) : P unit :=
  let? (err, (oldpath, wnode1), (newpath, wnode2)) :=
    want_paths (get_path2 SELF olddir (Some oldname) newdir (Some newname) true true) in
  err <-- (if err =? 0 then
      c <-- get_conf ;;
      opened <-- (if negb (is_set c.(hard_remove)) && negb (has_flag flags RENAME_EXCHANGE)
                  then is_open newdir newname else pret false) ;;
      err <-- (if opened : bool then hide_node newpath newdir newname else pret 0) ;;
      err <-- (if err =? 0 then
          err <-- in_fs (fun fs => fuse_fs_rename fs oldpath newpath flags) ;;
          if err =? 0 then
            if has_flag flags RENAME_EXCHANGE
            then in_fuse (exchange_node olddir oldname newdir newname)
            else in_fuse (rename_node olddir oldname newdir newname false)
          else pret err
        else pret err) ;;
      in_lk (free_path2 olddir newdir wnode1 wnode2) ;;; pret err
    else pret err) ;;
  reply_err err.

Definition fuse_lib_link (ino newparent : Z) (newname : list byte) : P unit :=
  let? (err, (oldpath, _), (newpath, _)) :=
    want_paths (get_path2 SELF ino None newparent (Some newname) false false) in
  let? (err, e) :=
    (if err =? 0 then
      err <-- in_fs (fun fs => fuse_fs_link fs oldpath newpath) ;;
      let? (err, e) :=
        (if err =? 0 then
          let? (err, e, _) := lookup_path newparent (Some newname) newpath None in pret (err, e)
        else pret (err, entry_zero)) in
      in_lk (free_path2 ino newparent None None) ;;; pret (err, e)
    else pret (err, entry_zero)) in
  reply_entry e err.

(** *** Open files *)

(** Whether the file was hidden and nobody has it open any more. *)
Definition close_node (ino : Z) : P bool :=
  let? (p, n) := the_node ino in
  plift (guard_c (n.(FuseNodes.file).(open_count) >? 0) AssertFailed) ;;;
  let c := n.(FuseNodes.file).(open_count) - 1 in
  let n := with_file n (with_open_count n.(FuseNodes.file) c) in
  if is_set n.(is_hidden) && (c =? 0)
  then in_fuse (store_node p (with_hidden n 0)) ;;; pret true
  else in_fuse (store_node p n) ;;; pret false.

Definition fuse_do_release (ino : Z) (path : cpath) (fi : fip) : P unit :=
  _ <-- in_fs (fun fs => fuse_fs_release fs path fi) ;;
  hidden <-- close_node ino ;;
  if hidden : bool then
    match path with
    | Some _ => _ <-- in_fs (fun fs => fuse_fs_unlink fs path) ;; pret tt
    | None =>
        c <-- get_conf ;;
        if is_set c.(nullpath_ok) then
          let? (err, unlinkpath, _) := path_of ino in
          (if err =? 0 then _ <-- in_fs (fun fs => fuse_fs_unlink fs unlinkpath) ;; pret tt else pret tt) ;;;
          drop_path ino unlinkpath
        else pret tt
    end
  else pret tt.

(** A file information that is there. *)
Definition the_fi (fi : fip) : P fuse_file_info := plift (lift_fault NullDeref fi).

Definition open_node (ino : Z) : P unit :=
  change_file ino (fun fl => with_open_count fl (fl.(open_count) + 1)).

(** What create and open do to the flags of the file. *)
Definition cache_flags (c : fuse_config) (fi : fuse_file_info) : fuse_file_info :=
  let fi := if is_set c.(direct_io) then with_direct_io fi true else fi in
  if is_set c.(kernel_cache) then with_keep_cache fi true else fi.

Definition parallel_flag (c : fuse_config) (fi : fuse_file_info) : fuse_file_info :=
  if fi.(fi_direct_io) && is_set c.(parallel_direct_writes) then with_parallel fi true else fi.

Definition fuse_lib_create (parent : Z) (name : list byte) (mode : Z) (fi : fuse_file_info) : P unit :=
  let? (err, path, _) := path_name parent (Some name) in
  let? (err, e, fi) :=
    (if err =? 0 then
      let? (err, fi) := in_fs (fun fs => fuse_fs_create fs path mode (Some fi)) in
      if err =? 0 then
        let? (err, e, fi) := lookup_path parent (Some name) path fi in
        if negb (err =? 0) then
          let? (_, fi) := in_fs (fun fs => fuse_fs_release fs path fi) in pret (err, e, fi)
        else if negb (S_ISREG e.(e_attr).(st_mode)) then
          let? (_, fi) := in_fs (fun fs => fuse_fs_release fs path fi) in
          forget e.(e_ino) 1 ;;; pret (- EIO, e, fi)
        else
          c <-- get_conf ;;
          v <-- the_fi fi ;;
          pret (0, e, Some (parallel_flag c (cache_flags c v)))
      else pret (err, entry_zero, fi)
    else pret (err, entry_zero, Some fi)) in
  (if err =? 0 then
    open_node e.(e_ino) ;;;
    v <-- the_fi fi ;;
    r <-- send (RCreate e v) ;;
    if r =? - ENOENT then fuse_do_release e.(e_ino) path fi ;;; forget e.(e_ino) 1 else pret tt
  else reply_err err) ;;;
  drop_path parent path.

(** The node's attributes are older than the timeout; times are nanoseconds. *)
Definition outdated (c : fuse_config) (now : Z) (fl : node_file) : bool :=
  negb (Qle_bool (Qmake (now - fl.(stat_updated)) 1000000000) c.(ac_attr_timeout)).

Definition open_auto_cache (ino : Z) (path : cpath) (fi : fuse_file_info) : P fuse_file_info :=
  c <-- get_conf ;;
  s <-- pget ;;
  let? (p, n) := the_node ino in
  fi <-- (if n.(FuseNodes.file).(cache_valid) && outdated c s.(lk).(lf).(now) n.(FuseNodes.file) then
      let? (err, st, fi) := in_fs (fun fs => fuse_fs_getattr fs path stat_zero (Some fi)) in
      (if err =? 0 then in_fuse (update_stat p st)
       else
         n <-- in_fuse (load_node p) ;;
         in_fuse (store_node p (with_file n (with_cache_valid n.(FuseNodes.file) false)))) ;;;
      the_fi fi
    else pret fi) ;;
  n <-- in_fuse (load_node p) ;;
  in_fuse (store_node p (with_file n (with_cache_valid n.(FuseNodes.file) true))) ;;;
  pret (if n.(FuseNodes.file).(cache_valid) then with_keep_cache fi true else fi).

Definition fuse_lib_open (ino : Z) (fi : fuse_file_info) : P unit :=
  let? (err, path, _) := path_of ino in
  let? (err, fi) :=
    (if err =? 0 then
      let? (err, fi) := in_fs (fun fs => fuse_fs_open fs path (Some fi)) in
      v <-- the_fi fi ;;
      if err =? 0 then
        c <-- get_conf ;;
        let v := cache_flags c v in
        v <-- (if is_set c.(auto_cache) then open_auto_cache ino path v else pret v) ;;
        let v := if is_set c.(no_rofd_flush) && (Z.land v.(fi_flags) O_ACCMODE =? O_RDONLY)
                 then with_noflush v true else v in
        pret (0, parallel_flag c v)
      else pret (err, v)
    else pret (err, fi)) in
  (if err =? 0 then
    open_node ino ;;;
    r <-- send (ROpen fi) ;;
    if r =? - ENOENT then fuse_do_release ino path (Some fi) else pret tt
  else reply_err err) ;;;
  drop_path ino path.

(** What is in the buffers of a vector, from its position on. *)
Fixpoint gather (l : list fuse_buf) (skip : Z) : P (list piece) :=
  match l with
  | [] => pret []
  | b :: l =>
      p <-- (if has_flag b.(flags) FUSE_BUF_IS_FD then pret (File b)
             else m <-- in_fs (fun _ => in_bs (mem_get (ptr_add b.(mem) skip) (b.(size) - skip))) ;; pret (Mem m)) ;;
      r <-- gather l 0 ;; pret (p :: r)
  end.

Definition fuse_lib_read (ino size off : Z) (fi : fip) : P unit :=
  let? (res, buf) := with_path (path_nullok ino) ino None (fun path =>
    let? (res, buf, _) := in_fs (fun fs => fuse_fs_read_buf fs path None size off fi) in pret (res, buf)) in
  (if res =? 0 then
    v <-- plift (lift_fault NullDeref buf) ;;
    data <-- gather (zdrop v.(idx) (ztake v.(count) v.(FuseBuf.buf))) v.(FuseBuf.off) ;;
    reply_with (RData data FUSE_BUF_SPLICE_MOVE)
  else reply_err res) ;;;
  in_fs (fun _ => fuse_free_buf buf).

Definition fuse_lib_write_buf (ino : Z) (buf : fuse_bufvec) (off : Z) (fi : fip) : P unit :=
  let? (res, _) := with_path (path_nullok ino) ino tt (fun path =>
    let? (res, _, _) := in_fs (fun fs => fuse_fs_write_buf fs path buf off fi) in pret (res, tt)) in
  if res >=? 0 then reply_with (RWrite res) else reply_err res.

Definition fuse_lib_fsync (ino datasync : Z) (fi : fip) : P unit :=
  simple_call (path_nullok ino) ino (fun path fs => fuse_fs_fsync fs path datasync fi).

(** *** Open directories *)

(** The handle behind the kernel's file information, and the file system's. *)
Definition get_dirhandle (llfi : fuse_file_info) : P (fuse_dh * fuse_file_info) :=
  s <-- pget ;;
  d <-- plift (lift_fault OutOfBounds (s.(dirs) !! llfi.(fh))) ;;
  pret (d, with_fh file_info_zero d.(dfh)).

Definition put_dirhandle (k : Z) (d : fuse_dh) : P unit := s <-- pget ;; pput (set_dirs (<[k := d]> s.(dirs)) s).
Definition free_dirhandle (k : Z) : P unit := s <-- pget ;; pput (set_dirs (delete k s.(dirs)) s).

Definition fuse_lib_opendir (ino : Z) (llfi : fuse_file_info) : P unit :=
  ok <-- in_fuse allocates ;;
  if negb ok then reply_err (- ENOMEM)
  else
    s <-- pget ;;
    let k := fresh (dom s.(dirs)) in
    put_dirhandle k (dh_new ino) ;;;
    let llfi := with_fh llfi k in
    let fi := with_flags file_info_zero llfi.(fi_flags) in
    let? (err, path, _) := path_of ino in
    let? (err, fi, llfi) :=
      (if err =? 0 then
        let? (err, fi) := in_fs (fun fs => fuse_fs_opendir fs path (Some fi)) in
        v <-- the_fi fi ;;
        put_dirhandle k (with_dfh (dh_new ino) v.(fh)) ;;;
        pret (err, v, with_keep_cache (with_cache_readdir llfi v.(cache_readdir)) v.(keep_cache))
      else pret (err, fi, llfi)) in
    (if err =? 0 then
      r <-- send (ROpen llfi) ;;
      if r =? - ENOENT then
        _ <-- in_fs (fun fs => fuse_fs_releasedir fs path (Some fi)) ;; free_dirhandle k
      else pret tt
    else reply_err err ;;; free_dirhandle k) ;;;
    drop_path ino path.

(** Runs a function on the handle, the nodes and the configuration. *)
Definition on_dir {B} (k : Z) (m : prog fill_state B) : P B :=
  s <-- pget ;;
  d <-- plift (lift_fault OutOfBounds (s.(dirs) !! k)) ;;
  let? (b, d) := plift (m (mk_fill d s.(lk).(lf) s.(conf))) in
  pput (set_dirs (<[k := d.(dh)]> s.(dirs)) (set_lk (mk_locker d.(df) s.(lk).(lockq) s.(lk).(signals)) s)) ;;;
  pret b.

(** The file system's handler fills the directory; what it leaves in the handle and
    in the nodes is taken over. *)
Definition call_readdir (k : Z) (path : cpath) (off : Z) (fi : fip) (flags : Z) : P Z :=
  s <-- pget ;;
  d <-- plift (lift_fault OutOfBounds (s.(dirs) !! k)) ;;
  let? (err, d, _) := in_fs (fun fs =>
    fuse_fs_readdir fs path (mk_fill d s.(lk).(lf) s.(conf)) (fill_with flags) off fi flags) in
  s <-- pget ;;
  pput (set_dirs (<[k := d.(dh)]> s.(dirs)) (set_lk (mk_locker d.(df) s.(lk).(lockq) s.(lk).(signals)) s)) ;;;
  pret err.

Definition readdir_fill (ino size off k : Z) (fi : fip) (flags : Z) : P Z :=
  s <-- pget ;;
  let? (err, path, _) := (if given s.(fsys).(op).(op_readdir _ _) then path_nullok ino else path_of ino) in
  if err =? 0 then
    on_dir k (set_dh (fun h => dh_start h size)) ;;;
    err <-- call_readdir k path off fi flags ;;
    err <-- on_dir k (
      d <-- pget ;;
      let err := if err =? 0 then d.(dh).(error) else err in
      (if err =? 0 then pret tt else set_dh (fun h => with_filled h false)) ;;; pret err) ;;
    drop_path ino path ;;; pret err
  else pret err.

(** The record of the listing that is sent. *)
Definition reply_dir (k : Z) : P unit :=
  s <-- pget ;;
  d <-- plift (lift_fault OutOfBounds (s.(dirs) !! k)) ;;
  m <-- plift (mem_read (default [] d.(contents)) 0 d.(len)) ;;
  reply_with (RBuf m).

Definition fuse_readdir_common (ino size off : Z) (llfi : fuse_file_info) (flags : Z) : P unit :=
  let? (d, fi) := get_dirhandle llfi in
  let k := llfi.(fh) in
  (if off =? 0 then on_dir k (set_dh (fun h => with_filled h false)) else pret tt) ;;;
  err <-- (if (off =? 0) || negb d.(filled) then readdir_fill ino size off k (Some fi) flags else pret 0) ;;
  if negb (err =? 0) then reply_err err
  else
    err <-- on_dir k (
      d <-- pget ;;
      if d.(dh).(filled) then
        set_dh (fun h => with_needlen h (u32 size)) ;;; readdir_fill_from_list off flags
      else pret 0) ;;
    if negb (err =? 0) then reply_err err else reply_dir k.

Definition fuse_lib_readdir (ino size off : Z) (llfi : fuse_file_info) : P unit :=
  fuse_readdir_common ino size off llfi 0.
Definition fuse_lib_readdirplus (ino size off : Z) (llfi : fuse_file_info) : P unit :=
  fuse_readdir_common ino size off llfi FUSE_READDIR_PLUS.

Definition fuse_lib_releasedir (ino : Z) (llfi : fuse_file_info) : P unit :=
  let? (_, fi) := get_dirhandle llfi in
  let? (_, path, _) := path_nullok ino in
  _ <-- in_fs (fun fs => fuse_fs_releasedir fs path (Some fi)) ;;
  drop_path ino path ;;;
  free_dirhandle llfi.(fh) ;;;
  reply_err 0.

Definition fuse_lib_fsyncdir (ino datasync : Z) (llfi : fuse_file_info) : P unit :=
  let? (_, fi) := get_dirhandle llfi in
  simple_call (path_nullok ino) ino (fun path fs => fuse_fs_fsyncdir fs path datasync (Some fi)).

Definition fuse_lib_statfs (ino : Z) : P unit :=
  let? (err, path, _) := (if is_set ino then path_of ino else pret (0, None, None)) in
  if err =? 0 then
    let arg := match path with Some p => p | None => lit "/" end in
    let? (err, buf) := in_fs (fun fs => fuse_fs_statfs fs (Some arg) statvfs_zero) in
    drop_path ino path ;;;
    if err =? 0 then reply_with (RStatfs buf) else reply_err err
  else reply_err err.

(** *** Extended attributes *)

Definition fuse_lib_setxattr (ino : Z) (name : list byte) (value : mptr) (size flags : Z) : P unit :=
  simple_call (path_of ino) ino (fun path fs => plain (fuse_fs_setxattr fs path name value size flags)).

(** A list or a value of extended attributes: into memory of the size the caller
    has, or, for size 0, only how long it is. *)
Definition xattr_reply (ino size : Z) (call : cpath -> mptr -> Z -> Fs -> prog St Z) : P unit :=
  if is_set size then
    value <-- in_fs (fun _ => malloc_m size) ;;
    match value with
    | None => reply_err (- ENOMEM)
    | Some _ =>
        let? (res, _) := with_path (path_of ino) ino tt (fun path => in_fs (fun fs => plain (call path value size fs))) in
        (if res >? 0 then
          m <-- in_fs (fun _ => in_bs (mem_get value res)) ;; reply_with (RBuf m)
        else reply_err res) ;;;
        in_fs (fun _ => free_m value)
    end
  else
    let? (res, _) := with_path (path_of ino) ino tt (fun path => in_fs (fun fs => plain (call path None 0 fs))) in
    if res >=? 0 then reply_with (RXattr res) else reply_err res.

Definition fuse_lib_getxattr (ino : Z) (name : list byte) (size : Z) : P unit :=
  xattr_reply ino size (fun path value size fs => fuse_fs_getxattr fs path name value size).
Definition fuse_lib_listxattr (ino size : Z) : P unit :=
  xattr_reply ino size (fun path value size fs => fuse_fs_listxattr fs path value size).
Definition fuse_lib_removexattr (ino : Z) (name : list byte) : P unit :=
  simple_call (path_of ino) ino (fun path fs => plain (fuse_fs_removexattr fs path name)).

(** *** Locks *)

(** [locks_insert] on the locks of a node, with its allocations. *)
Definition insert_lock (ino : Z) (l : FuseLocks.lock) : P Z :=
  let? (p, n) := the_node ino in
  let wanted := negb (l.(FuseLocks.type) =? FuseLocks.F_UNLCK) || negb (l.(FuseLocks.start) =? 0) ||
                negb (l.(FuseLocks.end_) =? FuseLocks.OFFSET_MAX) in
  m1 <-- (if wanted then in_fuse allocates else pret true) ;;
  m2 <-- (if wanted then in_fuse allocates else pret true) ;;
  let? (err, ls) := plift (FuseLocks.locks_insert m1 m2 n.(FuseNodes.file).(locks) l) in
  in_fuse (store_node p (with_file n (with_locks n.(FuseNodes.file) ls))) ;;; pret err.

Definition fuse_flush_common (ino : Z) (path : cpath) (fi : fip) : P (Z * fip) :=
  let lock := mk_flock FuseLocks.F_UNLCK SEEK_SET 0 0 0 in
  let? (err, fi) := in_fs (fun fs => fuse_fs_flush fs path fi) in
  let? (errlock, fi, lock) := in_fs (fun fs => fuse_fs_lock fs path fi F_SETLK lock) in
  if negb (errlock =? - ENOSYS) then
    l <-- plift (FuseLocks.flock_to_lock lock) ;;
    v <-- the_fi fi ;;
    _ <-- insert_lock ino (FuseLocks.with_owner l v.(lock_owner)) ;;
    pret (if err =? - ENOSYS then 0 else err, fi)
  else pret (err, fi).

Definition fuse_lib_release (ino : Z) (fi : fuse_file_info) : P unit :=
  let? (_, path, _) := path_nullok ino in
  let? (err, fi) :=
    (if fi.(flush) then
      let? (err, fi) := fuse_flush_common ino path (Some fi) in
      pret (if err =? - ENOSYS then 0 else err, fi)
    else pret (0, Some fi)) in
  fuse_do_release ino path fi ;;;
  drop_path ino path ;;;
  reply_err err.

Definition fuse_lib_flush (ino : Z) (fi : fip) : P unit :=
  let? (_, path, _) := path_nullok ino in
  let? (err, _) := fuse_flush_common ino path fi in
  drop_path ino path ;;;
  reply_err err.

Definition fuse_lock_common (ino : Z) (fi : fip) (lock : flock) (cmd : Z) : P (Z * (fip * flock)) :=
  with_path (path_nullok ino) ino (fi, lock) (fun path =>
    let? (err, fi, lock) := in_fs (fun fs => fuse_fs_lock fs path fi cmd lock) in pret (err, (fi, lock))).

Definition fuse_lib_getlk (ino : Z) (fi : fuse_file_info) (lock : flock) : P unit :=
  l <-- plift (FuseLocks.flock_to_lock lock) ;;
  let l := FuseLocks.with_owner l fi.(lock_owner) in
  let? (_, n) := the_node ino in
  let? (err, lock) :=
    match FuseLocks.locks_conflict n.(FuseNodes.file).(locks) l with
    | Some conflict => lock <-- plift (FuseLocks.lock_to_flock conflict lock) ;; pret (0, lock)
    | None => let? (err, (_, lock)) := fuse_lock_common ino (Some fi) lock F_GETLK in pret (err, lock)
    end in
  if err =? 0 then reply_with (RLock lock) else reply_err err.

Definition fuse_lib_setlk (ino : Z) (fi : fuse_file_info) (lock : flock) (sleep : Z) : P unit :=
  let? (err, (fi, lock)) := fuse_lock_common ino (Some fi) lock (if is_set sleep then F_SETLKW else F_SETLK) in
  (if err =? 0 then
    l <-- plift (FuseLocks.flock_to_lock lock) ;;
    v <-- the_fi fi ;;
    _ <-- insert_lock ino (FuseLocks.with_owner l v.(lock_owner)) ;; pret tt
  else pret tt) ;;;
  reply_err err.

Definition fuse_lib_flock (ino : Z) (fi : fip) (op : Z) : P unit :=
  simple_call (path_nullok ino) ino (fun path fs => fuse_fs_flock fs path fi op).

(** *** The rest *)

Definition fuse_lib_bmap (ino blocksize idx : Z) : P unit :=
  let? (err, idx) := with_path (path_of ino) ino idx (fun path => in_fs (fun fs => fuse_fs_bmap fs path blocksize idx)) in
  if err =? 0 then reply_with (RBmap idx) else reply_err err.

(** The memory for the answer, which starts as what came in; [None] when there is
    not enough. *)
Definition ioctl_buf (in_buf : mptr) (in_bufsz out_bufsz : Z) : P (option mptr) :=
  if is_set out_bufsz then
    m <-- in_fs (fun _ => malloc_m out_bufsz) ;;
    match m with
    | None => pret None
    | Some _ =>
        plift (guard_c (negb (is_set in_bufsz) || (in_bufsz =? out_bufsz)) AssertFailed) ;;;
        (if is_set in_bufsz then in_fs (fun _ => in_bs (memcpy m in_buf in_bufsz)) else pret tt) ;;;
        pret (Some m)
    end
  else pret (Some None).

Definition fuse_lib_ioctl (ino cmd : Z) (arg : mptr) (llfi : fuse_file_info) (flags : Z) (in_buf : mptr)
    (in_bufsz out_bufsz : Z) : P unit :=
  if has_flag flags FUSE_IOCTL_UNRESTRICTED then reply_err (- EPERM)
  else
    fi <-- (if has_flag flags FUSE_IOCTL_DIR then let? (_, fi) := get_dirhandle llfi in pret fi else pret llfi) ;;
    out <-- ioctl_buf in_buf in_bufsz out_bufsz ;;
    match out with
    | None => reply_err (- ENOMEM)
    | Some out_buf =>
        let? (err, _) := with_path (path_nullok ino) ino tt (fun path =>
          let? (err, _) := in_fs (fun fs => fuse_fs_ioctl fs path cmd arg (Some fi) flags
            (match out_buf with Some _ => out_buf | None => in_buf end)) in pret (err, tt)) in
        (if err <? 0 then reply_err err
         else
           m <-- (match out_buf with
                  | Some _ => in_fs (fun _ => in_bs (mem_get out_buf out_bufsz))
                  | None => pret []
                  end) ;;
           reply_with (RIoctl err m)) ;;;
        in_fs (fun _ => free_m out_buf)
    end.

Definition fuse_lib_poll (ino : Z) (fi : fip) (ph : mptr) : P unit :=
  let? (err, revents) := with_path (path_nullok ino) ino 0 (fun path =>
    let? (err, _, revents) := in_fs (fun fs => fuse_fs_poll fs path fi ph 0) in pret (err, revents)) in
  if err =? 0 then reply_with (RPoll revents) else reply_err err.

Definition fuse_lib_fallocate (ino mode offset length : Z) (fi : fip) : P unit :=
  simple_call (path_nullok ino) ino (fun path fs => fuse_fs_fallocate fs path mode offset length fi).

Definition fuse_lib_copy_file_range (nodeid_in off_in : Z) (fi_in : fip) (nodeid_out off_out : Z) (fi_out : fip)
    (len flags : Z) : P unit :=
  let? (err, path_in, _) := path_nullok nodeid_in in
  if negb (err =? 0) then reply_err err
  else
    let? (err, path_out, _) := path_nullok nodeid_out in
    if negb (err =? 0) then drop_path nodeid_in path_in ;;; reply_err err
    else
      let? (res, _, _) := in_fs (fun fs =>
        fuse_fs_copy_file_range fs path_in fi_in off_in path_out fi_out off_out len flags) in
      (if res >=? 0 then reply_with (RWrite res) else reply_err res) ;;;
      drop_path nodeid_in path_in ;;;
      drop_path nodeid_out path_out.

Definition fuse_lib_lseek (ino off whence : Z) (fi : fip) : P unit :=
  let? (err, path, _) := path_of ino in
  if negb (err =? 0) then reply_err err
  else
    let? (res, _) := in_fs (fun fs => fuse_fs_lseek fs path off whence fi) in
    drop_path ino path ;;;
    if res >=? 0 then reply_with (RLseek res) else reply_err res.

(** *** Starting, stopping and cleaning up *)

Definition fuse_lib_init (conn : fuse_conn_info) : P fuse_conn_info :=
  let (_, conn) := fuse_set_feature_flag conn FUSE_CAP_EXPORT_SUPPORT in
  c <-- get_conf ;;
  let? (fs, conn, c) := in_fs (fun fs => fuse_fs_init fs conn c) in
  s <-- pget ;;
  let f := s.(lk).(lf) in
  let f := mk_fuse f.(name_table) f.(id_table) f.(lru_table) f.(ctr) f.(fgeneration) c.(FuseTypes.remember)
    f.(nodes) f.(now) f.(memory) in
  pput (mk_lib (mk_locker f s.(lk).(lockq) s.(lk).(signals)) s.(fst) fs c s.(hidectr) s.(dirs) s.(answers) s.(replies)) ;;;
  if is_set c.(intr) then pfail Unmodelled else pret (with_no_interrupt conn).

Definition fuse_lib_destroy : P unit := in_fs (fun fs => fuse_fs_destroy fs).

Definition clean_delay (remember : Z) : Z :=
  let sleep_time := remember / 10 in
  if sleep_time >? 3600 then 3600 else if sleep_time <? 60 then 60 else sleep_time.

(** Over the nodes whose lookups were forgotten, the oldest first; times are
    nanoseconds. *)
Fixpoint clean_loop (l : list Z) : prog fuse unit :=
  match l with
  | [] => pret tt
  | p :: l =>
      f <-- pget ;;
      n <-- load_node p ;;
      if f.(now) - n.(forget_time) <=? f.(FuseNodes.remember) * 1000000000 then pret tt
      else
        plift (guard_c (n.(nlookup) =? 1) AssertFailed) ;;;
        (if n.(refctr) >? 1 then pret tt
         else store_node p (with_nlookup n 0) ;;; unhash_name p ;;; unref_node p) ;;;
        clean_loop l
  end.

Definition fuse_clean_cache : P Z :=
  s <-- pget ;;
  in_fuse (clean_loop s.(lk).(lf).(lru_table)) ;;;
  c <-- get_conf ;;
  pret (clean_delay c.(FuseTypes.remember)).

End lib.
End FuseLib.
