(* ===== verification/FuseWire.v ===== *)
(** The replies to the kernel as bytes (the functions fuse_reply_... and
    fuse_send_reply_iov_nofree of src/fuse-3.17.2/lib/fuse_lowlevel.c).  A message is
    a region of cells: what a file system returns without having written it goes to
    the kernel as it is. *)
From S2P Require Import Prelude.
From S2P Require Import CLib.
From S2P Require Import LittleEndian.
From S2P Require Import FuseTypes.
From S2P Require Import FuseBuf.
From S2P Require Import FuseFs.
From S2P Require Import FuseLocks.
From S2P Require Import FuseDirents.
From S2P Require Import FuseLib.
From S2P Require Import FuseKernel.
From Stdlib Require Import QArith.
#[global] Close Scope Q_scope.
#[global] Open Scope Z_scope.
#[global] Open Scope c_scope.
#[global] Open Scope prog_scope.

Module FuseWire.
Import LittleEndian FuseTypes FuseBuf FuseFs FuseDirents FuseLib FuseKernel.

(** ** Definitions *)

(** [struct fuse_out_header]; the length is that of the whole message. *)
Definition out_header (unique error len : Z) : list byte := fields [(4%nat, len); (4%nat, error); (8%nat, unique)].

Definition fuse_send_msg (unique error : Z) (payload : list cell) : list cell :=
  cells (out_header unique error (OUT_HEADER_SIZE + zlen payload)) ++ payload.

(** [if (f->b) arg->open_flags |= bit] *)
Definition flag_if (b : bool) (bit v : Z) : Z := if b then Z.lor v bit else v.

(** [struct fuse_open_out], from zeros *)
Definition open_flags (f : fuse_file_info) : Z :=
  flag_if f.(fi_parallel_direct_writes) FOPEN_PARALLEL_DIRECT_WRITES
    (flag_if f.(noflush) FOPEN_NOFLUSH
      (flag_if f.(nonseekable) FOPEN_NONSEEKABLE
        (flag_if f.(cache_readdir) FOPEN_CACHE_DIR
          (flag_if f.(keep_cache) FOPEN_KEEP_CACHE
            (flag_if f.(fi_direct_io) FOPEN_DIRECT_IO
              (flag_if (0 <? f.(backing_id)) FOPEN_PASSTHROUGH 0)))))).

Definition fill_open (f : fuse_file_info) : list byte :=
  fields [(8%nat, f.(fh)); (4%nat, open_flags f); (4%nat, if 0 <? f.(backing_id) then f.(backing_id) else 0)].

(** [struct fuse_attr_out] *)
Definition attr_out (st : stat) (attr_timeout : Q) : list byte :=
  fields [(8%nat, calc_timeout_sec attr_timeout); (4%nat, calc_timeout_nsec attr_timeout); (4%nat, 0)] ++ convert_stat st.

(** [struct fuse_kstatfs] *)
Definition convert_statfs (st : statvfs) : list byte :=
  fields [(8%nat, st.(f_blocks)); (8%nat, st.(f_bfree)); (8%nat, st.(f_bavail)); (8%nat, st.(f_files)); (8%nat, st.(f_ffree));
    (4%nat, st.(f_bsize)); (4%nat, st.(f_namemax)); (4%nat, st.(f_frsize)); (4%nat, 0);
    (4%nat, 0); (4%nat, 0); (4%nat, 0); (4%nat, 0); (4%nat, 0); (4%nat, 0)].

(** The first bytes of a structure, as many as the kernel's protocol has of it. *)
Definition compat (old : bool) (size : Z) (l : list byte) : list byte := if old then ztake size l else l.

(** Data goes through a pipe when one can be made ([pipes] has the size of a page
    then), there is enough of it, and the kernel takes it from a pipe; that is not
    modelled, nor are vectors of several buffers. *)
Definition fuse_send_data_iov (pipes : option Z) (conn : fuse_conn_info) (data : list piece) (flags : Z) : outcome (list cell) :=
  match data with
  | [Mem m] =>
      match pipes with
      | Some pagesize =>
          if negb (has_flag flags FUSE_BUF_NO_SPLICE) && (2 * pagesize <=? zlen m) && (14 <=? conn.(proto_minor)) &&
             has_flag conn.(want_ext) FUSE_CAP_SPLICE_WRITE
          then Fail Unmodelled else Ok m
      | None => Ok m
      end
  | _ => Fail Unmodelled
  end.

(** The error of a reply and what follows the header; [None] when no message is
    sent. *)
Definition reply_body (pipes : option Z) (conn : fuse_conn_info) (r : reply) : outcome (option (Z * list cell)) :=
  let minor := conn.(proto_minor) in
  let sends (l : list byte) := Ok (Some (0, cells l)) in
  match r with
  | RErr err => Ok (Some (err, []))
  | RNone => Ok None
  | REntry e =>
      if negb (is_set e.(e_ino)) && (minor <? 4) then Ok (Some (- ENOENT, []))
      else sends (compat (minor <? 9) FUSE_COMPAT_ENTRY_OUT_SIZE (fill_entry e))
  | RAttr st attr_timeout => sends (compat (minor <? 9) FUSE_COMPAT_ATTR_OUT_SIZE (attr_out st attr_timeout))
  | RReadlink link => sends link
  | RCreate e fi => sends (compat (minor <? 9) FUSE_COMPAT_ENTRY_OUT_SIZE (fill_entry e) ++ fill_open fi)
  | ROpen fi => sends (fill_open fi)
  | RData data flags => m <- fuse_send_data_iov pipes conn data flags ;; Ok (Some (0, m))
  | RWrite count => sends (fields [(4%nat, count); (4%nat, 0)])
  | RBuf m => Ok (Some (0, m))
  | RStatfs st => sends (compat (minor <? 4) FUSE_COMPAT_STATFS_SIZE (convert_statfs st))
  | RXattr count => sends (fields [(4%nat, count); (4%nat, 0)])
  | RLock lock =>
      fl <- FuseLocks.fuse_reply_lock_arg lock ;;
      sends (fields [(8%nat, fl.(FuseLocks.fl_start)); (8%nat, fl.(FuseLocks.fl_end)); (4%nat, fl.(FuseLocks.fl_type));
        (4%nat, fl.(FuseLocks.fl_pid))])
  | RBmap idx => sends (fields [(8%nat, idx)])
  | RIoctl result out => Ok (Some (0, cells (fields [(4%nat, result); (4%nat, 0); (4%nat, 0); (4%nat, 0)]) ++ out))
  | RPoll revents => sends (fields [(4%nat, revents); (4%nat, 0)])
  | RLseek off => sends (fields [(8%nat, off)])
  end.

(** The message of a reply to the request with the number [unique]. *)
Definition reply_message (pipes : option Z) (conn : fuse_conn_info) (unique : Z) (r : reply) : outcome (option (list cell)) :=
  b <- reply_body pipes conn r ;;
  Ok ((fun '(err, payload) => fuse_send_msg unique err payload) <$> b).

(** ** Messages *)

(** A message as the kernel takes it: it is as long as its header says, it names the
    request, the error is none or negative, and an error comes alone
    (fuse_dev_do_write of the kernel). *)
Record message_ok (unique : Z) (m : list cell) : Prop := mk_message_ok {
  msg_len : u32_at m 0 = Ok (zlen m);
  msg_unique : u64_at m 8 = Ok unique;
  msg_error : exists e, u32_at m 4 = Ok e /\ - 1000 < i32 e <= 0 /\ (i32 e <> 0 -> zlen m = OUT_HEADER_SIZE)
}.

(** A reply that is sent, whose error is one. *)
Definition reply_sent (r : reply) : Prop := match r with RErr err => - 1000 < err <= 0 | RNone => False | _ => True end.

Lemma send_msg_len unique err payload : zlen (fuse_send_msg unique err payload) = OUT_HEADER_SIZE + zlen payload.
Proof. unfold fuse_send_msg. rewrite zlen_app, zlen_cells. unfold out_header. by rewrite zlen_fields. Qed.

Lemma swrap_mod w z : 0 < w -> swrap w (z mod 2 ^ w) = swrap w z.
Proof. intros Hw. unfold swrap. by rewrite Zplus_mod_idemp_l. Qed.

Lemma send_msg_ok unique err payload : 0 <= unique < 2 ^ 64 -> - 1000 < err <= 0 -> (err <> 0 -> payload = []) ->
  OUT_HEADER_SIZE + zlen payload < 2 ^ 32 -> message_ok unique (fuse_send_msg unique err payload).
Proof.
  intros Hu He Hp Hl. unfold OUT_HEADER_SIZE in *.
  assert (i32 (err mod 2 ^ 32) = err) as Hi by (rewrite swrap_mod, swrap_small by lia; done).
  split; unfold fuse_send_msg, out_header.
  - rewrite field_head, zlen_app, zlen_cells, zlen_fields. change (256 ^ Z.of_nat 4) with (2 ^ 32).
    unfold OUT_HEADER_SIZE. cbn [sum_list fst fmap list_fmap]. rewrite Z.mod_small by lia. f_equal.
  - rewrite !field_skip by lia. rewrite field_head. by rewrite Z.mod_small by (change (256 ^ Z.of_nat 8) with (2 ^ 64); lia).
  - exists (err mod 2 ^ 32). rewrite field_skip by lia. split_and!; [by rewrite field_head | lia | lia |].
    rewrite Hi. intros Hne. rewrite (Hp Hne), zlen_app, zlen_cells, zlen_fields. done.
Qed.

(** Every reply a handler gives to a request goes out as such a message. *)
Lemma reply_message_ok pagesize conn unique r m : 0 <= unique < 2 ^ 64 -> reply_sent r ->
  reply_message pagesize conn unique r = Ok (Some m) -> zlen m < 2 ^ 32 -> message_ok unique m.
Proof.
  intros Hu He Hm Hl. unfold reply_message in Hm. apply obind_Ok_inv in Hm as ([[err payload]|] & Hb & [= <-]).
  rewrite send_msg_len in Hl.
  assert (- 1000 < err <= 0 /\ (err <> 0 -> payload = [])) as [H1 H2]; [|by apply send_msg_ok].
  destruct r; cbn in Hb; repeat case_match; inv_ok; try discriminate; simplify_eq; cbn in He; (split; [unfold ENOENT; lia | done]).
Qed.

Lemma reply_message_sent pagesize conn unique r m : reply_sent r -> reply_message pagesize conn unique r = Ok m -> exists x, m = Some x.
Proof.
  intros Hr Hm. unfold reply_message in Hm. inv_ok. destruct a as [[err payload]|]; [by eexists|]. exfalso.
  destruct r; cbn in E; repeat case_match; inv_ok; try discriminate; done.
Qed.

End FuseWire.
