(* ===== verification/FuseLowlevel.v ===== *)
(** The low-level interface of libfuse (src/fuse-3.17.2/lib/fuse_lowlevel.c): the
    table of operations behind a session and the functions do_..., which take the
    arguments of a request out of its buffer and call the operation, or answer for
    it when it is missing.  What an operation does happens in the state of FuseLib;
    a pointer into the buffer is given as a pointer to a block that holds it. *)
From S2P Require Import Prelude.
From S2P Require Import CLib.
From S2P Require Import LittleEndian.
From S2P Require Import FuseTypes.
From S2P Require Import FuseBuf.
From S2P Require Import FuseFs.
From S2P Require Import FuseLocks.
From S2P Require Import FuseNodes.
From S2P Require Import FuseDirents.
From S2P Require Import FuseLib.
From S2P Require Import FuseKernel.

Module FuseLowlevel.
Import LittleEndian FuseTypes FuseBuf FuseFs FuseNodes FuseDirents FuseLib FuseKernel.

(** ** Definitions *)

(** The values of Linux. *)
Definition EPROTO : Z := 71.
Definition LOCK_SH : Z := 1.
Definition LOCK_EX : Z := 2.
Definition LOCK_NB : Z := 4.
Definition LOCK_UN : Z := 8.

Definition FUSE_SET_ATTR_CTIME : Z := Z.shiftl 1 10.
Definition FUSE_SET_ATTR_KILL_SUID : Z := Z.shiftl 1 11.
Definition FUSE_SET_ATTR_KILL_SGID : Z := Z.shiftl 1 12.

(** [struct fuse_req]: its address, its number, the context of the caller, and
    whether it was interrupted. *)
Record fuse_req := mk_req {
  addr : Z;
  unique : Z;
  ctx_uid : Z;
  ctx_gid : Z;
  ctx_pid : Z;
  ctx_umask : Z;
  interrupted : bool;
}.

Definition with_umask (r : fuse_req) (v : Z) : fuse_req :=
  mk_req r.(addr) r.(unique) r.(ctx_uid) r.(ctx_gid) r.(ctx_pid) v r.(interrupted).
Definition with_interrupted (r : fuse_req) (v : bool) : fuse_req :=
  mk_req r.(addr) r.(unique) r.(ctx_uid) r.(ctx_gid) r.(ctx_pid) r.(ctx_umask) v.

Definition with_writepage (fi : fuse_file_info) (v : bool) : fuse_file_info :=
  mk_file_info fi.(fi_flags) v fi.(fi_direct_io) fi.(keep_cache) fi.(flush) fi.(nonseekable) fi.(flock_release)
    fi.(cache_readdir) fi.(noflush) fi.(fi_parallel_direct_writes) fi.(fh) fi.(lock_owner) fi.(poll_events) fi.(backing_id).
Definition with_flush (fi : fuse_file_info) (v : bool) : fuse_file_info :=
  mk_file_info fi.(fi_flags) fi.(writepage) fi.(fi_direct_io) fi.(keep_cache) v fi.(nonseekable) fi.(flock_release)
    fi.(cache_readdir) fi.(noflush) fi.(fi_parallel_direct_writes) fi.(fh) fi.(lock_owner) fi.(poll_events) fi.(backing_id).
Definition with_flock_release (fi : fuse_file_info) (v : bool) : fuse_file_info :=
  mk_file_info fi.(fi_flags) fi.(writepage) fi.(fi_direct_io) fi.(keep_cache) fi.(flush) fi.(nonseekable) v
    fi.(cache_readdir) fi.(noflush) fi.(fi_parallel_direct_writes) fi.(fh) fi.(lock_owner) fi.(poll_events) fi.(backing_id).
Definition with_lock_owner (fi : fuse_file_info) (v : Z) : fuse_file_info :=
  mk_file_info fi.(fi_flags) fi.(writepage) fi.(fi_direct_io) fi.(keep_cache) fi.(flush) fi.(nonseekable) fi.(flock_release)
    fi.(cache_readdir) fi.(noflush) fi.(fi_parallel_direct_writes) fi.(fh) v fi.(poll_events) fi.(backing_id).
Definition with_poll_events (fi : fuse_file_info) (v : Z) : fuse_file_info :=
  mk_file_info fi.(fi_flags) fi.(writepage) fi.(fi_direct_io) fi.(keep_cache) fi.(flush) fi.(nonseekable) fi.(flock_release)
    fi.(cache_readdir) fi.(noflush) fi.(fi_parallel_direct_writes) fi.(fh) fi.(lock_owner) v fi.(backing_id).

(** [struct fuse_lowlevel_ops]: every operation is there or not.  [L] is the state
    they act on.  retrieve_reply, which belongs to notifications, is left out. *)
Record fuse_lowlevel_ops (L : Type) := mk_ll_ops {
  ll_init : option (fuse_conn_info -> prog L fuse_conn_info);
  ll_destroy : option (prog L unit);
  ll_lookup : option (fuse_req -> Z -> list byte -> prog L unit);
  ll_forget : option (fuse_req -> Z -> Z -> prog L unit);
  ll_forget_multi : option (fuse_req -> list (Z * Z) -> prog L unit);
  ll_getattr : option (fuse_req -> Z -> fip -> prog L unit);
  ll_setattr : option (fuse_req -> Z -> stat -> Z -> fip -> prog L unit);
  ll_access : option (fuse_req -> Z -> Z -> prog L unit);
  ll_readlink : option (fuse_req -> Z -> prog L unit);
  ll_mknod : option (fuse_req -> Z -> list byte -> Z -> Z -> prog L unit);
  ll_mkdir : option (fuse_req -> Z -> list byte -> Z -> prog L unit);
  ll_unlink : option (fuse_req -> Z -> list byte -> prog L unit);
  ll_rmdir : option (fuse_req -> Z -> list byte -> prog L unit);
  ll_symlink : option (fuse_req -> list byte -> Z -> list byte -> prog L unit);
  ll_rename : option (fuse_req -> Z -> list byte -> Z -> list byte -> Z -> prog L unit);
  ll_link : option (fuse_req -> Z -> Z -> list byte -> prog L unit);
  ll_create : option (fuse_req -> Z -> list byte -> Z -> fuse_file_info -> prog L unit);
  ll_tmpfile : option (fuse_req -> Z -> Z -> fuse_file_info -> prog L unit);
  ll_open : option (fuse_req -> Z -> fuse_file_info -> prog L unit);
  ll_read : option (fuse_req -> Z -> Z -> Z -> fuse_file_info -> prog L unit);
  ll_write : option (fuse_req -> Z -> mptr -> Z -> Z -> fuse_file_info -> prog L unit);
  ll_write_buf : option (fuse_req -> Z -> fuse_bufvec -> Z -> fuse_file_info -> prog L unit);
  ll_retrieve_reply : option (fuse_req -> Z -> Z -> Z -> fuse_bufvec -> prog L unit);
  ll_flush : option (fuse_req -> Z -> fuse_file_info -> prog L unit);
  ll_release : option (fuse_req -> Z -> fuse_file_info -> prog L unit);
  ll_fsync : option (fuse_req -> Z -> Z -> fuse_file_info -> prog L unit);
  ll_opendir : option (fuse_req -> Z -> fuse_file_info -> prog L unit);
  ll_readdir : option (fuse_req -> Z -> Z -> Z -> fuse_file_info -> prog L unit);
  ll_readdirplus : option (fuse_req -> Z -> Z -> Z -> fuse_file_info -> prog L unit);
  ll_releasedir : option (fuse_req -> Z -> fuse_file_info -> prog L unit);
  ll_fsyncdir : option (fuse_req -> Z -> Z -> fuse_file_info -> prog L unit);
  ll_statfs : option (fuse_req -> Z -> prog L unit);
  ll_setxattr : option (fuse_req -> Z -> list byte -> mptr -> Z -> Z -> prog L unit);
  ll_getxattr : option (fuse_req -> Z -> list byte -> Z -> prog L unit);
  ll_listxattr : option (fuse_req -> Z -> Z -> prog L unit);
  ll_removexattr : option (fuse_req -> Z -> list byte -> prog L unit);
  ll_getlk : option (fuse_req -> Z -> fuse_file_info -> flock -> prog L unit);
  ll_setlk : option (fuse_req -> Z -> fuse_file_info -> flock -> Z -> prog L unit);
  ll_flock : option (fuse_req -> Z -> fuse_file_info -> Z -> prog L unit);
  ll_bmap : option (fuse_req -> Z -> Z -> Z -> prog L unit);
  ll_ioctl : option (fuse_req -> Z -> Z -> mptr -> fuse_file_info -> Z -> mptr -> Z -> Z -> prog L unit);
  ll_poll : option (fuse_req -> Z -> fuse_file_info -> mptr -> prog L unit);
  ll_fallocate : option (fuse_req -> Z -> Z -> Z -> Z -> fuse_file_info -> prog L unit);
  ll_copy_file_range : option (fuse_req -> Z -> Z -> fuse_file_info -> Z -> Z -> fuse_file_info -> Z -> Z -> prog L unit);
  ll_lseek : option (fuse_req -> Z -> Z -> Z -> fuse_file_info -> prog L unit);
}.

Section requests.
Context {os A : Type} `{Syscalls os}.
#[local] Abbreviation libst := (lib (os := os) (A := A)).
#[local] Abbreviation P := (prog libst).

(** *** Replies *)

Definition fuse_reply_err (err : Z) : P unit := reply_with (RErr (sent_error (- err))).
Definition fuse_reply_none : P unit := reply_with RNone.

(** [if (op.f) op.f(...) else fuse_reply_err(req, ENOSYS)] *)
Definition call_or {B} (h : option B) (call : B -> P unit) : P unit :=
  match h with Some h => call h | None => fuse_reply_err ENOSYS end.

(** A pointer to what a pointer into the buffer points to. *)
Definition with_block (m : list cell) (call : mptr -> P unit) : P unit :=
  b <-- in_fs (fun _ => in_bs (alloc (zlen m))) ;;
  in_fs (fun _ => in_bs (mem_set (Some (b, 0)) m)) ;;;
  call (Some (b, 0)) ;;;
  in_fs (fun _ => in_bs (free_block b)).

Definition u32f (arg : list cell) (off : Z) : P Z := plift (u32_at arg off).
Definition u64f (arg : list cell) (off : Z) : P Z := plift (u64_at arg off).
(** A field that is converted to [int], [off_t] or [time_t]. *)
Definition i32f (arg : list cell) (off : Z) : P Z := v <-- u32f arg off ;; pret (i32 v).
Definition i64f (arg : list cell) (off : Z) : P Z := v <-- u64f arg off ;; pret (i64 v).
(** The string that starts behind [off] bytes. *)
Definition strf (arg : list cell) (off : Z) : P (list byte) := plift (c_string (zdrop off arg)).
(** The string and the one behind it. *)
Definition strf2 (arg : list cell) (off : Z) : P (list byte * list byte) :=
  s <-- strf arg off ;;
  t <-- strf arg (off + zlen s + 1) ;; pret (s, t).

(** A file information of which only the handle is set. *)
Definition fi_fh (arg : list cell) (off : Z) : P fuse_file_info :=
  v <-- u64f arg off ;; pret (with_fh file_info_zero v).

(** *** The requests *)

Section handlers.
Context (op : fuse_lowlevel_ops libst) (conn : fuse_conn_info).
#[local] Abbreviation minor := conn.(proto_minor).

Definition do_lookup (req : fuse_req) (nodeid : Z) (arg : list cell) : P unit :=
  call_or (ll_lookup _ op) (fun h => name <-- strf arg 0 ;; h req nodeid name).

Definition do_forget (req : fuse_req) (nodeid : Z) (arg : list cell) : P unit :=
  match ll_forget _ op with
  | Some h => nlookup <-- u64f arg 0 ;; h req nodeid nlookup
  | None => fuse_reply_none
  end.

(** The records [struct fuse_forget_one] of a batch. *)
Fixpoint read_forgets (n : nat) (m : list cell) : outcome (list (Z * Z)) :=
  match n with
  | O => Ok []
  | S n =>
      ino <- u64_at m 0 ;;
      nlookup <- u64_at m 8 ;;
      l <- read_forgets n (zdrop 16 m) ;; Ok ((ino, nlookup) :: l)
  end.

(** A request of its own for each record, until memory is short. *)
Fixpoint forget_each (h : fuse_req -> Z -> Z -> P unit) (req : fuse_req) (l : list (Z * Z)) : P unit :=
  match l with
  | [] => pret tt
  | (ino, nlookup) :: l =>
      ok <-- in_fuse allocates ;;
      if ok : bool then h req ino nlookup ;;; forget_each h req l else pret tt
  end.

Definition do_batch_forget (req : fuse_req) (nodeid : Z) (arg : list cell) : P unit :=
  let param := zdrop 8 arg in
  match ll_forget_multi _ op, ll_forget _ op with
  | Some h, _ =>
      count <-- u32f arg 0 ;;
      l <-- plift (read_forgets (Z.to_nat count) param) ;; h req l
  | None, Some h =>
      count <-- u32f arg 0 ;;
      l <-- plift (read_forgets (Z.to_nat count) param) ;;
      forget_each h req l ;;; fuse_reply_none
  | None, None => fuse_reply_none
  end.

Definition do_getattr (req : fuse_req) (nodeid : Z) (arg : list cell) : P unit :=
  fip <-- (if 9 <=? minor then
      getattr_flags <-- u32f arg 0 ;;
      if has_flag getattr_flags FUSE_GETATTR_FH then fi <-- fi_fh arg 8 ;; pret (Some fi) else pret None
    else pret None) ;;
  call_or (ll_getattr _ op) (fun h => h req nodeid fip).

(** [struct fuse_setattr_in] as [struct stat] *)
Definition convert_attr (arg : list cell) : P stat :=
  mode <-- u32f arg 68 ;;
  uid <-- u32f arg 76 ;;
  gid <-- u32f arg 80 ;;
  size <-- i64f arg 16 ;;
  atime <-- i64f arg 32 ;;
  mtime <-- i64f arg 40 ;;
  ctime <-- i64f arg 48 ;;
  atimensec <-- u32f arg 56 ;;
  mtimensec <-- u32f arg 60 ;;
  ctimensec <-- u32f arg 64 ;;
  pret (mk_stat 0 mode 0 uid gid size (atime, atimensec) (mtime, mtimensec) (ctime, ctimensec) 0 0 0).

(** The attributes an operation is told about. *)
Definition SETATTR_MASK : Z :=
  Z.lor FUSE_SET_ATTR_MODE (Z.lor FUSE_SET_ATTR_UID (Z.lor FUSE_SET_ATTR_GID (Z.lor FUSE_SET_ATTR_SIZE
    (Z.lor FUSE_SET_ATTR_ATIME (Z.lor FUSE_SET_ATTR_MTIME (Z.lor FUSE_SET_ATTR_KILL_SUID (Z.lor FUSE_SET_ATTR_KILL_SGID
      (Z.lor FUSE_SET_ATTR_ATIME_NOW (Z.lor FUSE_SET_ATTR_MTIME_NOW FUSE_SET_ATTR_CTIME))))))))).

Definition do_setattr (req : fuse_req) (nodeid : Z) (arg : list cell) : P unit :=
  call_or (ll_setattr _ op) (fun h =>
    stbuf <-- convert_attr arg ;;
    valid <-- u32f arg 0 ;;
    let? (valid, fi) := (if has_flag valid FATTR_FH then
        fi <-- fi_fh arg 8 ;; pret (Z.land valid (u32 (Z.lnot FATTR_FH)), Some fi)
      else pret (valid, None)) in
    h req nodeid stbuf (Z.land valid SETATTR_MASK) fi).

Definition do_access (req : fuse_req) (nodeid : Z) (arg : list cell) : P unit :=
  call_or (ll_access _ op) (fun h => mask <-- i32f arg 0 ;; h req nodeid mask).

Definition do_readlink (req : fuse_req) (nodeid : Z) (arg : list cell) : P unit :=
  call_or (ll_readlink _ op) (fun h => h req nodeid).

(** The mask of the caller is sent since version 7.12. *)
Definition take_umask (req : fuse_req) (arg : list cell) (off : Z) : P fuse_req :=
  if 12 <=? minor then umask <-- u32f arg off ;; pret (with_umask req umask) else pret req.

Definition do_mknod (req : fuse_req) (nodeid : Z) (arg : list cell) : P unit :=
  req <-- take_umask req arg 8 ;;
  call_or (ll_mknod _ op) (fun h =>
    name <-- strf arg (if 12 <=? minor then 16 else FUSE_COMPAT_MKNOD_IN_SIZE) ;;
    mode <-- u32f arg 0 ;;
    rdev <-- u32f arg 4 ;;
    h req nodeid name mode rdev).

Definition do_mkdir (req : fuse_req) (nodeid : Z) (arg : list cell) : P unit :=
  req <-- take_umask req arg 4 ;;
  call_or (ll_mkdir _ op) (fun h =>
    name <-- strf arg 8 ;;
    mode <-- u32f arg 0 ;;
    h req nodeid name mode).

Definition do_unlink (req : fuse_req) (nodeid : Z) (arg : list cell) : P unit :=
  call_or (ll_unlink _ op) (fun h => name <-- strf arg 0 ;; h req nodeid name).

Definition do_rmdir (req : fuse_req) (nodeid : Z) (arg : list cell) : P unit :=
  call_or (ll_rmdir _ op) (fun h => name <-- strf arg 0 ;; h req nodeid name).

Definition do_symlink (req : fuse_req) (nodeid : Z) (arg : list cell) : P unit :=
  let? (name, linkname) := strf2 arg 0 in
  call_or (ll_symlink _ op) (fun h => h req linkname nodeid name).

Definition do_rename (req : fuse_req) (nodeid : Z) (arg : list cell) : P unit :=
  let? (oldname, newname) := strf2 arg 8 in
  call_or (ll_rename _ op) (fun h => newdir <-- u64f arg 0 ;; h req nodeid oldname newdir newname 0).

Definition do_rename2 (req : fuse_req) (nodeid : Z) (arg : list cell) : P unit :=
  let? (oldname, newname) := strf2 arg 16 in
  call_or (ll_rename _ op) (fun h =>
    newdir <-- u64f arg 0 ;;
    flags <-- u32f arg 8 ;;
    h req nodeid oldname newdir newname flags).

Definition do_link (req : fuse_req) (nodeid : Z) (arg : list cell) : P unit :=
  call_or (ll_link _ op) (fun h =>
    oldnodeid <-- u64f arg 0 ;;
    name <-- strf arg 8 ;;
    h req oldnodeid nodeid name).

Definition do_tmpfile (req : fuse_req) (nodeid : Z) (arg : list cell) : P unit :=
  call_or (ll_tmpfile _ op) (fun h =>
    flags <-- i32f arg 0 ;;
    req <-- take_umask req arg 8 ;;
    mode <-- u32f arg 4 ;;
    h req nodeid mode (with_flags file_info_zero flags)).

Definition do_create (req : fuse_req) (nodeid : Z) (arg : list cell) : P unit :=
  call_or (ll_create _ op) (fun h =>
    flags <-- i32f arg 0 ;;
    req <-- take_umask req arg 8 ;;
    name <-- strf arg (if 12 <=? minor then 16 else 8) ;;
    mode <-- u32f arg 4 ;;
    h req nodeid name mode (with_flags file_info_zero flags)).

(** What opening does without an operation: the kernel is told that it need not
    ask, if it knows that answer. *)
Definition open_default (cap : Z) (fi : fuse_file_info) : P unit :=
  if has_flag conn.(want_ext) cap then fuse_reply_err ENOSYS else reply_with (ROpen fi).

Definition do_open (req : fuse_req) (nodeid : Z) (arg : list cell) : P unit :=
  flags <-- i32f arg 0 ;;
  let fi := with_flags file_info_zero flags in
  match ll_open _ op with
  | Some h => h req nodeid fi
  | None => open_default FUSE_CAP_NO_OPEN_SUPPORT fi
  end.

Definition do_read (req : fuse_req) (nodeid : Z) (arg : list cell) : P unit :=
  call_or (ll_read _ op) (fun h =>
    fi <-- fi_fh arg 0 ;;
    fi <-- (if 9 <=? minor then
        lock_owner <-- u64f arg 24 ;;
        flags <-- i32f arg 32 ;; pret (with_flags (with_lock_owner fi lock_owner) flags)
      else pret fi) ;;
    size <-- u32f arg 16 ;;
    offset <-- i64f arg 8 ;;
    h req nodeid size offset fi).

(** What write and write_buf have in common, and where the data start. *)
Definition write_info (arg : list cell) : P (fuse_file_info * Z) :=
  fi <-- fi_fh arg 0 ;;
  write_flags <-- u32f arg 20 ;;
  let fi := with_writepage fi (has_flag write_flags FUSE_WRITE_CACHE) in
  if minor <? 9 then pret (fi, FUSE_COMPAT_WRITE_IN_SIZE)
  else
    lock_owner <-- u64f arg 24 ;;
    flags <-- i32f arg 32 ;; pret (with_flags (with_lock_owner fi lock_owner) flags, WRITE_IN_SIZE).

Definition do_write (req : fuse_req) (nodeid : Z) (arg : list cell) : P unit :=
  let? (fi, start) := write_info arg in
  call_or (ll_write _ op) (fun h =>
    size <-- u32f arg 16 ;;
    offset <-- i64f arg 8 ;;
    with_block arg (fun p => h req nodeid (ptr_add p start) size offset fi)).

(** On a buffer of memory of which [insize] bytes were received. *)
Definition do_write_buf (req : fuse_req) (nodeid : Z) (arg : list cell) (insize : Z) : P unit :=
  let? (fi, start) := write_info arg in
  let bufsize := u64 (insize - (IN_HEADER_SIZE + start)) in
  size <-- u32f arg 16 ;;
  if bufsize <? size then fuse_reply_err EIO
  else
    offset <-- i64f arg 8 ;;
    match ll_write_buf _ op with
    | Some h => with_block arg (fun p =>
        h req nodeid (mk_bufvec 1 0 0 [mk_buf size 0 (ptr_add p start) 0 0 0]) offset fi)
    | None => pfail NullDeref
    end.

Definition do_flush (req : fuse_req) (nodeid : Z) (arg : list cell) : P unit :=
  fi <-- fi_fh arg 0 ;;
  let fi := with_flush fi true in
  fi <-- (if 7 <=? minor then lock_owner <-- u64f arg 16 ;; pret (with_lock_owner fi lock_owner) else pret fi) ;;
  call_or (ll_flush _ op) (fun h => h req nodeid fi).

Definition do_release (req : fuse_req) (nodeid : Z) (arg : list cell) : P unit :=
  flags <-- i32f arg 8 ;;
  fi <-- fi_fh arg 0 ;;
  let fi := with_flags fi flags in
  release_flags <-- u32f arg 12 ;;
  fi <-- (if 8 <=? minor then
      lock_owner <-- u64f arg 16 ;;
      pret (with_lock_owner (with_flush fi (has_flag release_flags FUSE_RELEASE_FLUSH)) lock_owner)
    else pret fi) ;;
  fi <-- (if has_flag release_flags FUSE_RELEASE_FLOCK_UNLOCK then
      lock_owner <-- u64f arg 16 ;; pret (with_lock_owner (with_flock_release fi true) lock_owner)
    else pret fi) ;;
  match ll_release _ op with Some h => h req nodeid fi | None => fuse_reply_err 0 end.

(** The lowest bit tells whether only data are written. *)
Definition do_fsync (req : fuse_req) (nodeid : Z) (arg : list cell) : P unit :=
  fsync_flags <-- u32f arg 8 ;;
  fi <-- fi_fh arg 0 ;;
  call_or (ll_fsync _ op) (fun h => h req nodeid (Z.land fsync_flags 1) fi).

Definition do_opendir (req : fuse_req) (nodeid : Z) (arg : list cell) : P unit :=
  flags <-- i32f arg 0 ;;
  let fi := with_flags file_info_zero flags in
  match ll_opendir _ op with
  | Some h => h req nodeid fi
  | None => open_default FUSE_CAP_NO_OPENDIR_SUPPORT fi
  end.

Definition do_readdir (req : fuse_req) (nodeid : Z) (arg : list cell) : P unit :=
  fi <-- fi_fh arg 0 ;;
  call_or (ll_readdir _ op) (fun h =>
    size <-- u32f arg 16 ;;
    offset <-- i64f arg 8 ;;
    h req nodeid size offset fi).

Definition do_readdirplus (req : fuse_req) (nodeid : Z) (arg : list cell) : P unit :=
  fi <-- fi_fh arg 0 ;;
  call_or (ll_readdirplus _ op) (fun h =>
    size <-- u32f arg 16 ;;
    offset <-- i64f arg 8 ;;
    h req nodeid size offset fi).

Definition do_releasedir (req : fuse_req) (nodeid : Z) (arg : list cell) : P unit :=
  flags <-- i32f arg 8 ;;
  fi <-- fi_fh arg 0 ;;
  let fi := with_flags fi flags in
  match ll_releasedir _ op with Some h => h req nodeid fi | None => fuse_reply_err 0 end.

Definition do_fsyncdir (req : fuse_req) (nodeid : Z) (arg : list cell) : P unit :=
  fsync_flags <-- u32f arg 8 ;;
  fi <-- fi_fh arg 0 ;;
  call_or (ll_fsyncdir _ op) (fun h => h req nodeid (Z.land fsync_flags 1) fi).

Definition do_statfs (req : fuse_req) (nodeid : Z) (arg : list cell) : P unit :=
  match ll_statfs _ op with
  | Some h => h req nodeid
  | None => reply_with (RStatfs (mk_statvfs 512 0 0 0 0 0 0 0 0 0 255))
  end.

Definition do_setxattr (req : fuse_req) (nodeid : Z) (arg : list cell) : P unit :=
  let start := if has_flag conn.(want_ext) FUSE_CAP_SETXATTR_EXT then 16 else FUSE_COMPAT_SETXATTR_IN_SIZE in
  name <-- strf arg start ;;
  call_or (ll_setxattr _ op) (fun h =>
    size <-- u32f arg 0 ;;
    flags <-- i32f arg 4 ;;
    with_block arg (fun p => h req nodeid name (ptr_add p (start + zlen name + 1)) size flags)).

Definition do_getxattr (req : fuse_req) (nodeid : Z) (arg : list cell) : P unit :=
  call_or (ll_getxattr _ op) (fun h =>
    name <-- strf arg 8 ;;
    size <-- u32f arg 0 ;;
    h req nodeid name size).

Definition do_listxattr (req : fuse_req) (nodeid : Z) (arg : list cell) : P unit :=
  call_or (ll_listxattr _ op) (fun h => size <-- u32f arg 0 ;; h req nodeid size).

Definition do_removexattr (req : fuse_req) (nodeid : Z) (arg : list cell) : P unit :=
  call_or (ll_removexattr _ op) (fun h => name <-- strf arg 0 ;; h req nodeid name).

(** [struct fuse_file_lock], at its place in [struct fuse_lk_in] *)
Definition lk_in (arg : list cell) : P FuseLocks.fuse_file_lock :=
  s <-- u64f arg 16 ;;
  e <-- u64f arg 24 ;;
  t <-- u32f arg 32 ;;
  p <-- u32f arg 36 ;; pret (FuseLocks.mk_file_lock s e t p).

Definition lk_info (arg : list cell) : P fuse_file_info :=
  fi <-- fi_fh arg 0 ;;
  owner <-- u64f arg 8 ;; pret (with_lock_owner fi owner).

Definition do_getlk (req : fuse_req) (nodeid : Z) (arg : list cell) : P unit :=
  fi <-- lk_info arg ;;
  lk <-- lk_in arg ;;
  let flock := FuseLocks.convert_fuse_file_lock lk in
  call_or (ll_getlk _ op) (fun h => h req nodeid fi flock).

(** The operation of flock(2) for a type of lock. *)
Definition flock_op (type sleep : Z) : Z :=
  let op := if type =? FuseLocks.F_RDLCK then LOCK_SH
            else if type =? FuseLocks.F_WRLCK then LOCK_EX
            else if type =? FuseLocks.F_UNLCK then LOCK_UN else 0 in
  if is_set sleep then op else Z.lor op LOCK_NB.

Definition do_setlk_common (req : fuse_req) (nodeid : Z) (arg : list cell) (sleep : Z) : P unit :=
  fi <-- lk_info arg ;;
  lk_flags <-- u32f arg 40 ;;
  if has_flag lk_flags FUSE_LK_FLOCK then
    type <-- u32f arg 32 ;;
    call_or (ll_flock _ op) (fun h => h req nodeid fi (flock_op type sleep))
  else
    lk <-- lk_in arg ;;
    let flock := FuseLocks.convert_fuse_file_lock lk in
    call_or (ll_setlk _ op) (fun h => h req nodeid fi flock sleep).

Definition do_setlk (req : fuse_req) (nodeid : Z) (arg : list cell) : P unit := do_setlk_common req nodeid arg 0.
Definition do_setlkw (req : fuse_req) (nodeid : Z) (arg : list cell) : P unit := do_setlk_common req nodeid arg 1.

Definition do_bmap (req : fuse_req) (nodeid : Z) (arg : list cell) : P unit :=
  call_or (ll_bmap _ op) (fun h =>
    blocksize <-- u32f arg 8 ;;
    block <-- u64f arg 0 ;;
    h req nodeid blocksize block).

(** The third argument of ioctl(2): an address of the calling process, which is
    handed on and not used here; [-1] is a block nobody has. *)
Definition caller_ptr (a : Z) : mptr := if is_set a then Some (-1, a) else None.

(** The code for pointers of 64 bits. *)
Definition do_ioctl (req : fuse_req) (nodeid : Z) (arg : list cell) : P unit :=
  flags <-- u32f arg 8 ;;
  in_size <-- u32f arg 24 ;;
  if has_flag flags FUSE_IOCTL_DIR && negb (has_flag conn.(want_ext) FUSE_CAP_IOCTL_DIR) then fuse_reply_err ENOTTY
  else
    fi <-- fi_fh arg 0 ;;
    call_or (ll_ioctl _ op) (fun h =>
      cmd <-- u32f arg 12 ;;
      a <-- u64f arg 16 ;;
      out_size <-- u32f arg 28 ;;
      with_block arg (fun p =>
        h req nodeid cmd (caller_ptr a) fi flags (if is_set in_size then ptr_add p 32 else None) in_size out_size)).

(** [struct fuse_pollhandle]: the kernel's handle and a pointer to the session. *)
Definition poll_handle (kh : Z) : P mptr :=
  ph <-- in_fs (fun _ => malloc_m 16) ;;
  match ph with
  | Some _ => in_fs (fun _ => in_bs (mem_set ph (cells (le 8 kh)))) ;;; pret ph
  | None => pret None
  end.

Definition do_poll (req : fuse_req) (nodeid : Z) (arg : list cell) : P unit :=
  fi <-- fi_fh arg 0 ;;
  events <-- u32f arg 20 ;;
  let fi := with_poll_events fi events in
  call_or (ll_poll _ op) (fun h =>
    flags <-- u32f arg 16 ;;
    if has_flag flags FUSE_POLL_SCHEDULE_NOTIFY then
      kh <-- u64f arg 8 ;;
      ph <-- poll_handle kh ;;
      match ph with Some _ => h req nodeid fi ph | None => fuse_reply_err ENOMEM end
    else h req nodeid fi None).

Definition do_fallocate (req : fuse_req) (nodeid : Z) (arg : list cell) : P unit :=
  fi <-- fi_fh arg 0 ;;
  call_or (ll_fallocate _ op) (fun h =>
    mode <-- i32f arg 24 ;;
    offset <-- i64f arg 8 ;;
    length <-- i64f arg 16 ;;
    h req nodeid mode offset length fi).

Definition do_copy_file_range (req : fuse_req) (nodeid_in : Z) (arg : list cell) : P unit :=
  fi_in <-- fi_fh arg 0 ;;
  fi_out <-- fi_fh arg 24 ;;
  call_or (ll_copy_file_range _ op) (fun h =>
    off_in <-- i64f arg 8 ;;
    nodeid_out <-- u64f arg 16 ;;
    off_out <-- i64f arg 32 ;;
    len <-- u64f arg 40 ;;
    flags <-- u64f arg 48 ;;
    h req nodeid_in off_in fi_in nodeid_out off_out fi_out len (i32 flags)).

Definition do_lseek (req : fuse_req) (nodeid : Z) (arg : list cell) : P unit :=
  fi <-- fi_fh arg 0 ;;
  call_or (ll_lseek _ op) (fun h =>
    offset <-- i64f arg 8 ;;
    whence <-- i32f arg 16 ;;
    h req nodeid offset whence fi).

End handlers.

(** *** The table of libfuse's path-based interface (lib/fuse.c) *)

(** [locks]: with the operations on record locks, which fuse_new leaves out for a file
    system that has none. *)
Definition path_ops (locks : bool) : fuse_lowlevel_ops libst := {|
  ll_init := Some fuse_lib_init;
  ll_destroy := Some fuse_lib_destroy;
  ll_lookup := Some (fun _ => fuse_lib_lookup);
  ll_forget := Some (fun _ => fuse_lib_forget);
  ll_forget_multi := Some (fun _ => fuse_lib_forget_multi);
  ll_getattr := Some (fun _ => fuse_lib_getattr);
  ll_setattr := Some (fun _ => fuse_lib_setattr);
  ll_access := Some (fun _ => fuse_lib_access);
  ll_readlink := Some (fun _ => fuse_lib_readlink);
  ll_mknod := Some (fun _ => fuse_lib_mknod);
  ll_mkdir := Some (fun _ => fuse_lib_mkdir);
  ll_unlink := Some (fun _ => fuse_lib_unlink);
  ll_rmdir := Some (fun _ => fuse_lib_rmdir);
  ll_symlink := Some (fun _ => fuse_lib_symlink);
  ll_rename := Some (fun _ => fuse_lib_rename);
  ll_link := Some (fun _ => fuse_lib_link);
  ll_create := Some (fun _ => fuse_lib_create);
  ll_tmpfile := None;
  ll_open := Some (fun _ => fuse_lib_open);
  ll_read := Some (fun _ ino size off fi => fuse_lib_read ino size off (Some fi));
  ll_write := None;
  ll_write_buf := Some (fun _ ino v off fi => fuse_lib_write_buf ino v off (Some fi));
  ll_retrieve_reply := None;
  ll_flush := Some (fun _ ino fi => fuse_lib_flush ino (Some fi));
  ll_release := Some (fun _ => fuse_lib_release);
  ll_fsync := Some (fun _ ino datasync fi => fuse_lib_fsync ino datasync (Some fi));
  ll_opendir := Some (fun _ => fuse_lib_opendir);
  ll_readdir := Some (fun _ => fuse_lib_readdir);
  ll_readdirplus := Some (fun _ => fuse_lib_readdirplus);
  ll_releasedir := Some (fun _ => fuse_lib_releasedir);
  ll_fsyncdir := Some (fun _ => fuse_lib_fsyncdir);
  ll_statfs := Some (fun _ => fuse_lib_statfs);
  ll_setxattr := Some (fun _ => fuse_lib_setxattr);
  ll_getxattr := Some (fun _ => fuse_lib_getxattr);
  ll_listxattr := Some (fun _ => fuse_lib_listxattr);
  ll_removexattr := Some (fun _ => fuse_lib_removexattr);
  ll_getlk := if locks then Some (fun _ => fuse_lib_getlk) else None;
  ll_setlk := if locks then Some (fun _ => fuse_lib_setlk) else None;
  ll_flock := Some (fun _ ino fi o => fuse_lib_flock ino (Some fi) o);
  ll_bmap := Some (fun _ => fuse_lib_bmap);
  ll_ioctl := Some (fun _ => fuse_lib_ioctl);
  ll_poll := Some (fun _ ino fi ph => fuse_lib_poll ino (Some fi) ph);
  ll_fallocate := Some (fun _ ino mode offset length fi => fuse_lib_fallocate ino mode offset length (Some fi));
  ll_copy_file_range := Some (fun _ ino_in off_in fi_in ino_out off_out fi_out len flags =>
    fuse_lib_copy_file_range ino_in off_in (Some fi_in) ino_out off_out (Some fi_out) len flags);
  ll_lseek := Some (fun _ ino off whence fi => fuse_lib_lseek ino off whence (Some fi));
|}.

Definition fuse_path_ops : fuse_lowlevel_ops libst := path_ops true.

(** The table for the sessions of this file system. *)
Definition ops_for (fs : fuse_fs (fstate os A) fill_state) : fuse_lowlevel_ops libst := path_ops (given (op_lock _ _ fs.(op))).

End requests.
End FuseLowlevel.
