(* ===== verification/FuseSession.v ===== *)
(** The session of libfuse with the kernel (src/fuse-3.17.2/lib/fuse_lowlevel.c and
    lib/fuse_loop.c): the negotiation of INIT, the checks on every request, the
    requests to interrupt others, the buffers requests are read into, and the loop of
    the single-threaded program.  Requests come in memory, from the device itself:
    the pipes of splice, channels of several threads and custom input and output
    are left out, and so is the debug log.  A handler has answered when it returns. *)
From S2P Require Import Prelude.
From S2P Require Import CLib.
From S2P Require Import LittleEndian.
From S2P Require Import FuseTypes.
From S2P Require Import FuseBuf.
From S2P Require Import FuseFs.
From S2P Require Import FuseNodes.
From S2P Require Import FuseDirents.
From S2P Require Import FuseLib.
From S2P Require Import FuseKernel.
From S2P Require Import FuseWire.
From S2P Require Import FuseLowlevel.

Module FuseSession.
Import LittleEndian FuseTypes FuseBuf FuseFs FuseNodes FuseDirents FuseLib FuseKernel FuseWire FuseLowlevel.

(** ** Definitions *)

Definition FUSE_DEFAULT_MAX_PAGES_LIMIT : Z := 256.
Definition FUSE_DEFAULT_MAX_PAGES_PER_REQ : Z := 32.
Definition FUSE_BUFFER_HEADER_SIZE : Z := 0x1000.
Definition FUSE_MAXOP : Z := CUSE_INIT + 1.
Definition UINT_MAX : Z := 2 ^ 32 - 1.
Definition ENODEV : Z := 19.

(** *** What the kernel offers and what is asked of it *)

(** A flag of the kernel's INIT and the capability it stands for. *)
Definition init_caps : list (Z * Z) := [
  (FUSE_ASYNC_READ, FUSE_CAP_ASYNC_READ);
  (FUSE_POSIX_LOCKS, FUSE_CAP_POSIX_LOCKS);
  (FUSE_ATOMIC_O_TRUNC, FUSE_CAP_ATOMIC_O_TRUNC);
  (FUSE_EXPORT_SUPPORT, FUSE_CAP_EXPORT_SUPPORT);
  (FUSE_DONT_MASK, FUSE_CAP_DONT_MASK);
  (FUSE_FLOCK_LOCKS, FUSE_CAP_FLOCK_LOCKS);
  (FUSE_AUTO_INVAL_DATA, FUSE_CAP_AUTO_INVAL_DATA);
  (FUSE_DO_READDIRPLUS, FUSE_CAP_READDIRPLUS);
  (FUSE_READDIRPLUS_AUTO, FUSE_CAP_READDIRPLUS_AUTO);
  (FUSE_ASYNC_DIO, FUSE_CAP_ASYNC_DIO);
  (FUSE_WRITEBACK_CACHE, FUSE_CAP_WRITEBACK_CACHE);
  (FUSE_NO_OPEN_SUPPORT, FUSE_CAP_NO_OPEN_SUPPORT);
  (FUSE_PARALLEL_DIROPS, FUSE_CAP_PARALLEL_DIROPS);
  (FUSE_POSIX_ACL, FUSE_CAP_POSIX_ACL);
  (FUSE_HANDLE_KILLPRIV, FUSE_CAP_HANDLE_KILLPRIV);
  (FUSE_HANDLE_KILLPRIV_V2, FUSE_CAP_HANDLE_KILLPRIV_V2);
  (FUSE_CACHE_SYMLINKS, FUSE_CAP_CACHE_SYMLINKS);
  (FUSE_NO_OPENDIR_SUPPORT, FUSE_CAP_NO_OPENDIR_SUPPORT);
  (FUSE_EXPLICIT_INVAL_DATA, FUSE_CAP_EXPLICIT_INVAL_DATA);
  (FUSE_SETXATTR_EXT, FUSE_CAP_SETXATTR_EXT);
  (FUSE_DIRECT_IO_ALLOW_MMAP, FUSE_CAP_DIRECT_IO_ALLOW_MMAP);
  (FUSE_PASSTHROUGH, FUSE_CAP_PASSTHROUGH);
  (FUSE_NO_EXPORT_SUPPORT, FUSE_CAP_NO_EXPORT_SUPPORT)
].

(** The flags of the reply, by the capabilities that are wanted. *)
Definition reply_caps : list (Z * Z) := [
  (FUSE_CAP_ASYNC_READ, FUSE_ASYNC_READ);
  (FUSE_CAP_POSIX_LOCKS, FUSE_POSIX_LOCKS);
  (FUSE_CAP_ATOMIC_O_TRUNC, FUSE_ATOMIC_O_TRUNC);
  (FUSE_CAP_EXPORT_SUPPORT, FUSE_EXPORT_SUPPORT);
  (FUSE_CAP_DONT_MASK, FUSE_DONT_MASK);
  (FUSE_CAP_FLOCK_LOCKS, FUSE_FLOCK_LOCKS);
  (FUSE_CAP_AUTO_INVAL_DATA, FUSE_AUTO_INVAL_DATA);
  (FUSE_CAP_READDIRPLUS, FUSE_DO_READDIRPLUS);
  (FUSE_CAP_READDIRPLUS_AUTO, FUSE_READDIRPLUS_AUTO);
  (FUSE_CAP_ASYNC_DIO, FUSE_ASYNC_DIO);
  (FUSE_CAP_WRITEBACK_CACHE, FUSE_WRITEBACK_CACHE);
  (FUSE_CAP_PARALLEL_DIROPS, FUSE_PARALLEL_DIROPS);
  (FUSE_CAP_POSIX_ACL, FUSE_POSIX_ACL);
  (FUSE_CAP_HANDLE_KILLPRIV, FUSE_HANDLE_KILLPRIV);
  (FUSE_CAP_HANDLE_KILLPRIV_V2, FUSE_HANDLE_KILLPRIV_V2);
  (FUSE_CAP_CACHE_SYMLINKS, FUSE_CACHE_SYMLINKS);
  (FUSE_CAP_EXPLICIT_INVAL_DATA, FUSE_EXPLICIT_INVAL_DATA);
  (FUSE_CAP_SETXATTR_EXT, FUSE_SETXATTR_EXT);
  (FUSE_CAP_DIRECT_IO_ALLOW_MMAP, FUSE_DIRECT_IO_ALLOW_MMAP);
  (FUSE_CAP_PASSTHROUGH, FUSE_PASSTHROUGH);
  (FUSE_CAP_NO_EXPORT_SUPPORT, FUSE_NO_EXPORT_SUPPORT)
].

(** [if (flags & a) acc |= b] for every pair in turn. *)
Definition translate (l : list (Z * Z)) (flags acc : Z) : Z :=
  foldl (fun acc '(a, b) => if has_flag flags a then Z.lor acc b else acc) acc l.

(** The capabilities of a kernel of version 7.[minor] that sends these flags; every
    version from 38 on can let entries expire. *)
Definition offered_caps (minor inargflags : Z) : Z :=
  let caps := translate init_caps inargflags 0 in
  if (38 <=? minor) || has_flag inargflags FUSE_HAS_EXPIRE_ONLY then Z.lor caps FUSE_CAP_EXPIRE_ONLY else caps.

(** What the version alone tells, on a system with splice and vmsplice. *)
Definition version_caps (minor caps : Z) : Z :=
  let caps := if 14 <=? minor
    then Z.lor (Z.lor caps (Z.lor FUSE_CAP_SPLICE_WRITE FUSE_CAP_SPLICE_MOVE)) FUSE_CAP_SPLICE_READ else caps in
  if 18 <=? minor then Z.lor caps FUSE_CAP_IOCTL_DIR else caps.

Definition want_flags_valid (capable want : Z) : bool := Z.land want (u64 (Z.lnot capable)) =? 0.

(** Fields of the connection. *)
Definition with_proto (c : fuse_conn_info) (major minor : Z) : fuse_conn_info :=
  mk_conn_info major minor c.(max_write) c.(max_read) c.(max_readahead) c.(capable) c.(want) c.(max_background)
    c.(congestion_threshold) c.(time_gran) c.(max_backing_stack_depth) c.(no_interrupt) c.(capable_ext) c.(want_ext).
Definition with_capable_ext (c : fuse_conn_info) (v : Z) : fuse_conn_info :=
  mk_conn_info c.(proto_major) c.(proto_minor) c.(max_write) c.(max_read) c.(max_readahead) c.(capable) c.(want) c.(max_background)
    c.(congestion_threshold) c.(time_gran) c.(max_backing_stack_depth) c.(no_interrupt) v c.(want_ext).
Definition with_max_readahead (c : fuse_conn_info) (v : Z) : fuse_conn_info :=
  mk_conn_info c.(proto_major) c.(proto_minor) c.(max_write) c.(max_read) v c.(capable) c.(want) c.(max_background)
    c.(congestion_threshold) c.(time_gran) c.(max_backing_stack_depth) c.(no_interrupt) c.(capable_ext) c.(want_ext).
Definition with_max_write (c : fuse_conn_info) (v : Z) : fuse_conn_info :=
  mk_conn_info c.(proto_major) c.(proto_minor) v c.(max_read) c.(max_readahead) c.(capable) c.(want) c.(max_background)
    c.(congestion_threshold) c.(time_gran) c.(max_backing_stack_depth) c.(no_interrupt) c.(capable_ext) c.(want_ext).
Definition with_capable (c : fuse_conn_info) (v : Z) : fuse_conn_info :=
  mk_conn_info c.(proto_major) c.(proto_minor) c.(max_write) c.(max_read) c.(max_readahead) v c.(want) c.(max_background)
    c.(congestion_threshold) c.(time_gran) c.(max_backing_stack_depth) c.(no_interrupt) c.(capable_ext) c.(want_ext).
Definition with_time_gran (c : fuse_conn_info) (v : Z) : fuse_conn_info :=
  mk_conn_info c.(proto_major) c.(proto_minor) c.(max_write) c.(max_read) c.(max_readahead) c.(capable) c.(want) c.(max_background)
    c.(congestion_threshold) v c.(max_backing_stack_depth) c.(no_interrupt) c.(capable_ext) c.(want_ext).
Definition with_background (c : fuse_conn_info) (bg ct : Z) : fuse_conn_info :=
  mk_conn_info c.(proto_major) c.(proto_minor) c.(max_write) c.(max_read) c.(max_readahead) c.(capable) c.(want) bg
    ct c.(time_gran) c.(max_backing_stack_depth) c.(no_interrupt) c.(capable_ext) c.(want_ext).

(** [struct fuse_init_out] *)
Record init_out := mk_init_out {
  out_max_readahead : Z;
  out_flags : Z;
  out_max_background : Z;
  out_congestion_threshold : Z;
  out_max_write : Z;
  out_time_gran : Z;
  out_max_pages : Z;
  out_flags2 : Z;
  out_max_stack_depth : Z;
}.

Definition init_out_zero : init_out := mk_init_out 0 0 0 0 0 0 0 0 0.

Definition init_out_bytes (o : init_out) : list byte :=
  fields [(4%nat, FUSE_KERNEL_VERSION); (4%nat, FUSE_KERNEL_MINOR_VERSION); (4%nat, o.(out_max_readahead)); (4%nat, o.(out_flags));
    (2%nat, o.(out_max_background)); (2%nat, o.(out_congestion_threshold)); (4%nat, o.(out_max_write)); (4%nat, o.(out_time_gran));
    (2%nat, o.(out_max_pages)); (2%nat, 0); (4%nat, o.(out_flags2)); (4%nat, o.(out_max_stack_depth));
    (4%nat, 0); (4%nat, 0); (4%nat, 0); (4%nat, 0); (4%nat, 0); (4%nat, 0)].

(** The limits of requests in the background, within 16 bits. *)
Definition background_limits (c : fuse_conn_info) : fuse_conn_info :=
  let bg := if 2 ^ 16 <=? c.(max_background) then 2 ^ 16 - 1 else c.(max_background) in
  let ct := if c.(congestion_threshold) >? bg then bg else c.(congestion_threshold) in
  with_background c bg (if ct =? 0 then u32 (bg * 3) / 4 else ct).

(** The flags of the reply, when the kernel sent [inargflags]; the page limit is
    looked up in the lower half alone. *)
Definition reply_flags (c : fuse_conn_info) (inargflags max_pages : Z) : Z :=
  let flags := translate reply_caps c.(want_ext) (Z.lor max_pages FUSE_BIG_WRITES) in
  if has_flag inargflags FUSE_INIT_EXT then Z.lor flags FUSE_INIT_EXT else flags.

(** The answer to INIT: [c] has its limits set, [argflags] is the field of the
    request. *)
Definition init_answer (pagesize : Z) (c : fuse_conn_info) (argflags inargflags : Z) : init_out :=
  let pages := has_flag argflags FUSE_MAX_PAGES in
  let flags := reply_flags c inargflags (if pages then FUSE_MAX_PAGES else 0) in
  let bg := 13 <=? c.(proto_minor) in
  mk_init_out c.(max_readahead) flags (if bg then c.(max_background) else 0) (if bg then c.(congestion_threshold) else 0)
    c.(max_write) (if 23 <=? c.(proto_minor) then c.(time_gran) else 0)
    (if pages then u32 (u32 (c.(max_write) - 1) / pagesize + 1) else 0)
    (if has_flag inargflags FUSE_INIT_EXT then Z.shiftr flags 32 else 0)
    (if has_flag c.(want_ext) FUSE_CAP_PASSTHROUGH then c.(max_backing_stack_depth) + 1 else 0).

(** Its length, by the version of the kernel. *)
Definition init_out_size (minor : Z) (o : list byte) : list byte :=
  if minor <? 5 then ztake FUSE_COMPAT_INIT_OUT_SIZE o
  else if minor <? 23 then ztake FUSE_COMPAT_22_INIT_OUT_SIZE o else o.

(** [ROUND_UP] for a power of two *)
Definition ROUND_UP (val round_to : Z) : Z := Z.land (u64 (val + (round_to - 1))) (u64 (Z.lnot (round_to - 1))).

Section session.
Context {os A : Type} `{Syscalls os}.
#[local] Abbreviation libst := (lib (os := os) (A := A)).

(** [struct fuse_session] with what it leads to: the state of FuseLib behind
    [userdata], the maximal read of the mount options, the size of a page, whether the
    process can make pipes, the requests in service and those to interrupt others (with the number of the
    request they are for), the notifications that wait for a reply (number and cookie)
    with the next number, the next request's address, and the messages written to the device, the last first. *)
Record fuse_session := mk_session {
  se_op : fuse_lowlevel_ops libst;
  userdata : libst;
  se_conn : fuse_conn_info;
  got_init : bool;
  got_destroy : bool;
  exited : bool;
  se_error : Z;
  deny_others : bool;
  se_owner : Z;
  se_fd : Z;
  se_bufsize : Z;
  buf_reallocable : bool;
  max_read_mo : Z;
  pagesize : Z;
  pipes : bool;
  se_list : list fuse_req;
  se_interrupts : list (fuse_req * Z);
  notify_list : list (Z * Z);
  notify_ctr : Z;
  next_addr : Z;
  sent : list (list cell);
}.

#[local] Abbreviation P := (prog fuse_session).

Definition set_userdata (l : libst) (s : fuse_session) : fuse_session :=
  mk_session s.(se_op) l s.(se_conn) s.(got_init) s.(got_destroy) s.(exited) s.(se_error) s.(deny_others) s.(se_owner) s.(se_fd)
    s.(se_bufsize) s.(buf_reallocable) s.(max_read_mo) s.(pagesize) s.(pipes) s.(se_list) s.(se_interrupts) s.(notify_list) s.(notify_ctr) s.(next_addr) s.(sent).
Definition set_conn (c : fuse_conn_info) (s : fuse_session) : fuse_session :=
  mk_session s.(se_op) s.(userdata) c s.(got_init) s.(got_destroy) s.(exited) s.(se_error) s.(deny_others) s.(se_owner) s.(se_fd)
    s.(se_bufsize) s.(buf_reallocable) s.(max_read_mo) s.(pagesize) s.(pipes) s.(se_list) s.(se_interrupts) s.(notify_list) s.(notify_ctr) s.(next_addr) s.(sent).
Definition set_phase (i d : bool) (s : fuse_session) : fuse_session :=
  mk_session s.(se_op) s.(userdata) s.(se_conn) i d s.(exited) s.(se_error) s.(deny_others) s.(se_owner) s.(se_fd)
    s.(se_bufsize) s.(buf_reallocable) s.(max_read_mo) s.(pagesize) s.(pipes) s.(se_list) s.(se_interrupts) s.(notify_list) s.(notify_ctr) s.(next_addr) s.(sent).
Definition set_exit (x : bool) (e : Z) (s : fuse_session) : fuse_session :=
  mk_session s.(se_op) s.(userdata) s.(se_conn) s.(got_init) s.(got_destroy) x e s.(deny_others) s.(se_owner) s.(se_fd)
    s.(se_bufsize) s.(buf_reallocable) s.(max_read_mo) s.(pagesize) s.(pipes) s.(se_list) s.(se_interrupts) s.(notify_list) s.(notify_ctr) s.(next_addr) s.(sent).
Definition set_fd (fd : Z) (s : fuse_session) : fuse_session :=
  mk_session s.(se_op) s.(userdata) s.(se_conn) s.(got_init) s.(got_destroy) s.(exited) s.(se_error) s.(deny_others) s.(se_owner) fd
    s.(se_bufsize) s.(buf_reallocable) s.(max_read_mo) s.(pagesize) s.(pipes) s.(se_list) s.(se_interrupts) s.(notify_list) s.(notify_ctr) s.(next_addr) s.(sent).
Definition set_bufsize (n : Z) (s : fuse_session) : fuse_session :=
  mk_session s.(se_op) s.(userdata) s.(se_conn) s.(got_init) s.(got_destroy) s.(exited) s.(se_error) s.(deny_others) s.(se_owner) s.(se_fd)
    n s.(buf_reallocable) s.(max_read_mo) s.(pagesize) s.(pipes) s.(se_list) s.(se_interrupts) s.(notify_list) s.(notify_ctr) s.(next_addr) s.(sent).
Definition set_reallocable (s : fuse_session) : fuse_session :=
  mk_session s.(se_op) s.(userdata) s.(se_conn) s.(got_init) s.(got_destroy) s.(exited) s.(se_error) s.(deny_others) s.(se_owner) s.(se_fd)
    s.(se_bufsize) true s.(max_read_mo) s.(pagesize) s.(pipes) s.(se_list) s.(se_interrupts) s.(notify_list) s.(notify_ctr) s.(next_addr) s.(sent).
Definition set_lists (l : list fuse_req) (i : list (fuse_req * Z)) (s : fuse_session) : fuse_session :=
  mk_session s.(se_op) s.(userdata) s.(se_conn) s.(got_init) s.(got_destroy) s.(exited) s.(se_error) s.(deny_others) s.(se_owner) s.(se_fd)
    s.(se_bufsize) s.(buf_reallocable) s.(max_read_mo) s.(pagesize) s.(pipes) l i s.(notify_list) s.(notify_ctr) s.(next_addr) s.(sent).
Definition set_notify (l : list (Z * Z)) (n : Z) (s : fuse_session) : fuse_session :=
  mk_session s.(se_op) s.(userdata) s.(se_conn) s.(got_init) s.(got_destroy) s.(exited) s.(se_error) s.(deny_others) s.(se_owner) s.(se_fd)
    s.(se_bufsize) s.(buf_reallocable) s.(max_read_mo) s.(pagesize) s.(pipes) s.(se_list) s.(se_interrupts) l n s.(next_addr) s.(sent).
Definition set_addr (a : Z) (s : fuse_session) : fuse_session :=
  mk_session s.(se_op) s.(userdata) s.(se_conn) s.(got_init) s.(got_destroy) s.(exited) s.(se_error) s.(deny_others) s.(se_owner) s.(se_fd)
    s.(se_bufsize) s.(buf_reallocable) s.(max_read_mo) s.(pagesize) s.(pipes) s.(se_list) s.(se_interrupts) s.(notify_list) s.(notify_ctr) a s.(sent).
Definition set_sent (l : list (list cell)) (s : fuse_session) : fuse_session :=
  mk_session s.(se_op) s.(userdata) s.(se_conn) s.(got_init) s.(got_destroy) s.(exited) s.(se_error) s.(deny_others) s.(se_owner) s.(se_fd)
    s.(se_bufsize) s.(buf_reallocable) s.(max_read_mo) s.(pagesize) s.(pipes) s.(se_list) s.(se_interrupts) s.(notify_list) s.(notify_ctr) s.(next_addr) l.

Definition set_replies (r : list reply) (l : libst) : libst :=
  mk_lib l.(lk) l.(FuseLib.fst) l.(fsys) l.(conf) l.(hidectr) l.(dirs) l.(answers) r.

(** The page of the replies that would go through a pipe. *)
Definition splice_page (s : fuse_session) : option Z := if s.(pipes) then Some s.(pagesize) else None.

Definition change (g : fuse_session -> fuse_session) : P unit := s <-- pget ;; pput (g s).

(** Runs code on what is behind the session. *)
Definition on_lib {B} (m : prog libst B) : P B := fun s => let! (b, l) := m s.(userdata) in Ok (b, set_userdata l s).

(** *** Requests *)

(** [fuse_ll_alloc_req] for the request with this header, [None] when memory is short. *)
Definition fuse_ll_alloc_req (inh : fuse_in_header) : P (option fuse_req) :=
  ok <-- on_lib (in_fuse allocates) ;;
  if ok : bool then
    s <-- pget ;;
    pput (set_addr (s.(next_addr) + 1) s) ;;;
    pret (Some (mk_req s.(next_addr) inh.(in_unique) inh.(in_uid) inh.(in_gid) inh.(in_pid) 0 false))
  else pret None.

(** The request leaves the list of those in service; when nothing can be interrupted
    the list is not touched. *)
Definition fuse_free_req (req : fuse_req) : P unit :=
  s <-- pget ;;
  if s.(se_conn).(no_interrupt) then pret tt
  else pput (set_lists (filter (fun r => r.(addr) <> req.(addr)) s.(se_list)) s.(se_interrupts) s).

(** Writes the messages of replies, the first first. *)
Fixpoint write_replies (unique : Z) (l : list reply) : P unit :=
  match l with
  | [] => pret tt
  | r :: l =>
      s <-- pget ;;
      m <-- plift (reply_message (splice_page s) s.(se_conn) unique r) ;;
      match m with Some m => change (fun s => set_sent (m :: s.(sent)) s) | None => pret tt end ;;;
      write_replies unique l
  end.

(** Runs the handler of a request: its replies go to the device, and with a reply the
    request ends. *)
Definition answer (req : fuse_req) (m : prog libst unit) : P unit :=
  s <-- pget ;;
  pput (set_userdata (set_replies [] s.(userdata)) s) ;;;
  on_lib m ;;;
  s <-- pget ;;
  let l := rev s.(userdata).(replies) in
  write_replies req.(unique) l ;;;
  match l with [] => pret tt | _ => fuse_free_req req end.

(** *** Interrupts *)

(** Marks the first request with the number [u] in a list. *)
Fixpoint mark (u : Z) (l : list fuse_req) : list fuse_req :=
  match l with
  | [] => []
  | r :: l => if r.(unique) =? u then with_interrupted r true :: l else r :: mark u l
  end.

(** A request in service is told; one that is to be interrupted already is enough.
    No handler registers a function of its own. *)
Definition find_interrupted (u : Z) : P bool :=
  s <-- pget ;;
  if existsb (fun r => r.(unique) =? u) s.(se_list) then
    pput (set_lists (mark u s.(se_list)) s.(se_interrupts) s) ;;; pret true
  else pret (existsb (fun i => i.2 =? u) s.(se_interrupts)).

Definition do_interrupt (req : fuse_req) (arg : list cell) : P unit :=
  u <-- plift (u64_at arg 0) ;;
  found <-- find_interrupted u ;;
  if found : bool then pret tt
  else change (fun s => set_lists s.(se_list) (s.(se_interrupts) ++ [(req, u)]) s).

(** The first interrupt for a request, taken out of the list. *)
Fixpoint take_interrupt (u : Z) (l : list (fuse_req * Z)) : option (list (fuse_req * Z)) :=
  match l with
  | [] => None
  | i :: l => if i.2 =? u then Some l else (fun l => i :: l) <$> take_interrupt u l
  end.

(** An interrupt that waits for this request is used up; otherwise the first one
    that waits is given back, to be tried again later. *)
Definition check_interrupt (req : fuse_req) : P (fuse_req * option fuse_req) :=
  s <-- pget ;;
  match take_interrupt req.(unique) s.(se_interrupts) with
  | Some l => pput (set_lists s.(se_list) l s) ;;; pret (with_interrupted req true, None)
  | None =>
      match s.(se_interrupts) with
      | [] => pret (req, None)
      | (intr, _) :: l => pput (set_lists s.(se_list) l s) ;;; pret (req, Some intr)
      end
  end.

(** *** INIT and DESTROY *)

(** The reply that ends the session: what init asked for does not fit. *)
Definition refuse_init (req : fuse_req) : P unit :=
  answer req (fuse_reply_err EPROTO) ;;;
  change (fun s => set_exit true (- EPROTO) s).

(** What a kernel of version 7.[minor] sends: its flags, the largest buffer, whether
    buffers may grow, and the connection with its limit and its offers. *)
Definition init_offer (s : fuse_session) (arg : list cell) (minor : Z) : outcome (Z * Z * bool * fuse_conn_info) :=
  let conn := s.(se_conn) in
  if 6 <=? minor then
    max_readahead <- u32_at arg 8 ;;
    let conn := if max_readahead <? conn.(FuseTypes.max_readahead) then with_max_readahead conn max_readahead else conn in
    flags <- u32_at arg 12 ;;
    flags <- (if has_flag flags FUSE_INIT_EXT
              then flags2 <- u32_at arg 16 ;; Ok (Z.lor flags (Z.shiftl flags2 32)) else Ok flags) ;;
    let conn := with_capable_ext conn (offered_caps minor flags) in
    if has_flag flags FUSE_MAX_PAGES then Ok (flags, s.(se_bufsize), s.(buf_reallocable), conn)
    else
      let limit := FUSE_DEFAULT_MAX_PAGES_PER_REQ * s.(pagesize) + FUSE_BUFFER_HEADER_SIZE in
      Ok (flags, if limit <? s.(se_bufsize) then limit else s.(se_bufsize), false, conn)
  else Ok (0, s.(se_bufsize), s.(buf_reallocable), with_max_readahead conn 0).

(** What is asked of the kernel without the file system saying so, where it is
    offered and the operations for it are there. *)
Definition default_caps (op : fuse_lowlevel_ops libst) : list (bool * Z) := [
  (true, FUSE_CAP_ASYNC_READ);
  (true, FUSE_CAP_AUTO_INVAL_DATA);
  (true, FUSE_CAP_ASYNC_DIO);
  (true, FUSE_CAP_IOCTL_DIR);
  (true, FUSE_CAP_ATOMIC_O_TRUNC);
  (given (ll_write_buf _ op), FUSE_CAP_SPLICE_READ);
  (given (ll_getlk _ op) && given (ll_setlk _ op), FUSE_CAP_POSIX_LOCKS);
  (given (ll_flock _ op), FUSE_CAP_FLOCK_LOCKS);
  (given (ll_readdirplus _ op), FUSE_CAP_READDIRPLUS);
  (given (ll_readdirplus _ op) && given (ll_readdir _ op), FUSE_CAP_READDIRPLUS_AUTO)
].

Definition ll_set_defaults (l : list (bool * Z)) (conn : fuse_conn_info) : fuse_conn_info :=
  foldl (fun c '(cond, cap) => if cond : bool then (fuse_set_feature_flag c cap).2 else c) conn l.

(** The call of init: whether what it asked for can be told. *)
Definition call_init : P bool :=
  s <-- pget ;;
  match ll_init _ s.(se_op) with
  | None => pret true
  | Some h =>
      let want_ext_default := s.(se_conn).(want_ext) in
      let want_default := fuse_lower_32_bits s.(se_conn).(want_ext) in
      let conn := with_want (with_capable s.(se_conn) (fuse_lower_32_bits s.(se_conn).(capable_ext))) want_default in
      conn <-- on_lib (h conn) ;;
      let (rc, conn) := convert_to_conn_want_ext conn want_ext_default want_default in
      change (set_conn conn) ;;; pret (rc =? 0)
  end.

(** The limits that are told to the kernel, for a buffer of this size at most. *)
Definition init_limits (bufsize : Z) (conn : fuse_conn_info) : fuse_conn_info :=
  let conn := with_max_write conn (Z.min conn.(max_write) (bufsize - FUSE_BUFFER_HEADER_SIZE)) in
  if 13 <=? conn.(proto_minor) then background_limits conn else conn.

Definition do_init (req : fuse_req) (arg : list cell) : P unit :=
  major <-- plift (u32_at arg 0) ;;
  minor <-- plift (u32_at arg 4) ;;
  change (fun s => set_conn (with_want_ext (with_capable_ext (with_proto s.(se_conn) major minor) 0) 0) s) ;;;
  if major <? 7 then answer req (fuse_reply_err EPROTO)
  else if 7 <? major then answer req (reply_with (RBuf (cells (init_out_bytes init_out_zero))))
  else
    s <-- pget ;;
    let? (inargflags, bufsize, realloc, conn) := plift (init_offer s arg minor) in
    let conn := with_capable_ext conn (version_caps minor conn.(capable_ext)) in
    let conn := with_time_gran (ll_set_defaults (default_caps s.(se_op)) conn) 1 in
    pput (set_phase true s.(got_destroy) (set_conn conn s)) ;;;
    ok <-- call_init ;;
    s <-- pget ;;
    if negb ok || negb (want_flags_valid s.(se_conn).(capable_ext) s.(se_conn).(want_ext)) ||
       negb (s.(se_conn).(max_read) =? s.(max_read_mo))
    then refuse_init req
    else
      let bufsize := if bufsize <? FUSE_MIN_READ_BUFFER then FUSE_MIN_READ_BUFFER else bufsize in
      let conn := init_limits (if realloc : bool then UINT_MAX else bufsize) s.(se_conn) in
      pput (set_bufsize (u32 (conn.(max_write) + FUSE_BUFFER_HEADER_SIZE)) (set_conn conn s)) ;;;
      argflags <-- plift (u32_at arg 12) ;;
      let outarg := init_answer s.(pagesize) conn argflags inargflags in
      answer req (reply_with (RBuf (cells (init_out_size minor (init_out_bytes outarg))))).

Definition do_destroy (req : fuse_req) : P unit :=
  change (set_phase false true) ;;;
  s <-- pget ;;
  match ll_destroy _ s.(se_op) with Some h => on_lib h | None => pret tt end ;;;
  answer req (reply_with (RErr 0)).

(** The first notification with this number, taken out of the list. *)
Fixpoint take_notify (u : Z) (l : list (Z * Z)) : option (Z * list (Z * Z)) :=
  match l with
  | [] => None
  | n :: l => if n.1 =? u then Some (n.2, l) else (fun x => (x.1, n :: x.2)) <$> take_notify u l
  end.

(** [sizeof(struct fuse_notify_retrieve_in)] *)
Definition RETRIEVE_IN_SIZE : Z := 40.

(** The data that a notification asked for, in a buffer of memory of which [insize]
    bytes were received. *)
Definition fuse_ll_retrieve_reply (op : fuse_lowlevel_ops libst) (cookie : Z) (req : fuse_req) (ino : Z) (arg : list cell) (insize : Z) :
    prog libst unit :=
  let bufsize := u64 (insize - (IN_HEADER_SIZE + RETRIEVE_IN_SIZE)) in
  size <-- plift (u32_at arg 16) ;;
  if bufsize <? size then fuse_reply_none
  else
    match ll_retrieve_reply _ op with
    | Some h =>
        offset <-- plift (u64_at arg 8) ;;
        with_block arg (fun p => h req cookie ino (i64 offset) (mk_bufvec 1 0 0 [mk_buf size 0 (ptr_add p RETRIEVE_IN_SIZE) 0 0 0]))
    | None => fuse_reply_none
    end.

(** The answer to a notification; to none that is pending, nothing happens. *)
Definition do_notify_reply (req : fuse_req) (nodeid : Z) (arg : list cell) (insize : Z) : P unit :=
  s <-- pget ;;
  match take_notify req.(unique) s.(notify_list) with
  | Some (cookie, l) =>
      pput (set_notify l s.(notify_ctr) s) ;;;
      answer req (fuse_ll_retrieve_reply s.(se_op) cookie req nodeid arg insize)
  | None => pret tt
  end.

(** *** A request in memory *)

(** A handler that needs the operations, or the connection as well. *)
Definition by_op (h : fuse_lowlevel_ops libst -> fuse_req -> Z -> list cell -> prog libst unit)
    (req : fuse_req) (nodeid : Z) (arg : list cell) : P unit :=
  s <-- pget ;; answer req (h s.(se_op) req nodeid arg).
Definition by_conn (h : fuse_lowlevel_ops libst -> fuse_conn_info -> fuse_req -> Z -> list cell -> prog libst unit)
    (req : fuse_req) (nodeid : Z) (arg : list cell) : P unit :=
  s <-- pget ;; answer req (h s.(se_op) s.(se_conn) req nodeid arg).

(** NOTIFY_REPLY has its place here, with no handler, and is handled on its own;
    CUSE_INIT is for
    sessions of character devices. *)
Definition fuse_ll_ops : list (Z * (fuse_req -> Z -> list cell -> P unit)) := [
  (FUSE_LOOKUP, by_op do_lookup);
  (FUSE_FORGET, by_op do_forget);
  (FUSE_GETATTR, by_conn do_getattr);
  (FUSE_SETATTR, by_op do_setattr);
  (FUSE_READLINK, by_op do_readlink);
  (FUSE_SYMLINK, by_op do_symlink);
  (FUSE_MKNOD, by_conn do_mknod);
  (FUSE_MKDIR, by_conn do_mkdir);
  (FUSE_UNLINK, by_op do_unlink);
  (FUSE_RMDIR, by_op do_rmdir);
  (FUSE_RENAME, by_op do_rename);
  (FUSE_LINK, by_op do_link);
  (FUSE_OPEN, by_conn do_open);
  (FUSE_READ, by_conn do_read);
  (FUSE_WRITE, by_conn do_write);
  (FUSE_STATFS, by_op do_statfs);
  (FUSE_RELEASE, by_conn do_release);
  (FUSE_FSYNC, by_op do_fsync);
  (FUSE_SETXATTR, by_conn do_setxattr);
  (FUSE_GETXATTR, by_op do_getxattr);
  (FUSE_LISTXATTR, by_op do_listxattr);
  (FUSE_REMOVEXATTR, by_op do_removexattr);
  (FUSE_FLUSH, by_conn do_flush);
  (FUSE_INIT, fun req _ arg => do_init req arg);
  (FUSE_OPENDIR, by_conn do_opendir);
  (FUSE_READDIR, by_op do_readdir);
  (FUSE_RELEASEDIR, by_op do_releasedir);
  (FUSE_FSYNCDIR, by_op do_fsyncdir);
  (FUSE_GETLK, by_op do_getlk);
  (FUSE_SETLK, by_op do_setlk);
  (FUSE_SETLKW, by_op do_setlkw);
  (FUSE_ACCESS, by_op do_access);
  (FUSE_CREATE, by_conn do_create);
  (FUSE_TMPFILE, by_conn do_tmpfile);
  (FUSE_INTERRUPT, fun req _ arg => do_interrupt req arg);
  (FUSE_BMAP, by_op do_bmap);
  (FUSE_IOCTL, by_conn do_ioctl);
  (FUSE_POLL, by_op do_poll);
  (FUSE_FALLOCATE, by_op do_fallocate);
  (FUSE_DESTROY, fun req _ _ => do_destroy req);
  (FUSE_NOTIFY_REPLY, fun _ _ _ => pfail Unmodelled);
  (FUSE_BATCH_FORGET, by_op do_batch_forget);
  (FUSE_READDIRPLUS, by_op do_readdirplus);
  (FUSE_RENAME2, by_op do_rename2);
  (FUSE_COPY_FILE_RANGE, by_op do_copy_file_range);
  (FUSE_LSEEK, by_op do_lseek);
  (CUSE_INIT, fun _ _ _ => pfail Unmodelled)
].

(** The entry of an opcode. *)
Fixpoint entry_for {B} (o : Z) (l : list (Z * B)) : option B :=
  match l with [] => None | (k, h) :: l => if o =? k then Some h else entry_for o l end.

(** The requests that are about files somebody has open already. *)
Definition root_exempt : list Z :=
  [FUSE_INIT; FUSE_READ; FUSE_WRITE; FUSE_FSYNC; FUSE_RELEASE; FUSE_READDIR; FUSE_FSYNCDIR; FUSE_RELEASEDIR; FUSE_NOTIFY_REPLY;
   FUSE_READDIRPLUS].

(** The error with which a request is refused before its handler is called.  INIT
    comes first and once; with allow_root only root and the owner are served; an
    opcode needs a handler; without interrupts the kernel is told so. *)
Definition refused (s : fuse_session) (inh : fuse_in_header) : option Z :=
  let o := inh.(opcode) in
  if (if s.(got_init) then (o =? FUSE_INIT) || (o =? CUSE_INIT) else negb (o =? FUSE_INIT)) then Some EIO
  else if s.(deny_others) && negb (inh.(in_uid) =? s.(se_owner)) && negb (inh.(in_uid) =? 0) && negb (bool_decide (o ∈ root_exempt))
  then Some EACCES
  else if (FUSE_MAXOP <=? o) || negb (given (entry_for o fuse_ll_ops)) then Some ENOSYS
  else if s.(se_conn).(no_interrupt) && (o =? FUSE_INTERRUPT) then Some ENOSYS
  else None.

(** The list of requests in service, and the interrupts that came early. *)
Definition enlist (req : fuse_req) (o : Z) : P fuse_req :=
  s <-- pget ;;
  if negb s.(se_conn).(no_interrupt) && negb (o =? FUSE_INTERRUPT) then
    let? (req, intr) := check_interrupt req in
    change (fun s => set_lists (s.(se_list) ++ [req]) s.(se_interrupts) s) ;;;
    match intr with Some i => answer i (fuse_reply_err EAGAIN) | None => pret tt end ;;;
    pret req
  else pret req.

(** A request of [insize] bytes in a buffer of memory. *)
Definition fuse_session_process_buf (m : list cell) (insize : Z) : P unit :=
  inh <-- plift (read_in_header m) ;;
  r <-- fuse_ll_alloc_req inh ;;
  match r with
  | None => _ <-- on_lib (send (RErr (- ENOMEM))) ;; write_replies inh.(in_unique) [RErr (- ENOMEM)]
  | Some req =>
      s <-- pget ;;
      match refused s inh with
      | Some err => answer req (fuse_reply_err err)
      | None =>
          req <-- enlist req inh.(opcode) ;;
          s <-- pget ;;
          let arg := zdrop IN_HEADER_SIZE m in
          if (inh.(opcode) =? FUSE_WRITE) && given (ll_write_buf _ s.(se_op))
          then answer req (do_write_buf s.(se_op) s.(se_conn) req inh.(in_nodeid) arg insize)
          else if inh.(opcode) =? FUSE_NOTIFY_REPLY then do_notify_reply req inh.(in_nodeid) arg insize
          else
            match entry_for inh.(opcode) fuse_ll_ops with
            | Some h => h req inh.(in_nodeid) arg
            | None => pfail NullDeref
            end
      end
  end.

(** *** Buffers and the loop *)

Definition WRITE_HEADER_SZ : Z := IN_HEADER_SIZE + WRITE_IN_SIZE.

(** The memory behind the pointer [buf_alloc] returns, which libfuse's own buffers
    have not at their start: the data of a write are to lie on a page. *)
Definition buf_alloc (size : Z) (internal : bool) : P (option (list cell)) :=
  ok <-- on_lib (in_fuse allocates) ;;
  s <-- pget ;;
  if negb ok then pret None
  else if internal then
    let new_size := ROUND_UP (u64 (size + WRITE_HEADER_SZ)) s.(pagesize) in
    pret (Some (uninit (new_size - (s.(pagesize) - WRITE_HEADER_SZ))))
  else pret (Some (uninit size)).

(** [struct fuse_buf] of the loop; null when it is freed. *)
Record request_buf := mk_request_buf { rb_mem : option (list cell); rb_mem_size : Z; rb_size : Z }.

Definition fuse_session_exit : P unit := change (fun s => set_exit true s.(se_error) s).
Definition fuse_session_reset : P unit := change (set_exit false 0).

(** Reads until there is a request: the buffer may have to grow after INIT, and a
    request that is gone by now is no error. *)
Fixpoint read_request (fuel : nat) (m : list cell) (mem_size bufsize : Z) (internal : bool) : P (Z * request_buf) :=
  match fuel with O => pfail OutOfFuel | S fuel =>
    s <-- pget ;;
    res <-- on_lib (in_fs (fun _ => in_bs (call (fun o => sys_read o s.(se_fd) bufsize)))) ;;
    m <-- plift (match res with Ret data => mem_write m 0 (cells data) | Err _ => Ok m end) ;;
    s <-- pget ;;
    if s.(exited) then pret (0, mk_request_buf (Some m) mem_size 0)
    else
      match res with
      | Err err =>
          if (err =? EINVAL) && internal && (bufsize <? s.(se_bufsize)) then
            r <-- buf_alloc s.(se_bufsize) internal ;;
            match r with
            | None => pret (- ENOMEM, mk_request_buf (Some m) mem_size 0)
            | Some m => read_request fuel m s.(se_bufsize) s.(se_bufsize) internal
            end
          else if err =? ENOENT then read_request fuel m mem_size bufsize internal
          else if err =? ENODEV then fuse_session_exit ;;; pret (0, mk_request_buf (Some m) mem_size 0)
          else pret (- err, mk_request_buf (Some m) mem_size 0)
      | Ret data =>
          if zlen data <? IN_HEADER_SIZE then pret (- EIO, mk_request_buf (Some m) mem_size 0)
          else pret (i32 (zlen data), mk_request_buf (Some m) mem_size (zlen data))
      end
  end.

Definition fuse_session_receive_buf_ (fuel : nat) (b : request_buf) (internal : bool) : P (Z * request_buf) :=
  s <-- pget ;;
  if s.(pipes) && (14 <=? s.(se_conn).(proto_minor)) && has_flag s.(se_conn).(want_ext) FUSE_CAP_SPLICE_READ then pfail Unmodelled
  else
    match b.(rb_mem) with
    | Some m => read_request fuel m b.(rb_mem_size) (if internal then b.(rb_mem_size) else s.(se_bufsize)) internal
    | None =>
        r <-- buf_alloc s.(se_bufsize) internal ;;
        match r with
        | None => pret (- ENOMEM, b)
        | Some m => read_request fuel m (if internal then s.(se_bufsize) else b.(rb_mem_size)) s.(se_bufsize) internal
        end
    end.

Definition fuse_session_receive_buf (fuel : nat) (b : request_buf) : P (Z * request_buf) :=
  fuse_session_receive_buf_ fuel b false.

Definition fuse_session_receive_buf_internal (fuel : nat) (b : request_buf) : P (Z * request_buf) :=
  s <-- pget ;;
  (if negb s.(got_init) && negb s.(buf_reallocable) then change set_reallocable else pret tt) ;;;
  fuse_session_receive_buf_ fuel b true.

(** Requests are read and served until the session ends or reading fails. *)
Fixpoint session_loop (fuel : nat) (b : request_buf) (res : Z) : P Z :=
  match fuel with O => pfail OutOfFuel | S fuel =>
    s <-- pget ;;
    if s.(exited) then pret res
    else
      let? (res, b) := fuse_session_receive_buf_internal (S fuel) b in
      if res =? - EINTR then session_loop fuel b res
      else if res <=? 0 then pret res
      else
        m <-- plift (lift_fault NullDeref b.(rb_mem)) ;;
        fuse_session_process_buf m b.(rb_size) ;;;
        session_loop fuel b res
  end.

Definition fuse_session_loop (fuel : nat) : P Z :=
  res <-- session_loop fuel (mk_request_buf None 0 0) 0 ;;
  s <-- pget ;;
  let res := if 0 <? res then 0 else res in
  let res := if is_set s.(se_error) then s.(se_error) else res in
  fuse_session_reset ;;; pret res.

(** *** Making and ending a session *)

(** The session of fuse_session_new, once the options are parsed. *)
Definition fuse_session_new (op : fuse_lowlevel_ops libst) (l : libst) (page max_read_opt : Z) (pipes deny : bool) (owner fd : Z) : fuse_session :=
  let max_write := u32 (FUSE_DEFAULT_MAX_PAGES_LIMIT * page) in
  let conn := mk_conn_info 0 0 max_write 0 UINT_MAX 0 0 0 0 0 0 false 0 0 in
  mk_session op l conn false false false 0 deny owner fd (u32 (max_write + FUSE_BUFFER_HEADER_SIZE)) false max_read_opt page pipes [] [] [] 1 0 [].

Definition fuse_session_destroy : P unit :=
  s <-- pget ;;
  if s.(got_init) && negb s.(got_destroy) then
    match ll_destroy _ s.(se_op) with Some h => on_lib h | None => pret tt end
  else pret tt.

End session.
End FuseSession.
