(* ===== verification/FuseNotify.v ===== *)
(** Messages that the session sends on its own (fuse_lowlevel_notify_... of
    src/fuse-3.17.2/lib/fuse_lowlevel.c), the requests to get data back among them,
    and how the kernel reads such a message. *)
From S2P Require Import Prelude.
From S2P Require Import CLib.
From S2P Require Import LittleEndian.
From S2P Require Import FuseTypes.
From S2P Require Import FuseBuf.
From S2P Require Import FuseFs.
From S2P Require Import FuseLib.
From S2P Require Import FuseKernel.
From S2P Require Import FuseWire.
From S2P Require Import FuseLowlevel.
From S2P Require Import FuseSession.

Module FuseNotify.
Import LittleEndian FuseTypes FuseBuf FuseFs FuseLib FuseKernel FuseWire FuseLowlevel FuseSession.

(** ** Definitions *)

Definition FUSE_NOTIFY_POLL : Z := 1.
Definition FUSE_NOTIFY_INVAL_INODE : Z := 2.
Definition FUSE_NOTIFY_INVAL_ENTRY : Z := 3.
Definition FUSE_NOTIFY_STORE : Z := 4.
Definition FUSE_NOTIFY_RETRIEVE : Z := 5.
Definition FUSE_NOTIFY_DELETE : Z := 6.
Definition FUSE_EXPIRE_ONLY : Z := 1.
Definition FUSE_LL_INVALIDATE : Z := 0.
Definition FUSE_LL_EXPIRE_ONLY : Z := 1.
Definition ENOTCONN : Z := 107.

Section notify.
Context {os A : Type} `{Syscalls os}.
#[local] Abbreviation P := (prog (fuse_session (os := os) (A := A))).

(** The message is written: [werr] is the error of writev, 0 when there is none. *)
Definition send_msg (werr : Z) (m : list cell) : P Z :=
  if werr =? 0 then change (fun s => set_sent (m :: s.(sent)) s) ;;; pret 0 else pret (- werr).

Definition send_notify_iov (werr : Z) (notify_code : Z) (payload : list cell) : P Z :=
  s <-- pget ;;
  if negb s.(got_init) then pret (- ENOTCONN) else send_msg werr (fuse_send_msg 0 notify_code payload).

(** [ph]: the handle of the kernel, when there is one. *)
Definition fuse_lowlevel_notify_poll (werr : Z) (ph : option Z) : P Z :=
  match ph with
  | Some kh => send_notify_iov werr FUSE_NOTIFY_POLL (cells (fields [(8%nat, kh)]))
  | None => pret 0
  end.

Definition fuse_lowlevel_notify_inval_inode (werr ino off len : Z) : P Z :=
  s <-- pget ;;
  if s.(se_conn).(proto_minor) <? 12 then pret (- ENOSYS)
  else send_notify_iov werr FUSE_NOTIFY_INVAL_INODE (cells (fields [(8%nat, ino); (8%nat, off); (8%nat, len)])).

(** [name]: the memory the name is in; [namelen] and one bytes of it are sent. *)
Definition fuse_lowlevel_notify_entry (werr parent : Z) (name : list cell) (namelen flags : Z) : P Z :=
  s <-- pget ;;
  if s.(se_conn).(proto_minor) <? 12 then pret (- ENOSYS)
  else
    let fl := if has_flag flags FUSE_LL_EXPIRE_ONLY then FUSE_EXPIRE_ONLY else 0 in
    n <-- plift (mem_read name 0 (namelen + 1)) ;;
    send_notify_iov werr FUSE_NOTIFY_INVAL_ENTRY (cells (fields [(8%nat, parent); (4%nat, namelen); (4%nat, fl)]) ++ n).

Definition fuse_lowlevel_notify_inval_entry (werr parent : Z) (name : list cell) (namelen : Z) : P Z :=
  fuse_lowlevel_notify_entry werr parent name namelen FUSE_LL_INVALIDATE.

Definition fuse_lowlevel_notify_expire_entry (werr parent : Z) (name : list cell) (namelen : Z) : P Z :=
  s <-- pget ;;
  if negb (has_flag s.(se_conn).(capable_ext) FUSE_CAP_EXPIRE_ONLY) then pret (- ENOSYS)
  else fuse_lowlevel_notify_entry werr parent name namelen FUSE_LL_EXPIRE_ONLY.

Definition fuse_lowlevel_notify_delete (werr parent child : Z) (name : list cell) (namelen : Z) : P Z :=
  s <-- pget ;;
  if s.(se_conn).(proto_minor) <? 18 then pret (- ENOSYS)
  else
    n <-- plift (mem_read name 0 (namelen + 1)) ;;
    send_notify_iov werr FUSE_NOTIFY_DELETE (cells (fields [(8%nat, parent); (8%nat, child); (4%nat, namelen); (4%nat, 0)]) ++ n).

(** The data in memory; here whether INIT was served is not looked at. *)
Definition fuse_lowlevel_notify_store (werr ino offset : Z) (data : list piece) (size flags : Z) : P Z :=
  s <-- pget ;;
  if s.(se_conn).(proto_minor) <? 15 then pret (- ENOSYS)
  else
    d <-- plift (fuse_send_data_iov (splice_page s) s.(se_conn) data flags) ;;
    send_msg werr (fuse_send_msg 0 FUSE_NOTIFY_STORE (cells (fields [(8%nat, ino); (8%nat, offset); (4%nat, size); (4%nat, 0)]) ++ d)).

(** [ok]: whether there is memory. The request for the data waits for its reply
    before it is sent, as the last, and no longer when it is not sent. *)
Definition fuse_lowlevel_notify_retrieve (ok : bool) (werr ino size offset cookie : Z) : P Z :=
  s <-- pget ;;
  if s.(se_conn).(proto_minor) <? 15 then pret (- ENOSYS)
  else if negb ok then pret (- ENOMEM)
  else
    let u := s.(notify_ctr) in
    pput (set_notify (s.(notify_list) ++ [(u, cookie)]) (u64 (u + 1)) s) ;;;
    err <-- send_notify_iov werr FUSE_NOTIFY_RETRIEVE
      (cells (fields [(8%nat, u); (8%nat, ino); (8%nat, offset); (4%nat, size); (4%nat, 0)])) ;;
    (if negb (err =? 0) then
       s <-- pget ;; pput (set_notify (removelast s.(notify_list)) s.(notify_ctr) s)
     else pret tt) ;;;
    pret err.
End notify.

(** ** The kernel *)

(** What a notification says. *)
Inductive notification :=
  | NPoll (kh : Z)
  | NInvalInode (ino off len : Z)
  | NInvalEntry (parent : Z) (name : list byte) (expire : bool)
  | NDelete (parent child : Z) (name : list byte)
  | NStore (nodeid offset : Z) (data : list cell)
  | NRetrieve (unique nodeid offset size : Z).

(** The name behind a structure: [namelen] bytes and a NUL, and nothing else. *)
Definition name_behind (m : list cell) (off namelen : Z) : outcome (list byte) :=
  guard_c (zlen m =? off + namelen + 1) OutOfBounds ;;
  n <- mem_read m off (namelen + 1) ;;
  s <- c_string n ;;
  guard_c (zlen s =? namelen) OutOfBounds ;;
  Ok s.

(** How a kernel takes a message with number 0 apart (fuse_dev_do_write and
    fuse_notify in its fs/fuse/dev.c): what is behind the header, by its code. *)
Definition read_payload (code : Z) (m : list cell) : outcome notification :=
  if code =? FUSE_NOTIFY_POLL then
    guard_c (zlen m =? 24) OutOfBounds ;; kh <- u64_at m 16 ;; Ok (NPoll kh)
  else if code =? FUSE_NOTIFY_INVAL_INODE then
    guard_c (zlen m =? 40) OutOfBounds ;;
    ino <- u64_at m 16 ;; off <- u64_at m 24 ;; len <- u64_at m 32 ;; Ok (NInvalInode ino (i64 off) (i64 len))
  else if code =? FUSE_NOTIFY_INVAL_ENTRY then
    parent <- u64_at m 16 ;; namelen <- u32_at m 24 ;; flags <- u32_at m 28 ;;
    name <- name_behind m 32 namelen ;; Ok (NInvalEntry parent name (has_flag flags FUSE_EXPIRE_ONLY))
  else if code =? FUSE_NOTIFY_DELETE then
    parent <- u64_at m 16 ;; child <- u64_at m 24 ;; namelen <- u32_at m 32 ;;
    name <- name_behind m 40 namelen ;; Ok (NDelete parent child name)
  else if code =? FUSE_NOTIFY_STORE then
    nodeid <- u64_at m 16 ;; offset <- u64_at m 24 ;; size <- u32_at m 32 ;;
    guard_c (zlen m =? 40 + size) OutOfBounds ;; data <- mem_read m 40 size ;; Ok (NStore nodeid offset data)
  else if code =? FUSE_NOTIFY_RETRIEVE then
    guard_c (zlen m =? 48) OutOfBounds ;;
    unique <- u64_at m 16 ;; nodeid <- u64_at m 24 ;; offset <- u64_at m 32 ;; size <- u32_at m 40 ;; Ok (NRetrieve unique nodeid offset size)
  else Fail OutOfBounds.

Definition read_notification (m : list cell) : outcome notification :=
  len <- u32_at m 0 ;;
  guard_c (len =? zlen m) OutOfBounds ;;
  code <- u32_at m 4 ;;
  unique <- u64_at m 8 ;;
  guard_c (unique =? 0) OutOfBounds ;;
  read_payload code m.

(** ** Messages are read as they are meant *)

Lemma read_sent code payload : OUT_HEADER_SIZE + zlen payload < 2 ^ 32 -> 0 <= code < 2 ^ 32 ->
  read_notification (fuse_send_msg 0 code payload) = read_payload code (fuse_send_msg 0 code payload).
Proof.
  intros Hl Hc. unfold read_notification. assert (zlen (fuse_send_msg 0 code payload) = OUT_HEADER_SIZE + zlen payload) as Hlen by apply send_msg_len.
  set (m := fuse_send_msg 0 code payload) in *. unfold OUT_HEADER_SIZE in *.
  assert (u32_at m 0 = Ok (zlen m)) as ->.
  { unfold m at 1. unfold fuse_send_msg, out_header. rewrite field_head. rewrite Hlen. unfold OUT_HEADER_SIZE. rewrite Z.mod_small; [done | change (256 ^ Z.of_nat 4) with (2 ^ 32); lia]. }
  cbn [obind]. rewrite Z.eqb_refl. cbn [guard_c obind].
  assert (u32_at m 4 = Ok code) as ->.
  { unfold m, fuse_send_msg, out_header. rewrite field_skip by lia. rewrite field_head. rewrite Z.mod_small; [done | change (256 ^ Z.of_nat 4) with (2 ^ 32); lia]. }
  assert (u64_at m 8 = Ok 0) as -> by (unfold m, fuse_send_msg, out_header; rewrite !field_skip by lia; by rewrite field_head).
  reflexivity.
Qed.

(** A field of the structure behind the header. *)
Lemma behind_head n code payload off : 16 <= off -> field n (fuse_send_msg 0 code payload) off = field n payload (off - 16).
Proof. intros Ho. unfold fuse_send_msg, out_header. rewrite !field_skip by lia. unfold fields. cbn. f_equal. lia. Qed.

Lemma field_at n v l rest off : off = 0 -> 0 <= v < 256 ^ Z.of_nat n -> field n (cells (fields ((n, v) :: l)) ++ rest) off = Ok v.
Proof. intros -> Hv. rewrite field_head. by rewrite Z.mod_small. Qed.

Lemma field_mod n v l rest off : off = 0 -> field n (cells (fields ((n, v) :: l)) ++ rest) off = Ok (v mod 256 ^ Z.of_nat n).
Proof. intros ->. apply field_head. Qed.

(** A structure alone. *)
Lemma fields_alone l : cells (fields l) = cells (fields l) ++ [].
Proof. by rewrite app_nil_r. Qed.

(** Reads a field of a message; the values are in range. *)
Ltac rd := rewrite ?behind_head by lia; rewrite ?field_skip by lia; rewrite field_at by (cbn; lia); cbn [obind].
Ltac len := rewrite ?send_msg_len, ?zlen_app, ?zlen_cells, ?zlen_fields; unfold OUT_HEADER_SIZE; cbn [sum_list Datatypes.fst fmap list_fmap].

Lemma behind_fields code l rest k : k = 16 + Z.of_nat (sum_list (l.*1)) -> zdrop k (fuse_send_msg 0 code (cells (fields l) ++ rest)) = rest.
Proof.
  intros ->. rewrite <- zdrop_zdrop by lia. unfold fuse_send_msg, out_header. rewrite (fields_behind _ _ 16) by reflexivity. by apply fields_behind.
Qed.

Lemma name_sent code l name k : k = Z.of_nat (sum_list (l.*1)) -> NUL ∉ name ->
  name_behind (fuse_send_msg 0 code (cells (fields l) ++ cells name ++ [Byte NUL])) (16 + k) (zlen name) = Ok name.
Proof.
  intros -> Hn. unfold name_behind. assert (zlen [Byte NUL] = 1) as H1 by reflexivity.
  assert (zlen (fuse_send_msg 0 code (cells (fields l) ++ cells name ++ [Byte NUL])) = 16 + Z.of_nat (sum_list (l.*1)) + zlen name + 1) as Hl
    by (len; rewrite H1; lia).
  rewrite Hl, Z.eqb_refl. cbn [guard_c obind]. rewrite mem_read_in by (rewrite ?Hl; lia). cbn [obind].
  rewrite behind_fields by reflexivity. rewrite ztake_ge by (rewrite ?zlen_app, ?zlen_cells, ?H1; lia).
  rewrite (c_string_app name []) by done. cbn [obind]. by rewrite Z.eqb_refl.
Qed.

(** The length the kernel expects. *)
Ltac whole := match goal with |- context [ (zlen ?m =? ?k) ] =>
  let H := fresh in assert ((zlen m =? k) = true) as H by (apply Z.eqb_eq; len; cbn; lia); rewrite H; clear H end; cbn [guard_c obind].
Ltac codes := unfold read_payload; cbn [FUSE_NOTIFY_POLL FUSE_NOTIFY_INVAL_INODE FUSE_NOTIFY_INVAL_ENTRY FUSE_NOTIFY_STORE FUSE_NOTIFY_RETRIEVE
  FUSE_NOTIFY_DELETE Z.eqb Pos.eqb].

Lemma poll_read kh : 0 <= kh < 2 ^ 64 -> read_notification (fuse_send_msg 0 FUSE_NOTIFY_POLL (cells (fields [(8%nat, kh)]))) = Ok (NPoll kh).
Proof.
  intros Hk. rewrite read_sent by (len; cbn; unfold FUSE_NOTIFY_POLL; lia). codes. whole. rewrite fields_alone. by rd.
Qed.

Lemma inval_inode_read ino off len : 0 <= ino < 2 ^ 64 -> - 2 ^ 63 <= off < 2 ^ 63 -> - 2 ^ 63 <= len < 2 ^ 63 ->
  read_notification (fuse_send_msg 0 FUSE_NOTIFY_INVAL_INODE (cells (fields [(8%nat, ino); (8%nat, off); (8%nat, len)]))) = Ok (NInvalInode ino off len).
Proof.
  intros Hi Ho Hl. rewrite read_sent by (len; cbn; unfold FUSE_NOTIFY_INVAL_INODE; lia). codes. whole. rewrite fields_alone. rd.
  do 2 (rewrite ?behind_head by lia; rewrite ?field_skip by lia; rewrite field_mod by lia; cbn [obind]).
  change (256 ^ Z.of_nat 8) with (2 ^ 64). by rewrite !swrap_mod, !swrap_small by lia.
Qed.

Lemma has_flag_expire (e : bool) : has_flag (if e then FUSE_EXPIRE_ONLY else 0) FUSE_EXPIRE_ONLY = e.
Proof. by destruct e. Qed.

Lemma inval_entry_read parent name (e : bool) : 0 <= parent < 2 ^ 64 -> zlen name < 2 ^ 31 -> NUL ∉ name ->
  read_notification (fuse_send_msg 0 FUSE_NOTIFY_INVAL_ENTRY
    (cells (fields [(8%nat, parent); (4%nat, zlen name); (4%nat, if e then FUSE_EXPIRE_ONLY else 0)]) ++ cells name ++ [Byte NUL])) = Ok (NInvalEntry parent name e).
Proof.
  intros Hp Hl Hn. assert (zlen [Byte NUL] = 1) as H1 by reflexivity.
  rewrite read_sent by (len; rewrite ?H1; cbn; unfold FUSE_NOTIFY_INVAL_ENTRY; lia). codes. rd. rd.
  assert (0 <= (if e then FUSE_EXPIRE_ONLY else 0) < 2 ^ 32) as He by (by destruct e). rd.
  rewrite (name_sent _ _ _ 16) by done. cbn [obind]. by rewrite has_flag_expire.
Qed.

Lemma delete_read parent child name : 0 <= parent < 2 ^ 64 -> 0 <= child < 2 ^ 64 -> zlen name < 2 ^ 31 -> NUL ∉ name ->
  read_notification (fuse_send_msg 0 FUSE_NOTIFY_DELETE
    (cells (fields [(8%nat, parent); (8%nat, child); (4%nat, zlen name); (4%nat, 0)]) ++ cells name ++ [Byte NUL])) = Ok (NDelete parent child name).
Proof.
  intros Hp Hc Hl Hn. assert (zlen [Byte NUL] = 1) as H1 by reflexivity.
  rewrite read_sent by (len; rewrite ?H1; cbn; unfold FUSE_NOTIFY_DELETE; lia). codes. rd. rd. rd.
  by rewrite (name_sent _ _ _ 24) by done.
Qed.

Lemma store_read ino offset d : 0 <= ino < 2 ^ 64 -> 0 <= offset < 2 ^ 64 -> zlen d < 2 ^ 31 ->
  read_notification (fuse_send_msg 0 FUSE_NOTIFY_STORE (cells (fields [(8%nat, ino); (8%nat, offset); (4%nat, zlen d); (4%nat, 0)]) ++ d)) = Ok (NStore ino offset d).
Proof.
  intros Hi Ho Hl. rewrite read_sent by (len; cbn; unfold FUSE_NOTIFY_STORE; lia). codes. rd. rd. rd. whole.
  rewrite mem_read_in by (len; cbn; lia). cbn [obind]. rewrite behind_fields by reflexivity.
  by rewrite ztake_ge by lia.
Qed.

Lemma retrieve_read u ino offset size : 0 <= u < 2 ^ 64 -> 0 <= ino < 2 ^ 64 -> 0 <= offset < 2 ^ 64 -> 0 <= size < 2 ^ 32 ->
  read_notification (fuse_send_msg 0 FUSE_NOTIFY_RETRIEVE (cells (fields [(8%nat, u); (8%nat, ino); (8%nat, offset); (4%nat, size); (4%nat, 0)])))
    = Ok (NRetrieve u ino offset size).
Proof.
  intros Hu Hi Ho Hs. rewrite read_sent by (len; cbn; unfold FUSE_NOTIFY_RETRIEVE; lia). codes. whole. rewrite fields_alone. rd. rd. rd. rd. done.
Qed.
End FuseNotify.
