(* ===== verification/FuseAnswers.v ===== *)
(** Every handler of FuseLib answers its request exactly once, whatever the file
    system behind it does: a small logic of how many replies a program sends, and
    the proofs for all operations of the table fuse_path_ops. *)
From S2P Require Import Prelude.
From S2P Require Import CLib.
From S2P Require Import FuseTypes.
From S2P Require Import FuseBuf.
From S2P Require Import FuseFs.
From S2P Require Import FuseNodes.
From S2P Require Import FusePaths.
From S2P Require Import FuseQueue.
From S2P Require Import FuseDirents.
From S2P Require Import FuseLib.
From S2P Require Import FuseKernel.
From S2P Require Import FuseWire.
From S2P Require Import FuseLowlevel.

Module FuseAnswers.
Import FuseTypes FuseBuf FuseFs FuseNodes FusePaths FuseQueue FuseDirents FuseLib FuseKernel FuseWire FuseLowlevel.

Section answers.
Context {os A : Type} `{Syscalls os}.
#[local] Abbreviation libst := (lib (os := os) (A := A)).
#[local] Abbreviation P := (prog libst).

(** ** Counting replies *)

(** From [s], the program sends [n] replies, whose errors are errors. *)
Definition logs {B} (n : nat) (m : P B) (s : libst) : Prop := forall b s', m s = Ok (b, s') ->
  exists l, s'.(replies) = l ++ s.(replies) /\ length l = n /\ Forall reply_sent l.

(** The same from any state. *)
Definition sends {B} (n : nat) (m : P B) : Prop := forall s, logs n m s.

Lemma logs_same {B} (m : P B) s : (forall b s', m s = Ok (b, s') -> s'.(replies) = s.(replies)) -> logs 0 m s.
Proof. intros Hm b s' Hrun. exists []. by rewrite (Hm b s' Hrun). Qed.

Lemma logs_bind {B C} i j (m : P B) (k : B -> P C) s : logs i m s -> (forall b, sends j (k b)) -> logs (i + j) (pbind m k) s.
Proof.
  intros Hm Hk c s2 (b & s1 & H1 & H2)%pbind_Ok_inv. destruct (Hm b s1 H1) as (l1 & E1 & L1 & O1).
  destruct (Hk b s1 c s2 H2) as (l2 & E2 & L2 & O2). exists (l2 ++ l1).
  rewrite E2, E1, app_assoc, length_app. split_and!; [done | lia | by apply Forall_app].
Qed.

Lemma logs_first {B C} n (m : P B) (k : B -> P C) s : logs 0 m s -> (forall b, sends n (k b)) -> logs n (pbind m k) s.
Proof. apply logs_bind. Qed.

Lemma logs_last {B C} n (m : P B) (k : B -> P C) s : logs n m s -> (forall b, sends 0 (k b)) -> logs n (pbind m k) s.
Proof. intros Hm Hk. replace n with (n + 0)%nat by lia. by apply logs_bind. Qed.

Lemma logs_get {C} n (k : libst -> P C) s : logs n (k s) s -> logs n (pbind pget k) s.
Proof. done. Qed.

Lemma logs_put {C} n (k : unit -> P C) s s1 : s1.(replies) = s.(replies) -> logs n (k tt) s1 -> logs n (pbind (pput s1) k) s.
Proof. unfold logs. intros <-. done. Qed.

Lemma logs_lift {B C} n (o : outcome B) (k : B -> P C) s : (forall b, logs n (k b) s) -> logs n (pbind (plift o) k) s.
Proof. intros Hk c s' (b & s1 & H1 & H2)%pbind_Ok_inv. unfold plift in H1. inv_ok. exact (Hk _ _ _ H2). Qed.

Lemma logs_assoc {B C D} n (m : P B) (f : B -> P C) (g : C -> P D) s :
  logs n (pbind m (fun b => pbind (f b) g)) s -> logs n (pbind (pbind m f) g) s.
Proof. unfold logs. by setoid_rewrite pbind_assoc. Qed.

Lemma sends_ret {B} (b : B) : sends 0 (pret b).
Proof. intros s. apply logs_same. by intros ? ? [= _ <-]. Qed.

Lemma sends_fail {B} n f : sends n (pfail f : P B).
Proof. by intros s b s'. Qed.

Lemma sends_pget : sends 0 (pget : P libst).
Proof. intros s. apply logs_same. by intros ? ? [= _ <-]. Qed.

Lemma sends_plift {B} (o : outcome B) : sends 0 (plift o : P B).
Proof. intros s. apply logs_same. intros ? ? Hrun. unfold plift in Hrun. by inv_ok. Qed.

Lemma sends_in_lk {B} (m : prog locker B) : sends 0 (in_lk m : P B).
Proof. intros s. apply logs_same. intros ? ? Hrun. unfold in_lk in Hrun. by inv_ok. Qed.

Lemma sends_in_fuse {B} (m : prog fuse B) : sends 0 (in_fuse m : P B).
Proof. apply sends_in_lk. Qed.

Lemma sends_in_fs {B} (m : _ -> prog _ B) : sends 0 (in_fs m : P B).
Proof. intros s. apply logs_same. intros ? ? Hrun. unfold in_fs in Hrun. by inv_ok. Qed.

Lemma sent_error_ok e : - 1000 < sent_error e <= 0.
Proof. unfold sent_error, FuseLib.ERANGE. destruct (Z.leb_spec e (-1000)), (Z.gtb_spec e 0); cbn [orb]; lia. Qed.

Lemma sends_send r : reply_sent r -> sends 1 (send r : P Z).
Proof. intros Hr s b s' [= _ <-]. exists [r]. split_and!; [done | done | by constructor]. Qed.

Lemma sends_reply r : reply_sent r -> sends 1 (reply_with r : P unit).
Proof. intros Hr s. unfold reply_with. apply (logs_bind 1 0); [by apply sends_send | intros; apply sends_ret]. Qed.

Lemma sends_reply_err e : sends 1 (reply_err e : P unit).
Proof. apply sends_reply. apply sent_error_ok. Qed.

Lemma sends_fuse_reply_err e : sends 1 (fuse_reply_err e : P unit).
Proof. apply sends_reply. apply sent_error_ok. Qed.

End answers.

Create HintDb sends discriminated.

#[export] Hint Resolve sends_ret sends_fail sends_pget sends_plift sends_in_lk sends_in_fuse sends_in_fs sends_reply_err
  sends_fuse_reply_err : sends.
#[export] Hint Extern 1 (sends _ (reply_with _)) => (apply sends_reply; exact I) : sends.
#[export] Hint Extern 1 (sends _ (send _)) => (apply sends_send; exact I) : sends.

(** One step of a program: what is known of its first part is used, and a program
    in front of another is taken apart. *)
Ltac sends_step :=
  match goal with
  | |- sends _ _ => solve [eauto 1 with sends nocore] || (intros ?s)
  | |- forall _, _ => intros ?
  | |- logs _ (pbind pget _) _ => apply logs_get
  | |- logs _ (pbind (pput _) _) _ => apply logs_put; [done|]
  | |- logs _ (pbind (plift _) _) _ => apply logs_lift
  | |- logs _ (pbind (pbind _ _) _) _ => apply logs_assoc
  | |- logs _ (match ?x with _ => _ end) _ => destruct x
  | |- logs _ (let _ := _ in _) _ => cbv zeta
  | |- logs _ (pbind (match ?x with _ => _ end) _) _ => destruct x
  | |- logs _ (pbind ?m _) _ =>
      first [ apply logs_first; [solve [assert (sends 0 m) by eauto 1 with sends nocore; auto]|]
            | apply logs_last; [solve [match goal with |- logs ?n _ _ => assert (sends n m) by eauto 1 with sends nocore end; auto]|] ]
  | |- logs ?n ?m ?s => solve [assert (sends n m) by eauto 1 with sends nocore; auto]
  end.
Ltac sends_tac := repeat sends_step.

(** Unfolds the function that is called. *)
Ltac unfold_head m := match m with ?f _ => unfold_head f | ?h => unfold h end.

(** Takes a definition apart and proves how many replies it sends. *)
Tactic Notation "sends_of" reference(d) := unfold d; sends_tac.

Section handlers.
Context {os A : Type} `{Syscalls os}.
#[local] Abbreviation libst := (lib (os := os) (A := A)).
#[local] Abbreviation P := (prog libst).

(** ** The parts of the handlers *)

Lemma sends_get_conf : sends 0 (get_conf : P fuse_config).
Proof. sends_of get_conf. Qed.

Lemma sends_await {B} (m : prog locker (step_end B)) : sends 0 (await m : P B).
Proof. sends_of await. Qed.
Hint Resolve sends_get_conf sends_await : sends.

Lemma sends_want_path m : sends 0 (want_path m : P (Z * cpath * option Z)).
Proof. sends_of want_path. Qed.

Lemma sends_want_paths m : sends 0 (want_paths m : P (Z * (cpath * option Z) * (cpath * option Z))).
Proof. sends_of want_paths. Qed.
Hint Resolve sends_want_path sends_want_paths : sends.

Lemma sends_path_of ino : sends 0 (path_of ino : P _).
Proof. apply sends_want_path. Qed.

Lemma sends_path_name ino name : sends 0 (path_name ino name : P _).
Proof. apply sends_want_path. Qed.

Lemma sends_path_wrlock ino name : sends 0 (path_wrlock ino name : P _).
Proof. apply sends_want_path. Qed.

Lemma sends_path_nullok ino : sends 0 (path_nullok ino : P _).
Proof. sends_of path_nullok. Qed.

Lemma sends_drop_path ino path : sends 0 (drop_path ino path : P unit).
Proof. apply sends_in_lk. Qed.

Lemma sends_forget ino k : sends 0 (forget ino k : P unit).
Proof. sends_of forget. Qed.
Hint Resolve sends_path_of sends_path_name sends_path_wrlock sends_path_nullok sends_drop_path sends_forget : sends.

Lemma sends_path_fi fi ino : sends 0 (path_fi fi ino : P _).
Proof. sends_of path_fi. Qed.

Lemma sends_reply_entry e err : sends 1 (reply_entry e err : P unit).
Proof. sends_of reply_entry. Qed.

Lemma sends_the_node ino : sends 0 (the_node ino : P _).
Proof. sends_of the_node. Qed.
Hint Resolve sends_path_fi sends_reply_entry sends_the_node : sends.

Lemma sends_change_file ino g : sends 0 (change_file ino g : P unit).
Proof. sends_of change_file. Qed.

Lemma sends_lookup_path ino name path fi : sends 0 (lookup_path ino name path fi : P _).
Proof. sends_of lookup_path. Qed.

Lemma sends_lookup_dots parent name : sends 0 (lookup_dots parent name : P _).
Proof. sends_of lookup_dots. Qed.
Hint Resolve sends_change_file sends_lookup_path sends_lookup_dots : sends.

Lemma sends_setting b err fi (m : fip -> P (Z * fip)) : (forall fi, sends 0 (m fi)) -> sends 0 (setting b err fi m).
Proof. intros Hm. unfold setting. destruct (_ && _); [apply Hm | apply sends_ret]. Qed.

Lemma sends_set_attributes path attr valid fi : sends 0 (set_attributes path attr valid fi : P _).
Proof.
  unfold set_attributes. intros s. do 3 (apply logs_first; [apply sends_setting; sends_tac|]; intros [? ?] ?s).
  apply sends_setting; sends_tac.
Qed.
Hint Resolve sends_set_attributes : sends.

Lemma sends_with_path {B} (found : P (Z * cpath * option Z)) ino (none : B) (call : cpath -> P (Z * B)) :
  sends 0 found -> (forall path, sends 0 (call path)) -> sends 0 (with_path found ino none call).
Proof.
  intros Hf Hc s. unfold with_path. apply logs_first; [apply Hf|]. intros [[err path] w]. destruct (err =? 0); [|apply sends_ret].
  intros s1. apply logs_first; [apply Hc|]. sends_tac.
Qed.
Hint Extern 2 (sends 0 (with_path _ _ _ _)) => (apply sends_with_path; sends_tac) : sends.

Lemma sends_simple_call {B} (found : P (Z * cpath * option Z)) ino (call : cpath -> _ -> prog _ (Z * B)) :
  sends 0 found -> sends 1 (simple_call found ino call : P unit).
Proof. intros Hf. unfold simple_call. sends_tac. Qed.
Hint Extern 2 (sends 1 (simple_call _ _ _)) => (apply sends_simple_call; sends_tac) : sends.

Lemma sends_make_name parent name call : sends 1 (make_name parent name call : P unit).
Proof. sends_of make_name. Qed.

Lemma sends_is_open dir name : sends 0 (is_open dir name : P bool).
Proof. sends_of is_open. Qed.
Hint Resolve sends_make_name sends_is_open : sends.

Lemma sends_fresh_hidden fuel dir ino : sends 0 (fresh_hidden fuel dir ino : P _).
Proof. induction fuel as [|fuel IH]; cbn [fresh_hidden]; sends_tac. Qed.
Hint Resolve sends_fresh_hidden : sends.

Lemma sends_hidden_name failctr dir oldname : sends 0 (hidden_name failctr dir oldname : P _).
Proof. induction failctr as [|failctr IH]; cbn [hidden_name]; sends_tac. Qed.
Hint Resolve sends_hidden_name : sends.

Lemma sends_hide_node oldpath dir oldname : sends 0 (hide_node oldpath dir oldname : P Z).
Proof. sends_of hide_node. Qed.

Lemma sends_unlink_hidden parent w : sends 0 (unlink_hidden parent w : P Z).
Proof. sends_of unlink_hidden. Qed.

Lemma sends_close_node ino : sends 0 (close_node ino : P bool).
Proof. sends_of close_node. Qed.
Hint Resolve sends_hide_node sends_unlink_hidden sends_close_node : sends.

Lemma sends_do_release ino path fi : sends 0 (fuse_do_release ino path fi : P unit).
Proof. sends_of fuse_do_release. Qed.

Lemma sends_the_fi fi : sends 0 (the_fi fi : P _).
Proof. apply sends_plift. Qed.

Lemma sends_open_node ino : sends 0 (open_node ino : P unit).
Proof. apply sends_change_file. Qed.
Hint Resolve sends_do_release sends_the_fi sends_open_node : sends.

Lemma sends_open_auto_cache ino path fi : sends 0 (open_auto_cache ino path fi : P _).
Proof. sends_of open_auto_cache. Qed.
Hint Resolve sends_open_auto_cache : sends.

Lemma sends_gather l : forall skip, sends 0 (gather l skip : P _).
Proof. induction l as [|b l IH]; intros skip; cbn [gather]; sends_tac. Qed.
Hint Resolve sends_gather : sends.

Lemma sends_get_dirhandle fi : sends 0 (get_dirhandle fi : P _).
Proof. sends_of get_dirhandle. Qed.

Lemma sends_put_dirhandle k d : sends 0 (put_dirhandle k d : P unit).
Proof. intros s. by apply logs_same; intros ? ? [= _ <-]. Qed.

Lemma sends_free_dirhandle k : sends 0 (free_dirhandle k : P unit).
Proof. intros s. by apply logs_same; intros ? ? [= _ <-]. Qed.

Lemma sends_on_dir {B} k (m : prog fill_state B) : sends 0 (on_dir k m : P B).
Proof. sends_of on_dir. Qed.
Hint Resolve sends_get_dirhandle sends_put_dirhandle sends_free_dirhandle sends_on_dir : sends.

Lemma sends_call_readdir k path off fi flags : sends 0 (call_readdir k path off fi flags : P Z).
Proof. sends_of call_readdir. Qed.
Hint Resolve sends_call_readdir : sends.

Lemma sends_readdir_fill ino size off k fi flags : sends 0 (readdir_fill ino size off k fi flags : P Z).
Proof. sends_of readdir_fill. Qed.

Lemma sends_reply_dir k : sends 1 (reply_dir k : P unit).
Proof. sends_of reply_dir. Qed.
Hint Resolve sends_readdir_fill sends_reply_dir : sends.

Lemma sends_readdir_common ino size off fi flags : sends 1 (fuse_readdir_common ino size off fi flags : P unit).
Proof. sends_of fuse_readdir_common. Qed.

Lemma sends_xattr_reply ino size call : sends 1 (xattr_reply ino size call : P unit).
Proof. sends_of xattr_reply. Qed.

Lemma sends_insert_lock ino l : sends 0 (insert_lock ino l : P Z).
Proof. sends_of insert_lock. Qed.
Hint Resolve sends_readdir_common sends_xattr_reply sends_insert_lock : sends.

Lemma sends_flush_common ino path fi : sends 0 (fuse_flush_common ino path fi : P _).
Proof. sends_of fuse_flush_common. Qed.

Lemma sends_lock_common ino fi lock cmd : sends 0 (fuse_lock_common ino fi lock cmd : P _).
Proof. unfold fuse_lock_common. apply sends_with_path; sends_tac. Qed.

Lemma sends_ioctl_buf p a b : sends 0 (ioctl_buf p a b : P _).
Proof. sends_of ioctl_buf. Qed.
Hint Resolve sends_flush_common sends_lock_common sends_ioctl_buf : sends.

Lemma sends_forget_loop l : sends 0 (forget_loop l : P unit).
Proof. induction l as [|[ino k] l IH]; cbn [forget_loop]; sends_tac. Qed.
Hint Resolve sends_forget_loop : sends.

(** ** The operations *)

(** The request ends without a message. *)
Definition quiet (m : P unit) : Prop := forall s s', m s = Ok (tt, s') -> s'.(replies) = RNone :: s.(replies).

Lemma quiet_after (m : P unit) : sends 0 m -> quiet (m ;;; reply_with RNone).
Proof.
  intros Hm s s' (u & s1 & H1 & H2)%pbind_Ok_inv. destruct (Hm s u s1 H1) as (l & El & Hl & _). destruct l; [|done].
  injection H2 as <-. cbn. by rewrite El.
Qed.

(** What a table of operations promises to a session: each operation that is there
    answers its request once, whatever its arguments. *)
Definition once {B} (h : option B) (P : B -> Prop) : Prop := match h with Some h => P h | None => True end.

Class answers_once (op : fuse_lowlevel_ops libst) : Prop := mk_answers_once {
  once_lookup : once (ll_lookup _ op) (fun h => forall r i n, sends 1 (h r i n));
  once_forget : once (ll_forget _ op) (fun h => forall r i n, quiet (h r i n));
  once_forget_multi : once (ll_forget_multi _ op) (fun h => forall r l, quiet (h r l));
  once_getattr : once (ll_getattr _ op) (fun h => forall r i fi, sends 1 (h r i fi));
  once_setattr : once (ll_setattr _ op) (fun h => forall r i st v fi, sends 1 (h r i st v fi));
  once_access : once (ll_access _ op) (fun h => forall r i m, sends 1 (h r i m));
  once_readlink : once (ll_readlink _ op) (fun h => forall r i, sends 1 (h r i));
  once_mknod : once (ll_mknod _ op) (fun h => forall r i n m d, sends 1 (h r i n m d));
  once_mkdir : once (ll_mkdir _ op) (fun h => forall r i n m, sends 1 (h r i n m));
  once_unlink : once (ll_unlink _ op) (fun h => forall r i n, sends 1 (h r i n));
  once_rmdir : once (ll_rmdir _ op) (fun h => forall r i n, sends 1 (h r i n));
  once_symlink : once (ll_symlink _ op) (fun h => forall r t i n, sends 1 (h r t i n));
  once_rename : once (ll_rename _ op) (fun h => forall r i n j m f, sends 1 (h r i n j m f));
  once_link : once (ll_link _ op) (fun h => forall r i j n, sends 1 (h r i j n));
  once_create : once (ll_create _ op) (fun h => forall r i n m fi, sends 1 (h r i n m fi));
  once_tmpfile : once (ll_tmpfile _ op) (fun h => forall r i m fi, sends 1 (h r i m fi));
  once_open : once (ll_open _ op) (fun h => forall r i fi, sends 1 (h r i fi));
  once_read : once (ll_read _ op) (fun h => forall r i n o fi, sends 1 (h r i n o fi));
  once_write : once (ll_write _ op) (fun h => forall r i p n o fi, sends 1 (h r i p n o fi));
  once_write_buf : once (ll_write_buf _ op) (fun h => forall r i v o fi, sends 1 (h r i v o fi));
  once_flush : once (ll_flush _ op) (fun h => forall r i fi, sends 1 (h r i fi));
  once_release : once (ll_release _ op) (fun h => forall r i fi, sends 1 (h r i fi));
  once_fsync : once (ll_fsync _ op) (fun h => forall r i d fi, sends 1 (h r i d fi));
  once_opendir : once (ll_opendir _ op) (fun h => forall r i fi, sends 1 (h r i fi));
  once_readdir : once (ll_readdir _ op) (fun h => forall r i n o fi, sends 1 (h r i n o fi));
  once_readdirplus : once (ll_readdirplus _ op) (fun h => forall r i n o fi, sends 1 (h r i n o fi));
  once_releasedir : once (ll_releasedir _ op) (fun h => forall r i fi, sends 1 (h r i fi));
  once_fsyncdir : once (ll_fsyncdir _ op) (fun h => forall r i d fi, sends 1 (h r i d fi));
  once_statfs : once (ll_statfs _ op) (fun h => forall r i, sends 1 (h r i));
  once_setxattr : once (ll_setxattr _ op) (fun h => forall r i n p k f, sends 1 (h r i n p k f));
  once_getxattr : once (ll_getxattr _ op) (fun h => forall r i n k, sends 1 (h r i n k));
  once_listxattr : once (ll_listxattr _ op) (fun h => forall r i k, sends 1 (h r i k));
  once_removexattr : once (ll_removexattr _ op) (fun h => forall r i n, sends 1 (h r i n));
  once_getlk : once (ll_getlk _ op) (fun h => forall r i fi l, sends 1 (h r i fi l));
  once_setlk : once (ll_setlk _ op) (fun h => forall r i fi l w, sends 1 (h r i fi l w));
  once_flock : once (ll_flock _ op) (fun h => forall r i fi o, sends 1 (h r i fi o));
  once_bmap : once (ll_bmap _ op) (fun h => forall r i b x, sends 1 (h r i b x));
  once_ioctl : once (ll_ioctl _ op) (fun h => forall r i c a fi f p n m, sends 1 (h r i c a fi f p n m));
  once_poll : once (ll_poll _ op) (fun h => forall r i fi p, sends 1 (h r i fi p));
  once_fallocate : once (ll_fallocate _ op) (fun h => forall r i m o n fi, sends 1 (h r i m o n fi));
  once_copy_file_range : once (ll_copy_file_range _ op) (fun h => forall r i o fi j q gi n f, sends 1 (h r i o fi j q gi n f));
  once_lseek : once (ll_lseek _ op) (fun h => forall r i o w fi, sends 1 (h r i o w fi));
}.

Lemma sends_unlink parent name : sends 1 (fuse_lib_unlink parent name : P unit).
Proof. sends_of fuse_lib_unlink. Qed.

Lemma sends_rename olddir oldname newdir newname flags : sends 1 (fuse_lib_rename olddir oldname newdir newname flags : P unit).
Proof. sends_of fuse_lib_rename. Qed.

Lemma sends_create parent name mode fi : sends 1 (fuse_lib_create parent name mode fi : P unit).
Proof. sends_of fuse_lib_create. Qed.

#[export] Instance path_ops_once lks : answers_once (path_ops lks).
Proof.
  split; cbn; try exact I; intros; try (destruct lks; cbn; try exact I; intros).
  all: match goal with |- quiet _ => apply quiet_after; eauto 1 with sends nocore | |- sends 1 ?m => unfold_head m; sends_tac end.
Qed.

(** ** Taking requests out of their buffers *)

Lemma sends_call_or {B} (h : option B) (call : B -> P unit) : (forall x, h = Some x -> sends 1 (call x)) -> sends 1 (call_or h call).
Proof. intros Hc. unfold call_or. destruct h; [by apply Hc | apply sends_fuse_reply_err]. Qed.

Lemma sends_with_block m (call : mptr -> P unit) : (forall p, sends 1 (call p)) -> sends 1 (with_block m call).
Proof. intros Hc. unfold with_block. sends_tac. Qed.

Lemma sends_u32f m o : sends 0 (u32f m o : P Z).
Proof. apply sends_plift. Qed.

Lemma sends_u64f m o : sends 0 (u64f m o : P Z).
Proof. apply sends_plift. Qed.

Lemma sends_i32f m o : sends 0 (i32f m o : P Z).
Proof. sends_of i32f. Qed.

Lemma sends_i64f m o : sends 0 (i64f m o : P Z).
Proof. sends_of i64f. Qed.

Lemma sends_strf m o : sends 0 (strf m o : P _).
Proof. apply sends_plift. Qed.

Lemma sends_strf2 m o : sends 0 (strf2 m o : P _).
Proof. sends_of strf2. Qed.

Lemma sends_fi_fh m o : sends 0 (fi_fh m o : P _).
Proof. sends_of fi_fh. Qed.
Hint Resolve sends_u32f sends_u64f sends_i32f sends_i64f sends_strf sends_strf2 sends_fi_fh : sends.

Lemma sends_convert_attr m : sends 0 (convert_attr m : P _).
Proof. sends_of convert_attr. Qed.

Lemma sends_take_umask conn req m o : sends 0 (take_umask conn req m o : P _).
Proof. sends_of take_umask. Qed.

Lemma sends_write_info conn m : sends 0 (write_info conn m : P _).
Proof. sends_of write_info. Qed.

Lemma sends_open_default conn cap fi : sends 1 (open_default conn cap fi : P unit).
Proof. sends_of open_default. Qed.

Lemma sends_lk_in m : sends 0 (lk_in m : P _).
Proof. sends_of lk_in. Qed.

Lemma sends_lk_info m : sends 0 (lk_info m : P _).
Proof. sends_of lk_info. Qed.

Lemma sends_poll_handle kh : sends 0 (poll_handle kh : P _).
Proof. sends_of poll_handle. Qed.
Hint Resolve sends_convert_attr sends_take_umask sends_write_info sends_open_default sends_lk_in sends_lk_info sends_poll_handle : sends.
Hint Extern 2 (sends 1 (with_block _ _)) => (apply sends_with_block; sends_tac) : sends.

(** A function do_... over an operation that answers once. *)
Ltac served H :=
  match goal with |- sends 1 ?m => unfold_head m end; unfold call_or;
  let Hh := fresh in pose proof H as Hh;
  match type of Hh with once ?h _ => destruct h end; cbn [once] in Hh; sends_tac.

Section served.
Context (op : fuse_lowlevel_ops libst) (conn : fuse_conn_info) `{!answers_once op}.
Implicit Types (req : fuse_req) (arg : list cell).

Lemma served_lookup req i arg : sends 1 (do_lookup op req i arg).
Proof. served (once_lookup (op := op)). Qed.

Lemma served_getattr req i arg : sends 1 (do_getattr op conn req i arg).
Proof. served (once_getattr (op := op)). Qed.

Lemma served_setattr req i arg : sends 1 (do_setattr op req i arg).
Proof. served (once_setattr (op := op)). Qed.

Lemma served_readlink req i arg : sends 1 (do_readlink op req i arg).
Proof. served (once_readlink (op := op)). Qed.

Lemma served_symlink req i arg : sends 1 (do_symlink op req i arg).
Proof. served (once_symlink (op := op)). Qed.

Lemma served_mknod req i arg : sends 1 (do_mknod op conn req i arg).
Proof. served (once_mknod (op := op)). Qed.

Lemma served_mkdir req i arg : sends 1 (do_mkdir op conn req i arg).
Proof. served (once_mkdir (op := op)). Qed.

Lemma served_unlink req i arg : sends 1 (do_unlink op req i arg).
Proof. served (once_unlink (op := op)). Qed.

Lemma served_rmdir req i arg : sends 1 (do_rmdir op req i arg).
Proof. served (once_rmdir (op := op)). Qed.

Lemma served_rename req i arg : sends 1 (do_rename op req i arg).
Proof. served (once_rename (op := op)). Qed.

Lemma served_link req i arg : sends 1 (do_link op req i arg).
Proof. served (once_link (op := op)). Qed.

Lemma served_open req i arg : sends 1 (do_open op conn req i arg).
Proof. served (once_open (op := op)). Qed.

Lemma served_read req i arg : sends 1 (do_read op conn req i arg).
Proof. served (once_read (op := op)). Qed.

Lemma served_write req i arg : sends 1 (do_write op conn req i arg).
Proof. served (once_write (op := op)). Qed.

Lemma served_statfs req i arg : sends 1 (do_statfs op req i arg).
Proof. served (once_statfs (op := op)). Qed.

Lemma served_release req i arg : sends 1 (do_release op conn req i arg).
Proof. served (once_release (op := op)). Qed.

Lemma served_fsync req i arg : sends 1 (do_fsync op req i arg).
Proof. served (once_fsync (op := op)). Qed.

Lemma served_setxattr req i arg : sends 1 (do_setxattr op conn req i arg).
Proof. served (once_setxattr (op := op)). Qed.

Lemma served_getxattr req i arg : sends 1 (do_getxattr op req i arg).
Proof. served (once_getxattr (op := op)). Qed.

Lemma served_listxattr req i arg : sends 1 (do_listxattr op req i arg).
Proof. served (once_listxattr (op := op)). Qed.

Lemma served_removexattr req i arg : sends 1 (do_removexattr op req i arg).
Proof. served (once_removexattr (op := op)). Qed.

Lemma served_flush req i arg : sends 1 (do_flush op conn req i arg).
Proof. served (once_flush (op := op)). Qed.

Lemma served_opendir req i arg : sends 1 (do_opendir op conn req i arg).
Proof. served (once_opendir (op := op)). Qed.

Lemma served_readdir req i arg : sends 1 (do_readdir op req i arg).
Proof. served (once_readdir (op := op)). Qed.

Lemma served_releasedir req i arg : sends 1 (do_releasedir op req i arg).
Proof. served (once_releasedir (op := op)). Qed.

Lemma served_fsyncdir req i arg : sends 1 (do_fsyncdir op req i arg).
Proof. served (once_fsyncdir (op := op)). Qed.

Lemma served_getlk req i arg : sends 1 (do_getlk op req i arg).
Proof. served (once_getlk (op := op)). Qed.

Lemma served_access req i arg : sends 1 (do_access op req i arg).
Proof. served (once_access (op := op)). Qed.

Lemma served_create req i arg : sends 1 (do_create op conn req i arg).
Proof. served (once_create (op := op)). Qed.

Lemma served_tmpfile req i arg : sends 1 (do_tmpfile op conn req i arg).
Proof. served (once_tmpfile (op := op)). Qed.

Lemma served_bmap req i arg : sends 1 (do_bmap op req i arg).
Proof. served (once_bmap (op := op)). Qed.

Lemma served_ioctl req i arg : sends 1 (do_ioctl op conn req i arg).
Proof. served (once_ioctl (op := op)). Qed.

Lemma served_poll req i arg : sends 1 (do_poll op req i arg).
Proof. served (once_poll (op := op)). Qed.

Lemma served_fallocate req i arg : sends 1 (do_fallocate op req i arg).
Proof. served (once_fallocate (op := op)). Qed.

Lemma served_readdirplus req i arg : sends 1 (do_readdirplus op req i arg).
Proof. served (once_readdirplus (op := op)). Qed.

Lemma served_rename2 req i arg : sends 1 (do_rename2 op req i arg).
Proof. served (once_rename (op := op)). Qed.

Lemma served_copy_file_range req i arg : sends 1 (do_copy_file_range op req i arg).
Proof. served (once_copy_file_range (op := op)). Qed.

Lemma served_lseek req i arg : sends 1 (do_lseek op req i arg).
Proof. served (once_lseek (op := op)). Qed.

Lemma served_setlk_common req i arg sleep : sends 1 (do_setlk_common op req i arg sleep).
Proof.
  unfold do_setlk_common, call_or. pose proof (once_flock (op := op)) as Hf. pose proof (once_setlk (op := op)) as Hs.
  destruct (ll_flock _ op), (ll_setlk _ op); cbn [once] in *; sends_tac.
Qed.

Lemma served_setlk req i arg : sends 1 (do_setlk op req i arg).
Proof. apply served_setlk_common. Qed.

Lemma served_setlkw req i arg : sends 1 (do_setlkw op req i arg).
Proof. apply served_setlk_common. Qed.

Lemma served_write_buf req i arg n : sends 1 (do_write_buf op conn req i arg n).
Proof. served (once_write_buf (op := op)). Qed.

(** Forgetting ends without a message. *)
Lemma quiet_forget req i arg s s' : do_forget op req i arg s = Ok (tt, s') -> s'.(replies) = RNone :: s.(replies).
Proof.
  pose proof (once_forget (op := op)) as Hf. unfold do_forget. destruct (ll_forget _ op) as [h|]; cbn [once] in Hf.
  - unfold u64f. intros (k & s1 & H1 & H2)%pbind_Ok_inv. unfold plift in H1. inv_ok. by apply (Hf _ _ _ _ _ H2).
  - by intros [= <-].
Qed.

Lemma quiet_batch_forget req i arg s s' : given (ll_forget_multi _ op) = true ->
  do_batch_forget op req i arg s = Ok (tt, s') -> s'.(replies) = RNone :: s.(replies).
Proof.
  pose proof (once_forget_multi (op := op)) as Hf. unfold do_batch_forget. destruct (ll_forget_multi _ op) as [h|]; [|done].
  cbn [once] in Hf. intros _ (k & s1 & H1 & (l & s2 & H2 & H3)%pbind_Ok_inv)%pbind_Ok_inv. unfold u32f, plift in *. inv_ok.
  by apply (Hf _ _ _ _ H3).
Qed.

End served.
End handlers.
End FuseAnswers.
