(* ===== verification/FuseSessionFacts.v ===== *)
(** Facts about sessions: what answering a request does to a session, that every
    request that expects one gets one message, and how requests are turned away. *)
From S2P Require Import Prelude.
From S2P Require Import CLib.
From S2P Require Import LittleEndian.
From S2P Require Import FuseTypes.
From S2P Require Import FuseBuf.
From S2P Require Import FuseFs.
From S2P Require Import FuseNodes.
From S2P Require Import FuseDirents.
From S2P Require Import FuseLib.
From S2P Require Import FuseKernel.
From S2P Require Import FuseWire.
From S2P Require Import FuseLowlevel.
From S2P Require Import FuseSession.
From S2P Require Import FuseAnswers.

Module FuseSessionFacts.
Import LittleEndian FuseTypes FuseBuf FuseFs FuseNodes FuseDirents FuseLib FuseKernel FuseWire FuseLowlevel FuseSession FuseAnswers.

Section facts.
Context {os A : Type} `{Syscalls os}.
#[local] Abbreviation libst := (lib (os := os) (A := A)).
#[local] Abbreviation Se := (fuse_session (os := os) (A := A)).
Implicit Types (se : Se) (l u : libst) (req : fuse_req).

(** ** Answering *)

(** The list of requests in service without one of them. *)
Definition freed req se : list fuse_req :=
  if se.(se_conn).(no_interrupt) then se.(se_list) else filter (fun r => r.(addr) <> req.(addr)) se.(se_list).

(** The session after a request that was answered with a message. *)
Definition ended req (msg : list cell) u se : Se :=
  set_sent (msg :: se.(sent)) (set_userdata u (set_lists (freed req se) se.(se_interrupts) se)).

(** Without one. *)
Definition ended_silently req u se : Se := set_userdata u (set_lists (freed req se) se.(se_interrupts) se).

Lemma on_lib_run {B} (m : prog libst B) se b u : m se.(userdata) = Ok (b, u) -> on_lib m se = Ok (b, set_userdata u se).
Proof. intros Hm. unfold on_lib. by rewrite Hm. Qed.

Lemma free_req_run req se : fuse_free_req req se = Ok (tt, set_lists (freed req se) se.(se_interrupts) se).
Proof.
  unfold fuse_free_req. prun_get. unfold freed. destruct (no_interrupt _); [|done]. unfold pret. do 2 f_equal. by destruct se.
Qed.

Lemma write_one unique r se o : reply_message (splice_page se) se.(se_conn) unique r = Ok o ->
  write_replies unique [r] se = Ok (tt, match o with Some msg => set_sent (msg :: se.(sent)) se | None => se end).
Proof. intros Hr. cbn [write_replies]. prun_get. prun_lift Hr. by destruct o. Qed.

(** Running the handler, and what is left then. *)
Lemma answer_step req (m : prog libst unit) se u : m (set_replies [] se.(userdata)) = Ok (tt, u) ->
  answer req m se = (write_replies req.(unique) (rev u.(replies)) ;;; match rev u.(replies) with [] => pret tt | _ => fuse_free_req req end)
    (set_userdata u se).
Proof.
  intros Hm. unfold answer, pbind, pget, pput. cbn [obind].
  by rewrite (on_lib_run m (set_userdata (set_replies [] se.(userdata)) se) tt u Hm).
Qed.

Lemma answer_run req (m : prog libst unit) se u r msg : m (set_replies [] se.(userdata)) = Ok (tt, u) -> u.(replies) = [r] ->
  reply_message (splice_page se) se.(se_conn) req.(unique) r = Ok (Some msg) -> answer req m se = Ok (tt, ended req msg u se).
Proof. intros Hm Hu Hr. rewrite (answer_step _ _ _ _ Hm), Hu. cbn [rev app]. prun (write_one _ _ (set_userdata u se) _ Hr). apply free_req_run. Qed.

Lemma answer_silent req (m : prog libst unit) se u : m (set_replies [] se.(userdata)) = Ok (tt, u) -> u.(replies) = [RNone] ->
  answer req m se = Ok (tt, ended_silently req u se).
Proof.
  intros Hm Hu. rewrite (answer_step _ _ _ _ Hm), Hu. cbn [rev app].
  prun (write_one req.(unique) RNone (set_userdata u se) None eq_refl). apply free_req_run.
Qed.

(** The state behind the session with a reply to one request in its log. *)
Definition replied (r : reply) se : libst := log_reply r (set_replies [] se.(userdata)).

Lemma answer_reply req r msg se : reply_message (splice_page se) se.(se_conn) req.(unique) r = Ok (Some msg) ->
  answer req (reply_with r) se = Ok (tt, ended req msg (replied r se) se).
Proof. by apply answer_run. Qed.

Lemma answer_err req err se : 0 <= err < 1000 ->
  answer req (fuse_reply_err err) se = Ok (tt, ended req (fuse_send_msg req.(unique) (- err) []) (replied (RErr (- err)) se) se).
Proof.
  intros He. assert (sent_error (- err) = - err) as Hs.
  { unfold sent_error. destruct (Z.leb_spec (- err) (-1000)), (Z.gtb_spec (- err) 0); cbn [orb]; lia. }
  unfold fuse_reply_err. rewrite Hs. by apply answer_reply.
Qed.

Lemma answer_inv req (m : prog libst unit) se se' : answer req m se = Ok (tt, se') -> exists u, m (set_replies [] se.(userdata)) = Ok (tt, u).
Proof.
  unfold answer, pbind, pget, pput. cbn [obind]. unfold on_lib. cbn [set_userdata userdata].
  destruct (m _) as [[[] u]|]; [by exists u | done].
Qed.

(** A handler that answers once sends one message. *)
Lemma answer_once req (m : prog libst unit) se se' : sends 1 m -> answer req m se = Ok (tt, se') ->
  exists r u msg, m (set_replies [] se.(userdata)) = Ok (tt, u) /\ u.(replies) = [r] /\ reply_sent r /\
    reply_message (splice_page se) se.(se_conn) req.(unique) r = Ok (Some msg) /\ se' = ended req msg u se.
Proof.
  intros Hs Hrun. destruct (answer_inv _ _ _ _ Hrun) as [u Hu].
  destruct (Hs _ _ _ Hu) as (l & El & Hl & Hall). cbn [set_replies replies] in El. rewrite app_nil_r in El.
  destruct l as [|r [|? ?]]; try done. apply Forall_cons in Hall as [Hr _]. exists r, u.
  destruct (reply_message (splice_page se) se.(se_conn) req.(unique) r) as [o|f] eqn:Hmsg.
  - destruct (reply_message_sent _ _ _ _ _ Hr Hmsg) as [msg ->]. exists msg. split_and!; try done.
    rewrite (answer_run req m se u r msg Hu El Hmsg) in Hrun. by injection Hrun as <-.
  - exfalso. rewrite (answer_step _ _ _ _ Hu), El in Hrun. cbn [rev app write_replies] in Hrun.
    apply pbind_Ok_inv in Hrun as (? & ? & (? & ? & [= <- <-] & Hw)%pbind_Ok_inv & _). apply pbind_Ok_inv in Hw as (o & s3 & Hw & _).
    unfold plift in Hw. apply obind_Ok_inv in Hw as (o' & E & _). assert (Fail f = Ok o') as [=] by (rewrite <- Hmsg; exact E).
Qed.

(** ** One message for each request *)

(** One message went out, a reply to this request. *)
Definition one_message (n : Z) se se' : Prop := exists msg ps c r, se'.(sent) = msg :: se.(sent) /\ reply_sent r /\
  reply_message ps c n r = Ok (Some msg).

Lemma answer_one req (m : prog libst unit) se se' : sends 1 m -> answer req m se = Ok (tt, se') -> one_message req.(unique) se se'.
Proof. intros Hs Hrun. destruct (answer_once _ _ _ _ Hs Hrun) as (r & u & msg & _ & _ & Hr & Hm & ->). by exists msg, (splice_page se), se.(se_conn), r. Qed.

Lemma reply_one req r se se' : reply_sent r -> answer req (reply_with r) se = Ok (tt, se') -> one_message req.(unique) se se'.
Proof. intros Hr. by apply answer_one, sends_reply. Qed.

Lemma one_after n se se1 se' : se1.(sent) = se.(sent) -> one_message n se1 se' -> one_message n se se'.
Proof. intros Hs (msg & ps & c & r & Hm & Hr). exists msg, ps, c, r. by rewrite Hm, Hs. Qed.

Lemma one_before n se se1 se' : one_message n se se1 -> se'.(sent) = se1.(sent) -> one_message n se se'.
Proof. intros (msg & ps & c & r & Hm & Hr) Hs. exists msg, ps, c, r. by rewrite Hs. Qed.

Lemma change_inv g se (v : unit) se' : change g se = Ok (v, se') -> se' = g se.
Proof. unfold change, pbind, pget, pput. cbn. congruence. Qed.

Lemma on_lib_inv {B} (m : prog libst B) se b se' : on_lib m se = Ok (b, se') -> exists u, m se.(userdata) = Ok (b, u) /\ se' = set_userdata u se.
Proof. unfold on_lib. intros Hrun. destruct (m _) as [[b' u]|]; [|done]. injection Hrun as -> <-. by exists u. Qed.

Lemma pput_inv {S} (s1 s : S) (v : unit) s' : pput s1 s = Ok (v, s') -> s' = s1.
Proof. unfold pput. congruence. Qed.

Lemma pget_inv {S} (s b s' : S) : pget s = Ok (b, s') -> b = s /\ s' = s.
Proof. unfold pget. intros [= <- <-]. done. Qed.

(** What does not write to the device. *)
Lemma sent_set_phase i d se : (set_phase i d se).(sent) = se.(sent).
Proof. done. Qed.

Lemma sent_set_conn c se : (set_conn c se).(sent) = se.(sent).
Proof. done. Qed.

Lemma sent_set_bufsize n se : (set_bufsize n se).(sent) = se.(sent).
Proof. done. Qed.

Lemma plift_inv {S B} (o : outcome B) (s : S) b s' : plift o s = Ok (b, s') -> o = Ok b /\ s' = s.
Proof. unfold plift. intros Hrun. by inv_ok. Qed.

(** The call of init leaves the device alone. *)
Lemma call_init_sent se b se' : call_init se = Ok (b, se') -> se'.(sent) = se.(sent).
Proof.
  unfold call_init. intros (s0 & s1 & [= <- <-] & Hrun)%pbind_Ok_inv. destruct (ll_init _ _) as [h|]; [|by injection Hrun as _ <-].
  apply pbind_Ok_inv in Hrun as (c & s2 & (u & _ & ->)%on_lib_inv & Hrun). destruct (convert_to_conn_want_ext _ _ _) as [rc c'].
  apply pbind_Ok_inv in Hrun as ([] & s3 & ->%change_inv & [= _ <-]). done.
Qed.

Lemma refuse_init_one req se se' : refuse_init req se = Ok (tt, se') -> one_message req.(unique) se se'.
Proof.
  intros ([] & s1 & Hans & ->%change_inv)%pbind_Ok_inv. eapply one_before; [|done].
  apply (answer_one _ _ _ _ (sends_fuse_reply_err _) Hans).
Qed.

Lemma init_one req arg se se' : do_init req arg se = Ok (tt, se') -> one_message req.(unique) se se'.
Proof.
  intros (major & ? & (_ & ->)%plift_inv & Hrun)%pbind_Ok_inv. apply pbind_Ok_inv in Hrun as (minor & ? & (_ & ->)%plift_inv & Hrun).
  apply pbind_Ok_inv in Hrun as ([] & s1 & ->%change_inv & Hrun). eapply one_after; [done|]. revert Hrun.
  destruct (major <? 7); [apply answer_one, sends_fuse_reply_err|].
  destruct (7 <? major); [apply answer_one; by apply sends_reply|].
  intros (? & ? & [-> ->]%pget_inv & Hrun)%pbind_Ok_inv. apply pbind_Ok_inv in Hrun as ([[[flags bufsize] realloc] conn] & ? & (_ & ->)%plift_inv & Hrun).
  apply pbind_Ok_inv in Hrun as ([] & ? & ->%pput_inv & Hrun). apply pbind_Ok_inv in Hrun as (ok & s2 & Hs2%call_init_sent & Hrun).
  rewrite sent_set_phase, sent_set_conn in Hs2. apply (one_after _ _ _ _ Hs2). clear Hs2.
  apply pbind_Ok_inv in Hrun as (? & ? & [-> ->]%pget_inv & Hrun).
  destruct (_ || _); [by apply refuse_init_one|]. apply pbind_Ok_inv in Hrun as ([] & ? & ->%pput_inv & Hrun).
  apply pbind_Ok_inv in Hrun as (argflags & ? & (_ & ->)%plift_inv & Hrun).
  cbv zeta in Hrun. apply reply_one in Hrun; [|done]. refine (one_after _ _ _ _ _ Hrun). by rewrite sent_set_bufsize, sent_set_conn.
Qed.

Lemma destroy_one req se se' : do_destroy req se = Ok (tt, se') -> one_message req.(unique) se se'.
Proof.
  intros ([] & s1 & ->%change_inv & Hrun)%pbind_Ok_inv. apply pbind_Ok_inv in Hrun as (s0 & ? & [= <- <-] & Hrun).
  apply pbind_Ok_inv in Hrun as ([] & s2 & H2 & Hrun).
  assert (s2.(sent) = se.(sent)) as Hs2 by (destruct (ll_destroy _ _); [by apply on_lib_inv in H2 as (u & _ & ->) | by injection H2 as <-]).
  eapply one_after; [exact Hs2|]. apply reply_one in Hrun; [done | cbn; lia].
Qed.

(** Requests that get no message. *)
Definition silent_ops : list Z := [FUSE_FORGET; FUSE_BATCH_FORGET; FUSE_INTERRUPT; FUSE_NOTIFY_REPLY].

Lemma by_op_one (h : fuse_lowlevel_ops libst -> fuse_req -> Z -> list cell -> prog libst unit) req i arg se se' :
  sends 1 (h se.(se_op) req i arg) -> by_op h req i arg se = Ok (tt, se') -> one_message req.(unique) se se'.
Proof. intros Hs. unfold by_op. prun_get. by apply answer_one. Qed.

Lemma by_conn_one (h : fuse_lowlevel_ops libst -> fuse_conn_info -> fuse_req -> Z -> list cell -> prog libst unit) req i arg se se' :
  sends 1 (h se.(se_op) se.(se_conn) req i arg) -> by_conn h req i arg se = Ok (tt, se') -> one_message req.(unique) se se'.
Proof. intros Hs. unfold by_conn. prun_get. by apply answer_one. Qed.

(** What an entry of the table does. *)
Definition entry_once (e : Z * (fuse_req -> Z -> list cell -> prog Se unit)) : Prop := e.1 ∈ silent_ops \/
  forall req i arg se se', answers_once se.(se_op) -> e.2 req i arg se = Ok (tt, se') -> one_message req.(unique) se se'.

Create HintDb served.
Hint Resolve served_lookup served_getattr served_setattr served_readlink served_symlink served_mknod served_mkdir served_unlink served_rmdir
  served_rename served_link served_open served_read served_write served_statfs served_release served_fsync served_setxattr served_getxattr
  served_listxattr served_removexattr served_flush served_opendir served_readdir served_releasedir served_fsyncdir served_getlk
  served_setlk served_setlkw served_access served_create served_tmpfile served_bmap served_ioctl served_poll served_fallocate served_readdirplus
  served_rename2 served_copy_file_range served_lseek : served.

Lemma table_once : Forall entry_once fuse_ll_ops.
Proof.
  unfold fuse_ll_ops. repeat apply Forall_cons_2; try apply Forall_nil_2.
  all: first [ left; apply (bool_decide_unpack _); vm_compute; exact I | right; cbn [Datatypes.snd]; intros req i arg se se' Hop ].
  all: lazymatch goal with
    | |- by_op _ _ _ _ _ = _ -> _ => apply by_op_one; auto 2 with served nocore
    | |- by_conn _ _ _ _ _ = _ -> _ => apply by_conn_one; auto 2 with served nocore
    | |- _ => idtac
    end.
  - apply init_one.
  - apply destroy_one.
  - done.
Qed.

Lemma entry_for_once o h : entry_for o fuse_ll_ops = Some h -> o ∈ silent_ops \/
  forall req i arg se se', answers_once se.(se_op) -> h req i arg se = Ok (tt, se') -> one_message req.(unique) se se'.
Proof.
  assert (forall l : list (Z * (fuse_req -> Z -> list cell -> prog Se unit)), Forall entry_once l -> entry_for o l = Some h -> entry_once (o, h)) as Hl.
  { intros l Hl. induction Hl as [|[k g] l Hk _ IH]; [done|]. cbn [entry_for]. destruct (Z.eqb_spec o k) as [->|]; [|done]. by intros [= <-]. }
  apply (Hl _ table_once).
Qed.

(** *** A whole request *)

(** The session once the request has its structure. *)
Definition with_req se (u : libst) : Se := set_addr (se.(next_addr) + 1) (set_userdata u se).

Definition new_req se (inh : fuse_in_header) : fuse_req :=
  mk_req se.(next_addr) inh.(in_unique) inh.(in_uid) inh.(in_gid) inh.(in_pid) 0 false.

Lemma alloc_req_run inh se u : in_fuse allocates se.(userdata) = Ok (true, u) -> fuse_ll_alloc_req inh se = Ok (Some (new_req se inh), with_req se u).
Proof.
  intros Hal. unfold fuse_ll_alloc_req. prun (on_lib_run _ _ _ _ Hal). cbv iota. prun_get. unfold pbind, pput, pret. reflexivity.
Qed.

Lemma alloc_req_inv inh se r se' : fuse_ll_alloc_req inh se = Ok (r, se') -> exists u,
  (r = None /\ se' = set_userdata u se) \/ (r = Some (new_req se inh) /\ se' = with_req se u).
Proof.
  unfold fuse_ll_alloc_req. intros (ok & s1 & (u & _ & ->)%on_lib_inv & Hrun)%pbind_Ok_inv. exists u. destruct ok.
  - right. apply pbind_Ok_inv in Hrun as (? & ? & [-> ->]%pget_inv & Hrun).
    apply pbind_Ok_inv in Hrun as ([] & ? & ->%pput_inv & [= <- <-]). done.
  - left. by injection Hrun as <- <-.
Qed.

Lemma refused_with_req se u inh : refused (with_req se u) inh = refused se inh.
Proof. done. Qed.

(** The interrupts that wait for a request of their own. *)
Definition early se se1 : Prop := se1.(sent) = se.(sent) \/
  exists i k, (i, k) ∈ se.(se_interrupts) /\ one_message i.(unique) se se1.

Lemma enlist_inv req o se req' se' : enlist req o se = Ok (req', se') ->
  req'.(unique) = req.(unique) /\ se'.(se_op) = se.(se_op) /\ early se se'.
Proof.
  unfold enlist. intros (? & ? & [-> ->]%pget_inv & Hrun)%pbind_Ok_inv.
  destruct (negb _ && negb _); [|injection Hrun as <- <-; split_and!; [done | done | by left]].
  apply pbind_Ok_inv in Hrun as ([req1 intr] & s1 & Hchk & Hrun).
  assert (req1.(unique) = req.(unique) /\ s1.(sent) = se.(sent) /\ s1.(se_op) = se.(se_op) /\
    (forall i, intr = Some i -> exists k, (i, k) ∈ se.(se_interrupts))) as (Hu & Hs1 & Ho1 & Hi).
  { unfold check_interrupt in Hchk. apply pbind_Ok_inv in Hchk as (? & ? & [-> ->]%pget_inv & Hchk).
    destruct (take_interrupt _ _) as [l|].
    - apply pbind_Ok_inv in Hchk as ([] & ? & ->%pput_inv & [= <- <- <-]). by split_and!.
    - destruct (se_interrupts se) as [|[i u] l]; [by injection Hchk as <- <- <-|].
      apply pbind_Ok_inv in Hchk as ([] & ? & ->%pput_inv & [= <- <- <-]). split_and!; try done. intros j [= <-]. exists u. apply list_elem_of_here. }
  apply pbind_Ok_inv in Hrun as ([] & s2 & ->%change_inv & Hrun). apply pbind_Ok_inv in Hrun as ([] & s3 & Hans & [= <- <-]).
  destruct intr as [i|]; [|injection Hans as <-; split_and!; [done | done | by left]].
  destruct (answer_once _ _ _ _ (sends_fuse_reply_err _) Hans) as (r & u & msg & _ & _ & Hr & Hm & ->).
  split_and!; [done | done |]. right. destruct (Hi i eq_refl) as [v Hv]. exists i, v. split; [done|].
  eexists msg, _, _, r. split_and!; [|exact Hr | exact Hm]. cbn. by rewrite Hs1.
Qed.

(** Every request gets its message, at most one interrupt goes before it. *)
Lemma process_one m n se inh se' : answers_once se.(se_op) -> read_in_header m = Ok inh ->
  (refused se inh = None -> inh.(opcode) ∉ silent_ops) -> fuse_session_process_buf m n se = Ok (tt, se') ->
  exists se1, early se se1 /\ one_message inh.(in_unique) se1 se'.
Proof.
  intros Hop Hh Hloud Hrun. unfold fuse_session_process_buf in Hrun. rewrite (pbind_run _ _ _ _ _ (plift_run _ _ _ Hh)) in Hrun.
  apply pbind_Ok_inv in Hrun as (r & s1 & (u & [[-> ->]|[-> ->]])%alloc_req_inv & Hrun).
  { apply pbind_Ok_inv in Hrun as (a & s2 & (v & _ & ->)%on_lib_inv & Hw). exists se. split; [by left|].
    pose proof (write_one inh.(in_unique) (RErr (- ENOMEM)) (set_userdata v (set_userdata u se)) (Some (fuse_send_msg inh.(in_unique) (- ENOMEM) [])) eq_refl) as Hw1.
    rewrite Hw1 in Hw. injection Hw as <-.
    eexists _, (splice_page se), se.(se_conn), (RErr (- ENOMEM)). split_and!; [reflexivity | cbn; unfold ENOMEM; lia | reflexivity]. }
  apply pbind_Ok_inv in Hrun as (? & ? & [-> ->]%pget_inv & Hrun). rewrite refused_with_req in Hrun.
  destruct (refused se inh) as [err|].
  { exists (with_req se u). split; [by left|]. by apply (answer_one _ _ _ _ (sends_fuse_reply_err _)) in Hrun. }
  specialize (Hloud eq_refl). apply pbind_Ok_inv in Hrun as (req & s2 & (Hu & Ho & Hearly)%enlist_inv & Hrun).
  assert (answers_once s2.(se_op)) as Hop2 by (rewrite Ho; exact Hop).
  apply pbind_Ok_inv in Hrun as (? & ? & [-> ->]%pget_inv & Hrun). exists s2. split; [exact Hearly|].
  change inh.(in_unique) with (new_req se inh).(unique). rewrite <- Hu. cbv zeta in Hrun.
  destruct ((opcode inh =? FUSE_WRITE) && _); [by apply (answer_one _ _ _ _ (served_write_buf _ _ _ _ _ _)) in Hrun|].
  destruct (Z.eqb_spec (opcode inh) FUSE_NOTIFY_REPLY) as [Ho41|].
  { exfalso. apply Hloud. rewrite Ho41. apply (bool_decide_unpack _). vm_compute. exact I. }
  destruct (entry_for (opcode inh) fuse_ll_ops) as [h|] eqn:He; [|done].
  destruct (entry_for_once _ _ He) as [|Hone]; [done|]. by apply Hone in Hrun.
Qed.

Lemma answer_quiet req (m : prog libst unit) se se' : (forall u, m (set_replies [] se.(userdata)) = Ok (tt, u) -> u.(replies) = [RNone]) ->
  answer req m se = Ok (tt, se') -> se'.(sent) = se.(sent).
Proof.
  intros Hm Hrun. destruct (answer_inv _ _ _ _ Hrun) as [u Hu]. rewrite (answer_silent _ _ _ _ Hu (Hm u Hu)) in Hrun. by injection Hrun as <-.
Qed.

(** Requests to forget get no message, and they are served as others are. *)
Lemma process_silent m n se inh se' : answers_once se.(se_op) -> given (ll_forget_multi _ se.(se_op)) = true ->
  in_fuse allocates se.(userdata) = Ok (true, se.(userdata)) -> read_in_header m = Ok inh -> refused se inh = None ->
  inh.(opcode) = FUSE_FORGET \/ inh.(opcode) = FUSE_BATCH_FORGET ->
  fuse_session_process_buf m n se = Ok (tt, se') -> exists se1, early se se1 /\ se'.(sent) = se1.(sent).
Proof.
  intros Hop Hmulti Hal Hh Hr Ho Hrun. unfold fuse_session_process_buf in Hrun. rewrite (pbind_run _ _ _ _ _ (plift_run _ _ _ Hh)) in Hrun.
  apply pbind_Ok_inv in Hrun as (r & s1 & Hreq & Hrun).
  assert (r = Some (new_req se inh) /\ s1 = with_req se se.(userdata)) as [-> ->].
  { rewrite (alloc_req_run inh se _ Hal) in Hreq. by injection Hreq as <- <-. }
  apply pbind_Ok_inv in Hrun as (? & ? & [-> ->]%pget_inv & Hrun). rewrite refused_with_req, Hr in Hrun.
  apply pbind_Ok_inv in Hrun as (req & s2 & (_ & Ho2 & Hearly)%enlist_inv & Hrun). change (se_op (with_req se _)) with se.(se_op) in Ho2.
  apply pbind_Ok_inv in Hrun as (? & ? & [-> ->]%pget_inv & Hrun). exists s2. split; [exact Hearly|]. cbv zeta in Hrun.
  destruct Ho as [Ho|Ho]; rewrite Ho in Hrun; cbn [Z.eqb andb Pos.eqb FUSE_FORGET FUSE_BATCH_FORGET FUSE_WRITE FUSE_NOTIFY_REPLY entry_for fuse_ll_ops] in Hrun.
  - unfold by_op in Hrun. apply pbind_Ok_inv in Hrun as (? & ? & [-> ->]%pget_inv & Hrun). revert Hrun. apply answer_quiet.
    intros u Hu. rewrite Ho2 in Hu. by apply (quiet_forget _ _ _ _ _ _) in Hu.
  - unfold by_op in Hrun. apply pbind_Ok_inv in Hrun as (? & ? & [-> ->]%pget_inv & Hrun). revert Hrun. apply answer_quiet.
    intros u Hu. rewrite Ho2 in Hu. by apply (quiet_batch_forget _ _ _ _ _ _ Hmulti) in Hu.
Qed.

(** *** Requests that are turned away *)

(** The session after a request that was answered with an error at once. *)
Definition turned_away (err : Z) inh se u : Se :=
  let se1 := with_req se u in
  ended (new_req se inh) (fuse_send_msg inh.(in_unique) (- err) []) (replied (RErr (- err)) se1) se1.

Lemma refused_run m n se inh u err : read_in_header m = Ok inh -> in_fuse allocates se.(userdata) = Ok (true, u) -> refused se inh = Some err ->
  0 <= err < 1000 -> fuse_session_process_buf m n se = Ok (tt, turned_away err inh se u).
Proof.
  intros Hh Hal Hr He. unfold fuse_session_process_buf. prun_lift Hh. prun (alloc_req_run inh se u Hal). cbv iota. prun_get.
  rewrite refused_with_req, Hr. by apply answer_err.
Qed.

(** *** Interrupts *)

Lemma take_interrupt_last n i (il : list (fuse_req * Z)) : (forall j v, (j, v) ∈ il -> v <> n) -> take_interrupt n (il ++ [(i, n)]) = Some il.
Proof.
  induction il as [|[j v] l IH]; intros Hl; simpl; [by rewrite Z.eqb_refl|].
  rewrite (proj2 (Z.eqb_neq v n)) by (apply (Hl j), list_elem_of_here). rewrite IH; [done|]. intros k w Hk. apply (Hl k). by apply list_elem_of_further.
Qed.

(** An interrupt for a request that is not there waits behind the others. *)
Lemma interrupt_waits req arg se uniq : u64_at arg 0 = Ok uniq -> (forall r, r ∈ se.(se_list) -> r.(unique) <> uniq) ->
  (forall i v, (i, v) ∈ se.(se_interrupts) -> v <> uniq) ->
  do_interrupt req arg se = Ok (tt, set_lists se.(se_list) (se.(se_interrupts) ++ [(req, uniq)]) se).
Proof.
  intros Ha Hl Hi. unfold do_interrupt. prun_lift Ha. unfold find_interrupted. rewrite pbind_assoc. prun_get.
  assert (existsb (fun r => unique r =? uniq) se.(se_list) = false) as ->.
  { apply not_true_iff_false. intros (r & Hr & He%Z.eqb_eq)%existsb_exists. by apply (Hl r); [apply list_elem_of_In|]. }
  assert (existsb (fun i => i.2 =? uniq) se.(se_interrupts) = false) as Hex.
  { apply not_true_iff_false. intros ([i v] & Hr & He%Z.eqb_eq)%existsb_exists. by apply (Hi i v); [apply list_elem_of_In|]. }
  rewrite (pbind_run _ _ se false se) by (unfold pret; by rewrite Hex). done.
Qed.

(** The request it is for, when it comes, is interrupted from the start. *)
Lemma enlist_interrupted req o se i (l : list (fuse_req * Z)) : se.(se_conn).(no_interrupt) = false -> o <> FUSE_INTERRUPT ->
  se.(se_interrupts) = l ++ [(i, req.(unique))] -> (forall j v, (j, v) ∈ l -> v <> req.(unique)) ->
  enlist req o se = Ok (with_interrupted req true, set_lists (se.(se_list) ++ [with_interrupted req true]) l se).
Proof.
  intros Hn Ho Hi Hl. unfold enlist. prun_get. rewrite Hn, (proj2 (Z.eqb_neq o FUSE_INTERRUPT) Ho). cbn [negb andb].
  unfold check_interrupt. rewrite pbind_assoc. prun_get. rewrite Hi, (take_interrupt_last _ i l Hl).
  rewrite pbind_assoc, (pbind_run _ _ _ _ _ (pput_run _ _)). unfold pbind, pret, change, pget, pput. done.
Qed.

End facts.
End FuseSessionFacts.
