(* ===== verification/FuseLoop.v ===== *)
(** How requests come in (lib/fuse_lowlevel.c, lib/fuse_loop.c): the memory behind the
    buffers of the loop, and that the loop serves the requests of the device in their
    order until it is gone. *)
From S2P Require Import Prelude.
From S2P Require Import CLib.
From S2P Require Import LittleEndian.
From S2P Require Import FuseTypes.
From S2P Require Import FuseBuf.
From S2P Require Import FuseFs.
From S2P Require Import FuseNodes.
From S2P Require Import FuseDirents.
From S2P Require Import FuseLib.
From S2P Require Import FuseKernel.
From S2P Require Import FuseWire.
From S2P Require Import FuseLowlevel.
From S2P Require Import FuseSession.
From S2P Require Import FuseAnswers.
From S2P Require Import FuseSessionFacts.

Module FuseLoop.
Import LittleEndian FuseTypes FuseBuf FuseFs FuseNodes FuseDirents FuseLib FuseKernel FuseWire FuseLowlevel FuseSession FuseAnswers
  FuseSessionFacts.

(** ** The size of a buffer *)

Lemma ROUND_UP_pow2 val k : 0 <= k -> 0 <= val -> val + 2 ^ k <= 2 ^ 64 ->
  ROUND_UP val (2 ^ k) = (val + 2 ^ k - 1) / 2 ^ k * 2 ^ k.
Proof.
  intros Hk Hv Hb. assert (0 < 2 ^ k) as Hp by (apply Z.pow_pos_nonneg; lia).
  unfold ROUND_UP. rewrite u64_small by (unfold SIZE_MAX; lia).
  rewrite land_high by lia. by rewrite Z.add_sub_assoc.
Qed.

(** The bytes behind the pointer that [buf_alloc] returns to the loop. *)
Definition capacity (size page : Z) : Z := ROUND_UP (u64 (size + WRITE_HEADER_SZ)) page - (page - WRITE_HEADER_SZ).

(** Asked for [size] bytes, of which [r] are on the last page, it has that many less
    [r - 80], or on the other hand enough. *)
Lemma capacity_eq size k : 7 <= k -> 0 <= size -> size + WRITE_HEADER_SZ + 2 ^ k <= 2 ^ 64 ->
  let r := size mod 2 ^ k in
  capacity size (2 ^ k) = if r + WRITE_HEADER_SZ <=? 2 ^ k then size - r + WRITE_HEADER_SZ else size - r + 2 ^ k + WRITE_HEADER_SZ.
Proof.
  intros Hk Hs Hb r. assert (2 ^ 7 <= 2 ^ k) as Hp by (apply Z.pow_le_mono_r; lia). change (2 ^ 7) with 128 in Hp.
  unfold capacity, WRITE_HEADER_SZ, IN_HEADER_SIZE, WRITE_IN_SIZE in *. rewrite u64_small by (unfold SIZE_MAX; lia).
  rewrite ROUND_UP_pow2 by lia. pose proof (Z.div_mod size (2 ^ k) ltac:(lia)) as Hd. fold r in Hd.
  pose proof (Z.mod_pos_bound size (2 ^ k) ltac:(lia)) as Hr. fold r in Hr. set (a := size / 2 ^ k) in *.
  destruct (Z.leb_spec (r + (40 + 40)) (2 ^ k)).
  - assert ((size + (40 + 40) + 2 ^ k - 1) / 2 ^ k = a + 1) as ->; [|lia]. symmetry. apply (Z.div_unique_pos _ _ _ (r + 79)); lia.
  - assert ((size + (40 + 40) + 2 ^ k - 1) / 2 ^ k = a + 2) as ->; [|lia]. symmetry. apply (Z.div_unique_pos _ _ _ (r + 79 - 2 ^ k)); lia.
Qed.

(** The memory is short for some sizes. *)
Lemma capacity_short size k : 7 <= k -> 0 <= size -> size + WRITE_HEADER_SZ + 2 ^ k <= 2 ^ 64 ->
  capacity size (2 ^ k) < size <-> WRITE_HEADER_SZ < size mod 2 ^ k <= 2 ^ k - WRITE_HEADER_SZ.
Proof.
  intros Hk Hs Hb. rewrite capacity_eq by done. pose proof (Z.mod_pos_bound size (2 ^ k) ltac:(lia)) as Hr.
  destruct (Z.leb_spec (size mod 2 ^ k + WRITE_HEADER_SZ) (2 ^ k)); lia.
Qed.

(** With pages of 4096 bytes there is always enough for a write of the maximal size
    and what goes before its data. *)
Lemma capacity_write max_write : 0 <= max_write -> max_write + 2 ^ 14 <= 2 ^ 64 ->
  max_write + WRITE_HEADER_SZ <= capacity (max_write + FUSE_BUFFER_HEADER_SIZE) (2 ^ 12).
Proof.
  intros Hm Hb. unfold FUSE_BUFFER_HEADER_SIZE, WRITE_HEADER_SZ, IN_HEADER_SIZE, WRITE_IN_SIZE in *.
  rewrite capacity_eq by (unfold WRITE_HEADER_SZ, IN_HEADER_SIZE, WRITE_IN_SIZE; lia).
  pose proof (Z.mod_pos_bound (max_write + 0x1000) (2 ^ 12) ltac:(lia)) as Hr.
  unfold WRITE_HEADER_SZ, IN_HEADER_SIZE, WRITE_IN_SIZE. case_match; lia.
Qed.

Section receive.
Context {os A : Type} `{Syscalls os}.
#[local] Abbreviation libst := (lib (os := os) (A := A)).
#[local] Abbreviation Se := (fuse_session (os := os) (A := A)).
Implicit Types (se : Se) (u : libst).

(** ** Reading the device *)

(** Before INIT the loop says that its buffers may grow. *)
Definition noted se : Se := if negb se.(got_init) && negb se.(buf_reallocable) then set_reallocable se else se.

(** Requests are read into memory. *)
Definition from_device se : Prop :=
  se.(pipes) && (14 <=? se.(se_conn).(proto_minor)) && has_flag se.(se_conn).(want_ext) FUSE_CAP_SPLICE_READ = false.

(** What the system call returns, and the session then. *)
Definition device_read (n : Z) se : outcome (sysres (list byte) * Se) :=
  on_lib (in_fs (fun _ => in_bs (call (fun o => sys_read o se.(se_fd) n)))) se.

Lemma device_read_inv n se r se1 : device_read n se = Ok (r, se1) -> exists u, se1 = set_userdata u se.
Proof. intros (u & _ & ->)%on_lib_inv. by exists u. Qed.

Lemma noted_idem se : noted (noted se) = noted se.
Proof. unfold noted. destruct (negb (got_init se) && negb (buf_reallocable se)) eqn:Hn; [|by rewrite Hn]. cbn. by rewrite andb_false_r. Qed.

Lemma noted_userdata u se : noted (set_userdata u se) = set_userdata u (noted se).
Proof. unfold noted. cbn. by destruct (_ && _). Qed.

Lemma noted_exited se : (noted se).(exited) = se.(exited).
Proof. unfold noted. by destruct (_ && _). Qed.

Lemma noted_from_device se : from_device (noted se) <-> from_device se.
Proof. unfold noted. by destruct (_ && _). Qed.

Lemma noted_fields se : (noted se).(se_bufsize) = se.(se_bufsize) /\ (noted se).(pagesize) = se.(pagesize) /\ (noted se).(userdata) = se.(userdata).
Proof. unfold noted. by destruct (_ && _). Qed.

Lemma request_read fuel m mem_size n internal se data m' se1 : se.(exited) = false -> device_read n se = Ok (Ret data, se1) ->
  mem_write m 0 (cells data) = Ok m' -> IN_HEADER_SIZE <= zlen data ->
  read_request (S fuel) m mem_size n internal se = Ok ((i32 (zlen data), mk_request_buf (Some m') mem_size (zlen data)), se1).
Proof.
  intros He Hr Hm Hl. destruct (device_read_inv _ _ _ _ Hr) as [u ->]. unfold device_read in Hr. cbn [read_request]. prun_get. prun Hr. prun_lift Hm.
  prun_get. cbn [set_userdata exited]. rewrite He, (proj2 (Z.ltb_ge _ _) Hl). done.
Qed.

Lemma request_overflow fuel m mem_size n internal se data se1 : device_read n se = Ok (Ret data, se1) -> zlen m < zlen data ->
  read_request (S fuel) m mem_size n internal se = Fail OutOfBounds.
Proof.
  intros Hr Hl. unfold device_read in Hr. cbn [read_request]. prun_get. prun Hr. unfold mem_write, guard_c. rewrite zlen_cells.
  by rewrite (proj2 (Z.leb_gt (0 + zlen data) (zlen m))) by lia.
Qed.

(** An error before which the buffer need not grow. *)
Lemma request_error fuel m mem_size n internal se err se1 : se.(exited) = false -> device_read n se = Ok (Err err, se1) -> err <> EINVAL ->
  read_request (S fuel) m mem_size n internal se =
    (if err =? ENOENT then read_request fuel m mem_size n internal
     else if err =? ENODEV then fuse_session_exit ;;; pret (0, mk_request_buf (Some m) mem_size 0)
     else pret (- err, mk_request_buf (Some m) mem_size 0)) se1.
Proof.
  intros He Hr Hn. destruct (device_read_inv _ _ _ _ Hr) as [u ->]. unfold device_read in Hr. cbn [read_request]. prun_get. prun Hr.
  rewrite (pbind_run _ _ _ _ _ (plift_run (Ok m) _ _ eq_refl)). prun_get. cbn [set_userdata exited].
  by rewrite He, (proj2 (Z.eqb_neq _ _) Hn).
Qed.

(** *** Receiving *)

Lemma note_run {B} (k : unit -> prog Se B) se :
  pbind (if negb se.(got_init) && negb se.(buf_reallocable) then change set_reallocable else pret tt) k se = k tt (noted se).
Proof. unfold noted. by destruct (_ && _). Qed.

Lemma receive_into fuel m n sz se : from_device se ->
  fuse_session_receive_buf_internal fuel (mk_request_buf (Some m) n sz) se = read_request fuel m n n true (noted se).
Proof.
  intros Hf%noted_from_device. unfold fuse_session_receive_buf_internal. prun_get. rewrite note_run.
  unfold fuse_session_receive_buf_. prun_get. unfold from_device in Hf. by rewrite Hf.
Qed.

Lemma buf_alloc_run size internal se u : in_fuse allocates se.(userdata) = Ok (true, u) ->
  buf_alloc size internal se = Ok (Some (uninit (if internal then capacity size se.(pagesize) else size)), set_userdata u se).
Proof. intros Ha. unfold buf_alloc. prun (on_lib_run _ _ _ _ Ha). prun_get. by destruct internal. Qed.

Lemma receive_fresh fuel sz0 sz se u : from_device se -> in_fuse allocates se.(userdata) = Ok (true, u) ->
  fuse_session_receive_buf_internal fuel (mk_request_buf None sz0 sz) se
  = read_request fuel (uninit (capacity se.(se_bufsize) se.(pagesize))) se.(se_bufsize) se.(se_bufsize) true (set_userdata u (noted se)).
Proof.
  intros Hf%noted_from_device Ha. unfold fuse_session_receive_buf_internal. prun_get. rewrite note_run.
  unfold fuse_session_receive_buf_. prun_get. unfold from_device in Hf. rewrite Hf. cbn [rb_mem].
  destruct (noted_fields se) as (Hb & Hp & Hd). rewrite <- Hd in Ha. prun (buf_alloc_run (noted se).(se_bufsize) true _ _ Ha).
  cbv iota. by rewrite Hb, Hp.
Qed.

(** ** The loop *)

(** A session whose loop reads the device. *)
Definition listens se : Prop := se.(exited) = false /\ from_device se.

(** The requests a session is given by the device and serves, with the memory [m] of
    the loop and reads of [n] bytes, until the device is gone or the session ends. *)
Inductive attended (n : Z) : list cell -> Se -> list (list byte) -> Se -> Prop :=
  | at_exited m se : se.(exited) = true -> attended n m se [] se
  | at_gone m se se1 : listens se -> device_read n (noted se) = Ok (Err ENODEV, se1) -> attended n m se [] (set_exit true se1.(se_error) se1)
  | at_again m se se1 err l se' : listens se -> device_read n (noted se) = Ok (Err err, se1) -> err = ENOENT \/ err = EINTR ->
      attended n m se1 l se' -> attended n m se l se'
  | at_request m se se1 se2 data l se' : listens se -> device_read n (noted se) = Ok (Ret data, se1) ->
      IN_HEADER_SIZE <= zlen data <= zlen m -> zlen data < 2 ^ 31 ->
      fuse_session_process_buf (splice m 0 (cells data)) (zlen data) se1 = Ok (tt, se2) ->
      attended n (splice m 0 (cells data)) se2 l se' -> attended n m se (data :: l) se'.

Lemma after_read n se r se1 : listens se -> device_read n (noted se) = Ok (r, se1) -> listens se1 /\ noted se1 = se1.
Proof.
  intros [He Hf] (u & ->)%device_read_inv. split.
  - split; [cbn; by rewrite noted_exited | by apply noted_from_device in Hf].
  - by rewrite noted_userdata, noted_idem.
Qed.

(** A turn of the loop, and the turns after it. *)
Definition turn (k1 k2 : nat) (m : list cell) (n : Z) : prog Se Z :=
  let? (res, b) := read_request k1 m n n true in
  if res =? - EINTR then session_loop k2 b res
  else if res <=? 0 then pret res
  else m <-- plift (lift_fault NullDeref b.(rb_mem)) ;; fuse_session_process_buf m b.(rb_size) ;;; session_loop k2 b res.

Lemma loop_turn fuel m n sz se res0 : listens se ->
  session_loop (S fuel) (mk_request_buf (Some m) n sz) res0 se = turn (S fuel) fuel m n (noted se).
Proof.
  intros [He Hf]. cbn [session_loop]. prun_get. rewrite He. unfold pbind at 1. rewrite (receive_into _ _ _ _ _ Hf). reflexivity.
Qed.

(** With enough fuel the loop comes to an end there, without an error. *)
Definition ends (n : Z) (m : list cell) se se' : Prop := exists k, forall k2 sz res, (k <= k2)%nat -> 0 <= res \/ listens se ->
  exists r, 0 <= r /\ session_loop k2 (mk_request_buf (Some m) n sz) res se = Ok (r, se').

Definition turns (n : Z) (m : list cell) se se' : Prop := exists k, forall k1 k2, (k <= k1)%nat -> (k <= k2)%nat ->
  exists r, 0 <= r /\ turn k1 k2 m n (noted se) = Ok (r, se').

Lemma turns_end n m se se' : listens se -> turns n m se se' -> ends n m se se'.
Proof.
  intros Hl [k Hk]. exists (S k). intros [|k2] sz res Hk2 _; [lia|]. rewrite loop_turn by done. apply Hk; lia.
Qed.

Lemma gone_turns n m se se1 : listens se -> device_read n (noted se) = Ok (Err ENODEV, se1) -> turns n m se (set_exit true se1.(se_error) se1).
Proof.
  intros [He Hf] Hr. exists 1%nat. intros [|k1] k2 Hk1 _; [lia|]. exists 0. split; [done|]. unfold turn, pbind at 1.
  by rewrite (request_error _ _ _ _ _ _ _ _ ltac:(by rewrite noted_exited) Hr).
Qed.

Lemma again_turns n m se se1 err se' : listens se -> device_read n (noted se) = Ok (Err err, se1) -> err = ENOENT \/ err = EINTR ->
  turns n m se1 se' -> turns n m se se'.
Proof.
  intros Hl Hr Herr Ht. destruct (after_read _ _ _ _ Hl Hr) as [Hl1 Hn1]. pose proof (turns_end _ _ _ _ Hl1 Ht) as [k' Hk'].
  destruct Ht as [k Hk]. destruct Hl as [He Hf]. exists (S (k `max` k')). intros [|k1] k2 Hk1 Hk2; [lia|].
  unfold turn, pbind at 1.
  destruct Herr as [->| ->]; rewrite (request_error _ _ _ _ _ _ _ _ ltac:(by rewrite noted_exited) Hr ltac:(done)).
  - rewrite <- Hn1. apply Hk; lia.
  - apply (Hk' k2 0 (- EINTR)); [lia | by right].
Qed.

Lemma request_turns n m se se1 se2 data se' : listens se -> device_read n (noted se) = Ok (Ret data, se1) ->
  IN_HEADER_SIZE <= zlen data <= zlen m -> zlen data < 2 ^ 31 ->
  fuse_session_process_buf (splice m 0 (cells data)) (zlen data) se1 = Ok (tt, se2) ->
  ends n (splice m 0 (cells data)) se2 se' -> turns n m se se'.
Proof.
  intros [He Hf] Hr Hd Hmax Hp [k Hk]. unfold IN_HEADER_SIZE in Hd. exists (S k). intros [|k1] k2 Hk1 Hk2; [lia|].
  unfold turn, pbind at 1.
  rewrite (request_read _ _ _ _ _ _ _ _ _ ltac:(by rewrite noted_exited) Hr (mem_write_in m 0 (cells data) ltac:(lia) ltac:(rewrite zlen_cells; lia)))
    by (unfold IN_HEADER_SIZE; lia).
  cbn [obind]. cbv beta iota. rewrite i32_small by (unfold INT_MAX; lia). rewrite (proj2 (Z.eqb_neq (zlen data) (- EINTR))), (proj2 (Z.leb_gt (zlen data) 0)) by (unfold EINTR; lia).
  cbn [rb_mem rb_size]. rewrite (pbind_run _ _ _ _ _ (plift_run (Ok (splice m 0 (cells data))) se1 _ eq_refl)). prun Hp.
  apply Hk; [lia | left; lia].
Qed.

(** The loop gets through what it is given. *)
Lemma attended_end n m se l se' : attended n m se l se' -> ends n m se se' /\ (listens se -> turns n m se se').
Proof.
  induction 1 as [m se He | m se se1 Hl Hr | m se se1 err l se' Hl Hr Herr Hat [_ IH] | m se se1 se2 data l se' Hl Hr Hd Hmax Hp Hat [IH _]].
  - split; [|by intros [? _]; congruence]. exists 1%nat. intros [|k2] sz res Hk2 Hres; [lia|]. exists res. split.
    + destruct Hres as [|[? _]]; [done | congruence].
    + cbn [session_loop]. prun_get. by rewrite He.
  - pose proof (gone_turns _ m _ _ Hl Hr) as Ht. split; [by apply turns_end | done].
  - pose proof (again_turns _ m _ _ _ _ Hl Hr Herr (IH (proj1 (after_read _ _ _ _ Hl Hr)))) as Ht. split; [by apply turns_end | done].
  - pose proof (request_turns _ m _ _ _ _ _ Hl Hr Hd Hmax Hp IH) as Ht. split; [by apply turns_end | done].
Qed.

(** From the start: the memory is made for the first request. *)
Lemma loop_attended se u l se' : listens se -> in_fuse allocates se.(userdata) = Ok (true, u) ->
  attended se.(se_bufsize) (uninit (capacity se.(se_bufsize) se.(pagesize))) (set_userdata u se) l se' ->
  exists k, forall fuel, (k <= fuel)%nat -> fuse_session_loop fuel se = Ok (se'.(se_error), set_exit false 0 se').
Proof.
  intros Hl Ha [_ Hat]%attended_end. assert (listens (set_userdata u se)) as Hl' by done. specialize (Hat Hl') as [k Hk].
  exists (S k). intros [|fuel] Hf; [lia|]. destruct Hl as [He Hd].
  assert (exists r, 0 <= r /\ session_loop (S fuel) (mk_request_buf None 0 0) 0 se = Ok (r, se')) as (r & Hr & Hrun).
  { cbn [session_loop]. prun_get. rewrite He. unfold pbind at 1. rewrite (receive_fresh _ _ _ _ _ Hd Ha).
    destruct (Hk (S fuel) fuel ltac:(lia) ltac:(lia)) as (r & Hr & Hrun). exists r. split; [done|]. rewrite noted_userdata in Hrun. exact Hrun. }
  unfold fuse_session_loop. prun Hrun. prun_get. cbv zeta.
  assert ((if 0 <? r then 0 else r) = 0) as -> by (destruct (Z.ltb_spec 0 r); lia).
  assert ((if is_set se'.(se_error) then se'.(se_error) else 0) = se'.(se_error)) as ->.
  { unfold is_set. destruct (Z.eqb_spec se'.(se_error) 0); [by symmetry | done]. }
  done.
Qed.

End receive.
End FuseLoop.
