(* ===== verification/FuseLoopMt.v ===== *)
(** The loop of several threads (src/fuse-3.17.2/lib/fuse_loop_mt.c): its
    configuration, the threads that read and serve requests, and the main thread that
    starts the first, waits for the end and joins them all.  The threads interleave:
    a step is what one of them does under the lock, or one call of the session.  The
    session is an interface, which FuseSession implements. *)
From S2P Require Import Prelude.
From S2P Require Import CLib.
From S2P Require Import FuseTypes.
From S2P Require Import FuseKernel.

Module FuseLoopMt.
Import FuseTypes FuseKernel.

(** ** The configuration *)

Definition FUSE_LOOP_MT_V2_IDENTIFIER : Z := INT_MAX - 2.
Definition FUSE_LOOP_MT_DEF_CLONE_FD : Z := 0.
Definition FUSE_LOOP_MT_DEF_MAX_THREADS : Z := 10.
Definition FUSE_LOOP_MT_DEF_IDLE_THREADS : Z := - 1.
Definition FUSE_LOOP_MT_MAX_THREADS : Z := 100 * 1000.

Record fuse_loop_config := mk_loop_config { version_id : Z; cfg_clone_fd : Z; max_idle_threads : Z; cfg_max_threads : Z }.
Record fuse_loop_config_v1 := mk_loop_config_v1 { v1_clone_fd : Z; v1_max_idle_threads : Z }.

(** [ok]: whether there is memory. *)
Definition fuse_loop_cfg_create (ok : bool) : option fuse_loop_config :=
  if ok then Some (mk_loop_config FUSE_LOOP_MT_V2_IDENTIFIER FUSE_LOOP_MT_DEF_CLONE_FD FUSE_LOOP_MT_DEF_IDLE_THREADS FUSE_LOOP_MT_DEF_MAX_THREADS)
  else None.

Definition fuse_loop_cfg_verify (config : fuse_loop_config) : Z :=
  if negb (config.(version_id) =? FUSE_LOOP_MT_V2_IDENTIFIER) then - EINVAL else 0.

(** Values are [unsigned int]. *)
Definition fuse_loop_cfg_set_idle_threads (config : fuse_loop_config) (value : Z) : fuse_loop_config :=
  if FUSE_LOOP_MT_MAX_THREADS <? value then config
  else mk_loop_config config.(version_id) config.(cfg_clone_fd) value config.(cfg_max_threads).
Definition fuse_loop_cfg_set_max_threads (config : fuse_loop_config) (value : Z) : fuse_loop_config :=
  mk_loop_config config.(version_id) config.(cfg_clone_fd) config.(max_idle_threads) value.
Definition fuse_loop_cfg_set_clone_fd (config : fuse_loop_config) (value : Z) : fuse_loop_config :=
  mk_loop_config config.(version_id) (i32 value) config.(max_idle_threads) config.(cfg_max_threads).
Definition fuse_loop_cfg_convert (config : fuse_loop_config) (v1 : fuse_loop_config_v1) : fuse_loop_config :=
  fuse_loop_cfg_set_clone_fd (fuse_loop_cfg_set_idle_threads config v1.(v1_max_idle_threads)) (u32 v1.(v1_clone_fd)).

(** ** The session *)

(** What the loop uses of a session and of a buffer: the flag and the error, the
    opcode of a request that is in memory, and how receiving (from a channel, or from the
    session's own) and serving may end. *)
Class SessionOps (S B : Type) := {
  sx_exited : S -> bool;
  sx_error : S -> Z;
  sx_exit : S -> S;
  sx_reset : S -> S;
  sx_empty : B;
  sx_opcode : B -> option Z;
  sx_receives : S -> option Z -> B -> Z -> B -> S -> Prop;
  sx_processes : S -> B -> S -> Prop
}.

(** The flag stays until it is reset; with it nothing is received any more, and
    without it receiving does not end in nothing. *)
Class SessionLaws (S B : Type) `{SessionOps S B} : Prop := {
  exit_exited : forall s : S, sx_exited (sx_exit s) = true;
  receives_kept : forall (s : S) ch (b : B) r b' s', sx_receives s ch b r b' s' -> sx_exited s = true -> sx_exited s' = true;
  receives_end : forall (s : S) ch (b : B) r b' s', sx_receives s ch b r b' s' -> sx_exited s = true -> r <= 0 /\ r <> - EINTR;
  receives_zero : forall (s : S) ch (b : B) b' s', sx_receives s ch b 0 b' s' -> sx_exited s' = true;
  processes_kept : forall (s : S) (b : B) s', sx_processes s b s' -> sx_exited s = true -> sx_exited s' = true
}.

Section mt.
Context {S B : Type} `{SessionOps S B}.

(** ** Threads *)

(** Where a thread is: before it checks the flag, in the call that receives, back with
    its result, serving, done with that, out of the loop, and ended. *)
Inductive phase := Checking | Receiving | Received (res : Z) | Working (isforget : bool) | Worked (isforget : bool) | Leaving | Gone.

(** [struct fuse_worker]; [w_cancel]: pthread_cancel was called for it. *)
Record fuse_worker := mk_worker { w_phase : phase; w_fbuf : B; w_ch : option Z; w_cancel : bool }.

(** Where the main thread is: before it checks the flag, before or in sem_wait, joining, and returned. *)
Inductive main_phase := MainChecks | MainWaits | MainJoins | MainDone (err : Z).

(** [struct fuse_mt], with the list of workers in its order, and the descriptors of
    the channels that are open. *)
Record fuse_mt := mk_mt {
  mt_se : S;
  numworker : Z;
  numavail : Z;
  finish : Z;
  exit : bool;
  error : Z;
  clone_fd : Z;
  max_idle : Z;
  max_threads : Z;
  workers : list fuse_worker;
  chans : list Z;
  main : main_phase
}.
Implicit Types (mt : fuse_mt) (w : fuse_worker).

Definition set_se (s : S) mt : fuse_mt :=
  mk_mt s mt.(numworker) mt.(numavail) mt.(finish) mt.(exit) mt.(error) mt.(clone_fd) mt.(max_idle) mt.(max_threads) mt.(workers) mt.(chans) mt.(main).
Definition set_counts (nw na : Z) mt : fuse_mt :=
  mk_mt mt.(mt_se) nw na mt.(finish) mt.(exit) mt.(error) mt.(clone_fd) mt.(max_idle) mt.(max_threads) mt.(workers) mt.(chans) mt.(main).
Definition set_finish (n : Z) mt : fuse_mt :=
  mk_mt mt.(mt_se) mt.(numworker) mt.(numavail) n mt.(exit) mt.(error) mt.(clone_fd) mt.(max_idle) mt.(max_threads) mt.(workers) mt.(chans) mt.(main).
Definition set_mt_exit mt : fuse_mt :=
  mk_mt mt.(mt_se) mt.(numworker) mt.(numavail) mt.(finish) true mt.(error) mt.(clone_fd) mt.(max_idle) mt.(max_threads) mt.(workers) mt.(chans) mt.(main).
Definition set_error (e : Z) mt : fuse_mt :=
  mk_mt mt.(mt_se) mt.(numworker) mt.(numavail) mt.(finish) mt.(exit) e mt.(clone_fd) mt.(max_idle) mt.(max_threads) mt.(workers) mt.(chans) mt.(main).
Definition set_clone_fd (c : Z) mt : fuse_mt :=
  mk_mt mt.(mt_se) mt.(numworker) mt.(numavail) mt.(finish) mt.(exit) mt.(error) c mt.(max_idle) mt.(max_threads) mt.(workers) mt.(chans) mt.(main).
Definition set_workers (l : list fuse_worker) mt : fuse_mt :=
  mk_mt mt.(mt_se) mt.(numworker) mt.(numavail) mt.(finish) mt.(exit) mt.(error) mt.(clone_fd) mt.(max_idle) mt.(max_threads) l mt.(chans) mt.(main).
Definition set_chans (l : list Z) mt : fuse_mt :=
  mk_mt mt.(mt_se) mt.(numworker) mt.(numavail) mt.(finish) mt.(exit) mt.(error) mt.(clone_fd) mt.(max_idle) mt.(max_threads) mt.(workers) l mt.(main).
Definition set_main (m : main_phase) mt : fuse_mt :=
  mk_mt mt.(mt_se) mt.(numworker) mt.(numavail) mt.(finish) mt.(exit) mt.(error) mt.(clone_fd) mt.(max_idle) mt.(max_threads) mt.(workers) mt.(chans) m.

Definition at_phase (p : phase) w : fuse_worker := mk_worker p w.(w_fbuf) w.(w_ch) w.(w_cancel).
Definition with_fbuf (b : B) w : fuse_worker := mk_worker w.(w_phase) b w.(w_ch) w.(w_cancel).
Definition cancelled w : fuse_worker := mk_worker w.(w_phase) w.(w_fbuf) w.(w_ch) true.
(** Thread [i] goes on to [p]. *)
Definition goes (i : nat) w (p : phase) mt : fuse_mt := set_workers (<[i := at_phase p w]> mt.(workers)) mt.

(** ** Starting a thread *)

(** What the system calls of a start come to: memory for the worker, the descriptor of
    a clone, and whether the thread is created. *)
Record start_env := mk_start_env {
  has_worker : bool;
  io_clone_fd : option (option Z);  (** custom input and output, and its clone_fd's result *)
  opened : Z;                       (** open("/dev/fuse") *)
  ioctl_res : Z;                    (** FUSE_DEV_IOC_CLONE *)
  has_chan : bool;
  created : bool                    (** pthread_create *)
}.

Definition open_chan (fd : Z) mt : fuse_mt := set_chans (fd :: mt.(chans)) mt.
Fixpoint close_fd (fd : Z) (l : list Z) : list Z :=
  match l with [] => [] | x :: l => if x =? fd then l else x :: close_fd fd l end.
(** [fuse_chan_put] of the last reference. *)
Definition fuse_chan_put (ch : option Z) mt : fuse_mt :=
  match ch with None => mt | Some fd => set_chans (close_fd fd mt.(chans)) mt end.

Definition fuse_clone_chan_fd_default (e : start_env) : Z :=
  if e.(opened) =? - 1 then - 1 else if e.(ioctl_res) =? - 1 then - 1 else e.(opened).

Definition fuse_clone_chan (e : start_env) mt : option Z * fuse_mt :=
  let clonefd := match e.(io_clone_fd) with Some (Some fd) => fd | Some None => - 1 | None => fuse_clone_chan_fd_default e end in
  if clonefd <? 0 then (None, mt)
  else if e.(has_chan) then (Some clonefd, open_chan clonefd mt) else (None, mt).

Definition fuse_loop_start_thread (e : start_env) mt : Z * fuse_mt :=
  if negb e.(has_worker) then (- 1, mt)
  else
    let (ch, mt) :=
      if negb (mt.(clone_fd) =? 0) then
        let (ch, mt) := fuse_clone_chan e mt in
        (ch, match ch with None => set_clone_fd 0 mt | Some _ => mt end)
      else (None, mt) in
    if negb e.(created) then (- 1, fuse_chan_put ch mt)
    else
      let mt := set_workers (mt.(workers) ++ [mk_worker Checking sx_empty ch false]) mt in
      (0, set_counts (mt.(numworker) + 1) (mt.(numavail) + 1) mt).

(** ** What a thread does *)

(** The result of receiving, when it is no request. *)
Definition no_request (i : nat) w (res : Z) mt : fuse_mt :=
  if res =? - EINTR then goes i w Checking mt
  else goes i w Leaving (if res <? 0 then set_error res (set_se (sx_exit mt.(mt_se)) mt) else mt).

Definition is_forget w : bool :=
  match sx_opcode w.(w_fbuf) with Some o => (o =? FUSE_FORGET) || (o =? FUSE_BATCH_FORGET) | None => false end.

(** Under the lock, with a request: whether a start was tried and failed, too. *)
Definition takes_request (e : start_env) (i : nat) w mt : bool * fuse_mt :=
  if mt.(exit) then (false, goes i w Gone mt)
  else
    let isforget := is_forget w in
    let mt := goes i w (Working isforget) mt in
    let mt := if isforget then mt else set_counts mt.(numworker) (mt.(numavail) - 1) mt in
    if (mt.(numavail) =? 0) && (mt.(numworker) <? mt.(max_threads)) then
      let (res, mt) := fuse_loop_start_thread e mt in (negb (res =? 0), mt)
    else (false, mt).

(** Under the lock, with the request served: a thread too many leaves. *)
Definition done_request (i : nat) w (isforget : bool) mt : fuse_mt :=
  let mt := if isforget then mt else set_counts mt.(numworker) (mt.(numavail) + 1) mt in
  if negb (mt.(max_idle) =? - 1) && (mt.(max_idle) <? mt.(numavail)) && (1 <? mt.(numworker)) then
    if mt.(exit) then goes i w Gone mt
    else
      let mt := set_workers (delete i mt.(workers)) mt in
      fuse_chan_put w.(w_ch) (set_counts (mt.(numworker) - 1) (mt.(numavail) - 1) mt)
  else goes i w Checking mt.

(** ** The main thread *)

Definition cancels mt : fuse_mt := set_main MainJoins (set_mt_exit (set_workers (cancelled <$> mt.(workers)) mt)).

(** [fuse_join_worker] of the first, which has ended. *)
Definition fuse_join_worker w (l : list fuse_worker) mt : fuse_mt := fuse_chan_put w.(w_ch) (set_workers l mt).

Definition returns (err : Z) mt : fuse_mt :=
  let err := if negb (sx_error mt.(mt_se) =? 0) then sx_error mt.(mt_se) else err in
  set_main (MainDone err) (set_se (sx_reset mt.(mt_se)) mt).

(** The state in which the first thread is started. *)
Definition mt_init (config : fuse_loop_config) (s : S) : fuse_mt :=
  mk_mt s 0 0 0 false 0 config.(cfg_clone_fd) config.(max_idle_threads) (i32 config.(cfg_max_threads)) [] [] MainChecks.

(** [fuse_session_loop_mt_312] up to its loop, with a configuration: it returns, or
    runs. *)
Definition loop_mt (e : start_env) (config : fuse_loop_config) (s : S) : Z + fuse_mt :=
  let err := fuse_loop_cfg_verify config in
  if negb (err =? 0) then inl err
  else let (err, mt) := fuse_loop_start_thread e (mt_init config s) in
       inr (if err =? 0 then mt else returns err mt).

(** Without one it is made, and what fuse_loop_cfg_create returns is not looked at.
    [ok]: whether there is memory. *)
Definition fuse_session_loop_mt_312 (ok : bool) (e : start_env) (config : option fuse_loop_config) (s : S) : outcome (Z + fuse_mt) :=
  match config with
  | Some config => Ok (loop_mt e config s)
  | None =>
      config <- lift_fault NullDeref (fuse_loop_cfg_create ok) ;;
      Ok (loop_mt e config s)
  end.

(** ** Steps *)

(** Who acts: a thread, one whose start of another failed, the main thread, a signal
    to the main thread (whose handler sets the flag), sem_wait interrupted. *)
Inductive event := EWorker | EStartFailed | EMain | ESignal | EInterrupted.

Inductive step : event -> fuse_mt -> fuse_mt -> Prop :=
  | st_check i w mt : mt.(workers) !! i = Some w -> w.(w_phase) = Checking ->
      step EWorker mt (goes i w (if sx_exited mt.(mt_se) then Leaving else Receiving) mt)
  | st_receive i w mt res b s : mt.(workers) !! i = Some w -> w.(w_phase) = Receiving -> sx_receives mt.(mt_se) w.(w_ch) w.(w_fbuf) res b s ->
      step EWorker mt (goes i (with_fbuf b w) (Received res) (set_se s mt))
  | st_cancelled i w mt : mt.(workers) !! i = Some w -> w.(w_phase) = Receiving -> w.(w_cancel) = true ->
      step EWorker mt (goes i w Gone mt)
  | st_no_request i w mt res : mt.(workers) !! i = Some w -> w.(w_phase) = Received res -> res <= 0 ->
      step EWorker mt (no_request i w res mt)
  | st_takes i w mt res e : mt.(workers) !! i = Some w -> w.(w_phase) = Received res -> 0 < res ->
      step (if (takes_request e i w mt).1 then EStartFailed else EWorker) mt (takes_request e i w mt).2
  | st_process i w mt isforget s : mt.(workers) !! i = Some w -> w.(w_phase) = Working isforget -> sx_processes mt.(mt_se) w.(w_fbuf) s ->
      step EWorker mt (goes i w (Worked isforget) (set_se s mt))
  | st_done i w mt isforget : mt.(workers) !! i = Some w -> w.(w_phase) = Worked isforget ->
      step EWorker mt (done_request i w isforget mt)
  | st_post i w mt : mt.(workers) !! i = Some w -> w.(w_phase) = Leaving ->
      step EWorker mt (set_finish (mt.(finish) + 1) (goes i w Gone mt))
  | st_main_checks mt : mt.(main) = MainChecks ->
      step EMain mt (if sx_exited mt.(mt_se) then cancels mt else set_main MainWaits mt)
  | st_main_woken mt : mt.(main) = MainWaits -> 0 < mt.(finish) ->
      step EMain mt (set_finish (mt.(finish) - 1) (set_main MainChecks mt))
  | st_interrupted mt : mt.(main) = MainWaits -> step EInterrupted mt (set_main MainChecks mt)
  | st_signal mt : step ESignal mt (set_se (sx_exit mt.(mt_se)) mt)
  | st_join w l mt : mt.(main) = MainJoins -> mt.(workers) = w :: l -> w.(w_phase) = Gone ->
      step EMain mt (fuse_join_worker w l mt)
  | st_return mt : mt.(main) = MainJoins -> mt.(workers) = [] -> step EMain mt (returns mt.(error) mt).

(** Runs whose events [P] allows. *)
Inductive run (P : event -> Prop) : fuse_mt -> fuse_mt -> Prop :=
  | run_refl mt : run P mt mt
  | run_step mt mt1 mt2 ev : run P mt mt1 -> P ev -> step ev mt1 mt2 -> run P mt mt2.

(** The states of the loop with this configuration. *)
Definition reaches (P : event -> Prop) (config : fuse_loop_config) (s : S) mt : Prop :=
  exists e mt0, loop_mt e config s = inr mt0 /\ run P mt0 mt.
End mt.
Arguments fuse_mt : clear implicits.
Arguments fuse_worker : clear implicits.

(** ** The older interfaces *)

Section old.
Context {S B : Type} `{SessionOps S B}.

(** [ok], [ok2]: whether there is memory for the configuration, here and in the
    function that is called.  Without it [ENOMEM] comes back, which is positive. *)
Definition fuse_session_loop_mt_32 (ok ok2 : bool) (e : start_env) (config_v1 : option fuse_loop_config_v1) (s : S) : outcome (Z + fuse_mt S B) :=
  match config_v1 with
  | None => fuse_session_loop_mt_312 ok2 e None s
  | Some v1 =>
      match fuse_loop_cfg_create ok with
      | None => Ok (inl ENOMEM)
      | Some config => fuse_session_loop_mt_312 ok2 e (Some (fuse_loop_cfg_convert config v1)) s
      end
  end.

(** What fuse_loop_cfg_create returns is written to, or handed on. *)
Definition fuse_session_loop_mt_31 (ok ok2 : bool) (e : start_env) (clone_fd : Z) (s : S) : outcome (Z + fuse_mt S B) :=
  if 0 <? clone_fd then
    config <- lift_fault NullDeref (fuse_loop_cfg_create ok) ;;
    fuse_session_loop_mt_312 ok2 e (Some (fuse_loop_cfg_set_clone_fd config (u32 clone_fd))) s
  else fuse_session_loop_mt_312 ok2 e (fuse_loop_cfg_create ok) s.
End old.
End FuseLoopMt.
