(* ===== verification/FuseLoopMtFacts.v ===== *)
(** Facts about the loop of several threads: the invariant of its counts and
    channels, for every step.

    Runs of the loop of several threads: the invariant all along, that somebody
    listens, that the end of the session is noticed, and that the loop then ends. *)
From S2P Require Import Prelude.
From S2P Require Import CLib.
From S2P Require Import FuseTypes.
From S2P Require Import FuseKernel.
From S2P Require Import FuseLoopMt.

Module FuseLoopMtFacts.
Import FuseTypes FuseKernel FuseLoopMt.

Section facts.
Context {S B : Type} `{HL : SessionLaws S B}.
Implicit Types (mt : fuse_mt S B) (w : fuse_worker B) (l : list (fuse_worker B)).

(** ** Counting *)

(** Whether a thread counts as available: it serves nothing but a forget. *)
Definition avail w : bool :=
  match w.(w_phase) with Working f | Worked f => f | _ => true end.
Definition available l : Z := zlen (filter avail l).

Lemma available_app l1 l2 : available (l1 ++ l2) = available l1 + available l2.
Proof. unfold available. rewrite filter_app, length_app. lia. Qed.

Lemma available_cons w l : available (w :: l) = available [w] + available l.
Proof. apply (available_app [w]). Qed.

Lemma available_one w : available [w] = Z.b2z (avail w).
Proof. unfold available. cbn. by destruct (avail w). Qed.

Lemma available_nonneg l : 0 <= available l <= zlen l.
Proof. unfold available. pose proof (length_filter avail l). lia. Qed.

(** A thread in its place. *)
Lemma split_at l i w : l !! i = Some w -> exists l1 l2, l = l1 ++ w :: l2 /\ i = length l1.
Proof. intros Hi. exists (take i l), (drop (Datatypes.S i) l). rewrite take_drop_middle by done. split; [done|]. rewrite length_take_le; [done|]. apply lookup_lt_Some in Hi. lia. Qed.

Lemma available_insert l i w w' : l !! i = Some w -> available (<[i := w']> l) = available l - available [w] + available [w'].
Proof.
  intros (l1 & l2 & -> & ->)%split_at. rewrite insert_app_r_alt, Nat.sub_diag by done. change (<[0%nat := w']> (w :: l2)) with (w' :: l2).
  rewrite !available_app, (available_cons w l2), (available_cons w' l2). lia.
Qed.

Lemma available_delete l i w : l !! i = Some w -> available (delete i l) = available l - available [w].
Proof.
  intros (l1 & l2 & -> & ->)%split_at. rewrite delete_middle, !available_app, (available_cons w l2). lia.
Qed.

(** ** Channels *)

Definition held l : list Z := omap w_ch l.

Lemma held_goes l i w p : l !! i = Some w -> held (<[i := at_phase p w]> l) = held l.
Proof.
  intros (l1 & l2 & -> & ->)%split_at. rewrite insert_app_r_alt, Nat.sub_diag by done. change (<[0%nat := at_phase p w]> (w :: l2)) with (at_phase p w :: l2).
  unfold held. by rewrite !omap_app.
Qed.

Lemma close_fd_proper fd (cs cs' : list Z) : Permutation cs cs' -> Permutation (close_fd fd cs) (close_fd fd cs').
Proof.
  induction 1 as [|x l l' Hp IH|x y l|l1 l2 l3 _ IH1 _ IH2]; cbn.
  - done.
  - by destruct (x =? fd); [|rewrite IH].
  - destruct (Z.eqb_spec x fd), (Z.eqb_spec y fd); subst; try done. apply Permutation_swap.
  - by rewrite IH1.
Qed.

(** A thread's channel is closed. *)
Lemma chan_put (ch : option Z) (cs cs' : list Z) : Permutation cs (option_list ch ++ cs') ->
  Permutation (match ch with None => cs | Some fd => close_fd fd cs end) cs'.
Proof.
  destruct ch as [fd|]; [|done]. cbn [option_list app]. intros Hp. rewrite (close_fd_proper fd _ _ Hp). cbn. by rewrite Z.eqb_refl.
Qed.

(** ** Starting a thread *)

Lemma start_run e mt :
  (exists ch c cs, fuse_loop_start_thread e mt = (0, set_counts (mt.(numworker) + 1) (mt.(numavail) + 1)
       (set_workers (mt.(workers) ++ [mk_worker Checking sx_empty ch false]) (set_chans cs (set_clone_fd c mt)))) /\
     Permutation cs (option_list ch ++ mt.(chans))) \/
  (exists c, fuse_loop_start_thread e mt = (- 1, set_clone_fd c mt)).
Proof.
  unfold fuse_loop_start_thread. destruct (has_worker e); cbn [negb]; [|right; exists mt.(clone_fd); by destruct mt].
  set (t := if negb (clone_fd mt =? 0) then _ else _).
  assert (exists ch c, t = (ch, set_chans (option_list ch ++ mt.(chans)) (set_clone_fd c mt))) as (ch & c & ->).
  { unfold t, fuse_clone_chan. destruct (negb (clone_fd mt =? 0)); [|exists None, mt.(clone_fd); by destruct mt].
    set (fd := match io_clone_fd e with Some _ => _ | None => _ end). destruct (fd <? 0); [exists None, 0; by destruct mt|].
    destruct (has_chan e); [exists (Some fd), mt.(clone_fd); by destruct mt | exists None, 0; by destruct mt]. }
  destruct (created e); cbn [negb].
  - left. by exists ch, c, (option_list ch ++ mt.(chans)).
  - right. exists c. f_equal. destruct ch as [fd|]; cbn; [rewrite Z.eqb_refl|]; by destruct mt.
Qed.

(** ** The invariant *)

Record inv mt : Prop := mk_inv {
  i_counts : mt.(exit) = false -> mt.(numworker) = zlen mt.(workers) /\ mt.(numavail) = available mt.(workers);
  i_max : mt.(exit) = false -> mt.(numworker) <= Z.max 1 mt.(max_threads) /\ ((forall e, mt.(main) <> MainDone e) -> 1 <= mt.(numworker));
  i_chans : Permutation mt.(chans) (held mt.(workers));
  i_exit : mt.(exit) = true -> mt.(main) = MainJoins \/ exists e, mt.(main) = MainDone e;
  i_joins : mt.(main) = MainJoins -> mt.(exit) = true /\ sx_exited mt.(mt_se) = true;
  i_left : mt.(exit) = false -> forall w, w ∈ mt.(workers) -> w.(w_phase) = Leaving \/ w.(w_phase) = Gone -> sx_exited mt.(mt_se) = true;
  i_cancel : forall w, w ∈ mt.(workers) -> w.(w_cancel) = mt.(exit);
  i_done : forall e, mt.(main) = MainDone e -> mt.(workers) = [];
  i_zero : forall w, w ∈ mt.(workers) -> w.(w_phase) = Received 0 -> sx_exited mt.(mt_se) = true;
  i_finish : 0 <= mt.(finish)
}.

Lemma start_inv e config s mt : loop_mt e config s = inr mt -> inv mt.
Proof.
  unfold loop_mt. destruct (negb _); [done|]. intros Hs.
  destruct (start_run e (mt_init config s)) as [(ch & c & cs & He & Hcs)|(c & He)]; rewrite He in Hs; cbn in Hs; injection Hs as <-.
  - split; cbn; try done.
    + intros _. split; lia.
    + cbn in Hcs. rewrite Hcs. by destruct ch.
    + intros _ w ->%list_elem_of_singleton [H1|H1]; discriminate H1.
    + by intros w ->%list_elem_of_singleton.
    + by intros w ->%list_elem_of_singleton.
  - split; cbn; try done.
    + intros _. split; [lia|]. intros Hn. by destruct (Hn _ eq_refl).
    + by intros _ w ?%not_elem_of_nil.
    + by intros w ?%not_elem_of_nil.
    + by intros w ?%not_elem_of_nil.
Qed.

(** A thread goes on, and the count follows. *)
Lemma goes_inv i w p mt s b na : inv mt -> mt.(workers) !! i = Some w ->
  (mt.(exit) = false -> na = mt.(numavail) - Z.b2z (avail w) + Z.b2z (avail (at_phase p w))) ->
  (sx_exited mt.(mt_se) = true -> sx_exited s = true) -> (mt.(exit) = false -> p = Leaving \/ p = Gone -> sx_exited s = true) ->
  (p = Received 0 -> sx_exited s = true) ->
  inv (set_counts mt.(numworker) na (goes i (with_fbuf b w) p (set_se s mt))).
Proof.
  intros [H1 H2 H3 H4 H5 H6 H7 H8 H9 H10] Hi Hav Hs Hp Hz. assert (at_phase p (with_fbuf b w) = mk_worker p b w.(w_ch) w.(w_cancel)) as He by done.
  split; cbn; rewrite ?He; try done.
  - intros Hx. destruct (H1 Hx) as [HA HB]. rewrite length_insert, (available_insert _ _ w) by done. split; [done|].
    specialize (Hav Hx). rewrite !available_one. change (avail (mk_worker p b (w_ch w) (w_cancel w))) with (avail (at_phase p w)). lia.
  - rewrite H3. unfold held. apply split_at in Hi as (l1 & l2 & -> & ->). rewrite insert_app_r_alt, Nat.sub_diag by done. by rewrite !omap_app.
  - intros Hj. destruct (H5 Hj). auto.
  - intros Hx x Hin. apply list_elem_of_lookup_1 in Hin as (j & Hj). apply list_lookup_insert_Some in Hj as [(<- & <- & _)|[_ Hj]]; [by apply Hp|].
    intros Hph. apply Hs, (H6 Hx x); [by apply list_elem_of_lookup_2 in Hj | done].
  - intros x Hin. apply list_elem_of_lookup_1 in Hin as (j & Hj). apply list_lookup_insert_Some in Hj as [(<- & <- & _)|[_ Hj]].
    + cbn. apply (H7 w). by apply list_elem_of_lookup_2 in Hi.
    + apply H7. by apply list_elem_of_lookup_2 in Hj.
  - intros e Hd. rewrite (H8 e Hd) in Hi. by destruct i.
  - intros x Hin. apply list_elem_of_lookup_1 in Hin as (j & Hj). apply list_lookup_insert_Some in Hj as [(<- & <- & _)|[_ Hj]]; [by apply Hz|].
    intros Hph. apply Hs, (H9 x); [by apply list_elem_of_lookup_2 in Hj | done].
Qed.

Lemma goes_se i w p mt s b : goes i (with_fbuf b w) p (set_se s mt) = set_counts mt.(numworker) mt.(numavail) (goes i (with_fbuf b w) p (set_se s mt)).
Proof. by destruct mt. Qed.

Lemma goes_same i w p mt na : set_counts mt.(numworker) na (goes i w p mt) = set_counts mt.(numworker) na (goes i (with_fbuf w.(w_fbuf) w) p (set_se mt.(mt_se) mt)).
Proof. by destruct mt, w. Qed.

Lemma goes_eta i w p mt : goes i w p mt = set_counts mt.(numworker) mt.(numavail) (goes i w p mt).
Proof. by destruct mt. Qed.

(** The session as it was. *)
Lemma goes_kept i w p mt na : inv mt -> mt.(workers) !! i = Some w ->
  (mt.(exit) = false -> na = mt.(numavail) - Z.b2z (avail w) + Z.b2z (avail (at_phase p w))) ->
  (mt.(exit) = false -> p = Leaving \/ p = Gone -> sx_exited mt.(mt_se) = true) -> p <> Received 0 ->
  inv (set_counts mt.(numworker) na (goes i w p mt)).
Proof. intros Hinv Hi Hna Hp Hz. rewrite goes_same. by apply goes_inv. Qed.

Lemma inv_error mt e : inv mt -> inv (set_error e mt).
Proof. by intros [H1 H2 H3 H4 H5 H6 H7 H8 H9 H10]; split. Qed.
Lemma inv_finish mt n : 0 <= n -> inv mt -> inv (set_finish n mt).
Proof. by intros Hn [H1 H2 H3 H4 H5 H6 H7 H8 H9 H10]; split. Qed.
Lemma inv_clone_fd mt c : inv mt -> inv (set_clone_fd c mt).
Proof. by intros [H1 H2 H3 H4 H5 H6 H7 H8 H9 H10]; split. Qed.

Lemma not_done mt i w : inv mt -> mt.(workers) !! i = Some w -> forall e, mt.(main) <> MainDone e.
Proof. intros Hinv Hi e Hd. by rewrite (i_done _ Hinv e Hd) in Hi. Qed.

Lemma start_keeps e mt : inv mt -> mt.(exit) = false -> mt.(numworker) < mt.(max_threads) -> (forall e, mt.(main) <> MainDone e) ->
  inv (fuse_loop_start_thread e mt).2.
Proof.
  intros Hinv Hx Hlt Hm. destruct (start_run e mt) as [(ch & c & cs & -> & Hcs)|(c & ->)]; [|by apply inv_clone_fd].
  destruct Hinv as [H1 H2 H3 H4 H5 H6 H7 H8 H9 H10]. set (w := mk_worker Checking sx_empty ch false).
  destruct (H1 Hx) as [Hnw Hna]. destruct (H2 Hx) as [Hmax Hmin]. split; cbn; try done.
  - intros _. rewrite length_app, available_app. cbn [length]. split; [lia|]. rewrite Hna, available_one. change (Z.b2z _) with 1. lia.
  - intros _. specialize (Hmin Hm). split; [lia | intros _; lia].
  - rewrite Hcs, H3. unfold held. rewrite omap_app. destruct ch as [fd|]; cbn [option_list app omap list_omap]; [by rewrite Permutation_app_comm | by rewrite app_nil_r].
  - intros _ x [Hin|Hin%list_elem_of_singleton]%elem_of_app; [by apply H6 | subst x; by intros [?|?]].
  - intros x [Hin|Hin%list_elem_of_singleton]%elem_of_app; [by apply H7 | by subst x].
  - intros e' He. by destruct (Hm e').
  - intros x [Hin|Hin%list_elem_of_singleton]%elem_of_app; [by apply H9 | by subst x].
Qed.

(** ** Every step *)

Lemma no_request_inv i w res mt : inv mt -> mt.(workers) !! i = Some w -> w.(w_phase) = Received res -> res <= 0 -> inv (no_request i w res mt).
Proof.
  intros Hinv Hi Hp Hr. assert (avail w = true) as Ha by (unfold avail; by rewrite Hp). unfold no_request.
  destruct (Z.eqb_spec res (- EINTR)) as [->|Hne].
  - rewrite goes_eta. apply goes_kept; try done; [intros _; rewrite Ha; cbn; lia | by intros _ [?|?]].
  - destruct (Z.ltb_spec res 0) as [Hlt|Hge].
    + assert (goes i w Leaving (set_error res (set_se (sx_exit (mt_se mt)) mt)) =
              set_error res (set_counts mt.(numworker) mt.(numavail) (goes i (with_fbuf w.(w_fbuf) w) Leaving (set_se (sx_exit mt.(mt_se)) mt)))) as -> by (by destruct mt, w).
      apply inv_error, goes_inv; try done; [intros _; rewrite Ha; cbn; lia | intros _; apply exit_exited | intros _ _; apply exit_exited].
    + assert (res = 0) as -> by lia. rewrite goes_eta. apply goes_kept; try done; [intros _; rewrite Ha; cbn; lia|].
      intros _ _. apply (i_zero _ Hinv w); [by apply list_elem_of_lookup_2 in Hi | done].
Qed.

Lemma takes_inv e i w mt res : inv mt -> mt.(workers) !! i = Some w -> w.(w_phase) = Received res -> inv (takes_request e i w mt).2.
Proof.
  intros Hinv Hi Hp. assert (avail w = true) as Ha by (unfold avail; by rewrite Hp). unfold takes_request.
  destruct (exit mt) eqn:Hx; cbn [Datatypes.snd].
  - rewrite goes_eta. apply goes_kept; try done; congruence.
  - set (na := if is_forget w then numavail mt else numavail mt - 1).
    assert ((if is_forget w then goes i w (Working (is_forget w)) mt else set_counts (numworker (goes i w (Working (is_forget w)) mt))
       (numavail (goes i w (Working (is_forget w)) mt) - 1) (goes i w (Working (is_forget w)) mt))
       = set_counts mt.(numworker) na (goes i w (Working (is_forget w)) mt)) as -> by (unfold na; destruct (is_forget w); by destruct mt).
    set (mt1 := set_counts _ na _).
    assert (inv mt1) as Hinv1.
    { apply goes_kept; try done; [|by intros _ [?|?]]. intros _. rewrite Ha. unfold na, avail. cbn. destruct (is_forget w); cbn; lia. }
    destruct (_ && _) eqn:Hb; [|done]. apply andb_prop in Hb as [_ Hlt%Z.ltb_lt].
    pose proof (start_keeps e mt1 Hinv1 Hx Hlt (not_done mt i w Hinv Hi)) as Hk. by destruct (fuse_loop_start_thread e mt1).
Qed.

Lemma chans_perm mt i w : inv mt -> mt.(workers) !! i = Some w -> Permutation mt.(chans) (option_list w.(w_ch) ++ held (delete i mt.(workers))).
Proof.
  intros Hinv (l1 & l2 & Hl & ->)%split_at. rewrite (i_chans _ Hinv), Hl, delete_middle. unfold held. rewrite !omap_app. cbn.
  destruct (w_ch w) as [fd|]; [|done]. cbn [option_list app]. by rewrite <- Permutation_middle.
Qed.

(** Too many threads: one goes. *)
Lemma leaves_inv mt i w isforget : inv mt -> mt.(workers) !! i = Some w -> w.(w_phase) = Worked isforget -> mt.(exit) = false -> 1 < mt.(numworker) ->
  let na := if isforget then mt.(numavail) else mt.(numavail) + 1 in
  inv (fuse_chan_put w.(w_ch) (set_counts (mt.(numworker) - 1) (na - 1) (set_workers (delete i mt.(workers)) mt))).
Proof.
  intros Hinv Hi Hp Hx Hnw na. pose proof (chan_put _ _ _ (chans_perm mt i w Hinv Hi)) as Hcs.
  assert (forall x, x ∈ delete i (workers mt) -> x ∈ workers mt) as Hsub by (intros x Hin; by apply list_elem_of_delete_inv in Hin).
  pose proof (not_done mt i w Hinv Hi) as Hm.
  assert (avail w = isforget) as Ha by (unfold avail; by rewrite Hp).
  destruct Hinv as [H1 H2 H3 H4 H5 H6 H7 H8 H9 H10]. destruct (H1 Hx) as [HA HB]. destruct (H2 Hx) as [HC HD].
  assert (zlen (delete i (workers mt)) = zlen (workers mt) - 1) as Hlen.
  { apply split_at in Hi as (l1 & l2 & Hl & ->). rewrite Hl, delete_middle, !length_app. cbn [length]. lia. }
  assert (available (delete i (workers mt)) = na - 1) as Hav.
  { rewrite (available_delete _ _ w Hi), available_one, Ha. unfold na. destruct isforget; cbn [Z.b2z]; lia. }
  assert (forall P : fuse_mt S B -> Prop, P (set_chans (match w.(w_ch) with None => mt.(chans) | Some fd => close_fd fd mt.(chans) end)
     (set_counts (numworker mt - 1) (na - 1) (set_workers (delete i (workers mt)) mt))) ->
     P (fuse_chan_put (w_ch w) (set_counts (numworker mt - 1) (na - 1) (set_workers (delete i (workers mt)) mt)))) as Heq by (intros P; by destruct (w_ch w)).
  apply Heq. split; cbn; try done.
  - intros _. split; lia.
  - intros _. split; [lia | intros _; lia].
  - intros _ x Hin%Hsub. by apply H6.
  - intros x Hin%Hsub. by apply H7.
  - intros e He. by destruct (Hm e).
  - intros x Hin%Hsub. by apply H9.
Qed.

Lemma done_inv i w isforget mt : inv mt -> mt.(workers) !! i = Some w -> w.(w_phase) = Worked isforget -> inv (done_request i w isforget mt).
Proof.
  intros Hinv Hi Hp. unfold done_request. set (na := if isforget then numavail mt else numavail mt + 1).
  assert ((if isforget then mt else set_counts (numworker mt) (numavail mt + 1) mt) = set_counts (numworker mt) na mt) as -> by (unfold na; destruct isforget; by destruct mt).
  assert (avail w = isforget) as Ha by (unfold avail; by rewrite Hp).
  assert (mt.(exit) = false -> na = numavail mt - Z.b2z (avail w) + 1) as Hna by (intros _; unfold na; rewrite Ha; destruct isforget; cbn; lia).
  destruct (_ && _) eqn:Hb.
  - apply andb_prop in Hb as [_ Hlt%Z.ltb_lt]. cbn in Hlt. change (exit (set_counts _ na mt)) with (exit mt). destruct (exit mt) eqn:Hx.
    + change (goes i w Gone (set_counts (numworker mt) na mt)) with (set_counts (numworker mt) na (goes i w Gone mt)).
      apply goes_kept; try done; congruence.
    + apply (leaves_inv mt i w isforget Hinv Hi Hp Hx Hlt).
  - change (goes i w Checking (set_counts (numworker mt) na mt)) with (set_counts (numworker mt) na (goes i w Checking mt)).
    apply goes_kept; try done. by intros _ [?|?].
Qed.
End facts.
End FuseLoopMtFacts.

Module FuseLoopMtRuns.
Import FuseTypes FuseKernel FuseLoopMt FuseLoopMtFacts.

Section runs.
Context {S B : Type} `{HL : SessionLaws S B}.
Implicit Types (mt : fuse_mt S B) (w : fuse_worker B) (l : list (fuse_worker B)).

(** ** The invariant *)

Lemma main_inv mt m : inv mt -> mt.(exit) = false -> m = MainWaits \/ m = MainChecks -> (forall e, mt.(main) <> MainDone e) -> inv (set_main m mt).
Proof.
  intros [H1 H2 H3 H4 H5 H6 H7 H8 H9 H10] Hx Hm Hn. split; cbn; try done.
  - intros _. destruct (H2 Hx). split; [done | auto].
  - congruence.
  - intros ->. by destruct Hm.
  - intros e ->. by destruct Hm.
Qed.

Lemma cancels_inv mt : inv mt -> sx_exited mt.(mt_se) = true -> (forall e, mt.(main) <> MainDone e) -> inv (cancels mt).
Proof.
  intros [H1 H2 H3 H4 H5 H6 H7 H8 H9 H10] Hs Hm. split; cbn; try done.
  - rewrite H3. unfold held. clear. induction (workers mt) as [|w l IH]; [done|]. cbn. by destruct (w_ch w); rewrite IH.
  - by left.
  - by intros w (w' & -> & _)%list_elem_of_fmap.
Qed.

Lemma join_inv mt w l : inv mt -> mt.(main) = MainJoins -> mt.(workers) = w :: l -> inv (fuse_join_worker w l mt).
Proof.
  intros Hinv Hm Hw. assert (mt.(workers) !! 0%nat = Some w) as Hi by by rewrite Hw.
  pose proof (chan_put _ _ _ (chans_perm mt 0 w Hinv Hi)) as Hcs. rewrite Hw in Hcs. cbn [delete list_delete] in Hcs.
  destruct Hinv as [H1 H2 H3 H4 H5 H6 H7 H8 H9 H10]. destruct (H5 Hm) as [Hx Hs]. rewrite Hw in *.
  assert (forall P : fuse_mt S B -> Prop, P (set_chans (match w.(w_ch) with None => mt.(chans) | Some fd => close_fd fd mt.(chans) end) (set_workers l mt)) ->
     P (fuse_join_worker w l mt)) as Heq by (intros P; unfold fuse_join_worker; destruct (w_ch w); by destruct mt).
  apply Heq. split; cbn; try done; try congruence.
  - intros x Hin. apply H7. by right.
Qed.

Lemma return_inv mt e : inv mt -> mt.(main) = MainJoins -> mt.(workers) = [] -> inv (returns e mt).
Proof.
  intros [H1 H2 H3 H4 H5 H6 H7 H8 H9 H10] Hm Hw. destruct (H5 Hm) as [Hx Hs]. unfold returns. split; cbn; try done; try congruence.
  - intros _. right. by eexists.
  - rewrite Hw. by intros x ?%not_elem_of_nil.
Qed.

Lemma step_inv ev mt mt' : step ev mt mt' -> inv mt -> inv mt'.
Proof.
  intros Hst Hinv. destruct Hst as [i w mt Hi Hp|i w mt res b s Hi Hp Hr|i w mt Hi Hp Hc|i w mt res Hi Hp Hr|i w mt res e Hi Hp Hr|i w mt isf s Hi Hp Hr|i w mt isf Hi Hp|i w mt Hi Hp|mt Hm|mt Hm Hf|mt Hm|mt|w l mt Hm Hw Hp|mt Hm Hw].
  - assert (avail w = true) as Ha by (unfold avail; by rewrite Hp). rewrite goes_eta. destruct (sx_exited (mt_se mt)) eqn:Hx; apply goes_kept; try done.
    + intros _. rewrite Ha. cbn. lia.
    + intros _. rewrite Ha. cbn. lia.
    + by intros _ [?|?].
  - assert (avail w = true) as Ha by (unfold avail; by rewrite Hp). rewrite goes_se. apply goes_inv; try done.
    + intros _. rewrite Ha. cbn. lia.
    + by apply (receives_kept _ _ _ _ _ _ Hr).
    + by intros _ [?|?].
    + intros He. injection He as ->. by apply (receives_zero _ _ _ _ _ Hr).
  - assert (avail w = true) as Ha by (unfold avail; by rewrite Hp). rewrite goes_eta. apply goes_kept; try done.
    + intros _. rewrite Ha. cbn. lia.
    + intros Hx _. rewrite (i_cancel _ Hinv w) in Hc by (by apply list_elem_of_lookup_2 in Hi). congruence.
  - by apply no_request_inv.
  - by apply (takes_inv e i w mt res).
  - assert (goes i w (Worked isf) (set_se s mt) = set_counts mt.(numworker) mt.(numavail) (goes i (with_fbuf w.(w_fbuf) w) (Worked isf) (set_se s mt))) as -> by (by destruct mt, w).
    apply goes_inv; try done.
    + intros _. unfold avail. rewrite Hp. cbn. lia.
    + by apply (processes_kept _ _ _ Hr).
    + by intros _ [?|?].
  - by apply done_inv.
  - apply inv_finish; [pose proof (i_finish _ Hinv); lia|]. assert (avail w = true) as Ha by (unfold avail; by rewrite Hp). rewrite goes_eta. apply goes_kept; try done.
    + intros _. rewrite Ha. cbn. lia.
    + intros Hx _. apply (i_left _ Hinv Hx w); [by apply list_elem_of_lookup_2 in Hi | by left].
  - assert (mt.(exit) = false) as Hx.
    { destruct (exit mt) eqn:Hx; [|done]. destruct (i_exit _ Hinv Hx) as [?|[e ?]]; congruence. }
    destruct (sx_exited (mt_se mt)) eqn:Hs; [apply cancels_inv | apply main_inv]; auto; congruence.
  - apply inv_finish; [lia|]. assert (mt.(exit) = false) as Hx.
    { destruct (exit mt) eqn:Hx; [|done]. destruct (i_exit _ Hinv Hx) as [?|[e ?]]; congruence. }
    apply main_inv; auto; congruence.
  - assert (mt.(exit) = false) as Hx.
    { destruct (exit mt) eqn:Hx; [|done]. destruct (i_exit _ Hinv Hx) as [?|[e ?]]; congruence. }
    apply main_inv; auto; congruence.
  - destruct Hinv as [H1 H2 H3 H4 H5 H6 H7 H8 H9 H10]. split; cbn; try done.
    + intros Hj. split; [by apply H5 | apply exit_exited].
    + intros _ w _ _. apply exit_exited.
    + intros w _ _. apply exit_exited.
  - by apply join_inv.
  - by apply return_inv.
Qed.

Lemma run_inv P mt mt' : run P mt mt' -> inv mt -> inv mt'.
Proof. induction 1 as [|? ? ? ev _ IH _ Hst]; [done|]. intros Hi. by apply (step_inv ev _ _ Hst), IH. Qed.

Lemma run_trans P mt1 mt2 mt3 : run P mt1 mt2 -> run P mt2 mt3 -> run P mt1 mt3.
Proof. intros H1. induction 1 as [|? ? ? ev _ IH Hp Hst]; [done|]. by apply (run_step P _ mt0 _ ev); [apply IH | |]. Qed.

Lemma run_first (P : event -> Prop) ev mt1 mt2 mt3 : P ev -> step ev mt1 mt2 -> run P mt2 mt3 -> run P mt1 mt3.
Proof. intros Hp Hst. apply run_trans. by apply (run_step P mt1 mt1 mt2 ev); [apply run_refl | |]. Qed.

Lemma reaches_inv P config s mt : reaches P config s mt -> inv mt.
Proof. intros (e & mt0 & Hs & Hr). by apply (run_inv _ _ _ Hr), (start_inv e config s). Qed.

(** ** What stays *)

Lemma start_const e mt : (fuse_loop_start_thread e mt).2.(max_idle) = mt.(max_idle) /\ (fuse_loop_start_thread e mt).2.(max_threads) = mt.(max_threads).
Proof. by destruct (start_run e mt) as [(ch & c & cs & -> & _)|(c & ->)]. Qed.

Lemma takes_const e i w mt : (takes_request e i w mt).2.(max_idle) = mt.(max_idle) /\ (takes_request e i w mt).2.(max_threads) = mt.(max_threads).
Proof.
  unfold takes_request. destruct (exit mt); [done|].
  set (mt1 := if is_forget w then _ else _). assert (mt1.(max_idle) = mt.(max_idle) /\ mt1.(max_threads) = mt.(max_threads)) as [Ha Hb] by (unfold mt1; by destruct (is_forget w)).
  destruct (_ && _); [|done]. rewrite <- Ha, <- Hb. pose proof (start_const e mt1) as Hc. by destruct (fuse_loop_start_thread e mt1).
Qed.

Lemma step_const ev mt mt' : step ev mt mt' -> mt'.(max_idle) = mt.(max_idle) /\ mt'.(max_threads) = mt.(max_threads).
Proof.
  intros Hst. destruct Hst; try done; try (by destruct (sx_exited _)).
  - unfold no_request. destruct (_ =? _); [done|]. by destruct (_ <? 0).
  - apply takes_const.
  - unfold done_request. set (mt1 := if isforget then _ else _). assert (mt1.(max_idle) = mt.(max_idle) /\ mt1.(max_threads) = mt.(max_threads)) as [Ha Hb] by (unfold mt1; by destruct isforget).
    destruct (_ && _); [destruct (exit mt1); [done|]|done]. by destruct (w_ch w).
  - unfold fuse_join_worker. by destruct (w_ch w).
Qed.

Lemma reaches_const P config s mt : reaches P config s mt -> mt.(max_idle) = config.(max_idle_threads) /\ mt.(max_threads) = i32 config.(cfg_max_threads).
Proof.
  intros (e & mt0 & Hs & Hr). assert (mt0.(max_idle) = config.(max_idle_threads) /\ mt0.(max_threads) = i32 config.(cfg_max_threads)) as [Ha Hb].
  { unfold loop_mt in Hs. destruct (negb _); [done|]. destruct (start_const e (mt_init config s)) as [Ha Hb].
    destruct (fuse_loop_start_thread e _) as [err mt1]. cbn [Datatypes.snd] in *. injection Hs as <-. by destruct (err =? 0). }
  clear Hs. induction Hr as [|mt0 mt1 mt2 ev Hr IH _ Hst]; [done|]. destruct (IH Ha Hb) as [HC HD], (step_const _ _ _ Hst) as [HE HF]. by rewrite HE, HF.
Qed.

(** ** Somebody listens *)

Definition staffed mt : Prop := 1 <= mt.(numavail) \/ mt.(max_threads) <= mt.(numworker).

Lemma takes_staffed e i w mt res : inv mt -> mt.(workers) !! i = Some w -> w.(w_phase) = Received res -> mt.(exit) = false ->
  (takes_request e i w mt).1 = false -> staffed (takes_request e i w mt).2.
Proof.
  intros Hinv Hi Hp Hx. assert (avail w = true) as Ha by (unfold avail; by rewrite Hp). unfold takes_request. rewrite Hx.
  destruct (i_counts _ Hinv Hx) as [Hnw Hna]. pose proof (available_delete _ _ w Hi) as Hd. rewrite available_one, Ha in Hd. cbn [Z.b2z] in Hd.
  pose proof (available_nonneg (delete i (workers mt))) as Hge.
  set (mt1 := if is_forget w then _ else _).
  assert (0 <= mt1.(numavail) /\ mt1.(numworker) = mt.(numworker) /\ mt1.(max_threads) = mt.(max_threads)) as (H1 & H2 & H3).
  { unfold mt1. destruct (is_forget w); cbn; split_and!; try done; lia. }
  destruct (_ && _) eqn:Hb.
  - destruct (start_run e mt1) as [(ch & c & cs & -> & _)|(c & ->)]; [|done]. intros _. left. cbn. lia.
  - intros _. cbn [Datatypes.snd]. unfold staffed. apply andb_false_iff in Hb as [Hb%Z.eqb_neq|Hb%Z.ltb_ge]; [left | right]; lia.
Qed.

Lemma done_staffed i w isforget mt : inv mt -> mt.(workers) !! i = Some w -> w.(w_phase) = Worked isforget -> mt.(exit) = false ->
  mt.(max_idle) = - 1 \/ 1 <= mt.(max_idle) -> staffed (done_request i w isforget mt).
Proof.
  intros Hinv Hi Hp Hx Hidle. assert (avail w = isforget) as Ha by (unfold avail; by rewrite Hp).
  destruct (i_counts _ Hinv Hx) as [Hnw Hna]. pose proof (available_delete _ _ w Hi) as Hd. rewrite available_one, Ha in Hd.
  pose proof (available_nonneg (delete i (workers mt))) as Hge. unfold done_request. set (mt1 := if isforget then _ else _).
  assert (1 <= mt1.(numavail) /\ mt1.(max_idle) = mt.(max_idle) /\ mt1.(exit) = mt.(exit)) as (H1 & H2 & H3).
  { unfold mt1. destruct isforget; cbn [Z.b2z] in Hd; cbn; split_and!; try done; lia. }
  left. destruct (_ && _) eqn:Hb; [|done]. rewrite H3, Hx. apply andb_prop in Hb as [Hb _]. apply andb_prop in Hb as [Hb1%negb_true_iff%Z.eqb_neq Hb2%Z.ltb_lt].
  assert (1 <= mt1.(numavail) - 1) as Hr by lia. by destruct (w_ch w).
Qed.

Lemma step_staffed ev mt mt' : step ev mt mt' -> inv mt -> ev <> EStartFailed -> mt.(max_idle) = - 1 \/ 1 <= mt.(max_idle) ->
  (mt.(exit) = false -> staffed mt) -> mt'.(exit) = false -> staffed mt'.
Proof.
  intros Hst Hinv He Hidle HS Hx'. destruct Hst as [i w mt Hi Hp|i w mt res b s Hi Hp Hr|i w mt Hi Hp Hc|i w mt res Hi Hp Hr|i w mt res e Hi Hp Hr|i w mt isf s Hi Hp Hr|i w mt isf Hi Hp|i w mt Hi Hp|mt Hm|mt Hm Hf|mt Hm|mt|w l mt Hm Hw Hp|mt Hm Hw];
    try (by apply HS).
  - unfold no_request in *. destruct (res =? - EINTR); [by apply HS|]. destruct (res <? 0); by apply HS.
  - destruct (exit mt) eqn:Hx; [unfold takes_request in Hx'; rewrite Hx in Hx'; cbn in Hx'; congruence|].
    destruct (takes_request e i w mt).1 eqn:Ht; [done|]. by apply (takes_staffed e i w mt res).
  - destruct (exit mt) eqn:Hx; [|by apply done_staffed]. exfalso. unfold done_request in Hx'.
    set (mt1 := if isf then _ else _) in Hx'. assert (mt1.(exit) = true) as H1 by (unfold mt1; by destruct isf).
    destruct (_ && _) in Hx'; [rewrite H1 in Hx'|]; cbn in Hx'; congruence.
  - destruct (sx_exited (mt_se mt)); [done | by apply HS].
  - unfold fuse_join_worker in *. destruct (w_ch w); cbn in Hx'; destruct (i_joins _ Hinv Hm); congruence.
Qed.

Lemma start_staffed e config s mt : loop_mt e config s = inr mt -> (forall err, mt.(main) <> MainDone err) -> staffed mt.
Proof.
  unfold loop_mt. destruct (negb _); [done|]. intros Hs Hm.
  destruct (start_run e (mt_init config s)) as [(ch & c & cs & He & Hcs)|(c & He)]; rewrite He in Hs; cbn in Hs; injection Hs as <-; [by left | by destruct (Hm _ eq_refl)].
Qed.

(** ** The end is noticed *)

(** A thread that is not in the call that receives, and has not ended. *)
Definition about w : Prop := match w.(w_phase) with Receiving | Gone => False | _ => True end.
Definition noticed mt : Prop := 0 < mt.(finish) \/ exists w, w ∈ mt.(workers) /\ about w.

Lemma goes_about i w0 w p mt : mt.(workers) !! i = Some w0 -> about (at_phase p w) -> exists w', w' ∈ (goes i w p mt).(workers) /\ about w'.
Proof.
  intros Hi Ha. exists (at_phase p w). split; [|done]. apply (list_elem_of_lookup_2 _ i). cbn. apply list_lookup_insert_eq. by apply lookup_lt_Some in Hi.
Qed.

Lemma takes_about e i w mt : mt.(workers) !! i = Some w -> mt.(exit) = false -> exists w', w' ∈ (takes_request e i w mt).2.(workers) /\ about w'.
Proof.
  intros Hi Hx. unfold takes_request. rewrite Hx. destruct (goes_about i w w (Working (is_forget w)) mt Hi) as (w' & Hin & Ha); [done|].
  exists w'. split; [|done]. set (mt1 := if is_forget w then _ else _).
  assert (w' ∈ mt1.(workers)) as Hin1 by (unfold mt1; by destruct (is_forget w)).
  destruct (_ && _); [|done]. destruct (start_run e mt1) as [(ch & c & cs & -> & _)|(c & ->)]; [|done]. apply elem_of_app. by left.
Qed.

Lemma step_noticed ev mt mt' : step ev mt mt' -> inv mt -> ev <> ESignal -> mt.(max_idle) = - 1 ->
  (mt.(main) = MainWaits -> sx_exited mt.(mt_se) = true -> noticed mt) ->
  mt'.(main) = MainWaits -> sx_exited mt'.(mt_se) = true -> noticed mt'.
Proof.
  intros Hst Hinv He Hidle HN Hm' Hs'. destruct Hst as [i w mt Hi Hp|i w mt res b s Hi Hp Hr|i w mt Hi Hp Hc|i w mt res Hi Hp Hr|i w mt res e Hi Hp Hr|i w mt isf s Hi Hp Hr|i w mt isf Hi Hp|i w mt Hi Hp|mt Hm|mt Hm Hf|mt Hm|mt|w l mt Hm Hw Hp|mt Hm Hw];
    try done.
  - right. cbn in Hs'. rewrite Hs'. by apply (goes_about i w).
  - right. by apply (goes_about i w (with_fbuf b w) (Received res) (set_se s mt)).
  - rewrite (i_cancel _ Hinv w) in Hc by (by apply list_elem_of_lookup_2 in Hi). destruct (i_exit _ Hinv Hc) as [?|[? ?]]; cbn in Hm'; congruence.
  - right. unfold no_request. destruct (Z.eqb_spec res (- EINTR)); [by apply (goes_about i w w Checking mt)|].
    apply (goes_about i w w Leaving); [|done]. by destruct (res <? 0).
  - right. apply takes_about; [done|]. destruct (exit mt) eqn:Hx; [|done]. exfalso. unfold takes_request in Hm'. rewrite Hx in Hm'.
    destruct (i_exit _ Hinv Hx) as [?|[? ?]]; cbn in Hm'; congruence.
  - right. by apply (goes_about i w).
  - right. unfold done_request. set (mt1 := if isf then _ else _).
    assert (mt1.(max_idle) = - 1 /\ mt1.(workers) = mt.(workers)) as [H1 H2] by (unfold mt1; by destruct isf).
    rewrite H1. cbn [negb Z.eqb andb]. apply (goes_about i w); [by rewrite H2 | done].
  - left. cbn. pose proof (i_finish _ Hinv). lia.
  - destruct (sx_exited (mt_se mt)) eqn:Hs; [done|]. cbn in Hs'. congruence.
  - unfold fuse_join_worker in Hm'. destruct (w_ch w); cbn in Hm'; congruence.
Qed.

(** ** The loop ends *)

Definition weight w : nat :=
  match w.(w_phase) with Receiving | Working _ => 5 | Received _ | Worked _ => 4 | Checking => 3 | Leaving => 2 | Gone => 1 end.
Definition weights l : nat := sum_list_with weight l.
Definition measure mt : nat := weights mt.(workers) + match mt.(main) with MainJoins => 1 | _ => 0 end.

Lemma weights_insert l i w w' : l !! i = Some w -> (weight w' < weight w)%nat -> (weights (<[i := w']> l) < weights l)%nat.
Proof.
  intros (l1 & l2 & -> & ->)%split_at Hw. rewrite insert_app_r_alt, Nat.sub_diag by done. change (<[0%nat := w']> (w :: l2)) with (w' :: l2).
  unfold weights. rewrite !sum_list_with_app. cbn. lia.
Qed.

Lemma goes_less i w0 w p mt : mt.(workers) !! i = Some w0 -> (weight (at_phase p w) < weight w0)%nat -> (measure (goes i w p mt) < measure mt)%nat.
Proof.
  intros Hi Hw. apply (weights_insert _ _ _ (at_phase p w)) in Hi; [|done]. unfold measure, goes. cbn [set_workers workers main]. destruct (main mt); lia.
Qed.

Lemma step_less ev mt mt' : step ev mt mt' -> inv mt -> mt.(main) = MainJoins -> ev <> ESignal -> (measure mt' < measure mt)%nat.
Proof.
  intros Hst Hinv Hj He. destruct (i_joins _ Hinv Hj) as [Hx Hs]. destruct Hst as [i w mt Hi Hp|i w mt res b s Hi Hp Hr|i w mt Hi Hp Hc|i w mt res Hi Hp Hr|i w mt res e Hi Hp Hr|i w mt isf s Hi Hp Hr|i w mt isf Hi Hp|i w mt Hi Hp|mt Hm|mt Hm Hf|mt Hm|mt|w l mt Hm Hw Hp|mt Hm Hw];
    try congruence.
  - rewrite Hs. apply (goes_less i w); [done|]. unfold weight. rewrite Hp. cbn. lia.
  - apply (goes_less i w (with_fbuf b w) (Received res) (set_se s mt)); [done|]. unfold weight. rewrite Hp. cbn. lia.
  - apply (goes_less i w); [done|]. unfold weight. rewrite Hp. cbn. lia.
  - unfold no_request. destruct (res =? - EINTR).
    + apply (goes_less i w); [done|]. unfold weight. rewrite Hp. cbn. lia.
    + assert (measure (goes i w Leaving mt) < measure mt)%nat as Hl by (apply (goes_less i w); [done|]; unfold weight; rewrite Hp; cbn; lia).
      by destruct (res <? 0).
  - unfold takes_request. rewrite Hx. apply (goes_less i w); [done|]. unfold weight. rewrite Hp. cbn. lia.
  - apply (goes_less i w w (Worked isf) (set_se s mt)); [done|]. unfold weight. rewrite Hp. cbn. lia.
  - unfold done_request. set (mt1 := if isf then _ else _).
    assert (mt1.(exit) = true /\ mt1.(workers) !! i = Some w /\ measure mt1 = measure mt) as (H1 & H2 & H3) by (unfold mt1; by destruct isf).
    rewrite H1, <- H3. destruct (_ && _); apply (goes_less i w); try done; unfold weight; rewrite Hp; cbn; lia.
  - apply (goes_less i w w Gone mt Hi). unfold weight. rewrite Hp. cbn. lia.
  - assert (measure (fuse_join_worker w l mt) = measure (set_workers l mt)) as -> by (unfold fuse_join_worker; by destruct (w_ch w)).
    unfold measure. cbn. rewrite Hw. cbn. assert (weight w = 1%nat) as -> by (unfold weight; by rewrite Hp). lia.
  - unfold measure, returns. cbn. rewrite Hj, Hw. cbn. lia.
Qed.

(** Once the main thread joins nothing blocks, as long as serving a request comes to
    an end. *)
Lemma joins_goes_on mt : (forall (s : S) (b : B), exists s', sx_processes s b s') -> inv mt -> mt.(main) = MainJoins ->
  exists ev mt', (ev = EWorker \/ ev = EMain) /\ step ev mt mt'.
Proof.
  intros Htot Hinv Hj. destruct (i_joins _ Hinv Hj) as [Hx Hs].
  destruct (workers mt) as [|w l] eqn:Hw; [eexists EMain, _; split; [by right | by apply st_return]|].
  assert (mt.(workers) !! 0%nat = Some w) as Hi by by rewrite Hw.
  destruct (w_phase w) as [| |res|isf|isf| |] eqn:Hp.
  - eexists EWorker, _. split; [by left | by apply (st_check 0 w)].
  - eexists EWorker, _. split; [by left|]. apply (st_cancelled 0 w); [done | done|]. rewrite (i_cancel _ Hinv w); [done | by apply list_elem_of_lookup_2 in Hi].
  - destruct (Z.le_gt_cases res 0).
    + eexists EWorker, _. split; [by left | by apply (st_no_request 0 w mt res)].
    + pose (e := mk_start_env true None 0 0 true true). exists EWorker, (takes_request e 0 w mt).2. split; [by left|].
      pose proof (st_takes 0 w mt res e Hi Hp ltac:(lia)) as Hst.
      assert ((takes_request e 0 w mt).1 = false) as Hf by (unfold takes_request; by rewrite Hx). by rewrite Hf in Hst.
  - destruct (Htot (mt_se mt) (w_fbuf w)) as [s' Hs']. eexists EWorker, _. split; [by left | by apply (st_process 0 w mt isf s')].
  - eexists EWorker, _. split; [by left | by apply (st_done 0 w mt isf)].
  - eexists EWorker, _. split; [by left | by apply (st_post 0 w)].
  - eexists EMain, _. split; [by right | by apply (st_join w l)].
Qed.

(** The end of the loop leaves nothing behind. *)
Lemma done_clean P config s mt err : reaches P config s mt -> mt.(main) = MainDone err -> mt.(workers) = [] /\ mt.(chans) = [].
Proof.
  intros Hr Hm. pose proof (reaches_inv _ _ _ _ Hr) as Hinv. pose proof (i_done _ Hinv err Hm) as Hw. split; [done|].
  pose proof (i_chans _ Hinv) as Hc. rewrite Hw in Hc. by apply Permutation_nil_r in Hc.
Qed.
End runs.
End FuseLoopMtRuns.
