(* ===== verification/FuseStart.v ===== *)
(** Making, running and ending a file system: src/fuse-3.17.2/lib/fuse.c from
    fuse_register_module to fuse_destroy, fuse_session_new_versioned and
    fuse_session_destroy of lib/fuse_lowlevel.c, the handlers of lib/fuse_signals.c, and
    fuse_main_real_versioned of lib/helper.c.  Modules in files of their own and the
    module iconv are not modelled, and neither is the text of the help. *)
From S2P Require Import Prelude.
From S2P Require Import CLib.
From S2P Require Import FuseTypes.
From S2P Require Import FuseBuf.
From S2P Require Import FuseFs.
From S2P Require Import FuseOpt.
From S2P Require Import FuseCmdline.
From S2P Require Import NodeTable.
From S2P Require Import FuseNodes.
From S2P Require Import FusePaths.
From S2P Require Import FuseQueue.
From S2P Require Import FuseDirents.
From S2P Require Import FuseLib.
From S2P Require Import FuseLowlevel.
From S2P Require Import FuseSession.
From S2P Require Import FuseLoopMt.
From S2P Require Import FuseSubdir.
From S2P Require Import FuseProcess.
From S2P Require Import FuseMount.
From Stdlib Require Import QArith.
#[global] Close Scope Q_scope.
#[global] Open Scope Z_scope.
#[global] Open Scope c_scope.
#[global] Open Scope prog_scope.

Module FuseStart.
Import FuseTypes FuseBuf FuseFs FuseOpt FuseCmdline NodeTable FuseNodes FusePaths FuseQueue FuseDirents FuseLib FuseLowlevel FuseSession FuseLoopMt
  FuseSubdir FuseProcess FuseMount FuseSignals.

(** ** Definitions *)

#[local] Abbreviation P := (prog process).

(** *** The options of the library *)

(** [struct fuse_config], the offsets of the fields with options *)
Definition c_set_gid : Z := 0.
Definition c_gid : Z := 4.
Definition c_set_uid : Z := 8.
Definition c_uid : Z := 12.
Definition c_set_mode : Z := 16.
Definition c_umask : Z := 20.
Definition c_entry_timeout : Z := 24.
Definition c_negative_timeout : Z := 32.
Definition c_attr_timeout : Z := 40.
Definition c_remember : Z := 56.
Definition c_kernel_cache : Z := 76.
Definition c_auto_cache : Z := 80.
Definition c_ac_attr_timeout_set : Z := 84.
Definition c_ac_attr_timeout : Z := 88.
Definition c_show_help : Z := 100.
Definition c_modules : Z := 104.
Definition c_debug : Z := 112.
Definition c_fmask : Z := 116.
Definition c_dmask : Z := 120.
Definition c_no_rofd_flush : Z := 124.
Definition c_parallel_direct_writes : Z := 128.

Definition FUSE_LIB_OPT (t : str) (p v : Z) : fuse_opt := mk_opt (Some t) p v.

Definition fuse_lib_opts : list fuse_opt := [
  FUSE_OPT_KEY (lit "debug") FUSE_OPT_KEY_KEEP;
  FUSE_OPT_KEY (lit "-d") FUSE_OPT_KEY_KEEP;
  FUSE_LIB_OPT (lit "debug") c_debug 1;
  FUSE_LIB_OPT (lit "-d") c_debug 1;
  FUSE_LIB_OPT (lit "kernel_cache") c_kernel_cache 1;
  FUSE_LIB_OPT (lit "auto_cache") c_auto_cache 1;
  FUSE_LIB_OPT (lit "noauto_cache") c_auto_cache 0;
  FUSE_LIB_OPT (lit "no_rofd_flush") c_no_rofd_flush 1;
  FUSE_LIB_OPT (lit "umask=") c_set_mode 1;
  FUSE_LIB_OPT (lit "umask=%o") c_umask 0;
  FUSE_LIB_OPT (lit "fmask=") c_set_mode 1;
  FUSE_LIB_OPT (lit "fmask=%o") c_fmask 0;
  FUSE_LIB_OPT (lit "dmask=") c_set_mode 1;
  FUSE_LIB_OPT (lit "dmask=%o") c_dmask 0;
  FUSE_LIB_OPT (lit "uid=") c_set_uid 1;
  FUSE_LIB_OPT (lit "uid=%d") c_uid 0;
  FUSE_LIB_OPT (lit "gid=") c_set_gid 1;
  FUSE_LIB_OPT (lit "gid=%d") c_gid 0;
  FUSE_LIB_OPT (lit "entry_timeout=%lf") c_entry_timeout 0;
  FUSE_LIB_OPT (lit "attr_timeout=%lf") c_attr_timeout 0;
  FUSE_LIB_OPT (lit "ac_attr_timeout=%lf") c_ac_attr_timeout 0;
  FUSE_LIB_OPT (lit "ac_attr_timeout=") c_ac_attr_timeout_set 1;
  FUSE_LIB_OPT (lit "negative_timeout=%lf") c_negative_timeout 0;
  FUSE_LIB_OPT (lit "noforget") c_remember (-1);
  FUSE_LIB_OPT (lit "remember=%u") c_remember 0;
  FUSE_LIB_OPT (lit "modules=%s") c_modules 0;
  FUSE_LIB_OPT (lit "parallel_direct_write=%d") c_parallel_direct_writes 0;
  FUSE_OPT_END
].

Definition fuse_lib_opt_proc : fuse_opt_proc_t := fun d arg key outargs m => Ok (1, d, outargs, m).

(** After calloc, with the values fuse_new starts from. *)
Definition conf_zero : optdata :=
  <[c_modules := VStr None]>
  (<[c_entry_timeout := VDouble 1]> (<[c_attr_timeout := VDouble 1]> (<[c_negative_timeout := VDouble 0]> (<[c_ac_attr_timeout := VDouble 0]>
  (list_to_map ((fun o => (o, VInt 0)) <$> [c_set_gid; c_gid; c_set_uid; c_uid; c_set_mode; c_umask; c_remember; c_kernel_cache; c_auto_cache;
     c_ac_attr_timeout_set; c_show_help; c_debug; c_fmask; c_dmask; c_no_rofd_flush; c_parallel_direct_writes])))))).

Definition FUSE_DEFAULT_INTR_SIGNAL : Z := 10.

Definition get_double (d : optdata) (o : Z) : outcome Q :=
  match d !! o with Some (VDouble q) => Ok q | _ => Fail UninitRead end.

(** The configuration once the options are parsed; the timeout of auto_cache is that of
    attributes unless it is given. *)
Definition config_of (d : optdata) : outcome fuse_config :=
  set_gid <- get_int d c_set_gid ;; gid <- get_int d c_gid ;;
  set_uid <- get_int d c_set_uid ;; uid <- get_int d c_uid ;;
  set_mode <- get_int d c_set_mode ;; umask <- get_int d c_umask ;;
  entry <- get_double d c_entry_timeout ;; negative <- get_double d c_negative_timeout ;; attr <- get_double d c_attr_timeout ;;
  remember <- get_int d c_remember ;;
  kernel_cache <- get_int d c_kernel_cache ;; auto_cache <- get_int d c_auto_cache ;;
  ac_set <- get_int d c_ac_attr_timeout_set ;; ac <- get_double d c_ac_attr_timeout ;;
  fmask <- get_int d c_fmask ;; dmask <- get_int d c_dmask ;;
  no_rofd_flush <- get_int d c_no_rofd_flush ;; parallel <- get_int d c_parallel_direct_writes ;;
  Ok (mk_fuse_config set_gid (u32 gid) set_uid (u32 uid) set_mode umask entry negative attr 0 FUSE_DEFAULT_INTR_SIGNAL
        (i32 remember) 0 0 0 0 kernel_cache auto_cache ac_set (if ac_set =? 0 then attr else ac) 0 fmask dmask no_rofd_flush parallel).

(** *** The options of a session *)

(** [struct fuse_session], the offsets of two fields *)
Definition s_debug : Z := 32.
Definition s_deny_others : Z := 36.

Definition LL_OPTION (t : str) (p v : Z) : fuse_opt := mk_opt (Some t) p v.

Definition fuse_ll_opts : list fuse_opt := [
  LL_OPTION (lit "debug") s_debug 1;
  LL_OPTION (lit "-d") s_debug 1;
  LL_OPTION (lit "--debug") s_debug 1;
  LL_OPTION (lit "allow_root") s_deny_others 1;
  FUSE_OPT_END
].

Definition ll_zero : optdata := <[s_debug := VInt 0]> {[ s_deny_others := VInt 0 ]}.

(** *** Modules *)

Section modules.
Context (env : list (syscall * Z) -> syscall -> Z).

Definition fuse_register_module (name : str) : P Z :=
  ok <-- alloc ;;
  if negb ok then pret (-1)
  else
    copy <-- alloc ;;
    if negb copy then pret (-1)
    else change_p (fun s => set_modules (mk_module name 0 :: s.(fuse_modules)) s.(builtin_modules_registered) s) ;;; pret 0.

(** The first module of the name, one user more. *)
Fixpoint use_module (name : str) (l : list fuse_module) : option (list fuse_module) :=
  match l with
  | [] => None
  | m :: l => if streq name m.(m_name) then Some (mk_module m.(m_name) (m.(m_ctr) + 1) :: l) else cons m <$> use_module name l
  end.

Definition fuse_find_module (name : str) : P bool :=
  s <-- pget ;;
  match use_module name s.(fuse_modules) with
  | Some l => pput (set_modules l s.(builtin_modules_registered) s) ;;; pret true
  | None => pret false
  end.

(** A file that can be loaded is not modelled. *)
Definition fuse_load_so_module (name : str) : P Z :=
  tmp <-- alloc ;;
  if negb tmp then pret (-1)
  else
    so <-- alloc ;;
    if negb so then pret (-1)
    else r <-- sys env (SDlopen (lit "libfusemod_" ++ name ++ lit ".so")) ;; if r <? 0 then pret (-1) else pfail Unmodelled.

Definition fuse_get_module (name : str) : P bool :=
  m <-- fuse_find_module name ;;
  if m : bool then pret true
  else err <-- fuse_load_so_module name ;; if err =? 0 then fuse_find_module name else pret false.

(** One user less; a module without users goes.  None of them is in a file. *)
Fixpoint put_module (name : str) (l : list fuse_module) : list fuse_module :=
  match l with
  | [] => []
  | m :: l =>
      if streq name m.(m_name) then
        let ctr := if 0 <? m.(m_ctr) then m.(m_ctr) - 1 else m.(m_ctr) in
        if ctr =? 0 then l else mk_module m.(m_name) ctr :: l
      else m :: put_module name l
  end.
Definition fuse_put_module (name : str) : P unit :=
  change_p (fun s => set_modules (put_module name s.(fuse_modules)) s.(builtin_modules_registered) s).

(** While there is a module, the first one is put back. *)
Fixpoint put_all (fuel : nat) : P unit :=
  match fuel with O => pfail OutOfFuel | S fuel =>
    s <-- pget ;;
    match s.(fuse_modules) with
    | [] => pret tt
    | m :: _ => fuse_put_module m.(m_name) ;;; put_all fuel
    end
  end.
Definition uses (l : list fuse_module) : nat := foldr (fun m n => (1 + Z.to_nat m.(m_ctr) + n)%nat) 1%nat l.
Definition put_modules : P unit := s <-- pget ;; put_all (uses s.(fuse_modules)).

Definition register_builtin_modules : P unit :=
  s <-- pget ;;
  if s.(builtin_modules_registered) then pret tt
  else
    _ <-- fuse_register_module (lit "subdir") ;;
    _ <-- fuse_register_module (lit "iconv") ;;
    change_p (fun s => set_modules s.(fuse_modules) true s).

Definition fuse_create_context_key : P Z :=
  s <-- pget ;;
  err <-- (if s.(fuse_context_ref) =? 0 then r <-- sys env SKeyCreate ;; pret (r <? 0) else pret false) ;;
  if err : bool then pret (-1) else change_p (fun s => set_context_ref (s.(fuse_context_ref) + 1) s) ;;; pret 0.

Definition fuse_delete_context_key : P unit := change_p (fun s => set_context_ref (s.(fuse_context_ref) - 1) s).
End modules.

(** *** The file system and its modules *)

(** A file system of some state, with its data and that state. *)
Record layer (os : Type) := mk_layer {
  l_app : Type; l_op : fuse_operations (fstate os l_app) fill_state; l_data : Z; l_state : l_app
}.
Arguments mk_layer {os}.
Arguments l_app {os}.
Arguments l_op {os}.
Arguments l_data {os}.
Arguments l_state {os}.

(** What fuse_new makes, and the mount of its session. *)
Record fuse_made (os : Type) `{Syscalls os} := mk_made {
  fm_app : Type; fm_se : fuse_session (os := os) (A := fm_app); fm_mount : mounting
}.
Arguments mk_made {os _}.
Arguments fm_app {os _}.
Arguments fm_se {os _}.
Arguments fm_mount {os _}.

(** The names in "a:b:c". *)
Fixpoint split_modules (cur s : str) : list str :=
  match s with
  | [] => [cur]
  | b :: r => if beq b x3a then cur :: split_modules [] r else split_modules (cur ++ [b]) r
  end.

(** The handler of the signals that end the session, and the one of those that are
    errors, which aborts. *)
Definition exit_handler {os A : Type} `{Syscalls os} (instance : option Z) (sig : Z) : prog (fuse_session (os := os) (A := A)) unit :=
  match instance with
  | None => pret tt
  | Some _ => fuse_session_exit ;;; if sig <? 0 then pfail ProcessExit else change (fun s => set_exit s.(exited) sig s)
  end.
Definition exit_backtrace {os A : Type} `{Syscalls os} (instance : option Z) : prog (fuse_session (os := os) (A := A)) unit :=
  match instance with None => pret tt | Some _ => fuse_session_exit ;;; pfail ProcessExit end.

(** The private data of a module is a pointer that is not null. *)
Definition MODULE_DATA : Z := 1.

Section start.
Context {os : Type} `{Syscalls os}.
Context (env : list (syscall * Z) -> syscall -> Z) (realpath : str -> option str).
#[local] Abbreviation close := (close env).

(** A module is put on top of the file system. *)
Definition fuse_push_module (fs : layer os) (module : str) (args : option fuse_args) : P (option (layer os) * option fuse_args) :=
  m <-- fuse_get_module env module ;;
  if negb m then pret (None, args)
  else if streq module (lit "subdir") then
    let? (d, args) := with_heap (fun m => let! (d, args, m) := subdir_new args [fs.(l_op)] m in Ok ((d, args), m)) in
    match d with
    | Some d => pret (Some (mk_layer (below fs.(l_app)) (subdir_oper d) MODULE_DATA (mk_below fs.(l_state) fs.(l_data))), args)
    | None => fuse_put_module module ;;; pret (None, args)
    end
  else pfail Unmodelled.

Fixpoint push_modules (fs : layer os) (modules : list str) (args : option fuse_args) : P (option (layer os) * option fuse_args) :=
  match modules with
  | [] => pret (Some fs, args)
  | [] :: modules => push_modules fs modules args
  | module :: modules =>
      let? (fs, args) := fuse_push_module fs module args in
      match fs with Some fs => push_modules fs modules args | None => pret (None, args) end
  end.

(** *** A session *)

(** What fuse_session_new makes of the arguments: whether others are denied, the
    options of mounting, and the owner.  [None]: a null pointer. *)
Definition fuse_session_new_versioned (args : option fuse_args) : P (option (bool * optdata * Z) * option fuse_args) :=
  a <-- plift (lift_fault NullDeref args) ;;
  if argc a =? 0 then pret (None, args)
  else
    se <-- alloc ;;
    if negb se then pret (None, args)
    else
      let? (r, args, d) := with_heap (fun m => let! (r, args, d, m) := fuse_opt_parse args ll_zero (Some fuse_ll_opts) None m in Ok ((r, args, d), m)) in
      if r =? -1 then pret (None, args)
      else
        deny <-- plift (get_int d s_deny_others) ;;
        let? (r, args) :=
          (if negb (deny =? 0) then
             a <-- plift (lift_fault NullDeref args) ;;
             with_heap (fun m => let! (r, a, m) := fuse_opt_add_arg a (lit "-oallow_other") m in Ok ((r, Some a), m))
           else pret (0, args)) in
        if r =? -1 then pret (None, args)
        else
          let? (mo, args) := with_heap (fun m => let! (mo, args, m) := parse_mount_opts args m in Ok ((mo, args), m)) in
          match mo with
          | None => pret (None, args)
          | Some mo =>
              a <-- plift (lift_fault NullDeref args) ;;
              if negb (argc a =? 1) then pret (None, fuse_opt_free_args args)
              else
                err <-- sys env SKeyCreate ;;
                if err <? 0 then pret (None, fuse_opt_free_args args)
                else owner <-- sys env SGetuid ;; pret (Some (negb (deny =? 0), mo, owner), args)
          end.

(** The file system is told of the end, and the device is closed. *)
Definition destroy_session (f : fuse_made os) : P (fuse_made os) :=
  let? (_, s) := plift (FuseSession.fuse_session_destroy f.(fm_se)) in
  let fd := f.(fm_mount).(m_fd) in
  (if negb (fd =? -1) then close fd else pret tt) ;;;
  pret (mk_made f.(fm_app) s f.(fm_mount)).

(** *** fuse_new *)

(** The tree of nodes, with the sizes of nodes that the option remember asks for: its
    tables are allocated in the process, its nodes have memory of their own. *)
Definition new_tree (remember clock : Z) (node_memory : list bool) : P (option fuse) :=
  names <-- alloc ;;
  if negb names then pret None
  else ids <-- alloc ;; if negb ids then pret None else plift (fuse_new_nodes remember clock true true node_memory).

(** [h] and [o]: the memory and the system that requests will see; [sends]: what
    sending replies will return. *)
Definition _fuse_new_31 (args : option fuse_args) (fs : layer os) (page clock : Z) (pipes : bool) (node_memory : list bool)
    (h : gmap Z (list cell)) (o : os) (sends : list Z) : P (option (fuse_made os) * option fuse_args) :=
  f <-- alloc ;;
  if negb f then pret (None, args)
  else
    let? (r, args, d) := with_heap (fun m =>
      let! (r, args, d, m) := fuse_opt_parse args conf_zero (Some fuse_lib_opts) (Some fuse_lib_opt_proc) m in Ok ((r, args, d), m)) in
    if r =? -1 then pret (None, args)
    else
      register_builtin_modules ;;;
      key <-- fuse_create_context_key env ;;
      if key =? -1 then pret (None, args)
      else
        ok <-- alloc ;;
        if negb ok then fuse_delete_context_key ;;; pret (None, args)
        else
          modules <-- plift (get_str d c_modules) ;;
          let? (top, args) := push_modules fs (match modules with Some s => split_modules [] s | None => [] end) args in
          match top with
          | None => fuse_delete_context_key ;;; pret (None, args)
          | Some top =>
              conf <-- plift (config_of d) ;;
              let? (made, args) := fuse_session_new_versioned args in
              match made with
              | None => fuse_delete_context_key ;;; pret (None, args)
              | Some (deny, mo, owner) =>
                  tree <-- new_tree conf.(FuseTypes.remember) clock node_memory ;;
                  max_read <-- plift (get_max_read mo) ;;
                  let session f := fuse_session_new (path_ops (given (op_lock _ _ fs.(l_op))))
                    (mk_lib (mk_locker f [] []) (mk_fstate (mk_bstate h o) 0 top.(l_state)) (mk_fs top.(l_op) top.(l_data)) conf 0 ∅ sends [])
                    page max_read pipes deny owner (-1) in
                  match tree with
                  | None => fuse_delete_context_key ;;; pret (None, args)
                  | Some f => pret (Some (mk_made top.(l_app) (session f) (mk_mounting (-1) None mo)), args)
                  end
              end
          end.

(** *** Its end *)

(** The files of nodes that are hidden are removed. *)
Fixpoint unlink_hidden {A} (l : list Z) : prog (lib (os := os) (A := A)) unit :=
  match l with
  | [] => pret tt
  | p :: l =>
      n <-- in_fuse (load_node p) ;;
      (if is_set n.(is_hidden) then
         let? (err, path, _) := in_fuse (try_get_path n.(nodeid) None false false) in
         if err =? 0 then
           path <-- plift (path_arg path) ;; _ <-- in_fs (fun fs => fuse_fs_unlink fs path) ;; pret tt
         else pret tt
       else pret tt) ;;;
      unlink_hidden l
  end.

Fixpoint free_nodes {A} (l : list Z) : prog (lib (os := os) (A := A)) unit :=
  match l with [] => pret tt | p :: l => in_fuse (free_node p) ;;; free_nodes l end.

(** The nodes in the order of the table by number. *)
Definition end_nodes {A} : prog (lib (os := os) (A := A)) unit :=
  s <-- pget ;;
  let l := concat s.(lk).(lf).(id_table).(array) in
  unlink_hidden l ;;; free_nodes l.

(** The signal of interrupts is not modelled. *)
Definition fuse_destroy (f : fuse_made os) : P (fuse_made os) :=
  if is_set f.(fm_se).(userdata).(conf).(intr) then pfail Unmodelled
  else
    let? (_, s) := plift (on_lib end_nodes f.(fm_se)) in
    put_modules ;;;
    f <-- destroy_session (mk_made f.(fm_app) s f.(fm_mount)) ;;
    fuse_delete_context_key ;;;
    pret f.

(** *** Mounting and the loops *)

Definition fuse_mount (fuel : nat) (f : fuse_made os) (mountpoint : option str) : P (Z * fuse_made os) :=
  let? (r, mt) := fuse_session_mount env realpath fuel f.(fm_mount) mountpoint in
  pret (r, mk_made f.(fm_app) (set_fd mt.(m_fd) f.(fm_se)) mt).

Definition fuse_unmount (f : fuse_made os) : P (fuse_made os) :=
  mt <-- fuse_session_unmount env f.(fm_mount) ;; pret (mk_made f.(fm_app) (set_fd mt.(m_fd) f.(fm_se)) mt).

(** Time goes on, in nanoseconds. *)
Definition at_time (t : Z) (f : fuse) : fuse :=
  mk_fuse f.(name_table) f.(id_table) f.(lru_table) f.(ctr) f.(fgeneration) f.(FuseNodes.remember) f.(nodes) t f.(memory).

(** One round of the loop that also forgets: the time, what poll answers when it may
    wait this many milliseconds, and the time after it. *)
Record round := mk_round { r_start : Z; r_poll : Z -> Z; r_end : Z }.

Definition SECOND : Z := 1000000000.

Fixpoint loop_remember {A} (fuel : nat) (rounds : list round) (b : request_buf) (next_clean res : Z) : prog (fuse_session (os := os) (A := A)) Z :=
  match rounds with
  | [] => pfail OutOfFuel
  | t :: rounds =>
      s <-- pget ;;
      if s.(exited) then pret res
      else
        on_lib (in_fuse (f <-- pget ;; pput (at_time t.(r_start) f))) ;;;
        let now := t.(r_start) / SECOND in
        let timeout := if now <? next_clean then u32 (next_clean - now) else 0 in
        let res := t.(r_poll) (i32 (timeout * 1000)) in
        if res =? - EINTR then loop_remember fuel rounds b next_clean (-1)
        else if res <? 0 then pret (-1)
        else if 0 <? res then
          let? (res, b) := fuse_session_receive_buf_internal fuel b in
          if res =? - EINTR then loop_remember fuel rounds b next_clean res
          else if res <=? 0 then pret res
          else
            m <-- plift (lift_fault NullDeref b.(rb_mem)) ;;
            fuse_session_process_buf m b.(rb_size) ;;; loop_remember fuel rounds b next_clean res
        else
          timeout <-- on_lib fuse_clean_cache ;;
          loop_remember fuel rounds b (t.(r_end) / SECOND + timeout) res
  end.

(** [start]: the time. *)
Definition fuse_session_loop_remember {A} (fuel : nat) (start : Z) (rounds : list round) : prog (fuse_session (os := os) (A := A)) Z :=
  res <-- loop_remember fuel rounds (mk_request_buf None 0 0) (start / SECOND) 0 ;;
  fuse_session_reset ;;; pret (if res <? 0 then -1 else 0).

Definition fuse_loop {A} (fuel : nat) (start : Z) (rounds : list round) : prog (fuse_session (os := os) (A := A)) Z :=
  s <-- pget ;;
  if 0 <? s.(userdata).(lk).(lf).(FuseNodes.remember) then fuse_session_loop_remember fuel start rounds
  else fuse_session_loop fuel.

(** *** The main function *)

(** A number that stands for the session. *)
Definition SESSION : Z := 1.

(** The loop of several threads with its configuration is an argument: what a run of it
    returns and leaves. *)
Context (loop_mt : forall A, fuse_loop_config -> fuse_session (os := os) (A := A) -> outcome (Z * fuse_session (os := os) (A := A))).

Definition run_loop (fuel : nat) (start : Z) (rounds : list round) (opts : optdata) (f : fuse_made os) : P (option Z * fuse_made os) :=
  single <-- plift (get_int opts singlethread) ;;
  if negb (single =? 0) then
    let? (res, s) := plift (fuse_loop fuel start rounds f.(fm_se)) in pret (Some res, mk_made f.(fm_app) s f.(fm_mount))
  else
    ok <-- alloc ;;
    match fuse_loop_cfg_create ok with
    | None => pret (None, f)
    | Some config =>
        clone <-- plift (get_int opts FuseCmdline.clone_fd) ;;
        idle <-- plift (get_int opts FuseCmdline.max_idle_threads) ;;
        threads <-- plift (get_int opts FuseCmdline.max_threads) ;;
        let config := fuse_loop_cfg_set_clone_fd config clone in
        let config := fuse_loop_cfg_set_idle_threads config idle in
        let config := fuse_loop_cfg_set_max_threads config threads in
        let? (res, s) := plift (loop_mt _ config f.(fm_se)) in pret (Some res, mk_made f.(fm_app) s f.(fm_mount))
    end.

(** From the session on: the exit code, and the session that is destroyed. *)
Definition mount_and_run (fuel : nat) (start : Z) (rounds : list round) (opts : optdata) (mountpoint : str) (f : fuse_made os) : P (Z * fuse_made os) :=
  let? (r, f) := fuse_mount fuel f (Some mountpoint) in
  if negb (r =? 0) then f <-- fuse_destroy f ;; pret (4, f)
  else
    foreground <-- plift (get_int opts foreground) ;;
    r <-- fuse_daemonize env foreground ;;
    let? (res, f) :=
      (if negb (r =? 0) then pret (5, f)
       else
         r <-- fuse_set_signal_handlers env SESSION ;;
         if negb (r =? 0) then pret (6, f)
         else
           let? (res, f) := run_loop fuel start rounds opts f in
           match res with
           | None => pret (7, f)
           | Some res => fuse_remove_signal_handlers env SESSION ;;; pret (if res =? 0 then 0 else 8, f)
           end) in
    f <-- fuse_unmount f ;;
    f <-- fuse_destroy f ;;
    pret (res, f).

Definition fuse_main_real_versioned (argv : list str) (fs : layer os) (page clock : Z) (pipes : bool) (node_memory : list bool)
    (h : gmap Z (list cell)) (o : os) (sends : list Z) (fuel : nat) (rounds : list round) : P (Z * option (fuse_made os)) :=
  let? (r, args, opts) := with_heap (fun m =>
    let! (r, args, opts, m) := fuse_parse_cmdline_312 realpath (FUSE_ARGS_INIT argv) m in Ok ((r, args, opts), m)) in
  if negb (r =? 0) then pret (1, None)
  else
    version <-- plift (get_int opts show_version) ;;
    help <-- plift (get_int opts show_help) ;;
    mountpoint <-- plift (get_str opts mountpoint) ;;
    if negb (version =? 0) then fuse_mount_version env ;;; pret (0, None)
    else if negb (help =? 0) then pret (0, None)
    else
      match mountpoint with
      | None => pret (2, None)
      | Some mountpoint =>
          let? (f, args) := _fuse_new_31 (Some args) fs page clock pipes node_memory h o sends in
          match f with
          | None => pret (3, None)
          | Some f =>
              let? (res, f) := mount_and_run fuel clock rounds opts mountpoint f in pret (res, Some f)
          end
      end.
End start.

End FuseStart.
