(* ===== verification/StartProps.v ===== *)
(** Properties of the start of a program on libfuse: C20 to C22.  No command line makes the
    parsers of libfuse go wrong, and with it no call of fuse_new. *)
From S2P Require Import Prelude.
From S2P Require Import CLib.
From S2P Require Import FuseTypes.
From S2P Require Import FuseBuf.
From S2P Require Import FuseFs.
From S2P Require Import Hello.
From S2P Require Import HelloOper.
From S2P Require Import Toy.
From S2P Require Import FuseNodes.
From S2P Require Import FuseNodesFacts.
From S2P Require Import FuseOpt.
From S2P Require Import FuseOptFacts.
From S2P Require Import FuseOptSafe.
From S2P Require Import FuseCmdline.
From S2P Require Import FuseProcess.
From S2P Require Import FuseMount.
From S2P Require Import FuseSubdir.
From S2P Require Import FuseSession.
From S2P Require Import FuseLoopMt.
From S2P Require Import FuseStart.

Module StartProps.
Import FuseTypes Hello FuseBuf FuseFs HelloOper Toy Samples FuseNodesFacts FuseOpt FuseOptFacts FuseOptSafe FuseCmdline FuseProcess FuseMount FuseSubdir FuseStart.

(** ** Variables *)

Lemma typed_int d0 d o z0 : typed d0 d -> d0 !! o = Some (VInt z0) -> exists z, get_int d o = Ok z.
Proof. intros Hd H0. destruct (Hd o _ H0) as (v & Hv & Hk). unfold get_int. rewrite Hv. destruct v; try done. by eexists. Qed.

Lemma typed_text d0 d o s0 : typed d0 d -> d0 !! o = Some (VStr s0) -> exists s, get_str d o = Ok s.
Proof. intros Hd H0. destruct (Hd o _ H0) as (v & Hv & Hk). unfold get_str. rewrite Hv. destruct v; try done. by eexists. Qed.

Lemma typed_number d0 d o q0 : typed d0 d -> d0 !! o = Some (VDouble q0) -> exists q, get_double d o = Ok q.
Proof. intros Hd H0. destruct (Hd o _ H0) as (v & Hv & Hk). unfold get_double. rewrite Hv. destruct v; try done. by eexists. Qed.

Lemma add_opt_at_safe d0 d o s0 esc opt m : typed d0 d -> d0 !! o = Some (VStr s0) ->
  exists r d' m', add_opt_at d o esc opt m = Ok (r, d', m') /\ typed d0 d'.
Proof.
  intros Hd H0. destruct (typed_text d0 d o s0 Hd H0) as [s Hs]. unfold add_opt_at. rewrite Hs. cbn [obind].
  destruct (add_opt_common s opt esc m) as [[r s'] m']. eexists _, _, _. split; [reflexivity|].
  apply typed_insert; [done|]. intros v0 Hv0. assert (v0 = VStr s0) as -> by congruence. done.
Qed.

(** ** The tables *)

Definition cmdline_start : optdata := <[max_threads := VInt 10]> (<[max_idle_threads := VInt (2 ^ 32 - 1)]> cmdline_zero).
Definition mount_start : optdata := <[mo_flags := VInt (Z.lor MS_NOSUID MS_NODEV)]> mount_opts_zero.

Lemma tables_ok :
  table_ok cmdline_start fuse_helper_opts = true /\ table_ok conn_opts_zero conn_info_opt_spec = true /\
  table_ok mount_start fuse_mount_opts = true /\ table_ok subdir_zero subdir_opts = true /\
  table_ok ll_zero fuse_ll_opts = true /\ table_ok conf_zero fuse_lib_opts = true.
Proof. split_and!; by vm_compute. Qed.

(** Where no variable is a double nothing is left open. *)
Definition no_double (d : optdata) : bool := forallb (fun x => negb (kind x.2 =? 2)) (map_to_list d).

Lemma no_double_spec d : no_double d = true -> ~ has_double d.
Proof.
  intros Hd (o & q & Hq). unfold no_double in Hd. rewrite forallb_forall in Hd.
  specialize (Hd (o, VDouble q)). rewrite <- list_elem_of_In, elem_of_map_to_list in Hd. by specialize (Hd Hq).
Qed.

Lemma none_ok d tab name : proc_ok d tab None name.
Proof. done. Qed.

Lemma helper_ok realpath name : proc_ok cmdline_start fuse_helper_opts (Some (fuse_helper_opt_proc realpath)) name.
Proof.
  intros d arg key out m Hd Ha Hout _. unfold fuse_helper_opt_proc. destruct (key =? _); [|by split].
  destruct (typed_text cmdline_start d mountpoint None Hd eq_refl) as [[p|] Hp]; rewrite Hp; cbn [obind]; [by split|].
  assert (forall s, match (let! (r, d', m') := add_opt_at d mountpoint false s m in Ok (r, d', out, m')) with
    | Ok (_, d', out', _) => typed cmdline_start d' /\ args_ok name out' | Fail e => allowed cmdline_start e end) as Hset.
  { intros s. destruct (add_opt_at_safe cmdline_start d mountpoint None false s m Hd eq_refl) as (r & d' & m' & -> & Hd'). by split. }
  destruct (negb _); [apply Hset|]. destruct (realpath arg); [apply Hset | by split].
Qed.

Lemma subdir_ok name : proc_ok subdir_zero subdir_opts (Some subdir_opt_proc) name.
Proof. intros d arg key out m Hd Ha Hout _. unfold subdir_opt_proc. destruct (key =? 0); by split. Qed.

Lemma lib_ok name : proc_ok conf_zero fuse_lib_opts (Some fuse_lib_opt_proc) name.
Proof. intros d arg key out m Hd Ha Hout _. by split. Qed.

(** Every option with the key of a flag is one of the flags, as it is written. *)
Definition flag_known (o : fuse_opt) : bool :=
  negb ((o.(offset) =? KEY_OFFSET) && (o.(value) =? KEY_KERN_FLAG)) ||
  match o.(templ) with
  | Some t => bool_decide (EQUALS ∉ t) && bool_decide (BLANK ∉ t) && match find_flag t mount_flags with Some _ => true | None => false end
  | None => false
  end.

Lemma flag_asked arg : asked fuse_mount_opts KEY_KERN_FLAG arg -> exists f, find_flag arg mount_flags = Some f.
Proof.
  intros [H|[H|(o & t & sep & Hin & Ht & Ho & Hv & Hm)]]; [discriminate H..|].
  assert (forallb flag_known fuse_mount_opts = true) as Hall by by vm_compute. rewrite forallb_forall in Hall.
  specialize (Hall o (proj1 (list_elem_of_In _ _) Hin)). unfold flag_known in Hall. rewrite Ho, Hv, Ht in Hall. cbn [negb orb] in Hall.
  apply andb_true_iff in Hall as [[He%bool_decide_eq_true Hb%bool_decide_eq_true]%andb_true_iff Hf].
  unfold match_template in Hm. rewrite !find_beq_None in Hm by done.
  destruct (streq t arg) eqn:Heq; [|done]. apply streq_spec in Heq as <-. destruct (find_flag t mount_flags); [by eexists | done].
Qed.

Lemma mount_ok name : proc_ok mount_start fuse_mount_opts (Some fuse_mount_opt_proc) name.
Proof.
  intros d arg key out m Hd Ha Hout Hk. unfold fuse_mount_opt_proc.
  assert (forall a, (exists f, find_flag a mount_flags = Some f) ->
    match (fl <- get_int d mo_flags ;; fl <- set_mount_flag a fl ;; Ok (0, <[mo_flags := VInt fl]> d, out, m)) with
    | Ok (_, d', out', _) => typed mount_start d' /\ args_ok name out' | Fail e => allowed mount_start e end) as Hflag.
  { intros a [f Hf]. destruct (typed_int mount_start d mo_flags _ Hd eq_refl) as [z ->]. unfold set_mount_flag. rewrite Hf. cbn [obind].
    split; [|done]. apply typed_insert; [done|]. intros v0 H0. vm_compute in H0. by injection H0 as <-. }
  assert (forall o esc, mount_start !! o = Some (VStr None) -> match (let! (r, d, m) := add_opt_at d o esc arg m in Ok (r, d, out, m)) with
    | Ok (_, d', out', _) => typed mount_start d' /\ args_ok name out' | Fail e => allowed mount_start e end) as Htext.
  { intros o esc Ho. destruct (add_opt_at_safe mount_start d o None esc arg m Hd Ho) as (r & d' & m' & -> & Hd'). by split. }
  destruct (key =? KEY_RO); [apply Hflag; by eexists|].
  destruct (key =? KEY_KERN_FLAG) eqn:Hkey; [apply Z.eqb_eq in Hkey as ->; by apply Hflag, flag_asked|].
  destruct (key =? KEY_KERN_OPT); [by apply Htext|]. destruct (key =? KEY_FUSERMOUNT_OPT); [by apply Htext|].
  destruct (key =? KEY_SUBTYPE_OPT); [by apply Htext|]. destruct (key =? KEY_MTAB_OPT); [by apply Htext|].
  destruct (_ && _); [by apply Htext | by split].
Qed.

(** ** The parsers *)

(** What is left of the arguments: the name of the program, and C strings. *)
Definition kept (name : str) (a : fuse_args) : Prop := exists v al, a = mk_args (Some (name :: v)) al /\ Forall (fun a => NUL ∉ a) (name :: v).

Section parsers.
Context (name : str) (rest : list str) (alloc : bool) (Hargs : Forall (fun a => NUL ∉ a) (name :: rest)).
#[local] Abbreviation given := (mk_args (Some (name :: rest)) alloc).

(** A table without doubles *)
Lemma parse_total d tab proc m : table_ok d tab = true -> no_double d = true -> proc_ok d tab proc name ->
  exists r d' v m', fuse_opt_parse (Some given) d (Some tab) proc m = Ok (r, Some (mk_args (Some (name :: v)) (if r =? 0 then true else alloc)), d', m') /\
    (r = 0 \/ r = -1) /\ typed d d' /\ Forall (fun a => NUL ∉ a) (name :: v).
Proof.
  intros Htab Hd Hproc. pose proof (parse_safe d tab proc name rest alloc m Htab Hproc Hargs) as H.
  destruct (fuse_opt_parse _ _ _ _ _) as [[[[r a] d'] m']|f].
  - destruct H as (Hr & Ht & v & Hv & -> & _). by exists r, d', v, m'.
  - by destruct H as [H%(no_double_spec d Hd) _].
Qed.

Lemma basename_no_NUL x : NUL ∉ x -> NUL ∉ basename x.
Proof. intros Hx. unfold basename. destruct (find_last _ x); [|done]. destruct (_ <? _); by apply zdrop_no_NUL. Qed.

Lemma cmdline_total realpath m : exists rc a d m', fuse_parse_cmdline_312 realpath given m = Ok (rc, a, d, m') /\
  (rc = 0 \/ rc = -1) /\ typed cmdline_start d /\ kept name a.
Proof.
  destruct (parse_total cmdline_start fuse_helper_opts _ m (proj1 tables_ok) eq_refl (helper_ok realpath name)) as (r & d & v & m1 & Hp & Hr & Hd & Hv).
  unfold fuse_parse_cmdline_312. fold cmdline_start. rewrite Hp. cbn [obind from_option id].
  destruct Hr as [-> | ->]; cbn [Z.eqb]; [|eexists _, _, _, _; split; [reflexivity|]; split_and!; [by right | done | by exists v, alloc]].
  destruct (typed_int cmdline_start d nodefault_subtype 0 Hd eq_refl) as [nodef Hnodef]. rewrite Hnodef. cbn [obind].
  destruct (nodef =? 0); [|eexists _, _, _, _; split; [reflexivity|]; split_and!; [by left | done | by exists v, true]].
  cbn [args_list argv from_option id head lift_fault obind]. unfold add_default_subtype, fuse_opt_add_arg. cbn [argv allocated guard_c obind from_option args_list id].
  destruct (allocates m1) as [[] m2]; cbn [negb obind]; [|eexists _, _, _, _; split; [reflexivity|]; split_and!; [by right | done | by exists v, true]].
  destruct (allocates m2) as [[] m3]; cbn [negb obind]; [|eexists _, _, _, _; split; [reflexivity|]; split_and!; [by right | done | by exists v, true]].
  destruct (allocates m3) as [[] m4]; cbn [negb obind]; [|eexists _, _, _, _; split; [reflexivity|]; split_and!; [by right | done | by exists v, true]].
  eexists _, _, _, _. split; [reflexivity|]. split_and!; [by left | done |].
  eexists (v ++ [_]), true. split; [reflexivity|]. apply Forall_cons in Hv as [Hn Hv]. apply Forall_cons. split; [done|].
  apply Forall_app_2; [done|]. apply Forall_singleton. intros [Hin|Hin]%elem_of_app; [|by apply (basename_no_NUL name Hn)].
  by apply (bool_decide_unpack (NUL ∉ lit "-osubtype=")) in Hin.
Qed.

Lemma conn_total m : exists o a m', fuse_parse_conn_info_opts (Some given) m = Ok (o, Some a, m') /\ kept name a /\
  forall d, o = Some d -> typed conn_opts_zero d.
Proof.
  unfold fuse_parse_conn_info_opts. destruct (allocates m) as [[] m1]; cbn [negb].
  2: { eexists _, _, _. split; [reflexivity|]. split; [by exists rest, alloc | done]. }
  destruct (parse_total conn_opts_zero conn_info_opt_spec None m1 (proj1 (proj2 tables_ok)) eq_refl (none_ok _ _ _)) as (r & d & v & m2 & -> & Hr & Hd & Hv).
  cbn [obind]. eexists _, _, _. split; [reflexivity|]. split; [by eexists _, _|]. intros d'. destruct (r =? -1); [done | by intros [= <-]].
Qed.

Lemma mount_opts_total m : exists o a m', parse_mount_opts (Some given) m = Ok (o, Some a, m') /\ kept name a /\
  forall d, o = Some d -> typed mount_start d.
Proof.
  unfold parse_mount_opts. destruct (allocates m) as [[] m1]; cbn [negb].
  2: { eexists _, _, _. split; [reflexivity|]. split; [by exists rest, alloc | done]. }
  destruct (parse_total mount_start fuse_mount_opts _ m1 (proj1 (proj2 (proj2 tables_ok))) eq_refl (mount_ok name)) as (r & d & v & m2 & Hp & Hr & Hd & Hv).
  fold mount_start. rewrite Hp. cbn [obind]. eexists _, _, _. split; [reflexivity|]. split; [by eexists _, _|]. intros d'. destruct (r =? -1); [done | by intros [= <-]].
Qed.

Lemma subdir_total {S D : Type} (next : list (fuse_operations S D)) m :
  exists o a m', subdir_new (Some given) next m = Ok (o, Some a, m') /\ kept name a.
Proof.
  unfold subdir_new. destruct (allocates m) as [[] m1]; cbn [negb].
  2: { eexists _, _, _. split; [reflexivity|]. by exists rest, alloc. }
  destruct (parse_total subdir_zero subdir_opts _ m1 (proj1 (proj2 (proj2 (proj2 tables_ok)))) eq_refl (subdir_ok name)) as (r & d & v & m2 & -> & Hr & Hd & Hv).
  cbn [obind]. set (a := mk_args (Some (name :: v)) _). assert (kept name a) as Ha by by eexists _, _.
  assert (forall (o : option (subdir S D)) (m' : list bool), exists o' a' m'', Ok (o, Some a, m') = Ok (o', Some a', m'') /\ kept name a') as Hret by (intros o m'; by exists o, a, m').
  destruct (r =? -1); [apply Hret|]. destruct next as [|op []]; [apply Hret | | apply Hret].
  destruct (typed_text subdir_zero d o_base None Hd eq_refl) as [b ->]. destruct (typed_int subdir_zero d o_rellinks 0 Hd eq_refl) as [rel ->]. cbn [obind].
  destruct b as [b|]; [|apply Hret]. set (open_end := negb (zlen b =? 0) && _). destruct (if open_end then allocates m2 else (true, m2)) as [ok m3]. destruct (negb ok); [apply Hret|].
  destruct (allocates m3) as [ok' m4]. destruct (negb ok'); apply Hret.
Qed.

End parsers.

(** What the options of the connection ask for is applied to every connection. *)
Lemma apply_total d c : typed conn_opts_zero d -> exists c', fuse_apply_conn_info_opts d c = Ok c'.
Proof.
  intros Hd. unfold fuse_apply_conn_info_opts.
  assert (forall o1 o2 old, conn_opts_zero !! o1 = Some (VInt 0) -> conn_opts_zero !! o2 = Some (VInt 0) ->
    exists z, (s <- get_int d o1 ;; if s =? 0 then Ok old else get_int d o2) = Ok z) as Hpick.
  { intros o1 o2 old H1 H2. destruct (typed_int _ _ _ _ Hd H1) as [z ->]. cbn [obind]. destruct (z =? 0); [by eexists | by apply (typed_int _ _ _ _ Hd H2)]. }
  destruct (Hpick o_set_max_write o_max_write (max_write c) eq_refl eq_refl) as [? ->].
  destruct (Hpick o_set_max_background o_max_background (max_background c) eq_refl eq_refl) as [? ->].
  destruct (Hpick o_set_congestion_threshold o_congestion_threshold (congestion_threshold c) eq_refl eq_refl) as [? ->].
  destruct (Hpick o_set_time_gran o_time_gran (time_gran c) eq_refl eq_refl) as [? ->].
  destruct (Hpick o_set_max_readahead o_max_readahead (max_readahead c) eq_refl eq_refl) as [? ->]. cbn [obind].
  assert (forall l w, forallb (fun x => match conn_opts_zero !! x.1.1 with Some (VInt 0) => true | _ => false end) l = true -> exists w', foldl (apply_switch d) (Ok w) l = Ok w') as Hfold.
  { intros l. induction l as [|sw l IH]; intros w Hl; [by eexists|]. cbn [forallb] in Hl. apply andb_true_iff in Hl as [Hx Hl]. cbn [foldl].
    unfold apply_switch at 2. cbn [obind]. destruct (conn_opts_zero !! sw.1.1) as [[[]| |]|] eqn:Hx0; try done. destruct (typed_int _ _ _ _ Hd Hx0) as [z ->]. cbn [obind]. by apply IH. }
  destruct (Hfold conn_switches (want_ext c)) as [w ->]; [by vm_compute | by eexists].
Qed.

(** ** A new file system *)

(** Descriptors, handlers and the session they know stay, and the key of the contexts has
    so many users. *)
Definition same (s0 : process) (n : Z) (s : process) : Prop :=
  s.(fds) = s0.(fds) /\ s.(handlers) = s0.(handlers) /\ s.(fuse_instance) = s0.(fuse_instance) /\ s.(fuse_context_ref) = n.

(** A fact about the result that holds before the rest. *)
Lemma spec_fact {S A} (I : S -> Prop) (Q : Prop) E (m : prog S A) R : (Q -> spec I E m R) -> spec (fun s => I s /\ Q) E m R.
Proof. intros H s [Hs HQ]. exact (H HQ s Hs). Qed.

Section frame.
Context (E : fault -> Prop) (s0 : process) (n : Z).
#[local] Abbreviation keeps m := (spec (same s0 n) E m (fun _ => same s0 n)).

Lemma alloc_same : keeps alloc.
Proof. apply spec_get. intros s Hs. destruct (allocates _) as [b m]. by intros s' _. Qed.

Lemma sys_same env c : keeps (sys env c).
Proof. apply spec_get. intros s Hs. by intros s' _. Qed.

Lemma with_heap_same {A} (f : list bool -> outcome (A * list bool)) (Q : A -> Prop) :
  (forall m, match f m with Ok (a, _) => Q a | Fail e => E e end) -> spec (same s0 n) E (with_heap f) (fun a s => same s0 n s /\ Q a).
Proof.
  intros Hf. apply spec_get. intros s Hs. specialize (Hf s.(heap)). destruct (f s.(heap)) as [[a m]|e].
  - intros s' _. by split.
  - by intros s' _.
Qed.

(** The same from a state whose memory is known, which is what is left of the first
    allocation. *)
Lemma with_heap_at {A} h (f : list bool -> outcome (A * list bool)) (Q : A -> Prop) :
  match f h with Ok (a, _) => Q a | Fail e => E e end ->
  spec (fun s => same s0 n s /\ s.(heap) = h) E (with_heap f) (fun a s => same s0 n s /\ Q a).
Proof.
  intros Hf. apply spec_get. intros s [Hs Hh]. rewrite Hh. destruct (f h) as [[a m]|e].
  - intros s' _. by split.
  - by intros s' _.
Qed.

Lemma first_alloc : same s0 n s0 -> spec (fun s => s = s0) E alloc (fun _ s => same s0 n s /\ s.(heap) = Datatypes.snd (allocates s0.(heap))).
Proof. intros Hs. apply spec_get. intros s ->. destruct (allocates _) as [b m]. by intros s' _. Qed.

(** What the system answers. *)
Lemma sys_answers env c : spec (same s0 n) E (sys env c) (fun r s => same s0 n s /\ exists cs, r = env cs c).
Proof. apply spec_get. intros s Hs. intros s' _. split; [done | by exists s.(calls)]. Qed.

Lemma set_modules_same (g : process -> list fuse_module) (r : process -> bool) : keeps (change_p (fun s => set_modules (g s) (r s) s)).
Proof. apply spec_get. intros s Hs. by intros s' _. Qed.

Lemma put_module_same name : keeps (fuse_put_module name).
Proof. apply (set_modules_same (fun s => put_module name s.(fuse_modules)) builtin_modules_registered). Qed.

Lemma register_same : keeps register_builtin_modules.
Proof.
  assert (forall x, keeps (fuse_register_module x)) as Hreg.
  { intros x. eapply spec_bind; [apply alloc_same|]. intros []; [|by intros s]. eapply spec_bind; [apply alloc_same|].
    intros []; [|by intros s]. eapply spec_bind; [apply set_modules_same|]. intros []. by intros s. }
  apply spec_get. intros s Hs. destruct (builtin_modules_registered s); [by intros s' ->|].
  apply (spec_weaken _ _ (same s0 n) _ _ (fun _ => same s0 n)); [| by intros s' -> | done].
  do 2 (eapply spec_bind; [apply Hreg|]; intros ?). apply (set_modules_same _ (fun _ => true)).
Qed.
End frame.

Lemma create_key_same env E s0 n : spec (same s0 n) E (fuse_create_context_key env) (fun r => same s0 (if r =? -1 then n else n + 1)).
Proof.
  apply spec_get. intros s Hs. apply (spec_weaken _ _ (same s0 n) _ _ (fun r => same s0 (if r =? -1 then n else n + 1))); [| by intros s' -> | done].
  eapply (spec_bind _ _ _ _ (fun _ => same s0 n)).
  - destruct (_ =? 0); [|by intros s1]. eapply spec_bind; [apply sys_same|]. by intros r s1.
  - intros []; [by intros s1|]. intros s1 (H1 & H2 & H3 & H4). split_and!; [done.. |]. cbn. by rewrite H4.
Qed.

Lemma delete_key_same E s0 n : spec (same s0 (n + 1)) E fuse_delete_context_key (fun _ => same s0 n).
Proof. intros s (H1 & H2 & H3 & H4). split_and!; [done..|]. cbn. rewrite H4. lia. Qed.

Section made.
Context {os : Type} `{Syscalls os} (env : list (syscall * Z) -> syscall -> Z) (name : str) (s0 : process) (E : fault -> Prop).

Lemma find_module_same n x : spec (same s0 n) E (fuse_find_module x) (fun _ => same s0 n).
Proof. apply spec_get. intros s Hs. destruct (use_module x _); [by intros s' _ | by intros s' ->]. Qed.

(** The file of a module is found. *)
Definition in_file (x : str) : Prop := exists cs, 0 <= env cs (SDlopen (lit "libfusemod_" ++ x ++ lit ".so")).

Lemma load_module_same n x : (in_file x -> E Unmodelled) -> spec (same s0 n) E (fuse_load_so_module env x) (fun _ => same s0 n).
Proof.
  intros HE. eapply spec_bind; [apply alloc_same|]. intros []; [|by intros s]. eapply spec_bind; [apply alloc_same|]. intros []; [|by intros s].
  eapply spec_bind; [apply sys_answers|]. intros r. apply spec_fact. intros [cs Hr]. destruct (Z.ltb_spec r 0); [by intros s|].
  intros s Hs. apply HE. exists cs. by rewrite <- Hr.
Qed.

Lemma get_module_same n x : (in_file x -> E Unmodelled) -> spec (same s0 n) E (fuse_get_module env x) (fun _ => same s0 n).
Proof.
  intros HE. eapply spec_bind; [apply find_module_same|]. intros []; [by intros s|]. eapply spec_bind; [by apply load_module_same|].
  intros err. cbn beta. destruct (err =? 0); [apply find_module_same | by intros s].
Qed.

(** A module that is not modelled: any but subdir, and subdir from a file. *)
Definition other_module (x : str) : Prop := x <> [] /\ (x <> lit "subdir" \/ in_file x).

(** A module is put on top or not; the arguments stay as they should be. *)
Lemma push_module_safe n (fs : layer os) x a : x <> [] -> (other_module x -> E Unmodelled) -> kept name a ->
  spec (same s0 n) E (fuse_push_module env fs x (Some a)) (fun r s => same s0 n s /\ exists a', r.2 = Some a' /\ kept name a').
Proof.
  intros Hx HE Ha. eapply spec_bind; [apply get_module_same; intros Hf; apply HE; split; [done | by right]|].
  intros []; [|intros s Hs; split; [done | by exists a]]. cbn [negb].
  destruct (streq x _) eqn:Hsub; [|intros s Hs; apply HE; split; [done|]; left; intros ->; by vm_compute in Hsub].
  eapply spec_bind.
  { apply (with_heap_same _ _ _ _ (fun r => exists a', r.2 = Some a' /\ kept name a')). intros m. destruct Ha as (v & al & -> & Hv).
    destruct (subdir_total name v al Hv [l_op fs] m) as (o & a' & m' & -> & Ha'). by exists a'. }
  intros [o args]. apply spec_fact. intros Hargs. destruct o as [d|]; [by intros s1 Hs1|]. eapply spec_bind; [apply put_module_same|]. intros []. by intros s1 Hs1.
Qed.

Lemma push_modules_safe n l : (forall x, x ∈ l -> other_module x -> E Unmodelled) -> forall (fs : layer os) a, kept name a ->
  spec (same s0 n) E (push_modules env fs l (Some a)) (fun r s => same s0 n s /\ exists a', r.2 = Some a' /\ kept name a').
Proof.
  induction l as [|[|b x] l IH]; intros HE fs a Ha; [intros s Hs; split; [done | by exists a] | |].
  { apply IH; [|done]. intros y Hy. apply HE. by right. }
  cbn [push_modules]. eapply spec_bind; [apply (push_module_safe n); [done | apply HE; by left | done]|]. intros [o args]. apply spec_fact. intros (a' & Hargs & Ha').
  cbn in Hargs. subst args.   destruct o as [fs'|]; [apply IH; [intros y Hy; apply HE; by right | done]|]. intros s1 Hs1. split; [done | by exists a'].
Qed.

Lemma config_total d : typed conf_zero d -> exists c, config_of d = Ok c.
Proof.
  intros Hd. unfold config_of.
  assert (forall o, conf_zero !! o = Some (VInt 0) -> exists z, get_int d o = Ok z) as Hint by (intros o; by apply typed_int).
  assert (forall o q, conf_zero !! o = Some (VDouble q) -> exists z, get_double d o = Ok z) as Hdbl by (intros o q; by apply typed_number).
  destruct (Hint c_set_gid eq_refl) as [? ->], (Hint c_gid eq_refl) as [? ->], (Hint c_set_uid eq_refl) as [? ->], (Hint c_uid eq_refl) as [? ->],
    (Hint c_set_mode eq_refl) as [? ->], (Hint c_umask eq_refl) as [? ->], (Hdbl c_entry_timeout _ eq_refl) as [? ->],
    (Hdbl c_negative_timeout _ eq_refl) as [? ->], (Hdbl c_attr_timeout _ eq_refl) as [? ->], (Hint c_remember eq_refl) as [? ->],
    (Hint c_kernel_cache eq_refl) as [? ->], (Hint c_auto_cache eq_refl) as [? ->], (Hint c_ac_attr_timeout_set eq_refl) as [? ->],
    (Hdbl c_ac_attr_timeout _ eq_refl) as [? ->], (Hint c_fmask eq_refl) as [? ->], (Hint c_dmask eq_refl) as [? ->],
    (Hint c_no_rofd_flush eq_refl) as [? ->], (Hint c_parallel_direct_writes eq_refl) as [? ->].
  by eexists.
Qed.

(** What a session is made of: typed options of mounting, and no argument but the name. *)
Definition session_made (r : option (bool * optdata * Z) * option fuse_args) : Prop :=
  match r.1 with
  | Some (_, mo, _) => typed mount_start mo /\ exists al, r.2 = Some (mk_args (Some [name]) al)
  | None => True
  end.

Lemma session_made_none n a : spec (same s0 n) E (pret (None, a)) (fun r s => same s0 n s /\ session_made r).
Proof. by intros s Hs. Qed.

(** The argument that "allow_root" adds. *)
Lemma deny_safe n deny a : kept name a -> allocated a = true ->
  spec (same s0 n) E
    (if negb (deny =? 0) then
       a <-- plift (lift_fault NullDeref (Some a)) ;;
       with_heap (fun m => let! (r, a, m) := fuse_opt_add_arg a (lit "-oallow_other") m in Ok ((r, Some a), m))
     else pret (0, Some a))
    (fun r s => same s0 n s /\ exists a', r.2 = Some a' /\ kept name a').
Proof.
  intros Ha Hal. destruct (deny =? 0); cbn [negb]; [intros s Hs; split; [done | by exists a]|].
  apply (spec_lift_bind _ _ _ a _ _ eq_refl). apply (with_heap_same _ _ _ _ (fun r => exists a', r.2 = Some a' /\ kept name a')).
  intros m. destruct Ha as (v & al & -> & Hv). cbn in Hal. subst al.
  unfold fuse_opt_add_arg. cbn [argv allocated guard_c obind args_list from_option id].
  destruct (allocates m) as [[] m1]; cbn [negb obind]; [|by eexists; split; [reflexivity | by eexists _, _]].
  destruct (allocates m1) as [[] m2]; cbn [negb obind]; [|by eexists; split; [reflexivity | by eexists _, _]].
  eexists. split; [reflexivity|]. eexists (v ++ [_]), _. split; [reflexivity|]. rewrite app_comm_cons. apply Forall_app_2; [done|].
  apply Forall_singleton. by apply (bool_decide_unpack _).
Qed.

Lemma session_safe n a : kept name a ->
  spec (same s0 n) E (fuse_session_new_versioned env (Some a)) (fun r s => same s0 n s /\ session_made r).
Proof.
  intros (v & al & -> & Hv). apply (spec_lift_bind _ _ _ _ _ _ eq_refl). destruct (argc _ =? 0); [apply session_made_none|].
  eapply spec_bind; [apply alloc_same|]. intros []; cbn [negb]; [|apply session_made_none].
  eapply spec_bind.
  { apply (with_heap_same _ _ _ _ (fun r => (r.1.1 <> -1 -> exists a', r.1.2 = Some a' /\ kept name a' /\ allocated a' = true) /\ typed ll_zero r.2)). intros m.
    destruct (parse_total name v al Hv ll_zero fuse_ll_opts None m (proj1 (proj2 (proj2 (proj2 (proj2 tables_ok))))) eq_refl (none_ok _ _ _))
      as (r & d & v' & m' & -> & Hr & Hd & Hv'). cbn [obind]. split; [|exact Hd]. cbn.
    intros Hr1. destruct Hr as [-> | ->]; [|done]. eexists. split; [reflexivity|]. split; [by eexists _, _ | done]. }
  intros [[r args] d]. apply spec_fact. cbn [Datatypes.fst Datatypes.snd]. intros [Hargs Hd].
  destruct (r =? -1) eqn:Hr; [apply session_made_none|]. apply Z.eqb_neq in Hr. destruct (Hargs Hr) as (a' & -> & Ha' & Hal').
  destruct (typed_int ll_zero d s_deny_others 0 Hd eq_refl) as [deny Hdeny]. apply (spec_lift_bind _ _ _ _ _ _ Hdeny).
  eapply spec_bind; [by apply (deny_safe n deny a')|]. intros [r' args']. apply spec_fact. cbn [Datatypes.snd]. intros (a2 & -> & Ha2).
  destruct (r' =? -1); [apply session_made_none|].
  eapply spec_bind.
  { apply (with_heap_same _ _ _ _ (fun r => exists a', r.2 = Some a' /\ kept name a' /\ forall mo, r.1 = Some mo -> typed mount_start mo)). intros m.
    destruct Ha2 as (v2 & al2 & -> & Hv2). destruct (mount_opts_total name v2 al2 Hv2 m) as (o & a3 & m' & -> & Ha3 & Ho). by exists a3. }
  intros [mo args]. apply spec_fact. cbn [Datatypes.snd]. intros (a3 & -> & (v3 & al3 & -> & Hv3) & Hmo).
  destruct mo as [mo|]; [|apply session_made_none]. apply (spec_lift_bind _ _ _ _ _ _ eq_refl).
  destruct (argc _ =? 1) eqn:Hone; cbn [negb]; [|apply session_made_none]. apply Z.eqb_eq in Hone.
  eapply spec_bind; [apply sys_same|]. intros err. destruct (err <? 0); [apply session_made_none|].
  eapply spec_bind; [apply sys_same|]. intros owner s Hs. split; [done|]. split; [by apply Hmo|].
  unfold argc in Hone. cbn in Hone. destruct v3; [by exists al3 | cbn in Hone; lia].
Qed.

(** What fuse_new makes, and what it leaves of the arguments. *)
Definition fuse_new_made (n : Z) (r : option (fuse_made os) * option fuse_args) (s : process) : Prop :=
  match r.1 with
  | Some f => same s0 (n + 1) s /\ f.(fm_mount).(m_fd) = -1 /\ f.(fm_mount).(m_point) = None /\ typed mount_start f.(fm_mount).(m_opts) /\
      exists al, r.2 = Some (mk_args (Some [name]) al)
  | None => same s0 n s
  end.
Lemma nothing_made n a : spec (same s0 n) E (pret (None, a)) (fun r => fuse_new_made n r).
Proof. by intros s Hs. Qed.

(** Nothing is made, and the key of the contexts is given back. *)
Lemma key_given_back n a : spec (same s0 (n + 1)) E (fuse_delete_context_key ;;; pret (None, a)) (fun r => fuse_new_made n r).
Proof. eapply spec_bind; [apply delete_key_same|]. intros []. apply nothing_made. Qed.

Lemma new_tree_same n r clock m : spec (same s0 n) E (new_tree r clock m) (fun _ => same s0 n).
Proof.
  eapply spec_bind; [apply alloc_same|]. intros []; [|by intros s]. eapply spec_bind; [apply alloc_same|]. intros []; [|by intros s].
  destruct (new_nodes_total r clock true true m) as [o Ho]. intros s Hs. unfold plift. cbn [negb]. by rewrite Ho.
Qed.

End made.

(** How fuse_new with these arguments may end in what is not modelled: its own options
    cannot be parsed, which takes a number in such a notation, or those that are parsed name
    a module that is not modelled. *)
Definition new_fault (env : list (syscall * Z) -> syscall -> Z) (a : option fuse_args) (mem : list bool) (f : fault) : Prop :=
  f = Unmodelled /\
  match fuse_opt_parse a conf_zero (Some fuse_lib_opts) (Some fuse_lib_opt_proc) mem with
  | Fail _ => True
  | Ok (_, _, d, _) => exists l x, get_str d c_modules = Ok (Some l) /\ x ∈ split_modules [] l /\ other_module env x
  end.

Section new.
Context {os : Type} `{Syscalls os} (env : list (syscall * Z) -> syscall -> Z) (name : str) (s0 : process).

Lemma new_safe (fs : layer os) a page clock pipes m h o sends : kept name a ->
  spec (fun s => s = s0) (new_fault env (Some a) (Datatypes.snd (allocates s0.(heap)))) (_fuse_new_31 env (Some a) fs page clock pipes m h o sends)
    (fun r => fuse_new_made name s0 s0.(fuse_context_ref) r).
Proof.
  intros (v & al & -> & Hv). set (mem := Datatypes.snd (allocates s0.(heap))). set (given := Some (mk_args (Some (name :: v)) al)). set (n := s0.(fuse_context_ref)).
  set (E := new_fault env given mem). eapply spec_bind; [by apply (first_alloc E s0 n)|].
  intros []; cbn [negb]; [|intros s [Hs _]; exact Hs]. eapply spec_bind.
  { apply (with_heap_at E s0 n mem _ (fun r => ((exists a', r.1.2 = Some a' /\ kept name a') /\ typed conf_zero r.2) /\
      forall l x, get_str r.2 c_modules = Ok (Some l) -> x ∈ split_modules [] l -> other_module env x -> E Unmodelled)).
    pose proof (parse_safe conf_zero fuse_lib_opts (Some fuse_lib_opt_proc) name v al mem (proj2 (proj2 (proj2 (proj2 (proj2 tables_ok))))) (lib_ok name) Hv) as Hp.
    unfold given, E, new_fault. destruct (fuse_opt_parse _ _ _ _ _) as [[[[r x] d] m']|f]; cbn [obind]; [|by destruct Hp as [_ ->]].
    destruct Hp as (_ & Hd & v' & Hv' & -> & _). split; [split; [|exact Hd]; eexists; split; [reflexivity|]; by eexists _, _|].
    intros l x Hl Hin Hx. split; [done|]. by exists l, x. }
  intros [[r args] d]. apply spec_fact. cbn [Datatypes.fst Datatypes.snd]. intros [[(a1 & -> & Ha1) Hd] HE].
  destruct (r =? -1); [apply nothing_made|]. eapply spec_bind; [apply register_same|]. intros [].
  eapply spec_bind; [apply create_key_same|]. intros key. cbn beta. destruct (key =? -1); [apply nothing_made|].
  eapply spec_bind; [apply alloc_same|]. intros []; cbn [negb]; [|apply key_given_back].
  destruct (typed_text conf_zero d c_modules None Hd eq_refl) as [mods Hmods]. apply (spec_lift_bind _ _ _ _ _ _ Hmods).
  eapply spec_bind.
  { apply (push_modules_safe env name s0 E (n + 1)); [|done]. intros x Hx. destruct mods as [l|]; [by apply (HE l) | by apply not_elem_of_nil in Hx]. }
  intros [top args]. apply spec_fact. cbn [Datatypes.snd]. intros (a2 & -> & Ha2).
  destruct top as [top|]; [|apply key_given_back].
  destruct (config_total d Hd) as [conf Hconf]. apply (spec_lift_bind _ _ _ _ _ _ Hconf).
  eapply spec_bind; [by apply (session_safe env name s0 E (n + 1))|]. intros [made args]. apply spec_fact. intros Hmade.
  destruct made as [[[deny mo] owner]|]; [|apply key_given_back]. destruct Hmade as [Hmo Hargs].
  eapply spec_bind; [apply new_tree_same|]. intros tree.
  destruct (typed_int mount_start mo mo_max_read 0 Hmo eq_refl) as [mr Hmr]. apply (spec_lift_bind _ _ _ _ _ _ Hmr).
  destruct tree as [f|]; [|apply key_given_back]. by intros s Hs.
Qed.
End new.

(** ** The process around a run *)

Create HintDb keep discriminated.
#[local] Hint Constants Opaque : keep.

Section around.
Context (env : list (syscall * Z) -> syscall -> Z) (realpath : str -> option str).

(** What mounting and the loops leave alone: handlers, the session they know, modules, and
    the key of the contexts. *)
Definition around (h : gmap Z handler) (i : option Z) (l : list fuse_module) (n : Z) (s : process) : Prop :=
  s.(handlers) = h /\ s.(fuse_instance) = i /\ s.(fuse_modules) = l /\ s.(fuse_context_ref) = n.

Context (h : gmap Z handler) (i : option Z) (l : list fuse_module) (n : Z).
Definition any (f : fault) : Prop := True.
#[local] Abbreviation J := (around h i l n).
#[local] Abbreviation keeps m := (spec J any m (fun _ => J)).

Lemma keep_bind {A B} (m : prog process A) (k : A -> prog process B) : keeps m -> (forall a, keeps (k a)) -> keeps (pbind m k).
Proof. intros Hm Hk. by apply (spec_bind _ _ _ _ (fun _ => J)). Qed.
Lemma keep_ret {A} (a : A) : keeps (pret a).
Proof. by intros s. Qed.
Lemma keep_fail {A} f : keeps (pfail f : prog process A).
Proof. done. Qed.
Lemma keep_lift {A} (m : outcome A) : keeps (plift m).
Proof. intros s Hs. unfold plift. by destruct m. Qed.
Lemma keep_get {B} (k : process -> prog process B) : (forall s, keeps (k s)) -> keeps (pbind pget k).
Proof. intros Hk s Hs. exact (Hk s s Hs). Qed.
Lemma keep_alloc : keeps alloc.
Proof. apply spec_get. intros s Hs. destruct (allocates _) as [b m]. by intros s' _. Qed.
Lemma keep_sys c : keeps (sys env c).
Proof. apply spec_get. intros s Hs. by intros s' _. Qed.
Lemma keep_heap {A} (f : list bool -> outcome (A * list bool)) : keeps (with_heap f).
Proof. apply spec_get. intros s Hs. destruct (f s.(heap)) as [[a m]|e]; by intros s' _. Qed.
Lemma keep_new_fd k : keeps (new_fd k).
Proof. apply spec_get. intros s Hs. by intros s' _. Qed.
Lemma keep_close fd : keeps (close env fd).
Proof. apply keep_bind; [apply keep_sys|]. intros _. apply spec_get. intros s Hs. intros s' _. by destruct (s.(fds) !! fd). Qed.
Lemma keep_dup2 a b : keeps (dup2 env a b).
Proof.
  apply keep_bind; [apply keep_sys|]. intros r. destruct (r <? 0); [apply keep_ret|]. apply spec_get. intros s Hs. intros s' _.
  by destruct (s.(fds) !! a).
Qed.

#[local] Hint Resolve keep_ret keep_fail keep_lift keep_alloc keep_sys keep_heap keep_new_fd keep_close keep_dup2 : keep.

(** One step of a program after the other, every branch. *)
Ltac keep := repeat first
  [ solve [auto with keep nocore]
  | lazymatch goal with
    | |- spec _ _ (pbind pget _) _ => apply keep_get; intros ?
    | |- spec _ _ (pbind _ _) _ => apply keep_bind; [|intros ?]
    | |- spec _ _ (match ?x with _ => _ end) _ => destruct x
    | |- spec _ _ (let _ := _ in _) _ => cbv zeta
    end
  | progress cbn beta iota ].

Lemma keep_open path k : keeps (open env path k).
Proof. unfold open. keep. Qed.
Lemma keep_two c k : keeps (two_fds env c k).
Proof. unfold two_fds. keep. Qed.
#[local] Hint Resolve keep_open keep_two : keep.

Lemma keep_daemonize fg : keeps (FuseSignals.fuse_daemonize env fg).
Proof. unfold FuseSignals.fuse_daemonize. keep. Qed.

Lemma keep_child argv : keeps (run_child env argv).
Proof. unfold run_child. keep. Qed.
#[local] Hint Resolve keep_child : keep.
Lemma keep_mtab m : keeps (mtab_needs_update env m).
Proof. unfold mtab_needs_update. keep. Qed.
Lemma keep_spawn argv w : keeps (fusermount_posix_spawn env argv w).
Proof. unfold fusermount_posix_spawn. keep. Qed.
Lemma keep_receive fuel fd : keeps (receive_fd env fuel fd).
Proof. induction fuel as [|fuel IH]; cbn [receive_fd]; keep. Qed.
#[local] Hint Resolve keep_mtab keep_spawn keep_receive : keep.
Lemma keep_resolve p : keeps (fuse_mnt_resolve_path realpath p).
Proof. unfold fuse_mnt_resolve_path. keep. Qed.
Lemma keep_add_mount a b c d : keeps (fuse_mnt_add_mount env a b c d).
Proof. unfold fuse_mnt_add_mount, add_mount. keep. Qed.
Lemma keep_umount a b z : keeps (fuse_mnt_umount env a b z).
Proof. unfold fuse_mnt_umount, exec_umount. keep. Qed.
#[local] Hint Resolve keep_resolve keep_add_mount keep_umount : keep.
Lemma keep_kern_unmount m fd : keeps (fuse_kern_unmount env m fd).
Proof. unfold fuse_kern_unmount. keep. Qed.
Lemma keep_auto m : keeps (setup_auto_unmount env m).
Proof. unfold setup_auto_unmount. keep. Qed.
Lemma keep_fusermount fuel m mo o : keeps (fuse_mount_fusermount env fuel m mo o).
Proof. unfold fuse_mount_fusermount. keep. Qed.
#[local] Hint Resolve keep_kern_unmount keep_auto keep_fusermount : keep.
Lemma keep_device m mo o fd : keeps (mount_device env realpath m mo o fd).
Proof. unfold mount_device. keep. Qed.
Lemma keep_add_text o t : keeps (add_text o t).
Proof. unfold add_text. keep. Qed.
#[local] Hint Resolve keep_device keep_add_text : keep.
Lemma keep_mount_sys m mo o : keeps (fuse_mount_sys env realpath m mo o).
Proof. unfold fuse_mount_sys. keep. Qed.
Lemma keep_unprivileged fuel m mo o : keeps (mount_unprivileged env fuel m mo o).
Proof. unfold mount_unprivileged. keep. Qed.
#[local] Hint Resolve keep_mount_sys keep_unprivileged : keep.
Lemma keep_kern_mount fuel m mo : keeps (fuse_kern_mount env realpath fuel m mo).
Proof. unfold fuse_kern_mount. keep. Qed.
Lemma keep_open_std fuel : keeps (open_std env fuel).
Proof. induction fuel as [|fuel IH]; cbn [open_std]; keep. Qed.
#[local] Hint Resolve keep_kern_mount keep_open_std : keep.
Lemma keep_session_mount fuel se m : keeps (fuse_session_mount env realpath fuel se m).
Proof. unfold fuse_session_mount. keep. Qed.
Lemma keep_session_unmount se : keeps (fuse_session_unmount env se).
Proof. unfold fuse_session_unmount. keep. Qed.
End around.

(** ** Handlers of signals *)

(** A handler where there was none, and only the own one removed. *)
Definition put_handler (x : Z * handler) (h : gmap Z handler) : gmap Z handler :=
  match h !! x.1 with None => <[x.1 := x.2]> h | Some _ => h end.
Definition drop_handler (x : Z * handler) (h : gmap Z handler) : gmap Z handler :=
  if bool_decide (h !! x.1 = Some x.2) then delete x.1 h else h.

(** What a session installs. *)
Definition session_handlers : list (Z * handler) := [(1, ExitHandler); (2, ExitHandler); (15, ExitHandler); (13, DoNothing)].
Definition installed (h : gmap Z handler) : gmap Z handler := foldr put_handler h (reverse session_handlers).

(** No handler of libfuse is set. *)
Definition foreign (h : gmap Z handler) : Prop := forall sig x, h !! sig = Some x -> x = Foreign \/ x = IntrHandler.

Lemma drop_put x h : h !! x.1 <> Some x.2 -> drop_handler x (put_handler x h) = h.
Proof.
  intros Hx. unfold put_handler, drop_handler. destruct (h !! x.1) as [y|] eqn:Hy.
  - by rewrite Hy, bool_decide_eq_false_2.
  - rewrite lookup_insert_eq, bool_decide_eq_true_2 by done. by rewrite delete_insert_id.
Qed.

Lemma drop_put_ne x y h : x.1 <> y.1 -> drop_handler x (put_handler y h) = put_handler y (drop_handler x h).
Proof.
  intros Hne. unfold put_handler, drop_handler.
  destruct (h !! y.1) eqn:Hy; destruct (bool_decide (h !! x.1 = Some x.2)) eqn:Hx.
  - rewrite lookup_delete_ne by congruence. by rewrite Hy.
  - by rewrite Hy.
  - rewrite lookup_delete_ne, Hy by congruence. rewrite lookup_insert_ne, Hx by congruence. by rewrite delete_insert_ne.
  - rewrite Hy, lookup_insert_ne, Hx by congruence. done.
Qed.

Lemma drop_absent x h : h !! x.1 <> Some x.2 -> drop_handler x h = h.
Proof. intros Hx. unfold drop_handler. by rewrite bool_decide_eq_false_2. Qed.

Section signals.
Context (env : list (syscall * Z) -> syscall -> Z) (Henv : forall cs sig b, 0 <= env cs (SSigaction sig b)).
Context (l : list fuse_module) (n : Z).

Lemma sigaction_safe h i sig b : spec (around h i l n) any (sys env (SSigaction sig b)) (fun r s => around h i l n s /\ 0 <= r).
Proof. apply spec_get. intros s Hs. intros s' _. split; [done | apply Henv]. Qed.

Lemma set_one_safe h i sig x remove : spec (around h i l n) any (FuseSignals.set_one_signal_handler env sig x remove)
  (fun r s => r = 0 /\ around ((if remove then drop_handler else put_handler) (sig, x) h) i l n s).
Proof.
  eapply spec_bind; [apply sigaction_safe|]. intros r. apply spec_fact. intros Hr. rewrite (proj2 (Z.ltb_ge _ _)) by done.
  apply spec_get. intros s (Hh & Hrest). rewrite Hh.
  destruct (bool_decide (h !! sig = if remove then Some x else None)) eqn:Hd.
  - apply (spec_weaken _ _ (around h i l n) _ _ (fun r s => r = 0 /\ around ((if remove then drop_handler else put_handler) (sig, x) h) i l n s)); [| by intros s' -> | done].
    eapply spec_bind; [apply sigaction_safe|]. intros r'. apply spec_fact. intros Hr'. rewrite (proj2 (Z.ltb_ge _ _)) by done.
    intros s1 (Hh1 & Hrest1). split; [done|]. split; [|exact Hrest1]. cbn. rewrite Hh1.
    destruct remove; unfold drop_handler, put_handler; cbn [fst snd]; [by rewrite Hd | apply bool_decide_eq_true in Hd; by rewrite Hd].
  - intros s' ->. split; [done|]. split; [|exact Hrest]. rewrite Hh.
    destruct remove; unfold drop_handler, put_handler; cbn [fst snd]; [by rewrite Hd|]. apply bool_decide_eq_false in Hd. by destruct (h !! sig).
Qed.

Lemma set_all_safe i sigs x : forall h, spec (around h i l n) any (FuseSignals._fuse_set_signal_handlers env sigs x)
  (fun r s => r = 0 /\ around (foldr put_handler h (reverse ((fun sig => (sig, x)) <$> sigs))) i l n s).
Proof.
  induction sigs as [|sig sigs IH]; intros h; [by intros s Hs|]. cbn [FuseSignals._fuse_set_signal_handlers].
  eapply spec_bind; [apply (set_one_safe h i sig x false)|]. intros r. apply spec_pre. intros s [-> Hs].
  rewrite fmap_cons, reverse_cons, foldr_app. eapply spec_weaken; [apply IH | by intros s' -> | done].
Qed.

Lemma remove_all_safe i sigs x : forall h, spec (around h i l n) any (FuseSignals._fuse_remove_signal_handlers env sigs x)
  (fun _ => around (foldr drop_handler h (reverse ((fun sig => (sig, x)) <$> sigs))) i l n).
Proof.
  induction sigs as [|sig sigs IH]; intros h; [by intros s Hs|]. cbn [FuseSignals._fuse_remove_signal_handlers].
  eapply spec_bind; [apply (set_one_safe h i sig x true)|]. intros r. apply spec_pre. intros s [-> Hs].
  rewrite fmap_cons, reverse_cons, foldr_app. eapply spec_weaken; [apply IH | by intros s' -> | done].
Qed.

Lemma set_handlers_safe h i se : spec (around h i l n) any (FuseSignals.fuse_set_signal_handlers env se)
  (fun r s => r = 0 /\ around (installed h) (Some se) l n s).
Proof.
  eapply spec_bind; [apply set_all_safe|]. intros r. apply spec_pre. intros s [-> Hs]. cbn [Z.ltb Z.compare].
  eapply spec_weaken; [|by intros s' ->; exact Hs | by intros a s1 H1; exact H1].
  eapply spec_bind; [apply set_all_safe|]. intros r'. apply spec_pre. intros s1 [-> Hs1]. cbn [Z.ltb Z.compare].
  intros s2 ->. destruct Hs1 as (Hh & _ & Hl & Hn). by split_and!.
Qed.

Lemma installed_removed h : foreign h ->
  foldr drop_handler (installed h) (reverse (((fun sig => (sig, ExitHandler)) <$> FuseSignals.teardown_sigs) ++
    ((fun sig => (sig, DoNothing)) <$> FuseSignals.ignore_sigs) ++ ((fun sig => (sig, ExitBacktrace)) <$> FuseSignals.fail_sigs))) = h.
Proof.
  intros Hf. assert (forall sig x, x <> Foreign -> x <> IntrHandler -> h !! sig <> Some x) as Hno by (intros sig x H1 H2 Hx; by destruct (Hf sig x Hx)).
  unfold installed. set (own := reverse session_handlers). vm_compute in own. subst own.
  set (gone := reverse _). vm_compute in gone. subst gone. cbn [foldr].
  repeat match goal with
  | |- context [drop_handler ?x (put_handler ?x h)] => rewrite (drop_put x h) by (by apply Hno)
  | |- context [drop_handler ?x (put_handler ?y ?g)] => rewrite (drop_put_ne x y g) by done
  end.
  by rewrite !(drop_absent _ h) by (by apply Hno).
Qed.

Lemma remove_handlers_safe h se : foreign h -> spec (around (installed h) (Some se) l n) any (FuseSignals.fuse_remove_signal_handlers env se)
  (fun _ => around h None l n).
Proof.
  intros Hf. apply spec_get. intros s (Hh & Hi & Hl & Hn). rewrite Hi, bool_decide_eq_true_2 by done.
  eapply (spec_bind _ _ _ _ (fun _ => around (installed h) None l n)); [intros s' ->; exact (conj Hh (conj eq_refl (conj Hl Hn)))|]. intros [].
  do 2 (eapply spec_bind; [apply remove_all_safe|]; intros []). eapply spec_weaken; [apply remove_all_safe | done|].
  intros ? s1. rewrite <- !foldr_app, <- !reverse_app, <- ?app_assoc. by rewrite installed_removed.
Qed.
End signals.

(** ** A run of the main function *)

Section main.
Context {os : Type} `{Syscalls os} (env : list (syscall * Z) -> syscall -> Z) (realpath : str -> option str).
Context (loop_mt : forall A, FuseLoopMt.fuse_loop_config -> FuseSession.fuse_session (os := os) (A := A) -> outcome (Z * FuseSession.fuse_session (os := os) (A := A))).

(** At the end no module is left, and the contexts have one user less. *)
Lemma put_all_safe h i n fuel : forall l, spec (around h i l n) any (put_all fuel) (fun _ => around h i [] n).
Proof.
  induction fuel as [|fuel IH]; intros l; [done|]. apply spec_get. intros s (Hh & Hi & Hl & Hn). rewrite Hl.
  destruct l as [|m l]; [intros s' ->; by split_and!|].
  eapply (spec_bind _ _ _ _ (fun _ => around h i (put_module m.(m_name) (m :: l)) n)); [|intros []; apply IH].
  intros s' ->. cbn. split_and!; try done. by rewrite Hl.
Qed.

Lemma destroy_safe h i l n (f : fuse_made os) : spec (around h i l n) any (fuse_destroy env f) (fun _ => around h i [] (n - 1)).
Proof.
  unfold fuse_destroy. match goal with |- context [if ?b then _ else _] => destruct b end; [by intros s Hs|].
  eapply spec_bind; [apply (keep_lift h i l n)|]. intros [u s]. cbn beta.
  eapply spec_bind; [apply spec_get; intros s1 Hs1; eapply spec_weaken; [apply (put_all_safe h i n _ l) | by intros s' -> | intros x s' Hs'; exact Hs']|].
  intros x. cbn beta. eapply (spec_bind _ _ _ _ (fun _ => around h i [] n)).
  - apply keep_bind; [apply keep_lift|]. intros [v s2]. apply keep_bind; [|intros ?; apply keep_ret].
    destruct (negb _); [apply keep_close | apply keep_ret].
  - intros f'. intros s3 (Hh & Hi & Hl & Hn). split_and!; try done. cbn. rewrite Hn. done.
Qed.

Lemma run_loop_keep h i l n fuel start rounds opts (f : fuse_made os) :
  spec (around h i l n) any (run_loop loop_mt fuel start rounds opts f) (fun _ => around h i l n).
Proof.
  apply keep_bind; [apply keep_lift|]. intros single. destruct (negb _).
  - apply keep_bind; [apply keep_lift|]. intros [res s]. apply keep_ret.
  - apply keep_bind; [apply keep_alloc|]. intros ok. destruct (FuseLoopMt.fuse_loop_cfg_create ok); [|apply keep_ret].
    do 3 (apply keep_bind; [apply keep_lift|]; intros ?). cbv zeta. apply keep_bind; [apply keep_lift|]. intros [res s]. apply keep_ret.
Qed.

(** What is left of a run that ended with a code. *)
Definition ended (h : gmap Z handler) (n : Z) (code : Z) (s : process) : Prop :=
  code ∈ [0; 4; 5; 7; 8] /\ s.(fuse_modules) = [] /\ s.(fuse_context_ref) = n /\
  if code =? 7 then s.(handlers) = installed h /\ s.(fuse_instance) = Some SESSION
  else s.(handlers) = h /\ s.(fuse_instance) = None.

Context (Henv : forall cs sig b, 0 <= env cs (SSigaction sig b)).

Lemma run_safe h l n fuel start rounds opts mnt (f : fuse_made os) : foreign h ->
  spec (around h None l n) any (mount_and_run env realpath loop_mt fuel start rounds opts mnt f) (fun r => ended h (n - 1) r.1).
Proof.
  intros Hf. eapply spec_bind; [apply keep_bind; [apply keep_session_mount|]; intros [r mt]; apply keep_ret|].
  intros [r f1]. cbn beta iota. destruct (negb (r =? 0)).
  { eapply spec_bind; [apply destroy_safe|]. intros f2. intros s (Hh & Hi & Hl & Hn). split_and!; try done. by set_solver. }
  eapply spec_bind; [apply keep_lift|]. intros fg. eapply spec_bind; [apply keep_daemonize|]. intros r'. cbn beta.
  eapply (spec_bind _ _ _ _ (fun x s => exists l' i' h', around h' i' l' n s /\ x.1 ∈ [0; 5; 7; 8] /\
    if x.1 =? 7 then h' = installed h /\ i' = Some SESSION else h' = h /\ i' = None)).
  - destruct (negb (r' =? 0)); [intros s Hs; exists l, None, h; split_and!; [done | set_solver | done..]|].
    eapply spec_bind; [by apply set_handlers_safe|]. intros r2. apply spec_pre. intros s0 [-> Hs0]. cbn [Z.eqb negb].
    eapply spec_weaken; [|by intros s' ->; exact Hs0 | by intros x s' Hs'; exact Hs'].
    eapply spec_bind; [apply run_loop_keep|]. intros [[res|] f2]; cbn beta iota.
    + eapply spec_bind; [by apply remove_handlers_safe|]. intros [] s Hs. exists l, None, h.
      split_and!; [done | destruct (res =? 0); set_solver | destruct (res =? 0); by split].
    + intros s Hs. exists l, (Some SESSION), (installed h). split_and!; [done | set_solver | by split].
  - intros [code f2]. apply spec_pre. intros s0 (l' & i' & h' & Hs0 & Hcode & Hend). cbn [Datatypes.fst] in *.
    eapply spec_weaken; [|by intros s' ->; exact Hs0 | by intros x s' Hs'; exact Hs'].
    eapply spec_bind; [apply keep_bind; [apply keep_session_unmount|]; intros mt; apply keep_ret|].
    intros f3. cbn beta. eapply spec_bind; [apply destroy_safe|]. intros f4 s (Hh & Hi & Hl & Hn).
    split_and!; [revert Hcode; rewrite !elem_of_cons; tauto | done | done |]. rewrite Hh, Hi. exact Hend.
Qed.
Lemma spec_any {S A} (I : S -> Prop) E (m : prog S A) Q : spec I E m Q -> spec I any m Q.
Proof. intros Hm s Hs. specialize (Hm s Hs). by destruct (m s). Qed.

(** From an earlier state on. *)
Lemma made_from name (s0 s1 : process) n (r : option (fuse_made os) * option fuse_args) s : same s0 n s1 ->
  fuse_new_made name s1 s1.(fuse_context_ref) r s -> fuse_new_made name s0 n r s.
Proof.
  intros (H1 & H2 & H3 & H4). unfold fuse_new_made, same. rewrite H1, H2, H3, H4. done.
Qed.

(** How a run of the main function leaves the process. *)
Definition main_ended (s0 : process) (r : Z * option (fuse_made os)) (s : process) : Prop :=
  match r.2 with
  | None => r.1 ∈ [0; 1; 2; 3] /\ same s0 s0.(fuse_context_ref) s
  | Some _ => ended s0.(handlers) s0.(fuse_context_ref) r.1 s
  end.

Lemma main_safe name rest (fs : layer os) page clock pipes m h o sends fuel rounds s0 :
  Forall (fun a => NUL ∉ a) (name :: rest) -> foreign s0.(handlers) -> s0.(fuse_instance) = None ->
  spec (same s0 s0.(fuse_context_ref)) any
    (fuse_main_real_versioned env realpath loop_mt (name :: rest) fs page clock pipes m h o sends fuel rounds) (main_ended s0).
Proof.
  intros Hargs Hf Hi0. set (n := s0.(fuse_context_ref)).
  assert (forall c : Z, c ∈ [0; 1; 2; 3] -> spec (same s0 n) any (pret (c, None)) (main_ended s0)) as Hret by (intros c Hc s Hs; by split).
  eapply spec_bind.
  { apply (with_heap_same _ _ _ _ (fun r => kept name r.1.2 /\ typed cmdline_start r.2)). intros mem.
    destruct (cmdline_total name rest false Hargs realpath mem) as (rc & a & d & m' & Hc & _ & Hd & Ha). unfold FUSE_ARGS_INIT. by rewrite Hc. }
  intros [[r args] opts]. apply spec_fact. cbn [Datatypes.fst Datatypes.snd]. intros [Ha Hd].
  destruct (negb (r =? 0)); [apply Hret; set_solver|].
  destruct (typed_int cmdline_start opts show_version 0 Hd eq_refl) as [version Hv]. apply (spec_lift_bind _ _ _ _ _ _ Hv).
  destruct (typed_int cmdline_start opts show_help 0 Hd eq_refl) as [help Hh]. apply (spec_lift_bind _ _ _ _ _ _ Hh).
  destruct (typed_text cmdline_start opts mountpoint None Hd eq_refl) as [mnt Hm]. apply (spec_lift_bind _ _ _ _ _ _ Hm).
  destruct (negb (version =? 0)).
  { eapply (spec_bind _ _ _ _ (fun _ => same s0 n)); [|intros []; apply Hret; set_solver].
    eapply (spec_bind _ _ _ _ (fun _ => same s0 n)); [|intros ?; by intros s].
    eapply spec_bind; [apply sys_same|]. intros st. eapply (spec_bind _ _ _ _ (fun _ => same s0 n)); [destruct (negb _); [apply sys_same | by intros s]|].
    intros st'. destruct (negb _); [by intros s|]. eapply spec_bind; [apply sys_same|]. intros ?. by intros s. }
  destruct (negb (help =? 0)); [apply Hret; set_solver|]. destruct mnt as [mnt|]; [|apply Hret; set_solver].
  apply spec_pre. intros s2 Hs2. eapply spec_bind; [apply (spec_any _ (new_fault env (Some args) (Datatypes.snd (allocates s2.(heap))))), (new_safe env name s2 fs args page clock pipes m h o sends Ha)|].
  intros [made args']. apply spec_pre. intros s1 Hs1. apply (made_from name s0 s2 n _ _ Hs2) in Hs1. cbn [fuse_new_made Datatypes.fst] in Hs1.
  destruct made as [f|]; [|intros s' ->; split; [set_solver | exact Hs1]]. destruct Hs1 as [(Hfd & Hhd & Hin & Hn) _].
  assert (around s0.(handlers) None s1.(fuse_modules) (n + 1) s1) as Har by (split_and!; [done | by rewrite Hin | done | done]).
  eapply spec_weaken; [|intros s' ->; exact Har | by intros x s' Hs'; exact Hs'].
  eapply spec_bind; [by apply run_safe|]. intros [code f'] s Hs. unfold main_ended. cbn [Datatypes.fst Datatypes.snd] in *.
  by replace (n + 1 - 1) with n in Hs by lia.
Qed.
End main.

(** ** Properties *)

(** C20: whatever the arguments of a program are, and whichever allocations fail, the
  parsers of libfuse for its command line, for options of the connection, of mounting
  and of the module subdir end without a fault; every variable keeps its type, so that
  options of the connection can be applied to any connection; and what is left of the
  arguments begins with the name of the program. *)
Theorem options_never_abort realpath name rest alloc m :
  Forall (fun a => NUL ∉ a) (name :: rest) ->
  let args := mk_args (Some (name :: rest)) alloc in
  (exists rc a d m', fuse_parse_cmdline_312 realpath args m = Ok (rc, a, d, m') /\
     (rc = 0 \/ rc = -1) /\ typed cmdline_start d /\ kept name a) /\
  (exists o a m', fuse_parse_conn_info_opts (Some args) m = Ok (o, Some a, m') /\ kept name a /\
     forall d c, o = Some d -> exists c', fuse_apply_conn_info_opts d c = Ok c') /\
  (exists o a m', parse_mount_opts (Some args) m = Ok (o, Some a, m') /\ kept name a /\
     forall d, o = Some d -> typed mount_start d) /\
  (forall S D (next : list (fuse_operations S D)),
     exists o a m', subdir_new (Some args) next m = Ok (o, Some a, m') /\ kept name a).
Proof.
  intros Hargs args. split_and!.
  - by apply (cmdline_total name rest).
  - destruct (conn_total name rest alloc Hargs m) as (o & a & m' & Hrun & Ha & Ho). exists o, a, m'.
    split_and!; [done.. |]. intros d c Hd. by apply apply_total, Ho.
  - by apply (mount_opts_total name rest).
  - intros S D next. by apply (subdir_total name rest).
Qed.

(** C21: fuse_new, whatever its arguments are, whichever allocations fail and whatever
  the system answers, ends with a file system or with none, and leaves descriptors and
  handlers alone.  If it makes a file system, the options of mounting have their types,
  nothing is mounted, no argument but the name of the program was left, and the key of
  the contexts has one user more; if not, the key has as many as before.  Nothing in it
  reads or writes out of bounds or aborts: the model gives no result only where it ends
  itself, and that is where its own options cannot be parsed (a timeout in one of the
  notations that are not modelled), or where the option modules names a module other
  than subdir (iconv is one), or one that dlopen finds in a file of its own. *)
Theorem fuse_new_settled {os} `{Syscalls os} env name rest alloc (fs : layer os) page clock pipes m h o sends s :
  Forall (fun a => NUL ∉ a) (name :: rest) ->
  let args := Some (mk_args (Some (name :: rest)) alloc) in
  match _fuse_new_31 env args fs page clock pipes m h o sends s with
  | Ok (r, s') => fuse_new_made name s s.(fuse_context_ref) r s'
  | Fail f => new_fault env args (Datatypes.snd (allocates s.(heap))) f
  end.
Proof.
  intros Hargs. apply (new_safe env name s fs _); [by exists rest, alloc | done].
Qed.

(** C22: how a run of the main function that ends leaves the process, where sigaction
  works, no handler of libfuse was set before and its handlers knew no session.  Either it
  ends with one of the codes 0 to 3 and no file system was made (help, no mount point, a bad command line, fuse_new
  without a result): then descriptors, handlers of signals and the session they know
  are as before, and the key of the contexts has as many users as before.  Or a file
  system was made, and it ends with 0, 4, 5, 7 or 8: then no module is left registered and
  the key has as many users as before, and with every code but 7 the handlers are as
  they were and know no session.  With 7, when there was no memory for the
  configuration of the loop, the handlers of libfuse stay, and still know the session. *)
Theorem main_gives_back {os} `{Syscalls os} env realpath loop_mt name rest (fs : layer os) page clock pipes m h o sends fuel rounds s r s' :
  Forall (fun a => NUL ∉ a) (name :: rest) -> foreign s.(handlers) -> s.(fuse_instance) = None ->
  (forall cs sig b, 0 <= env cs (SSigaction sig b)) ->
  fuse_main_real_versioned env realpath loop_mt (name :: rest) fs page clock pipes m h o sends fuel rounds s = Ok (r, s') ->
  main_ended s r s'.
Proof.
  intros Hargs Hf Hi Henv Hrun.
  pose proof (main_safe env realpath loop_mt Henv name rest fs page clock pipes m h o sends fuel rounds s Hargs Hf Hi s) as Hm.
  rewrite Hrun in Hm. apply Hm. by split_and!.
Qed.

(** ** Concrete runs *)

(** Nothing can be read or written: the device is gone. *)
#[local] Instance no_files : Syscalls unit := {|
  sys_write o _ _ := (Err EIO, o);
  sys_pwrite o _ _ _ := (Err EIO, o);
  sys_read o _ _ := (Err ENODEV, o);
  sys_pread o _ _ _ := (Err EIO, o);
  sys_splice o _ _ _ _ _ _ := (Err EIO, o);
|}.

(** A system where every call works, and there is no mtab. *)
Definition works (l : list (syscall * Z)) (c : syscall) : Z :=
  match c with SStat _ => 0x41ed | SLstat _ => - ENOENT | _ => 0 end.

Definition server_start : world toy := match main_setup toy_chat toy_tok toy_empty with Ok w => w | Fail _ => toy_world [] end.
Definition program : layer unit := mk_layer (world toy) hello_oper 0 server_start.
Definition no_threads A (c : FuseLoopMt.fuse_loop_config) (s : FuseSession.fuse_session (os := unit) (A := A)) :
  outcome (Z * FuseSession.fuse_session (os := unit) (A := A)) := Ok (0, s).

(** Standard descriptors, a handler of the program for SIGINT, and this memory. *)
Definition shell (mem : list bool) : process :=
  process_start (list_to_map ((fun fd => (fd, Other)) <$> [0; 1; 2])) {[ 2 := Foreign ]} mem.

Definition run_main (rest : list str) (mem : list bool) :=
  fuse_main_real_versioned works Some no_threads (lit "prog" :: rest) program 4096 0 false [] ∅ tt [] 20 [] (shell mem).

Definition demo_args : list str := map lit ["prog"; "/mnt"; "-f"; "-o"; "fsname=a,max_write=7,uid=3"; "-oro,subdir=/x"]%string.

Lemma options_never_abort_witness :
  (exists rc a d m', fuse_parse_cmdline_312 Some (FUSE_ARGS_INIT demo_args) [] = Ok (rc, a, d, m') /\
     (rc = 0 \/ rc = -1) /\ typed cmdline_start d /\ kept (lit "prog") a) /\
  (exists o a m', parse_mount_opts (Some (FUSE_ARGS_INIT demo_args)) [] = Ok (o, Some a, m') /\ kept (lit "prog") a /\
     forall d, o = Some d -> typed mount_start d).
Proof.
  pose proof (options_never_abort Some (lit "prog") (drop 1 demo_args) false [] ltac:(by apply (bool_decide_unpack _))) as (H1 & _ & H2 & _).
  exact (conj H1 H2).
Defined.

Lemma fuse_new_settled_witness :
  let run := _fuse_new_31 works (Some (FUSE_ARGS_INIT (map lit ["prog"; "-ouid=3,modules=subdir,subdir=/x"]%string))) program 4096 0 false [] ∅ tt [] (shell []) in
  (match run with Ok ((Some _, _), _) => true | _ => false end) = true /\
  match run with
  | Ok (r, s') => fuse_new_made (lit "prog") (shell []) 0 r s'
  | Fail f => new_fault works (Some (FUSE_ARGS_INIT (map lit ["prog"; "-ouid=3,modules=subdir,subdir=/x"]%string))) (Datatypes.snd (allocates [])) f
  end.
Proof.
  split; [by vm_compute|].
  apply (fuse_new_settled works (lit "prog") [lit "-ouid=3,modules=subdir,subdir=/x"] false program 4096 0 false [] ∅ tt [] (shell [])).
  by apply (bool_decide_unpack _).
Defined.

(** The exit code *)
Definition code_of {A} (r : outcome (Z * option A * process)) : option Z := match r with Ok (x, _) => Some x.1 | Fail _ => None end.

Lemma main_demo rest mem code : code_of (run_main rest mem) = Some code ->
  exists r s', run_main rest mem = Ok (r, s') /\ r.1 = code.
Proof. intros Hc. unfold code_of in Hc. destruct (run_main _ _) as [[r s']|]; [|done]. injection Hc as Hc. by exists r, s'. Qed.

(** Runs that end with 0, and with 7 when the 47th allocation fails. *)
Lemma main_gives_back_witness : let short := replicate 46 true ++ [false] in
  (exists r s', run_main [lit "/mnt"; lit "-f"; lit "-s"] [] = Ok (r, s') /\ r.1 = 0 /\ main_ended (shell []) r s') /\
  (exists r s', run_main [lit "/mnt"; lit "-f"] short = Ok (r, s') /\ r.1 = 7 /\ main_ended (shell short) r s').
Proof.
  intros short. assert (forall mem, foreign (shell mem).(handlers)) as Hf.
  { intros mem sig x Hx. change (({[ 2 := Foreign ]} : gmap Z handler) !! sig = Some x) in Hx. apply lookup_singleton_Some in Hx as [_ <-]. by left. }
  assert (forall cs sig b, 0 <= works cs (SSigaction sig b)) as Hw by done.
  assert (Forall (fun a => NUL ∉ a) [lit "prog"; lit "/mnt"; lit "-f"; lit "-s"]) as Ha by by apply (bool_decide_unpack _).
  assert (Forall (fun a => NUL ∉ a) [lit "prog"; lit "/mnt"; lit "-f"]) as Hb by by apply (bool_decide_unpack _).
  split.
  - destruct (main_demo [lit "/mnt"; lit "-f"; lit "-s"] [] 0) as (r & s' & Hrun & Hc); [by vm_compute|]. exists r, s'. split; [exact Hrun|]. split; [exact Hc|].
    unfold run_main in Hrun. exact (main_gives_back works Some no_threads _ _ program 4096 0 false [] ∅ tt [] 20 [] (shell []) r s' Ha (Hf []) eq_refl Hw Hrun).
  - destruct (main_demo [lit "/mnt"; lit "-f"] short 7) as (r & s' & Hrun & Hc); [by vm_compute|]. exists r, s'. split; [exact Hrun|]. split; [exact Hc|].
    unfold run_main in Hrun. exact (main_gives_back works Some no_threads _ _ program 4096 0 false [] ∅ tt [] 20 [] (shell short) r s' Hb (Hf short) eq_refl Hw Hrun).
Defined.

End StartProps.
