(* ===== verification/MtSession.v ===== *)
(** FuseSession as a session for the loop of several threads: what the loop relies on
    holds of it, and with one thread the loop is fuse_session_loop. *)
From S2P Require Import Prelude.
From S2P Require Import CLib.
From S2P Require Import LittleEndian.
From S2P Require Import FuseTypes.
From S2P Require Import FuseBuf.
From S2P Require Import FuseFs.
From S2P Require Import FuseNodes.
From S2P Require Import FuseDirents.
From S2P Require Import FuseLib.
From S2P Require Import FuseKernel.
From S2P Require Import FuseWire.
From S2P Require Import FuseLowlevel.
From S2P Require Import FuseSession.
From S2P Require Import FuseAnswers.
From S2P Require Import FuseSessionFacts.
From S2P Require Import FuseLoop.
From S2P Require Import FuseLoopMt.
From S2P Require Import FuseLoopMtFacts.

Module MtSession.
Import LittleEndian FuseTypes FuseBuf FuseFs FuseNodes FuseDirents FuseLib FuseKernel FuseWire FuseLowlevel FuseSession FuseAnswers
  FuseSessionFacts FuseLoop FuseLoopMt FuseLoopMtFacts FuseLoopMtRuns.

(** What read(2) returns: at most 0x7ffff000 bytes, or a positive error. *)
Class ReadLaws (os : Type) `{Syscalls os} : Prop := {
  read_data : forall (o : os) fd n d o', sys_read o fd n = (Ret d, o') -> zlen d <= 0x7ffff000;
  read_err : forall (o : os) fd n e o', sys_read o fd n = (Err e, o') -> 0 < e
}.

Section session.
Context {os A : Type} `{ReadLaws os}.
#[local] Abbreviation libst := (lib (os := os) (A := A)).
#[local] Abbreviation Se := (fuse_session (os := os) (A := A)).
#[local] Abbreviation P := (prog Se).
Implicit Types (s : Se) (b : request_buf).

(** ** The flag stays *)

Create HintDb ex.

Definition ex {B} s (m : P B) : Prop := forall r s', m s = Ok (r, s') -> s'.(exited) = true.

Lemma ex_bind {B C} s (m : P B) (k : B -> P C) : ex s m -> (forall r s', s'.(exited) = true -> ex s' (k r)) -> ex s (pbind m k).
Proof. intros Hm Hk r s' (x & s1 & H1 & H2)%pbind_Ok_inv. by apply (Hk x s1 (Hm x s1 H1) r s'). Qed.
Lemma ex_get {C} s (k : Se -> P C) : ex s (k s) -> ex s (pbind pget k).
Proof. intros Hk r s'. prun_get. apply Hk. Qed.
Lemma ex_put s s1 : s1.(exited) = true -> ex s (pput s1).
Proof. intros Hs r s' He. by injection He as <- <-. Qed.
Lemma ex_change s (g : Se -> Se) : (g s).(exited) = true -> ex s (change g).
Proof. intros Hg. by apply ex_get, ex_put. Qed.
Lemma ex_ret {B} s (x : B) : s.(exited) = true -> ex s (pret x).
Proof. intros Hs r s' He. by injection He as <- <-. Qed.
Lemma ex_lift {B} s (o : outcome B) : s.(exited) = true -> ex s (plift o).
Proof. intros Hs r s' He. unfold plift in He. destruct o; [|done]. by injection He as <- <-. Qed.
Lemma ex_fail {B} s f : ex s (pfail (A := B) f).
Proof. done. Qed.
Lemma ex_lib {B} s (m : prog libst B) : s.(exited) = true -> ex s (on_lib m).
Proof. intros Hs r s' He. unfold on_lib in He. destruct (m (userdata s)) as [[x l]|]; [|done]. by injection He as <- <-. Qed.

#[local] Hint Resolve ex_change ex_ret ex_lift ex_fail ex_lib ex_put : ex.
(** Runs along a program whose updates keep the flag. *)
Ltac exs := repeat (match goal with
  | |- ex _ (pbind pget _) => apply ex_get
  | |- ex _ (pbind _ _) => apply ex_bind
  | |- forall r s', exited s' = true -> ex s' _ => let r := fresh "r" in let s := fresh "s" in let Hs := fresh "Hs" in intros r s Hs; cbn beta
  | |- ex _ (if ?c then _ else _) => destruct c
  | |- ex _ (match ?c with _ => _ end) => destruct c
  | |- ex _ (let _ := _ in _) => cbv zeta
  | |- ex _ _ => solve [auto with ex]
  end).

Lemma ex_replies s uniq l : s.(exited) = true -> ex s (write_replies uniq l).
Proof. revert s. induction l as [|r l IH]; intros s Hs; cbn [write_replies]; exs. Qed.
#[local] Hint Resolve ex_replies : ex.

Lemma ex_free s req : s.(exited) = true -> ex s (fuse_free_req req).
Proof. intros Hs. unfold fuse_free_req. exs. Qed.
#[local] Hint Resolve ex_free : ex.

Lemma ex_answer s req m : s.(exited) = true -> ex s (answer req m).
Proof. intros Hs. unfold answer. exs. Qed.
#[local] Hint Resolve ex_answer : ex.

Lemma ex_alloc_req s inh : s.(exited) = true -> ex s (fuse_ll_alloc_req inh).
Proof. intros Hs. unfold fuse_ll_alloc_req. exs. Qed.
Lemma ex_enlist s req o : s.(exited) = true -> ex s (enlist req o).
Proof. intros Hs. unfold enlist, check_interrupt. exs. Qed.
Lemma ex_interrupt s req arg : s.(exited) = true -> ex s (do_interrupt req arg).
Proof. intros Hs. unfold do_interrupt, find_interrupted. exs. Qed.
Lemma ex_call_init s : s.(exited) = true -> ex s call_init.
Proof. intros Hs. unfold call_init. exs. Qed.
#[local] Hint Resolve ex_alloc_req ex_enlist ex_interrupt ex_call_init : ex.
Lemma ex_init s req arg : s.(exited) = true -> ex s (do_init req arg).
Proof. intros Hs. unfold do_init, refuse_init. exs. Qed.
Lemma ex_destroy s req : s.(exited) = true -> ex s (do_destroy req).
Proof. intros Hs. unfold do_destroy. exs. Qed.
Lemma ex_notify_reply s req nodeid arg n : s.(exited) = true -> ex s (do_notify_reply req nodeid arg n).
Proof. intros Hs. unfold do_notify_reply. exs. Qed.
#[local] Hint Resolve ex_init ex_destroy ex_notify_reply : ex.

(** Every handler of the table. *)
Lemma ex_entry o h req nodeid arg s : entry_for o fuse_ll_ops = Some h -> s.(exited) = true -> ex s (h req nodeid arg).
Proof.
  intros Hh Hs. assert (forall l, (forall k g, In (k, g) l -> ex s (g req nodeid arg)) -> entry_for o l = Some h -> ex s (h req nodeid arg)) as Hall.
  { induction l as [|[k g] l IH]; [done|]. intros Hl. cbn [entry_for]. destruct (o =? k).
    - intros Hg. injection Hg as ->. apply (Hl k h). by left.
    - apply IH. intros k' g' Hin. apply (Hl k' g'). by right. }
  apply (Hall fuse_ll_ops); [|done]. intros k g Hin. unfold fuse_ll_ops in Hin. cbn [In] in Hin.
  repeat match goal with H : _ \/ _ |- _ => destruct H as [H|H]; [injection H as <- <-|] end; try done; unfold by_op, by_conn; exs.
Qed.

Lemma ex_process s m n : s.(exited) = true -> ex s (fuse_session_process_buf m n).
Proof.
  intros Hs. unfold fuse_session_process_buf. apply ex_bind; [auto with ex|]. intros inh s1 Hs1. apply ex_bind; [auto with ex|].
  intros [req|] s2 Hs2; [|exs]. apply ex_get. destruct (refused s2 inh); [exs|]. apply ex_bind; [auto with ex|]. intros req' s3 Hs3. apply ex_get.
  cbv zeta. destruct (_ && _); [exs|]. destruct (_ =? _); [exs|]. destruct (entry_for _ _) eqn:E; [by apply (ex_entry _ _ _ _ _ _ E) | done].
Qed.

(** ** Receiving *)

Lemma buf_alloc_ex s n i r s' : buf_alloc n i s = Ok (r, s') -> s'.(exited) = s.(exited).
Proof.
  unfold buf_alloc. intros (ok & s1 & H1 & H2)%pbind_Ok_inv. apply on_lib_inv in H1 as (u & _ & ->). rewrite (pbind_run _ _ _ _ _ (pget_run _)) in H2.
  destruct (negb ok); [by injection H2 as <- <-|]. destruct i; by injection H2 as <- <-.
Qed.

(** What the loop relies on. *)
Definition receive_ok (was : bool) (r : Z * request_buf) s : Prop :=
  (was = true -> s.(exited) = true /\ r.1 <= 0 /\ r.1 <> - EINTR) /\ (r.1 = 0 -> s.(exited) = true) /\
  (was = false -> r.1 <> 0 -> s.(exited) = false).

Lemma device_read_sys n s res s1 : device_read n s = Ok (res, s1) -> exists o o', sys_read o s.(se_fd) n = (res, o').
Proof.
  intros (u & Hu & _)%on_lib_inv. unfold in_fs, in_bs in Hu. apply obind_Ok_inv in Hu as ([x t] & Hu & He). apply obind_Ok_inv in Hu as ([y t'] & Hu & He').
  unfold call in Hu. rewrite (pbind_run _ _ _ _ _ (pget_run _)) in Hu. destruct (sys_read _ _ _) as [r0 o'] eqn:Hr in Hu. injection Hu as -> <-. injection He' as -> <-.
  injection He as -> <-. by eexists _, o'.
Qed.

Lemma device_result n s res s1 : device_read n s = Ok (res, s1) -> match res with Ret d => zlen d <= 0x7ffff000 | Err e => 0 < e end.
Proof. intros (o & o' & Hr)%device_read_sys. destruct res; [by apply read_data in Hr | by apply read_err in Hr]. Qed.

Lemma not_zero (r : Z) bf s : r <> 0 -> s.(exited) = false -> receive_ok false (r, bf) s.
Proof. intros Hr He. split; [done|]. split; [intros He'; by destruct Hr | done]. Qed.

Lemma receive_alloc_inv {B} n i s (k : option (list cell) -> P B) x : pbind (buf_alloc n i) k s = Ok x ->
  exists o s1, s1.(exited) = s.(exited) /\ k o s1 = Ok x.
Proof.
  destruct x as [r s']. intros (o & s1 & H1 & H2)%pbind_Ok_inv. exists o, s1. split; [by apply buf_alloc_ex in H1 | done].
Qed.

Lemma read_request_ok fuel m ms n i s r s' : read_request fuel m ms n i s = Ok (r, s') -> receive_ok s.(exited) r s'.
Proof.
  revert m ms n s. induction fuel as [|fuel IH]; intros m ms n s; [done|]. cbn [read_request]. prun_get.
  intros (res & s1 & H1 & H2)%pbind_Ok_inv. pose proof (device_result _ _ _ _ H1) as Hres. pose proof (device_read_inv _ _ _ _ H1) as [u ->].
  apply pbind_Ok_inv in H2 as (m1 & s1' & H3 & H2). unfold plift in H3. apply obind_Ok_inv in H3 as (m2 & _ & H3). injection H3 as -> <-.
  rewrite (pbind_run _ _ _ _ _ (pget_run _)) in H2. cbn [set_userdata exited] in H2. destruct (exited s) eqn:He.
  { injection H2 as <- <-. unfold receive_ok. cbn. by rewrite He. }
  destruct res as [data|err].
  - destruct (Z.ltb_spec (zlen data) IN_HEADER_SIZE); injection H2 as <- <-; (apply not_zero; [|exact He]); [done|].
    unfold IN_HEADER_SIZE in *. rewrite swrap_small; lia.
  - destruct (_ && _ && _).
    + apply receive_alloc_inv in H2 as (o & s1 & Hx & H2). cbn in Hx; rewrite He in Hx. destruct o; [rewrite <- Hx; by apply (IH _ _ _ _ H2)|].
      injection H2 as <- <-. by apply not_zero.
    + destruct (err =? ENOENT); [rewrite <- He; by apply (IH _ _ _ _ H2)|].
      destruct (err =? ENODEV); [|injection H2 as <- <-; apply not_zero; [lia | exact He]].
      rewrite (pbind_run _ _ _ _ _ (eq_refl : fuse_session_exit _ = Ok (tt, _))) in H2. injection H2 as <- <-. by split.
Qed.

Lemma receive_internal_ok fuel b s r s' : fuse_session_receive_buf_internal fuel b s = Ok (r, s') -> receive_ok s.(exited) r s'.
Proof.
  unfold fuse_session_receive_buf_internal. prun_get. rewrite note_run. rewrite <- (noted_exited s). generalize (noted s) as s0. clear s. intros s.
  unfold fuse_session_receive_buf_. prun_get. destruct (_ && _ && _); [done|]. destruct (rb_mem b) as [m|]; [apply read_request_ok|].
  intros (o & s1 & Hx & Hr)%receive_alloc_inv. rewrite <- Hx. destruct o; [by apply read_request_ok in Hr|]. injection Hr as <- <-.
  split; [|split; [done|]]; intros Hs; [split_and!; done | by intros _].
Qed.

(** ** The interface *)

(** From the descriptor of a channel, or the session's own. *)
Definition session_receives s (ch : option Z) b (r : Z) b' s' : Prop := exists fuel s1,
  fuse_session_receive_buf_internal fuel b (match ch with None => s | Some fd => set_fd fd s end) = Ok ((r, b'), s1) /\
  s' = match ch with None => s1 | Some _ => set_fd s.(se_fd) s1 end.

Definition session_processes s b s' : Prop := exists m, b.(rb_mem) = Some m /\ fuse_session_process_buf m b.(rb_size) s = Ok (tt, s').

#[export] Instance session_ops : SessionOps Se request_buf := {|
  sx_exited := exited;
  sx_error := se_error;
  sx_exit := fun s => set_exit true s.(se_error) s;
  sx_reset := set_exit false 0;
  sx_empty := mk_request_buf None 0 0;
  sx_opcode := fun b => match b.(rb_mem) with Some m => match read_in_header m with Ok inh => Some inh.(opcode) | Fail _ => None end | None => None end;
  sx_receives := session_receives;
  sx_processes := session_processes
|}.

Lemma session_receives_ok s ch b r b' s' : session_receives s ch b r b' s' -> receive_ok s.(exited) (r, b') s'.
Proof. intros (fuel & s1 & Hr & ->). apply receive_internal_ok in Hr. destruct ch; exact Hr. Qed.

#[export] Instance session_laws : SessionLaws Se request_buf.
Proof.
  split; cbn.
  - done.
  - intros s ch b r b' s' (Hr & _)%session_receives_ok Hs. by apply Hr.
  - intros s ch b r b' s' (Hr & _)%session_receives_ok Hs. by apply Hr.
  - intros s ch b b' s' (_ & Hr & _)%session_receives_ok. by apply Hr.
  - intros s b s' (m & _ & Hp) Hs. by apply (ex_process _ _ _ Hs _ _ Hp).
Qed.

(** ** One thread *)

Section one.
Context (config : fuse_loop_config) (Hone : i32 config.(cfg_max_threads) <= 1).

(** One thread, and the main thread has not looked yet. *)
Definition single (ph : phase) (na : Z) b s (err : Z) : fuse_mt Se request_buf :=
  mk_mt s 1 na 0 false err 0 config.(max_idle_threads) (i32 config.(cfg_max_threads)) [mk_worker ph b None false] [] MainChecks.

Definition acts (ev : event) : Prop := ev = EWorker \/ ev = EMain.

Lemma thread_acts mt mt1 mt2 : step EWorker mt mt1 -> run acts mt1 mt2 -> run acts mt mt2.
Proof. apply run_first. by left. Qed.

(** A request is taken, served and done with, and no other thread is started. *)
Lemma single_serves res b m s s' : 0 < res -> b.(rb_mem) = Some m -> fuse_session_process_buf m b.(rb_size) s = Ok (tt, s') ->
  run acts (single (Received res) 1 b s 0) (single Checking 1 b s' 0).
Proof.
  intros Hr Hm Hp. set (mt := single (Received res) 1 b s 0). set (w := mk_worker (Received res) b None false).
  set (f := is_forget w). set (na := if f then 1 else 0).
  pose (e := mk_start_env true None 0 0 true true).
  assert (takes_request e 0 w mt = (false, single (Working f) na b s 0)) as Ht.
  { unfold takes_request. cbn [mt single exit]. fold f. unfold na. assert ((1 <? i32 (cfg_max_threads config)) = false) as Hlt by (apply Z.ltb_ge; lia).
    destruct f; cbn -[Z.ltb swrap]; by rewrite ?Hlt. }
  pose proof (st_takes 0 w mt res e eq_refl eq_refl Hr) as Hst. rewrite Ht in Hst. apply (thread_acts _ _ _ Hst).
  pose proof (st_process 0 (mk_worker (Working f) b None false) (single (Working f) na b s 0) f s' eq_refl eq_refl) as Hst2.
  apply (thread_acts _ (single (Worked f) na b s' 0)); [apply Hst2; by exists m|].
  pose proof (st_done 0 (mk_worker (Worked f) b None false) (single (Worked f) na b s' 0) f eq_refl eq_refl) as Hst3.
  assert (done_request 0 (mk_worker (Worked f) b None false) f (single (Worked f) na b s' 0) = single Checking 1 b s' 0) as <-; [|by apply (thread_acts _ _ _ Hst3), run_refl].
  unfold done_request, na. destruct f; cbn; by rewrite andb_false_r.
Qed.

Lemma single_receives fuel b s r b' s' : s.(exited) = false -> fuse_session_receive_buf_internal fuel b s = Ok ((r, b'), s') ->
  run acts (single Checking 1 b s 0) (single (Received r) 1 b' s' 0).
Proof.
  intros He Hr. pose proof (st_check 0 (mk_worker Checking b None false) (single Checking 1 b s 0) eq_refl eq_refl) as H1.
  apply (thread_acts _ (single Receiving 1 b s 0)); [cbn in H1; by rewrite He in H1|].
  pose proof (st_receive 0 (mk_worker Receiving b None false) (single Receiving 1 b s 0) r b' s' eq_refl eq_refl) as H2.
  apply (thread_acts _ (single (Received r) 1 b' s' 0)); [|apply run_refl]. apply H2. by exists fuel, s'.
Qed.

(** What the loop of one thread returns is the error of the other, and the sessions
    are the same when they are reset. *)
Definition same_end (r : Z) s (err : Z) s1 : Prop :=
  s1.(exited) = true /\ s1.(se_error) = s.(se_error) /\ set_exit false 0 s1 = set_exit false 0 s /\ err = (if 0 <? r then 0 else r).

Lemma session_loop_single fuel b res s r s' : session_loop fuel b res s = Ok (r, s') -> 0 <= res \/ s.(exited) = false ->
  exists err b1 s1, run acts (single Checking 1 b s 0) (single Leaving 1 b1 s1 err) /\ same_end r s' err s1.
Proof.
  revert b res s. induction fuel as [|fuel IH]; intros b res s; [done|]. cbn [session_loop]. prun_get. intros Hl Hres.
  destruct (exited s) eqn:He.
  { injection Hl as <- <-. destruct Hres as [Hres|]; [|done]. exists 0, b, s. split.
    - pose proof (st_check 0 (mk_worker Checking b None false) (single Checking 1 b s 0) eq_refl eq_refl) as H1. cbn in H1. rewrite He in H1.
      apply (thread_acts _ _ _ H1), run_refl.
    - unfold same_end. split_and!; [done..|]. destruct (Z.ltb_spec 0 res); lia. }
  apply pbind_Ok_inv in Hl as ([r1 b1] & s1 & Hr & Hl). pose proof (receive_internal_ok _ _ _ _ _ Hr) as (_ & Hz & Hn). cbn in Hz, Hn.
  pose proof (single_receives _ _ _ _ _ _ He Hr) as Hrun. set (w := mk_worker (Received r1) b1 None false).
  destruct (Z.eqb_spec r1 (- EINTR)) as [->|Hne].
  { destruct (IH _ _ _ Hl) as (err & b2 & s2 & Hrun2 & Hsame); [right; by apply Hn|]. exists err, b2, s2. split; [|done].
    apply (run_trans _ _ _ _ Hrun). pose proof (st_no_request 0 w (single (Received (- EINTR)) 1 b1 s1 0) (- EINTR) eq_refl eq_refl ltac:(done)) as H1.
    by apply (thread_acts _ _ _ H1). }
  destruct (Z.leb_spec r1 0) as [Hle|Hgt].
  { injection Hl as <- <-. pose proof (st_no_request 0 w (single (Received r1) 1 b1 s1 0) r1 eq_refl eq_refl Hle) as H1.
    unfold no_request in H1. rewrite (proj2 (Z.eqb_neq _ _) Hne) in H1. destruct (Z.ltb_spec r1 0) as [Hlt|Hge].
    - exists r1, b1, (set_exit true s1.(se_error) s1). split; [apply (run_trans _ _ _ _ Hrun), (thread_acts _ _ _ H1), run_refl|].
      unfold same_end. split_and!; [done..|]. destruct (Z.ltb_spec 0 r1); lia.
    - assert (r1 = 0) as -> by lia. exists 0, b1, s1. split; [apply (run_trans _ _ _ _ Hrun), (thread_acts _ _ _ H1), run_refl|].
      unfold same_end. split_and!; [by apply Hz | done..]. }
  apply pbind_Ok_inv in Hl as (m & s2 & Hm & Hl). unfold plift in Hm. apply obind_Ok_inv in Hm as (m' & Hm & He2). injection He2 as -> <-. apply lift_fault_Ok in Hm.
  apply pbind_Ok_inv in Hl as ([] & s3 & Hp & Hl). destruct (IH _ _ _ Hl) as (err & b2 & s4 & Hrun2 & Hsame); [left; lia|].
  exists err, b2, s4. split; [|done]. apply (run_trans _ _ _ _ Hrun). by apply (run_trans _ _ _ _ (single_serves r1 b1 m s1 s3 Hgt Hm Hp)).
Qed.

(** The thread posts, the main thread looks, joins and returns. *)
Lemma single_ends b s err : s.(exited) = true ->
  exists mt, run acts (single Leaving 1 b s err) mt /\ mt.(main) = MainDone (if negb (s.(se_error) =? 0) then s.(se_error) else err) /\ mt.(mt_se) = set_exit false 0 s.
Proof.
  intros He. set (mt0 := single Leaving 1 b s err). set (w := mk_worker Leaving b None false).
  set (mt1 := set_finish 1 (single Gone 1 b s err)). assert (step EWorker mt0 mt1) as H1 by exact (st_post 0 w mt0 eq_refl eq_refl).
  set (mt2 := cancels mt1). assert (step EMain mt1 mt2) as H2.
  { pose proof (st_main_checks mt1 eq_refl) as Hst. cbn in Hst. by rewrite He in Hst. }
  set (mt3 := fuse_join_worker (mk_worker Gone b None true) [] mt2).
  assert (step EMain mt2 mt3) as H3 by exact (st_join (mk_worker Gone b None true) [] mt2 eq_refl eq_refl eq_refl).
  assert (step EMain mt3 (returns mt3.(error) mt3)) as H4 by exact (st_return mt3 eq_refl eq_refl).
  exists (returns mt3.(error) mt3). split; [|done].
  apply (thread_acts _ _ _ H1), (run_first acts EMain _ mt2); [by right | done|]. apply (run_first acts EMain _ mt3); [by right | done|].
  apply (run_first acts EMain _ _ _ ltac:(by right) H4), run_refl.
Qed.

(** ** No run of one thread does anything else *)

(** More fuel does not change what is read. *)
Lemma read_request_more fuel fuel' m ms n i s x : (fuel <= fuel')%nat -> read_request fuel m ms n i s = Ok x -> read_request fuel' m ms n i s = Ok x.
Proof.
  revert fuel' m ms n s. induction fuel as [|fuel IH]; intros fuel' m ms n s Hle; [done|]. destruct fuel' as [|fuel']; [lia|]. cbn [read_request]. prun_get. prun_get. intros Hr.
  destruct x as [x s']. apply pbind_Ok_inv in Hr as (res & s1 & H1 & Hr). prun H1. apply pbind_Ok_inv in Hr as (m1 & s2 & H2 & Hr). prun H2. revert Hr. prun_get. prun_get.
  destruct (exited s2); [done|]. destruct res as [d|err]; [done|]. destruct (_ && _ && _).
  - intros (o & s3 & H3 & Hr)%pbind_Ok_inv. prun H3. destruct o; [apply IH; [lia | done] | done].
  - destruct (err =? ENOENT); [apply IH; lia | done].
Qed.

Lemma receive_more fuel fuel' b s x : (fuel <= fuel')%nat -> fuse_session_receive_buf_internal fuel b s = Ok x -> fuse_session_receive_buf_internal fuel' b s = Ok x.
Proof.
  intros Hle. unfold fuse_session_receive_buf_internal. prun_get. prun_get. rewrite !note_run. unfold fuse_session_receive_buf_. prun_get. prun_get.
  destruct (_ && _ && _); [done|]. destruct (rb_mem b) as [m|]; [by apply read_request_more|]. destruct x as [x s'].
  intros (o & s3 & H3 & Hr)%pbind_Ok_inv. prun H3. destruct o; [by apply (read_request_more fuel) | done].
Qed.

(** The other loop, from a turn with this buffer and result, with enough fuel. *)
Definition from b (res : Z) s (r : Z) s' : Prop := exists k, forall fuel, (k <= fuel)%nat -> session_loop fuel b res s = Ok (r, s').
(** Before its request is served, and before the result of receiving is looked at. *)
Definition serving (res : Z) b s (r : Z) s' : Prop := exists m s1, b.(rb_mem) = Some m /\ fuse_session_process_buf m b.(rb_size) s = Ok (tt, s1) /\ from b res s1 r s'.
Definition received (res : Z) b s (r : Z) s' : Prop :=
  if res =? - EINTR then from b res s r s' else if res <=? 0 then r = res /\ s' = s else serving res b s r s'.

Lemma from_exited b res s : s.(exited) = true -> from b res s res s.
Proof. intros He. exists 1%nat. intros [|fuel] Hf; [lia|]. cbn [session_loop]. prun_get. by rewrite He. Qed.

Lemma from_received fuel b res s r1 b1 s1 r s' : s.(exited) = false -> fuse_session_receive_buf_internal fuel b s = Ok ((r1, b1), s1) ->
  received r1 b1 s1 r s' -> from b res s r s'.
Proof.
  intros He Hr Hc. assert (exists k, forall f, (k <= f)%nat -> (if r1 =? - EINTR then session_loop f b1 r1 else if r1 <=? 0 then pret r1
    else m <-- plift (lift_fault NullDeref b1.(rb_mem)) ;; fuse_session_process_buf m b1.(rb_size) ;;; session_loop f b1 r1) s1 = Ok (r, s')) as [k Hk].
  { unfold received in Hc. destruct (r1 =? - EINTR); [done|]. destruct (r1 <=? 0); [destruct Hc as [-> ->]; by exists 0%nat|].
    destruct Hc as (m & s2 & Hm & Hp & k & Hk). exists k. intros f Hf. assert (lift_fault NullDeref b1.(rb_mem) = Ok m) as Hl by (by rewrite Hm).
    prun_lift Hl. prun Hp. by apply Hk. }
  exists (S (fuel `max` k)). intros [|f] Hf; [lia|]. cbn [session_loop]. prun_get. rewrite He.
  unfold pbind at 1. rewrite (receive_more fuel (S f) _ _ _ ltac:(lia) Hr). apply Hk. lia.
Qed.

(** Whatever may come of what is left comes of the whole loop on [s0]. *)
Definition leads s0 (C : Z -> Se -> Prop) : Prop := forall r s', C r s' -> from sx_empty 0 s0 r s'.

(** Where the other loop is, when the thread is at [ph]; [err] is what the threads
    have left for the main one. *)
Definition in_step s0 (ph : phase) b s (err : Z) : Prop :=
  match ph with
  | Checking | Worked _ => err = 0 /\ exists res, (0 <= res \/ s.(exited) = false) /\ leads s0 (from b res s)
  | Receiving => err = 0 /\ s.(exited) = false /\ exists res, leads s0 (from b res s)
  | Received res => err = 0 /\ (res = 0 -> s.(exited) = true) /\ (res <> 0 -> s.(exited) = false) /\ leads s0 (received res b s)
  | Working _ => err = 0 /\ exists res, 0 < res /\ leads s0 (serving res b s)
  | Leaving | Gone => exists r s1, from sx_empty 0 s0 r s1 /\ same_end r s1 err s
  end.

(** What fuse_session_loop makes of the end of its loop. *)
Definition loop_result (r : Z) s : Z := if is_set s.(se_error) then s.(se_error) else if 0 <? r then 0 else r.

Definition alone s0 (mt : fuse_mt Se request_buf) : Prop :=
  match mt.(main) with
  | MainDone e => mt.(workers) = [] /\ exists r s1, from sx_empty 0 s0 r s1 /\ e = loop_result r s1 /\ mt.(mt_se) = set_exit false 0 s1
  | m => mt.(numworker) = 1 /\ mt.(max_threads) <= 1 /\
      ((exists ph b c, mt.(workers) = [mk_worker ph b None c] /\ in_step s0 ph b mt.(mt_se) mt.(error)) \/
       (mt.(workers) = [] /\ m = MainJoins /\ in_step s0 Gone sx_empty mt.(mt_se) mt.(error)))
  end.
Lemma alone_thread s0 mt i w : alone s0 mt -> mt.(workers) !! i = Some w ->
  i = 0%nat /\ mt.(workers) = [w] /\ w.(w_ch) = None /\ mt.(numworker) = 1 /\ mt.(max_threads) <= 1 /\ (forall e, mt.(main) <> MainDone e) /\
  in_step s0 w.(w_phase) w.(w_fbuf) mt.(mt_se) mt.(error).
Proof.
  intros Ha Hi. unfold alone in Ha. destruct (main mt) eqn:Hm; [| | |destruct Ha as [Hw _]; by rewrite Hw in Hi];
    (destruct Ha as (Hn & Hx & [(ph & b & c & Hw & Hs)|(Hw & _)]); rewrite Hw in Hi |- *; [|done]);
    (destruct i as [|i]; [|done]); injection Hi as <-; done.
Qed.

Lemma thread_alone s0 mt w : mt.(workers) = [w] -> w.(w_ch) = None -> mt.(numworker) = 1 -> mt.(max_threads) <= 1 -> (forall e, mt.(main) <> MainDone e) ->
  in_step s0 w.(w_phase) w.(w_fbuf) mt.(mt_se) mt.(error) -> alone s0 mt.
Proof.
  intros Hw Hc Hn Hx Hd Hs. unfold alone. destruct w as [ph b ch c]. cbn in Hc, Hs. subst ch.
  destruct (main mt); [| | |by destruct (Hd err)]; (split; [done|]; split; [done|]; left; by exists ph, b, c).
Qed.

(** With the flag down nobody has cancelled the thread. *)
Lemma not_cancelled mt : inv mt -> (forall e, mt.(main) <> MainDone e) -> mt.(mt_se).(exited) = false -> mt.(exit) = false.
Proof.
  intros Hi Hd He. destruct (exit mt) eqn:Hx; [|done]. destruct (i_exit _ Hi Hx) as [Hj|[e Hj]]; [|by destruct (Hd e)].
  destruct (i_joins _ Hi Hj) as [_ Hex]. cbn in Hex. congruence.
Qed.

(** The thread's own steps. *)
Ltac the_thread Ha Hi :=
  let Hw := fresh "Hw" in let Hd := fresh "Hd" in
  destruct (alone_thread _ _ _ _ Ha Hi) as (-> & Hw & Hc & Hn & Hx & Hd & Hs).

Lemma check_alone s0 i w mt : alone s0 mt -> mt.(workers) !! i = Some w -> w.(w_phase) = Checking ->
  alone s0 (goes i w (if mt.(mt_se).(exited) then Leaving else Receiving) mt).
Proof.
  intros Ha Hi Hp. the_thread Ha Hi. rewrite Hp in Hs. destruct Hs as (Herr & res & Hres & Hl).
  apply (thread_alone _ _ (at_phase (if mt.(mt_se).(exited) then Leaving else Receiving) w)); cbn; [by rewrite Hw | done..|].
  destruct (exited (mt_se mt)) eqn:He; cbn; [|by split_and!; [..|exists res]].
  exists res, (mt_se mt). split; [by apply Hl, from_exited|]. destruct Hres as [Hres|]; [|done].
  unfold same_end. split_and!; [done..|]. rewrite Herr. destruct (Z.ltb_spec 0 res); lia.
Qed.

Lemma receive_alone s0 i w mt res b s : alone s0 mt -> mt.(workers) !! i = Some w -> w.(w_phase) = Receiving ->
  session_receives mt.(mt_se) w.(w_ch) w.(w_fbuf) res b s -> alone s0 (goes i (with_fbuf b w) (Received res) (set_se s mt)).
Proof.
  intros Ha Hi Hp Hr. the_thread Ha Hi. rewrite Hp in Hs. destruct Hs as (Herr & He & res0 & Hl). pose proof (session_receives_ok _ _ _ _ _ _ Hr) as (_ & Hz & Hnz).
  rewrite Hc in Hr. destruct Hr as (fuel & s1 & Hr & ->).
  apply (thread_alone _ _ (at_phase (Received res) (with_fbuf b w))); cbn; [by rewrite Hw | done..|].
  cbn in Hz, Hnz. split; [exact Herr|]. split; [exact Hz|]. split; [by apply Hnz|]. intros r s' Hrec. by apply Hl, (from_received fuel _ _ _ res b s1).
Qed.

Lemma no_request_alone s0 i w mt res : alone s0 mt -> mt.(workers) !! i = Some w -> w.(w_phase) = Received res -> res <= 0 ->
  alone s0 (no_request i w res mt).
Proof.
  intros Ha Hi Hp Hle. the_thread Ha Hi. rewrite Hp in Hs. destruct Hs as (Herr & Hz & Hnz & Hl). unfold no_request, leads, received in *.
  destruct (Z.eqb_spec res (- EINTR)) as [->|Hne].
  { apply (thread_alone _ _ (at_phase Checking w)); cbn; [by rewrite Hw | done..|]. split; [done|]. exists (- EINTR). split; [right; by apply Hnz | exact Hl]. }
  rewrite (proj2 (Z.leb_le _ _) Hle) in Hl. specialize (Hl res (mt_se mt) (conj eq_refl eq_refl)).
  destruct (Z.ltb_spec res 0); apply (thread_alone _ _ (at_phase Leaving w)); cbn; rewrite ?Hw; try done; exists res, (mt_se mt); (split; [done|]); unfold same_end.
  - split_and!; [done..|]. destruct (Z.ltb_spec 0 res); lia.
  - split_and!; [apply Hz; lia | done..|]. rewrite Herr. destruct (Z.ltb_spec 0 res); lia.
Qed.

Lemma takes_alone s0 e i w mt res : inv mt -> alone s0 mt -> mt.(workers) !! i = Some w -> w.(w_phase) = Received res -> 0 < res ->
  alone s0 (takes_request e i w mt).2.
Proof.
  intros Hinv Ha Hi Hp Hlt. the_thread Ha Hi. rewrite Hp in Hs. destruct Hs as (Herr & _ & Hnz & Hl). unfold takes_request.
  rewrite (not_cancelled _ Hinv Hd) by (apply Hnz; lia). cbv zeta. set (mt1 := if is_forget w then _ else _).
  assert ((numworker mt1 <? max_threads mt1) = false) as -> by (apply Z.ltb_ge; unfold mt1; destruct (is_forget w); cbn; lia).
  rewrite andb_false_r. unfold received in Hl. rewrite (proj2 (Z.eqb_neq res (- EINTR))), (proj2 (Z.leb_gt _ _) Hlt) in Hl by (unfold EINTR; lia).
  apply (thread_alone _ _ (at_phase (Working (is_forget w)) w)); unfold mt1; destruct (is_forget w); cbn; rewrite ?Hw; try done; (split; [done|]); by exists res.
Qed.

Lemma process_alone s0 i w mt f s : alone s0 mt -> mt.(workers) !! i = Some w -> w.(w_phase) = Working f ->
  session_processes mt.(mt_se) w.(w_fbuf) s -> alone s0 (goes i w (Worked f) (set_se s mt)).
Proof.
  intros Ha Hi Hp (m & Hm & Hr). the_thread Ha Hi. rewrite Hp in Hs. destruct Hs as (Herr & res & Hres & Hl).
  apply (thread_alone _ _ (at_phase (Worked f) w)); cbn; rewrite ?Hw; try done. split; [done|]. exists res. split; [left; lia|].
  intros r s' Hf. apply Hl. by exists m, s.
Qed.

Lemma done_alone s0 i w mt f : alone s0 mt -> mt.(workers) !! i = Some w -> w.(w_phase) = Worked f -> alone s0 (done_request i w f mt).
Proof.
  intros Ha Hi Hp. the_thread Ha Hi. rewrite Hp in Hs. unfold done_request. cbv zeta. set (mt1 := if f then _ else _).
  assert ((1 <? numworker mt1) = false) as -> by (apply Z.ltb_ge; unfold mt1; destruct f; cbn; lia). rewrite andb_false_r.
  apply (thread_alone _ _ (at_phase Checking w)); unfold mt1; destruct f; cbn; rewrite ?Hw; done.
Qed.

Lemma post_alone s0 i w mt : alone s0 mt -> mt.(workers) !! i = Some w -> w.(w_phase) = Leaving -> alone s0 (set_finish (mt.(finish) + 1) (goes i w Gone mt)).
Proof.
  intros Ha Hi Hp. the_thread Ha Hi. rewrite Hp in Hs. apply (thread_alone _ _ (at_phase Gone w)); cbn; rewrite ?Hw; done.
Qed.

Lemma return_alone s0 mt : alone s0 mt -> mt.(main) = MainJoins -> mt.(workers) = [] -> alone s0 (returns mt.(error) mt).
Proof.
  unfold alone. intros Ha Hm Hw. rewrite Hm in Ha. cbn. split; [done|].
  destruct Ha as (_ & _ & [(ph & b & c & Hw' & _)|(_ & _ & r & s1 & Hf & Hex & Hse & Hset & Herr)]); [by rewrite Hw in Hw'|].
  exists r, s1. split; [done|]. unfold loop_result, is_set. cbn. by rewrite Hse, Herr.
Qed.

Lemma step_alone s0 ev mt mt' : step ev mt mt' -> ev <> ESignal -> inv mt -> alone s0 mt -> alone s0 mt'.
Proof.
  intros Hst He Hinv Ha. destruct Hst as [i w mt Hi Hp | i w mt res b s Hi Hp Hr | i w mt Hi Hp Hcan | i w mt res Hi Hp Hle | i w mt res e Hi Hp Hlt
    | i w mt f s Hi Hp Hr | i w mt f Hi Hp | i w mt Hi Hp | mt Hm | mt Hm Hf | mt Hm | mt | w l mt Hm Hw Hp | mt Hm Hw].
  - by apply check_alone.
  - by apply receive_alone.
  - pose proof (list_elem_of_lookup_2 _ _ _ Hi) as Hin. rewrite (i_cancel _ Hinv _ Hin) in Hcan. the_thread Ha Hi. rewrite Hp in Hs. destruct Hs as (_ & Hex & _).
    by rewrite (not_cancelled _ Hinv Hd Hex) in Hcan.
  - by apply no_request_alone.
  - by apply (takes_alone s0 e i w mt res).
  - by apply process_alone.
  - by apply done_alone.
  - by apply post_alone.
  - unfold alone in *. rewrite Hm in Ha. destruct Ha as (Hn & Hx & [(ph & b & c & Hw & Hs)|(_ & ? & _)]); [|done].
    cbn. destruct (exited (mt_se mt)); cbn; rewrite ?Hw; (split; [done|]; split; [done|]; left; by eexists ph, b, _).
  - unfold alone in *. rewrite Hm in Ha. destruct Ha as (Hn & Hx & [Hs|(_ & ? & _)]); [|done]. split; [done|]; split; [done|]; by left.
  - unfold alone in *. rewrite Hm in Ha. destruct Ha as (Hn & Hx & [Hs|(_ & ? & _)]); [|done]. split; [done|]; split; [done|]; by left.
  - done.
  - unfold alone in *. rewrite Hm in Ha. destruct Ha as (Hn & Hx & [(ph & b & c & Hw' & Hs)|(Hw' & _)]); rewrite Hw in Hw'; [|done].
    injection Hw' as -> ->. cbn in Hp. subst ph. cbn. rewrite Hm. split; [done|]. split; [done|]. by right.
  - by apply return_alone.
Qed.

(** ** Both directions *)

Definition no_signal (ev : event) : Prop := ev <> ESignal.

Lemma run_acts mt mt' : run acts mt mt' -> run no_signal mt mt'.
Proof. induction 1 as [|mt mt1 mt2 ev _ IH Hp Hst]; [apply run_refl|]. apply (run_step _ _ _ _ ev IH); [by destruct Hp as [->| ->] | done]. Qed.

Lemma run_alone s0 mt mt' : run no_signal mt mt' -> inv mt -> alone s0 mt -> alone s0 mt'.
Proof.
  induction 1 as [|mt mt1 mt2 ev Hr IH Hp Hst]; [done|]. intros Hi Ha. apply (step_alone _ _ _ _ Hst Hp); [by apply (run_inv _ _ _ Hr) | by apply IH].
Qed.

(** The start. *)
Lemma loop_started e s : config.(version_id) = FUSE_LOOP_MT_V2_IDENTIFIER -> config.(cfg_clone_fd) = 0 -> e.(has_worker) = true -> e.(created) = true ->
  loop_mt e config s = inr (single Checking 1 (mk_request_buf None 0 0) s 0).
Proof. intros Hv Hc Hw Hcr. unfold loop_mt, fuse_loop_cfg_verify. rewrite Hv. cbn. unfold mt_init, fuse_loop_start_thread. cbn. by rewrite Hw, Hc, Hcr. Qed.

Lemma start_alone s : alone s (single Checking 1 (mk_request_buf None 0 0) s 0).
Proof.
  split; [done|]. split; [done|]. left. exists Checking, (mk_request_buf None 0 0), false. split; [done|]. split; [done|]. exists 0. split; [by left | by intros r s'].
Qed.

Lemma from_loop s r s1 : from (mk_request_buf None 0 0) 0 s r s1 -> exists fuel, fuse_session_loop fuel s = Ok (loop_result r s1, set_exit false 0 s1).
Proof. intros [k Hk]. exists k. unfold fuse_session_loop. by prun (Hk k (le_n k)). Qed.
Lemma loop_single e s r s' : config.(version_id) = FUSE_LOOP_MT_V2_IDENTIFIER -> config.(cfg_clone_fd) = 0 -> e.(has_worker) = true -> e.(created) = true ->
  exists mt0, loop_mt e config s = inr mt0 /\
    ((exists fuel, fuse_session_loop fuel s = Ok (r, s')) <-> (exists mt, run no_signal mt0 mt /\ mt.(main) = MainDone r /\ mt.(mt_se) = s')).
Proof.
  intros Hv Hc Hw Hcr. pose proof (loop_started e s Hv Hc Hw Hcr) as Hst. eexists. split; [exact Hst|]. split.
  - intros (fuel & (res & s1 & Hl & Hend)%pbind_Ok_inv). rewrite (pbind_run _ _ _ _ _ (pget_run _)) in Hend. injection Hend as Hr Hs.
    destruct (session_loop_single fuel _ 0 s res s1 Hl) as (err & b1 & s2 & Hrun & Hex & Hse & Hset & Herr); [by left|].
    destruct (single_ends b1 s2 err Hex) as (mt & Hrun2 & Hm & Hmt). exists mt. split_and!.
    + by apply run_acts, (run_trans _ _ _ _ Hrun).
    + rewrite Hm, Hse, Herr, <- Hr. reflexivity.
    + by rewrite Hmt, Hset.
  - intros (mt & Hrun & Hm & Hs). apply (run_alone s) in Hrun; [|by apply (start_inv _ _ _ _ Hst) | apply start_alone].
    unfold alone in Hrun. rewrite Hm in Hrun. destruct Hrun as (_ & r0 & s1 & Hf & -> & Hs1). rewrite Hs in Hs1. subst s'. by apply from_loop.
Qed.
End one.
End session.
End MtSession.
