(* ===== verification/FuseInit.v ===== *)
(** What INIT settles between libfuse and the kernel (do_init of
    lib/fuse_lowlevel.c): only what the kernel offered is asked of it, and the limits
    that are told fit the buffers. *)
From S2P Require Import Prelude.
From S2P Require Import CLib.
From S2P Require Import LittleEndian.
From S2P Require Import FuseTypes.
From S2P Require Import FuseBuf.
From S2P Require Import FuseFs.
From S2P Require Import FuseNodes.
From S2P Require Import FuseDirents.
From S2P Require Import FuseLib.
From S2P Require Import FuseKernel.
From S2P Require Import FuseWire.
From S2P Require Import FuseLowlevel.
From S2P Require Import FuseSession.
From S2P Require Import FuseAnswers.
From S2P Require Import FuseSessionFacts.

Module FuseInit.
Import LittleEndian FuseTypes FuseBuf FuseFs FuseNodes FuseDirents FuseLib FuseKernel FuseWire FuseLowlevel FuseSession FuseAnswers
  FuseSessionFacts.

(** ** Flags, bit by bit *)

Lemma has_bit flags i : 0 <= i -> has_flag flags (Z.shiftl 1 i) = Z.testbit flags i.
Proof.
  intros Hi. unfold has_flag. destruct (Z.testbit flags i) eqn:Ht.
  - destruct (Z.eqb_spec (Z.land flags (Z.shiftl 1 i)) 0) as [Hz|]; [|done]. exfalso.
    assert (Z.testbit (Z.land flags (Z.shiftl 1 i)) i = true) as Hb.
    { rewrite Z.land_spec, Ht, Z.shiftl_1_l, Z.pow2_bits_true by lia. done. }
    by rewrite Hz, Z.bits_0 in Hb.
  - apply negb_false_iff, Z.eqb_eq, Z.bits_inj'. intros j Hj. rewrite Z.land_spec, Z.bits_0, Z.shiftl_1_l.
    destruct (Z.eq_dec i j) as [->|Hne]; [by rewrite Ht|]. by rewrite Z.pow2_bits_false, andb_false_r by lia.
Qed.

Lemma translate_bit l flags i : forall acc,
  Z.testbit (translate l flags acc) i = Z.testbit acc i || existsb (fun '(a, b) => has_flag flags a && Z.testbit b i) l.
Proof.
  unfold translate. induction l as [|[a b] l IH]; intros acc; cbn [foldl existsb]; [by rewrite orb_false_r|].
  rewrite IH. destruct (has_flag flags a); [by rewrite Z.lor_spec, orb_assoc | done].
Qed.

(** Rows of the tables have one bit on each side. *)
Ltac row_bits :=
  repeat match goal with
  | |- context [Z.testbit ?b ?i] => first [is_var b; fail 1 | let v := eval vm_compute in (Z.testbit b i) in
      lazymatch v with true => idtac | false => idtac end; change (Z.testbit b i) with v]
  end.

Lemma bits_above z n i : 0 <= z < 2 ^ n -> 0 <= n <= i -> Z.testbit z i = false.
Proof.
  intros Hz Hi. destruct (Z.eq_dec z 0) as [->|]; [apply Z.bits_0|]. apply Z.bits_above_log2; [lia|].
  apply Z.lt_le_trans with n; [|lia]. apply Z.log2_lt_pow2; lia.
Qed.

(** A capability that was offered comes from the kernel's flag. *)
Lemma caps_offered minor flags : Forall (fun '(cap, f) => has_flag (version_caps minor (offered_caps minor flags)) cap = true -> has_flag flags f = true) reply_caps.
Proof.
  assert (forall i c, 0 <= i -> (i =? 26) || (i =? 7) || (i =? 8) || (i =? 9) || (i =? 11) = false -> c = Z.shiftl 1 i ->
    has_flag (version_caps minor (offered_caps minor flags)) c = existsb (fun '(a, b) => has_flag flags a && Z.testbit b i) init_caps) as Hc.
  { intros i c Hi Hn ->. rewrite has_bit by done.
    assert (Z.testbit (translate init_caps flags 0) i = existsb (fun '(a, b) => has_flag flags a && Z.testbit b i) init_caps) as <-
      by (by rewrite translate_bit, Z.bits_0).
    rewrite !orb_false_iff, !Z.eqb_neq in Hn. destruct Hn as ((((? & ?) & ?) & ?) & ?).
    assert (forall j, j <> i -> 0 <= j -> Z.testbit (Z.shiftl 1 j) i = false) as Hj
      by (intros; rewrite Z.shiftl_1_l; by apply Z.pow2_bits_false).
    unfold version_caps, offered_caps, FUSE_CAP_EXPIRE_ONLY, FUSE_CAP_SPLICE_WRITE, FUSE_CAP_SPLICE_MOVE, FUSE_CAP_SPLICE_READ, FUSE_CAP_IOCTL_DIR.
    repeat case_match; rewrite ?Z.lor_spec, ?Hj, ?orb_false_r by lia; done. }
  unfold reply_caps. repeat apply Forall_cons_2; try apply Forall_nil_2.
  all: match goal with |- has_flag _ ?c = true -> _ =>
    let i := eval vm_compute in (Z.log2 c) in rewrite (Hc i c) by done end.
  all: cbn [existsb init_caps]; row_bits; rewrite ?andb_false_r, ?andb_true_r, ?orb_false_r; cbn [orb]; done.
Qed.

(** Wanted flags are among the others. *)
Lemma want_offered capable want f : 0 <= want < 2 ^ 64 -> want_flags_valid capable want = true -> has_flag want f = true -> has_flag capable f = true.
Proof.
  unfold want_flags_valid, has_flag. rewrite !negb_true_iff, !Z.eqb_neq. intros Hw Hv%Z.eqb_eq Hf Hz. apply Hf.
  apply Z.bits_inj'. intros i Hi. rewrite Z.land_spec, Z.bits_0.
  pose proof (f_equal (fun z => Z.testbit z i) Hv) as Hvi. pose proof (f_equal (fun z => Z.testbit z i) Hz) as Hzi. cbv beta in Hvi, Hzi.
  rewrite Z.land_spec, Z.bits_0 in Hvi, Hzi. destruct (Z.testbit want i) eqn:Hwi; [|done]. cbn [andb] in *.
  unfold u64, uwrap in Hvi. destruct (Z.lt_ge_cases i 64).
  - rewrite Z.mod_pow2_bits_low, Z.lnot_spec in Hvi by lia. apply negb_false_iff in Hvi. by rewrite Hvi in Hzi.
  - rewrite (Z.bits_above_log2 want i) in Hwi; [done | lia |]. destruct (Z.eq_dec want 0) as [->|]; [by apply Z.lt_le_trans with 64|].
    apply Z.lt_le_trans with 64; [|done]. by apply Z.log2_lt_pow2; lia.
Qed.

Lemma want_valid_bits capable want : 0 <= want < 2 ^ 64 ->
  want_flags_valid capable want = true <-> forall i, 0 <= i -> Z.testbit want i = true -> Z.testbit capable i = true.
Proof.
  intros Hw. unfold want_flags_valid. rewrite Z.eqb_eq. split.
  - intros Hz i Hi Ht. pose proof (f_equal (fun z => Z.testbit z i) Hz) as Hb. cbv beta in Hb. rewrite Z.land_spec, Z.bits_0, Ht in Hb. cbn [andb] in Hb.
    assert (i < 64) as Hi64. { destruct (Z.lt_ge_cases i 64) as [|Hge]; [done|]. rewrite (bits_above want 64 i) in Ht by lia. done. }
    unfold u64, uwrap in Hb. rewrite Z.mod_pow2_bits_low, Z.lnot_spec in Hb by lia. by apply negb_false_iff in Hb.
  - intros Hall. apply Z.bits_inj'. intros i Hi. rewrite Z.land_spec, Z.bits_0. destruct (Z.testbit want i) eqn:Ht; [|done]. cbn [andb].
    assert (i < 64) as Hi64. { destruct (Z.lt_ge_cases i 64) as [|Hge]; [done|]. rewrite (bits_above want 64 i) in Ht by lia. done. }
    unfold u64, uwrap. by rewrite Z.mod_pow2_bits_low, Z.lnot_spec, (Hall i Hi Ht) by lia.
Qed.

(** The flags of the answer were sent by the kernel, big writes apart. *)
Lemma reply_flags_offered c minor inargflags (pages : bool) i : 0 <= i -> 0 <= c.(want_ext) < 2 ^ 64 ->
  want_flags_valid (version_caps minor (offered_caps minor inargflags)) c.(want_ext) = true ->
  Z.testbit (reply_flags c inargflags (if pages then FUSE_MAX_PAGES else 0)) i = true ->
  Z.testbit inargflags i = true \/ i = 5 \/ (pages = true /\ i = 22).
Proof.
  intros Hi Hw Hv Hr. unfold reply_flags in Hr.
  assert (forall f j, f = Z.shiftl 1 j -> Z.testbit f i = true -> 0 <= j -> i = j) as Hone.
  { intros f j -> Ht Hj. rewrite Z.shiftl_1_l in Ht. destruct (Z.eq_dec i j) as [|Hne]; [done|]. by rewrite Z.pow2_bits_false in Ht. }
  assert (has_flag inargflags FUSE_INIT_EXT = true /\ i = 30 \/
    Z.testbit (translate reply_caps c.(want_ext) (Z.lor (if pages then FUSE_MAX_PAGES else 0) FUSE_BIG_WRITES)) i = true) as [[Hx ->]|Ht].
  { destruct (has_flag inargflags FUSE_INIT_EXT); [|by right]. rewrite Z.lor_spec, orb_true_iff in Hr.
    destruct Hr as [|Hr]; [by right|]. left. split; [done|]. by apply (Hone _ 30 eq_refl Hr). }
  { left. unfold FUSE_INIT_EXT in Hx. by rewrite has_bit in Hx. }
  clear Hr. rewrite translate_bit, !orb_true_iff, Z.lor_spec, orb_true_iff in Ht. destruct Ht as [[Ht|Ht]|Ht].
  - right. right. destruct pages; [split; [done|]; by apply (Hone _ 22 eq_refl Ht) | by rewrite Z.bits_0 in Ht].
  - right. left. by apply (Hone _ 5 eq_refl Ht).
  - left. apply existsb_exists in Ht as ([cap f] & Hin & (Hc & Hf)%andb_true_iff).
    pose proof (proj1 (List.Forall_forall _ _) (caps_offered minor inargflags) _ Hin) as Hoff. cbv beta iota in Hoff.
    specialize (Hoff (want_offered _ _ _ Hw Hv Hc)).
    assert (exists j, f = Z.shiftl 1 j /\ 0 <= j) as (j & -> & Hj).
    { revert Hin. unfold reply_caps. clear. intros Hin.
      repeat (destruct Hin as [[= _ <-]|Hin]; [eexists; split; [reflexivity | done]|]). done. }
    rewrite has_bit in Hoff by done. by rewrite (Hone _ j eq_refl Hf Hj).
Qed.

(** ** The handshake *)

(** Numbers of a connection are unsigned integers. *)
Record conn_ok (c : fuse_conn_info) : Prop := mk_conn_ok {
  co_max_write : 0 <= c.(max_write) < 2 ^ 32;
  co_background : 0 <= c.(max_background) < 2 ^ 32;
  co_congestion : 0 <= c.(congestion_threshold) < 2 ^ 32;
  co_want : 0 <= c.(want_ext) < 2 ^ 64;
  co_want_low : 0 <= c.(want) < 2 ^ 32
}.

(** The flags as the kernel reads them: two words of 32 bits. *)
Definition told_flags (o : init_out) : Z := Z.lor (u32 o.(out_flags)) (Z.shiftl (u32 o.(out_flags2)) 32).

Lemma told_bits o i : 0 <= i -> Z.testbit (told_flags o) i = if i <? 32 then Z.testbit o.(out_flags) i else (i <? 64) && Z.testbit o.(out_flags2) (i - 32).
Proof.
  intros Hi. unfold told_flags. rewrite Z.lor_spec, Z.shiftl_spec by done. unfold u32, uwrap. destruct (Z.ltb_spec i 32).
  - by rewrite Z.mod_pow2_bits_low, (Z.testbit_neg_r _ (i - 32)), orb_false_r by lia.
  - rewrite Z.mod_pow2_bits_high by lia. cbn [orb]. destruct (Z.ltb_spec i 64); [by rewrite Z.mod_pow2_bits_low by lia | by rewrite Z.mod_pow2_bits_high by lia].
Qed.

(** Every bit that is told is one of the flags of the reply, and with both words every
    flag is told. *)
Lemma told_reply page c argflags inargflags i : 0 <= i -> let o := init_answer page c argflags inargflags in
  (Z.testbit (told_flags o) i = true -> Z.testbit o.(out_flags) i = true) /\
  (Z.testbit o.(out_flags) i = true -> i < 32 \/ (i < 64 /\ has_flag inargflags FUSE_INIT_EXT = true) -> Z.testbit (told_flags o) i = true).
Proof.
  intros Hi o. rewrite told_bits by done. unfold o, init_answer. cbn [out_flags out_flags2].
  destruct (Z.ltb_spec i 32) as [Hlt|Hge]; [by split|]. split.
  - intros [_ Hb]%andb_true_iff. destruct (has_flag inargflags FUSE_INIT_EXT); [|by rewrite Z.bits_0 in Hb].
    rewrite Z.shiftr_spec in Hb by lia. by replace (i - 32 + 32) with i in Hb by lia.
  - intros Ht [?|[Hi64 Hx]]; [lia|]. rewrite Hx, (proj2 (Z.ltb_lt i 64)), Z.shiftr_spec by lia. by replace (i - 32 + 32) with i by lia.
Qed.

(** What is told in the answer [o] to a kernel that sent [inargflags], and what the
    session keeps. *)
Record negotiated (bufsize minor inargflags : Z) (o : init_out) (c : fuse_conn_info) : Prop := mk_negotiated {
  ng_flags i : 0 <= i -> Z.testbit (told_flags o) i = true -> Z.testbit inargflags i = true \/ i = 5;
  ng_wanted cap f : (cap, f) ∈ reply_caps -> has_flag c.(want_ext) cap = true -> has_flag (told_flags o) f = true;
  ng_write : 0 <= o.(out_max_write) <= bufsize - FUSE_BUFFER_HEADER_SIZE;
  ng_kept : c.(max_write) = o.(out_max_write);
  ng_background : 0 <= o.(out_congestion_threshold) <= o.(out_max_background) /\ o.(out_max_background) < 2 ^ 16
}.

Lemma background_bounds c : conn_ok c -> let c' := background_limits c in
  0 <= c'.(congestion_threshold) <= c'.(max_background) /\ c'.(max_background) < 2 ^ 16.
Proof.
  intros [_ [Hb1 Hb2] [Ht1 Ht2] _ _] c0. subst c0. unfold background_limits. cbn [with_background congestion_threshold max_background].
  set (bg := if 2 ^ 16 <=? max_background c then 2 ^ 16 - 1 else max_background c).
  assert (0 <= bg < 2 ^ 16) as Hbg by (unfold bg; destruct (Z.leb_spec (2 ^ 16) (max_background c)); lia).
  set (ct := if congestion_threshold c >? bg then bg else congestion_threshold c). assert (0 <= ct <= bg) as Hct by (unfold ct; case_match; lia).
  split; [|lia]. destruct (Z.eqb_spec ct 0); [|done]. rewrite uwrap_small by lia.
  split; [apply Z.div_pos; lia|]. apply Z.div_le_upper_bound; lia.
Qed.

Lemma init_limits_fields n c : let c' := init_limits n c in
  c'.(max_write) = Z.min c.(max_write) (n - FUSE_BUFFER_HEADER_SIZE) /\ c'.(want_ext) = c.(want_ext) /\ c'.(proto_minor) = c.(proto_minor).
Proof. unfold init_limits. cbn [with_max_write proto_minor]. by destruct (13 <=? proto_minor c). Qed.

(** The answer to INIT from a connection with its limits. *)
Lemma wanted_told page c argflags inargflags cap f : (cap, f) ∈ reply_caps -> has_flag c.(want_ext) cap = true ->
  (has_flag inargflags FUSE_INIT_EXT = false -> 0 <= inargflags < 2 ^ 32) -> has_flag inargflags f = true ->
  has_flag (told_flags (init_answer page c argflags inargflags)) f = true.
Proof.
  intros Hin Hw Hlow Hoff. assert (exists j, f = Z.shiftl 1 j /\ 0 <= j < 64) as (j & -> & Hj).
  { assert (forallb (fun x => (x.2 =? Z.shiftl 1 (Z.log2 x.2)) && (Z.log2 x.2 <? 64)) reply_caps = true) as Hall by by vm_compute.
    rewrite forallb_forall in Hall. specialize (Hall _ (proj1 (list_elem_of_In _ _) Hin)). apply andb_true_iff in Hall as [He%Z.eqb_eq Hl%Z.ltb_lt].
    exists (Z.log2 f). cbn [snd] in *. split; [exact He | split; [apply Z.log2_nonneg | exact Hl]]. }
  rewrite has_bit in * by lia. apply told_reply; [lia | |].
  - cbn [init_answer out_flags]. unfold reply_flags.
    assert (Z.testbit (translate reply_caps c.(want_ext) (Z.lor (if has_flag argflags FUSE_MAX_PAGES then FUSE_MAX_PAGES else 0) FUSE_BIG_WRITES)) j = true) as Ht.
    { rewrite translate_bit. apply orb_true_iff. right. apply existsb_exists. exists (cap, Z.shiftl 1 j). split; [by apply list_elem_of_In|].
      rewrite Hw, Z.shiftl_1_l. apply Z.pow2_bits_true. lia. }
    destruct (has_flag inargflags FUSE_INIT_EXT); [by rewrite Z.lor_spec, Ht | done].
  - destruct (Z.lt_ge_cases j 32) as [|Hge]; [by left|]. right. split; [lia|]. destruct (has_flag inargflags FUSE_INIT_EXT); [done|].
    rewrite (bits_above inargflags 32 j) in Hoff by (specialize (Hlow eq_refl); lia). done.
Qed.

Lemma negotiated_answer bufsize minor c argflags inargflags page :
  (has_flag inargflags FUSE_INIT_EXT = false -> 0 <= inargflags < 2 ^ 32) ->
  conn_ok c -> want_flags_valid (version_caps minor (offered_caps minor inargflags)) c.(want_ext) = true ->
  (has_flag argflags FUSE_MAX_PAGES = true -> has_flag inargflags FUSE_MAX_PAGES = true) -> FUSE_BUFFER_HEADER_SIZE <= bufsize ->
  let c' := init_limits bufsize c in negotiated bufsize minor inargflags (init_answer page c' argflags inargflags) c'.
Proof.
  intros Hlow Hc Hv Hp Hb c'. destruct (init_limits_fields bufsize c) as (Hm & Hw & Hmin). fold c' in Hm, Hw, Hmin. pose proof Hc as [Hmw _ _ Hwt _].
  split.
  - intros i Hi Ht. apply (told_reply page c' argflags inargflags i Hi) in Ht. cbn [init_answer out_flags] in Ht. apply (reply_flags_offered _ minor) in Ht; [| done | by rewrite Hw | by rewrite Hw].
    destruct Ht as [|[|[Hpg ->]]]; [by left | by right|]. left. specialize (Hp Hpg). unfold FUSE_MAX_PAGES in Hp. by rewrite has_bit in Hp.
  - intros cap f Hin Hcap. apply (wanted_told _ _ _ _ cap f Hin Hcap Hlow). rewrite Hw in Hcap.
    pose proof (proj1 (List.Forall_forall _ _) (caps_offered minor inargflags) _ (proj1 (list_elem_of_In _ _) Hin)) as Hoff. cbv beta iota in Hoff.
    exact (Hoff (want_offered _ _ _ Hwt Hv Hcap)).
  - cbn [init_answer out_max_write]. rewrite Hm. lia.
  - done.
  - cbn [init_answer out_congestion_threshold out_max_background]. rewrite Hmin. unfold c', init_limits. cbn [with_max_write proto_minor].
    destruct (13 <=? proto_minor c); [|lia]. apply (background_bounds (with_max_write c _)). by split; cbn [with_max_write max_write max_background
      congestion_threshold want_ext want]; [lia | apply Hc..].
Qed.

Section handshake.
Context {os A : Type} `{Syscalls os}.
#[local] Abbreviation libst := (lib (os := os) (A := A)).
#[local] Abbreviation Se := (fuse_session (os := os) (A := A)).
Implicit Types (se : Se) (u : libst).

(** The initialisation of the file system keeps what the kernel offered, which it only
    reads, and leaves a connection. *)
Definition honest_init se : Prop := forall h c c' u', ll_init _ se.(se_op) = Some h -> h c se.(userdata) = Ok (c', u') ->
  conn_ok c -> conn_ok c' /\ c'.(capable_ext) = c.(capable_ext) /\ c'.(proto_minor) = c.(proto_minor).

Lemma defaults_fields l c : let c' := ll_set_defaults l c in
  c'.(capable_ext) = c.(capable_ext) /\ c'.(proto_minor) = c.(proto_minor) /\ c'.(max_write) = c.(max_write) /\
  c'.(max_background) = c.(max_background) /\ c'.(congestion_threshold) = c.(congestion_threshold) /\ c'.(want) = c.(want).
Proof.
  unfold ll_set_defaults. revert c. induction l as [|[b cap] l IH]; intros c; cbn [foldl]; [done|].
  destruct (IH (if b then (fuse_set_feature_flag c cap).2 else c)) as (-> & -> & -> & -> & -> & ->).
  destruct b; [|done]. destruct (set_flag_shape c cap) as [w ->]. done.
Qed.

Lemma defaults_want l c : 0 <= c.(want_ext) < 2 ^ 64 -> Forall (fun e => 0 <= e.2 < 2 ^ 64) l -> 0 <= (ll_set_defaults l c).(want_ext) < 2 ^ 64.
Proof.
  intros Hw Hl. unfold ll_set_defaults. revert c Hw. induction Hl as [|[b cap] l Hc Hl IH]; intros c Hw; [done|].
  cbn [foldl]. apply IH. destruct b; [|done]. by apply set_flag_range.
Qed.

(** The flags of a request INIT, both halves. *)
Definition sent_flags (arg : list cell) : outcome Z :=
  flags <- u32_at arg 12 ;;
  if has_flag flags FUSE_INIT_EXT then flags2 <- u32_at arg 16 ;; Ok (Z.lor flags (Z.shiftl flags2 32)) else Ok flags.

Lemma lor_has a b bit : has_flag a bit = true -> has_flag (Z.lor a b) bit = true.
Proof.
  unfold has_flag. rewrite !negb_true_iff, !Z.eqb_neq. intros Ha Hz. apply Ha. rewrite Z.land_comm, Z.land_lor_distr_r in Hz.
  apply Z.lor_eq_0_iff in Hz as [Hz _]. by rewrite Z.land_comm.
Qed.

Lemma flags_low arg f : sent_flags arg = Ok f -> has_flag f FUSE_INIT_EXT = false -> 0 <= f < 2 ^ 32.
Proof.
  unfold sent_flags. destruct (u32_at arg 12) as [lo|] eqn:Hlo; [|done]. cbn [obind]. destruct (has_flag lo FUSE_INIT_EXT) eqn:Hx.
  - destruct (u32_at arg 16) as [hi|]; [|done]. cbn [obind]. intros [= <-]. rewrite (lor_has lo _ _ Hx). done.
  - intros [= <-] _. by apply (field_range 4 arg 12).
Qed.

Lemma offer_inv se arg minor flags bufsize realloc c : 6 <= minor -> init_offer se arg minor = Ok (flags, bufsize, realloc, c) ->
  sent_flags arg = Ok flags /\ c.(capable_ext) = offered_caps minor flags /\ c.(proto_minor) = se.(se_conn).(proto_minor) /\
  c.(want_ext) = se.(se_conn).(want_ext) /\ (conn_ok se.(se_conn) -> conn_ok c) /\ bufsize <= se.(se_bufsize) /\
  (forall a, u32_at arg 12 = Ok a -> has_flag a FUSE_MAX_PAGES = true -> has_flag flags FUSE_MAX_PAGES = true).
Proof.
  intros Hm. unfold init_offer, sent_flags. rewrite (proj2 (Z.leb_le 6 minor)) by done.
  destruct (u32_at arg 8) as [ra|]; [|done]. cbn [obind]. destruct (u32_at arg 12) as [lo|]; [|done]. cbn [obind].
  destruct (if has_flag lo FUSE_INIT_EXT then _ else _) as [fl|] eqn:Hfl; [|done]. cbn [obind]. intros Hrun.
  assert (forall x, Ok lo = Ok x -> has_flag x FUSE_MAX_PAGES = true -> has_flag fl FUSE_MAX_PAGES = true) as Hmp.
  { intros x [= <-] Hx. destruct (has_flag lo FUSE_INIT_EXT); [|congruence].
    destruct (u32_at arg 16); [|done]. injection Hfl as <-. by apply lor_has. }
  cbv zeta in Hrun. destruct (has_flag fl FUSE_MAX_PAGES) in Hrun; injection Hrun as <- <- _ <-; destruct (ra <? _); split_and!; try done;
    first [by intros [? ? ? ? ?] | lia | set (lim := _ + FUSE_BUFFER_HEADER_SIZE); destruct (Z.ltb_spec lim (se_bufsize se)); lia].
Qed.

(** The connection that the initialisation of the file system is given. *)
Lemma offered_conn_ok (op : fuse_lowlevel_ops libst) minor flags c : conn_ok c -> c.(want_ext) = 0 -> c.(capable_ext) = offered_caps minor flags ->
  let c' := with_time_gran (ll_set_defaults (default_caps op) (with_capable_ext c (version_caps minor c.(capable_ext)))) 1 in
  conn_ok c' /\ c'.(capable_ext) = version_caps minor (offered_caps minor flags) /\ c'.(proto_minor) = c.(proto_minor).
Proof.
  intros [Hm Hb Ht Hw Hl] H0 Hc c'. subst c'. set (c1 := with_capable_ext c _).
  destruct (defaults_fields (default_caps op) c1) as (Hce & Hmi & Hmw & Hbg & Hct & Hlow). pose proof (defaults_want (default_caps op) c1) as Hwt.
  cbn [with_time_gran capable_ext proto_minor]. split_and!; [|by rewrite Hce; cbn; rewrite Hc | by rewrite Hmi].
  split; cbn [with_time_gran max_write max_background congestion_threshold want_ext want];
    [by rewrite Hmw | by rewrite Hbg | by rewrite Hct | | by rewrite Hlow].
  apply Hwt; [by cbn; rewrite H0|]. unfold default_caps. repeat apply Forall_cons_2; [..|apply Forall_nil_2]; by split.
Qed.

Lemma lower_range z : 0 <= fuse_lower_32_bits z < 2 ^ 32.
Proof. unfold fuse_lower_32_bits. by apply uwrap_range. Qed.

Lemma higher_or a b : 0 <= a < 2 ^ 64 -> 0 <= b < 2 ^ 32 -> 0 <= Z.lor (fuse_higher_32_bits a) b < 2 ^ 64.
Proof.
  intros Ha Hb. apply lor_range; [|lia]. exact (unset_flag_range (mk_conn_info 0 0 0 0 0 0 0 0 0 0 0 false 0 a) 0xffffffff Ha).
Qed.

(** Calling init leaves a connection, with what was offered. *)
Lemma call_init_inv se b se' : call_init se = Ok (b, se') -> honest_init se -> conn_ok se.(se_conn) ->
  exists u c, se' = set_conn c (set_userdata u se) /\ conn_ok c /\ c.(capable_ext) = se.(se_conn).(capable_ext) /\
    c.(proto_minor) = se.(se_conn).(proto_minor).
Proof.
  unfold call_init. intros (s0 & s1 & [-> ->]%pget_inv & Hrun)%pbind_Ok_inv Hop Hc. destruct (ll_init _ _) as [h|] eqn:Hh.
  2: { injection Hrun as _ <-. exists se.(userdata), se.(se_conn). by destruct se. }
  apply pbind_Ok_inv in Hrun as (c & s2 & (u & Hrunh & ->)%on_lib_inv & Hrun).
  set (c0 := with_want _ _) in Hrunh. assert (conn_ok c0) as Hc0 by (destruct Hc; split; try done; apply lower_range).
  destruct (Hop h c0 c u Hh Hrunh Hc0) as (Hc' & Hce & Hmi).
  destruct (convert_to_conn_want_ext _ _ _) as [rc c'] eqn:Hconv. apply pbind_Ok_inv in Hrun as ([] & s3 & ->%change_inv & Hrun).
  injection Hrun as _ <-. exists u, c'. split; [done|]. revert Hconv. unfold convert_to_conn_want_ext.
  destruct Hc' as [Hm Hb Ht Hw Hl]. pose proof (higher_or _ _ Hw Hl) as Hh'.
  destruct (negb _ && _); [destruct (negb _)|]; intros [= _ <-]; (split; [split|]); try done; apply lower_range.
Qed.

(** How INIT ends: what the file system asks for cannot be told, and the session ends
    with it, or both sides know what they settled. *)
Definition init_refused (uniq : Z) se se' : Prop :=
  se'.(exited) = true /\ se'.(se_error) = - EPROTO /\ se'.(sent) = fuse_send_msg uniq (- EPROTO) [] :: se.(sent).

Definition init_agreed (uniq minor inargflags : Z) c se se' : Prop := exists o bufsize, bufsize <= UINT_MAX /\
  se'.(sent) = fuse_send_msg uniq 0 (cells (init_out_size minor (init_out_bytes o))) :: se.(sent) /\
  negotiated bufsize minor inargflags o se'.(se_conn) /\ se'.(se_conn).(want_ext) = c.(want_ext) /\
  se'.(se_bufsize) = o.(out_max_write) + FUSE_BUFFER_HEADER_SIZE /\
  se'.(got_init) = true /\ se'.(se_op) = se.(se_op) /\ se'.(se_conn).(proto_minor) = minor /\ se'.(exited) = se.(exited).

(** What the initialisation of the file system made of the connection it was given:
    whether the two fields it may ask in agree, and the connection. *)
Definition asked_for (arg : list cell) (minor : Z) se (ok : bool) (c : fuse_conn_info) : Prop :=
  exists flags bufsize realloc conn s2, let s1 := set_conn (with_want_ext (with_capable_ext (with_proto se.(se_conn) 7 minor) 0) 0) se in
    init_offer s1 arg minor = Ok (flags, bufsize, realloc, conn) /\
    call_init (set_phase true se.(got_destroy) (set_conn (with_time_gran (ll_set_defaults (default_caps se.(se_op))
      (with_capable_ext conn (version_caps minor conn.(capable_ext)))) 1) s1)) = Ok (ok, s2) /\ c = s2.(se_conn).

(** It can be told: every flag it asks for was offered, and its largest read is that of
    the options of mounting. *)
Definition can_be_told (ok : bool) (c : fuse_conn_info) se : Prop :=
  ok = true /\ (forall i, 0 <= i -> Z.testbit c.(want_ext) i = true -> Z.testbit c.(capable_ext) i = true) /\ c.(max_read) = se.(max_read_mo).

Lemma refuse_init_ends req se0 se se' : se.(sent) = se0.(sent) -> refuse_init req se = Ok (tt, se') -> init_refused req.(unique) se0 se'.
Proof.
  intros Hs ([] & s1 & Hans & ->%change_inv)%pbind_Ok_inv. rewrite answer_err in Hans by (unfold EPROTO; lia). injection Hans as <-.
  split_and!; [done | done |]. cbn [set_exit ended set_sent sent]. by rewrite Hs.
Qed.

Lemma init_settles req arg minor inargflags se se' : do_init req arg se = Ok (tt, se') -> u32_at arg 0 = Ok 7 -> u32_at arg 4 = Ok minor ->
  6 <= minor -> sent_flags arg = Ok inargflags -> honest_init se -> conn_ok se.(se_conn) -> se.(se_bufsize) <= UINT_MAX ->
  exists ok c, asked_for arg minor se ok c /\
    ((~ can_be_told ok c se /\ init_refused req.(unique) se se') \/ (can_be_told ok c se /\ init_agreed req.(unique) minor inargflags c se se')).
Proof.
  intros Hrun Hmaj Hmin Hm6 Hfl Hop Hc Hbs. unfold do_init in Hrun. rewrite (pbind_run _ _ _ _ _ (plift_run _ _ _ Hmaj)) in Hrun.
  rewrite (pbind_run _ _ _ _ _ (plift_run _ _ _ Hmin)) in Hrun.
  apply pbind_Ok_inv in Hrun as ([] & s1 & ->%change_inv & Hrun). cbn [Z.ltb Z.compare Pos.compare Pos.compare_cont] in Hrun.
  set (s1 := set_conn _ se) in Hrun. assert (conn_ok s1.(se_conn)) as Hc1 by (destruct Hc; by split).
  apply pbind_Ok_inv in Hrun as (? & ? & [-> ->]%pget_inv & Hrun).
  apply pbind_Ok_inv in Hrun as ([[[flags bufsize] realloc] conn] & ? & (Hoff & ->)%plift_inv & Hrun).
  destruct (offer_inv _ _ _ _ _ _ _ Hm6 Hoff) as (Hfl' & Hcap & Hpm & Hwe & Hok & Hbs' & Hpages).
  assert (flags = inargflags) as -> by congruence. destruct (offered_conn_ok s1.(se_op) minor inargflags conn (Hok Hc1) Hwe Hcap) as (Hc2 & Hcap2 & Hpm2).
  apply pbind_Ok_inv in Hrun as ([] & ? & ->%pput_inv & Hrun).
  apply pbind_Ok_inv in Hrun as (ok & s2 & Hcall & Hrun). pose proof Hcall as (u & c & -> & Hc3 & Hcap3 & Hpm3)%call_init_inv; [|exact Hop | exact Hc2].
  exists ok, c. split; [eexists inargflags, bufsize, realloc, conn, _; split; [exact Hoff | split; [exact Hcall | reflexivity]]|].
  apply pbind_Ok_inv in Hrun as (? & ? & [-> ->]%pget_inv & Hrun).
  set (c2 := with_time_gran _ 1) in *. clearbody c2. set (s2 := set_phase _ _ _) in *.
  pose proof (want_valid_bits c.(capable_ext) c.(want_ext) (co_want _ Hc3)) as Hbits.
  destruct (negb ok || _ || _) eqn:Hbad; [left; split; [|by refine (refuse_init_ends req se _ se' _ Hrun)]|right].
  { change (negb ok || negb (want_flags_valid c.(capable_ext) c.(want_ext)) || negb (c.(max_read) =? se.(max_read_mo)) = true) in Hbad.
    intros (-> & Hall%Hbits & Hread). by rewrite Hall, (proj2 (Z.eqb_eq _ _) Hread) in Hbad. }
  change (negb ok || negb (want_flags_valid c.(capable_ext) c.(want_ext)) || negb (c.(max_read) =? se.(max_read_mo)) = false) in Hbad.
  apply orb_false_iff in Hbad as [[Hok'%negb_false_iff Hvalid%negb_false_iff]%orb_false_iff Hread%negb_false_iff%Z.eqb_eq]. cbv zeta in Hrun.
  split; [split_and!; [exact Hok' | by apply Hbits | exact Hread]|].
  apply pbind_Ok_inv in Hrun as ([] & ? & ->%pput_inv & Hrun). apply pbind_Ok_inv in Hrun as (argflags & ? & (Harg & ->)%plift_inv & Hrun).
  rewrite (answer_reply req (RBuf _) _ _ eq_refl) in Hrun. injection Hrun as <-.
  set (limit := if (realloc : bool) then UINT_MAX else _) in *. set (o := init_answer _ _ _ _).
  change (se_bufsize s1) with (se_bufsize se) in Hbs'. assert (FUSE_BUFFER_HEADER_SIZE <= limit <= UINT_MAX) as Hlim.
  { unfold limit, UINT_MAX, FUSE_BUFFER_HEADER_SIZE, FUSE_MIN_READ_BUFFER in *. destruct realloc; [lia|]. destruct (Z.ltb_spec bufsize 8192); lia. }
  change (want_flags_valid c.(capable_ext) c.(want_ext) = true) in Hvalid. rewrite Hcap3 in Hvalid.
  change (capable_ext (se_conn s2)) with (capable_ext c2) in Hvalid. rewrite Hcap2 in Hvalid. assert (negotiated limit minor inargflags o (init_limits limit c)) as Hneg
    by (apply negotiated_answer; [exact (flags_low arg inargflags Hfl) | exact Hc3 | exact Hvalid | exact (Hpages argflags Harg) | lia]).
  exists o, limit. destruct Hneg as [Hf Hfw Hw Hk Hb]. pose proof (init_limits_fields limit c) as (_ & Hwant & Hpm').
  split_and!; [exact (proj2 Hlim) | done | by split | exact Hwant | | done | done | | done].
  - cbn [ended set_sent set_userdata set_lists set_bufsize se_bufsize]. cbn [set_conn se_conn]. rewrite Hk. apply uwrap_small.
    clearbody limit o. unfold UINT_MAX, FUSE_BUFFER_HEADER_SIZE in Hlim, Hw |- *. lia.
  - cbn [ended set_sent set_userdata set_lists set_bufsize se_conn set_conn]. rewrite Hpm'. etransitivity; [exact Hpm3|].
    change (proto_minor c2 = minor). by rewrite Hpm2, Hpm.
Qed.

End handshake.
End FuseInit.
