(* ===== verification/FuseRequests.v ===== *)
(** The requests of the kernel as bytes: the structures of
    src/fuse-3.17.2/include/fuse_kernel.h for every request of the current version
    of the protocol, and the operation of lib/fuse.c each one stands for.  The
    functions do_... of FuseLowlevel take exactly these arguments out of a buffer. *)
From S2P Require Import Prelude.
From S2P Require Import CLib.
From S2P Require Import LittleEndian.
From S2P Require Import FuseTypes.
From S2P Require Import FuseBuf.
From S2P Require Import FuseFs.
From S2P Require Import FuseLocks.
From S2P Require Import FuseNodes.
From S2P Require Import FuseDirents.
From S2P Require Import FuseLib.
From S2P Require Import FuseKernel.
From S2P Require Import FuseWire.
From S2P Require Import FuseLowlevel.
From S2P Require Import FuseSession.

Module FuseRequests.
Import LittleEndian FuseTypes FuseBuf FuseFs FuseNodes FuseDirents FuseLib FuseKernel FuseWire FuseLowlevel FuseSession.

(** ** Definitions *)

(** A request, its numbers as they lie in the structures: unsigned, of their width. *)
Inductive request :=
  | QLookup (dir : Z) (name : list byte)
  | QForget (ino nlookup : Z)
  | QBatchForget (l : list (Z * Z))
  | QGetattr (ino getattr_flags fh : Z)
  | QSetattr (ino valid fh size lock_owner atime mtime ctime atimensec mtimensec ctimensec mode uid gid : Z)
  | QReadlink (ino : Z)
  | QSymlink (dir : Z) (name link : list byte)
  | QMknod (dir : Z) (name : list byte) (mode rdev umask : Z)
  | QMkdir (dir : Z) (name : list byte) (mode umask : Z)
  | QUnlink (dir : Z) (name : list byte)
  | QRmdir (dir : Z) (name : list byte)
  | QRename (dir : Z) (oldname : list byte) (newdir : Z) (newname : list byte)
  | QRename2 (dir : Z) (oldname : list byte) (newdir : Z) (newname : list byte) (flags : Z)
  | QLink (dir ino : Z) (name : list byte)
  | QCreate (dir : Z) (name : list byte) (flags mode umask open_flags : Z)
  | QOpen (ino flags open_flags : Z)
  | QRead (ino fh offset size read_flags lock_owner flags : Z)
  | QWrite (ino fh offset write_flags lock_owner flags : Z) (data : list byte)
  | QStatfs (ino : Z)
  | QRelease (ino fh flags release_flags lock_owner : Z)
  | QFsync (ino fh fsync_flags : Z)
  | QSetxattr (ino : Z) (name value : list byte) (flags setxattr_flags : Z)
  | QGetxattr (ino : Z) (name : list byte) (size : Z)
  | QListxattr (ino size : Z)
  | QRemovexattr (ino : Z) (name : list byte)
  | QFlush (ino fh lock_owner : Z)
  | QOpendir (ino flags open_flags : Z)
  | QReaddir (ino fh offset size read_flags lock_owner flags : Z)
  | QReaddirplus (ino fh offset size read_flags lock_owner flags : Z)
  | QReleasedir (ino fh flags release_flags lock_owner : Z)
  | QFsyncdir (ino fh fsync_flags : Z)
  | QGetlk (ino fh owner lk_start lk_end lk_type lk_pid lk_flags : Z)
  | QSetlk (ino fh owner lk_start lk_end lk_type lk_pid lk_flags : Z)
  | QSetlkw (ino fh owner lk_start lk_end lk_type lk_pid lk_flags : Z)
  | QAccess (ino mask : Z)
  | QBmap (ino block blocksize : Z)
  | QIoctl (ino fh flags cmd arg : Z) (data : list byte) (out_size : Z)
  | QPoll (ino fh kh flags events : Z)
  | QFallocate (ino fh offset length mode : Z)
  | QCopyFileRange (ino fh_in off_in nodeid_out fh_out off_out len flags : Z)
  | QLseek (ino fh offset whence : Z).

(** The opcode and the node of the header. *)
Definition q_head (q : request) : Z * Z :=
  match q with
  | QLookup i _ => (FUSE_LOOKUP, i)
  | QForget i _ => (FUSE_FORGET, i)
  | QBatchForget _ => (FUSE_BATCH_FORGET, 0)
  | QGetattr i _ _ => (FUSE_GETATTR, i)
  | QSetattr i _ _ _ _ _ _ _ _ _ _ _ _ _ => (FUSE_SETATTR, i)
  | QReadlink i => (FUSE_READLINK, i)
  | QSymlink i _ _ => (FUSE_SYMLINK, i)
  | QMknod i _ _ _ _ => (FUSE_MKNOD, i)
  | QMkdir i _ _ _ => (FUSE_MKDIR, i)
  | QUnlink i _ => (FUSE_UNLINK, i)
  | QRmdir i _ => (FUSE_RMDIR, i)
  | QRename i _ _ _ => (FUSE_RENAME, i)
  | QRename2 i _ _ _ _ => (FUSE_RENAME2, i)
  | QLink i _ _ => (FUSE_LINK, i)
  | QCreate i _ _ _ _ _ => (FUSE_CREATE, i)
  | QOpen i _ _ => (FUSE_OPEN, i)
  | QRead i _ _ _ _ _ _ => (FUSE_READ, i)
  | QWrite i _ _ _ _ _ _ => (FUSE_WRITE, i)
  | QStatfs i => (FUSE_STATFS, i)
  | QRelease i _ _ _ _ => (FUSE_RELEASE, i)
  | QFsync i _ _ => (FUSE_FSYNC, i)
  | QSetxattr i _ _ _ _ => (FUSE_SETXATTR, i)
  | QGetxattr i _ _ => (FUSE_GETXATTR, i)
  | QListxattr i _ => (FUSE_LISTXATTR, i)
  | QRemovexattr i _ => (FUSE_REMOVEXATTR, i)
  | QFlush i _ _ => (FUSE_FLUSH, i)
  | QOpendir i _ _ => (FUSE_OPENDIR, i)
  | QReaddir i _ _ _ _ _ _ => (FUSE_READDIR, i)
  | QReaddirplus i _ _ _ _ _ _ => (FUSE_READDIRPLUS, i)
  | QReleasedir i _ _ _ _ => (FUSE_RELEASEDIR, i)
  | QFsyncdir i _ _ => (FUSE_FSYNCDIR, i)
  | QGetlk i _ _ _ _ _ _ _ => (FUSE_GETLK, i)
  | QSetlk i _ _ _ _ _ _ _ => (FUSE_SETLK, i)
  | QSetlkw i _ _ _ _ _ _ _ => (FUSE_SETLKW, i)
  | QAccess i _ => (FUSE_ACCESS, i)
  | QBmap i _ _ => (FUSE_BMAP, i)
  | QIoctl i _ _ _ _ _ _ => (FUSE_IOCTL, i)
  | QPoll i _ _ _ _ => (FUSE_POLL, i)
  | QFallocate i _ _ _ _ => (FUSE_FALLOCATE, i)
  | QCopyFileRange i _ _ _ _ _ _ _ => (FUSE_COPY_FILE_RANGE, i)
  | QLseek i _ _ _ => (FUSE_LSEEK, i)
  end.

(** A field of 4 or of 8 bytes. *)
Abbreviation u4 v := (4%nat, v).
Abbreviation u8 v := (8%nat, v).

Definition open_in (flags open_flags : Z) : list (nat * Z) := [u4 flags; u4 open_flags].
Definition read_in (fh offset size read_flags lock_owner flags : Z) : list (nat * Z) :=
  [u8 fh; u8 offset; u4 size; u4 read_flags; u8 lock_owner; u4 flags; u4 0].
Definition release_in (fh flags release_flags lock_owner : Z) : list (nat * Z) := [u8 fh; u4 flags; u4 release_flags; u8 lock_owner].
Definition fsync_in (fh fsync_flags : Z) : list (nat * Z) := [u8 fh; u4 fsync_flags; u4 0].
Definition lk_fields (fh owner s e t p lk_flags : Z) : list (nat * Z) := [u8 fh; u8 owner; u8 s; u8 e; u4 t; u4 p; u4 lk_flags; u4 0].

(** The structure behind the header ([struct fuse_..._in]); [ext] is for kernels that
    send the extended structure of SETXATTR. *)
Definition q_fields (ext : bool) (q : request) : list (nat * Z) :=
  match q with
  | QLookup _ _ | QReadlink _ | QSymlink _ _ _ | QUnlink _ _ | QRmdir _ _ | QStatfs _ | QRemovexattr _ _ => []
  | QForget _ nlookup => [u8 nlookup]
  | QBatchForget l => [u4 (zlen l); u4 0]
  | QGetattr _ getattr_flags fh => [u4 getattr_flags; u4 0; u8 fh]
  | QSetattr _ valid fh size lock_owner atime mtime ctime atimensec mtimensec ctimensec mode uid gid =>
      [u4 valid; u4 0; u8 fh; u8 size; u8 lock_owner; u8 atime; u8 mtime; u8 ctime; u4 atimensec; u4 mtimensec; u4 ctimensec;
       u4 mode; u4 0; u4 uid; u4 gid; u4 0]
  | QMknod _ _ mode rdev umask => [u4 mode; u4 rdev; u4 umask; u4 0]
  | QMkdir _ _ mode umask => [u4 mode; u4 umask]
  | QRename _ _ newdir _ => [u8 newdir]
  | QRename2 _ _ newdir _ flags => [u8 newdir; u4 flags; u4 0]
  | QLink _ ino _ => [u8 ino]
  | QCreate _ _ flags mode umask open_flags => [u4 flags; u4 mode; u4 umask; u4 open_flags]
  | QOpen _ flags open_flags => open_in flags open_flags
  | QRead _ fh offset size read_flags lock_owner flags => read_in fh offset size read_flags lock_owner flags
  | QWrite _ fh offset write_flags lock_owner flags data =>
      [u8 fh; u8 offset; u4 (zlen data); u4 write_flags; u8 lock_owner; u4 flags; u4 0]
  | QRelease _ fh flags release_flags lock_owner => release_in fh flags release_flags lock_owner
  | QFsync _ fh fsync_flags => fsync_in fh fsync_flags
  | QSetxattr _ _ value flags setxattr_flags =>
      if ext then [u4 (zlen value); u4 flags; u4 setxattr_flags; u4 0] else [u4 (zlen value); u4 flags]
  | QGetxattr _ _ size => [u4 size; u4 0]
  | QListxattr _ size => [u4 size; u4 0]
  | QFlush _ fh lock_owner => [u8 fh; u4 0; u4 0; u8 lock_owner]
  | QOpendir _ flags open_flags => open_in flags open_flags
  | QReaddir _ fh offset size read_flags lock_owner flags => read_in fh offset size read_flags lock_owner flags
  | QReaddirplus _ fh offset size read_flags lock_owner flags => read_in fh offset size read_flags lock_owner flags
  | QReleasedir _ fh flags release_flags lock_owner => release_in fh flags release_flags lock_owner
  | QFsyncdir _ fh fsync_flags => fsync_in fh fsync_flags
  | QGetlk _ fh owner s e t p lk_flags => lk_fields fh owner s e t p lk_flags
  | QSetlk _ fh owner s e t p lk_flags => lk_fields fh owner s e t p lk_flags
  | QSetlkw _ fh owner s e t p lk_flags => lk_fields fh owner s e t p lk_flags
  | QAccess _ mask => [u4 mask; u4 0]
  | QBmap _ block blocksize => [u8 block; u4 blocksize; u4 0]
  | QIoctl _ fh flags cmd arg data out_size => [u8 fh; u4 flags; u4 cmd; u8 arg; u4 (zlen data); u4 out_size]
  | QPoll _ fh kh flags events => [u8 fh; u8 kh; u4 flags; u4 events]
  | QFallocate _ fh offset length mode => [u8 fh; u8 offset; u8 length; u4 mode; u4 0]
  | QCopyFileRange _ fh_in off_in nodeid_out fh_out off_out len flags =>
      [u8 fh_in; u8 off_in; u8 nodeid_out; u8 fh_out; u8 off_out; u8 len; u8 flags]
  | QLseek _ fh offset whence => [u8 fh; u8 offset; u4 whence; u4 0]
  end.

(** The names behind the structure, each with its zero, in their order. *)
Definition q_names (q : request) : list (list byte) :=
  match q with
  | QLookup _ name | QUnlink _ name | QRmdir _ name | QRemovexattr _ name => [name]
  | QMknod _ name _ _ _ | QMkdir _ name _ _ | QLink _ _ name | QCreate _ name _ _ _ _ | QGetxattr _ name _ => [name]
  | QSetxattr _ name _ _ _ => [name]
  | QSymlink _ name link => [name; link]
  | QRename _ oldname _ newname | QRename2 _ oldname _ newname _ => [oldname; newname]
  | _ => []
  end.

(** The data behind those. *)
Definition q_data (q : request) : list byte :=
  match q with
  | QWrite _ _ _ _ _ _ data => data
  | QSetxattr _ _ value _ _ => value
  | QIoctl _ _ _ _ _ data _ => data
  | QBatchForget l => concat ((fun '(i, n) => fields [u8 i; u8 n]) <$> l)
  | _ => []
  end.

Definition terminated (l : list (list byte)) : list byte := concat ((fun s => s ++ [NUL]) <$> l).

Definition q_args (ext : bool) (q : request) : list byte :=
  fields (q_fields ext q) ++ terminated (q_names q) ++ q_data q.

(** [struct fuse_in_header] *)
Definition in_header (len op uniq nodeid uid gid pid : Z) : list byte :=
  fields [u4 len; u4 op; u8 uniq; u8 nodeid; u4 uid; u4 gid; u4 pid; (2%nat, 0); (2%nat, 0)].

Definition q_size (ext : bool) (q : request) : Z := IN_HEADER_SIZE + zlen (q_args ext q).

(** The whole request of the caller [uid], [gid], [pid], with its number. *)
Definition q_bytes (ext : bool) (uniq uid gid pid : Z) (q : request) : list byte :=
  in_header (q_size ext q) (q_head q).1 uniq (q_head q).2 uid gid pid ++ q_args ext q.

(** Numbers fit their fields, names are strings. *)
Definition fits_field (f : nat * Z) : Prop := 0 <= f.2 < 256 ^ Z.of_nat f.1.

Definition q_wf (ext : bool) (q : request) : Prop :=
  Forall fits_field (q_fields ext q) /\ Forall (fun s => NUL ∉ s) (q_names q) /\ 0 <= (q_head q).2 < 2 ^ 64 /\
  q_size ext q < 2 ^ 32 /\
  match q with QBatchForget l => Forall (fun '(i, n) => 0 <= i < 2 ^ 64 /\ 0 <= n < 2 ^ 64) l | _ => True end.

(** *** What a request stands for *)

Section meaning.
Context {os A : Type} `{Syscalls os}.
#[local] Abbreviation libst := (lib (os := os) (A := A)).
#[local] Abbreviation P := (prog libst).

Definition fi_of (fh : Z) : fuse_file_info := with_fh file_info_zero fh.

(** The attributes of SETATTR, the wanted ones, and the open file. *)
Definition attr_of (size atime mtime ctime atimensec mtimensec ctimensec mode uid gid : Z) : stat :=
  mk_stat 0 mode 0 uid gid (i64 size) (i64 atime, atimensec) (i64 mtime, mtimensec) (i64 ctime, ctimensec) 0 0 0.

Definition lock_of (s e t p : Z) : flock := FuseLocks.convert_fuse_file_lock (FuseLocks.mk_file_lock s e t p).

Definition lk_fi (fh owner : Z) : fuse_file_info := with_lock_owner (fi_of fh) owner.

(** Record locks where the file system has them. *)
Definition with_locks (locks : bool) (m : P unit) : P unit := if locks then m else fuse_reply_err ENOSYS.

Definition setlk_of (locks : bool) (ino fh owner s e t p lk_flags sleep : Z) : P unit :=
  if has_flag lk_flags FUSE_LK_FLOCK then fuse_lib_flock ino (Some (lk_fi fh owner)) (flock_op t sleep)
  else with_locks locks (fuse_lib_setlk ino (lk_fi fh owner) (lock_of s e t p) sleep).

(** The operation; [arg] is the buffer behind the header, for the requests whose
    operation gets a pointer into it, and [ext] as before. *)
Definition q_serve (locks : bool) (conn : fuse_conn_info) (arg : list cell) (q : request) : P unit :=
  match q with
  | QLookup dir name => fuse_lib_lookup dir name
  | QForget ino nlookup => fuse_lib_forget ino nlookup
  | QBatchForget l => fuse_lib_forget_multi l
  | QGetattr ino getattr_flags fh => fuse_lib_getattr ino (if has_flag getattr_flags FUSE_GETATTR_FH then Some (fi_of fh) else None)
  | QSetattr ino valid fh size _ atime mtime ctime atimensec mtimensec ctimensec mode uid gid =>
      fuse_lib_setattr ino (attr_of size atime mtime ctime atimensec mtimensec ctimensec mode uid gid) (Z.land valid SETATTR_MASK)
        (if has_flag valid FATTR_FH then Some (fi_of fh) else None)
  | QReadlink ino => fuse_lib_readlink ino
  | QSymlink dir name link => fuse_lib_symlink link dir name
  | QMknod dir name mode rdev _ => fuse_lib_mknod dir name mode rdev
  | QMkdir dir name mode _ => fuse_lib_mkdir dir name mode
  | QUnlink dir name => fuse_lib_unlink dir name
  | QRmdir dir name => fuse_lib_rmdir dir name
  | QRename dir oldname newdir newname => fuse_lib_rename dir oldname newdir newname 0
  | QRename2 dir oldname newdir newname flags => fuse_lib_rename dir oldname newdir newname flags
  | QLink dir ino name => fuse_lib_link ino dir name
  | QCreate dir name flags mode _ _ => fuse_lib_create dir name mode (with_flags file_info_zero (i32 flags))
  | QOpen ino flags _ => fuse_lib_open ino (with_flags file_info_zero (i32 flags))
  | QRead ino fh offset size _ lock_owner flags =>
      fuse_lib_read ino size (i64 offset) (Some (with_flags (with_lock_owner (fi_of fh) lock_owner) (i32 flags)))
  | QWrite ino fh offset write_flags lock_owner flags data =>
      let fi := with_flags (with_lock_owner (with_writepage (fi_of fh) (has_flag write_flags FUSE_WRITE_CACHE)) lock_owner) (i32 flags) in
      with_block arg (fun p =>
        fuse_lib_write_buf ino (mk_bufvec 1 0 0 [mk_buf (zlen data) 0 (ptr_add p WRITE_IN_SIZE) 0 0 0]) (i64 offset) (Some fi))
  | QStatfs ino => fuse_lib_statfs ino
  | QRelease ino fh flags release_flags lock_owner =>
      let fi := with_lock_owner (with_flush (with_flags (fi_of fh) (i32 flags)) (has_flag release_flags FUSE_RELEASE_FLUSH)) lock_owner in
      fuse_lib_release ino (if has_flag release_flags FUSE_RELEASE_FLOCK_UNLOCK
                            then with_lock_owner (with_flock_release fi true) lock_owner else fi)
  | QFsync ino fh fsync_flags => fuse_lib_fsync ino (Z.land fsync_flags 1) (Some (fi_of fh))
  | QSetxattr ino name value flags _ =>
      let start := if has_flag conn.(want_ext) FUSE_CAP_SETXATTR_EXT then 16 else 8 in
      with_block arg (fun p => fuse_lib_setxattr ino name (ptr_add p (start + zlen name + 1)) (zlen value) (i32 flags))
  | QGetxattr ino name size => fuse_lib_getxattr ino name size
  | QListxattr ino size => fuse_lib_listxattr ino size
  | QRemovexattr ino name => fuse_lib_removexattr ino name
  | QFlush ino fh lock_owner => fuse_lib_flush ino (Some (with_lock_owner (with_flush (fi_of fh) true) lock_owner))
  | QOpendir ino flags _ => fuse_lib_opendir ino (with_flags file_info_zero (i32 flags))
  | QReaddir ino fh offset size _ _ _ => fuse_lib_readdir ino size (i64 offset) (fi_of fh)
  | QReaddirplus ino fh offset size _ _ _ => fuse_lib_readdirplus ino size (i64 offset) (fi_of fh)
  | QReleasedir ino fh flags _ _ => fuse_lib_releasedir ino (with_flags (fi_of fh) (i32 flags))
  | QFsyncdir ino fh fsync_flags => fuse_lib_fsyncdir ino (Z.land fsync_flags 1) (fi_of fh)
  | QGetlk ino fh owner s e t p _ => with_locks locks (fuse_lib_getlk ino (lk_fi fh owner) (lock_of s e t p))
  | QSetlk ino fh owner s e t p lk_flags => setlk_of locks ino fh owner s e t p lk_flags 0
  | QSetlkw ino fh owner s e t p lk_flags => setlk_of locks ino fh owner s e t p lk_flags 1
  | QAccess ino mask => fuse_lib_access ino (i32 mask)
  | QBmap ino block blocksize => fuse_lib_bmap ino blocksize block
  | QIoctl ino fh flags cmd a data out_size =>
      if has_flag flags FUSE_IOCTL_DIR && negb (has_flag conn.(want_ext) FUSE_CAP_IOCTL_DIR) then fuse_reply_err ENOTTY
      else with_block arg (fun p =>
        fuse_lib_ioctl ino cmd (caller_ptr a) (fi_of fh) flags (if is_set (zlen data) then ptr_add p 32 else None) (zlen data) out_size)
  | QPoll ino fh kh flags events =>
      let fi := with_poll_events (fi_of fh) events in
      if has_flag flags FUSE_POLL_SCHEDULE_NOTIFY then
        ph <-- poll_handle kh ;;
        match ph with Some _ => fuse_lib_poll ino (Some fi) ph | None => fuse_reply_err ENOMEM end
      else fuse_lib_poll ino (Some fi) None
  | QFallocate ino fh offset length mode => fuse_lib_fallocate ino (i32 mode) (i64 offset) (i64 length) (Some (fi_of fh))
  | QCopyFileRange ino fh_in off_in nodeid_out fh_out off_out len flags =>
      fuse_lib_copy_file_range ino (i64 off_in) (Some (fi_of fh_in)) nodeid_out (i64 off_out) (Some (fi_of fh_out)) len (i32 flags)
  | QLseek ino fh offset whence => fuse_lib_lseek ino (i64 offset) (i32 whence) (Some (fi_of fh))
  end.

End meaning.
End FuseRequests.
