(* ===== verification/FuseDecode.v ===== *)
(** The functions do_... of lib/fuse_lowlevel.c take out of a buffer what the kernel
    put into it: on the bytes of a request they call the operation it stands for. *)
From S2P Require Import Prelude.
From S2P Require Import CLib.
From S2P Require Import LittleEndian.
From S2P Require Import FuseTypes.
From S2P Require Import FuseBuf.
From S2P Require Import FuseFs.
From S2P Require Import FuseLocks.
From S2P Require Import FuseNodes.
From S2P Require Import FuseDirents.
From S2P Require Import FuseLib.
From S2P Require Import FuseKernel.
From S2P Require Import FuseWire.
From S2P Require Import FuseLowlevel.
From S2P Require Import FuseSession.
From S2P Require Import FuseAnswers.
From S2P Require Import FuseSessionFacts.
From S2P Require Import FuseRequests.

Module FuseDecode.
Import LittleEndian FuseTypes FuseBuf FuseFs FuseNodes FuseDirents FuseLib FuseKernel FuseWire FuseLowlevel FuseSession FuseAnswers
  FuseSessionFacts FuseRequests.

(** ** Fields by their offset *)

(** The field that starts at an offset of a structure. *)
Fixpoint field_in (l : list (nat * Z)) (off : Z) : option (nat * Z) :=
  match l with
  | [] => None
  | (n, v) :: l => if off =? 0 then Some (n, v) else field_in l (off - Z.of_nat n)
  end.

Lemma field_in_nonneg l : forall off f, field_in l off = Some f -> 0 <= off.
Proof.
  induction l as [|[n v] l IH]; intros off f; cbn [field_in]; [done|]. destruct (Z.eqb_spec off 0); [lia|].
  intros Hf%IH. lia.
Qed.

Lemma field_find l rest : Forall fits_field l -> forall off n v, field_in l off = Some (n, v) ->
  field n (cells (fields l) ++ rest) off = Ok v.
Proof.
  induction 1 as [|[k w] l Hk Hl IH]; intros off n v; cbn [field_in]; [done|]. destruct (Z.eqb_spec off 0) as [->|Ho].
  - intros [= -> ->]. rewrite field_head. f_equal. by apply Z.mod_small.
  - intros Hf. pose proof (field_in_nonneg _ _ _ Hf). rewrite field_skip by lia. by apply IH.
Qed.

Lemma terminated_cons s l : terminated (s :: l) = (s ++ [NUL]) ++ terminated l.
Proof. done. Qed.

Section reads.
Context {os A : Type} `{Syscalls os}.
#[local] Abbreviation libst := (lib (os := os) (A := A)).
#[local] Abbreviation P := (prog libst).
Context (l : list (nat * Z)) (Hl : Forall fits_field l) (tail : list byte) (rest : list cell).
#[local] Abbreviation arg := (cells (fields l ++ tail) ++ rest).

Lemma u32f_find {B} off v (k : Z -> P B) s : field_in l off = Some (4%nat, v) -> pbind (u32f arg off) k s = k v s.
Proof.
  intros Hf. unfold u32f. rewrite cells_app, <- app_assoc.
  by rewrite (pbind_run _ _ _ _ _ (plift_run _ s _ (field_find _ _ Hl _ _ _ Hf))).
Qed.

Lemma u64f_find {B} off v (k : Z -> P B) s : field_in l off = Some (8%nat, v) -> pbind (u64f arg off) k s = k v s.
Proof.
  intros Hf. unfold u64f. rewrite cells_app, <- app_assoc.
  by rewrite (pbind_run _ _ _ _ _ (plift_run _ s _ (field_find _ _ Hl _ _ _ Hf))).
Qed.

Lemma i32f_find {B} off v (k : Z -> P B) s : field_in l off = Some (4%nat, v) -> pbind (i32f arg off) k s = k (i32 v) s.
Proof. intros Hf. unfold i32f. rewrite pbind_assoc. by rewrite (u32f_find off v _ s Hf). Qed.

Lemma i64f_find {B} off v (k : Z -> P B) s : field_in l off = Some (8%nat, v) -> pbind (i64f arg off) k s = k (i64 v) s.
Proof. intros Hf. unfold i64f. rewrite pbind_assoc. by rewrite (u64f_find off v _ s Hf). Qed.

Lemma fi_fh_find {B} off v (k : fuse_file_info -> P B) s : field_in l off = Some (8%nat, v) ->
  pbind (fi_fh arg off) k s = k (fi_of v) s.
Proof. intros Hf. unfold fi_fh. rewrite pbind_assoc. by rewrite (u64f_find off v _ s Hf). Qed.

End reads.

(** A name somewhere behind the structure. *)
Lemma name_behind (before : list byte) off name (behind : list byte) rest : off = zlen before -> NUL ∉ name ->
  c_string (zdrop off (cells (before ++ (name ++ [NUL]) ++ behind) ++ rest)) = Ok name.
Proof.
  intros -> Hn. rewrite !cells_app, <- !app_assoc. rewrite zdrop_app_exact by (by rewrite zlen_cells). by apply c_string_app.
Qed.

Section names.
Context {os A : Type} `{Syscalls os}.
#[local] Abbreviation libst := (lib (os := os) (A := A)).
#[local] Abbreviation P := (prog libst).
Context (l : list (nat * Z)) (data : list byte) (rest : list cell).

Lemma strf_find {B} off name names (k : list byte -> P B) s : off = Z.of_nat (sum_list (Datatypes.fst <$> l)) -> NUL ∉ name ->
  pbind (strf (cells (fields l ++ terminated (name :: names) ++ data) ++ rest) off) k s = k name s.
Proof.
  intros Ho Hn. unfold strf. rewrite terminated_cons, <- (app_assoc (name ++ [NUL])).
  by rewrite (pbind_run _ _ _ _ _ (plift_run _ s _ (name_behind (fields l) off name _ rest ltac:(by rewrite zlen_fields) Hn))).
Qed.

Lemma strf2_find {B} off name name2 (k : list byte * list byte -> P B) s : off = Z.of_nat (sum_list (Datatypes.fst <$> l)) ->
  NUL ∉ name -> NUL ∉ name2 ->
  pbind (strf2 (cells (fields l ++ terminated [name; name2] ++ data) ++ rest) off) k s = k (name, name2) s.
Proof.
  intros Ho Hn Hn2. unfold strf2. rewrite pbind_assoc, (strf_find off name [name2] _ s Ho Hn), pbind_assoc.
  unfold strf. rewrite !terminated_cons, <- !(app_assoc (_ ++ [NUL])). rewrite (app_assoc (fields l)).
  by rewrite (pbind_run _ _ _ _ _ (plift_run _ s _ (name_behind (fields l ++ name ++ [NUL]) (off + zlen name + 1) name2 _ rest
    ltac:(rewrite !zlen_app, zlen_fields; cbn [length]; lia) Hn2))).
Qed.

End names.

(** ** The requests *)

(** The next field, name, or test of a do_... function on the bytes of a request. *)
Ltac take_step :=
  lazymatch goal with
  | |- pbind (pbind _ _) _ _ = _ => rewrite pbind_assoc
  | |- pbind (u32f _ _) _ _ = _ => erewrite u32f_find; [|eassumption|reflexivity]
  | |- pbind (u64f _ _) _ _ = _ => erewrite u64f_find; [|eassumption|reflexivity]
  | |- pbind (i32f _ _) _ _ = _ => erewrite i32f_find; [|eassumption|reflexivity]
  | |- pbind (i64f _ _) _ _ = _ => erewrite i64f_find; [|eassumption|reflexivity]
  | |- pbind (fi_fh _ _) _ _ = _ => erewrite fi_fh_find; [|eassumption|reflexivity]
  | |- pbind (strf _ _) _ _ = _ => erewrite strf_find; [|reflexivity|assumption]
  | |- pbind (strf2 _ _) _ _ = _ => erewrite strf2_find; [|reflexivity|assumption|assumption]
  | |- pbind (pret ?a) ?k ?s = _ => change (pbind (pret a) k s) with (k a s); cbv beta
  | |- pbind (if ?b then _ else _) _ _ = _ => destruct b
  | |- (if ?b then _ else _) _ = _ => destruct b
  end.

Section decode.
Context {os A : Type} `{Syscalls os}.
#[local] Abbreviation libst := (lib (os := os) (A := A)).
Context (lks : bool).
#[local] Abbreviation ops := (path_ops lks : fuse_lowlevel_ops libst).
Context (conn : fuse_conn_info) (Hminor : 12 <= conn.(proto_minor)).
#[local] Abbreviation ext := (has_flag conn.(want_ext) FUSE_CAP_SETXATTR_EXT).
Implicit Types (req : fuse_req) (rest : list cell) (s : libst).

Lemma minor_le k : k <= 12 -> (k <=? conn.(proto_minor)) = true.
Proof. intros. apply Z.leb_le. lia. Qed.

Lemma minor_ge k : k <= 12 -> (conn.(proto_minor) <? k) = false.
Proof. intros. apply Z.ltb_ge. lia. Qed.

(** The function do_... of a request. *)
Definition q_do (insize : Z) (q : request) : fuse_req -> Z -> list cell -> prog libst unit :=
  match q with
  | QLookup _ _ => do_lookup ops
  | QForget _ _ => do_forget ops
  | QBatchForget _ => do_batch_forget ops
  | QGetattr _ _ _ => do_getattr ops conn
  | QSetattr _ _ _ _ _ _ _ _ _ _ _ _ _ _ => do_setattr ops
  | QReadlink _ => do_readlink ops
  | QSymlink _ _ _ => do_symlink ops
  | QMknod _ _ _ _ _ => do_mknod ops conn
  | QMkdir _ _ _ _ => do_mkdir ops conn
  | QUnlink _ _ => do_unlink ops
  | QRmdir _ _ => do_rmdir ops
  | QRename _ _ _ _ => do_rename ops
  | QRename2 _ _ _ _ _ => do_rename2 ops
  | QLink _ _ _ => do_link ops
  | QCreate _ _ _ _ _ _ => do_create ops conn
  | QOpen _ _ _ => do_open ops conn
  | QRead _ _ _ _ _ _ _ => do_read ops conn
  | QWrite _ _ _ _ _ _ _ => fun req i arg => do_write_buf ops conn req i arg insize
  | QStatfs _ => do_statfs ops
  | QRelease _ _ _ _ _ => do_release ops conn
  | QFsync _ _ _ => do_fsync ops
  | QSetxattr _ _ _ _ _ => do_setxattr ops conn
  | QGetxattr _ _ _ => do_getxattr ops
  | QListxattr _ _ => do_listxattr ops
  | QRemovexattr _ _ => do_removexattr ops
  | QFlush _ _ _ => do_flush ops conn
  | QOpendir _ _ _ => do_opendir ops conn
  | QReaddir _ _ _ _ _ _ _ => do_readdir ops
  | QReaddirplus _ _ _ _ _ _ _ => do_readdirplus ops
  | QReleasedir _ _ _ _ _ => do_releasedir ops
  | QFsyncdir _ _ _ => do_fsyncdir ops
  | QGetlk _ _ _ _ _ _ _ _ => do_getlk ops
  | QSetlk _ _ _ _ _ _ _ _ => do_setlk ops
  | QSetlkw _ _ _ _ _ _ _ _ => do_setlkw ops
  | QAccess _ _ => do_access ops
  | QBmap _ _ _ => do_bmap ops
  | QIoctl _ _ _ _ _ _ _ => do_ioctl ops conn
  | QPoll _ _ _ _ _ => do_poll ops
  | QFallocate _ _ _ _ _ => do_fallocate ops
  | QCopyFileRange _ _ _ _ _ _ _ _ => do_copy_file_range ops
  | QLseek _ _ _ _ => do_lseek ops
  end.

Lemma read_forgets_run l rest : Forall (fun '(i, n) => 0 <= i < 2 ^ 64 /\ 0 <= n < 2 ^ 64) l ->
  read_forgets (length l) (cells (concat ((fun '(i, n) => fields [u8 i; u8 n]) <$> l)) ++ rest) = Ok l.
Proof.
  induction 1 as [|[i n] l [Hi Hn] Hl IH]; [done|]. cbn [length read_forgets]. cbn [fmap list_fmap concat].
  fold (fmap (FMap := list_fmap) (fun '(i, n) => fields [u8 i; u8 n]) l). rewrite cells_app, <- app_assoc.
  set (m := cells (concat _) ++ rest). assert (Forall fits_field [u8 i; u8 n]) as Hf
    by (apply Forall_cons_2; [exact Hi | apply Forall_cons_2; [exact Hn | apply Forall_nil_2]]).
  rewrite (field_find _ m Hf 0 8 i eq_refl). cbn [obind]. rewrite (field_find _ m Hf 8 8 n eq_refl). cbn [obind].
  rewrite fields_behind by done. unfold m. rewrite IH. done.
Qed.

Lemma setattr_mask v : Z.land (Z.land v (u32 (Z.lnot FATTR_FH))) SETATTR_MASK = Z.land v SETATTR_MASK.
Proof. rewrite <- Z.land_assoc. by change (Z.land (u32 (Z.lnot FATTR_FH)) SETATTR_MASK) with SETATTR_MASK. Qed.

(** Takes a request out of its bytes. *)
Ltac take :=
  match goal with |- ?d _ _ _ _ = _ => unfold_head d end; unfold call_or, with_locks, take_umask, write_info, convert_attr, lk_info, lk_in;
  cbn [path_ops ll_lookup ll_forget ll_forget_multi ll_getattr ll_setattr ll_access ll_readlink ll_mknod ll_mkdir ll_unlink ll_rmdir
    ll_symlink ll_rename ll_link ll_create ll_open ll_read ll_write_buf ll_flush ll_release ll_fsync ll_opendir ll_readdir ll_readdirplus
    ll_releasedir ll_fsyncdir ll_statfs ll_setxattr ll_getxattr ll_listxattr ll_removexattr ll_getlk ll_setlk ll_flock ll_bmap ll_ioctl ll_poll
    ll_fallocate ll_copy_file_range ll_lseek];
  try match goal with |- context [if lks then _ else _] => case lks end; cbv iota;
  rewrite ?minor_ge, ?minor_le by lia; repeat take_step; try reflexivity.

Lemma taken_batch_forget l req rest s : q_wf ext (QBatchForget l) ->
  do_batch_forget ops req 0 (cells (q_args ext (QBatchForget l)) ++ rest) s = fuse_lib_forget_multi l s.
Proof.
  intros (Hf & _ & _ & _ & Hl). unfold q_args. cbn [q_fields q_names q_data] in *. unfold do_batch_forget. cbn [path_ops ll_forget_multi ll_forget].
  cbv zeta. take_step. rewrite cells_app, <- app_assoc, fields_behind by done. rewrite Nat2Z.id.
  change (terminated []) with ([] : list byte). cbn [app].
  by rewrite (pbind_run _ _ _ _ _ (plift_run _ s _ (read_forgets_run l rest Hl))).
Qed.

Lemma taken_write insize ino fh offset write_flags lock_owner flags data req rest s :
  let q := QWrite ino fh offset write_flags lock_owner flags data in q_wf ext q -> insize = q_size ext q ->
  let arg := cells (q_args ext q) ++ rest in
  do_write_buf ops conn req ino arg insize s = q_serve lks conn arg q s.
Proof.
  intros q (Hf & _ & _ & Hs & _) -> arg. subst q arg. unfold q_size in *. unfold q_args in *. cbn [q_fields q_names q_data q_serve] in *.
  rewrite !zlen_app, zlen_fields in *. change (terminated []) with ([] : list byte) in *.
  change (Z.of_nat (sum_list _)) with 40 in *. change (zlen (@nil byte)) with 0 in *.
  unfold do_write_buf, write_info. rewrite minor_ge by lia. repeat take_step. cbv zeta.
  unfold IN_HEADER_SIZE, WRITE_IN_SIZE in *. replace (40 + (40 + (0 + zlen data)) - (40 + 40)) with (zlen data) by lia.
  rewrite u64_small by (unfold SIZE_MAX; lia). take_step. rewrite Z.ltb_irrefl. repeat take_step. done.
Qed.

Lemma taken_setattr ino valid fh size lock_owner atime mtime ctime atimensec mtimensec ctimensec mode uid gid req rest s :
  let q := QSetattr ino valid fh size lock_owner atime mtime ctime atimensec mtimensec ctimensec mode uid gid in q_wf ext q ->
  do_setattr ops req ino (cells (q_args ext q) ++ rest) s = q_serve lks conn (cells (q_args ext q) ++ rest) q s.
Proof.
  intros q (Hf & _). subst q. unfold q_args. cbn [q_fields q_names q_data q_serve] in *. take.
  cbv beta iota. rewrite setattr_mask. reflexivity.
Qed.

Lemma taken_setxattr ino name value flags setxattr_flags req rest s :
  let q := QSetxattr ino name value flags setxattr_flags in q_wf ext q ->
  do_setxattr ops conn req ino (cells (q_args ext q) ++ rest) s = q_serve lks conn (cells (q_args ext q) ++ rest) q s.
Proof.
  intros q (Hf & Hn & _). subst q. unfold q_args. cbn [q_fields q_names q_data q_serve] in *. apply Forall_cons in Hn as [Hn _].
  unfold do_setxattr. cbn [path_ops ll_setxattr call_or]. destruct ext; repeat take_step; reflexivity.
Qed.

Lemma taken_setlk ino fh owner start e t p lk_flags sleep req rest s :
  let l := lk_fields fh owner start e t p lk_flags in Forall fits_field l ->
  do_setlk_common ops req ino (cells (fields l ++ terminated [] ++ []) ++ rest) sleep s
  = setlk_of lks ino fh owner start e t p lk_flags sleep s.
Proof.
  intros l Hf. subst l. unfold lk_fields, do_setlk_common, setlk_of, with_locks, lk_info, lk_in in *. cbn [path_ops ll_setlk ll_flock].
  case lks; cbn [call_or]; repeat take_step; reflexivity.
Qed.

(** What a function do_... takes out of the bytes of its request is what the request
    stands for. *)
Lemma q_taken insize q req rest s : q_wf ext q -> insize = q_size ext q ->
  let arg := cells (q_args ext q) ++ rest in
  q_do insize q req (q_head q).2 arg s = q_serve lks conn arg q s.
Proof.
  intros Hwf Hi arg. subst arg.
  destruct q; lazymatch goal with
    | |- q_do _ (QBatchForget _) _ _ _ _ = _ => by apply taken_batch_forget
    | |- q_do _ (QWrite _ _ _ _ _ _ _) _ _ _ _ = _ => by apply taken_write
    | |- q_do _ (QSetattr _ _ _ _ _ _ _ _ _ _ _ _ _ _) _ _ _ _ = _ => by apply taken_setattr
    | |- q_do _ (QSetxattr _ _ _ _ _) _ _ _ _ = _ => by apply taken_setxattr
    | |- _ => destruct Hwf as (Hf & Hn & _)
    end; unfold q_args;
    cbn [q_do q_serve q_head q_fields q_names q_data open_in read_in release_in fsync_in Datatypes.fst Datatypes.snd] in *;
    repeat (apply Forall_cons in Hn as [? Hn]);
    lazymatch goal with
    | |- do_setlk _ _ _ _ _ = _ => by apply taken_setlk
    | |- do_setlkw _ _ _ _ _ = _ => by apply taken_setlk
    | |- _ => unfold lk_fields in *; take
    end.
Qed.

End decode.

(** ** A request in its buffer *)

Section process.
Context {os A : Type} `{Syscalls os}.
#[local] Abbreviation libst := (lib (os := os) (A := A)).
#[local] Abbreviation Se := (fuse_session (os := os) (A := A)).
Implicit Types (se : Se) (u : libst) (q : request).

#[local] Abbreviation ext_of se := (has_flag se.(se_conn).(want_ext) FUSE_CAP_SETXATTR_EXT).

(** The caller of a request is somebody. *)
Record caller := mk_caller { c_uid : Z; c_gid : Z; c_pid : Z }.

Definition caller_ok (c : caller) : Prop := 0 <= c.(c_uid) < 2 ^ 32 /\ 0 <= c.(c_gid) < 2 ^ 32 /\ 0 <= c.(c_pid) < 2 ^ 32.

Definition header_of ext (uniq : Z) (c : caller) q : fuse_in_header :=
  mk_in_header (q_size ext q) (q_head q).1 uniq (q_head q).2 c.(c_uid) c.(c_gid) c.(c_pid).

(** The request of a caller in a buffer that is larger. *)
Definition q_buffer ext (uniq : Z) (c : caller) q (rest : list cell) : list cell :=
  cells (q_bytes ext uniq c.(c_uid) c.(c_gid) c.(c_pid) q) ++ rest.

Lemma q_op_range q : 0 <= (q_head q).1 < 256.
Proof. by destruct q. Qed.

Lemma in_header_run len op uniq nodeid uid gid pid rest : 0 <= len < 2 ^ 32 -> 0 <= op < 2 ^ 32 -> 0 <= uniq < 2 ^ 64 ->
  0 <= nodeid < 2 ^ 64 -> 0 <= uid < 2 ^ 32 -> 0 <= gid < 2 ^ 32 -> 0 <= pid < 2 ^ 32 ->
  read_in_header (cells (in_header len op uniq nodeid uid gid pid) ++ rest) = Ok (mk_in_header len op uniq nodeid uid gid pid).
Proof.
  intros. unfold read_in_header, in_header. set (l := _ :: _).
  assert (Forall fits_field l) as Hl by (repeat apply Forall_cons_2; try apply Forall_nil_2; first [assumption | by split]).
  repeat (erewrite (field_find l rest Hl) by reflexivity; cbn [obind]). done.
Qed.

Lemma q_header_run ext uniq c q rest : q_wf ext q -> 0 <= uniq < 2 ^ 64 -> caller_ok c ->
  read_in_header (q_buffer ext uniq c q rest) = Ok (header_of ext uniq c q).
Proof.
  intros (_ & _ & Hi & Hs & _) Hu (? & ? & ?). unfold q_buffer, q_bytes. rewrite cells_app, <- app_assoc.
  pose proof (q_op_range q). assert (0 <= q_size ext q) by (unfold q_size, IN_HEADER_SIZE; lia).
  rewrite in_header_run by lia. done.
Qed.

Lemma q_args_behind ext uniq c q rest : zdrop IN_HEADER_SIZE (q_buffer ext uniq c q rest) = cells (q_args ext q) ++ rest.
Proof. unfold q_buffer, q_bytes. rewrite cells_app, <- app_assoc. by apply zdrop_app_exact. Qed.

(** The session has a table of lib/fuse.c, with record locks or without. *)
Definition serves_locks se : bool := given (ll_getlk _ se.(se_op)).

(** A session that serves requests: a kernel of version 7.12 or later was greeted,
    and no interrupt waits for its request. *)
Record greeted se : Prop := mk_greeted {
  gr_init : se.(got_init) = true;
  gr_op : se.(se_op) = path_ops (serves_locks se);
  gr_minor : 12 <= se.(se_conn).(proto_minor);
  gr_calm : se.(se_conn).(no_interrupt) = true \/ se.(se_interrupts) = [];
}.

(** A session that serves this caller. *)
Definition admits se (c : caller) q : Prop :=
  se.(deny_others) = false \/ c.(c_uid) = se.(se_owner) \/ c.(c_uid) = 0 \/ (q_head q).1 ∈ root_exempt.

Lemma q_entry q : is_Some (entry_for (q_head q).1 (fuse_ll_ops (os := os) (A := A))).
Proof. destruct q; by eexists. Qed.

Lemma q_not_refused ext uniq se c q : se.(got_init) = true -> admits se c q -> refused se (header_of ext uniq c q) = None.
Proof.
  intros Hi Ha. unfold refused. rewrite Hi. cbn [header_of opcode in_uid].
  assert ((((q_head q).1 =? FUSE_INIT) || ((q_head q).1 =? CUSE_INIT)) = false) as -> by (by destruct q).
  assert (deny_others se && negb (c_uid c =? se_owner se) && negb (c_uid c =? 0) && negb (bool_decide ((q_head q).1 ∈ root_exempt)) = false) as ->.
  { destruct Ha as [->|[->|[->|Ha]]]; [done | by rewrite Z.eqb_refl, andb_false_r | by rewrite andb_false_r|].
    by rewrite bool_decide_true, andb_false_r by done. }
  destruct (q_entry q) as [h ->]. cbn [given negb].
  assert ((FUSE_MAXOP <=? (q_head q).1) = false) as -> by (by destruct q).
  assert (((q_head q).1 =? FUSE_INTERRUPT) = false) as -> by (by destruct q). by rewrite andb_false_r.
Qed.

(** The session with the request in service. *)
Definition in_service se (u : libst) (req : fuse_req) : Se :=
  let se := with_req se u in if se.(se_conn).(no_interrupt) then se else set_lists (se.(se_list) ++ [req]) [] se.

Lemma enlist_calm req o se u : o <> FUSE_INTERRUPT -> se.(se_conn).(no_interrupt) = true \/ se.(se_interrupts) = [] ->
  enlist req o (with_req se u) = Ok (req, in_service se u req).
Proof.
  intros Ho Hc. unfold enlist, in_service. prun_get. cbn [with_req set_addr set_userdata se_conn].
  rewrite (proj2 (Z.eqb_neq o FUSE_INTERRUPT) Ho). destruct (no_interrupt _) eqn:Hn; [done|]. destruct Hc as [|Hc]; [done|].
  cbn [negb andb]. unfold check_interrupt, pbind, pget, change, pput, pret. cbn [obind with_req set_addr set_userdata se_interrupts].
  rewrite Hc. cbn [take_interrupt obind]. unfold pbind, pget, pput. cbn [obind set_lists se_list se_interrupts set_addr set_userdata].
  change (se_interrupts (with_req se u)) with (se_interrupts se). by rewrite Hc.
Qed.

(** Handlers that do the same answer the same. *)
Lemma answer_ext req (m m' : prog libst unit) se : m (set_replies [] se.(userdata)) = m' (set_replies [] se.(userdata)) ->
  answer req m se = answer req m' se.
Proof. intros Hm. unfold answer, pbind, pget, pput. cbn [obind]. unfold on_lib. cbn [set_userdata userdata]. by rewrite Hm. Qed.

(** The table calls the function of the request. *)
Lemma q_dispatch lks insize req arg q se : se.(se_op) = path_ops lks ->
  (if ((q_head q).1 =? FUSE_WRITE) && given (ll_write_buf _ se.(se_op))
   then answer req (do_write_buf se.(se_op) se.(se_conn) req (q_head q).2 arg insize)
   else if (q_head q).1 =? FUSE_NOTIFY_REPLY then do_notify_reply req (q_head q).2 arg insize
   else match entry_for (q_head q).1 fuse_ll_ops with Some h => h req (q_head q).2 arg | None => pfail NullDeref end) se
  = answer req (q_do lks se.(se_conn) insize q req (q_head q).2 arg) se.
Proof. destruct se; cbn [se_op]. intros ->. destruct q; reflexivity. Qed.

Lemma q_processed uniq c q rest se u : let ext := ext_of se in
  greeted se -> admits se c q -> q_wf ext q -> 0 <= uniq < 2 ^ 64 -> caller_ok c -> in_fuse allocates se.(userdata) = Ok (true, u) ->
  let req := new_req se (header_of ext uniq c q) in
  fuse_session_process_buf (q_buffer ext uniq c q rest) (q_size ext q) se
  = answer req (q_serve (serves_locks se) se.(se_conn) (cells (q_args ext q) ++ rest) q) (in_service se u req).
Proof.
  intros ext [Hi Ho Hm Hc] Ha Hq Hu Hcal Hal req. unfold fuse_session_process_buf.
  prun_lift (q_header_run ext uniq c q rest Hq Hu Hcal). prun (alloc_req_run (header_of ext uniq c q) se u Hal). cbv iota. prun_get.
  rewrite refused_with_req, q_not_refused by done. prun (enlist_calm req (q_head q).1 se u ltac:(by destruct q) Hc). prun_get.
  rewrite q_args_behind. set (se2 := in_service se u req).
  assert (se2.(se_op) = path_ops (serves_locks se) /\ se2.(se_conn) = se.(se_conn)) as [Ho2 Hc2].
  { unfold se2, in_service. cbn [with_req set_addr set_userdata se_conn]. by destruct (no_interrupt _). }
  cbn [header_of opcode in_nodeid]. cbv zeta. rewrite (q_dispatch (serves_locks se)) by done. apply answer_ext. rewrite Hc2. by apply q_taken.
Qed.

End process.
End FuseDecode.
