(* ===== verification/FuseTree.v ===== *)
(** The tree the nodes of lib/fuse.c form: who refers to whom, and what counting
    and dropping references do to it. *)
From S2P Require Import Prelude.
From S2P Require Import CLib.
From S2P Require Import FuseTypes.
From S2P Require Import NodeTable.
From S2P Require Import NodeTableFacts.
From S2P Require Import FuseNodes.
From S2P Require Import FuseNodesFacts.
From S2P Require Import FusePaths.
From S2P Require Import FusePathsFacts.

Module FuseTree.
Import FuseTypes NodeTable NodeTableFacts FuseNodes FuseNodesFacts FusePaths FusePathsFacts.

(** ** What the two tables see of a node *)

Definition number_of (ns : gmap Z node) (k : Z) : option Z := nodeid <$> ns !! k.

(** Its directory's number and its name. *)
Definition link (ns : gmap Z node) (k : Z) : option (Z * list byte) :=
  n ← ns !! k; s ← n.(name); q ← n.(parent); d ← ns !! q; Some (d.(nodeid), s).

Lemma numbered_iff f i k : numbered f i k <-> in_table f.(id_table) k /\ number_of f.(nodes) k = Some i.
Proof.
  unfold numbered, number_of. rewrite fmap_Some. split.
  - intros [? (n & Hn & <-)]. split; [done|]. by exists n.
  - intros [? (n & Hn & ->)]. split; [done|]. by exists n.
Qed.

Lemma link_Some ns k dir s : link ns k = Some (dir, s) <->
  exists n q d, ns !! k = Some n /\ n.(name) = Some s /\ n.(parent) = Some q /\ ns !! q = Some d /\ d.(nodeid) = dir.
Proof.
  unfold link. split.
  - destruct (ns !! k) as [n|] eqn:Hn; [|done]. cbn. destruct (n.(name)) as [t|] eqn:Ht; [|done]. cbn.
    destruct (n.(parent)) as [q|] eqn:Hq; [|done]. cbn. destruct (ns !! q) as [d|] eqn:Hd; [|done].
    cbn. intros [= <- <-]. by exists n, q, d.
  - intros (n & q & d & -> & Hs & Hq & Hd & <-). cbn. rewrite Hs. cbn. rewrite Hq. cbn. by rewrite Hd.
Qed.

Lemma named_iff f dir s k : named f dir s k <-> in_table f.(name_table) k /\ link f.(nodes) k = Some (dir, s).
Proof. unfold named. by rewrite link_Some. Qed.

Lemma id_hash_number ns k : id_hash_of ns k =
  match number_of ns k with Some i => Ok (id_key i) | None => Fail OutOfBounds end.
Proof. unfold id_hash_of, node_at, number_of. by destruct (ns !! k). Qed.

Lemma name_hash_link ns k dir s : link ns k = Some (dir, s) -> name_hash_of ns k = Ok (name_key dir s).
Proof. rewrite link_Some, name_hash_of_Ok. intros (n & q & d & ? & ? & ? & ? & <-). by exists n, q, d, s. Qed.

Lemma link_hash ns k h : name_hash_of ns k = Ok h -> exists dir s, link ns k = Some (dir, s).
Proof.
  intros (n & q & d & s & ? & ? & ? & ? & _)%name_hash_of_Ok. exists d.(nodeid), s.
  apply link_Some. by exists n, q, d.
Qed.

Lemma table_has_link f k : table_wf (name_hash_of f.(nodes)) f.(name_table) -> in_table f.(name_table) k ->
  exists dir s, link f.(nodes) k = Some (dir, s).
Proof. intros Hwf [j Hj]. destruct (wf_place _ _ Hwf j k Hj) as (h & Hh & _). by apply (link_hash _ _ h). Qed.

Lemma table_has_number f k : table_wf (id_hash_of f.(nodes)) f.(id_table) -> in_table f.(id_table) k ->
  exists n, f.(nodes) !! k = Some n.
Proof.
  intros Hwf [j Hj]. destruct (wf_place _ _ Hwf j k Hj) as (h & (n & Hn & _)%id_hash_of_Ok & _). by exists n.
Qed.

(** A table that keeps some of its nodes, all of which look the same. *)
Lemma ids_ok_change f f' : ids_ok f ->
  table_wf (id_hash_of f.(nodes)) f'.(id_table) ->
  (forall k, in_table f'.(id_table) k -> in_table f.(id_table) k /\ number_of f'.(nodes) k = number_of f.(nodes) k) ->
  ids_ok f'.
Proof.
  intros [Hwf Huniq] Hwf' Hk. split.
  - apply (table_wf_ext (id_hash_of f.(nodes))); [|done]. intros k Hin. destruct (Hk k Hin) as [_ He].
    by rewrite !id_hash_number, He.
  - intros i p q [Hp Hip]%numbered_iff [Hq Hiq]%numbered_iff. destruct (Hk p Hp) as [Hp0 Hep], (Hk q Hq) as [Hq0 Heq].
    apply (Huniq i); apply numbered_iff; split; congruence.
Qed.

Lemma names_ok_change f f' : names_ok f ->
  table_wf (name_hash_of f.(nodes)) f'.(name_table) ->
  (forall k, in_table f'.(name_table) k -> in_table f.(name_table) k /\ link f'.(nodes) k = link f.(nodes) k) ->
  names_ok f'.
Proof.
  intros [Hwf Huniq] Hwf' Hk. split.
  - apply (table_wf_ext (name_hash_of f.(nodes))); [|done]. intros k Hin. destruct (Hk k Hin) as [Hin0 He].
    destruct (table_has_link f k Hwf Hin0) as (dir & s & Hl).
    by rewrite (name_hash_link f'.(nodes) k dir s), (name_hash_link f.(nodes) k dir s) by congruence.
  - intros dir s p q [Hp Hlp]%named_iff [Hq Hlq]%named_iff. destruct (Hk p Hp) as [Hp0 Hep], (Hk q Hq) as [Hq0 Heq].
    apply (Huniq dir s); apply named_iff; split; congruence.
Qed.

(** ** Taking a node out of the tables *)

(** No allocation to come fails. *)
Lemma shrink_memory t t' m' : shrink t [] = Ok (t', m') -> m' = [].
Proof.
  unfold shrink, remerge, node_table_reduce, reallocates.
  destruct (_ <? _); [|by intros [= _ <-]]. destruct (_ =? 0); cbn [obind].
  - destruct (_ <? _); [destruct (remerge_loop 8 _); [|done]; by intros [= _ <-]|].
    destruct (remerge_loop 8 _); [|done]. by intros [= _ <-].
  - destruct (remerge_loop 8 _); [|done]. by intros [= _ <-].
Qed.

Lemma unhash_id_raw f p n : table_wf (id_hash_of f.(nodes)) f.(id_table) -> f.(nodes) !! p = Some n ->
  in_table f.(id_table) p ->
  exists t m, unhash_id p f = Ok (tt, set_id_table t m f) /\ table_wf (id_hash_of f.(nodes)) t /\
    (forall k, in_table t k <-> in_table f.(id_table) k /\ k <> p) /\ (f.(memory) = [] -> m = []).
Proof.
  intros Hwf Hn Hp. unfold unhash_id. prun (load_node_run f p n Hn). prun_get.
  destruct (remove_node_wf (id_hash_of f.(nodes)) f.(id_table) p (id_key n.(nodeid)) Hwf) as (t1 & Hrem & Hwf1 & Hin1).
  { apply id_hash_of_Ok. by exists n. }
  { done. }
  prun_lift Hrem. destruct (shrink_wf _ t1 f.(memory) Hwf1) as (t' & m' & Hshr & Hwf' & Hs).
  prun_lift Hshr. exists t', m'. split_and!; [done | done | |].
  - intros k. by rewrite <- (Hs k), Hin1.
  - intros Hm. rewrite Hm in Hshr. by apply shrink_memory in Hshr.
Qed.

(** A node without a parent has no name to take out. *)
Lemma unhash_nothing (unref : Z -> prog fuse unit) f p n : f.(nodes) !! p = Some n -> n.(name) = None ->
  unhash_name_with unref p f = Ok (tt, f).
Proof. intros Hn Hs. unfold unhash_name_with. prun (load_node_run f p n Hn). by rewrite Hs. Qed.

(** The name goes in two halves, around dropping the reference to the parent. *)
Lemma unhash_first f p n s q d : table_wf (name_hash_of f.(nodes)) f.(name_table) ->
  f.(nodes) !! p = Some n -> n.(name) = Some s -> n.(parent) = Some q -> f.(nodes) !! q = Some d ->
  in_table f.(name_table) p ->
  exists t, let f1 := set_name_table t f.(memory) f in
    table_wf (name_hash_of f.(nodes)) t /\ (forall k, in_table t k <-> in_table f.(name_table) k /\ k <> p) /\
    forall (unref : Z -> prog fuse unit), unhash_name_with unref p f =
      (unref q ;;; n <-- load_node p ;; store_node p (with_name n None None) ;;;
       f <-- pget ;; let? (t, m) := plift (shrink f.(name_table) f.(memory)) in
       pput (set_name_table t m f)) f1.
Proof.
  intros Hwf Hn Hs Hq Hd Hin.
  destruct (remove_node_wf (name_hash_of f.(nodes)) f.(name_table) p (name_key d.(nodeid) s) Hwf) as (t & Hrem & Hwf1 & Hin1).
  { apply name_hash_of_Ok. by exists n, q, d, s. }
  { done. }
  exists t. split_and!; [done | done |]. intros unref. unfold unhash_name_with.
  prun (load_node_run f p n Hn). rewrite Hs, Hq. prun_lift (eq_refl : lift_fault NullDeref (Some q) = Ok q).
  prun (load_node_run f q d Hd). prun_get. prun_lift Hrem. by prun (pput_run f (set_name_table t f.(memory) f)).
Qed.

Lemma unhash_second f p n : f.(nodes) !! p = Some n ->
  table_wf (name_hash_of (<[p := with_name n None None]> f.(nodes))) f.(name_table) ->
  exists t m, (n <-- load_node p ;; store_node p (with_name n None None) ;;;
     f <-- pget ;; let? (t, m) := plift (shrink f.(name_table) f.(memory)) in
     pput (set_name_table t m f)) f =
      Ok (tt, set_name_table t m (set_nodes (<[p := with_name n None None]> f.(nodes)) f)) /\
    table_wf (name_hash_of (<[p := with_name n None None]> f.(nodes))) t /\
    (forall k, in_table t k <-> in_table f.(name_table) k) /\ (f.(memory) = [] -> m = []).
Proof.
  intros Hn Hwf. prun (load_node_run f p n Hn). prun (store_node_run f p n (with_name n None None) Hn). prun_get.
  destruct (shrink_wf _ f.(name_table) f.(memory) Hwf) as (t & m & Hshr & Hwf' & Hs).
  prun_lift Hshr. exists t, m. split_and!; [done | done | |].
  - intros k. by rewrite <- (Hs k).
  - intros Hm. rewrite Hm in Hshr. by apply shrink_memory in Hshr.
Qed.

(** ** Hashes that do not change *)

Lemma id_hash_insert ns p n n' k : ns !! p = Some n -> n'.(nodeid) = n.(nodeid) ->
  id_hash_of (<[p := n']> ns) k = id_hash_of ns k.
Proof.
  intros Hn Hi. unfold id_hash_of, node_at. destruct (decide (k = p)) as [->|].
  - by rewrite lookup_insert_eq, Hn; cbn; rewrite Hi.
  - by rewrite lookup_insert_ne.
Qed.

(** The name of another node hashes the same as long as [p] keeps its number. *)
Lemma name_hash_insert ns p n n' k : ns !! p = Some n -> n'.(nodeid) = n.(nodeid) ->
  (k = p -> n'.(name) = n.(name) /\ n'.(parent) = n.(parent)) ->
  name_hash_of (<[p := n']> ns) k = name_hash_of ns k.
Proof.
  intros Hn Hi Hk. unfold name_hash_of, node_at.
  assert (forall q, (d <- lift_fault OutOfBounds (<[p := n']> ns !! q) ;; Ok d.(nodeid)) =
    (d <- lift_fault OutOfBounds (ns !! q) ;; Ok d.(nodeid))) as Hq.
  { intros q. destruct (decide (q = p)) as [->|]; [rewrite lookup_insert_eq, Hn; cbn; by rewrite Hi | by rewrite lookup_insert_ne]. }
  assert (forall q s, (d <- lift_fault OutOfBounds (<[p := n']> ns !! q) ;; s <- lift_fault NullDeref s ;; Ok (name_key d.(nodeid) s)) =
    (d <- lift_fault OutOfBounds (ns !! q) ;; s <- lift_fault NullDeref s ;; Ok (name_key d.(nodeid) s))) as Hd.
  { intros q s. specialize (Hq q). destruct (<[p := n']> ns !! q), (ns !! q); cbn in *; try done.
    injection Hq as Hq. by rewrite Hq. }
  destruct (decide (k = p)) as [->|Hne].
  - rewrite lookup_insert_eq, Hn. cbn. destruct (Hk eq_refl) as [-> ->]. destruct n.(parent) as [q|]; [|done]. cbn. apply Hd.
  - rewrite lookup_insert_ne by done. destruct (ns !! k) as [m|]; [|done]. cbn.
    destruct m.(parent) as [q|]; [|done]. cbn. apply Hd.
Qed.

Lemma name_hash_delete ns p k : k <> p -> (forall n, ns !! k = Some n -> n.(parent) <> Some p) ->
  name_hash_of (delete p ns) k = name_hash_of ns k.
Proof.
  intros Hk Hp. unfold name_hash_of, node_at. rewrite lookup_delete_ne by done.
  destruct (ns !! k) as [n|] eqn:Hn; [|done]. cbn. destruct n.(parent) as [q|] eqn:Hq; [|done]. cbn.
  rewrite lookup_delete_ne; [done|]. intros ->. by apply (Hp n).
Qed.

(** ** Dropping a reference *)

(** From [p] up: the nodes whose only reference is the one that goes, and the
    first with others. *)
Inductive dies (ns : gmap Z node) : Z -> list Z -> option Z -> Prop :=
  | dies_not p n : ns !! p = Some n -> 1 < n.(refctr) -> dies ns p [] (Some p)
  | dies_last p n : ns !! p = Some n -> n.(refctr) = 1 -> n.(treelock) = 0 -> n.(name) = None ->
      dies ns p [p] None
  | dies_up p n s q gone stop : ns !! p = Some n -> n.(refctr) = 1 -> n.(treelock) = 0 ->
      n.(name) = Some s -> n.(parent) = Some q -> dies ns q gone stop -> dies ns p (p :: gone) stop.

Lemma dies_ext ns ns' p gone stop : dies ns p gone stop ->
  (forall k, k ∈ gone \/ stop = Some k -> ns' !! k = ns !! k) -> dies ns' p gone stop.
Proof.
  induction 1 as [p n Hn Hr|p n Hn Hr Ht Hs|p n s q gone stop Hn Hr Ht Hs Hq Hd IH]; intros He.
  - apply (dies_not _ _ n); [|done]. rewrite He by by right. done.
  - apply (dies_last _ _ n); try done. rewrite He; [done|]. left. by left.
  - apply (dies_up _ _ n s q); try done; [rewrite He; [done | left; by left]|].
    apply IH. intros k [Hk|Hk]; apply He; [left; by right | by right].
Qed.

Definition one_less (n : node) : node := with_refctr n (n.(refctr) - 1).

Definition after_drop (gone : list Z) (stop : option Z) (ns : gmap Z node) : gmap Z node :=
  let ns := foldr delete ns gone in
  match stop with Some q => alter one_less q ns | None => ns end.

Lemma foldr_delete_lookup (gone : list Z) (ns : gmap Z node) k :
  foldr delete ns gone !! k = if decide (k ∈ gone) then None else ns !! k.
Proof.
  induction gone as [|p gone IH]; [done|]. cbn. destruct (decide (k = p)) as [->|Hne].
  - rewrite lookup_delete_eq, decide_True; [done | by left].
  - rewrite lookup_delete_ne, IH by done. destruct (decide (k ∈ gone)).
    + by rewrite decide_True by by right.
    + rewrite decide_False; [done|]. by intros [?|?]%elem_of_cons.
Qed.

Lemma after_drop_lookup gone stop ns k : after_drop gone stop ns !! k =
  if decide (k ∈ gone) then None
  else if decide (stop = Some k) then one_less <$> ns !! k else ns !! k.
Proof.
  unfold after_drop. destruct stop as [q|].
  - destruct (decide (k = q)) as [->|Hne].
    + rewrite lookup_alter_eq, foldr_delete_lookup. destruct (decide (q ∈ gone)); [done|]. by rewrite decide_True.
    + rewrite lookup_alter_ne, foldr_delete_lookup by done. destruct (decide (k ∈ gone)); [done|].
      rewrite decide_False; [done | congruence].
  - rewrite foldr_delete_lookup. destruct (decide (k ∈ gone)); [done|]. by rewrite decide_False.
Qed.

(** What dropping the reference changes. *)
Record dropped (gone : list Z) (stop : option Z) (f f' : fuse) : Prop := mk_dropped {
  dr_nodes : f'.(nodes) = after_drop gone stop f.(nodes);
  dr_id_wf : table_wf (id_hash_of f'.(nodes)) f'.(id_table);
  dr_name_wf : table_wf (name_hash_of f'.(nodes)) f'.(name_table);
  dr_ids : forall k, in_table f'.(id_table) k <-> in_table f.(id_table) k /\ k ∉ gone;
  dr_names : forall k, in_table f'.(name_table) k <-> in_table f.(name_table) k /\ k ∉ gone;
  dr_lru : f'.(lru_table) = if f.(remember) >? 0 then filter (fun k => k ∉ gone) f.(lru_table) else f.(lru_table);
  dr_memory : f.(memory) = [] -> f'.(memory) = [];
  dr_rest : f'.(ctr) = f.(ctr) /\ f'.(fgeneration) = f.(fgeneration) /\ f'.(remember) = f.(remember) /\ f'.(now) = f.(now)
}.

Definition without_lru (p : Z) (f : fuse) : fuse :=
  if f.(remember) >? 0 then set_lru (filter (fun q => q <> p) f.(lru_table)) f else f.

Lemma lru_enabled_run f : lru_enabled f = Ok (f.(remember) >? 0, f).
Proof. done. Qed.

Lemma lru_step p f :
  (if f.(remember) >? 0 then remove_node_lru p else pret tt) f = Ok (tt, without_lru p f).
Proof. unfold without_lru. by destruct (f.(remember) >? 0). Qed.

(** The last steps of delete_node. *)
Lemma delete_tail f p n : table_wf (id_hash_of f.(nodes)) f.(id_table) -> f.(nodes) !! p = Some n ->
  in_table f.(id_table) p ->
  exists t m, let f' := set_nodes (delete p f.(nodes)) (set_id_table t m (without_lru p f)) in
    (lru <-- lru_enabled ;; (if lru : bool then remove_node_lru p else pret tt) ;;; unhash_id p ;;; free_node p) f =
      Ok (tt, f') /\
    table_wf (id_hash_of f'.(nodes)) t /\ (forall k, in_table t k <-> in_table f.(id_table) k /\ k <> p) /\
    (f.(memory) = [] -> m = []).
Proof.
  intros Hwf Hn Hin. set (f1 := without_lru p f).
  assert (f1.(nodes) = f.(nodes) /\ f1.(id_table) = f.(id_table) /\ f1.(memory) = f.(memory)) as (E1 & E2 & E3)
    by (unfold f1, without_lru; by destruct (f.(remember) >? 0)).
  destruct (unhash_id_raw f1 p n) as (t & m & Hun & Hwt & Hint & Hm); [by rewrite E1, E2 | by rewrite E1 | by rewrite E2 |].
  exists t, m. rewrite E1, E2, E3 in *. split_and!; [| | done | done].
  - prun (lru_enabled_run f). prun (lru_step p f). fold f1. prun Hun. unfold free_node.
    prun (load_node_run (set_id_table t m f1) p n ltac:(cbn [nodes set_id_table]; by rewrite E1)).
    unfold modify. prun_get. unfold pput. cbn [nodes set_id_table]. by rewrite E1.
  - apply (table_wf_ext (id_hash_of f.(nodes))); [|done]. intros k [_ Hk]%Hint. cbn [nodes set_nodes].
    unfold id_hash_of, node_at. by rewrite lookup_delete_ne.
Qed.

(** The nodes that go are in the tables, and only they have them for parents. *)
Record mortal (gone : list Z) (f : fuse) : Prop := mk_mortal {
  mo_id_wf : table_wf (id_hash_of f.(nodes)) f.(id_table);
  mo_name_wf : table_wf (name_hash_of f.(nodes)) f.(name_table);
  mo_ids : forall k, k ∈ gone -> in_table f.(id_table) k;
  mo_names : forall k n, k ∈ gone -> f.(nodes) !! k = Some n -> is_Some n.(name) -> in_table f.(name_table) k;
  mo_alone : forall k n q, in_table f.(name_table) k -> f.(nodes) !! k = Some n -> n.(parent) = Some q ->
    q ∈ gone -> k ∈ gone
}.

(** The first steps of unref_node. *)
Lemma unref_first fuel f p n : f.(nodes) !! p = Some n -> 0 < n.(refctr) ->
  unref_fuel (S fuel) p f =
    (if n.(refctr) - 1 =? 0 then delete_node_with (unref_fuel fuel) p else pret tt)
      (set_nodes (<[p := one_less n]> f.(nodes)) f).
Proof.
  intros Hn Hr. cbn [unref_fuel]. prun (load_node_run f p n Hn). rewrite Z.gtb_ltb, (proj2 (Z.ltb_lt _ _)) by done.
  prun_lift (eq_refl : guard_c true AssertFailed = Ok tt). by prun (store_node_run f p n (one_less n) Hn).
Qed.

Lemma delete_first unref f p n : f.(nodes) !! p = Some n -> n.(treelock) = 0 ->
  delete_node_with unref p f = (unhash_name_with unref p ;;; lru <-- lru_enabled ;;
    (if lru : bool then remove_node_lru p else pret tt) ;;; unhash_id p ;;; free_node p) f.
Proof.
  intros Hn Ht. unfold delete_node_with. prun (load_node_run f p n Hn). rewrite Ht.
  by prun_lift (eq_refl : guard_c (0 =? 0) AssertFailed = Ok tt).
Qed.

(** Counting down changes no hash. *)
Lemma one_less_wf f p n : f.(nodes) !! p = Some n ->
  (table_wf (id_hash_of f.(nodes)) f.(id_table) -> table_wf (id_hash_of (<[p := one_less n]> f.(nodes))) f.(id_table)) /\
  (table_wf (name_hash_of f.(nodes)) f.(name_table) ->
   table_wf (name_hash_of (<[p := one_less n]> f.(nodes))) f.(name_table)).
Proof.
  intros Hn. split; apply table_wf_ext; intros k _.
  - by apply (id_hash_insert _ _ n).
  - by apply (name_hash_insert _ _ n).
Qed.

Lemma drop_not f p n fuel : mortal [] f -> f.(nodes) !! p = Some n -> 1 < n.(refctr) ->
  exists f', unref_fuel (S fuel) p f = Ok (tt, f') /\ dropped [] (Some p) f f'.
Proof.
  intros Hm Hn Hr. rewrite (unref_first fuel f p n Hn) by lia. rewrite (proj2 (Z.eqb_neq _ _)) by lia.
  eexists. split; [done|]. destruct (one_less_wf f p n Hn) as [Hi Hs].
  assert (after_drop [] (Some p) f.(nodes) = <[p := one_less n]> f.(nodes)) as Hd.
  { unfold after_drop. cbn. apply map_eq. intros k. destruct (decide (k = p)) as [->|].
    - by rewrite lookup_alter_eq, lookup_insert_eq, Hn.
    - by rewrite lookup_alter_ne, lookup_insert_ne. }
  split; cbn [nodes id_table name_table lru_table memory remember set_nodes].
  - by rewrite Hd.
  - apply Hi, Hm.
  - apply Hs, Hm.
  - intros k. split; [|by intros [? _]]. intros. split; [done|]. apply not_elem_of_nil.
  - intros k. split; [|by intros [? _]]. intros. split; [done|]. apply not_elem_of_nil.
  - destruct (remember f >? 0); [|done]. induction (lru_table f) as [|k l IH]; [done|].
    rewrite filter_cons_True by apply not_elem_of_nil. by rewrite <- IH.
  - done.
  - done.
Qed.

Lemma lru_fold (p : Z) (gone l : list Z) :
  filter (fun k => k <> p) (filter (fun k => k ∉ gone) l) = filter (fun k => k ∉ p :: gone) l.
Proof.
  induction l as [|k l IH]; [done|]. rewrite !filter_cons.
  destruct (decide (k ∉ gone)) as [Hg|Hg].
  - rewrite filter_cons. destruct (decide (k <> p)) as [Hk|Hk].
    + rewrite decide_True; [by rewrite IH|]. by apply not_elem_of_cons.
    + rewrite decide_False; [done|]. by intros [? _]%not_elem_of_cons.
  - rewrite decide_False; [done|]. by intros [_ ?]%not_elem_of_cons.
Qed.

(** The end of a deletion, from a state in which the node has no name left. *)
Lemma drop_close f f3 p gone stop n' :
  delete p f3.(nodes) = after_drop (p :: gone) stop f.(nodes) -> f3.(nodes) !! p = Some n' ->
  in_table f3.(id_table) p ->
  table_wf (id_hash_of f3.(nodes)) f3.(id_table) -> table_wf (name_hash_of f3.(nodes)) f3.(name_table) ->
  (forall k, in_table f3.(id_table) k <-> in_table f.(id_table) k /\ k ∉ gone) ->
  (forall k, in_table f3.(name_table) k <-> in_table f.(name_table) k /\ k ∉ p :: gone) ->
  (forall k n, in_table f.(name_table) k -> f.(nodes) !! k = Some n -> n.(parent) = Some p -> k ∈ p :: gone) ->
  f3.(lru_table) = (if f.(remember) >? 0 then filter (fun k => k ∉ gone) f.(lru_table) else f.(lru_table)) ->
  (f.(memory) = [] -> f3.(memory) = []) ->
  (f3.(ctr) = f.(ctr) /\ f3.(fgeneration) = f.(fgeneration) /\ f3.(remember) = f.(remember) /\ f3.(now) = f.(now)) ->
  exists f', (lru <-- lru_enabled ;; (if lru : bool then remove_node_lru p else pret tt) ;;; unhash_id p ;;; free_node p) f3 =
    Ok (tt, f') /\ dropped (p :: gone) stop f f'.
Proof.
  intros Hdel Hp Hin Hidwf Hnwf Hids Hnames Halone Hlru Hmem (Hc & Hg & Hr & Hnow).
  destruct (delete_tail f3 p n' Hidwf Hp Hin) as (t & m & Hrun & Hwt & Hint & Hm).
  eexists. split; [exact Hrun|].
  split; cbn [nodes id_table name_table lru_table memory ctr fgeneration remember now set_nodes set_id_table] in *.
  - done.
  - done.
  - replace (name_table (without_lru p f3)) with f3.(name_table)
      by (unfold without_lru; by destruct (remember f3 >? 0)).
    apply (table_wf_ext (name_hash_of f3.(nodes))); [|done]. intros k [Hk Hkg]%Hnames.
    pose proof Hkg as [Hkp _]%not_elem_of_cons. apply name_hash_delete; [done|]. intros n Hn Hpar.
    assert (after_drop (p :: gone) stop f.(nodes) !! k = Some n) as Ha by (rewrite <- Hdel; by rewrite lookup_delete_ne).
    rewrite after_drop_lookup, decide_False in Ha by done.
    destruct (f.(nodes) !! k) as [n0|] eqn:Hn0; [|by destruct (decide (stop = Some k))].
    apply Hkg, (Halone k n0); try done. destruct (decide (stop = Some k)); cbn in Ha; by injection Ha as <-.
  - intros k. rewrite Hint, Hids, not_elem_of_cons. tauto.
  - intros k. replace (name_table (without_lru p f3)) with f3.(name_table)
      by (unfold without_lru; by destruct (remember f3 >? 0)). apply Hnames.
  - unfold without_lru. rewrite Hr. destruct (remember f >? 0); cbn [lru_table set_lru]; rewrite Hlru; [apply lru_fold | done].
  - intros Hf. by apply Hm, Hmem.
  - unfold without_lru. destruct (remember f3 >? 0); done.
Qed.

Lemma drop_last f p n fuel : mortal [p] f -> f.(nodes) !! p = Some n -> n.(refctr) = 1 ->
  n.(treelock) = 0 -> n.(name) = None ->
  exists f', unref_fuel (S fuel) p f = Ok (tt, f') /\ dropped [p] None f f'.
Proof.
  intros Hmo Hn Hr Ht Hs. rewrite (unref_first fuel f p n Hn) by lia. rewrite Hr. change (1 - 1 =? 0) with true. cbv iota.
  set (f1 := set_nodes _ f). assert (f1.(nodes) !! p = Some (one_less n)) as Hp1 by apply lookup_insert_eq.
  rewrite (delete_first _ f1 p (one_less n) Hp1 Ht). prun (unhash_nothing (unref_fuel fuel) f1 p (one_less n) Hp1 Hs).
  destruct (one_less_wf f p n Hn) as [Hi Hna].
  assert (~ in_table f.(name_table) p) as Hno.
  { intros Hin. destruct (table_has_link f p (mo_name_wf _ _ Hmo) Hin) as (dir & s & Hl).
    apply link_Some in Hl as (n' & ? & ? & Hn' & ? & _). congruence. }
  apply (drop_close f f1 p [] None (one_less n)); try done.
  - cbn [nodes f1 set_nodes]. unfold after_drop. cbn. apply map_eq. intros k. destruct (decide (k = p)) as [->|].
    + by rewrite !lookup_delete_eq.
    + by rewrite !lookup_delete_ne, lookup_insert_ne.
  - apply (mo_ids _ _ Hmo). by left.
  - apply Hi, Hmo.
  - apply Hna, Hmo.
  - intros k. split; [intros ?; split; [done | apply not_elem_of_nil] | by intros [? _]].
  - intros k. split; [|by intros [? _]]. intros Hk. split; [done|]. rewrite list_elem_of_singleton. by intros ->.
  - intros k n0 Hk Hn0 Hpar. apply (mo_alone _ _ Hmo k n0 p); try done. by left.
  - cbn [lru_table f1 set_nodes]. destruct (remember f >? 0); [|done]. symmetry. induction (lru_table f) as [|k l IH]; [done|].
    rewrite filter_cons_True by apply not_elem_of_nil. by rewrite IH.
Qed.

(** The state in which the parent's reference is dropped. *)
Lemma mortal_up f p n t gone : f.(nodes) !! p = Some n -> p ∉ gone -> mortal (p :: gone) f ->
  let f1 := set_name_table t f.(memory) (set_nodes (<[p := one_less n]> f.(nodes)) f) in
  table_wf (name_hash_of f1.(nodes)) t -> (forall k, in_table t k <-> in_table f.(name_table) k /\ k <> p) ->
  mortal gone f1.
Proof.
  intros Hn Hp Hmo f1 Hwt Hint. destruct (one_less_wf f p n Hn) as [Hi _].
  assert (forall k, k <> p -> f1.(nodes) !! k = f.(nodes) !! k) as Hsame
    by (intros; cbn [nodes f1 set_nodes set_name_table]; by rewrite lookup_insert_ne).
  split.
  - apply Hi, Hmo.
  - done.
  - intros k Hk. apply (mo_ids _ _ Hmo). by right.
  - intros k n' Hk Hn' Hs. assert (k <> p) as Hkp by (by intros ->). apply Hint. split; [|done].
    rewrite Hsame in Hn' by done. apply (mo_names _ _ Hmo k n'); [by right | done | done].
  - intros k n' q [Hk Hkp]%Hint Hn' Hq Hg. rewrite Hsame in Hn' by done.
    assert (k ∈ p :: gone) as Hkg by (apply (mo_alone _ _ Hmo k n' q); [done | done | done | by right]).
    by apply elem_of_cons in Hkg as [->|].
Qed.

Lemma unref_run gone : forall p stop f fuel,
  dies f.(nodes) p gone stop -> NoDup gone -> (forall q, stop = Some q -> q ∉ gone) -> mortal gone f ->
  (length gone < fuel)%nat ->
  exists f', unref_fuel fuel p f = Ok (tt, f') /\ dropped gone stop f f'.
Proof.
  induction gone as [|p gone IH]; intros p0 stop f fuel Hd Hnd Hstop Hmo Hfuel; (destruct fuel as [|fuel]; [cbn in Hfuel; lia|]).
  { inversion Hd as [? n Hn Hr| |]; subst. by apply (drop_not f p0 n). }
  inversion Hd as [|? n Hn Hr Ht Hs|? n s q ? ? Hn Hr Ht Hs Hq Hd']; subst.
  { by apply (drop_last f p n). }
  apply NoDup_cons in Hnd as [Hp Hnd]. rewrite (unref_first fuel f p n Hn) by lia. rewrite Hr.
  change (1 - 1 =? 0) with true. cbv iota. set (f1 := set_nodes _ f).
  assert (f1.(nodes) !! p = Some (one_less n)) as Hp1 by apply lookup_insert_eq.
  destruct (one_less_wf f p n Hn) as [_ Hna].
  assert (in_table f.(name_table) p) as Hinp by (apply (mo_names _ _ Hmo p n); [by left | done | by rewrite Hs]).
  assert (exists d, f1.(nodes) !! q = Some d) as [d Hdq].
  { destruct (table_has_link f p (mo_name_wf _ _ Hmo) Hinp) as (dir & s' & (n' & q' & d & Hn' & _ & Hq' & Hd0 & _)%link_Some).
    assert (q' = q) as -> by congruence. cbn [nodes f1 set_nodes]. destruct (decide (q = p)) as [->|]; [by eexists; apply lookup_insert_eq|].
    exists d. by rewrite lookup_insert_ne. }
  destruct (unhash_first f1 p (one_less n) s q d (Hna (mo_name_wf _ _ Hmo)) Hp1 Hs Hq Hdq Hinp) as (t & Hwt & Hint & Hun).
  rewrite (delete_first _ f1 p (one_less n) Hp1 Ht).
  set (f1t := set_name_table t f1.(memory) f1) in *. assert (mortal gone f1t) as Hmo1 by (by apply (mortal_up f p n t gone)).
  destruct (IH q stop f1t fuel) as (f2 & Hrun & Hdr); try done.
  { apply (dies_ext f.(nodes)); [done|]. intros k Hk. cbn [nodes f1t f1 set_nodes set_name_table].
    rewrite lookup_insert_ne; [done|]. intros <-. destruct Hk as [|Hk]; [done|]. apply (Hstop _ Hk). by left. }
  { intros q' Hq' Hg. apply (Hstop q' Hq'). by right. }
  { cbn in Hfuel. lia. }
  assert (f2.(nodes) !! p = Some (one_less n)) as Hp2.
  { rewrite (dr_nodes _ _ _ _ Hdr), after_drop_lookup, decide_False by done.
    rewrite decide_False; [done|]. intros ->. apply (Hstop p eq_refl). by left. }
  destruct (unhash_second f2 p (one_less n) Hp2) as (t3 & m3 & Hrun3 & Hwt3 & Hint3 & Hm3).
  { apply (table_wf_ext (name_hash_of f2.(nodes))); [|apply Hdr]. intros k [[_ Hk]%Hint _]%(dr_names _ _ _ _ Hdr).
    by apply (name_hash_insert _ _ (one_less n)). }
  set (n' := with_name (one_less n) None None) in *. set (f3 := set_name_table t3 m3 _) in *.
  assert (unhash_name_with (unref_fuel fuel) p f1 = Ok (tt, f3)) as Hstep by (rewrite Hun; by prun Hrun).
  prun Hstep. destruct (dr_rest _ _ _ _ Hdr) as (Hc & Hg & Hre & Hno).
  apply (drop_close f f3 p gone stop n'); try done.
  - cbn [nodes f3 set_name_table set_nodes]. rewrite (dr_nodes _ _ _ _ Hdr). apply map_eq. intros k.
    destruct (decide (k = p)) as [->|Hk].
    { rewrite lookup_delete_eq, after_drop_lookup, decide_True; [done | by left]. }
    rewrite lookup_delete_ne, lookup_insert_ne, !after_drop_lookup by done.
    cbn [nodes f1t f1 set_nodes set_name_table]. rewrite lookup_insert_ne by done.
    destruct (decide (k ∈ gone)); [by rewrite decide_True by by right|].
    rewrite (decide_False (P := k ∈ p :: gone)); [done|]. by intros [?|?]%elem_of_cons.
  - apply lookup_insert_eq.
  - apply (dr_ids _ _ _ _ Hdr). split; [|done]. apply (mo_ids _ _ Hmo). by left.
  - apply (table_wf_ext (id_hash_of f2.(nodes))); [|apply Hdr]. intros k _. by apply (id_hash_insert _ _ (one_less n)).
  - apply Hdr.
  - intros k. rewrite not_elem_of_cons. cbn [name_table f3 set_name_table]. rewrite Hint3, (dr_names _ _ _ _ Hdr).
    cbn [name_table f1t set_name_table]. rewrite Hint. tauto.
  - intros k n0 Hk Hn0 Hpar. apply (mo_alone _ _ Hmo k n0 p); try done. by left.
  - apply Hdr.
  - intros Hm. apply Hm3, Hdr. done.
Qed.

(** ** The tree *)

(** The nodes whose parent is [k]. *)
Definition kids (ns : gmap Z node) (k : Z) : gset Z :=
  dom (filter (fun x : Z * node => x.2.(parent) = Some k) ns).

Lemma elem_of_kids ns k j : j ∈ kids ns k <-> exists n, ns !! j = Some n /\ n.(parent) = Some k.
Proof.
  unfold kids. rewrite elem_of_dom. split.
  - intros [n [Hn Hp]%map_lookup_filter_Some]. by exists n.
  - intros (n & Hn & Hp). exists n. by apply map_lookup_filter_Some.
Qed.

(** The reference that the kernel's lookups are. *)
Definition looked (n : node) : Z := if n.(nlookup) =? 0 then 0 else 1.

(** The way from a node to one without a parent. *)
Definition tops (ns : gmap Z node) (k : Z) (ps : list (Z * list byte)) (r : Z) : Prop :=
  climbs ns k ps r /\ (r ∉ ps.*1) /\ exists n, ns !! r = Some n /\ n.(parent) = None.

(** A node has a parent when it has a name, except for the root, which has a name
    only. *)
Definition placed (n : node) : Prop :=
  match n.(parent) with
  | Some _ => is_Some n.(name) /\ n.(nodeid) <> FUSE_ROOT_ID
  | None => n.(name) = None \/ n.(nodeid) = FUSE_ROOT_ID
  end.

(** The nodes form a tree, all of them are in the tables, and every node counts
    its children, the lookups as one, and [extra] references besides. *)
Record tree_with (extra : Z -> Z) (f : fuse) : Prop := mk_tree {
  tr_ids : ids_ok f;
  tr_names : names_ok f;
  tr_numbered : forall k n, f.(nodes) !! k = Some n -> in_table f.(id_table) k;
  tr_hashed : forall k n, f.(nodes) !! k = Some n -> is_Some n.(parent) -> in_table f.(name_table) k;
  tr_placed : forall k n, f.(nodes) !! k = Some n -> placed n;
  tr_refs : forall k n, f.(nodes) !! k = Some n -> 0 < n.(refctr) /\
    n.(refctr) = Z.of_nat (base.size (kids f.(nodes) k)) + looked n + extra k;
  tr_count : forall k n, f.(nodes) !! k = Some n -> 0 <= n.(nlookup) < 2 ^ 64;
  tr_up : forall k n, f.(nodes) !! k = Some n -> exists ps r, tops f.(nodes) k ps r;
  tr_root : exists p n, f.(nodes) !! p = Some n /\ n.(nodeid) = FUSE_ROOT_ID /\ n.(nlookup) <> 0
}.

Definition nothing (k : Z) : Z := 0.
Definition one_at (p k : Z) : Z := if decide (k = p) then 1 else 0.
Definition tree (f : fuse) : Prop := tree_with nothing f.

(** *** The nodes that die are a part of the way up *)

Lemma dies_way ns p gone stop ps r : dies ns p gone stop -> tops ns p ps r ->
  (forall k n, ns !! k = Some n -> placed n) ->
  exists rest, ps.*1 ++ [r] = gone ++ option_list stop ++ rest.
Proof.
  intros Hd. revert ps. induction Hd as [p n Hn Hr|p n Hn Hr Ht Hs|p n s q gone stop Hn Hr Ht Hs Hq Hd IH];
    intros ps (Hc & Hrn & m & Hm & Hpar) Hpl.
  - inversion Hc; subst; cbn; eexists; done.
  - inversion Hc as [|? n' s' q' ? ? Hn' ? Hs']; subst; cbn; [by exists []|]. congruence.
  - inversion Hc as [|? n' s' q' ps' ? Hn' Hid' Hs' Hq' Hc']; subst; cbn.
    + congruence.
    + assert (n' = n) as -> by congruence. assert (q' = q) as -> by congruence.
      cbn in Hrn. apply not_elem_of_cons in Hrn as [_ Hrn].
      destruct (IH ps') as (rest & ->); [split_and!; [done | done | by exists m] | done |]. by exists rest.
Qed.

Lemma dies_distinct ns p gone stop ps r : dies ns p gone stop -> tops ns p ps r ->
  (forall k n, ns !! k = Some n -> placed n) ->
  NoDup gone /\ (forall q, stop = Some q -> q ∉ gone).
Proof.
  intros Hd Ht Hpl. destruct (dies_way _ _ _ _ _ _ Hd Ht Hpl) as (rest & He). destruct Ht as (Hc & Hr & _).
  assert (NoDup (ps.*1 ++ [r])) as Hnd.
  { apply NoDup_app. split; [by apply (climbs_NoDup _ _ _ _ Hc)|]. split; [|apply NoDup_singleton].
    intros x Hx Hxr. apply list_elem_of_singleton in Hxr as ->. done. }
  rewrite He in Hnd. apply NoDup_app in Hnd as (Hg & Hdis & _). split; [done|].
  intros q -> Hq. apply (Hdis q Hq). by left.
Qed.

(** Each but the first is there for the one before it. *)
Lemma dies_chain ns p gone stop : dies ns p gone stop ->
  forall q, q ∈ gone -> exists n, ns !! q = Some n /\ n.(refctr) = 1 /\ n.(treelock) = 0 /\
    (q = p \/ exists c m, c ∈ gone /\ ns !! c = Some m /\ m.(parent) = Some q).
Proof.
  induction 1 as [p n Hn Hr|p n Hn Hr Ht Hs|p n s q gone stop Hn Hr Ht Hs Hq Hd IH]; intros k Hk.
  - by apply elem_of_nil in Hk.
  - apply list_elem_of_singleton in Hk as ->. exists n. by split_and!; [..|left].
  - apply elem_of_cons in Hk as [->|Hk]; [exists n; by split_and!; [..|left]|].
    destruct (IH k Hk) as (m & Hm & Hrm & Htm & [->|(c & mc & Hc & ? & ?)]).
    + exists m. split_and!; try done. right. exists p, n. split; [by left | done].
    + exists m. split_and!; try done. right. exists c, mc. split; [by right | done].
Qed.

Lemma dies_stop ns p gone stop : dies ns p gone stop -> forall q, stop = Some q ->
  exists n, ns !! q = Some n /\ 1 < n.(refctr) /\ (gone = [] /\ q = p \/
    exists c m, c ∈ gone /\ ns !! c = Some m /\ m.(parent) = Some q).
Proof.
  induction 1 as [p n Hn Hr|p n Hn Hr Ht Hs|p n s q gone stop Hn Hr Ht Hs Hq Hd IH]; intros k Hk.
  - injection Hk as <-. exists n. split_and!; [done | done | by left].
  - done.
  - destruct (IH k Hk) as (m & Hm & Hrm & [[-> ->]|(c & mc & Hc & ? & ?)]).
    + exists m. split_and!; try done. right. exists p, n. split; [by left | done].
    + exists m. split_and!; try done. right. exists c, mc. split; [by right | done].
Qed.

(** *** What is left after they died *)

Lemma looked_range n : 0 <= looked n <= 1.
Proof. unfold looked. destruct (_ =? _); lia. Qed.

Lemma two_kids ns k a b : a ∈ kids ns k -> b ∈ kids ns k -> a <> b -> 2 <= Z.of_nat (base.size (kids ns k)).
Proof.
  intros Ha Hb Hne. assert ({[ a; b ]} ⊆ kids ns k) as Hsub%subseteq_size by set_solver.
  rewrite size_union, !size_singleton in Hsub by set_solver. lia.
Qed.

Lemma one_kid ns k a : a ∈ kids ns k -> 1 <= Z.of_nat (base.size (kids ns k)).
Proof.
  intros Ha. assert ({[ a ]} ⊆ kids ns k) as Hsub%subseteq_size by set_solver. rewrite size_singleton in Hsub. lia.
Qed.

Section dying.
Context (f : fuse) (p : Z) (gone : list Z) (stop : option Z).
Context (Htree : tree_with (one_at p) f) (Hdies : dies f.(nodes) p gone stop).
Let ns := f.(nodes).

Lemma p_known : exists n, ns !! p = Some n.
Proof. unfold ns. inversion Hdies; eauto. Qed.

Lemma gone_distinct : NoDup gone /\ (forall q, stop = Some q -> q ∉ gone).
Proof.
  destruct p_known as [n Hn]. destruct (tr_up _ _ Htree p n Hn) as (ps & r & Ht).
  apply (dies_distinct ns p gone stop ps r Hdies Ht). intros k m. apply (tr_placed _ _ Htree).
Qed.

(** Nobody else has them for a parent. *)
Lemma gone_alone j n q : ns !! j = Some n -> n.(parent) = Some q -> q ∈ gone -> j ∈ gone.
Proof.
  intros Hn Hq Hg. assert (j ∈ kids ns q) as Hj by (apply elem_of_kids; by exists n).
  destruct (dies_chain _ _ _ _ Hdies q Hg) as (m & Hm & Hr & _ & Hc).
  destruct (tr_refs _ _ Htree q m Hm) as [_ He]. pose proof (looked_range m) as Hl. unfold one_at in He.
  destruct Hc as [->|(c & mc & Hcg & Hmc & Hpar)].
  - rewrite decide_True in He by done. pose proof (one_kid _ _ _ Hj). unfold ns in *. lia.
  - destruct (decide (j = c)) as [->|Hne]; [done|]. assert (c ∈ kids ns q) as Hck by (apply elem_of_kids; by exists mc).
    pose proof (two_kids _ _ _ _ Hj Hck Hne). unfold ns in *. destruct (decide (q = p)); lia.
Qed.

(** Nor does the kernel know them. *)
Lemma gone_unknown q n : q ∈ gone -> ns !! q = Some n -> n.(nlookup) = 0.
Proof.
  intros Hg Hn. destruct (dies_chain _ _ _ _ Hdies q Hg) as (m & Hm & Hr & _ & Hc).
  assert (m = n) as -> by (unfold ns in *; congruence). destruct (tr_refs _ _ Htree q n Hn) as [_ He].
  unfold looked, one_at in He. destruct (Z.eqb_spec n.(nlookup) 0); [done|]. exfalso.
  destruct Hc as [->|(c & mc & Hcg & Hmc & Hpar)].
  - rewrite decide_True in He by done. lia.
  - assert (c ∈ kids f.(nodes) q) as Hck%one_kid by (apply elem_of_kids; by exists mc). destruct (decide (q = p)); lia.
Qed.

Lemma gone_not_root q n : q ∈ gone -> ns !! q = Some n -> n.(nodeid) <> FUSE_ROOT_ID.
Proof.
  intros Hg Hn Hid. destruct (tr_root _ _ Htree) as (r & nr & Hr & Hir & Hlr).
  destruct (tr_ids _ _ Htree) as [_ Huniq]. apply Hlr, (gone_unknown r); [|done].
  assert (r = q) as ->; [|done].
  apply (Huniq FUSE_ROOT_ID); apply numbered_iff; (split; [eapply (tr_numbered _ _ Htree); done|]);
    unfold number_of; [rewrite Hr | unfold ns in *; rewrite Hn]; cbn; congruence.
Qed.

Lemma gone_mortal : mortal gone f.
Proof.
  split.
  - apply Htree.
  - apply Htree.
  - intros k Hk. destruct (dies_chain _ _ _ _ Hdies k Hk) as (m & Hm & _). by apply (tr_numbered _ _ Htree k m).
  - intros k n Hk Hn [s Hs]. apply (tr_hashed _ _ Htree k n Hn). pose proof (tr_placed _ _ Htree k n Hn) as Hp.
    unfold placed in Hp. destruct (n.(parent)) as [q|] eqn:Hq; [done|]. exfalso. destruct Hp as [?|Hroot]; [congruence|].
    by apply (gone_not_root k n).
  - intros k n q _. apply gone_alone.
Qed.

(** A node that dies has a parent that dies, or is the one that stops it. *)
Lemma gone_next c n q : c ∈ gone -> ns !! c = Some n -> n.(parent) = Some q -> q ∈ gone \/ stop = Some q.
Proof.
  assert (forall k m, ns !! k = Some m -> placed m) as Hpl by (intros k m; apply (tr_placed _ _ Htree)).
  revert Hdies. fold ns. clear -Hpl. induction 1 as [p n' Hn Hr|p n' Hn Hr Ht Hs|p n' s q' gone stop Hn Hr Ht Hs Hq Hd IH]; intros Hc Hcn Hpar.
  - by apply elem_of_nil in Hc.
  - apply list_elem_of_singleton in Hc as ->. assert (n' = n) as -> by congruence.
    specialize (Hpl p n Hn). unfold placed in Hpl. rewrite Hpar, Hs in Hpl. by destruct Hpl as [[? ?] _].
  - apply elem_of_cons in Hc as [->|Hc].
    + assert (q' = q) as -> by congruence. inversion Hd; subst; [by right | left; right; by left..].
    + destruct (IH Hc Hcn Hpar); [left; by right | by right].
Qed.

(** Only one of them has the parent that stops it. *)
Lemma gone_last c c' m m' q : c ∈ gone -> c' ∈ gone -> ns !! c = Some m -> ns !! c' = Some m' ->
  m.(parent) = Some q -> m'.(parent) = Some q -> q ∉ gone -> c = c'.
Proof.
  revert Hdies. fold ns. clear. induction 1 as [p n' Hn Hr|p n' Hn Hr Ht Hs|p n' s q' gone stop Hn Hr Ht Hs Hq Hd IH];
    intros Hc Hc' Hm Hm' Hpar Hpar' Hno.
  - by apply elem_of_nil in Hc.
  - apply list_elem_of_singleton in Hc as ->. by apply list_elem_of_singleton in Hc' as ->.
  - apply not_elem_of_cons in Hno as [_ Hno]. apply elem_of_cons in Hc, Hc'.
    assert (forall x mx, ns !! p = Some mx -> mx.(parent) = Some q -> x ∉ gone) as Hnil.
    { intros x mx Hx Hpx. assert (q' = q) as -> by congruence. inversion Hd; subst; [apply not_elem_of_nil|..]; destruct Hno; by left. }
    destruct Hc as [->|Hc], Hc' as [->|Hc']; [done | | |by apply IH].
    + by destruct (Hnil c' m Hm Hpar).
    + by destruct (Hnil c m' Hm' Hpar').
Qed.

Context (f' : fuse) (Hdr : dropped gone stop f f').

Definition survivor (k : Z) (n : node) : node := if decide (stop = Some k) then one_less n else n.

Lemma survivor_same k n : nodeid (survivor k n) = n.(nodeid) /\ name (survivor k n) = n.(name) /\
  parent (survivor k n) = n.(parent) /\ nlookup (survivor k n) = n.(nlookup).
Proof. unfold survivor. by destruct (decide _). Qed.

Lemma survives k n' : f'.(nodes) !! k = Some n' <-> (k ∉ gone) /\ exists n, ns !! k = Some n /\ n' = survivor k n.
Proof.
  rewrite (dr_nodes _ _ _ _ Hdr), after_drop_lookup. fold ns. unfold survivor.
  destruct (decide (k ∈ gone)) as [|Hk]; [split; [done | by intros [? _]]|].
  destruct (decide (stop = Some k)).
  - rewrite fmap_Some. split; [intros (m & Hm & ->); split; [done | by exists m] | intros [_ (m & Hm & ->)]; by exists m].
  - split; [intros Hn; split; [done | by exists n'] | by intros [_ (m & Hm & ->)]].
Qed.

Lemma kids_after k : k ∉ gone -> kids f'.(nodes) k = kids ns k ∖ list_to_set gone.
Proof.
  intros Hk. apply set_eq. intros j. rewrite elem_of_difference, !elem_of_kids, elem_of_list_to_set. split.
  - intros (n' & Hn' & Hp). apply survives in Hn' as (Hj & m & Hm & ->). split; [|done]. exists m. split; [done|].
    by rewrite <- (proj1 (proj2 (proj2 (survivor_same j m)))).
  - intros [(n & Hn & Hp) Hj]. exists (survivor j n). split; [apply survives; split; [done | by exists n]|].
    by rewrite (proj1 (proj2 (proj2 (survivor_same j n)))).
Qed.

(** The counts of the nodes that are left. *)
Lemma refs_after k n : k ∉ gone -> ns !! k = Some n ->
  0 < (survivor k n).(refctr) /\
  (survivor k n).(refctr) = Z.of_nat (base.size (kids f'.(nodes) k)) + looked (survivor k n) + nothing k.
Proof.
  intros Hk Hn. destruct (tr_refs _ _ Htree k n Hn) as [Hpos He]. rewrite (kids_after k Hk).
  assert (looked (survivor k n) = looked n) as -> by (unfold looked; by rewrite (proj2 (proj2 (proj2 (survivor_same k n))))).
  unfold survivor, nothing, one_at in *. fold ns in He. destruct (decide (stop = Some k)) as [Hs|Hs].
  - destruct (dies_stop _ _ _ _ Hdies k Hs) as (n0 & Hn0 & Hr0 & Hwhy). assert (n0 = n) as -> by (unfold ns in *; congruence).
    cbn [refctr one_less with_refctr]. split; [lia|]. destruct Hwhy as [[Hg ->]|(c & m & Hc & Hm & Hpar)].
    + rewrite decide_True in He by done. replace (kids ns p ∖ list_to_set gone) with (kids ns p) by (rewrite Hg; set_solver). lia.
    + rewrite decide_False in He by (intros ->; apply Hk; clear -Hdies Hc; inversion Hdies; subst; [by apply elem_of_nil in Hc | by left..]).
      assert (kids ns k ∖ list_to_set gone = kids ns k ∖ {[ c ]}) as ->.
      { apply set_eq. intros j. rewrite !elem_of_difference, elem_of_list_to_set, elem_of_singleton, elem_of_kids. split.
        - intros [? Hj]. split; [done|]. by intros ->.
        - intros [(mj & Hmj & Hpj) Hj]. split; [by exists mj|]. intros Hg. apply Hj.
          by apply (gone_last j c mj m k). }
      rewrite size_difference, size_singleton by (apply singleton_subseteq_l, elem_of_kids; by exists m).
      assert (c ∈ kids ns k) as Hck%one_kid by (apply elem_of_kids; by exists m). lia.
  - assert (k <> p) as Hkp by (intros ->; clear -Hdies Hk Hs; inversion Hdies; subst; [done | destruct Hk; by left..]).
    rewrite decide_False in He by done.
    assert (kids ns k ∖ list_to_set gone = kids ns k) as ->; [|lia].
    apply set_eq. intros j. rewrite elem_of_difference, elem_of_list_to_set, elem_of_kids. split; [by intros [? _]|].
    intros (m & Hm & Hpar). split; [by exists m|]. intros Hj. by destruct (gone_next j m k Hj Hm Hpar).
Qed.

(** The ways of the nodes that are left. *)
Lemma climbs_after k ps r : climbs ns k ps r -> k ∉ gone -> climbs f'.(nodes) k ps r /\ r ∉ gone.
Proof.
  induction 1 as [k|k n s q ps r Hn Hid Hs Hq Hc IH]; intros Hk; [split; [constructor | done]|].
  assert (q ∉ gone) as Hqg by (intros Hg; apply Hk; by apply (gone_alone k n q)).
  destruct (IH Hqg) as [Hc' Hr]. split; [|done]. destruct (survivor_same k n) as (E1 & E2 & E3 & _).
  apply (climb_up _ k (survivor k n) s q); try congruence. apply survives. split; [done | by exists n].
Qed.

Lemma link_after k : in_table f'.(name_table) k -> link f'.(nodes) k = link ns k.
Proof.
  intros Hk. destruct (table_has_link f' k (dr_name_wf _ _ _ _ Hdr) Hk) as (dir & s & Hl). rewrite Hl. symmetry.
  apply link_Some in Hl as (n' & q & d' & (_ & n & Hn & ->)%survives & Hs & Hq & (_ & d & Hd & ->)%survives & Hi).
  destruct (survivor_same k n) as (_ & E2 & E3 & _). destruct (survivor_same q d) as (E1 & _).
  apply link_Some. exists n, q, d. split_and!; congruence.
Qed.

Lemma number_after k : in_table f'.(id_table) k -> number_of f'.(nodes) k = number_of ns k.
Proof.
  intros Hk. destruct (table_has_number f' k (dr_id_wf _ _ _ _ Hdr) Hk) as (n' & Hn'). unfold number_of. rewrite Hn'.
  apply survives in Hn' as (_ & n & -> & ->). cbn. by rewrite (proj1 (survivor_same k n)).
Qed.

Lemma tree_after : tree f'.
Proof.
  split.
  - split; [apply Hdr|]. intros i a b [Ha Hia]%numbered_iff [Hb Hib]%numbered_iff.
    rewrite number_after in Hia, Hib by done. apply (dr_ids _ _ _ _ Hdr) in Ha as [Ha _], Hb as [Hb _].
    apply (proj2 (tr_ids _ _ Htree) i); by apply numbered_iff.
  - split; [apply Hdr|]. intros dir s a b [Ha Hla]%named_iff [Hb Hlb]%named_iff.
    rewrite link_after in Hla, Hlb by done. apply (dr_names _ _ _ _ Hdr) in Ha as [Ha _], Hb as [Hb _].
    apply (proj2 (tr_names _ _ Htree) dir s); by apply named_iff.
  - intros k n' (Hk & n & Hn & ->)%survives. apply (dr_ids _ _ _ _ Hdr). split; [|done]. by apply (tr_numbered _ _ Htree k n).
  - intros k n' (Hk & n & Hn & ->)%survives Hp. rewrite (proj1 (proj2 (proj2 (survivor_same k n)))) in Hp.
    apply (dr_names _ _ _ _ Hdr). split; [|done]. by apply (tr_hashed _ _ Htree k n).
  - intros k n' (Hk & n & Hn & ->)%survives. pose proof (tr_placed _ _ Htree k n Hn) as Hp. unfold placed in *.
    by destruct (survivor_same k n) as (-> & -> & -> & _).
  - intros k n' (Hk & n & Hn & ->)%survives. by apply refs_after.
  - intros k n' (Hk & n & Hn & ->)%survives. rewrite (proj2 (proj2 (proj2 (survivor_same k n)))). by apply (tr_count _ _ Htree k).
  - intros k n' (Hk & n & Hn & ->)%survives. destruct (tr_up _ _ Htree k n Hn) as (ps & r & Hc & Hr & m & Hm & Hpar).
    destruct (climbs_after k ps r Hc Hk) as [Hc' Hrg]. exists ps, r. split_and!; [done | done |].
    exists (survivor r m). split; [apply survives; split; [done | by exists m]|].
    by rewrite (proj1 (proj2 (proj2 (survivor_same r m)))).
  - destruct (tr_root _ _ Htree) as (r & n & Hn & Hi & Hl). exists r, (survivor r n).
    destruct (survivor_same r n) as (-> & _ & _ & ->). split_and!; [|done|done]. apply survives. split; [|by exists n].
    intros Hg. by apply (gone_not_root r n).
Qed.

End dying.

End FuseTree.
