(* ===== verification/FuseTreeOps.v ===== *)
(** The operations on the tree of nodes of lib/fuse.c that keep it a tree: taking a
    name away, giving one, finding or making a node, forgetting one, renaming. *)
From S2P Require Import Prelude.
From S2P Require Import CLib.
From S2P Require Import FuseTypes.
From S2P Require Import NodeTable.
From S2P Require Import NodeTableFacts.
From S2P Require Import FuseNodes.
From S2P Require Import FuseNodesFacts.
From S2P Require Import FusePaths.
From S2P Require Import FusePathsFacts.
From S2P Require Import FuseTree.

Module FuseTreeOps.
Import FuseTypes NodeTable NodeTableFacts FuseNodes FuseNodesFacts FusePaths FusePathsFacts FuseTree.

(** ** Taking a name away *)

(** The nodes after [p], in [q], has lost its name. *)
Definition unnamed_nodes (ns : gmap Z node) (p q : Z) : gmap Z node :=
  alter one_less q (alter (fun n => with_name n None None) p ns).

Section unname.
Context (f : fuse) (p q : Z) (n d : node) (s : list byte).
Context (Htree : tree f) (Hn : f.(nodes) !! p = Some n) (Hs : n.(name) = Some s) (Hq : n.(parent) = Some q)
  (Hd : f.(nodes) !! q = Some d) (Hlooked : d.(nlookup) <> 0).
Let ns := f.(nodes).
Let ns' := unnamed_nodes ns p q.

Lemma p_not_q : p <> q.
Proof.
  intros <-. destruct (tr_up _ _ Htree p n Hn) as (ps & r & Hc & Hr & m & Hm & Hpar).
  assert (p ∈ ps.*1) as Hp by (inversion Hc; subst; [congruence | by left]).
  pose proof (climbs_NoDup _ _ _ _ Hc Hr) as Hnd.
  inversion Hc as [|? n' ? q' ps' ? Hn' ? ? Hq' Hc']; subst; [congruence|].
  assert (n' = n) as -> by congruence. assert (q' = p) as -> by congruence.
  cbn in Hnd. apply NoDup_cons in Hnd as [Hno _]. inversion Hc'; subst; [congruence | apply Hno; by left].
Qed.

(** The node that is left in each place. *)
Definition unnamed (k : Z) (m : node) : node :=
  if decide (k = p) then with_name m None None else if decide (k = q) then one_less m else m.

Lemma unnamed_lookup k : ns' !! k = unnamed k <$> ns !! k.
Proof.
  pose proof p_not_q as Hpq. unfold ns', unnamed_nodes, unnamed. destruct (decide (k = p)) as [->|Hkp].
  - by rewrite lookup_alter_ne, lookup_alter_eq by done.
  - destruct (decide (k = q)) as [->|Hkq].
    + by rewrite lookup_alter_eq, lookup_alter_ne by done.
    + rewrite !lookup_alter_ne by done. by destruct (ns !! k).
Qed.

Lemma unnamed_same k m : nodeid (unnamed k m) = m.(nodeid) /\ nlookup (unnamed k m) = m.(nlookup) /\
  (k <> p -> name (unnamed k m) = m.(name) /\ parent (unnamed k m) = m.(parent)).
Proof. unfold unnamed. destruct (decide (k = p)), (decide (k = q)); done. Qed.

Lemma q_referred : 1 < d.(refctr).
Proof.
  destruct (tr_refs _ _ Htree q d Hd) as [_ He]. unfold looked in He. rewrite (proj2 (Z.eqb_neq _ _)) in He by done.
  assert (p ∈ kids f.(nodes) q) as Hk%one_kid by (apply elem_of_kids; by exists n). unfold nothing in He. lia.
Qed.

Lemma name_hash_unnamed k : k <> p -> name_hash_of ns' k = name_hash_of ns k.
Proof.
  intros Hk. unfold name_hash_of, node_at. rewrite unnamed_lookup. destruct (ns !! k) as [m|] eqn:Hm; [|done]. cbn.
  destruct (unnamed_same k m) as (_ & _ & Hsame). destruct (Hsame Hk) as [-> ->].
  destruct m.(parent) as [c|]; [|done]. cbn. rewrite unnamed_lookup. destruct (ns !! c) as [mc|]; [|done]. cbn.
  by rewrite (proj1 (unnamed_same c mc)).
Qed.

Lemma unhash_name_run : exists t m,
  let f' := set_name_table t m (set_nodes ns' f) in
  unhash_name p f = Ok (tt, f') /\ table_wf (name_hash_of ns') t /\
  (forall k, in_table t k <-> in_table f.(name_table) k /\ k <> p) /\ (f.(memory) = [] -> m = []).
Proof.
  pose proof p_not_q as Hpq. pose proof (tr_names _ _ Htree) as [Hwf _].
  destruct (unhash_first f p n s q d Hwf Hn Hs Hq Hd) as (t & Hwt & Hint & Hun).
  { apply (tr_hashed _ _ Htree p n Hn). by rewrite Hq. }
  set (f1 := set_name_table t f.(memory) f) in *. pose proof q_referred as Hr.
  assert (unref_node q f1 = Ok (tt, set_nodes (<[q := one_less d]> ns) f1)) as Hunref.
  { unfold unref_node. prun_get. rewrite (unref_first _ f1 q d Hd) by lia. by rewrite (proj2 (Z.eqb_neq _ _)) by lia. }
  set (f2 := set_nodes _ f1) in *. assert (f2.(nodes) !! p = Some n) as Hp2 by (cbn [nodes f2 set_nodes]; by rewrite lookup_insert_ne).
  assert (<[p := with_name n None None]> f2.(nodes) = ns') as Hns'.
  { apply map_eq. intros k. rewrite unnamed_lookup. cbn [nodes f2 set_nodes]. unfold unnamed.
    destruct (decide (k = p)) as [->|Hkp]; [rewrite lookup_insert_eq; unfold ns; by rewrite Hn|]. rewrite lookup_insert_ne by done.
    destruct (decide (k = q)) as [->|Hkq]; [rewrite lookup_insert_eq; unfold ns; by rewrite Hd|]. rewrite lookup_insert_ne by done.
    by destruct (ns !! k). }
  destruct (unhash_second f2 p n Hp2) as (t2 & m2 & Hrun2 & Hwt2 & Hint2 & Hm2).
  { rewrite Hns'. apply (table_wf_ext (name_hash_of ns)); [|done]. intros k [_ Hk]%Hint. by apply name_hash_unnamed. }
  rewrite Hns' in Hrun2, Hwt2. exists t2, m2. split_and!; [| done | | done].
  - unfold unhash_name. rewrite Hun. prun Hunref. rewrite Hrun2. done.
  - intros k. rewrite Hint2. apply Hint.
Qed.

Context (t : node_table) (m : list bool) (Hwt : table_wf (name_hash_of ns') t).
Context (Hint : forall k, in_table t k <-> in_table f.(name_table) k /\ k <> p).
Let f' := set_name_table t m (set_nodes ns' f).

Lemma unnamed_some k x : ns' !! k = Some x <-> exists y, ns !! k = Some y /\ x = unnamed k y.
Proof.
  rewrite unnamed_lookup, fmap_Some. done.
Qed.

Lemma unnamed_link k : k <> p -> link ns' k = link ns k.
Proof.
  intros Hk. unfold link. rewrite unnamed_lookup. destruct (ns !! k) as [x|]; [|done]. cbn.
  destruct (unnamed_same k x) as (_ & _ & Hsame). destruct (Hsame Hk) as [-> ->].
  destruct x.(name); [|done]. cbn. destruct x.(parent) as [c|]; [|done]. cbn. rewrite unnamed_lookup.
  destruct (ns !! c) as [y|]; [|done]. cbn. by rewrite (proj1 (unnamed_same c y)).
Qed.

Lemma unnamed_named dir s' k : named f' dir s' k <-> named f dir s' k /\ k <> p.
Proof.
  rewrite !named_iff. cbn [name_table nodes f' set_name_table set_nodes]. rewrite Hint. split.
  - intros [[Hk Hkp] Hl]. rewrite unnamed_link in Hl by done. done.
  - intros [[Hk Hl] Hkp]. by rewrite unnamed_link.
Qed.

Lemma unnamed_numbered i k : numbered f' i k <-> numbered f i k.
Proof.
  rewrite !numbered_iff. cbn [id_table nodes f' set_name_table set_nodes]. unfold number_of. rewrite unnamed_lookup.
  unfold ns. destruct (f.(nodes) !! k) as [x|]; [|done]. cbn. by rewrite (proj1 (unnamed_same k x)).
Qed.

Lemma unnamed_kids k : kids ns' k = kids ns k ∖ {[ p ]}.
Proof.
  apply set_eq. intros j. rewrite elem_of_difference, elem_of_singleton, !elem_of_kids. split.
  - intros (x & (y & Hy & ->)%unnamed_some & Hpar). unfold unnamed in Hpar.
    destruct (decide (j = p)); [done|]. split; [|done]. exists y. split; [done|]. by destruct (decide (j = q)).
  - intros [(y & Hy & Hpar) Hj]. exists (unnamed j y). split; [apply unnamed_some; by exists y|].
    destruct (unnamed_same j y) as (_ & _ & Hsame). by destruct (Hsame Hj) as [_ ->].
Qed.

Lemma unnamed_refs k x : ns !! k = Some x -> 0 < (unnamed k x).(refctr) /\
  (unnamed k x).(refctr) = Z.of_nat (base.size (kids ns' k)) + looked (unnamed k x) + nothing k.
Proof.
  intros Hx. destruct (tr_refs _ _ Htree k x Hx) as [Hpos He]. rewrite unnamed_kids. fold ns in He.
  assert (looked (unnamed k x) = looked x) as -> by (unfold looked; by rewrite (proj1 (proj2 (unnamed_same k x)))).
  unfold nothing in *. pose proof q_referred as Hr. unfold unnamed. pose proof p_not_q as Hpq.
  assert (k <> q -> kids ns k ∖ {[ p ]} = kids ns k) as Hother.
  { intros Hk. apply set_eq. intros j. rewrite elem_of_difference, elem_of_singleton, elem_of_kids. split; [by intros [? _]|].
    intros (y & Hy & Hpar). split; [by exists y|]. intros ->. unfold ns in Hy. congruence. }
  destruct (decide (k = p)) as [->|Hkp]; [rewrite Hother by done; done|].
  destruct (decide (k = q)) as [->|Hkq]; [|rewrite Hother by done; done].
  assert (x = d) as -> by (unfold ns in Hx; congruence). cbn [refctr one_less with_refctr]. split; [lia|].
  assert (p ∈ kids ns q) as Hk by (apply elem_of_kids; by exists n). pose proof (one_kid _ _ _ Hk).
  rewrite size_difference, size_singleton by (by apply singleton_subseteq_l). lia.
Qed.

(** A way ends at [p] now, or is as before. *)
Lemma unnamed_climbs k ps r : climbs ns k ps r ->
  ((p ∉ ps.*1) /\ climbs ns' k ps r) \/ exists ps1, climbs ns' k ps1 p /\ (p ∉ ps1.*1) /\ p ∈ ps.*1.
Proof.
  induction 1 as [k|k x s' c ps r Hx Hid Hs' Hc Hcl IH]; [left; split; [apply not_elem_of_nil | constructor]|].
  destruct (decide (k = p)) as [->|Hk].
  { right. exists []. split_and!; [constructor | apply not_elem_of_nil | by left]. }
  assert (climbs ns' c ps r -> climbs ns' k ((k, s') :: ps) r) as Hup.
  { intros Hc'. destruct (unnamed_same k x) as (E1 & _ & Hsame). destruct (Hsame Hk) as [E2 E3].
    apply (climb_up _ k (unnamed k x) s' c); try congruence. apply unnamed_some. by exists x. }
  destruct IH as [[Hp Hc']|(ps1 & Hc1 & Hp1 & Hin)].
  - left. split; [by apply not_elem_of_cons | by apply Hup].
  - right. exists ((k, s') :: ps1). destruct (unnamed_same k x) as (E1 & _ & Hsame). destruct (Hsame Hk) as [E2 E3].
    split_and!; [|by apply not_elem_of_cons | by right].
    apply (climb_up _ k (unnamed k x) s' c); try congruence. apply unnamed_some. by exists x.
Qed.

Lemma unnamed_tops k x : ns !! k = Some x -> exists ps r, tops ns' k ps r.
Proof.
  intros Hx. destruct (tr_up _ _ Htree k x Hx) as (ps & r & Hc & Hr & y & Hy & Hpar).
  destruct (unnamed_climbs k ps r Hc) as [[Hp Hc']|(ps1 & Hc1 & Hp1 & _)].
  - exists ps, r. split_and!; [done | done |]. exists (unnamed r y). split; [apply unnamed_some; by exists y|].
    unfold unnamed. destruct (decide (r = p)); [done|]. by destruct (decide (r = q)).
  - exists ps1, p. split_and!; [done | done |]. exists (unnamed p n). split; [apply unnamed_some; by exists n|].
    unfold unnamed. by rewrite decide_True.
Qed.

Lemma unnamed_tree : tree f'.
Proof.
  split.
  - apply (ids_ok_change f); [apply Htree | apply Htree |]. intros k Hk. split; [done|].
    cbn [nodes f' set_name_table set_nodes]. unfold number_of. rewrite unnamed_lookup. unfold ns.
    destruct (f.(nodes) !! k) as [x|]; [|done]. cbn. by rewrite (proj1 (unnamed_same k x)).
  - split; [done|]. intros dir s' a b [Ha _]%unnamed_named [Hb _]%unnamed_named. by apply (proj2 (tr_names _ _ Htree) dir s').
  - intros k x (y & Hy & ->)%unnamed_some. by apply (tr_numbered _ _ Htree k y).
  - intros k x (y & Hy & ->)%unnamed_some Hpar. apply Hint. unfold unnamed in Hpar.
    destruct (decide (k = p)) as [->|Hk]; [by destruct Hpar|]. split; [|done]. apply (tr_hashed _ _ Htree k y); [done|].
    by destruct (decide (k = q)).
  - intros k x (y & Hy & ->)%unnamed_some. pose proof (tr_placed _ _ Htree k y Hy) as Hp. unfold unnamed.
    destruct (decide (k = p)); [by left|]. by destruct (decide (k = q)).
  - intros k x (y & Hy & ->)%unnamed_some. by apply unnamed_refs.
  - intros k x (y & Hy & ->)%unnamed_some. rewrite (proj1 (proj2 (unnamed_same k y))). by apply (tr_count _ _ Htree k).
  - intros k x (y & Hy & ->)%unnamed_some. by apply (unnamed_tops k y).
  - destruct (tr_root _ _ Htree) as (r & y & Hy & Hi & Hl). exists r, (unnamed r y).
    destruct (unnamed_same r y) as (-> & -> & _). split_and!; [|done|done]. apply unnamed_some. by exists y.
Qed.

End unname.

(** ** Giving a name *)

Section give.
Context (f f' : fuse) (p q : Z) (n d : node) (s : list byte).
Context (Htree : tree f) (Hn : f.(nodes) !! p = Some n) (Hs : n.(name) = None) (Hp : n.(parent) = None)
  (Hd : f.(nodes) !! q = Some d) (Hnew : n.(nodeid) <> FUSE_ROOT_ID).
Let ns := f.(nodes).
(** [p] is not above its new directory. *)
Context (Habove : forall ps r, tops ns q ps r -> r <> p).
Context (Hns' : f'.(nodes) = named_nodes ns p q n d s) (Hit : f'.(id_table) = f.(id_table))
  (Hids' : ids_ok f') (Hnames' : names_ok f')
  (Hnamed : forall dir' s' k, named f' dir' s' k <-> (dir' = d.(nodeid) /\ s' = s /\ k = p) \/ named f dir' s' k).

Lemma give_p_not_q : p <> q.
Proof. intros ->. apply (Habove [] q); [|done]. split_and!; [constructor | apply not_elem_of_nil | by exists n]. Qed.

Definition given (k : Z) (m : node) : node :=
  if decide (k = p) then with_name m (Some q) (Some s)
  else if decide (k = q) then with_refctr m (m.(refctr) + 1) else m.

Lemma given_lookup k : f'.(nodes) !! k = given k <$> ns !! k.
Proof.
  pose proof give_p_not_q as Hpq. rewrite Hns'. unfold named_nodes, given. destruct (decide (k = p)) as [->|Hkp].
  - rewrite lookup_insert_eq. unfold ns. by rewrite Hn.
  - rewrite lookup_insert_ne by done. destruct (decide (k = q)) as [->|Hkq].
    + rewrite lookup_insert_eq. unfold ns. by rewrite Hd.
    + rewrite lookup_insert_ne by done. by destruct (ns !! k).
Qed.

Lemma given_some k x : f'.(nodes) !! k = Some x <-> exists y, ns !! k = Some y /\ x = given k y.
Proof. rewrite given_lookup, fmap_Some. done. Qed.

Lemma given_same k m : nodeid (given k m) = m.(nodeid) /\ nlookup (given k m) = m.(nlookup) /\
  (k <> p -> name (given k m) = m.(name) /\ parent (given k m) = m.(parent)).
Proof. unfold given. destruct (decide (k = p)), (decide (k = q)); done. Qed.

Lemma given_kids k : kids f'.(nodes) k = if decide (k = q) then {[ p ]} ∪ kids ns k else kids ns k.
Proof.
  apply set_eq. intros j. rewrite elem_of_kids.
  assert (j <> p -> (exists x, f'.(nodes) !! j = Some x /\ x.(parent) = Some k) <-> j ∈ kids ns k) as Hother.
  { intros Hj. rewrite elem_of_kids. split.
    - intros (x & (y & Hy & ->)%given_some & Hpar). destruct (given_same j y) as (_ & _ & Hsame). destruct (Hsame Hj) as [_ E].
      exists y. by rewrite <- E.
    - intros (y & Hy & Hpar). exists (given j y). destruct (given_same j y) as (_ & _ & Hsame). destruct (Hsame Hj) as [_ E].
      rewrite E. split; [|done]. apply given_some. by exists y. }
  assert (p ∉ kids ns k) as Hno by (rewrite elem_of_kids; intros (y & Hy & Hpar); unfold ns in Hy; congruence).
  destruct (decide (j = p)) as [->|Hj].
  - split.
    + intros (x & (y & Hy & ->)%given_some & Hpar). unfold given in Hpar. rewrite decide_True in Hpar by done.
      cbn in Hpar. injection Hpar as <-. rewrite decide_True by done. set_solver.
    + destruct (decide (k = q)) as [->|]; [|done]. intros _. exists (given p n). split; [apply given_some; by exists n|].
      unfold given. by rewrite decide_True.
  - rewrite Hother by done. destruct (decide (k = q)); [|done]. rewrite elem_of_union, elem_of_singleton. tauto.
Qed.

Lemma given_refs k x : ns !! k = Some x -> 0 < (given k x).(refctr) /\
  (given k x).(refctr) = Z.of_nat (base.size (kids f'.(nodes) k)) + looked (given k x) + nothing k.
Proof.
  intros Hx. destruct (tr_refs _ _ Htree k x Hx) as [Hpos He]. rewrite given_kids. fold ns in He.
  assert (looked (given k x) = looked x) as -> by (unfold looked; by rewrite (proj1 (proj2 (given_same k x)))).
  pose proof give_p_not_q as Hpq. unfold nothing, given in *. destruct (decide (k = p)) as [->|Hkp].
  - rewrite decide_False by done. done.
  - destruct (decide (k = q)) as [->|Hkq]; [|done]. cbn [refctr with_refctr].
    assert (p ∉ kids ns q) as Hno by (rewrite elem_of_kids; intros (y & Hy & Hpar); unfold ns in Hy; congruence).
    rewrite size_union, size_singleton by set_solver. lia.
Qed.

Lemma given_climbs k ps r : climbs ns k ps r -> p ∉ ps.*1 -> climbs f'.(nodes) k ps r.
Proof.
  induction 1 as [k|k x s' c ps r Hx Hid Hs' Hc Hcl IH]; [constructor|]. cbn. intros [Hk Hps]%not_elem_of_cons.
  destruct (given_same k x) as (E1 & _ & Hsame). destruct (Hsame ltac:(done)) as [E2 E3].
  apply (climb_up _ k (given k x) s' c); try congruence; [apply given_some; by exists x | by apply IH].
Qed.

Lemma climbs_app (m : gmap Z node) a ps b ps' c : climbs m a ps b -> climbs m b ps' c -> climbs m a (ps ++ ps') c.
Proof. induction 1; [done|]. intros. eapply climb_up; eauto. Qed.

(** Nodes without a parent are on no way but at its end. *)
Lemma top_not_inside ns0 k ps r x nx : climbs ns0 k ps r -> ns0 !! x = Some nx -> nx.(parent) = None -> x ∉ ps.*1.
Proof.
  induction 1 as [k|k y s' c ps r Hy Hid Hs' Hc Hcl IH]; intros Hx Hpar; [apply not_elem_of_nil|].
  cbn. apply not_elem_of_cons. split; [intros ->; congruence | by apply IH].
Qed.

Lemma given_tops k x : ns !! k = Some x -> exists ps r, tops f'.(nodes) k ps r.
Proof.
  intros Hx. destruct (tr_up _ _ Htree k x Hx) as (ps & r & Hc & Hr & y & Hy & Hpar).
  destruct (tr_up _ _ Htree q d Hd) as (psq & rq & Hcq & Hrq & z & Hz & Hzp).
  assert (rq <> p) as Hrqp by (apply (Habove psq); split_and!; [done | done | by exists z]).
  assert (forall k' ps' r', climbs ns k' ps' r' -> p ∉ ps'.*1) as Hno by (intros; by apply (top_not_inside ns k' ps' r' p n)).
  assert (forall r' w, r' <> p -> ns !! r' = Some w -> w.(parent) = None ->
    exists w', f'.(nodes) !! r' = Some w' /\ w'.(parent) = None) as Hend.
  { intros r' w Hr' Hw Hwp. exists (given r' w). split; [apply given_some; by exists w|].
    destruct (given_same r' w) as (_ & _ & Hsame). by destruct (Hsame Hr') as [_ ->]. }
  destruct (decide (r = p)) as [->|Hrp].
  - exists (ps ++ (p, s) :: psq), rq. split_and!.
    + apply (climbs_app _ _ _ p); [apply given_climbs; [done | by eapply Hno]|].
      apply (climb_up _ p (given p n) s q).
      * apply given_some. by exists n.
      * by rewrite (proj1 (given_same p n)).
      * unfold given. by rewrite decide_True.
      * unfold given. by rewrite decide_True.
      * apply given_climbs; [done | by eapply Hno].
    + rewrite fmap_app, fmap_cons. apply not_elem_of_app. split; [by apply (top_not_inside ns k ps p rq z)|].
      by apply not_elem_of_cons.
    + by apply (Hend rq z).
  - exists ps, r. split_and!; [apply given_climbs; [done | by eapply Hno] | done | by apply (Hend r y)].
Qed.

Lemma given_tree : tree f'.
Proof.
  pose proof (tr_names _ _ Htree) as [Hnwf _].
  assert (in_table f'.(name_table) p) as Hinp
    by (apply (proj1 (named_iff f' d.(nodeid) s p)), Hnamed; by left).
  split; [done | done | ..].
  - intros k x (y & Hy & ->)%given_some. rewrite Hit. by apply (tr_numbered _ _ Htree k y).
  - intros k x (y & Hy & ->)%given_some Hpar. destruct (decide (k = p)) as [->|Hk]; [done|].
    destruct (given_same k y) as (_ & _ & Hsame). destruct (Hsame Hk) as [_ E]. rewrite E in Hpar.
    pose proof (tr_hashed _ _ Htree k y Hy Hpar) as Hin. destruct (table_has_link f k Hnwf Hin) as (dir & s' & Hl).
    apply (proj1 (named_iff f' dir s' k)), Hnamed. right. by apply named_iff.
  - intros k x (y & Hy & ->)%given_some. pose proof (tr_placed _ _ Htree k y Hy) as Hpl. unfold given.
    destruct (decide (k = p)) as [->|].
    + assert (y = n) as -> by (unfold ns in Hy; congruence). done.
    + by destruct (decide (k = q)).
  - intros k x (y & Hy & ->)%given_some. by apply given_refs.
  - intros k x (y & Hy & ->)%given_some. rewrite (proj1 (proj2 (given_same k y))). by apply (tr_count _ _ Htree k).
  - intros k x (y & Hy & ->)%given_some. by apply (given_tops k y).
  - destruct (tr_root _ _ Htree) as (r & y & Hy & Hi & Hl). exists r, (given r y).
    destruct (given_same r y) as (-> & -> & _). split_and!; [|done|done]. apply given_some. by exists y.
Qed.

End give.

(** ** Changes to one node *)

(** The node has the same place. *)
Definition same_place (n n' : node) : Prop :=
  n'.(nodeid) = n.(nodeid) /\ n'.(name) = n.(name) /\ n'.(parent) = n.(parent).

Section touch.
Context (f : fuse) (p : Z) (n n' : node).
Context (Hn : f.(nodes) !! p = Some n) (Hsame : same_place n n').
Let f' := set_nodes (<[p := n']> f.(nodes)) f.

Lemma touch_back k x : f'.(nodes) !! k = Some x ->
  exists y, f.(nodes) !! k = Some y /\ same_place y x /\ (k <> p -> x = y) /\ (k = p -> y = n /\ x = n').
Proof.
  cbn [nodes f' set_nodes]. destruct (decide (k = p)) as [->|Hk].
  - rewrite lookup_insert_eq. intros [= <-]. by exists n.
  - rewrite lookup_insert_ne by done. intros Hx. by exists x.
Qed.

Lemma touch_forth k y : f.(nodes) !! k = Some y -> exists x, f'.(nodes) !! k = Some x /\ same_place y x.
Proof.
  intros Hy. cbn [nodes f' set_nodes]. destruct (decide (k = p)) as [->|Hk].
  - rewrite lookup_insert_eq. exists n'. split; [done|]. by assert (y = n) as -> by congruence.
  - rewrite lookup_insert_ne by done. by exists y.
Qed.

Lemma touch_link k : link f'.(nodes) k = link f.(nodes) k.
Proof.
  destruct (link f.(nodes) k) as [[dir s]|] eqn:Hl.
  - apply link_Some in Hl as (m & q & d & Hm & Hs & Hq & Hd & Hi). apply link_Some.
    destruct (touch_forth k m Hm) as (x & Hx & _ & E2 & E3). destruct (touch_forth q d Hd) as (y & Hy & E1 & _).
    exists x, q, y. split_and!; congruence.
  - destruct (link f'.(nodes) k) as [[dir s]|] eqn:Hl'; [|done]. exfalso.
    apply link_Some in Hl' as (x & q & y & Hx & Hs & Hq & Hy & Hi).
    destruct (touch_back k x Hx) as (m & Hm & (_ & E2 & E3) & _). destruct (touch_back q y Hy) as (d & Hd & (E1 & _) & _).
    assert (link f.(nodes) k = Some (dir, s)) as Hl2; [|congruence]. apply link_Some. exists m, q, d. split_and!; congruence.
Qed.

Lemma touch_number k : number_of f'.(nodes) k = number_of f.(nodes) k.
Proof.
  unfold number_of. cbn [nodes f' set_nodes]. destruct (decide (k = p)) as [->|Hk].
  - rewrite lookup_insert_eq, Hn. cbn. by destruct Hsame as [-> _].
  - by rewrite lookup_insert_ne.
Qed.

Lemma touch_named dir s k : named f' dir s k <-> named f dir s k.
Proof. by rewrite !named_iff, touch_link. Qed.

Lemma touch_numbered i k : numbered f' i k <-> numbered f i k.
Proof. by rewrite !numbered_iff, touch_number. Qed.

Lemma touch_ids : ids_ok f -> ids_ok f'.
Proof. intros Hok. apply (ids_ok_change f); [done | apply Hok |]. intros k Hk. split; [done | apply touch_number]. Qed.

Lemma touch_names : names_ok f -> names_ok f'.
Proof. intros Hok. apply (names_ok_change f); [done | apply Hok |]. intros k Hk. split; [done | apply touch_link]. Qed.

Lemma touch_kids k : kids f'.(nodes) k = kids f.(nodes) k.
Proof.
  apply set_eq. intros j. rewrite !elem_of_kids. split.
  - intros (x & (y & Hy & (_ & _ & E) & _)%touch_back & Hp). exists y. by rewrite <- E.
  - intros (y & (x & Hx & (_ & _ & E))%touch_forth & Hp). exists x. by rewrite E.
Qed.

Lemma touch_climbs k ps r : climbs f.(nodes) k ps r -> climbs f'.(nodes) k ps r.
Proof.
  induction 1 as [k|k y s q ps r Hy Hid Hs Hq Hc IH]; [constructor|].
  destruct (touch_forth k y Hy) as (x & Hx & E1 & E2 & E3). apply (climb_up _ k x s q); congruence.
Qed.

Lemma touch_tree extra extra' : tree_with extra f ->
  0 < n'.(refctr) -> n'.(refctr) - looked n' - extra' p = n.(refctr) - looked n - extra p ->
  (forall k, k <> p -> extra' k = extra k) -> (n.(nodeid) = FUSE_ROOT_ID -> n'.(nlookup) <> 0) ->
  0 <= n'.(nlookup) < 2 ^ 64 -> tree_with extra' f'.
Proof.
  intros Htree Hpos Hcount Hother Hroot Hrange. split.
  - apply touch_ids, Htree.
  - apply touch_names, Htree.
  - intros k x (y & Hy & _)%touch_back. by apply (tr_numbered _ _ Htree k y).
  - intros k x (y & Hy & (_ & _ & E) & _)%touch_back Hp. rewrite E in Hp. by apply (tr_hashed _ _ Htree k y).
  - intros k x (y & Hy & (E1 & E2 & E3) & _)%touch_back. pose proof (tr_placed _ _ Htree k y Hy) as Hp.
    unfold placed in *. by rewrite E1, E2, E3.
  - intros k x (y & Hy & _ & Hne & He)%touch_back. rewrite touch_kids. destruct (tr_refs _ _ Htree k y Hy) as [Hposk Hk].
    destruct (decide (k = p)) as [->|Hkp].
    + destruct (He eq_refl) as [-> ->]. split; [done | lia].
    + rewrite (Hne Hkp), Hother by done. done.
  - intros k x (y & Hy & _ & Hne & He)%touch_back. destruct (decide (k = p)) as [->|Hkp].
    + by destruct (He eq_refl) as [_ ->].
    + rewrite (Hne Hkp). by apply (tr_count _ _ Htree k).
  - intros k x (y & Hy & _)%touch_back. destruct (tr_up _ _ Htree k y Hy) as (ps & r & Hc & Hr & z & Hz & Hzp).
    exists ps, r. split_and!; [by apply touch_climbs | done |]. destruct (touch_forth r z Hz) as (w & Hw & _ & _ & E).
    exists w. by rewrite E.
  - destruct (tr_root _ _ Htree) as (r & z & Hz & Hi & Hl). destruct (touch_forth r z Hz) as (w & Hw & E & _).
    exists r, w. rewrite E. split_and!; [done | done |]. destruct (touch_back r w Hw) as (y & Hy & _ & Hne & He).
    assert (y = z) as -> by congruence. destruct (decide (r = p)) as [->|Hrp]; [|by rewrite (Hne Hrp)].
    destruct (He eq_refl) as [-> ->]. by apply Hroot.
Qed.

End touch.

(** ** The operations *)

(** A lookup of the kernel is counted. *)
Definition looked_up (n : node) : node :=
  with_nlookup (if n.(nlookup) =? 0 then with_refctr n (n.(refctr) + 1) else n) (n.(nlookup) + 1).

Lemma inc_nlookup_run f p n : f.(nodes) !! p = Some n -> 0 <= n.(nlookup) < 2 ^ 64 - 1 ->
  inc_nlookup p f = Ok (tt, set_nodes (<[p := looked_up n]> f.(nodes)) f).
Proof.
  intros Hn Hl. unfold inc_nlookup. prun (load_node_run f p n Hn). rewrite (store_node_run f p n _ Hn).
  unfold looked_up. destruct (n.(nlookup) =? 0); cbn [nlookup with_refctr]; by rewrite uwrap_small by lia.
Qed.

Lemma looked_up_place n : same_place n (looked_up n).
Proof. unfold looked_up. by destruct (n.(nlookup) =? 0). Qed.

Lemma looked_up_tree f p n : tree f -> f.(nodes) !! p = Some n -> n.(nlookup) < 2 ^ 64 - 1 ->
  tree (set_nodes (<[p := looked_up n]> f.(nodes)) f).
Proof.
  intros Htree Hn Hl. destruct (tr_refs _ _ Htree p n Hn) as [Hpos _]. pose proof (tr_count _ _ Htree p n Hn) as Hc.
  apply (touch_tree f p n _ Hn (looked_up_place n) nothing); try done.
  all: unfold looked_up, looked; destruct (Z.eqb_spec n.(nlookup) 0); cbn [refctr nlookup with_nlookup with_refctr].
  all: rewrite ?(proj2 (Z.eqb_neq (nlookup n + 1) 0)) by lia; try lia.
Qed.

(** What naming and unnaming leave alone. *)
Definition quiet (f f' : fuse) : Prop :=
  (f.(memory) = [] -> f'.(memory) = []) /\ f'.(ctr) = f.(ctr) /\ f'.(remember) = f.(remember).

Lemma quiet_trans f1 f2 f3 : quiet f1 f2 -> quiet f2 f3 -> quiet f1 f3.
Proof. intros (H1 & H2 & H3) (H4 & H5 & H6). split_and!; [by intros; apply H4, H1 | congruence..]. Qed.

(** The kernel holds the directory of this number. *)
Definition held (f : fuse) (dir : Z) : Prop :=
  exists q d, numbered f dir q /\ f.(nodes) !! q = Some d /\ d.(nlookup) <> 0.

(** [p] has lost its name, and nothing else has changed but counters. *)
Record unlinked (p : Z) (f f' : fuse) : Prop := mk_unlinked {
  ul_tree : tree f';
  ul_node : forall n, f.(nodes) !! p = Some n -> exists n', f'.(nodes) !! p = Some n' /\
    n'.(name) = None /\ n'.(parent) = None /\ n'.(nodeid) = n.(nodeid);
  ul_named : forall dir s k, named f' dir s k <-> named f dir s k /\ k <> p;
  ul_numbered : forall i k, numbered f' i k <-> numbered f i k;
  ul_held : forall dir, held f dir -> held f' dir;
  ul_climbs : forall k ps r, climbs f.(nodes) k ps r -> p ∉ ps.*1 -> climbs f'.(nodes) k ps r;
  ul_ends : forall k m, f.(nodes) !! k = Some m -> m.(parent) = None ->
    exists m', f'.(nodes) !! k = Some m' /\ m'.(parent) = None;
  ul_quiet : quiet f f'
}.

Lemma named_facts f dir s p : tree f -> named f dir s p -> held f dir ->
  exists n q d, f.(nodes) !! p = Some n /\ n.(name) = Some s /\ n.(parent) = Some q /\ f.(nodes) !! q = Some d /\
    d.(nodeid) = dir /\ d.(nlookup) <> 0 /\ n.(nodeid) <> FUSE_ROOT_ID /\ numbered f dir q.
Proof.
  intros Htree (_ & n & q & d & Hn & Hs & Hq & Hd & Hi) (q' & d' & Hnum & Hd' & Hl).
  assert (numbered f dir q) as Hnq by (split; [by apply (tr_numbered _ _ Htree q d) | by exists d]).
  assert (q' = q) as -> by (by apply (proj2 (tr_ids _ _ Htree) dir)). exists n, q, d.
  assert (d' = d) as -> by congruence. split_and!; try done.
  pose proof (tr_placed _ _ Htree p n Hn) as Hpl. unfold placed in Hpl. rewrite Hq in Hpl. apply Hpl.
Qed.

(** A node without a name is left alone. *)
Lemma unname_nothing f p n : tree f -> f.(nodes) !! p = Some n -> n.(name) = None -> n.(nodeid) <> FUSE_ROOT_ID ->
  unhash_name p f = Ok (tt, f) /\ unlinked p f f.
Proof.
  intros Htree Hn Hs Hid. split; [by apply (unhash_nothing unref_node f p n)|]. split; try done.
  - intros n0 Hn0. assert (n0 = n) as -> by congruence. exists n. split_and!; try done.
    pose proof (tr_placed _ _ Htree p n Hn) as Hpl. unfold placed in Hpl. destruct n.(parent); [|done].
    rewrite Hs in Hpl. by destruct Hpl as [[? ?] _].
  - intros dir s k. split; [|by intros [? _]]. intros Hk. split; [done|]. intros ->.
    destruct Hk as (_ & n' & _ & _ & Hn' & Hs' & _). congruence.
  - intros k m Hm Hp. by exists m.
Qed.

Lemma unname_run f p dir s : tree f -> named f dir s p -> held f dir ->
  exists f', unhash_name p f = Ok (tt, f') /\ unlinked p f f'.
Proof.
  intros Htree Hnamed Hheld.
  destruct (named_facts f dir s p Htree Hnamed Hheld) as (n & q & d & Hn & Hs & Hq & Hd & Hi & Hl & Hid & Hnq).
  destruct (unhash_name_run f p q n d s Htree Hn Hs Hq Hd Hl) as (t & m & Hrun & Hwt & Hint & Hm).
  eexists. split; [exact Hrun|].
  pose proof (unnamed_some f p q n d Htree Hn Hq Hd) as Hsome.
  split.
  - by apply (unnamed_tree f p q n d).
  - intros n0 Hn0. exists (unnamed p q p n0). split; [apply Hsome; by exists n0|]. unfold unnamed. by rewrite decide_True.
  - intros. by apply (unnamed_named f p q n d).
  - intros. by apply (unnamed_numbered f p q n d).
  - intros dir' (q' & d' & Hnum & Hd' & Hl'). exists q', (unnamed p q q' d').
    split; [by apply (unnamed_numbered f p q n d)|]. split; [apply Hsome; by exists d'|].
    by rewrite (proj1 (proj2 (unnamed_same p q q' d'))).
  - intros k ps r Hc Hp. destruct (unnamed_climbs f p q n d Htree Hn Hq Hd k ps r Hc) as [[_ ?]|(ps1 & _ & _ & ?)]; done.
  - intros k y Hy Hpar. exists (unnamed p q k y). split; [apply Hsome; by exists y|]. unfold unnamed.
    destruct (decide (k = p)); [done|]. by destruct (decide (k = q)).
  - by split_and!.
Qed.

(** Counting a lookup less, while the kernel keeps the node. *)
Lemma unlink_count f p n : tree f -> f.(nodes) !! p = Some n -> 1 < n.(nlookup) ->
  let f' := set_nodes (<[p := with_nlookup n (n.(nlookup) - 1)]> f.(nodes)) f in
  tree f' /\ (forall dir, held f dir -> held f' dir).
Proof.
  intros Htree Hn Hl f'. assert (same_place n (with_nlookup n (n.(nlookup) - 1))) as Hsame by done.
  destruct (tr_refs _ _ Htree p n Hn) as [Hpos _]. pose proof (tr_count _ _ Htree p n Hn) as Hc. split.
  - apply (touch_tree f p n _ Hn Hsame nothing); try done; cbn [refctr nlookup with_nlookup]; [|lia..].
    unfold looked. cbn [nlookup with_nlookup]. rewrite !(proj2 (Z.eqb_neq _ _)) by lia. done.
  - intros dir (q & d & Hnum & Hd & Hld). exists q.
    destruct (decide (q = p)) as [->|Hq].
    + exists (with_nlookup n (n.(nlookup) - 1)). split_and!; [by apply (touch_numbered f p n) | apply lookup_insert_eq |]. cbn. lia.
    + exists d. split_and!; [by apply (touch_numbered f p n) | | done]. cbn [nodes f' set_nodes]. by rewrite lookup_insert_ne.
Qed.

Lemma unlink_run f p dir s : tree f -> named f dir s p -> held f dir ->
  (f.(remember) <> 0 -> forall n, f.(nodes) !! p = Some n -> 1 < n.(nlookup)) ->
  exists f', unlink_node p f = Ok (tt, f') /\ unlinked p f f'.
Proof.
  intros Htree Hnamed Hheld Hrem. unfold unlink_node. prun_get. destruct (Z.eqb_spec f.(remember) 0) as [Hr|Hr]; cbn [negb].
  { by apply (unname_run f p dir s). }
  destruct (named_facts f dir s p Htree Hnamed Hheld) as (n & q & d & Hn & _). specialize (Hrem Hr n Hn).
  destruct (unlink_count f p n Htree Hn Hrem) as [Htree1 Hheld1]. set (f1 := set_nodes _ f) in *.
  assert (same_place n (with_nlookup n (n.(nlookup) - 1))) as Hsame by done.
  assert (forall dir' s' k, named f1 dir' s' k <-> named f dir' s' k) as Hnm by (intros; by apply (touch_named f p n)).
  assert (forall i k, numbered f1 i k <-> numbered f i k) as Hnb by (intros; by apply (touch_numbered f p n)).
  destruct (unname_run f1 p dir s Htree1) as (f' & Hrun & Hul); [by apply Hnm | by apply Hheld1|].
  exists f'. split.
  { rewrite pbind_assoc. prun (load_node_run f p n Hn). rewrite pbind_assoc, Z.gtb_ltb, (proj2 (Z.ltb_lt _ _)) by done.
    prun_lift (eq_refl : guard_c true AssertFailed = Ok tt).
    prun (store_node_run f p n (with_nlookup n (n.(nlookup) - 1)) Hn). exact Hrun. }
  destruct Hul as [Ht Hno Hna Hnu Hhe Hcl Hen Hqu]. split; try done.
  - intros n0 Hn0. assert (n0 = n) as -> by congruence. apply (Hno (with_nlookup n (n.(nlookup) - 1))). apply lookup_insert_eq.
  - intros. by rewrite Hna, Hnm.
  - intros. by rewrite Hnu, Hnb.
  - intros dir' Hd'. by apply Hhe, Hheld1.
  - intros k ps r Hc Hp. apply Hcl; [|done]. by apply (touch_climbs f p n).
  - intros k m Hm Hp. destruct (touch_forth f p n _ Hn Hsame k m Hm) as (x & Hx & _ & _ & E). apply (Hen k x Hx). by rewrite E.
Qed.

(** A name of this length has the memory it needs. *)
Definition memory_for (f : fuse) (s : list byte) : Prop := zlen s < INLINE_NAME_SIZE \/ f.(memory) = [].

(** A node without a name gets one. *)
Lemma insert_memory hash_of n h t t' m' : NodeTable.insert_node hash_of n h t [] = Ok (t', m') -> m' = [].
Proof.
  unfold NodeTable.insert_node, rehash, node_table_resize, reallocates. destruct (chain_at _ _); [|done]. cbn [obind].
  destruct (set_chain _ _ _) as [t1|]; [|done]. cbn [obind]. destruct (_ >=? _); [|by intros [= _ <-]].
  destruct (_ =? _); [by intros [= _ <-]|]. destruct (chain_at _ _); [|done]. cbn [obind].
  destruct (rehash_loop _ _ _ _) as [[kept t2]|]; [|done]. cbn [obind]. destruct (set_chain _ _ _); [|done]. cbn [obind].
  destruct (_ =? _); [|by intros [= _ <-]]. destruct (negb _); by intros [= _ <-].
Qed.

Lemma hash_name_memory f f' p dir s q d n : ids_ok f -> numbered f dir q -> f.(nodes) !! q = Some d ->
  f.(nodes) !! p = Some n -> p <> q -> memory_for f s -> hash_name p dir s f = Ok (0, f') -> quiet f f'.
Proof.
  intros Hids Hnum Hd Hn Hpq Hmem. unfold hash_name. prun_get. prun (get_node_run f dir q Hids Hnum).
  assert ((if zlen s <? INLINE_NAME_SIZE then pret true else allocates) f = Ok (true, f)) as Hcopy
    by (destruct (Z.ltb_spec (zlen s) INLINE_NAME_SIZE); [done|]; destruct Hmem; [lia | by apply allocates_run]).
  prun Hcopy. cbn [negb]. prun (load_node_run f q d Hd). prun (store_node_run f q d (with_refctr d (refctr d + 1)) Hd).
  set (f1 := set_nodes _ f). assert (f1.(nodes) !! p = Some n) as Hp1 by (cbn [nodes f1 set_nodes]; by rewrite lookup_insert_ne).
  prun (load_node_run f1 p n Hp1). prun (store_node_run f1 p n (with_name n (Some q) (Some s)) Hp1). prun_get.
  unfold pbind, plift. cbn [memory f1 set_nodes name_table].
  destruct (NodeTable.insert_node _ _ _ _ _) as [[t m]|] eqn:Hins; [|done]. cbn. intros [= <-].
  split_and!; try done. cbn. intros Hm. rewrite Hm in Hins. by apply insert_memory in Hins.
Qed.

Lemma tops_det ns k ps r ps' r' : tops ns k ps r -> tops ns k ps' r' -> r = r'.
Proof.
  intros (Hc & _ & n & Hn & Hp) (Hc' & _ & n' & Hn' & Hp'). revert ps' Hc'.
  induction Hc as [k|k x s q ps r Hx Hid Hs Hq Hcl IH]; intros ps' Hc'.
  - inversion Hc'; subst; [done|]. congruence.
  - inversion Hc' as [|? y ? q' ? ? Hy ? ? Hq' Hc2]; subst; [congruence|].
    assert (y = x) as -> by congruence. assert (q' = q) as -> by congruence. by apply (IH Hn ps0).
Qed.

(** [p] is not on the way from the directory. *)
Definition apart (f : fuse) (p dir : Z) : Prop :=
  forall q ps r, numbered f dir q -> tops f.(nodes) q ps r -> (p ∉ ps.*1) /\ r <> p.

Lemma name_run f p n dir s : tree f -> f.(nodes) !! p = Some n -> n.(name) = None -> n.(parent) = None ->
  n.(nodeid) <> FUSE_ROOT_ID -> held f dir -> apart f p dir -> (forall k, ~ named f dir s k) -> memory_for f s ->
  exists f', hash_name p dir s f = Ok (0, f') /\ tree f' /\
    (forall dir' s' k, named f' dir' s' k <-> (dir' = dir /\ s' = s /\ k = p) \/ named f dir' s' k) /\
    (forall i k, numbered f' i k <-> numbered f i k) /\ (forall dir', held f dir' -> held f' dir') /\ quiet f f'.
Proof.
  intros Htree Hn Hs Hpar Hid (q & d & Hnum & Hd & Hl) Hapart Hnone Hmem.
  assert (d.(nodeid) = dir) as Hdir by (destruct Hnum as [_ (d' & Hd' & <-)]; congruence).
  assert (forall ps r, tops f.(nodes) q ps r -> r <> p) as Habove by (intros ps r Ht; by apply (Hapart q ps r Hnum)).
  assert (p <> q) as Hpq by (intros <-; apply (Habove [] p);
    [split_and!; [constructor | apply not_elem_of_nil | by exists n] | done]).
  assert (~ in_table f.(name_table) p) as Hout.
  { intros Hin. destruct (table_has_link f p) as (dir' & s' & Hlk); [apply Htree | done|].
    apply link_Some in Hlk as (n' & ? & ? & ? & ? & _). congruence. }
  destruct (hash_name_run f p q dir n d s (tr_ids _ _ Htree) (tr_names _ _ Htree) Hn Hd Hdir Hpq Hout Hnum Hnone Hmem)
    as (f' & Hrun & Hns' & Hit & Hids' & Hnames' & Hnamed).
  exists f'. rewrite <- Hdir in Hnamed. pose proof (given_some f f' p q n d s Hn Hpar Hd Habove Hns' Hnamed) as Hsome.
  split_and!; [done | | by rewrite <- Hdir | | |].
  - by apply (given_tree f f' p q n d s).
  - intros i k. unfold numbered. rewrite Hit. apply and_iff_compat_l. split.
    + intros (x & (y & Hy & ->)%Hsome & Hi). exists y. split; [done|]. by rewrite <- (proj1 (given_same p q s k y)).
    + intros (y & Hy & Hi). exists (given p q s k y). split; [apply Hsome; by exists y|]. by rewrite (proj1 (given_same p q s k y)).
  - intros dir' (a & da & Hna & Hda & Hla). exists a, (given p q s a da). split_and!.
    + destruct Hna as [Hin (x & Hx & Hi)]. split; [by rewrite Hit|]. exists (given p q s a x).
      split; [apply Hsome; by exists x|]. by rewrite (proj1 (given_same p q s a x)).
    + apply Hsome. by exists da.
    + by rewrite (proj1 (proj2 (given_same p q s a da))).
  - by apply (hash_name_memory f f' p dir s q d n (tr_ids _ _ Htree)).
Qed.

(** A child is not on the way from its directory. *)
Lemma child_apart f dir s p : tree f -> named f dir s p -> apart f p dir.
Proof.
  intros Htree (_ & n & q & d & Hn & Hs & Hq & Hd & Hi) q' ps r [Hin (d' & Hd' & Hi')] Ht.
  assert (numbered f dir q) as Hnq by (split; [by apply (tr_numbered _ _ Htree q d) | by exists d]).
  assert (q' = q) as -> by (apply (proj2 (tr_ids _ _ Htree) dir); [by split; [|exists d'] | done]).
  destruct (tr_up _ _ Htree p n Hn) as (ps2 & r2 & Hc2 & Hr2 & m & Hm & Hmp).
  inversion Hc2 as [|? n' s' q' ps' ? Hn' Hid' Hs' Hq' Hc']; subst; [congruence|].
  assert (n' = n) as -> by congruence. assert (q' = q) as -> by congruence.
  cbn in Hr2. apply not_elem_of_cons in Hr2 as [Hne Hr2].
  assert (tops f.(nodes) q ps' r2) as Ht' by (split_and!; [done | done | by exists m]).
  pose proof (tops_det _ _ _ _ _ _ Ht Ht') as ->. destruct Ht as (Hc & Hr & _).
  assert (ps = ps') as -> by (by apply (climbs_det _ _ _ _ _ Hc Hc')).
  pose proof (climbs_NoDup _ _ _ _ Hc2 ltac:(cbn; by apply not_elem_of_cons)) as Hnd. cbn in Hnd.
  apply NoDup_cons in Hnd as [Hno _]. done.
Qed.

Lemma apart_unlinked f f' x p dir : tree f -> unlinked x f f' -> held f dir -> apart f x dir -> apart f p dir ->
  apart f' p dir.
Proof.
  intros Htree Hul (q0 & d & Hnum0 & Hd & _) Hx Hp q ps' r' Hnum Ht'. apply (ul_numbered _ _ _ Hul) in Hnum.
  assert (q0 = q) as -> by (by apply (proj2 (tr_ids _ _ Htree) dir)).
  destruct (tr_up _ _ Htree q d Hd) as (ps & r & Ht). destruct (Hx q ps r Hnum Ht) as [Hxps _].
  destruct (Hp q ps r Hnum Ht) as [Hpps Hrp]. destruct Ht as (Hc & Hr & m & Hm & Hpar).
  pose proof (ul_climbs _ _ _ Hul q ps r Hc Hxps) as Hc'.
  assert (tops f'.(nodes) q ps r) as Ht2 by (split_and!; [done | done | by apply (ul_ends _ _ _ Hul r m)]).
  pose proof (tops_det _ _ _ _ _ _ Ht' Ht2) as ->. destruct Ht' as (Hc2 & Hr2 & _).
  by rewrite (climbs_det _ _ _ _ _ Hc2 Hc' Hr2 Hr).
Qed.

(** A node has one name. *)
Lemma named_once f dir s dir' s' k : named f dir s k -> named f dir' s' k -> (dir, s) = (dir', s').
Proof. rewrite !named_iff. intros [_ H1] [_ H2]. congruence. Qed.

(** What a node must allow for its name to be given to another one. *)
Definition may_unlink (f : fuse) (k : Z) : Prop :=
  f.(remember) <> 0 -> forall n, f.(nodes) !! k = Some n -> 1 < n.(nlookup).

Lemma remove_node_run f dir s : tree f -> held f dir -> (forall p, named f dir s p -> may_unlink f p) ->
  exists f', remove_node dir s f = Ok (tt, f') /\ tree f' /\
    (forall dir' s' k, named f' dir' s' k <-> named f dir' s' k /\ (dir', s') <> (dir, s)) /\
    (forall i k, numbered f' i k <-> numbered f i k) /\ (forall dir', held f dir' -> held f' dir') /\ quiet f f'.
Proof.
  intros Htree Hheld Hmay. unfold remove_node.
  destruct (lookup_node_run f dir s (tr_names _ _ Htree)) as (r & Hrun & Hspec). prun Hrun. destruct r as [p|].
  - assert (named f dir s p) as Hp by (by apply Hspec).
    destruct (unlink_run f p dir s Htree Hp Hheld (Hmay p Hp)) as (f' & Hun & Hul). exists f'. split; [done|].
    split_and!; try apply Hul. intros dir' s' k. rewrite (ul_named _ _ _ Hul). split.
    + intros [Hk Hkp]. split; [done|]. intros [= -> ->]. apply Hkp. by apply (proj2 (tr_names _ _ Htree) dir s).
    + intros [Hk Hne]. split; [done|]. intros ->. apply Hne. by rewrite (named_once f dir' s' dir s p).
  - exists f. split_and!; try done. intros dir' s' k. split; [|by intros [? _]]. intros Hk. split; [done|].
    intros [= -> ->]. by apply Hspec in Hk.
Qed.

(** A node that gives up its name, if it has one, and gets another. *)
Lemma move_run f p n newdir newname : tree f -> f.(nodes) !! p = Some n -> n.(nodeid) <> FUSE_ROOT_ID ->
  (n.(name) = None \/ exists olddir oldname, named f olddir oldname p /\ held f olddir) ->
  held f newdir -> apart f p newdir -> (forall k, named f newdir newname k -> k = p) -> memory_for f newname ->
  exists f1 f', unhash_name p f = Ok (tt, f1) /\ hash_name p newdir newname f1 = Ok (0, f') /\ tree f' /\
    (forall dir s k, named f' dir s k <->
      (dir = newdir /\ s = newname /\ k = p) \/ (named f dir s k /\ k <> p)) /\
    (forall i k, numbered f' i k <-> numbered f i k) /\ (forall dir, held f dir -> held f' dir) /\
    quiet f f' /\ exists n', f'.(nodes) !! p = Some n' /\ n'.(nodeid) <> FUSE_ROOT_ID.
Proof.
  intros Htree Hn Hid Hname Hheld Hapart Hfree Hmem.
  assert (exists f1, unhash_name p f = Ok (tt, f1) /\ unlinked p f f1) as (f1 & Hrun & Hul).
  { destruct Hname as [Hs|(olddir & oldname & Hp & Hold)]; [exists f; by apply (unname_nothing f p n) | by apply (unname_run f p olddir oldname)]. }
  destruct (ul_node _ _ _ Hul n Hn) as (n1 & Hn1 & Hs1 & Hp1 & Hi1).
  assert (apart f p newdir -> apart f1 p newdir) as Hap by (intros; by apply (apart_unlinked f f1 p p)).
  destruct (name_run f1 p n1 newdir newname) as (f' & Hrun' & Htree' & Hnamed & Hnum & Hh & Hm); try done.
  - apply Hul.
  - congruence.
  - by apply (ul_held _ _ _ Hul).
  - by apply Hap.
  - intros k [Hk Hkp]%(ul_named _ _ _ Hul). by apply Hkp, Hfree.
  - destruct Hmem as [?|?]; [by left | right; by apply (proj1 (ul_quiet _ _ _ Hul))].
  - exists f1, f'. split_and!; try done.
    + intros. by rewrite Hnamed, (ul_named _ _ _ Hul).
    + intros. by rewrite Hnum, (ul_numbered _ _ _ Hul).
    + intros. by apply Hh, (ul_held _ _ _ Hul).
    + by apply (quiet_trans _ f1); [apply (ul_quiet _ _ _ Hul)|].
    + assert (numbered f' n.(nodeid) p) as [_ (x & Hx & Hxi)].
      { apply Hnum, (ul_numbered _ _ _ Hul). split; [by apply (tr_numbered _ _ Htree p n) | by exists n]. }
      exists x. split; [done | congruence].
Qed.

(** The node under the new name goes first, if there is one; it may be the node
    itself. *)
Lemma clear_target f p n olddir oldname newdir newname r : tree f -> f.(nodes) !! p = Some n ->
  n.(nodeid) <> FUSE_ROOT_ID -> named f olddir oldname p -> held f olddir -> held f newdir -> apart f p newdir ->
  (forall k, r = Some k <-> named f newdir newname k) -> (forall k, r = Some k -> may_unlink f k) ->
  exists f1 n1, match r with Some q => unlink_node q | None => pret tt end f = Ok (tt, f1) /\ tree f1 /\
    f1.(nodes) !! p = Some n1 /\ n1.(nodeid) <> FUSE_ROOT_ID /\
    (n1.(name) = None \/ exists olddir oldname, named f1 olddir oldname p /\ held f1 olddir) /\
    apart f1 p newdir /\ (forall dir, held f dir -> held f1 dir) /\
    (forall dir s k, named f1 dir s k <-> named f dir s k /\ (dir, s) <> (newdir, newname)) /\
    (forall i k, numbered f1 i k <-> numbered f i k) /\ quiet f f1.
Proof.
  intros Htree Hn Hid Hp Hold Hnew Hapart Hspec Hmay. destruct r as [x|].
  - assert (named f newdir newname x) as Hx by (by apply Hspec).
    destruct (unlink_run f x newdir newname Htree Hx Hnew (Hmay x eq_refl)) as (f1 & Hun & Hul).
    pose proof (child_apart f newdir newname x Htree Hx) as Hxap.
    assert (forall dir s k, named f1 dir s k <-> named f dir s k /\ (dir, s) <> (newdir, newname)) as Hnm1.
    { intros dir s' k. rewrite (ul_named _ _ _ Hul). split; (intros [Hk Hne]; split; [done|]).
      - intros [= -> ->]. apply Hne. by apply (proj2 (tr_names _ _ Htree) newdir newname).
      - intros ->. apply Hne. by apply (named_once f dir s' newdir newname x). }
    assert (numbered f1 n.(nodeid) p) as [_ (n1 & Hn1 & Hi1)].
    { apply (ul_numbered _ _ _ Hul). split; [by apply (tr_numbered _ _ Htree p n) | by exists n]. }
    exists f1, n1. split; [done|]. split; [apply Hul|]. split; [done|]. split; [congruence|]. split_and!; try apply Hul.
    + destruct (decide (x = p)) as [->|Hne].
      * left. destruct (ul_node _ _ _ Hul n Hn) as (n2 & Hn2 & Hs2 & _). congruence.
      * right. exists olddir, oldname. split; [apply (ul_named _ _ _ Hul); done | by apply (ul_held _ _ _ Hul)].
    + by apply (apart_unlinked f f1 x p newdir).
    + done.
  - exists f, n. split_and!; try done; [right; by exists olddir, oldname|].
    intros dir s' k. split; [|by intros [? _]]. intros Hk. split; [done|]. intros [= -> ->]. by apply Hspec in Hk.
Qed.

(** The mark of a hidden file changes nothing else. *)
Lemma hide_run f p n (hide : bool) : tree f -> f.(nodes) !! p = Some n ->
  exists f', (if hide then n <-- load_node p ;; store_node p (with_hidden n 1) else pret tt) f = Ok (tt, f') /\
    tree f' /\ (forall dir s k, named f' dir s k <-> named f dir s k) /\
    (forall i k, numbered f' i k <-> numbered f i k) /\ (forall dir, held f dir -> held f' dir) /\ quiet f f'.
Proof.
  intros Htree Hn. destruct hide; [|by exists f]. prun (load_node_run f p n Hn).
  assert (same_place n (with_hidden n 1)) as Hsame by done.
  eexists. split; [exact (store_node_run f p n (with_hidden n 1) Hn)|]. destruct (tr_refs _ _ Htree p n Hn) as [Hpos _]. split_and!; try done.
  - apply (touch_tree f p n _ Hn Hsame nothing); try done; [|by apply (tr_count _ _ Htree p n)].
    intros Hid Hl. destruct (tr_root _ _ Htree) as (q & m & Hm & Hmi & Hml). apply Hml.
    assert (q = p) as ->; [|by assert (m = n) as -> by congruence].
    apply (proj2 (tr_ids _ _ Htree) FUSE_ROOT_ID); (split; [by eapply (tr_numbered _ _ Htree)|]); eauto.
  - intros. by rewrite (touch_named f p n _ Hn Hsame).
  - intros. by rewrite (touch_numbered f p n _ Hn Hsame).
  - intros dir (a & da & Hna & Hda & Hla). destruct (touch_forth f p n _ Hn Hsame a da Hda) as (x & Hx & _).
    exists a, x. split_and!; [by apply (touch_numbered f p n _ Hn Hsame) | done |].
    destruct (touch_back f p n _ Hn Hsame a x Hx) as (y & Hy & _ & Hne & He). assert (y = da) as -> by congruence.
    destruct (decide (a = p)) as [->|Hap]; [by destruct (He eq_refl) as [-> ->] | by rewrite (Hne Hap)].
Qed.

Lemma rename_node_run f olddir oldname newdir newname hide p : tree f -> memory_for f newname ->
  named f olddir oldname p -> held f olddir -> held f newdir -> apart f p newdir ->
  (forall k, named f newdir newname k -> hide = false /\ may_unlink f k) ->
  exists f', rename_node olddir oldname newdir newname hide f = Ok (0, f') /\ tree f' /\
    (forall dir s k, named f' dir s k <-> (dir = newdir /\ s = newname /\ k = p) \/
      (named f dir s k /\ (dir, s) <> (olddir, oldname) /\ (dir, s) <> (newdir, newname))) /\
    (forall i k, numbered f' i k <-> numbered f i k) /\ (forall dir, held f dir -> held f' dir) /\ quiet f f'.
Proof.
  intros Htree Hmem Hp Hold Hnew Hapart Hover. unfold rename_node.
  destruct (named_facts f olddir oldname p Htree Hp Hold) as (n & q & d & Hn & Hs & Hq & Hd & Hi & Hl & Hid & Hnq).
  destruct (lookup_node_run f olddir oldname (tr_names _ _ Htree)) as (r & Hlook & Hspec). prun Hlook.
  rewrite (proj2 (Hspec p) Hp). clear r Hlook Hspec.
  destruct (lookup_node_run f newdir newname (tr_names _ _ Htree)) as (r & Hlook & Hspec). prun Hlook.
  destruct (clear_target f p n olddir oldname newdir newname r Htree Hn Hid Hp Hold Hnew Hapart Hspec) as
    (f1 & n1 & Hrun1 & Htree1 & Hn1 & Hid1 & Hname1 & Hap1 & Hheld1 & Hnamed1 & Hnum1 & Hq1).
  { intros k Hk. by apply Hover, Hspec. }
  destruct (move_run f1 p n1 newdir newname Htree1 Hn1 Hid1 Hname1) as
    (f2 & f3 & Hun & Hha & Htree3 & Hnamed3 & Hnum3 & Hheld3 & Hq3 & n3 & Hn3 & Hid3); [by apply Hheld1 | done | | |].
  { intros k [_ Hk]%Hnamed1. done. }
  { destruct Hmem; [by left | right; by apply Hq1]. }
  assert (bool_decide (is_Some r) && hide = false) as ->.
  { destruct r as [x|]; [|done]. destruct (Hover x) as [-> _]; [by apply Hspec | apply andb_false_r]. }
  prun Hrun1. prun Hun. prun Hha. change (0 =? -1) with false. cbv iota.
  destruct (hide_run f3 p n3 hide Htree3 Hn3) as (f4 & Hrun4 & Htree4 & Hnamed4 & Hnum4 & Hheld4 & Hq4). prun Hrun4.
  exists f4. split; [done|]. split; [done|]. split_and!.
  - intros dir s' k. rewrite Hnamed4, Hnamed3, Hnamed1. apply or_iff_compat_l. split.
    + intros [[Hk Hne] Hkp]. split_and!; try done. intros [= -> ->]. apply Hkp.
      by apply (proj2 (tr_names _ _ Htree) olddir oldname).
    + intros (Hk & Ho & Hne). split_and!; try done. intros ->. apply Ho. by apply (named_once f dir s' olddir oldname p).
  - intros. by rewrite Hnum4, Hnum3, Hnum1.
  - intros. by apply Hheld4, Hheld3, Hheld1.
  - by apply (quiet_trans _ f3); [apply (quiet_trans _ f1)|].
Qed.

(** ** A new node *)

Section add.
Context (f f' : fuse) (p : Z) (n : node).
Context (Htree : tree f) (Hfresh : f.(nodes) !! p = None) (Hs : n.(name) = None) (Hp : n.(parent) = None)
  (Hr : n.(refctr) = 1) (Hl : looked n = 1) (Hrange : 0 <= n.(nlookup) < 2 ^ 64).
Context (Hns : f'.(nodes) = <[p := n]> f.(nodes)) (Hnt : f'.(name_table) = f.(name_table)) (Hids : ids_ok f')
  (Hin : forall k, in_table f'.(id_table) k <-> k = p \/ in_table f.(id_table) k).

Lemma add_other k : k <> p -> f'.(nodes) !! k = f.(nodes) !! k.
Proof. intros. by rewrite Hns, lookup_insert_ne. Qed.

Lemma add_known k x : f.(nodes) !! k = Some x -> f'.(nodes) !! k = Some x.
Proof. intros Hx. rewrite add_other; [done|]. intros ->. congruence. Qed.

Lemma add_parent k x q : f.(nodes) !! k = Some x -> x.(parent) = Some q -> exists y, f.(nodes) !! q = Some y.
Proof.
  intros Hx Hq. destruct (table_has_link f k) as (dir & s & Hlk); [apply Htree | apply (tr_hashed _ _ Htree k x); [done | by rewrite Hq]|].
  apply link_Some in Hlk as (x' & q' & d & Hx' & _ & Hq' & Hd & _). exists d. congruence.
Qed.

Lemma add_link k : in_table f.(name_table) k -> link f'.(nodes) k = link f.(nodes) k.
Proof.
  intros Hk. destruct (table_has_link f k (proj1 (tr_names _ _ Htree)) Hk) as (dir & s & Hlk). rewrite Hlk.
  apply link_Some in Hlk as (x & q & d & Hx & Hsx & Hq & Hd & Hi). apply link_Some. exists x, q, d.
  split_and!; try done; by apply add_known.
Qed.

Lemma add_named dir s k : named f' dir s k <-> named f dir s k.
Proof. rewrite !named_iff, Hnt. split; (intros [Hk Hlk]; split; [done|]); by rewrite add_link in *. Qed.

Lemma add_kids k : kids f'.(nodes) k = kids f.(nodes) k.
Proof.
  apply set_eq. intros j. rewrite !elem_of_kids. split.
  - intros (x & Hx & Hpar). exists x. destruct (decide (j = p)) as [->|Hj]; [|by rewrite add_other in Hx].
    rewrite Hns, lookup_insert_eq in Hx. congruence.
  - intros (x & Hx & Hpar). exists x. split; [by apply add_known | done].
Qed.

Lemma add_climbs k ps r : climbs f.(nodes) k ps r -> climbs f'.(nodes) k ps r.
Proof. induction 1; [constructor|]. eapply climb_up; eauto. by apply add_known. Qed.

Lemma add_tree : tree f'.
Proof.
  assert (forall k x, f'.(nodes) !! k = Some x -> k = p /\ x = n \/ f.(nodes) !! k = Some x) as Hback.
  { intros k x Hx. destruct (decide (k = p)) as [->|Hk]; [left | right; by rewrite add_other in Hx].
    rewrite Hns, lookup_insert_eq in Hx. split; congruence. }
  assert (kids f.(nodes) p = ∅) as Hnokids.
  { apply elem_of_equiv_empty_L. intros j (x & Hx & Hpar)%elem_of_kids. destruct (add_parent j x p Hx Hpar). congruence. }
  split; [done | ..].
  - apply (names_ok_change f); [apply Htree | rewrite Hnt; apply Htree |]. intros k Hk. rewrite Hnt in Hk.
    split; [done | by apply add_link].
  - intros k x [[-> _]|Hx]%Hback; apply Hin; [by left | right; by apply (tr_numbered _ _ Htree k x)].
  - intros k x [[-> ->]|Hx]%Hback Hpar; [destruct Hpar; congruence|]. rewrite Hnt. by apply (tr_hashed _ _ Htree k x).
  - intros k x [[-> ->]|Hx]%Hback; [unfold placed; rewrite Hp; by left | by apply (tr_placed _ _ Htree k)].
  - intros k x [[-> ->]|Hx]%Hback; rewrite add_kids; [|by apply (tr_refs _ _ Htree k)].
    rewrite Hnokids, size_empty. unfold nothing. lia.
  - intros k x [[-> ->]|Hx]%Hback; [done | by apply (tr_count _ _ Htree k)].
  - intros k x [[-> ->]|Hx]%Hback.
    + exists [], p. split_and!; [constructor | apply not_elem_of_nil |]. exists n. split; [|done]. by rewrite Hns, lookup_insert_eq.
    + destruct (tr_up _ _ Htree k x Hx) as (ps & r & Hc & Hrp & m & Hm & Hmp). exists ps, r.
      split_and!; [by apply add_climbs | done |]. exists m. split; [by apply add_known | done].
  - destruct (tr_root _ _ Htree) as (r & m & Hm & Hi & Hlm). exists r, m. split; [by apply add_known | done].
Qed.

End add.

(** A node that is in no table yet. *)
Section fresh.
Context (f fx : fuse) (p : Z) (n : node).
Context (Htree : tree f) (Hfresh : f.(nodes) !! p = None) (Hns : fx.(nodes) = <[p := n]> f.(nodes))
  (Hnt : fx.(name_table) = f.(name_table)) (Hit : fx.(id_table) = f.(id_table)).

Lemma fresh_number k : in_table f.(id_table) k -> number_of fx.(nodes) k = number_of f.(nodes) k.
Proof.
  intros Hk. destruct (table_has_number f k (proj1 (tr_ids _ _ Htree)) Hk) as [x Hx]. unfold number_of.
  rewrite Hns, lookup_insert_ne; [done|]. intros ->. congruence.
Qed.

Lemma fresh_link k : in_table f.(name_table) k -> link fx.(nodes) k = link f.(nodes) k.
Proof. intros Hk. by apply (add_link f fx p n). Qed.

Lemma fresh_ids : ids_ok fx.
Proof. apply (ids_ok_change f); [apply Htree | rewrite Hit; apply Htree |]. intros k Hk. rewrite Hit in Hk. by split; [|apply fresh_number]. Qed.

Lemma fresh_names : names_ok fx.
Proof. apply (names_ok_change f); [apply Htree | rewrite Hnt; apply Htree |]. intros k Hk. rewrite Hnt in Hk. by split; [|apply fresh_link]. Qed.

Lemma fresh_numbered i k : numbered fx i k <-> numbered f i k.
Proof. rewrite !numbered_iff, Hit. split; (intros [Hk Hn]; split; [done|]); by rewrite fresh_number in *. Qed.

Lemma fresh_named dir s k : named fx dir s k <-> named f dir s k.
Proof. rewrite !named_iff, Hnt. split; (intros [Hk Hn]; split; [done|]); by rewrite fresh_link in *. Qed.

End fresh.

(** The number of a new node; the counter is in its range. *)
Lemma next_id_new f : ids_ok f -> 0 <= f.(ctr) < 2 ^ 32 -> Z.of_nat (base.size f.(nodes)) < 2 ^ 32 - 2 ->
  exists c g, next_id f = Ok (c, set_ctr c g f) /\ 0 <= c < 2 ^ 32 /\ ~ taken f c.
Proof.
  intros Hok Hctr Hsize. unfold next_id. prun_get. apply next_id_run; [done | done |]. apply some_candidate; lia.
Qed.

(** A node with [r] references and as many lookups. *)
Definition new_node (c g r l : Z) : node := mk_node c g r None None l 0 0 0 file_zero.

(** With the option remember libfuse keeps a lookup of its own. *)
Definition kept_lookups (f : fuse) : Z := if f.(remember) =? 0 then 0 else 1.

Lemma alloc_node_run f : f.(memory) = [] -> let p := fresh (dom f.(nodes)) in
  alloc_node f = Ok (Some p, set_nodes (<[p := node_zero]> f.(nodes)) f) /\ f.(nodes) !! p = None.
Proof.
  intros Hm p. split; [unfold alloc_node; by prun (allocates_run f Hm)|].
  apply not_elem_of_dom. apply is_fresh.
Qed.

(** Looking up a name that has no node: the steps up to the name, and what they leave. *)
Lemma find_node_first f dir q d s : tree f -> f.(memory) = [] -> 0 <= f.(ctr) < 2 ^ 32 ->
  Z.of_nat (base.size f.(nodes)) < 2 ^ 32 - 3 -> numbered f dir q -> f.(nodes) !! q = Some d ->
  (forall k, ~ named f dir s k) ->
  let p := fresh (dom f.(nodes)) in let l := kept_lookups f in
  exists c g f3, f.(nodes) !! p = None /\ 0 <= c < 2 ^ 32 /\ (forall k, ~ numbered f c k) /\
    find_node dir (Some s) f = (hash_id p ;;; inc_nlookup p ;;; pret (Some p)) f3 /\
    ids_ok f3 /\ names_ok f3 /\ f3.(id_table) = f.(id_table) /\
    f3.(nodes) = named_nodes (<[p := new_node c g l l]> f.(nodes)) p q (new_node c g l l) d s /\
    (f3.(memory) = [] /\ f3.(ctr) = c /\ f3.(remember) = f.(remember)) /\
    (forall dir' s' k, named f3 dir' s' k <-> (dir' = dir /\ s' = s /\ k = p) \/ named f dir' s' k).
Proof.
  intros Htree Hmem Hctr Hsize Hnum Hd Hnone p l.
  assert (d.(nodeid) = dir) as Hdir by (destruct Hnum as [_ (d' & Hd' & <-)]; congruence).
  destruct (alloc_node_run f Hmem) as [Hal Hp]. fold p in Hal, Hp. set (f0 := set_nodes _ f) in Hal.
  pose proof (fresh_ids f f0 p node_zero Htree Hp eq_refl eq_refl) as Hids0.
  destruct (next_id_new f0 Hids0) as (c & g & Hnext & Hc & Hfree); [done | | ].
  { cbn [nodes f0 set_nodes]. rewrite map_size_insert_None by done. lia. }
  set (f1 := set_ctr c g f0) in *. set (n0 := new_node c g 0 0).
  assert (forall k, ~ numbered f c k) as Hcfree.
  { intros k Hk. apply Hfree. right; right. exists k. by apply (fresh_numbered f f0 p node_zero Htree Hp eq_refl eq_refl). }
  set (f2 := set_nodes (<[p := new_node c g l l]> f.(nodes)) f1).
  assert (f2.(nodes) = <[p := new_node c g l l]> f.(nodes)) as Hns2 by done.
  assert (p <> q) as Hpq by congruence.
  assert (~ in_table f2.(name_table) p) as Hout.
  { intros Hin. destruct (table_has_link f p (proj1 (tr_names _ _ Htree)) Hin) as (dir' & s' & (x & ? & ? & ? & _)%link_Some). congruence. }
  destruct (hash_name_run f2 p q dir (new_node c g l l) d s) as (f3 & Hrun3 & Hns3 & Hit3 & Hids3 & Hnames3 & Hnamed3); try done.
  - by apply (fresh_ids f f2 p (new_node c g l l)).
  - by apply (fresh_names f f2 p (new_node c g l l)).
  - apply lookup_insert_eq.
  - rewrite Hns2. by rewrite lookup_insert_ne.
  - by apply (fresh_numbered f f2 p (new_node c g l l)).
  - intros k Hk. apply (Hnone k). by apply (fresh_named f f2 p (new_node c g l l)).
  - by right.
  - assert (quiet f2 f3) as (Hm3 & Hc3 & Hr3).
    { apply (hash_name_memory f2 f3 p dir s q d (new_node c g l l)); try done.
      - by apply (fresh_ids f f2 p (new_node c g l l)).
      - by apply (fresh_numbered f f2 p (new_node c g l l)).
      - rewrite Hns2. by rewrite lookup_insert_ne.
      - apply lookup_insert_eq.
      - by right. }
    specialize (Hm3 Hmem). exists c, g, f3. split; [done|]. split; [done|]. split; [done|]. split_and!; try done; cycle 1.
    { intros dir' s' k. rewrite Hnamed3. apply or_iff_compat_l. by apply (fresh_named f f2 p (new_node c g l l)). }
    unfold find_node. destruct (lookup_node_run f dir s (tr_names _ _ Htree)) as (r & Hlook & Hspec). prun Hlook.
    destruct r as [x|]; [destruct (Hnone x); by apply Hspec|]. prun (lru_enabled_run f). prun Hal. prun Hnext. prun_get.
    assert (f1.(nodes) !! p = Some node_zero) as Hp1 by apply lookup_insert_eq. prun (load_node_run f1 p node_zero Hp1).
    prun (store_node_run f1 p node_zero n0 Hp1). set (f1' := set_nodes (<[p := n0]> f1.(nodes)) f1).
    assert ((if negb (remember f1 =? 0) then inc_nlookup p else pret tt) f1' = Ok (tt, f2)) as Hinc.
    { change (remember f1) with (remember f). unfold f2, l, kept_lookups.
      assert (f1'.(nodes) !! p = Some n0) as Hp1' by apply lookup_insert_eq. destruct (remember f =? 0); cbn [negb].
      - unfold f1'. cbn [nodes f1 set_ctr f0 set_nodes]. by rewrite insert_insert_eq.
      - rewrite (inc_nlookup_run f1' p n0 Hp1') by done. unfold f1'. cbn [nodes f1 set_ctr f0 set_nodes].
        by rewrite !insert_insert_eq. }
    prun Hinc. prun_lift (eq_refl : lift_fault NullDeref (Some s) = Ok s). prun Hrun3. done.
Qed.

Lemma hash_id_frame p f u f' : hash_id p f = Ok (u, f') ->
  exists t m, f' = set_id_table t m f /\ (f.(memory) = [] -> m = []).
Proof.
  unfold hash_id, load_node, pbind, pget, plift, pret, pput. cbn. destruct (node_at f.(nodes) p) as [n|]; [|done].
  cbn. destruct (NodeTable.insert_node _ _ _ _ _) as [[t m]|] eqn:Hins; [|done]. intros [= _ <-].
  exists t, m. split; [done|]. intros Hm. rewrite Hm in Hins. by apply insert_memory in Hins.
Qed.

Lemma in_table_numbered f k : ids_ok f -> in_table f.(id_table) k <-> exists i, numbered f i k.
Proof.
  intros [Hwf _]. split; [|by intros [i [? _]]]. intros Hk. destruct (table_has_number f k Hwf Hk) as [n Hn].
  exists n.(nodeid). split; [done | by exists n].
Qed.

Section made.
(** The state before the node was named and numbered, with the numbers of the
    state after it. *)
Context (f f3 f5 : fuse) (p q : Z) (n d : node) (s : list byte) (t : node_table) (m : list bool).
Context (Htree : tree f) (Hp : f.(nodes) !! p = None) (Hd : f.(nodes) !! q = Some d) (Hids : ids_ok f5)
  (Hnames : names_ok f5) (Hs : n.(name) = None) (Hpar : n.(parent) = None) (Hr : n.(refctr) = 1)
  (Hl : looked n = 1) (Hrange : 0 <= n.(nlookup) < 2 ^ 64) (Hid : n.(nodeid) <> FUSE_ROOT_ID).
Context (Hns5 : f5.(nodes) = <[p := with_name n (Some q) (Some s)]> (<[q := with_refctr d (d.(refctr) + 1)]> f.(nodes)))
  (Hin : forall k, in_table f5.(id_table) k <-> k = p \/ in_table f.(id_table) k)
  (Hnamed : forall dir' s' k, named f5 dir' s' k <-> (dir' = d.(nodeid) /\ s' = s /\ k = p) \/ named f dir' s' k).
Let fm := set_nodes (<[p := n]> f.(nodes)) (set_id_table f5.(id_table) f.(memory) f).

Lemma made_number k : number_of fm.(nodes) k = number_of f5.(nodes) k.
Proof.
  unfold number_of. rewrite Hns5. cbn [nodes fm set_nodes]. destruct (decide (k = p)) as [->|Hk]; [by rewrite !lookup_insert_eq|].
  rewrite !(lookup_insert_ne _ p) by done. destruct (decide (k = q)) as [->|Hkq]; [by rewrite lookup_insert_eq, Hd|].
  by rewrite lookup_insert_ne.
Qed.

Lemma made_tree : tree f5.
Proof.
  assert (ids_ok fm) as Hidm by (apply (ids_ok_change f5); [done | apply Hids | intros k Hk; by split; [|apply made_number]]).
  assert (tree fm) as Htm by (by apply (add_tree f fm p n)).
  assert (forall ps r, tops fm.(nodes) q ps r -> r <> p) as Habove.
  { intros ps r Ht. destruct (tr_up _ _ Htree q d Hd) as (ps' & r' & Hc & Hrr & x & Hx & Hxp).
    assert (tops fm.(nodes) q ps' r') as Ht'.
    { split_and!; [by apply (add_climbs f fm p n) | done |]. exists x. by split; [apply (add_known f fm p n)|]. }
    rewrite (tops_det _ _ _ _ _ _ Ht Ht'). congruence. }
  apply (given_tree fm f5 p q n d s); try done.
  - apply lookup_insert_eq.
  - by apply (add_known f fm p n).
  - rewrite Hns5. unfold named_nodes. cbn [nodes fm set_nodes]. rewrite (insert_insert_ne _ q p) by congruence.
    by rewrite insert_insert_eq.
  - intros dir' s' k. rewrite Hnamed. apply or_iff_compat_l. symmetry. by apply (add_named f fm p n).
Qed.

End made.

(** The node once it is numbered and looked up. *)
Lemma find_node_new f dir q d s : tree f -> f.(memory) = [] -> 0 <= f.(ctr) < 2 ^ 32 ->
  Z.of_nat (base.size f.(nodes)) < 2 ^ 32 - 3 -> numbered f dir q -> f.(nodes) !! q = Some d ->
  (forall k, ~ named f dir s k) ->
  exists p c f', find_node dir (Some s) f = Ok (Some p, f') /\ tree f' /\
    f.(nodes) !! p = None /\ 0 <= c < 2 ^ 32 /\ (forall k, ~ numbered f c k) /\
    (exists n, f'.(nodes) !! p = Some n /\ n.(nlookup) = kept_lookups f + 1) /\
    (forall dir' s' k, named f' dir' s' k <-> (dir' = dir /\ s' = s /\ k = p) \/ named f dir' s' k) /\
    (forall i k, numbered f' i k <-> (i = c /\ k = p) \/ numbered f i k) /\
    (forall dir', held f dir' -> held f' dir') /\ f'.(memory) = [] /\ f'.(ctr) = c /\ f'.(remember) = f.(remember) /\
    exists g, f'.(nodes) = <[p := with_name (new_node c g 1 (kept_lookups f + 1)) (Some q) (Some s)]>
      (<[q := with_refctr d (d.(refctr) + 1)]> f.(nodes)).
Proof.
  intros Htree Hmem Hctr Hsize Hnum Hd Hnone.
  destruct (find_node_first f dir q d s Htree Hmem Hctr Hsize Hnum Hd Hnone) as
    (c & g & f3 & Hp & Hc & Hfree & Hrun & Hids3 & Hnames3 & Hit3 & Hns3 & (Hm3 & Hc3 & Hr3) & Hnamed3).
  set (p := fresh (dom f.(nodes))) in *. set (l := kept_lookups f) in *. set (n3 := with_name (new_node c g l l) (Some q) (Some s)).
  assert (p <> q) as Hpq by congruence.
  assert (f3.(nodes) !! p = Some n3) as Hp3 by (rewrite Hns3; apply lookup_insert_eq).
  assert (d.(nodeid) = dir) as Hdir by (destruct Hnum as [_ (d' & Hd' & <-)]; congruence).
  assert (forall k, in_table f.(id_table) k -> number_of f3.(nodes) k = number_of f.(nodes) k) as Hsame.
  { intros k Hk. destruct (table_has_number f k (proj1 (tr_ids _ _ Htree)) Hk) as [x Hx]. unfold number_of. rewrite Hns3.
    unfold named_nodes. rewrite (lookup_insert_ne _ p) by congruence. destruct (decide (k = q)) as [->|Hkq].
    - by rewrite lookup_insert_eq, Hd.
    - by rewrite lookup_insert_ne, (lookup_insert_ne _ p) by congruence. }
  assert (forall i k, numbered f3 i k <-> numbered f i k) as Hnum3.
  { intros i k. rewrite !numbered_iff, Hit3. split; (intros [Hk Hn]; split; [done|]); by rewrite Hsame in *. }
  destruct (hash_id_run f3 p n3 Hids3 Hp3) as (f4 & Hrun4 & Hids4 & Hns4 & Hnum4).
  { intros k Hk. by apply (Hfree k), Hnum3. }
  destruct (hash_id_frame p f3 tt f4 Hrun4) as (t & m & -> & Hm4). set (f4 := set_id_table t m f3) in *.
  assert (f4.(nodes) !! p = Some n3) as Hp4 by (by rewrite Hns4).
  assert (0 <= l <= 1) as Hl by (unfold l, kept_lookups; destruct (remember f =? 0); lia).
  pose proof (inc_nlookup_run f4 p n3 Hp4 ltac:(cbn; lia)) as Hrun5. set (f5 := set_nodes _ f4) in *.
  pose proof (looked_up_place n3) as Hplace. set (n := new_node c g 1 (l + 1)).
  assert (looked_up n3 = with_name n (Some q) (Some s)) as Hn5
    by (unfold looked_up, n3, n, l, kept_lookups; by destruct (remember f =? 0)).
  assert (forall i k, numbered f5 i k <-> (i = c /\ k = p) \/ numbered f i k) as Hnum5.
  { intros i k. unfold f5. rewrite (touch_numbered f4 p n3 (looked_up n3) Hp4 Hplace), Hnum4. by rewrite <- Hnum3. }
  assert (forall dir' s' k, named f5 dir' s' k <-> (dir' = dir /\ s' = s /\ k = p) \/ named f dir' s' k) as Hnamed5.
  { intros dir' s' k. unfold f5. rewrite (touch_named f4 p n3 (looked_up n3) Hp4 Hplace). rewrite <- Hnamed3. done. }
  assert (f5.(nodes) = <[p := with_name n (Some q) (Some s)]> (<[q := with_refctr d (d.(refctr) + 1)]> f.(nodes))) as Hns5.
  { cbn [nodes f5 set_nodes f4 set_id_table]. rewrite Hn5, Hns3. unfold named_nodes.
    rewrite insert_insert_eq. rewrite (insert_insert_ne _ q p) by congruence. by rewrite insert_insert_eq. }
  exists p, c, f5. split.
  { rewrite Hrun. prun Hrun4. prun Hrun5. done. }
  split; [|split; [done|split; [done|split; [done|split; [|split; [done|split; [done|split]]]]]]].
  - apply (made_tree f f5 p q n d s); try done.
    + by apply (touch_ids f4 p n3).
    + apply (touch_names f4 p n3 _ Hp4 Hplace). done.
    + unfold n. cbn. unfold looked. cbn. by rewrite (proj2 (Z.eqb_neq _ _)) by lia.
    + cbn. lia.
    + cbn. intros ->. destruct (tr_root _ _ Htree) as (a & na & Ha & Hai & _). apply (Hfree a).
      split; [by apply (tr_numbered _ _ Htree a na) | by exists na].
    + intros k. rewrite (in_table_numbered f k) by apply Htree. rewrite (in_table_numbered f5 k) by (by apply (touch_ids f4 p n3)).
      split; [intros [i [[_ ->]|Hi]%Hnum5]; [by left | right; by exists i]|].
      intros [->|[i Hi]]; [exists c | exists i]; apply Hnum5; auto.
    + intros dir' s' k. by rewrite Hdir.
  - exists (looked_up n3). split; [apply lookup_insert_eq|]. rewrite Hn5. done.
  - intros dir' (a & da & Hna & Hda & Hla). assert (a <> p) as Hap by congruence.
    exists a, (if decide (a = q) then with_refctr d (d.(refctr) + 1) else da).
    split; [apply Hnum5; by right|]. split.
    + cbn [nodes f5 set_nodes f4 set_id_table]. rewrite lookup_insert_ne, Hns3 by done. unfold named_nodes.
      rewrite lookup_insert_ne by done. destruct (decide (a = q)) as [->|Haq]; [by rewrite lookup_insert_eq|].
      by rewrite lookup_insert_ne, lookup_insert_ne by done.
    + destruct (decide (a = q)) as [->|]; [|done]. cbn. congruence.
  - split_and!; [by apply Hm4 | done | done | by exists g].
Qed.

(** ** Lookups of nodes there are, and forgetting *)

(** The queue of forgotten nodes is no part of the tree. *)
Lemma lru_tree extra l f : tree_with extra f -> tree_with extra (set_lru l f).
Proof. intros [? ? ? ? ? ? ? ? ?]. by split. Qed.

Lemma held_touch f p n n' dir : f.(nodes) !! p = Some n -> same_place n n' -> n'.(nlookup) <> 0 ->
  held f dir -> held (set_nodes (<[p := n']> f.(nodes)) f) dir.
Proof.
  intros Hn Hsame Hl (q & d & Hnum & Hd & Hld). exists q.
  assert (numbered (set_nodes (<[p := n']> f.(nodes)) f) dir q) as Hnum' by (by apply (touch_numbered f p n)).
  destruct (decide (q = p)) as [->|Hq].
  - exists n'. split_and!; [done | apply lookup_insert_eq | done].
  - exists d. split_and!; [done | | done]. cbn [nodes set_nodes]. by rewrite lookup_insert_ne.
Qed.

Lemma find_node_known f dir s p n : tree f -> f.(nodes) !! p = Some n -> n.(nlookup) < 2 ^ 64 - 1 ->
  match s with Some s => named f dir s p | None => numbered f dir p end ->
  exists f', find_node dir s f = Ok (Some p, f') /\ tree f' /\
    f'.(nodes) = <[p := looked_up n]> f.(nodes) /\
    (forall dir' s' k, named f' dir' s' k <-> named f dir' s' k) /\
    (forall i k, numbered f' i k <-> numbered f i k) /\ (forall dir', held f dir' -> held f' dir') /\ quiet f f'.
Proof.
  intros Htree Hn Hl Hp. pose proof (tr_count _ _ Htree p n Hn) as Hc.
  assert (match s with None => p <-- get_node dir ;; pret (Some p) | Some s => lookup_node dir s end f = Ok (Some p, f)) as Hlook.
  { destruct s as [s|]; [|by prun (get_node_run f dir p (tr_ids _ _ Htree) Hp)].
    destruct (lookup_node_run f dir s (tr_names _ _ Htree)) as (r & Hr & Hspec). by rewrite Hr, (proj2 (Hspec p) Hp). }
  set (f1 := if (f.(remember) >? 0) && (n.(nlookup) =? 1) then set_lru (filter (fun q => q <> p) f.(lru_table)) f else f).
  assert (tree f1 /\ f1.(nodes) = f.(nodes) /\ quiet f f1 /\ f1.(id_table) = f.(id_table) /\ f1.(name_table) = f.(name_table))
    as (Htree1 & Hns1 & Hq1 & Hit1 & Hnt1).
  { unfold f1. destruct (_ && _); split_and!; try done. by apply lru_tree. }
  assert (f1.(nodes) !! p = Some n) as Hn1 by (by rewrite Hns1). pose proof (looked_up_place n) as Hplace.
  pose proof (inc_nlookup_run f1 p n Hn1 ltac:(lia)) as Hinc.
  exists (set_nodes (<[p := looked_up n]> f1.(nodes)) f1). split; [|split; [|split; [|split; [|split; [|split]]]]].
  - unfold find_node. prun Hlook. prun (lru_enabled_run f). prun (load_node_run f p n Hn).
    assert ((if (f.(remember) >? 0) && (n.(nlookup) =? 1) then remove_node_lru p else pret tt) f = Ok (tt, f1)) as Hlru
      by (unfold f1; by destruct (_ && _)).
    prun Hlru. by prun Hinc.
  - by apply looked_up_tree.
  - cbn [nodes set_nodes]. by rewrite Hns1.
  - intros dir' s' k. rewrite (touch_named f1 p n _ Hn1 Hplace). by rewrite !named_iff, Hnt1, Hns1.
  - intros i k. rewrite (touch_numbered f1 p n _ Hn1 Hplace). by rewrite !numbered_iff, Hit1, Hns1.
  - intros dir' Hh. apply (held_touch f1 p n); try done.
    + unfold looked_up. destruct (n.(nlookup) =? 0); cbn; lia.
    + destruct Hh as (q & d & Hnum & Hd & Hld). exists q, d.
      split_and!; [apply numbered_iff; rewrite Hit1, Hns1; by apply numbered_iff | by rewrite Hns1 | done].
  - done.
Qed.

Lemma set_forget_time_run f p n : f.(nodes) !! p = Some n -> set_forget_time p f =
  Ok (tt, set_nodes (<[p := with_forget_time n f.(now)]> f.(nodes))
            (set_lru (filter (fun q => q <> p) f.(lru_table) ++ [p]) f)).
Proof.
  intros Hn. unfold set_forget_time, modify. rewrite pbind_assoc. prun_get.
  prun (pput_run f (set_lru (filter (fun q => q <> p) f.(lru_table) ++ [p]) f)).
  prun (load_node_run (set_lru (filter (fun q => q <> p) f.(lru_table) ++ [p]) f) p n Hn). prun_get.
  by rewrite (store_node_run (set_lru (filter (fun q => q <> p) f.(lru_table) ++ [p]) f) p n _ Hn).
Qed.

(** Forgetting a part of the lookups. *)
Lemma forget_some f p n k : tree f -> f.(nodes) !! p = Some n -> 0 < k < n.(nlookup) ->
  exists f', forget_lookups p k f = Ok (tt, f') /\ tree f' /\
    (forall dir s k, named f' dir s k <-> named f dir s k) /\
    (forall i k, numbered f' i k <-> numbered f i k) /\ (forall dir', held f dir' -> held f' dir') /\ quiet f f'.
Proof.
  intros Htree Hn Hk. set (n1 := with_nlookup n (n.(nlookup) - k)). assert (same_place n n1) as Hsame by done.
  pose proof (tr_count _ _ Htree p n Hn) as Hc. destruct (tr_refs _ _ Htree p n Hn) as [Hpos _].
  set (f1 := set_nodes (<[p := n1]> f.(nodes)) f).
  assert (tree f1) as Htree1.
  { apply (touch_tree f p n n1 Hn Hsame nothing); try done; unfold n1; cbn; [|lia..]. unfold looked. cbn.
    by rewrite !(proj2 (Z.eqb_neq _ _)) by lia. }
  assert (forall dir', held f dir' -> held f1 dir') as Hheld1 by (intros; apply (held_touch f p n); try done; unfold n1; cbn; lia).
  unfold forget_lookups. prun (load_node_run f p n Hn). rewrite Z.geb_leb, (proj2 (Z.leb_le _ _)) by lia.
  prun_lift (eq_refl : guard_c true AssertFailed = Ok tt). fold n1. prun (store_node_run f p n n1 Hn). fold f1.
  rewrite (proj2 (Z.eqb_neq n1.(nlookup) 0)) by (unfold n1; cbn; lia). prun (lru_enabled_run f1).
  assert (f1.(nodes) !! p = Some n1) as Hn1 by apply lookup_insert_eq.
  destruct (_ && _); [|exists f1; split; [done|split; [done|split; [|split; [|done]]]]]; cycle 1.
  { intros. by apply (touch_named f p n). }
  { intros. by apply (touch_numbered f p n). }
  rewrite (set_forget_time_run f1 p n1 Hn1). eexists. split; [done|].
  set (n2 := with_forget_time n1 f1.(now)). assert (same_place n1 n2) as Hsame2 by done.
  set (fl := set_lru _ f1). assert (fl.(nodes) !! p = Some n1) as Hnl by done. split; [|split; [|split; [|split; [|done]]]].
  - destruct (tr_refs _ _ Htree1 p n1 Hn1) as [Hpos1 _].
    apply (touch_tree fl p n1 n2 Hnl Hsame2 nothing); try done; [by apply lru_tree | unfold n2, n1; cbn; lia..].
  - intros. etransitivity; [apply (touch_named fl p n1 n2 Hnl Hsame2) | by apply (touch_named f p n n1)].
  - intros. etransitivity; [apply (touch_numbered fl p n1 n2 Hnl Hsame2) | by apply (touch_numbered f p n n1)].
  - intros dir' Hh. apply (held_touch fl p n1 n2); try done; [unfold n2, n1; cbn; lia|]. by apply Hheld1.
Qed.

(** The last lookups of a node that nobody else refers to. *)
Lemma dies_touch ns ns' p gone stop : dies ns p gone stop ->
  (forall k m, ns !! k = Some m -> exists m', ns' !! k = Some m' /\ same_place m m' /\
     m'.(refctr) = m.(refctr) /\ m'.(treelock) = m.(treelock)) ->
  dies ns' p gone stop.
Proof.
  intros Hd He. induction Hd as [p n Hn Hr|p n Hn Hr Ht Hs|p n s q gone stop Hn Hr Ht Hs Hq Hd IH];
    destruct (He _ _ Hn) as (m & Hm & (_ & E2 & E3) & E4 & E5).
  - apply (dies_not _ _ m); [done | congruence].
  - apply (dies_last _ _ m); congruence.
  - apply (dies_up _ _ m s q); congruence.
Qed.

Lemma forget_all f p n gone stop : tree f -> f.(nodes) !! p = Some n -> n.(nodeid) <> FUSE_ROOT_ID ->
  n.(nlookup) <> 0 -> dies f.(nodes) p gone stop ->
  exists f', forget_lookups p n.(nlookup) f = Ok (tt, f') /\ tree f' /\
    (forall k, is_Some (f'.(nodes) !! k) <-> is_Some (f.(nodes) !! k) /\ (k ∉ gone)) /\
    (forall dir s k, named f' dir s k <-> named f dir s k /\ (k ∉ gone)) /\
    (forall i k, numbered f' i k <-> numbered f i k /\ (k ∉ gone)) /\ quiet f f'.
Proof.
  intros Htree Hn Hid Hl Hdies. set (n1 := with_nlookup n 0). assert (same_place n n1) as Hsame by done.
  set (f1 := set_nodes (<[p := n1]> f.(nodes)) f). destruct (tr_refs _ _ Htree p n Hn) as [Hpos _].
  assert (tree_with (one_at p) f1) as Htree1.
  { apply (touch_tree f p n n1 Hn Hsame nothing); try done.
    - unfold n1, looked, one_at, nothing. cbn. rewrite (proj2 (Z.eqb_neq _ _)), decide_True by done. lia.
    - intros k Hk. unfold one_at. by rewrite decide_False. }
  assert (dies f1.(nodes) p gone stop) as Hdies1.
  { apply (dies_touch f.(nodes)); [done|]. intros k m Hm. destruct (decide (k = p)) as [->|Hk].
    - exists n1. split; [apply lookup_insert_eq|]. by assert (m = n) as -> by congruence.
    - exists m. split; [|done]. cbn [nodes f1 set_nodes]. by rewrite lookup_insert_ne. }
  destruct (gone_distinct f1 p gone stop Htree1 Hdies1) as [Hnd Hstop].
  assert (length gone < S (base.size f1.(nodes)))%nat as Hfuel.
  { apply Nat.lt_succ_r. assert (list_to_set gone ⊆ dom f1.(nodes)) as Hsub%subseteq_size.
    { intros k Hk%elem_of_list_to_set. destruct (dies_chain _ _ _ _ Hdies1 k Hk) as (m & Hm & _). by apply elem_of_dom. }
    by rewrite size_list_to_set, size_dom in Hsub. }
  destruct (unref_run gone p stop f1 _ Hdies1 Hnd Hstop (gone_mortal f1 p gone stop Htree1 Hdies1) Hfuel) as (f' & Hrun & Hdr).
  exists f'. split.
  { unfold forget_lookups. prun (load_node_run f p n Hn). rewrite Z.geb_leb, Z.leb_refl, Z.sub_diag.
    prun_lift (eq_refl : guard_c true AssertFailed = Ok tt). fold n1. prun (store_node_run f p n n1 Hn).
    unfold unref_node. change (nlookup n1 =? 0) with true. cbv iota. by prun_get. }
  pose proof (tree_after f1 p gone stop Htree1 Hdies1 f' Hdr) as Htree'. split; [done|].
  assert (forall k, is_Some (f1.(nodes) !! k) <-> is_Some (f.(nodes) !! k)) as Hsome.
  { intros k. cbn [nodes f1 set_nodes]. destruct (decide (k = p)) as [->|Hk]; [rewrite lookup_insert_eq, Hn | by rewrite lookup_insert_ne].
    split; by eexists. }
  split; [|split; [|split]].
  - intros k. rewrite <- Hsome. split.
    + intros [m' (Hk & m & Hm & _)%(survives f1 gone stop f' Hdr)]. split; [by exists m | done].
    + intros [[m Hm] Hk]. eexists. apply (survives f1 gone stop f' Hdr). split; [done | by exists m].
  - intros dir s k. rewrite <- (touch_named f p n n1 Hn Hsame), !named_iff. fold f1. split.
    + intros [Hk Hlk]. rewrite (link_after f1 gone stop f' Hdr k Hk) in Hlk. by apply (dr_names _ _ _ _ Hdr) in Hk as [? ?].
    + intros [[Hk Hlk] Hg]. assert (in_table f'.(name_table) k) as Hin by (by apply (dr_names _ _ _ _ Hdr)).
      split; [done|]. by rewrite (link_after f1 gone stop f' Hdr k Hin).
  - intros i k. rewrite <- (touch_numbered f p n n1 Hn Hsame), !numbered_iff. fold f1. split.
    + intros [Hk Hlk]. rewrite (number_after f1 gone stop f' Hdr k Hk) in Hlk. by apply (dr_ids _ _ _ _ Hdr) in Hk as [? ?].
    + intros [[Hk Hlk] Hg]. assert (in_table f'.(id_table) k) as Hin by (by apply (dr_ids _ _ _ _ Hdr)).
      split; [done|]. by rewrite (number_after f1 gone stop f' Hdr k Hin).
  - destruct (dr_rest _ _ _ _ Hdr) as (Hc & _ & Hr & _). split_and!; [apply (dr_memory _ _ _ _ Hdr) | done | done].
Qed.

End FuseTreeOps.
