(* ===== verification/FuseQueueFacts.v ===== *)
(** Facts about waiting for paths: what asking for a path and giving it back do to
    the locks of a tree that stays as it is, and the queue of those that wait. *)
From S2P Require Import Prelude.
From S2P Require Import CLib.
From S2P Require Import FuseTypes.
From S2P Require Import NodeTable.
From S2P Require Import FuseNodes.
From S2P Require Import FuseNodesFacts.
From S2P Require Import FusePaths.
From S2P Require Import FusePathsFacts.
From S2P Require Import LockTable.
From S2P Require Import FuseQueue.
From S2P Require Import FuseTree.

Module FuseQueueFacts.
Import FuseTypes NodeTable FuseNodes FuseNodesFacts FusePaths FusePathsFacts LockTable FuseQueue FuseTree.

(** ** Trees that differ in their locks *)

Definition relock (L : Z -> Z) (ns : gmap Z node) : gmap Z node :=
  map_imap (fun k n => Some (with_treelock n (L k))) ns.

Definition locked (f : fuse) (L : Z -> Z) : fuse := set_nodes (relock L f.(nodes)) f.

(** The nodes on the way up from [p], without the root. *)
Fixpoint up (fuel : nat) (ns : gmap Z node) (p : Z) : list Z :=
  match fuel with O => [] | S fuel =>
    match ns !! p with
    | Some n =>
        if n.(nodeid) =? FUSE_ROOT_ID then []
        else match n.(parent) with Some q => p :: up fuel ns q | None => [] end
    | None => []
    end
  end.

(** What a wanted path locks. *)
Definition claim_of (f : fuse) (w : wanted) : claim :=
  mk_claim
    (match get_node w.(ino) f with Ok (p, _) => up (base.size f.(nodes) + 1) f.(nodes) p | Fail _ => [] end)
    (if w.(write)
     then match w.(last) with
       | Some s => match lookup_node w.(ino) s f with Ok (r, _) => r | Fail _ => None end
       | None => None
       end
     else None).

(** The path exists up to its last name, its text fits, and the node to be locked
    for writing is not above the directory it is in. *)
Definition asks (f : fuse) (w : wanted) : Prop := exists p ps r n wnode,
  numbered f w.(ino) p /\ climbs f.(nodes) p ps r /\ f.(nodes) !! r = Some n /\ n.(nodeid) = FUSE_ROOT_ID /\
  to_write f w.(ino) w.(last) w.(write) wnode /\ (forall k, wnode = Some k -> (k ∉ ps.*1) /\ k <> r) /\
  zlen (path_text ps (last_text w.(last))) + 1 <= 2 ^ 31 /\ NUL ∉ path_text ps (last_text w.(last)).

Lemma relock_lookup L ns k : relock L ns !! k = (fun n => with_treelock n (L k)) <$> ns !! k.
Proof. unfold relock. rewrite map_lookup_imap. by destruct (ns !! k). Qed.

Lemma relock_ext L L' ns : (forall k, L k = L' k) -> relock L ns = relock L' ns.
Proof. intros He. apply map_eq. intros k. rewrite !relock_lookup. destruct (ns !! k); [|done]. cbn. by rewrite He. Qed.

Lemma locked_ext f L L' : (forall k, L k = L' k) -> locked f L = locked f L'.
Proof. intros He. unfold locked. by rewrite (relock_ext L L'). Qed.

(** A tree is the tree with the locks it has. *)
Lemma own_locks f L : (forall k n, f.(nodes) !! k = Some n -> n.(treelock) = L k) -> f = locked f L.
Proof.
  intros HL. destruct f as [a b c d e g ns h i]. cbn in *. unfold locked, set_nodes. f_equal. apply map_eq. intros k.
  cbn [nodes]. rewrite relock_lookup. destruct (ns !! k) as [n|] eqn:Hn; [|done]. specialize (HL k n Hn). destruct n. cbn in *. by subst.
Qed.

Lemma relocked f L L' : locked (locked f L) L' = locked f L'.
Proof.
  unfold locked. cbn [nodes set_nodes]. unfold set_nodes. cbn. f_equal. apply map_eq. intros k. rewrite !relock_lookup. by destruct (f.(nodes) !! k).
Qed.

(** A tree without locks, and memory enough. *)
Record shape (f : fuse) : Prop := mk_shape {
  sh_ids : ids_ok f;
  sh_names : names_ok f;
  sh_memory : f.(memory) = [];
  sh_unlocked : forall k n, f.(nodes) !! k = Some n -> n.(treelock) = 0
}.

Lemma relock_size L ns : base.size (relock L ns) = base.size ns.
Proof.
  rewrite <- !size_dom. f_equal. apply set_eq. intros k. rewrite !elem_of_dom, relock_lookup.
  by destruct (ns !! k).
Qed.

Section tree.
Context (f : fuse) (Hids : ids_ok f) (Hnames : names_ok f) (Hmem : f.(memory) = []).

Lemma relock_number L k : number_of (locked f L).(nodes) k = number_of f.(nodes) k.
Proof. unfold number_of, locked. cbn [nodes set_nodes]. rewrite relock_lookup. by destruct (f.(nodes) !! k). Qed.

Lemma locked_ids L : ids_ok (locked f L).
Proof.
  apply (ids_ok_change f); [done | apply Hids |]. intros k Hk. split; [done | apply relock_number].
Qed.

Lemma locked_numbered L i p : numbered (locked f L) i p <-> numbered f i p.
Proof. by rewrite !numbered_iff, relock_number. Qed.

Lemma relock_link L k : link (locked f L).(nodes) k = link f.(nodes) k.
Proof.
  unfold link, locked. cbn [nodes set_nodes]. rewrite relock_lookup. destruct (f.(nodes) !! k) as [n|]; [|done].
  cbn. destruct n.(parent) as [q|]; [|done]. cbn. rewrite relock_lookup. by destruct (f.(nodes) !! q).
Qed.

Lemma locked_names L : names_ok (locked f L).
Proof.
  apply (names_ok_change f); [done | apply Hnames |]. intros k Hk. split; [done | apply relock_link].
Qed.

Lemma locked_named L dir s p : named (locked f L) dir s p <-> named f dir s p.
Proof. by rewrite !named_iff, relock_link. Qed.

Lemma locked_climbs L p ps r : climbs f.(nodes) p ps r -> climbs (locked f L).(nodes) p ps r.
Proof.
  intros H. induction H as [p|p n s q ps r Hn Hid Hs Hq Hc IH]; [constructor|].
  apply (climb_up _ p (with_treelock n (L p)) s q); try done.
  cbn [nodes locked set_nodes]. by rewrite relock_lookup, Hn.
Qed.

Lemma locked_node L k n : f.(nodes) !! k = Some n -> (locked f L).(nodes) !! k = Some (with_treelock n (L k)).
Proof. intros Hn. cbn [nodes locked set_nodes]. by rewrite relock_lookup, Hn. Qed.

Lemma up_climbs ns p ps r n fuel : climbs ns p ps r -> ns !! r = Some n -> n.(nodeid) = FUSE_ROOT_ID ->
  up (length ps + S fuel) ns p = ps.*1.
Proof.
  intros H Hn Hr. induction H as [p|p m s q ps r Hm Hid Hs Hq Hc IH].
  - cbn. rewrite Hn. by rewrite (proj2 (Z.eqb_eq _ _) Hr).
  - cbn. rewrite Hm, (proj2 (Z.eqb_neq _ _) Hid), Hq. by rewrite IH.
Qed.

Lemma climbs_root_out ns p ps r n : climbs ns p ps r -> ns !! r = Some n -> n.(nodeid) = FUSE_ROOT_ID ->
  r ∉ ps.*1.
Proof.
  intros H Hn Hr. induction H as [p|p m s q ps r Hm Hid Hs Hq Hc IH]; [apply not_elem_of_nil|].
  cbn. apply not_elem_of_cons. split; [|by apply IH]. intros ->. congruence.
Qed.

(** There is one way up to a root. *)
Lemma climbs_root_det ns p ps ps' r r' n n' : climbs ns p ps r -> climbs ns p ps' r' ->
  ns !! r = Some n -> n.(nodeid) = FUSE_ROOT_ID -> ns !! r' = Some n' -> n'.(nodeid) = FUSE_ROOT_ID -> ps = ps' /\ r = r'.
Proof.
  intros H. revert ps'. induction H as [p|p m s q ps r Hm Hid Hs Hq Hc IH]; intros ps' H' Hn Hr Hn' Hr'.
  - inversion H'; subst; [done | congruence].
  - inversion H' as [|? m' s' q' ps2 ? Hm' _ Hs' Hq' Hc']; subst; [congruence|].
    assert (m' = m) as -> by congruence. assert (s' = s) as -> by congruence. assert (q' = q) as -> by congruence.
    by destruct (IH ps2 Hc' Hn Hr Hn' Hr') as [-> ->].
Qed.

Lemma claim_way w p ps r n : numbered f w.(ino) p -> climbs f.(nodes) p ps r -> f.(nodes) !! r = Some n ->
  n.(nodeid) = FUSE_ROOT_ID -> (claim_of f w).(c_way) = ps.*1.
Proof.
  intros Hnum Hc Hn Hroot. pose proof (climbs_root_out _ _ _ _ _ Hc Hn Hroot) as Hr.
  pose proof (climbs_length _ _ _ _ Hc Hr) as Hlen. cbn [c_way claim_of]. rewrite (get_node_run f _ p Hids Hnum).
  replace (base.size f.(nodes) + 1)%nat with (length ps + S (base.size f.(nodes) - length ps))%nat by lia.
  by apply (up_climbs _ _ _ r n).
Qed.

Lemma claim_write w wnode : to_write f w.(ino) w.(last) w.(write) wnode -> (claim_of f w).(c_write) = wnode.
Proof.
  intros Hw. cbn [c_write claim_of]. unfold to_write in Hw. destruct w.(write); [|done].
  destruct Hw as (s & -> & Hw). destruct (lookup_node_run f w.(ino) s Hnames) as (k & -> & Hk).
  destruct k as [k|]; [by symmetry; apply Hw, Hk|]. destruct wnode as [k|]; [|done]. by apply Hk, Hw.
Qed.

(** The claim of a path that exists. *)
Lemma asks_claim w : asks f w -> exists p ps r n,
  numbered f w.(ino) p /\ climbs f.(nodes) p ps r /\ f.(nodes) !! r = Some n /\ n.(nodeid) = FUSE_ROOT_ID /\
  (r ∉ ps.*1) /\ NoDup ps.*1 /\ (claim_of f w).(c_way) = ps.*1 /\
  to_write f w.(ino) w.(last) w.(write) (claim_of f w).(c_write) /\
  (forall k, (claim_of f w).(c_write) = Some k -> (k ∉ ps.*1) /\ k <> r) /\
  zlen (path_text ps (last_text w.(last))) + 1 <= 2 ^ 31 /\ NUL ∉ path_text ps (last_text w.(last)).
Proof.
  intros (p & ps & r & n & wnode & Hnum & Hc & Hn & Hroot & Hw & Hout & Hmax & Hnul).
  pose proof (climbs_root_out _ _ _ _ _ Hc Hn Hroot) as Hr. exists p, ps, r, n.
  rewrite (claim_write w wnode Hw). split_and!; try done; [by apply (climbs_NoDup _ _ _ _ Hc) | by apply (claim_way w p ps r n)].
Qed.

Lemma asks_fair w : asks f w -> fair (claim_of f w).
Proof.
  intros (p & ps & r & n & _ & _ & _ & _ & _ & Hnd & Hway & _ & Hout & _)%asks_claim.
  split; rewrite Hway; [done|]. intros k Hk. by apply Hout.
Qed.

(** ** Trying one path *)

(** Nodes of the two trees agree but for the locks. *)
Lemma relock_eq L ns' : (forall k, ns' !! k = (fun n => with_treelock n (L k)) <$> f.(nodes) !! k) ->
  set_nodes ns' f = locked f L.
Proof. intros H. unfold locked. f_equal. apply map_eq. intros k. by rewrite H, relock_lookup. Qed.

Lemma to_write_locked L i nm wr wnode : to_write f i nm wr wnode -> to_write (locked f L) i nm wr wnode.
Proof.
  unfold to_write. destruct wr; [|done]. intros (s & -> & H). exists s. split; [done|]. intros k. by rewrite locked_named.
Qed.

Lemma mark_run L w k : asks f w -> (claim_of f w).(c_write) = Some k -> L k <> 0 ->
  try_one w (locked f L) = Ok ((- EAGAIN, (None, None), (None, None)), locked f (mark (claim_of f w) L)).
Proof.
  intros Hasks Hk Hl. destruct (asks_claim w Hasks) as (p & ps & r & n & _ & _ & _ & _ & _ & _ & _ & Hw & _ & Hmax & _).
  rewrite path_text_app, zlen_app in Hmax. pose proof Hw as Hw0. unfold to_write in Hw.
  destruct w.(write) eqn:Hwr; [|congruence]. destruct Hw as (s & Hs & Hw).
  pose proof (proj1 (Hw k) Hk) as Hnk. pose proof Hnk as (_ & x & _ & _ & Hx & _).
  unfold try_one. rewrite Hwr, Hs. erewrite pbind_run.
  2: { apply (try_get_path_busy (locked f L) w.(ino) s k (with_treelock x (L k))); try done.
       - apply locked_names.
       - rewrite Hs in Hmax. cbn [last_text length] in Hmax. lia.
       - by apply locked_named.
       - by apply locked_node. }
  cbn [treelock with_treelock]. unfold pret. do 2 f_equal. destruct (Z.ltb_spec 0 (L k)).
  - change (set_nodes ?x (locked f L)) with (set_nodes x f). apply relock_eq. intros j. unfold mark. rewrite Hk.
    destruct (decide (j = k)) as [->|Hne].
    + rewrite lookup_insert_eq, Hx, decide_True by done. cbn. by rewrite (proj2 (Z.ltb_lt _ _)).
    + rewrite lookup_insert_ne, decide_False by congruence. cbn [nodes locked set_nodes]. by rewrite relock_lookup.
  - apply locked_ext. intros j. unfold mark. destruct (decide _) as [Hj|]; [|done].
    assert (j = k) as -> by congruence. by rewrite (proj2 (Z.ltb_ge _ _)).
Qed.

(** The first node on the way that fails a test. *)
Lemma first_bad {A} (P : A -> bool) l : existsb P l = true ->
  exists l1 x l2, l = l1 ++ x :: l2 /\ P x = true /\ forall y, y ∈ l1 -> P y = false.
Proof.
  induction l as [|a l IH]; [done|]. cbn. destruct (P a) eqn:Ha.
  - intros _. exists [], a, l. split_and!; try done. by intros y ?%elem_of_nil.
  - intros (l1 & x & l2 & -> & Hx & H)%IH. exists (a :: l1), x, l2. split_and!; try done.
    by intros y [->|Hy]%elem_of_cons; [|apply H].
Qed.

Lemma climbs_split ns p ps1 k s ps2 r : climbs ns p (ps1 ++ (k, s) :: ps2) r ->
  climbs ns p ps1 k /\ exists m q, ns !! k = Some m /\ m.(nodeid) <> FUSE_ROOT_ID /\ m.(name) = Some s /\ m.(parent) = Some q.
Proof.
  revert p. induction ps1 as [|[j t] ps1 IH]; intros p H; inversion H; subst.
  - split; [constructor|]. by eexists _, _.
  - edestruct IH as [Hc Hk]; [done|]. split; [by eapply climb_up | done].
Qed.

Lemma path_text_prefix ps1 k s ps2 text :
  zlen s + zlen (path_text ps1 text) + 1 <= zlen (path_text (ps1 ++ (k, s) :: ps2) text).
Proof.
  assert (path_text (ps1 ++ (k, s) :: ps2) text = path_text ps2 (SLASH :: s ++ path_text ps1 text)) as ->
    by (unfold path_text; by rewrite foldl_app).
  rewrite (path_text_app ps2), zlen_app. change (SLASH :: ?x) with ([SLASH] ++ x). rewrite !zlen_app. cbn [length]. lia.
Qed.


Section one.
Context (L : Z -> Z) (w : wanted) (Hlow : forall k, L k < INT_MAX).
Let c := claim_of f w.

Lemma locked_way p ps k (Hnum : numbered f w.(ino) p) (Hc : climbs f.(nodes) p ps k) (Hout : k ∉ ps.*1)
    (Hlk : forall j, j ∈ ps.*1 -> 0 <= L j) (Hfree : write_busy c L = false)
    (Hw : forall j, c.(c_write) = Some j -> (j ∉ ps.*1) /\ j <> k /\ exists n, f.(nodes) !! j = Some n) :
  way (locked f L) w.(ino) p ps k c.(c_write).
Proof.
  split; [by apply locked_ids | by apply locked_numbered | by apply locked_climbs | done | |].
  - intros j n Hj Hn. cbn [nodes locked set_nodes] in Hn. rewrite relock_lookup in Hn.
    destruct (f.(nodes) !! j); [|done]. injection Hn as <-. cbn. by split; [apply Hlk|].
  - intros j Hj. destruct (Hw j Hj) as (? & ? & n & Hn). split_and!; [done..|].
    exists (with_treelock n (L j)). split; [by apply locked_node|]. cbn. by apply (proj1 (write_free c L) Hfree).
Qed.

Lemma to_write_there k : to_write f w.(ino) w.(last) w.(write) c.(c_write) -> c.(c_write) = Some k ->
  exists n, f.(nodes) !! k = Some n.
Proof.
  unfold to_write. destruct w.(write); [|congruence]. intros (s & _ & H) Hk.
  destruct (proj1 (H k) Hk) as (_ & n & _ & _ & Hn & _). by exists n.
Qed.

Lemma try_one_climb (Hasks : asks f w) (Hfree : write_busy c L = false) : exists b, holds_path b (last_text w.(last)) /\
  try_one w (locked f L) = (let? (e, p, n) := climb w.(ino) c.(c_write) b true in pret (e, (p, n), (None, None)))
    (set_nodes (write_locked c.(c_write) (locked f L).(nodes)) (locked f L)).
Proof.
  destruct (asks_claim w Hasks) as (p & ps & r & n & _ & _ & _ & _ & _ & _ & _ & Hw & _ & Hmax & _).
  rewrite path_text_app, zlen_app in Hmax.
  destruct (try_get_path_start (locked f L) w.(ino) w.(last) w.(write) c.(c_write)) as (b & Hb & Hrun);
    [apply locked_names | done | lia | by apply to_write_locked | |].
  - intros k m Hk Hm. cbn [nodes locked set_nodes] in Hm. rewrite relock_lookup in Hm.
    destruct (f.(nodes) !! k); [|done]. injection Hm as <-. cbn. by apply (proj1 (write_free c L) Hfree).
  - exists b. split; [done|]. unfold try_one, pbind at 1. by rewrite Hrun.
Qed.

Lemma way_blocked_run : asks f w -> write_busy c L = false -> way_busy c L = true ->
  try_one w (locked f L) = Ok ((- EAGAIN, (None, None), (None, None)), locked f L).
Proof.
  intros Hasks Hfree Hbusy. destruct (asks_claim w Hasks) as
    (p & ps & r & n & Hnum & Hc & Hn & Hroot & Hr & Hnd & Hway & Hw & Hout & Hmax & Hnul).
  fold c in Hway, Hw, Hout. destruct (try_one_climb Hasks Hfree) as (b & Hb & ->).
  unfold way_busy in Hbusy. rewrite Hway in Hbusy. destruct (first_bad _ _ Hbusy) as (l1 & k & l2 & Hl & Hk & Hpre).
  apply Z.ltb_lt in Hk. apply fmap_app_inv in Hl as (ps1 & psk & -> & Hps & ->).
  destruct psk as [|[j s] ps2]; [done|]. injection Hps as -> ->.
  destruct (climbs_split _ _ _ _ _ _ _ Hc) as (Hc1 & m & q & Hm & Hmid & Hms & Hmq).
  rewrite fmap_app in Hout, Hnd. apply NoDup_app in Hnd as (_ & Hnd & _). cbn in Hout.
  assert (way (locked f L) w.(ino) p ps1 j c.(c_write)) as Hwayj.
  { apply locked_way; try done.
    - intros Hj. apply (Hnd j Hj). by left.
    - intros i Hi. specialize (Hpre i Hi). by apply Z.ltb_ge in Hpre.
    - intros i Hi. destruct (Hout i Hi) as [[Hi1 Hi2]%not_elem_of_app _]. split_and!; [done | |].
      + intros ->. apply Hi2. by left.
      + by apply to_write_there. }
  pose proof (path_text_prefix ps1 j s ps2 (last_text w.(last))) as Hpl.
  destruct (climb_blocked (locked f L) w.(ino) p ps1 j c.(c_write) b (last_text w.(last)) (with_treelock m (L j)))
    as [_ Hblocked]; try done; [lia | by apply locked_node|].
  specialize (Hblocked s Hms (ex_intro _ q Hmq) Hk ltac:(lia)). by prun Hblocked.
Qed.

(** What is read of the path that was got. *)
Definition path_of (m : list cell) : Prop := forall p ps r n, numbered f w.(ino) p -> climbs f.(nodes) p ps r ->
  f.(nodes) !! r = Some n -> n.(nodeid) = FUSE_ROOT_ID -> c_string m = Ok (shown (path_text ps (last_text w.(last)))).

Lemma way_taken_run : asks f w -> write_busy c L = false -> way_busy c L = false ->
  exists m, try_one w (locked f L) = Ok ((0, (Some m, c.(c_write)), (None, None)), locked f (take c L)) /\ path_of m.
Proof.
  intros Hasks Hfree Hbusy. destruct (asks_claim w Hasks) as
    (p & ps & r & n & Hnum & Hc & Hn & Hroot & Hr & Hnd & Hway & Hw & Hout & Hmax & Hnul).
  fold c in Hway, Hw, Hout. destruct (try_one_climb Hasks Hfree) as (b & Hb & ->).
  assert (way (locked f L) w.(ino) p ps r c.(c_write)) as Hwayr.
  { apply locked_way; try done.
    - rewrite <- Hway. by apply way_free.
    - intros i Hi. destruct (Hout i Hi) as [Hi1 Hi2]. split_and!; [done.. | by apply to_write_there]. }
  destruct (climb_to_root (locked f L) w.(ino) p ps r c.(c_write) b (last_text w.(last)) (with_treelock n (L r)))
    as (m & Hrun & Hread); try done; [by apply locked_node|].
  exists m. split; cycle 1.
  { intros p' ps' r' n' Hnum' Hc' Hn' Hroot'. assert (p' = p) as -> by (by apply (proj2 Hids w.(ino))).
    by destruct (climbs_root_det _ _ _ _ _ _ _ _ Hc Hc' Hn Hroot Hn' Hroot') as [-> ->]. }
  prun Hrun. unfold pret. do 2 f_equal.
  assert (with_way c.(c_write) ps (locked f L) = set_nodes (with_way c.(c_write) ps (locked f L)).(nodes) f) as -> by done.
  apply relock_eq. intros k. unfold with_way. cbn [nodes set_nodes]. rewrite change_all_lookup by done.
  unfold take. rewrite Hway. destruct (decide (c.(c_write) = Some k)) as [Hk|Hk].
  - destruct (Hout k Hk) as [Hk1 _]. rewrite decide_False by done. rewrite Hk. cbn [write_locked].
    rewrite lookup_alter_eq. cbn [nodes locked set_nodes]. rewrite relock_lookup. by destruct (f.(nodes) !! k).
  - assert (write_locked c.(c_write) (locked f L).(nodes) !! k = (fun n => with_treelock n (L k)) <$> f.(nodes) !! k) as ->.
    { destruct c.(c_write) as [j|]; cbn [write_locked nodes locked set_nodes]; [rewrite lookup_alter_ne by congruence|];
        by rewrite relock_lookup. }
    destruct (decide (k ∈ ps.*1)); [|done]. by destruct (f.(nodes) !! k).
Qed.

(** Trying a path is taking its claim. *)
Lemma try_one_run ok L' : asks f w -> try_take c L = (ok, L') -> exists g,
  try_one w (locked f L) = Ok ((if ok then 0 else - EAGAIN, g, (None, None)), locked f L') /\
  (ok = true -> g.2 = c.(c_write)).
Proof.
  intros Hasks. unfold try_take. destruct (write_busy c L) eqn:Hfree.
  - intros [= <- <-]. unfold write_busy in Hfree. destruct c.(c_write) as [k|] eqn:Hk; [|done].
    apply negb_true_iff, Z.eqb_neq in Hfree. exists (None, None). split; [|done]. by apply (mark_run L w k).
  - destruct (way_busy c L) eqn:Hbusy; intros [= <- <-].
    + exists (None, None). split; [by apply way_blocked_run | done].
    + destruct (way_taken_run Hasks Hfree Hbusy) as (m & Hrun & _). by exists (Some m, c.(c_write)).
Qed.

(** The same of the function itself. *)
Lemma try_path_run ok L' : asks f w -> try_take c L = (ok, L') -> exists p n,
  try_get_path w.(ino) w.(last) w.(write) true (locked f L) = Ok ((if ok then 0 else - EAGAIN, p, n), locked f L') /\
  (ok = true -> n = c.(c_write)).
Proof.
  intros Hasks Htake. destruct (try_one_run ok L' Hasks Htake) as (g & Hrun & Hg). unfold try_one, pbind in Hrun.
  destruct (try_get_path _ _ _ true (locked f L)) as [[[[e p] n] f']|]; [|done].
  cbn in Hrun. injection Hrun as -> <- ->. by exists p, n.
Qed.

End one.


(** ** Giving a path back *)

Lemma give_write_run L w hs : asks f w -> counted (claim_of f w :: hs) L -> few (claim_of f w :: hs) ->
  match (claim_of f w).(c_write) with
  | None => pret tt
  | Some k =>
      n <-- load_node k ;;
      plift (guard_c (n.(treelock) =? TREELOCK_WRITE) AssertFailed) ;;;
      store_node k (with_treelock n 0)
  end (locked f L) = Ok (tt, locked f (give (mk_claim [] (claim_of f w).(c_write)) L)).
Proof.
  intros Hasks Hcnt Hfew. pose proof (asks_fair w Hasks) as Hfair.
  destruct (asks_claim w Hasks) as (p & ps & r & n & _ & _ & _ & _ & _ & _ & _ & Hw & _).
  destruct (claim_of f w).(c_write) as [k|] eqn:Hk; [|by apply (f_equal (fun x => Ok (tt, x))), locked_ext].
  rewrite <- Hk in Hw. destruct (to_write_there w k Hw Hk) as (m & Hm).
  prun (load_node_run (locked f L) k _ (locked_node L k m Hm)).
  destruct (held_locks _ _ _ k Hcnt Hfair Hfew) as [Hl _]. cbn [treelock with_treelock]. rewrite (Hl Hk).
  prun_lift (eq_refl : guard_c true AssertFailed = Ok tt).
  rewrite (store_node_run (locked f L) k _ _ (locked_node L k m Hm)).
  change (set_nodes ?x (locked f L)) with (set_nodes x f). do 2 f_equal. apply relock_eq. intros j.
  unfold give. cbn [c_write c_way]. destruct (decide (j = k)) as [->|Hne].
  - by rewrite lookup_insert_eq, Hm, decide_True.
  - rewrite lookup_insert_ne, decide_False by congruence. rewrite decide_False by apply not_elem_of_nil.
    cbn [nodes locked set_nodes]. by rewrite relock_lookup.
Qed.

Lemma give_run L w hs : asks f w -> counted (claim_of f w :: hs) L -> few (claim_of f w :: hs) ->
  unlock_path w.(ino) (claim_of f w).(c_write) None (locked f L) = Ok (tt, locked f (give (claim_of f w) L)).
Proof.
  intros Hasks Hcnt Hfew. pose proof (asks_fair w Hasks) as Hfair. unfold unlock_path.
  prun (give_write_run L w hs Hasks Hcnt Hfew).
  destruct (asks_claim w Hasks) as
    (p & ps & r & n & Hnum & Hc & Hn & Hroot & Hr & Hnd & Hway & Hw & Hout & Hmax & Hnul).
  pose proof (climbs_length _ _ _ _ Hc Hr) as Hlen. set (c := claim_of f w) in *. set (L1 := give _ L).
  prun (get_node_run (locked f L1) w.(ino) p (locked_ids L1) (proj2 (locked_numbered L1 _ _) Hnum)).
  prun_get. cbn [nodes locked set_nodes]. rewrite relock_size. fold (locked f L1).
  replace (base.size f.(nodes) + 2)%nat with (length ps + S (base.size f.(nodes) + 1 - length ps))%nat by lia.
  assert (forall k, k ∈ ps.*1 -> L1 k = L k) as HL1.
  { intros k Hk. unfold L1, give. cbn [c_write c_way]. rewrite !decide_False; [done | apply not_elem_of_nil |].
    intros Hj. by destruct (Hout k Hj). }
  rewrite (unlock_loop_run ps p (locked f L1) _ r None); [| by apply locked_climbs | done | done |].
  - cbn [unlock_loop]. rewrite bool_decide_eq_false_2 by done.
    prun_lift (eq_refl : lift_fault NullDeref (Some r) = Ok r). set (f2 := set_nodes _ (locked f L1)).
    assert (f2.(nodes) !! r = Some (with_treelock n (L1 r))) as Hr2.
    { unfold f2. cbn [nodes set_nodes]. rewrite change_all_lookup, decide_False by done. by apply locked_node. }
    prun (load_node_run f2 r _ Hr2). cbn [nodeid with_treelock]. rewrite (proj2 (Z.eqb_eq _ _) Hroot).
    unfold pret, f2. change (set_nodes ?x (locked f L1)) with (set_nodes x f). do 2 f_equal. apply relock_eq. intros k.
    rewrite change_all_lookup by done. cbn [nodes locked set_nodes]. rewrite relock_lookup. unfold give. rewrite Hway.
    destruct (decide (k ∈ ps.*1)) as [Hk|Hk].
    + rewrite decide_False by (intros Hj; by destruct (Hout k Hj)). rewrite HL1 by done. by destruct (f.(nodes) !! k).
    + unfold L1, give. cbn [c_write c_way]. rewrite (decide_False (P := k ∈ [])) by apply not_elem_of_nil. done.
  - intros k m Hk Hm. cbn [nodes locked set_nodes] in Hm. rewrite relock_lookup in Hm.
    destruct (f.(nodes) !! k); [|done]. injection Hm as <-. cbn [treelock with_treelock]. rewrite HL1 by done.
    apply (held_locks c hs L k Hcnt Hfair Hfew). by rewrite Hway.
Qed.

(** ** One path or two *)

Definition asks_all (w : wanted) (w2 : option wanted) : Prop := asks f w /\ forall w', w2 = Some w' -> asks f w'.

Definition claims (w : wanted) (w2 : option wanted) : list claim := all_claims (claim_of f w) (claim_of f <$> w2).

Lemma asks_all_fair w w2 : asks_all w w2 -> all_fair (claim_of f w) (claim_of f <$> w2).
Proof.
  intros [H1 H2]. unfold all_fair. destruct w2 as [w'|]; cbn [fmap option_fmap option_map all_claims].
  - repeat apply Forall_cons_2; [by apply asks_fair, H2 | by apply asks_fair | done].
  - by apply Forall_singleton, asks_fair.
Qed.

(** The nodes that were locked for writing. *)
Definition right_nodes (w : wanted) (w2 : option wanted) (n1 n2 : option Z) : Prop :=
  n1 = (claim_of f w).(c_write) /\ forall w', w2 = Some w' -> n2 = (claim_of f w').(c_write).

Lemma try_wanted_run L w w2 hs ok L' : asks_all w w2 -> counted hs L -> few (claims w w2 ++ hs) ->
  try_claims (claim_of f w) (claim_of f <$> w2) L = (ok, L') ->
  exists g1 g2, try_wanted w w2 (locked f L) = Ok ((if ok then 0 else - EAGAIN, g1, g2), locked f L') /\
    (ok = true -> right_nodes w w2 g1.2 g2.2).
Proof.
  intros Hall Hcnt Hfew Htry. pose proof (asks_all_fair w w2 Hall) as Hfair. destruct Hall as [H1 H2].
  assert (few hs) as Hf0 by (unfold few in *; rewrite zlen_app in Hfew; lia).
  assert (forall k, L k < INT_MAX) as Hb by (intros k; by apply (counted_range hs)).
  destruct w2 as [w'|]; cbn [fmap option_fmap option_map] in *; unfold try_wanted; cbn [try_claims all_claims] in Htry.
  - specialize (H2 w' eq_refl). apply Forall_cons in Hfair as [Hf2 [Hf1 _]%Forall_cons].
    unfold claims in Hfew. cbn [fmap option_fmap option_map all_claims app] in Hfew.
    unfold try_two, try_get_path2. unfold try_take2 in Htry.
    destruct (try_take (claim_of f w) L) as [ok1 L1] eqn:Ht1.
    destruct (try_path_run L w Hb ok1 L1 H1 Ht1) as (p1 & n1 & Hrun1 & Hg1).
    rewrite (pbind_run _ _ _ _ _ Hrun1).
    destruct ok1; cycle 1.
    { injection Htry as <- <-. exists (p1, n1), (None, None). by split. }
    change (negb (0 =? 0)) with false. cbv iota.
    pose proof (try_take_counted _ hs L true L1 Hcnt Hf1 Hf0 Ht1) as Hc1. cbn in Hc1.
    assert (few (claim_of f w :: hs)) as Hfew1 by (by apply few_cons in Hfew).
    assert (forall k, L1 k < INT_MAX) as Hb1 by (intros k; by apply (counted_range (claim_of f w :: hs))).
    destruct (try_take (claim_of f w') L1) as [ok2 L2] eqn:Ht2.
    destruct (try_path_run L1 w' Hb1 ok2 L2 H2 Ht2) as (p2 & n2 & Hrun2 & Hg2).
    rewrite (pbind_run _ _ _ _ _ Hrun2).
    destruct ok2; injection Htry as <- <-.
    + exists (p1, n1), (p2, n2). split; [done|]. intros _. split; [by apply Hg1|]. intros ? [= <-]. by apply Hg2.
    + pose proof (try_take_counted _ _ L1 false L2 Hc1 Hf2 Hfew1 Ht2) as Hc2. cbn in Hc2.
      change (negb (- EAGAIN =? 0)) with true. cbv iota. rewrite (Hg1 eq_refl).
      prun (give_run L2 w hs H1 Hc2 Hfew1). by eexists _, _.
  - apply Forall_cons in Hfair as [Hf1 _].
    destruct (try_one_run L w Hb ok L' H1 Htry) as (g1 & Hrun1 & Hg1). exists g1, (None, None). split; [done|].
    intros ->. by split; [apply Hg1|].
Qed.


(** ** The queue *)

(** The claims of an element that has its locks. *)
Definition element_claims (qe : lock_queue_element) : list claim :=
  match qe.(path1) with
  | Some w => if qe.(done) then claims w qe.(second) else []
  | None => []
  end.

Definition queue_claims (q : list (Z * lock_queue_element)) : list claim :=
  q ≫= fun x => element_claims x.2.

(** Who has the locks holds them without an error and has been signalled. *)
Definition element_ok (sig : list Z) (x : Z * lock_queue_element) : Prop :=
  exists w, x.2.(path1) = Some w /\ asks_all w x.2.(second) /\
    (x.2.(done) = true -> x.2.(err) = 0 /\ right_nodes w x.2.(second) x.2.(got1).2 x.2.(got2).2 /\ x.1 ∈ sig).

(** Who has no locks could not take them now. *)
Definition blocked (L : Z -> Z) (qe : lock_queue_element) : Prop := qe.(done) = false ->
  forall w, qe.(path1) = Some w -> (try_claims (claim_of f w) (claim_of f <$> qe.(second)) L).1 = false.

(** Whose element it is and what it waits for. *)
Definition asked (x : Z * lock_queue_element) : Z * option wanted * option wanted := (x.1, x.2.(path1), x.2.(second)).

Lemma asked_ids q q' : asked <$> q' = asked <$> q -> q'.*1 = q.*1.
Proof.
  intros He. apply (f_equal (fmap (fun y => y.1.1))) in He. rewrite <- !list_fmap_compose in He. exact He.
Qed.

Lemma element_ok_more sig sig' x : sig ⊆ sig' -> element_ok sig x -> element_ok sig' x.
Proof. intros Hs (w & Hw & Hall & Hd). exists w. split_and!; [done..|]. intros (He & Hr & Hin)%Hd. split_and!; auto. Qed.

Lemma blocked_more L L' qe : more L L' -> blocked L qe -> blocked L' qe.
Proof. intros Hm Hb Hd w Hw. apply (claims_busy_more _ _ L); [done | by apply Hb]. Qed.

Lemma claims_length w w2 : zlen (claims w w2) <= 2.
Proof. unfold claims. destruct w2; cbn; lia. Qed.

Lemma element_claims_length qe : zlen (element_claims qe) <= 2.
Proof. unfold element_claims. destruct qe.(path1) as [w|]; [|done]. destruct qe.(done); [apply claims_length | done]. Qed.

Lemma queue_claims_length q : zlen (queue_claims q) <= 2 * zlen q.
Proof.
  induction q as [|[t qe] q IH]; [done|]. unfold queue_claims in *. cbn [mbind list_bind length]. rewrite zlen_app.
  pose proof (element_claims_length qe). cbn [snd]. lia.
Qed.

#[global] Instance queue_claims_perm : Proper ((≡ₚ) ==> (≡ₚ)) queue_claims.
Proof. intros q q' Hq. unfold queue_claims. by rewrite Hq. Qed.

Lemma queue_claims_cons t qe q : queue_claims ((t, qe) :: q) = element_claims qe ++ queue_claims q.
Proof. done. Qed.

Lemma wakeup_run t qe L sig q hs : element_ok sig (t, qe) -> counted (element_claims qe ++ hs) L -> zlen hs + 2 < INT_MAX ->
  exists qe' L' sig', queue_element_wakeup t qe (mk_locker (locked f L) q sig) = Ok (qe', mk_locker (locked f L') q sig') /\
    element_ok sig' (t, qe') /\ sig ⊆ sig' /\ counted (element_claims qe' ++ hs) L' /\ more L L' /\ blocked L' qe' /\
    asked (t, qe') = asked (t, qe).
Proof.
  intros Hok Hcnt Hfew. pose proof Hok as (w & Hw & Hall & Hd). cbn [snd fst] in *. unfold queue_element_wakeup. rewrite Hw.
  destruct qe.(done) eqn:Hdone.
  { exists qe, L, sig. split_and!; [done.. | | done]. intros ?. congruence. }
  assert (element_claims qe = []) as Hec by (unfold element_claims; by rewrite Hw, Hdone). rewrite Hec in Hcnt. cbn [app] in Hcnt.
  assert (few (claims w qe.(second) ++ hs)) as Hf.
  { unfold few. rewrite zlen_app. pose proof (claims_length w qe.(second)). lia. }
  assert (few hs) as Hf0 by (unfold few; lia).
  destruct (try_claims (claim_of f w) (claim_of f <$> qe.(second)) L) as [ok L'] eqn:Htry.
  destruct (try_wanted_run L w qe.(second) hs ok L' Hall Hcnt Hf Htry) as (g1 & g2 & Hrun & Hright).
  pose proof (try_claims_more _ _ hs L ok L' Hcnt Hf0 Htry) as Hmore.
  pose proof (try_claims_counted _ _ hs L ok L' Hcnt (asks_all_fair _ _ Hall) Hf Htry) as Hcnt'.
  assert (on_nodes (try_wanted w qe.(second)) (mk_locker (locked f L) q sig) =
    Ok ((if ok then 0 else - EAGAIN, g1, g2), mk_locker (locked f L') q sig)) as Hon
    by (unfold on_nodes; cbn [lf lockq signals]; by rewrite Hrun).
  rewrite (pbind_run _ _ _ _ _ Hon). destruct ok; cbv iota.
  - exists (with_result qe 0 true g1 g2), L', (t :: sig). split_and!; try done.
    + exists w. cbn [snd with_result path1 second done err got1 got2 fst]. split_and!; [done..|]. intros _. split_and!; [done | by apply Hright | by left].
    + by right.
    + unfold element_claims. cbn [with_result path1 second done]. rewrite Hw. done.
  - exists qe, L', sig. split_and!; try done; [by rewrite Hec|]. intros _ w' Hw'. assert (w' = w) as -> by congruence.
    apply (claims_busy_more _ _ L); [done | by rewrite Htry].
Qed.

Lemma wake_loop_run q : forall L sig q0 hs, Forall (element_ok sig) q -> counted (queue_claims q ++ hs) L ->
  zlen hs + 2 * zlen q < INT_MAX ->
  exists q' L' sig', wake_loop q (mk_locker (locked f L) q0 sig) = Ok (q', mk_locker (locked f L') q0 sig') /\
    asked <$> q' = asked <$> q /\ Forall (element_ok sig') q' /\ sig ⊆ sig' /\ counted (queue_claims q' ++ hs) L' /\ more L L' /\
    Forall (fun x => blocked L' x.2) q'.
Proof.
  induction q as [|[t qe] q IH]; intros L sig q0 hs Hok Hcnt Hfew.
  - exists [], L, sig. by split_and!.
  - apply Forall_cons in Hok as [Hok1 Hok]. rewrite queue_claims_cons, <- app_assoc in Hcnt. cbn [length] in Hfew.
    pose proof (queue_claims_length q) as Hql.
    destruct (wakeup_run t qe L sig q0 (queue_claims q ++ hs) Hok1 Hcnt) as (qe' & L1 & sig1 & Hrun & Hok1' & Hsig & Hcnt1 & Hm1 & Hbl1 & Hask);
      [rewrite zlen_app; lia|].
    rewrite (assoc_L (++)), (comm (++) (element_claims qe')), <- (assoc_L (++)) in Hcnt1.
    destruct (IH L1 sig1 q0 (element_claims qe' ++ hs)) as (q' & L2 & sig2 & Hloop & Hqids & Hok' & Hsig2 & Hcnt2 & Hm2 & Hbl2); [|done| |].
    { eapply Forall_impl; [exact Hok|]. intros x. by apply element_ok_more. }
    { rewrite zlen_app. pose proof (element_claims_length qe'). lia. }
    exists ((t, qe') :: q'), L2, sig2. cbn [wake_loop]. prun Hrun. prun Hloop. split_and!; [done | by rewrite !fmap_cons, Hqids, Hask | | set_solver | | by transitivity L1 |].
    + apply Forall_cons. split; [by apply (element_ok_more sig1) | done].
    + by rewrite queue_claims_cons, (comm (++) (element_claims qe')), <- app_assoc.
    + apply Forall_cons. split; [by apply (blocked_more L1) | done].
Qed.

Lemma wake_up_run L q sig hs : Forall (element_ok sig) q -> counted (queue_claims q ++ hs) L -> zlen hs + 2 * zlen q < INT_MAX ->
  exists q' L' sig', wake_up_queued (mk_locker (locked f L) q sig) = Ok (tt, mk_locker (locked f L') q' sig') /\
    asked <$> q' = asked <$> q /\ Forall (element_ok sig') q' /\ counted (queue_claims q' ++ hs) L' /\ Forall (fun x => blocked L' x.2) q'.
Proof.
  intros Hok Hcnt Hfew. destruct (wake_loop_run q L sig q hs Hok Hcnt Hfew) as (q' & L' & sig' & Hrun & Hqids & Hok' & _ & Hcnt' & _ & Hbl).
  exists q', L', sig'. split; [|by split_and!]. unfold wake_up_queued. prun_get. cbn [lockq]. by prun Hrun.
Qed.


End tree.
End FuseQueueFacts.
