(* ===== verification/OperProps.v ===== *)
(** * Properties of the way through libfuse

    Copies between buffer vectors, reads and writes of the program's handlers
    through libfuse's buffers, the operations the program does not have, and the
    negotiation of capabilities. *)
From S2P Require Import Prelude CLib Buffer Json TgFile TgStorage TgApi Telegram FuseTypes Hello.
From S2P Require Import HelloFacts FuseBuf FuseBufFacts FuseFs HelloOper MemFs Refine Toy.
Import TgStorage TgApi Telegram FuseTypes Hello HelloFacts FuseBuf FuseBufFacts FuseFs HelloOper.
Import Toy Samples.

Module OperProps.

(** ** Buffers *)

Section buffers.
Context {os : Type} `{Syscalls os}.

(** C33: copying between two vectors of plain memory, however each is cut into pieces,
when every piece of the destination is a block of its own and none of its blocks is one
of the source's, moves as many bytes as both have left, from where the source stands to
where the destination stands in the concatenation of its pieces; nothing else in memory
changes. For vectors that stand inside their pieces and have less than 2^63 bytes in
all, whatever the flags are. *)
Theorem copy_moves_flat h (o : os) dstv srcv flg :
  vec_wf h dstv -> vec_wf h srcv -> separate dstv.(buf) srcv.(buf) ->
  let n := (zlen (flat h dstv.(buf)) - position h dstv) `min`
         (zlen (flat h srcv.(buf)) - position h srcv) in
  exists h' d' s', fuse_buf_copy false dstv srcv flg (mk_bstate h o) =
    Ok ((n, d', s'), mk_bstate h' o) /\
  flat h' dstv.(buf) = splice (flat h dstv.(buf)) (position h dstv)
    (ztake n (zdrop (position h srcv) (flat h srcv.(buf)))) /\
  (forall k, k ∉ blk <$> dstv.(buf) -> h' !! k = h !! k).
Proof.
  intros Hd Hs Hsep n. pose proof (position_range h dstv Hd). pose proof (position_range h srcv Hs).
  assert (zlen (flat h srcv.(buf)) < 2 ^ 63) as Hmax by apply Hs.
  destruct (copy_loop_spec (S (length dstv.(buf) + length srcv.(buf))) h o dstv srcv flg 0 Hd Hs Hsep)
  as (h' & d' & s' & Hrun & Hflat & Hother & _).
  - destruct Hd as (? & _ & ? & _), Hs as (? & _ & ? & _). lia.
  - lia.
  - unfold to_copy. lia.
  - exists h', d', s'. unfold fuse_buf_copy. rewrite Hrun, Z.add_0_l. done.
Qed.

(** Writing memory to a descriptor whose buffer asks for retries: on a
system that takes a part of what it is given, in order, everything is
written, in as many calls as it takes. *)
Theorem write_retries (out : os -> list cell) h (o : os) dst d0 src si n :
  has_flag dst.(flags) FUSE_BUF_FD_SEEK = false ->
  has_flag dst.(flags) FUSE_BUF_FD_RETRY = true ->
  (forall o xs, xs <> [] -> exists k o', sys_write o dst.(fd) xs = (Ret k, o') /\
   0 < k <= zlen xs /\ out o' = out o ++ ztake k xs) ->
  buf_wf h src -> 0 <= d0 < 2 ^ 62 -> 0 <= si -> 0 <= n < 2 ^ 62 -> si + n <= src.(size) < 2 ^ 62 ->
  exists o', fuse_buf_write dst d0 src si n (mk_bstate h o) = Ok (n, mk_bstate h o') /\
  out o' = out o ++ ztake n (zdrop si (region h src)).
Proof.
  intros Hseek Hretry Hsys Hsrc Hd0 Hsi Hn Hin. unfold fuse_buf_write.
  assert (forall fuel len copied di i o, n < copied + Z.of_nat fuel -> copied + len = n -> 0 <= len ->
  0 <= copied -> di = d0 + copied -> i = si + copied ->
  exists o', write_loop dst di src i len copied fuel (mk_bstate h o) = Ok (n, mk_bstate h o') /\
    out o' = out o ++ ztake len (zdrop i (region h src))) as Hloop.
  { intros fuel. induction fuel as [|fuel IH]; intros len copied di i o1 Hf Hl Hl0 Hc -> ->; [lia|].
  cbn [write_loop]. destruct (Z.eqb_spec len 0) as [->|Hne].
  - exists o1. rewrite ztake_0, app_nil_r. unfold pret. rewrite swrap_small by lia. split; [|done].
    do 3 f_equal. lia.
  - prun (mem_get_run h o1 src (si + copied) len Hsrc ltac:(lia) ltac:(lia) ltac:(lia)).
    set (xs := ztake len (zdrop (si + copied) (region h src))).
    assert (zlen xs = len) as Hxl.
    { unfold xs. rewrite zlen_ztake; [done|]. rewrite zlen_zdrop; rewrite (zlen_region h src Hsrc); lia. }
    rewrite Hseek. destruct (Hsys o1 xs) as (k & o2 & Hw & Hk & Hout).
    { intros Hx. rewrite Hx in Hxl. simpl in Hxl. lia. }
    assert (call (fun o => sys_write o (fd dst) xs) (mk_bstate h o1) = Ok (Ret k, mk_bstate h o2))
      as Hcall by (unfold call, pbind, pget; cbn [obind sys]; by rewrite Hw).
    prun Hcall. rewrite (proj2 (Z.eqb_neq _ _)) by lia. rewrite Hretry. cbn [negb].
    rewrite !u64_small by (unfold SIZE_MAX; lia).
    destruct (IH (len - k) (copied + k) (d0 + copied + k) (si + copied + k) o2) as (o3 & Hrun & Hout3);
      [lia..|].
    exists o3. split; [exact Hrun|]. rewrite Hout3, Hout, <- app_assoc. f_equal.
    unfold xs. rewrite ztake_ztake by lia. replace (k `min` len) with k by lia.
    rewrite <- (zdrop_zdrop k (si + copied)) by lia. unfold ztake, zdrop.
    transitivity (take (Z.to_nat k + Z.to_nat (len - k)) (drop (Z.to_nat (si + copied)) (region h src)));
      [apply take_take_drop | f_equal; lia]. }
  apply (Hloop (S (Z.to_nat n)) n 0 d0 si o); lia.
Qed.
End buffers.

(** ** The program behind libfuse *)

Section dispatch.
Context {os net D : Type} `{Syscalls os} `{CurlEnv net}.
#[local] Abbreviation St := (fstate os (world net)).
#[local] Abbreviation hfs := (hello_fs (os := os) (net := net) (D := D)).
Implicit Types (s : St).

(** C34: a write whose data come in several pieces of memory reaches the
program's handler as one block with their concatenation; the copy is freed
again. *)
Theorem write_pieces_as_one s p v off fi r w :
  vec_wf s.(bs).(heap) v -> v.(idx) = 0 -> v.(FuseBuf.off) = 0 -> 2 <= v.(count) ->
  let d := flat s.(bs).(heap) v.(FuseBuf.buf) in
  0 < zlen d <= INT_MAX -> hello_write p d (zlen d) off s.(app) = Ok (r, w) ->
  exists v' s', fuse_fs_write_buf hfs (Some p) v off fi s = Ok ((r, v', fi), s') /\
  s'.(app) = w /\ s'.(bs).(heap) = s.(bs).(heap).
Proof. intros Hv Hi Ho Hc d Hd Hw. by apply write_buf_run. Qed.

(** A read gives the program's handler a fresh block of the size asked
for and returns a vector with exactly the bytes the handler left there. *)
Theorem read_returns_block s p size off fi r m w :
  0 <= size <= INT_MAX -> hello_read p (uninit size) size off s.(app) = Ok ((r, m), w) ->
  0 <= r <= size -> zlen m = size ->
  exists v s', fuse_fs_read_buf hfs (Some p) None size off fi s = Ok ((0, Some v, fi), s') /\
  flat s'.(bs).(heap) v.(FuseBuf.buf) = ztake r m /\ fuse_buf_size v = r /\ s'.(app) = w.
Proof.
  intros Hs Hr Hn Hm. destruct (read_buf_run (D := D) s p size off fi r m w Hs Hr Hn Hm)
  as (v & s' & ? & ? & ? & ? & _). by exists v, s'.
Qed.

(** Init never ends the process, and what is wanted of the kernel
afterwards is what was wanted before, without asynchronous reads, without
splice reads and without the two kinds of locks; the old 32-bit field agrees
with the new one. *)
Theorem init_negotiates conn cfg s :
  0 <= conn.(want_ext) < 2 ^ 64 ->
  exists conn', fuse_fs_init hfs conn cfg s =
    Ok ((hfs, conn', with_kernel_cache cfg 1), entered s) /\
  (forall i, Z.testbit conn'.(want_ext) i = Z.testbit conn.(want_ext) i &&
     negb (Z.testbit (Z.lor (Z.lor FUSE_CAP_ASYNC_READ FUSE_CAP_SPLICE_READ)
                            (Z.lor FUSE_CAP_POSIX_LOCKS FUSE_CAP_FLOCK_LOCKS)) i)) /\
  conn'.(want) = fuse_lower_32_bits conn'.(want_ext).
Proof.
  intros Hw. unfold fuse_fs_init. cbn [hello_fs user_data op hello_oper op_write_buf op_lock op_flock
  op_init given]. prun (set_private_run s).
  set (c0 := fuse_unset_feature_flag _ FUSE_CAP_FLOCK_LOCKS). cbv zeta.
  set (c1 := with_want c0 (fuse_lower_32_bits c0.(want_ext))). unfold oper_init, hello_init. cbv zeta.
  destruct (set_flag_shape c1 FUSE_CAP_ASYNC_READ) as [w1 Hs1].
  pose proof (set_feature_flag_spec c1 FUSE_CAP_ASYNC_READ) as Hset.
  assert (0 <= c0.(want_ext) < 2 ^ 64) as Hr0 by (by repeat apply unset_flag_range).
  pose proof (set_flag_range c1 FUSE_CAP_ASYNC_READ Hr0 ltac:(done)) as Hr1.
  set (c2 := (fuse_set_feature_flag c1 FUSE_CAP_ASYNC_READ).2) in *.
  set (c3 := fuse_unset_feature_flag c2 FUSE_CAP_ASYNC_READ).
  assert (c3.(want) = fuse_lower_32_bits c0.(want_ext)) as Hwant by (unfold c3; rewrite Hs1; done).
  rewrite (pbind_run _ _ _ _ _ (eq_refl : pret (0, c3, with_kernel_cache cfg 1) (entered s) = Ok _)).
  unfold convert_to_conn_want_ext. rewrite Hwant, Z.eqb_refl. cbn [negb andb].
  change (0 =? 0) with true. cbn [negb].
  exists (with_want c3 (fuse_lower_32_bits c3.(want_ext))). split; [reflexivity|]. split; [|done].
  intros i. change (want_ext (with_want c3 _)) with (want_ext c3).
  unfold c3. rewrite unset_feature_flag_spec by done.
  assert (Z.testbit (want_ext c2) i = Z.testbit (want_ext c1) i ||
  ((fuse_set_feature_flag c1 FUSE_CAP_ASYNC_READ).1 && Z.testbit FUSE_CAP_ASYNC_READ i)) as ->
  by apply Hset.
  generalize ((fuse_set_feature_flag c1 FUSE_CAP_ASYNC_READ).1) as offered. intros offered. change (want_ext c1) with (want_ext c0).
  unfold c0. rewrite !unset_feature_flag_spec by (repeat apply unset_flag_range; done).
  rewrite !Z.lor_spec. destruct (Z.testbit FUSE_CAP_ASYNC_READ i), (Z.testbit FUSE_CAP_SPLICE_READ i),
  (Z.testbit FUSE_CAP_POSIX_LOCKS i), (Z.testbit FUSE_CAP_FLOCK_LOCKS i), (Z.testbit (want_ext conn) i);
  destruct offered; done.
Qed.
End dispatch.
(** ** Witnesses *)

(** A system that takes at most three bytes of a write and has no other calls. *)
#[local] Instance sink : Syscalls (list cell) := {|
  sys_write o _ xs := (Ret (zlen (take 3 xs)), o ++ take 3 xs);
  sys_pwrite o _ _ _ := (Err EIO, o);
  sys_read o _ _ := (Err EIO, o);
  sys_pread o _ _ _ := (Err EIO, o);
  sys_splice o _ _ _ _ _ _ := (Err EIO, o);
|}.

Definition sample_heap : gmap Z (list cell) :=
  {[ 1 := cells (lit "xhelx"); 2 := cells (lit "lo"); 3 := uninit 9 ]}.

Definition piece_at (k o n : Z) : fuse_buf := mk_buf n 0 (Some (k, o)) (-1) 0 0.

(** "hello" in two pieces, with an empty one between them. *)
Definition sample_src : fuse_bufvec :=
  mk_bufvec 3 0 0 [piece_at 1 1 3; piece_at 2 1 0; piece_at 2 0 2].
Definition sample_dst : fuse_bufvec := mk_bufvec 1 0 2 [piece_at 3 1 8].

Ltac concrete_buf :=
  split; [reflexivity|]; split; [by eexists|]; split; [vm_compute; discriminate|];
  split; [vm_compute; discriminate|]; eexists; split; [vm_compute; reflexivity | vm_compute; discriminate].

Lemma sample_src_wf : vec_wf sample_heap sample_src.
Proof.
  split; [reflexivity|]. split; [repeat (apply Forall_cons; split; [concrete_buf|]); exact (Forall_nil_2 _)|].
  split; [vm_compute; split; discriminate|]. split; [vm_compute; reflexivity|].
  split; [vm_compute; reflexivity|]. intros b [= <-]. vm_compute. split; discriminate.
Qed.

Lemma sample_dst_wf : vec_wf sample_heap sample_dst.
Proof.
  split; [reflexivity|]. split; [repeat (apply Forall_cons; split; [concrete_buf|]); exact (Forall_nil_2 _)|].
  split; [vm_compute; split; discriminate|]. split; [vm_compute; reflexivity|].
  split; [vm_compute; reflexivity|]. intros b [= <-]. vm_compute. split; discriminate.
Qed.

Lemma copy_moves_flat_witness :
  exists h' d' s', fuse_buf_copy false sample_dst sample_src 0 (mk_bstate sample_heap []) =
      Ok ((5, d', s'), mk_bstate h' []) /\
    flat h' sample_dst.(buf) = splice (uninit 8) 2 (cells (lit "hello")) /\
    (forall k, k ∉ [3] -> h' !! k = sample_heap !! k).
Proof.
  apply (copy_moves_flat sample_heap [] sample_dst sample_src 0).
  - exact sample_dst_wf.
  - exact sample_src_wf.
  - split; [apply (bool_decide_unpack _); vm_compute; exact I|].
    intros d s ->%list_elem_of_singleton Hs.
    assert (Forall (fun s => blk (piece_at 3 1 8) <> blk s) sample_src.(buf)) as Hall
      by (repeat (apply Forall_cons; split; [discriminate|]); apply Forall_nil_2).
    rewrite Forall_forall in Hall. by apply Hall.
Defined.

Definition out_fd : fuse_buf := mk_buf 100 (Z.lor FUSE_BUF_IS_FD FUSE_BUF_FD_RETRY) None 1 0 0.

Lemma write_retries_witness :
  exists o', fuse_buf_write out_fd 0 (piece_at 1 0 5) 0 5 (mk_bstate sample_heap []) =
      Ok (5, mk_bstate sample_heap o') /\ o' = cells (lit "xhelx").
Proof.
  apply (write_retries (fun o => o) sample_heap [] out_fd 0 (piece_at 1 0 5) 0 5).
  - reflexivity.
  - reflexivity.
  - intros o xs Hne. exists (zlen (take 3 xs)), (o ++ take 3 xs). split; [reflexivity|].
    destruct xs as [|x xs]; [done|]. rewrite length_take. split; [cbn [length]; lia|].
    f_equal. unfold ztake. rewrite Nat2Z.id.
    destruct (Nat.le_gt_cases 3 (length (x :: xs))).
    + by replace (3 `min` length (x :: xs))%nat with 3%nat by lia.
    + rewrite !take_ge by (cbn [length] in *; lia). done.
  - concrete_buf.
  - vm_compute. split; [discriminate | reflexivity].
  - vm_compute. discriminate.
  - vm_compute. split; [discriminate | reflexivity].
  - vm_compute. split; [discriminate | reflexivity].
Defined.

Definition sample_state : fstate (list cell) (world toy) :=
  mk_fstate (mk_bstate sample_heap []) 7 (toy_world demo_table).

Lemma demo_write_runs :
  exists r w, hello_write (lit "/d/a") (cells (lit "hello")) 5 0 (toy_world demo_table) = Ok (r, w).
Proof. vm_compute. eexists _, _. reflexivity. Qed.

Lemma write_pieces_as_one_witness :
  exists r v' s', fuse_fs_write_buf (hello_fs (D := unit)) (Some (lit "/d/a")) sample_src 0 None sample_state =
      Ok ((r, v', None), s') /\ s'.(bs).(heap) = sample_heap.
Proof.
  destruct demo_write_runs as (r & w & Hw). exists r.
  destruct (write_pieces_as_one (D := unit) sample_state (lit "/d/a") sample_src 0 None r w)
    as (v' & s' & H1 & _ & H3).
  - exact sample_src_wf.
  - reflexivity.
  - reflexivity.
  - vm_compute. discriminate.
  - vm_compute. split; [reflexivity | discriminate].
  - exact Hw.
  - exists v', s'. split; [exact H1 | exact H3].
Defined.

Lemma read_returns_block_witness :
  exists v s', fuse_fs_read_buf (hello_fs (D := unit)) (Some (lit "/d/a")) None 10 0 None sample_state =
      Ok ((0, Some v, None), s') /\ flat s'.(bs).(heap) v.(FuseBuf.buf) = [] /\
    fuse_buf_size v = 0 /\ s'.(app) = toy_world demo_table.
Proof.
  apply (read_returns_block (D := unit) sample_state (lit "/d/a") 10 0 None 0 (uninit 10)
    (toy_world demo_table)).
  - vm_compute. split; discriminate.
  - vm_compute. reflexivity.
  - lia.
  - reflexivity.
Defined.

Definition offered_conn : fuse_conn_info :=
  mk_conn_info 7 31 131072 0 131072 1 1 12 9 1 0 false 0x7fffffff 0xffff.

Definition plain_config : fuse_config :=
  let q := QArith_base.inject_Z in
  mk_fuse_config 0 0 0 0 0 0 (q 1) (q 0) (q 1) 0 10 0 0 0 0 0 0 0 0 (q 1) 0 0 0 0 0.

Lemma init_negotiates_witness :
  exists conn', fuse_fs_init (hello_fs (D := unit)) offered_conn plain_config sample_state =
      Ok ((hello_fs, conn', with_kernel_cache plain_config 1), entered sample_state) /\
    (forall i, Z.testbit conn'.(want_ext) i = Z.testbit 0xffff i &&
       negb (Z.testbit (Z.lor (Z.lor FUSE_CAP_ASYNC_READ FUSE_CAP_SPLICE_READ)
                              (Z.lor FUSE_CAP_POSIX_LOCKS FUSE_CAP_FLOCK_LOCKS)) i)) /\
    conn'.(want) = fuse_lower_32_bits conn'.(want_ext).
Proof.
  apply (init_negotiates (D := unit) offered_conn plain_config sample_state).
  vm_compute. split; [discriminate | reflexivity].
Defined.

End OperProps.
