(* ===== verification/LockProps.v ===== *)
(** Properties of the record locks libfuse keeps: C35 to C36. *)
From S2P Require Import Prelude.
From S2P Require Import FuseFs.
From S2P Require Import FuseLocks.
From S2P Require Import FuseLocksFacts.

Module LockProps.
Import FuseFs FuseLocks FuseLocksFacts.

(** C35: setting a record lock ends without a fault and sets exactly the
  positions of its range for its owner, to its type or to nothing when it
  unlocks; every other position and owner keeps its lock, and the list stays
  in order, disjoint and merged per owner. *)
Theorem locks_insert_sets ls lk :
  locks_wf ls -> lock_range lk -> type_ok lk ->
  exists r, locks_insert true true ls lk = Ok (0, r) /\ locks_wf r /\
    forall o p, lock_at r o p =
      if (o =? lk.(owner)) && covers lk p
      then (if lk.(type) =? F_UNLCK then None else Some lk.(type))
      else lock_at ls o p.
Proof.
  intros Hwf Hr Ht. destruct (locks_insert_run ls lk Hwf Hr Ht) as (r & Hrun & Hi).
  exists r. split; [done|]. split; [by eapply locks_wf_inserted | intros; by apply lock_at_inserted].
Qed.

(** C36: the search for a conflict finds a lock exactly when another owner holds
  a position of the range and one of the two locks is a write lock. *)
Theorem locks_conflict_exact ls lk :
  locks_wf ls -> lock_range lk ->
  is_Some (locks_conflict ls lk) <->
  exists o p t, o <> lk.(owner) /\ covers lk p = true /\ lock_at ls o p = Some t /\
    (t = F_WRLCK \/ lk.(type) = F_WRLCK).
Proof.
  intros Hwf [Hr _]. rewrite locks_conflict_find, fmap_is_Some. split.
  - intros [[i l] (Hl & Hc & _)%list_find_Some].
    apply Is_true_true, clash_spec in Hc as (Ho & H1 & H2 & Ht).
    apply list_elem_of_lookup_2 in Hl. destruct (locks_range ls l Hwf Hl) as [[? ?] _].
    exists l.(owner), (Z.max l.(start) lk.(start)), l.(type). split_and!; [done| | |done].
    + apply covers_spec. lia.
    + apply locks_lookup; [done..|]. apply covers_spec. lia.
  - intros (o & p & t & Ho & Hp%covers_spec & (l & Hl & <- & Hlp%covers_spec & <-)%lock_at_Some & Ht).
    apply (list_find_elem_of _ _ l Hl). apply Is_true_true, clash_spec. split_and!; [done | lia | lia | done].
Qed.

(** Giving up every lock, as a flush does, needs no memory and cannot fail;
  any other request fails with ENOLCK and changes nothing when memory is
  short. *)
Theorem locks_without_memory m1 m2 ls lk :
  locks_wf ls -> lock_range lk -> type_ok lk -> m1 && m2 = false ->
  (lk.(type) = F_UNLCK /\ lk.(start) = 0 /\ lk.(end_) = OFFSET_MAX ->
   exists r, locks_insert m1 m2 ls lk = Ok (0, r) /\ locks_wf r /\
     of_owner lk.(owner) r = [] /\ forall o, o <> lk.(owner) -> of_owner o r = of_owner o ls) /\
  (~ (lk.(type) = F_UNLCK /\ lk.(start) = 0 /\ lk.(end_) = OFFSET_MAX) ->
   locks_insert m1 m2 ls lk = Ok (- ENOLCK, ls)).
Proof.
  intros Hwf Hr Ht Hm. split.
  - intros (Hu & Hs & He). destruct (locks_insert_run ls lk Hwf Hr Ht) as (r & Hrun & Hi).
    exists r. pose proof (locks_wf_inserted _ _ _ Hwf Hi) as Hwr.
    pose proof (Hwr lk.(owner)) as Hc. destruct Hi as (_ & Hat & Hoth). split; [|split_and!; try done].
    + revert Hrun. unfold locks_insert. by rewrite Hu, Hs, He.
    + destruct (of_owner (owner lk) r) as [|l k] eqn:Hof; [done|]. destruct Hc as ([[? ?] _] & _).
      specialize (Hat l.(start)). rewrite lock_at_of_owner, Hof, Hu in Hat. cbn [lock_at] in Hat.
      assert (l ∈ of_owner (owner lk) r) as [Hol _]%list_elem_of_filter by (rewrite Hof; by left).
      rewrite (proj2 (Z.eqb_eq _ _) Hol), !(proj2 (covers_spec _ _)) in Hat by lia. done.
  - intros Hne. unfold locks_insert. rewrite Hm.
    destruct (Z.eqb_spec lk.(type) F_UNLCK), (Z.eqb_spec lk.(start) 0),
      (Z.eqb_spec lk.(end_) OFFSET_MAX); try done. by destruct Hne.
Qed.

(** A lock that the kernel asks for keeps its range through the two
  conversions without overflow, up to the last byte of a file, and is
  reported back as it came. *)
Theorem lock_wire_roundtrip fl fk :
  0 <= fl.(fl_start) <= fl.(fl_end) -> fl.(fl_end) <= OFFSET_MAX ->
  fl.(fl_type) = F_RDLCK \/ fl.(fl_type) = F_WRLCK -> 0 <= fl.(fl_pid) <= INT_MAX ->
  exists lk, flock_to_lock (convert_fuse_file_lock fl) =
      Ok (mk_lock fl.(fl_type) fl.(fl_start) fl.(fl_end) fl.(fl_pid) 0) /\
    lock_to_flock (mk_lock fl.(fl_type) fl.(fl_start) fl.(fl_end) fl.(fl_pid) 0) fk = Ok lk /\
    fuse_reply_lock_arg lk = Ok fl.
Proof.
  destruct fl as [s e t p]. cbn [fl_start fl_end fl_type fl_pid]. unfold INT_MAX, OFFSET_MAX.
  intros Hs He Ht Hp. unfold convert_fuse_file_lock. cbn [fl_start fl_end fl_type fl_pid].
  assert (swrap 16 t = t) as -> by (destruct Ht as [-> | ->]; done).
  assert (negb (t =? F_UNLCK) = true) as Hnu by (destruct Ht as [-> | ->]; done).
  assert (u32 t = t) as Htu by (destruct Ht as [-> | ->]; done).
  rewrite (swrap_small 64 s), (swrap_small 32 p) by lia.
  unfold flock_to_lock, lock_to_flock. cbn [l_len l_start l_type l_pid end_ start type pid].
  destruct (Z.eqb_spec e OFFSET_MAX) as [->|Hne].
  - cbn [negb obind Z.eqb]. eexists. split; [done|]. split; [done|].
    unfold fuse_reply_lock_arg. cbn [l_type l_len l_start l_pid]. rewrite Hnu. cbn [obind Z.eqb].
    by rewrite Htu, !uwrap_small by (unfold OFFSET_MAX; lia).
  - assert (e < OFFSET_MAX) by (unfold OFFSET_MAX in *; lia). unfold OFFSET_MAX in *.
    rewrite (uwrap_small 64 (e - s)), (uwrap_small 64 (e - s + 1)), swrap_small by lia.
    rewrite (proj2 (Z.eqb_neq (e - s + 1) 0)) by lia. cbn [negb].
    rewrite !off_t_Ok by (unfold OFFSET_MAX; lia). cbn [obind].
    rewrite !off_t_Ok by (unfold OFFSET_MAX; lia). cbn [obind].
    replace (s + (e - s + 1) - 1) with e by lia. eexists. split; [done|]. split; [done|].
    unfold fuse_reply_lock_arg. cbn [l_type l_len l_start l_pid]. rewrite Hnu.
    rewrite (proj2 (Z.eqb_neq (e - s + 1) 0)) by lia.
    rewrite !off_t_Ok by (unfold OFFSET_MAX; lia). cbn [obind].
    rewrite !off_t_Ok by (unfold OFFSET_MAX; lia). cbn [obind].
    rewrite Htu, !uwrap_small by lia. do 2 f_equal. lia.
Qed.

(** ** Witnesses *)

(** Two owners: the first writes from 0 to 9 and from 20 to 29, the second reads
    from 5 to 20. *)
Definition sample_locks : list lock :=
  [mk_lock F_WRLCK 0 9 100 1; mk_lock F_RDLCK 5 20 200 2; mk_lock F_WRLCK 20 29 100 1].

Lemma sample_locks_wf : locks_wf sample_locks.
Proof.
  intros o. unfold of_owner, sample_locks. rewrite !filter_cons, filter_nil. cbn [owner].
  destruct (decide (1 = o)), (decide (2 = o)); try (exfalso; lia);
    cbn; unfold lock_wf, lock_range, follows, OFFSET_MAX, F_RDLCK, F_WRLCK; cbn; repeat split; auto; lia.
Qed.

Ltac in_range := unfold lock_range, OFFSET_MAX, INT_MAX; cbn; lia.

Lemma locks_insert_sets_witness :
  exists r, locks_insert true true sample_locks (mk_lock F_RDLCK 5 24 100 1) = Ok (0, r) /\
    lock_at r 1 4 = Some F_WRLCK /\ lock_at r 1 5 = Some F_RDLCK /\ lock_at r 2 5 = Some F_RDLCK.
Proof.
  destruct (locks_insert_sets sample_locks (mk_lock F_RDLCK 5 24 100 1)) as (r & Hr & _ & Hat).
  - exact sample_locks_wf.
  - in_range.
  - by left.
  - exists r. split; [exact Hr|]. by rewrite !Hat.
Defined.

Lemma locks_conflict_exact_witness :
  is_Some (locks_conflict sample_locks (mk_lock F_WRLCK 10 12 300 3)).
Proof.
  apply (proj2 (locks_conflict_exact sample_locks (mk_lock F_WRLCK 10 12 300 3) sample_locks_wf
    ltac:(in_range))).
  exists 2, 10, F_RDLCK. split_and!; [discriminate | reflexivity | reflexivity | by right].
Defined.

Lemma locks_without_memory_witness :
  locks_insert false true sample_locks (mk_lock F_RDLCK 5 24 100 1) = Ok (- ENOLCK, sample_locks).
Proof.
  apply (locks_without_memory false true sample_locks (mk_lock F_RDLCK 5 24 100 1)).
  - exact sample_locks_wf.
  - in_range.
  - by left.
  - reflexivity.
  - intros [[=] _].
Defined.

Lemma lock_wire_roundtrip_witness :
  exists lk, flock_to_lock (convert_fuse_file_lock (mk_file_lock 10 OFFSET_MAX F_WRLCK 77)) =
      Ok (mk_lock F_WRLCK 10 OFFSET_MAX 77 0) /\
    lock_to_flock (mk_lock F_WRLCK 10 OFFSET_MAX 77 0) (mk_flock 0 0 0 0 0) = Ok lk /\
    fuse_reply_lock_arg lk = Ok (mk_file_lock 10 OFFSET_MAX F_WRLCK 77).
Proof.
  apply (lock_wire_roundtrip (mk_file_lock 10 OFFSET_MAX F_WRLCK 77) (mk_flock 0 0 0 0 0));
    [in_range | done | by right | in_range].
Defined.

End LockProps.
