(* ===== verification/OptProps.v ===== *)
(** Properties of the option parser: C40 to C40. *)
From S2P Require Import Prelude.
From S2P Require Import CLib.
From S2P Require Import FuseOpt.
From S2P Require Import FuseOptFacts.

Module OptProps.
Import FuseOpt FuseOptFacts.

(** The loop that takes an option group apart inside its working copy,
  with its escapes and octal codes, reads and writes only inside the copy,
  ends, and does what handling the options one after the other does, up to
  the first that fails. *)
Theorem option_group_runs tab proc args opts st :
  NUL ∉ opts -> st.(memory) = [] ->
  process_option_group tab proc args opts st =
    run_opts tab proc args (until_nul <$> split_opts [] opts) st.
Proof.
  intros Hn Hm. rewrite (process_group_run tab proc args opts st []) by auto.
  destruct st. by rewrite <- Hm.
Qed.

(** C40: options that were added to an option text with escapes, one after the
  other, are handled again exactly as they were added, whatever commas and
  backslashes they hold. *)
Theorem options_roundtrip tab proc args l st :
  l <> [] -> Forall (fun o => o <> [] /\ (NUL ∉ o)) l -> zlen (join l) < 2 ^ 32 ->
  st.(memory) = [] ->
  exists t, foldl (fun o opt => (fuse_opt_add_opt_escaped o opt []).1.2) None l = Some t /\
    process_option_group tab proc args t st = run_opts tab proc args l st.
Proof.
  intros Hl [Hne Hn]%Forall_and Hlen Hm. exists (join l).
  split; [by apply (collect_all_join l)|].
  rewrite (process_group_run tab proc args (join l) st []) by auto using join_no_NUL.
  rewrite split_join by done. destruct st. cbn [memory] in Hm. subst. f_equal.
  clear -Hn. induction Hn as [|o l Ho Hn IH]; [done|]. cbn [fmap list_fmap].
  by rewrite until_nul_id, IH.
Qed.

(** A template without separator matches its own text; one with "=" or a
  blank, alone or before a format, matches every argument that starts with
  the text up to the separator, "=" included and the blank not. *)
Theorem template_forms t n f arg :
  zlen n < INT_MAX -> zlen arg <= INT_MAX -> (f = [] \/ (exists r, f = PERCENT :: r)) ->
  ((EQUALS ∉ t) -> (BLANK ∉ t) ->
   match_template t arg = Ok (if streq t arg then Some 0 else None)) /\
  ((EQUALS ∉ n) ->
   match_template (n ++ EQUALS :: f) arg =
     Ok (if is_prefix (n ++ [EQUALS]) arg then Some (zlen n) else
         if streq (n ++ EQUALS :: f) arg then Some 0 else None)) /\
  ((EQUALS ∉ n ++ f) -> (BLANK ∉ n) ->
   match_template (n ++ BLANK :: f) arg =
     Ok (if is_prefix n arg then Some (zlen n) else
         if streq (n ++ BLANK :: f) arg then Some 0 else None)).
Proof.
  intros Hn Ha Hf. split_and!.
  - intros He Hb. unfold match_template. by rewrite !find_beq_None.
  - intros He. rewrite template_prefix by (done || by left).
    cbn zeta. change (beq EQUALS EQUALS) with true. cbn iota. by rewrite prefix_streq.
  - intros [He1 He2]%not_elem_of_app Hb. rewrite template_prefix by (done || by right).
    cbn zeta. change (beq BLANK EQUALS) with false. cbn iota. by rewrite prefix_streq.
Qed.

(** With a table that matches nothing, parsing keeps every argument in its
  order and puts all the options of all "-o" arguments in front of them, as
  one text; a last "-o" without its text is refused, and the arguments stay
  as they were. *)
Theorem parse_collects a0 v d alloc :
  Forall (fun a => (NUL ∉ a) /\ a <> lit "--") v ->
  fuse_opt_parse (Some (mk_args (Some (a0 :: v)) alloc)) d (Some [FUSE_OPT_END]) None [] =
    Ok (match arrange v with
        | Some (p, os) => (0, Some (kept_args a0 p os), d, [])
        | None => (-1, Some (mk_args (Some (a0 :: v)) alloc), d, [])
        end).
Proof. apply parse_keeps. Qed.

(** The separator "--" goes when it is the last argument, as the comment in
  opt_parse says, but only if no option was collected: the check compares its
  position with the number of arguments after two of them were inserted. *)
Theorem separator_stays a0 o d :
  NUL ∉ o ->
  fuse_opt_parse (Some (FUSE_ARGS_INIT [a0; lit "--"])) d (Some [FUSE_OPT_END]) None [] =
    Ok (0, Some (mk_args (Some [a0]) true), d, []) /\
  exists t, fuse_opt_parse (Some (FUSE_ARGS_INIT [a0; lit "-o"; o; lit "--"])) d
      (Some [FUSE_OPT_END]) None [] =
    Ok (0, Some (mk_args (Some [a0; lit "-o"; t; lit "--"]) true), d, []).
Proof.
  intros Hn. split; [done|].
  destruct (options_Some o) as [t Ht].
  exists t. unfold fuse_opt_parse, FUSE_ARGS_INIT, opt_parse.
  set (args := [a0; lit "-o"; o; lit "--"]).
  rewrite (pbind_run _ _ _ _ _ (eq_refl : add_arg a0 (mk_ctx d 0 no_args None 0 []) =
    Ok (0, at_arg d 0 [a0] None))). cbn [Z.eqb]. prun_get.
  rewrite (pbind_run _ _ _ _ _ (eq_refl : pput (at_arg d 1 [a0] None) _ = Ok (tt, _))).
  assert (parse_loop (Some [FUSE_OPT_END]) None args (length args + 1) (at_arg d 1 [a0] None) =
    Ok (0, mk_ctx d 4 (mk_args (Some [a0; lit "--"]) true) (Some t) 2 [])) as Hloop.
  { change (length args + 1)%nat with 5%nat.
    rewrite (loop_step args d _ 1 [a0] None (lit "-o") _ _ _ _ eq_refl
      (keep_group_next args d 1 [a0] None o ltac:(lia) eq_refl Hn)).
    cbn [Z.eqb]. fold (collect_all (options o)). by rewrite Ht. }
  by rewrite (pbind_run _ _ _ _ _ Hloop).
Qed.

(** Inserting an argument puts it at its position and moves the ones behind
  it; a position past the end is an assertion failure, and without memory
  nothing changes. *)
Theorem insert_arg_outcome a pos arg :
  a.(argv) = None \/ a.(allocated) = true -> 0 <= pos ->
  (pos <= argc a -> fuse_opt_insert_arg a pos arg [] =
     Ok (0, mk_args (Some (ztake pos (args_list a) ++ arg :: zdrop pos (args_list a))) true, [])) /\
  (pos <= argc a -> fuse_opt_insert_arg a pos arg [false] = Ok (-1, a, [])) /\
  (pos <= argc a -> fuse_opt_insert_arg a pos arg [true; false] = Ok (-1, a, [])) /\
  (argc a < pos -> forall m, fuse_opt_insert_arg a pos arg m = Fail AssertFailed).
Proof.
  intros Ha Hp. split_and!; [intros; by apply insert_arg_run | intros Hle | intros Hle | intros Hlt m];
    unfold fuse_opt_insert_arg, fuse_opt_insert_arg_common.
  1, 2: rewrite (proj2 (Z.leb_le _ _)) by done; by destruct a as [[v|] []], Ha.
  by rewrite (proj2 (Z.leb_gt _ _)).
Qed.

(** ** Witnesses *)

Definition sample_ctx : ctx := mk_ctx ∅ 1 (mk_args (Some [lit "prog"]) true) None 0 [].
Definition sample_tab : option (list fuse_opt) :=
  Some [FUSE_OPT_KEY (lit "fsname=") FUSE_OPT_KEY_KEEP; mk_opt (Some (lit "max_threads=%u")) 4 1;
        mk_opt (Some (lit "-f")) 8 1; FUSE_OPT_END].

Lemma option_group_runs_witness :
  process_option_group sample_tab None [] (lit "max_threads=12,fsname=a\,b\054c") sample_ctx =
    Ok (0, mk_ctx {[ 4 := VInt 12 ]} 1 (mk_args (Some [lit "prog"]) true)
             (Some (lit "fsname=a\,b\,c")) 0 []).
Proof.
  rewrite (option_group_runs sample_tab None [] (lit "max_threads=12,fsname=a\,b\054c") sample_ctx);
    [by vm_compute | | reflexivity].
  apply (bool_decide_unpack _). by vm_compute.
Defined.

Lemma options_roundtrip_witness :
  exists t, foldl (fun o opt => (fuse_opt_add_opt_escaped o opt []).1.2) None
      [lit "fsname=a,b\"; lit "ro"] = Some t /\
    process_option_group sample_tab None [] t sample_ctx =
      run_opts sample_tab None [] [lit "fsname=a,b\"; lit "ro"] sample_ctx.
Proof.
  apply (options_roundtrip sample_tab None [] [lit "fsname=a,b\"; lit "ro"] sample_ctx).
  - discriminate.
  - apply (bool_decide_unpack _). by vm_compute.
  - reflexivity.
  - reflexivity.
Defined.

Lemma template_forms_witness :
  match_template (lit "-x %u") (lit "-x77") = Ok (Some 2).
Proof.
  assert (zlen (lit "-x") < INT_MAX) as H1 by reflexivity.
  assert (zlen (lit "-x77") <= INT_MAX) as H2 by discriminate.
  change (lit "-x %u") with (lit "-x" ++ BLANK :: lit "%u").
  rewrite (proj2 (proj2 (template_forms [] (lit "-x") (lit "%u") (lit "-x77") H1 H2
    (or_intror (ex_intro _ _ eq_refl))))); [reflexivity | |];
    apply (bool_decide_unpack _); by vm_compute.
Defined.

Lemma parse_collects_witness :
  fuse_opt_parse (Some (mk_args (Some (map lit ["prog"; "-oro,dev=x"; "/mnt"; "-o"; "fsname=y"; "-f"])) false))
      ∅ (Some [FUSE_OPT_END]) None [] =
    Ok (0, Some (mk_args (Some (map lit ["prog"; "-o"; "ro,dev=x,fsname=y"; "/mnt"; "-f"])) true), ∅, []).
Proof.
  apply (parse_collects (lit "prog") (map lit ["-oro,dev=x"; "/mnt"; "-o"; "fsname=y"; "-f"]) ∅ false).
  apply (bool_decide_unpack _). by vm_compute.
Defined.

Lemma separator_stays_witness :
  exists t, fuse_opt_parse (Some (FUSE_ARGS_INIT [lit "prog"; lit "-o"; lit "ro"; lit "--"])) ∅
      (Some [FUSE_OPT_END]) None [] =
    Ok (0, Some (mk_args (Some [lit "prog"; lit "-o"; t; lit "--"]) true), ∅, []).
Proof.
  apply (separator_stays (lit "prog") (lit "ro") ∅). apply (bool_decide_unpack _). by vm_compute.
Defined.

Lemma insert_arg_outcome_witness :
  fuse_opt_insert_arg (mk_args (Some (map lit ["prog"; "/mnt"])) true) 1 (lit "-o") [] =
    Ok (0, mk_args (Some (map lit ["prog"; "-o"; "/mnt"])) true, []).
Proof.
  apply (insert_arg_outcome (mk_args (Some (map lit ["prog"; "/mnt"])) true) 1 (lit "-o"));
    [by right | lia | discriminate].
Defined.

End OptProps.
