(* ===== verification/SubdirProps.v ===== *)
(** Properties of the module subdir: C32 to C32. *)
From S2P Require Import Prelude.
From S2P Require Import CLib.
From S2P Require Import FuseTypes.
From S2P Require Import FuseBuf.
From S2P Require Import FuseFs.
From S2P Require Import FuseOpt.
From S2P Require Import FuseOptFacts.
From S2P Require Import FuseSubdir.

Module SubdirProps.
Import FuseTypes FuseBuf FuseFs FuseOpt FuseOptFacts FuseSubdir.

(** ** Paths as components *)

(** The names between the slashes; [acc] is the start of the first one. *)
Fixpoint names (acc p : str) : list str :=
  match p with
  | [] => match acc with [] => [] | _ => [acc] end
  | b :: r => if beq b SLASH then match acc with [] => names [] r | _ => acc :: names [] r end else names (acc ++ [b]) r
  end.
Definition comps (p : str) : list str := names [] p.

(** One step of following a path, from a directory given by its names. *)
Definition walk (dir : list str) (c : str) : list str :=
  if streq c (lit ".") then dir else if streq c (lit "..") then removelast dir else dir ++ [c].

(** Where a link in this directory leads to, by the names alone. *)
Definition follow (dir : list str) (link : str) : list str :=
  foldl walk (if is_prefix [SLASH] link then [] else dir) (comps link).

Definition plain_name (c : str) : Prop := c <> lit "." /\ c <> lit "..".

Lemma beq_SLASH : beq SLASH SLASH = true.
Proof. done. Qed.

Lemma names_slash acc a b : names acc (a ++ SLASH :: b) = names acc a ++ names [] b.
Proof.
  revert acc. induction a as [|x a IH]; intros acc; cbn [Datatypes.app names].
  - rewrite beq_SLASH. by destruct acc.
  - destruct (beq x SLASH); [destruct acc; rewrite IH; done | apply IH].
Qed.

Lemma comps_slash a b : comps (a ++ SLASH :: b) = comps a ++ comps b.
Proof. apply names_slash. Qed.

Lemma names_no_slash acc a : SLASH ∉ a -> names acc a = match acc ++ a with [] => [] | _ => [acc ++ a] end.
Proof.
  revert acc. induction a as [|x a IH]; intros acc; [by rewrite app_nil_r|].
  intros [Hx Ha]%not_elem_of_cons. cbn [names]. rewrite beq_ne by congruence. rewrite IH by done. by rewrite <- app_assoc.
Qed.

Lemma comps_skip p : comps (skip_slashes p) = comps p.
Proof. induction p as [|b p IH]; [done|]. cbn [skip_slashes]. unfold comps in *. destruct (beq b SLASH) eqn:E; [|done]. cbn [names]. by rewrite E. Qed.

Lemma skip_slashes_suffix p : exists x, p = x ++ skip_slashes p.
Proof.
  induction p as [|b p [x IH]]; [by exists []|]. cbn [skip_slashes]. destruct (beq b SLASH); [|by exists []].
  exists (b :: x). cbn [Datatypes.app]. by rewrite <- IH.
Qed.

Lemma skip_slashes_head p b r : skip_slashes p = b :: r -> beq b SLASH = false.
Proof. induction p as [|x p IH]; [done|]. cbn [skip_slashes]. destruct (beq x SLASH) eqn:Hx; [done|]. congruence. Qed.

Lemma skip_same_spec s : forall t s' t', skip_same s t = (s', t') -> exists x, s = x ++ s' /\ t = x ++ t' /\ SLASH ∉ x.
Proof.
  induction s as [|a s IH]; intros t s' t'; cbn [skip_same]; [intros [= <- <-]; exists []; split_and!; [done.. | apply not_elem_of_nil]|].
  destruct t as [|b t]; [intros [= <- <-]; exists []; split_and!; [done.. | apply not_elem_of_nil]|].
  destruct (beq a b && negb (beq a SLASH)) eqn:Hb; [|intros [= <- <-]; exists []; split_and!; [done.. | apply not_elem_of_nil]].
  intros (x & -> & -> & Hx)%IH. apply andb_true_iff in Hb as [->%beq_spec Hs]. exists (b :: x). split_and!; [done | done|].
  apply not_elem_of_cons. split; [|done]. intros <-. by rewrite beq_SLASH in Hs.
Qed.

(** The rest of a path behind a whole name. *)
Definition at_end (p : str) : Prop := p = [] \/ exists r, p = SLASH :: r.

Lemma comps_name x p : SLASH ∉ x -> at_end p -> comps (x ++ p) = comps x ++ comps p.
Proof.
  intros Hx [-> | [r ->]]; [by rewrite !app_nil_r|]. rewrite comps_slash. f_equal.
Qed.

Lemma shared_end_ends s t : shared_end (skip_same s t).1 (skip_same s t).2 = true -> at_end (skip_same s t).1 /\ at_end (skip_same s t).2.
Proof.
  revert t. induction s as [|a s IH]; intros t; cbn [skip_same].
  - cbn [Datatypes.fst Datatypes.snd shared_end]. destruct t as [|b t]; [done|]. intros ->%beq_spec. split; [by left | right; by eexists].
  - destruct t as [|b t]; [intros ->%beq_spec; split; [right; by eexists | by left]|].
    destruct (beq a b && negb (beq a SLASH)) eqn:Hb; [apply IH|]. cbn [Datatypes.fst Datatypes.snd shared_end]. intros Hab. rewrite Hab in Hb.
    apply negb_false_iff in Hb. apply beq_spec in Hab as <-. apply beq_spec in Hb as ->. split; right; by eexists.
Qed.

(** Both lose the same names. *)
Lemma strip_loop_spec fuel : forall s t s' t', strip_loop fuel s t = (s', t') ->
  exists common x, comps s = common ++ comps s' /\ comps t = common ++ comps t' /\ s = x ++ s'.
Proof.
  induction fuel as [|fuel IH]; intros s t s' t'; cbn [strip_loop]; pose proof (skip_slashes_suffix s) as [x Hx];
    destruct (skip_same (skip_slashes s) (skip_slashes t)) as [s1 t1] eqn:Hs1;
    try destruct (shared_end s1 t1) eqn:He.
  - intros [= <- <-]. exists [], x. by rewrite !comps_skip.
  - intros [= <- <-]. exists [], x. by rewrite !comps_skip.
  - intros (common & y & H1 & H2 & H3)%IH. destruct (skip_same_spec _ _ _ _ Hs1) as (z & Hs & Ht & Hz).
    pose proof (shared_end_ends (skip_slashes s) (skip_slashes t)) as Hend. rewrite Hs1 in Hend. destruct (Hend He) as [E1 E2].
    exists (comps z ++ common), (x ++ z ++ y). split_and!.
    + rewrite <- (comps_skip s), Hs, comps_name, H1 by done. by rewrite <- app_assoc.
    + rewrite <- (comps_skip t), Ht, comps_name, H2 by done. by rewrite <- app_assoc.
    + rewrite Hx at 1. rewrite Hs, H3. by rewrite <- !app_assoc.
  - intros [= <- <-]. exists [], x. by rewrite !comps_skip.
Qed.

Lemma skip_name_comps b p : beq b SLASH = false -> exists c, comps (b :: p) = c :: comps (skip_name (b :: p)) /\
  (length (skip_name (b :: p)) <= length p)%nat.
Proof.
  intros Hb. assert (forall p acc, acc <> [] -> exists c, names acc p = c :: comps (skip_name p) /\ (length (skip_name p) <= length p)%nat) as H.
  { clear. induction p as [|x p IH]; intros acc Ha; cbn [names skip_name].
    - exists acc. by destruct acc.
    - destruct (beq x SLASH) eqn:Hx.
      + exists acc. split; [|done]. unfold comps. cbn [names]. rewrite Hx. by destruct acc.
      + destruct (IH (acc ++ [x])) as (c & Hc & Hl); [by destruct acc|]. exists c. split; [done|]. cbn [length]. lia. }
  unfold comps at 1. cbn [names skip_name]. rewrite Hb. cbn [Datatypes.app]. by apply H.
Qed.

Lemma skip_slashes_len p : (length (skip_slashes p) <= length p)%nat.
Proof. induction p as [|b p IH]; [done|]. cbn [skip_slashes]. destruct (beq b SLASH); cbn [length]; lia. Qed.

Lemma count_spec p : count_components p = zlen (comps p).
Proof.
  unfold count_components. rewrite <- (comps_skip p).
  assert (forall fuel q ctr, (length q <= fuel)%nat -> (forall b r, q = b :: r -> beq b SLASH = false) -> count_loop fuel q ctr = ctr + zlen (comps q)) as H.
  { induction fuel as [|fuel IH]; intros [|b r] ctr Hl Hh; cbn [length] in Hl; try lia; cbn [count_loop]; try (cbn; lia).
    destruct (skip_name_comps b r (Hh b r eq_refl)) as (c & Hc & Hlen). pose proof (skip_slashes_len (skip_name (b :: r))).
    rewrite IH; [| lia | apply skip_slashes_head]. rewrite Hc, comps_skip. cbn [length]. lia. }
  apply (H _ _ 0); [apply skip_slashes_len | apply skip_slashes_head].
Qed.

(** A directory that both start with is gone from both. *)
Lemma skip_slashes_app b x : skip_slashes (b ++ x) = match skip_slashes b with [] => skip_slashes x | q => q ++ x end.
Proof. induction b as [|c b IH]; [done|]. cbn [Datatypes.app skip_slashes]. by destruct (beq c SLASH). Qed.

Lemma name_split p : exists n, p = n ++ skip_name p /\ (SLASH ∉ n) /\ at_end (skip_name p).
Proof.
  induction p as [|b p (n & Hp & Hn & He)]; [exists []; split_and!; [done | apply not_elem_of_nil | by left]|]. cbn [skip_name].
  destruct (beq b SLASH) eqn:Hb.
  - apply beq_spec in Hb as ->. exists []. split_and!; [done | apply not_elem_of_nil | right; by eexists].
  - exists (b :: n). cbn [Datatypes.app]. rewrite <- Hp. split_and!; [done | | done]. apply not_elem_of_cons. split; [|done].
    intros <-. by rewrite beq_SLASH in Hb.
Qed.

Lemma skip_same_app n s t : (SLASH ∉ n) -> skip_same (n ++ SLASH :: s) (n ++ SLASH :: t) = (SLASH :: s, SLASH :: t).
Proof.
  induction n as [|b n IH]; [done|]. intros [Hb Hn]%not_elem_of_cons. cbn [Datatypes.app skip_same].
  rewrite beq_refl, beq_ne by congruence. by apply IH.
Qed.

Lemma strip_skips fuel s t : exists x, skip_slashes s = x ++ (strip_loop fuel s t).1.
Proof.
  destruct (strip_loop fuel (skip_slashes s) t) as [s' t'] eqn:Hs.
  assert ((strip_loop fuel s t).1 = s') as ->.
  { assert (forall p, skip_slashes (skip_slashes p) = skip_slashes p) as Hi.
    { induction p as [|b p IH]; [done|]. cbn [skip_slashes]. destruct (beq b SLASH) eqn:E; [done|]. cbn [skip_slashes]. by rewrite E. }
    destruct fuel; cbn [strip_loop] in *; rewrite Hi in Hs; by rewrite Hs. }
  destruct (strip_loop_spec _ _ _ _ _ Hs) as (_ & x & _ & _ & Hx). by exists x.
Qed.

Lemma strip_prefix fuel : forall b x y, (length b <= fuel)%nat -> last b = Some SLASH ->
  exists z, x = z ++ (strip_loop fuel (b ++ x) (b ++ y)).1.
Proof.
  induction fuel as [|fuel IH]; intros b x y Hf Hl; [destruct b; [done | cbn [length] in Hf; lia]|].
  destruct (skip_slashes b) as [|c q] eqn:Hq.
  - destruct (strip_skips (S fuel) (b ++ x) (b ++ y)) as [z Hz]. rewrite skip_slashes_app, Hq in Hz.
    destruct (skip_slashes_suffix x) as [z' Hz']. exists (z' ++ z). rewrite <- app_assoc, <- Hz. exact Hz'.
  - cbn [strip_loop]. rewrite !skip_slashes_app, Hq. destruct (skip_slashes_suffix b) as [sl Hb]. rewrite Hq in Hb.
    destruct (name_split (c :: q)) as (n & Hn & Hns & [He | [r He]]).
    + exfalso. rewrite He, app_nil_r in Hn. rewrite Hb, last_app in Hl. rewrite Hn in Hl.
      destruct (last n) as [e|] eqn:Hle; [|by rewrite last_None in Hle; subst]. injection Hl as ->. apply Hns. by apply last_Some_elem_of.
    + rewrite He in Hn. rewrite Hn, <- !app_assoc. cbn [Datatypes.app]. rewrite skip_same_app by done. cbn [shared_end]. rewrite beq_SLASH.
      assert (n <> []) as Hne. { intros ->. cbn [Datatypes.app] in Hn. injection Hn as -> ->. apply skip_slashes_head in Hq. by rewrite beq_SLASH in Hq. }
      apply (IH (SLASH :: r)).
      * rewrite Hb, Hn, !length_app in Hf. destruct n; [done|]. cbn [length] in *. lia.
      * rewrite Hb, Hn, !last_app in Hl. cbn [last] in *. destruct r; [done|]. by rewrite last_cons in Hl |- *; destruct (last (b0 :: r)).
Qed.

Lemma strip_head fuel s t b r : (strip_loop fuel s t).1 = b :: r -> beq b SLASH = false.
Proof.
  revert s t. induction fuel as [|fuel IH]; intros s t; cbn [strip_loop]; destruct (skip_same (skip_slashes s) (skip_slashes t)) as [s1 t1];
    [|destruct (shared_end s1 t1); [apply IH|]]; apply skip_slashes_head.
Qed.

(** ** The new link *)

Definition dots (n : nat) : str := concat (replicate n (lit "../")).

Lemma zlen_dots n : zlen (dots n) = 3 * Z.of_nat n.
Proof. induction n as [|n IH]; [done|]. unfold dots in *. cbn [replicate concat]. rewrite zlen_app, IH. change (zlen (lit "../")) with 3. lia. Qed.

Lemma comps_dots n l : comps (dots n ++ l) = replicate n (lit "..") ++ comps l.
Proof.
  induction n as [|n IH]; [done|]. unfold dots in *. cbn [replicate concat]. rewrite <- app_assoc.
  change (lit "../" ++ concat (replicate n (lit "../")) ++ l) with (lit ".." ++ SLASH :: (concat (replicate n (lit "../")) ++ l)).
  rewrite comps_slash, IH. done.
Qed.

Lemma walk_up common r : foldl walk (common ++ r) (replicate (length r) (lit "..")) = common.
Proof.
  induction r as [|x r IH] using rev_ind; [by rewrite app_nil_r|]. rewrite length_app, Nat.add_comm. cbn [Nat.add length replicate foldl].
  assert (walk (common ++ r ++ [x]) (lit "..") = common ++ r) as ->; [|done]. rewrite app_assoc. unfold walk. cbn. by rewrite removelast_last.
Qed.

Lemma walk_plain c d : Forall plain_name c -> foldl walk d c = d ++ c.
Proof.
  intros Hc. revert d. induction Hc as [|x c [H1 H2] _ IH]; intros d; [by rewrite app_nil_r|]. cbn [foldl]. rewrite IH. unfold walk.
  destruct (streq x (lit ".")) eqn:E1; [by apply streq_spec in E1|]. destruct (streq x (lit "..")) eqn:E2; [by apply streq_spec in E2|].
  by rewrite <- app_assoc.
Qed.

Lemma mem_write_mid a b c xs off : off = zlen a -> zlen xs = zlen b -> mem_write (a ++ b ++ c) off xs = Ok (a ++ xs ++ c).
Proof.
  intros -> Hl. rewrite mem_write_in by (rewrite ?zlen_app; lia). unfold splice. rewrite ztake_app_exact by done.
  rewrite <- zdrop_zdrop by lia. rewrite zdrop_app_exact by done. by rewrite zdrop_app_exact.
Qed.

Lemma put_dotdots_run n : forall a b c off, off = zlen a -> zlen b = 3 * Z.of_nat n -> put_dotdots n (a ++ b ++ c) off = Ok (a ++ cells (dots n) ++ c).
Proof.
  induction n as [|n IH]; intros a b c off Ho Hb; [destruct b; [done | cbn [length] in Hb; lia]|]. cbn [put_dotdots].
  rewrite <- (ztake_zdrop 3 b), <- app_assoc. rewrite mem_write_mid by (rewrite ?zlen_ztake by lia; done). cbn [obind].
  rewrite app_assoc, (IH (a ++ cells (lit "../")) (zdrop 3 b) c).
  - unfold dots. cbn [replicate concat]. rewrite cells_app, <- !app_assoc. done.
  - rewrite zlen_app. change (zlen (cells (lit "../"))) with 3. lia.
  - rewrite zlen_zdrop by lia. lia.
Qed.

(** The memory after the new link was put together in it. *)
Lemma rewritten k l (m : list cell) : 3 * Z.of_nat k + zlen l + 1 <= zlen m ->
  exists r, (m' <- mem_write m (3 * Z.of_nat k) (cstr l) ;; put_dotdots k m' 0) = Ok (cells (dots k ++ l) ++ Byte NUL :: r) /\
    zlen (cells (dots k ++ l) ++ Byte NUL :: r) = zlen m /\ r = zdrop (3 * Z.of_nat k + zlen l + 1) m.
Proof.
  intros Hl. exists (zdrop (3 * Z.of_nat k + zlen l + 1) m). rewrite mem_write_in by (rewrite ?zlen_cstr; lia). cbn [obind]. unfold splice.
  rewrite zlen_cstr. replace (3 * Z.of_nat k + (zlen l + 1)) with (3 * Z.of_nat k + zlen l + 1) by lia.
  pose proof (put_dotdots_run k [] (ztake (3 * Z.of_nat k) m) (cstr l ++ zdrop (3 * Z.of_nat k + zlen l + 1) m) 0 eq_refl
    ltac:(rewrite zlen_ztake by lia; done)) as Hp. cbn [Datatypes.app] in Hp. rewrite Hp. unfold cstr. split_and!.
  - by rewrite cells_app, <- !app_assoc.
  - rewrite zlen_app, zlen_cells, zlen_app, zlen_dots. cbn [length]. rewrite Nat2Z.inj_succ, zlen_zdrop by lia. lia.
  - done.
Qed.

Lemma dots_no_NUL k : NUL ∉ dots k.
Proof.
  induction k as [|k IH]; [apply not_elem_of_nil|]. unfold dots in *. cbn [replicate concat]. rewrite not_elem_of_app. split; [no_NUL | done].
Qed.

Lemma dots_relative k l : (forall b r, l = b :: r -> beq b SLASH = false) -> is_prefix [SLASH] (dots k ++ l) = false.
Proof.
  intros Hl. destruct k as [|k]; [|done]. cbn. destruct l as [|b r]; [done|]. specialize (Hl b r eq_refl). cbn.
  destruct (decide (SLASH = b)) as [<-|]; [|done]. by rewrite beq_SLASH in Hl.
Qed.

(** The writes of transform_symlink, within [size] bytes. *)
Lemma put_link k l m size : 3 * Z.of_nat k + zlen l + 2 <= size <= zlen m -> (NUL ∉ l) -> (forall b r, l = b :: r -> beq b SLASH = false) ->
  exists m' link', (m' <- (if negb (zlen l =? 0) then mem_write m (Z.of_nat k * 3) (cstr l) else if Z.of_nat k =? 0 then mem_write m 0 (cstr (lit "."))
       else mem_write m (Z.of_nat k * 3) [Byte NUL]) ;; put_dotdots (Z.to_nat (Z.of_nat k)) m' 0) = Ok m' /\
    c_string m' = Ok link' /\ zlen m' = zlen m /\ zdrop size m' = zdrop size m /\ is_prefix [SLASH] link' = false /\
    (link' = dots k ++ l \/ (k = 0%nat /\ l = [] /\ link' = lit ".")).
Proof.
  intros Hsize Hn Hl. rewrite Nat2Z.id.
  assert (forall k' l', 3 * Z.of_nat k' + zlen l' + 1 <= size -> (NUL ∉ l') -> exists m', (m' <- mem_write m (3 * Z.of_nat k') (cstr l') ;; put_dotdots k' m' 0) = Ok m' /\
    c_string m' = Ok (dots k' ++ l') /\ zlen m' = zlen m /\ zdrop size m' = zdrop size m) as Hput.
  { intros k' l' Hs Hn'. destruct (rewritten k' l' m ltac:(lia)) as (r & Hrun & Hlen & Hr). eexists. split_and!; [exact Hrun | | done|].
    - apply c_string_app. rewrite not_elem_of_app. split; [apply dots_no_NUL | done].
    - rewrite cons_middle, app_assoc, zdrop_app_ge by (rewrite !zlen_app, zlen_cells, !zlen_app, zlen_dots; change (zlen [Byte NUL]) with 1; lia).
      rewrite Hr, !zlen_app, zlen_cells, !zlen_app, zlen_dots. change (zlen [Byte NUL]) with 1. rewrite zdrop_zdrop by lia. f_equal. lia. }
  destruct (decide (l = [] /\ k = 0%nat)) as [[-> ->]|Hnz].
  - destruct (Hput 0%nat (lit ".") ltac:(change (zlen (lit ".")) with 1; cbn [length] in Hsize; lia) ltac:(no_NUL)) as (m' & Hrun & Hc & H1 & H2).
    exists m', (lit "."). split_and!; try done. by right.
  - destruct (Hput k l ltac:(lia) Hn) as (m' & Hrun & Hc & H1 & H2). exists m', (dots k ++ l).
    split_and!; [|done | done | done | by apply dots_relative | by left]. rewrite (Z.mul_comm (Z.of_nat k) 3). rewrite <- Hrun. destruct l as [|b l]; [|done].
    change (negb (zlen (@nil byte) =? 0)) with false. destruct (Z.eqb_spec (Z.of_nat k) 0) as [E|]; [|done]. exfalso. apply Hnz. split; [done | lia].
Qed.

(** From the directory of the path, the dots lead up to where path and link part. *)
Lemma follow_dots common pr l : pr <> [] -> Forall plain_name (common ++ pr) -> (forall b r, l = b :: r -> beq b SLASH = false) ->
  follow (removelast (common ++ pr)) (dots (length pr - 1) ++ l) = foldl walk common (comps l).
Proof.
  intros Hpr Hc Hl. unfold follow. rewrite dots_relative by done. rewrite comps_dots, foldl_app. f_equal.
  rewrite removelast_app by done. destruct pr as [|x pr _] using rev_ind; [done|]. rewrite removelast_last, length_app. cbn [length].
  replace (length pr + 1 - 1)%nat with (length pr) by lia. apply walk_up.
Qed.

(** The link, and what is left of it and of the path: nothing is lost. *)
Lemma follow_absolute dir link common l : is_prefix [SLASH] link = true -> Forall plain_name common -> comps link = common ++ comps l ->
  follow dir link = foldl walk common (comps l).
Proof. intros Hs Hc Hl. unfold follow. by rewrite Hs, Hl, foldl_app, (walk_plain common []). Qed.

(** C32: with the option rellinks, a symbolic link that is read through the
    module still leads where it led, from the directory it is in; it is left as it is
    or becomes relative, and it does become relative when it leads into the directory
    that is shown, to neither itself nor below itself, and the buffer has room for it.
    Nothing is written behind the end of the buffer the caller named. *)
Theorem relative_links base p link m size : is_prefix [SLASH] base = true -> last base = Some SLASH ->
  let path := base ++ p in
  c_string m = Ok link -> Forall plain_name (comps path) -> 0 <= size <= zlen m ->
  exists m' link', transform_symlink base path m size = Ok m' /\ c_string m' = Ok link' /\ zlen m' = zlen m /\ zdrop size m' = zdrop size m /\
    let dir := removelast (comps path) in
    follow dir link' = follow dir link /\ (link' = link \/ is_prefix [SLASH] link' = false) /\
    (is_prefix base link = true -> ~ comps path `prefix_of` comps link -> 3 * zlen (comps path) + zlen link <= size -> is_prefix [SLASH] link' = false).
Proof.
  intros Hb Hl path Hm Hplain Hsize. unfold transform_symlink. rewrite Hm. cbn [obind]. rewrite Hb, orb_false_r.
  assert ((is_prefix base link = true -> ~ comps path `prefix_of` comps link -> 3 * zlen (comps path) + zlen link <= size -> is_prefix [SLASH] link = false) ->
    exists m' link', Ok m = Ok m' /\ c_string m' = Ok link' /\ zlen m' = zlen m /\ zdrop size m' = zdrop size m /\
    follow (removelast (comps path)) link' = follow (removelast (comps path)) link /\ (link' = link \/ is_prefix [SLASH] link' = false) /\
    (is_prefix base link = true -> ~ comps path `prefix_of` comps link -> 3 * zlen (comps path) + zlen link <= size -> is_prefix [SLASH] link' = false)) as Hsame
    by (intros Hc; exists m, link; split_and!; [done | done | done | done | done | by left | exact Hc]).
  destruct (is_prefix [SLASH] link) eqn:Hs; cbn [negb]; [|by apply Hsame].
  destruct (strip_common link path) as [l pr] eqn:Hst. pose proof (strip_loop_spec _ _ _ _ _ Hst) as (common & x & Hcl & Hcp & Hx).
  assert (forall b r, l = b :: r -> beq b SLASH = false) as Hhead.
  { intros b r E. apply (strip_head (length link + length path) link path b r). unfold strip_common in Hst. by rewrite Hst. }
  destruct (Z.ltb_spec (zlen link - zlen l) (zlen base)) as [Hlt|Hge].
  { apply Hsame. intros [y Hy]%is_prefix_spec. exfalso.
    destruct (strip_prefix (length link + length path) base y p ltac:(rewrite Hy, length_app; lia) Hl) as [z Hz].
    rewrite <- Hy in Hz. fold path in Hz. unfold strip_common in Hst. rewrite Hst in Hz. cbn [Datatypes.fst] in Hz.
    rewrite Hy, Hz, !zlen_app in Hlt. lia. }
  rewrite count_spec. destruct (Z.eqb_spec (zlen (comps pr)) 0) as [H0|Hn].
  { apply Hsame. intros _ Hnp. exfalso. apply Hnp. destruct (comps pr) eqn:E; [|cbn [length] in H0; lia]. rewrite Hcp, Hcl, app_nil_r. by eexists. }
  assert (comps pr <> []) as Hne by (by intros E; rewrite E in Hn).
  set (k := (length (comps pr) - 1)%nat). assert (zlen (comps pr) - 1 = Z.of_nat k) as Hk by (destruct (comps pr); [done | cbn [length] in *; lia]). rewrite Hk.
  destruct (Z.ltb_spec size (Z.of_nat k * 3 + zlen l + 2)) as [Hbig|Hfit].
  { apply Hsame. intros _ _ Hroom. exfalso. rewrite Hcp, zlen_app in Hroom. rewrite Hx, zlen_app in Hroom. lia. }
  pose proof (c_string_no_NUL _ _ Hm) as HNUL. rewrite Hx in HNUL. apply not_elem_of_app in HNUL as [_ HNUL].
  assert (Forall plain_name (common ++ comps pr)) as Hpl by (by rewrite <- Hcp).
  assert (follow (removelast (comps path)) link = foldl walk common (comps l)) as Habs
    by (apply follow_absolute; [done | by apply Forall_app in Hpl as [? _] | done]).
  destruct (put_link k l m size ltac:(lia) HNUL Hhead) as (m' & link' & Hrun & Hc & Hlen & Hd & Hrel & Hlink).
  exists m', link'. split_and!; [exact Hrun | done | done | done | | by right | done]. rewrite Habs, Hcp.
  destruct Hlink as [-> | (Hk0 & -> & ->)]; [by apply follow_dots|].
  destruct (comps pr) as [|c [|? ?]] eqn:E; [done | | cbn [length] in Hk; lia]. by rewrite removelast_last.
Qed.

(** The path that is handed down is the path in the base. *)
Lemma paths_below {os A D : Type} (d : subdir (fstate os A) D) path : d.(base) = [] \/ last d.(base) = Some SLASH -> d.(base) <> [] \/ comps path <> [] ->
  comps (new_path d path) = comps d.(base) ++ comps path.
Proof.
  intros Hb Hne. unfold new_path. set (p := if is_prefix [SLASH] path then zdrop 1 path else path).
  assert (comps p = comps path) as Hp.
  { unfold p. destruct (is_prefix [SLASH] path) eqn:E; [|done]. apply is_prefix_spec in E as [r ->]. symmetry. apply (comps_slash []). }
  assert (comps (d.(base) ++ p) = comps d.(base) ++ comps path) as H.
  { rewrite <- Hp. destruct Hb as [-> | Hl]; [done|]. apply last_Some in Hl as [b ->]. rewrite <- app_assoc. cbn [Datatypes.app].
    by rewrite !comps_slash, app_nil_r. }
  destruct (d.(base) ++ p) eqn:E; [|exact H]. exfalso. apply app_nil in E as [E1 E2]. destruct Hne as [Hne | Hne]; [done|]. rewrite E2 in Hp. by rewrite <- Hp in Hne.
Qed.

(** An offset of 2 gigabytes that the file system below finds comes back negative. *)
Definition finds_offset : fuse_operations (fstate unit unit) unit := {|
  op_getattr := None; op_readlink := None; op_mknod := None; op_mkdir := None; op_unlink := None; op_rmdir := None; op_symlink := None;
  op_rename := None; op_link := None; op_chmod := None; op_chown := None; op_truncate := None; op_open := None; op_read := None;
  op_write := None; op_statfs := None; op_flush := None; op_release := None; op_fsync := None; op_setxattr := None; op_getxattr := None;
  op_listxattr := None; op_removexattr := None; op_opendir := None; op_readdir := None; op_releasedir := None; op_fsyncdir := None;
  op_init := None; op_destroy := None; op_access := None; op_create := None; op_lock := None; op_utimens := None; op_bmap := None;
  op_ioctl := None; op_poll := None; op_write_buf := None; op_read_buf := None; op_flock := None; op_fallocate := None;
  op_copy_file_range := None;
  op_lseek := Some (fun _ off _ fi => pret (off, fi));
|}.

#[local] Instance no_files : Syscalls unit := {|
  sys_write o _ _ := (Err EIO, o);
  sys_pwrite o _ _ _ := (Err EIO, o);
  sys_read o _ _ := (Err EIO, o);
  sys_pread o _ _ _ := (Err EIO, o);
  sys_splice o _ _ _ _ _ _ := (Err EIO, o);
|}.

Lemma big_offsets_lost : exists s, subdir_lseek (mk_subdir (lit "/srv/") 0 finds_offset) (Some (lit "/f")) (2 ^ 31) 3 None
  (mk_fstate (mk_bstate ∅ tt) 0 (mk_below tt 0)) = Ok (- 2 ^ 31, None, s).
Proof. eexists. vm_compute. reflexivity. Qed.

(** ** Witnesses *)

Lemma relative_links_witness : exists m', transform_symlink (lit "/srv/") (lit "/srv/a/b/link") (cstr (lit "/srv//c/d") ++ uninit 20) 30 = Ok m' /\
  c_string m' = Ok (lit "../../c/d").
Proof.
  destruct (relative_links (lit "/srv/") (lit "a/b/link") (lit "/srv//c/d") (cstr (lit "/srv//c/d") ++ uninit 20) 30) as (m' & l & Hrun & Hl & _);
    [reflexivity | reflexivity | reflexivity | | done |].
  - repeat (apply Forall_cons_2; [split; discriminate|]). apply Forall_nil_2.
  - exists m'. split; [exact Hrun|]. vm_compute in Hrun. injection Hrun as <-. reflexivity.
Defined.
End SubdirProps.
