(* ===== verification/NodeProps.v ===== *)
(** Properties of libfuse's node tables: C37 to C38. *)
From S2P Require Import Prelude.
From S2P Require Import CLib.
From S2P Require Import FuseTypes.
From S2P Require Import NodeTable.
From S2P Require Import FuseNodes.
From S2P Require Import FuseNodesFacts.
From S2P Require Import FusePaths.
From S2P Require Import FusePathsFacts.

Module NodeProps.
Import FuseTypes NodeTable FuseNodes FuseNodesFacts FusePaths FusePathsFacts.

(** C37: the table by number is a map, whatever growing and shrinking its inserts
  and removals cause and whichever reallocations fail: a number finds exactly
  the node hashed under it, hashing adds that node, and unhashing takes it out
  and leaves every other one where it is found. *)
Theorem nodes_by_number f :
  ids_ok f ->
  (forall i, exists r, get_node_nocheck i f = Ok (r, f) /\ forall p, r = Some p <-> numbered f i p) /\
  (forall p n, f.(nodes) !! p = Some n -> (forall q, ~ numbered f n.(nodeid) q) ->
   exists f', hash_id p f = Ok (tt, f') /\ ids_ok f' /\ f'.(nodes) = f.(nodes) /\
     forall i q, numbered f' i q <-> (i = n.(nodeid) /\ q = p) \/ numbered f i q) /\
  (forall i p, numbered f i p ->
   exists f', unhash_id p f = Ok (tt, f') /\ ids_ok f' /\ f'.(nodes) = f.(nodes) /\
     forall j q, numbered f' j q <-> numbered f j q /\ q <> p).
Proof.
  intros Hok. split_and!.
  - intros i. by apply get_node_nocheck_run.
  - intros p n. by apply hash_id_run.
  - intros i p [Hp (n & Hn & _)]. by apply (unhash_id_run f p n).
Qed.

(** The search for a new node number ends, and its result is a number that
  no node has and that is neither 0 nor the number that means unknown; only
  the counter and the generation change. *)
Theorem next_number_is_new f :
  ids_ok f -> 0 <= f.(ctr) < 2 ^ 32 -> Z.of_nat (base.size f.(nodes)) < 2 ^ 32 - 2 ->
  exists c g, next_id f = Ok (c, set_ctr c g f) /\
    0 < c < 2 ^ 32 /\ c <> FUSE_UNKNOWN_INO /\ forall p, ~ numbered f c p.
Proof.
  intros Hok Hctr Hsize. unfold next_id. prun_get.
  destruct (next_id_run (base.size f.(nodes) + 3) f Hok Hctr) as (c & g & Hrun & Hr & Hfree).
  { apply some_candidate; lia. }
  unfold taken in Hfree. exists c, g. split; [done|].
  split_and!; [destruct (Z.eq_dec c 0); [by destruct Hfree; left | lia] | lia | |].
  - intros ->. by destruct Hfree; right; left.
  - intros p Hp. destruct Hfree. right; right. by exists p.
Qed.

(** Looking a name up finds exactly the node that has it in that directory,
  and giving a node a name makes it, and changes no other lookup by name or by
  number; the directory counts one more reference.  A name too long for the
  node itself whose copy cannot be allocated is refused. *)
Theorem nodes_by_name f p q dir n d s :
  ids_ok f -> names_ok f -> f.(nodes) !! p = Some n -> f.(nodes) !! q = Some d ->
  numbered f dir q -> p <> q -> ~ in_table f.(name_table) p -> (forall k, ~ named f dir s k) ->
  (forall dir s, exists r, lookup_node dir s f = Ok (r, f) /\ forall k, r = Some k <-> named f dir s k) /\
  (zlen s < INLINE_NAME_SIZE \/ f.(memory) = [] ->
   exists f', hash_name p dir s f = Ok (0, f') /\ ids_ok f' /\ names_ok f' /\
     f'.(nodes) = named_nodes f.(nodes) p q n d s /\ f'.(id_table) = f.(id_table) /\
     forall dir' s' k, named f' dir' s' k <-> (dir' = dir /\ s' = s /\ k = p) \/ named f dir' s' k) /\
  (forall m, INLINE_NAME_SIZE <= zlen s -> f.(memory) = false :: m ->
   hash_name p dir s f =
     Ok (-1, set_nodes (<[p := with_name n n.(parent) None]> f.(nodes)) (set_memory m f))).
Proof.
  intros Hids Hnames Hp Hq Hnum Hpq Hout Hnone.
  assert (d.(nodeid) = dir) as Hd by (destruct Hnum as [_ (d' & Hd' & <-)]; congruence).
  split_and!; [intros; by apply lookup_node_run | |].
  - intros Hmem. destruct (hash_name_run f p q dir n d s Hids Hnames Hp Hq Hd Hpq Hout Hnum Hnone Hmem)
      as (f' & ? & ? & ? & ? & ? & ?). by exists f'.
  - intros m Hlen Hmem. unfold hash_name. prun_get. prun (get_node_run f dir q Hids Hnum).
    assert ((if zlen s <? INLINE_NAME_SIZE then pret true else allocates) f = Ok (false, set_memory m f)) as Hcopy.
    { rewrite (proj2 (Z.ltb_ge _ _)) by done. unfold allocates, pbind, pget. cbn. by rewrite Hmem. }
    prun Hcopy. cbn [negb]. prun (load_node_run (set_memory m f) p n Hp).
    by prun (store_node_run (set_memory m f) p n (with_name n n.(parent) None) Hp).
Qed.

(** C38: the path of a node, with a last name when there is one, is the names on
  the way up from it, in their order; every node on the way gets one more read lock, the
  named node the write lock when it is asked for, and unlock_path gives them all back.
  That is so when no node on the way is locked for writing or has INT_MAX read locks, the
  node to be locked for writing is not on it and not locked at all, no name has a NUL, every allocation works,
  and the path with its NUL has at most 2^31 bytes, up to which the size of the buffer,
  an unsigned int, can be doubled.  A way that ends at a node that has lost its name or
  its parent is stale, one that meets a node locked for writing has to be tried again (if
  with its name the path is not longer than that either), and both leave no lock
  behind. *)
Theorem paths_locked f i p ps r name wanted wnode n :
  names_ok f -> f.(memory) = [] -> way f i p ps r wnode -> to_write f i name wanted wnode ->
  f.(nodes) !! r = Some n ->
  let path := path_text ps (last_text name) in
  zlen path + 1 <= 2 ^ 31 ->
  (n.(nodeid) = FUSE_ROOT_ID -> NUL ∉ path ->
   exists m, try_get_path i name wanted true f = Ok ((0, Some m, wnode), with_way wnode ps f) /\
     c_string m = Ok (shown path) /\ unlock_path i wnode None (with_way wnode ps f) = Ok (tt, f)) /\
  (n.(nodeid) <> FUSE_ROOT_ID -> n.(FuseNodes.name) = None \/ n.(parent) = None ->
   try_get_path i name wanted true f = Ok ((- ESTALE, None, None), f)) /\
  (forall s, n.(nodeid) <> FUSE_ROOT_ID -> n.(FuseNodes.name) = Some s -> is_Some n.(parent) ->
   n.(treelock) < 0 -> zlen s + zlen path + 2 <= 2 ^ 31 ->
   try_get_path i name wanted true f = Ok ((- EAGAIN, None, None), f)).
Proof.
  intros Hnames Hmem Hway Hw Hn path Hmax.
  assert (zlen (last_text name) + 1 <= 2 ^ 31) as Hlast
    by (unfold path in Hmax; rewrite path_text_app, zlen_app in Hmax; lia).
  destruct (try_get_path_start f i name wanted wnode Hnames Hmem Hlast Hw) as (b & Hb & ->).
  { intros k m -> Hm. destruct (way_write _ _ _ _ _ _ Hway k eq_refl) as (_ & _ & m' & Hm' & Ht). congruence. }
  split_and!.
  - intros Hroot Hnul.
    destruct (climb_to_root f i p ps r wnode b _ n Hway Hmem Hb Hmax Hn Hroot Hnul) as (m & Hrun & Hread).
    exists m. split_and!; [done | done |]. by apply (unlock_path_run f i p ps r wnode None n Hway Hn); right.
  - intros Hroot. by apply (climb_blocked f i p ps r wnode b _ n Hway Hmem Hb Hmax Hn Hroot).
  - intros s Hroot. by apply (climb_blocked f i p ps r wnode b _ n Hway Hmem Hb Hmax Hn Hroot).
Qed.

(** ** Witnesses, on the state fuse_new makes *)

Lemma nodes_by_number_witness :
  exists f p f', fuse_new_nodes 0 0 true true [] = Ok (Some f) /\
    get_node_nocheck FUSE_ROOT_ID f = Ok (Some p, f) /\ unhash_id p f = Ok (tt, f') /\
    get_node_nocheck FUSE_ROOT_ID f' = Ok (None, f').
Proof.
  destruct (new_nodes_run 0 0) as (f & p & Hnew & Hids & _ & _ & Hnum & _).
  destruct (nodes_by_number f Hids) as (Hget & _ & Hun).
  assert (numbered f FUSE_ROOT_ID p) as Hp by (apply Hnum; split; reflexivity).
  destruct (Hun FUSE_ROOT_ID p Hp) as (f' & Hrun & Hids' & _ & Hnum').
  exists f, p, f'. split; [exact Hnew|]. split; [|split; [exact Hrun|]].
  - destruct (Hget FUSE_ROOT_ID) as (r & Hr & Hspec). rewrite Hr. by rewrite (proj2 (Hspec p) Hp).
  - destruct (nodes_by_number f' Hids') as (Hget' & _).
    destruct (Hget' FUSE_ROOT_ID) as (r & Hr & Hspec). rewrite Hr. destruct r as [k|]; [|reflexivity].
    exfalso. destruct (proj1 (Hnum' _ _) (proj1 (Hspec k) eq_refl)) as [Hk Hne].
    apply Hne. by apply Hnum in Hk as [_ ->].
Defined.

Lemma next_number_is_new_witness :
  exists f c g, fuse_new_nodes 0 0 true true [] = Ok (Some f) /\ next_id f = Ok (c, set_ctr c g f) /\ c <> 1.
Proof.
  destruct (new_nodes_run 0 0) as (f & p & Hnew & Hids & _ & Hns & Hnum & _ & _ & Hctr).
  destruct (next_number_is_new f) as (c & g & Hrun & _ & _ & Hno).
  - exact Hids.
  - rewrite Hctr. lia.
  - rewrite Hns, map_size_singleton. lia.
  - exists f, c, g. split; [exact Hnew|]. split; [exact Hrun|]. intros ->.
    apply (Hno p). apply Hnum. split; reflexivity.
Defined.

(** A second node, not in the table by name yet. *)
Definition add_node (p : Z) (n : node) (f : fuse) : fuse := set_nodes (<[p := n]> f.(nodes)) f.

Lemma add_node_ok f p n : ids_ok f -> names_ok f -> f.(nodes) !! p = None ->
  (forall q, ~ in_table f.(name_table) q) ->
  ids_ok (add_node p n f) /\ names_ok (add_node p n f) /\
  forall i q, numbered (add_node p n f) i q <-> numbered f i q.
Proof.
  intros [Hiw Hiu] [Hnw Hnu] Hp Hempty.
  assert (forall i q, numbered (add_node p n f) i q <-> numbered f i q) as Hnum.
  { intros i q. unfold numbered. cbn [nodes id_table add_node set_nodes]. split; intros [Hq (m & Hm & Hi)];
      (split; [done|]); exists m; (split; [|done]).
    - rewrite lookup_insert_ne in Hm; [done|]. intros <-. destruct Hq as [j Hq].
      destruct (NodeTable.wf_place _ _ Hiw j p Hq) as (h & (k & Hk & _)%id_hash_of_Ok & _). congruence.
    - rewrite lookup_insert_ne; [done|]. congruence. }
  split_and!; [split | split | done].
  - apply (table_wf_ext (id_hash_of f.(nodes))); [|done]. intros k [j Hk].
    destruct (NodeTable.wf_place _ _ Hiw j k Hk) as (h & (m & Hm & _)%id_hash_of_Ok & _).
    unfold id_hash_of, node_at. cbn [nodes add_node set_nodes]. rewrite lookup_insert_ne by congruence. done.
  - intros i a b Ha Hb. apply Hnum in Ha, Hb. by apply (Hiu i).
  - apply (table_wf_ext (name_hash_of f.(nodes))); [|done]. intros k Hk. by destruct (Hempty k).
  - intros dir s a b [Ha _]. by destruct (Hempty a).
Qed.

Lemma nodes_by_name_witness :
  exists f f' p, hash_name p FUSE_ROOT_ID (lit "docs") f = Ok (0, f') /\
    exists r, lookup_node FUSE_ROOT_ID (lit "docs") f' = Ok (Some r, f') /\ r = p.
Proof.
  destruct (new_nodes_run 0 0) as (f0 & q & _ & Hids0 & Hnames0 & Hns & Hnum0 & Hnone0 & Hempty & _).
  set (p := q + 1). set (n := mk_node 2 0 0 None None 0 0 0 0 file_zero).
  assert (f0.(nodes) !! p = None) as Hp0 by (rewrite Hns; apply lookup_singleton_ne; unfold p; lia).
  destruct (add_node_ok f0 p n Hids0 Hnames0 Hp0 Hempty) as (Hids & Hnames & Hnum).
  set (f := add_node p n f0).
  assert (forall dir s k, ~ named f dir s k) as Hnone by (intros dir s k [Hk _]; by apply (Hempty k)).
  destruct (nodes_by_name f p q FUSE_ROOT_ID n root_node (lit "docs") Hids Hnames) as (_ & Hhash & _).
  - apply lookup_insert_eq.
  - unfold f, add_node. cbn [nodes set_nodes]. rewrite lookup_insert_ne by (unfold p; lia).
    rewrite Hns. apply lookup_singleton_eq.
  - apply Hnum, Hnum0. split; reflexivity.
  - unfold p. lia.
  - apply Hempty.
  - intros k. apply Hnone.
  - destruct (Hhash (or_introl eq_refl)) as (f' & Hrun & _ & Hnames' & _ & _ & Hnamed).
    exists f, f', p. split; [exact Hrun|].
    destruct (lookup_node_run f' FUSE_ROOT_ID (lit "docs") Hnames') as (r & Hr & Hspec).
    exists p. split; [|reflexivity]. rewrite Hr. rewrite (proj2 (Hspec p)); [reflexivity|].
    apply Hnamed. left. split_and!; reflexivity.
Defined.

(** A node "docs" in the root, numbered 2. *)
Lemma docs_state : exists f p q, names_ok f /\ f.(memory) = [] /\ p <> q /\ ids_ok f /\ numbered f 2 p /\
  f.(nodes) !! p = Some (mk_node 2 0 0 (Some q) (Some (lit "docs")) 0 0 0 0 file_zero) /\
  f.(nodes) !! q = Some (with_refctr root_node (root_node.(refctr) + 1)) /\
  (forall k, ~ named f 2 (lit "a") k) /\ numbered f FUSE_ROOT_ID q /\
  (forall k, named f FUSE_ROOT_ID (lit "docs") k <-> k = p) /\
  (forall k n, f.(nodes) !! k = Some n -> n.(treelock) = 0).
Proof.
  destruct (new_nodes_run 0 0) as (f0 & q & _ & Hids0 & Hnames0 & Hns & Hnum0 & Hnone0 & Hempty & _).
  set (p := q + 1). set (n := mk_node 2 0 0 None None 0 0 0 0 file_zero).
  assert (f0.(nodes) !! p = None) as Hp0 by (rewrite Hns; apply lookup_singleton_ne; unfold p; lia).
  destruct (add_node_ok f0 p n Hids0 Hnames0 Hp0 Hempty) as (Hids & Hnames & Hnum). set (f := add_node p n f0) in *.
  assert (forall dir s k, ~ named f dir s k) as Hnone by (intros dir s k [Hk _]; by apply (Hempty k)).
  assert (f.(nodes) !! p = Some n) as Hp by apply lookup_insert_eq.
  assert (f.(nodes) !! q = Some root_node) as Hq.
  { unfold f, add_node. cbn [nodes set_nodes]. rewrite lookup_insert_ne by (unfold p; lia). rewrite Hns. apply lookup_singleton_eq. }
  assert (numbered f FUSE_ROOT_ID q) as Hqn by (apply Hnum, Hnum0; done).
  destruct (hash_name_run f p q FUSE_ROOT_ID n root_node (lit "docs") Hids Hnames Hp Hq eq_refl ltac:(unfold p; lia)
    (Hempty p) Hqn (Hnone _ _) (or_introl eq_refl)) as (f1 & _ & Hns1 & Hit & Hids1 & Hnames1 & Hnamed).
  destruct (hash_id_run f1 p (with_name n (Some q) (Some (lit "docs"))) Hids1) as (f2 & Hrun & Hids2 & Hns2 & Hnum2).
  { rewrite Hns1. apply lookup_insert_eq. }
  { assert (forall k m, f.(nodes) !! k = Some m -> m.(nodeid) = 2 -> ~ in_table f.(id_table) k) as Hno.
    { intros k m Hm Hi Hk. assert (numbered f 2 k) as H2 by (split; [done | by exists m]).
      by apply Hnum, Hnum0 in H2 as [? _]. }
    intros k [Hk (m & Hm & Hi)]. rewrite Hit in Hk. rewrite Hns1 in Hm. unfold named_nodes in Hm.
    destruct (decide (k = p)) as [->|Hkp]; [by apply (Hno p n)|]. rewrite lookup_insert_ne in Hm by done.
    destruct (decide (k = q)) as [->|Hkq]; [by rewrite lookup_insert_eq in Hm; injection Hm as <-|].
    rewrite lookup_insert_ne in Hm by done. by apply (Hno k m). }
  pose proof (hash_id_names _ _ _ _ Hrun) as Hnt.
  assert (forall dir s k, named (set_memory [] f2) dir s k <-> named f1 dir s k) as Hsame.
  { intros. unfold named. cbn [name_table nodes set_memory]. by rewrite Hnt, Hns2. }
  exists (set_memory [] f2), p, q. split_and!.
  - destruct Hnames1 as [Hwf Huniq]. split.
    + cbn [name_table nodes set_memory]. by rewrite Hnt, Hns2.
    + intros dir s a b Ha Hb. apply Hsame in Ha, Hb. by apply (Huniq dir s).
  - done.
  - unfold p. lia.
  - exact Hids2.
  - apply Hnum2. by left.
  - cbn [nodes set_memory]. rewrite Hns2, Hns1. apply lookup_insert_eq.
  - cbn [nodes set_memory]. rewrite Hns2, Hns1. unfold named_nodes.
    rewrite lookup_insert_ne by (unfold p; lia). apply lookup_insert_eq.
  - intros k Hk. apply Hsame, Hnamed in Hk as [(? & _)|Hk]; [done | by apply Hnone in Hk].
  - apply Hnum2. right. destruct Hqn as [Hqt _]. split; [by rewrite Hit|]. eexists. rewrite Hns1. unfold named_nodes.
    rewrite lookup_insert_ne by (unfold p; lia). by rewrite lookup_insert_eq.
  - intros k. rewrite Hsame, Hnamed. split; [by intros [(_ & _ & ->)|Hk%Hnone] | intros ->; by left].
  - intros k m. cbn [nodes set_memory]. rewrite Hns2, Hns1. unfold named_nodes, f, add_node. cbn [nodes set_nodes]. rewrite Hns.
    rewrite !lookup_insert_Some, lookup_singleton_Some. intros Hm. do 3 (destruct Hm as [[_ Hm]|[_ Hm]]; [by rewrite <- Hm|]). destruct Hm as [_ Hm]. by rewrite <- Hm.
Qed.

Lemma paths_locked_witness : exists f f' m, f.(memory) = [] /\
  try_get_path 2 (Some (lit "a")) true true f = Ok ((0, Some m, None), f') /\ c_string m = Ok (lit "/docs/a") /\
  unlock_path 2 None None f' = Ok (tt, f).
Proof.
  destruct docs_state as (f & p & q & Hnames & Hmem & Hpq & Hids & Hnum & Hp & Hq & Hnone & _).
  assert (way f 2 p [(p, lit "docs")] q None) as Hway.
  { split; [exact Hids | exact Hnum | | | | done].
    - eapply climb_up; [exact Hp | done | reflexivity | reflexivity | apply climb_end].
    - cbn. intros Hin. apply list_elem_of_singleton in Hin. by subst.
    - intros k n Hk Hn. cbn in Hk. apply list_elem_of_singleton in Hk as ->. rewrite Hp in Hn. by injection Hn as <-. }
  destruct (paths_locked f 2 p _ q (Some (lit "a")) true None
    (with_refctr root_node (root_node.(refctr) + 1)) Hnames Hmem Hway) as (Hroot & _).
  - exists (lit "a"). split; [reflexivity|]. intros k. split; [done | by intros ?%Hnone].
  - exact Hq.
  - by vm_compute.
  - destruct Hroot as (m & Hrun & Hread & Hun); [reflexivity | apply (bool_decide_unpack _); by vm_compute |].
    eexists f, _, m. split_and!; [exact Hmem | exact Hrun | exact Hread | exact Hun].
Defined.

End NodeProps.
