(* ===== verification/TreeProps.v ===== *)
(** Properties of the tree of libfuse's nodes: C25 to C27. *)
From S2P Require Import Prelude.
From S2P Require Import CLib.
From S2P Require Import FuseTypes.
From S2P Require Import NodeTable.
From S2P Require Import FuseNodes.
From S2P Require Import FuseNodesFacts.
From S2P Require Import FusePaths.
From S2P Require Import FusePathsFacts.
From S2P Require Import FuseTree.
From S2P Require Import FuseTreeOps.

Module TreeProps.
Import FuseTypes NodeTable FuseNodes FuseNodesFacts FusePaths FusePathsFacts FuseTree FuseTreeOps.

(** ** The kernel's requests about nodes *)

Inductive request :=
  | Lookup (dir : Z) (name : list byte)
  | Again (ino : Z)
  | Forget (ino nlookups : Z)
  | Remove (dir : Z) (name : list byte)
  | Rename (olddir : Z) (oldname : list byte) (newdir : Z) (newname : list byte) (hide : bool).

(** No path through a node on the way up from here is locked. *)
Definition unlocked_up (f : fuse) (p : Z) : Prop := forall ps k m, climbs f.(nodes) p ps k -> f.(nodes) !! k = Some m -> m.(treelock) = 0.

(** What lib/fuse.c does about nodes for each of them. *)
Definition serve (r : request) : prog fuse unit :=
  match r with
  | Lookup dir s => _ <-- find_node dir (Some s) ;; pret tt
  | Again ino => _ <-- find_node ino None ;; pret tt
  | Forget ino k => if ino =? FUSE_ROOT_ID then pret tt else p <-- get_node ino ;; forget_lookups p k
  | Remove dir s => remove_node dir s
  | Rename olddir oldname newdir newname hide =>
      _ <-- rename_node olddir oldname newdir newname hide ;; pret tt
  end.

(** The kernel's side: it names directories it holds, forgets what it looked up,
    does not move a directory below itself, and there are less than 2^32 nodes and
    less than 2^64 lookups of one.  A node is not forgotten while a path through it
    is locked, and nothing is hidden under a name that a node has. *)
Definition allowed (f : fuse) (r : request) : Prop :=
  match r with
  | Lookup dir s => held f dir /\ Z.of_nat (base.size f.(nodes)) < 2 ^ 32 - 3 /\
      forall p n, named f dir s p -> f.(nodes) !! p = Some n -> n.(nlookup) < 2 ^ 64 - 1
  | Again ino => exists p n, numbered f ino p /\ f.(nodes) !! p = Some n /\ n.(nlookup) < 2 ^ 64 - 1
  | Forget ino k => ino = FUSE_ROOT_ID \/ exists p n, numbered f ino p /\ f.(nodes) !! p = Some n /\
      0 < k <= n.(nlookup) /\ (k = n.(nlookup) -> unlocked_up f p)
  | Remove dir s => held f dir
  | Rename olddir oldname newdir newname hide => held f olddir /\ held f newdir /\
      (forall p, named f olddir oldname p -> apart f p newdir) /\
      (forall k, named f newdir newname k -> hide = false)
  end.

(** The node that the request takes a name from: the one that is removed, or the one
    that had the new name of another. *)
Definition loses_name (f : fuse) (r : request) (k : Z) : Prop :=
  match r with
  | Remove dir s => named f dir s k
  | Rename olddir oldname newdir newname _ => (exists p, named f olddir oldname p) /\ named f newdir newname k
  | _ => False
  end.

(** It is one that the kernel has forgotten, and that is only kept because nodes are
    remembered. *)
Definition forgotten_name (f : fuse) (r : request) : Prop :=
  f.(remember) <> 0 /\ exists k n, loses_name f r k /\ f.(nodes) !! k = Some n /\ n.(nlookup) <= 1.

Lemma not_forgotten f r : ~ forgotten_name f r -> forall k, loses_name f r k -> may_unlink f k.
Proof. intros Hno k Hk Hr n Hn. destruct (Z_lt_le_dec 1 n.(nlookup)) as [|Hle]; [done|]. destruct Hno. split; [done|]. by exists k, n. Qed.

Lemma unlink_aborts f p n : f.(remember) <> 0 -> f.(nodes) !! p = Some n -> n.(nlookup) <= 1 -> unlink_node p f = Fail AssertFailed.
Proof.
  intros Hr Hn Hl. unfold unlink_node. prun_get. rewrite (proj2 (Z.eqb_neq _ _) Hr). cbn [negb]. rewrite pbind_assoc. prun (load_node_run f p n Hn).
  unfold pbind, plift. by rewrite Z.gtb_ltb, (proj2 (Z.ltb_ge _ _) Hl).
Qed.

Lemma kids_none ns k : base.size (kids ns k) = 0%nat <-> kids ns k = ∅.
Proof. split; [intros He; by apply leibniz_equiv, size_empty_iff | intros ->; apply size_empty]. Qed.

(** Then a node and those above it that are there for it alone can go. *)
Lemma dies_from f p ps r m : tree f -> climbs f.(nodes) p ps r -> f.(nodes) !! r = Some m -> m.(parent) = None ->
  (forall n, f.(nodes) !! p = Some n -> n.(nodeid) = FUSE_ROOT_ID -> kids f.(nodes) p <> ∅) -> unlocked_up f p ->
  exists gone stop, dies f.(nodes) p gone stop.
Proof.
  intros Htree Hc Hm Hpar. induction Hc as [r|p n s q ps r Hn Hid Hs Hq Hc IH]; intros Hroot Hun.
  - destruct (tr_refs _ _ Htree r m Hm) as [Hpos He]. destruct (Z_lt_le_dec 1 m.(refctr)); [exists [], (Some r); by apply (dies_not _ _ m)|].
    exists [r], None. apply (dies_last _ _ m); [done | lia | apply (Hun [] r m); [constructor | done] |].
    pose proof (tr_placed _ _ Htree r m Hm) as Hp. unfold placed in Hp. rewrite Hpar in Hp. destruct Hp as [|Hid]; [done|]. exfalso.
    apply (Hroot m Hm Hid). apply kids_none. unfold nothing in He. destruct (tr_root _ _ Htree) as (q & x & Hx & Hxi & Hxl).
    assert (q = r) as -> by (apply (proj2 (tr_ids _ _ Htree) FUSE_ROOT_ID); (split; [by eapply (tr_numbered _ _ Htree)|]); eauto).
    assert (x = m) as -> by congruence. unfold looked in He. rewrite (proj2 (Z.eqb_neq _ _) Hxl) in He. lia.
  - destruct (tr_refs _ _ Htree p n Hn) as [Hpos _]. destruct (Z_lt_le_dec 1 n.(refctr)); [exists [], (Some p); by apply (dies_not _ _ n)|].
    destruct IH as (gone & stop & Hd); [done | | |].
    + intros x _ _. assert (p ∈ kids f.(nodes) q) as Hk by (apply elem_of_kids; by exists n). by set_solver.
    + intros qs k x Hx. apply (Hun ((p, s) :: qs)). by eapply climb_up.
    + exists (p :: gone), stop. apply (dies_up _ _ n s q); [done | lia | apply (Hun [] p n); [constructor | done] | done..].
Qed.

Lemma dies_exists f p n : tree f -> f.(nodes) !! p = Some n -> n.(nodeid) <> FUSE_ROOT_ID -> unlocked_up f p -> exists gone stop, dies f.(nodes) p gone stop.
Proof.
  intros Htree Hn Hid. destruct (tr_up _ _ Htree p n Hn) as (ps & r & Hc & _ & m & Hm & Hpar).
  apply (dies_from f p ps r m Htree Hc Hm Hpar). intros x Hx Hxi. by assert (x = n) as -> by congruence.
Qed.

(** Memory does not run out, and the counter of numbers is in its range. *)
Record good (f : fuse) : Prop := mk_good {
  good_tree : tree f;
  good_memory : f.(memory) = [];
  good_ctr : 0 <= f.(ctr) < 2 ^ 32
}.

Lemma good_quiet f f' : good f -> tree f' -> quiet f f' -> good f'.
Proof. intros [_ Hm Hc] Ht (Hm' & Hc' & _). split; [done | by apply Hm' | by rewrite Hc']. Qed.

Lemma serve_lookup f dir s : good f -> allowed f (Lookup dir s) -> exists f', serve (Lookup dir s) f = Ok (tt, f') /\ good f'.
Proof.
  intros Hgood (Hheld & Hsize & Hcount). destruct Hgood as [Htree Hmem Hctr].
  destruct (lookup_node_run f dir s (tr_names _ _ Htree)) as (r & _ & Hspec). unfold serve. destruct r as [p|].
  - assert (named f dir s p) as Hp by (by apply Hspec). destruct (named_facts f dir s p Htree Hp Hheld) as (n & q & d & Hn & _).
    destruct (find_node_known f dir (Some s) p n Htree Hn (Hcount p n Hp Hn) Hp) as (f' & Hrun & Ht & _ & _ & _ & _ & Hq).
    exists f'. split; [by prun Hrun | by apply (good_quiet f)].
  - destruct Hheld as (q & d & Hnum & Hd & _).
    destruct (find_node_new f dir q d s Htree Hmem Hctr Hsize Hnum Hd) as
      (p & c & f' & Hrun & Ht & _ & Hc & _ & _ & _ & _ & _ & Hm & Hct & _).
    { intros k Hk. by apply Hspec in Hk. }
    exists f'. split; [by prun Hrun|]. split; [done | done | by rewrite Hct].
Qed.

Lemma serve_forget f ino k : good f -> allowed f (Forget ino k) -> exists f', serve (Forget ino k) f = Ok (tt, f') /\ good f'.
Proof.
  intros Hgood Hallow. unfold serve. destruct (Z.eqb_spec ino FUSE_ROOT_ID) as [|Hroot]; [by exists f|].
  destruct Hallow as [?|(p & n & Hnum & Hn & Hk & Hdie)]; [done|]. pose proof (good_tree f Hgood) as Htree.
  prun (get_node_run f ino p (tr_ids _ _ Htree) Hnum). destruct (Z.eq_dec k n.(nlookup)) as [->|Hne].
  - assert (n.(nodeid) <> FUSE_ROOT_ID) as Hid by (destruct Hnum as [_ (n' & Hn' & <-)]; congruence).
    destruct (dies_exists f p n Htree Hn Hid (Hdie eq_refl)) as (gone & stop & Hd).
    destruct (forget_all f p n gone stop Htree Hn Hid ltac:(lia) Hd) as (f' & Hrun & Ht & _ & _ & _ & Hq).
    exists f'. split; [done | by apply (good_quiet f)].
  - destruct (forget_some f p n k Htree Hn ltac:(lia)) as (f' & Hrun & Ht & _ & _ & _ & Hq).
    exists f'. split; [done | by apply (good_quiet f)].
Qed.

Lemma serve_rename f olddir oldname newdir newname hide : good f ->
  allowed f (Rename olddir oldname newdir newname hide) -> ~ forgotten_name f (Rename olddir oldname newdir newname hide) ->
  exists f', serve (Rename olddir oldname newdir newname hide) f = Ok (tt, f') /\ good f'.
Proof.
  intros Hgood (Hold & Hnew & Hap & Hover) Hno. pose proof (good_tree f Hgood) as Htree. unfold serve.
  destruct (lookup_node_run f olddir oldname (tr_names _ _ Htree)) as (r & Hlook & Hspec). destruct r as [p|].
  - assert (named f olddir oldname p) as Hp by (by apply Hspec).
    destruct (rename_node_run f olddir oldname newdir newname hide p Htree) as (f' & Hrun & Ht & _ & _ & _ & Hq);
      [right; apply Hgood | done | done | done | by apply Hap | |].
    { intros k Hk. split; [by apply (Hover k)|]. apply (not_forgotten f _ Hno k). split; [by exists p | done]. }
    exists f'. split; [by prun Hrun | by apply (good_quiet f)].
  - exists f. split; [|done]. unfold rename_node. rewrite pbind_assoc. prun Hlook.
    destruct (lookup_node_run f newdir newname (tr_names _ _ Htree)) as (r & Hlook2 & _). rewrite pbind_assoc. by prun Hlook2.
Qed.

(** The root alone is a tree. *)
Lemma root_tree f p : ids_ok f -> names_ok f -> f.(nodes) = {[ p := root_node ]} ->
  (forall i q, numbered f i q <-> i = FUSE_ROOT_ID /\ q = p) -> tree f.
Proof.
  intros Hids Hnames Hns Hnum.
  assert (forall k n, f.(nodes) !! k = Some n -> k = p /\ n = root_node) as Hone
    by (intros k n; rewrite Hns, lookup_singleton_Some; by intros [-> ->]).
  assert (f.(nodes) !! p = Some root_node) as Hp by (by rewrite Hns, lookup_singleton_eq).
  split; try done.
  - intros k n [-> ->]%Hone. by apply (Hnum FUSE_ROOT_ID p).
  - intros k n [-> ->]%Hone [? ?]. done.
  - intros k n [-> ->]%Hone. by right.
  - intros k n [-> ->]%Hone. assert (kids f.(nodes) p = ∅) as ->; [|done].
    apply elem_of_equiv_empty_L. intros j (x & [_ ->]%Hone & Hpar)%elem_of_kids. done.
  - intros k n [-> ->]%Hone. done.
  - intros k n [-> ->]%Hone. exists [], p. split_and!; [constructor | apply not_elem_of_nil | by exists root_node].
  - by exists p, root_node.
Qed.

(** The state fuse_new makes. *)
Lemma new_good r clock : exists f, fuse_new_nodes r clock true true [] = Ok (Some f) /\ good f.
Proof.
  destruct (new_nodes_run r clock) as (f & p & Hnew & Hids & Hnames & Hns & Hnum & _ & _ & Hctr).
  exists f. split; [exact Hnew|]. assert (f.(memory) = []) as Hmem.
  { assert ((x <- fuse_new_nodes r clock true true [] ;; Ok (memory <$> x)) = Ok (Some [])) as Hm by (vm_compute; reflexivity).
    rewrite Hnew in Hm. cbn in Hm. injection Hm as Hm. exact Hm. }
  clear Hnew. split; [by apply (root_tree f p) | done | by rewrite Hctr].
Qed.

(** The kernel takes a name from a node that is only remembered. *)
Lemma forgotten_aborts f r : good f -> allowed f r -> forgotten_name f r -> serve r f = Fail AssertFailed.
Proof.
  intros Hgood Hallow (Hr & k & n & Hlose & Hn & Hl). pose proof (unlink_aborts f k n Hr Hn Hl) as Hun. pose proof (tr_names _ _ (good_tree f Hgood)) as Hnames.
  destruct r as [dir s|ino|ino l|dir s|od on nd nn hide]; cbn in Hlose; try done; unfold serve.
  - unfold remove_node. destruct (lookup_node_run f dir s Hnames) as (x & Hrun & Hspec). prun Hrun. by rewrite (proj2 (Hspec k) Hlose).
  - destruct Hlose as [[p Hp] Hk]. destruct Hallow as (_ & _ & _ & Hover). unfold rename_node.
    destruct (lookup_node_run f od on Hnames) as (x & Hrun & Hspec). destruct (lookup_node_run f nd nn Hnames) as (y & Hrun2 & Hspec2).
    rewrite pbind_assoc. prun Hrun. rewrite pbind_assoc. prun Hrun2. rewrite (proj2 (Hspec p) Hp), (proj2 (Hspec2 k) Hk), (Hover k Hk), andb_false_r.
    rewrite pbind_assoc. unfold pbind. by rewrite Hun.
Qed.

(** C25: started by fuse_new, libfuse keeps its nodes a tree: each is found by its
  number, and by its name and directory when it has one, its references are its
  children and the kernel's lookups, and its parents lead to the root or to a directory
  that has been removed.  Looking a name up, again, forgetting, removing and renaming
  are served without a fault and leave such a tree, as long as memory does not run out,
  when the kernel names directories it holds, forgets no more than it looked up,
  nothing while a path through it or above is locked, does not move a directory below
  itself, and there are fewer than 2^32 - 3 nodes and 2^64 - 1 lookups of one, and a file
  is not hidden under a name in use.  With one exception, in which the assertion of
  unlink_node fails: with the option remember, a name is removed, or taken by another
  node, whose node the kernel has forgotten and libfuse remembers. *)
Theorem tree_kept r clock :
  (exists f, fuse_new_nodes r clock true true [] = Ok (Some f) /\ good f) /\
  forall f req, good f -> allowed f req ->
    (~ forgotten_name f req -> exists f', serve req f = Ok (tt, f') /\ good f') /\
    (forgotten_name f req -> serve req f = Fail AssertFailed).
Proof.
  split; [exact (new_good r clock)|]. intros f req Hgood Hallow. split; [|by apply forgotten_aborts]. intros Hno.
  destruct req as [dir s|ino|ino k|dir s|od on nd nn hide].
  - by apply serve_lookup.
  - destruct Hallow as (p & n & Hnum & Hn & Hl).
    destruct (find_node_known f ino None p n (good_tree f Hgood) Hn Hl Hnum) as (f' & Hrun & Ht & _ & _ & _ & _ & Hq).
    exists f'. unfold serve. split; [by prun Hrun | by apply (good_quiet f)].
  - by apply serve_forget.
  - destruct (remove_node_run f dir s (good_tree f Hgood) Hallow (not_forgotten f _ Hno)) as (f' & Hrun & Ht & _ & _ & _ & Hq).
    exists f'. split; [done | by apply (good_quiet f)].
  - by apply serve_rename.
Qed.

(** A node with nothing below it is one the kernel knows; so every way down ends
    at one. *)
Lemma known_below f : tree f -> forall m k n ps r, f.(nodes) !! k = Some n -> tops f.(nodes) k ps r ->
  (base.size f.(nodes) - length ps <= m)%nat ->
  exists j n', f.(nodes) !! j = Some n' /\ n'.(nlookup) <> 0 /\ exists qs, climbs f.(nodes) j qs k.
Proof.
  intros Htree. induction m as [|m IH]; intros k n ps r Hn Ht Hm.
  all: destruct (Z.eq_dec n.(nlookup) 0) as [Hl|Hl]; [|exists k, n; split_and!; [done | done | exists []; constructor]].
  all: destruct (tr_refs _ _ Htree k n Hn) as [Hpos He]; unfold looked, nothing in He; rewrite Hl in He; cbn in He.
  all: assert (exists j, j ∈ kids f.(nodes) k) as [j (x & Hx & Hpar)%elem_of_kids]
    by (apply set_choose_L; intros He0; rewrite He0, size_empty in He; lia).
  all: destruct (tr_up _ _ Htree j x Hx) as (ps' & r' & Ht').
  all: pose proof Ht' as (Hc' & Hr' & y & Hy & Hyp); pose proof (climbs_length _ _ _ _ Hc' Hr') as Hlen.
  all: inversion Hc' as [|? x' s q ps2 ? Hx' Hid Hs Hq Hc2]; subst; [congruence|].
  all: assert (x' = x) as -> by congruence; assert (q = k) as -> by congruence.
  all: cbn in Hr'; apply not_elem_of_cons in Hr' as [_ Hr2].
  all: assert (tops f.(nodes) k ps2 r') as Ht2 by (split_and!; [done | done | by exists y]).
  all: pose proof (tops_det _ _ _ _ _ _ Ht Ht2) as ->; destruct Ht as (Hc & Hr & _).
  all: pose proof (climbs_det _ _ _ _ _ Hc Hc2 Hr Hr2) as ->; cbn [length] in Hlen.
  - lia.
  - destruct (IH j x ((j, s) :: ps2) r' Hx Ht') as (i & n' & Hn' & Hl' & qs & Hqs); [cbn [length]; lia|].
    exists i, n'. split_and!; [done | done |]. exists (qs ++ [(j, s)]). apply (climbs_app _ _ _ j); [done|].
    eapply climb_up; eauto. constructor.
Qed.

(** The nodes that go are on the way up from the first, and it is one of them unless it
    has children. *)
Lemma dies_above ns p gone stop : dies ns p gone stop -> (forall k n, ns !! k = Some n -> n.(nodeid) = FUSE_ROOT_ID -> n.(parent) = None) ->
  forall k, k ∈ gone -> exists ps, climbs ns p ps k.
Proof.
  intros Hd Hroot. induction Hd as [p n Hn Hr|p n Hn Hr Ht Hs|p n s q gone stop Hn Hr Ht Hs Hq Hd IH]; intros k Hk.
  - by apply not_elem_of_nil in Hk.
  - apply list_elem_of_singleton in Hk as ->. exists []. constructor.
  - apply elem_of_cons in Hk as [->|Hk]; [exists []; constructor|]. destruct (IH k Hk) as [ps Hps]. exists ((p, s) :: ps).
    eapply climb_up; [done | | done..]. intros Hid. by rewrite (Hroot p n Hn Hid) in Hq.
Qed.

Lemma dies_first f p n gone stop : tree f -> f.(nodes) !! p = Some n -> n.(nlookup) <> 0 -> dies f.(nodes) p gone stop ->
  p ∈ gone <-> kids f.(nodes) p = ∅.
Proof.
  intros Htree Hn Hl Hd. destruct (tr_refs _ _ Htree p n Hn) as [_ He]. unfold looked, nothing in He. rewrite (proj2 (Z.eqb_neq _ _) Hl) in He.
  rewrite <- kids_none. inversion Hd as [? m Hm Hr|? m Hm Hr|? m s q g ? Hm Hr]; subst; assert (m = n) as -> by congruence.
  - split; [by intros ?%not_elem_of_nil | lia].
  - split; [lia | by left].
  - split; [lia | by left].
Qed.

(** C26: when the kernel forgets all lookups of a node that are counted (with the
  option remember one more is, and only libfuse takes it), the node goes if no node is
  below it, and else stays; with it, upwards, goes every directory that was there
  for it alone, and nothing else: the other nodes stay, with their names and numbers.
  No node is left over: each is one the kernel still knows or is on the way up from one.
  As long as no path through the node or above is locked. *)
Theorem forgotten_is_freed f ino p n :
  good f -> numbered f ino p -> ino <> FUSE_ROOT_ID -> f.(nodes) !! p = Some n -> n.(nlookup) <> 0 -> unlocked_up f p ->
  exists f' (gone : list Z), serve (Forget ino n.(nlookup)) f = Ok (tt, f') /\ good f' /\
    (p ∈ gone <-> kids f.(nodes) p = ∅) /\ (forall k, k ∈ gone -> exists ps, climbs f.(nodes) p ps k) /\
    (forall k, is_Some (f'.(nodes) !! k) <-> is_Some (f.(nodes) !! k) /\ (k ∉ gone)) /\
    (forall dir s k, named f' dir s k <-> named f dir s k /\ (k ∉ gone)) /\
    (forall i k, numbered f' i k <-> numbered f i k /\ (k ∉ gone)) /\
    forall k m, f'.(nodes) !! k = Some m ->
      exists j m', f'.(nodes) !! j = Some m' /\ m'.(nlookup) <> 0 /\ exists qs, climbs f'.(nodes) j qs k.
Proof.
  intros Hgood Hnum Hroot Hn Hl Hun. pose proof (good_tree f Hgood) as Htree.
  assert (n.(nodeid) <> FUSE_ROOT_ID) as Hid by (destruct Hnum as [_ (n' & Hn' & <-)]; congruence).
  destruct (dies_exists f p n Htree Hn Hid Hun) as (gone & stop & Hd).
  destruct (forget_all f p n gone stop Htree Hn Hid Hl Hd) as (f' & Hrun & Ht & Hns & Hna & Hnu & Hq).
  exists f', gone. split; [|split; [by apply (good_quiet f)|split; [by apply (dies_first f p n gone stop)|split; [|split; [done|split; [done|split; [done|]]]]]]].
  - unfold serve. rewrite (proj2 (Z.eqb_neq _ _)) by done. by prun (get_node_run f ino p (tr_ids _ _ Htree) Hnum).
  - apply (dies_above _ _ _ _ Hd). intros k m Hm Hk. pose proof (tr_placed _ _ Htree k m Hm) as Hp. unfold placed in Hp.
    destruct (parent m); [by destruct Hp | done].
  - intros k m Hm. destruct (tr_up _ _ Ht k m Hm) as (ps & r & Hp). by apply (known_below f' Ht (base.size f'.(nodes)) k m ps r Hm Hp (Nat.le_sub_l _ _)).
Qed.

(** C27: renaming, between directories that the kernel holds and not to a place below
  itself, gives the node its new name in its new directory, takes that name from the
  node that had it, and changes no other name and no number, as long as memory does
  not run out; renaming a name that has no node changes nothing, and hiding under a name
  that is taken is refused.  But with the option remember, when the node that had the
  new name is one the kernel has forgotten, which libfuse only remembers, the assertion of
  unlink_node fails instead. *)
Theorem rename_moves f olddir oldname newdir newname hide :
  good f -> allowed f (Rename olddir oldname newdir newname false) ->
  (forall p, named f olddir oldname p -> (forall k, named f newdir newname k -> hide = false) ->
   ~ forgotten_name f (Rename olddir oldname newdir newname hide) ->
   exists f', rename_node olddir oldname newdir newname hide f = Ok (0, f') /\ good f' /\
     (forall dir s k, named f' dir s k <-> (dir = newdir /\ s = newname /\ k = p) \/
       (named f dir s k /\ (dir, s) <> (olddir, oldname) /\ (dir, s) <> (newdir, newname))) /\
     forall i k, numbered f' i k <-> numbered f i k) /\
  ((forall p, ~ named f olddir oldname p) -> rename_node olddir oldname newdir newname hide f = Ok (0, f)) /\
  (forall p k, named f olddir oldname p -> named f newdir newname k -> hide = true ->
   rename_node olddir oldname newdir newname hide f = Ok (- EBUSY, f)) /\
  (forgotten_name f (Rename olddir oldname newdir newname false) -> rename_node olddir oldname newdir newname false f = Fail AssertFailed).
Proof.
  intros Hgood Hallow. pose proof Hallow as (Hold & Hnew & Hap & _). pose proof (good_tree f Hgood) as Htree.
  destruct (lookup_node_run f olddir oldname (tr_names _ _ Htree)) as (r & Hlook & Hspec).
  destruct (lookup_node_run f newdir newname (tr_names _ _ Htree)) as (r2 & Hlook2 & Hspec2). split_and!.
  - intros p Hp Hhide Hno.
    destruct (rename_node_run f olddir oldname newdir newname hide p Htree) as (f' & Hrun & Ht & Hna & Hnu & _ & Hq);
      [right; apply Hgood | done | done | done | by apply Hap | |].
    { intros k Hk. split; [by apply (Hhide k)|]. apply (not_forgotten f _ Hno k). split; [by exists p | done]. }
    exists f'. split; [done|]. split; [by apply (good_quiet f)|]. done.
  - intros Hno. unfold rename_node. prun Hlook. prun Hlook2. destruct r as [p|]; [|done]. destruct (Hno p). by apply Hspec.
  - intros p k Hp Hk ->. unfold rename_node. prun Hlook. prun Hlook2.
    rewrite (proj2 (Hspec p) Hp), (proj2 (Hspec2 k) Hk). done.
  - intros Hf. pose proof (forgotten_aborts f _ Hgood Hallow Hf) as Ha. unfold serve, pbind in Ha.
    destruct (rename_node _ _ _ _ _ f) as [[x f']|e]; [done | by injection Ha as ->].
Qed.

(** ** Witnesses: a directory "docs" (number 2) with an "a" (number 3) in it *)

Definition no_fuse : fuse :=
  mk_fuse (mk_table [] 0 0 0) (mk_table [] 0 0 0) [] 0 0 0 ∅ 0 [].
Definition s0 : fuse := match fuse_new_nodes 0 0 true true [] with Ok (Some f) => f | _ => no_fuse end.
Definition after (r : request) (f : fuse) : fuse := match serve r f with Ok (_, f') => f' | Fail _ => no_fuse end.
Definition s1 : fuse := after (Lookup 1 (lit "docs")) s0.
Definition s2 : fuse := after (Lookup 2 (lit "a")) s1.
Definition s3 : fuse := after (Forget 2 1) s2.

Lemma numbered_by f i q : good f -> (r <- get_node_nocheck i f ;; Ok r.1) = Ok (Some q) -> numbered f i q.
Proof.
  intros Hg. destruct (get_node_nocheck_run f i (tr_ids _ _ (good_tree f Hg))) as (r & -> & Hspec). cbn.
  intros [= ->]. by apply Hspec.
Qed.

Lemma named_by f dir s r : good f -> (x <- lookup_node dir s f ;; Ok x.1) = Ok r ->
  forall k, r = Some k <-> named f dir s k.
Proof.
  intros Hg. destruct (lookup_node_run f dir s (tr_names _ _ (good_tree f Hg))) as (x & -> & Hspec). cbn. by intros [= ->].
Qed.

Lemma held_by f dir q d : good f -> (r <- get_node_nocheck dir f ;; Ok r.1) = Ok (Some q) ->
  f.(nodes) !! q = Some d -> d.(nlookup) <> 0 -> held f dir.
Proof. intros Hg Hr Hd Hl. exists q, d. split_and!; [by apply numbered_by | done | done]. Qed.

Lemma new_name_allowed f dir s q d : good f -> (r <- get_node_nocheck dir f ;; Ok r.1) = Ok (Some q) ->
  f.(nodes) !! q = Some d -> d.(nlookup) <> 0 -> Z.of_nat (base.size f.(nodes)) < 2 ^ 32 - 3 ->
  (x <- lookup_node dir s f ;; Ok x.1) = Ok None -> allowed f (Lookup dir s).
Proof.
  intros Hg Hr Hd Hl Hsize Hno. split_and!; [by apply (held_by f dir q d) | done |].
  intros p n Hp _. by apply (named_by f dir s None Hg Hno) in Hp.
Qed.

Lemma after_good f r : good f -> (exists f', serve r f = Ok (tt, f') /\ good f') -> good (after r f).
Proof. intros Hg (f' & Hrun & Hg'). unfold after. by rewrite Hrun. Qed.

(** No node is locked. *)
Lemma no_locks f p : forallb (fun x => x.2.(treelock) =? 0) (map_to_list f.(nodes)) = true -> unlocked_up f p.
Proof.
  intros Hall ps k m _ Hm. rewrite forallb_forall in Hall. apply Z.eqb_eq, (Hall (k, m)). by apply list_elem_of_In, elem_of_map_to_list.
Qed.

Lemma s0_good : good s0.
Proof. destruct (new_good 0 0) as (f & Hnew & Hg). unfold s0. rewrite Hnew. exact Hg. Qed.

Lemma s1_good : good s1.
Proof.
  apply after_good; [exact s0_good|]. apply serve_lookup; [exact s0_good|].
  apply (new_name_allowed s0 1 (lit "docs") 0 root_node s0_good); by vm_compute.
Qed.

Definition docs_node (refs lookups : Z) : node := mk_node 2 0 refs (Some 0) (Some (lit "docs")) lookups 0 0 0 file_zero.

Lemma a_allowed : allowed s1 (Lookup 2 (lit "a")).
Proof. apply (new_name_allowed s1 2 (lit "a") 1 (docs_node 1 1) s1_good); by vm_compute. Qed.

Lemma s2_good : good s2.
Proof. apply after_good; [exact s1_good|]. apply serve_lookup; [exact s1_good | exact a_allowed]. Qed.

Lemma s3_good : good s3.
Proof.
  apply after_good; [exact s2_good|]. apply serve_forget; [exact s2_good|]. right. exists 1, (docs_node 2 1). split_and!.
  - apply (numbered_by s2 2 1 s2_good). by vm_compute.
  - by vm_compute.
  - done.
  - done.
  - intros _. apply (no_locks s2). by vm_compute.
Qed.

(** With remember: "docs" and "x" are looked up, and "x" is forgotten. *)
Definition k0 : fuse := match fuse_new_nodes 60 0 true true [] with Ok (Some f) => f | _ => no_fuse end.
Definition k1 : fuse := after (Lookup 1 (lit "docs")) k0.
Definition k2 : fuse := after (Lookup 1 (lit "x")) k1.
Definition k3 : fuse := after (Forget 3 1) k2.
Definition x_node (lookups : Z) : node := mk_node 3 0 1 (Some 0) (Some (lit "x")) lookups 0 0 0 file_zero.

Lemma k0_good : good k0.
Proof. destruct (new_good 60 0) as (f & Hnew & Hg). unfold k0. rewrite Hnew. exact Hg. Qed.

Lemma k1_good : good k1.
Proof.
  apply after_good; [exact k0_good|]. apply serve_lookup; [exact k0_good|].
  apply (new_name_allowed k0 1 (lit "docs") 0 (with_nlookup root_node 1) k0_good); by vm_compute.
Qed.

Lemma k2_good : good k2.
Proof.
  apply after_good; [exact k1_good|]. apply serve_lookup; [exact k1_good|].
  apply (new_name_allowed k1 1 (lit "x") 0 (with_nlookup (with_refctr root_node 2) 1) k1_good); by vm_compute.
Qed.

Lemma k3_good : good k3.
Proof.
  apply after_good; [exact k2_good|]. apply serve_forget; [exact k2_good|]. right. exists 2, (x_node 2). split_and!.
  - apply (numbered_by k2 3 2 k2_good). by vm_compute.
  - by vm_compute.
  - done.
  - done.
  - intros He. discriminate He.
Qed.

Lemma k3_held : held k3 1.
Proof. apply (held_by k3 1 0 (with_refctr root_node 3) k3_good); by vm_compute. Qed.

Lemma tree_kept_witness : (exists f', serve (Lookup 2 (lit "a")) s1 = Ok (tt, f') /\ good f') /\ serve (Remove 1 (lit "x")) k3 = Fail AssertFailed.
Proof.
  split.
  - apply (proj1 (proj2 (tree_kept 0 0) s1 (Lookup 2 (lit "a")) s1_good a_allowed)). intros (_ & k & n & Hk & _). exact Hk.
  - apply (proj2 (proj2 (tree_kept 60 0) k3 (Remove 1 (lit "x")) k3_good k3_held)). split; [by vm_compute|].
    exists 2, (x_node 1).
    split; [|by vm_compute]. apply (named_by k3 1 (lit "x") (Some 2) k3_good); by vm_compute.
Defined.

Lemma forgotten_is_freed_witness : exists f', serve (Forget 3 1) s3 = Ok (tt, f') /\
  f'.(nodes) !! 2 = None /\ f'.(nodes) !! 1 = None.
Proof.
  destruct (forgotten_is_freed s3 3 2 (mk_node 3 0 1 (Some 1) (Some (lit "a")) 1 0 0 0 file_zero) s3_good)
    as (f' & gone & Hrun & _ & Hgone & _ & Hnodes & _ & _ & Hleft).
  - apply (numbered_by s3 3 2 s3_good). by vm_compute.
  - done.
  - by vm_compute.
  - done.
  - apply (no_locks s3). by vm_compute.
  - cbn [nlookup] in Hrun. exists f'. split; [exact Hrun|].
    assert (2 ∈ gone) as H2 by (apply Hgone, kids_none; by vm_compute).
    split; [apply eq_None_not_Some; intros [_ Hno]%Hnodes; exact (Hno H2)|].
    assert (after (Forget 3 1) s3 = f') as <- by (unfold after; by rewrite Hrun). by vm_compute.
Defined.

Lemma rename_moves_witness : exists f', rename_node 1 (lit "docs") 1 (lit "b") false s2 = Ok (0, f') /\
  named f' 1 (lit "b") 1 /\ forall k, ~ named f' 1 (lit "docs") k.
Proof.
  assert (held s2 1) as Hheld by (apply (held_by s2 1 0 (with_refctr root_node 2) s2_good); by vm_compute).
  pose proof (named_by s2 1 (lit "docs") (Some 1) s2_good ltac:(by vm_compute)) as Hdocs.
  pose proof (named_by s2 1 (lit "b") None s2_good ltac:(by vm_compute)) as Hb.
  destruct (rename_moves s2 1 (lit "docs") 1 (lit "b") false s2_good) as (Hmove & _).
  - split_and!; [exact Hheld | exact Hheld | | by intros k Hk%Hb].
    intros p Hp. apply (child_apart s2 1 (lit "docs") p (good_tree s2 s2_good) Hp).
  - destruct (Hmove 1) as (f' & Hrun & _ & Hna & _); [apply Hdocs; reflexivity | reflexivity | intros [Hr _]; apply Hr; reflexivity |].
    exists f'. split; [exact Hrun|]. split; [apply Hna; left; split; [reflexivity | split; reflexivity]|].
    intros k [(_ & He & _)|(_ & Hne & _)]%Hna; [discriminate He | by apply Hne].
Defined.

End TreeProps.
