(* ===== verification/QueueProps.v ===== *)
(** Properties of the queue for paths of libfuse: C29 to C31. *)
From S2P Require Import Prelude.
From S2P Require Import CLib.
From S2P Require Import FuseTypes.
From S2P Require Import NodeTable.
From S2P Require Import FuseNodes.
From S2P Require Import FuseNodesFacts.
From S2P Require Import FusePaths.
From S2P Require Import FusePathsFacts.
From S2P Require Import LockTable.
From S2P Require Import FuseQueue.
From S2P Require Import FuseTree.
From S2P Require Import FuseQueueFacts.
From S2P Require Import NodeProps.

Module QueueProps.
Import FuseTypes NodeTable FuseNodes FuseNodesFacts FusePaths FusePathsFacts LockTable FuseQueue FuseTree FuseQueueFacts NodeProps.

(** ** Threads that share the locks *)

(** A thread that holds a path or two, and what it has to give back. *)
Record holder := mk_holder {
  thread : Z;
  first : wanted;
  other : option wanted;
  node1 : option Z;
  node2 : option Z
}.

Record system := mk_system { locks : locker; holders : list holder }.

Inductive action :=
  | Get (t : Z) (w : wanted) (w2 : option wanted)
  | Wake (t : Z)
  | Free (t : Z).

(** Who asked for a path: it holds it, or it got an error, or it sleeps. *)
Definition served (t : Z) (w : wanted) (w2 : option wanted) (r : step_end (Z * got * got)) (hs : list holder) : list holder :=
  match r with
  | Returns (e, g1, g2) => if e =? 0 then mk_holder t w w2 g1.2 g2.2 :: hs else hs
  | Sleeps => hs
  end.

Definition act (a : action) (y : system) : outcome (unit * system) :=
  match a with
  | Get t w w2 =>
      let! (r, l) := get_path_wait t w w2 y.(locks) in
      Ok (tt, mk_system l (served t w w2 r y.(holders)))
  | Wake t =>
      let! (r, l) := wait_path_resume t y.(locks) in
      match find_element t y.(locks).(lockq) with
      | Some qe =>
          match qe.(path1) with
          | Some w => Ok (tt, mk_system l (served t w qe.(second) r y.(holders)))
          | None => Ok (tt, mk_system l y.(holders))
          end
      | None => Ok (tt, mk_system l y.(holders))
      end
  | Free t =>
      match head (filter (fun h => h.(thread) = t) y.(holders)) with
      | None => Ok (tt, y)
      | Some h =>
          let! (_, l) := (match h.(other) with
            | None => free_path_wrlock h.(first).(ino) h.(node1)
            | Some w2 => free_path2 h.(first).(ino) w2.(ino) h.(node1) h.(node2)
            end) y.(locks) in
          Ok (tt, mk_system l (filter (fun h => h.(thread) <> t) y.(holders)))
      end
  end.

Definition threads (y : system) : list Z := y.(locks).(lockq).*1 ++ (thread <$> y.(holders)).

(** A thread asks for one thing at a time, for paths that exist; there are less
    than 2^30 threads. *)
Definition allowed (f : fuse) (y : system) (a : action) : Prop :=
  match a with
  | Get t w w2 => (t ∉ threads y) /\ asks_all f w w2 /\ 2 * zlen (threads y) + 4 < INT_MAX
  | Wake t => t ∈ y.(locks).(lockq).*1
  | Free t => t ∈ thread <$> y.(holders)
  end.

Inductive reached (f : fuse) : system -> Prop :=
  | reached_start : reached f (mk_system (mk_locker f [] []) [])
  | reached_act y a y' : reached f y -> allowed f y a -> act a y = Ok (tt, y') -> reached f y'.

(** ** Invariant *)

Definition holder_claims (f : fuse) (hs : list holder) : list claim :=
  hs ≫= fun h => claims f h.(first) h.(other).

Definition holder_ok (f : fuse) (h : holder) : Prop :=
  asks_all f h.(first) h.(other) /\ right_nodes f h.(first) h.(other) h.(node1) h.(node2).

Record sys_ok (f : fuse) (L : Z -> Z) (y : system) : Prop := mk_sys {
  sys_locked : y.(locks).(lf) = locked f L;
  sys_counted : counted (queue_claims f y.(locks).(lockq) ++ holder_claims f y.(holders)) L;
  sys_elements : Forall (element_ok f y.(locks).(signals)) y.(locks).(lockq);
  sys_blocked : Forall (fun x => blocked f L x.2) y.(locks).(lockq);
  sys_holders : Forall (holder_ok f) y.(holders);
  sys_threads : NoDup (threads y);
  sys_few : 2 * zlen (threads y) + 2 < INT_MAX
}.

Lemma holder_claims_length f hs : zlen (holder_claims f hs) <= 2 * zlen hs.
Proof.
  induction hs as [|h hs IH]; [done|]. unfold holder_claims in *. cbn [mbind list_bind length]. rewrite zlen_app.
  pose proof (claims_length f h.(first) h.(other)). lia.
Qed.

#[global] Instance holder_claims_perm f : Proper ((≡ₚ) ==> (≡ₚ)) (holder_claims f).
Proof. intros hs hs' Hp. unfold holder_claims. by rewrite Hp. Qed.

Lemma threads_length y : zlen (threads y) = zlen y.(locks).(lockq) + zlen y.(holders).
Proof. unfold threads. rewrite zlen_app, !length_fmap. done. Qed.

Lemma filter_all {A} (P : A -> Prop) {HP : forall x, Decision (P x)} (l : list A) : (forall x, x ∈ l -> P x) -> filter P l = l.
Proof.
  induction l as [|a l IH]; intros H; [done|]. rewrite filter_cons, decide_True by (apply H; by left).
  f_equal. apply IH. intros x Hx. apply H. by right.
Qed.

Lemma Forall_filter {A} (P Q : A -> Prop) {HQ : forall x, Decision (Q x)} (l : list A) : Forall P l -> Forall P (filter Q l).
Proof. rewrite !Forall_forall. intros H x [_ Hx]%list_elem_of_filter. by apply H. Qed.

(** Someone taken out of a list by its number. *)
Lemma take_out {A} (key : A -> Z) t (l : list A) x : NoDup (key <$> l) ->
  head (filter (fun y => key y = t) l) = Some x -> key x = t /\ l ≡ₚ x :: filter (fun y => key y <> t) l.
Proof.
  induction l as [|a l IH]; [done|]. cbn [fmap list_fmap]. intros [Ha Hnd]%NoDup_cons. rewrite !filter_cons.
  destruct (decide (key a = t)) as [He|He].
  - cbn [head]. intros [= <-]. split; [done|]. rewrite decide_False by (intros H; by apply H).
    f_equiv. assert (filter (fun y => key y <> t) l = l) as ->; [|done].
    apply filter_all. intros y Hy Heq. apply Ha. rewrite <- He in Heq. rewrite <- Heq. by apply list_elem_of_fmap_2.
  - intros H. destruct (IH Hnd H) as [Hx Hp]. split; [done|]. rewrite decide_True by done. rewrite Hp at 1. apply perm_swap.
Qed.

Lemma take_out_some {A} (key : A -> Z) t (l : list A) : t ∈ key <$> l ->
  exists x, head (filter (fun y => key y = t) l) = Some x.
Proof.
  intros (x & -> & Hx)%list_elem_of_fmap. assert (x ∈ filter (fun y => key y = key x) l) as Hin by (by apply list_elem_of_filter).
  destruct (filter _ l) as [|y l']; [by apply elem_of_nil in Hin | by exists y].
Qed.

(** ** Progress *)

(** The two claims of a request do not exclude each other. *)
Definition apart (c1 c2 : claim) : Prop := forall k,
  (c1.(c_write) = Some k -> c2.(c_write) <> Some k /\ k ∉ c2.(c_way)) /\ (c2.(c_write) = Some k -> k ∉ c1.(c_way)).

Definition no_clash (f : fuse) (y : system) : Prop := forall t w w2, (t, Some w, Some w2) ∈ asked <$> y.(locks).(lockq) ->
  apart (claim_of f w) (claim_of f w2).

(** A thread that has its locks goes on, or one gives its locks back. *)
Definition useful (y : system) (a : action) : Prop :=
  match a with
  | Get _ _ _ => False
  | Wake t => exists qe, find_element t y.(locks).(lockq) = Some qe /\ qe.(done) = true
  | Free t => t ∈ thread <$> y.(holders)
  end.

Inductive finishes : system -> list action -> system -> Prop :=
  | finishes_end y : finishes y [] y
  | finishes_step y a y1 l y2 : useful y a -> act a y = Ok (tt, y1) -> finishes y1 l y2 -> finishes y (a :: l) y2.

Definition work (y : system) : Z := 2 * zlen y.(locks).(lockq) + zlen y.(holders).

Lemma free_takes c L : (forall k, L k = 0) -> try_take c L = (true, take c L).
Proof.
  intros H0. apply try_take_true. split_and!; [| | done].
  - apply write_free. intros k _. apply H0.
  - apply way_free. intros k _. by rewrite H0.
Qed.

Lemma free_takes_all c c2 L : (forall k, L k = 0) -> (forall c', c2 = Some c' -> apart c c') -> (try_claims c c2 L).1 = true.
Proof.
  intros H0 Hap. destruct c2 as [c'|]; cbn [try_claims]; [|by rewrite free_takes]. unfold try_take2. rewrite free_takes by done.
  assert (try_take c' (take c L) = (true, take c' (take c L))) as ->; [|done]. specialize (Hap c' eq_refl).
  apply try_take_true. split_and!; [| | done].
  - apply write_free. intros k Hk. destruct (Hap k) as [Hap1 Hap2]. unfold take.
    rewrite decide_False by (intros Hc; by destruct (Hap1 Hc)). rewrite decide_False by (by apply Hap2). apply H0.
  - apply way_free. intros k Hk. destruct (Hap k) as [Hap1 _]. unfold take.
    rewrite decide_False by (intros Hc; by destruct (Hap1 Hc)).
    rewrite H0. by destruct (decide _).
Qed.

Lemma unlocked_all L : counted [] L -> forall k, L k = 0.
Proof. intros H k. specialize (H k). unfold writers, readers in H. cbn in H. lia. Qed.

Lemma undone_claims f q : (forall x, x ∈ q -> x.2.(done) = false) -> queue_claims f q = [].
Proof.
  induction q as [|[t qe] q IH]; intros Hd; [done|]. rewrite queue_claims_cons, IH.
  - unfold element_claims. pose proof (Hd (t, qe) ltac:(by left)) as He. cbn [snd] in *. rewrite He. by destruct qe.(path1).
  - intros x Hx. apply Hd. by right.
Qed.

Section steps.
Context (f : fuse) (Hshape : shape f).

Lemma start_ok : sys_ok f (fun _ => 0) (mk_system (mk_locker f [] []) []).
Proof.
  split; cbn [locks lf lockq signals holders]; try by constructor.
  - by rewrite <- (own_locks f (fun _ => 0)) by apply Hshape.
  - intros k. right. split; [done | by left].
Qed.

Lemma claims_bound L y : sys_ok f L y -> zlen (holder_claims f y.(holders)) + 2 * zlen y.(locks).(lockq) < INT_MAX.
Proof.
  intros Hok. pose proof (sys_few _ _ _ Hok) as Hf. rewrite threads_length in Hf.
  pose proof (holder_claims_length f y.(holders)). lia.
Qed.

Lemma blocked_all_more L L' (q : list (Z * lock_queue_element)) : more L L' ->
  Forall (fun x => blocked f L x.2) q -> Forall (fun x => blocked f L' x.2) q.
Proof. intros Hm Hq. eapply Forall_impl; [exact Hq|]. intros x. by apply blocked_more. Qed.

Lemma new_room L y : sys_ok f L y -> 2 * zlen (threads y) + 4 < INT_MAX ->
  zlen (queue_claims f y.(locks).(lockq) ++ holder_claims f y.(holders)) + 2 < INT_MAX.
Proof.
  intros Hok Hb. rewrite threads_length in Hb. rewrite zlen_app.
  pose proof (holder_claims_length f y.(holders)). pose proof (queue_claims_length f y.(locks).(lockq)). lia.
Qed.

Lemma get_ok L y t w w2 : sys_ok f L y -> allowed f y (Get t w w2) ->
  exists L' y', act (Get t w w2) y = Ok (tt, y') /\ sys_ok f L' y' /\ threads y' ≡ₚ t :: threads y /\
    exists ok n1 n2, try_claims (claim_of f w) (claim_of f <$> w2) L = (ok, L') /\
    y'.(holders) = (if ok then mk_holder t w w2 n1 n2 :: y.(holders) else y.(holders)) /\
    y'.(locks).(lockq) = if ok then y.(locks).(lockq)
      else y.(locks).(lockq) ++ [(t, mk_element w.(ino) (Some w) w2 0 false (None, None) (None, None))].
Proof.
  intros Hok (Ht & Hall & Hroom). pose proof Hok as [Hlf Hcnt Hel Hbl Hho Hnd Hfew].
  pose proof (new_room L y Hok Hroom) as Hsum. set (q := y.(locks).(lockq)) in *. set (hc := queue_claims f q ++ holder_claims f y.(holders)) in *.
  assert (few (claims f w w2 ++ hc)) as Hf.
  { unfold few. rewrite zlen_app. pose proof (claims_length f w w2). lia. }
  assert (few hc) as Hf0 by (unfold few; lia).
  destruct (try_claims (claim_of f w) (claim_of f <$> w2) L) as [ok L'] eqn:Htry.
  destruct (try_wanted_run f (sh_ids _ Hshape) (sh_names _ Hshape) (sh_memory _ Hshape) L w w2 hc ok L' Hall Hcnt Hf Htry)
    as (g1 & g2 & Hrun & Hright).
  pose proof (try_claims_more _ _ hc L ok L' Hcnt Hf0 Htry) as Hmore.
  pose proof (try_claims_counted _ _ hc L ok L' Hcnt (asks_all_fair f (sh_ids _ Hshape) (sh_names _ Hshape) _ _ Hall) Hf Htry) as Hcnt'.
  assert (on_nodes (try_wanted w w2) y.(locks) =
    Ok ((if ok then 0 else - EAGAIN, g1, g2), mk_locker (locked f L') q y.(locks).(signals))) as Hon
    by (unfold on_nodes; rewrite Hlf, Hrun; done).
  exists L'. unfold act, get_path_wait. rewrite (pbind_run _ _ _ _ _ Hon). destruct ok.
  - eexists. split; [reflexivity|]. cbn [served]. change (0 =? 0) with true. cbv iota.
    split; [|split; [unfold threads; cbn [locks lockq holders fmap list_fmap thread]; by rewrite <- Permutation_middle | by exists true, g1.2, g2.2]].
    split; cbn [locks lf lockq signals holders].
    + done.
    + cbn [holder_claims mbind list_bind first other]. unfold hc in Hcnt'. by rewrite (Permutation_app_swap_app (queue_claims f q)).
    + done.
    + by apply (blocked_all_more L).
    + apply Forall_cons. split; [|done]. split; [done | by apply Hright].
    + unfold threads. cbn [locks lockq holders fmap list_fmap thread]. rewrite <- Permutation_middle. by apply NoDup_cons.
    + rewrite (threads_length y) in Hroom. rewrite threads_length. cbn [locks lockq holders length]. fold q in Hroom |- *. lia.
  - eexists. split; [reflexivity|]. cbn [served].
    set (x := (t, _)). split; [|split; [|by exists false, None, None]]; cycle 1.
    { unfold threads. cbn [locks lockq holders]. rewrite fmap_app, <- app_assoc. cbn [fmap list_fmap app x fst].
      by rewrite <- Permutation_middle. }
    split; cbn [locks lf lockq signals holders].
    + done.
    + unfold queue_claims. rewrite bind_app. unfold x. cbn [mbind list_bind snd]. unfold element_claims at 2.
      cbn [with_result path1 done app]. by rewrite app_nil_r.
    + apply Forall_app. split; [done|]. apply Forall_singleton. by exists w.
    + apply Forall_app. split; [by apply (blocked_all_more L)|]. apply Forall_singleton.
      intros _ w' [= <-]. cbn [x snd second with_result]. apply (claims_busy_more _ _ L); [done | by rewrite Htry].
    + done.
    + unfold threads. cbn [locks lockq holders]. rewrite fmap_app, <- app_assoc. cbn [fmap list_fmap app x fst].
      rewrite <- Permutation_middle. by apply NoDup_cons.
    + rewrite (threads_length y) in Hroom. rewrite threads_length. cbn [locks lockq holders]. rewrite zlen_app. cbn [length]. fold q in Hroom |- *. lia.
Qed.

(** The element of a sleeping thread. *)
Lemma element_found L y t : sys_ok f L y -> t ∈ y.(locks).(lockq).*1 ->
  exists qe, find_element t y.(locks).(lockq) = Some qe /\ element_ok f y.(locks).(signals) (t, qe) /\
    y.(locks).(lockq) ≡ₚ (t, qe) :: filter (fun x => x.1 <> t) y.(locks).(lockq).
Proof.
  intros Hok Ht. destruct (take_out_some fst t _ Ht) as ([t' qe] & Hx).
  assert (NoDup y.(locks).(lockq).*1) as Hnd by (by destruct (proj1 (NoDup_app _ _) (sys_threads _ _ _ Hok))).
  destruct (take_out fst t _ _ Hnd Hx) as [He Hp]. cbn in He. subst t'. exists qe.
  split; [unfold find_element; by rewrite Hx|]. split; [|done].
  apply (proj1 (Forall_forall _ _) (sys_elements _ _ _ Hok)). rewrite Hp. by left.
Qed.

Lemma others_ok sig t (q : list (Z * lock_queue_element)) : Forall (element_ok f sig) q -> (t ∉ q.*1) ->
  Forall (element_ok f (filter (fun x => x <> t) sig)) q.
Proof.
  intros Hq Ht. apply Forall_forall. intros x Hx. pose proof (proj1 (Forall_forall _ _) Hq x Hx) as (w & Hw & Hall & Hd).
  exists w. split_and!; [done..|]. intros (He & Hr & Hin)%Hd. split_and!; [done..|]. apply list_elem_of_filter.
  split; [|done]. intros <-. apply Ht. by apply list_elem_of_fmap_2.
Qed.

Lemma not_filtered t (q : list (Z * lock_queue_element)) : t ∉ (filter (fun x => x.1 <> t) q).*1.
Proof. intros (x & -> & [Hx _]%list_elem_of_filter)%list_elem_of_fmap. by apply Hx. Qed.

Lemma wake_ok L y t : sys_ok f L y -> allowed f y (Wake t) ->
  exists L' y', act (Wake t) y = Ok (tt, y') /\ sys_ok f L' y' /\
    forall qe, find_element t y.(locks).(lockq) = Some qe -> qe.(done) = true ->
      y'.(locks).(lockq) = filter (fun x => x.1 <> t) y.(locks).(lockq) /\ zlen y'.(holders) = zlen y.(holders) + 1.
Proof.
  intros Hok Ht. destruct (element_found L y t Hok Ht) as (qe & Hfind & (w & Hw & Hall & Hd) & Hp).
  destruct Hok as [Hlf Hcnt Hel Hbl Hho Hnd Hfew]. cbn [snd fst] in *. exists L.
  unfold act, wait_path_resume. rewrite Hfind, Hw. prun_get.
  rewrite (pbind_run _ _ _ _ _ (eq_refl : pput _ y.(locks) = Ok (tt, _))). rewrite Hfind.
  prun_lift (eq_refl : lift_fault OutOfBounds (Some qe) = Ok qe). set (q := y.(locks).(lockq)) in *.
  assert (Forall (fun x => element_ok f y.(locks).(signals) x) (filter (fun x => x.1 <> t) q)) as Hel'
    by (by apply Forall_filter).
  destruct qe.(done) eqn:Hdone.
  - destruct (Hd eq_refl) as (He & Hright & _). eexists. split; [reflexivity|]. rewrite He. cbn [served].
    change (0 =? 0) with true. cbv iota. split; [split|]; cbn [locks lf lockq signals holders].
    + done.
    + rewrite Hp, queue_claims_cons in Hcnt. unfold element_claims in Hcnt. rewrite Hw, Hdone in Hcnt. cbn [holder_claims mbind list_bind first other].
      by rewrite Permutation_app_swap_app, app_assoc.
    + apply others_ok; [done | apply not_filtered].
    + by apply Forall_filter.
    + apply Forall_cons. by split.
    + unfold threads in *. cbn [locks lockq holders fmap list_fmap thread]. rewrite <- Permutation_middle.
      fold q in Hnd. rewrite Hp in Hnd. done.
    + rewrite threads_length in *. cbn [locks lockq holders]. fold q in Hfew. apply Permutation_length in Hp.
      cbn [length] in *. lia.
    + intros _ _ _. split; [done | cbn [length]; lia].
  - eexists. split; [reflexivity|]. cbn [served]. split; [|intros ? ?; congruence]. split; try done. cbn [locks lf lockq signals holders].
    rewrite Hp. apply Forall_cons. split.
    + exists w. split_and!; [done..|]. cbn [snd]. congruence.
    + apply others_ok; [done | apply not_filtered].
Qed.

(** Giving back what a thread holds: the locks, then the queue. *)
Lemma holder_found L y t : sys_ok f L y -> t ∈ thread <$> y.(holders) ->
  exists h, head (filter (fun h => h.(thread) = t) y.(holders)) = Some h /\ holder_ok f h /\
    y.(holders) ≡ₚ h :: filter (fun h => h.(thread) <> t) y.(holders).
Proof.
  intros Hok Ht. destruct (take_out_some thread t _ Ht) as (h & Hx).
  assert (NoDup (thread <$> y.(holders))) as Hnd by (by destruct (proj1 (NoDup_app _ _) (sys_threads _ _ _ Hok)) as (_ & _ & ?)).
  destruct (take_out thread t _ _ Hnd Hx) as [He Hp]. exists h. split_and!; [done | | done].
  apply (proj1 (Forall_forall _ _) (sys_holders _ _ _ Hok)). rewrite Hp. by left.
Qed.

Lemma give_on L w n hs q sig : asks f w -> n = (claim_of f w).(c_write) -> counted (claim_of f w :: hs) L ->
  few (claim_of f w :: hs) ->
  on_nodes (unlock_path w.(ino) n None) (mk_locker (locked f L) q sig) =
    Ok (tt, mk_locker (locked f (give (claim_of f w) L)) q sig).
Proof.
  intros Hasks -> Hcnt Hfew. unfold on_nodes. cbn [lf lockq signals].
  by rewrite (give_run f (sh_ids _ Hshape) (sh_names _ Hshape) L w hs Hasks Hcnt Hfew).
Qed.

Lemma give_all_run (w : wanted) w2 n1 n2 L hs q sig (rest : prog locker unit) : asks_all f w w2 -> right_nodes f w w2 n1 n2 ->
  counted (claims f w w2 ++ hs) L -> few (claims f w w2 ++ hs) ->
  (on_nodes (unlock_path w.(ino) n1 None) ;;;
   match w2 with Some w2 => on_nodes (unlock_path w2.(ino) n2 None) | None => pret tt end ;;; rest) (mk_locker (locked f L) q sig) =
  rest (mk_locker (locked f (give_all (claim_of f w) (claim_of f <$> w2) L)) q sig).
Proof.
  destruct Hshape as [Hids Hnames Hmem _].
  intros Hall [Hn1 Hn2] Hcnt Hfew. pose proof (asks_all_fair f Hids Hnames _ _ Hall) as Hfair. destruct Hall as [H1 H2].
  destruct w2 as [w'|]; unfold claims in *; cbn [fmap option_fmap option_map all_claims app give_all] in *.
  - specialize (H2 w' eq_refl). specialize (Hn2 w' eq_refl).
    rewrite perm_swap in Hcnt. assert (few (claim_of f w :: claim_of f w' :: hs)) as Hfew' by (unfold few in *; cbn [length] in *; lia).
    prun (give_on L w n1 (claim_of f w' :: hs) q sig H1 Hn1 Hcnt Hfew'). apply Forall_cons in Hfair as [Hf2 [Hf1 _]%Forall_cons].
    pose proof (give_counted _ _ _ Hcnt Hf1 Hfew') as Hcnt1. apply few_cons in Hfew'.
    by prun (give_on _ w' n2 hs q sig H2 Hn2 Hcnt1 Hfew').
  - by prun (give_on L w n1 hs q sig H1 Hn1 Hcnt Hfew).
Qed.


(** After giving back, everybody that waits tries again. *)
Lemma wake_all L1 q sig hs : Forall (element_ok f sig) q -> counted (queue_claims f q ++ holder_claims f hs) L1 ->
  zlen (holder_claims f hs) + 2 * zlen q < INT_MAX ->
  exists q' L' sig', wake_up_queued (mk_locker (locked f L1) q sig) = Ok (tt, mk_locker (locked f L') q' sig') /\
    asked <$> q' = asked <$> q /\ Forall (element_ok f sig') q' /\ counted (queue_claims f q' ++ holder_claims f hs) L' /\
    Forall (fun x => blocked f L' x.2) q'.
Proof. apply wake_up_run; apply Hshape. Qed.

Lemma free_wakes h L1 q sig hs rest : Forall (element_ok f sig) q ->
  counted (queue_claims f q ++ holder_claims f hs) L1 -> zlen (holder_claims f hs) + 2 * zlen q < INT_MAX ->
  rest = match h.(other) with
    | Some _ => wake_up_queued
    | None => s <-- pget ;; match s.(lockq) with [] => pret tt | _ => wake_up_queued end
    end ->
  exists q' L' sig', rest (mk_locker (locked f L1) q sig) = Ok (tt, mk_locker (locked f L') q' sig') /\
    asked <$> q' = asked <$> q /\ Forall (element_ok f sig') q' /\ counted (queue_claims f q' ++ holder_claims f hs) L' /\
    Forall (fun x => blocked f L' x.2) q'.
Proof.
  intros Hel Hcnt Hb ->. pose proof (wake_all L1 q sig hs Hel Hcnt Hb) as Hw. destruct h.(other); [done|].
  unfold pbind, pget. cbn [obind lockq]. destruct q; [|done]. by exists [], L1, sig.
Qed.

Lemma free_ok L y t : sys_ok f L y -> allowed f y (Free t) ->
  exists L' y', act (Free t) y = Ok (tt, y') /\ sys_ok f L' y' /\ asked <$> y'.(locks).(lockq) = asked <$> y.(locks).(lockq) /\
    y'.(holders) = filter (fun h => h.(thread) <> t) y.(holders).
Proof.
  intros Hok Ht. destruct (holder_found L y t Hok Ht) as (h & Hhead & [Hall Hright] & Hp).
  pose proof (claims_bound L y Hok) as Hb. destruct Hok as [Hlf Hcnt Hel Hbl Hho Hnd Hfew].
  destruct y as [[lf0 q sig] hs]. cbn [locks lf lockq signals holders] in *. subst lf0. set (hs' := filter (fun h => thread h <> t) hs) in *.
  assert (counted (claims f h.(first) h.(other) ++ queue_claims f q ++ holder_claims f hs') L) as Hcnt1.
  { rewrite Hp in Hcnt. unfold holder_claims in *. cbn [mbind list_bind] in Hcnt. by rewrite Permutation_app_swap_app. }
  assert (zlen hs = zlen hs' + 1) as Hlen by (apply Permutation_length in Hp; cbn [length] in Hp; lia).
  pose proof (holder_claims_length f hs') as Hhl. pose proof (queue_claims_length f q) as Hql. pose proof (claims_length f h.(first) h.(other)) as Hcl.
  rewrite threads_length in Hfew. cbn [locks lockq holders] in Hfew.
  assert (few (claims f h.(first) h.(other) ++ queue_claims f q ++ holder_claims f hs')) as Hf1 by (unfold few; rewrite !zlen_app; lia).
  pose proof (asks_all_fair f (sh_ids _ Hshape) (sh_names _ Hshape) _ _ Hall) as Hfair.
  pose proof (give_all_counted _ _ _ _ Hcnt1 Hfair Hf1) as Hcnt2. set (L1 := give_all _ _ L) in *.
  set (rest := match h.(other) with Some _ => wake_up_queued | None => s <-- pget ;; match s.(lockq) with [] => pret tt | _ => wake_up_queued end end).
  destruct (free_wakes h L1 q sig hs' rest Hel Hcnt2 ltac:(lia) eq_refl) as (q' & L' & sig' & Hrun & Hask & Hel' & Hcnt' & Hbl'). pose proof (asked_ids _ _ Hask) as Hqids.
  exists L', (mk_system (mk_locker (locked f L') q' sig') hs'). split_and!; [| | done | done].
  - unfold act. cbn [holders locks]. rewrite Hhead.
    pose proof (give_all_run h.(first) h.(other) h.(node1) h.(node2) L _ q sig rest Hall Hright Hcnt1 Hf1) as Hgive.
    fold L1 in Hgive. rewrite Hrun in Hgive. unfold rest in Hgive. unfold free_path_wrlock, free_path2.
    destruct h.(other); [by rewrite Hgive|]. unfold pbind at 2 in Hgive. unfold pbind at 1. unfold pbind at 1 in Hgive.
    destruct (on_nodes _ _) as [[? s]|]; [|done]. cbn [obind pret] in Hgive |- *. by rewrite Hgive.
  - assert (zlen q' = zlen q) as Hql' by (rewrite <- (length_fmap fst q'), Hqids, length_fmap; done).
    split; cbn [locks lf lockq signals holders]; try done.
    + rewrite Forall_forall in Hho |- *. intros x [_ Hx]%list_elem_of_filter. by apply Hho.
    + unfold threads in *. cbn [locks lockq holders] in *. rewrite Hqids. rewrite Hp in Hnd. cbn [fmap list_fmap] in Hnd.
      rewrite <- Permutation_middle in Hnd. by apply NoDup_cons in Hnd as [_ ?].
    + rewrite threads_length. cbn [locks lockq holders]. lia.
Qed.

(** Every step allowed is taken and keeps the invariant. *)
Lemma act_ok L y a : sys_ok f L y -> allowed f y a -> exists L' y', act a y = Ok (tt, y') /\ sys_ok f L' y'.
Proof.
  destruct a as [t w w2|t|t].
  - intros Hok Ht. destruct (get_ok L y t w w2 Hok Ht) as (L' & y' & ? & ? & _). by exists L', y'.
  - intros Hok Ht. destruct (wake_ok L y t Hok Ht) as (L' & y' & ? & ? & _). by exists L', y'.
  - intros Hok Ht. destruct (free_ok L y t Hok Ht) as (L' & y' & ? & ? & _). by exists L', y'.
Qed.

Lemma reached_ok y : reached f y -> exists L, sys_ok f L y.
Proof.
  induction 1 as [|y a y' _ (L & IH) Hal Hact]; [eexists; apply start_ok|].
  destruct (act_ok L y a IH Hal) as (L' & y2 & Hact2 & Hok). exists L'. congruence.
Qed.


(** While a thread sleeps or holds something, a useful step can be taken. *)
Lemma useful_step L y : sys_ok f L y -> no_clash f y -> threads y <> [] -> exists a, useful y a.
Proof.
  intros Hok Hap Hne. destruct (holders y) as [|h hs] eqn:Hh; cycle 1.
  { exists (Free h.(thread)). cbn. rewrite Hh. by left. }
  destruct (decide (Exists (fun x => x.2.(done) = true) y.(locks).(lockq))) as [He|Hno].
  - apply Exists_exists in He as ([t qe] & Hin & Hd). cbn in Hd.
    destruct (element_found L y t Hok) as (qe' & Hfind & _ & Hp); [by apply (list_elem_of_fmap_2 fst _ (t, qe))|].
    exists (Wake t), qe'. split; [done|]. rewrite Hp in Hin. apply elem_of_cons in Hin as [[= ->]|[Hin _]%list_elem_of_filter]; done.
  - assert (forall x, x ∈ y.(locks).(lockq) -> x.2.(done) = false) as Hundone.
    { intros x Hx. apply not_true_iff_false. intros Hd. apply Hno, Exists_exists. by exists x. }
    pose proof (sys_counted _ _ _ Hok) as Hcnt. rewrite Hh, undone_claims in Hcnt by done.
    destruct y.(locks).(lockq) as [|[t qe] q] eqn:Hq; [by destruct Hne; unfold threads; rewrite Hq, Hh|].
    pose proof (sys_elements _ _ _ Hok) as Hel. pose proof (sys_blocked _ _ _ Hok) as Hbl. rewrite Hq in Hel, Hbl.
    apply Forall_cons in Hel as [(w & Hw & _ & _) _]. apply Forall_cons in Hbl as [Hb _]. cbn [snd] in *.
    specialize (Hb (Hundone (t, qe) ltac:(by left)) w Hw). rewrite free_takes_all in Hb; [done | by apply unlocked_all |].
    intros c' Hc. destruct qe.(second) as [w2|] eqn:Hs; [|done]. injection Hc as <-. apply (Hap t).
    rewrite Hq. cbn [fmap list_fmap]. assert (asked (t, qe) = (t, Some w, Some w2)) as ->; [|by left].
    unfold asked. cbn [fst snd]. by rewrite Hw, Hs.
Qed.

(** A useful step leaves less work. *)
Lemma useful_work L y a : sys_ok f L y -> no_clash f y -> useful y a ->
  exists L' y', act a y = Ok (tt, y') /\ sys_ok f L' y' /\ no_clash f y' /\ work y' = work y - 1.
Proof.
  intros Hok Hap Hu. destruct a as [t w w2|t|t]; [done| |].
  - destruct Hu as (qe & Hfind & Hd).
    assert (t ∈ y.(locks).(lockq).*1) as Hin.
    { unfold find_element in Hfind. apply fmap_Some in Hfind as ([t' x] & Hhd & ->). destruct (filter _ _) as [|z l] eqn:Hf; [done|].
      injection Hhd as ->. assert ((t', x) ∈ filter (fun x => x.1 = t) y.(locks).(lockq)) as Hin by (rewrite Hf; by left).
      apply list_elem_of_filter in Hin as [<- Hin]. by apply (list_elem_of_fmap_2 fst _ (t', x)). }
    destruct (wake_ok L y t Hok Hin) as (L' & y' & Hrun & Hok' & Hw). destruct (Hw qe Hfind Hd) as [Hq Hh].
    destruct (element_found L y t Hok Hin) as (qe2 & _ & _ & Hp). apply Permutation_length in Hp as Hl. cbn [length] in Hl.
    exists L', y'. split_and!; [done | done | |].
    + intros t0 w w2 Hasked. apply (Hap t0). rewrite Hq in Hasked. apply list_elem_of_fmap in Hasked as (z & -> & [_ Hz]%list_elem_of_filter).
      by apply list_elem_of_fmap_2.
    + unfold work. rewrite Hq, Hh. lia.
  - destruct (free_ok L y t Hok Hu) as (L' & y' & Hrun & Hok' & Hq & Hh). exists L', y'. split_and!; [done | done | |].
    + intros t0 w w2. unfold no_clash in Hap. rewrite Hq. apply Hap.
    + unfold work. rewrite Hh. destruct (holder_found L y t Hok Hu) as (h & _ & _ & Hp).
      apply Permutation_length in Hp. cbn [length] in Hp. apply (f_equal length) in Hq. rewrite !length_fmap in Hq. lia.
Qed.

Lemma all_finish n : forall L y, sys_ok f L y -> no_clash f y -> work y = Z.of_nat n ->
  exists l y', finishes y l y' /\ threads y' = [] /\ length l = n.
Proof.
  induction n as [|n IH]; intros L y Hok Hap Hn.
  - exists [], y. split_and!; [constructor | | done]. unfold threads, work in *.
    destruct y.(locks).(lockq), y.(holders); cbn [length] in *; try lia. done.
  - destruct (useful_step L y Hok Hap) as (a & Ha).
    { intros Ht. pose proof (threads_length y) as Hl. rewrite Ht in Hl. unfold work in Hn. cbn [length] in Hl. lia. }
    destruct (useful_work L y a Hok Hap Ha) as (L' & y1 & Hrun & Hok1 & Hap1 & Hw).
    destruct (IH L' y1 Hok1 Hap1 ltac:(lia)) as (l & y' & Hf & Ht & Hl).
    exists (a :: l), y'. split_and!; [by apply (finishes_step y a y1) | done | cbn; by rewrite Hl].
Qed.


End steps.

(** Two threads on a node "docs" in the root: the first holds it for writing, as
    unlink does, the second waits for the path of "a" in it. *)
Lemma two_threads : exists f y p w1 n1 n2 qe, shape f /\ reached f y /\ no_clash f y /\ (claim_of f w1).(c_write) = Some p /\
  y.(holders) = [mk_holder 1 w1 None n1 n2] /\ y.(locks).(lockq) = [(2, qe)] /\ qe.(done) = false.
Proof.
  destruct docs_state as (f & p & q & Hnames & Hmem & Hpq & Hids & Hnum & Hp & Hq & Hnone & Hroot & Hdocs & Hfree).
  assert (shape f) as Hshape by done. set (w1 := mk_wanted FUSE_ROOT_ID (Some (lit "docs")) true).
  set (w2 := mk_wanted 2 (Some (lit "a")) false).
  assert (climbs f.(nodes) p [(p, lit "docs")] q) as Hc2
    by (eapply climb_up; [exact Hp | done | reflexivity | reflexivity | apply climb_end]).
  assert (to_write f w1.(ino) w1.(last) w1.(write) (Some p)) as Hw1.
  { exists (lit "docs"). split; [done|]. intros k. change (ino w1) with FUSE_ROOT_ID. rewrite (Hdocs k). split; [by intros [= ->] | by intros ->]. }
  assert (asks f w1) as Hasks1.
  { exists q, [], q, (with_refctr root_node (root_node.(refctr) + 1)), (Some p).
    split_and!; try done; [apply climb_end | | by apply (bool_decide_unpack _); vm_compute].
    intros k [= <-]. split; [apply not_elem_of_nil | done]. }
  assert (asks f w2) as Hasks2.
  { exists p, [(p, lit "docs")], q, (with_refctr root_node (root_node.(refctr) + 1)), None.
    split_and!; try done. by apply (bool_decide_unpack _); vm_compute. }
  pose proof (claim_write f Hnames w1 _ Hw1) as Hcw.
  destruct (get_ok f Hshape _ _ 1 w1 None (start_ok f Hshape)) as (L1 & y1 & Hact1 & Hok1 & Hth1 & ok1 & n1 & n2 & Htry1 & Hho1 & Hq1).
  { split_and!; [apply not_elem_of_nil | by split | done]. }
  pose proof (free_takes_all (claim_of f w1) None (fun _ => 0) ltac:(done) ltac:(done)) as Hfst.
  cbn [fmap option_fmap option_map] in Htry1. rewrite Htry1 in Hfst. cbn [fst] in Hfst. subst ok1.
  cbn [try_claims] in Htry1. apply try_take_true in Htry1 as (_ & _ & HL1). cbn [locks lockq holders] in Hq1, Hho1.
  destruct (get_ok f Hshape L1 y1 2 w2 None Hok1) as (L2 & y2 & Hact2 & Hok2 & _ & ok2 & m1 & m2 & Htry2 & Hho2 & Hq2).
  { split_and!; [|by split |]; unfold threads; rewrite Hq1, Hho1; [|done]. cbn. by intros ?%list_elem_of_singleton. }
  assert (ok2 = false) as ->.
  { cbn [fmap option_fmap option_map try_claims] in Htry2. unfold try_take in Htry2.
    assert (way_busy (claim_of f w2) L1 = true) as Hbusy.
    { unfold way_busy. rewrite (claim_way f Hids w2 p [(p, lit "docs")] q _ Hnum Hc2 Hq eq_refl). cbn [existsb fmap list_fmap fst].
      rewrite HL1. unfold take. by rewrite Hcw, decide_True. }
    rewrite Hbusy in Htry2. destruct (write_busy _ _); congruence. }
  rewrite Hq1 in Hq2. rewrite Hho1 in Hho2. exists f, y2, p, w1, n1, n2. eexists. split_and!; try done.
  - eapply reached_act; [eapply reached_act; [apply reached_start | | exact Hact1] | | exact Hact2].
    + split_and!; [apply not_elem_of_nil | by split | done].
    + split_and!; [|by split |]; unfold threads; rewrite Hq1, Hho1; [|done]. cbn. by intros ?%list_elem_of_singleton.
  - intros t v v2. rewrite Hq2. cbn. by intros [=]%list_elem_of_singleton.
Qed.

(** ** Properties *)

(** One claim with a write lock, among others. *)
Lemma writer_excludes c rest L k : counted (c :: rest) L -> c.(c_write) = Some k ->
  L k = TREELOCK_WRITE /\ forall c', c' ∈ rest -> c'.(c_write) <> Some k /\ k ∉ c'.(c_way).
Proof.
  intros H Hk. specialize (H k). rewrite readers_cons, writers_cons, (decide_True (P := c_write c = _)) in H by done.
  pose proof (readers_range rest k) as Hr. assert (0 <= writers rest k) as Hw by (unfold writers; lia).
  destruct H as [(H1 & H2 & HL)|[H1 _]]; [|lia]. split; [done|].
  assert (writers rest k = 0 /\ readers rest k = 0) as [Hw0 Hr0] by (destruct (decide _); lia).
  intros c' Hc'. split; intros Hbad.
  - unfold writers in Hw0. assert (c' ∈ filter (fun c => c_write c = Some k) rest) as Hin by (by apply list_elem_of_filter).
    destruct (filter _ rest); [by apply elem_of_nil in Hin | done].
  - unfold readers in Hr0. assert (c' ∈ filter (fun c => k ∈ c_way c) rest) as Hin by (by apply list_elem_of_filter).
    destruct (filter _ rest); [by apply elem_of_nil in Hin | done].
Qed.

Lemma holder_claims_app f l1 l2 : holder_claims f (l1 ++ l2) = holder_claims f l1 ++ holder_claims f l2.
Proof. apply bind_app. Qed.

Lemma all_claims_in f w w2 w' : w' = w \/ w2 = Some w' -> claim_of f w' ∈ claims f w w2.
Proof.
  unfold claims. intros [-> | ->]; [destruct w2|]; cbn; [by right; left | by left | by left].
Qed.

(** C29: Threads that ask for paths, sleep, are woken, take over what the waker has
    locked for them and give back, in any order, on a tree that stays as it is,
    never fail an assertion or a lookup of their element; and a node that one of
    them has locked for writing carries the write lock, and is not on the way of
    any path another thread holds, nor locked for writing by it. *)
Theorem path_locks_exclude f y : shape f -> reached f y ->
  (forall a, allowed f y a -> exists y', act a y = Ok (tt, y') /\ reached f y') /\
  (forall l1 h l2 w k, y.(holders) = l1 ++ h :: l2 -> w = h.(first) \/ h.(other) = Some w ->
     (claim_of f w).(c_write) = Some k ->
     (exists n, y.(locks).(lf).(nodes) !! k = Some n /\ n.(treelock) = TREELOCK_WRITE) /\
     forall h' w', h' ∈ l1 ++ l2 -> w' = h'.(first) \/ h'.(other) = Some w' ->
       (claim_of f w').(c_write) <> Some k /\ k ∉ (claim_of f w').(c_way)).
Proof.
  intros Hshape Hreach. destruct (reached_ok f Hshape y Hreach) as (L & Hok). split.
  - intros a Hal. destruct (act_ok f Hshape L y a Hok Hal) as (L' & y' & Hrun & _). exists y'. split; [done|].
    by apply (reached_act f y a).
  - intros l1 h l2 w k Hh Hw Hk. pose proof (sys_counted _ _ _ Hok) as Hcnt. rewrite Hh in Hcnt.
    apply all_claims_in with (f := f) in Hw as Hin. apply elem_of_Permutation in Hin as (rest & Hrest).
    rewrite <- Permutation_middle in Hcnt. unfold holder_claims at 1 in Hcnt. cbn [mbind list_bind] in Hcnt.
    fold (holder_claims f (l1 ++ l2)) in Hcnt. rewrite Hrest, Permutation_app_swap_app in Hcnt. cbn [app] in Hcnt.
    destruct (writer_excludes _ _ _ k Hcnt Hk) as [HL Hothers]. split.
    + pose proof (sys_holders _ _ _ Hok) as Hho. rewrite Hh in Hho. apply Forall_app in Hho as [_ [[Hall _] _]%Forall_cons].
      assert (asks f w) as Hasks by (destruct Hall as [H1 H2]; destruct Hw as [-> | Hw]; auto).
      destruct (asks_claim f (sh_ids _ Hshape) (sh_names _ Hshape) w Hasks) as (p & ps & r & n & _ & _ & _ & _ & _ & _ & _ & Htw & _).
      destruct (to_write_there f w k Htw Hk) as (m & Hm). exists (with_treelock m (L k)).
      rewrite (sys_locked _ _ _ Hok). split; [by apply locked_node | exact HL].
    + intros h' w' Hh' Hw'. apply Hothers. rewrite !elem_of_app. right. right.
      unfold holder_claims. apply list_elem_of_bind. exists h'. split; [by apply all_claims_in | done].
Qed.

(** C30: No wakeup is lost: in every state the threads can reach, one that sleeps in
    the queue either has been given its locks without an error, and its condition
    is signalled, or trying its paths now would fail with EAGAIN. *)
Theorem no_lost_wakeup f y : shape f -> reached f y ->
  forall t qe, (t, qe) ∈ y.(locks).(lockq) ->
    if qe.(done) then qe.(err) = 0 /\ t ∈ y.(locks).(signals)
    else exists w g1 g2 f', qe.(path1) = Some w /\
      try_wanted w qe.(second) y.(locks).(lf) = Ok ((- EAGAIN, g1, g2), f').
Proof.
  intros Hshape Hreach t qe Hin. destruct (reached_ok f Hshape y Hreach) as (L & Hok).
  destruct (proj1 (Forall_forall _ _) (sys_elements _ _ _ Hok) _ Hin) as (w & Hw & Hall & Hd). cbn [fst snd] in *.
  destruct qe.(done) eqn:Hdone; [by destruct (Hd eq_refl) as (He & _ & Hs)|].
  pose proof (proj1 (Forall_forall _ _) (sys_blocked _ _ _ Hok) _ Hin Hdone w Hw) as Hb.
  destruct (try_claims (claim_of f w) (claim_of f <$> qe.(second)) L) as [ok L'] eqn:Htry. cbn [snd] in Hb. rewrite Htry in Hb. cbn [fst] in Hb. subst ok.
  set (hc := queue_claims f y.(locks).(lockq) ++ holder_claims f y.(holders)).
  assert (few (claims f w qe.(second) ++ hc)) as Hf.
  { unfold few, hc. rewrite !zlen_app. pose proof (claims_length f w qe.(second)). pose proof (sys_few _ _ _ Hok) as Hf.
    rewrite threads_length in Hf. pose proof (holder_claims_length f y.(holders)). pose proof (queue_claims_length f y.(locks).(lockq)). lia. }
  destruct (try_wanted_run f (sh_ids _ Hshape) (sh_names _ Hshape) (sh_memory _ Hshape) L w qe.(second) hc false L' Hall
    (sys_counted _ _ _ Hok) Hf Htry) as (g1 & g2 & Hrun & _).
  exists w, g1, g2, (locked f L'). rewrite (sys_locked _ _ _ Hok). by split.
Qed.

(** C31: Whoever waits for paths gets them: from every state the threads can reach,
    where no request for two paths excludes itself, threads that go on when they
    are signalled and give back what they hold empty the queue in two steps for
    each that sleeps and one for each that holds something, and while somebody is
    left such a step can be taken. *)
Theorem waiting_ends f y : shape f -> reached f y -> no_clash f y ->
  (threads y <> [] -> exists a, useful y a) /\
  (forall a, useful y a -> exists y', act a y = Ok (tt, y') /\ work y' = work y - 1) /\
  exists l y', finishes y l y' /\ threads y' = [] /\ zlen l = work y.
Proof.
  intros Hshape Hreach Hap. destruct (reached_ok f Hshape y Hreach) as (L & Hok). split_and!.
  - by apply (useful_step f L).
  - intros a Ha. destruct (useful_work f Hshape L y a Hok Hap Ha) as (L' & y' & Hrun & _ & _ & Hw). by exists y'.
  - destruct (all_finish f Hshape (Z.to_nat (work y)) L y Hok Hap) as (l & y' & Hf & Ht & Hl); [unfold work; lia|].
    exists l, y'. split_and!; [done | done |]. rewrite Hl. unfold work. lia.
Qed.

Lemma path_locks_exclude_witness : exists f y p n, reached f y /\ y.(locks).(lf).(nodes) !! p = Some n /\ n.(treelock) = TREELOCK_WRITE /\
  exists y', act (Free 1) y = Ok (tt, y').
Proof.
  destruct two_threads as (f & y & p & w1 & n1 & n2 & qe & Hshape & Hreach & Hap & Hk & Hh & Hq & Hd).
  destruct (path_locks_exclude f y Hshape Hreach) as [Hact Hex].
  destruct (Hex [] _ [] w1 p Hh (or_introl eq_refl) Hk) as ((n & Hn & Ht) & _).
  destruct (Hact (Free 1)) as (y' & Hrun & _); [cbn; rewrite Hh; by left|].
  exists f, y, p, n. split_and!; try assumption. by exists y'.
Defined.

Lemma no_lost_wakeup_witness : exists y qe g1 g2 f' w, y.(locks).(lockq) = [(2, qe)] /\
  try_wanted w qe.(second) y.(locks).(lf) = Ok ((- EAGAIN, g1, g2), f').
Proof.
  destruct two_threads as (f & y & p & w1 & n1 & n2 & qe & Hshape & Hreach & Hap & Hk & Hh & Hq & Hd).
  pose proof (no_lost_wakeup f y Hshape Hreach 2 qe) as Hno. rewrite Hq, Hd in Hno.
  destruct (Hno ltac:(by left)) as (w & g1 & g2 & f' & _ & Hrun). by exists y, qe, g1, g2, f', w.
Defined.

Lemma waiting_ends_witness : exists y l y', threads y = [2; 1] /\ finishes y l y' /\ threads y' = [] /\ zlen l = 3.
Proof.
  destruct two_threads as (f & y & p & w1 & n1 & n2 & qe & Hshape & Hreach & Hap & Hk & Hh & Hq & Hd).
  destruct (waiting_ends f y Hshape Hreach Hap) as (_ & _ & l & y' & Hf & Ht & Hl). exists y, l, y'.
  split_and!; [unfold threads; by rewrite Hq, Hh | exact Hf | exact Ht |]. rewrite Hl. unfold work. by rewrite Hq, Hh.
Defined.

End QueueProps.
