(* ===== verification/FuseLibFacts.v ===== *)
(** Facts about directory listings: the records that are written for the kernel, how
    the kernel reads them, and the pages in which a filled handle hands out its
    list.

    Facts about serving requests: what a request finds when nothing else runs, the
    locks it holds while it calls the file system, and the tree as the kernel sees
    it, numbers and their paths. *)
From S2P Require Import Prelude.
From S2P Require Import CLib.
From S2P Require Import FuseTypes.
From S2P Require Import FuseNodes.
From S2P Require Import FusePaths.
From S2P Require Import FusePathsFacts.
From S2P Require Import FuseDirents.
From S2P Require Import FuseBuf.
From S2P Require Import FuseFs.
From S2P Require Import NodeTable.
From S2P Require Import FuseNodesFacts.
From S2P Require Import LockTable.
From S2P Require Import FuseQueue.
From S2P Require Import FuseTree.
From S2P Require Import FuseTreeOps.
From S2P Require Import FuseQueueFacts.
From S2P Require Import TreeProps.
From S2P Require Import FuseLib.

Module FuseDirsFacts.
Import FuseTypes FuseNodes FusePaths FusePathsFacts FuseDirents.

(** ** One record *)

Definition padding (entlen : Z) : Z := FUSE_REC_ALIGN entlen - entlen.

(** A record of a listing, as it lies in memory. *)
Definition dirent_record (ino off : Z) (st : stat) (name : list byte) : list byte :=
  le 8 ino ++ le 8 off ++ le 4 (zlen name) ++ le 4 (dtype st) ++ name ++
  replicate (Z.to_nat (padding (FUSE_NAME_OFFSET + zlen name))) NUL.

Lemma rec_align x : 0 <= x -> FUSE_REC_ALIGN x = 8 * ((x + 7) / 8).
Proof.
  intros Hx. unfold FUSE_REC_ALIGN. rewrite <- Z.ldiff_land. change 7 with (Z.ones 3) at 2.
  rewrite Z.ldiff_ones_r, Z.shiftr_div_pow2, Z.shiftl_mul_pow2 by lia. change (2 ^ 3) with 8. lia.
Qed.

Lemma padding_range x : 0 <= x -> 0 <= padding x < 8.
Proof. intros Hx. unfold padding. rewrite rec_align by done. pose proof (Z.div_mod (x + 7) 8). pose proof (Z.mod_pos_bound (x + 7) 8). lia. Qed.

Lemma zlen_record ino off st name : zlen (dirent_record ino off st name) = FUSE_REC_ALIGN (FUSE_NAME_OFFSET + zlen name).
Proof.
  unfold dirent_record. rewrite !zlen_app, !length_le, length_replicate. pose proof (padding_range (FUSE_NAME_OFFSET + zlen name)) as Hp.
  unfold FUSE_NAME_OFFSET in *. rewrite Z2Nat.id by lia. unfold padding. lia.
Qed.

(** Two writes, the second behind the first, are one. *)
Lemma splice_next {A} (m : list A) i xs ys : 0 <= i -> i + zlen xs + zlen ys <= zlen m ->
  splice (splice m i xs) (i + zlen xs) ys = splice m i (xs ++ ys).
Proof.
  intros Hi Hin. unfold splice at 1. rewrite ztake_splice_ge by lia.
  unfold splice. rewrite (ztake_ztake i) by lia. rewrite Z.min_l by lia. rewrite (zdrop_ge _ (ztake _ m)) by (rewrite zlen_ztake; lia).
  rewrite app_nil_r, zlen_app, <- !app_assoc. do 3 f_equal.
  rewrite zdrop_app_ge by (rewrite zlen_ztake; lia). rewrite zlen_ztake by lia. rewrite zdrop_app_ge by lia.
  rewrite zdrop_zdrop by lia. f_equal. lia.
Qed.

Lemma write_next m i xs j ys : 0 <= i -> i + zlen xs + zlen ys <= zlen m -> j = i + zlen xs ->
  mem_write (splice m i xs) j ys = Ok (splice m i (xs ++ ys)).
Proof.
  intros Hi Hin ->. rewrite mem_write_in by (rewrite ?zlen_splice; lia). by rewrite splice_next.
Qed.

Lemma put_dirent_run m pos ino off st name pad : 0 <= pos -> pad = padding (FUSE_NAME_OFFSET + zlen name) ->
  pos + FUSE_REC_ALIGN (FUSE_NAME_OFFSET + zlen name) <= zlen m ->
  put_dirent m pos ino off st name pad = Ok (splice m pos (cells (dirent_record ino off st name))).
Proof.
  intros Hp -> Hin. pose proof (padding_range (FUSE_NAME_OFFSET + zlen name)) as Hpad. unfold FUSE_NAME_OFFSET, padding in *.
  unfold put_dirent, dirent_record, padding, FUSE_NAME_OFFSET.
  rewrite mem_write_in by (rewrite ?zlen_cells, ?length_le; lia). cbn [obind].
  rewrite write_next by (rewrite ?zlen_cells, ?length_le; lia). cbn [obind].
  do 3 (rewrite write_next by (rewrite ?zlen_app, ?zlen_cells, ?length_le; lia); cbn [obind]).
  rewrite write_next by (rewrite ?zlen_app, ?zlen_cells, ?length_le; unfold memset0; rewrite ?length_replicate; lia).
  rewrite !cells_app, <- !app_assoc. do 7 f_equal. unfold memset0, cells. by rewrite fmap_replicate.
Qed.

(** A record is written when there is room for it; its size is told in any case. *)
Lemma add_direntry_run m pos room name st off : 0 <= pos -> pos + room <= zlen m ->
  let rec := dirent_record st.(st_ino) off st name in
  fuse_add_direntry (Some m) pos room name st off =
    Ok (zlen rec, Some (if room <? zlen rec then m else splice m pos (cells rec))).
Proof.
  intros Hp Hroom rec. unfold fuse_add_direntry. fold FUSE_NAME_OFFSET. unfold rec. rewrite zlen_record.
  destruct (Z.ltb_spec room (FUSE_REC_ALIGN (FUSE_NAME_OFFSET + zlen name))); [done|].
  by rewrite put_dirent_run by (done || lia).
Qed.

(** ** Reading a listing *)

(** What a record says: number, offset of what follows, type and name. *)
Record seen_entry := mk_seen { s_ino : Z; s_off : Z; s_type : Z; s_name : list byte }.

(** The kernel's walk over a listing (FUSE_DIRENT_SIZE of include/fuse_kernel.h). *)
Fixpoint read_entries (fuel : nat) (l : list byte) : option (list seen_entry) :=
  match fuel with O => None | S fuel =>
    if zlen l =? 0 then Some []
    else
      let namelen := unle (ztake 4 (zdrop 16 l)) in
      let size := FUSE_REC_ALIGN (FUSE_NAME_OFFSET + namelen) in
      if zlen l <? size then None
      else
        rest ← read_entries fuel (zdrop size l);
        Some (mk_seen (unle (ztake 8 l)) (unle (ztake 8 (zdrop 8 l))) (unle (ztake 4 (zdrop 20 l)))
          (ztake namelen (zdrop 24 l)) :: rest)
  end.

(** The fields of a record, wherever bytes follow it. *)
Lemma record_fields ino off st name rest : zlen name < 2 ^ 32 -> let l := dirent_record ino off st name ++ rest in
  unle (ztake 8 l) = ino mod 2 ^ 64 /\ unle (ztake 8 (zdrop 8 l)) = off mod 2 ^ 64 /\
  unle (ztake 4 (zdrop 16 l)) = zlen name /\ unle (ztake 4 (zdrop 20 l)) = dtype st mod 2 ^ 32 /\
  ztake (zlen name) (zdrop 24 l) = name.
Proof.
  intros Hn l. unfold l, dirent_record. rewrite <- !app_assoc.
  assert (forall k (a b : list byte), k = zlen a -> ztake k (a ++ b) = a) as Htake by (intros k a b ->; by apply ztake_app_exact).
  assert (forall k (a b : list byte), k = zlen a -> zdrop k (a ++ b) = b) as Hdrop by (intros k a b ->; by apply zdrop_app_exact).
  assert (forall j k (a b : list byte), j = zlen a -> 0 <= k -> zdrop (j + k) (a ++ b) = zdrop k b) as Hskip.
  { intros j k a b -> Hk. rewrite zdrop_app_ge by lia. f_equal. lia. }
  assert (forall z, 8 = zlen (le 8 z)) as H8 by (intros z; by rewrite length_le).
  assert (forall z, 4 = zlen (le 4 z)) as H4 by (intros z; by rewrite length_le).
  split_and!.
  - by rewrite Htake, unle_le.
  - by rewrite Hdrop, Htake, unle_le.
  - change 16 with (8 + 8). rewrite Hskip, Hdrop, Htake, unle_le by (done || lia). change (256 ^ Z.of_nat 4) with (2 ^ 32). by rewrite Z.mod_small by lia.
  - change 20 with (8 + (8 + 4)). by rewrite !Hskip, Hdrop, Htake, unle_le by (done || lia).
  - change 24 with (8 + (8 + (4 + 4))). by rewrite !Hskip, Hdrop, Htake by (done || lia).
Qed.

(** ** Pages *)

(** The records of the entries behind position [pos]. *)
Fixpoint records (pos : Z) (l : list fuse_direntry) : list byte :=
  match l with
  | [] => []
  | de :: l => dirent_record de.(de_stat).(st_ino) (pos + 1) de.(de_stat) de.(de_name) ++ records (pos + 1) l
  end.

Lemma records_app l : forall pos l', records pos (l ++ l') = records pos l ++ records (pos + zlen l) l'.
Proof.
  induction l as [|de l IH]; intros pos l'; [by rewrite Z.add_0_r|]. cbn [records app]. rewrite IH, <- app_assoc.
  do 3 f_equal. cbn. lia.
Qed.

(** What the kernel sees of an entry that is the [pos]-th. *)
Definition seen (pos : Z) (de : fuse_direntry) : seen_entry :=
  mk_seen (de.(de_stat).(st_ino) mod 2 ^ 64) (pos mod 2 ^ 64) (dtype de.(de_stat) mod 2 ^ 32) de.(de_name).

Definition short_name (de : fuse_direntry) : Prop := zlen de.(de_name) < 2 ^ 31 - 64.

Lemma short_record ino off de : short_name de -> 24 <= zlen (dirent_record ino off de.(de_stat) de.(de_name)) < 2 ^ 31 - 32.
Proof.
  unfold short_name. rewrite zlen_record. intros Hs. pose proof (padding_range (FUSE_NAME_OFFSET + zlen de.(de_name))) as Hp.
  unfold padding, FUSE_NAME_OFFSET in *. lia.
Qed.

Lemma read_records l : forall pos fuel, (length l < fuel)%nat -> Forall short_name l ->
  read_entries fuel (records pos l) = Some (imap (fun i de => seen (pos + Z.of_nat i + 1) de) l).
Proof.
  induction l as [|de l IH]; intros pos fuel Hf Hs; (destruct fuel as [|fuel]; [cbn in Hf; lia|]); [done|].
  apply Forall_cons in Hs as [Hde Hs]. set (rec := dirent_record de.(de_stat).(st_ino) (pos + 1) de.(de_stat) de.(de_name)).
  pose proof (short_record de.(de_stat).(st_ino) (pos + 1) de Hde) as Hlen. fold rec in Hlen.
  unfold short_name in Hde. destruct (record_fields de.(de_stat).(st_ino) (pos + 1) de.(de_stat) de.(de_name) (records (pos + 1) l))
    as (H1 & H2 & H3 & H4 & H5); [lia|]. fold rec in H1, H2, H3, H4, H5.
  cbn [records read_entries]. fold rec. rewrite zlen_app, (proj2 (Z.eqb_neq _ _)) by lia. rewrite H3. cbv zeta.
  assert (FUSE_REC_ALIGN (FUSE_NAME_OFFSET + zlen de.(de_name)) = zlen rec) as -> by (unfold rec; by rewrite zlen_record).
  rewrite (proj2 (Z.ltb_ge _ _)) by lia. rewrite (zdrop_app_exact (zlen rec)) by done. rewrite IH; [|cbn in Hf; lia|done].
  cbn [mbind option_bind imap]. rewrite H1, H2, H4, H5. unfold seen at 2. rewrite Z.add_0_r. do 2 f_equal.
  apply imap_ext. intros i x _. cbn. f_equal. lia.
Qed.

(** The memory of a handle, and a buffer it can grow into. *)
Definition dh_wf (h : fuse_dh) : Prop :=
  match h.(contents) with None => h.(dsize) = 0 | Some m => zlen m = h.(dsize) /\ 1024 <= h.(dsize) < 2 ^ 32 end.

Lemma extend_run d n : dh_wf d.(dh) -> d.(df).(memory) = [] -> 0 < n < 2 ^ 31 ->
  exists m, extend_contents n d = Ok (0, mk_fill (with_contents d.(dh) (Some m) (zlen m)) d.(df) d.(dconf)) /\
    n <= zlen m /\ 1024 <= zlen m < 2 ^ 32.
Proof.
  intros Hwf Hmem Hn. destruct d as [h f c]. cbn [dh df dconf] in *. unfold extend_contents. prun_get. cbn [dh].
  destruct (Z.ltb_spec h.(dsize) n) as [Hlt|Hge].
  - set (start := if dsize h =? 0 then 1024 else dsize h).
    assert (1024 <= start < 2 ^ 32 /\ match h.(contents) with None => True | Some m => zlen m <= start end) as (Hst & Hold).
    { unfold dh_wf in Hwf. unfold start. destruct h.(contents) as [m|]; [|rewrite Hwf; change (0 =? 0) with true; split; [lia | done]].
      rewrite (proj2 (Z.eqb_neq _ _)) by lia. lia. }
    destruct (grow_loop_spec n 39 start) as (k & Hgrow & Hk & Hnk); [lia | lia | |].
    { etransitivity; [apply (Z.lt_le_incl n (2 ^ 31)); lia|]. change (Z.of_nat 39) with 39. lia. }
    prun_lift (Hgrow : grow_loop GROW_FUEL _ _ = _).
    assert (in_fuse allocates (mk_fill h f c) = Ok (true, mk_fill h f c)) as Hal
      by (unfold in_fuse; cbn [df]; by rewrite (allocates_run f Hmem)).
    prun Hal. assert (exists m, realloc h.(contents) k = Some m /\ zlen m = k) as (m & -> & Hm).
    { unfold dh_wf in Hwf. destruct h.(contents) as [m|].
      - rewrite realloc_grow by (unfold malloc_max; lia). eexists. split; [done|]. rewrite zlen_app, zlen_uninit; lia.
      - cbn [realloc]. rewrite malloc_in by (unfold malloc_max; lia). eexists. split; [done | rewrite zlen_uninit; lia]. }
    exists m. rewrite Hm. split; [done | lia].
  - unfold dh_wf in Hwf. destruct h.(contents) as [m|] eqn:Hc; [|lia]. exists m. destruct Hwf as [Hm Hsz]. rewrite Hm.
    split; [|lia]. destruct h; cbn in *. by subst.
Qed.

(** The loop writes the records of as many entries as there is room for. *)
Lemma list_loop_run flags (f : fuse) (c : fuse_config) : is_set (Z.land flags FUSE_READDIR_PLUS) = false ->
  forall l pos h m, h.(contents) = Some m -> 0 <= h.(len) <= h.(needlen) -> h.(needlen) <= zlen m -> h.(needlen) < 2 ^ 31 ->
  Forall short_name l -> exists taken rest m',
    list_loop l pos flags (mk_fill h f c) =
      Ok (0, mk_fill (with_written h (Some m') (h.(len) + zlen (records pos taken))) f c) /\
    l = taken ++ rest /\ h.(len) + zlen (records pos taken) <= h.(needlen) /\ zlen m' = zlen m /\
    ztake (h.(len) + zlen (records pos taken)) m' = ztake h.(len) m ++ cells (records pos taken) /\
    (forall de rest', rest = de :: rest' -> h.(needlen) < h.(len) + zlen (records pos (taken ++ [de]))).
Proof.
  intros Hplus l. induction l as [|de l IH]; intros pos h m Hc Hl Hm Hmax Hs.
  - exists [], [], m. cbn [list_loop records]. rewrite Z.add_0_r. split; [|split_and!; try done; [lia | by rewrite app_nil_r]].
    unfold with_written. destruct h; cbn in *. by subst.
  - apply Forall_cons in Hs as [Hde Hs]. cbn [list_loop]. prun_get. rewrite Hplus. cbn [andb].
    unfold pbind at 1. unfold pret at 1. cbn [obind]. change (is_set 0) with false. cbv iota. prun_get. cbn [dh]. rewrite Hc.
    set (rec := dirent_record de.(de_stat).(st_ino) (pos + 1) de.(de_stat) de.(de_name)).
    pose proof (short_record de.(de_stat).(st_ino) (pos + 1) de Hde) as Hlen. fold rec in Hlen.
    rewrite uwrap_small by lia.
    prun_lift (add_direntry_run m h.(len) (h.(needlen) - h.(len)) de.(de_name) de.(de_stat) (pos + 1) ltac:(lia) ltac:(lia)). fold rec.
    rewrite (uwrap_small 32 (zlen rec)) by lia. rewrite uwrap_small by lia.
    destruct (Z.ltb_spec h.(needlen) (h.(len) + zlen rec)) as [Hfull|Hfits].
    + rewrite (proj2 (Z.ltb_lt _ _)) by lia. exists [], (de :: l), m. cbn [records]. rewrite Z.add_0_r.
      split; [|split_and!; try done; [lia | by rewrite app_nil_r |]].
      * unfold set_dh, pbind, pret. cbn. by destruct h; cbn in *; subst.
      * intros de' rest' [= <- <-]. cbn [records app]. fold rec. rewrite app_nil_r. lia.
    + rewrite (proj2 (Z.ltb_ge _ _)) by lia. set (m1 := splice m h.(len) (cells rec)).
      assert (zlen m1 = zlen m) as Hm1 by (unfold m1; rewrite zlen_splice; rewrite ?zlen_cells; lia).
      destruct (IH (pos + 1) (with_written h (Some m1) (h.(len) + zlen rec)) m1) as (taken & rest & m' & Hrun & -> & Hfit & Hm' & Htext & Hrest);
        [done | cbn [with_written len needlen]; lia | cbn [with_written len needlen]; lia | done | done |].
      cbn [with_written len needlen] in *. exists (de :: taken), rest, m'. cbn [records app]. fold rec. rewrite zlen_app, Z.add_assoc.
      split_and!; [exact Hrun | done | done | lia | | ].
      * rewrite Htext. unfold m1. rewrite cells_app, app_assoc. f_equal. unfold splice.
        rewrite ztake_app_ge by (rewrite zlen_ztake; lia). rewrite zlen_ztake by lia. f_equal.
        apply ztake_app_exact. rewrite zlen_cells. lia.
      * intros de' rest' ->. rewrite zlen_app, Z.add_assoc. by apply (Hrest de' rest').
Qed.

End FuseDirsFacts.

Module FuseLibFacts.
Import FuseTypes FuseBuf FuseFs NodeTable FuseNodes FuseNodesFacts FusePaths FusePathsFacts LockTable FuseQueue
  FuseTree FuseTreeOps FuseQueueFacts TreeProps FuseDirents FuseLib.

(** ** Paths of wanted nodes *)

(** [w] asks for the path [path]: up through the nodes [ps], with [wnode] to be
    locked for writing. *)
Definition at_path (f : fuse) (w : wanted) (ps : list (Z * list byte)) (wnode : option Z) (path : list byte) : Prop :=
  (exists p r n, numbered f w.(ino) p /\ climbs f.(nodes) p ps r /\ f.(nodes) !! r = Some n /\
    n.(nodeid) = FUSE_ROOT_ID /\ forall k, wnode = Some k -> (k ∉ ps.*1) /\ k <> r) /\
  to_write f w.(ino) w.(last) w.(write) wnode /\
  zlen (path_text ps (last_text w.(last))) + 1 <= 2 ^ 31 /\ (NUL ∉ path_text ps (last_text w.(last))) /\
  path = shown (path_text ps (last_text w.(last))).

Definition the_claim (ps : list (Z * list byte)) (wnode : option Z) : claim := mk_claim ps.*1 wnode.

(** The locks of a request that runs alone. *)
Definition own (ps : list (Z * list byte)) (wnode : option Z) : Z -> Z := take (the_claim ps wnode) (fun _ => 0).

Lemma at_asks f w ps wnode path : at_path f w ps wnode path -> asks f w.
Proof. intros ((p & r & n & ? & ? & ? & ? & ?) & ? & ? & ? & _). by exists p, ps, r, n, wnode. Qed.

Lemma at_claim f w ps wnode path : ids_ok f -> names_ok f -> at_path f w ps wnode path ->
  claim_of f w = the_claim ps wnode.
Proof.
  intros Hids Hnames ((p & r & n & Hnum & Hc & Hn & Hroot & _) & Hw & _).
  pose proof (claim_way f Hids w p ps r n Hnum Hc Hn Hroot) as Hway. pose proof (claim_write f Hnames w wnode Hw) as Hwr.
  unfold the_claim. rewrite <- Hway, <- Hwr. by destruct (claim_of f w).
Qed.

(** Nobody else holds a lock. *)
Lemma none_counted : counted [] (fun _ => 0).
Proof. intros k. right. split; [done | by left]. Qed.

Lemma none_free c : write_busy c (fun _ => 0) = false /\ way_busy c (fun _ => 0) = false.
Proof. split; [by apply write_free | apply way_free; lia]. Qed.

(** Taken and given back, nothing is locked. *)
Lemma own_counted ps wnode : fair (the_claim ps wnode) -> counted [the_claim ps wnode] (own ps wnode).
Proof. intros Hf. apply take_counted; [exact none_counted | exact Hf | apply none_free | apply none_free | done]. Qed.

Lemma own_given ps wnode : fair (the_claim ps wnode) -> forall k, give (the_claim ps wnode) (own ps wnode) k = 0.
Proof.
  intros Hf k. pose proof (give_counted _ [] _ (own_counted ps wnode Hf) Hf ltac:(done) k) as [(Hw & _)|(_ & [-> |[Hr _]])]; [done..|].
  unfold readers in Hr. cbn in Hr. lia.
Qed.

(** ** Asking for a path and giving it back, alone *)

Lemma path_got f w ps wnode path t : shape f -> at_path f w ps wnode path -> exists m,
  get_path_wait t w None (mk_locker f [] []) =
    Ok (Returns (0, (Some m, wnode), (None, None)), mk_locker (locked f (own ps wnode)) [] []) /\ c_string m = Ok path.
Proof.
  intros [Hids Hnames Hmem Hun] Hat. pose proof (at_asks _ _ _ _ _ Hat) as Hasks. pose proof (at_claim _ _ _ _ _ Hids Hnames Hat) as Hcl.
  destruct (way_taken_run f Hids Hnames Hmem (fun _ => 0) w ltac:(done) Hasks (proj1 (none_free _)) (proj2 (none_free _)))
    as (m & Hrun & Hread).
  rewrite Hcl in Hrun. fold (own ps wnode) in Hrun. rewrite <- (own_locks f (fun _ => 0)) in Hrun by done.
  exists m. split.
  - unfold get_path_wait, try_wanted. unfold on_nodes, pbind. cbn [lf lockq signals]. rewrite Hrun. done.
  - destruct Hat as ((p & r & n & Hnum & Hc & Hn & Hroot & _) & _ & _ & _ & ->). by apply (Hread p ps r n).
Qed.

Lemma path_given f w ps wnode path : shape f -> at_path f w ps wnode path ->
  free_path_wrlock w.(ino) wnode (mk_locker (locked f (own ps wnode)) [] []) = Ok (tt, mk_locker f [] []).
Proof.
  intros [Hids Hnames Hmem Hun] Hat. pose proof (at_asks _ _ _ _ _ Hat) as Hasks. pose proof (at_claim _ _ _ _ _ Hids Hnames Hat) as Hcl.
  pose proof (asks_fair f Hids Hnames w Hasks) as Hfair. rewrite Hcl in Hfair.
  assert (unlock_path w.(ino) wnode None (locked f (own ps wnode)) = Ok (tt, f)) as Hrun.
  { pose proof (give_run f Hids Hnames (own ps wnode) w [] Hasks) as Hgive. rewrite Hcl in Hgive.
    cbn [c_write the_claim] in Hgive. rewrite Hgive by (done || by apply own_counted). do 2 f_equal. symmetry. apply own_locks. intros k n Hn.
    rewrite own_given by done. by apply (Hun k). }
  unfold free_path_wrlock, on_nodes, pbind. cbn [lf lockq signals]. rewrite Hrun. done.
Qed.

(** ** Locks are no part of the tree *)

Lemma relock_kids L ns k : kids (relock L ns) k = kids ns k.
Proof.
  apply set_eq. intros j. rewrite !elem_of_kids, relock_lookup. split.
  - intros (n & Hn & Hp). destruct (ns !! j) as [m|]; [|done]. injection Hn as <-. by exists m.
  - intros (n & -> & Hp). by exists (with_treelock n (L j)).
Qed.

Lemma locked_back f L k n : (locked f L).(nodes) !! k = Some n ->
  exists m, f.(nodes) !! k = Some m /\ n = with_treelock m (L k).
Proof. cbn [locked nodes set_nodes]. rewrite relock_lookup. destruct (f.(nodes) !! k) as [m|]; [|done]. intros [= <-]. by exists m. Qed.

Lemma locked_tree f L : tree f -> tree (locked f L).
Proof.
  intros Ht. destruct Ht as [Hids Hnames Hnum Hhash Hpl Hrefs Hcnt Hup Hroot]. split.
  - by apply locked_ids.
  - by apply locked_names.
  - intros k n (m & Hm & ->)%locked_back. by apply (Hnum k m).
  - intros k n (m & Hm & ->)%locked_back. by apply (Hhash k m).
  - intros k n (m & Hm & ->)%locked_back. by apply (Hpl k m).
  - intros k n (m & Hm & ->)%locked_back. cbn [locked nodes set_nodes]. rewrite relock_kids. by apply (Hrefs k m).
  - intros k n (m & Hm & ->)%locked_back. by apply (Hcnt k m).
  - intros k n (m & Hm & ->)%locked_back. destruct (Hup k m Hm) as (ps & r & Hc & Hr & x & Hx & Hp). exists ps, r.
    split_and!; [by apply locked_climbs | done|]. exists (with_treelock x (L r)). split; [by apply locked_node | done].
  - destruct Hroot as (p & n & Hn & Hi & Hl). exists p, (with_treelock n (L p)). split_and!; [by apply locked_node | done | done].
Qed.

Lemma locked_good f L : good f -> good (locked f L).
Proof. intros [Ht Hm Hc]. split; [by apply locked_tree | done | done]. Qed.

Lemma locked_held f L dir : held f dir -> held (locked f L) dir.
Proof.
  intros (q & d & Hnum & Hd & Hl). exists q, (with_treelock d (L q)).
  split_and!; [by apply locked_numbered | by apply locked_node | done].
Qed.

(** ** The tree the kernel sees *)

Definition name_ok (s : list byte) : Prop := s <> [] /\ (SLASH ∉ s) /\ (NUL ∉ s).

(** A tree between requests: nothing is locked or hidden, and forgotten nodes are
    not kept. *)
Record ready (f : fuse) : Prop := mk_ready {
  rd_good : good f;
  rd_unlocked : forall k n, f.(nodes) !! k = Some n -> n.(treelock) = 0;
  rd_shown : forall k n, f.(nodes) !! k = Some n -> n.(is_hidden) = 0;
  rd_names : forall k n s, f.(nodes) !! k = Some n -> n.(nodeid) <> FUSE_ROOT_ID -> n.(name) = Some s -> name_ok s;
  rd_forgets : f.(remember) = 0
}.

Lemma ready_shape f : ready f -> shape f.
Proof. intros [[Ht Hm _] Hu _ _ _]. split; [apply Ht | apply Ht | done | done]. Qed.

Definition node_at (i : Z) : wanted := mk_wanted i None false.
Definition name_in (i : Z) (s : list byte) : wanted := mk_wanted i (Some s) false.

(** The kernel holds the node of number [i], and its path is [p]. *)
Definition sees (f : fuse) (i : Z) (p : list byte) : Prop :=
  held f i /\ exists ps, at_path f (node_at i) ps None p.

(** The path of a name in a directory. *)
Definition child (d s : list byte) : list byte := (if decide (d = lit "/") then [] else d) ++ SLASH :: s.

Lemma path_text_snoc ps k s t : path_text (ps ++ [(k, s)]) t = SLASH :: s ++ path_text ps t.
Proof. unfold path_text. by rewrite foldl_app. Qed.

Lemma climbs_names f p ps r : ready f -> climbs f.(nodes) p ps r -> Forall (fun x => name_ok x.2) ps.
Proof. intros Hr H. induction H as [|p n s q ps r Hn Hid Hs Hq Hc IH]; constructor; [by apply (rd_names f Hr p n) | done]. Qed.

Lemma shown_child ps s : Forall (fun x => name_ok x.2) ps -> child (shown (path_text ps [])) s = path_text ps (SLASH :: s).
Proof.
  intros Hps. rewrite (path_text_app ps (SLASH :: s)). unfold child.
  destruct ps as [|[k t] ps _] using rev_ind; [done|]. apply Forall_app in Hps as [_ [Hk _]%Forall_cons].
  rewrite path_text_snoc. cbn [shown]. rewrite decide_False; [done|]. destruct Hk as [Hne _]. cbn in Hne. by destruct t.
Qed.

Lemma child_at f i d s ps : ready f -> at_path f (node_at i) ps None d -> NUL ∉ s ->
  zlen (child d s) + 1 <= 2 ^ 31 -> at_path f (name_in i s) ps None (child d s).
Proof.
  intros Hr ((p & r & n & Hnum & Hc & Hn & Hroot & Hw) & _ & Hl & Hnul & ->) Hs Hlen.
  cbn [node_at ino last write last_text] in *. pose proof (climbs_names f p ps r Hr Hc) as Hnames.
  rewrite (shown_child ps s Hnames) in Hlen |- *. split; [by exists p, r, n|]. cbn [name_in last write ino last_text to_write].
  split_and!; [done | done | | rewrite path_text_app; by destruct (path_text ps [])].
  rewrite path_text_app. intros [?|[?|?]%elem_of_cons]%elem_of_app; done.
Qed.

(** ** One number for every path *)

Lemma parent_known f k n q : tree f -> f.(nodes) !! k = Some n -> n.(parent) = Some q -> exists d, f.(nodes) !! q = Some d.
Proof.
  intros Ht Hn Hq. destruct (tr_up _ _ Ht k n Hn) as (ps & r & Hc & _ & x & Hx & Hp).
  inversion Hc as [|? m s q' ps2 ? Hm _ _ Hq' Hc2]; subst; [congruence|].
  assert (m = n) as -> by congruence. assert (q' = q) as -> by congruence.
  inversion Hc2; subst; eauto.
Qed.

Lemma split_slash s : forall t X Y, SLASH ∉ s -> SLASH ∉ t -> (X = [] \/ exists x, X = SLASH :: x) -> (Y = [] \/ exists y, Y = SLASH :: y) ->
  s ++ X = t ++ Y -> s = t /\ X = Y.
Proof.
  induction s as [|a s IH]; intros [|b t] X Y Hs Ht HX HY He; cbn in He; [done | | |].
  - exfalso. apply Ht. destruct HX as [->|[x ->]]; [done|]. injection He as <- _. by left.
  - exfalso. apply Hs. destruct HY as [->|[y ->]]; [done|]. injection He as -> _. by left.
  - injection He as -> He. apply not_elem_of_cons in Hs as [_ Hs], Ht as [_ Ht].
    by destruct (IH t X Y Hs Ht HX HY He) as [-> ->].
Qed.

Lemma path_text_start ps : path_text ps [] = [] \/ exists x, path_text ps [] = SLASH :: x.
Proof. destruct ps as [|[k s] ps _] using rev_ind; [by left|]. right. rewrite path_text_snoc. by eexists. Qed.

Lemma path_text_inj ps : forall ps', Forall (fun x => name_ok x.2) ps -> Forall (fun x => name_ok x.2) ps' ->
  path_text ps [] = path_text ps' [] -> ps.*2 = ps'.*2.
Proof.
  induction ps as [|[k s] ps IH] using rev_ind; intros ps' Hps Hps' He; destruct ps' as [|[k' s'] ps' _] using rev_ind;
    [done | by rewrite path_text_snoc in He | by rewrite path_text_snoc in He |].
  apply Forall_app in Hps as [Hps [(_ & Hs & _) _]%Forall_cons], Hps' as [Hps' [(_ & Hs' & _) _]%Forall_cons].
  rewrite !path_text_snoc in He. injection He as He.
  destruct (split_slash s s' _ _ Hs Hs' (path_text_start ps) (path_text_start ps') He) as [-> He2].
  by rewrite !fmap_app, (IH ps').
Qed.

Lemma same_way f k ps r : tree f -> climbs f.(nodes) k ps r -> forall k' ps' r' n n', climbs f.(nodes) k' ps' r' ->
  (exists a, f.(nodes) !! k = Some a) -> (exists a, f.(nodes) !! k' = Some a) ->
  f.(nodes) !! r = Some n -> n.(nodeid) = FUSE_ROOT_ID -> f.(nodes) !! r' = Some n' -> n'.(nodeid) = FUSE_ROOT_ID ->
  ps.*2 = ps'.*2 -> k = k'.
Proof.
  intros Ht H. induction H as [k|k a t u ps r Ha Hid Hs Hu Hc IH]; intros k' ps' r' n n' Hc' Hk Hk' Hn Hni Hn' Hni' He.
  - inversion Hc'; subst; [|done]. apply (proj2 (tr_ids _ _ Ht) FUSE_ROOT_ID); split; eauto using tr_numbered.
  - inversion Hc' as [|? a' t' u' ps2 ? Ha' Hid' Hs' Hu' Hc2]; subst; [done|]. injection He as <- He.
    destruct (parent_known f k a u Ht Ha Hu) as [d Hd], (parent_known f k' a' u' Ht Ha' Hu') as [d' Hd'].
    assert (u = u') as <- by (apply (IH u' ps2 r' n n'); eauto). assert (d' = d) as -> by congruence.
    apply (proj2 (tr_names _ _ Ht) d.(nodeid) t); (split; [by eapply (tr_hashed _ _ Ht); eauto|]); eauto 10.
Qed.

Lemma sees_one f i j p : ready f -> sees f i p -> sees f j p -> i = j.
Proof.
  intros Hf [_ (ps & (k & r & n & Hk & Hc & Hn & Hni & _) & _ & _ & _ & Hp)] [_ (ps' & (k' & r' & n' & Hk' & Hc' & Hn' & Hni' & _) & _ & _ & _ & Hp')].
  cbn [node_at ino last last_text] in *. pose proof (good_tree f (rd_good f Hf)) as Ht.
  pose proof (climbs_names f k ps r Hf Hc) as Hps. pose proof (climbs_names f k' ps' r' Hf Hc') as Hps'.
  assert (path_text ps [] = path_text ps' []) as He.
  { rewrite Hp in Hp'. assert (forall l, Forall (fun x => name_ok x.2) l -> path_text l [] <> lit "/") as Hno.
    { intros l Hl. destruct l as [|[x t] l _] using rev_ind; [done|]. apply Forall_app in Hl as [_ [(Hne & _) _]%Forall_cons].
      rewrite path_text_snoc. by destruct t. }
    unfold shown in Hp'. pose proof (Hno ps Hps). pose proof (Hno ps' Hps').
    destruct (path_text ps []), (path_text ps' []); congruence. }
  assert (k = k') as <-.
  { destruct Hk as (_ & a & Ha & _), Hk' as (_ & a' & Ha' & _).
    apply (same_way f k ps r Ht Hc k' ps' r' n n'); eauto. by apply path_text_inj. }
  destruct Hk as (_ & a & Ha & <-), Hk' as (_ & a' & Ha' & <-). congruence.
Qed.

(** ** A lookup *)

(** Node [p] of number [i] is known to the kernel as [s] in [q]; the others are as
    they were. *)
Record looked_in (f f' : fuse) (p i : Z) (s : list byte) (q : Z) : Prop := mk_looked {
  li_node : exists n, f'.(nodes) !! p = Some n /\ n.(nodeid) = i /\ n.(name) = Some s /\ n.(parent) = Some q /\ n.(nlookup) <> 0;
  li_before : forall n, f.(nodes) !! p = Some n -> n.(nodeid) = i /\ n.(name) = Some s /\ n.(parent) = Some q;
  li_forth : forall k a, k <> p -> f.(nodes) !! k = Some a -> exists b, f'.(nodes) !! k = Some b /\ same_place a b /\ b.(nlookup) = a.(nlookup);
  li_back : forall k b, k <> p -> f'.(nodes) !! k = Some b -> exists a, f.(nodes) !! k = Some a /\ same_place a b /\ b.(nlookup) = a.(nlookup);
  li_number : forall j k, numbered f' j k <-> (j = i /\ k = p) \/ numbered f j k
}.

Lemma climbs_end_known f k ps r n : tree f -> climbs f.(nodes) k ps r -> f.(nodes) !! k = Some n -> exists m, f.(nodes) !! r = Some m.
Proof.
  intros Ht H. revert n. induction H as [k|k a t u ps r Ha Hid Hs Hu Hc IH]; intros n Hn; [by exists n|].
  destruct (parent_known f k a u Ht Ha Hu) as [d Hd]. by apply (IH d).
Qed.

Section looked.
Context (f f' : fuse) (p i : Z) (s : list byte) (q : Z) (Hf : ready f) (Hroot : i <> FUSE_ROOT_ID) (Hl : looked_in f f' p i s q).

Lemma li_place k a : f.(nodes) !! k = Some a -> exists b, f'.(nodes) !! k = Some b /\ same_place a b.
Proof.
  intros Ha. destruct (decide (k = p)) as [->|Hk].
  - destruct (li_node _ _ _ _ _ _ Hl) as (n & Hn & Hi & Hs & Hqn & _). exists n. split; [done|].
    destruct (li_before _ _ _ _ _ _ Hl a Ha) as (Hi' & Hs' & Hq'). split_and!; congruence.
  - destruct (li_forth _ _ _ _ _ _ Hl k a Hk Ha) as (b & Hb & Hsame & _). by exists b.
Qed.

Lemma li_climbs k ps r : climbs f.(nodes) k ps r -> climbs f'.(nodes) k ps r.
Proof.
  intros H. induction H as [k|k a t u ps r Ha Hid Ht Hu Hc IH]; [constructor|].
  destruct (li_place k a Ha) as (b & Hb & E1 & E2 & E3). apply (climb_up _ k b t u); congruence.
Qed.

Lemma li_climbs_back k ps r : (exists a, f.(nodes) !! k = Some a) -> climbs f'.(nodes) k ps r -> climbs f.(nodes) k ps r.
Proof.
  intros Ha H. revert Ha. induction H as [k|k b t u ps r Hb Hid Ht Hu Hc IH]; intros [a Ha]; [constructor|].
  destruct (li_place k a Ha) as (b' & Hb' & E1 & E2 & E3). assert (b' = b) as -> by congruence.
  apply (climb_up _ k a t u); try congruence. apply IH. apply (parent_known f k a); [apply Hf | done | congruence].
Qed.

Lemma li_at w ps path : w.(write) = false -> at_path f w ps None path -> at_path f' w ps None path.
Proof.
  intros Hw [(k & r & m & Hk & Hc & Hm & Hi & _) [Hto Hrest]]. destruct (li_place r m Hm) as (m' & Hm' & E & _).
  split; [|split; [by unfold to_write in *; rewrite Hw in *|exact Hrest]]. exists k, r, m'.
  split_and!; [apply (li_number _ _ _ _ _ _ Hl); by right | by apply li_climbs | done | congruence | done].
Qed.

Section path.
Context (d : list byte) (ps : list (Z * list byte)) (r : Z) (nr : node).
Context (Hc : climbs f.(nodes) q ps r) (Hnr : f.(nodes) !! r = Some nr)
  (Hrid : nr.(nodeid) = FUSE_ROOT_ID) (Hd : d = shown (path_text ps [])) (Hs : name_ok s)
  (Hlen : zlen (child d s) + 1 <= 2 ^ 31) (Hnul : NUL ∉ path_text ps []).

Lemma child_text : child d s = path_text ((p, s) :: ps) [].
Proof. rewrite Hd, shown_child; [cbn [path_text foldl]; by rewrite app_nil_r | by apply (climbs_names f q ps r)]. Qed.

Lemma li_climbs_p : climbs f'.(nodes) p ((p, s) :: ps) r.
Proof.
  destruct (li_node _ _ _ _ _ _ Hl) as (n & Hn & Hi & Hns & Hnq & Hnl).
  apply (climb_up _ p n s q); try done; [congruence | by apply li_climbs].
Qed.

Lemma li_root : exists m, f'.(nodes) !! r = Some m /\ m.(nodeid) = FUSE_ROOT_ID.
Proof. destruct (li_place r nr Hnr) as (m & Hm & Er & _). exists m. split; congruence. Qed.

Lemma new_seen : sees f' i (child d s).
Proof.
  destruct (li_node _ _ _ _ _ _ Hl) as (n & Hn & Hi & Hns & Hnq & Hnl). destruct li_root as (m & Hm & Hmi).
  assert (numbered f' i p) as Hnum by (apply (li_number _ _ _ _ _ _ Hl); by left). pose proof child_text as Htext.
  split; [by exists p, n|]. exists ((p, s) :: ps). split; [exists p, r, m; split_and!; try done; apply li_climbs_p|].
  cbn [node_at ino last write last_text to_write]. rewrite <- Htext. split_and!; [done | done | | ].
  - rewrite Htext. cbn [path_text foldl]. rewrite app_nil_r. change (NUL ∉ path_text ps (SLASH :: s)).
    rewrite path_text_app. destruct Hs as (_ & _ & Hs3). intros [?|[?|?]%elem_of_cons]%elem_of_app; done.
  - rewrite Htext at 2. unfold child in Htext |- *. destruct (decide (d = lit "/")); [by rewrite <- Htext|].
    rewrite <- Htext. by destruct d.
Qed.

Lemma old_seen j x : sees f j x -> sees f' j x.
Proof.
  intros [(k & a & Hk & Ha & Hal) (ps' & (u & r' & m & Hu & Hc' & Hm & Hmi & _) & Hrest)]. split.
  - exists k. destruct (decide (k = p)) as [->|Hkp].
    + destruct (li_node _ _ _ _ _ _ Hl) as (n & Hn & _ & _ & _ & Hnl). exists n.
      split_and!; [apply (li_number _ _ _ _ _ _ Hl); by right | done | done].
    + destruct (li_forth _ _ _ _ _ _ Hl k a Hkp Ha) as (b & Hb & _ & Hbl). exists b.
      split_and!; [apply (li_number _ _ _ _ _ _ Hl); by right | done | congruence].
  - exists ps'. destruct (li_place r' m Hm) as (m' & Hm' & E & _). split; [|done]. exists u, r', m'.
    split_and!; [apply (li_number _ _ _ _ _ _ Hl); by right | by apply li_climbs | done | congruence | done].
Qed.

Lemma seen_back j x : ids_ok f' -> sees f' j x -> sees f j x \/ (j = i /\ x = child d s).
Proof.
  intros Hids [(k & b & Hk & Hb & Hbl) (ps' & (u & r' & m & Hu & Hc' & Hm & Hmi & _) & Hw & Hl2 & Hn2 & ->)].
  cbn [node_at ino last write last_text] in *. assert (u = k) as -> by (by apply (proj2 Hids j)).
  destruct (li_node _ _ _ _ _ _ Hl) as (n & Hn & Hi & Hns & Hnq & Hnl). destruct li_root as (m0 & Hm0 & Hmi0).
  destruct (decide (k = p)) as [->|Hkp].
  - right. destruct (climbs_root_det _ _ _ _ _ _ _ _ Hc' li_climbs_p Hm Hmi Hm0 Hmi0) as [-> _].
    destruct Hk as [_ (b' & Hb' & <-)]. split; [congruence|]. rewrite child_text. cbn [path_text foldl].
    rewrite app_nil_r. change (shown (path_text ps (SLASH :: s)) = path_text ps (SLASH :: s)). rewrite path_text_app. by destruct (path_text ps []).
  - left. destruct (li_back _ _ _ _ _ _ Hl k b Hkp Hb) as (a & Ha & _ & Hal).
    apply (li_number _ _ _ _ _ _ Hl) in Hk as [[_ ?]|Hk]; [done|]. split; [exists k, a; split_and!; [done | done | congruence]|].
    exists ps'. pose proof (li_climbs_back k ps' r' (ex_intro _ a Ha) Hc') as Hcb. split; [|done].
    destruct (climbs_end_known f k ps' r' a (good_tree f (rd_good f Hf)) Hcb Ha) as [m1 Hm1].
    destruct (li_place r' m1 Hm1) as (m' & Hm' & E & _). exists k, r', m1. split_and!; try done. congruence.
Qed.
End path.

End looked.

(** *** Finding the node of a name while the way to it is locked *)

(** [n] more lookups can be served. *)
Definition spare (n : Z) (f : fuse) : Prop :=
  Z.of_nat (base.size f.(nodes)) + n < 2 ^ 32 - 2 /\ forall k m, f.(nodes) !! k = Some m -> m.(nlookup) + n < 2 ^ 64.

Definition unlocked (f : fuse) : fuse := locked f (fun _ => 0).

(** A tree that came out of a locked one has the locks it had. *)
Lemma still_locked f3 L : (forall k n, f3.(nodes) !! k = Some n -> n.(treelock) = L k) -> f3 = locked (unlocked f3) L.
Proof. intros HL. unfold unlocked. rewrite relocked. by apply own_locks. Qed.

Lemma unlocked_ready f3 : good f3 -> (forall k n, f3.(nodes) !! k = Some n -> n.(is_hidden) = 0) ->
  (forall k n s, f3.(nodes) !! k = Some n -> n.(nodeid) <> FUSE_ROOT_ID -> n.(name) = Some s -> name_ok s) ->
  f3.(remember) = 0 -> ready (unlocked f3).
Proof.
  intros Hg Hh Hn Hr. split; [by apply locked_good | | | | done].
  - by intros k n (m & Hm & ->)%locked_back.
  - intros k n (m & Hm & ->)%locked_back. by apply (Hh k m).
  - intros k n s (m & Hm & ->)%locked_back. by apply (Hn k m).
Qed.

Lemma unlocked_looked f L f3 p i s q : looked_in (locked f L) f3 p i s q -> looked_in f (unlocked f3) p i s q.
Proof.
  intros [(n & Hn & Hi & Hs & Hq & Hl) Hb Hf Hbk Hnum]. split.
  - exists (with_treelock n 0). split_and!; try done. by apply (locked_node f3 (fun _ => 0)).
  - intros m Hm. by apply (Hb (with_treelock m (L p))), locked_node.
  - intros k a Hk Ha. destruct (Hf k _ Hk (locked_node f L k a Ha)) as (b & Hb' & Hsame & Hbl).
    exists (with_treelock b 0). split_and!; [by apply (locked_node f3 (fun _ => 0)) | exact Hsame | exact Hbl].
  - intros k b Hk (b' & Hb' & ->)%locked_back. destruct (Hbk k b' Hk Hb') as (a & (a' & Ha & ->)%locked_back & Hsame & Hbl).
    exists a'. split_and!; [done | exact Hsame | exact Hbl].
  - intros j k. rewrite (locked_numbered f3 (fun _ => 0)), Hnum. by rewrite locked_numbered.
Qed.

Section find.
Context (f : fuse) (L : Z -> Z) (dir : Z) (s : list byte) (q : Z) (d : node) (m : Z).
Context (Hf : ready f) (Hdir : numbered f dir q) (Hd : f.(nodes) !! q = Some d) (Hname : name_ok s) (Hroom : spare m f) (Hm : 1 <= m).
Context (HL : forall k, f.(nodes) !! k = None -> L k = 0).

Definition found (p i : Z) (f' : fuse) : Prop :=
  find_node dir (Some s) (locked f L) = Ok (Some p, locked f' L) /\ ready f' /\ spare (m - 1) f' /\
  looked_in f f' p i s q /\ i <> FUSE_ROOT_ID /\ named f' dir s p.

Lemma find_again p n : named f dir s p -> f.(nodes) !! p = Some n -> exists f', found p n.(nodeid) f'.
Proof.
  intros Hp Hn. set (g := locked f L). destruct Hroom as [Hsize Hcount]. pose proof (Hcount p n Hn) as Hl.
  assert (g.(nodes) !! p = Some (with_treelock n (L p))) as Hgn by (by apply locked_node).
  assert (tree g) as Hg by (apply locked_tree, Hf).
  destruct (find_node_known g dir (Some s) p _ Hg Hgn ltac:(cbn; lia)) as (f3 & Hrun & Ht3 & Hns3 & Hnm3 & Hnu3 & _ & Hm3 & Hc3 & Hr3);
    [by apply locked_named|].
  set (n3 := looked_up (with_treelock n (L p))) in *. pose proof (looked_up_place (with_treelock n (L p))) as (E1 & E2 & E3). fold n3 in E1, E2, E3.
  pose proof Hp as (_ & n0 & q0 & d0 & Hn0 & Hs0 & Hq0 & Hd0 & Hdi). assert (n0 = n) as -> by congruence.
  assert (q0 = q) as ->.
  { apply (proj2 (tr_ids _ _ (good_tree f (rd_good f Hf))) dir); [|done]. split; [|by exists d0].
    by apply (tr_numbered _ _ (good_tree f (rd_good f Hf)) q0 d0). }
  assert (n.(nodeid) <> FUSE_ROOT_ID) as Hid.
  { pose proof (tr_placed _ _ (good_tree f (rd_good f Hf)) p n Hn) as Hpl. unfold placed in Hpl. rewrite Hq0 in Hpl. apply Hpl. }
  assert (numbered f n.(nodeid) p) as Hnum.
  { split; [by apply (tr_numbered _ _ (good_tree f (rd_good f Hf)) p n) | by exists n]. }
  assert (forall k x, f3.(nodes) !! k = Some x -> exists y, f.(nodes) !! k = Some y /\ same_place y x /\ x.(treelock) = L k /\
    x.(is_hidden) = y.(is_hidden) /\ (k <> p -> x.(nlookup) = y.(nlookup)) /\ x.(nlookup) <= y.(nlookup) + 1) as Hback.
  { intros k x Hx. rewrite Hns3 in Hx. destruct (decide (k = p)) as [->|Hk].
    - rewrite lookup_insert_eq in Hx. injection Hx as <-. exists n. unfold n3, looked_up. by destruct (nlookup _ =? 0) eqn:He; split_and!.
    - rewrite lookup_insert_ne in Hx by done. apply locked_back in Hx as (y & Hy & ->). exists y. split_and!; try done. cbn. lia. }
  exists (unlocked f3). split; [|split; [|split; [|split; [|split]]]].
  - fold g. rewrite Hrun. do 2 f_equal. apply still_locked. intros k x (y & _ & _ & Hy & _)%Hback. exact Hy.
  - apply unlocked_ready.
    + split; [done | apply Hm3, Hf | rewrite Hc3; apply Hf].
    + intros k x (y & Hy & _ & _ & -> & _)%Hback. by apply (rd_shown f Hf k y).
    + intros k x t (y & Hy & (F1 & F2 & F3) & _)%Hback Hi Ht. apply (rd_names f Hf k y t); congruence.
    + rewrite Hr3. apply Hf.
  - split.
    + unfold unlocked, locked. cbn [nodes set_nodes]. rewrite relock_size, Hns3, map_size_insert_Some by (by eexists).
      cbn [g locked nodes set_nodes]. rewrite relock_size. lia.
    + intros k x (x' & (y & Hy & _ & _ & _ & _ & Hle)%Hback & ->)%locked_back. cbn. pose proof (Hcount k y Hy). lia.
  - apply (unlocked_looked f L). fold g. split.
    + exists n3. split_and!; [by rewrite Hns3, lookup_insert_eq | by rewrite E1 | by rewrite E2 | by rewrite E3 |].
      unfold n3, looked_up. destruct (Z.eqb_spec (nlookup (with_treelock n (L p))) 0); cbn in *; [lia|].
      pose proof (tr_count _ _ (good_tree f (rd_good f Hf)) p n Hn). lia.
    + intros x Hx. rewrite Hgn in Hx. by injection Hx as <-.
    + intros k a Hk Ha. exists a. by rewrite Hns3, lookup_insert_ne.
    + intros k b Hk Hb. exists b. rewrite Hns3, lookup_insert_ne in Hb by done. done.
    + intros j k. rewrite Hnu3. split; [by right|]. intros [[-> ->]|?]; [by apply locked_numbered | done].
  - exact Hid.
  - apply (locked_named f3 (fun _ => 0)), Hnm3. by apply locked_named.
Qed.

Lemma find_fresh : (forall k, ~ named f dir s k) -> exists p i f', found p i f'.
Proof.
  intros Hnone. set (g := locked f L). destruct Hroom as [Hsize Hcount].
  assert (g.(nodes) !! q = Some (with_treelock d (L q))) as Hgd by (by apply locked_node).
  assert (good g) as Hg by (apply locked_good, Hf). pose proof Hg as [Htg Hmg Hcg].
  destruct (find_node_new g dir q (with_treelock d (L q)) s Htg Hmg Hcg) as
    (p & c & f3 & Hrun & Ht3 & Hp & Hc & Hfree & _ & Hnm3 & Hnu3 & _ & Hm3 & Hc3 & Hr3 & gen & Hns3); [ | | exact Hgd | |].
  { cbn [g locked nodes set_nodes]. rewrite relock_size. lia. }
  { by apply locked_numbered. }
  { intros k Hk%locked_named. by apply (Hnone k). }
  assert (kept_lookups g = 0) as Hk0 by (unfold kept_lookups; cbn [g locked set_nodes remember]; by rewrite (rd_forgets f Hf)).
  rewrite Hk0 in Hns3. set (n3 := with_name (new_node c gen 1 (0 + 1)) (Some q) (Some s)) in *. set (d3 := with_refctr _ _) in Hns3.
  assert (f.(nodes) !! p = None) as Hfp.
  { destruct (f.(nodes) !! p) as [x|] eqn:Hx; [|done]. apply (locked_node f L) in Hx. fold g in Hx. congruence. }
  assert (p <> q) as Hpq by congruence.
  assert (forall k x, f3.(nodes) !! k = Some x -> k <> p -> exists y, f.(nodes) !! k = Some y /\ same_place y x /\ x.(treelock) = L k /\
    x.(is_hidden) = y.(is_hidden) /\ x.(nlookup) = y.(nlookup)) as Hback.
  { intros k x Hx Hk. rewrite Hns3, lookup_insert_ne in Hx by done. destruct (decide (k = q)) as [->|Hkq].
    - rewrite lookup_insert_eq in Hx. injection Hx as <-. by exists d.
    - rewrite lookup_insert_ne in Hx by done. apply locked_back in Hx as (y & Hy & ->). by exists y. }
  assert (f3.(nodes) !! p = Some n3) as Hp3 by (by rewrite Hns3, lookup_insert_eq).
  assert (c <> FUSE_ROOT_ID) as Hcid.
  { intros ->. destruct (tr_root _ _ Htg) as (k & x & Hx & Hi & _). apply (Hfree k). split; [by apply (tr_numbered _ _ Htg k x) | by exists x]. }
  exists p, c, (unlocked f3). split; [|split; [|split; [|split; [|split]]]].
  - fold g. rewrite Hrun. do 2 f_equal. apply still_locked. intros k x Hx. destruct (decide (k = p)) as [->|Hk].
    + assert (x = n3) as -> by congruence. by rewrite HL.
    + by destruct (Hback k x Hx Hk) as (y & _ & _ & Hy & _).
  - apply unlocked_ready; [split; [done | done | by rewrite Hc3] | | | by rewrite Hr3; apply Hf].
    + intros k x Hx. destruct (decide (k = p)) as [->|Hk]; [by assert (x = n3) as -> by congruence|].
      destruct (Hback k x Hx Hk) as (y & Hy & _ & _ & -> & _). by apply (rd_shown f Hf k y).
    + intros k x t Hx Hi Ht. destruct (decide (k = p)) as [->|Hk].
      { assert (x = n3) as -> by congruence. cbn in Ht. by injection Ht as <-. }
      destruct (Hback k x Hx Hk) as (y & Hy & (F1 & F2 & F3) & _). apply (rd_names f Hf k y t); congruence.
  - split.
    + unfold unlocked, locked. cbn [nodes set_nodes]. rewrite relock_size, Hns3, map_size_insert_None, map_size_insert_Some.
      * cbn [g locked nodes set_nodes]. rewrite relock_size. lia.
      * by eexists.
      * by rewrite lookup_insert_ne.
    + intros k x (x' & Hx & ->)%locked_back. cbn. destruct (decide (k = p)) as [->|Hk].
      * assert (x' = n3) as -> by congruence. cbn. pose proof (Hcount q d Hd). pose proof (tr_count _ _ (good_tree f (rd_good f Hf)) q d Hd). lia.
      * destruct (Hback k x' Hx Hk) as (y & Hy & _ & _ & _ & Hl). pose proof (Hcount k y Hy). lia.
  - apply (unlocked_looked f L). fold g. split.
    + exists n3. by split_and!.
    + intros x Hx. congruence.
    + intros k a Hk Ha. rewrite Hns3, lookup_insert_ne by done. destruct (decide (k = q)) as [->|Hkq].
      * rewrite lookup_insert_eq. exists d3. by assert (a = with_treelock d (L q)) as -> by congruence.
      * rewrite lookup_insert_ne by done. by exists a.
    + intros k b Hk Hb. destruct (Hback k b Hb Hk) as (y & Hy & Hsame & _ & _ & Hl). exists (with_treelock y (L k)).
      split_and!; [by apply locked_node | exact Hsame | exact Hl].
    + exact Hnu3.
  - exact Hcid.
  - apply (locked_named f3 (fun _ => 0)), Hnm3. by left.
Qed.

Lemma find_there : exists p i f', found p i f'.
Proof.
  destruct (lookup_node_run f dir s (tr_names _ _ (good_tree f (rd_good f Hf)))) as (r & _ & Hspec). destruct r as [p|].
  - assert (named f dir s p) as Hp by (by apply Hspec). pose proof Hp as (_ & n & _ & _ & Hn & _).
    destruct (find_again p n Hp Hn) as (f' & Hfound). by eexists _, _, _.
  - apply find_fresh. intros k Hk. by apply Hspec in Hk.
Qed.

End find.

(** *** What a node remembers about its file *)

Definition refiled (f : fuse) (p : Z) (n : node) (fl : node_file) : fuse := set_nodes (<[p := with_file n fl]> f.(nodes)) f.

Section refile.
Context (f : fuse) (p : Z) (n : node) (fl : node_file) (Hn : f.(nodes) !! p = Some n).
#[local] Abbreviation f' := (refiled f p n fl).

Lemma refile_place : same_place n (with_file n fl).
Proof. done. Qed.

Lemma refile_store L : store_node p (with_file (with_treelock n (L p)) fl) (locked f L) = Ok (tt, locked f' L).
Proof.
  rewrite (store_node_run (locked f L) p _ _ (locked_node f L p n Hn)). do 2 f_equal.
  unfold locked, refiled, set_nodes. cbn. f_equal. apply map_eq. intros k. rewrite relock_lookup.
  destruct (decide (k = p)) as [->|Hk]; [by rewrite !lookup_insert_eq|]. by rewrite !lookup_insert_ne, relock_lookup.
Qed.

Lemma refile_node k m : f'.(nodes) !! k = Some m -> exists m0, f.(nodes) !! k = Some m0 /\ m = with_file m0 m.(file).
Proof.
  cbn [refiled nodes set_nodes]. destruct (decide (k = p)) as [->|Hk].
  - rewrite lookup_insert_eq. intros [= <-]. by exists n.
  - rewrite lookup_insert_ne by done. intros Hm. exists m. split; [done|]. by destruct m.
Qed.

Lemma refile_ready : ready f -> ready f'.
Proof.
  intros [[Ht Hm Hc] Hu Hs Hna Hr]. destruct (tr_refs _ _ Ht p n Hn) as [Hpos _]. split; [split; [|done|done]| | | |done].
  - apply (touch_tree f p n _ Hn refile_place nothing); [done | exact Hpos | done | done | | exact (tr_count _ _ Ht p n Hn)].
    intros Hi. destruct (tr_root _ _ Ht) as (q & m & Hq & Hqi & Hql). assert (q = p) as ->; [|cbn; congruence].
    apply (proj2 (tr_ids _ _ Ht) FUSE_ROOT_ID); (split; [by eapply (tr_numbered _ _ Ht)|]); eauto.
  - intros k m (m0 & Hm0 & ->)%refile_node. by apply (Hu k m0).
  - intros k m (m0 & Hm0 & ->)%refile_node. by apply (Hs k m0).
  - intros k m s (m0 & Hm0 & ->)%refile_node. by apply (Hna k m0).
Qed.

Lemma refile_spare m : spare m f -> spare m f'.
Proof.
  intros [Hs Hc]. split.
  - cbn [refiled nodes set_nodes]. rewrite map_size_insert_Some by (by eexists). lia.
  - intros k x (m0 & Hm0 & ->)%refile_node. by apply (Hc k m0).
Qed.

Lemma refile_numbered i k : numbered f' i k <-> numbered f i k.
Proof. by apply (touch_numbered f p n _ Hn refile_place). Qed.

Lemma refile_at w ps wnode path : at_path f w ps wnode path -> at_path f' w ps wnode path.
Proof.
  intros [(k & r & m & Hk & Hc & Hm & Hi & Hw) [Hto Hrest]]. split; [|split; [|exact Hrest]].
  - destruct (touch_forth f p n _ Hn refile_place r m Hm) as (m' & Hm' & E & _). exists k, r, m'.
    split_and!; [by apply refile_numbered | by apply (touch_climbs f p n _ Hn refile_place) | done | congruence | done].
  - unfold to_write in *. destruct w.(write); [|done]. destruct Hto as (s & Hs & Hto). exists s. split; [done|].
    intros k0. rewrite Hto. symmetry. by apply (touch_named f p n _ Hn refile_place).
Qed.

Lemma refile_held j : held f j <-> held f' j.
Proof.
  split.
  - intros (k & a & Hk & Ha & Hal). destruct (decide (k = p)) as [->|Hkp].
    + exists p, (with_file n fl). assert (a = n) as -> by congruence.
      split_and!; [by apply refile_numbered | apply lookup_insert_eq | done].
    + exists k, a. split_and!; [by apply refile_numbered | by cbn [refiled nodes set_nodes]; rewrite lookup_insert_ne | done].
  - intros (k & a & Hk%refile_numbered & (a0 & Ha & He)%refile_node & Hal). exists k, a0. rewrite He in Hal. by split_and!.
Qed.

End refile.

(** Back as well: the old file is put back. *)
Lemma refile_sees f p n fl j x : f.(nodes) !! p = Some n -> sees (refiled f p n fl) j x <-> sees f j x.
Proof.
  intros Hn. assert (refiled (refiled f p n fl) p (with_file n fl) n.(file) = f) as Hback.
  { destruct f as [a b c d e g ns h i]. unfold refiled, set_nodes. cbn in *. f_equal. rewrite insert_insert_eq.
    apply insert_id. rewrite Hn. by destruct n. }
  assert ((refiled f p n fl).(nodes) !! p = Some (with_file n fl)) as Hn' by apply lookup_insert_eq.
  split; intros [Hh (ps & Hat)]; (split; [|exists ps]).
  - by apply (refile_held f p n fl Hn).
  - rewrite <- Hback. by apply refile_at.
  - by apply (refile_held f p n fl Hn).
  - by apply refile_at.
Qed.

Lemma sees_fun f i p p' : ids_ok f -> sees f i p -> sees f i p' -> p = p'.
Proof.
  intros Hids [_ (ps & (k & r & n & Hk & Hc & Hn & Hni & _) & _ & _ & _ & ->)] [_ (ps' & (k' & r' & n' & Hk' & Hc' & Hn' & Hni' & _) & _ & _ & _ & ->)].
  cbn [node_at ino last last_text] in *. assert (k' = k) as -> by (by apply (proj2 Hids i)).
  by destruct (climbs_root_det _ _ _ _ _ _ _ _ Hc Hc' Hn Hni Hn' Hni') as [-> _].
Qed.

(** ** Looking a name up and remembering the attributes *)

(** The tree after the name [s] of the directory [dir], at the path [path], has
    been looked up, with the number [i]. *)
Record entered (f f' : fuse) (dir : Z) (s : list byte) (path : list byte) (m i : Z) : Prop := mk_entered {
  en_ready : ready f';
  en_spare : spare (m - 1) f';
  en_sees : forall j x, sees f' j x <-> sees f j x \/ (j = i /\ x = path);
  en_held : sees f' i path;
  en_root : i <> FUSE_ROOT_ID;
  en_at : forall ps, at_path f (name_in dir s) ps None path -> at_path f' (name_in dir s) ps None path
}.

(** What changes in a file changes none of it. *)
Lemma entered_refiled f f' dir s path m i p n fl : f'.(nodes) !! p = Some n -> entered f f' dir s path m i ->
  entered f (refiled f' p n fl) dir s path m i.
Proof.
  intros Hn [H1 H2 H3 H4 H5 H6]. split; [by apply refile_ready | by apply refile_spare | | by apply refile_sees | done |].
  - intros j x. by rewrite refile_sees.
  - intros ps Hps. by apply refile_at, H6.
Qed.

Lemma update_stat_run f p n st L : f.(nodes) !! p = Some n -> exists fl,
  update_stat p st (locked f L) = Ok (tt, locked (refiled f p n fl) L).
Proof.
  intros Hn. exists (updated f.(now) n.(file) st). unfold update_stat. prun_get.
  prun (load_node_run (locked f L) p _ (locked_node f L p n Hn)). apply (refile_store f p n _ Hn).
Qed.

Lemma own_outside f w ps path : at_path f w ps None path -> tree f -> forall k, f.(nodes) !! k = None -> own ps None k = 0.
Proof.
  intros [(p & r & n & Hnum & Hc & Hn & _) _] Ht k Hk. unfold own, take, the_claim. cbn [c_way c_write]. rewrite decide_False by done.
  rewrite decide_False; [done|]. intros Hin. apply list_elem_of_fmap in Hin as ([j t] & -> & Hin). clear Hnum. cbn in Hk.
  induction Hc as [|p a t' u ps r Ha Hid Hs Hu Hc IH]; [by apply elem_of_nil in Hin|].
  apply elem_of_cons in Hin as [[= -> ->]|Hin]; [congruence | by apply IH].
Qed.

Definition entry_of (c : fuse_config) (i g : Z) (st : stat) : fuse_entry_param :=
  mk_entry i g (set_stat c i st) c.(attr_timeout) c.(entry_timeout).

Lemma do_lookup_run c f dir d s m e ps : ready f -> at_path f (node_at dir) ps None d -> name_ok s ->
  zlen (child d s) + 1 <= 2 ^ 31 -> spare m f -> 1 <= m -> exists i g f',
    do_lookup c dir (Some s) e (locked f (own ps None)) = Ok ((0, entry_of c i g e.(e_attr)), locked f' (own ps None)) /\
    entered f f' dir s (child d s) m i.
Proof.
  intros Hf Hat Hs Hlen Hsp Hm. destruct Hs as (Hs1 & Hs2 & Hs3).
  pose proof (child_at f dir d s ps Hf Hat Hs3 Hlen) as Hat'. pose proof (own_outside f _ _ _ Hat' (good_tree f (rd_good f Hf))) as HL.
  pose proof Hat as ((q & r & nr & Hq & Hc & Hnr & Hri & _) & _ & _ & Hnul & Hd). cbn [node_at ino last last_text] in *.
  pose proof Hq as (_ & dn & Hdn & _).
  destruct (find_there f (own ps None) dir s q dn m Hf Hq Hdn (conj Hs1 (conj Hs2 Hs3)) Hsp Hm HL) as
    (p & i & f' & Hrun & Hr' & Hsp' & Hl & Hi & _).
  assert (entered f f' dir s (child d s) m i) as Hen.
  { split; try done.
    - intros j x. split; [apply (seen_back f f' p i s q Hf Hi Hl d ps r nr); try done; apply Hr'|].
      intros [Hj|[-> ->]]; [by apply (old_seen f f' p i s q Hl) | by apply (new_seen f f' p i s q Hf Hi Hl d ps r nr)].
    - by apply (new_seen f f' p i s q Hf Hi Hl d ps r nr).
    - intros ps' Hp. by apply (li_at f f' p i s q Hl). }
  destruct (li_node _ _ _ _ _ _ Hl) as (n & Hn & Hni & _). exists i, n.(generation).
  assert (forall f2, (if is_set c.(auto_cache) then update_stat p e.(e_attr) else pret tt) (locked f' (own ps None)) = Ok (tt, f2) ->
    do_lookup c dir (Some s) e (locked f (own ps None)) = Ok ((0, entry_of c i n.(generation) e.(e_attr)), f2)) as Hdo.
  { intros f2 Hup. unfold do_lookup. prun Hrun. prun (load_node_run (locked f' (own ps None)) p _ (locked_node f' _ p n Hn)).
    cbn [e_attr nodeid generation with_treelock]. rewrite Hni. by prun Hup. }
  destruct (is_set c.(auto_cache)).
  - destruct (update_stat_run f' p n e.(e_attr) (own ps None) Hn) as (fl & Hup). exists (refiled f' p n fl).
    split; [by apply Hdo | by apply entered_refiled].
  - exists f'. split; [by apply Hdo | done].
Qed.

End FuseLibFacts.
