(* ===== verification/FuseServe.v ===== *)
(** Serving the program's files: each request of the kernel, run alone, calls the
    program's handler with the path of its node, gives its locks back and sends one
    reply. *)
From S2P Require Import Prelude.
From S2P Require Import CLib.
From S2P Require Import TgApi.
From S2P Require Import FuseTypes.
From S2P Require Import Hello.
From S2P Require Import FuseBuf.
From S2P Require Import FuseBufFacts.
From S2P Require Import FuseFs.
From S2P Require Import HelloOper.
From S2P Require Import FuseNodes.
From S2P Require Import FuseNodesFacts.
From S2P Require Import FusePaths.
From S2P Require Import FusePathsFacts.
From S2P Require Import FuseQueue.
From S2P Require Import FuseTree.
From S2P Require Import FuseTreeOps.

From S2P Require Import FuseQueueFacts.
From S2P Require Import TreeProps.
From S2P Require Import FuseDirents.
From S2P Require Import FuseLib.
From S2P Require Import FuseLibFacts.
From Stdlib Require Import QArith.
#[global] Close Scope Q_scope.
#[global] Open Scope Z_scope.
#[global] Open Scope c_scope.
#[global] Open Scope prog_scope.

Module FuseServe.
Import TgApi FuseTypes Hello FuseBuf FuseBufFacts FuseFs HelloOper FuseNodes FuseNodesFacts FusePaths FusePathsFacts FuseQueue
  FuseTree FuseTreeOps FuseQueueFacts TreeProps FuseDirents FuseLib FuseLibFacts.

Section serve.
Context {os net : Type} `{Syscalls os} `{CurlEnv net}.
#[local] Abbreviation St := (fstate os (world net)).
#[local] Abbreviation libst := (lib (os := os) (A := world net)).
#[local] Abbreviation Fs := (fuse_fs St fill_state).
Implicit Types (s : libst) (t : St) (f : fuse).

(** ** The state of the library *)

(** The locker of a library where no request waits. *)
Definition alone (f : fuse) : locker := mk_locker f [] [].

Lemma in_lk_run {B} (m : prog locker B) s b l : m s.(lk) = Ok (b, l) -> in_lk m s = Ok (b, set_lk l s).
Proof. intros Hm. unfold in_lk. by rewrite Hm. Qed.

Lemma in_fuse_run {B} (m : prog fuse B) s f b f' : s.(lk) = alone f -> m f = Ok (b, f') -> in_fuse m s = Ok (b, set_lk (alone f') s).
Proof. intros Hs Hm. apply in_lk_run. rewrite Hs. unfold on_nodes. cbn [lf alone]. by rewrite Hm. Qed.

Lemma in_fs_run {B} (m : Fs -> prog St B) s b t : m s.(fsys) s.(fst) = Ok (b, t) -> in_fs m s = Ok (b, set_fst t s).
Proof. intros Hm. unfold in_fs. by rewrite Hm. Qed.

Lemma get_conf_run s : get_conf s = Ok (s.(conf), s).
Proof. done. Qed.

Lemma send_run (r : reply) s : send r s = Ok (default 0 (head s.(answers)), log_reply r s).
Proof. done. Qed.

Lemma reply_run (r : reply) s : reply_with r s = Ok (tt, log_reply r s).
Proof. done. Qed.

Lemma same_lk s l : s.(lk) = l -> set_lk l s = s.
Proof. intros <-. by destruct s. Qed.

Lemma set_lk_twice l l' s : set_lk l (set_lk l' s) = set_lk l s.
Proof. by destruct s. Qed.

(** ** Paths *)

Lemma path_found f w ps wnode path s : shape f -> at_path f w ps wnode path -> s.(lk) = alone f ->
  want_path (get_path_wait SELF w None) s = Ok ((0, Some path, wnode), set_lk (alone (locked f (own ps wnode))) s).
Proof.
  intros Hsh Hat Hs. destruct (path_got f w ps wnode path SELF Hsh Hat) as (m & Hrun & Hread).
  fold (alone f) in Hrun. rewrite <- Hs in Hrun. unfold want_path, await. rewrite !pbind_assoc. prun (in_lk_run _ s _ _ Hrun).
  assert (path_arg (Some m) = Ok (Some path)) as Harg by (unfold path_arg; by rewrite Hread).
  unfold pbind at 1. unfold pret at 1. cbn [obind]. by prun_lift Harg.
Qed.

Lemma path_dropped f w ps path s : shape f -> at_path f w ps None path -> s.(lk) = alone (locked f (own ps None)) ->
  drop_path w.(ino) (Some path) s = Ok (tt, set_lk (alone f) s).
Proof.
  intros Hsh Hat Hs. apply in_lk_run. rewrite Hs. cbn [fmap option_fmap option_map free_path].
  by apply (path_given f w ps None path).
Qed.

(** A request with a path: it is asked for and given back around the call. *)
Lemma with_path_run {B} (found : prog libst (Z * cpath * option Z)) (none : B) call f f' w ps path s r s1 :
  found s = Ok ((0, Some path, None), set_lk (alone (locked f (own ps None))) s) ->
  call (Some path) (set_lk (alone (locked f (own ps None))) s) = Ok (r, s1) ->
  s1.(lk) = alone (locked f' (own ps None)) -> shape f' -> at_path f' w ps None path ->
  with_path found w.(ino) none call s = Ok (r, set_lk (alone f') s1).
Proof.
  intros Hfound Hcall Hs1 Hsh Hat. unfold with_path. prun Hfound. change (0 =? 0) with true. cbv iota.
  prun Hcall. destruct r as [e b]. by prun (path_dropped f' w ps path s1 Hsh Hat Hs1).
Qed.

(** A call of the file system leaves the nodes alone. *)
Lemma with_path_fs {B} (found : prog libst (Z * cpath * option Z)) (none : B) call f w ps path s r t :
  s.(lk) = alone f -> shape f -> at_path f w ps None path ->
  found s = Ok ((0, Some path, None), set_lk (alone (locked f (own ps None))) s) ->
  (forall s', s'.(fst) = s.(fst) -> s'.(fsys) = s.(fsys) -> call (Some path) s' = Ok (r, set_fst t s')) ->
  with_path found w.(ino) none call s = Ok (r, set_fst t s).
Proof.
  intros Hs Hsh Hat Hfound Hcall. rewrite (with_path_run found none call f f w ps path s r (set_fst t (set_lk (alone (locked f (own ps None))) s)));
    [| done | by apply Hcall | done | done | done].
  do 2 f_equal. rewrite <- Hs. by destruct s.
Qed.

(** The configuration of a file system that follows its paths. *)
Definition follows_paths (c : fuse_config) : Prop := c.(nullpath_ok) = 0.

Lemma path_of_run f i ps path s : shape f -> at_path f (node_at i) ps None path -> s.(lk) = alone f ->
  FuseLib.path_of i s = Ok ((0, Some path, None), set_lk (alone (locked f (own ps None))) s).
Proof. apply path_found. Qed.

Lemma path_name_run f i name ps path s : shape f -> at_path f (name_in i name) ps None path -> s.(lk) = alone f ->
  path_name i (Some name) s = Ok ((0, Some path, None), set_lk (alone (locked f (own ps None))) s).
Proof. apply path_found. Qed.

Lemma path_nullok_run f i ps path s : follows_paths s.(conf) -> shape f -> at_path f (node_at i) ps None path -> s.(lk) = alone f ->
  path_nullok i s = Ok ((0, Some path, None), set_lk (alone (locked f (own ps None))) s).
Proof.
  intros Hc Hsh Hat Hs. unfold path_nullok. prun (get_conf_run s). unfold follows_paths in Hc. rewrite Hc.
  change (is_set 0) with false. unfold get_path_nullok.
  destruct (path_got f (node_at i) ps None path SELF Hsh Hat) as (m & Hrun & Hread). change (get_path_wait SELF (node_at i) None) with (get_path SELF i) in Hrun.
  fold (alone f) (alone (locked f (own ps None))) in Hrun.
  rewrite <- Hs in Hrun. unfold want_path, await. rewrite !pbind_assoc.
  assert ((r <-- get_path SELF i ;; pret (match r with Returns r => Returns (stale_ok r) | Sleeps => Sleeps end)) s.(lk) =
    Ok (Returns (0, (Some m, None), (None, None)), alone (locked f (own ps None)))) as Hget by (by prun Hrun).
  prun (in_lk_run _ s _ _ Hget).
  assert (path_arg (Some m) = Ok (Some path)) as Harg by (unfold path_arg; by rewrite Hread).
  unfold pbind at 1. unfold pret at 1. cbn [obind]. by prun_lift Harg.
Qed.

Lemma path_fi_run f i fi ps path s : follows_paths s.(conf) -> shape f -> at_path f (node_at i) ps None path -> s.(lk) = alone f ->
  FuseLib.path_fi fi i s = Ok ((0, Some path, None), set_lk (alone (locked f (own ps None))) s).
Proof. intros Hc Hsh Hat Hs. unfold FuseLib.path_fi. destruct (FuseFs.given fi); [by apply path_nullok_run | by apply path_of_run]. Qed.

(** ** The program's handlers *)

(** The state after a handler that leaves the memory alone. *)
Definition ran (w : world net) (t : St) : St := mk_fstate t.(bs) 0 w.

#[local] Abbreviation ready_to_serve s f := (s.(lk) = alone f /\ s.(fsys) = hello_fs /\ follows_paths s.(conf)).

Lemma fs_getattr_run s p st0 fi r st w : s.(fsys) = hello_fs -> hello_getattr p s.(fst).(app) = Ok ((r, st), w) ->
  in_fs (fun fs => fuse_fs_getattr fs (Some p) st0 fi) s = Ok ((r, st, fi), set_fst (ran w s.(fst)) s).
Proof.
  intros Hfs Hrun. apply in_fs_run. rewrite Hfs. unfold fuse_fs_getattr. cbn [hello_fs user_data op hello_oper op_getattr].
  prun (set_private_run s.(fst)). unfold oper_getattr, on_path.
  assert (in_app (hello_getattr p) (HelloOper.entered s.(fst)) = Ok ((r, st), mk_fstate s.(fst).(bs) 0 w)) as Hin
    by (by apply (in_app_run _ (HelloOper.entered s.(fst)))).
  by prun Hin.
Qed.

(** The kernel sees the same tree. *)
Definition same_view (f f' : fuse) : Prop :=
  ready f' /\ (forall m, spare m f -> spare m f') /\ forall j x, sees f' j x <-> sees f j x.

Lemma same_view_refl f : ready f -> same_view f f.
Proof. done. Qed.

Lemma refiled_view f p n fl : ready f -> f.(nodes) !! p = Some n -> same_view f (refiled f p n fl).
Proof. intros Hf Hn. split_and!; [by apply refile_ready | intros m; by apply refile_spare | intros j x; by apply refile_sees]. Qed.

Lemma the_node_run f i p n s : s.(lk) = alone f -> ids_ok f -> numbered f i p -> f.(nodes) !! p = Some n ->
  the_node i s = Ok ((p, n), s).
Proof.
  intros Hs Hids Hp Hn. unfold the_node.
  prun (in_fuse_run _ s f _ _ Hs (get_node_run f i p Hids Hp)). rewrite same_lk by done.
  prun (in_fuse_run _ s f _ _ Hs (load_node_run f p n Hn)). by rewrite same_lk.
Qed.

(** The attributes are remembered when the option asks for it. *)
Lemma remember_stat f p n st (b : bool) s : s.(lk) = alone f -> ready f -> f.(nodes) !! p = Some n -> exists f',
  (if b then in_fuse (update_stat p st) else pret tt) s = Ok (tt, set_lk (alone f') s) /\ same_view f f'.
Proof.
  intros Hs Hf Hn. destruct b.
  - destruct (update_stat_run f p n st (fun _ => 0) Hn) as (fl & Hrun).
    rewrite <- (own_locks f (fun _ => 0)) in Hrun by apply Hf.
    assert (ready (refiled f p n fl)) as Hf' by (by apply refile_ready).
    rewrite <- (own_locks (refiled f p n fl) (fun _ => 0)) in Hrun by apply Hf'.
    exists (refiled f p n fl). split; [by apply (in_fuse_run _ s f) | by apply refiled_view].
  - exists f. split; [|by apply same_view_refl]. unfold pret. by rewrite same_lk.
Qed.

Lemma getattr_served f i fi p s r st w : ready f -> ready_to_serve s f -> sees f i p ->
  hello_getattr p s.(fst).(app) = Ok ((r, st), w) ->
  exists f', same_view f f' /\ fuse_lib_getattr i fi s = Ok (tt, log_reply
    (if r =? 0 then RAttr (set_stat s.(conf) i st) s.(conf).(attr_timeout) else RErr (sent_error r))
    (set_fst (ran w s.(fst)) (set_lk (alone f') s))).
Proof.
  intros Hf (Hs & Hfs & Hc) [Hheld (ps & Hat)] Hrun. pose proof (ready_shape f Hf) as Hsh. pose proof Hat as ((k & _ & _ & Hk & _) & _).
  cbn [node_at ino] in Hk. pose proof Hk as (_ & n & Hn & Hni).
  unfold fuse_lib_getattr. prun (path_fi_run f i fi ps p s Hc Hsh Hat Hs). change (0 =? 0) with true. cbv iota.
  set (s1 := set_lk (alone (locked f (own ps None))) s).
  rewrite !pbind_assoc. prun (fs_getattr_run s1 p stat_zero fi r st w Hfs Hrun). set (s2 := set_fst (ran w s1.(fst)) s1).
  rewrite pbind_assoc. prun (path_dropped f (node_at i) ps p s2 Hsh Hat eq_refl). unfold s2, s1. clear s1 s2.
  unfold pbind at 1. unfold pret at 1. cbn [obind]. set (s3 := set_lk (alone f) _).
  assert (s3 = set_fst (ran w s.(fst)) s) as -> by (unfold s3; rewrite <- Hs; by destruct s). set (s3 := set_fst (ran w s.(fst)) s).
  destruct (r =? 0).
  - prun (get_conf_run s3). prun (the_node_run f i k n s3 Hs (sh_ids _ Hsh) Hk Hn).
    rewrite (rd_shown f Hf k n Hn). change (is_set 0) with false. cbn [andb].
    destruct (remember_stat f k n st (is_set s3.(conf).(auto_cache)) s3 Hs Hf Hn) as (f' & Hup & Hview).
    exists f'. split; [exact Hview|]. prun Hup. by destruct s.
  - exists f. split; [by apply same_view_refl|]. unfold s3. rewrite same_lk by done. by destruct s.
Qed.

(** ** Reading and writing *)

(** Sending a block of memory and freeing it. *)
Lemma block_sent s k n m t : s.(fst) = t -> t.(bs).(heap) !! k = Some m -> 0 <= n <= zlen m ->
  (v <-- plift (lift_fault NullDeref (Some (one_block n k))) ;;
   data <-- gather (zdrop v.(idx) (ztake v.(count) v.(FuseBuf.buf))) v.(FuseBuf.off) ;;
   reply_with (RData data FUSE_BUF_SPLICE_MOVE)) s =
  Ok (tt, log_reply (RData [Mem (ztake n m)] FUSE_BUF_SPLICE_MOVE) s).
Proof.
  intros Hs Hk Hn. prun_lift (eq_refl : lift_fault NullDeref (Some (one_block n k)) = Ok (one_block n k)).
  cbn [one_block idx count FuseBuf.buf FuseBuf.off]. change (zdrop 0 (ztake 1 [mk_buf n 0 (Some (k, 0)) (-1) 0 0])) with [mk_buf n 0 (Some (k, 0)) (-1) 0 0].
  assert (in_fs (fun _ => in_bs (mem_get (Some (k, 0)) n)) s = Ok (ztake n m, s)) as Hget.
  { rewrite (in_fs_run _ s (ztake n m) s.(fst)); [by destruct s|]. rewrite Hs.
    rewrite (region_get t k 0 n m Hk ltac:(lia) ltac:(lia) ltac:(lia)). by rewrite zdrop_0. }
  assert (gather [mk_buf n 0 (Some (k, 0)) (-1) 0 0] 0 s = Ok ([Mem (ztake n m)], s)) as Hga.
  { cbn [gather flags FuseBuf.mem FuseBuf.size]. change (has_flag 0 FUSE_BUF_IS_FD) with false. cbv iota.
    rewrite Z.sub_0_r. change (ptr_add (Some (k, 0)) 0) with (Some (k, 0 + 0)). rewrite Z.add_0_r.
    rewrite pbind_assoc. prun Hget. done. }
  by prun Hga.
Qed.

Lemma block_freed s k n m t : s.(fst) = t -> t.(bs).(heap) !! k = Some m ->
  in_fs (fun _ => fuse_free_buf (Some (one_block n k))) s =
    Ok (tt, set_fst (mk_fstate (mk_bstate (delete k t.(bs).(heap)) t.(bs).(sys)) t.(private_data) t.(app)) s).
Proof.
  intros Hs Hk. apply in_fs_run. rewrite Hs. cbn [fuse_free_buf one_block count FuseBuf.buf].
  change (ztake 1 [mk_buf n 0 (Some (k, 0)) (-1) 0 0]) with [mk_buf n 0 (Some (k, 0)) (-1) 0 0]. cbn [free_bufs flags FuseBuf.mem].
  change (has_flag 0 FUSE_BUF_IS_FD) with false. cbv iota. by prun (free_run t k m Hk).
Qed.

Lemma read_served f i size off fi p s r m w : ready f -> ready_to_serve s f -> sees f i p -> 0 <= size <= INT_MAX ->
  hello_read p (uninit size) size off s.(fst).(app) = Ok ((r, m), w) -> r <= size -> zlen m = size ->
  fuse_lib_read i size off fi s = Ok (tt, log_reply
    (if r <? 0 then RErr (sent_error r) else RData [Mem (ztake r m)] FUSE_BUF_SPLICE_MOVE) (set_fst (ran w s.(fst)) s)).
Proof.
  intros Hf (Hs & Hfs & Hc) [Hheld (ps & Hat)] Hsz Hrun Hr Hm. pose proof (ready_shape f Hf) as Hsh.
  destruct (read_buf_made (D := fill_state) s.(fst) p size off fi r m w Hsz Hrun Hr Hm) as (k & Hk & Hread).
  set (t := mk_fstate _ 0 w) in Hread. set (v := one_block _ k) in Hread. unfold fuse_lib_read.
  set (call := (fun path => let? (res, buf, _) := in_fs (fun fs => fuse_fs_read_buf fs path None size off fi) in pret (res, buf)) : cpath -> prog libst _).
  assert (forall s', s'.(fst) = s.(fst) -> s'.(fsys) = s.(fsys) -> call (Some p) s' = Ok ((Z.min r 0, Some v), set_fst t s')) as Hcall.
  { intros s' Ht Hfs'. unfold call. rewrite <- Ht in Hread. rewrite <- Hfs, <- Hfs' in Hread.
    by prun (in_fs_run (fun fs => fuse_fs_read_buf fs (Some p) None size off fi) s' (Z.min r 0, Some v, fi) t Hread). }
  prun (with_path_fs (path_nullok i) None call f (node_at i) ps p s _ t Hs Hsh Hat (path_nullok_run f i ps p s Hc Hsh Hat Hs) Hcall).
  set (s1 := set_fst t s). assert (t.(bs).(heap) !! k = Some m) as Hkm by apply lookup_insert_eq.
  assert (forall s2, s2.(fst) = t -> in_fs (fun _ => fuse_free_buf (Some v)) s2 = Ok (tt, set_fst (ran w s.(fst)) s2)) as Hfree.
  { intros s2 Hs2. unfold v; rewrite (block_freed s2 k (if r <? 0 then size else r) m t Hs2 Hkm). unfold ran, t. cbn [bs heap sys private_data app].
    rewrite delete_insert_id by done. by destruct s.(fst) as [[h o] d a]. }
  unfold v in *. destruct (Z.ltb_spec r 0) as [Hneg|Hpos].
  - rewrite Z.min_l, (proj2 (Z.eqb_neq r 0)) by lia. prun (reply_run (RErr (sent_error r)) s1).
    rewrite Hfree by done. by destruct s.
  - rewrite Z.min_r by lia. change (0 =? 0) with true. cbv iota.
    prun (block_sent s1 k r m t eq_refl Hkm ltac:(lia)). rewrite Hfree by done. by destruct s.
Qed.

Lemma write_served f i v off fi p s r w : ready f -> ready_to_serve s f -> sees f i p ->
  vec_wf s.(fst).(bs).(heap) v -> v.(idx) = 0 -> v.(FuseBuf.off) = 0 ->
  0 < zlen (flat s.(fst).(bs).(heap) v.(FuseBuf.buf)) <= INT_MAX ->
  hello_write p (flat s.(fst).(bs).(heap) v.(FuseBuf.buf)) (zlen (flat s.(fst).(bs).(heap) v.(FuseBuf.buf))) off s.(fst).(app) = Ok (r, w) ->
  exists t, t.(app) = w /\ t.(bs).(heap) = s.(fst).(bs).(heap) /\ fuse_lib_write_buf i v off fi s = Ok (tt, log_reply
    (if r >=? 0 then RWrite r else RErr (sent_error r)) (set_fst t s)).
Proof.
  intros Hf (Hs & Hfs & Hc) [Hheld (ps & Hat)] Hv Hi Ho Hl Hrun. pose proof (ready_shape f Hf) as Hsh.
  destruct (write_vec_run (D := fill_state) s.(fst) p v off fi r w Hv Hi Ho Hl Hrun) as (v' & t & Hwrite & Happ & Hheap).
  exists t. split_and!; [done | done |]. unfold fuse_lib_write_buf.
  set (call := (fun path => let? (res, _, _) := in_fs (fun fs => fuse_fs_write_buf fs path v off fi) in pret (res, tt)) : cpath -> prog libst _).
  assert (forall s', s'.(fst) = s.(fst) -> s'.(fsys) = s.(fsys) -> call (Some p) s' = Ok ((r, tt), set_fst t s')) as Hcall.
  { intros s' Ht Hfs'. unfold call. rewrite <- Ht in Hwrite. rewrite <- Hfs, <- Hfs' in Hwrite.
    by prun (in_fs_run (fun fs => fuse_fs_write_buf fs (Some p) v off fi) s' (r, v', fi) t Hwrite). }
  prun (with_path_fs (path_nullok i) tt call f (node_at i) ps p s _ t Hs Hsh Hat (path_nullok_run f i ps p s Hc Hsh Hat Hs) Hcall).
  by destruct (r >=? 0).
Qed.

(** ** Names *)

(** The kernel takes the next answer. *)
Definition taken s : Prop := default 0 (head s.(answers)) <> - ENOENT.

Lemma reply_entry_run e s : taken s -> reply_entry e 0 s = Ok (tt, log_reply (REntry e) s).
Proof.
  intros Hs. unfold reply_entry. change (0 =? 0) with true. cbv iota. prun (send_run (REntry e) s).
  rewrite (proj2 (Z.eqb_neq _ _)) by done. done.
Qed.

Lemma reply_no_entry e err s : err <> 0 -> reply_entry e err s = Ok (tt, log_reply (RErr (sent_error err)) s).
Proof. intros He. unfold reply_entry. by rewrite (proj2 (Z.eqb_neq _ _)). Qed.

Section name.
Context (f : fuse) (dir : Z) (d name : list byte) (ps : list (Z * list byte)) (m : Z).
Context (Hf : ready f) (Hat : at_path f (node_at dir) ps None d) (Hname : name_ok name)
  (Hlen : zlen (child d name) + 1 <= 2 ^ 31) (Hroom : spare m f) (Hm : 1 <= m).
Let q := child d name.

Lemma name_at : at_path f (name_in dir name) ps None q.
Proof. apply child_at; [done | done | by destruct Hname as (_ & _ & ?) | done]. Qed.

Lemma lookup_path_run fi s r st w : s.(lk) = alone (locked f (own ps None)) -> s.(fsys) = hello_fs ->
  hello_getattr q s.(fst).(app) = Ok ((r, st), w) ->
  (r = 0 -> exists i g f', entered f f' dir name q m i /\ lookup_path dir (Some name) (Some q) fi s =
     Ok ((0, entry_of s.(conf) i g st, fi), set_lk (alone (locked f' (own ps None))) (set_fst (ran w s.(fst)) s))) /\
  (r <> 0 -> lookup_path dir (Some name) (Some q) fi s = Ok ((r, with_e_attr entry_zero st, fi), set_fst (ran w s.(fst)) s)).
Proof.
  intros Hs Hfs Hrun. set (s1 := set_fst (ran w s.(fst)) s). split; intros Hr.
  - subst r. destruct (do_lookup_run s.(conf) f dir d name m (with_e_attr entry_zero st) ps Hf Hat Hname Hlen Hroom Hm) as
      (i & g & f' & Hdo & Hen).
    exists i, g, f'. split; [exact Hen|]. unfold lookup_path. prun (fs_getattr_run s q stat_zero fi 0 st w Hfs Hrun).
    change (0 =? 0) with true. cbv iota. prun (get_conf_run s1). by prun (in_fuse_run _ s1 _ _ _ Hs Hdo).
  - unfold lookup_path. prun (fs_getattr_run s q stat_zero fi r st w Hfs Hrun). by rewrite (proj2 (Z.eqb_neq r 0)).
Qed.

(** The reply to a request that ends with a lookup. *)
Definition entry_reply (c : fuse_config) (i g r : Z) (st : stat) : reply :=
  if r =? 0 then REntry (entry_of c i g st) else RErr (sent_error r).

(** After the call: the tree with the name looked up, or as it was. *)
Definition named_after (r : Z) (i : Z) (f' : fuse) : Prop := if r =? 0 then entered f f' dir name q m i else f' = f.

Lemma lookup_served s r st w : ready_to_serve s f -> taken s -> Qeq_bool s.(conf).(negative_timeout) 0%Q = true ->
  name <> lit "." -> name <> lit ".." -> hello_getattr q s.(fst).(app) = Ok ((r, st), w) ->
  exists i g f', named_after r i f' /\ fuse_lib_lookup dir name s =
    Ok (tt, log_reply (entry_reply s.(conf) i g r st) (set_fst (ran w s.(fst)) (set_lk (alone f') s))).
Proof.
  intros (Hs & Hfs & Hc) Ht Hneg Hd1 Hd2 Hrun. pose proof name_at as Hat'. pose proof (ready_shape f Hf) as Hsh.
  unfold fuse_lib_lookup, lookup_dots. rewrite !bool_decide_eq_false_2 by done. unfold pbind at 1. unfold pret at 1. cbn [obind].
  prun (path_name_run f dir name ps q s Hsh Hat' Hs). change (0 =? 0) with true. cbv iota.
  set (s1 := set_lk (alone (locked f (own ps None))) s). rewrite !pbind_assoc.
  destruct (lookup_path_run None s1 r st w eq_refl Hfs Hrun) as [Hyes Hno]. unfold named_after, entry_reply.
  destruct (Z.eqb_spec r 0) as [->|Hr].
  - destruct (Hyes eq_refl) as (i & g & f' & Hen & Hlook). exists i, g, f'. split; [exact Hen|]. prun Hlook.
    set (s2 := set_lk _ _). rewrite pbind_assoc. prun (get_conf_run s2). change (0 =? - ENOENT) with false. cbn [andb].
    rewrite pbind_assoc. prun (path_dropped f' (name_in dir name) ps q s2 (ready_shape _ (en_ready _ _ _ _ _ _ _ Hen)) (en_at _ _ _ _ _ _ _ Hen ps Hat') eq_refl).
    unfold pbind at 1. unfold pret at 1. cbn [obind]. unfold pbind at 1. unfold pret at 1. cbn [obind].
    rewrite reply_entry_run by done. by destruct s.
  - specialize (Hno Hr). exists 0, 0, f. split; [done|]. prun Hno. set (s2 := set_fst _ s1). rewrite pbind_assoc. prun (get_conf_run s2).
    unfold s2, s1. cbn [conf set_fst set_lk]. rewrite Hneg, andb_false_r. fold s1 s2.
    rewrite pbind_assoc. prun (path_dropped f (name_in dir name) ps q s2 Hsh Hat' eq_refl).
    unfold pbind at 1. unfold pret at 1. cbn [obind]. unfold pbind at 1. unfold pret at 1. cbn [obind].
    rewrite reply_no_entry by done. by destruct s.
Qed.

(** A call that makes the name; it must be there afterwards. *)
Lemma make_served (call : cpath -> Fs -> prog St Z) s w0 g0 st w : ready_to_serve s f -> taken s ->
  call (Some q) hello_fs s.(fst) = Ok (0, mk_fstate g0 0 w0) -> hello_getattr q w0 = Ok ((0, st), w) ->
  exists i g f', entered f f' dir name q m i /\ make_name dir name call s =
    Ok (tt, log_reply (REntry (entry_of s.(conf) i g st)) (set_fst (mk_fstate g0 0 w) (set_lk (alone f') s))).
Proof.
  intros (Hs & Hfs & Hc) Ht Hcall Hrun. pose proof name_at as Hat'. pose proof (ready_shape f Hf) as Hsh. unfold make_name.
  set (s1 := set_lk (alone (locked f (own ps None))) s). set (s2 := set_fst (mk_fstate g0 0 w0) s1).
  assert (in_fs (call (Some q)) s1 = Ok (0, s2)) as Hin by (apply in_fs_run; change (s1.(fsys)) with s.(fsys); rewrite Hfs; exact Hcall).
  destruct (lookup_path_run None s2 0 st w eq_refl Hfs Hrun) as [Hyes _].
  destruct (Hyes eq_refl) as (i & g & f' & Hen & Hlook). exists i, g, f'. split; [exact Hen|].
  set (act := fun path : cpath => err <-- in_fs (call path) ;; _).
  assert (act (Some q) s1 = Ok ((0, entry_of s.(conf) i g st), set_lk (alone (locked f' (own ps None))) (set_fst (mk_fstate g0 0 w) s2))) as Hact.
  { unfold act. prun Hin. change (0 =? 0) with true. cbv iota. by prun Hlook. }
  prun (with_path_run (path_name dir (Some name)) entry_zero act f f' (name_in dir name) ps q s _ _
    (path_name_run f dir name ps q s Hsh Hat' Hs) Hact eq_refl (ready_shape _ (en_ready _ _ _ _ _ _ _ Hen)) (en_at _ _ _ _ _ _ _ Hen ps Hat')).
  rewrite reply_entry_run by done. by destruct s.
Qed.

Lemma mkdir_served s mode w0 st w : ready_to_serve s f -> taken s ->
  hello_mkdir q s.(fst).(app) = Ok (0, w0) -> hello_getattr q w0 = Ok ((0, st), w) ->
  exists i g f', entered f f' dir name q m i /\ fuse_lib_mkdir dir name mode s =
    Ok (tt, log_reply (REntry (entry_of s.(conf) i g st)) (set_fst (ran w s.(fst)) (set_lk (alone f') s))).
Proof.
  intros Hs Ht Hmk Hrun. apply (make_served _ s w0 s.(fst).(bs)); [exact Hs | exact Ht | | exact Hrun].
  unfold fuse_fs_mkdir. cbn [hello_fs user_data op hello_oper op_mkdir]. prun (set_private_run s.(fst)). unfold on_path.
  by apply (in_app_run _ (HelloOper.entered s.(fst))).
Qed.

(** Opening the node of the number while the way to its name is locked. *)
Lemma open_locked f' i s : entered f f' dir name q m i -> s.(lk) = alone (locked f' (own ps None)) -> exists f2,
  open_node i s = Ok (tt, set_lk (alone (locked f2 (own ps None))) s) /\ entered f f2 dir name q m i.
Proof.
  intros Hen Hs. pose proof (en_held _ _ _ _ _ _ _ Hen) as [(k & n & Hk & Hn & _) _]. set (L := own ps None) in *.
  set (fl := with_open_count n.(file) (n.(file).(open_count) + 1)). exists (refiled f' k n fl). split; [|by apply entered_refiled].
  unfold open_node, change_file.
  pose proof (locked_ids f' (tr_ids _ _ (good_tree f' (rd_good f' (en_ready _ _ _ _ _ _ _ Hen)))) L) as Hids.
  prun (the_node_run (locked f' L) i k _ s Hs Hids (proj2 (locked_numbered f' L i k) Hk) (locked_node f' L k n Hn)).
  exact (in_fuse_run _ s _ _ _ Hs (refile_store f' k n fl Hn L)).
Qed.

Lemma set_stat_type c i st : S_ISREG (set_stat c i st).(st_mode) = S_ISREG st.(st_mode).
Proof.
  unfold S_ISREG. f_equal. unfold set_stat.
  assert (forall a x, Z.land (Z.lor (Z.land a S_IFMT) (Z.land MODE_0777 x)) S_IFMT = Z.land a S_IFMT) as Hmask.
  { intros a x. rewrite Z.land_lor_distr_l, <- Z.land_assoc, Z.land_diag, (Z.land_comm MODE_0777), <- Z.land_assoc.
    change (Z.land MODE_0777 S_IFMT) with 0. by rewrite Z.land_0_r, Z.lor_0_r. }
  destruct (is_set c.(use_ino)), (is_set c.(set_mode)), (is_set c.(set_uid)), (is_set c.(set_gid));
    cbn [st_mode with_st_uid with_st_gid with_st_ino]; try done.
  all: destruct (is_set c.(dmask) && _); [apply Hmask|].
  all: destruct (is_set c.(fmask)); apply Hmask.
Qed.

Lemma create_served s mode fi w0 st w : ready_to_serve s f -> taken s ->
  hello_create q s.(fst).(app) = Ok (0, w0) -> hello_getattr q w0 = Ok ((0, st), w) -> S_ISREG st.(st_mode) = true ->
  exists i g f', entered f f' dir name q m i /\ fuse_lib_create dir name mode fi s =
    Ok (tt, log_reply (RCreate (entry_of s.(conf) i g st) (parallel_flag s.(conf) (cache_flags s.(conf) fi)))
              (set_fst (ran w s.(fst)) (set_lk (alone f') s))).
Proof.
  intros (Hs & Hfs & Hc) Ht Hcr Hrun Hreg. pose proof name_at as Hat'. pose proof (ready_shape f Hf) as Hsh. unfold fuse_lib_create.
  prun (path_name_run f dir name ps q s Hsh Hat' Hs). change (0 =? 0) with true. cbv iota.
  set (s1 := set_lk (alone (locked f (own ps None))) s). set (s2 := set_fst (ran w0 s.(fst)) s1).
  assert (in_fs (fun fs => fuse_fs_create fs (Some q) mode (Some fi)) s1 = Ok ((0, Some fi), s2)) as Hin.
  { apply in_fs_run. change (s1.(fsys)) with s.(fsys). rewrite Hfs. unfold fuse_fs_create. cbn [hello_fs user_data op hello_oper op_create].
    prun (set_private_run s1.(fst)). unfold oper_create, on_path.
    assert (in_app (hello_create q) (HelloOper.entered s1.(fst)) = Ok (0, ran w0 s.(fst))) as Hi
      by (by apply (in_app_run _ (HelloOper.entered s1.(fst)))).
    by prun Hi. }
  destruct (lookup_path_run (Some fi) s2 0 st w eq_refl Hfs Hrun) as [Hyes _].
  destruct (Hyes eq_refl) as (i & g & f1 & Hen & Hlook). rewrite !pbind_assoc. prun Hin. change (0 =? 0) with true. cbv iota.
  rewrite !pbind_assoc. prun Hlook. cbn [entry_of e_attr]. rewrite set_stat_type, Hreg. change (negb (0 =? 0)) with false. cbn [negb].
  set (s3 := set_lk (alone (locked f1 (own ps None))) _). rewrite pbind_assoc. prun (get_conf_run s3). rewrite pbind_assoc.
  set (fi' := parallel_flag _ _). unfold the_fi at 1. prun_lift (eq_refl : lift_fault NullDeref (Some fi) = Ok fi).
  unfold pbind at 1. unfold pret at 1. cbn [obind]. change (0 =? 0) with true. cbv iota.
  destruct (open_locked f1 i s3 Hen eq_refl) as (f2 & Hopen & Hen2). exists i, g, f2. split; [exact Hen2|].
  cbn [e_ino]. rewrite !pbind_assoc. prun Hopen. rewrite pbind_assoc. unfold the_fi at 1.
  prun_lift (eq_refl : lift_fault NullDeref (Some fi') = Ok fi'). set (s4 := set_lk _ s3).
  rewrite pbind_assoc. prun (send_run (RCreate (entry_of s.(conf) i g st) fi') s4).
  assert ((default 0 (head s4.(answers)) =? - ENOENT) = false) as -> by (by apply Z.eqb_neq).
  unfold pbind at 1. unfold pret at 1. cbn [obind]. set (s5 := log_reply _ s4).
  pose proof (path_dropped f2 (name_in dir name) ps q s5 (ready_shape _ (en_ready _ _ _ _ _ _ _ Hen2)) (en_at _ _ _ _ _ _ _ Hen2 ps Hat') eq_refl) as Hdrop.
  cbn [name_in ino] in Hdrop. rewrite Hdrop.
  by destruct s.
Qed.

End name.

End serve.
End FuseServe.
