(* ===== verification/KernelFs.v ===== *)
(** The file system as the kernel sees it through libfuse: an abstract state of
    contents by path (MemFs) and numbers of nodes with their paths, what each request
    may be answered and what it does to both, and the simulation: libfuse with the
    program behind it does exactly that. *)
From S2P Require Import Prelude.
From S2P Require Import CLib.
From S2P Require Import TgApi.
From S2P Require Import Telegram.
From S2P Require Import FuseTypes.
From S2P Require Import Hello.
From S2P Require Import FuseBuf.
From S2P Require Import FuseBufFacts.
From S2P Require Import FuseFs.
From S2P Require Import HelloOper.
From S2P Require Import MemFs.
From S2P Require Import Refine.
From S2P Require Import FuseNodes.
From S2P Require Import FuseNodesFacts.
From S2P Require Import FusePaths.
From S2P Require Import FusePathsFacts.
From S2P Require Import FuseQueue.
From S2P Require Import FuseTree.
From S2P Require Import FuseQueueFacts.
From S2P Require Import TreeProps.
From S2P Require Import FuseDirents.
From S2P Require Import FuseLib.
From S2P Require Import FuseLibFacts.
From S2P Require Import FuseServe.
From Stdlib Require Import QArith.
#[global] Close Scope Q_scope.
#[global] Open Scope Z_scope.
#[global] Open Scope c_scope.
#[global] Open Scope prog_scope.

Module KernelFs.
Import TgApi Telegram FuseTypes Hello FuseBuf FuseBufFacts FuseFs HelloOper MemFs Refine FuseNodes FuseNodesFacts FusePaths FusePathsFacts FuseQueue FuseTree
  FuseQueueFacts TreeProps FuseDirents
  FuseLib FuseLibFacts FuseServe.

(** ** Requests *)

Inductive krequest :=
  | KLookup (dir : Z) (name : list byte)
  | KGetattr (ino : Z) (fi : fip)
  | KMkdir (dir : Z) (name : list byte) (mode : Z)
  | KCreate (dir : Z) (name : list byte) (mode : Z) (fi : fuse_file_info)
  | KRead (ino size off : Z) (fi : fip)
  | KWrite (ino : Z) (v : fuse_bufvec) (off : Z) (fi : fip).

(** What a request needs: a lookup of a node, an upload to the server. *)
Definition klookups (r : krequest) : Z :=
  match r with KLookup _ _ | KMkdir _ _ _ | KCreate _ _ _ _ => 1 | _ => 0 end.
Definition kuploads (r : krequest) : Z := match r with KWrite _ _ _ _ => 1 | _ => 0 end.

(** ** The abstract state *)

(** The contents by path, and the paths of the numbers the kernel holds. *)
Record kstate := mk_kstate { files : amap; numbers : gmap Z (list byte) }.

(** Number [i] is given out for the path [q], which has no other. *)
Definition gives_number (K : gmap Z (list byte)) (i : Z) (q : list byte) : Prop :=
  (forall p, K !! i = Some p -> p = q) /\ forall j, K !! j = Some q -> j = i.

(** The memory the kernel writes from does not change. *)
Section spec.
Context (c : fuse_config) (h : gmap Z (list cell)).

Definition attr_reply (i : Z) (a : Z * stat) : FuseLib.reply :=
  if a.1 =? 0 then RAttr (set_stat c i a.2) c.(attr_timeout) else RErr a.1.

(** A reply that gives the number of the path [q]: known, it has the attributes
    of the path. *)
Definition k_entry (k : kstate) (q : list byte) (answer : fuse_entry_param -> FuseLib.reply) (r : FuseLib.reply) (k' : kstate) : Prop :=
  exists i g, gives_number k.(numbers) i q /\ k'.(numbers) = <[i := q]> k.(numbers) /\
    r = answer (entry_of c i g (a_getattr k'.(files) q).2).

Definition k_step (k : kstate) (req : krequest) (r : FuseLib.reply) (k' : kstate) : Prop :=
  match req with
  | KLookup dir name => exists d, k.(numbers) !! dir = Some d /\ k'.(files) = k.(files) /\
      let q := child d name in
      if (a_getattr k.(files) q).1 =? 0 then k_entry k q REntry r k'
      else r = RErr (- ENOENT) /\ k' = k
  | KGetattr i fi => exists p, k.(numbers) !! i = Some p /\ k' = k /\ r = attr_reply i (a_getattr k.(files) p)
  | KMkdir dir name mode => exists d, k.(numbers) !! dir = Some d /\
      let q := child d name in k'.(files) = <[q := ADir]> k.(files) /\ k_entry k q REntry r k'
  | KCreate dir name mode fi => exists d, k.(numbers) !! dir = Some d /\
      let q := child d name in k'.(files) = <[q := AFile []]> k.(files) /\
      k_entry k q (fun e => RCreate e (parallel_flag c (cache_flags c fi))) r k'
  | KRead i size off fi => exists p, k.(numbers) !! i = Some p /\ k' = k /\
      let '(ret, d) := a_read k.(files) p size off in
      r = if ret <? 0 then RErr ret else FuseLib.RData [Mem (cells d)] FUSE_BUF_SPLICE_MOVE
  | KWrite i v off fi => exists p d, k.(numbers) !! i = Some p /\ flat h v.(FuseBuf.buf) = cells d /\
      k'.(numbers) = k.(numbers) /\
      match k.(files) !! p with
      | Some (AFile b) => r = RWrite (zlen d) /\ k'.(files) = <[p := AFile (overwrite b off d)]> k.(files)
      | _ => r = RErr (- ENOENT) /\ k'.(files) = k.(files)
      end
  end.

(** A name of a directory the kernel holds. *)
Definition names_path (k : kstate) (dir : Z) (name q : list byte) : Prop :=
  exists d, k.(numbers) !! dir = Some d /\ q = child d name /\ name_ok name /\ zlen q + 1 <= 2 ^ 31.

(** The kernel's side of the contract. *)
Definition k_admissible (k : kstate) (req : krequest) : Prop :=
  match req with
  | KLookup dir name => (exists q, names_path k dir name q) /\ name <> lit "." /\ name <> lit ".."
  | KGetattr i fi => exists p, k.(numbers) !! i = Some p
  | KMkdir dir name mode => exists q, names_path k dir name q /\ admissible k.(files) (CMkdir q)
  | KCreate dir name mode fi => exists q, names_path k dir name q /\ admissible k.(files) (CCreate q)
  | KRead i size off fi => exists p, k.(numbers) !! i = Some p /\ admissible k.(files) (CRead p size off)
  | KWrite i v off fi => exists p d, k.(numbers) !! i = Some p /\ vec_wf h v /\ v.(idx) = 0 /\ v.(FuseBuf.off) = 0 /\
      flat h v.(FuseBuf.buf) = cells d /\ admissible k.(files) (CWrite p d off)
  end.

(** A kernel chooses the next request by what it has been answered. *)
#[local] Abbreviation history := (list (krequest * FuseLib.reply)).
#[local] Abbreviation chooser := (history -> krequest).

(** What [m] requests may be answered, one after the other, and where they lead. *)
Fixpoint k_session (m : nat) (kernel : chooser) (hist : history) (k : kstate) (hist' : history) (k' : kstate) : Prop :=
  match m with
  | O => hist' = hist /\ k' = k
  | S m => exists r k1, k_step k (kernel hist) r k1 /\ k_session m kernel (hist ++ [(kernel hist, r)]) k1 hist' k'
  end.

(** The kernel keeps its side of the contract for [m] requests, within [q] uploads
    and [n] lookups, whatever it is answered. *)
Fixpoint k_fair (m : nat) (q n : Z) (kernel : chooser) (hist : history) (k : kstate) : Prop :=
  match m with
  | O => True
  | S m => let req := kernel hist in
      kuploads req <= q /\ klookups req <= n /\ k_admissible k req /\
      forall r k1, k_step k req r k1 -> k_fair m (q - kuploads req) (n - klookups req) kernel (hist ++ [(req, r)]) k1
  end.

End spec.

(** ** The simulation *)

Section sim.
Context {os net : Type} `{Syscalls os} `{CurlEnv net} {tok chat : list byte} `{!Telegram net tok chat}.
#[local] Abbreviation libst := (lib (os := os) (A := world net)).
Implicit Types (s : libst) (w : world net) (f : fuse) (k : kstate).

Definition serve (r : krequest) : prog libst unit :=
  match r with
  | KLookup dir name => fuse_lib_lookup dir name
  | KGetattr i fi => fuse_lib_getattr i fi
  | KMkdir dir name mode => fuse_lib_mkdir dir name mode
  | KCreate dir name mode fi => fuse_lib_create dir name mode fi
  | KRead i size off fi => fuse_lib_read i size off fi
  | KWrite i v off fi => fuse_lib_write_buf i v off fi
  end.

(** [m] requests, one after the other, each chosen by the replies to those before. *)
Fixpoint session (m : nat) (kernel : list (krequest * FuseLib.reply) -> krequest) (hist : list (krequest * FuseLib.reply))
    : prog libst (list (krequest * FuseLib.reply)) :=
  match m with
  | O => pret hist
  | S m => serve (kernel hist) ;;; s <-- pget ;; session m kernel (hist ++ [(kernel hist, default RNone (head s.(replies)))])
  end.

(** Numbers and their paths are those of the tree. *)
Definition numbering (f : fuse) (K : gmap Z (list byte)) : Prop := forall i p, K !! i = Some p <-> sees f i p.

(** The library between two requests, with [q] uploads and [n] lookups to come: no
    request waits, no reply fails. *)
Record serving (c : fuse_config) (h : gmap Z (list cell)) (q n : Z) (s : libst) (k : kstate) : Prop := mk_serving {
  sv_tree : exists f, ready f /\ spare n f /\ s.(lk) = alone f /\ numbering f k.(numbers);
  sv_fs : s.(fsys) = hello_fs;
  sv_conf : s.(conf) = c;
  sv_paths : follows_paths c;
  sv_answers : Forall (fun a => a <> - ENOENT) s.(answers);
  sv_files : R (tok := tok) (chat := chat) q s.(fst).(app) k.(files);
  sv_heap : s.(fst).(bs).(heap) = h
}.

(** *** From the calls of the program *)

Lemma exec_getattr p w r w' : exec (CGetattr p) w = Ok (r, w') -> exists e st, hello_getattr p w = Ok ((e, st), w') /\ r = RStat e st.
Proof.
  unfold exec, pbind. destruct (hello_getattr p w) as [[[e st] w1]|]; [|done]. cbn. intros [= <- <-]. by exists e, st.
Qed.

Lemma exec_mkdir p w r w' : exec (CMkdir p) w = Ok (r, w') -> exists e, hello_mkdir p w = Ok (e, w') /\ r = RInt e.
Proof. unfold exec, pbind. destruct (hello_mkdir p w) as [[e w1]|]; [|done]. cbn. intros [= <- <-]. by exists e. Qed.

Lemma exec_create p w r w' : exec (CCreate p) w = Ok (r, w') -> exists e, hello_create p w = Ok (e, w') /\ r = RInt e.
Proof. unfold exec, pbind. destruct (hello_create p w) as [[e w1]|]; [|done]. cbn. intros [= <- <-]. by exists e. Qed.

Lemma exec_write p d off w r w' : exec (CWrite p d off) w = Ok (r, w') ->
  exists e, hello_write p (cells d) (zlen d) off w = Ok (e, w') /\ r = RInt e.
Proof. unfold exec, pbind. destruct (hello_write _ _ _ _ w) as [[e w1]|]; [|done]. cbn. intros [= <- <-]. by exists e. Qed.

Lemma exec_read p size off w r w' : exec (CRead p size off) w = Ok (r, w') ->
  exists e m d, hello_read p (uninit size) size off w = Ok ((e, m), w') /\ init_bytes (ztake e m) = Some d /\ r = MemFs.RData e d.
Proof.
  unfold exec, pbind. destruct (hello_read _ _ _ _ w) as [[[e m] w1]|]; [|done]. cbn.
  destruct (init_bytes (ztake e m)) as [d|] eqn:Hd; [|done]. cbn. intros [= <- <-]. by exists e, m, d.
Qed.

Lemma init_bytes_Some m d : init_bytes m = Some d -> m = cells d.
Proof.
  revert d. induction m as [|[b|] m IH]; intros d; cbn; [by intros [= <-] | | done].
  unfold init_bytes in *. cbn. destruct (mapM _ m) as [d'|] eqn:Hm; [|done]. cbn. intros [= <-]. by rewrite (IH d').
Qed.

(** Reading leaves the size of the memory. *)
Lemma read_length p buf size off w r m w' : hello_read p buf size off w = Ok ((r, m), w') -> zlen m = zlen buf.
Proof.
  unfold hello_read. intros (i & w1 & _ & Hrun)%pbind_Ok_inv. destruct i as [i|]; [|by injection Hrun as _ <- _].
  apply pbind_Ok_inv in Hrun as (file & w2 & _ & (len & w3 & _ & Hrun)%pbind_Ok_inv).
  destruct (len =? 0); [by injection Hrun as _ <- _|].
  apply pbind_Ok_inv in Hrun as (w4 & w5 & _ & (src & w6 & _ & Hrun)%pbind_Ok_inv).
  destruct (_ =? 0); [by injection Hrun as _ <- _|]. destruct (off <? _); [|by injection Hrun as _ <- _].
  apply pbind_Ok_inv in Hrun as (xs & w7 & _ & (buf' & w8 & Hw & Hrun)%pbind_Ok_inv). injection Hrun as _ <- _.
  unfold plift in Hw. destruct (mem_write buf 0 xs) as [b|] eqn:Hb; [|done]. cbn in Hw. injection Hw as -> _.
  apply mem_write_Ok in Hb as (Ho & Hl & ->). apply zlen_splice; lia.
Qed.

(** *** The requests *)

(** A number for a path in the abstract state, when the tree has given it out. *)
Lemma entered_numbers f f' dir name q m i K : numbering f K -> FuseLibFacts.entered f f' dir name q m i ->
  gives_number K i q /\ numbering f' (<[i := q]> K).
Proof.
  intros HK [Hr _ Hsees Hheld _ _]. pose proof (ready_shape f' Hr) as Hsh. split; [split|].
  - intros p Hp%HK. apply (sees_fun f' i p q (sh_ids _ Hsh)); [apply Hsees; by left | done].
  - intros j Hj%HK. apply (sees_one f' j i q Hr); [apply Hsees; by left | done].
  - intros j p. rewrite lookup_insert_Some, Hsees, (HK j p). split.
    + intros [[<- <-]|[_ ?]]; auto.
    + intros [Hp|[-> ->]]; [|by left]. destruct (decide (i = j)) as [->|Hne]; [|by right]. left. split; [done|].
      apply (sees_fun f' j q p (sh_ids _ Hsh)); [done | apply Hsees; by left].
Qed.

Section step.
Context (c : fuse_config) (h : gmap Z (list cell)) (Hneg : Qeq_bool c.(negative_timeout) 0%Q = true).

(** The state after a request. *)
Definition finished (r : FuseLib.reply) (t : fstate os (world net)) (f' : fuse) s : libst := log_reply r (set_fst t (set_lk (alone f') s)).

Lemma still_serving q n q' n' s k r t f' k' : serving c h q n s k -> ready f' -> spare n' f' -> numbering f' k'.(numbers) ->
  R (tok := tok) (chat := chat) q' t.(app) k'.(files) -> t.(bs).(heap) = h -> serving c h q' n' (finished r t f' s) k'.
Proof.
  intros [_ Hfs Hc Hp Ha _ _] Hf' Hsp HK HR Hh. split; try done.
  - by exists f'.
  - cbn. destruct s.(answers); [done | by apply Forall_cons in Ha as [_ Ha]].
Qed.

Lemma serving_taken q n s k : serving c h q n s k -> taken s.
Proof.
  intros [_ _ _ _ Ha _ _]. unfold taken. destruct s.(answers) as [|a l]; [done|]. by apply Forall_cons in Ha as [Ha _].
Qed.

(** A request that leaves the numbers alone. *)
Definition served (req : krequest) (q n : Z) s k : Prop := exists r t f' k',
  serve req s = Ok (tt, finished r t f' s) /\ k_step c h k req r k' /\ serving c h q n (finished r t f' s) k'.

(** What the attributes of a path are. *)
Lemma getattr_run q w m p : R (tok := tok) (chat := chat) q w m -> 0 <= q -> (NUL ∉ p) -> exists w',
  hello_getattr p w = Ok (a_getattr m p, w') /\ R (tok := tok) (chat := chat) q w' m.
Proof.
  intros HR Hq Hp. destruct (sim_step w m (CGetattr p) q ltac:(by rewrite Z.add_0_r) Hq Hp) as (r & w' & m' & Hrun & [-> ->] & HR').
  destruct (exec_getattr _ _ _ _ Hrun) as (e & st & Hget & [= <- <-]). exists w'. by rewrite <- surjective_pairing in Hget.
Qed.

Lemma a_getattr_ret m p : (a_getattr m p).1 = 0 \/ (a_getattr m p).1 = - ENOENT.
Proof. unfold a_getattr. destruct (decide _); [by left|]. destruct (m !! p); [by left | by right]. Qed.

Lemma sees_text f i p : sees f i p -> NUL ∉ p.
Proof.
  intros [_ (ps & _ & _ & _ & Hn & ->)]. change (NUL ∉ path_text ps []) in Hn.
  change (NUL ∉ shown (path_text ps [])). destruct (path_text ps []); [|done]. cbn. no_NUL.
Qed.

Lemma getattr_step q n s k i fi : serving c h q n s k -> 0 <= q -> k_admissible h k (KGetattr i fi) -> served (KGetattr i fi) q n s k.
Proof.
  intros Hsv Hq (p & Hp). pose proof Hsv as [(f & Hf & Hsp & Hs & HK) Hfs Hc Hfol Ha HR Hh]. rewrite <- Hc in Hfol. pose proof (proj1 (HK i p) Hp) as Hsees.
  destruct (getattr_run q s.(fst).(app) k.(files) p HR Hq (sees_text f i p Hsees)) as (w' & Hget & HR').
  rewrite (surjective_pairing (a_getattr k.(files) p)) in Hget.
  destruct (getattr_served f i fi p s _ _ w' Hf (conj Hs (conj Hfs Hfol)) Hsees Hget) as (f' & (Hf' & Hsp' & Hv) & Hrun).
  eexists _, _, f', k. split; [exact Hrun|]. split.
  - exists p. split_and!; [done | done |]. rewrite Hc. unfold attr_reply. destruct (a_getattr_ret k.(files) p) as [->| ->]; done.
  - apply (still_serving q n _ _ _ k); try done; [by apply Hsp' |]. intros j x. rewrite Hv. apply HK.
Qed.

Lemma read_step q n s k i size off fi : serving c h q n s k -> 0 <= q -> k_admissible h k (KRead i size off fi) ->
  served (KRead i size off fi) q n s k.
Proof.
  intros Hsv Hq (p & Hp & Hadm). pose proof Hsv as [(f & Hf & Hsp & Hs & HK) Hfs Hc Hfol Ha HR Hh]. rewrite <- Hc in Hfol.
  destruct (sim_step s.(fst).(app) k.(files) (CRead p size off) q ltac:(by rewrite Z.add_0_r) Hq Hadm) as (r & w' & m' & Hrun & [Hr ->] & HR').
  destruct (exec_read _ _ _ _ _ _ Hrun) as (e & m & d & Hread & Hd & ->). injection Hr as He Hd'.
  destruct Hadm as (Hnul & Hsz & Hoff). pose proof (read_length _ _ _ _ _ _ _ _ Hread) as Hm. rewrite zlen_uninit in Hm by lia.
  assert (e <= size) as Hle.
  { rewrite He. unfold a_read. destruct (k.(files) !! p) as [[|b]|]; cbn [Datatypes.fst]; [lia | | unfold ENOENT; lia].
    pose proof (length_take_le (zdrop off b) (Z.to_nat size)). unfold ztake. rewrite length_take. lia. }
  pose proof (read_served f i size off fi p s e m w' Hf (conj Hs (conj Hfs Hfol)) (proj1 (HK i p) Hp) Hsz Hread Hle Hm) as Hserve.
  eexists _, _, f, k. split; [|split].
  - cbn [serve]. rewrite Hserve. unfold finished. rewrite <- Hs, same_lk by done. reflexivity.
  - exists p. split_and!; [done | done |]. rewrite (surjective_pairing (a_read k.(files) p size off)), <- He, <- Hd'.
    destruct (e <? 0) eqn:Hneg0.
    + assert (e = - ENOENT) as ->; [|done]. rewrite He in *. unfold a_read in *. destruct (k.(files) !! p) as [[|b]|]; [done | | done].
      cbn [Datatypes.fst] in Hneg0. apply Z.ltb_lt in Hneg0. lia.
    + by rewrite (init_bytes_Some _ _ Hd).
  - by apply (still_serving q n _ _ _ k).
Qed.

Lemma write_step q n s k i v off fi : serving c h (q + 1) n s k -> 0 <= q -> k_admissible h k (KWrite i v off fi) ->
  served (KWrite i v off fi) q n s k.
Proof.
  intros Hsv Hq (p & d & Hp & Hv & Hi & Ho & Hd & Hadm). pose proof Hsv as [(f & Hf & Hsp & Hs & HK) Hfs Hc Hfol Ha HR Hh].
  rewrite <- Hc in Hfol. destruct (sim_step s.(fst).(app) k.(files) (CWrite p d off) q HR Hq Hadm) as (r & w' & m' & Hrun & Hstep & HR').
  destruct (exec_write _ _ _ _ _ _ Hrun) as (e & Hwrite & ->). pose proof Hadm as (_ & Hl & _).
  assert (zlen (flat h v.(FuseBuf.buf)) = zlen d) as Hlen by (by rewrite Hd, zlen_cells).
  destruct (write_served f i v off fi p s e w' Hf (conj Hs (conj Hfs Hfol)) (proj1 (HK i p) Hp)) as (t & Happ & Hheap & Hserve);
    [by rewrite Hh | done | done | by rewrite Hh, Hlen | by rewrite Hh, Hlen, Hd |].
  eexists _, t, f, (mk_kstate m' k.(numbers)). split; [|split].
  - cbn [serve]. rewrite Hserve. unfold finished. rewrite <- Hs, same_lk by done. reflexivity.
  - exists p, d. split_and!; [done | done | done |]. cbn [files]. cbn [a_step] in Hstep.
    destruct (k.(files) !! p) as [[|b]|]; destruct Hstep as [[= ->] ->]; try done.
    by rewrite Z.geb_leb, (proj2 (Z.leb_le 0 _)) by lia.
  - apply (still_serving (q + 1) n _ _ _ k); try done; [by rewrite Happ | by rewrite Hheap].
Qed.

(** Requests that look a name up. *)
Section name.
Context (q n : Z) (s : libst) (k : kstate) (dir : Z) (name : list byte) (path : list byte).
Context (Hq : 0 <= q) (Hn : 0 <= n) (Hsv : serving c h q (n + 1) s k) (Hpath : names_path k dir name path).

Lemma name_tree : exists f d ps, ready f /\ spare (n + 1) f /\ s.(lk) = alone f /\ numbering f k.(numbers) /\
  k.(numbers) !! dir = Some d /\ path = child d name /\ at_path f (node_at dir) ps None d /\ (NUL ∉ path).
Proof.
  destruct Hsv as [(f & Hf & Hsp & Hs & HK) _ _ _ _ _ _]. destruct Hpath as (d & Hd & -> & Hname & Hlen).
  pose proof (proj1 (HK dir d) Hd) as [Hheld (ps & Hat)]. exists f, d, ps. split_and!; try done.
  pose proof (name_at f dir d name ps Hf Hat Hname Hlen) as (_ & _ & _ & Hnul & ->). cbn [name_in last last_text] in Hnul. unfold shown.
  destruct (path_text ps _); [|done]. cbn. no_NUL.
Qed.

(** What follows when the name has got its number. *)
Lemma entry_step f f' t i g (answer : fuse_entry_param -> FuseLib.reply) m' : numbering f k.(numbers) ->
  FuseLibFacts.entered f f' dir name path (n + 1) i -> R (tok := tok) (chat := chat) q t.(app) m' -> t.(bs).(heap) = h ->
  let k' := mk_kstate m' (<[i := path]> k.(numbers)) in let r := answer (entry_of c i g (a_getattr m' path).2) in
  k_entry c k path answer r k' /\ serving c h q n (finished r t f' s) k'.
Proof.
  intros HK Hen HR Hh k' r. destruct (entered_numbers f f' dir name path (n + 1) i k.(numbers) HK Hen) as [Hgive HK']. split.
  - by exists i, g.
  - apply (still_serving q (n + 1) _ _ _ k); try done; [apply Hen|]. pose proof (en_spare _ _ _ _ _ _ _ Hen) as Hsp.
    by replace (n + 1 - 1) with n in Hsp by lia.
Qed.

Lemma lookup_step : name <> lit "." -> name <> lit ".." -> served (KLookup dir name) q n s k.
Proof.
  intros Hd1 Hd2. destruct name_tree as (f & d & ps & Hf & Hsp & Hs & HK & Hd & Hp & Hat & Hnul). pose proof Hpath as (_ & _ & _ & Hname & Hlen).
  pose proof Hsv as [_ Hfs Hc Hfol Ha HR Hh]. rewrite <- Hc in Hfol. pose proof (serving_taken _ _ _ _ Hsv) as Htaken.
  destruct (getattr_run q s.(fst).(app) k.(files) path HR Hq Hnul) as (w' & Hget & HR').
  rewrite (surjective_pairing (a_getattr k.(files) path)) in Hget.
  assert (zlen (child d name) + 1 <= 2 ^ 31) as Hlen' by (by rewrite <- Hp).
  destruct (lookup_served f dir d name ps (n + 1) Hf Hat Hname Hlen' Hsp ltac:(lia) s _ _ w' (conj Hs (conj Hfs Hfol)) Htaken
    ltac:(rewrite Hc; exact Hneg) Hd1 Hd2 ltac:(rewrite <- Hp; exact Hget)) as (i & g & f' & Hafter & Hrun).
  unfold named_after, entry_reply in *. rewrite <- Hp in Hafter. rewrite Hc in Hrun.
  destruct (Z.eqb_spec (a_getattr k.(files) path).1 0) as [He|He].
  - destruct (entry_step f f' (ran w' s.(fst)) i g REntry k.(files) HK Hafter HR' Hh) as [Hentry Hsv'].
    eexists _, _, f', _. split; [exact Hrun|]. split; [|exact Hsv']. exists d. split_and!; [done | done |].
    cbv zeta. rewrite <- Hp, (proj2 (Z.eqb_eq _ _) He). exact Hentry.
  - subst f'. eexists _, _, f, k. split; [exact Hrun|]. split.
    + exists d. split_and!; [done | done |]. cbv zeta. rewrite <- Hp, (proj2 (Z.eqb_neq _ _) He). split; [|done].
      by destruct (a_getattr_ret k.(files) path) as [?| ->].
    + apply (still_serving q (n + 1) _ _ _ k); try done. destruct Hsp as [Hs1 Hs2]. split; [lia|]. intros x y Hy. specialize (Hs2 x y Hy). lia.
Qed.

Lemma child_not_root d x : x <> [] -> child d x <> lit "/".
Proof.
  intros Hx He%(f_equal length). unfold child in He. destruct x as [|b x]; [done|].
  destruct (decide _); cbn in He; [lia|]. rewrite length_app in He. cbn in He. lia.
Qed.

(** A call that makes the path and the getattr after it. *)
Lemma made_run call made : admissible k.(files) call -> (call = CMkdir path /\ made = ADir) \/ (call = CCreate path /\ made = AFile []) ->
  exists w1 w2, exec call s.(fst).(app) = Ok (RInt 0, w1) /\
    hello_getattr path w1 = Ok ((0, node_stat made), w2) /\ a_getattr (<[path := made]> k.(files)) path = (0, node_stat made) /\
    R (tok := tok) (chat := chat) q w2 (<[path := made]> k.(files)).
Proof.
  intros Hadm Hcall. destruct name_tree as (f & d & ps & _ & _ & _ & _ & _ & Hp & _ & Hnul). destruct Hpath as (_ & _ & _ & (Hne & _) & _).
  assert (uploads call = 0) as Hup by (by destruct Hcall as [[-> _]|[-> _]]).
  destruct (sim_step s.(fst).(app) k.(files) call q ltac:(rewrite Hup, Z.add_0_r; apply Hsv) Hq Hadm) as (r & w1 & m' & Hrun & Hstep & HR').
  assert (r = RInt 0 /\ m' = <[path := made]> k.(files)) as [-> ->] by (by destruct Hcall as [[-> ->]|[-> ->]]).
  assert (a_getattr (<[path := made]> k.(files)) path = (0, node_stat made)) as Hattr.
  { unfold a_getattr. rewrite decide_False; [by rewrite lookup_insert_eq|]. rewrite Hp. by apply child_not_root. }
  destruct (getattr_run q w1 _ path HR' Hq Hnul) as (w2 & Hget & HR2). rewrite Hattr in Hget. by exists w1, w2.
Qed.

Lemma mkdir_step mode : admissible k.(files) (CMkdir path) -> served (KMkdir dir name mode) q n s k.
Proof.
  intros Hadm. destruct name_tree as (f & d & ps & Hf & Hsp & Hs & HK & Hd & Hp & Hat & Hnul). pose proof Hpath as (_ & _ & _ & Hname & Hlen).
  pose proof Hsv as [_ Hfs Hc Hfol Ha HR Hh]. rewrite <- Hc in Hfol. pose proof (serving_taken _ _ _ _ Hsv) as Htaken.
  destruct (made_run (CMkdir path) ADir Hadm (or_introl (conj eq_refl eq_refl))) as (w1 & w2 & Hmk & Hget & Hattr & HR2).
  apply exec_mkdir in Hmk as (e & Hmk & [= <-]).
  destruct (mkdir_served f dir d name ps (n + 1) Hf Hat Hname ltac:(by rewrite <- Hp) Hsp ltac:(lia) s mode w1 _ w2
    (conj Hs (conj Hfs Hfol)) Htaken ltac:(rewrite <- Hp; exact Hmk) ltac:(rewrite <- Hp; exact Hget)) as (i & g & f' & Hen & Hrun).
  rewrite <- Hp in Hen. rewrite Hc in Hrun.
  destruct (entry_step f f' (ran w2 s.(fst)) i g REntry _ HK Hen HR2 Hh) as [Hentry Hsv']. rewrite Hattr in Hentry, Hsv'.
  eexists _, _, f', _. split; [exact Hrun|]. split; [|exact Hsv']. exists d. split; [done|]. cbv zeta. rewrite <- Hp. by split.
Qed.

Lemma create_step mode fi : admissible k.(files) (CCreate path) -> served (KCreate dir name mode fi) q n s k.
Proof.
  intros Hadm. destruct name_tree as (f & d & ps & Hf & Hsp & Hs & HK & Hd & Hp & Hat & Hnul). pose proof Hpath as (_ & _ & _ & Hname & Hlen).
  pose proof Hsv as [_ Hfs Hc Hfol Ha HR Hh]. rewrite <- Hc in Hfol. pose proof (serving_taken _ _ _ _ Hsv) as Htaken.
  destruct (made_run (CCreate path) (AFile []) Hadm (or_intror (conj eq_refl eq_refl))) as (w1 & w2 & Hmk & Hget & Hattr & HR2).
  apply exec_create in Hmk as (e & Hmk & [= <-]).
  destruct (create_served f dir d name ps (n + 1) Hf Hat Hname ltac:(by rewrite <- Hp) Hsp ltac:(lia) s mode fi w1 _ w2
    (conj Hs (conj Hfs Hfol)) Htaken ltac:(rewrite <- Hp; exact Hmk) ltac:(rewrite <- Hp; exact Hget) eq_refl) as (i & g & f' & Hen & Hrun).
  rewrite <- Hp in Hen. rewrite Hc in Hrun.
  destruct (entry_step f f' (ran w2 s.(fst)) i g (fun e => RCreate e (parallel_flag c (cache_flags c fi))) _ HK Hen HR2 Hh) as [Hentry Hsv'].
  rewrite Hattr in Hentry, Hsv'.
  eexists _, _, f', _. split; [exact Hrun|]. split; [|exact Hsv']. exists d. split; [done|]. cbv zeta. rewrite <- Hp. by split.
Qed.

End name.

(** Every request. *)
Lemma sim_request q n s k req : serving c h (q + kuploads req) (n + klookups req) s k -> 0 <= q -> 0 <= n ->
  k_admissible h k req -> served req q n s k.
Proof.
  intros Hsv Hq Hn Hadm. destruct req as [dir name|i fi|dir name mode|dir name mode fi|i size off fi|i v off fi];
    cbn [kuploads klookups] in Hsv; rewrite ?Z.add_0_r in Hsv.
  - destruct Hadm as ((path & Hpath) & Hd1 & Hd2). by apply (lookup_step q n s k dir name path).
  - by apply getattr_step.
  - destruct Hadm as (path & Hpath & Hadm). by apply (mkdir_step q n s k dir name path).
  - destruct Hadm as (path & Hpath & Hadm). by apply (create_step q n s k dir name path).
  - by apply read_step.
  - by apply write_step.
Qed.

Lemma sim_session kernel : forall m q n hist s k, serving c h q n s k -> 0 <= q -> 0 <= n ->
  k_fair c h m q n kernel hist k -> exists new s' k' q' n', session m kernel hist s = Ok (hist ++ new, s') /\
    k_session c h m kernel hist k (hist ++ new) k' /\ serving c h q' n' s' k' /\ s'.(replies) = rev new.*2 ++ s.(replies).
Proof.
  intros m. induction m as [|m IH]; intros q n hist s k Hsv Hq Hn Hfair.
  - exists [], s, k, q, n. by rewrite app_nil_r.
  - destruct Hfair as (Hqr & Hnr & Hadm & Hfair). set (req := kernel hist) in *.
    destruct (sim_request (q - kuploads req) (n - klookups req) s k req) as (r & t & f' & k1 & Hrun & Hstep & Hsv1); try lia; try done.
    { by rewrite !Z.sub_add. }
    destruct (IH _ _ (hist ++ [(req, r)]) _ k1 Hsv1 ltac:(lia) ltac:(lia) (Hfair r k1 Hstep)) as (new & s' & k' & q' & n' & Hses & Hk & Hsv' & Hrep).
    exists ((req, r) :: new), s', k', q', n'. rewrite <- app_assoc in *. split_and!; try done.
    + cbn [session]. fold req. prun Hrun. prun_get. exact Hses.
    + cbn [k_session]. exists r, k1. by split.
    + rewrite Hrep. cbn. by rewrite <- app_assoc.
Qed.

End step.

(** *** The start *)

(** The tree fuse_new makes: the kernel sees the root. *)
Lemma new_ready clock : exists f, fuse_new_nodes 0 clock true true [] = Ok (Some f) /\ ready f /\
  numbering f {[ FUSE_ROOT_ID := lit "/" ]} /\ spare (2 ^ 32 - 4) f.
Proof.
  destruct (new_nodes_run 0 clock) as (f & p & Hnew & Hids & Hnames & Hns & Hnum & _). destruct (new_good 0 clock) as (f2 & Hnew2 & Hg).
  rewrite Hnew in Hnew2. injection Hnew2 as <-. assert (f.(FuseNodes.remember) = 0) as Hrem.
  { assert ((x <- fuse_new_nodes 0 clock true true [] ;; Ok (FuseNodes.remember <$> x)) = Ok (Some 0%Z)) as Hm by (vm_compute; reflexivity).
    rewrite Hnew in Hm. cbn in Hm. injection Hm as Hm. exact Hm. }
  assert (forall (j : Z) n, f.(nodes) !! j = Some n -> j = p /\ n = root_node) as Hone
    by (intros j n; rewrite Hns, lookup_singleton_Some; by intros [-> ->]).
  assert (f.(nodes) !! p = Some root_node) as Hp by (by rewrite Hns, lookup_singleton_eq).
  exists f. split; [exact Hnew|]. clear Hnew. split_and!.
  - split; [done | | | | done]; intros k n; [| |intros s]; by intros [-> ->]%Hone.
  - intros i x. rewrite lookup_singleton_Some. split.
    + intros [<- <-]. split.
      * exists p, root_node. split_and!; [by apply Hnum | done | done].
      * exists []. split_and!; try done; [|cbn; apply not_elem_of_nil].
        exists p, p, root_node. split_and!; try done; [by apply Hnum | constructor].
    + intros [_ (ps & (p' & r & n & Hpi & Hc & Hr & _) & _ & _ & _ & ->)]. cbn in Hpi. apply Hnum in Hpi as [-> ->].
      split; [done|]. inversion Hc as [|k a t u l r' Ha Hid]; subst; [done|]. apply Hone in Ha as [_ ->]. done.
  - split.
    + rewrite Hns, map_size_singleton. lia.
    + intros k n [-> ->]%Hone. cbn. lia.
Qed.

End sim.
End KernelFs.
