(* ===== verification/KernelWire.v ===== *)
(** The file system of KernelFs behind the device: the kernel sends the bytes of its
    requests to a session, and the messages it reads are those of the replies KernelFs
    allows, one for each request.

    INIT of the program behind the device (do_init of lib/fuse_lowlevel.c,
    fuse_lib_init of lib/fuse.c, init of hello.c): a new session greets every kernel of
    version 7.12 or later, and serves its requests from then on. *)
From S2P Require Import Prelude.
From S2P Require Import CLib.
From S2P Require Import LittleEndian.
From S2P Require Import TgApi.
From S2P Require Import Telegram.
From S2P Require Import FuseTypes.
From S2P Require Import Hello.
From S2P Require Import FuseBuf.
From S2P Require Import FuseBufFacts.
From S2P Require Import FuseFs.
From S2P Require Import HelloOper.
From S2P Require Import MemFs.
From S2P Require Import Refine.
From S2P Require Import FuseNodes.
From S2P Require Import FuseNodesFacts.
From S2P Require Import FusePaths.
From S2P Require Import FusePathsFacts.
From S2P Require Import FuseQueue.
From S2P Require Import FuseTree.
From S2P Require Import TreeProps.
From S2P Require Import FuseDirents.
From S2P Require Import FuseLib.
From S2P Require Import FuseKernel.
From S2P Require Import FuseWire.
From S2P Require Import FuseLowlevel.
From S2P Require Import FuseSession.
From S2P Require Import FuseAnswers.
From S2P Require Import FuseSessionFacts.
From S2P Require Import FuseRequests.
From S2P Require Import FuseDecode.
From S2P Require Import FuseLibFacts.
From S2P Require Import FuseServe.
From S2P Require Import KernelFs.
From S2P Require Import FuseInit.

From Stdlib Require Import QArith.
#[global] Close Scope Q_scope.
#[global] Open Scope Z_scope.
#[global] Open Scope c_scope.
#[global] Open Scope prog_scope.

Module KernelWire.
Import LittleEndian TgApi Telegram FuseTypes Hello FuseBuf FuseBufFacts FuseFs HelloOper MemFs Refine FuseNodes FuseNodesFacts FusePaths
  FusePathsFacts FuseQueue FuseTree TreeProps FuseDirents FuseLib FuseKernel FuseWire FuseLowlevel FuseSession FuseAnswers FuseSessionFacts FuseRequests
  FuseDecode FuseLibFacts FuseServe KernelFs.

(** ** What the kernel may be told *)

(** The request of KernelFs; a write brings its data along. *)
Definition k_of (q : request) : option krequest :=
  match q with
  | QLookup dir name => Some (KLookup dir name)
  | QGetattr i flags fh => Some (KGetattr i (if has_flag flags FUSE_GETATTR_FH then Some (fi_of fh) else None))
  | QMkdir dir name mode _ => Some (KMkdir dir name mode)
  | QCreate dir name flags mode _ _ => Some (KCreate dir name mode (with_flags file_info_zero (i32 flags)))
  | QRead i fh off size _ owner flags => Some (KRead i size (i64 off) (Some (with_flags (with_lock_owner (fi_of fh) owner) (i32 flags))))
  | _ => None
  end.

Definition wlookups (q : request) : Z := match k_of q with Some r => klookups r | None => 0 end.
Definition wuploads (q : request) : Z := match q with QWrite _ _ _ _ _ _ _ => 1 | _ => 0 end.

Section spec.
Context (c : fuse_config) (h : gmap Z (list cell)).

Definition w_step (k : kstate) (q : request) (r : FuseLib.reply) (k' : kstate) : Prop :=
  match q with
  | QWrite i _ off _ _ _ data => exists p, k.(numbers) !! i = Some p /\ k'.(numbers) = k.(numbers) /\
      match k.(files) !! p with
      | Some (AFile b) => r = RWrite (zlen data) /\ k'.(files) = <[p := AFile (overwrite b (i64 off) data)]> k.(files)
      | _ => r = RErr (- ENOENT) /\ k'.(files) = k.(files)
      end
  | _ => match k_of q with Some kr => k_step c h k kr r k' | None => False end
  end.

Definition w_admissible (k : kstate) (q : request) : Prop :=
  match q with
  | QWrite i _ off _ _ _ data => exists p, k.(numbers) !! i = Some p /\ admissible k.(files) (CWrite p data (i64 off))
  | _ => match k_of q with Some kr => k_admissible h k kr | None => False end
  end.

(** A request with its number and its caller, and what is sent of it. *)
Record asked := mk_asked { as_uniq : Z; as_caller : caller; as_request : request }.

Definition asked_ok (ext : bool) (a : asked) : Prop :=
  q_wf ext a.(as_request) /\ 0 <= a.(as_uniq) < 2 ^ 64 /\ caller_ok a.(as_caller).

#[local] Abbreviation history := (list (asked * list cell)).

(** The messages [m] requests may be answered with. *)
Fixpoint w_session (pipes : option Z) (conn : fuse_conn_info) (m : nat) (kernel : history -> asked) (hist : history) (k : kstate)
    (hist' : history) (k' : kstate) : Prop :=
  match m with
  | O => hist' = hist /\ k' = k
  | S m => let a := kernel hist in exists r msg k1, w_step k a.(as_request) r k1 /\
      reply_message pipes conn a.(as_uniq) r = Ok (Some msg) /\ w_session pipes conn m kernel (hist ++ [(a, msg)]) k1 hist' k'
  end.

(** The kernel keeps its side of the contract for [m] requests, within [q] uploads
    and [n] lookups, whatever messages it reads; [served] is who is served. *)
Fixpoint w_fair (pipes : option Z) (conn : fuse_conn_info) (served : caller -> request -> Prop) (m : nat) (q n : Z)
    (kernel : history -> asked) (hist : history) (k : kstate) : Prop :=
  match m with
  | O => True
  | S m => let a := kernel hist in
      wuploads a.(as_request) <= q /\ wlookups a.(as_request) <= n /\ w_admissible k a.(as_request) /\
      asked_ok (has_flag conn.(want_ext) FUSE_CAP_SETXATTR_EXT) a /\ served a.(as_caller) a.(as_request) /\
      forall r msg k1, w_step k a.(as_request) r k1 -> reply_message pipes conn a.(as_uniq) r = Ok (Some msg) ->
        w_fair pipes conn served m (q - wuploads a.(as_request)) (n - wlookups a.(as_request)) kernel (hist ++ [(a, msg)]) k1
  end.

Lemma w_fair_ext pipes conn (P Q : caller -> request -> Prop) kernel : (forall b x, P b x -> Q b x) -> forall m q n hist k,
  w_fair pipes conn P m q n kernel hist k -> w_fair pipes conn Q m q n kernel hist k.
Proof.
  intros HPQ m. induction m as [|m IH]; intros q n hist k; [done|]. cbn [w_fair]. intros (? & ? & ? & ? & HP & Hnext).
  split_and!; try done; [by apply HPQ|]. intros r msg k1 Hr Hm. by apply IH, Hnext with r.
Qed.

End spec.

(** ** The session *)

Section sim.
Context {os net : Type} `{Syscalls os} `{CurlEnv net} {tok chat : list byte} `{!Telegram net tok chat}.
#[local] Abbreviation libst := (lib (os := os) (A := world net)).
#[local] Abbreviation Se := (fuse_session (os := os) (A := world net)).
Implicit Types (s u : libst) (se : Se) (k : kstate).

(** [m] requests in buffers that are larger by some bytes, each chosen by the messages
    before it. *)
Fixpoint wire_session (rest : list cell) (m : nat) (kernel : list (asked * list cell) -> asked) (hist : list (asked * list cell))
    : prog Se (list (asked * list cell)) :=
  match m with
  | O => pret hist
  | S m =>
      let a := kernel hist in
      se <-- pget ;;
      let ext := has_flag se.(se_conn).(want_ext) FUSE_CAP_SETXATTR_EXT in
      fuse_session_process_buf (q_buffer ext a.(as_uniq) a.(as_caller) a.(as_request) rest) (q_size ext a.(as_request)) ;;;
      se <-- pget ;;
      wire_session rest m kernel (hist ++ [(a, default [] (head se.(sent)))])
  end.

(** *** The operations *)

Lemma splice_all {B} (l xs : list B) : zlen l = zlen xs -> splice l 0 xs = xs.
Proof. intros Hl. unfold splice. rewrite ztake_0, zdrop_ge, app_nil_r by lia. done. Qed.

Lemma with_block_run m (call : mptr -> prog libst unit) s t1 s1 : let b := fresh (dom s.(fst).(bs).(heap)) in
  let h1 := <[b := m]> s.(fst).(bs).(heap) in
  call (Some (b, 0)) (set_fst (mk_fstate (mk_bstate h1 s.(fst).(bs).(sys)) s.(fst).(private_data) s.(fst).(app)) s) = Ok (tt, s1) ->
  s1.(fst) = t1 -> t1.(bs).(heap) = h1 ->
  with_block m call s = Ok (tt, set_fst (mk_fstate (mk_bstate s.(fst).(bs).(heap) t1.(bs).(sys)) t1.(private_data) t1.(app)) s1).
Proof.
  intros b h1 Hcall Ht Hh. destruct s as [l [[h o] d w] fs c hc dd an re]. cbn [FuseLib.fst bs heap sys private_data app set_fst] in *.
  unfold with_block. destruct (alloc_run h o (zlen m)) as [Ha Hb]. fold b in Ha, Hb.
  prun (in_fs_run (fun _ => in_bs (alloc (zlen m))) (mk_lib l (mk_fstate (mk_bstate h o) d w) fs c hc dd an re) b _
    (in_bs_run (alloc (zlen m)) (mk_fstate (mk_bstate h o) d w) _ _ Ha)).
  assert (mem_set (Some (b, 0)) m (mk_bstate (<[b := uninit (zlen m)]> h) o) = Ok (tt, mk_bstate h1 o)) as Hset.
  { unfold mem_set, pbind, plift, get_block. cbn [lift_fault obind]. unfold pbind, pget, plift. cbn [heap obind]. rewrite lookup_insert_eq.
    cbn [lift_fault obind]. rewrite mem_write_in by (rewrite ?zlen_uninit; lia). cbn [obind]. unfold pput. cbn [heap sys].
    rewrite splice_all by (by rewrite zlen_uninit by lia). by rewrite insert_insert_eq. }
  cbn [set_fst FuseLib.fst lk fsys conf hidectr dirs answers replies].
  prun (in_fs_run (fun _ => in_bs (mem_set (Some (b, 0)) m)) (mk_lib l (mk_fstate (mk_bstate (<[b := uninit (zlen m)]> h) o) d w) fs c hc dd an re) tt _
    (in_bs_run _ (mk_fstate (mk_bstate (<[b := uninit (zlen m)]> h) o) d w) _ _ Hset)).
  prun Hcall. destruct t1 as [[h' o'] d' w']. cbn [bs heap sys private_data app] in *. subst h'.
  apply (in_fs_run (fun _ => in_bs (free_block b)) s1 tt). rewrite Ht.
  assert (free_block b (mk_bstate h1 o') = Ok (tt, mk_bstate h o')) as Hfree
    by (unfold free_block, pbind, pget, pput, h1; cbn [obind heap sys]; by rewrite delete_insert_id).
  exact (in_bs_run (free_block b) (mk_fstate (mk_bstate h1 o') d' w') tt _ Hfree).
Qed.

(** The data of a write lie behind the structure. *)
Lemma data_region (h : gmap Z (list cell)) b front data rest : h !! b = Some (cells (front ++ data) ++ rest) -> zlen front = WRITE_IN_SIZE ->
  let v := mk_bufvec 1 0 0 [mk_buf (zlen data) 0 (ptr_add (Some (b, 0)) WRITE_IN_SIZE) 0 0 0] in zlen data < 2 ^ 63 ->
  vec_wf h v /\ flat h v.(FuseBuf.buf) = cells data.
Proof.
  intros Hb Hf v Hl. unfold WRITE_IN_SIZE in *. assert (flat h v.(FuseBuf.buf) = cells data) as Hflat.
  { unfold flat. cbn [v FuseBuf.buf fmap list_fmap concat]. rewrite app_nil_r. unfold region.
    change (ztake (zlen data) (zdrop WRITE_IN_SIZE (default [] (h !! b))) = cells data). rewrite Hb. unfold WRITE_IN_SIZE. cbn [from_option id].
    rewrite cells_app, <- app_assoc. rewrite zdrop_app_exact by (by rewrite zlen_cells). apply ztake_app_exact. by rewrite zlen_cells. }
  split; [|exact Hflat]. unfold vec_wf. rewrite Hflat, zlen_cells. split_and!; try done; try (cbn; lia).
  - apply Forall_cons_2; [|apply Forall_nil_2]. unfold buf_wf. split_and!; try done; try (cbn; lia).
    exists (cells (front ++ data) ++ rest). split; [exact Hb|]. unfold ofs. cbn. rewrite !zlen_app, zlen_cells, zlen_app. lia.
  - intros x. cbn. intros [= <-]. cbn. lia.
Qed.

Section step.
Context (c : fuse_config) (h : gmap Z (list cell)) (Hneg : Qeq_bool c.(negative_timeout) 0%Q = true).
#[local] Abbreviation serving := (serving (tok := tok) (chat := chat)).

(** The kernel's memory and the log of replies do not matter. *)
Lemma serving_moved h0 h1 q n s s1 k : serving c h0 q n s k -> s1.(lk) = s.(lk) -> s1.(fsys) = s.(fsys) -> s1.(conf) = s.(conf) ->
  s1.(answers) = s.(answers) -> s1.(fst).(app) = s.(fst).(app) -> s1.(fst).(bs).(heap) = h1 -> serving c h1 q n s1 k.
Proof. intros [Ht Hf Hc Hp Ha HR Hh] E1 E2 E3 E4 E5 E6. split; rewrite ?E1, ?E2, ?E3, ?E4, ?E5, ?E6; done. Qed.

Lemma k_step_heap h1 k kr r k' : (forall i v off fi, kr <> KWrite i v off fi) -> k_step c h1 k kr r k' -> k_step c h k kr r k'.
Proof. intros Hk. destruct kr; try done. by destruct (Hk ino0 v off0 fi). Qed.

Lemma write_served_wire lks conn rest q n u k ino fh off wf owner flags data : let ext := has_flag conn.(want_ext) FUSE_CAP_SETXATTR_EXT in
  let w := QWrite ino fh off wf owner flags data in
  serving c h (q + 1) (n + 0) u k -> 0 <= q -> w_admissible h k w -> q_wf ext w ->
  exists r u' k', q_serve lks conn (cells (q_args ext w) ++ rest) w u = Ok (tt, u') /\ u'.(replies) = r :: u.(replies) /\ w_step c h k w r k' /\
    serving c h q n u' k'.
Proof.
  intros ext w Hsv Hq (p & Hp & Hadm) (_ & _ & _ & Hsz & _). rewrite Z.add_0_r in Hsv.
  set (m := cells (q_args ext w) ++ rest). set (b := fresh (dom u.(fst).(bs).(heap))). set (h1 := <[b := m]> u.(fst).(bs).(heap)).
  set (u1 := set_fst (mk_fstate (mk_bstate h1 u.(fst).(bs).(sys)) u.(fst).(private_data) u.(fst).(app)) u).
  set (v := mk_bufvec 1 0 0 [mk_buf (zlen data) 0 (ptr_add (Some (b, 0)) WRITE_IN_SIZE) 0 0 0]).
  set (fi := with_flags (with_lock_owner (with_writepage (fi_of fh) (has_flag wf FUSE_WRITE_CACHE)) owner) (i32 flags)).
  assert (zlen data < 2 ^ 63) as Hd by (unfold q_size, q_args in Hsz; cbn [q_data w] in Hsz; rewrite !zlen_app in Hsz; unfold IN_HEADER_SIZE in Hsz; lia).
  destruct (data_region h1 b (fields (q_fields ext w)) data rest) as [Hv Hflat]; [|done | done |].
  { unfold h1, m. rewrite lookup_insert_eq. unfold q_args. cbn [q_names q_data w]. done. }
  assert (serving c h1 (q + 1) n u1 k) as Hsv1 by (by apply (serving_moved h h1 _ _ u)).
  assert (k_admissible h1 k (KWrite ino v (i64 off) (Some fi))) as Hadm1 by (by exists p, data).
  destruct (write_step c h1 q n u1 k ino v (i64 off) (Some fi) Hsv1 Hq Hadm1) as (r & t & f' & k' & Hrun & Hstep & Hsv2).
  pose proof (sv_heap _ _ _ _ _ _ Hsv2) as Hheap. cbn [finished log_reply set_fst FuseLib.fst] in Hheap.
  eexists r, _, k'. split; [|split; [|split]].
  - exact (with_block_run m (fun p => fuse_lib_write_buf ino (mk_bufvec 1 0 0 [mk_buf (zlen data) 0 (ptr_add p WRITE_IN_SIZE) 0 0 0]) (i64 off) (Some fi))
      u t _ Hrun eq_refl Hheap).
  - done.
  - destruct Hstep as (p' & d & Hp' & Hd' & Hn' & Hstep). exists p'. split_and!; [done | done |].
    assert (d = data) as -> by (apply cells_inj; by rewrite <- Hflat, <- Hd'). exact Hstep.
  - apply (serving_moved h1 h _ _ (finished r t f' u1)); try done. apply Hsv.
Qed.

(** A request is answered once, as KernelFs allows. *)
Lemma wire_served lks conn arg rest q n u k w : let ext := has_flag conn.(want_ext) FUSE_CAP_SETXATTR_EXT in
  serving c h (q + wuploads w) (n + wlookups w) u k -> 0 <= q -> 0 <= n -> w_admissible h k w -> q_wf ext w ->
  arg = cells (q_args ext w) ++ rest ->
  exists r u' k', q_serve lks conn arg w u = Ok (tt, u') /\ u'.(replies) = r :: u.(replies) /\ w_step c h k w r k' /\ serving c h q n u' k'.
Proof.
  intros ext Hsv Hq Hn Hadm Hwf ->. destruct (k_of w) as [kr|] eqn:Hk.
  - assert (serving c h (q + kuploads kr) (n + klookups kr) u k) as Hsv' by (destruct w; try done; injection Hk as <-; exact Hsv).
    assert (k_admissible h k kr) as Hadm' by (destruct w; try done; injection Hk as <-; exact Hadm).
    destruct (sim_request c h Hneg q n u k kr Hsv' Hq Hn Hadm') as (r & t & f' & k' & Hrun & Hstep & Hsv1).
    exists r, (finished r t f' u), k'. split; [destruct w; try done; injection Hk as <-; exact Hrun|]. split; [done|]. split; [|exact Hsv1].
    destruct w; try done; injection Hk as <-; exact Hstep.
  - destruct w; try done. by apply write_served_wire.
Qed.

(** *** The messages *)

(** Data is written to the device itself. *)
Definition to_device se : Prop := se.(pipes) && (14 <=? se.(se_conn).(proto_minor)) && has_flag se.(se_conn).(want_ext) FUSE_CAP_SPLICE_WRITE = false.

Lemma data_direct se m flags : to_device se -> fuse_send_data_iov (splice_page se) se.(se_conn) [Mem m] flags = Ok m.
Proof.
  unfold to_device, splice_page, fuse_send_data_iov. intros Ht. destruct (pipes se); [|done]. cbn [andb] in Ht.
  by rewrite <- andb_assoc, Ht, andb_false_r.
Qed.

Lemma k_step_message se k kr r k' uniq : to_device se -> k_step c h k kr r k' ->
  exists msg, reply_message (splice_page se) se.(se_conn) uniq r = Ok (Some msg).
Proof.
  intros Ht Hs. assert (match r with RErr _ | RAttr _ _ | REntry _ | RCreate _ _ | RWrite _ => True | FuseLib.RData l _ => exists m, l = [Mem m] | _ => False end) as Hr.
  { destruct kr; cbn [k_step] in Hs.
    - destruct Hs as (d & _ & _ & Hs). destruct (_ =? 0); [by destruct Hs as (i & g & _ & _ & ->) | by destruct Hs as [-> _]].
    - destruct Hs as (p & _ & _ & ->). unfold attr_reply. by destruct (_ =? 0).
    - by destruct Hs as (d & _ & _ & i & g & _ & _ & ->).
    - by destruct Hs as (d & _ & _ & i & g & _ & _ & ->).
    - destruct Hs as (p & _ & _ & Hs). destruct (a_read _ _ _ _) as [ret d]. subst r. destruct (ret <? 0); [done | by eexists].
    - destruct Hs as (p & d & _ & _ & _ & Hs). by destruct (k.(files) !! p) as [[|]|]; destruct Hs as [-> _]. }
  destruct r; try done; unfold reply_message, reply_body; try (by eexists).
  - by destruct (_ && _); eexists.
  - destruct Hr as [m ->]. rewrite (data_direct se m) by done. by eexists.
Qed.

Lemma w_step_message se k w r k' uniq : to_device se -> w_step c h k w r k' ->
  exists msg, reply_message (splice_page se) se.(se_conn) uniq r = Ok (Some msg).
Proof.
  intros Ht Hs. destruct w; try done; try (by apply (k_step_message se k _ r k' uniq Ht Hs)).
  destruct Hs as (p & _ & _ & Hs). destruct (k.(files) !! p) as [[|]|]; destruct Hs as [-> _]; by eexists.
Qed.

(** What stays from request to request. *)
Record same_session se se' : Prop := mk_same_session {
  sm_conn : se'.(se_conn) = se.(se_conn);
  sm_op : se'.(se_op) = se.(se_op);
  sm_init : se'.(got_init) = se.(got_init);
  sm_pipes : se'.(pipes) = se.(pipes);
  sm_page : se'.(pagesize) = se.(pagesize);
  sm_deny : se'.(deny_others) = se.(deny_others);
  sm_owner : se'.(se_owner) = se.(se_owner);
  sm_interrupts : se.(se_conn).(no_interrupt) = true \/ se.(se_interrupts) = [] -> se'.(se_interrupts) = se.(se_interrupts)
}.

Lemma ended_same se u req msg u' : same_session se (ended req msg u' (in_service se u req)).
Proof.
  unfold in_service. cbn [with_req set_addr set_userdata se_conn]. destruct (no_interrupt _) eqn:Hn; split; try done.
  intros [|Hi]; [congruence | by symmetry].
Qed.

Lemma same_greeted se se' : same_session se se' -> greeted se -> greeted se'.
Proof.
  intros Hs [Hi Ho Hm Hc]. pose proof (sm_interrupts _ _ Hs Hc) as Hint. destruct Hs as [Ec Eo Ei _ _ _ _ _].
  unfold serves_locks in Ho. split; unfold serves_locks; rewrite ?Ec, ?Eo, ?Ei, ?Hint; done.
Qed.

Lemma same_splice se se' : same_session se se' -> splice_page se' = splice_page se.
Proof. intros [_ _ _ Ep Eg _ _ _]. unfold splice_page. by rewrite Ep, Eg. Qed.

Lemma same_to_device se se' : same_session se se' -> to_device se -> to_device se'.
Proof. intros [Ec _ _ Ep _ _ _ _]. unfold to_device. by rewrite Ec, Ep. Qed.

Lemma same_admits se se' a w : same_session se se' -> admits se' a w <-> admits se a w.
Proof. intros [_ _ _ _ _ Ed Eo _]. unfold admits. by rewrite Ed, Eo. Qed.

Lemma serving_allocates q n u k : serving c h q n u k -> in_fuse allocates u = Ok (true, u).
Proof.
  intros [(f & [[_ Hm _] _ _ _ _] & _ & Hs & _) _ _ _ _ _ _].
  rewrite (in_fuse_run allocates u f true f Hs (allocates_run f Hm)). by rewrite same_lk.
Qed.

(** A request of the kernel, in its buffer. *)
Lemma wire_processed rest q n se k a : let ext := has_flag se.(se_conn).(want_ext) FUSE_CAP_SETXATTR_EXT in let w := a.(as_request) in
  greeted se -> to_device se -> serving c h (q + wuploads w) (n + wlookups w) se.(userdata) k -> 0 <= q -> 0 <= n ->
  w_admissible h k w -> asked_ok ext a -> admits se a.(as_caller) w ->
  exists r msg k' se', fuse_session_process_buf (q_buffer ext a.(as_uniq) a.(as_caller) w rest) (q_size ext w) se = Ok (tt, se') /\
    w_step c h k w r k' /\ reply_message (splice_page se) se.(se_conn) a.(as_uniq) r = Ok (Some msg) /\ se'.(sent) = msg :: se.(sent) /\
    same_session se se' /\ serving c h q n se'.(userdata) k'.
Proof.
  intros ext w Hgr Hdev Hsv Hq Hn Hadm (Hwf & Hu & Hc) Hal. set (req := new_req se (header_of ext a.(as_uniq) a.(as_caller) w)).
  pose proof (q_processed a.(as_uniq) a.(as_caller) w rest se _ Hgr Hal Hwf Hu Hc (serving_allocates _ _ _ _ Hsv)) as Hp. fold ext req in Hp.
  set (se1 := in_service se se.(userdata) req) in Hp.
  assert (se1.(userdata) = se.(userdata) /\ se1.(se_conn) = se.(se_conn) /\ splice_page se1 = splice_page se /\ se1.(sent) = se.(sent)) as (E1 & E2 & E3 & E4).
  { unfold se1, in_service, splice_page. cbn [with_req set_addr set_userdata se_conn]. by destruct (no_interrupt _). }
  assert (serving c h (q + wuploads w) (n + wlookups w) (set_replies [] se1.(userdata)) k) as Hsv1
    by (rewrite E1; apply (serving_moved h h _ _ se.(userdata)); try done; apply Hsv).
  destruct (wire_served (serves_locks se) se.(se_conn) _ rest q n _ k w Hsv1 Hq Hn Hadm Hwf eq_refl) as (r & u' & k' & Hrun & Hrep & Hstep & Hsv').
  destruct (w_step_message se k w r k' a.(as_uniq) Hdev Hstep) as [msg Hmsg].
  exists r, msg, k', (ended req msg u' se1). split_and!.
  - rewrite Hp. apply (answer_run req _ se1 u' r msg Hrun); [exact Hrep|]. by rewrite E2, E3.
  - done.
  - done.
  - cbn [ended set_sent sent]. by rewrite E4.
  - apply ended_same.
  - exact Hsv'.
Qed.

(** Any number of requests. *)
Lemma wire_sessions rest kernel : forall m q n hist se k, greeted se -> to_device se -> serving c h q n se.(userdata) k -> 0 <= q -> 0 <= n ->
  w_fair c h (splice_page se) se.(se_conn) (admits se) m q n kernel hist k ->
  exists new se' k' q' n', wire_session rest m kernel hist se = Ok (hist ++ new, se') /\
    w_session c h (splice_page se) se.(se_conn) m kernel hist k (hist ++ new) k' /\ serving c h q' n' se'.(userdata) k' /\
    se'.(sent) = rev new.*2 ++ se.(sent).
Proof.
  intros m. induction m as [|m IH]; intros q n hist se k Hgr Hdev Hsv Hq Hn Hfair.
  - exists [], se, k, q, n. by rewrite app_nil_r.
  - destruct Hfair as (Hqr & Hnr & Hadm & Hok & Hadmits & Hfair). set (a := kernel hist) in *. set (w := as_request a) in *.
    destruct (wire_processed rest (q - wuploads w) (n - wlookups w) se k a Hgr Hdev ltac:(by rewrite !Z.sub_add) ltac:(lia) ltac:(lia) Hadm Hok Hadmits)
      as (r & msg & k1 & se1 & Hrun & Hstep & Hmsg & Hsent & Hsame & Hsv1).
    pose proof (Hfair r msg k1 Hstep Hmsg) as Hfair1. pose proof (same_splice _ _ Hsame) as Ep. pose proof (sm_conn _ _ Hsame) as Ec.
    destruct (IH _ _ (hist ++ [(a, msg)]) se1 k1 (same_greeted _ _ Hsame Hgr) (same_to_device _ _ Hsame Hdev) Hsv1 ltac:(lia) ltac:(lia)) as (new & se' & k' & q' & n' & Hses & Hk & Hsv' & Hrep).
    { rewrite Ep, Ec. revert Hfair1. apply w_fair_ext. intros b x. apply (same_admits _ _ b x Hsame). }
    exists ((a, msg) :: new), se', k', q', n'. rewrite <- app_assoc in *. split_and!; try done.
    + cbn [wire_session]. fold a w. prun_get. prun Hrun. prun_get. rewrite Hsent. exact Hses.
    + cbn [w_session]. exists r, msg, k1. rewrite Ep, Ec in Hk. by split_and!.
    + rewrite Hrep, Hsent. cbn. by rewrite <- app_assoc.
Qed.

End step.
End sim.
End KernelWire.

From Stdlib Require Import QArith.
#[global] Close Scope Q_scope.
#[global] Open Scope Z_scope.
#[global] Open Scope c_scope.
#[global] Open Scope prog_scope.

Module KernelInit.
Import LittleEndian TgApi Telegram FuseTypes Hello FuseBuf FuseBufFacts FuseFs HelloOper MemFs Refine FuseNodes FuseNodesFacts FusePaths
  FusePathsFacts FuseQueue FuseTree TreeProps FuseDirents FuseLib FuseKernel FuseWire FuseLowlevel FuseSession FuseAnswers FuseSessionFacts FuseRequests
  FuseDecode FuseInit FuseLibFacts FuseServe KernelFs KernelWire.

(** ** Modest wants *)

(** What is wanted was offered, and data is not to be spliced. *)
Record modest (c : fuse_conn_info) : Prop := mk_modest {
  mo_range : 0 <= c.(want_ext) < 2 ^ 64;
  mo_bits i : 0 <= i -> Z.testbit c.(want_ext) i = true -> Z.testbit c.(capable_ext) i = true /\ i <> 7
}.

Lemma set_modest c i : modest c -> 0 <= i < 64 -> i <> 7 -> modest (fuse_set_feature_flag c (Z.shiftl 1 i)).2.
Proof.
  intros [Hr Hb] Hi Hi7. rewrite Z.shiftl_1_l. split.
  - apply set_flag_range; [done|]. split; [apply Z.pow_nonneg; lia | apply Z.pow_lt_mono_r; lia].
  - intros j Hj. destruct (set_feature_flag_spec c (2 ^ i) j) as [Hr1 Hw]. rewrite Hw. destruct (set_flag_shape c (2 ^ i)) as [w Hs].
    assert (capable_ext (fuse_set_feature_flag c (2 ^ i)).2 = capable_ext c) as -> by (by rewrite Hs).
    rewrite orb_true_iff, andb_true_iff, Hr1. intros [Hc|[Hg Hp]]; [by apply Hb|].
    destruct (Z.eq_dec i j) as [<-|Hne]; [|by rewrite Z.pow2_bits_false in Hp]. split; [|done].
    unfold fuse_get_feature_flag in Hg. rewrite <- has_bit by lia. unfold has_flag. rewrite Z.shiftl_1_l. by destruct (negb _).
Qed.

Lemma unset_modest c flag : modest c -> modest (fuse_unset_feature_flag c flag).
Proof.
  intros [Hr Hb]. split; [by apply unset_flag_range|]. intros i Hi. rewrite unset_feature_flag_spec by done.
  intros [Hw _]%andb_true_iff. by apply Hb.
Qed.

Lemma modest_valid c : modest c -> want_flags_valid c.(capable_ext) c.(want_ext) = true.
Proof.
  intros [Hr Hb]. unfold want_flags_valid. apply Z.eqb_eq, Z.bits_inj'. intros i Hi. rewrite Z.land_spec, Z.bits_0.
  destruct (Z.testbit (want_ext c) i) eqn:Hw; [|done]. destruct (Hb i Hi Hw) as [Hc _]. cbn [andb]. unfold uwrap.
  destruct (Z.lt_ge_cases i 64); [|by apply Z.mod_pow2_bits_high; lia]. rewrite Z.mod_pow2_bits_low, Z.lnot_spec by lia. by rewrite Hc.
Qed.

Lemma modest_direct c : modest c -> has_flag c.(want_ext) FUSE_CAP_SPLICE_WRITE = false.
Proof.
  intros [_ Hb]. unfold FUSE_CAP_SPLICE_WRITE. rewrite has_bit by lia. destruct (Z.testbit _ 7) eqn:H7; [|done].
  by destruct (Hb 7 ltac:(lia) H7).
Qed.

Lemma defaults_modest {os A} `{Syscalls os} (op : fuse_lowlevel_ops (lib (os := os) (A := A))) c : modest c -> modest (ll_set_defaults (default_caps op) c).
Proof.
  assert (forall l c, Forall (fun e => exists i, e.2 = Z.shiftl 1 i /\ 0 <= i < 64 /\ i <> 7) l -> modest c -> modest (ll_set_defaults l c)) as Hl.
  { clear c. unfold ll_set_defaults. intros l c Hl. revert c. induction Hl as [|[b cap] l (i & Hcap & Hi & H7) Hl IH]; intros c Hc; [done|].
    cbn [Datatypes.snd] in Hcap. subst cap. cbn [foldl]. apply IH.
    destruct b; [by apply set_modest | done]. }
  apply Hl. unfold default_caps. repeat apply Forall_cons_2; [..|apply Forall_nil_2]; (eexists; split; [reflexivity | by split]).
Qed.

(** A connection that asks for no more than [c] was offered. *)
Record keeps (c c' : fuse_conn_info) : Prop := mk_keeps {
  kp_capable : c'.(capable_ext) = c.(capable_ext);
  kp_minor : c'.(proto_minor) = c.(proto_minor);
  kp_max_read : c'.(max_read) = c.(max_read);
  kp_max_write : c'.(max_write) = c.(max_write);
  kp_background : c'.(max_background) = c.(max_background);
  kp_congestion : c'.(congestion_threshold) = c.(congestion_threshold)
}.

Lemma keeps_refl c : keeps c c.
Proof. done. Qed.

Lemma keeps_trans c1 c2 c3 : keeps c1 c2 -> keeps c2 c3 -> keeps c1 c3.
Proof. intros [? ? ? ? ? ?] [? ? ? ? ? ?]. split; congruence. Qed.

Lemma set_keeps c flag : keeps c (fuse_set_feature_flag c flag).2.
Proof. destruct (set_flag_shape c flag) as [w ->]. done. Qed.

Lemma unset_keeps c flag : keeps c (fuse_unset_feature_flag c flag).
Proof. done. Qed.

Lemma defaults_keeps l c : keeps c (ll_set_defaults l c).
Proof.
  unfold ll_set_defaults. revert c. induction l as [|[b cap] l IH]; intros c; [done|]. cbn [foldl].
  eapply keeps_trans; [|apply IH]. destruct b; [apply set_keeps | done].
Qed.

(** ** The program's part *)

Section program.
Context {os net : Type} `{Syscalls os} `{CurlEnv net} {tok chat : list byte} `{!Telegram net tok chat}.
#[local] Abbreviation libst := (lib (os := os) (A := world net)).
#[local] Abbreviation Se := (fuse_session (os := os) (A := world net)).
Implicit Types (s u : libst) (se : Se) (k : kstate).

(** The library after init: the file system's configuration, and how long nodes are
    remembered. *)
Definition lib_initialised s : libst :=
  let f := s.(lk).(lf) in
  let c := with_kernel_cache s.(conf) 1 in
  mk_lib (mk_locker (mk_fuse f.(name_table) f.(id_table) f.(lru_table) f.(ctr) f.(fgeneration) c.(FuseTypes.remember) f.(nodes) f.(now) f.(memory))
    s.(lk).(lockq) s.(lk).(signals)) (HelloOper.entered s.(fst)) s.(fsys) c s.(hidectr) s.(dirs) s.(answers) s.(replies).

(** What init makes of a connection: fuse_lib_init, fuse_fs_init for a file system
    without write_buf and locks, and the init of the program. *)
Definition lowered (c : fuse_conn_info) : fuse_conn_info := with_want c (fuse_lower_32_bits c.(want_ext)).
Definition exported (c : fuse_conn_info) : fuse_conn_info := (fuse_set_feature_flag c FUSE_CAP_EXPORT_SUPPORT).2.
Definition unsupported (c : fuse_conn_info) : fuse_conn_info :=
  fuse_unset_feature_flag (fuse_unset_feature_flag (fuse_unset_feature_flag c FUSE_CAP_SPLICE_READ) FUSE_CAP_POSIX_LOCKS) FUSE_CAP_FLOCK_LOCKS.
Definition synchronous (c : fuse_conn_info) : fuse_conn_info :=
  fuse_unset_feature_flag (fuse_set_feature_flag c FUSE_CAP_ASYNC_READ).2 FUSE_CAP_ASYNC_READ.
Definition program_conn (conn : fuse_conn_info) : fuse_conn_info :=
  with_no_interrupt (lowered (synchronous (lowered (unsupported (exported conn))))).

Lemma program_init conn s : s.(fsys) = hello_fs -> is_set s.(conf).(intr) = false ->
  fuse_lib_init conn s = Ok (program_conn conn, lib_initialised s).
Proof.
  intros Hfs Hintr. unfold program_conn. set (c1 := exported conn). set (c2 := unsupported c1). set (c3 := lowered c2). set (c4 := synchronous c3).
  set (c5 := lowered c4). assert (c4.(want) = c3.(want)) as Hw by (unfold c4, synchronous; destruct (set_flag_shape c3 FUSE_CAP_ASYNC_READ) as [w ->]; done).
  assert (fuse_fs_init (hello_fs (D := fill_state)) c1 s.(conf) s.(fst) = Ok ((hello_fs, c5, with_kernel_cache s.(conf) 1), HelloOper.entered s.(fst))) as Hinit.
  { unfold fuse_fs_init. cbn [hello_fs user_data op hello_oper op_init op_write_buf op_lock op_flock given].
    prun (set_private_run s.(fst)). cbv zeta. fold (unsupported c1). fold c2. fold (lowered c2). fold c3. unfold oper_init, hello_init.
    fold (synchronous c3). fold c4.
    unfold pbind at 1. unfold pret at 1. cbn [obind]. unfold convert_to_conn_want_ext. rewrite Hw. cbn [c3 lowered with_want want].
    rewrite Z.eqb_refl. done. }
  unfold fuse_lib_init. rewrite (surjective_pairing (fuse_set_feature_flag conn FUSE_CAP_EXPORT_SUPPORT)). fold (exported conn). fold c1.
  prun (get_conf_run s). rewrite <- Hfs in Hinit. prun (in_fs_run (fun fs => fuse_fs_init fs c1 s.(conf)) s _ _ Hinit).
  prun_get. rewrite (pbind_run _ _ _ _ _ (pput_run _ _)).
  assert (is_set (with_kernel_cache s.(conf) 1).(intr) = false) as -> by exact Hintr. reflexivity.
Qed.

Lemma program_keeps conn : keeps conn (program_conn conn).
Proof.
  apply (keeps_trans _ (exported conn)); [apply set_keeps|]. apply (keeps_trans _ (lowered (unsupported (exported conn)))); [done|].
  set (c3 := lowered _). apply (keeps_trans _ (fuse_set_feature_flag c3 FUSE_CAP_ASYNC_READ).2); [apply set_keeps | done].
Qed.

Lemma unsupported_range c : 0 <= c.(want_ext) < 2 ^ 64 -> 0 <= (unsupported c).(want_ext) < 2 ^ 64.
Proof. intros. by do 3 apply unset_flag_range. Qed.

Lemma exported_range c : 0 <= c.(want_ext) < 2 ^ 64 -> 0 <= (exported c).(want_ext) < 2 ^ 64.
Proof. intros. by apply set_flag_range. Qed.

Lemma program_range conn : 0 <= conn.(want_ext) < 2 ^ 64 -> 0 <= (program_conn conn).(want_ext) < 2 ^ 64.
Proof.
  intros Hw. change (0 <= want_ext (synchronous (lowered (unsupported (exported conn)))) < 2 ^ 64).
  apply unset_flag_range, set_flag_range; [|by split]. by apply unsupported_range, exported_range.
Qed.

Lemma program_modest conn : modest conn -> modest (program_conn conn).
Proof.
  intros Hm. assert (modest (unsupported (exported conn))) as Hm2 by (by do 3 apply unset_modest; apply set_modest).
  assert (modest (lowered (unsupported (exported conn)))) as Hm3 by (by destruct Hm2).
  assert (modest (synchronous (lowered (unsupported (exported conn))))) as Hm4 by (by apply unset_modest, set_modest). by destruct Hm4.
Qed.

(** Requests are not to be spliced: the program has no write_buf. *)
Lemma program_unspliced conn : 0 <= conn.(want_ext) < 2 ^ 64 -> has_flag (program_conn conn).(want_ext) FUSE_CAP_SPLICE_READ = false.
Proof.
  intros Hr. pose proof (exported_range conn Hr) as Hr1. pose proof (unsupported_range _ Hr1) as Hr2.
  change (has_flag (want_ext (synchronous (lowered (unsupported (exported conn))))) FUSE_CAP_SPLICE_READ = false).
  unfold FUSE_CAP_SPLICE_READ. rewrite has_bit by lia.
  assert (Z.testbit (unsupported (exported conn)).(want_ext) 9 = false) as H9.
  { unfold unsupported. rewrite !unset_feature_flag_spec by (repeat apply unset_flag_range; done). by rewrite andb_false_r. }
  unfold synchronous. rewrite unset_feature_flag_spec by (by apply set_flag_range).
  destruct (set_feature_flag_spec (lowered (unsupported (exported conn))) FUSE_CAP_ASYNC_READ 9) as [_ ->].
  change (Z.testbit FUSE_CAP_ASYNC_READ 9) with false. rewrite andb_false_r, orb_false_r.
  change (want_ext (lowered ?c)) with (want_ext c). by rewrite H9.
Qed.

Lemma lowered_want c : (with_no_interrupt (lowered c)).(want) = fuse_lower_32_bits (with_no_interrupt (lowered c)).(want_ext).
Proof. done. Qed.

Lemma program_want conn : (program_conn conn).(want) = fuse_lower_32_bits (program_conn conn).(want_ext) /\ (program_conn conn).(no_interrupt) = true.
Proof. unfold program_conn. split; [apply lowered_want | done]. Qed.

(** Init keeps to what FuseInit asks of it. *)
Lemma program_honest se : se.(se_op) = path_ops (serves_locks se) -> se.(userdata).(fsys) = hello_fs -> is_set se.(userdata).(conf).(intr) = false -> honest_init se.
Proof.
  intros Ho Hfs Hintr h c c' u' Hh Hrun Hc. rewrite Ho in Hh. injection Hh as <-. rewrite (program_init c _ Hfs Hintr) in Hrun. injection Hrun as <- _.
  pose proof (program_keeps c) as Hk. destruct Hc as [Hm Hb Ht Hw Hl]. split_and!; [|apply Hk..].
  split; [by rewrite (kp_max_write _ _ Hk) | by rewrite (kp_background _ _ Hk) | by rewrite (kp_congestion _ _ Hk) | by apply program_range | apply lower_range].
Qed.

(** The call of init from the session. *)
Lemma call_init_run se : se.(se_op) = path_ops (serves_locks se) -> se.(userdata).(fsys) = hello_fs -> is_set se.(userdata).(conf).(intr) = false ->
  modest se.(se_conn) -> exists c', call_init se = Ok (true, set_conn c' (set_userdata (lib_initialised se.(userdata)) se)) /\
    keeps se.(se_conn) c' /\ modest c' /\ c'.(no_interrupt) = true /\ has_flag c'.(want_ext) FUSE_CAP_SPLICE_READ = false.
Proof.
  intros Ho Hfs Hintr Hm. unfold call_init. prun_get. rewrite Ho. cbn [path_ops ll_init]. cbv zeta.
  set (c0 := with_want (with_capable _ _) _). assert (modest c0) as Hm0 by (by destruct Hm).
  assert (keeps se.(se_conn) c0) as Hk0 by done. prun (on_lib_run _ _ _ _ (program_init c0 se.(userdata) Hfs Hintr)). clearbody c0. unfold convert_to_conn_want_ext.
  pose proof (program_keeps c0) as Hk. pose proof (program_modest c0 Hm0) as Hm1. pose proof (program_unspliced c0 (mo_range _ Hm0)) as Hs.
  destruct (program_want c0) as [Hw Hn]. generalize dependent (program_conn c0). intros c1 Hk Hm1 Hs Hw Hn. rewrite Hw, Z.eqb_refl, andb_false_r.
  eexists. split; [reflexivity|]. split_and!; [| by destruct Hm1 | done | done].
  apply (keeps_trans _ c0 _ Hk0), (keeps_trans _ c1 _ Hk). done.
Qed.

(** [struct fuse_init_in] of a kernel of version 7.[minor]. *)
Definition init_in (minor max_readahead flags flags2 : Z) : list (nat * Z) :=
  [(4%nat, 7); (4%nat, minor); (4%nat, max_readahead); (4%nat, flags); (4%nat, flags2)] ++ replicate 11 (4%nat, 0).

Definition init_in_ok (minor max_readahead flags flags2 : Z) : Prop :=
  12 <= minor < 2 ^ 32 /\ 0 <= max_readahead < 2 ^ 32 /\ 0 <= flags < 2 ^ 32 /\ 0 <= flags2 < 2 ^ 32.

Lemma init_in_fits minor ra flags flags2 : init_in_ok minor ra flags flags2 -> Forall fits_field (init_in minor ra flags flags2).
Proof. intros (? & ? & ? & ?). repeat apply Forall_cons_2; [..|apply Forall_nil_2]; (split; cbn [Datatypes.fst Datatypes.snd]; lia). Qed.

(** The offer of such a kernel can be read. *)
Lemma init_offer_run se minor ra flags flags2 rest : init_in_ok minor ra flags flags2 ->
  exists f b r c, init_offer se (cells (fields (init_in minor ra flags flags2)) ++ rest) minor = Ok (f, b, r, c) /\
    c.(want_ext) = se.(se_conn).(want_ext) /\ keeps (with_capable_ext se.(se_conn) c.(capable_ext)) c.
Proof.
  intros Hi. pose proof (field_find _ rest (init_in_fits _ _ _ _ Hi)) as Hff. destruct Hi as ([Hmin _] & _).
  unfold init_offer. rewrite (proj2 (Z.leb_le 6 minor)) by lia. rewrite (Hff 8 4%nat ra eq_refl). cbn [obind].
  rewrite (Hff 12 4%nat flags eq_refl). cbn [obind]. rewrite (Hff 16 4%nat flags2 eq_refl). cbn [obind].
  destruct (has_flag flags FUSE_INIT_EXT); cbn [obind]; destruct (has_flag _ FUSE_MAX_PAGES), (ra <? _);
    (eexists _, _, _, _; split; [reflexivity | done]).
Qed.

(** A session that serves the program from now on. *)
Record started se se' : Prop := mk_started {
  st_greeted : greeted se';
  st_device : to_device se' /\ has_flag se'.(se_conn).(want_ext) FUSE_CAP_SPLICE_READ = false;
  st_lib : exists r, se'.(userdata) = log_reply r (set_replies [] (lib_initialised se.(userdata)));
  st_exited : se'.(exited) = se.(exited);
  st_access : se'.(deny_others) = se.(deny_others) /\ se'.(se_owner) = se.(se_owner);
  st_pipes : splice_page se' = splice_page se;
  st_list : se'.(se_list) = se.(se_list)
}.

(** INIT is agreed upon. *)
Lemma do_init_run req se minor ra flags flags2 rest : init_in_ok minor ra flags flags2 -> se.(se_op) = path_ops (serves_locks se) ->
  se.(userdata).(fsys) = hello_fs -> is_set se.(userdata).(conf).(intr) = false -> se.(se_conn).(max_read) = se.(max_read_mo) ->
  exists o se', do_init req (cells (fields (init_in minor ra flags flags2)) ++ rest) se = Ok (tt, se') /\ started se se' /\
    se'.(sent) = fuse_send_msg req.(unique) 0 (cells (init_out_size minor (init_out_bytes o))) :: se.(sent).
Proof.
  intros Hi Ho Hfs Hintr Hmr. pose proof (field_find _ rest (init_in_fits _ _ _ _ Hi)) as Hff.
  set (arg := cells _ ++ rest) in *. unfold do_init. prun_lift (Hff 0 4%nat 7 eq_refl). prun_lift (Hff 4 4%nat minor eq_refl).
  set (s1 := set_conn (with_want_ext (with_capable_ext (with_proto se.(se_conn) 7 minor) 0) 0) se).
  assert (change (fun t : Se => set_conn (with_want_ext (with_capable_ext (with_proto t.(se_conn) 7 minor) 0) 0) t) se = Ok (tt, s1)) as Hs1 by done.
  prun Hs1. cbn [Z.ltb Z.compare Pos.compare Pos.compare_cont]. prun_get.
  destruct (init_offer_run s1 minor ra flags flags2 rest Hi) as (f & b & r & c & Hoff & Hw & Hk). fold arg in Hoff. prun_lift Hoff. cbv beta iota zeta.
  set (c1 := with_capable_ext c (version_caps minor c.(capable_ext))). set (c2 := with_time_gran (ll_set_defaults (default_caps s1.(se_op)) c1) 1).
  assert (modest c1) as Hm1 by (split; [by cbn; rewrite Hw | intros i _; cbn; rewrite Hw; cbn; by rewrite Z.bits_0]).
  assert (modest c2) as Hm2 by (by destruct (defaults_modest s1.(se_op) c1 Hm1)).
  pose proof (defaults_keeps (default_caps s1.(se_op)) c1) as Hkd. rewrite (pbind_run _ _ _ _ _ (pput_run _ _)).
  set (s2 := set_phase true s1.(got_destroy) (set_conn c2 s1)).
  destruct (call_init_run s2 Ho Hfs Hintr Hm2) as (c3 & Hcall & Hk3 & Hm3 & Hni & Hsr). prun Hcall. prun_get. cbn [negb orb].
  assert (c3.(max_read) = se.(se_conn).(max_read) /\ c3.(proto_minor) = minor) as [Hmr3 Hmi3].
  { split; [rewrite (kp_max_read _ _ Hk3) | rewrite (kp_minor _ _ Hk3)]; cbn [s2 set_phase set_conn se_conn c2 with_time_gran max_read proto_minor];
      [rewrite (kp_max_read _ _ Hkd) | rewrite (kp_minor _ _ Hkd)]; cbn [c1 with_capable_ext max_read proto_minor];
      [rewrite (kp_max_read _ _ Hk) | rewrite (kp_minor _ _ Hk)]; done. }
  set (s3 := set_conn c3 _).
  assert (want_flags_valid s3.(se_conn).(capable_ext) s3.(se_conn).(want_ext) = true) as -> by (by apply modest_valid).
  assert ((s3.(se_conn).(max_read) =? s3.(max_read_mo)) = true) as -> by (apply Z.eqb_eq; change (c3.(max_read) = se.(max_read_mo)); by rewrite Hmr3).
  cbn [negb orb]. cbv zeta. set (limit := if (r : bool) then UINT_MAX else _). set (c4 := init_limits limit s3.(se_conn)).
  rewrite (pbind_run _ _ _ _ _ (pput_run _ _)). prun_lift (Hff 12 4%nat flags eq_refl).
  set (o := init_answer _ _ _ _). rewrite (answer_reply req (RBuf _) _ _ eq_refl).
  exists o. eexists. split; [reflexivity|]. split; [|done].
  destruct (init_limits_fields limit s3.(se_conn)) as (_ & Hw4 & Hmi4). fold c4 in Hw4, Hmi4.
  assert (c4.(no_interrupt) = true) as Hni4 by (unfold c4, init_limits; cbn [with_max_write proto_minor]; by destruct (13 <=? _)).
  clearbody c4 o. split; try done.
  - split; [done | done | change (12 <= c4.(proto_minor)); rewrite Hmi4; change (12 <= c3.(proto_minor)); rewrite Hmi3; apply Hi | by left].
  - assert (want_ext c4 = want_ext c3) as Hw43 by exact Hw4. split; [apply andb_false_intro2; change (has_flag c4.(want_ext) FUSE_CAP_SPLICE_WRITE = false)
      | change (has_flag c4.(want_ext) FUSE_CAP_SPLICE_READ = false)]; rewrite Hw43; [by apply modest_direct | exact Hsr].
  - by eexists.
  - cbn [ended set_sent set_userdata set_lists se_list]. unfold freed.
    change (no_interrupt (se_conn _)) with (no_interrupt c4). by rewrite Hni4.
Qed.

(** *** The first request *)

(** INIT in its buffer. *)
Definition init_buffer (uniq : Z) (c : caller) (minor ra flags flags2 : Z) (rest : list cell) : list cell :=
  cells (in_header 104 FUSE_INIT uniq 0 c.(c_uid) c.(c_gid) c.(c_pid) ++ fields (init_in minor ra flags flags2)) ++ rest.

(** A session before its first request. *)
Record fresh_session se : Prop := mk_fresh {
  fr_init : se.(got_init) = false;
  fr_op : se.(se_op) = path_ops (serves_locks se);
  fr_calm : se.(se_interrupts) = [];
  fr_interrupts : se.(se_conn).(no_interrupt) = false;
  fr_max_read : se.(se_conn).(max_read) = se.(max_read_mo)
}.

Lemma init_processed se u uniq c minor ra flags flags2 rest : fresh_session se -> init_in_ok minor ra flags flags2 -> 0 <= uniq < 2 ^ 64 -> caller_ok c ->
  in_fuse allocates se.(userdata) = Ok (true, u) -> u.(fsys) = hello_fs -> is_set u.(conf).(intr) = false ->
  let req := new_req se (mk_in_header 104 FUSE_INIT uniq 0 c.(c_uid) c.(c_gid) c.(c_pid)) in
  exists o se', fuse_session_process_buf (init_buffer uniq c minor ra flags flags2 rest) 104 se = Ok (tt, se') /\
    started (set_lists (se.(se_list) ++ [req]) [] (with_req se u)) se' /\
    se'.(sent) = fuse_send_msg uniq 0 (cells (init_out_size minor (init_out_bytes o))) :: se.(sent).
Proof.
  intros [Hgi Ho Hc Hni Hmr] Hi Hu (Hc1 & Hc2 & Hc3) Hal Hfs Hintr req. set (se1 := set_lists (se.(se_list) ++ [req]) [] (with_req se u)).
  destruct (do_init_run req se1 minor ra flags flags2 rest Hi Ho Hfs Hintr Hmr) as (o & se' & Hrun & Hst & Hsent).
  exists o, se'. split; [|by split]. set (inh := mk_in_header _ _ _ _ _ _ _) in *.
  assert (read_in_header (init_buffer uniq c minor ra flags flags2 rest) = Ok inh) as Hh.
  { unfold init_buffer. rewrite cells_app, <- app_assoc. by apply in_header_run. }
  unfold fuse_session_process_buf. prun_lift Hh. prun (alloc_req_run inh se u Hal). cbv iota. prun_get. rewrite refused_with_req.
  assert (refused se inh = None) as ->.
  { unfold refused. rewrite Hgi, Hni. cbn [inh opcode in_uid]. rewrite (bool_decide_true (FUSE_INIT ∈ root_exempt)) by (apply (bool_decide_unpack _); by vm_compute).
    by rewrite andb_false_r. }
  assert (enlist req (opcode inh) (with_req se u) = Ok (req, se1)) as Hen.
  { rewrite enlist_calm by (try done; by right). unfold in_service. change (no_interrupt (se_conn (with_req se u))) with (no_interrupt (se_conn se)). by rewrite Hni. }
  prun Hen. prun_get. assert (zdrop IN_HEADER_SIZE (init_buffer uniq c minor ra flags flags2 rest) = cells (fields (init_in minor ra flags flags2)) ++ rest) as Harg.
  { unfold init_buffer. rewrite cells_app, <- app_assoc. by apply zdrop_app_exact. }
  rewrite Harg. exact Hrun.
Qed.

(** Init leaves a library that serves. *)
Lemma initialised_serving c h q n u k r : serving (tok := tok) (chat := chat) c h q n u k -> c.(FuseTypes.remember) = 0 ->
  serving (tok := tok) (chat := chat) (with_kernel_cache c 1) h q n (log_reply r (set_replies [] (lib_initialised u))) k.
Proof.
  intros [(f & Hf & Hsp & Hs & HK) Hfs Hc Hp Ha HR Hh] Hr. split; try done.
  - exists f. split_and!; try done. cbn [log_reply set_replies lib_initialised lk]. rewrite Hs. cbn [alone lf lockq signals]. rewrite Hc.
    change (FuseTypes.remember (with_kernel_cache c 1)) with c.(FuseTypes.remember). rewrite Hr, <- (rd_forgets f Hf). by destruct f.
  - cbn. by rewrite Hc.
  - cbn. destruct u.(answers); [done | by apply Forall_cons in Ha as [_ Ha]].
Qed.

End program.
End KernelInit.
