(* ===== verification/FuseListing.v ===== *)
(** Serving directory listings: the pages of a filled handle, how the program's
    directories fill one, and what the kernel collects by reading page after page. *)
From S2P Require Import Prelude.
From S2P Require Import CLib.
From S2P Require Import TgFile.
From S2P Require Import TgStorage.
From S2P Require Import TgApi.
From S2P Require Import Telegram.
From S2P Require Import FuseTypes.
From S2P Require Import Hello.
From S2P Require Import HelloFacts.
From S2P Require Import FuseBuf.
From S2P Require Import FuseBufFacts.
From S2P Require Import FuseFs.
From S2P Require Import HelloOper.
From S2P Require Import FuseNodes.
From S2P Require Import FusePaths.
From S2P Require Import FusePathsFacts.
From S2P Require Import FuseQueue.
From S2P Require Import FuseTree.
From S2P Require Import FuseQueueFacts.
From S2P Require Import TreeProps.
From S2P Require Import FuseDirents.
From S2P Require Import FuseLibFacts.
From S2P Require Import FuseLib.
From S2P Require Import FuseServe.

Module FuseListing.
Import TgFile TgStorage TgApi FuseTypes Hello HelloFacts FuseBuf FuseBufFacts FuseFs HelloOper FuseNodes FusePaths FusePathsFacts
  FuseQueue FuseTree FuseQueueFacts TreeProps FuseDirents FuseDirsFacts FuseLib FuseLibFacts FuseServe.

(** ** Pages of a filled handle *)

(** The handle after a page of [size] bytes. *)
Definition paged (h : fuse_dh) (m : list cell) (n : Z) (size : Z) : fuse_dh :=
  mk_dh (Some m) h.(first) n (zlen m) size h.(filled) h.(dfh) h.(error) h.(dnodeid).

(** The page of [h] that starts behind [k] entries: [taken], as many as fit. *)
Definition page_of (h : fuse_dh) (k size : Z) (taken rest : list fuse_direntry) : Prop :=
  zdrop k h.(first) = taken ++ rest /\ zlen (records k taken) <= size /\
  forall de rest', rest = de :: rest' -> size < zlen (records k (taken ++ [de])).

(** Where a listing goes on at offset [off]. *)
Definition skipped (h : fuse_dh) (off : Z) : Z := Z.min (Z.max off 0) (zlen h.(first)).

Lemma fill_page h (f : fuse) (c : fuse_config) off : dh_wf h -> f.(memory) = [] -> 0 < h.(needlen) < 2 ^ 31 ->
  Forall short_name h.(first) -> exists taken rest m,
    readdir_fill_from_list off 0 (mk_fill h f c) =
      Ok (0, mk_fill (paged h m (zlen (records (skipped h off) taken)) h.(needlen)) f c) /\
    page_of h (skipped h off) h.(needlen) taken rest /\ 1024 <= zlen m < 2 ^ 32 /\
    mem_read m 0 (zlen (records (skipped h off) taken)) = Ok (cells (records (skipped h off) taken)).
Proof.
  intros Hwf Hmem Hn Hs. set (h0 := with_written h h.(contents) 0).
  assert (set_dh (fun h => with_written h h.(contents) 0) (mk_fill h f c) = Ok (tt, mk_fill h0 f c)) as H0 by done.
  unfold readdir_fill_from_list. prun H0. prun_get. cbn [dh h0 with_written needlen].
  destruct (extend_run (mk_fill h0 f c) h.(needlen) Hwf Hmem Hn) as (m & Hext & Hm & Hml). prun Hext.
  change (0 =? -1) with false. cbv iota. cbn [df dconf dh with_contents h0 with_written first]. fold (skipped h off).
  assert (Forall short_name (zdrop (skipped h off) h.(first))) as Hs' by (by apply Forall_drop).
  set (h1 := with_contents h0 (Some m) (zlen m)).
  destruct (list_loop_run 0 f c eq_refl (zdrop (skipped h off) h.(first)) (skipped h off) h1 m) as
    (taken & rest & m' & Hrun & Hl & Hfit & Hm' & Htext & Hrest); [done | cbn [h1 with_contents h0 with_written len needlen]; lia |
    cbn [h1 with_contents h0 with_written needlen]; lia | apply Hn | done |].
  cbn [h1 with_contents h0 with_written len needlen] in *. rewrite Z.add_0_l in *.
  exists taken, rest, m'. split_and!; try done; [|lia | lia |].
  - rewrite Hrun. unfold paged, with_written, with_contents. cbn. by rewrite Hm'.
  - rewrite mem_read_in by lia. by rewrite zdrop_0, Htext.
Qed.

Section listing.
Context {os net : Type} `{Syscalls os} `{CurlEnv net}.
#[local] Abbreviation St := (fstate os (world net)).
#[local] Abbreviation libst := (lib (os := os) (A := world net)).
#[local] Abbreviation Fs := (fuse_fs St fill_state).
Implicit Types (s : libst) (t : St) (f : fuse).

(** A function on a handle that leaves the nodes. *)
Lemma on_dir_run {B} k (m : prog fill_state B) s d b d' : s.(dirs) !! k = Some d ->
  m (mk_fill d s.(lk).(lf) s.(conf)) = Ok (b, mk_fill d' s.(lk).(lf) s.(conf)) ->
  on_dir k m s = Ok (b, set_dirs (<[k := d']> s.(dirs)) s).
Proof.
  intros Hd Hm. unfold on_dir. prun_get. rewrite Hd. unfold pbind at 1, plift at 1. cbn [lift_fault obind].
  prun_lift Hm. destruct s as [[? ? ?] ? ? ? ? ? ? ?]. done.
Qed.

(** The second half of a request for a listing. *)
Lemma page_sent k h size off s : s.(dirs) !! k = Some h -> h.(filled) = true -> dh_wf h ->
  s.(lk).(lf).(memory) = [] -> 0 < size < 2 ^ 31 -> Forall short_name h.(first) -> exists taken rest m,
    (err <-- on_dir k (d <-- pget ;;
      if d.(dh).(filled) then set_dh (fun h => with_needlen h (u32 size)) ;;; readdir_fill_from_list off 0 else pret 0) ;;
     if negb (err =? 0) then reply_err err else reply_dir k) s =
    Ok (tt, log_reply (RBuf (cells (records (skipped h off) taken)))
      (set_dirs (<[k := paged h m (zlen (records (skipped h off) taken)) size]> s.(dirs)) s)) /\
    page_of h (skipped h off) size taken rest /\ 1024 <= zlen m < 2 ^ 32.
Proof.
  intros Hd Hfill Hwf Hmem Hsize Hs. set (h1 := with_needlen h size).
  destruct (fill_page h1 s.(lk).(lf) s.(conf) off Hwf Hmem Hsize Hs) as (taken & rest & m & Hrun & Hpage & Hml & Hread).
  exists taken, rest, m. split; [|done]. change (skipped h1 off) with (skipped h off) in *.
  erewrite pbind_run; [|apply (on_dir_run k _ s h 0 (paged h m (zlen (records (skipped h off) taken)) size)); [done|]].
  - change (0 =? 0) with true. cbv iota beta delta [negb]. unfold reply_dir. prun_get. cbn [dirs set_dirs].
    rewrite lookup_insert_eq. unfold pbind at 1, plift at 1. cbn [lift_fault obind paged contents len default]. prun_lift Hread.
    apply reply_run.
  - prun_get. cbn [dh]. rewrite Hfill, uwrap_small by lia.
    assert (set_dh (fun h => with_needlen h size) (mk_fill h s.(lk).(lf) s.(conf)) = Ok (tt, mk_fill h1 s.(lk).(lf) s.(conf))) as Hset by done.
    prun Hset. exact Hrun.
Qed.

(** ** Going on in a listing *)

Lemma next_page ino size off llfi h s : s.(dirs) !! llfi.(fh) = Some h -> h.(filled) = true -> dh_wf h -> off <> 0 ->
  s.(lk).(lf).(memory) = [] -> 0 < size < 2 ^ 31 -> Forall short_name h.(first) -> exists taken rest m,
    fuse_lib_readdir ino size off llfi s =
    Ok (tt, log_reply (RBuf (cells (records (skipped h off) taken)))
      (set_dirs (<[llfi.(fh) := paged h m (zlen (records (skipped h off) taken)) size]> s.(dirs)) s)) /\
    page_of h (skipped h off) size taken rest /\ 1024 <= zlen m < 2 ^ 32.
Proof.
  intros Hd Hfill Hwf Hoff Hmem Hsize Hs. destruct (page_sent llfi.(fh) h size off s Hd Hfill Hwf Hmem Hsize Hs) as
    (taken & rest & m & Hrun & Hpage). exists taken, rest, m. split; [|done].
  unfold fuse_lib_readdir, fuse_readdir_common, get_dirhandle. rewrite pbind_assoc. prun_get. rewrite Hd.
  rewrite pbind_assoc. unfold pbind at 1, plift at 1. cbn [lift_fault obind]. unfold pbind at 1. unfold pret at 1. cbn [obind].
  rewrite (proj2 (Z.eqb_neq _ _) Hoff). unfold pbind at 1. unfold pret at 1. cbn [obind]. rewrite Hfill. cbn [orb negb].
  unfold pbind at 1. unfold pret at 1. cbn [obind]. change (0 =? 0) with true. cbv iota beta delta [negb]. exact Hrun.
Qed.

(** ** Filling a handle from a directory of the program *)

(** What the program's names are in a handle. *)
Definition plain (name : list byte) : fuse_direntry := mk_direntry (with_st_ino stat_zero FUSE_UNKNOWN_INO) 0 name.

Definition listed (h : fuse_dh) (size : Z) (names : list (list byte)) : fuse_dh :=
  mk_dh h.(contents) (plain <$> names) 0 h.(dsize) size true h.(dfh) 0 h.(dnodeid).

(** The handle with one more name. *)
Definition with_name (h : fuse_dh) (name : list byte) : fuse_dh := with_first (with_filled h true) (h.(first) ++ [plain name]).

Lemma fill_dir_run h f c name : f.(memory) = [] -> c.(readdir_ino) = 0 ->
  fill_dir name None 0 0 (mk_fill h f c) = Ok (0, mk_fill (with_name h name) f c).
Proof.
  intros Hmem Hino. unfold fill_dir. change (is_set (Z.land 0 (Z.lnot FUSE_FILL_DIR_PLUS))) with false. cbv iota. prun_get.
  cbn [dconf dh]. rewrite Hino. change (is_set 0) with false. cbv iota.
  assert (forall (b : bool) (st : stat) d, (if b then pret (with_st_ino st FUSE_UNKNOWN_INO) else pret (with_st_ino (with_st_ino st FUSE_UNKNOWN_INO) FUSE_UNKNOWN_INO)) d =
    Ok (with_st_ino st FUSE_UNKNOWN_INO, d : fill_state)) as Hst by (by intros [] [] d).
  prun (Hst (is_set c.(use_ino)) stat_zero (mk_fill h f c)).
  assert (set_dh (fun h => with_filled h true) (mk_fill h f c) = Ok (tt, mk_fill (with_filled h true) f c)) as Hset by done. prun Hset.
  assert (FuseDirents.in_fuse allocates (mk_fill (with_filled h true) f c) = Ok (true, mk_fill (with_filled h true) f c)) as Hal
    by (unfold FuseDirents.in_fuse; cbn [df]; by rewrite (allocates_run f Hmem)).
  unfold fuse_add_direntry_to_dh. rewrite pbind_assoc. prun Hal. cbv iota beta delta [negb]. rewrite pbind_assoc. prun Hal. cbv iota beta delta [negb]. done.
Qed.

Lemma fill_names_run f c names : f.(memory) = [] -> c.(readdir_ino) = 0 -> forall h,
  fill (carry (fill_with 0)) (Ok (mk_fill h f c)) names = Ok (mk_fill (foldl with_name h names) f c).
Proof.
  intros Hmem Hino. unfold fill. induction names as [|x l IH]; intros h; [done|]. cbn [foldl].
  rewrite <- IH. f_equal. unfold carry, fill_with. change (is_set (Z.land 0 FUSE_READDIR_PLUS)) with false. cbv iota beta.
  by rewrite fill_dir_run.
Qed.

Lemma names_listed names : forall h, h.(filled) = true -> foldl with_name h names = with_first h (h.(first) ++ (plain <$> names)).
Proof.
  induction names as [|x l IH]; intros h Hf; cbn [foldl fmap list_fmap].
  - rewrite app_nil_r. by destruct h.
  - rewrite IH by done. unfold with_name, with_first. cbn. rewrite <- app_assoc. f_equal. by rewrite Hf.
Qed.

Lemma start_listed h size x l : 0 < size < 2 ^ 31 -> foldl with_name (dh_start h size) (x :: l) = listed h size (x :: l).
Proof. intros Hs. cbn [foldl]. rewrite names_listed by done. unfold listed, with_name, dh_start. cbn. by rewrite uwrap_small by lia. Qed.

(** The program's handler fills the handle. *)
Lemma call_readdir_run k h path fi names s w : s.(fsys) = hello_fs -> s.(dirs) !! k = Some h ->
  s.(lk).(lf).(memory) = [] -> s.(conf).(readdir_ino) = 0 ->
  (forall buf : outcome fill_state, hello_readdir path buf (carry (fill_with 0)) s.(fst).(app) = Ok (0, fill (carry (fill_with 0)) buf names, w)) ->
  call_readdir k (Some path) 0 fi 0 s =
    Ok (0, set_dirs (<[k := foldl with_name h names]> s.(dirs)) (set_fst (ran w s.(fst)) s)).
Proof.
  intros Hfs Hd Hmem Hino Hrun. unfold call_readdir. prun_get. rewrite Hd. unfold pbind at 1, plift at 1. cbn [lift_fault obind].
  assert (in_fs (fun fs => fuse_fs_readdir fs (Some path) (mk_fill h s.(lk).(lf) s.(conf)) (fill_with 0) 0 fi 0) s =
    Ok ((0, mk_fill (foldl with_name h names) s.(lk).(lf) s.(conf), fi), set_fst (ran w s.(fst)) s)) as Hcall.
  { apply in_fs_run. rewrite Hfs. unfold fuse_fs_readdir. cbn [hello_fs user_data op hello_oper op_readdir].
    prun (set_private_run s.(fst)). unfold oper_readdir, on_path.
    prun (in_app_run _ (HelloOper.entered s.(fst)) _ _ (Hrun (Ok (mk_fill h s.(lk).(lf) s.(conf))))).
    by rewrite fill_names_run. }
  prun Hcall. prun_get. by destruct s as [[? ? ?] ? ? ? ? ? ? ?].
Qed.

(** Filling, with the path of the directory found and given back. *)
Lemma readdir_fill_run f ino p size k h x l fi s w : ready f ->
  s.(lk) = alone f /\ s.(fsys) = hello_fs /\ follows_paths s.(conf) -> sees f ino p -> s.(conf).(readdir_ino) = 0 ->
  s.(dirs) !! k = Some h -> 0 < size < 2 ^ 31 ->
  (forall buf : outcome fill_state, hello_readdir p buf (carry (fill_with 0)) s.(fst).(app) = Ok (0, fill (carry (fill_with 0)) buf (x :: l), w)) ->
  readdir_fill ino size 0 k fi 0 s =
    Ok (0, set_dirs (<[k := listed h size (x :: l)]> s.(dirs)) (set_fst (ran w s.(fst)) s)).
Proof.
  intros Hf (Hs & Hfs & Hc) [_ (ps & Hat)] Hino Hd Hsize Hrun. pose proof (ready_shape f Hf) as Hsh.
  pose proof (good_memory f (rd_good f Hf)) as Hmem.
  unfold readdir_fill. prun_get. rewrite Hfs. cbn [hello_fs op hello_oper op_readdir FuseFs.given].
  prun (path_nullok_run f ino ps p s Hc Hsh Hat Hs). change (0 =? 0) with true. cbv iota.
  set (L := own ps None). set (s1 := set_lk (alone (locked f L)) s).
  assert (s1.(dirs) !! k = Some h) as Hd1 by done.
  prun (on_dir_run k (set_dh (fun h => dh_start h size)) s1 h tt (dh_start h size) Hd1 eq_refl). set (s2 := set_dirs (<[k := dh_start h size]> s1.(dirs)) s1).
  assert (s2.(dirs) !! k = Some (dh_start h size)) as Hd2 by apply lookup_insert_eq.
  prun (call_readdir_run k (dh_start h size) p fi (x :: l) s2 w Hfs Hd2 Hmem Hino Hrun). rewrite start_listed by done.
  set (s3 := set_dirs (<[k := listed h size (x :: l)]> s2.(dirs)) (set_fst (ran w s2.(fst)) s2)).
  assert (s3.(dirs) !! k = Some (listed h size (x :: l))) as Hd3 by apply lookup_insert_eq.
  assert (forall (m : prog fill_state Z), m (mk_fill (listed h size (x :: l)) s3.(lk).(lf) s3.(conf)) =
    Ok (0, mk_fill (listed h size (x :: l)) s3.(lk).(lf) s3.(conf)) ->
    on_dir k m s3 = Ok (0, set_dirs (<[k := listed h size (x :: l)]> s3.(dirs)) s3)) as Hend
    by (intros m Hm; by apply (on_dir_run k m s3 (listed h size (x :: l)))).
  erewrite pbind_run; [|by apply Hend]. erewrite pbind_run; [|apply (path_dropped f (node_at ino) ps p _ Hsh Hat); done].
  unfold pret. do 2 f_equal. rewrite <- (insert_insert_eq s.(dirs) k (listed h size (x :: l)) (dh_start h size)).
  rewrite <- Hs. unfold s3, s2, s1. destruct s. cbn. by rewrite !insert_insert_eq.
Qed.

Lemma first_page f ino p size llfi h x l s w : ready f ->
  s.(lk) = alone f /\ s.(fsys) = hello_fs /\ follows_paths s.(conf) -> sees f ino p -> s.(conf).(readdir_ino) = 0 ->
  s.(dirs) !! llfi.(fh) = Some h -> dh_wf h -> 0 < size < 2 ^ 31 -> Forall (fun y => short_name (plain y)) (x :: l) ->
  (forall buf : outcome fill_state, hello_readdir p buf (carry (fill_with 0)) s.(fst).(app) = Ok (0, fill (carry (fill_with 0)) buf (x :: l), w)) ->
  let h' := listed h size (x :: l) in exists taken rest m, fuse_lib_readdir ino size 0 llfi s =
    Ok (tt, log_reply (RBuf (cells (records 0 taken)))
      (set_dirs (<[llfi.(fh) := paged h' m (zlen (records 0 taken)) size]> s.(dirs)) (set_fst (ran w s.(fst)) s))) /\
    page_of h' 0 size taken rest /\ 1024 <= zlen m < 2 ^ 32.
Proof.
  intros Hf Hready Hsees Hino Hd Hwf Hsize Hshort Hrun h'. set (k := llfi.(fh)).
  set (s0 := set_dirs (<[k := with_filled h false]> s.(dirs)) s).
  assert (s0.(dirs) !! k = Some (with_filled h false)) as Hd0 by apply lookup_insert_eq.
  pose proof (readdir_fill_run f ino p size k (with_filled h false) x l (Some (with_fh file_info_zero h.(dfh))) s0 w Hf Hready Hsees Hino Hd0 Hsize Hrun) as Hfill.
  change (listed (with_filled h false) size (x :: l)) with h' in Hfill.
  set (s1 := set_dirs (<[k := h']> s0.(dirs)) (set_fst (ran w s0.(fst)) s0)) in *.
  assert (s1.(dirs) !! k = Some h') as Hd1 by apply lookup_insert_eq.
  assert (s1.(lk).(lf).(memory) = []) as Hmem by (destruct Hready as (Hs & _); cbn [s1 lk set_dirs set_fst s0]; rewrite Hs; apply Hf).
  destruct (page_sent k h' size 0 s1 Hd1 eq_refl Hwf Hmem Hsize) as (taken & rest & m & Hpage & Hp & Hm).
  { cbn [h' listed first]. by rewrite Forall_fmap. }
  assert (skipped h' 0 = 0) as Hsk by (unfold skipped; lia). rewrite Hsk in *.
  exists taken, rest, m. split; [|done]. unfold fuse_lib_readdir, fuse_readdir_common, get_dirhandle. rewrite pbind_assoc. prun_get.
  fold k in Hd |- *. rewrite Hd. rewrite pbind_assoc. unfold pbind at 1, plift at 1. cbn [lift_fault obind]. unfold pbind at 1. unfold pret at 1. cbn [obind].
  change (0 =? 0) with true. cbv iota. assert (on_dir k (set_dh (fun h => with_filled h false)) s = Ok (tt, s0)) as Hclear
    by (by apply (on_dir_run k _ s h)).
  prun Hclear. cbn [orb]. prun Hfill. change (0 =? 0) with true. cbv iota beta delta [negb].
  etransitivity; [exact Hpage|]. do 3 f_equal. unfold s1, s0. cbn. by rewrite !insert_insert_eq.
Qed.

(** ** Reading page after page *)

(** The kernel's reading of a reply. *)
Definition read_reply (r : option FuseLib.reply) : option (list seen_entry) :=
  match r with Some (RBuf m) => b ← init_bytes m; read_entries (S (length b)) b | _ => None end.

(** Listings are read until one is empty; the next starts at the offset of the last
    entry. *)
Fixpoint list_dir (fuel : nat) (ino size off : Z) (llfi : fuse_file_info) : prog libst (list seen_entry) :=
  match fuel with O => pfail OutOfFuel | S fuel =>
    fuse_lib_readdir ino size off llfi ;;;
    s <-- pget ;;
    match read_reply (head s.(replies)) with
    | Some (e :: l) =>
        rest <-- list_dir fuel ino size (List.last (e :: l) e).(s_off) llfi ;; pret ((e :: l) ++ rest)
    | _ => pret []
    end
  end.

Definition seen_from (pos : Z) (l : list fuse_direntry) : list seen_entry := imap (fun i de => seen (pos + Z.of_nat i + 1) de) l.

Lemma seen_from_app pos l l' : seen_from pos (l ++ l') = seen_from pos l ++ seen_from (pos + zlen l) l'.
Proof. unfold seen_from. rewrite imap_app. f_equal. apply imap_ext. intros i x _. f_equal. lia. Qed.

Lemma records_length l : forall pos, Forall short_name l -> (length l <= length (records pos l))%nat.
Proof.
  induction l as [|de l IH]; intros pos Hs; [done|]. apply Forall_cons in Hs as [Hde Hs]. cbn [records length]. rewrite length_app.
  pose proof (short_record de.(de_stat).(st_ino) (pos + 1) de Hde). specialize (IH (pos + 1) Hs). lia.
Qed.

Lemma read_page pos l : Forall short_name l -> read_reply (Some (RBuf (cells (records pos l)))) = Some (seen_from pos l).
Proof.
  intros Hs. unfold read_reply. rewrite init_bytes_cells. cbn [mbind option_bind]. apply read_records; [|done].
  pose proof (records_length l pos Hs). lia.
Qed.

(** The offset at which the next page starts. *)
Lemma last_seen pos l e l' : 0 <= pos -> pos + zlen l < 2 ^ 63 -> seen_from pos l = e :: l' -> (List.last (e :: l') e).(s_off) = pos + zlen l.
Proof.
  intros Hp Hl Hs. destruct l as [|x l0 _] using rev_ind; [done|].
  rewrite <- Hs, seen_from_app. cbn. rewrite last_last. cbn. rewrite length_app in *. cbn in *. rewrite Z.mod_small by lia. lia.
Qed.

(** What reading a listing leaves. *)
Definition listing_left s s' (t : St) : Prop :=
  s'.(lk) = s.(lk) /\ s'.(fst) = t /\ s'.(fsys) = s.(fsys) /\ s'.(conf) = s.(conf) /\ exists n, s'.(answers) = drop n s.(answers).

(** An entry fits into a page. *)
Definition fits (size : Z) (de : fuse_direntry) : Prop := FUSE_REC_ALIGN (FUSE_NAME_OFFSET + zlen de.(de_name)) <= size.

Lemma page_moves h k size taken rest : Forall (fits size) h.(first) -> page_of h k size taken rest -> zdrop k h.(first) <> [] -> taken <> [].
Proof.
  intros Hfit (Hl & _ & Hrest) Hne ->. destruct rest as [|de rest]; [by rewrite Hl in Hne|].
  specialize (Hrest de rest eq_refl). rewrite app_nil_l in Hrest. cbn [records] in Hrest. rewrite app_nil_r, zlen_record in Hrest.
  assert (de ∈ h.(first)) as Hde by (rewrite <- (ztake_zdrop k h.(first)), Hl; apply elem_of_app; right; by left).
  rewrite Forall_forall in Hfit. specialize (Hfit de Hde). unfold fits in Hfit. lia.
Qed.

(** What is left of a list behind a page. *)
Lemma page_rest h k size taken rest : 0 <= k <= zlen h.(first) -> page_of h k size taken rest ->
  rest = zdrop (k + zlen taken) h.(first) /\ k + zlen taken <= zlen h.(first).
Proof.
  intros Hk (Hl & _). split.
  - rewrite <- (zdrop_zdrop (zlen taken) k) by lia. rewrite Hl. by rewrite zdrop_app_exact.
  - pose proof (zlen_zdrop k h.(first) Hk) as Hz. rewrite Hl, zlen_app in Hz. lia.
Qed.

Lemma listing_went_on s s1 s' r d t t1 : s1 = log_reply r (set_dirs d (set_fst t1 s)) -> listing_left s1 s' t -> listing_left s s' t.
Proof. intros -> (? & ? & ? & ? & n & Hn). split_and!; try done. exists (S n). rewrite Hn. cbn. by rewrite drop_drop. Qed.

(** From a page on: what it shows and what the pages behind it show. *)
Lemma list_step fuel ino size off llfi h k taken rest s s1 r d t1 : Forall short_name h.(first) -> Forall (fits size) h.(first) ->
  zlen h.(first) < 2 ^ 63 -> 0 <= k <= zlen h.(first) -> page_of h k size taken rest -> r = RBuf (cells (records k taken)) ->
  fuse_lib_readdir ino size off llfi s = Ok (tt, s1) -> s1 = log_reply r (set_dirs d (set_fst t1 s)) ->
  (zdrop k h.(first) <> [] -> taken <> [] -> exists s', list_dir fuel ino size (k + zlen taken) llfi s1 =
    Ok (seen_from (k + zlen taken) (zdrop (k + zlen taken) h.(first)), s') /\ listing_left s1 s' t1) ->
  exists s', list_dir (S fuel) ino size off llfi s = Ok (seen_from k (zdrop k h.(first)), s') /\ listing_left s s' t1.
Proof.
  intros Hs Hfit Hmax Hk Hpage -> Hrun Hs1 Hgo. pose proof (page_rest h k size taken rest Hk Hpage) as [Hrest Hle].
  assert (Forall short_name taken) as Hst.
  { destruct Hpage as (Hl & _). assert (Forall short_name (zdrop k h.(first))) as Hz by (by apply Forall_drop). rewrite Hl in Hz.
    by apply Forall_app in Hz as [Hz _]. }
  cbn [list_dir]. prun Hrun. prun_get. rewrite Hs1. cbn [log_reply replies head]. rewrite read_page by done.
  destruct (zdrop k h.(first)) as [|de0 l0] eqn:Hz.
  - destruct Hpage as (Hl & _). rewrite Hz in Hl. symmetry in Hl. apply app_eq_nil in Hl as [-> _].
    cbn. eexists. split; [done|]. split_and!; try done. by exists 1%nat.
  - assert (taken <> []) as Hne by (apply (page_moves h k size taken rest Hfit Hpage); by rewrite Hz).
    destruct (Hgo ltac:(done) Hne) as (s' & Hnext & Hleft).
    destruct (seen_from k taken) as [|e l'] eqn:He; [by destruct taken|]. rewrite (last_seen k taken e l') by (done || lia).
    rewrite <- Hs1. prun Hnext. exists s'. split; [|by apply (listing_went_on s s1 s' _ d t1 t1 Hs1)].
    unfold pret. rewrite <- He, <- Hrest, <- seen_from_app. destruct Hpage as (Hl & _). rewrite <- Hz, Hl. done.
Qed.

(** Behind the first page, a filled handle gives the rest of its list. *)
Lemma rest_listed ino size llfi : 0 < size < 2 ^ 31 -> forall n k h s fuel, s.(dirs) !! llfi.(fh) = Some h -> h.(filled) = true -> dh_wf h ->
  s.(lk).(lf).(memory) = [] -> Forall short_name h.(first) -> Forall (fits size) h.(first) -> zlen h.(first) < 2 ^ 63 ->
  0 < k <= zlen h.(first) -> zlen h.(first) - k < Z.of_nat n -> (n <= fuel)%nat ->
  exists s', list_dir fuel ino size k llfi s = Ok (seen_from k (zdrop k h.(first)), s') /\ listing_left s s' s.(fst).
Proof.
  intros Hsize n. induction n as [|n IH]; intros k h s fuel Hd Hfill Hwf Hmem Hs Hfit Hmax Hk Hn Hfuel; [lia|].
  destruct fuel as [|fuel]; [lia|]. destruct (next_page ino size k llfi h s Hd Hfill Hwf ltac:(lia) Hmem Hsize Hs) as (taken & rest & m & Hrun & Hpage & Hm).
  assert (skipped h k = k) as Hsk by (unfold skipped; lia). rewrite Hsk in *.
  assert (set_fst s.(fst) s = s) as Hsame by (by destruct s).
  eapply (list_step fuel ino size k llfi h k taken rest s _ _ _ s.(fst) Hs Hfit Hmax ltac:(lia) Hpage eq_refl Hrun); [by rewrite Hsame|].
  intros _ Hne. set (h1 := paged h m (zlen (records k taken)) size).
  pose proof (page_rest h k size taken rest ltac:(lia) Hpage) as [_ Hle].
  assert (0 < zlen taken) by (destruct taken; [done | cbn; lia]).
  match goal with |- exists s', list_dir _ _ _ _ _ ?s1 = _ /\ _ => change (exists s', list_dir fuel ino size (k + zlen taken) llfi s1 =
    Ok (seen_from (k + zlen taken) (zdrop (k + zlen taken) h1.(first)), s') /\ listing_left s1 s' s1.(fst)) end.
  apply IH; try done; [apply lookup_insert_eq | cbn [h1 paged first]; lia | cbn [h1 paged first]; lia | lia].
Qed.

(** From its start, a listing of a directory of the program shows its names. *)
Lemma whole_listed f ino p size llfi h x l s w fuel : ready f ->
  s.(lk) = alone f /\ s.(fsys) = hello_fs /\ follows_paths s.(conf) -> sees f ino p -> s.(conf).(readdir_ino) = 0 ->
  s.(dirs) !! llfi.(fh) = Some h -> dh_wf h -> 0 < size < 2 ^ 31 -> Forall (fun y => short_name (plain y)) (x :: l) ->
  Forall (fun y => fits size (plain y)) (x :: l) -> zlen (x :: l) < 2 ^ 63 -> (length (x :: l) < fuel)%nat ->
  (forall buf : outcome fill_state, hello_readdir p buf (carry (fill_with 0)) s.(fst).(app) = Ok (0, fill (carry (fill_with 0)) buf (x :: l), w)) ->
  exists s', list_dir fuel ino size 0 llfi s = Ok (seen_from 0 (plain <$> x :: l), s') /\ listing_left s s' (ran w s.(fst)).
Proof.
  intros Hf Hready Hsees Hino Hd Hwf Hsize Hshort Hfit Hmax Hfuel Hrun. destruct fuel as [|fuel]; [lia|].
  destruct (first_page f ino p size llfi h x l s w Hf Hready Hsees Hino Hd Hwf Hsize Hshort Hrun) as (taken & rest & m & Hpage & Hp & Hm).
  set (h' := listed h size (x :: l)) in *.
  assert (Forall short_name h'.(first)) as Hs by (cbn [h' listed first]; by rewrite Forall_fmap).
  assert (Forall (fits size) h'.(first)) as Hf' by (cbn [h' listed first]; by rewrite Forall_fmap).
  assert (zlen h'.(first) = zlen (x :: l)) as Hlen by (cbn [h' listed first]; by rewrite length_fmap).
  assert (s.(lk).(lf).(memory) = []) as Hmem by (destruct Hready as (-> & _); apply Hf).
  change (plain <$> x :: l) with (zdrop 0 h'.(first)).
  eapply (list_step fuel ino size 0 llfi h' 0 taken rest s _ _ _ _ Hs Hf' ltac:(lia) ltac:(lia) Hp eq_refl Hpage); [done|].
  intros _ Hne. pose proof (page_rest h' 0 size taken rest ltac:(lia) Hp) as [_ Hle]. assert (0 < zlen taken) by (destruct taken; [done | cbn; lia]).
  rewrite Z.add_0_l in *. set (h1 := paged h' m (zlen (records 0 taken)) size).
  match goal with |- exists s', list_dir _ _ _ _ _ ?s1 = _ /\ _ => change (exists s', list_dir fuel ino size (zlen taken) llfi s1 =
    Ok (seen_from (zlen taken) (zdrop (zlen taken) h1.(first)), s') /\ listing_left s1 s' s1.(fst)) end.
  apply (rest_listed ino size llfi Hsize fuel); try done; [apply lookup_insert_eq | cbn [h1 paged first]; lia..].
Qed.

End listing.
End FuseListing.
