(* ===== verification/KernelProps.v ===== *)
(** Properties of the requests libfuse serves, and of the program behind them as the
    kernel sees it: C13 to C14. *)
From S2P Require Import Prelude.
From S2P Require Import CLib.
From S2P Require Import TgFile.
From S2P Require Import TgStorage.
From S2P Require Import TgApi.
From S2P Require Import Telegram.
From S2P Require Import FuseTypes.
From S2P Require Import Hello.
From S2P Require Import HelloFacts.
From S2P Require Import FuseBuf.
From S2P Require Import FuseBufFacts.
From S2P Require Import FuseFs.
From S2P Require Import HelloOper.
From S2P Require Import MemFs.
From S2P Require Import Refine.
From S2P Require Import Toy.
From S2P Require Import FuseNodes.
From S2P Require Import FuseNodesFacts.
From S2P Require Import FusePaths.
From S2P Require Import FusePathsFacts.
From S2P Require Import FuseQueue.
From S2P Require Import FuseTree.
From S2P Require Import FuseTreeOps.
From S2P Require Import FuseQueueFacts.
From S2P Require Import TreeProps.
From S2P Require Import FuseDirents.
From S2P Require Import FuseLibFacts.
From S2P Require Import FuseLib.
From S2P Require Import FuseServe.
From S2P Require Import KernelFs.
From S2P Require Import FuseListing.
From Stdlib Require Import QArith.
#[global] Close Scope Q_scope.
#[global] Open Scope Z_scope.
#[global] Open Scope c_scope.
#[global] Open Scope prog_scope.

Module KernelProps.
Import TgFile TgStorage TgApi Telegram FuseTypes Hello HelloFacts FuseBuf FuseBufFacts FuseFs HelloOper MemFs Refine Toy Samples
  FuseNodes FuseNodesFacts FusePaths FusePathsFacts FuseQueue FuseTree FuseTreeOps FuseQueueFacts TreeProps FuseDirents FuseDirsFacts
  FuseLib FuseLibFacts FuseServe KernelFs FuseListing.

(** ** The whole system *)

(** What the kernel starts with: the directory "/", by the number of the root. *)
Definition k_start : kstate := mk_kstate {[ lit "/" := ADir ]} {[ FUSE_ROOT_ID := lit "/" ]}.

Section system.
Context {os net : Type} `{Syscalls os} `{CurlEnv net} {tok chat : list byte} `{!Telegram net tok chat}.
#[local] Abbreviation libst := (lib (os := os) (A := world net)).

(** The library with the program behind it, before the first request. *)
Definition lib_start (f : fuse) (w : world net) (c : fuse_config) (h : gmap Z (list cell)) (o : os) (sends : list Z) : libst :=
  mk_lib (alone f) (mk_fstate (mk_bstate h o) 0 w) hello_fs c 0 ∅ sends [].

Lemma lib_start_serving c h o sends f w0 q n : ready f -> spare n f -> numbering f k_start.(numbers) -> follows_paths c ->
  Forall (fun a => a <> - ENOENT) sends -> R (tok := tok) (chat := chat) q w0 k_start.(files) ->
  serving (tok := tok) (chat := chat) c h q n (lib_start f w0 c h o sends) k_start.
Proof.
  intros Hf Hsp Hnum Hc Hsends HR. refine (mk_serving c h q n (lib_start f w0 c h o sends) k_start _ eq_refl eq_refl Hc Hsends HR eq_refl).
  exists f. exact (conj Hf (conj Hsp (conj eq_refl Hnum))).
Qed.

(** C13: started by main with a token and a chat of fewer than 100 bytes on a server
    that keeps its contract, with the tree of
    fuse_new and options under which requests carry paths and absent names are not
    cached, libfuse serves the kernel's requests, each chosen by the replies before it,
    without a fault and with one reply each, and the replies are those of a file system
    in memory whose paths have numbers, where a number names one path and a path has one
    number.  The kernel keeps a contract ([k_fair], [k_admissible]).  It sends lookup,
    getattr, mkdir, create, read and write about numbers it was told; names hold no
    slash, are not empty and, looked up, neither "." nor ".."; mkdir and create only name what is not
    there yet, with a path of fewer than 100 bytes, as long as the table can grow; paths stay below 2^31 bytes; a
    write has data, to a file (or a directory, which is refused), and starts
    within the file or at its end; sizes fit an int and offsets stay below 2^62; and in
    all there are no more writes than the server takes uploads, and no more than
    2^32-4 lookups, mkdirs and creates.  It does not give a request up before its reply. *)
Theorem kernel_refined clock c h o sends n m (kernel : list (krequest * FuseLib.reply) -> krequest) :
  good_config (tok := tok) (chat := chat) -> follows_paths c -> Qeq_bool c.(negative_timeout) 0%Q = true ->
  Forall (fun a => a <> - ENOENT) sends -> 0 <= tg_quota n -> k_fair c h m (tg_quota n) (2 ^ 32 - 4) kernel [] k_start ->
  exists w0 f answered s' k', main_setup chat tok n = Ok w0 /\ fuse_new_nodes 0 clock true true [] = Ok (Some f) /\
    session m kernel [] (lib_start f w0 c h o sends) = Ok (answered, s') /\
    k_session c h m kernel [] k_start answered k' /\ s'.(replies) = rev answered.*2 /\
    exists q' n', serving (tok := tok) (chat := chat) c h q' n' s' k'.
Proof.
  intros Hg Hc Hneg Hsends Hq Hfair. destruct (setup_R n Hg) as (w0 & Hsetup & HR).
  destruct (new_ready clock) as (f & Hnew & Hf & Hnum & Hsp).
  pose proof (lib_start_serving c h o sends f w0 _ _ Hf Hsp Hnum Hc Hsends HR) as Hsv.
  destruct (sim_session c h Hneg kernel m _ _ [] _ _ Hsv Hq ltac:(lia) Hfair) as (new & s' & k' & q' & n' & Hses & Hk & Hsv' & Hrep).
  exists w0, f, new, s', k'. rewrite Hrep, app_nil_r. split_and!; try exact eq_refl; try assumption. by exists q', n'.
Qed.

(** ** Directories *)

Lemma basename_short x : zlen (basename x) <= zlen x.
Proof. induction x as [|b x IH]; [done|]. cbn [basename]. repeat case_decide; cbn [length]; lia. Qed.

(** What the program's handler does for a directory. *)
Lemma dir_run q w m p : R (tok := tok) (chat := chat) q w m -> NUL ∉ p -> m !! p = Some ADir -> exists names,
  (forall D (filler : D -> list byte -> Z * D) buf, hello_readdir p buf filler w = Ok (0, fill filler buf (lit "." :: lit ".." :: names), w)) /\
  names ≡ₚ basename <$> children m p /\ Forall (fun x => zlen x < FILE_PATH_SIZE) names /\ zlen names < 2 ^ 31.
Proof.
  intros (fs & (Hrep & _ & _ & _ & Hnd & _) & -> & _) Hp Hm. exists (dir_names p fs). split_and!.
  - intros D filler buf. by rewrite (readdir_spec filler w fs p buf Hrep Hp), (is_dir_node w fs p), Hm.
  - symmetry. by apply children_abs.
  - apply Forall_forall. intros x (f & -> & [_ Hf]%list_elem_of_filter)%list_elem_of_fmap.
    destruct Hrep as (rest & _ & _ & _ & _ & Hwf). rewrite Forall_forall in Hwf. destruct (wf_path f (Hwf f Hf)) as (x & Hx & _ & _ & Hl).
    unfold TgFile.path_of, str_of. rewrite Hx. pose proof (basename_short x). lia.
  - destruct Hrep as (rest & _ & Hcap & Hmax & _). unfold dir_names. rewrite length_fmap.
    pose proof (length_filter (in_dir p) fs). unfold INT_MAX in Hmax. lia.
Qed.

(** What is seen of a list that starts at its front. *)
Lemma seen_names pos l : s_name <$> seen_from pos (plain <$> l) = l.
Proof.
  unfold seen_from. rewrite fmap_imap. revert pos. induction l as [|x l IH]; intros pos; [done|]. cbn. f_equal.
  rewrite <- (IH (pos + 1)) at 2. apply imap_ext. intros i y _. done.
Qed.

Lemma seen_offsets l : zlen l < 2 ^ 63 -> s_off <$> seen_from 0 l = seqZ 1 (zlen (seen_from 0 l)).
Proof.
  intros Hl. unfold seen_from. rewrite fmap_imap, length_imap. apply list_eq. intros i. rewrite list_lookup_imap.
  destruct (decide (i < length l)%nat) as [Hi|Hi].
  - destruct (lookup_lt_is_Some_2 l i Hi) as [x Hx]. rewrite Hx. cbn. rewrite Z.mod_small by lia. symmetry. apply lookup_seqZ. lia.
  - rewrite (lookup_ge_None_2 l) by lia. symmetry. apply lookup_ge_None_2. rewrite length_seqZ. lia.
Qed.

(** A name of a file is short. *)
Lemma plain_fits x size : zlen x < FILE_PATH_SIZE -> 128 <= size -> short_name (plain x) /\ fits size (plain x).
Proof.
  unfold short_name, fits, FILE_PATH_SIZE, FUSE_NAME_OFFSET. cbn [plain de_name]. intros Hx Hs. split; [lia|].
  rewrite rec_align by lia. pose proof (Z.mul_div_le (24 + zlen x + 7) 8). lia.
Qed.

(** C14: the kernel reads a directory page after page, each from the offset of the
    last entry it has, until a page is empty: in pages of any size from 128 bytes
    on it gets the two dot entries and each child of the directory once, numbered in
    order, and nothing else changes. *)
Theorem directory_listed c h q n (s : libst) k ino p llfi hd size fuel :
  serving (tok := tok) (chat := chat) c h q n s k -> c.(readdir_ino) = 0 -> k.(numbers) !! ino = Some p -> k.(files) !! p = Some ADir ->
  s.(dirs) !! llfi.(fh) = Some hd -> dh_wf hd -> 128 <= size < 2 ^ 31 -> (length (children k.(files) p) + 2 < fuel)%nat ->
  exists entries s', list_dir fuel ino size 0 llfi s = Ok (entries, s') /\
    s_name <$> entries ≡ₚ [lit "."; lit ".."] ++ (basename <$> children k.(files) p) /\
    s_off <$> entries = seqZ 1 (zlen entries) /\ serving (tok := tok) (chat := chat) c h q n s' k.
Proof.
  intros Hsv Hino Hnum Hdir Hd Hwf Hsize Hfuel. pose proof Hsv as [(f & Hf & Hsp & Hs & HK) Hfs Hc Hfol Ha HR Hh].
  pose proof (proj1 (HK ino p) Hnum) as Hsees. rewrite <- Hc in Hfol, Hino.
  destruct (dir_run q s.(fst).(app) k.(files) p HR (sees_text f ino p Hsees) Hdir) as (names & Hrun & Hnames & Hshort & Hmany).
  set (all := lit "." :: lit ".." :: names) in *.
  assert (Forall (fun x => short_name (plain x) /\ fits size (plain x)) all) as Hall.
  { assert (forall x, zlen x < FILE_PATH_SIZE -> short_name (plain x) /\ fits size (plain x)) as Hfit by (intros x Hx; apply plain_fits; [done | lia]).
    unfold all. do 2 (apply Forall_cons; split; [by apply Hfit|]).
    eapply Forall_impl; [exact Hshort|]. exact Hfit. }
  apply Forall_and in Hall as [Hs1 Hs2]. assert (length all = length (children k.(files) p) + 2)%nat as Hlen.
  { unfold all. cbn [length]. rewrite Hnames, length_fmap. lia. }
  destruct (whole_listed f ino p size llfi hd (lit ".") (lit ".." :: names) s s.(fst).(app) fuel Hf (conj Hs (conj Hfs Hfol)) Hsees Hino Hd Hwf
    ltac:(lia) Hs1 Hs2 ltac:(cbn [length]; lia) ltac:(unfold all in Hlen; rewrite Hlen; lia) (fun buf => Hrun _ _ buf))
    as (s' & Hlist & Hleft).
  eexists _, s'. split; [exact Hlist|]. split_and!.
  - rewrite seen_names. unfold all. by rewrite Hnames.
  - apply seen_offsets. rewrite length_fmap. fold all. unfold all. cbn [length]. lia.
  - destruct Hleft as (El & Et & Ef & Ec & j & Ea). split; rewrite ?El, ?Et, ?Ef, ?Ec; try done; [by exists f | by rewrite <- Hc|].
    rewrite Ea. by apply Forall_drop.
Qed.

(** ** Listings with attributes *)

(** When memory runs out while an entry of a listing with attributes is looked
    up, the kernel is not told ENOMEM: readdir_fill_from_list returns 1, which is
    no error number, and the reply becomes ERANGE. *)
Theorem plus_error_lost ino size off llfi (s : libst) h m de rest f' :
  s.(dirs) !! llfi.(fh) = Some h -> h.(filled) = true -> off <> 0 -> h.(contents) = Some m -> 0 < size <= h.(dsize) -> size < 2 ^ 31 ->
  zdrop (skipped h off) h.(first) = de :: rest -> is_set (Z.land de.(de_flags) FUSE_FILL_DIR_PLUS) = true ->
  is_dot_or_dotdot de.(de_name) = false -> find_node h.(dnodeid) (Some de.(de_name)) s.(lk).(lf) = Ok (None, f') ->
  exists s' h', fuse_lib_readdirplus ino size off llfi s = Ok (tt, s') /\ s'.(replies) = RErr (- ERANGE) :: s.(replies) /\
    s'.(dirs) !! llfi.(fh) = Some h' /\ h'.(error) = - ENOMEM.
Proof.
  intros Hd Hfill Hoff Hc Hsize Hmax Hl Hplus Hdot Hfind. set (k := llfi.(fh)) in *.
  set (h1 := with_written (with_needlen h size) (Some m) 0).
  assert (extend_contents size (mk_fill h1 s.(lk).(lf) s.(conf)) = Ok (0, mk_fill h1 s.(lk).(lf) s.(conf))) as Hext.
  { unfold extend_contents. prun_get. cbn [dh h1 with_written with_needlen dsize]. by rewrite (proj2 (Z.ltb_ge _ _)) by lia. }
  assert (do_lookup s.(conf) h.(dnodeid) (Some de.(de_name)) (with_e_attr entry_zero de.(de_stat)) s.(lk).(lf) =
    Ok (- ENOMEM, with_e_attr entry_zero de.(de_stat), f')) as Hlook by (unfold do_lookup; by prun Hfind).
  assert ((d <-- pget ;; if d.(dh).(filled)
    then FuseDirents.set_dh (fun h => with_needlen h (u32 size)) ;;; readdir_fill_from_list off FUSE_READDIR_PLUS else pret 0)
    (mk_fill h s.(lk).(lf) s.(conf)) = Ok (1, mk_fill (with_error h1 (- ENOMEM)) f' s.(conf))) as Hpage.
  { prun_get. cbn [dh]. rewrite Hfill, uwrap_small by lia. unfold readdir_fill_from_list.
    unfold FuseDirents.set_dh at 1 2, pbind at 1 2. cbn [obind dh df dconf]. prun_get.
    cbn [dh with_written with_needlen needlen first]. change (contents (with_needlen h size)) with h.(contents). rewrite Hc. fold h1.
    prun Hext. change (0 =? -1) with false. cbv iota. fold (skipped h off). rewrite Hl. cbn [list_loop]. prun_get.
    change (is_set (Z.land FUSE_READDIR_PLUS FUSE_READDIR_PLUS)) with true. rewrite Hplus, Hdot. cbn [andb negb dh df dconf h1 with_written with_needlen dnodeid].
    unfold FuseDirents.in_fuse, pbind at 1. cbn [df dh dconf]. rewrite Hlook. reflexivity. }
  assert (on_dir k (d <-- pget ;; if d.(dh).(filled)
    then FuseDirents.set_dh (fun h => with_needlen h (u32 size)) ;;; readdir_fill_from_list off FUSE_READDIR_PLUS else pret 0) s =
    Ok (1, set_dirs (<[k := with_error h1 (- ENOMEM)]> s.(dirs)) (set_lk (mk_locker f' s.(lk).(lockq) s.(lk).(signals)) s))) as Hon.
  { unfold on_dir. prun_get. rewrite Hd. unfold pbind at 1, plift at 1. cbn [lift_fault obind]. by prun_lift Hpage. }
  eexists _, (with_error h1 (- ENOMEM)). split_and!.
  - unfold fuse_lib_readdirplus, fuse_readdir_common, get_dirhandle. rewrite pbind_assoc. prun_get. fold k. rewrite Hd.
    rewrite pbind_assoc. unfold pbind at 1, plift at 1. cbn [lift_fault obind]. unfold pbind at 1. unfold pret at 1. cbn [obind].
    rewrite (proj2 (Z.eqb_neq _ _) Hoff). unfold pbind at 1. unfold pret at 1. cbn [obind]. rewrite Hfill. cbn [orb negb].
    unfold pbind at 1. unfold pret at 1. cbn [obind]. change (negb (0 =? 0)) with false. cbv iota. prun Hon. reflexivity.
  - reflexivity.
  - apply lookup_insert_eq.
  - reflexivity.
Qed.

(** An entry of a listing with attributes is looked up before it is known
    whether its record fits; when it does not, nothing of it is sent, but the
    lookup stays counted, and the kernel will never forget it. *)
Theorem unsent_entry_counted d de l pos m p n :
  d.(dh).(contents) = Some m -> 0 <= d.(dh).(len) <= d.(dh).(needlen) -> d.(dh).(needlen) <= zlen m -> d.(dh).(needlen) < 2 ^ 31 ->
  is_set (Z.land de.(de_flags) FUSE_FILL_DIR_PLUS) = true -> is_dot_or_dotdot de.(de_name) = false -> zlen de.(de_name) < 2 ^ 30 ->
  d.(dh).(needlen) < d.(dh).(len) + FUSE_REC_ALIGN (FUSE_NAME_OFFSET_DIRENTPLUS + zlen de.(de_name)) ->
  tree d.(df) -> d.(df).(nodes) !! p = Some n -> n.(nlookup) < 2 ^ 64 - 1 -> named d.(df) d.(dh).(dnodeid) de.(de_name) p ->
  exists f' n', list_loop (de :: l) pos FUSE_READDIR_PLUS d = Ok (0, mk_fill d.(dh) f' d.(dconf)) /\
    f'.(nodes) !! p = Some n' /\ n'.(nlookup) = n.(nlookup) + 1.
Proof.
  intros Hc Hlen Hm Hmax Hplus Hdot Hname Hfull Ht Hn Hl Hp. destruct d as [h f c]. cbn [dh df dconf] in *.
  destruct (find_node_known f h.(dnodeid) (Some de.(de_name)) p n Ht Hn Hl Hp) as (f1 & Hfind & _ & Hns & _).
  assert (f1.(nodes) !! p = Some (looked_up n)) as Hn1 by (by rewrite Hns, lookup_insert_eq).
  set (e := with_e_attr entry_zero de.(de_stat)).
  assert (exists f' n' e', do_lookup c h.(dnodeid) (Some de.(de_name)) e f = Ok (0, e', f') /\ f'.(nodes) !! p = Some n' /\
    n'.(nlookup) = n.(nlookup) + 1) as (f' & n' & e' & Hlook & Hn' & Hcnt).
  { unfold do_lookup. rewrite (pbind_run _ _ _ _ _ Hfind), (pbind_run _ _ _ _ _ (load_node_run f1 p _ Hn1)). cbv zeta. destruct (is_set c.(auto_cache)).
    - unfold update_stat. rewrite pbind_assoc. prun_get. rewrite pbind_assoc. prun (load_node_run f1 p _ Hn1).
      eexists _, _, _. split; [by prun (store_node_run f1 p _ (with_file (looked_up n) (updated f1.(now) (looked_up n).(file) e.(e_attr))) Hn1)|].
      split; [apply lookup_insert_eq | done].
    - eexists f1, _, _. by split. }
  exists f', n'. split; [|done]. cbn [list_loop]. prun_get. change (is_set (Z.land FUSE_READDIR_PLUS FUSE_READDIR_PLUS)) with true.
  rewrite Hplus, Hdot. cbn [andb negb dh dconf]. fold e.
  assert (FuseDirents.in_fuse (do_lookup c h.(dnodeid) (Some de.(de_name)) e) (mk_fill h f c) = Ok (0, e', mk_fill h f' c)) as Hin
    by (unfold FuseDirents.in_fuse; cbn [df]; by rewrite Hlook).
  prun Hin. change (is_set 0) with false. cbv iota. prun_get. cbn [dh]. rewrite Hc, uwrap_small by lia.
  set (n0 := FUSE_REC_ALIGN (FUSE_NAME_OFFSET_DIRENTPLUS + zlen de.(de_name))) in *.
  assert (0 <= n0 < 2 ^ 31) as Hn0.
  { pose proof (padding_range (FUSE_NAME_OFFSET_DIRENTPLUS + zlen de.(de_name))) as Hpad. unfold n0, padding, FUSE_NAME_OFFSET_DIRENTPLUS in *. lia. }
  assert (fuse_add_direntry_plus (Some m) h.(len) (h.(needlen) - h.(len)) de.(de_name) e' (pos + 1) = Ok (n0, Some m)) as Hadd
    by (unfold fuse_add_direntry_plus; fold n0; by rewrite (proj2 (Z.ltb_lt _ _)) by lia).
  prun_lift Hadd. rewrite (uwrap_small 32 n0), uwrap_small by lia. rewrite (proj2 (Z.ltb_lt _ _)) by lia.
  unfold FuseDirents.set_dh, pbind, pret. cbn. do 3 f_equal. unfold with_contents. destruct h; cbn in *. by subst.
Qed.

End system.
(** ** Witnesses *)

(** A system without descriptors. *)
#[local] Instance no_files : Syscalls unit := {|
  sys_write o _ _ := (Err EIO, o);
  sys_pwrite o _ _ _ := (Err EIO, o);
  sys_read o _ _ := (Err EIO, o);
  sys_pread o _ _ _ := (Err EIO, o);
  sys_splice o _ _ _ _ _ _ := (Err EIO, o);
|}.

Definition plain_conf : fuse_config :=
  let q := QArith_base.inject_Z in
  mk_fuse_config 0 0 0 0 0 0 (q 1) (q 0) (q 1) 0 10 0 0 0 0 0 1 0 0 (q 1) 0 0 0 0 0.

(** A kernel that makes a directory, and in it, by the number it is told, a file. *)
Definition demo_kernel (hist : list (krequest * FuseLib.reply)) : krequest :=
  match hist with
  | [] => KMkdir FUSE_ROOT_ID (lit "d") 0
  | [(_, REntry e)] => KCreate e.(e_ino) (lit "a") 0 file_info_zero
  | _ => KGetattr FUSE_ROOT_ID None
  end.

Lemma demo_fair h : k_fair plain_conf h 2 (tg_quota toy_empty) (2 ^ 32 - 4) demo_kernel [] k_start.
Proof.
  cbn [k_fair demo_kernel]. split_and!; [by vm_compute | by vm_compute | |].
  { exists (lit "/d"). split.
    - exists (lit "/"). split_and!; try by vm_compute. split_and!; [done | |]; apply (bool_decide_unpack _); by vm_compute.
    - apply (bool_decide_unpack _). by vm_compute. }
  intros r k1 (d & Hd & Hstep). assert (d = lit "/") as -> by (by vm_compute in Hd; injection Hd as <-).
  cbv zeta in Hstep. change (child (lit "/") (lit "d")) with (lit "/d") in Hstep. destruct Hstep as (Hfiles & i & g & _ & Hnum & ->).
  cbn [app demo_kernel]. split_and!; [by vm_compute | by vm_compute | | done].
  exists (lit "/d/a"). cbn [entry_of e_ino]. split.
  - exists (lit "/d"). rewrite Hnum, lookup_insert_eq. split_and!; try by vm_compute. split_and!; [done | |]; apply (bool_decide_unpack _); by vm_compute.
  - rewrite Hfiles. apply (bool_decide_unpack _). by vm_compute.
Qed.

Lemma kernel_refined_witness : exists w0 f answered s' k', main_setup toy_chat toy_tok toy_empty = Ok w0 /\
  fuse_new_nodes 0 0 true true [] = Ok (Some f) /\
  session 2 demo_kernel [] (lib_start f w0 plain_conf ∅ tt []) = Ok (answered, s') /\
  k_session plain_conf ∅ 2 demo_kernel [] k_start answered k' /\ s'.(replies) = rev answered.*2 /\
  exists q' n', serving (tok := toy_tok) (chat := toy_chat) plain_conf ∅ q' n' s' k'.
Proof.
  apply (kernel_refined 0 plain_conf ∅ tt [] toy_empty 2 demo_kernel).
  - exact toy_config.
  - reflexivity.
  - reflexivity.
  - apply Forall_nil_2.
  - vm_compute. discriminate.
  - exact (demo_fair ∅).
Defined.

(** A library that serves the root, with an open directory of handle 7. *)
Lemma demo_serving : exists s : lib (os := unit) (A := world toy),
  serving (tok := toy_tok) (chat := toy_chat) plain_conf ∅ (tg_quota toy_empty) (2 ^ 32 - 4) s k_start /\ s.(dirs) !! 7 = Some (dh_new 1).
Proof.
  destruct (setup_R (tok := toy_tok) (chat := toy_chat) toy_empty toy_config) as (w0 & _ & HR).
  destruct (new_ready 0) as (f & _ & Hf & Hnum & Hsp).
  exists (set_dirs {[ 7 := dh_new 1 ]} (lib_start f w0 plain_conf ∅ tt [])). split; [|apply lookup_singleton_eq].
  split; try done; by exists f.
Qed.

Lemma directory_listed_witness : exists s k entries s',
  list_dir (os := unit) (net := toy) 4 1 128 0 (with_fh file_info_zero 7) s = Ok (entries, s') /\
  s_name <$> entries ≡ₚ [lit "."; lit ".."] ++ (basename <$> children (files k) (lit "/")) /\
  s_off <$> entries = seqZ 1 (zlen entries) /\
  serving (tok := toy_tok) (chat := toy_chat) plain_conf ∅ (tg_quota toy_empty) (2 ^ 32 - 4) s' k.
Proof.
  destruct demo_serving as (s & Hsv & Hd). exists s, k_start.
  apply (directory_listed plain_conf ∅ (tg_quota toy_empty) (2 ^ 32 - 4) s k_start 1 (lit "/") (with_fh file_info_zero 7) (dh_new 1)).
  - exact Hsv.
  - reflexivity.
  - reflexivity.
  - vm_compute. reflexivity.
  - exact Hd.
  - reflexivity.
  - vm_compute. split; [discriminate | reflexivity].
  - apply (bool_decide_unpack _). vm_compute. exact I.
Defined.

(** A listing of one old and one new name, that asks for their attributes. *)
Definition old_entry : fuse_direntry := mk_direntry stat_zero FUSE_FILL_DIR_PLUS (lit "docs").
Definition new_entry : fuse_direntry := mk_direntry stat_zero FUSE_FILL_DIR_PLUS (lit "new").
Definition demo_dir : fuse_dh := mk_dh (Some (uninit 1024)) [old_entry; new_entry] 0 1024 500 true 0 0 1.

(** The tree with "docs", when memory is short. *)
Definition short_tree : fuse := set_memory [false] s1.
Definition short_after : fuse := match find_node 1 (Some (lit "new")) short_tree with Ok (_, f) => f | Fail _ => s1 end.
Definition short_lib : lib (os := unit) (A := world toy) :=
  set_dirs {[ 7 := demo_dir ]} (lib_start short_tree (toy_world []) plain_conf ∅ tt []).

Lemma plus_error_lost_witness : exists s' h', fuse_lib_readdirplus 1 500 1 (with_fh file_info_zero 7) short_lib = Ok (tt, s') /\
  s'.(replies) = [RErr (- ERANGE)] /\ s'.(dirs) !! 7 = Some h' /\ h'.(error) = - ENOMEM.
Proof.
  apply (plus_error_lost 1 500 1 (with_fh file_info_zero 7) short_lib demo_dir (uninit 1024) new_entry [] short_after).
  - reflexivity.
  - reflexivity.
  - discriminate.
  - reflexivity.
  - vm_compute. split; [reflexivity | discriminate].
  - reflexivity.
  - vm_compute. reflexivity.
  - reflexivity.
  - vm_compute. reflexivity.
  - vm_compute. reflexivity.
Defined.

Lemma unsent_entry_counted_witness : exists f' n',
  list_loop [old_entry] 0 FUSE_READDIR_PLUS (mk_fill (with_needlen demo_dir 100) s1 plain_conf) =
    Ok (0, mk_fill (with_needlen demo_dir 100) f' plain_conf) /\
  f'.(nodes) !! 1 = Some n' /\ n'.(nlookup) = 2.
Proof.
  apply (unsent_entry_counted (mk_fill (with_needlen demo_dir 100) s1 plain_conf) old_entry [] 0 (uninit 1024) 1 (docs_node 1 1)).
  - reflexivity.
  - vm_compute. split; discriminate.
  - vm_compute. discriminate.
  - reflexivity.
  - reflexivity.
  - vm_compute. reflexivity.
  - vm_compute. reflexivity.
  - vm_compute. reflexivity.
  - exact (good_tree s1 s1_good).
  - vm_compute. reflexivity.
  - reflexivity.
  - apply (named_by s1 1 (lit "docs") (Some 1) s1_good); vm_compute; reflexivity.
Defined.

End KernelProps.
