(* ===== verification/MtProps.v ===== *)
(** What the loop of several threads promises, and where it does not keep it:
    C15 to C19. *)
From S2P Require Import Prelude.
From S2P Require Import CLib.
From S2P Require Import FuseTypes.
From S2P Require Import Hello.
From S2P Require Import FuseBuf.
From S2P Require Import FuseFs.
From S2P Require Import FuseNodes.
From S2P Require Import FuseKernel.
From S2P Require Import FuseLib.
From S2P Require Import FuseLowlevel.
From S2P Require Import FuseSession.
From S2P Require Import Toy.
From S2P Require Import Telegram.
From S2P Require Import FuseTree.
From S2P Require Import TreeProps.
From S2P Require Import KernelProps.
From S2P Require Import FuseLoopMt.
From S2P Require Import FuseLoopMtFacts.
From S2P Require Import MtSession.

Module MtProps.
Import FuseTypes Hello FuseBuf FuseFs FuseNodes FuseKernel FuseLib FuseLowlevel FuseSession Toy Telegram Samples FuseTree TreeProps KernelProps FuseLoopMt FuseLoopMtFacts FuseLoopMtRuns MtSession.

(** ** Theorems *)

(** A thread that will take a request: it is on its way to receive, receives, or has
    only a forget to serve first. *)
Definition listening {B} (w : fuse_worker B) : Prop :=
  match w.(w_phase) with Checking | Receiving | Received _ => True | Working f | Worked f => f = true | Leaving | Gone => False end.

Section props.
Context {S B : Type} `{HL : SessionLaws S B}.
Implicit Types (mt : fuse_mt S B) (w : fuse_worker B).

(** C15: the counts of the loop of several threads are right in every interleaving,
    with starts that fail and signals: until the main thread ends the loop, numworker
    is the number of threads and never above max_threads (but for the first), numavail
    the number of those that serve nothing but a forget; the channels that are open
    are those of the threads; and when the loop has returned every thread is joined
    and every channel closed. *)
Theorem loop_mt_counts P config (s : S) mt : reaches P config s mt ->
  (mt.(exit) = false -> mt.(numworker) = zlen mt.(workers) /\ mt.(numavail) = available mt.(workers) /\
     mt.(numworker) <= Z.max 1 (i32 config.(cfg_max_threads)) /\ ((forall err, mt.(main) <> MainDone err) -> 1 <= mt.(numworker))) /\
  Permutation mt.(chans) (held mt.(workers)) /\
  (mt.(exit) = true -> mt.(main) = MainJoins \/ exists err, mt.(main) = MainDone err) /\
  (forall err, mt.(main) = MainDone err -> mt.(workers) = [] /\ mt.(chans) = []).
Proof.
  intros Hr. pose proof (reaches_inv _ _ _ _ Hr) as Hinv. destruct (reaches_const _ _ _ _ Hr) as [_ <-]. split_and!.
  - intros Hx. destruct (i_counts _ Hinv Hx), (i_max _ Hinv Hx). by split_and!.
  - apply (i_chans _ Hinv).
  - apply (i_exit _ Hinv).
  - intros err. by apply (done_clean P config s mt err).
Qed.

Lemma step_done ev mt mt' err : step ev mt mt' -> inv mt -> mt.(main) = MainDone err -> mt'.(main) = MainDone err.
Proof. intros Hst Hinv Hm. pose proof (i_done _ Hinv err Hm) as Hw. destruct Hst; try done; try congruence; match goal with Hl : workers _ !! _ = Some _ |- _ => by rewrite Hw in Hl end. Qed.

Lemma run_staffed config s mt : reaches (fun ev => ev <> EStartFailed) config s mt -> config.(max_idle_threads) = - 1 \/ 1 <= config.(max_idle_threads) ->
  mt.(exit) = false -> (forall err, mt.(main) <> MainDone err) -> staffed mt.
Proof.
  intros Hr Hidle. pose proof Hr as (e & mt0 & Hs & Hrun). clear Hr. revert Hs. induction Hrun as [mt0|mt0 mt1 mt2 ev Hrun IH He Hst]; intros Hs Hx Hm; [by apply (start_staffed e config s)|].
  assert (reaches (fun ev => ev <> EStartFailed) config s mt1) as Hr1 by (by exists e, mt0). pose proof (reaches_inv _ _ _ _ Hr1) as Hinv.
  destruct (reaches_const _ _ _ _ Hr1) as [Hi _]. rewrite <- Hi in Hidle. apply (step_staffed ev mt1 mt2 Hst Hinv He Hidle); [|done].
  intros Hx1. apply IH; [done | done |]. intros err Hd. by destruct (Hm err), (step_done _ _ _ _ Hst Hinv Hd).
Qed.


(** C16: somebody listens: as long as the session goes on and no start of a thread has
    failed, some thread is there to take the next request (it is not serving one that
    may take its time), unless as many as max_threads are there; this for every
    max_idle_threads but 0. *)
Theorem loop_mt_listens config (s : S) mt : config.(max_idle_threads) = - 1 \/ 1 <= config.(max_idle_threads) ->
  reaches (fun ev => ev <> EStartFailed) config s mt -> mt.(exit) = false -> (forall err, mt.(main) <> MainDone err) -> sx_exited mt.(mt_se) = false ->
  i32 config.(cfg_max_threads) <= zlen mt.(workers) \/ exists w, w ∈ mt.(workers) /\ listening w.
Proof.
  intros Hidle Hr Hx Hm Hs. pose proof (reaches_inv _ _ _ _ Hr) as Hinv. destruct (i_counts _ Hinv Hx) as [Hnw Hna].
  destruct (reaches_const _ _ _ _ Hr) as [_ Hmt].
  destruct (run_staffed config s mt Hr Hidle Hx Hm) as [Hav|Hmax]; [right | left; lia].
  rewrite Hna in Hav. unfold available in Hav. destruct (filter avail (workers mt)) as [|w l] eqn:Hf; [cbn in Hav; lia|].
  assert (w ∈ filter avail (workers mt)) as [Ha Hin]%list_elem_of_filter by (rewrite Hf; left). exists w. split; [done|].
  pose proof (i_left _ Hinv Hx w Hin) as Hl. unfold listening, avail in *. destruct (w_phase w); try done; try (by apply Is_true_eq_true).
  - rewrite Hl in Hs; [done | by left].
  - rewrite Hl in Hs; [done | by right].
Qed.

(** C17: the end of the session is noticed: with max_idle_threads at its default and
    without signals, when the flag is set while the main thread waits, the semaphore
    is up already or some thread is on its way to raise it: it does not wait for a
    request that may never come. *)
Theorem loop_mt_noticed config (s : S) mt : config.(max_idle_threads) = - 1 -> reaches (fun ev => ev <> ESignal) config s mt ->
  mt.(main) = MainWaits -> sx_exited mt.(mt_se) = true ->
  0 < mt.(finish) \/ exists w, w ∈ mt.(workers) /\ w.(w_phase) <> Receiving /\ w.(w_phase) <> Gone.
Proof.
  intros Hidle Hr Hm Hs. assert (noticed mt) as [Hf|(w & Hin & Ha)]; [|by left|].
  - pose proof Hr as (e & mt0 & H1 & Hrun). clear Hr. revert H1 Hm Hs. induction Hrun as [mt0|mt0 mt1 mt2 ev Hrun IH He Hst]; intros H1 Hm Hs.
    + exfalso. unfold loop_mt in H1. destruct (negb _); [done|]. destruct (start_run e (mt_init config s)) as [(ch & c & cs & He & _)|(c & He)];
        rewrite He in H1; cbn in H1; injection H1 as <-; done.
    + assert (reaches (fun ev => ev <> ESignal) config s mt1) as Hr1 by (by exists e, mt0). destruct (reaches_const _ _ _ _ Hr1) as [Hi _].
      apply (step_noticed ev mt1 mt2 Hst (reaches_inv _ _ _ _ Hr1) He); [congruence | by apply IH | done | done].
  - right. exists w. split; [done|]. unfold about in Ha. destruct (w_phase w); done.
Qed.

End props.
(** C19: with one thread the loop is that of fuse_loop.c, for a configuration without
    clones of the device whose max_threads is 1 (or less), when the first thread can be
    started.  fuse_session_loop_mt then comes to run that thread, and a result and a
    session are what fuse_session_loop ends with on the session it is given exactly when
    they are what some run of the threads ends with: every order in which the thread
    and the main one take their steps, with sem_wait interrupted or not, and whatever
    the file system answers and the device gives to read(2) (at most 0x7ffff000 bytes, or
    a positive error), as long as no signal sets the flag from outside. *)
Theorem loop_mt_one_thread {os A} `{ReadLaws os} config e (s s' : fuse_session (os := os) (A := A)) r :
  config.(version_id) = FUSE_LOOP_MT_V2_IDENTIFIER -> config.(cfg_clone_fd) = 0 -> i32 config.(cfg_max_threads) <= 1 ->
  e.(has_worker) = true -> e.(created) = true ->
  exists mt0, loop_mt e config s = inr mt0 /\
    ((exists fuel, fuse_session_loop fuel s = Ok (r, s')) <->
     (exists mt, run (fun ev => ev <> ESignal) mt0 mt /\ mt.(main) = MainDone r /\ mt.(mt_se) = s')).
Proof. intros Hv Hc Hone Hw Hcr. by apply (loop_single config Hone). Qed.

(** ** A session to try it on *)

(** A session that is only its flag; a buffer is an opcode, and opcode 99 ends the
    session. *)
#[local] Instance demo_ops : SessionOps bool Z := {|
  sx_exited := fun s => s;
  sx_error := fun _ => 0;
  sx_exit := fun _ => true;
  sx_reset := fun _ => false;
  sx_empty := 0;
  sx_opcode := Some;
  sx_receives := fun s _ _ r _ s' => s' = s /\ if s then r = 0 else 0 < r;
  sx_processes := fun s b s' => s' = s || (b =? 99)
|}.

#[local] Instance demo_laws : SessionLaws bool Z.
Proof.
  split; cbn.
  - done.
  - by intros s ch b r b' s' [-> _].
  - intros s ch b r b' s' [_ Hr] ->. subst r. by split.
  - intros s ch b b' s' [-> Hr]. destruct s; [done | lia].
  - by intros s b s' -> ->.
Qed.

Definition demo_cfg (idle max : Z) : fuse_loop_config := mk_loop_config FUSE_LOOP_MT_V2_IDENTIFIER 0 idle max.
Definition demo_env : start_env := mk_start_env true None 0 0 true true.
(** A state with these threads. *)
Definition demo_mt (idle max : Z) (s : bool) (nw na : Z) (ws : list (phase * Z)) (m : main_phase) : fuse_mt bool Z :=
  mk_mt s nw na 0 false 0 0 idle max ((fun x => mk_worker x.1 x.2 None false) <$> ws) [] m.

Definition calm (ev : event) : Prop := ev = EWorker \/ ev = EMain.

(** The first thread takes a request, the second is started and receives. *)
Lemma demo_first idle max op m : 1 < max -> negb ((op =? FUSE_FORGET) || (op =? FUSE_BATCH_FORGET)) = true ->
  run calm (demo_mt idle max false 1 1 [(Checking, 0)] m) (demo_mt idle max false 2 1 [(Working false, op); (Receiving, 0)] m).
Proof.
  intros Hmax Hop%negb_true_iff. set (w := mk_worker Checking 0 None false).
  apply (run_first _ EWorker _ (demo_mt idle max false 1 1 [(Receiving, 0)] m)); [by left | exact (st_check 0 w (demo_mt idle max false 1 1 [(Checking, 0)] m) eq_refl eq_refl)|].
  apply (run_first _ EWorker _ (demo_mt idle max false 1 1 [(Received 40, op)] m)); [by left|
    exact (st_receive 0 (at_phase Receiving w) (demo_mt idle max false 1 1 [(Receiving, 0)] m) 40 op false eq_refl eq_refl (conj eq_refl eq_refl))|].
  set (mt1 := demo_mt idle max false 1 1 [(Received 40, op)] m). set (w1 := mk_worker (Received 40) op None false).
  assert (takes_request demo_env 0 w1 mt1 = (false, demo_mt idle max false 2 1 [(Working false, op); (Checking, 0)] m)) as Ht.
  { unfold takes_request. cbn [mt1 demo_mt exit]. assert (is_forget w1 = false) as -> by exact Hop. cbn -[Z.ltb]. by rewrite (proj2 (Z.ltb_lt 1 max) Hmax). }
  pose proof (st_takes 0 w1 mt1 40 demo_env eq_refl eq_refl eq_refl) as Hst. rewrite Ht in Hst.
  apply (run_first _ EWorker _ _ _ (or_introl eq_refl) Hst).
  apply (run_first _ EWorker _ (demo_mt idle max false 2 1 [(Working false, op); (Receiving, 0)] m)); [by left|
    exact (st_check 1 w (demo_mt idle max false 2 1 [(Working false, op); (Checking, 0)] m) eq_refl eq_refl)|]. apply run_refl.
Qed.

Lemma demo_waits idle max : run calm (demo_mt idle max false 1 1 [(Checking, 0)] MainChecks) (demo_mt idle max false 1 1 [(Checking, 0)] MainWaits).
Proof.
  apply (run_first _ EMain _ (demo_mt idle max false 1 1 [(Checking, 0)] MainWaits)); [by right | exact (st_main_checks (demo_mt idle max false 1 1 [(Checking, 0)] MainChecks) eq_refl) | apply run_refl].
Qed.

(** A request is served; with max_idle_threads 0 the thread leaves when the other is
    there. *)
Lemma demo_serves max op m : run calm (demo_mt 0 max false 2 1 [(Working false, op); (Receiving, 0)] m) (demo_mt 0 max (op =? 99) 1 1 [(Receiving, 0)] m).
Proof.
  set (w := mk_worker (Working false) op None false).
  apply (run_first _ EWorker _ (demo_mt 0 max (op =? 99) 2 1 [(Worked false, op); (Receiving, 0)] m)); [by left|
    exact (st_process 0 w (demo_mt 0 max false 2 1 [(Working false, op); (Receiving, 0)] m) false (op =? 99) eq_refl eq_refl eq_refl)|].
  apply (run_first _ EWorker _ (demo_mt 0 max (op =? 99) 1 1 [(Receiving, 0)] m)); [by left|
    exact (st_done 0 (at_phase (Worked false) w) (demo_mt 0 max (op =? 99) 2 1 [(Worked false, op); (Receiving, 0)] m) false eq_refl eq_refl) | apply run_refl].
Qed.

Lemma demo_reaches idle max mt : i32 max = max -> run calm (demo_mt idle max false 1 1 [(Checking, 0)] MainChecks) mt -> reaches calm (demo_cfg idle max) false mt.
Proof. intros Hmax Hr. exists demo_env, (demo_mt idle max false 1 1 [(Checking, 0)] MainChecks). split; [|done].
  assert (loop_mt demo_env (demo_cfg idle max) false = inr (demo_mt idle (i32 max) false 1 1 [(Checking, 0)] MainChecks)) as He by reflexivity. by rewrite Hmax in He. Qed.

(** A thread leaves although no other listens: with max_idle_threads 0 and both of two
    threads busy the first that is done goes, and no request is taken until the other
    is done, with one thread of two at work. *)
Lemma idle_zero_starves : exists mt, reaches calm (demo_cfg 0 2) false mt /\ mt.(exit) = false /\ mt.(main) = MainChecks /\ sx_exited mt.(mt_se) = false /\
  zlen mt.(workers) = 1 /\ Forall (fun w => w.(w_phase) = Working false) mt.(workers).
Proof.
  set (w := mk_worker Receiving 0 None false). exists (demo_mt 0 2 false 1 0 [(Working false, 1)] MainChecks).
  split; [|split_and!; try done; by apply Forall_singleton]. apply demo_reaches; [done|]. apply (run_trans _ _ _ _ (demo_first 0 2 1 MainChecks eq_refl eq_refl)).
  set (mt1 := demo_mt 0 2 false 2 1 [(Working false, 1); (Received 40, 1)] MainChecks).
  apply (run_first _ EWorker _ mt1); [by left|
    exact (st_receive 1 w (demo_mt 0 2 false 2 1 [(Working false, 1); (Receiving, 0)] MainChecks) 40 1 false eq_refl eq_refl (conj eq_refl eq_refl))|].
  set (w1 := mk_worker (Received 40) 1 None false). pose proof (st_takes 1 w1 mt1 40 demo_env eq_refl eq_refl eq_refl) as Hst.
  apply (run_first _ EWorker _ (demo_mt 0 2 false 2 0 [(Working false, 1); (Working false, 1)] MainChecks)); [by left | exact Hst|].
  apply (run_first _ EWorker _ (demo_mt 0 2 false 2 0 [(Working false, 1); (Worked false, 1)] MainChecks)); [by left|
    exact (st_process 1 (at_phase (Working false) w1) (demo_mt 0 2 false 2 0 [(Working false, 1); (Working false, 1)] MainChecks) false false eq_refl eq_refl eq_refl)|].
  apply (run_first _ EWorker _ (demo_mt 0 2 false 1 0 [(Working false, 1)] MainChecks)); [by left|
    exact (st_done 1 (at_phase (Worked false) w1) (demo_mt 0 2 false 2 0 [(Working false, 1); (Worked false, 1)] MainChecks) false eq_refl eq_refl) | apply run_refl].
Qed.

(** The end is not noticed: with max_idle_threads 0 the thread whose request ends the
    session leaves without raising the semaphore, the main thread waits for it, and
    the only other thread for a request. *)
Lemma exit_lost : exists mt, reaches calm (demo_cfg 0 10) false mt /\ sx_exited mt.(mt_se) = true /\ mt.(main) = MainWaits /\ mt.(finish) = 0 /\
  Forall (fun w => w.(w_phase) = Receiving) mt.(workers).
Proof.
  exists (demo_mt 0 10 true 1 1 [(Receiving, 0)] MainWaits). split; [|split_and!; try done; by apply Forall_singleton]. apply demo_reaches; [done|].
  apply (run_trans _ _ _ _ (demo_waits 0 10)), (run_trans _ _ _ _ (demo_first 0 10 99 MainWaits eq_refl eq_refl)), (demo_serves 10 99).
Qed.

(** Without memory for the configuration it is used all the same, or the error has
    the wrong sign. *)
Lemma cfg_not_checked e (s : bool) : fuse_session_loop_mt_312 false e None s = Fail NullDeref /\
  fuse_session_loop_mt_31 false true e 1 s = Fail NullDeref /\
  forall v1, fuse_session_loop_mt_32 false true e (Some v1) s = Ok (inl ENOMEM).
Proof. done. Qed.

(** ** Witnesses *)

Lemma demo_busy : reaches calm (demo_cfg (- 1) 10) false (demo_mt (- 1) 10 false 2 1 [(Working false, 1); (Receiving, 0)] MainChecks).
Proof. apply demo_reaches; [done|]. exact (demo_first (- 1) 10 1 MainChecks eq_refl eq_refl). Qed.

Lemma run_mono (P Q : event -> Prop) (mt mt' : fuse_mt bool Z) : (forall ev, P ev -> Q ev) -> run P mt mt' -> run Q mt mt'.
Proof. intros HPQ. induction 1 as [|? ? ? ev _ IH Hp Hst]; [apply run_refl|]. apply (run_step Q _ mt1 _ ev); auto. Qed.

Lemma reaches_mono (P Q : event -> Prop) config s (mt : fuse_mt bool Z) : (forall ev, P ev -> Q ev) -> reaches P config s mt -> reaches Q config s mt.
Proof. intros HPQ (e & mt0 & Hs & Hr). exists e, mt0. split; [done|]. by apply (run_mono P). Qed.

Lemma loop_mt_counts_witness : (demo_mt (- 1) 10 false 2 1 [(Working false, 1); (Receiving, 0)] MainChecks).(numavail) = 1.
Proof. destruct (loop_mt_counts calm (demo_cfg (- 1) 10) false _ demo_busy) as [Hc _]. destruct (Hc eq_refl) as (_ & Ha & _). exact Ha. Defined.

Lemma loop_mt_listens_witness : exists w : fuse_worker Z, listening w.
Proof.
  assert (reaches (fun ev => ev <> EStartFailed) (demo_cfg (- 1) 10) false (demo_mt (- 1) 10 false 2 1 [(Working false, 1); (Receiving, 0)] MainChecks)) as Hr
    by (apply (reaches_mono calm); [by intros ev [->| ->] | exact demo_busy]).
  destruct (loop_mt_listens (demo_cfg (- 1) 10) false _ (or_introl eq_refl) Hr eq_refl ltac:(intros err; discriminate) eq_refl) as [Hle|(w & _ & Hw)]; [exfalso; revert Hle; vm_compute; intros Hle; by apply Hle | by exists w].
Defined.

(** The default: the thread whose request ends the session stays for it. *)
Lemma demo_ends m : run calm (demo_mt (- 1) 10 false 2 1 [(Working false, 99); (Receiving, 0)] m) (demo_mt (- 1) 10 true 2 2 [(Checking, 99); (Receiving, 0)] m).
Proof.
  set (w := mk_worker (Working false) 99 None false).
  apply (run_first _ EWorker _ (demo_mt (- 1) 10 true 2 1 [(Worked false, 99); (Receiving, 0)] m)); [by left|
    exact (st_process 0 w (demo_mt (- 1) 10 false 2 1 [(Working false, 99); (Receiving, 0)] m) false true eq_refl eq_refl eq_refl)|].
  apply (run_first _ EWorker _ (demo_mt (- 1) 10 true 2 2 [(Checking, 99); (Receiving, 0)] m)); [by left|
    exact (st_done 0 (at_phase (Worked false) w) (demo_mt (- 1) 10 true 2 1 [(Worked false, 99); (Receiving, 0)] m) false eq_refl eq_refl) | apply run_refl].
Qed.

Lemma demo_ended m : m = MainChecks \/ m = MainWaits -> reaches calm (demo_cfg (- 1) 10) false (demo_mt (- 1) 10 true 2 2 [(Checking, 99); (Receiving, 0)] m).
Proof.
  intros Hm. apply demo_reaches; [done|]. assert (run calm (demo_mt (- 1) 10 false 1 1 [(Checking, 0)] MainChecks) (demo_mt (- 1) 10 false 1 1 [(Checking, 0)] m)) as H1
    by (destruct Hm as [->| ->]; [apply run_refl | apply demo_waits]).
  apply (run_trans _ _ _ _ H1), (run_trans _ _ _ _ (demo_first (- 1) 10 99 m eq_refl eq_refl)), demo_ends.
Qed.

Lemma loop_mt_noticed_witness : exists w : fuse_worker Z, w.(w_phase) <> Receiving /\ w.(w_phase) <> Gone.
Proof.
  assert (reaches (fun ev => ev <> ESignal) (demo_cfg (- 1) 10) false (demo_mt (- 1) 10 true 2 2 [(Checking, 99); (Receiving, 0)] MainWaits)) as Hr
    by (apply (reaches_mono calm); [by intros ev [->| ->] | apply demo_ended; by right]).
  destruct (loop_mt_noticed (demo_cfg (- 1) 10) false _ eq_refl Hr eq_refl eq_refl) as [Hf|(w & _ & Hw)]; [cbn in Hf; lia | by exists w].
Defined.



(** A device whose every read fails. *)
#[local] Instance broken : Syscalls unit := {|
  sys_write o _ _ := (Err EIO, o);
  sys_pwrite o _ _ _ := (Err EIO, o);
  sys_read o _ _ := (Err EIO, o);
  sys_pread o _ _ _ := (Err EIO, o);
  sys_splice o _ _ _ _ _ _ := (Err EIO, o);
|}.

#[local] Instance broken_laws : ReadLaws unit.
Proof. split; cbn; [done|]. intros o fd n e o' He. injection He as <- _. reflexivity. Qed.

Definition demo_broken : fuse_session (os := unit) (A := world toy) :=
  fuse_session_new fuse_path_ops (lib_start s0 (toy_world []) plain_conf ∅ tt []) 4096 0 false false 1000 5.

Lemma broken_loop : exists s', fuse_session_loop 3 demo_broken = Ok (- EIO, s').
Proof.
  assert (match fuse_session_loop 3 demo_broken with Ok (r, _) => r =? - EIO | Fail _ => false end = true) as He by (vm_compute; reflexivity).
  revert He. destruct (fuse_session_loop 3 demo_broken) as [[r s']|]; [|discriminate]. intros ->%Z.eqb_eq. by exists s'.
Qed.

Lemma loop_mt_one_thread_witness : exists mt0 s', loop_mt demo_env (demo_cfg 0 1) demo_broken = inr mt0 /\
  fuse_session_loop 3 demo_broken = Ok (- EIO, s') /\
  exists mt, run (fun ev => ev <> ESignal) mt0 mt /\ mt.(main) = MainDone (- EIO) /\ mt.(mt_se) = s'.
Proof.
  destruct broken_loop as [s' Hs].
  destruct (loop_mt_one_thread (demo_cfg 0 1) demo_env demo_broken s' (- EIO) eq_refl eq_refl ltac:(vm_compute; discriminate) eq_refl eq_refl) as (mt0 & Hm & Hiff & _).
  exists mt0, s'. split; [exact Hm|]. split; [exact Hs|]. apply Hiff. exists 3%nat. exact Hs.
Defined.
End MtProps.
