(* ===== verification/NotifyProps.v ===== *)
(** What the messages promise that a session sends on its own: properties C23 to C24. *)
From S2P Require Import Prelude.
From S2P Require Import CLib.
From S2P Require Import LittleEndian.
From S2P Require Import FuseTypes.
From S2P Require Import Hello.
From S2P Require Import FuseBuf.
From S2P Require Import FuseFs.
From S2P Require Import Toy.
From S2P Require Import Telegram.
From S2P Require Import FuseNodes.
From S2P Require Import FuseTree.
From S2P Require Import TreeProps.
From S2P Require Import FuseLib.
From S2P Require Import FuseKernel.
From S2P Require Import FuseWire.
From S2P Require Import FuseLowlevel.
From S2P Require Import FuseSession.
From S2P Require Import FuseNotify.
From S2P Require Import FuseSessionFacts.
From S2P Require Import KernelProps.

Module NotifyProps.
Import LittleEndian FuseTypes Hello FuseBuf FuseFs Toy Telegram Samples FuseNodes FuseTree TreeProps FuseLib FuseKernel FuseWire FuseLowlevel FuseSession
  FuseNotify FuseSessionFacts KernelProps.

(** ** Theorems *)

Section props.
Context {os A : Type} `{Syscalls os}.
#[local] Abbreviation Se := (fuse_session (os := os) (A := A)).
#[local] Abbreviation P := (prog Se).
Implicit Types (s : Se).

(** The call sends one message, which the kernel reads as [n], or, when the device
    refuses it, returns the error and changes nothing. *)
Definition notifies s (werr : Z) (n : notification) (m : P Z) : Prop :=
  if werr =? 0 then exists msg, m s = Ok (0, set_sent (msg :: s.(sent)) s) /\ read_notification msg = Ok n
  else m s = Ok (- werr, s).

(** The call is refused, and nothing is sent. *)
Definition refuses s (err : Z) (m : P Z) : Prop := m s = Ok (- err, s).

(** The call of a function that asks first whether the kernel knows the message and then
    whether INIT was served. *)
Definition told (known : bool) s werr (n : notification) (m : P Z) : Prop :=
  if negb known then refuses s ENOSYS m else if negb s.(got_init) then refuses s ENOTCONN m else notifies s werr n m.

Lemma told_eq known s werr n (m m' : P Z) : m s = m' s -> told known s werr n m' -> told known s werr n m.
Proof. unfold told, refuses, notifies. by intros ->. Qed.

Lemma sends_told s werr code payload n : read_notification (fuse_send_msg 0 code payload) = Ok n -> told true s werr n (send_notify_iov werr code payload).
Proof.
  intros Hr. unfold told. cbn [negb]. destruct (got_init s) eqn:Hi; cbn [negb].
  - unfold notifies, send_notify_iov, send_msg. destruct (werr =? 0); [eexists; split; [|exact Hr]|]; prun_get; by rewrite Hi.
  - unfold refuses, send_notify_iov. prun_get. by rewrite Hi.
Qed.

(** A message that kernels know from a minor version on. *)
Lemma version_told s werr n minor (m m' : P Z) : (s.(se_conn).(proto_minor) < minor -> m s = Ok (- ENOSYS, s)) ->
  (minor <= s.(se_conn).(proto_minor) -> m s = m' s) -> told true s werr n m' -> told (minor <=? s.(se_conn).(proto_minor)) s werr n m.
Proof.
  intros Hold Hnew Ht. destruct (Z.leb_spec minor s.(se_conn).(proto_minor)); [by apply (told_eq _ _ _ _ _ m'); [apply Hnew|] | by apply Hold].
Qed.

Lemma name_read (name : list byte) : mem_read (cstr name) 0 (zlen name + 1) = Ok (cells name ++ [Byte NUL]).
Proof.
  rewrite mem_read_in by (rewrite ?zlen_cstr; lia). rewrite zdrop_0, ztake_ge; [done|]. rewrite zlen_cstr. lia.
Qed.

Lemma entry_told s werr parent name (e : bool) : 0 <= parent < 2 ^ 64 -> NUL ∉ name -> zlen name < 2 ^ 31 ->
  told (12 <=? s.(se_conn).(proto_minor)) s werr (NInvalEntry parent name e)
    (fuse_lowlevel_notify_entry werr parent (cstr name) (zlen name) (if e then FUSE_LL_EXPIRE_ONLY else FUSE_LL_INVALIDATE)).
Proof.
  intros Hp Hn Hl. apply (version_told _ _ _ _ _ (send_notify_iov werr FUSE_NOTIFY_INVAL_ENTRY
    (cells (fields [(8%nat, parent); (4%nat, zlen name); (4%nat, if e then FUSE_EXPIRE_ONLY else 0)]) ++ cells name ++ [Byte NUL]))).
  - intros Hm. unfold fuse_lowlevel_notify_entry. prun_get. by rewrite (proj2 (Z.ltb_lt _ _) Hm).
  - intros Hm. unfold fuse_lowlevel_notify_entry. prun_get. rewrite (proj2 (Z.ltb_ge _ _) Hm). prun_lift (name_read name). by destruct e.
  - by apply sends_told, inval_entry_read.
Qed.

(** C23: the kernel reads a notification as it was meant.  Of the functions for polls, for
    invalidating an inode or an entry, for deletions and for letting an entry expire each
    sends exactly one message, whose length, code, numbers and name the kernel takes
    apart to the arguments, and when writing it fails returns the error and changes
    nothing else.  But when the kernel's minor version is below that of the message
    (12, for a deletion 18) or, for the last one, it has not said that it can let entries
    expire, ENOSYS is returned and nothing sent, and else ENOTCONN before INIT is
    served.  Storing data, which is in memory and not spliced, needs version 15 and else
    gives ENOSYS too, but is sent before INIT as well.  For arguments in the range of
    their types, names without a NUL, names and data shorter than 2 GiB, and an offset to
    store at that is not negative. *)
Theorem notifications_read s werr ino off len parent child name kh data :
  0 <= ino < 2 ^ 64 -> - 2 ^ 63 <= off < 2 ^ 63 -> - 2 ^ 63 <= len < 2 ^ 63 -> 0 <= parent < 2 ^ 64 -> 0 <= child < 2 ^ 64 -> 0 <= kh < 2 ^ 64 ->
  NUL ∉ name -> zlen name < 2 ^ 31 -> zlen data < 2 ^ 31 ->
  let minor := s.(se_conn).(proto_minor) in
  told true s werr (NPoll kh) (fuse_lowlevel_notify_poll werr (Some kh)) /\
  told (12 <=? minor) s werr (NInvalInode ino off len) (fuse_lowlevel_notify_inval_inode werr ino off len) /\
  told (12 <=? minor) s werr (NInvalEntry parent name false) (fuse_lowlevel_notify_inval_entry werr parent (cstr name) (zlen name)) /\
  told (18 <=? minor) s werr (NDelete parent child name) (fuse_lowlevel_notify_delete werr parent child (cstr name) (zlen name)) /\
  told (has_flag s.(se_conn).(capable_ext) FUSE_CAP_EXPIRE_ONLY && (12 <=? minor)) s werr (NInvalEntry parent name true)
    (fuse_lowlevel_notify_expire_entry werr parent (cstr name) (zlen name)) /\
  (0 <= off -> s.(pipes) = false ->
     if 15 <=? minor then notifies s werr (NStore ino off data) (fuse_lowlevel_notify_store werr ino off [Mem data] (zlen data) 0)
     else refuses s ENOSYS (fuse_lowlevel_notify_store werr ino off [Mem data] (zlen data) 0)).
Proof.
  intros Hino Hoff Hlen Hp Hc Hk Hn Hnl Hd minor. split_and!.
  - by apply sends_told, poll_read.
  - apply (version_told _ _ _ _ _ (send_notify_iov werr FUSE_NOTIFY_INVAL_INODE (cells (fields [(8%nat, ino); (8%nat, off); (8%nat, len)])))).
    + intros Hm. unfold fuse_lowlevel_notify_inval_inode. prun_get. by rewrite (proj2 (Z.ltb_lt _ _) Hm).
    + intros Hm. unfold fuse_lowlevel_notify_inval_inode. prun_get. by rewrite (proj2 (Z.ltb_ge _ _) Hm).
    + by apply sends_told, inval_inode_read.
  - by apply (entry_told s werr parent name false).
  - apply (version_told _ _ _ _ _ (send_notify_iov werr FUSE_NOTIFY_DELETE (cells (fields [(8%nat, parent); (8%nat, child); (4%nat, zlen name); (4%nat, 0)]) ++ cells name ++ [Byte NUL]))).
    + intros Hm. unfold fuse_lowlevel_notify_delete. prun_get. by rewrite (proj2 (Z.ltb_lt _ _) Hm).
    + intros Hm. unfold fuse_lowlevel_notify_delete. prun_get. rewrite (proj2 (Z.ltb_ge _ _) Hm). by prun_lift (name_read name).
    + by apply sends_told, delete_read.
  - pose proof (entry_told s werr parent name true Hp Hn Hnl) as He. destruct (has_flag (capable_ext (se_conn s)) FUSE_CAP_EXPIRE_ONLY) eqn:Hf; cbn [andb].
    + eapply told_eq; [|exact He]. unfold fuse_lowlevel_notify_expire_entry. prun_get. by rewrite Hf.
    + unfold told, refuses, fuse_lowlevel_notify_expire_entry. cbn [negb]. prun_get. by rewrite Hf.
  - intros Ho Hpi. pose proof (store_read ino off data Hino ltac:(lia) Hd) as Hr. unfold minor, refuses, notifies, fuse_lowlevel_notify_store, send_msg, splice_page.
    destruct (Z.leb_spec 15 s.(se_conn).(proto_minor)) as [Hm|Hm]; [|prun_get; by rewrite (proj2 (Z.ltb_lt _ _) Hm)].
    destruct (werr =? 0); [eexists; split; [|exact Hr]|]; prun_get; rewrite (proj2 (Z.ltb_ge _ _)) by lia; rewrite Hpi;
      by prun_lift (eq_refl : fuse_send_data_iov None (se_conn s) [Mem data] 0 = Ok data).
Qed.

(** ** Requests for data *)






(** A reply to a notification that is not pending is left in the list of requests in
    service for good. *)
Lemma unknown_reply_stays s req nodeid arg insize : take_notify req.(unique) s.(notify_list) = None ->
  do_notify_reply req nodeid arg insize s = Ok (tt, s).
Proof. intros Ht. unfold do_notify_reply. prun_get. by rewrite Ht. Qed.

(** A reply that is too short to hold its structure passes the check on its size. *)
Lemma short_reply_passes insize size : IN_HEADER_SIZE <= insize < IN_HEADER_SIZE + RETRIEVE_IN_SIZE -> 0 <= size < 2 ^ 32 ->
  (u64 (insize - (IN_HEADER_SIZE + RETRIEVE_IN_SIZE)) <? size) = false.
Proof.
  unfold IN_HEADER_SIZE, RETRIEVE_IN_SIZE. intros Hi Hs. apply Z.ltb_ge. unfold uwrap.
  rewrite <- (Z.mod_unique (insize - (40 + 40)) (2 ^ 64) (- 1) (insize - 80 + 2 ^ 64)); lia.
Qed.
End props.

(** ** Witnesses *)

#[local] Instance no_device : Syscalls unit := {|
  sys_write o _ _ := (Err EIO, o);
  sys_pwrite o _ _ _ := (Err EIO, o);
  sys_read o _ _ := (Err EIO, o);
  sys_pread o _ _ _ := (Err EIO, o);
  sys_splice o _ _ _ _ _ _ := (Err EIO, o);
|}.

(** A session that has served INIT from a kernel of version 7.40. *)
Definition demo_noting : fuse_session (os := unit) (A := world toy) :=
  let s := fuse_session_new fuse_path_ops (lib_start s0 (toy_world []) plain_conf ∅ tt []) 4096 0 false false 1000 5 in
  set_phase true false (set_conn (with_proto s.(se_conn) 7 40) s).

(** One that has not served it. *)
Definition demo_silent : fuse_session (os := unit) (A := world toy) :=
  fuse_session_new fuse_path_ops (lib_start s0 (toy_world []) plain_conf ∅ tt []) 4096 0 false false 1000 5.

Lemma demo_noting_init : demo_noting.(got_init) = true.
Proof. vm_compute. reflexivity. Qed.

Lemma demo_noting_minor : demo_noting.(se_conn).(proto_minor) = 40.
Proof. vm_compute. reflexivity. Qed.



Lemma notifications_read_witness :
  (exists msg, read_notification msg = Ok (NDelete 1 2 (lit "d"))) /\
  refuses demo_silent ENOTCONN (fuse_lowlevel_notify_poll 0 (Some 7)) /\ refuses demo_silent ENOSYS (fuse_lowlevel_notify_inval_inode 0 2 0 0).
Proof.
  assert (NUL ∉ lit "d") as Hn by (apply (bool_decide_unpack _); vm_compute; exact I).
  split.
  - destruct (notifications_read demo_noting 0 2 0 0 1 2 (lit "d") 7 []) as (_ & _ & _ & Hd & _); [lia.. | exact Hn | reflexivity | reflexivity |].
    rewrite demo_noting_minor in Hd. unfold told in Hd. rewrite demo_noting_init in Hd. destruct Hd as (msg & _ & Hr). exists msg. exact Hr.
  - destruct (notifications_read demo_silent 0 2 0 0 1 2 (lit "d") 7 []) as (Hp & Hi & _); [lia.. | exact Hn | reflexivity | reflexivity |].
    split; [exact Hp | exact Hi].
Defined.

End NotifyProps.
