(* ===== verification/WireProps.v ===== *)
(** Properties of the session of libfuse with the kernel, and of the program behind the
    device: C1 to C7. *)
From S2P Require Import Prelude.
From S2P Require Import CLib.
From S2P Require Import LittleEndian.
From S2P Require Import TgApi.
From S2P Require Import Telegram.
From S2P Require Import FuseTypes.
From S2P Require Import Hello.
From S2P Require Import FuseBuf.
From S2P Require Import FuseBufFacts.
From S2P Require Import FuseFs.
From S2P Require Import HelloOper.
From S2P Require Import MemFs.
From S2P Require Import Refine.
From S2P Require Import Toy.
From S2P Require Import FuseNodes.
From S2P Require Import FuseNodesFacts.
From S2P Require Import FusePaths.
From S2P Require Import FusePathsFacts.
From S2P Require Import FuseQueue.
From S2P Require Import FuseTree.
From S2P Require Import TreeProps.
From S2P Require Import FuseDirents.
From S2P Require Import FuseLib.
From S2P Require Import FuseKernel.
From S2P Require Import FuseWire.
From S2P Require Import FuseLowlevel.
From S2P Require Import FuseSession.
From S2P Require Import FuseAnswers.
From S2P Require Import FuseSessionFacts.
From S2P Require Import FuseLoop.
From S2P Require Import FuseInit.
From S2P Require Import FuseRequests.
From S2P Require Import FuseDecode.
From S2P Require Import FuseLibFacts.
From S2P Require Import FuseServe.
From S2P Require Import KernelFs.
From S2P Require Import KernelWire.
From S2P Require Import KernelProps.
From Stdlib Require Import QArith.
#[global] Close Scope Q_scope.
#[global] Open Scope Z_scope.
#[global] Open Scope c_scope.
#[global] Open Scope prog_scope.

Module WireProps.
Import LittleEndian TgApi Telegram FuseTypes Hello FuseBuf FuseBufFacts FuseFs HelloOper MemFs Refine Toy Samples FuseNodes FuseNodesFacts FusePaths
  FusePathsFacts FuseQueue FuseTree TreeProps FuseDirents FuseLib FuseKernel FuseWire FuseLowlevel FuseSession FuseAnswers FuseSessionFacts FuseLoop
  FuseInit FuseRequests FuseDecode FuseLibFacts FuseServe KernelFs KernelWire KernelInit KernelProps.

(** ** The program behind the device *)

Section system.
Context {os net : Type} `{Syscalls os} `{CurlEnv net} {tok chat : list byte} `{!Telegram net tok chat}.

(** C1: started by main with a token and a chat of fewer than 100 bytes on a server
    that keeps its contract, and with options under
    which requests carry paths, nothing is remembered or interrupted and absent names
    are not cached, the program greets every kernel of version 7.12 or later, and then
    serves the requests the kernel sends as bytes, each chosen by the messages before
    it, without a fault and with one message each: the bytes of a reply that the file
    system in memory gives to the request.  The kernel keeps a contract ([w_fair],
    [w_admissible]).  It sends lookup, getattr, mkdir, create, read and write, well
    formed and from callers who are served, about numbers it was told; names hold no
    slash, are not empty and, looked up, neither "." nor ".."; mkdir and create only name what is not
    there yet, with a path of fewer than 100 bytes, as long as the table can grow; paths stay below 2^31 bytes; a
    write has data, to a file (or a directory, which is refused), and starts
    within the file or at its end; sizes fit an int and offsets stay below 2^62; and in
    all there are no more writes than the server takes uploads, and no more than
    2^32-4 lookups, mkdirs and creates.  It does not give a request up before its reply. *)
Theorem wire_refined clock c h o sends n page pipes deny owner fd uniq who minor ra flags flags2 rest :
  good_config (tok := tok) (chat := chat) -> follows_paths c -> c.(FuseTypes.remember) = 0 -> is_set c.(intr) = false ->
  Qeq_bool c.(negative_timeout) 0%Q = true -> Forall (fun a => a <> - ENOENT) sends -> 0 <= tg_quota n ->
  init_in_ok minor ra flags flags2 -> 0 <= uniq < 2 ^ 64 -> caller_ok who ->
  exists w0 f told se1, main_setup chat tok n = Ok w0 /\ fuse_new_nodes 0 clock true true [] = Ok (Some f) /\
    let se0 := fuse_session_new (ops_for hello_fs) (lib_start f w0 c h o sends) page 0 pipes deny owner fd in
    fuse_session_process_buf (init_buffer uniq who minor ra flags flags2 rest) 104 se0 = Ok (tt, se1) /\
    se1.(sent) = [fuse_send_msg uniq 0 (cells (init_out_size minor (init_out_bytes told)))] /\
    greeted se1 /\ se1.(deny_others) = deny /\ se1.(se_owner) = owner /\
    forall m kernel, let c1 := with_kernel_cache c 1 in
      w_fair c1 h (splice_page se1) se1.(se_conn) (admits se1) m (tg_quota n) (2 ^ 32 - 4) kernel [] k_start ->
      exists answered se' k', wire_session rest m kernel [] se1 = Ok (answered, se') /\
        w_session c1 h (splice_page se1) se1.(se_conn) m kernel [] k_start answered k' /\ se'.(sent) = rev answered.*2 ++ se1.(sent).
Proof.
  intros Hg Hc Hrem Hintr Hneg Hsends Hq Hi Hu Hw. destruct (setup_R n Hg) as (w0 & Hsetup & HR).
  destruct (new_ready clock) as (f & Hnew & Hf & Hnum & Hsp).
  pose proof (lib_start_serving c h o sends f w0 _ _ Hf Hsp Hnum Hc Hsends HR) as Hsv.
  set (se0 := fuse_session_new (ops_for hello_fs) (lib_start f w0 c h o sends) page 0 pipes deny owner fd).
  assert (fresh_session se0) as Hfr by exact (mk_fresh se0 eq_refl eq_refl eq_refl eq_refl eq_refl).
  destruct (init_processed se0 (lib_start f w0 c h o sends) uniq who minor ra flags flags2 rest Hfr Hi Hu Hw
    (serving_allocates _ _ _ _ _ _ Hsv) eq_refl Hintr) as (told & se1 & Hrun & Hst & Hsent).
  destruct Hst as [Hgr [Hdev _] (r & Hlib) _ [Hdeny Howner] _ _].
  exists w0, f, told, se1. split; [exact Hsetup|]. split; [exact Hnew|]. cbv zeta. split; [exact Hrun|]. split; [exact Hsent|].
  split; [exact Hgr|]. split; [exact Hdeny|]. split; [exact Howner|]. intros m kernel Hfair.
  pose proof (initialised_serving c h _ _ _ _ r Hsv Hrem) as Hsv1.
  change (userdata (set_lists _ _ (with_req se0 (lib_start f w0 c h o sends)))) with (lib_start f w0 c h o sends) in Hlib. rewrite <- Hlib in Hsv1. clear Hlib Hrun Hsent Hdeny Howner Hfr. clearbody se0.
  destruct (wire_sessions (with_kernel_cache c 1) h Hneg rest kernel m _ _ [] se1 k_start Hgr Hdev Hsv1 Hq ltac:(lia) Hfair) as (new & se' & k' & q' & n' & Hses & Hk & _ & Hrep).
  exists new, se', k'. split; [exact Hses | split; [exact Hk | exact Hrep]].
Qed.

End system.

(** ** Requests and messages *)

Section requests.
Context {os A : Type} `{Syscalls os}.
#[local] Abbreviation libst := (lib (os := os) (A := A)).
#[local] Abbreviation Se := (fuse_session (os := os) (A := A)).
Implicit Types (se : Se) (u : libst) (q : request).

(** C2: a session that serves requests takes out of the bytes of a request, whatever
    lies behind them in the buffer, exactly the operation and the arguments the kernel
    put into them, and answers what the operation answers. *)
Theorem request_decoded uniq c q rest se u : let ext := has_flag se.(se_conn).(want_ext) FUSE_CAP_SETXATTR_EXT in
  greeted se -> admits se c q -> q_wf ext q -> 0 <= uniq < 2 ^ 64 -> caller_ok c -> in_fuse allocates se.(userdata) = Ok (true, u) ->
  let req := new_req se (header_of ext uniq c q) in
  fuse_session_process_buf (q_buffer ext uniq c q rest) (q_size ext q) se
  = answer req (q_serve (serves_locks se) se.(se_conn) (cells (q_args ext q) ++ rest) q) (in_service se u req).
Proof. apply q_processed. Qed.


(** C4: before INIT nothing but INIT is served, and after it no second one: EIO; with
    allow_root nobody but root and the owner, unless the request is about an open file:
    EACCES; a request without a handler, or an interrupt where they are switched off:
    ENOSYS.  Each gets the message with its error and leaves the file system alone. *)
Theorem refusals m n se inh u : read_in_header m = Ok inh -> in_fuse allocates se.(userdata) = Ok (true, u) ->
  let o := inh.(opcode) in
  let stranger := se.(deny_others) = true /\ inh.(in_uid) <> se.(se_owner) /\ inh.(in_uid) <> 0 /\ o ∉ root_exempt in
  let out err := fuse_session_process_buf m n se = Ok (tt, turned_away err inh se u) in
  (se.(got_init) = false -> o <> FUSE_INIT -> out EIO) /\
  (se.(got_init) = true -> o = FUSE_INIT \/ o = CUSE_INIT -> out EIO) /\
  (se.(got_init) = true -> o <> FUSE_INIT -> o <> CUSE_INIT ->
    (stranger -> out EACCES) /\
    (~ stranger -> entry_for (B := fuse_req -> Z -> list cell -> prog Se unit) o fuse_ll_ops = None -> out ENOSYS) /\
    (~ stranger -> se.(se_conn).(no_interrupt) = true -> o = FUSE_INTERRUPT -> out ENOSYS)).
Proof.
  intros Hh Hal o stranger out.
  assert (forall err, refused se inh = Some err -> 0 <= err < 1000 -> out err) as Hout by (intros; by apply refused_run).
  assert (stranger \/ ~ stranger -> (se.(deny_others) && negb (inh.(in_uid) =? se.(se_owner)) && negb (inh.(in_uid) =? 0) && negb (bool_decide (o ∈ root_exempt)))
    = true <-> stranger) as Hst.
  { intros _. unfold stranger. rewrite !andb_true_iff, !negb_true_iff, !Z.eqb_neq, bool_decide_eq_false. tauto. }
  split_and!.
  - intros Hi Ho. apply Hout; [|by vm_compute]. unfold refused. fold o. by rewrite Hi, (proj2 (Z.eqb_neq _ _) Ho).
  - intros Hi Ho. apply Hout; [|by vm_compute]. unfold refused. rewrite Hi. fold o. by destruct Ho as [->| ->].
  - intros Hi Ho1 Ho2. unfold refused in Hout. fold o in Hout. rewrite Hi, (proj2 (Z.eqb_neq _ _) Ho1), (proj2 (Z.eqb_neq _ _) Ho2) in Hout. cbn [orb] in Hout.
    destruct (_ && _ && _ && _) eqn:Hb; cbv iota in Hout.
    + split_and!; [intros _; apply Hout; [done | by vm_compute] | |]; intros Hn; exfalso; apply Hn, (Hst (or_intror Hn)); done.
    + assert (~ stranger) as Hns by (intros Hs; apply (Hst (or_introl Hs)) in Hs; congruence). split_and!; [done | |].
      * intros _ Hent. rewrite Hent in Hout. cbn [given negb] in Hout. rewrite orb_true_r in Hout. apply Hout; [done | by vm_compute].
      * intros _ Hni Hint. rewrite Hni, Hint in Hout. destruct (_ || _) in Hout; apply Hout; done.
Qed.

(** An interrupt that comes before the request it is for is not lost: it waits, and
    the request, when it comes, is interrupted from the start. *)
Theorem early_interrupt_kept req arg se n (r : fuse_req) o : se.(se_conn).(no_interrupt) = false -> u64_at arg 0 = Ok n ->
  (forall x, x ∈ se.(se_list) -> x.(unique) <> n) -> (forall i v, (i, v) ∈ se.(se_interrupts) -> v <> n) ->
  r.(unique) = n -> o <> FUSE_INTERRUPT ->
  exists se1, do_interrupt req arg se = Ok (tt, se1) /\ se1.(sent) = se.(sent) /\
    enlist r o se1 = Ok (with_interrupted r true, set_lists (se.(se_list) ++ [with_interrupted r true]) se.(se_interrupts) se1).
Proof.
  intros Hni Ha Hl Hi <- Ho. pose proof (interrupt_waits req arg se r.(unique) Ha Hl Hi) as Hw. eexists. split; [exact Hw|]. split; [done|].
  exact (enlist_interrupted r o (set_lists se.(se_list) (se.(se_interrupts) ++ [(req, r.(unique))]) se) req se.(se_interrupts) Hni Ho eq_refl Hi).
Qed.

(** ** INIT *)

(** C5: INIT from a kernel of version 7.6 or later settles what the file system asks for
    in its init.  If every flag it asks for was offered by the kernel, in both fields it
    may ask in the same, and its largest read is that of the options of mounting, both
    sides know the same: every flag of the answer, in both words of it, was sent by the
    kernel (big writes apart), every capability with a flag that the file system asks for is in the answer,
    the largest write fits behind the header in the buffers the session makes from then
    on, and the background limits are in order.  Otherwise, and only then, the session
    ends with EPROTO.  The init of the file system is to leave alone what it was offered. *)
Theorem init_settled req arg minor inargflags se se' : do_init req arg se = Ok (tt, se') -> u32_at arg 0 = Ok 7 -> u32_at arg 4 = Ok minor ->
  6 <= minor -> sent_flags arg = Ok inargflags -> honest_init se -> conn_ok se.(se_conn) -> se.(se_bufsize) <= UINT_MAX ->
  exists ok c, asked_for arg minor se ok c /\
    ((~ can_be_told ok c se /\ init_refused req.(unique) se se') \/ (can_be_told ok c se /\ init_agreed req.(unique) minor inargflags c se se')).
Proof. apply init_settles. Qed.

(** The number of pages of a write is told in 16 bits, to which it is cut: a
    kernel that is told a maximal write of 256 megabytes is told 0 pages for it. *)
Theorem pages_told_are_cut page c argflags inargflags : has_flag argflags FUSE_MAX_PAGES = true -> 0 < page -> 0 < c.(max_write) < 2 ^ 32 ->
  u16_at (cells (init_out_bytes (init_answer page c argflags inargflags))) 28 = Ok (((c.(max_write) - 1) / page + 1) mod 2 ^ 16) /\
  (page = 4096 -> c.(max_write) = 2 ^ 28 -> u16_at (cells (init_out_bytes (init_answer page c argflags inargflags))) 28 = Ok 0).
Proof.
  intros Hf Hp Hm. assert (u16_at (cells (init_out_bytes (init_answer page c argflags inargflags))) 28 = Ok (((c.(max_write) - 1) / page + 1) mod 2 ^ 16)) as Hu.
  { unfold init_out_bytes. rewrite <- (app_nil_r (cells _)). do 8 rewrite field_skip by lia. change (28 - _ - _ - _ - _ - _ - _ - _ - _) with 0.
    rewrite field_head. f_equal. cbn [init_answer out_max_pages]. rewrite Hf.
    pose proof (Z.div_le_upper_bound (c.(max_write) - 1) page (c.(max_write) - 1) Hp ltac:(nia)) as Hd.
    pose proof (Z.div_pos (c.(max_write) - 1) page ltac:(lia) Hp). rewrite !uwrap_small by (rewrite ?uwrap_small; lia). done. }
  split; [exact Hu|]. intros -> Hw. rewrite Hu, Hw. done.
Qed.

(** ** Reading requests *)

(** C6: a new buffer of the loop is asked for as many bytes as are read into it, but
    it has them only when its size ends near the start or the end of a page: for
    every other size a request that fills the read is written past the end of the
    memory.  With pages of 4096 bytes a write of the maximal size still fits. *)
Theorem buffer_room fuel se u data se1 sz0 sz k : listens se -> in_fuse allocates se.(userdata) = Ok (true, u) ->
  device_read se.(se_bufsize) (set_userdata u (noted se)) = Ok (Ret data, se1) -> zlen data = se.(se_bufsize) ->
  IN_HEADER_SIZE <= se.(se_bufsize) < 2 ^ 31 -> se.(pagesize) = 2 ^ k -> 7 <= k <= 30 ->
  let r := se.(se_bufsize) mod 2 ^ k in
  let receive := fuse_session_receive_buf_internal (S fuel) (mk_request_buf None sz0 sz) se in
  (WRITE_HEADER_SZ < r <= 2 ^ k - WRITE_HEADER_SZ -> receive = Fail OutOfBounds) /\
  (~ WRITE_HEADER_SZ < r <= 2 ^ k - WRITE_HEADER_SZ ->
    exists m, receive = Ok ((se.(se_bufsize), mk_request_buf (Some m) se.(se_bufsize) se.(se_bufsize)), se1) /\ ztake se.(se_bufsize) m = cells data) /\
  (k = 12 -> forall max_write, 0 <= max_write -> se.(se_bufsize) = max_write + FUSE_BUFFER_HEADER_SIZE ->
    max_write + WRITE_HEADER_SZ <= capacity se.(se_bufsize) (2 ^ k)).
Proof.
  intros [He Hf] Ha Hr Hd Hb Hp Hk r receive. set (size := se.(se_bufsize)) in *. unfold IN_HEADER_SIZE in Hb.
  assert (2 ^ k <= 2 ^ 30) as Hk30 by (apply Z.pow_le_mono_r; lia). assert (0 < 2 ^ k) as Hk0 by (apply Z.pow_pos_nonneg; lia).
  assert (size + WRITE_HEADER_SZ + 2 ^ k <= 2 ^ 64) as Hsum by (unfold WRITE_HEADER_SZ, IN_HEADER_SIZE, WRITE_IN_SIZE; lia).
  pose proof (capacity_short size k ltac:(lia) ltac:(lia) Hsum) as Hshort.
  assert (exited (set_userdata u (noted se)) = false) as He1 by (cbn; by rewrite noted_exited).
  assert (0 <= capacity size (2 ^ k)) as Hcap0.
  { rewrite capacity_eq by (try done; lia). pose proof (Z.mod_pos_bound size (2 ^ k) Hk0). pose proof (Z.mod_le size (2 ^ k) ltac:(lia) Hk0).
    unfold WRITE_HEADER_SZ, IN_HEADER_SIZE, WRITE_IN_SIZE. case_match; lia. }
  assert (receive = read_request (S fuel) (uninit (capacity size (2 ^ k))) size size true (set_userdata u (noted se))) as ->
    by (unfold receive; rewrite (receive_fresh _ _ _ _ _ Hf Ha), Hp; done).
  split_and!.
  - intros Hr1. apply (request_overflow _ _ _ _ _ _ data se1 Hr). rewrite zlen_uninit, Hd by done. by apply Hshort.
  - intros Hr1. assert (size <= capacity size (2 ^ k)) as Hle by (destruct (Z.lt_ge_cases (capacity size (2 ^ k)) size) as [Hlt%Hshort|]; done).
    exists (splice (uninit (capacity size (2 ^ k))) 0 (cells data)). split.
    + assert (0 + zlen (cells data) <= zlen (uninit (capacity size (2 ^ k)))) as Hin by (rewrite zlen_cells, zlen_uninit by done; lia).
      assert (IN_HEADER_SIZE <= zlen data) as Hl by (unfold IN_HEADER_SIZE; lia).
      rewrite (request_read _ _ _ _ _ _ data _ se1 He1 Hr (mem_write_in _ 0 (cells data) ltac:(done) Hin) Hl). by rewrite Hd, i32_small by (unfold INT_MAX; lia).
    + unfold splice. rewrite ztake_0, app_nil_l. apply ztake_app_exact. by rewrite zlen_cells.
  - intros -> mw Hmw Heq. rewrite Heq. apply capacity_write; [done|]. unfold FUSE_BUFFER_HEADER_SIZE in Heq. lia.
Qed.

(** C7: the loop serves what the device gives it, request after request in their
    order, reads again when a read was interrupted or the request is gone, and ends
    when the device is gone or the session is over, with the error of the session. *)
Theorem loop_serves_in_order se u l se' : listens se -> in_fuse allocates se.(userdata) = Ok (true, u) ->
  attended se.(se_bufsize) (uninit (capacity se.(se_bufsize) se.(pagesize))) (set_userdata u se) l se' ->
  exists k, forall fuel, (k <= fuel)%nat -> fuse_session_loop fuel se = Ok (se'.(se_error), set_exit false 0 se').
Proof. apply loop_attended. Qed.

End requests.

(** INIT of the program leaves its request in the list of those in service: init turns
    interrupts off, and fuse_free_req takes a request out of the list only while they
    are on, before it frees it. *)
Theorem init_request_stays {os net : Type} `{Syscalls os} `{CurlEnv net} {tok chat : list byte} `{!Telegram net tok chat}
    (se : fuse_session (os := os) (A := world net)) u uniq c minor ra flags flags2 rest :
  fresh_session se -> init_in_ok minor ra flags flags2 -> 0 <= uniq < 2 ^ 64 -> caller_ok c -> in_fuse allocates se.(userdata) = Ok (true, u) ->
  u.(fsys) = hello_fs -> is_set u.(conf).(intr) = false ->
  exists se' r, fuse_session_process_buf (init_buffer uniq c minor ra flags flags2 rest) 104 se = Ok (tt, se') /\
    se'.(se_list) = se.(se_list) ++ [r] /\ r.(unique) = uniq /\ length se'.(sent) = S (length se.(sent)).
Proof.
  intros Hf Hi Hu Hc Ha Hfs Hintr. destruct (init_processed se u uniq c minor ra flags flags2 rest Hf Hi Hu Hc Ha Hfs Hintr) as (o & se' & Hrun & Hst & Hsent).
  eexists se', _. split; [exact Hrun|]. split; [exact (st_list _ _ Hst)|]. split; [done | by rewrite Hsent].
Qed.

(** ** Witnesses *)

(** A device that has some requests to give and is gone then. *)
#[local] Instance device : Syscalls (list (list byte)) := {|
  sys_write o _ _ := (Err EIO, o);
  sys_pwrite o _ _ _ := (Err EIO, o);
  sys_read o _ _ := match o with [] => (Err ENODEV, []) | d :: o => (Ret d, o) end;
  sys_pread o _ _ _ := (Err EIO, o);
  sys_splice o _ _ _ _ _ _ := (Err EIO, o);
|}.

Definition nobody : caller := mk_caller 65534 65534 1.

(** A kernel that makes a directory and looks it up. *)
Definition demo_wire (hist : list (asked * list cell)) : asked :=
  match hist with
  | [] => mk_asked 4 nobody (QMkdir FUSE_ROOT_ID (lit "d") 511 18)
  | _ => mk_asked 6 nobody (QLookup FUSE_ROOT_ID (lit "d"))
  end.

Lemma demo_asked ext hist : asked_ok ext (demo_wire hist).
Proof.
  split; [|by destruct hist; vm_compute]. destruct hist; unfold q_wf; cbn [demo_wire as_request]; (split; [|split; [|by vm_compute]]).
  - by repeat apply Forall_cons_2; [..|apply Forall_nil_2]; vm_compute.
  - apply Forall_singleton. apply (bool_decide_unpack _). by vm_compute.
  - apply Forall_nil_2.
  - apply Forall_singleton. apply (bool_decide_unpack _). by vm_compute.
Qed.

Lemma demo_wire_fair pipes conn (P : caller -> request -> Prop) : (forall c q, P c q) ->
  w_fair (with_kernel_cache plain_conf 1) ∅ pipes conn P 2 (tg_quota toy_empty) (2 ^ 32 - 4) demo_wire [] k_start.
Proof.
  intros HP. cbn [w_fair]. split_and!; [by vm_compute | by vm_compute | | apply demo_asked | apply HP |].
  { exists (lit "/d"). split.
    - exists (lit "/"). split_and!; try by vm_compute. split_and!; [done | |]; apply (bool_decide_unpack _); by vm_compute.
    - apply (bool_decide_unpack _). by vm_compute. }
  intros r msg k1 (d & Hd & Hstep) Hmsg. assert (d = lit "/") as -> by (by vm_compute in Hd; injection Hd as <-).
  cbv zeta in Hstep. change (child (lit "/") (lit "d")) with (lit "/d") in Hstep. destruct Hstep as (Hfiles & i & g & [Hgive _] & Hnum & ->).
  split_and!; [by vm_compute | by vm_compute | | apply demo_asked | apply HP | done]. cbn [demo_wire app as_request].
  split; [|split; discriminate]. exists (lit "/d"), (lit "/"). split_and!; try by vm_compute.
  - rewrite Hnum. assert (i <> FUSE_ROOT_ID) as Hi by (intros ->; specialize (Hgive (lit "/") eq_refl); discriminate).
    rewrite lookup_insert_ne by done. done.
  - split_and!; [done | |]; apply (bool_decide_unpack _); by vm_compute.
Qed.

Lemma wire_refined_witness : exists w0 f told se1 answered se' k', main_setup toy_chat toy_tok toy_empty = Ok w0 /\
  fuse_new_nodes 0 0 true true [] = Ok (Some f) /\
  fuse_session_process_buf (init_buffer 2 nobody 40 131072 0xffffffff 0 []) 104
    (fuse_session_new (ops_for hello_fs) (lib_start f w0 plain_conf ∅ [] []) 4096 0 true false 0 5) = Ok (tt, se1) /\
  wire_session [] 2 demo_wire [] se1 = Ok (answered, se') /\
  w_session (with_kernel_cache plain_conf 1) ∅ (splice_page se1) se1.(se_conn) 2 demo_wire [] k_start answered k' /\
  se'.(sent) = rev answered.*2 ++ [fuse_send_msg 2 0 (cells (init_out_size 40 (init_out_bytes told)))].
Proof.
  destruct (wire_refined 0 plain_conf ∅ [] [] toy_empty 4096 true false 0 5 2 nobody 40 131072 0xffffffff 0 [])
    as (w0 & f & told & se1 & Hw & Hf & Hrest).
  - exact toy_config.
  - reflexivity.
  - reflexivity.
  - reflexivity.
  - reflexivity.
  - apply Forall_nil_2.
  - vm_compute. discriminate.
  - unfold init_in_ok. split_and!; done.
  - by split.
  - unfold caller_ok. split_and!; done.
  - cbv zeta in Hrest. destruct Hrest as (Hrun & Hsent & Hgr & Hdeny & _ & Hserve).
    destruct (Hserve 2%nat demo_wire) as (answered & se' & k' & Hses & Hk & Hs).
    { apply demo_wire_fair. intros c q. left. exact Hdeny. }
    exists w0, f, told, se1, answered, se', k'. rewrite Hsent in Hs. split_and!; assumption.
Defined.

(** Sessions of the program on such a device, with small pages. *)
Definition demo_tree : fuse := match fuse_new_nodes 0 0 true true [] with Ok (Some f) => f | _ => s0 end.
Definition demo_world : world toy := match main_setup toy_chat toy_tok toy_empty with Ok w => w | Fail _ => toy_world [] end.
Definition demo_session (o : list (list byte)) : fuse_session :=
  fuse_session_new (ops_for hello_fs) (lib_start demo_tree demo_world plain_conf ∅ o []) 128 0 false false 1000 5.

Lemma set_exit_error {os A} b e (se : fuse_session (os := os) (A := A)) : (set_exit b e se).(se_error) = e.
Proof. reflexivity. Qed.

Lemma ok_pair_eq {B S} (b b' : B) (s : S) : b = b' -> Ok (b, s) = Ok (b', s).
Proof. by intros ->. Qed.

Lemma demo_allocates (w : world toy) c (o : list (list byte)) (s := lib_start demo_tree w c ∅ o []) : in_fuse allocates s = Ok (true, s).
Proof.
  assert (demo_tree.(memory) = []) as Hm by (vm_compute; reflexivity).
  rewrite (in_fuse_run allocates s demo_tree true demo_tree eq_refl (allocates_run demo_tree Hm)). reflexivity.
Qed.

(** The same when INIT is over, with and without interrupts. *)
Definition demo_ready (o : list (list byte)) (no_intr : bool) : fuse_session :=
  set_phase true false (set_conn (mk_conn_info 7 40 32768 0 131072 0 0 0 0 1 0 no_intr 0 0) (demo_session o)).

Definition demo_mkdir : request := QMkdir FUSE_ROOT_ID (lit "d") 511 18.
Definition demo_mkdir_header : fuse_in_header := header_of false 4 nobody demo_mkdir.
Definition demo_mkdir_buffer : list cell := q_buffer false 4 nobody demo_mkdir [Poison; Poison].

(** What a run leads to, when it does not fail. *)
Definition after {S} (m : prog S unit) (s : S) : S := match m s with Ok (_, s') => s' | Fail _ => s end.

Lemma after_run {S} (m : prog S unit) s : is_ok (m s) = true -> m s = Ok (tt, after m s).
Proof. unfold after. destruct (m s) as [[[] s']|]; done. Qed.

Lemma request_decoded_witness : exists u, fuse_session_process_buf demo_mkdir_buffer 50 (demo_ready [] true)
  = answer (new_req (demo_ready [] true) demo_mkdir_header) (fuse_lib_mkdir FUSE_ROOT_ID (lit "d") 511)
      (in_service (demo_ready [] true) u (new_req (demo_ready [] true) demo_mkdir_header)).
Proof.
  exists (userdata (demo_ready [] true)). apply (request_decoded 4 nobody demo_mkdir [Poison; Poison] (demo_ready [] true)).
  - split; [done | done | done | by left].
  - by left.
  - apply (demo_asked false []).
  - done.
  - unfold caller_ok. split_and!; done.
  - exact (demo_allocates demo_world plain_conf []).
Defined.



(** A request before INIT. *)
Lemma refusals_witness : fuse_session_process_buf demo_mkdir_buffer 50 (demo_session [])
  = Ok (tt, turned_away EIO demo_mkdir_header (demo_session []) (userdata (demo_session []))).
Proof.
  refine (proj1 (refusals demo_mkdir_buffer 50 (demo_session []) demo_mkdir_header (userdata (demo_session [])) _ _) _ _).
  - vm_compute. reflexivity.
  - exact (demo_allocates demo_world plain_conf []).
  - reflexivity.
  - discriminate.
Defined.

Definition demo_request (n : Z) : fuse_req := mk_req n n 0 0 1 0 false.

Lemma early_interrupt_kept_witness : exists se1, do_interrupt (demo_request 3) (cells (fields [(8%nat, 9)])) (demo_ready [] false) = Ok (tt, se1) /\
  se1.(sent) = [] /\
  enlist (demo_request 9) FUSE_MKDIR se1 = Ok (with_interrupted (demo_request 9) true, set_lists [with_interrupted (demo_request 9) true] [] se1).
Proof.
  apply (early_interrupt_kept (demo_request 3) (cells (fields [(8%nat, 9)])) (demo_ready [] false) 9 (demo_request 9) FUSE_MKDIR).
  - reflexivity.
  - vm_compute. reflexivity.
  - intros x Hx. by apply not_elem_of_nil in Hx.
  - intros i v Hx. by apply not_elem_of_nil in Hx.
  - reflexivity.
  - discriminate.
Defined.

Definition demo_init_arg : list cell := cells (fields (init_in 40 131072 0xffffffff 0)).

Lemma init_settled_witness : let se' := after (do_init (demo_request 2) demo_init_arg) (demo_session []) in
  exists ok c, asked_for demo_init_arg 40 (demo_session []) ok c /\
    ((~ can_be_told ok c (demo_session []) /\ init_refused 2 (demo_session []) se') \/
     (can_be_told ok c (demo_session []) /\ init_agreed 2 40 0xffffffff c (demo_session []) se')).
Proof.
  apply (init_settled (demo_request 2) demo_init_arg 40 0xffffffff (demo_session [])).
  - apply after_run. vm_compute. reflexivity.
  - vm_compute. reflexivity.
  - vm_compute. reflexivity.
  - lia.
  - vm_compute. reflexivity.
  - apply program_honest; reflexivity.
  - split; vm_compute; by split.
  - vm_compute. discriminate.
Defined.

Definition large_writes : fuse_conn_info := mk_conn_info 7 40 (2 ^ 28) 0 131072 0 0 0 0 1 0 true 0 0.

Lemma pages_told_are_cut_witness :
  u16_at (cells (init_out_bytes (init_answer 4096 large_writes 0xffffffff 0xffffffff))) 28 = Ok 0.
Proof.
  apply (pages_told_are_cut 4096 large_writes 0xffffffff 0xffffffff).
  - vm_compute. reflexivity.
  - lia.
  - vm_compute. by split.
  - reflexivity.
  - reflexivity.
Defined.

(** A maximal write of 5000 bytes, on pages of 4096. *)
Definition large_request : list byte := replicate 9096 x00.
Definition short_session : fuse_session :=
  set_bufsize 9096 (fuse_session_new (ops_for hello_fs) (lib_start demo_tree demo_world plain_conf ∅ [large_request] []) 4096 0 false false 1000 5).
Definition short_read : fuse_session :=
  match device_read 9096 (set_userdata (userdata short_session) (noted short_session)) with Ok (_, s) => s | Fail _ => short_session end.

Lemma buffer_room_witness : fuse_session_receive_buf_internal 1 (mk_request_buf None 0 0) short_session = Fail OutOfBounds.
Proof.
  apply (buffer_room 0 short_session (userdata short_session) large_request short_read 0 0 12).
  - split; reflexivity.
  - exact (demo_allocates demo_world plain_conf [large_request]).
  - reflexivity.
  - vm_compute. reflexivity.
  - vm_compute. split; [discriminate | reflexivity].
  - reflexivity.
  - lia.
  - vm_compute. split; [reflexivity | discriminate].
Defined.

(** A device with INIT and a directory to make, and the states the loop goes through. *)
#[local] Abbreviation Demo := (fuse_session (os := list (list byte)) (A := world toy)).
Definition demo_requests : list (list byte) :=
  [in_header 104 FUSE_INIT 2 0 65534 65534 1 ++ fields (init_in 40 131072 0xffffffff 0); q_bytes false 4 65534 65534 1 demo_mkdir].
Definition looked (n : Z) (se : Demo) : option (sysres (list byte)) :=
  match device_read n (noted se) with Ok (r, _) => Some r | Fail _ => None end.
Definition looks (n : Z) (se : Demo) : Demo := match device_read n (noted se) with Ok (_, s) => s | Fail _ => se end.

Lemma looks_looked n se r : looked n se = Some r -> device_read n (noted se) = Ok (r, looks n se).
Proof. unfold looked, looks. destruct (device_read _ _) as [[? ?]|]; [congruence | done]. Qed.

(** A turn, all of it computed. *)
Definition next (n : Z) (data : list byte) (m : list cell) (se : Demo) : Demo :=
  after (fuse_session_process_buf (splice m 0 (cells data)) (zlen data)) (looks n se).

Lemma next_attended n data m se m1 se1 l se' : m1 = splice m 0 (cells data) -> se1 = next n data m se -> se.(exited) = false -> se.(pipes) = false -> looked n se = Some (Ret data) ->
  (IN_HEADER_SIZE <=? zlen data) && (zlen data <=? zlen m) && (zlen data <? 2 ^ 31) = true ->
  is_ok (fuse_session_process_buf (splice m 0 (cells data)) (zlen data) (looks n se)) = true ->
  attended n m1 se1 l se' -> attended n m se (data :: l) se'.
Proof.
  intros -> -> He Hp Hg ((Hd%Z.leb_le & Hm%Z.leb_le)%andb_true_iff & Hl%Z.ltb_lt)%andb_true_iff Hr Hat.
  apply (at_request n m se (looks n se) (next n data m se)); [| by apply looks_looked | done | done | by apply after_run | done].
  split; [done|]. unfold from_device. by rewrite Hp.
Qed.

Definition demo_loop : Demo := demo_session demo_requests.
Definition demo_size : Z := 36864.
Definition demo_memory : list cell := uninit (capacity demo_size 128).
Definition demo_first : Demo := next demo_size (nth 0 demo_requests []) demo_memory demo_loop.
Definition demo_memory1 : list cell := splice demo_memory 0 (cells (nth 0 demo_requests [])).
Definition demo_memory2 : list cell := splice demo_memory1 0 (cells (nth 1 demo_requests [])).
Definition demo_second : Demo := next demo_size (nth 1 demo_requests []) demo_memory1 demo_first.

Lemma demo_attended : attended demo_size demo_memory demo_loop demo_requests
  (set_exit true (looks demo_size demo_second).(se_error) (looks demo_size demo_second)).
Proof.
  apply (next_attended demo_size (nth 0 demo_requests []) demo_memory demo_loop demo_memory1 demo_first [nth 1 demo_requests []]);
    [by unfold demo_memory1 | by unfold demo_first | vm_compute; reflexivity..|].
  apply (next_attended demo_size (nth 1 demo_requests []) demo_memory1 demo_first demo_memory2 demo_second []);
    [by unfold demo_memory2 | by unfold demo_second | vm_compute; reflexivity..|].
  apply (at_gone demo_size demo_memory2 demo_second); [split; vm_compute; reflexivity|]. apply looks_looked. vm_compute. reflexivity.
Qed.

Lemma loop_serves_in_order_witness : let se' := set_exit true (looks demo_size demo_second).(se_error) (looks demo_size demo_second) in
  length se'.(sent) = 2%nat /\ exists k, forall fuel, (k <= fuel)%nat -> fuse_session_loop fuel demo_loop = Ok (0, set_exit false 0 se').
Proof.
  cbv zeta. split; [vm_compute; reflexivity|].
  assert (se_error (looks demo_size demo_second) = 0) as Herr by (vm_compute; reflexivity).
  destruct (loop_serves_in_order demo_loop (userdata demo_loop) demo_requests
    (set_exit true (looks demo_size demo_second).(se_error) (looks demo_size demo_second))) as [k Hk].
  - split; reflexivity.
  - exact (demo_allocates demo_world plain_conf demo_requests).
  - exact demo_attended.
  - exists k. intros fuel Hf. rewrite (Hk fuel Hf). apply ok_pair_eq. rewrite set_exit_error. exact Herr.
Defined.

End WireProps.
