(* ===== verification/CompProps.v ===== *)
(** * Properties of the components

    The contracts of the buffer, the table of files, the response parser and the
    requests, each against a plain description on lists. *)
From S2P Require Import Prelude CLib Buffer Json TgFile TgStorage TgApi Telegram FuseTypes Hello Toy.
Import Buffer Json TgFile TgStorage TgApi Telegram FuseTypes Hello Toy Samples.

Module CompProps.

(** ** The table *)

(** Removing a path takes the first file with that path out of the table
    and returns it; the other files stay, the last one in its place; without
    such a file the zeroed file is returned and the table is unchanged. *)
Theorem remove_takes_first st fs target s :
  rep st fs -> c_string target = Ok s ->
  match lookup_path s fs with
  | Some (k, f) => exists st', tg_storage_remove_by_path st target = Ok (f, st') /\
      rep st' (swap_remove k fs) /\ path_of f = s /\ fs ≡ₚ f :: swap_remove k fs
  | None => tg_storage_remove_by_path st target = Ok (tg_file_zero, st) /\
      Forall (fun f => path_of f <> s) fs
  end.
Proof.
  intros Hrep Hs. pose proof (remove_rep st fs Hrep target s Hs) as Hr.
  destruct (lookup_path s fs) as [[k f]|] eqn:Hlk.
  - destruct Hr as (st' & Hrun & Hrep'). apply lookup_path_Some in Hlk as (Hk & Hp & _).
    exists st'. split; [done|]. split; [done|]. split; [done|]. by apply swap_remove_perm.
  - split; [done|]. by apply lookup_path_None.
Qed.

(** A push appends the file, growing the array when it is full without
    losing a file, and a pop takes it off again, on the same list. *)
Theorem push_pop_roundtrip st fs f :
  rep st fs -> file_wf f -> zlen fs * 2 + 1 <= INT_MAX ->
  exists st1 st2, tg_storage_push st f = Ok st1 /\ rep st1 (fs ++ [f]) /\
    tg_storage_pop st1 = Ok (f, st2) /\ rep st2 fs.
Proof.
  intros Hrep Hf Hmax. destruct (push_rep st fs f Hrep Hf Hmax) as (st1 & H1 & Hr1).
  destruct (pop_rep st1 fs f Hr1) as (st2 & H2 & Hr2). by exists st1, st2.
Qed.

(** The two searches return the first index that qualifies, of the path
    and from a start index of a file in the directory, and -1 or no file when
    there is none. *)
Theorem searches_find_first st fs target s from :
  rep st fs -> c_string target = Ok s -> 0 <= from ->
  tg_storage_find_by_path st target =
    Ok ((fun '(k, _) => Z.of_nat k) <$> list_find (fun f => path_of f = s) fs) /\
  exists i, tg_storage_find_files_by_dir st target from = Ok i /\
    ((i = -1 /\ forall k f, from <= Z.of_nat k -> fs !! k = Some f -> ~ in_dir s f) \/
     (exists k f, i = Z.of_nat k /\ from <= i /\ fs !! k = Some f /\ in_dir s f /\
        forall j g, from <= Z.of_nat j -> (j < k)%nat -> fs !! j = Some g -> ~ in_dir s g)).
Proof.
  intros Hrep Hs Hfrom. split; [exact (find_rep st fs Hrep target s Hs)|].
  exists (next_in_dir s fs from). split; [exact (find_files_rep st fs Hrep target s Hs from Hfrom)|].
  unfold next_in_dir. destruct (list_find (in_dir s) (zdrop from fs)) as [[k f]|] eqn:Hf.
  - apply list_find_Some in Hf as (Hk & Hin & Hb). unfold zdrop in *. rewrite lookup_drop in Hk.
    right. exists (Z.to_nat from + k)%nat, f. split; [lia|]. split; [lia|]. split; [done|].
    split; [done|]. intros j g Hj Hlt Hg. apply (Hb (j - Z.to_nat from)%nat); [|lia].
    rewrite lookup_drop. by replace (Z.to_nat from + (j - Z.to_nat from))%nat with j by lia.
  - left. split; [done|]. intros k f Hk Hkf. apply list_find_None in Hf.
    rewrite Forall_lookup in Hf. apply (Hf (k - Z.to_nat from)%nat). unfold zdrop.
    rewrite lookup_drop. by replace (Z.to_nat from + (k - Z.to_nat from))%nat with k by lia.
Qed.

(** ** The buffer *)

(** An insert overwrites the contents from the position on and extends
    them when the data reach past their end; at a position past the end the
    cells in between are never written. *)
Theorem insert_overwrites b pos data :
  buffer_wf b -> 0 <= pos -> pos + zlen data <= malloc_max ->
  exists b', buffer_insert b pos data (zlen data) = Ok b' /\ buffer_wf b' /\
    b'.(Buffer.size) = b.(Buffer.size) `max` (pos + zlen data) /\
    (pos <= zlen (contents b) ->
     contents b' = ztake pos (contents b) ++ data ++ zdrop (pos + zlen data) (contents b)) /\
    (zlen (contents b) <= pos ->
     contents b' = contents b ++ uninit (pos - zlen (contents b)) ++ data).
Proof.
  intros Hwf Hpos Hmax. destruct (buffer_insert_spec b pos data Hwf Hpos Hmax) as (b' & Hb & Hwf' & Hc).
  exists b'. split; [done|]. split; [done|]. pose proof (zlen_contents b Hwf) as Hz. split; [|split].
  - rewrite <- (zlen_contents b' Hwf'), Hc, <- Hz. unfold write_at.
    rewrite !zlen_app. destruct (Z.le_gt_cases pos (zlen (contents b))).
    + rewrite ztake_app_le, zlen_ztake by lia.
      destruct (Z.le_gt_cases (pos + zlen data) (zlen (contents b))).
      * rewrite zlen_zdrop by lia. lia.
      * rewrite zdrop_ge by lia. simpl. lia.
    + rewrite ztake_ge by (rewrite zlen_app, zlen_uninit; lia).
      rewrite zlen_app, zlen_uninit, zdrop_ge by lia. simpl. lia.
  - intros H. rewrite Hc. apply write_at_inside. lia.
  - intros H. rewrite Hc. by apply write_at_gap.
Qed.

(** The file writer appends every chunk of a transfer: the buffer ends up
    with their concatenation, however it was cut. *)
Theorem file_writer_collects b chunks :
  buffer_wf b -> b.(capacity) + zlen (concat chunks) <= malloc_max ->
  exists b', deliver curl_response_file_writer b chunks = Ok (true, b') /\ buffer_wf b' /\
    contents b' = contents b ++ cells (concat chunks).
Proof.
  revert b. induction chunks as [|c cs IH]; intros b Hwf Hmax.
  - exists b. simpl. by rewrite cells_nil, app_nil_r.
  - simpl in Hmax. rewrite zlen_app in Hmax. pose proof Hwf as (m & _ & _ & Hs & Hcap & _).
    destruct (buffer_append_spec b (cells c)) as (b1 & H1 & Hwf1 & Hc1 & Hcap1);
      [done | rewrite zlen_cells; lia |]. rewrite zlen_cells in *.
    destruct (IH b1 Hwf1) as (b2 & H2 & Hwf2 & Hc2); [lia|]. exists b2.
    cbn [deliver]. unfold curl_response_file_writer at 1.
    rewrite Z.mul_1_l, u64_small by (unfold malloc_max, SIZE_MAX in *; lia).
    rewrite H1. cbn [obind]. rewrite Z.eqb_refl, H2. split; [done|]. split; [done|].
    by rewrite Hc2, Hc1, concat_cons, cells_app, app_assoc.
Qed.

(** ** Responses *)

(** On a text whose first occurrence of the field's name is followed by
    the closing quote, a colon and a value, the parser copies the value: the
    bytes up to the comma or brace, without the quotes of a string. *)
Theorem parser_reads_field src s field w dst :
  c_string src = Ok s -> field_text s field w -> zlen w <= zlen dst <= SIZE_MAX ->
  parse_response_field_from_json dst src field = Ok (0, cells w ++ zdrop (zlen w) dst).
Proof.
  intros Hs Hf Hl. apply (parse_field src s [] field w dst); [by rewrite app_nil_r | done | done].
Qed.

(** The answer to an upload of a file of that name. *)
Definition name_response : list byte :=
  qlit "{'ok':true,'result':{'message_id':7,'document':{'file_name':'file_id','mime_type':'x','file_id':'BQAC'}}}".

(** For a file that is called file_id, the parser takes the rest of the
    name's own text for the identifier. *)
Theorem parser_confused_by_name :
  parse_response_field_from_json (memset0 100) (cstr name_response) (lit "file_id") =
    Ok (0, cells (qlit "mime_type':'x") ++ memset0 87) /\
  find_sub (qlit "'file_id':'BQAC'") name_response <> None.
Proof. split; [vm_compute; reflexivity | vm_compute; discriminate]. Qed.

(** When a response comes in two pieces and the second is not the shorter
    one, the array ends up with the second piece at its start: the first is
    lost. *)
Theorem json_pieces_overwrite j a b :
  0 < zlen a -> zlen a <= zlen b -> zlen b <= zlen j <= SIZE_MAX ->
  deliver curl_response_json_writer j [a; b] = deliver curl_response_json_writer j [b].
Proof.
  intros Ha Hab Hj. cbn [deliver]. unfold curl_response_json_writer.
  rewrite !Z.mul_1_l, !u64_small by lia.
  rewrite !mem_read_in, !zdrop_0, !ztake_ge by (rewrite ?zlen_cells; lia). cbn [obind].
  rewrite !mem_write_in by (rewrite ?zlen_cells; lia). cbn [obind]. rewrite Z.eqb_refl.
  rewrite mem_write_in by (rewrite ?zlen_splice; rewrite ?zlen_cells; lia). cbn [obind].
  rewrite !Z.eqb_refl. do 2 f_equal. unfold splice. rewrite !ztake_0. simpl. f_equal.
  rewrite zdrop_app_ge by (rewrite !zlen_cells; lia). rewrite !zlen_cells.
  rewrite zdrop_zdrop by lia. f_equal. lia.
Qed.

(** A response that is longer than the array is written past its end. *)
Theorem json_response_overflows j resp :
  zlen j = JSON_RESPONSE_BUF_SIZE -> JSON_RESPONSE_BUF_SIZE < zlen resp <= SIZE_MAX ->
  deliver curl_response_json_writer j [resp] = Fail OutOfBounds.
Proof.
  intros Hj Hl. unfold JSON_RESPONSE_BUF_SIZE in *. cbn [deliver]. unfold curl_response_json_writer.
  rewrite Z.mul_1_l, u64_small by lia.
  rewrite mem_read_in, zdrop_0, ztake_ge by (rewrite ?zlen_cells; lia). cbn [obind].
  unfold mem_write, guard_c. rewrite zlen_cells.
  rewrite (proj2 (Z.leb_gt (0 + zlen resp) (zlen j))) by lia. by rewrite andb_false_r.
Qed.

(** ** Uploads *)

Section uploads.
Context {net : Type} `{CurlEnv net}.
Implicit Types (s : api net).

(** Uploading a file that has no identifier yet: with a response that says
ok the file gets the identifiers in it, with one that does not the file is
unchanged; its path, size and type never change. *)
Theorem upload_outcome s file cfg tok chat data n' resp :
  config_strings cfg tok chat -> file_wf file -> json_wf s.(json_response_buf) ->
  handle_ok s.(network) -> buffer_wf data ->
  id_array file.(file_id) [] -> id_array file.(message_id) [] ->
  curl_easy_perform s.(network) (mk_request (send_url tok chat (top_dir (path_of file)))
  (Some (mk_part (lit "document") (basename (path_of file)) (contents data)))) =
  (mk_transfer CURLE_OK [resp], n') ->
  (error_response resp ->
  exists j, tg_put_file file cfg data s = Ok (file, mk_api j n')) /\
  (forall fid mid, ok_response resp -> field_text resp (lit "file_id") fid ->
  field_text resp (lit "message_id") mid -> good_id fid -> good_id mid ->
  exists j file', tg_put_file file cfg data s = Ok (file', mk_api j n') /\
    str_of file'.(file_id) = fid /\ str_of file'.(message_id) = mid /\
    file'.(path) = file.(path) /\ file'.(type) = file.(type) /\
    file'.(file_size) = file.(file_size)).
Proof.
  intros Hcfg Hwf Hj Hh Hb Hi Hm Hp.
  pose proof (tg_put_file_run s file cfg data [] Hh Hb Hwf Hi) as Hrun.
  cbv zeta in Hrun. rewrite decide_True in Hrun by done. rewrite Hrun. split.
  - intros He. destruct (put_new_refused s file cfg tok chat _ Hcfg Hwf Hj n' _ resp Hp He)
    as (j & ? & _). by exists j.
  - intros fid mid Hok Hf Hmf Hgf Hgm.
  destruct (put_new_ok s file cfg tok chat _ Hcfg Hwf Hj n' _ resp fid mid Hi Hm Hp Hok Hf Hmf
    Hgf Hgm) as (j & file' & ? & _ & Hfi & Hmi & ?).
  exists j, file'. split; [done|]. split; [by apply id_array_str|].
  split; [by apply id_array_str | done].
Qed.

(** C39: when the upload of a new file fails before any byte of a response,
what the previous request left in the array is read as its answer: after a
successful one the file gets the identifiers of that earlier message. *)
Theorem failed_upload_reads_old_response s file cfg tok chat part n' code old t fid mid :
  config_strings cfg tok chat -> file_wf file ->
  c_string s.(json_response_buf) = Ok (old ++ t) -> ok_response old ->
  field_text old (lit "file_id") fid -> field_text old (lit "message_id") mid ->
  good_id fid -> good_id mid ->
  id_array file.(file_id) [] -> id_array file.(message_id) [] ->
  curl_easy_perform s.(network) (mk_request (send_url tok chat (top_dir (path_of file)))
  (Some part)) = (mk_transfer code [], n') ->
  exists file', put_new file cfg part s = Ok (file', mk_api s.(json_response_buf) n') /\
  str_of file'.(file_id) = fid /\ str_of file'.(message_id) = mid.
Proof.
  intros (Ht & Hc & Hlt & Hlc) Hwf Hs [Hr Hok] Hf Hmf (_ & Hfn & Hfl) (_ & Hmn & Hml) Hi Hm Hp.
  destruct (top_dir_fits file Hwf) as [Hdn Hdl].
  destruct (extract_directory_spec file (uninit 100) Hwf eq_refl) as (a & Ha & _ & Has).
  set (s' := mk_api s.(json_response_buf) n').
  assert (perform_json (mk_request (send_url tok chat (top_dir (path_of file))) (Some part)) s =
  Ok (code, s')) as Hrun.
  { unfold perform_json. prun_get. by rewrite Hp. }
  unfold put_new. prun_lift Ha. prun_lift Ht. prun_lift Hc. prun_lift Has.
  prun_lift (send_url_fits tok chat _ (c_string_no_NUL _ _ Ht) (c_string_no_NUL _ _ Hc)
  Hdn Hlt Hlc Hdl).
  prun Hrun. prun (check_json_run s' old t (lit "true") Hs Hok eq_refl).
  rewrite bool_decide_eq_true_2 by done. cbn [negb].
  destruct Hi as (-> & _), Hm as (-> & _). rewrite !cells_nil.
  change (memset0 (100 - zlen [])) with (memset0 100). cbn [app].
  assert (zlen (memset0 100) = 100) as H100 by done.
  prun (read_field_run s' old t _ fid (memset0 100) Hs Hf
  ltac:(rewrite H100; unfold SIZE_MAX; lia)).
  prun (read_field_run s' old t _ mid (memset0 100) Hs Hmf
  ltac:(rewrite H100; unfold SIZE_MAX; lia)).
  eexists. split; [done|]. simpl. split; by apply id_array_str, id_array_fill.
Qed.
End uploads.

(** ** Paths and settings *)

(** Of the path of a well-formed entry, the file name is the text after
    the last slash and the directory the text before the second slash (the root
    when there is one slash only), each copied as a string that fits. *)
Theorem path_parts f dst :
  file_wf f -> zlen dst = FILE_PATH_SIZE ->
  (exists a, tg_file_extract_filename dst f = Ok a /\ c_string a = Ok (basename (path_of f))) /\
  (exists a, tg_file_extract_directory dst f = Ok a /\ c_string a = Ok (top_dir (path_of f))).
Proof.
  intros Hwf Hd. destruct (extract_filename_spec f dst Hwf Hd) as (a & ? & _ & ?).
  destruct (extract_directory_spec f dst Hwf Hd) as (b & ? & _ & ?).
  split; [by exists a | by exists b].
Qed.

(** ** Witnesses *)

Definition demo_storage : tg_storage := (toy_world demo_table).(storage).

Lemma demo_rep : rep demo_storage demo_table.
Proof. apply demo_holds. Qed.

Lemma remove_takes_first_witness :
  exists st', tg_storage_remove_by_path demo_storage (cstr (lit "/d")) = Ok (dir_at (lit "/d"), st') /\
    rep st' (swap_remove 1 demo_table) /\ path_of (dir_at (lit "/d")) = lit "/d" /\
    demo_table ≡ₚ dir_at (lit "/d") :: swap_remove 1 demo_table.
Proof.
  exact (remove_takes_first demo_storage demo_table (cstr (lit "/d")) (lit "/d") demo_rep
    (c_string_cstr (lit "/d") ltac:(no_NUL))).
Defined.

Lemma push_pop_roundtrip_witness :
  exists st1 st2, tg_storage_push demo_storage (file_at (lit "/e")) = Ok st1 /\
    rep st1 (demo_table ++ [file_at (lit "/e")]) /\
    tg_storage_pop st1 = Ok (file_at (lit "/e"), st2) /\ rep st2 demo_table.
Proof.
  apply (push_pop_roundtrip demo_storage demo_table (file_at (lit "/e"))).
  - exact demo_rep.
  - apply file_at_ok. good.
  - vm_compute. discriminate.
Defined.

Lemma searches_find_first_witness :
  tg_storage_find_by_path demo_storage (cstr (lit "/d")) = Ok (Some 1) /\
  exists i, tg_storage_find_files_by_dir demo_storage (cstr (lit "/d")) 3 = Ok i /\
    ((i = -1 /\ forall k f, 3 <= Z.of_nat k -> demo_table !! k = Some f -> ~ in_dir (lit "/d") f) \/
     (exists k f, i = Z.of_nat k /\ 3 <= i /\ demo_table !! k = Some f /\ in_dir (lit "/d") f /\
        forall j g, 3 <= Z.of_nat j -> (j < k)%nat -> demo_table !! j = Some g -> ~ in_dir (lit "/d") g)).
Proof.
  apply (searches_find_first demo_storage demo_table (cstr (lit "/d")) (lit "/d") 3).
  - exact demo_rep.
  - apply c_string_cstr. no_NUL.
  - lia.
Defined.

Definition sample_buffer : buffer :=
  mk_buffer (Some (cells (lit "abcdef") ++ uninit 2)) 8 6.

Lemma sample_buffer_wf : buffer_wf sample_buffer.
Proof. eexists. split; [reflexivity|]. vm_compute. repeat split; discriminate. Qed.

Lemma insert_overwrites_witness :
  exists b', buffer_insert sample_buffer 9 (cells (lit "xyz")) 3 = Ok b' /\ buffer_wf b' /\
    b'.(Buffer.size) = 12 /\
    (9 <= 6 -> contents b' = ztake 9 (cells (lit "abcdef")) ++ cells (lit "xyz") ++ []) /\
    (6 <= 9 -> contents b' = cells (lit "abcdef") ++ uninit 3 ++ cells (lit "xyz")).
Proof.
  apply (insert_overwrites sample_buffer 9 (cells (lit "xyz"))).
  - exact sample_buffer_wf.
  - lia.
  - vm_compute. discriminate.
Defined.

Lemma file_writer_collects_witness :
  exists b', deliver curl_response_file_writer sample_buffer [lit "xyz"; []; lit "w"] = Ok (true, b') /\
    buffer_wf b' /\ contents b' = cells (lit "abcdef") ++ cells (lit "xyzw").
Proof.
  apply (file_writer_collects sample_buffer [lit "xyz"; []; lit "w"]).
  - exact sample_buffer_wf.
  - vm_compute. discriminate.
Defined.

Lemma parser_reads_field_witness :
  parse_response_field_from_json (memset0 100) (cstr (send_response 2)) (lit "file_id") =
    Ok (0, cells (lit "fff") ++ memset0 97).
Proof.
  apply (parser_reads_field (cstr (send_response 2)) (send_response 2) (lit "file_id") (lit "fff")
    (memset0 100)).
  - apply c_string_cstr. no_NUL.
  - apply (responses_ok 2). apply (bool_decide_unpack _). vm_compute. exact I.
  - vm_compute. split; discriminate.
Defined.

Lemma json_pieces_overwrite_witness :
  deliver curl_response_json_writer (memset0 16) [lit "{'ok'"; lit ":true}"] =
  deliver curl_response_json_writer (memset0 16) [lit ":true}"].
Proof.
  apply (json_pieces_overwrite (memset0 16) (lit "{'ok'") (lit ":true}"));
    vm_compute; try split; (discriminate || reflexivity).
Defined.

Lemma json_response_overflows_witness :
  deliver curl_response_json_writer (memset0 1024) [replicate 1025 x20] = Fail OutOfBounds.
Proof.
  apply (json_response_overflows (memset0 1024) (replicate 1025 x20)).
  - reflexivity.
  - vm_compute. split; [reflexivity | discriminate].
Defined.

Definition sample_api : api toy := (toy_world demo_table).(tg_api).

Lemma upload_outcome_witness :
  exists j file', tg_put_file (file_at (lit "/d/a")) toy_cfg sample_buffer sample_api =
      Ok (file', mk_api j (mk_toy 1 {[ 0%nat := lit "abcdef" ]})) /\
    str_of file'.(file_id) = toy_fid 0 /\ str_of file'.(message_id) = toy_mid 0 /\
    file'.(path) = (file_at (lit "/d/a")).(path) /\ file'.(type) = (file_at (lit "/d/a")).(type) /\
    file'.(file_size) = (file_at (lit "/d/a")).(file_size).
Proof.
  destruct (responses_ok 0 ltac:(good)) as (Hok & _ & Hf & Hm & _ & Hgf & Hgm).
  refine (proj2 (upload_outcome sample_api (file_at (lit "/d/a")) toy_cfg toy_tok toy_chat
    sample_buffer (mk_toy 1 {[ 0%nat := lit "abcdef" ]}) (send_response 0) _ _ _ _ _ _ _ _)
    (toy_fid 0) (toy_mid 0) Hok Hf Hm Hgf Hgm).
  - split; [|split; [|split]]; vm_compute; reflexivity.
  - apply file_at_ok. good.
  - apply json_wf_zero.
  - split; [|split; [|split]]; reflexivity.
  - exact sample_buffer_wf.
  - split; [vm_compute; reflexivity | split; [no_NUL | reflexivity]].
  - split; [vm_compute; reflexivity | split; [no_NUL | reflexivity]].
  - vm_compute. reflexivity.
Defined.

(** The array after an earlier upload, and a network that is down. *)
#[local] Instance down : CurlEnv unit := {|
  curl_easy_init _ := true;
  curl_mime_name _ := CURLE_OK;
  curl_mime_data _ := CURLE_OK;
  curl_mime_filename _ := CURLE_OK;
  curl_easy_perform n r := (mk_transfer 7 [], n);
|}.

Lemma failed_upload_reads_old_response_witness :
  exists file', put_new (file_at (lit "/d/b")) toy_cfg (mk_part (lit "document") (lit "b") [])
      (mk_api (cstr (send_response 4)) tt) = Ok (file', mk_api (cstr (send_response 4)) tt) /\
    str_of file'.(file_id) = toy_fid 4 /\ str_of file'.(message_id) = toy_mid 4.
Proof.
  destruct (responses_ok 4 ltac:(good)) as (Hok & _ & Hf & Hm & _ & Hgf & Hgm).
  apply (failed_upload_reads_old_response (mk_api (cstr (send_response 4)) tt) (file_at (lit "/d/b"))
    toy_cfg toy_tok toy_chat (mk_part (lit "document") (lit "b") []) tt 7 (send_response 4) []).
  - split; [|split; [|split]]; vm_compute; reflexivity.
  - apply file_at_ok. good.
  - rewrite app_nil_r. apply c_string_cstr. no_NUL.
  - exact Hok.
  - exact Hf.
  - exact Hm.
  - exact Hgf.
  - exact Hgm.
  - split; [vm_compute; reflexivity | split; [no_NUL | reflexivity]].
  - split; [vm_compute; reflexivity | split; [no_NUL | reflexivity]].
  - reflexivity.
Defined.

Lemma path_parts_witness :
  (exists a, tg_file_extract_filename (uninit 100) (file_at (lit "/d/e/x")) = Ok a /\
    c_string a = Ok (lit "x")) /\
  (exists a, tg_file_extract_directory (uninit 100) (file_at (lit "/d/e/x")) = Ok a /\
    c_string a = Ok (lit "/d")).
Proof.
  apply (path_parts (file_at (lit "/d/e/x")) (uninit 100)).
  - apply file_at_ok. good.
  - reflexivity.
Defined.

End CompProps.
