(* ===== verification/FsProps.v ===== *)
(** * Properties of the file system (src/main.c)

    The theorems about the program as a whole, on a server that keeps its
    contract, and what it does on servers and calls outside of it.  The examples
    run the program on the server of Toy. *)
From S2P Require Import Prelude CLib Buffer Json TgFile TgStorage TgApi Telegram.
From S2P Require Import FuseTypes Hello HelloFacts MemFs Refine Rmdir Toy.
Import Buffer TgFile TgStorage TgApi Telegram FuseTypes Hello HelloFacts MemFs Refine Rmdir Toy Samples.

Module FsProps.

Definition root_map : amap := {[ lit "/" := ADir ]}.

Section props.
Context {net : Type} `{CurlEnv net} {tok chat : list byte} `{!Telegram net tok chat}.
Implicit Types (w : world net) (n : net) (fs : list tg_file).

(** C8: started by main on a server that keeps its contract, the program
answers every admissible sequence of calls (getattr, open, readdir, mkdir,
create, unlink, rmdir, read, write; uploads within the server's quota) as
the in-memory map would, without a fault, and ends in a related state. *)
Theorem serves_as_memfs n cs :
  good_config (tok := tok) (chat := chat) -> uploads_all cs <= tg_quota n ->
  admissible_all root_map cs ->
  exists w0 rs w' m', main_setup chat tok n = Ok w0 /\ exec_all cs w0 = Ok (rs, w') /\
  a_steps root_map cs rs m' /\ R (tg_quota n - uploads_all cs) w' m'.
Proof.
  intros Hg Hq Hadm. destruct (setup_R n Hg) as (w0 & Hs & HR).
  destruct (sim_steps cs w0 root_map (tg_quota n - uploads_all cs)) as (rs & w' & m' & ? & ? & ?);
  [| lia | done |].
  - by replace (tg_quota n - uploads_all cs + uploads_all cs) with (tg_quota n) by lia.
  - by exists w0, rs, w', m'.
Qed.

(** C9: what a write stores, a read at the same offset returns, from any state
related to a map in which the path is a file reaching to the offset. *)
Theorem write_read_back w m p c d off :
  R 1 w m -> m !! p = Some (AFile c) -> (NUL ∉ p) -> 0 < zlen d <= INT_MAX ->
  0 <= off <= zlen c -> off + zlen d < MAX_CONTENT ->
  exists w', exec_all [CWrite p d off; CRead p (zlen d) off] w =
  Ok ([RInt (zlen d); RData (zlen d) d], w').
Proof.
  intros HR Hc Hp Hd Ho Hmax.
  destruct (sim_steps [CWrite p d off; CRead p (zlen d) off] w m 0) as
  (rs & w' & m' & Hrun & Hst & _); [done | done | |].
  { split; [simpl; by rewrite Hc|]. split; [|done]. simpl. unfold MAX_CONTENT in *.
  split; [done|]. lia. }
  exists w'. rewrite Hrun. simpl in Hst.
  destruct Hst as (r1 & rs1 & m1 & -> & H1 & r2 & rs2 & m2 & -> & H2 & -> & _).
  rewrite Hc in H1. destruct H1 as [-> ->]. destruct H2 as [-> _]. unfold a_read.
  rewrite lookup_insert_eq.
  assert (ztake (zlen d) (zdrop off (overwrite c off d)) = d) as ->; [|done].
  unfold overwrite. rewrite zdrop_app_exact by (rewrite zlen_ztake; lia).
  by apply ztake_app_exact.
Qed.

(** C10: rmdir of a directory, empty or not, ends, returns 0, and leaves the
table without the directory and without the first of its files, when it has
any; no file outside of it is touched and none appears.  (Others of its
files may stay: the removal of one moves the last file of the table behind
the search.) *)
Theorem rmdir_removes_only w fs p :
  holds w fs -> NUL ∉ p -> is_dir_at p fs = true ->
  exists w' fs', hello_rmdir p w = Ok (0, w') /\ holds w' fs' /\
  lookup_path p fs' = None /\
  (forall f rest, filter (in_dir p) fs = f :: rest -> f ∉ fs') /\
  (forall f, f ∈ fs' -> f ∈ fs) /\
  (forall f, f ∈ fs -> path_of f <> p -> ~ in_dir p f -> f ∈ fs').
Proof.
  intros Hh Hp Hd. destruct (rmdir_run w fs p Hh Hp Hd) as (w' & Hrun & Hh').
  assert (NoDup (path_of <$> fs)) as Hnd by apply Hh. destruct (rmdir_table_gone p fs Hnd) as [Hgone Hfirst].
  exists w', (rmdir_table p fs). split_and!; [done | done | by apply lookup_path_None | exact Hfirst | |];
  intros f; by apply rmdir_table_elem.
Qed.

(** When the last two files of the table are all the directory has, rmdir
deletes the first of them and leaves the second, with the directory gone:
the removal moves the last file into the hole, behind the search. *)
Theorem rmdir_skips_moved_file w pre f g p :
  holds w (pre ++ [f; g]) -> NUL ∉ p -> is_dir_at p (pre ++ [f; g]) = true ->
  (forall h, h ∈ pre -> ~ in_dir p h) -> in_dir p f -> in_dir p g ->
  exists w' fs', hello_rmdir p w = Ok (0, w') /\ holds w' fs' /\ (f ∉ fs') /\ g ∈ fs'.
Proof.
  intros Hh Hp Hd Hpre Hf Hg. destruct (rmdir_run w _ p Hh Hp Hd) as (w' & Hrun & Hh').
  exists w', (rmdir_table p (pre ++ [f; g])). split; [done|]. split; [done|].
  assert (NoDup (path_of <$> pre ++ [f; g])) as Hnd by apply Hh.
  rewrite fmap_app in Hnd. apply NoDup_app in Hnd as (_ & Hout & Hfg).
  cbn in Hfg. apply NoDup_cons in Hfg as [Hfg _].
  destruct (rmdir_two pre f g p Hpre Hf Hg) as [Hin Hsub]. split; [|exact Hin].
  intros Hx. apply Hsub in Hx. apply elem_of_app in Hx as [Hx|Hx].
  - by apply (Hpre f).
  - apply list_elem_of_singleton in Hx as ->. apply Hfg. by left.
Qed.

(** Create on a path that already names a file reports success and adds a
second entry with the same path, which no lookup finds. *)
Theorem create_again_hides w fs p k f :
  rep w.(storage) fs -> good_path p -> lookup_path p fs = Some (k, f) ->
  f.(type) = TG_FILE -> zlen fs * 2 + 1 <= INT_MAX ->
  exists g st, hello_create p w = Ok (0, mk_world st w.(config) w.(tg_api)) /\
  rep st (fs ++ [g]) /\ path_of g = p /\ lookup_path p (fs ++ [g]) = Some (k, f).
Proof.
  intros Hrep Hp Hlk Ht Hmax. pose proof (create_spec w fs p Hrep Hp Hmax) as Hcr.
  unfold is_dir_at in Hcr. rewrite Hlk, bool_decide_eq_false_2 in Hcr by (rewrite Ht; done).
  destruct Hcr as (g & st & Hrun & Hg & Hst). exists g, st. split; [done|]. split; [done|].
  destruct (new_file_spec p 0 Hp ltac:(unfold SIZE_MAX; lia)) as (g' & Hg' & _ & Hpath & _).
  rewrite Hg in Hg'. injection Hg' as <-. split; [done|]. by apply list_find_app_l.
Qed.

(** A write to a path that is not in the table stores the bytes in a
message whose identifiers are dropped: the entry has the size of the data,
and a read of it returns nothing. *)
Theorem write_unknown_path_loses w fs p d size off :
  holds w fs -> good_path p -> lookup_path p fs = None -> 0 < zlen d <= INT_MAX ->
  zlen fs * 2 + 1 <= INT_MAX -> 0 < tg_quota (net_of w) ->
  exists w' f, hello_write p (cells d) (zlen d) 0 w = Ok (zlen d, w') /\
  rep w'.(storage) (fs ++ [f]) /\ path_of f = p /\ f.(file_size) = zlen d /\
  (exists fid mid, tg_files (net_of w') !! fid = Some (mid, d)) /\
  hello_read p (uninit size) size off w' = Ok (0, uninit size, w').
Proof.
  intros Hh Hp Hlk Hd Hmax Hq. assert (Hh' := Hh). destruct Hh' as (Hrep & Hc & Hj & _).
  assert (NUL ∉ p) as Hn by apply Hp. unfold INT_MAX in Hd.
  destruct (new_file_spec p (zlen d) Hp ltac:(unfold SIZE_MAX; lia))
  as (f & Hf & Hwf & Hpath & Ht & Hs & Hi & Hm).
  destruct (push_world w fs f Hrep Hwf Hmax) as (st & Hst & Hrep2).
  destruct (buffer_insert_spec buffer_new 0 (cells d) buffer_new_wf) as (b & Hb & Hbw & Hbc);
  [lia | rewrite zlen_cells; unfold malloc_max; lia |].
  change (contents buffer_new) with (cells []) in Hbc.
  rewrite cells_overwrite in Hbc by (simpl; lia).
  assert (overwrite [] 0 d = d) as Hod.
  { unfold overwrite. rewrite ztake_0, zdrop_ge by (simpl; lia). by rewrite app_nil_r. }
  rewrite Hod in Hbc. rewrite zlen_cells in Hb.
  destruct (file_ids f Hwf) as [Hfi Hmi]. unfold fid_of in Hfi. unfold mid_of in Hmi.
  rewrite Hi in Hfi. rewrite Hm in Hmi.
  pose proof (tg_put_file_run w.(tg_api) f w.(config) b [] (tg_handle (net_of w)) Hbw Hwf Hfi)
  as Hput. cbv zeta in Hput. rewrite decide_True, Hbc in Hput by done.
  destruct (tg_send (net_of w) (top_dir (path_of f)) (basename (path_of f)) d Hq) as
  (n' & resp & fid & mid & Hperf & Hok & Hff & Hmf & Hgf & Hgm & _ & _ & Hfs & _).
  destruct (put_new_ok w.(tg_api) f w.(config) tok chat _ Hc Hwf Hj n' CURLE_OK resp fid mid
  Hfi Hmi Hperf Hok Hff Hmf Hgf Hgm) as (j & f' & Hrun & _).
  rewrite Hrun in Hput.
  exists (mk_world st w.(config) (mk_api j n')), f. split.
  { unfold hello_write. prun (find_path_rep w fs p Hrep Hn). rewrite Hlk.
  cbn [fmap option_fmap option_map]. rewrite Z.add_0_l, u64_small by (unfold SIZE_MAX; lia).
  prun_lift Hf. prun Hst. prun_lift Hb. prun_get.
  prun (in_api_run _ (mk_world st w.(config) w.(tg_api)) _ _ Hput).
  rewrite i32_small by (unfold INT_MAX; lia). done. }
  split; [exact Hrep2|]. split; [done|]. split; [done|]. split.
  { exists fid, mid. change (net_of _) with n'. rewrite Hfs. by rewrite lookup_insert_eq. }
  set (w2 := mk_world st _ _). unfold hello_read.
  prun (find_path_rep w2 (fs ++ [f]) p Hrep2 Hn).
  assert (lookup_path p (fs ++ [f]) = Some (length fs, f)) as ->.
  { apply lookup_path_None in Hlk. rewrite Forall_forall in Hlk.
  apply (list_find_app_first fs f []); [exact Hlk | exact Hpath]. }
  cbn [fmap option_fmap option_map].
  assert ((fs ++ [f]) !! length fs = Some f) as Hlast by (by apply list_lookup_middle).
  prun (deref_rep w2 _ _ f Hrep2 Hlast). by prun_lift (strlen_id _ _ Hfi).
Qed.
(** C11: when the request for a file's location fails, a write to the file
uploads only the new bytes, behind as many unwritten bytes as the offset:
what the file held is replaced. *)
Theorem write_after_failed_load w fs p k f d off code n1 :
  rep w.(storage) fs -> config_strings w.(config) tok chat -> NUL ∉ p ->
  lookup_path p fs = Some (k, f) -> f.(type) = TG_FILE -> 0 < f.(file_size) ->
  curl_easy_perform (net_of w) (mk_request (get_url tok (fid_of f)) None) =
  (mk_transfer code [], n1) -> code <> CURLE_OK ->
  0 <= off -> off + zlen d <= INT_MAX ->
  exists b, buffer_wf b /\ contents b = uninit off ++ cells d /\
  hello_write p (cells d) (zlen d) off w =
    (g <-- in_api (tg_put_file f w.(config) b) ;;
     Hello.store (Z.of_nat k) (with_file_size g b.(Buffer.size)) ;;;
     pret (zlen d))
    (mk_world w.(storage) w.(config) (mk_api (memset0 JSON_RESPONSE_BUF_SIZE) n1)).
Proof.
  intros Hrep (Ht & Hc & Hlt & Hlc) Hn Hlk Hty Hsz Hperf Hcode Hoff Hmax.
  unfold INT_MAX in Hmax. apply lookup_path_in in Hlk as Hk.
  pose proof (rep_wf _ _ Hrep) as Hwf. rewrite Forall_lookup in Hwf. specialize (Hwf _ _ Hk).
  destruct (file_ids f Hwf) as [Hfid _]. assert (Hid := Hfid). destruct Hid as (_ & Hin & Hil).
  destruct (buffer_insert_spec buffer_new off (cells d) buffer_new_wf) as (b & Hb & Hbw & Hbc);
  [lia | rewrite zlen_cells; unfold malloc_max; lia |].
  rewrite zlen_cells in Hb. rewrite write_at_gap in Hbc by (simpl; lia).
  exists b. split; [done|]. split; [by rewrite Hbc, Z.sub_0_r|].
  set (s1 := mk_api (memset0 JSON_RESPONSE_BUF_SIZE) n1).
  assert (tg_file_load_contents w.(config) f w.(tg_api) = Ok (buffer_new, s1)) as Hload.
  { unfold tg_file_load_contents, set_json. rewrite pbind_assoc. prun_get.
  prun (pput_run w.(tg_api) (mk_api (memset0 JSON_RESPONSE_BUF_SIZE) w.(tg_api).(network))).
  prun_get. cbn [network]. destruct (tg_handle (net_of w)) as (Hi & _).
  change (network (tg_api w)) with (net_of w). rewrite Hi. cbn [negb].
  prun_lift Ht. prun_lift (id_array_string _ _ Hfid).
  prun_lift (get_url_fits tok (fid_of f) (c_string_no_NUL _ _ Ht) Hin Hlt Hil).
  assert (perform_json (mk_request (get_url tok (fid_of f)) None)
    (mk_api (memset0 JSON_RESPONSE_BUF_SIZE) (net_of w)) = Ok (code, s1)) as Hrun.
  { unfold perform_json. prun_get. cbn [network]. rewrite Hperf. done. }
  prun Hrun. by rewrite (proj2 (Z.eqb_neq _ _) Hcode). }
  unfold hello_write. prun (find_path_rep w fs p Hrep Hn). rewrite Hlk.
  cbn [fmap option_fmap option_map]. prun (deref_rep w fs k f Hrep Hk). rewrite Hty.
  prun_get. destruct (Z.gtb_spec f.(file_size) 0); [|lia].
  prun (in_api_run _ w _ _ Hload). rewrite u64_small by (unfold SIZE_MAX; lia).
  prun_lift Hb. rewrite i32_small by (unfold INT_MAX; lia). done.
Qed.

(** Readdir of a directory passes the dot entries and then the base name
of every file of the directory, in storage order, to the filler; on any
other path it passes nothing and returns ENOENT. *)
Theorem readdir_lists {D} (filler : D -> list byte -> Z * D) w fs p buf :
  rep w.(storage) fs -> NUL ∉ p ->
  hello_readdir p buf filler w =
  Ok (if is_dir_at p fs
      then (0, fill filler buf ([lit "."; lit ".."] ++ dir_names p fs))
      else (- ENOENT, buf), w).
Proof. apply readdir_spec. Qed.

(** C12: a path of 100 bytes or more makes mkdir and create write outside the
array of the new entry. *)
Theorem long_path_overflows w fs p :
  rep w.(storage) fs -> NUL ∉ p -> FILE_PATH_SIZE <= zlen p ->
  hello_mkdir p w = Fail OutOfBounds /\ hello_create p w = Fail OutOfBounds.
Proof. intros. split; [by apply mkdir_overflow | by eapply create_overflow]. Qed.
End props.

(** ** Witnesses on the toy server *)

Definition demo_calls : list call :=
  [ CMkdir (lit "/d"); CCreate (lit "/d/a"); CWrite (lit "/d/a") (lit "hello") 0;
    CWrite (lit "/d/a") (lit "p!") 3; CRead (lit "/d/a") 100 0; CReaddir (lit "/d");
    CGetattr (lit "/d/a"); CUnlink (lit "/d/a"); CRmdir (lit "/d"); COpen (lit "/d") ].

Lemma serves_as_memfs_witness :
  exists w0 rs w' m', main_setup toy_chat toy_tok toy_empty = Ok w0 /\
    exec_all demo_calls w0 = Ok (rs, w') /\ a_steps root_map demo_calls rs m' /\
    R (tok := toy_tok) (chat := toy_chat) (tg_quota toy_empty - uploads_all demo_calls) w' m'.
Proof.
  apply (serves_as_memfs toy_empty demo_calls).
  - exact toy_config.
  - vm_compute. discriminate.
  - apply (bool_decide_unpack _). vm_compute. exact I.
Defined.

(** The state a sequence of calls leads to from the start, as data. *)
Lemma toy_reaches cs q :
  uploads_all cs + q <= tg_quota toy_empty -> 0 <= q -> admissible_all root_map cs ->
  exists w m rs, a_steps root_map cs rs m /\ R (tok := toy_tok) (chat := toy_chat) q w m.
Proof.
  intros Hq Hq0 Hadm. destruct (setup_R (tok := toy_tok) (chat := toy_chat) toy_empty toy_config)
    as (w0 & _ & (fs & Hh & Hm & Hw)).
  destruct (sim_steps cs w0 root_map q) as (rs & w & m & _ & Hst & HR); [|done|done|].
  - exists fs. split; [done|]. split; [done|]. lia.
  - by exists w, m, rs.
Qed.

Lemma write_read_back_witness :
  exists (w w' : world toy),
    exec_all [CWrite (lit "/f") (lit "abc") 0; CRead (lit "/f") 3 0] w =
      Ok ([RInt 3; RData 3 (lit "abc")], w').
Proof.
  destruct (toy_reaches [CCreate (lit "/f")] 1) as (w & m & rs & Hst & HR).
  - vm_compute. discriminate.
  - done.
  - apply (bool_decide_unpack _). vm_compute. exact I.
  - exists w. apply (write_read_back w m (lit "/f") [] (lit "abc") 0).
    + exact HR.
    + destruct Hst as (r & rs' & m1 & _ & [_ ->] & [_ ->]). vm_compute. reflexivity.
    + no_NUL.
    + vm_compute. split; [reflexivity | discriminate].
    + vm_compute. split; discriminate.
    + vm_compute. reflexivity.
Defined.

Lemma rmdir_removes_only_witness :
  exists (w' : world toy) fs', hello_rmdir (lit "/d") (toy_world demo_table) = Ok (0, w') /\
    holds (tok := toy_tok) (chat := toy_chat) w' fs' /\
    lookup_path (lit "/d") fs' = None /\
    (forall f rest, filter (in_dir (lit "/d")) demo_table = f :: rest -> f ∉ fs') /\
    (forall f, f ∈ fs' -> f ∈ demo_table) /\
    (forall f, f ∈ demo_table -> path_of f <> lit "/d" -> ~ in_dir (lit "/d") f -> f ∈ fs').
Proof.
  apply (rmdir_removes_only (toy_world demo_table) demo_table (lit "/d")).
  - exact demo_holds.
  - no_NUL.
  - vm_compute. reflexivity.
Defined.

Lemma rmdir_skips_moved_file_witness :
  exists (w' : world toy) fs', hello_rmdir (lit "/d") (toy_world demo_table) = Ok (0, w') /\
    holds (tok := toy_tok) (chat := toy_chat) w' fs' /\
    (file_at (lit "/d/a") ∉ fs') /\ file_at (lit "/d/b") ∈ fs'.
Proof.
  apply (rmdir_skips_moved_file (toy_world demo_table) [dir_at (lit "/"); dir_at (lit "/d")]
    (file_at (lit "/d/a")) (file_at (lit "/d/b")) (lit "/d")).
  - exact demo_holds.
  - no_NUL.
  - vm_compute. reflexivity.
  - intros h [-> | [-> | []%elem_of_nil]%elem_of_cons]%elem_of_cons; vm_compute; intros [H1 H2]; congruence.
  - good.
  - good.
Defined.

Lemma create_again_hides_witness :
  exists g st, hello_create (lit "/d/a") (toy_world demo_table) =
      Ok (0, mk_world st toy_cfg (toy_world demo_table).(tg_api)) /\
    rep st (demo_table ++ [g]) /\ path_of g = lit "/d/a" /\
    lookup_path (lit "/d/a") (demo_table ++ [g]) = Some (2%nat, file_at (lit "/d/a")).
Proof.
  apply (create_again_hides (toy_world demo_table) demo_table (lit "/d/a") 2 (file_at (lit "/d/a"))).
  - apply demo_holds.
  - good.
  - vm_compute. reflexivity.
  - vm_compute. reflexivity.
  - vm_compute. discriminate.
Defined.

Lemma write_unknown_path_loses_witness :
  exists (w' : world toy) f,
    hello_write (lit "/new") (cells (lit "abc")) 3 0 (toy_world demo_table) = Ok (3, w') /\
    rep w'.(storage) (demo_table ++ [f]) /\ path_of f = lit "/new" /\ f.(file_size) = 3 /\
    (exists fid mid, tg_files (net_of w') !! fid = Some (mid, lit "abc")) /\
    hello_read (lit "/new") (uninit 10) 10 0 w' = Ok (0, uninit 10, w').
Proof.
  apply (write_unknown_path_loses (toy_world demo_table) demo_table (lit "/new") (lit "abc") 10 0).
  - exact demo_holds.
  - good.
  - vm_compute. reflexivity.
  - vm_compute. split; [reflexivity | discriminate].
  - vm_compute. discriminate.
  - vm_compute. reflexivity.
Defined.

Lemma readdir_lists_witness :
  hello_readdir (lit "/d") [] (fun l n => (0, l ++ [n])) (toy_world demo_table) =
    Ok (0, [lit "."; lit ".."; lit "a"; lit "b"], toy_world demo_table).
Proof.
  rewrite (readdir_lists (fun l n => (0, l ++ [n])) (toy_world demo_table) demo_table).
  - vm_compute. reflexivity.
  - apply demo_holds.
  - no_NUL.
Defined.

Lemma long_path_overflows_witness :
  hello_mkdir long_path (toy_world demo_table) = Fail OutOfBounds /\
  hello_create long_path (toy_world demo_table) = Fail OutOfBounds.
Proof.
  apply (long_path_overflows (toy_world demo_table) demo_table).
  - apply demo_holds.
  - no_NUL.
  - vm_compute. discriminate.
Defined.

Lemma write_after_failed_load_witness :
  exists b, buffer_wf b /\ contents b = uninit 5 ++ cells (lit "tail") /\
    hello_write (lit "/f") (cells (lit "tail")) 4 5 (toy_world [lost_entry]) =
      (g <-- in_api (tg_put_file lost_entry toy_cfg b) ;;
       Hello.store (Z.of_nat 0) (with_file_size g b.(Buffer.size)) ;;;
       pret 4)
      (mk_world (toy_world [lost_entry]).(storage) toy_cfg
        (mk_api (memset0 JSON_RESPONSE_BUF_SIZE) toy_empty)).
Proof.
  apply (write_after_failed_load (tok := toy_tok) (chat := toy_chat)
    (toy_world [lost_entry]) [lost_entry] (lit "/f") 0 lost_entry (lit "tail") 5 22 toy_empty).
  - apply toy_world_rep; [|vm_compute; discriminate]. constructor; [exact lost_entry_wf | constructor].
  - split; [|split; [|split]]; vm_compute; reflexivity.
  - no_NUL.
  - vm_compute. reflexivity.
  - reflexivity.
  - vm_compute. reflexivity.
  - vm_compute. reflexivity.
  - discriminate.
  - vm_compute. discriminate.
  - vm_compute. discriminate.
Defined.

End FsProps.
